(* ===== verification/_CoqProject ===== *)
-Q . S2P
Prelude.v
GoStrings.v
GoTime.v
Uuid.v
Rolling.v
TrafficProvider.v
BlueGreen.v
Lifecycle.v
WebhookPolicy.v
Preflight.v
TaskStore.v
Transaction.v
TaskQueue.v
TaskLocks.v
TaskLeases.v
StepEvents.v
TaskSystem.v
TaskCreation.v
TaskSteps.v
TaskGuarantees.v
VariableResolution.v
GoRegexp.v
GoJson.v
StepRedaction.v
GoFloat.v
JsonDecode.v
JsonStruct.v
JsonRaw.v
VariableJson.v
ActionRegistry.v
ExternalExecution.v
ExternalProtocol.v
ExternalGuarantees.v
TimestampCanonical.v
TimestampManifest.v
TimestampGuarantees.v
TimestampTables.v
TimestampVerify.v
TimestampReading.v
TimestampApply.v
TimestampEffects.v
TimestampLedger.v
TimestampInspection.v
TimestampOutcomes.v
DeploymentProcess.v
ProcessGraph.v
ProcessTables.v
ProcessSnapshots.v
VariableSets.v
VariableTables.v
VariableSnapshots.v
Retention.v
RetentionGuarantees.v
ChannelRules.v
Channels.v
ChannelTables.v
Conditions.v
ReleaseContract.v
BundleContent.v
ReleaseBundles.v
BundleTables.v
BundleGuarantees.v
DeploymentPlans.v
PlanResolution.v
PlanTables.v
PlanGuarantees.v
