(* ===== verification/Prelude.v ===== *)
(** * Distr: a verification development of the control plane (root file)

    Distr is a Go program: a hub with a PostgreSQL database that plans, gates
    and executes software deployments, and agents that execute the steps on
    the targets of customers. This library models the decision logic of the
    hub, mostly under [src/internal/], as functions and proves what operators
    and executors rely on.

    ** How the parts interact

    A deployment process with numbered revisions says which steps a deployment
    has ([DeploymentProcess], the inputs of its steps checked by
    [ActionRegistry]). A channel says which versions and sources a release may
    have ([Channels], [ChannelRules]); its life cycle says through which
    environments the release may advance ([Lifecycle]). Variable sets hold the
    values of an application ([VariableSets]). A release bundle holds components
    or other bundles and a contract about what it was built from and what it
    needs ([ReleaseContract], [BundleContent]); its publication freezes the
    process and the variables ([ReleaseBundles], [ProcessSnapshots],
    [VariableSnapshots]). A deployment plan freezes the bundle, the targets and
    their components, the steps with their conditions ([Conditions]) and the
    resolved variables ([VariableResolution]), and lists what speaks against it
    ([DeploymentPlans], [PlanTables]). The plan passes a preflight ([Preflight]) and
    becomes tasks, one per target, with resource locks and step runs
    ([TaskQueue]). Executors, agents or the hub, lease tasks and their ready
    steps ([TaskLeases]) and report events that drive steps and tasks
    ([StepEvents]), with secrets redacted ([StepRedaction]). A webhook step can
    hand its work to an external executor, which reports back through callbacks
    ([ExternalExecution]); the wall clocks that old executions stored without a
    zone get their instants through manifests of evidence, which are drafted
    from the tables, sealed, applied and verified ([TimestampManifest],
    [TimestampTables], [TimestampVerify], [TimestampApply]).
    Strategies decide which targets are touched when
    ([Rolling], [BlueGreen] with [TrafficProvider]); webhooks are guarded by a
    policy engine ([WebhookPolicy]). Retention policies decide what a cleanup may
    remove ([Retention]).

    ** Files

    Foundations:
    - [Prelude]: results of fallible functions, machine integers, stable
      sorting, list lemmas, the tactics and hint databases.
    - [GoStrings], [Uuid], [GoRegexp], [GoJson], [GoFloat], [GoTime]: the part of
      Go's [strings], [unicode/utf8], [regexp], [encoding/json], [strconv] and
      [time] packages and of the uuid library that the program uses;
      [JsonDecode], [JsonStruct], [JsonRaw]: how [encoding/json] decodes into
      values, structs and raw messages, and the round trips.
    - [TaskStore]: the rows of the task tables ([types/task_queue.go],
      [types/task_leases.go]) and the transaction monad ([db/tx.go]);
      [Transaction]: the same monad for the tables of any component.

    The task system:
    - [TaskQueue] ([db/task_queue.go]), [TaskLocks] (its order of advisory
      locks), [TaskLeases] ([db/task_leases.go]), [StepEvents]
      ([db/step_events.go]): one definition per Go function and per SQL
      statement, composed as in the code.
    - [TaskSystem], [TaskCreation], [TaskSteps], [TaskGuarantees]: the four
      components as one transition system over the shared tables, its
      invariant, what creation does, and the guarantees.
    - [ExternalExecution] ([db/external_executions.go],
      [externalexecution/state.go]), [ExternalProtocol] (its invariant, beside
      the task system), [ExternalGuarantees].

    The migration of timestamps ([externalexecutiontimestamp],
    [db/external_execution_timestamps.go]):
    - [TimestampCanonical] (canonical forms, checksums, instants),
      [TimestampManifest] (validation, supersession, sealing),
      [TimestampGuarantees] (what they accept and keep).
    - [TimestampTables] (schema contract, guards, cells, inspection, validation
      against the tables), [TimestampVerify] (stored manifests, tombstones,
      verification, the chain of manifests, readiness), [TimestampApply] (dry run
      and application).
    - [TimestampReading] (what verification accepts), [TimestampEffects] and
      [TimestampLedger] (what an application writes and that it is read back),
      [TimestampInspection] (what an inspection drafts), [TimestampOutcomes] (an
      application, its repetition, an example).

    Planning and policy:
    - [DeploymentProcess] ([db/deployment_processes.go]), [ProcessGraph] (the
      check of the step graph), [ProcessTables] (revisions are read back and
      never change), [ActionRegistry] ([actionregistry/registry.go]).
    - [ChannelRules] ([channelrules/rules.go]), [Channels]
      ([db/channels.go], [handlers/channels.go]), [ChannelTables] (the default
      channel of an application).
    - [VariableSets] ([db/variable_sets.go]), [VariableJson] (values as JSON),
      [VariableTables] (what is written is read); [VariableSnapshots]
      ([db/variable_snapshots.go]), [ProcessSnapshots]
      ([processsnapshots/canonical.go], [db/process_snapshots.go]).
    - [BundleContent] ([releasebundles/canonical.go], [validation.go]),
      [ReleaseBundles] ([db/release_bundles.go]), [BundleTables] (its invariant),
      [BundleGuarantees].
    - [Conditions] ([conditions/conditions.go]), [ReleaseContract]
      ([releasebundles/release_contract.go]), [DeploymentPlans]
      ([db/deployment_plans.go]: how a plan is resolved), [PlanTables] (the same
      file: how it is stored and read), [PlanResolution] (when a plan is ready
      and what it holds), [PlanGuarantees] (stored plans).
    - [Lifecycle] ([lifecycle/eligibility.go]), [Preflight]
      ([deploymentpreflight/evaluate.go]), [VariableResolution]
      ([variablescope], [variableresolution]).
    - [Rolling] ([deployments/rolling.go]), [BlueGreen]
      ([deployments/bluegreen/bluegreen.go]), [TrafficProvider]
      ([traffic/provider/provider.go]), [WebhookPolicy] ([policy/*.go]).
    - [StepRedaction] ([stepredaction/redaction.go]).
    - [Retention] ([db/retention_policies.go]), [RetentionGuarantees].

    ** How the code is modelled

    A Go function that returns an error is a function to [result]; a function
    that reads and writes the database is a transaction over a record with one
    list per table, in which an error leaves no trace. A row is the struct of the
    code without the columns that only record times of creation and update,
    unless something reads them. A SQL statement is one definition: conditions
    are boolean functions of a row, [ORDER BY] is [stable_sort], and the
    constraints of the schema (keys, unique names, widths of integers,
    restricted references) are errors of the write that violates them. A handler
    runs alone: the transactions of the program lock the rows they change, so
    the systems are sequences of whole operations, in any order and with any
    arguments. The clock, generated keys and the order in which Go ranges over a
    map are arguments. Libraries (semantic versions, globs, JSON schemas, URLs,
    the parser of identifiers [UuidParser], SHA-256 as [Crypto]) and what
    PostgreSQL does with a text or a JSON value (the order of [ORDER BY] as
    [Collation], the text of a [jsonb] as [Jsonb] with its laws [JsonbLaws]) are
    type classes, with an instance in every example. Nothing is assumed of
    SHA-256 but that digests are printed as 64 hexadecimal digits
    ([hex_digests]); where two texts could collide, a theorem says so. What the
    queries of the system catalogs return is the record [TimestampTables.Catalog]. The columns of a plan are the struct's fields, and every part
    of a plan is a row of its own table.

    ** What the theorems show

    - The task system, for every reachable state: two running tasks never hold
      conflicting locks, a running task holds all its locks and a finished one
      none, statuses move along the documented edges only, a task has one active
      lease at most, an executor that lost its lease is fenced off, events are
      numbered without gaps and take effect once; what a lease grants, what an
      event does to its task, and what the concurrency policies of a creation do.
    - External executions: the history of an execution and its final states, that
      an open one can always be closed, what a success attests, the replay of
      callbacks.
    - Processes: the graph check accepts exactly the executable step graphs, a
      revision is read back as it was normalized and never changes.
    - Plans: a plan is ready exactly when the release may go to the environment
      and its steps, variables, contract, platforms and agents fit; what it
      freezes; a created plan is read back from its tables as it was resolved and
      never changes but for its execution mark. Every contract has a normal form.
    - Release bundles: once published, content, snapshots and children stay for
      ever; the audit events replay to the status; when a publication succeeds
      and what its failure leaves; idempotency keys; process snapshots are
      decoded to what they were made from.
    - Variable sets: what is written is read back, normalized.
    - Timestamps: validation accepts exactly the valid manifests, a chain of
      manifests keeps what was decided, sealing approves valid drafts, an
      inspection drafts a valid manifest of all cells; an application fills
      exactly the instants that are proven, can be repeated, and changes nothing
      else; verification as a predicate on the tables.
    - Channels: every application with channels has one default channel, and what
      the rules accept.
    - Strategies and policies: bounds on unavailability, the gating of traffic by
      health checks, the bounds of the webhook policies, when a release is
      eligible and when a preflight passes, which value a variable gets, that no
      secret survives the redaction.
    - Retention: a cleanup proposes exactly the releases that need not stay.
    - Defects: a contract with upper-case digits in a checksum is valid but every
      plan of its release fails ([uppercase_checksum_unplannable]); a completed
      blue/green deployment accepts a second traffic shift that makes an empty
      slot active ([bg_completed_shift_replaces_active]); a cleanup preview lists
      a release once for every place where it is deployed
      ([retention_counts_places]); a draft that was created with an idempotency
      key can never be deleted ([keyed_bundle_never_deleted]); a prompted value is
      checked against the last variable of a key only; a sealed manifest with a
      zone of blanks passes its dry run but can never be applied
      ([blank_zone_unappliable]).

    ** Bounds and fuel

    The loop that selects ready steps ([TaskLeases.ready_loop]), the depth-first
    search of [DeploymentProcess.visit] and [StepRedaction.replace_fuel] take
    fuel: the number of candidates, of steps and of bytes. A pass of the loop
    makes one more step ready, a path of the search has no step twice, and a
    replacement consumes a byte; [ready_steps_topological],
    [process_graph_accepted_iff] and [redaction_hides_secrets] rest on lemmas that
    the fuel suffices. The JSON scanner has twice the number of bytes, which
    [GoJson.json_raw_fuel] shows to be enough.
    The parser of JSON values and of raw members has the length of its text, the
    shortest digits of a float the 17 that always suffice. The loops along a
    chain of manifests have the number of stored manifests as fuel, and
    [lifecycle_baseline_fuel], [manifest_chain_fuel] and [deleted_promotions_fuel]
    show that more changes nothing.
    A rolling deployment is driven for as many windows as it has
    targets ([rolling_completes]).

    ** What is not modelled

    Runbooks, variable drift, the validation of configuration as code, the actions
    of the hub and of the agents. Of timestamps: the handling of connections and
    of the advisory lock beyond its acquisition, the text of the catalog queries,
    the triggers that write tombstones when an organization is deleted, and the
    recovery of a dirty migration. Of a plan: the list of an organization's plans, failing queries
    other than for a missing row or a violated constraint, the decoding of the stored
    snapshots (a snapshot that cannot be decoded is a row without content), and
    texts that the database cannot store (NUL, invalid UTF-8). [conditions.Evaluate]
    is called by no other code. Left aside:
    HTTP routing, authentication, mail, billing, observability, the artifact
    registry, migrations and the frontend, which are I/O around libraries.
    Isolation of concurrent transactions is that of PostgreSQL; [TaskLocks] shows
    that the advisory locks are taken in one order. *)
From stdpp Require Export base list gmap strings sorting.
From Stdlib Require Export ZArith Lia.

(** ** Results and the error monad

    A Go function that returns [(T, error)] is modelled by [result E T]:
    [Ok v] is [(v, nil)], [Err e] is the zero value with the error [e]. *)

Inductive result (E A : Type) : Type :=
| Ok (a : A)
| Err (e : E).
Arguments Ok {E A} a.
Arguments Err {E A} e.

#[export] Instance result_ret {E} : MRet (result E) := fun A => @Ok E A.
#[export] Instance result_bind {E} : MBind (result E) :=
  fun A B f m => match m with Ok a => f a | Err e => Err e end.
#[export] Instance result_fmap {E} : FMap (result E) :=
  fun A B f m => match m with Ok a => Ok (f a) | Err e => Err e end.
#[export] Instance result_eq_dec {E A} `{EqDecision E, EqDecision A} : EqDecision (result E A).
Proof. solve_decision. Defined.

(** [if cond { return err }]: the Go early return. *)
Definition fail_if {E} (cond : bool) (e : E) : result E unit :=
  if cond then Err e else Ok tt.

Definition is_ok {E A} (r : result E A) : bool :=
  match r with Ok _ => true | Err _ => false end.

(** The value of a successful result, for concrete instances. *)
Definition ok_or {E A} (d : A) (r : result E A) : A :=
  match r with Ok a => a | Err _ => d end.

Lemma ok_value {E A} (r : result E A) : is_ok r = true -> exists a, r = Ok a.
Proof. destruct r as [a|]; [by exists a|done]. Qed.

(** Validate every element in order, stopping at the first error. *)
Fixpoint for_each {E A} (f : A -> result E unit) (l : list A) : result E unit :=
  match l with
  | [] => Ok tt
  | x :: l => match f x with Ok _ => for_each f l | Err e => Err e end
  end.

Lemma result_bind_ok {E A B} (m : result E A) (f : A -> result E B) b :
  (m ≫= f) = Ok b <-> exists a, m = Ok a /\ f a = Ok b.
Proof. destruct m; simpl; naive_solver. Qed.

Lemma fail_if_ok {E} (c : bool) (e : E) u : fail_if c e = Ok u <-> c = false.
Proof. destruct u, c; simpl; naive_solver. Qed.

(** A chain of early returns, rewritten into nested conditionals and then into
    the conjunction of the conditions under which it succeeds. *)
Lemma fail_if_bind {E A} (c : bool) (e : E) (k : unit -> result E A) :
  (fail_if c e ≫= k) = if c then Err e else k tt.
Proof. by destruct c. Qed.

Lemma if_err_ok {E A} (c : bool) (e : E) (r : result E A) a :
  (if c then Err e else r) = Ok a <-> c = false /\ r = Ok a.
Proof. destruct c; naive_solver. Qed.

Lemma for_each_ok {E A} (f : A -> result E unit) l :
  for_each f l = Ok tt <-> Forall (fun x => f x = Ok tt) l.
Proof.
  induction l as [|x l IH]; simpl; [split; auto|].
  rewrite Forall_cons, <- IH. destruct (f x) as [[]|]; naive_solver.
Qed.

Create HintDb distr discriminated.
Create Rewrite HintDb distr.
#[export] Hint Rewrite @result_bind_ok @fail_if_bind @if_err_ok @fail_if_ok @for_each_ok : distr.

(** ** Tactics *)

(** Split every boolean condition of the goal or the context into its cases. *)
Ltac bool_cases :=
  repeat match goal with
  | |- context [if ?b then _ else _] => destruct b eqn:?
  | H : context [if ?b then _ else _] |- _ => destruct b eqn:?
  end.

(** Turn boolean facts into propositions. *)
Ltac to_prop :=
  repeat match goal with
  | H : bool_decide _ = true |- _ => apply bool_decide_eq_true_1 in H
  | H : bool_decide _ = false |- _ => apply bool_decide_eq_false_1 in H
  | H : (_ && _) = true |- _ => apply andb_true_iff in H as [? ?]
  | H : (_ || _) = false |- _ => apply orb_false_iff in H as [? ?]
  | H : negb _ = false |- _ => apply negb_false_iff in H
  | H : negb _ = true |- _ => apply negb_true_iff in H
  | H : (_ =? _)%Z = true |- _ => apply Z.eqb_eq in H
  | H : (_ =? _)%Z = false |- _ => apply Z.eqb_neq in H
  | H : (_ <? _)%Z = true |- _ => apply Z.ltb_lt in H
  | H : (_ <? _)%Z = false |- _ => apply Z.ltb_ge in H
  | H : (_ <=? _)%Z = true |- _ => apply Z.leb_le in H
  | H : (_ <=? _)%Z = false |- _ => apply Z.leb_gt in H
  end.

(** Invert every successful step of a chain of early returns. *)
Ltac inv_result :=
  repeat match goal with
  | H : Ok _ = Ok _ |- _ => injection H; clear H; intros; subst
  | H : Err _ = Err _ |- _ => injection H; clear H; intros; subst
  | H : Ok _ = Err _ |- _ => discriminate H
  | H : Err _ = Ok _ |- _ => discriminate H
  | H : fail_if _ _ = Ok _ |- _ => apply fail_if_ok in H
  | H : (_ ≫= _) = Ok _ |- _ => apply result_bind_ok in H as (? & ? & ?)
  end.

(** ** Machine integers: Go's [int] and [int64] are 64-bit two's complement. *)

Definition int64_min : Z := (-9223372036854775808)%Z.
Definition int64_max : Z := 9223372036854775807%Z.
Definition wrap64 (z : Z) : Z := ((z + 2^63) mod 2^64 - 2^63)%Z.
Definition in_int64 (z : Z) : Prop := (int64_min <= z <= int64_max)%Z.
(** A PostgreSQL [INTEGER] column. *)
Definition in_int32 (z : Z) : Prop := (-2147483648 <= z <= 2147483647)%Z.

Lemma wrap64_id z : in_int64 z -> wrap64 z = z.
Proof.
  unfold in_int64, int64_min, int64_max, wrap64. intros H.
  rewrite Z.mod_small by lia. lia.
Qed.

Lemma wrap64_range z : in_int64 (wrap64 z).
Proof.
  unfold in_int64, int64_min, int64_max, wrap64.
  pose proof (Z.mod_pos_bound (z + 2^63) (2^64)). lia.
Qed.

(** ** Stable sorting

    Go's [sort.SliceStable] and [slices.SortStableFunc] are modelled by
    insertion sort: for a strict weak order a stable sort has one result. For
    [sort.Slice] the same definition is used where the keys are distinct, so
    that stability does not matter. *)

Class StrictWeakOrder {A} (less : A -> A -> bool) : Prop := {
  swo_asym x y : less x y = true -> less y x = false;
  swo_ntrans x y z : less y x = false -> less z y = false -> less z x = false;
}.

Section stable_sort.
Context {A : Type} (less : A -> A -> bool).

Fixpoint insert_sorted (x : A) (l : list A) : list A :=
  match l with
  | [] => [x]
  | y :: l => if less y x then y :: insert_sorted x l else x :: y :: l
  end.

Fixpoint stable_sort (l : list A) : list A :=
  match l with
  | [] => []
  | x :: l => insert_sorted x (stable_sort l)
  end.

(** Not strictly greater: the order in which the result is sorted. *)
Definition not_after (x y : A) : Prop := less y x = false.

Lemma insert_sorted_perm x l : insert_sorted x l ≡ₚ x :: l.
Proof.
  induction l as [|y l IH]; simpl; [done|].
  destruct (less y x); [|done]. rewrite IH. constructor.
Qed.

Lemma stable_sort_perm l : stable_sort l ≡ₚ l.
Proof.
  induction l as [|x l IH]; simpl; [done|].
  by rewrite insert_sorted_perm, IH.
Qed.

Lemma length_stable_sort l : length (stable_sort l) = length l.
Proof. by rewrite stable_sort_perm. Qed.

Lemma elem_of_stable_sort x l : x ∈ stable_sort l <-> x ∈ l.
Proof. by rewrite stable_sort_perm. Qed.

Context `{!StrictWeakOrder less}.

Lemma insert_sorted_sorted x l :
  StronglySorted not_after l -> StronglySorted not_after (insert_sorted x l).
Proof.
  induction 1 as [|y l Hs IH Hy]; simpl; [repeat constructor|].
  destruct (less y x) eqn:E; constructor; [exact IH| |by constructor|].
  - rewrite insert_sorted_perm. constructor; [|done]. by apply swo_asym.
  - constructor; [done|]. eapply Forall_impl; [exact Hy|]. intros z Hz.
    unfold not_after in *. eauto using swo_ntrans.
Qed.

Lemma stable_sort_sorted l : StronglySorted not_after (stable_sort l).
Proof. induction l; simpl; [constructor | by apply insert_sorted_sorted]. Qed.

(** Elements of one equivalence class keep their relative order. *)
Definition same_rank (k x : A) : bool := negb (less k x) && negb (less x k).

Lemma insert_sorted_filter k x l :
  filter (fun y => same_rank k y = true) (insert_sorted x l)
  = filter (fun y => same_rank k y = true) (x :: l).
Proof.
  induction l as [|y l IH]; [done|]. simpl insert_sorted.
  destruct (less y x) eqn:E; [|done].
  rewrite (filter_cons _ y (insert_sorted x l)), IH, !filter_cons.
  destruct (decide (same_rank k y = true)) as [Hy|], (decide (same_rank k x = true)) as [Hx|];
    try done.
  exfalso. unfold same_rank in *. to_prop.
  assert (less y x = false) by eauto using swo_ntrans. congruence.
Qed.

Lemma stable_sort_stable k l :
  filter (fun y => same_rank k y = true) (stable_sort l)
  = filter (fun y => same_rank k y = true) l.
Proof.
  induction l as [|x l IH]; [done|]. simpl stable_sort.
  rewrite insert_sorted_filter, !filter_cons, IH. done.
Qed.
End stable_sort.

#[export] Hint Resolve stable_sort_sorted stable_sort_perm : distr.

(** When only equal elements are ordered neither way, the order of the input
    does not matter. *)
Lemma stable_sort_unique {A} (less : A -> A -> bool) `{!StrictWeakOrder less} k l :
  k ≡ₚ l -> (forall x y, x ∈ k -> y ∈ k -> less x y = false -> less y x = false -> x = y) ->
  stable_sort less k = stable_sort less l.
Proof.
  intros Hp Ha. apply (StronglySorted_unique_strong (not_after less));
    [| by apply stable_sort_sorted .. | by rewrite !stable_sort_perm].
  intros x y Hx%elem_of_stable_sort Hy%elem_of_stable_sort H1 H2.
  rewrite <- Hp in Hy. by apply Ha.
Qed.

(** The head of a sorted list comes before every other element. *)
Lemma stable_sort_head {A} (less : A -> A -> bool) `{!StrictWeakOrder less} l x k :
  stable_sort less l = x :: k -> x ∈ l /\ forall y, y ∈ l -> y = x \/ less y x = false.
Proof.
  intros E. pose proof (stable_sort_sorted less l) as Hs. rewrite E in Hs.
  apply StronglySorted_inv in Hs as [_ Hx]. rewrite Forall_forall in Hx. split.
  - apply (elem_of_stable_sort less). rewrite E. by left.
  - intros y Hy%(elem_of_stable_sort less). rewrite E, elem_of_cons in Hy.
    destruct Hy as [->|Hy]; [by left|]. right. by apply Hx.
Qed.

(** Comparisons that agree on the elements of a list sort it alike. *)
Lemma insert_sorted_ext {A} (f g : A -> A -> bool) x l :
  (forall y, y ∈ l -> f y x = g y x) -> insert_sorted f x l = insert_sorted g x l.
Proof.
  induction l as [|y l IH]; intros H; [done|]. simpl. rewrite (H y) by (by left).
  destruct (g y x); [|done]. f_equal. apply IH. intros z Hz. apply H. by right.
Qed.

Lemma stable_sort_ext {A} (f g : A -> A -> bool) l :
  (forall x y, x ∈ l -> y ∈ l -> f x y = g x y) -> stable_sort f l = stable_sort g l.
Proof.
  induction l as [|x l IH]; intros H; [done|]. simpl.
  rewrite IH by (intros y z Hy Hz; apply H; by right).
  apply insert_sorted_ext. intros y Hy. apply elem_of_stable_sort in Hy.
  apply H; [by right | by left].
Qed.

(** *** Comparison chains: [if a.k != b.k { return a.k < b.k } ...] *)

Definition less_by {A} (f : A -> Z) (x y : A) : bool := (f x <? f y)%Z.
Definition less_then {A} (f : A -> Z) (next : A -> A -> bool) (x y : A) : bool :=
  if (f x =? f y)%Z then next x y else (f x <? f y)%Z.

#[export] Instance less_by_swo {A} (f : A -> Z) : StrictWeakOrder (less_by f).
Proof. split; unfold less_by; intros; to_prop; lia || (apply Z.ltb_ge; lia). Qed.

#[export] Instance less_then_swo {A} (f : A -> Z) (next : A -> A -> bool)
  `{!StrictWeakOrder next} : StrictWeakOrder (less_then f next).
Proof.
  split; unfold less_then.
  - intros x y H. rewrite (Z.eqb_sym (f y)).
    destruct (Z.eqb_spec (f x) (f y)); [by apply swo_asym|]. to_prop. apply Z.ltb_ge; lia.
  - intros x y z H1 H2.
    destruct (Z.eqb_spec (f y) (f x)), (Z.eqb_spec (f z) (f y)), (Z.eqb_spec (f z) (f x));
      to_prop; try lia; try (apply Z.ltb_ge; lia). eauto using swo_ntrans.
Qed.

(** ** Lists *)

(** Go's [for i, x := range l { if p(x) { return i } }; return -1]. *)
Fixpoint find_index {A} (p : A -> bool) (l : list A) : option nat :=
  match l with
  | [] => None
  | x :: l => if p x then Some 0 else S <$> find_index p l
  end.

Lemma find_index_Some {A} (p : A -> bool) l i :
  find_index p l = Some i ->
  (exists x, l !! i = Some x /\ p x = true)
  /\ (forall j y, j < i -> l !! j = Some y -> p y = false).
Proof.
  revert i. induction l as [|x l IH]; intros i; simpl; [done|].
  destruct (p x) eqn:E.
  - intros [= <-]. split; [by exists x|]. lia.
  - destruct (find_index p l) as [k|]; [|done]. intros [= <-].
    destruct (IH k eq_refl) as [H1 H2]. split; [done|].
    intros [|j] y Hj Hy; simpl in Hy; [congruence|]. eapply H2; [|done]. lia.
Qed.

Lemma find_index_None {A} (p : A -> bool) l :
  find_index p l = None <-> forall x, x ∈ l -> p x = false.
Proof.
  induction l as [|x l IH]; simpl.
  - split; [|done]. intros _ x Hx. by apply elem_of_nil in Hx.
  - destruct (p x) eqn:E.
    + split; [done|]. intros H. rewrite (H x) in E; [done|]. by left.
    + rewrite fmap_None, IH. split.
      * intros H y [->|Hy]%elem_of_cons; auto.
      * intros H y Hy. apply H. by right.
Qed.

(** The number of elements that satisfy a boolean predicate. *)
Definition count {A} (p : A -> bool) (l : list A) : nat := length (List.filter p l).

Lemma count_cons {A} (p : A -> bool) x l :
  count p (x :: l) = (if p x then 1 else 0) + count p l.
Proof. unfold count; simpl; destruct (p x); reflexivity. Qed.

Lemma count_app {A} (p : A -> bool) l1 l2 : count p (l1 ++ l2) = count p l1 + count p l2.
Proof. unfold count. by rewrite List.filter_app, length_app. Qed.

Lemma count_le_length {A} (p : A -> bool) l : count p l <= length l.
Proof. induction l as [|x l IH]; [done|]. rewrite count_cons. simpl. destruct (p x); lia. Qed.

Lemma count_zero {A} (p : A -> bool) l : count p l = 0 <-> forall x, x ∈ l -> p x = false.
Proof.
  induction l as [|x l IH].
  - split; [|done]. intros _ x Hx. by apply elem_of_nil in Hx.
  - rewrite count_cons. split.
    + intros H y [->|Hy]%elem_of_cons; [destruct (p x); [lia|done]|].
      apply IH; [destruct (p x); lia | done].
    + intros H. rewrite (H x) by (by left). apply IH. intros y Hy. apply H. by right.
Qed.

Lemma count_ext {A} (p q : A -> bool) l :
  (forall x, x ∈ l -> p x = q x) -> count p l = count q l.
Proof.
  induction l as [|x l IH]; intros H; [done|].
  rewrite !count_cons, (H x) by (by left). f_equal. apply IH. intros y Hy. apply H. by right.
Qed.

Lemma count_insert {A} (p : A -> bool) l i (x y : A) :
  l !! i = Some x ->
  count p (<[i := y]> l) + (if p x then 1 else 0) = count p l + (if p y then 1 else 0).
Proof.
  revert i. induction l as [|z l IH]; intros [|i] H; simpl in H; [done..| |].
  - injection H as ->. simpl. rewrite !count_cons. lia.
  - simpl. rewrite !count_cons. specialize (IH i H). lia.
Qed.

#[export] Hint Rewrite @count_cons @count_app : distr.

(** [slices.Contains]. *)
Definition contains {A} `{EqDecision A} (l : list A) (x : A) : bool := bool_decide (x ∈ l).

Lemma contains_true {A} `{EqDecision A} (l : list A) x : contains l x = true <-> x ∈ l.
Proof. apply bool_decide_eq_true. Qed.

Lemma contains_false {A} `{EqDecision A} (l : list A) x : contains l x = false <-> x ∉ l.
Proof. apply bool_decide_eq_false. Qed.

#[export] Hint Rewrite @contains_true @contains_false : distr.

(** Keep the first element of each key: the Go pattern
    [if _, ok := seen[key(x)]; ok { continue }; seen[key(x)] = struct{}{}]. *)
Fixpoint dedup_by {A K} `{EqDecision K} (key : A -> K) (seen : list K) (l : list A) : list A :=
  match l with
  | [] => []
  | x :: l =>
      if bool_decide (key x ∈ seen) then dedup_by key seen l
      else x :: dedup_by key (key x :: seen) l
  end.

Lemma dedup_by_keys {A K} `{EqDecision K} (key : A -> K) seen l :
  NoDup (key <$> dedup_by key seen l)
  /\ forall x, x ∈ dedup_by key seen l -> key x ∉ seen.
Proof.
  revert seen. induction l as [|x l IH]; intros seen; simpl.
  - split; [constructor|]. intros x Hx. by apply elem_of_nil in Hx.
  - case_bool_decide as Hx; [apply IH|]. destruct (IH (key x :: seen)) as [H1 H2].
    split.
    + simpl. constructor; [|done]. intros (y & Hy & Hin)%list_elem_of_fmap.
      apply (H2 y Hin). rewrite <- Hy. by left.
    + intros y [->|Hy]%elem_of_cons; [done|]. intros Hs. apply (H2 y Hy). by right.
Qed.

Lemma dedup_by_complete {A K} `{EqDecision K} (key : A -> K) seen l x :
  x ∈ l -> key x ∈ seen \/ key x ∈ key <$> dedup_by key seen l.
Proof.
  revert seen. induction l as [|y l IH]; intros seen Hx; simpl; [by apply elem_of_nil in Hx|].
  apply elem_of_cons in Hx as [->|Hx].
  - case_bool_decide; [by left|]. right. by left.
  - case_bool_decide.
    + by apply IH.
    + destruct (IH (key y :: seen) Hx) as [[->|?]%elem_of_cons|?]; auto.
      * right. by left.
      * right. by right.
Qed.

Lemma dedup_by_sub {A K} `{EqDecision K} (key : A -> K) seen l x :
  x ∈ dedup_by key seen l -> x ∈ l.
Proof.
  revert seen. induction l as [|y l IH]; intros seen; simpl; [done|].
  case_bool_decide; rewrite ?elem_of_cons; naive_solver.
Qed.

(** A key without repetitions identifies the element. *)
Lemma NoDup_fmap_elem {A B} (f : A -> B) (l : list A) x y :
  NoDup (f <$> l) -> x ∈ l -> y ∈ l -> f x = f y -> x = y.
Proof.
  intros Hnd Hx Hy E. apply list_elem_of_lookup in Hx as [i Hi], Hy as [j Hj].
  assert (i = j) as ->; [|congruence].
  eapply (NoDup_lookup _ _ _ (f x) Hnd); rewrite list_lookup_fmap; [by rewrite Hi | by rewrite Hj, E].
Qed.

(** Sorting a sorted list changes nothing. *)
Lemma stable_sort_id {A} (less : A -> A -> bool) l :
  StronglySorted (not_after less) l -> stable_sort less l = l.
Proof.
  induction 1 as [|x l Hs IH Hx]; [done|]. simpl. rewrite IH. clear IH Hs.
  destruct l as [|y l]; [done|]. simpl. apply Forall_cons in Hx as [Hy _]. by rewrite Hy.
Qed.

Lemma Forall2_compose {X Y W} k l m (P : X -> Y -> Prop) (Q : Y -> W -> Prop) (R : X -> W -> Prop) :
  (forall x y z, P x y -> Q y z -> R x z) -> Forall2 P k l -> Forall2 Q l m -> Forall2 R k m.
Proof.
  intros H HP. revert m. induction HP; intros m HQ; inversion HQ; subst; constructor; eauto.
Qed.

Lemma sublist_filter_bool {A} (p : A -> bool) l : sublist (List.filter p l) l.
Proof. induction l as [|x l IH]; simpl; [done|]. destruct (p x); by constructor. Qed.

(** Distinct indices make distinct elements. *)
Lemma NoDup_imap {A B} (f : nat -> A -> B) l :
  (forall i j x y, l !! i = Some x -> l !! j = Some y -> f i x = f j y -> i = j) -> NoDup (imap f l).
Proof.
  intros H. apply NoDup_alt. intros i j y. rewrite !list_lookup_imap.
  intros (x & Hx & Ex)%fmap_Some (z & Hz & Ez)%fmap_Some. apply (H i j x z); congruence.
Qed.

Lemma StronglySorted_filter_bool {A} (R : A -> A -> Prop) (p : A -> bool) l :
  StronglySorted R l -> StronglySorted R (List.filter p l).
Proof.
  induction 1 as [|x l _ IH Hx]; simpl; [constructor|]. destruct (p x); [|done]. constructor; [done|].
  rewrite Forall_forall in Hx |- *. intros y [Hy _]%list_elem_of_In%filter_In. by apply Hx, list_elem_of_In.
Qed.

Lemma StronglySorted_imap {A B} (R : B -> B -> Prop) (f : nat -> A -> B) l :
  (forall i j x y, i < j -> R (f i x) (f j y)) -> StronglySorted R (imap f l).
Proof.
  revert f. induction l as [|x l IH]; intros f H; simpl; constructor.
  - apply IH. intros i j a b Hij. apply H. lia.
  - apply Forall_forall. intros y (i & z & -> & _)%elem_of_lookup_imap. apply H. lia.
Qed.

Lemma filter_none_bool {A} (p : A -> bool) l : (forall x, x ∈ l -> p x = false) -> List.filter p l = [].
Proof.
  induction l as [|x l IH]; intros H; [done|]. simpl. rewrite (H x) by (by left).
  apply IH. intros y Hy. apply H. by right.
Qed.

Lemma filter_all_bool {A} (p : A -> bool) l : (forall x, x ∈ l -> p x = true) -> List.filter p l = l.
Proof.
  induction l as [|x l IH]; intros H; [done|]. simpl. rewrite (H x) by (by left). f_equal.
  apply IH. intros y Hy. apply H. by right.
Qed.

Lemma Forall2_elem_eq {A} (P : A -> A -> Prop) k l :
  Forall2 P k l -> (forall x y, x ∈ k -> P x y -> y = x) -> l = k.
Proof.
  induction 1 as [|x y k l Hxy _ IH]; intros H; [done|]. f_equal.
  - apply H; [by left|done].
  - apply IH. intros a b Ha. apply H. by right.
Qed.

Lemma list_bind_ext_elem {A B} (f g : A -> list B) l :
  (forall x, x ∈ l -> f x = g x) -> l ≫= f = l ≫= g.
Proof.
  induction l as [|x l IH]; intros H; [done|]. rewrite !bind_cons. f_equal.
  - apply H. by left.
  - apply IH. intros y Hy. apply H. by right.
Qed.

Lemma StronglySorted_lookup_lt {A} (R : A -> A -> Prop) l i j x y :
  StronglySorted R l -> i < j -> l !! i = Some x -> l !! j = Some y -> R x y.
Proof.
  intros Hs. revert i j. induction Hs as [|z l _ IH Hz]; intros i j Hij Hx Hy; [done|].
  destruct j as [|j]; [lia|]. simpl in Hy. destruct i as [|i]; simpl in Hx.
  - injection Hx as ->. rewrite Forall_forall in Hz. apply Hz. by eapply list_elem_of_lookup_2.
  - apply (IH i j); [lia|done..].
Qed.
