(* ===== verification/GoStrings.v ===== *)
(** * The part of Go's [strings] package that the program uses

    A Go string is a sequence of bytes, here a [string] of [ascii] (8-bit)
    characters. [TrimSpace] removes every code point of [unicode.IsSpace],
    whose UTF-8 encodings have one, two or three bytes; [ToLower] and
    [EqualFold] fold the ASCII letters and leave every other byte unchanged
    (the identifiers, host names and slot names they are applied to). Strings
    are ordered bytewise, and [len] is the number of bytes. *)
From S2P Require Import Prelude.
From stdpp Require Export pretty.
From Stdlib Require Import Ascii String.
From stdpp Require Export strings.
Open Scope string_scope.

(** ** [strings.TrimSpace] *)

Definition code (a : ascii) : N := N_of_ascii a.

(** The ASCII white space: tab, line feed, vertical tab, form feed, carriage
    return and the blank. *)
Definition space1 (a : ascii) : bool :=
  ((9 <=? code a)%N && (code a <=? 13)%N) || (code a =? 32)%N.

(** U+0085 and U+00A0. *)
Definition space2 (a b : ascii) : bool :=
  (code a =? 194)%N && ((code b =? 133)%N || (code b =? 160)%N).

(** U+1680, U+2000 to U+200A, U+2028, U+2029, U+202F, U+205F and U+3000. *)
Definition space3 (a b c : ascii) : bool :=
  ((code a =? 225)%N && (code b =? 154)%N && (code c =? 128)%N)
  || ((code a =? 226)%N && (code b =? 128)%N
      && (((128 <=? code c)%N && (code c <=? 138)%N)
          || (code c =? 168)%N || (code c =? 169)%N || (code c =? 175)%N))
  || ((code a =? 226)%N && (code b =? 129)%N && (code c =? 159)%N)
  || ((code a =? 227)%N && (code b =? 128)%N && (code c =? 128)%N).

(** Drop the white space code points at the start. *)
Fixpoint trim_left (s : string) : string :=
  match s with
  | EmptyString => ""
  | String a r =>
      if space1 a then trim_left r else
      match r with
      | String b r2 =>
          if space2 a b then trim_left r2 else
          match r2 with
          | String c r3 => if space3 a b c then trim_left r3 else s
          | EmptyString => s
          end
      | EmptyString => s
      end
  end.

Definition blank (s : string) : bool := bool_decide (trim_left s = "").

(** Drop the longest suffix that consists of white space code points. *)
Fixpoint trim_right (s : string) : string :=
  match s with
  | EmptyString => ""
  | String a r => if blank s then "" else String a (trim_right r)
  end.

Definition TrimSpace (s : string) : string := trim_right (trim_left s).

(** [strings.TrimSpace(s) == ""] *)
Definition trimmed_empty (s : string) : bool := bool_decide (TrimSpace s = "").

(** *** Generic facts on append and length *)

Lemma string_app_nil_r s : s +:+ "" = s.
Proof. induction s as [|a s IH]; [done|]. change (String a (s +:+ "") = String a s). by rewrite IH. Qed.

Lemma string_app_cons a s t : String a s +:+ t = String a (s +:+ t).
Proof. reflexivity. Qed.

Lemma string_app_nil_l s : "" +:+ s = s.
Proof. reflexivity. Qed.

Lemma string_app_assoc s t u : s +:+ (t +:+ u) = (s +:+ t) +:+ u.
Proof.
  induction s as [|a s IH]; [done|].
  change (String a (s +:+ (t +:+ u)) = String a ((s +:+ t) +:+ u)). by rewrite IH.
Qed.

Lemma string_length_app s t : String.length (s +:+ t) = String.length s + String.length t.
Proof.
  induction s as [|a s IH]; [done|].
  change (S (String.length (s +:+ t)) = S (String.length s) + String.length t). rewrite IH. lia.
Qed.

(** *** [TrimSpace] is idempotent *)

(** One step of [trim_left]: nothing to drop, or one encoded code point [k]. *)
Lemma trim_left_cases s :
  trim_left s = s
  \/ exists k r, s = k +:+ r /\ 0 < String.length k
       /\ forall u, trim_left (k +:+ u) = trim_left u.
Proof.
  destruct s as [|a r]; [by left|]. destruct (space1 a) eqn:E1.
  { right. exists (String a ""), r. split_and!; [done|simpl; lia|].
    intros u. simpl. by rewrite E1. }
  destruct r as [|b r]; [left; simpl; by rewrite E1|]. destruct (space2 a b) eqn:E2.
  { right. exists (String a (String b "")), r. split_and!; [done|simpl; lia|].
    intros u. simpl. by rewrite E1, E2. }
  destruct r as [|c r]; [left; simpl; by rewrite E1, E2|]. destruct (space3 a b c) eqn:E3.
  { right. exists (String a (String b (String c ""))), r. split_and!; [done|simpl; lia|].
    intros u. simpl. by rewrite E1, E2, E3. }
  left. simpl. by rewrite E1, E2, E3.
Qed.

Ltac trim_induction s :=
  induction s as [s IH] using (well_founded_induction
    (well_founded_ltof string String.length)); unfold ltof in IH;
  destruct (trim_left_cases s) as [Hs|(k & r & -> & Hk & Hs)];
  [|rewrite string_length_app in IH; specialize (IH r ltac:(lia))].

Lemma trim_left_idem s : trim_left (trim_left s) = trim_left s.
Proof. trim_induction s; [by rewrite !Hs|]. by rewrite Hs. Qed.

Lemma trim_left_length s : String.length (trim_left s) <= String.length s.
Proof. trim_induction s; [by rewrite Hs|]. rewrite Hs, string_length_app. lia. Qed.

Lemma trim_left_app s t : trim_left s = "" -> trim_left (s +:+ t) = trim_left t.
Proof.
  trim_induction s; [rewrite Hs; by intros ->|].
  rewrite <- string_app_assoc, !Hs. done.
Qed.

Lemma trim_left_prefix s t : trim_left (s +:+ t) = s +:+ t -> trim_left s = s.
Proof.
  destruct (trim_left_cases s) as [Hs|(k & r & -> & Hk & Hs)]; [done|].
  rewrite <- string_app_assoc, Hs. intros H.
  pose proof (trim_left_length (r +:+ t)) as Hl. rewrite H, string_length_app in Hl. lia.
Qed.

Lemma trim_right_split s : exists w, s = trim_right s +:+ w /\ trim_left w = "".
Proof.
  induction s as [|a s (w & Hs & Hw)]; [by exists ""|]. simpl trim_right.
  unfold blank. case_bool_decide as Hb; [by exists (String a s)|].
  exists w. split; [|done].
  change (String a s = String a (trim_right s +:+ w)). by rewrite <- Hs.
Qed.

Lemma trim_right_idem s : trim_right (trim_right s) = trim_right s.
Proof.
  induction s as [|a s IH]; [done|]. simpl trim_right at 2 3.
  unfold blank at 1 2. case_bool_decide as Hb; [done|]. simpl. unfold blank.
  case_bool_decide as Hb2; [|by rewrite IH]. exfalso. apply Hb.
  destruct (trim_right_split s) as (w & -> & Hw).
  pose proof (trim_left_app (String a (trim_right s)) w Hb2) as H.
  rewrite Hw in H. exact H.
Qed.

Lemma TrimSpace_idem s : TrimSpace (TrimSpace s) = TrimSpace s.
Proof.
  unfold TrimSpace. destruct (trim_right_split (trim_left s)) as (w & Hs & Hw).
  rewrite (trim_left_prefix _ w); [apply trim_right_idem|].
  rewrite <- Hs. apply trim_left_idem.
Qed.
#[export] Hint Rewrite TrimSpace_idem : distr.

(** ** Letter case *)

Definition lower_ascii (a : ascii) : ascii :=
  if ((65 <=? code a)%N && (code a <=? 90)%N) then ascii_of_N (code a + 32) else a.

(** [strings.ToLower] on ASCII letters. *)
Fixpoint ToLower (s : string) : string :=
  match s with
  | EmptyString => ""
  | String a s => String (lower_ascii a) (ToLower s)
  end.

(** [strings.EqualFold] on ASCII letters. *)
Definition EqualFold (s t : string) : bool := bool_decide (ToLower s = ToLower t).

Lemma lower_ascii_idem a : lower_ascii (lower_ascii a) = lower_ascii a.
Proof. destruct a as [[] [] [] [] [] [] [] []]; reflexivity. Qed.

Lemma ToLower_idem s : ToLower (ToLower s) = ToLower s.
Proof. induction s as [|a s IH]; simpl; [done|]. by rewrite lower_ascii_idem, IH. Qed.

Lemma EqualFold_refl s : EqualFold s s = true.
Proof. unfold EqualFold. by apply bool_decide_eq_true_2. Qed.

Lemma EqualFold_sym s t : EqualFold s t = EqualFold t s.
Proof. unfold EqualFold. apply bool_decide_ext. naive_solver. Qed.

(** ** Suffixes, joins, decimal numbers *)

(** [strings.TrimSuffix(s, ".")] *)
Fixpoint trim_suffix_dot (s : string) : string :=
  match s with
  | EmptyString => ""
  | String a r => if bool_decide (s = ".") then "" else String a (trim_suffix_dot r)
  end.

(** [fmt.Sprintf("%q", s)]: the quotation mark, the backslash and the control
    characters are escaped, every other character stands for itself. *)
Definition quote_hex (n : N) : ascii := ascii_of_N (if (n <? 10)%N then 48 + n else 87 + n).

Definition quote_char (a : ascii) : string :=
  let esc c := String (ascii_of_N 92) (String c "") in
  let n := code a in
  if (n =? 34)%N || (n =? 92)%N then esc a
  else if (n =? 7)%N then esc "a"%char else if (n =? 8)%N then esc "b"%char
  else if (n =? 9)%N then esc "t"%char else if (n =? 10)%N then esc "n"%char
  else if (n =? 11)%N then esc "v"%char else if (n =? 12)%N then esc "f"%char
  else if (n =? 13)%N then esc "r"%char
  else if (n <? 32)%N || (n =? 127)%N
  then esc "x"%char +:+ String (quote_hex (n / 16)) (String (quote_hex (n mod 16)) "")
  else String a "".

Fixpoint quote_body (s : string) : string :=
  match s with EmptyString => "" | String a s => quote_char a +:+ quote_body s end.

Definition quote (s : string) : string :=
  let mark := String (ascii_of_N 34) "" in mark +:+ quote_body s +:+ mark.

(** [strings.Join] *)
Definition Join (l : list string) (sep : string) : string := String.concat sep l.

(** [fmt.Sprintf("%d", n)] *)
Definition itoa (z : Z) : string := pretty z.
Definition len (s : string) : Z := Z.of_nat (String.length s).

(** ** The order of strings *)

Fixpoint string_less (s t : string) : bool :=
  match s, t with
  | _, EmptyString => false
  | EmptyString, String _ _ => true
  | String a s, String b t =>
      if (code a =? code b)%N then string_less s t else (code a <? code b)%N
  end.

Lemma code_inj a b : code a = code b -> a = b.
Proof. unfold code. intros H. rewrite <- (ascii_N_embedding a), <- (ascii_N_embedding b). by f_equal. Qed.

Ltac code_cases := repeat match goal with
  | H : context [(?x =? ?y)%N] |- _ => destruct (N.eqb_spec x y)
  | |- context [(?x =? ?y)%N] => destruct (N.eqb_spec x y)
  | H : (_ <? _)%N = true |- _ => apply N.ltb_lt in H
  | H : (_ <? _)%N = false |- _ => apply N.ltb_ge in H
  end.

#[export] Instance string_less_swo : StrictWeakOrder string_less.
Proof.
  split.
  - induction x as [|a x IH]; intros [|b y]; simpl; try done.
    intros H. code_cases; try lia; first [by apply IH | apply N.ltb_ge; lia].
  - induction x as [|a x IH]; intros [|b y] [|c z]; simpl; try done.
    intros H1 H2. code_cases; try lia; first [by eapply IH | apply N.ltb_ge; lia].
Qed.

(** Strings that are ordered neither way are equal. *)
Lemma string_less_total s t : string_less s t = false -> string_less t s = false -> s = t.
Proof.
  revert t. induction s as [|a s IH]; intros [|b t]; simpl; try done.
  intros H1 H2. code_cases; try lia. f_equal; [by apply code_inj|]. by apply IH.
Qed.

Definition less_str_by {A} (f : A -> string) (x y : A) : bool := string_less (f x) (f y).

#[export] Instance less_str_by_swo {A} (f : A -> string) : StrictWeakOrder (less_str_by f).
Proof.
  split; unfold less_str_by.
  - intros x y. apply swo_asym.
  - intros x y z. apply swo_ntrans.
Qed.

(** ** Separators *)

Fixpoint no_char (c : ascii) (s : string) : bool :=
  match s with
  | EmptyString => true
  | String a s => negb (bool_decide (a = c)) && no_char c s
  end.

Lemma pretty_N_go_no_char c n s :
  (forall k, pretty_N_char k <> c) -> no_char c s = true -> no_char c (pretty_N_go n s) = true.
Proof.
  intros Hc. revert s. induction (N.lt_wf_0 n) as [n _ IH]; intros s Hs.
  assert (n = 0 \/ 0 < n)%N as [->|Hn] by lia; [done|].
  rewrite pretty_N_go_step by done. apply IH; [by apply N.div_lt|]. simpl.
  by rewrite (bool_decide_eq_false_2 _ (Hc _)).
Qed.

Lemma itoa_no_colon z : no_char ":" (itoa z) = true.
Proof.
  assert (forall k, pretty_N_char k <> ":"%char) as Hc.
  { intros k. unfold pretty_N_char. by repeat case_match. }
  assert (forall n : N, no_char ":" (pretty n) = true) as HN.
  { intros n. unfold pretty, pretty_N. destruct (decide _); [done|]. by apply pretty_N_go_no_char. }
  destruct z as [|p|p]; [done|apply HN|]. apply (HN (Npos p)).
Qed.

Lemma split_at_inj c s t a b :
  no_char c s = true -> no_char c t = true -> s +:+ String c a = t +:+ String c b -> s = t /\ a = b.
Proof.
  revert t. induction s as [|x s IH]; intros [|y t] Hs Ht E; simpl in *; to_prop.
  - by injection E.
  - injection E as -> _. done.
  - injection E as -> _. done.
  - injection E as -> E. destruct (IH t) as [-> ->]; done.
Qed.

Lemma app_length_inj s t a b :
  String.length s = String.length t -> s +:+ a = t +:+ b -> s = t /\ a = b.
Proof.
  revert t. induction s as [|x s IH]; intros [|y t] Hl E; simpl in *; try done.
  injection E as -> E. destruct (IH t) as [-> ->]; auto.
Qed.

#[export] Instance itoa_inj : Inj (=) (=) itoa.
Proof. intros x y E. by apply (inj pretty) in E. Qed.

(** A length-prefixed field determines itself and what follows. *)
Lemma field_inj s t a b :
  itoa (len s) +:+ ":" +:+ s +:+ a = itoa (len t) +:+ ":" +:+ t +:+ b -> s = t /\ a = b.
Proof.
  intros E. apply split_at_inj in E as [El E]; [|apply itoa_no_colon..].
  apply (inj itoa) in El. apply app_length_inj in E; [done|]. unfold len in El. lia.
Qed.
