(* ===== verification/GoTime.v ===== *)
(** * Go's [time]: instants, the calendar and two layouts

    An instant is a number of nanoseconds since 1970-01-01T00:00:00Z. The
    calendar is the proleptic Gregorian one of the package. The texts are those
    of the layouts [2006-01-02T15:04:05.000000], with and without a final [Z],
    and of [RFC3339Nano]. *)
From S2P Require Import Prelude GoStrings.
From Stdlib Require Import Ascii.
Open Scope list_scope.
#[local] Open Scope Z_scope.

(** ** The calendar *)

Definition leap (y : Z) : bool := (y mod 4 =? 0) && (negb (y mod 100 =? 0) || (y mod 400 =? 0)).
Definition days_in (y m : Z) : Z :=
  if m =? 2 then if leap y then 29 else 28 else
  if (m =? 4) || (m =? 6) || (m =? 9) || (m =? 11) then 30 else 31.

Definition valid_date (y m d : Z) : bool := (1 <=? m) && (m <=? 12) && (1 <=? d) && (d <=? days_in y m).

(** A year is counted from March, in eras of 400 years, so that the leap day is
    the last one of a year: the days before a year of an era, and before a month. *)
Definition year_start (yoe : Z) : Z := yoe * 365 + yoe / 4 - yoe / 100 + yoe / 400.
Definition month_start (mp : Z) : Z := (153 * mp + 2) / 5.
Definition era_start : Z := 719468.

(** Days since 1970-01-01. *)
Definition days_of (y m d : Z) : Z :=
  let y' := if m <=? 2 then y - 1 else y in
  let mp := if m <=? 2 then m + 9 else m - 3 in
  (y' / 400) * 146097 + (year_start (y' mod 400) + (month_start mp + d - 1)) - era_start.

Definition year_of_era (doe : Z) : Z := (doe - doe / 1460 + doe / 36524 - doe / 146096) / 365.
Definition date_of (n : Z) : Z * Z * Z :=
  let z := n + era_start in let doe := z mod 146097 in
  let yoe := year_of_era doe in
  let doy := doe - year_start yoe in
  let mp := (5 * doy + 2) / 153 in
  let m := if mp <? 10 then mp + 3 else mp - 9 in
  ((if m <=? 2 then yoe + 1 else yoe) + 400 * (z / 146097), m, doy - month_start mp + 1).

(** *** A check of all numbers below a bound *)

Fixpoint all_below (p : Z -> bool) (n : nat) : bool :=
  match n with O => true | S n => p (Z.of_nat n) && all_below p n end.

Lemma all_below_ok p n k : all_below p n = true -> Z.of_nat n = k -> forall i, 0 <= i < k -> p i = true.
Proof.
  intros Hp <-. revert Hp. induction n as [|n IH]; cbn [all_below]; [lia|]. intros [Hp Hn]%andb_true_iff i Hi.
  destruct (decide (i = Z.of_nat n)) as [->|]; [done|]. apply IH; [done|lia].
Qed.

Lemma year_checks : all_below (λ y, (year_of_era (year_start y) =? y) && (year_of_era (year_start (y + 1) - 1) =? y)
  && (year_start (y + 1) - year_start y =? if leap (y + 1) then 366 else 365)) 400 = true.
Proof. vm_compute. reflexivity. Qed.
Lemma month_checks : all_below (λ doy, let mp := (5 * doy + 2) / 153 in let d := doy - month_start mp + 1 in
  (0 <=? mp) && (mp <=? 11) && (1 <=? d)
  && (d <=? if mp =? 11 then if doy =? 365 then 29 else 28 else days_in 1 (if mp <? 10 then mp + 3 else mp - 9))) 366 = true.
Proof. vm_compute. reflexivity. Qed.
Lemma day_checks : all_below (λ i, let mp := i / 31 in let d := i mod 31 + 1 in
  let doy := month_start mp + d - 1 in
  negb (d <=? if mp =? 11 then 29 else days_in 1 (if mp <? 10 then mp + 3 else mp - 9))
  || (((5 * doy + 2) / 153 =? mp) && (0 <=? doy) && (doy <? if (mp =? 11) && (d =? 29) then 366 else 365))) 372 = true.
Proof. vm_compute. reflexivity. Qed.

Lemma year_of_era_mono a b : 0 <= a -> a <= b -> year_of_era a <= year_of_era b.
Proof.
  intros Ha Hab. unfold year_of_era. apply Z.div_le_mono; [lia|].
  assert (forall x, 0 <= x -> x - x / 1460 + x / 36524 - x / 146096 <= (x + 1) - (x + 1) / 1460 + (x + 1) / 36524 - (x + 1) / 146096)
    as Hstep by (intros x Hx; Z.to_euclidean_division_equations; lia).
  replace b with (a + Z.of_nat (Z.to_nat (b - a))) by lia. induction (Z.to_nat (b - a)) as [|k IH]; [rewrite Z.add_0_r; lia|].
  specialize (Hstep (a + Z.of_nat k) ltac:(lia)). rewrite Nat2Z.inj_succ. replace (a + Z.succ (Z.of_nat k)) with (a + Z.of_nat k + 1) by lia.
  etransitivity; [exact IH|exact Hstep].
Qed.

Lemma year_bounds y : 0 <= y < 400 ->
  year_of_era (year_start y) = y /\ year_of_era (year_start (y + 1) - 1) = y
  /\ year_start (y + 1) = year_start y + (if leap (y + 1) then 366 else 365) /\ 0 <= year_start y.
Proof.
  intros Hy. pose proof (all_below_ok _ _ _ year_checks eq_refl y ltac:(lia)) as Hc. cbv beta in Hc.
  rewrite !andb_true_iff, !Z.eqb_eq in Hc. destruct Hc as [[E1 E2] E3]. split_and!; [exact E1|exact E2|lia|].
  unfold year_start. Z.to_euclidean_division_equations; lia.
Qed.

Lemma year_of_era_day y doy : 0 <= y < 400 -> 0 <= doy < (if leap (y + 1) then 366 else 365) ->
  year_of_era (year_start y + doy) = y.
Proof.
  intros Hy Hd. destruct (year_bounds y Hy) as (H1 & H2 & H3 & H4).
  pose proof (year_of_era_mono (year_start y) (year_start y + doy) H4 ltac:(lia)).
  pose proof (year_of_era_mono (year_start y + doy) (year_start (y + 1) - 1) ltac:(lia) ltac:(lia)). lia.
Qed.

Lemma year_of_era_range doe : 0 <= doe < 146097 -> let y := year_of_era doe in
  0 <= y < 400 /\ 0 <= doe - year_start y < (if leap (y + 1) then 366 else 365).
Proof.
  intros Hd y. pose proof (year_of_era_mono 0 doe ltac:(lia) ltac:(lia)) as H1.
  pose proof (year_of_era_mono doe 146096 ltac:(lia) ltac:(lia)) as H2. fold y in H1, H2.
  change (year_of_era 0) with 0 in H1. change (year_of_era 146096) with 399 in H2. split; [lia|].
  destruct (year_bounds y ltac:(lia)) as (E1 & E2 & E3 & E4). split.
  - destruct (Z.le_gt_cases (year_start y) doe) as [|Hlt]; [lia|]. destruct (decide (y = 0)) as [E|E].
    { rewrite E. change (0 <= doe - 0). lia. }
    destruct (year_bounds (y - 1) ltac:(lia)) as (_ & E5 & _ & _). replace (y - 1 + 1) with y in E5 by lia.
    pose proof (year_of_era_mono doe (year_start y - 1) ltac:(lia) ltac:(lia)) as H3. fold y in H3. lia.
  - destruct (Z.lt_ge_cases (doe - year_start y) (if leap (y + 1) then 366 else 365)) as [|Hge]; [lia|].
    destruct (decide (y = 399)) as [E|E].
    { rewrite E. change (doe - 145731 < 366). lia. }
    destruct (year_bounds (y + 1) ltac:(lia)) as (E5 & _ & _ & E6).
    pose proof (year_of_era_mono (year_start (y + 1)) doe ltac:(lia) ltac:(lia)) as H3. fold y in H3. lia.
Qed.

Lemma leap_shift y k : leap (y + 400 * k) = leap y.
Proof.
  unfold leap. replace ((y + 400 * k) mod 4) with (y mod 4); [replace ((y + 400 * k) mod 100) with (y mod 100);
    [replace ((y + 400 * k) mod 400) with (y mod 400); [done|]|]|]; Z.to_euclidean_division_equations; lia.
Qed.
Lemma valid_date_shift y m d k : valid_date (y + 400 * k) m d = valid_date y m d.
Proof. unfold valid_date, days_in. by rewrite leap_shift. Qed.

Lemma days_in_regular y m : m <> 2 -> days_in y m = days_in 1 m.
Proof. intros Hm. unfold days_in. by destruct (Z.eqb_spec m 2). Qed.

(** A day has one date. *)
Lemma days_of_date_of n : let '(y, m, d) := date_of n in valid_date y m d = true /\ days_of y m d = n.
Proof.
  unfold date_of. set (z := n + era_start). pose proof (Z.mod_pos_bound z 146097 eq_refl) as Hr.
  pose proof (Z.div_mod z 146097 ltac:(lia)) as Hd. set (doe := z mod 146097) in *. set (yoe := year_of_era doe).
  destruct (year_of_era_range doe Hr) as [Hy Hdoy]. fold yoe in Hy, Hdoy. set (doy := doe - year_start yoe) in *.
  assert (doy < 366) as Hb by (destruct (leap (yoe + 1)); lia).
  pose proof (all_below_ok _ _ _ month_checks eq_refl doy ltac:(lia)) as Hc. cbv zeta beta in Hc.
  set (mp := (5 * doy + 2) / 153) in *. set (d := doy - month_start mp + 1) in *. to_prop.
  set (m := if mp <? 10 then mp + 3 else mp - 9) in *. set (y' := if m <=? 2 then yoe + 1 else yoe).
  assert (1 <= m <= 12) as Hm by (unfold m; destruct (Z.ltb_spec mp 10); lia).
  rewrite valid_date_shift. split.
  - unfold valid_date. rewrite !andb_true_iff, !Z.leb_le. split_and!; try lia. destruct (Z.eqb_spec mp 11) as [E|E].
    + assert (m = 2) as Em by (unfold m; rewrite E; reflexivity). unfold y', days_in. rewrite Em. simpl.
      destruct (leap (yoe + 1)); destruct (Z.eqb_spec doy 365); lia.
    + rewrite days_in_regular; [lia|]. unfold m. destruct (Z.ltb_spec mp 10); lia.
  - unfold days_of. set (k := z / 146097) in *. fold m.
    assert ((if m <=? 2 then y' + 400 * k - 1 else y' + 400 * k) = yoe + k * 400) as -> by (unfold y'; destruct (m <=? 2); lia).
    assert ((if m <=? 2 then m + 9 else m - 3) = mp) as ->.
    { unfold m. destruct (Z.ltb_spec mp 10); [destruct (Z.leb_spec (mp + 3) 2)|destruct (Z.leb_spec (mp - 9) 2)]; lia. }
    rewrite Z.div_add, Z_mod_plus_full, Z.div_small, Z.mod_small by lia. unfold d, doy. lia.
Qed.

(** A date has one day. *)
Lemma date_of_days_of y m d : valid_date y m d = true -> date_of (days_of y m d) = (y, m, d).
Proof.
  intros Hv. unfold days_of. set (y' := if m <=? 2 then y - 1 else y). set (mp := if m <=? 2 then m + 9 else m - 3).
  set (k := y' / 400). set (yoe := y' mod 400). pose proof (Z.mod_pos_bound y' 400 eq_refl) as Hr. fold yoe in Hr.
  pose proof (Z.div_mod y' 400 ltac:(lia)) as Hd. fold k yoe in Hd.
  assert (1 <= m <= 12 /\ 1 <= d <= days_in y m) as [Hm Hdd] by (unfold valid_date in Hv; to_prop; lia).
  assert (0 <= mp <= 11) as Hmp by (unfold mp; destruct (Z.leb_spec m 2); lia).
  assert (days_in y m <= 31) as H31 by (unfold days_in; repeat case_match; lia).
  assert ((if mp <? 10 then mp + 3 else mp - 9) = m) as Emm.
  { unfold mp. destruct (Z.leb_spec m 2); [destruct (Z.ltb_spec (m + 9) 10)|destruct (Z.ltb_spec (m - 3) 10)]; lia. }
  assert (leap (yoe + 1) = leap (y' + 1)) as El by (rewrite <- (leap_shift (yoe + 1) k); f_equal; lia).
  set (doy := month_start mp + d - 1).
  assert ((5 * doy + 2) / 153 = mp /\ 0 <= doy < if leap (yoe + 1) then 366 else 365) as [Ed Hdoy].
  { pose proof (all_below_ok _ _ _ day_checks eq_refl (mp * 31 + (d - 1)) ltac:(lia)) as Hc. cbv zeta beta in Hc.
    assert ((mp * 31 + (d - 1)) / 31 = mp) as E1 by (symmetry; apply (Z.div_unique _ 31 _ (d - 1)); lia).
    assert ((mp * 31 + (d - 1)) mod 31 + 1 = d) as E2 by (rewrite (Z.add_comm (mp * 31)), Z_mod_plus_full, Z.mod_small; lia).
    rewrite E1, E2, Emm in Hc. fold doy in Hc. apply orb_true_iff in Hc as [Hc|Hc]; to_prop.
    - exfalso. destruct (Z.eqb_spec mp 11) as [E|E].
      + assert (days_in y m <= 29) by (unfold days_in; rewrite <- Emm, E; simpl; destruct (leap y); lia). lia.
      + rewrite (days_in_regular y m) in Hdd; [lia|]. rewrite <- Emm. destruct (Z.ltb_spec mp 10); lia.
    - split; [lia|]. split; [lia|]. destruct (leap (yoe + 1)) eqn:E3.
      + destruct ((mp =? 11) && (d =? 29)); lia.
      + destruct (Z.eqb_spec mp 11) as [E|E]; simpl in *; [|lia]. destruct (Z.eqb_spec d 29) as [E'|E']; [|lia]. exfalso.
        assert (m = 2) as Em by (rewrite <- Emm, E; reflexivity). unfold days_in, y' in *. rewrite Em in *. simpl in *.
        replace (y - 1 + 1) with y in El by lia. rewrite <- El in Hdd. lia. }
  unfold date_of. cbv zeta. set (n := year_start yoe + doy).
  replace (year_start yoe + (month_start mp + d - 1)) with n by (unfold n, doy; lia).
  replace (k * 146097 + n - era_start + era_start) with (n + k * 146097) by lia.
  destruct (year_bounds yoe Hr) as (_ & _ & E3 & E4).
  assert (0 <= n < 146097) as Hn.
  { split; [unfold n; lia|]. assert (year_start (yoe + 1) <= 146097); [|unfold n; lia].
    unfold year_start. Z.to_euclidean_division_equations; lia. }
  rewrite Z_mod_plus_full, (Z.div_add n), (Z.mod_small n), (Z.div_small n) by lia.
  assert (year_of_era n = yoe) as -> by (by apply year_of_era_day).
  replace (n - year_start yoe) with doy by (unfold n; lia). rewrite Ed, Emm. f_equal; [f_equal|unfold doy; lia].
  unfold y' in *. destruct (m <=? 2); lia.
Qed.

(** ** Digits *)

Definition digit_char (n : Z) : ascii := ascii_of_N (Z.to_N (48 + n)).
Definition digit_of (a : ascii) : option Z :=
  let n := Z.of_N (code a) - 48 in if (0 <=? n) && (n <=? 9) then Some n else None.

(** The last [w] digits of a number. *)
Fixpoint pad (w : nat) (n : Z) : string :=
  match w with O => "" | S w => String (digit_char (n / 10 ^ Z.of_nat w mod 10)) (pad w n) end.

(** [w] digits, read from the left. *)
Fixpoint take_digits (w : nat) (acc : Z) (s : string) : option (Z * string) :=
  match w with
  | O => Some (acc, s)
  | S w => match s with
           | String a s => match digit_of a with Some d => take_digits w (10 * acc + d) s | None => None end
           | EmptyString => None
           end
  end.

Definition expect (a : ascii) (s : string) : option string :=
  match s with String b s => if bool_decide (b = a) then Some s else None | EmptyString => None end.

Lemma digit_of_char n : 0 <= n <= 9 -> digit_of (digit_char n) = Some n.
Proof.
  intros Hn. assert (Forall (λ d, digit_of (digit_char d) = Some d) (seqZ 0 10)) as Hd by (repeat constructor).
  rewrite Forall_seqZ in Hd. apply Hd. lia.
Qed.

Lemma digit_of_inv a n : digit_of a = Some n -> 0 <= n <= 9 /\ a = digit_char n.
Proof.
  unfold digit_of. destruct ((0 <=? _) && _) eqn:E; [|done]. intros [= <-]. to_prop. split; [lia|].
  unfold digit_char. replace (48 + (Z.of_N (code a) - 48)) with (Z.of_N (code a)) by lia. rewrite N2Z.id.
  symmetry. apply ascii_N_embedding.
Qed.

Lemma pow10_pos w : 0 < 10 ^ Z.of_nat w.
Proof. apply Z.pow_pos_nonneg; lia. Qed.

Lemma mod_pow10 w n : n mod 10 ^ Z.of_nat (S w) = n mod 10 ^ Z.of_nat w + 10 ^ Z.of_nat w * (n / 10 ^ Z.of_nat w mod 10).
Proof.
  rewrite Nat2Z.inj_succ, Z.pow_succ_r, Z.mul_comm by lia. pose proof (pow10_pos w). apply Z.rem_mul_r; lia.
Qed.

Lemma take_digits_pad w acc n r : take_digits w acc (pad w n +:+ r) = Some (acc * 10 ^ Z.of_nat w + n mod 10 ^ Z.of_nat w, r).
Proof.
  revert acc. induction w as [|w IH]; intros acc.
  - simpl. rewrite Z.mod_1_r. do 2 f_equal. lia.
  - cbn [take_digits pad]. rewrite string_app_cons, digit_of_char by (pose proof (Z.mod_pos_bound (n / 10 ^ Z.of_nat w) 10); lia).
    rewrite IH, (mod_pow10 w n). rewrite Nat2Z.inj_succ, Z.pow_succ_r by lia. do 2 f_equal. lia.
Qed.

Lemma pad_split w d n : 0 <= d <= 9 -> 0 <= n < 10 ^ Z.of_nat w ->
  String (digit_char d) (pad w n) = pad (S w) (d * 10 ^ Z.of_nat w + n).
Proof.
  intros Hd Hn. cbn [pad]. rewrite Z.div_add_l, (Z.div_small n) by lia. rewrite Z.add_0_r, Z.mod_small by lia. f_equal.
  assert (forall v m, (v <= w)%nat -> pad v n = pad v (m * 10 ^ Z.of_nat w + n)) as Hp; [|by apply (Hp w)].
  induction v as [|v IH]; intros m Hv; [done|]. cbn [pad]. rewrite <- (IH m) by lia. do 2 f_equal.
  replace (Z.of_nat w) with (Z.of_nat (w - v) + Z.of_nat v) by lia. rewrite Z.pow_add_r by lia.
  rewrite Z.mul_assoc, Z.div_add_l by (pose proof (pow10_pos v); lia).
  replace (w - v)%nat with (S (w - S v)) by lia. rewrite Nat2Z.inj_succ, Z.pow_succ_r by lia.
  replace (m * (10 * 10 ^ Z.of_nat (w - S v)) + n / 10 ^ Z.of_nat v) with (n / 10 ^ Z.of_nat v + (m * 10 ^ Z.of_nat (w - S v)) * 10) by lia.
  by rewrite Z_mod_plus_full.
Qed.

Lemma take_digits_inv w acc s v r : take_digits w acc s = Some (v, r) ->
  exists n, 0 <= n < 10 ^ Z.of_nat w /\ v = acc * 10 ^ Z.of_nat w + n /\ s = pad w n +:+ r.
Proof.
  revert acc s. induction w as [|w IH]; intros acc s; cbn [take_digits].
  - intros [= -> ->]. exists 0. split; [lia|]. split; [lia|done].
  - destruct s as [|a s]; [done|]. destruct (digit_of a) as [d|] eqn:Ed; [|done]. apply digit_of_inv in Ed as [Hd ->].
    intros (n & Hn & -> & ->)%IH. exists (d * 10 ^ Z.of_nat w + n). rewrite <- pad_split by done. rewrite string_app_cons.
    rewrite Nat2Z.inj_succ, Z.pow_succ_r by lia. split; [nia|]. split; [lia|done].
Qed.

Lemma expect_ok a s r : expect a s = Some r <-> s = String a r.
Proof.
  unfold expect. destruct s as [|b s]; [done|]. case_bool_decide as E; [subst|]; split; congruence.
Qed.

(** ** Wall clocks and instants *)

Record wall := { w_year : Z; w_month : Z; w_day : Z; w_hour : Z; w_minute : Z; w_second : Z; w_nanos : Z }.

Definition valid_wall (w : wall) : bool :=
  valid_date (w_year w) (w_month w) (w_day w) && (0 <=? w_hour w) && (w_hour w <? 24) && (0 <=? w_minute w) && (w_minute w <? 60)
  && (0 <=? w_second w) && (w_second w <? 60) && (0 <=? w_nanos w) && (w_nanos w <? 1000000000).

(** [time.Date(..., time.UTC)] and its fields. *)
Definition instant_of (w : wall) : Z :=
  ((days_of (w_year w) (w_month w) (w_day w) * 86400) + w_hour w * 3600 + w_minute w * 60 + w_second w) * 1000000000 + w_nanos w.
Definition wall_of (t : Z) : wall :=
  let s := t / 1000000000 in let n := s / 86400 in let r := s mod 86400 in
  let '(y, m, d) := date_of n in
  {| w_year := y; w_month := m; w_day := d; w_hour := r / 3600; w_minute := r / 60 mod 60; w_second := r mod 60;
     w_nanos := t mod 1000000000 |}.

Lemma wall_of_valid t : valid_wall (wall_of t) = true.
Proof.
  unfold wall_of. pose proof (days_of_date_of (t / 1000000000 / 86400)) as Hd.
  destruct (date_of _) as [[y m] d]. destruct Hd as [Hv _]. unfold valid_wall.
  cbn [w_year w_month w_day w_hour w_minute w_second w_nanos]. rewrite Hv. simpl.
  rewrite !andb_true_iff, !Z.leb_le, !Z.ltb_lt. Z.to_euclidean_division_equations. lia.
Qed.

Lemma instant_of_wall_of t : instant_of (wall_of t) = t.
Proof.
  unfold wall_of. pose proof (days_of_date_of (t / 1000000000 / 86400)) as Hd.
  destruct (date_of _) as [[y m] d]. destruct Hd as [_ Hd]. unfold instant_of.
  cbn [w_year w_month w_day w_hour w_minute w_second w_nanos]. rewrite Hd. clear Hd.
  Z.to_euclidean_division_equations. lia.
Qed.

Lemma wall_of_instant_of w : valid_wall w = true -> wall_of (instant_of w) = w.
Proof.
  destruct w as [y m d hh mi ss ns]. unfold valid_wall, instant_of. cbn [w_year w_month w_day w_hour w_minute w_second w_nanos].
  rewrite !andb_true_iff, !Z.leb_le, !Z.ltb_lt. intros ((((((((Hv & H1) & H2) & H3) & H4) & H5) & H6) & H7) & H8). unfold wall_of.
  set (n := days_of y m d). set (r := hh * 3600 + mi * 60 + ss).
  replace ((n * 86400 + hh * 3600 + mi * 60 + ss) * 1000000000 + ns) with (ns + (n * 86400 + r) * 1000000000) by (unfold r; lia).
  rewrite Z.div_add, (Z.div_small ns), Z.add_0_l, Z_mod_plus_full, (Z.mod_small ns) by lia.
  assert (0 <= r < 86400) as Hr by (unfold r; lia).
  replace ((n * 86400 + r) / 86400) with n by (apply (Z.div_unique _ _ _ r); lia).
  replace ((n * 86400 + r) mod 86400) with r by (apply (Z.mod_unique _ _ n); lia).
  unfold n. rewrite date_of_days_of by done. unfold r. f_equal; Z.to_euclidean_division_equations; lia.
Qed.

(** ** The layout [2006-01-02T15:04:05.000000] *)

(** Four digits at least. *)
Definition format_year (y : Z) : string :=
  let digits := if Z.abs y <? 10000 then pad 4 (Z.abs y) else itoa (Z.abs y) in
  if y <? 0 then String "-" digits else digits.

(** Fractions of a microsecond are cut off. *)
Definition format_rest (w : wall) : string :=
  String "-" (pad 2 (w_month w) +:+ String "-" (pad 2 (w_day w) +:+ String "T" (pad 2 (w_hour w) +:+ String ":" (pad 2 (w_minute w)
  +:+ String ":" (pad 2 (w_second w) +:+ String "." (pad 6 (w_nanos w / 1000))))))).
Definition format_fields (w : wall) : string := format_year (w_year w) +:+ format_rest w.
Definition format_wall (t : Z) : string := format_fields (wall_of t).

Definition parse_fields (s : string) : option (wall * string) :=
  '(y, s) ← take_digits 4 0 s; s ← expect "-" s;
  '(m, s) ← take_digits 2 0 s; s ← expect "-" s;
  '(d, s) ← take_digits 2 0 s; s ← expect "T" s;
  '(hh, s) ← take_digits 2 0 s; s ← expect ":" s;
  '(mi, s) ← take_digits 2 0 s; s ← expect ":" s;
  '(ss, s) ← take_digits 2 0 s; s ← expect "." s;
  '(us, s) ← take_digits 6 0 s;
  let w := {| w_year := y; w_month := m; w_day := d; w_hour := hh; w_minute := mi; w_second := ss; w_nanos := us * 1000 |} in
  if valid_wall w then Some (w, s) else None.

(** [time.Parse] also reads a comma for the point and an hour of one digit;
    every caller compares the text with the formatted instant, which leaves
    exactly the texts read here. *)
Definition parse_wall (s : string) : option Z :=
  match parse_fields s with Some (w, "") => Some (instant_of w) | _ => None end.

(** The instants with a year of four digits, and no fraction of a microsecond. *)
Definition in_layout (w : wall) : Prop := valid_wall w = true /\ 0 <= w_year w < 10000 /\ w_nanos w mod 1000 = 0.
Definition layout_instant (t : Z) : Prop := in_layout (wall_of t).

Lemma parse_format_fields w s : in_layout w -> parse_fields (format_fields w +:+ s) = Some (w, s).
Proof.
  intros (Hv & Hy & Hn). pose proof Hv as Hv'. unfold valid_wall, valid_date in Hv'. rewrite !andb_true_iff, !Z.leb_le, !Z.ltb_lt in Hv'.
  destruct Hv' as (((((((((((Hm1 & Hm2) & Hd1) & Hd2) & H1) & H2) & H3) & H4) & H5) & H6) & H7) & H8).
  assert (days_in (w_year w) (w_month w) <= 31) by (unfold days_in; repeat case_match; lia).
  unfold format_fields, format_year. rewrite (proj2 (Z.ltb_lt (Z.abs (w_year w)) 10000)), (proj2 (Z.ltb_ge (w_year w) 0)), Z.abs_eq by lia.
  rewrite <- string_app_assoc. unfold parse_fields, format_rest.
  repeat (rewrite ?string_app_cons, <- ?string_app_assoc, take_digits_pad;
    repeat (cbn [mbind option_bind expect]; try rewrite bool_decide_eq_true_2 by reflexivity)).
  rewrite !Z.mul_0_l, !Z.add_0_l.
  change (10 ^ Z.of_nat 4) with 10000. change (10 ^ Z.of_nat 2) with 100. change (10 ^ Z.of_nat 6) with 1000000.
  rewrite !Z.mod_small by lia || (Z.to_euclidean_division_equations; lia).
  replace (w_nanos w / 1000 * 1000) with (w_nanos w) by (Z.to_euclidean_division_equations; lia).
  destruct w; cbn [w_year w_month w_day w_hour w_minute w_second w_nanos] in *. by rewrite Hv.
Qed.

Lemma take_bind {A} n s (f : Z * string -> option A) a : (take_digits n 0 s ≫= f) = Some a ->
  exists v r, 0 <= v < 10 ^ Z.of_nat n /\ s = pad n v +:+ r /\ f (v, r) = Some a.
Proof.
  destruct (take_digits n 0 s) as [[v r]|] eqn:E; [|done]. apply take_digits_inv in E as (m & Hm & -> & ->). intros Hf.
  exists m, r. split; [done|]. split; [done|]. replace m with (0 * 10 ^ Z.of_nat n + m) by lia. done.
Qed.
Lemma expect_bind {A} c s (f : string -> option A) a : (expect c s ≫= f) = Some a -> exists r, s = String c r /\ f r = Some a.
Proof. destruct (expect c s) as [r|] eqn:E; [|done]. apply expect_ok in E as ->. intros Hf. by exists r. Qed.

Lemma parse_fields_inv s w r : parse_fields s = Some (w, r) -> in_layout w /\ s = format_fields w +:+ r.
Proof.
  unfold parse_fields. intros (y & s1 & Hy & -> & E)%take_bind. apply expect_bind in E as (s2 & -> & E).
  apply take_bind in E as (m & s3 & _ & -> & E). apply expect_bind in E as (s4 & -> & E).
  apply take_bind in E as (d & s5 & _ & -> & E). apply expect_bind in E as (s6 & -> & E).
  apply take_bind in E as (hh & s7 & _ & -> & E). apply expect_bind in E as (s8 & -> & E).
  apply take_bind in E as (mi & s9 & _ & -> & E). apply expect_bind in E as (s10 & -> & E).
  apply take_bind in E as (ss & s11 & _ & -> & E). apply expect_bind in E as (s12 & -> & E).
  apply take_bind in E as (us & s13 & _ & -> & E). change (10 ^ Z.of_nat 4) with 10000 in Hy.
  cbv zeta in E. destruct (valid_wall _) eqn:Hv; [|done]. injection E as <- <-. split.
  - split; [done|]. split; [done|]. cbn [w_nanos]. apply Z.mod_mul. lia.
  - unfold format_fields, format_year, format_rest. cbn [w_year w_month w_day w_hour w_minute w_second w_nanos].
    rewrite (proj2 (Z.ltb_lt (Z.abs y) 10000)), (proj2 (Z.ltb_ge y 0)), Z.abs_eq, Z.div_mul by lia.
    by repeat rewrite ?string_app_cons, <- ?string_app_assoc.
Qed.

(** Exactly the formatted instants are read. *)
Lemma parse_wall_iff s t : parse_wall s = Some t <-> layout_instant t /\ s = format_wall t.
Proof.
  unfold parse_wall, layout_instant, format_wall. split.
  - destruct (parse_fields s) as [[w [|a r]]|] eqn:E; [|done|done]. apply parse_fields_inv in E as [Hw ->]. intros [= <-].
    rewrite string_app_nil_r. destruct Hw as (Hv & Hw). rewrite wall_of_instant_of by done. done.
  - intros [Hl ->]. rewrite <- (string_app_nil_r (format_fields _)), parse_format_fields by done. by rewrite instant_of_wall_of.
Qed.

(** ** The layout [2006-01-02T15:04:05.999999999Z07:00] *)

(** One or two digits. *)
Definition getnum (s : string) : option (Z * string) :=
  match take_digits 2 0 s with Some r => Some r | None => take_digits 1 0 s end.

Fixpoint skip_digits (s : string) : string * string :=
  match s with
  | String a r => match digit_of a with Some _ => let '(d, r) := skip_digits r in (String a d, r) | None => ("", s) end
  | EmptyString => ("", "")
  end.

(** [parseNanoseconds]: nine digits count. *)
Definition parse_nanos (digits : string) : Z :=
  let d := String.substring 0 9 digits in
  match take_digits (String.length d) 0 d with Some (n, _) => n * 10 ^ (9 - len d) | None => 0 end.

(** A fraction is read when a point or comma and a digit follow the seconds. *)
Definition parse_fraction (s : string) : Z * string :=
  match s with
  | String a (String b _ as r) =>
      if (bool_decide (a = "."%char) || bool_decide (a = ","%char)) && match digit_of b with Some _ => true | None => false end
      then let '(d, r) := skip_digits r in (parse_nanos d, r) else (0, s)
  | _ => (0, s)
  end.

(** The offset in seconds. *)
Definition parse_zone (s : string) : option (Z * string) :=
  match s with
  | String "Z" r => Some (0, r)
  | String a r =>
      '(hh, r) ← take_digits 2 0 r; r ← expect ":" r; '(mm, r) ← take_digits 2 0 r;
      if (24 <? hh) || (60 <? mm) then None else
      if bool_decide (a = "+"%char) then Some (hh * 3600 + mm * 60, r) else
      if bool_decide (a = "-"%char) then Some (- (hh * 3600 + mm * 60), r) else None
  | EmptyString => None
  end.

(** [time.Parse(time.RFC3339Nano, s)] *)
Definition parse_rfc3339 (s : string) : option Z :=
  '(y, s) ← take_digits 4 0 s; s ← expect "-" s;
  '(m, s) ← take_digits 2 0 s; s ← expect "-" s;
  '(d, s) ← take_digits 2 0 s; s ← expect "T" s;
  '(hh, s) ← getnum s; s ← expect ":" s;
  '(mi, s) ← take_digits 2 0 s; s ← expect ":" s;
  '(ss, s) ← take_digits 2 0 s;
  let '(ns, s) := parse_fraction s in
  '(offset, s) ← parse_zone s;
  let w := {| w_year := y; w_month := m; w_day := d; w_hour := hh; w_minute := mi; w_second := ss; w_nanos := ns |} in
  if valid_wall w && bool_decide (s = "") then Some (instant_of w - offset * 1000000000) else None.

Lemma skip_digits_pad w n r : skip_digits r = ("", r) -> skip_digits (pad w n +:+ r) = (pad w n, r).
Proof.
  intros Hr. induction w as [|w IH]; [done|]. cbn [pad]. rewrite string_app_cons. cbn [skip_digits].
  rewrite digit_of_char by (pose proof (Z.mod_pos_bound (n / 10 ^ Z.of_nat w) 10); lia). by rewrite IH.
Qed.
Lemma parse_nanos_pad n : 0 <= n < 1000000 -> parse_nanos (pad 6 n) = n * 1000.
Proof.
  intros Hn. change (parse_nanos (pad 6 n)) with
    (match take_digits 6 0 (pad 6 n) with Some (v, _) => v * 1000 | None => 0 end).
  rewrite <- (string_app_nil_r (pad 6 n)), take_digits_pad. change (10 ^ Z.of_nat 6) with 1000000. by rewrite Z.mod_small.
Qed.
Lemma parse_fraction_pad n r : 0 <= n < 1000000 -> skip_digits r = ("", r) ->
  parse_fraction (String "." (pad 6 n +:+ r)) = (n * 1000, r).
Proof.
  intros Hn Hr. assert (exists a s, pad 6 n +:+ r = String a s /\ is_Some (digit_of a)) as (a & s & E & [d Hd]).
  { cbn [pad]. rewrite string_app_cons. do 2 eexists. split; [reflexivity|]. eexists. apply digit_of_char.
    pose proof (Z.mod_pos_bound (n / 10 ^ Z.of_nat 5) 10). lia. }
  unfold parse_fraction. rewrite E, Hd, bool_decide_eq_true_2 by done. cbn [orb andb]. rewrite <- E, skip_digits_pad, parse_nanos_pad by done. done.
Qed.

Lemma getnum_pad n r : getnum (pad 2 n +:+ r) = Some (n mod 100, r).
Proof. unfold getnum. by rewrite take_digits_pad, Z.mul_0_l, Z.add_0_l. Qed.

Lemma layout_year w : in_layout w -> format_year (w_year w) = pad 4 (w_year w).
Proof.
  intros (_ & Hy & _). unfold format_year.
  by rewrite (proj2 (Z.ltb_lt (Z.abs (w_year w)) 10000)), (proj2 (Z.ltb_ge (w_year w) 0)), Z.abs_eq by lia.
Qed.

(** A formatted instant in UTC is read back. *)
Lemma parse_rfc3339_format t : layout_instant t -> parse_rfc3339 (format_wall t +:+ "Z") = Some t.
Proof.
  unfold layout_instant, format_wall. intros Hw. pose proof Hw as (Hv & Hy & Hn). rewrite <- (instant_of_wall_of t) at 2.
  set (w := wall_of t) in *. clearbody w. pose proof Hv as Hv'. unfold valid_wall, valid_date in Hv'.
  rewrite !andb_true_iff, !Z.leb_le, !Z.ltb_lt in Hv'.
  destruct Hv' as (((((((((((Hm1 & Hm2) & Hd1) & Hd2) & H1) & H2) & H3) & H4) & H5) & H6) & H7) & H8).
  assert (days_in (w_year w) (w_month w) <= 31) by (unfold days_in; repeat case_match; lia).
  unfold format_fields. rewrite (layout_year _ Hw), <- string_app_assoc. unfold parse_rfc3339, format_rest.
  repeat (rewrite ?string_app_cons, <- ?string_app_assoc, ?getnum_pad, ?take_digits_pad;
    repeat (cbn [mbind option_bind expect]; try rewrite bool_decide_eq_true_2 by reflexivity)).
  rewrite !Z.mul_0_l, !Z.add_0_l.
  change (10 ^ Z.of_nat 4) with 10000. change (10 ^ Z.of_nat 2) with 100.
  assert (0 <= w_nanos w / 1000 < 1000000) as Hus by (Z.to_euclidean_division_equations; lia).
  rewrite parse_fraction_pad by done. cbn [parse_zone mbind option_bind].
  rewrite !Z.mod_small by lia.
  replace (w_nanos w / 1000 * 1000) with (w_nanos w) by (Z.to_euclidean_division_equations; lia).
  destruct w; cbn [w_year w_month w_day w_hour w_minute w_second w_nanos] in *. rewrite Hv. simpl. f_equal. lia.
Qed.

Example times :
  parse_wall "2024-02-29T23:59:58.250000" = Some 1709251198250000000
  /\ parse_wall "2023-02-29T00:00:00.000000" = None /\ parse_wall "2024-02-29T3:59:58.250000" = None
  /\ format_wall 1709251198250000999 = "2024-02-29T23:59:58.250000" /\ format_wall (-1) = "1969-12-31T23:59:59.999999"
  /\ parse_rfc3339 "2024-02-29T23:59:58.25+01:30" = Some 1709245798250000000
  /\ parse_rfc3339 "2024-02-29T23:59:58Z" = Some 1709251198000000000 /\ parse_rfc3339 "2024-02-29 23:59:58Z" = None.
Proof. vm_compute. done. Qed.
