(* ===== verification/Uuid.v ===== *)
(** * UUIDs

    [uuid.UUID] is an array of 16 bytes; [uuid.Nil] is all zero and
    [String()] prints the 8-4-4-4-12 hexadecimal form. *)
From S2P Require Import Prelude GoStrings.
From Stdlib Require Import Strings.Byte.
From Stdlib Require Import Ascii String.
From stdpp Require Import strings countable.

#[export] Instance byte_eq_dec : EqDecision byte := Byte.byte_eq_dec.

Record uuid : Type := UUID {
  u0 : byte; u1 : byte; u2 : byte; u3 : byte; u4 : byte; u5 : byte; u6 : byte; u7 : byte;
  u8 : byte; u9 : byte; u10 : byte; u11 : byte; u12 : byte; u13 : byte; u14 : byte; u15 : byte;
}.

#[export] Instance uuid_eq_dec : EqDecision uuid.
Proof. solve_decision. Defined.

Definition uuid_bytes (u : uuid) : list N :=
  Byte.to_N <$> [u0 u; u1 u; u2 u; u3 u; u4 u; u5 u; u6 u; u7 u;
                 u8 u; u9 u; u10 u; u11 u; u12 u; u13 u; u14 u; u15 u].

Definition byte_of_N (n : N) : byte := default x00 (Byte.of_N n).

Definition uuid_of_bytes (l : list N) : option uuid :=
  match byte_of_N <$> l with
  | [a0; a1; a2; a3; a4; a5; a6; a7; a8; a9; a10; a11; a12; a13; a14; a15] =>
      Some (UUID a0 a1 a2 a3 a4 a5 a6 a7 a8 a9 a10 a11 a12 a13 a14 a15)
  | _ => None
  end.

Lemma byte_of_to_N b : byte_of_N (Byte.to_N b) = b.
Proof. unfold byte_of_N. by rewrite Byte.of_to_N. Qed.

Lemma uuid_of_to_bytes u : uuid_of_bytes (uuid_bytes u) = Some u.
Proof. destruct u. unfold uuid_of_bytes, uuid_bytes. simpl. by rewrite !byte_of_to_N. Qed.

#[export] Instance uuid_countable : Countable uuid :=
  inj_countable uuid_bytes uuid_of_bytes uuid_of_to_bytes.

(** [uuid.Nil] *)
Definition Nil : uuid :=
  UUID x00 x00 x00 x00 x00 x00 x00 x00 x00 x00 x00 x00 x00 x00 x00 x00.

(** ** [String()] *)

Definition hex_digit (n : N) : ascii :=
  ascii_of_N (if (n <? 10)%N then 48 + n else 87 + n).

(** Two hexadecimal digits in front of [rest]. *)
Definition hex_byte (b : byte) (rest : string) : string :=
  String (hex_digit (Byte.to_N b / 16)) (String (hex_digit (Byte.to_N b mod 16)) rest).

Definition dash (rest : string) : string := String "-" rest.

(** [UUID.String()], in front of [rest]. *)
Definition uuid_print (u : uuid) (rest : string) : string :=
  hex_byte (u0 u) (hex_byte (u1 u) (hex_byte (u2 u) (hex_byte (u3 u) (dash (
  hex_byte (u4 u) (hex_byte (u5 u) (dash (
  hex_byte (u6 u) (hex_byte (u7 u) (dash (
  hex_byte (u8 u) (hex_byte (u9 u) (dash (
  hex_byte (u10 u) (hex_byte (u11 u) (hex_byte (u12 u) (hex_byte (u13 u)
  (hex_byte (u14 u) (hex_byte (u15 u) rest))))))))))))))))))).

Definition uuid_string (u : uuid) : string := uuid_print u "".
Arguments uuid_string : simpl never.

Definition hex_value (a : ascii) : N :=
  let n := code a in if (n <? 58)%N then n - 48 else n - 87.

Lemma hex_byte_inj b1 b2 r1 r2 : hex_byte b1 r1 = hex_byte b2 r2 -> b1 = b2 /\ r1 = r2.
Proof.
  intros H. injection H as H1 H2 H3. split; [|done].
  assert (forall b, byte_of_N (hex_value (hex_digit (Byte.to_N b / 16)) * 16
            + hex_value (hex_digit (Byte.to_N b mod 16))) = b) as Hinv
    by (intros []; reflexivity).
  rewrite <- (Hinv b1), <- (Hinv b2). by rewrite H1, H2.
Qed.

Lemma dash_inj r1 r2 : dash r1 = dash r2 -> r1 = r2.
Proof. by intros [=]. Qed.

(** The printed form has fixed length, so it is injective even in front of
    other text. *)
Lemma uuid_print_inj u v r1 r2 : uuid_print u r1 = uuid_print v r2 -> u = v /\ r1 = r2.
Proof.
  destruct u, v. unfold uuid_print. simpl u0. cbn [u0 u1 u2 u3 u4 u5 u6 u7 u8 u9 u10 u11 u12 u13 u14 u15].
  intros H.
  repeat first
    [ apply hex_byte_inj in H; destruct H as [? H]
    | apply dash_inj in H ].
  by subst.
Qed.

Lemma uuid_string_inj u v : uuid_string u = uuid_string v -> u = v.
Proof. intros H. by apply uuid_print_inj in H as [??]. Qed.

Lemma uuid_print_app u r : uuid_print u r = uuid_string u +:+ r.
Proof. reflexivity. Qed.

#[export] Instance uuid_string_injective : Inj (=) (=) uuid_string.
Proof. intros u v. apply uuid_string_inj. Qed.

(** The printed form has hexadecimal digits and dashes only. *)
Lemma hex_byte_no_bar b r : no_char "|" (hex_byte b r) = no_char "|" r.
Proof. by destruct b. Qed.

Lemma dash_no_bar r : no_char "|" (dash r) = no_char "|" r.
Proof. reflexivity. Qed.

Lemma uuid_string_no_bar u : no_char "|" (uuid_string u) = true.
Proof.
  unfold uuid_string, uuid_print.
  repeat first [rewrite hex_byte_no_bar | rewrite dash_no_bar]. reflexivity.
Qed.

Lemma uuid_string_nonempty u : uuid_string u <> "".
Proof. by unfold uuid_string, uuid_print, hex_byte. Qed.

(** The order of the printed forms. *)
Lemma uuid_string_total u v :
  string_less (uuid_string u) (uuid_string v) = false ->
  string_less (uuid_string v) (uuid_string u) = false -> u = v.
Proof. intros H1 H2. apply uuid_string_inj. by apply string_less_total. Qed.

(** Small identifiers for examples. *)
Definition uid (n : N) : uuid :=
  UUID x00 x00 x00 x00 x00 x00 x00 x00 x00 x00 x00 x00 x00 x00 (byte_of_N (n / 256)) (byte_of_N (n mod 256)).

Definition is_nil (u : uuid) : bool := bool_decide (u = Nil).
