(* ===== verification/Rolling.v ===== *)
(** * Rolling deployments ([internal/deployments/rolling.go])

    The rolling state machine: targets are started window by window, the
    executor reports the state of each target, failure thresholds pause or
    abort the rollout. [RollingState] is the Go struct; methods that mutate the
    receiver return the new state. *)
From S2P Require Import Prelude GoStrings Uuid.

(** ** Data *)

Inductive RollingTargetState :=
| RollingTargetPending | RollingTargetInProgress | RollingTargetSucceeded
| RollingTargetFailed | RollingTargetSkipped
| RollingTargetOther (s : string).

#[export] Instance RollingTargetState_eq_dec : EqDecision RollingTargetState.
Proof. solve_decision. Defined.

Definition target_state_valid (s : RollingTargetState) : bool :=
  match s with
  | RollingTargetPending | RollingTargetInProgress | RollingTargetSucceeded
  | RollingTargetFailed | RollingTargetSkipped => true
  | RollingTargetOther _ => false
  end.

Definition target_state_terminal (s : RollingTargetState) : bool :=
  bool_decide (s = RollingTargetSucceeded) || bool_decide (s = RollingTargetFailed)
  || bool_decide (s = RollingTargetSkipped).

Inductive RollingPhase :=
| RollingPhasePending | RollingPhaseInProgress | RollingPhasePaused
| RollingPhaseAborted | RollingPhaseCompleted.

#[export] Instance RollingPhase_eq_dec : EqDecision RollingPhase.
Proof. solve_decision. Defined.

(** [ActionUnset] is the empty string of the Go type. *)
Inductive RollingFailureAction :=
| ActionUnset | RollingFailureActionPause | RollingFailureActionAbort
| RollingFailureActionOther (s : string).

#[export] Instance RollingFailureAction_eq_dec : EqDecision RollingFailureAction.
Proof. solve_decision. Defined.

Record RollingFailureThreshold := {
  MaxFailedTargets : Z;
  MaxFailurePercentage : Z;
  Action : RollingFailureAction;
}.

Record RollingConfig := {
  WindowSize : Z;
  MaximumUnavailable : Z;
  PauseBetweenWindows : Z;
  FailureThreshold : RollingFailureThreshold;
}.

Record RollingTarget := {
  DeploymentPlanTargetID : uuid;
  DeploymentTargetID : uuid;
  SortOrder : Z;
  State : RollingTargetState;
  WindowNumber : Z;
  FailureReason : string;
}.

Record RollingState := {
  Config : RollingConfig;
  Phase : RollingPhase;
  CurrentWindow : Z;
  Targets : list RollingTarget;
}.

Inductive RollingError :=
| WindowSizeNotPositive | MaximumUnavailableNegative | PauseNegative
| MaxFailedTargetsNegative | MaxFailurePercentageRange | FailureActionInvalid
| NoTargets | PlanTargetIDRequired | TargetIDRequired | PlanTargetIDsNotUnique
| InvalidTargetState (s : RollingTargetState) | TargetNotFound (id : uuid).

(** ** Validation *)

Definition threshold_enabled (t : RollingFailureThreshold) : bool :=
  (0 <? MaxFailedTargets t)%Z || (0 <? MaxFailurePercentage t)%Z.

Definition threshold_action (t : RollingFailureThreshold) : RollingFailureAction :=
  match Action t with ActionUnset => RollingFailureActionPause | a => a end.

Definition action_valid (a : RollingFailureAction) : bool :=
  bool_decide (a = RollingFailureActionPause) || bool_decide (a = RollingFailureActionAbort).

Definition action_phase (a : RollingFailureAction) : RollingPhase :=
  match a with RollingFailureActionAbort => RollingPhaseAborted | _ => RollingPhasePaused end.

Definition threshold_validate (t : RollingFailureThreshold) : result RollingError unit :=
  fail_if (MaxFailedTargets t <? 0)%Z MaxFailedTargetsNegative ≫= λ _,
  fail_if ((MaxFailurePercentage t <? 0) || (100 <? MaxFailurePercentage t))%Z
    MaxFailurePercentageRange ≫= λ _,
  fail_if (threshold_enabled t && negb (action_valid (threshold_action t)))
    FailureActionInvalid.

Definition config_validate (c : RollingConfig) : result RollingError unit :=
  fail_if (WindowSize c <=? 0)%Z WindowSizeNotPositive ≫= λ _,
  fail_if (MaximumUnavailable c <? 0)%Z MaximumUnavailableNegative ≫= λ _,
  fail_if (PauseBetweenWindows c <? 0)%Z PauseNegative ≫= λ _,
  threshold_validate (FailureThreshold c).

(** ** [NewRollingState] *)

Definition reset_target (t : RollingTarget) : RollingTarget :=
  {| DeploymentPlanTargetID := DeploymentPlanTargetID t;
     DeploymentTargetID := DeploymentTargetID t;
     SortOrder := SortOrder t;
     State := RollingTargetPending; WindowNumber := 0; FailureReason := "" |}.

(** The normalisation loop; [seen] is [seenPlanTargets]. *)
Fixpoint normalize_targets (seen : list uuid) (ts : list RollingTarget)
    : result RollingError (list RollingTarget) :=
  match ts with
  | [] => Ok []
  | t :: ts =>
      fail_if (is_nil (DeploymentPlanTargetID t)) PlanTargetIDRequired ≫= λ _,
      fail_if (is_nil (DeploymentTargetID t)) TargetIDRequired ≫= λ _,
      fail_if (contains seen (DeploymentPlanTargetID t)) PlanTargetIDsNotUnique ≫= λ _,
      normalize_targets (DeploymentPlanTargetID t :: seen) ts ≫= λ rest,
      Ok (reset_target t :: rest)
  end.

Definition rolling_less : RollingTarget -> RollingTarget -> bool :=
  less_then SortOrder (less_str_by (λ t, uuid_string (DeploymentPlanTargetID t))).

Definition NewRollingState (config : RollingConfig) (targets : list RollingTarget)
    : result RollingError RollingState :=
  config_validate config ≫= λ _,
  fail_if (bool_decide (length targets = 0)) NoTargets ≫= λ _,
  normalize_targets [] targets ≫= λ normalized,
  Ok {| Config := config; Phase := RollingPhasePending; CurrentWindow := 0;
        Targets := stable_sort rolling_less normalized |}.

(** ** Windows *)

Definition effectiveWindowSize (s : RollingState) : Z :=
  let c := Config s in
  if ((0 <? MaximumUnavailable c) && (MaximumUnavailable c <? WindowSize c))%Z
  then MaximumUnavailable c else WindowSize c.

Definition in_window (s : RollingState) (t : RollingTarget) : bool :=
  (WindowNumber t =? CurrentWindow s)%Z.

Definition currentWindowTerminal (s : RollingState) : bool :=
  if (CurrentWindow s =? 0)%Z then true
  else forallb (λ t, negb (in_window s t && negb (target_state_terminal (State t)))) (Targets s).

Definition is_pending (t : RollingTarget) : bool := bool_decide (State t = RollingTargetPending).
Definition is_in_progress (t : RollingTarget) : bool :=
  bool_decide (State t = RollingTargetInProgress).

Fixpoint pending_indexes (ts : list RollingTarget) : list nat :=
  match ts with
  | [] => []
  | t :: ts => (if is_pending t then [0] else []) ++ (S <$> pending_indexes ts)
  end.

Definition pendingTargetIndexes (s : RollingState) : list nat := pending_indexes (Targets s).

Definition set_in_progress (window : Z) (t : RollingTarget) : RollingTarget :=
  {| DeploymentPlanTargetID := DeploymentPlanTargetID t;
     DeploymentTargetID := DeploymentTargetID t; SortOrder := SortOrder t;
     State := RollingTargetInProgress; WindowNumber := window;
     FailureReason := FailureReason t |}.

(** [for _, index := range pending[:limit]]: the started targets and the
    updated slice. The indexes are in range, so the last case is not taken. *)
Fixpoint start_targets (window : Z) (indexes : list nat) (ts : list RollingTarget)
    : list RollingTarget * list RollingTarget :=
  match indexes with
  | [] => ([], ts)
  | i :: indexes =>
      match ts !! i with
      | Some t =>
          let t' := set_in_progress window t in
          let '(started, ts') := start_targets window indexes (<[i := t']> ts) in
          (t' :: started, ts')
      | None => ([], ts)
      end
  end.

Definition with_phase (p : RollingPhase) (s : RollingState) : RollingState :=
  {| Config := Config s; Phase := p; CurrentWindow := CurrentWindow s; Targets := Targets s |}.

Definition StartNextWindow (s : RollingState) : list RollingTarget * RollingState :=
  if bool_decide (Phase s = RollingPhasePaused) || bool_decide (Phase s = RollingPhaseAborted)
     || bool_decide (Phase s = RollingPhaseCompleted) then ([], s)
  else if negb (currentWindowTerminal s) then ([], s)
  else
    let pending := pendingTargetIndexes s in
    if bool_decide (length pending = 0) then ([], with_phase RollingPhaseCompleted s)
    else
      let limit := Z.min (effectiveWindowSize s) (Z.of_nat (length pending)) in
      let window := (CurrentWindow s + 1)%Z in
      let '(started, ts) := start_targets window (take (Z.to_nat limit) pending) (Targets s) in
      (started, {| Config := Config s; Phase := RollingPhaseInProgress;
                   CurrentWindow := window; Targets := ts |}).

(** ** Transitions of a target *)

Definition targetIndex (s : RollingState) (id : uuid) : option nat :=
  find_index (λ t, bool_decide (DeploymentPlanTargetID t = id)) (Targets s).

Definition failed_targets (s : RollingState) : Z :=
  Z.of_nat (count (λ t, bool_decide (State t = RollingTargetFailed)) (Targets s)).

Definition failureThresholdPhase (s : RollingState) : option RollingPhase :=
  let threshold := FailureThreshold (Config s) in
  if negb (threshold_enabled threshold) then None else
  let failed := failed_targets s in
  if (0 <? MaxFailedTargets threshold)%Z && (MaxFailedTargets threshold <=? failed)%Z
  then Some (action_phase (threshold_action threshold))
  else if (0 <? MaxFailurePercentage threshold)%Z
       && (MaxFailurePercentage threshold * Z.of_nat (length (Targets s)) <=? failed * 100)%Z
  then Some (action_phase (threshold_action threshold))
  else None.

Definition allTargetsTerminal (s : RollingState) : bool :=
  forallb (λ t, target_state_terminal (State t)) (Targets s).

Definition next_phase (s : RollingState) : RollingPhase :=
  match failureThresholdPhase s with
  | Some p => p
  | None =>
      if allTargetsTerminal s then RollingPhaseCompleted
      else if currentWindowTerminal s then RollingPhasePending
      else RollingPhaseInProgress
  end.

Definition updatePhase (s : RollingState) : RollingState := with_phase (next_phase s) s.

Definition set_target_state (state : RollingTargetState) (reason : string) (t : RollingTarget)
    : RollingTarget :=
  {| DeploymentPlanTargetID := DeploymentPlanTargetID t;
     DeploymentTargetID := DeploymentTargetID t; SortOrder := SortOrder t;
     State := state; WindowNumber := WindowNumber t;
     FailureReason := if bool_decide (state = RollingTargetFailed) then reason else "" |}.

Definition TransitionTarget (s : RollingState) (id : uuid) (state : RollingTargetState)
    (reason : string) : result RollingError RollingState :=
  fail_if (negb (target_state_valid state)) (InvalidTargetState state) ≫= λ _,
  match targetIndex s id with
  | None => Err (TargetNotFound id)
  | Some i =>
      Ok (updatePhase
        {| Config := Config s; Phase := Phase s; CurrentWindow := CurrentWindow s;
           Targets := alter (set_target_state state reason) i (Targets s) |})
  end.

(** ** Starting a window *)

(** The abstract effect of starting [n] targets: the first [n] pending targets
    are marked, every other target is unchanged. *)
Fixpoint mark_pending (window : Z) (n : nat) (ts : list RollingTarget) : list RollingTarget :=
  match n, ts with
  | S n', t :: ts =>
      if is_pending t then set_in_progress window t :: mark_pending window n' ts
      else t :: mark_pending window n ts
  | _, _ => ts
  end.

Lemma length_pending_indexes ts : length (pending_indexes ts) = count is_pending ts.
Proof.
  induction ts as [|t ts IH]; [done|]. simpl.
  rewrite length_app, length_fmap, IH, count_cons. by destruct (is_pending t).
Qed.

Lemma start_targets_shift window idxs t ts :
  start_targets window (S <$> idxs) (t :: ts)
  = let '(started, ts') := start_targets window idxs ts in (started, t :: ts').
Proof.
  revert ts. induction idxs as [|i idxs IH]; intros ts; [done|]. simpl.
  destruct (ts !! i) as [u|]; [|done]. rewrite IH.
  by destruct (start_targets window idxs (<[i := set_in_progress window u]> ts)).
Qed.

Lemma start_targets_spec window n ts :
  start_targets window (take n (pending_indexes ts)) ts
  = (set_in_progress window <$> take n (List.filter is_pending ts), mark_pending window n ts).
Proof.
  revert n. induction ts as [|t ts IH]; intros n; [by destruct n|].
  simpl pending_indexes. simpl List.filter. destruct n as [|n]; [done|].
  simpl mark_pending. destruct (is_pending t) eqn:E.
  - simpl. rewrite <- fmap_take, start_targets_shift, IH. done.
  - rewrite app_nil_l, <- fmap_take, start_targets_shift, IH. done.
Qed.

Lemma mark_pending_in_progress window n ts :
  count is_in_progress (mark_pending window n ts)
  = count is_in_progress ts + Nat.min n (count is_pending ts).
Proof.
  revert n. induction ts as [|t ts IH]; intros n; [by destruct n|].
  destruct n as [|n]; simpl mark_pending; [lia|].
  destruct (is_pending t) eqn:E; rewrite !count_cons, IH, ?E.
  - assert (is_in_progress t = false) as ->.
    { unfold is_pending, is_in_progress in *. to_prop. rewrite E. done. }
    change (is_in_progress (set_in_progress window t)) with true. simpl. lia.
  - lia.
Qed.

Lemma mark_pending_pending window n ts :
  count is_pending (mark_pending window n ts) = count is_pending ts - n.
Proof.
  revert n. induction ts as [|t ts IH]; intros n; [by destruct n|].
  destruct n as [|n]; simpl mark_pending; [lia|].
  destruct (is_pending t) eqn:E; rewrite !count_cons, IH, ?E; simpl; [|lia].
  change (is_pending (set_in_progress window t)) with false. simpl. lia.
Qed.

Lemma mark_pending_ids window n ts :
  DeploymentPlanTargetID <$> mark_pending window n ts = DeploymentPlanTargetID <$> ts.
Proof.
  revert n. induction ts as [|t ts IH]; intros [|n]; [done..|].
  simpl mark_pending. destruct (is_pending t); by rewrite !fmap_cons, IH.
Qed.

Lemma elem_of_mark_pending window n ts t :
  t ∈ mark_pending window n ts ->
  t ∈ ts \/ exists u, u ∈ ts /\ is_pending u = true /\ t = set_in_progress window u.
Proof.
  revert n. induction ts as [|u ts IH]; intros [|n]; simpl; [naive_solver..|].
  destruct (is_pending u) eqn:E; intros [->|Ht]%elem_of_cons; try apply IH in Ht;
    rewrite ?elem_of_cons; setoid_rewrite elem_of_cons; naive_solver.
Qed.

(** [StartNextWindow] in one equation. *)
Lemma StartNextWindow_eq s :
  StartNextWindow s =
  if bool_decide (Phase s = RollingPhasePaused) || bool_decide (Phase s = RollingPhaseAborted)
     || bool_decide (Phase s = RollingPhaseCompleted) || negb (currentWindowTerminal s)
  then ([], s)
  else if bool_decide (count is_pending (Targets s) = 0)
  then ([], with_phase RollingPhaseCompleted s)
  else
    let n := Z.to_nat (Z.min (effectiveWindowSize s) (Z.of_nat (count is_pending (Targets s)))) in
    (set_in_progress (CurrentWindow s + 1) <$> take n (List.filter is_pending (Targets s)),
     {| Config := Config s; Phase := RollingPhaseInProgress; CurrentWindow := CurrentWindow s + 1;
        Targets := mark_pending (CurrentWindow s + 1) n (Targets s) |}).
Proof.
  unfold StartNextWindow, pendingTargetIndexes.
  rewrite length_pending_indexes, start_targets_spec.
  destruct (_ || _ || bool_decide (Phase s = RollingPhaseCompleted)); [done|].
  by destruct (currentWindowTerminal s).
Qed.

(** ** The executor's discipline and the invariant *)

(** A rollout proceeds by starting a window or by reporting a terminal state
    for a target that is in progress. *)
Inductive rolling_step (s : RollingState) : RollingState -> Prop :=
| rolling_start started s' : StartNextWindow s = (started, s') -> rolling_step s s'
| rolling_report id state reason t s' :
    t ∈ Targets s -> DeploymentPlanTargetID t = id -> State t = RollingTargetInProgress ->
    target_state_terminal state = true ->
    TransitionTarget s id state reason = Ok s' -> rolling_step s s'.

Record rolling_inv (s : RollingState) : Prop := {
  ri_ids : NoDup (DeploymentPlanTargetID <$> Targets s);
  ri_window : (0 <= CurrentWindow s)%Z;
  ri_current t : t ∈ Targets s -> State t = RollingTargetInProgress ->
    WindowNumber t = CurrentWindow s /\ CurrentWindow s <> 0%Z;
  ri_bound : (Z.of_nat (count is_in_progress (Targets s)) <= effectiveWindowSize s)%Z;
}.

Lemma effectiveWindowSize_pos c ts p w :
  config_validate c = Ok tt ->
  (0 < effectiveWindowSize {| Config := c; Phase := p; CurrentWindow := w; Targets := ts |})%Z.
Proof.
  unfold config_validate. intros H. inv_result. to_prop.
  unfold effectiveWindowSize. simpl. bool_cases; to_prop; lia.
Qed.

Lemma currentWindowTerminal_none s :
  rolling_inv s -> currentWindowTerminal s = true -> count is_in_progress (Targets s) = 0.
Proof.
  intros Hinv Ht. apply count_zero. intros t Hin.
  unfold is_in_progress. apply bool_decide_eq_false_2. intros Hs.
  destruct (ri_current s Hinv t Hin Hs) as [Hw H0].
  unfold currentWindowTerminal in Ht. destruct (Z.eqb_spec (CurrentWindow s) 0); [done|].
  rewrite forallb_forall in Ht. specialize (Ht t (proj1 (list_elem_of_In _ _) Hin)).
  unfold in_window in Ht. rewrite Hw, Z.eqb_refl, Hs in Ht. discriminate.
Qed.

Lemma rolling_inv_start s started s' :
  rolling_inv s -> StartNextWindow s = (started, s') -> rolling_inv s'.
Proof.
  intros Hinv. rewrite StartNextWindow_eq.
  destruct (_ || negb (currentWindowTerminal s)) eqn:E1; [by intros [= <- <-]|].
  to_prop. pose proof (currentWindowTerminal_none s Hinv ltac:(done)) as Hnone.
  case_bool_decide as Hp; intros [= <- <-].
  { destruct Hinv. by constructor. }
  constructor; simpl.
  - rewrite mark_pending_ids. apply Hinv.
  - pose proof (ri_window s Hinv). lia.
  - intros t Ht Hs. pose proof (ri_window s Hinv).
    apply elem_of_mark_pending in Ht as [Ht|(u & Hu & _ & ->)]; [|simpl; lia].
    exfalso. rewrite count_zero in Hnone. specialize (Hnone t Ht).
    unfold is_in_progress in Hnone. to_prop. done.
  - rewrite mark_pending_in_progress, Hnone.
    pose proof (ri_bound s Hinv). unfold effectiveWindowSize in *. simpl in *. lia.
Qed.

Lemma list_alter_insert {A} (f : A -> A) i (l : list A) x :
  l !! i = Some x -> alter f i l = <[i := f x]> l.
Proof.
  revert i. induction l as [|y l IH]; intros [|i] H; simpl in *; try done.
  - by injection H as ->.
  - f_equal. by apply IH.
Qed.

Lemma TransitionTarget_inv s id state reason s' :
  TransitionTarget s id state reason = Ok s' ->
  exists i t, targetIndex s id = Some i /\ Targets s !! i = Some t
    /\ DeploymentPlanTargetID t = id /\ target_state_valid state = true
    /\ s' = updatePhase
        {| Config := Config s; Phase := Phase s; CurrentWindow := CurrentWindow s;
           Targets := <[i := set_target_state state reason t]> (Targets s) |}.
Proof.
  unfold TransitionTarget. intros H. inv_result. to_prop.
  destruct (targetIndex s id) as [i|] eqn:Ei; [|discriminate]. inv_result.
  destruct (find_index_Some _ _ _ Ei) as [(t & Ht & Hid) _]. to_prop.
  exists i, t. by rewrite (list_alter_insert _ _ _ t Ht).
Qed.

Lemma ids_insert s i t state reason :
  Targets s !! i = Some t ->
  DeploymentPlanTargetID <$> <[i := set_target_state state reason t]> (Targets s)
  = DeploymentPlanTargetID <$> Targets s.
Proof.
  intros Ht. rewrite list_fmap_insert. apply list_insert_id. by rewrite list_lookup_fmap, Ht.
Qed.

Lemma terminal_not_in_progress st :
  target_state_terminal st = true -> bool_decide (st = RollingTargetInProgress) = false.
Proof. by destruct st. Qed.

Lemma rolling_inv_report s id state reason s' :
  rolling_inv s -> target_state_terminal state = true ->
  TransitionTarget s id state reason = Ok s' -> rolling_inv s'.
Proof.
  intros Hinv Hterm H. apply TransitionTarget_inv in H as (i & t & _ & Ht & _ & _ & ->).
  constructor; simpl.
  - rewrite (ids_insert s) by done. apply Hinv.
  - apply Hinv.
  - intros u Hu Hs. apply list_elem_of_lookup in Hu as [j Hj].
    destruct (decide (i = j)) as [<-|Hne].
    + rewrite list_lookup_insert_eq in Hj by (by eapply lookup_lt_Some).
      injection Hj as <-. simpl in Hs. by rewrite Hs in Hterm.
    + rewrite list_lookup_insert_ne in Hj by done.
      apply (ri_current s Hinv); [by eapply list_elem_of_lookup_2 | done].
  - pose proof (count_insert is_in_progress (Targets s) i t
      (set_target_state state reason t) Ht) as Hc.
    replace (is_in_progress (set_target_state state reason t)) with false in Hc
      by (symmetry; by apply terminal_not_in_progress).
    pose proof (ri_bound s Hinv). unfold effectiveWindowSize in *. simpl in *. lia.
Qed.

(** ** [NewRollingState] *)

Lemma normalize_targets_ok seen ts l :
  normalize_targets seen ts = Ok l <->
  l = reset_target <$> ts
  /\ NoDup (DeploymentPlanTargetID <$> ts)
  /\ Forall (λ t, DeploymentPlanTargetID t <> Nil /\ DeploymentTargetID t <> Nil
                  /\ DeploymentPlanTargetID t ∉ seen) ts.
Proof.
  revert seen l. induction ts as [|t ts IH]; intros seen l; simpl.
  { split; [intros [= <-]; repeat constructor | by intros (-> & _)]. }
  rewrite !fail_if_bind, !if_err_ok, result_bind_ok. setoid_rewrite IH.
  unfold is_nil, contains. rewrite NoDup_cons, Forall_cons, !bool_decide_eq_false.
  split.
  - intros (H1 & H2 & H3 & rest & (-> & Hnd & Hall) & [= <-]).
    rewrite Forall_forall in Hall. split_and!; try done.
    + intros (u & Hu & Hin)%list_elem_of_fmap. destruct (Hall u Hin) as (_ & _ & Hs).
      apply Hs. rewrite <- Hu. by left.
    + apply Forall_forall. intros u Hu. destruct (Hall u Hu) as (? & ? & Hs).
      split_and!; [done..|]. intros Hs'. apply Hs. by right.
  - intros (-> & (Hnin & Hnd) & (H1 & H2 & H3) & Hall). rewrite Forall_forall in Hall.
    split_and!; [done..|]. exists (reset_target <$> ts). split; [|done].
    split_and!; [done..|].
    apply Forall_forall. intros u Hu. destruct (Hall u Hu) as (? & ? & ?).
    split_and!; [done..|]. intros [Heq|?]%elem_of_cons; [|done].
    apply Hnin. rewrite <- Heq. by apply list_elem_of_fmap_2.
Qed.

Lemma NewRollingState_ok c ts s :
  NewRollingState c ts = Ok s <->
  config_validate c = Ok tt /\ ts <> []
  /\ NoDup (DeploymentPlanTargetID <$> ts)
  /\ Forall (λ t, DeploymentPlanTargetID t <> Nil /\ DeploymentTargetID t <> Nil) ts
  /\ s = {| Config := c; Phase := RollingPhasePending; CurrentWindow := 0;
            Targets := stable_sort rolling_less (reset_target <$> ts) |}.
Proof.
  unfold NewRollingState.
  destruct (config_validate c) as [[]|e]; simpl; [|split; [done|by intros [? _]]].
  rewrite fail_if_bind, if_err_ok, result_bind_ok, bool_decide_eq_false.
  setoid_rewrite normalize_targets_ok. split.
  - intros (Hl & rest & (-> & Hnd & Hall) & [= <-]).
    split_and!; try done; [by intros ->|]. eapply Forall_impl; [exact Hall|]. naive_solver.
  - intros (_ & Hne & Hnd & Hall & ->).
    split; [by destruct ts|]. exists (reset_target <$> ts).
    split; [|done]. split_and!; [done..|]. eapply Forall_impl; [exact Hall|].
    intros t [??]. split_and!; [done..|]. apply not_elem_of_nil.
Qed.

Lemma new_targets_pending ts t :
  t ∈ stable_sort rolling_less (reset_target <$> ts) -> State t = RollingTargetPending.
Proof. rewrite elem_of_stable_sort. by intros (u & -> & _)%list_elem_of_fmap. Qed.

Lemma rolling_inv_new c ts s : NewRollingState c ts = Ok s -> rolling_inv s.
Proof.
  intros (Hc & _ & Hnd & _ & ->)%NewRollingState_ok. constructor; simpl.
  - rewrite (stable_sort_perm rolling_less), <- list_fmap_compose. exact Hnd.
  - lia.
  - intros t Ht Hs. by rewrite (new_targets_pending ts t Ht) in Hs.
  - rewrite (proj2 (count_zero _ _)).
    + pose proof (effectiveWindowSize_pos c (stable_sort rolling_less (reset_target <$> ts))
        RollingPhasePending 0 Hc). lia.
    + intros t Ht. unfold is_in_progress. by rewrite (new_targets_pending ts t Ht).
Qed.

Lemma rolling_inv_steps s s' : rtc rolling_step s s' -> rolling_inv s -> rolling_inv s'.
Proof.
  induction 1 as [|s s1 s2 Hstep _ IH]; [done|]. intros Hinv. apply IH.
  destruct Hstep; eauto using rolling_inv_start, rolling_inv_report.
Qed.

(** *** What a run never changes: the configuration and the plan order *)

Definition same_key (t u : RollingTarget) : Prop :=
  SortOrder t = SortOrder u /\ DeploymentPlanTargetID t = DeploymentPlanTargetID u.

Lemma same_key_less t t' u u' :
  same_key t t' -> same_key u u' -> rolling_less t u = rolling_less t' u'.
Proof. intros [H1 H2] [H3 H4]. unfold rolling_less, less_then, less_str_by. by rewrite H1, H2, H3, H4. Qed.

Lemma same_keys_sorted l l' :
  Forall2 same_key l l' -> StronglySorted (not_after rolling_less) l ->
  StronglySorted (not_after rolling_less) l'.
Proof.
  induction 1 as [|t t' l l' Ht Hl IH]; intros Hs; constructor; inversion Hs as [|? ? Hs' Hall]; subst.
  - by apply IH.
  - rewrite Forall_forall in Hall |- *. intros u' Hu'.
    apply list_elem_of_lookup in Hu' as [i Hi].
    destruct (Forall2_lookup_r _ _ _ _ _ Hl Hi) as (u & Hu & Hk).
    unfold not_after. rewrite <- (same_key_less _ _ _ _ Hk Ht).
    apply Hall. by eapply list_elem_of_lookup_2.
Qed.

Lemma same_keys_refl l : Forall2 same_key l l.
Proof. induction l; constructor; [by split | done]. Qed.

Lemma mark_pending_keys window n ts : Forall2 same_key ts (mark_pending window n ts).
Proof.
  revert n. induction ts as [|t ts IH]; intros [|n]; simpl; try apply same_keys_refl.
  destruct (is_pending t); constructor; auto; by split.
Qed.

Lemma rolling_step_frame s s' :
  rolling_step s s' -> Config s' = Config s /\ Forall2 same_key (Targets s) (Targets s').
Proof.
  intros [started s1 H|id state reason t s1 _ _ _ _ H].
  - rewrite StartNextWindow_eq in H.
    destruct (_ || negb (currentWindowTerminal s)); [injection H as <- <-; split; [done|apply same_keys_refl]|].
    case_bool_decide; injection H as <- <-; split; try done;
      [apply same_keys_refl | apply mark_pending_keys].
  - apply TransitionTarget_inv in H as (i & u & _ & Hu & _ & _ & ->). split; [done|]. simpl.
    apply Forall2_same_length_lookup_2; [by rewrite length_insert|].
    intros j x y Hx Hy. destruct (decide (i = j)) as [<-|Hne].
    + rewrite list_lookup_insert_eq in Hy by (by eapply lookup_lt_Some).
      simplify_eq. by split.
    + rewrite list_lookup_insert_ne in Hy by done. simplify_eq. by split.
Qed.

Lemma rolling_steps_frame c ts s0 s :
  NewRollingState c ts = Ok s0 -> rtc rolling_step s0 s ->
  Config s = c /\ StronglySorted (not_after rolling_less) (Targets s).
Proof.
  intros (_ & _ & _ & _ & ->)%NewRollingState_ok Hrun.
  assert (Config s = c /\ StronglySorted (not_after rolling_less) (Targets s)); [|done].
  remember {| Config := c; Targets := _ |} as s0 eqn:E.
  assert (Config s0 = c /\ StronglySorted (not_after rolling_less) (Targets s0)) as [Hc Hs]
    by (subst; split; [done | apply stable_sort_sorted, _]).
  clear E. induction Hrun as [s|s s1 s2 Hstep _ IH]; [done|].
  destruct (rolling_step_frame _ _ Hstep) as [Hc1 Hk].
  apply IH; [congruence | by eapply same_keys_sorted].
Qed.


(** Plan order. When a window starts in a reachable state, every started
    target was pending, and no target that is still pending after the start
    comes before a started one in the order by sort order and identifier. *)
Theorem rolling_starts_in_plan_order c ts s0 s started s' :
  NewRollingState c ts = Ok s0 -> rtc rolling_step s0 s -> StartNextWindow s = (started, s') ->
  forall t, t ∈ started ->
    (exists u, u ∈ Targets s /\ is_pending u = true /\ t = set_in_progress (CurrentWindow s') u)
    /\ forall v, v ∈ Targets s' -> is_pending v = true -> rolling_less v t = false.
Proof.
  intros Hnew Hrun. destruct (rolling_steps_frame _ _ _ _ Hnew Hrun) as [_ Hsort].
  rewrite StartNextWindow_eq.
  destruct (_ || negb (currentWindowTerminal s)); [intros [= <- <-] t Ht; by apply elem_of_nil in Ht|].
  case_bool_decide; intros [= <- <-] t Ht; [by apply elem_of_nil in Ht|]. simpl.
  set (w := (CurrentWindow s + 1)%Z) in *. set (n := Z.to_nat _) in *. clearbody n w. clear - Hsort Ht.
  revert n t Ht. induction Hsort as [|u ts Hs IH Hu]; intros [|n] t Ht; simpl in Ht;
    try by apply elem_of_nil in Ht.
  rewrite Forall_forall in Hu. simpl mark_pending. destruct (is_pending u) eqn:E; simpl in Ht.
  - apply elem_of_cons in Ht as [->|Ht].
    + split; [exists u; split; [by left | done]|].
      intros v [->|Hv]%elem_of_cons Hp; [done|].
      apply elem_of_mark_pending in Hv as [Hv|(x & _ & _ & ->)]; [by apply Hu | done].
    + destruct (IH n t Ht) as [(x & Hx & Hp & ->) H2].
      split; [exists x; split; [by right | done]|].
      intros v [->|Hv]%elem_of_cons Hpv; [done | by apply H2].
  - destruct (IH (S n) t Ht) as [(x & Hx & Hp & ->) H2].
    split; [exists x; split; [by right | done]|].
    intros v [->|Hv]%elem_of_cons Hpv; [congruence | by apply H2].
Qed.

(** Failure threshold. After a target's transition the rollout is halted,
    in the phase of the configured action, exactly when the failed targets
    reach the absolute or the percentage limit; a halted rollout starts no
    further window, and a rollout that is not halted is complete exactly when
    every target is terminal. *)
Theorem rolling_threshold_halts s id state reason s' :
  TransitionTarget s id state reason = Ok s' ->
  let th := FailureThreshold (Config s) in
  let failed := failed_targets s' in
  let size := Z.of_nat (length (Targets s)) in
  ((0 < MaxFailedTargets th /\ MaxFailedTargets th <= failed)
   \/ (0 < MaxFailurePercentage th /\ MaxFailurePercentage th * size <= failed * 100) ->
     Phase s' = action_phase (threshold_action th) /\ StartNextWindow s' = ([], s'))%Z
  /\ (~ (0 < MaxFailedTargets th /\ MaxFailedTargets th <= failed)
      -> ~ (0 < MaxFailurePercentage th /\ MaxFailurePercentage th * size <= failed * 100) ->
     Phase s' <> RollingPhasePaused /\ Phase s' <> RollingPhaseAborted
     /\ (Phase s' = RollingPhaseCompleted <->
         forall t, t ∈ Targets s' -> target_state_terminal (State t) = true))%Z.
Proof.
  intros (i & t & _ & Ht & _ & _ & ->)%TransitionTarget_inv. cbv zeta.
  unfold updatePhase, next_phase, failureThresholdPhase, failed_targets, allTargetsTerminal,
    threshold_enabled. cbn [Config Phase Targets with_phase]. rewrite length_insert.
  set (f := Z.of_nat (count _ _)). set (size := Z.of_nat (length (Targets s))).
  set (th := FailureThreshold (Config s)). split.
  - intros Hlim.
    assert (forall p, p = action_phase (threshold_action th) ->
      bool_decide (p = RollingPhasePaused) || bool_decide (p = RollingPhaseAborted) = true) as Hhalt
      by (intros p ->; by destruct (threshold_action th)).
    match goal with |- context [StartNextWindow (with_phase ?p ?s0)] =>
      assert (p = action_phase (threshold_action th)) as Hp end.
    { bool_cases; to_prop; try done; exfalso;
        repeat match goal with H : (_ && _) = false |- _ => apply andb_false_iff in H end;
        rewrite ?Z.ltb_ge, ?Z.leb_gt in *; lia. }
    split; [done|]. unfold StartNextWindow. cbn [Phase with_phase]. by rewrite (Hhalt _ Hp).
  - intros H1 H2.
    match goal with |- match ?o with _ => _ end <> _ /\ _ => assert (o = None) as -> end.
    { bool_cases; to_prop; try done; exfalso; intuition lia. }
    split_and!; [by bool_cases..|].
    split.
    + intros Hc u Hu. bool_cases; try discriminate.
      rewrite forallb_forall in Heqb. by apply Heqb, list_elem_of_In.
    + intros Hall. rewrite (proj2 (forallb_forall _ _)); [done|].
      intros u Hu. by apply Hall, list_elem_of_In.
Qed.

(** ** A rollout whose targets all succeed completes *)

(** The executor reports every started target as succeeded. *)
Definition report_all (s : RollingState) (started : list RollingTarget) : RollingState :=
  foldl (λ s t,
    match TransitionTarget s (DeploymentPlanTargetID t) RollingTargetSucceeded "" with
    | Ok s' => s' | Err _ => s end) s started.

Fixpoint drive (fuel : nat) (s : RollingState) : RollingState :=
  match fuel with
  | 0 => s
  | S fuel => let '(started, s1) := StartNextWindow s in drive fuel (report_all s1 started)
  end.

Definition report_target (ids : list uuid) (t : RollingTarget) : RollingTarget :=
  if contains ids (DeploymentPlanTargetID t)
  then set_target_state RollingTargetSucceeded "" t else t.

Lemma report_target_hit id t :
  DeploymentPlanTargetID t = id ->
  report_target [id] t = set_target_state RollingTargetSucceeded "" t.
Proof.
  intros <-. unfold report_target, contains. rewrite bool_decide_eq_true_2; [done | by left].
Qed.

Lemma report_target_miss id t : DeploymentPlanTargetID t <> id -> report_target [id] t = t.
Proof.
  intros Hne. unfold report_target, contains.
  by rewrite bool_decide_eq_false_2 by (by rewrite list_elem_of_singleton).
Qed.

Lemma report_target_other id (ts : list RollingTarget) :
  id ∉ DeploymentPlanTargetID <$> ts -> report_target [id] <$> ts = ts.
Proof.
  induction ts as [|u ts IH]; [done|]. rewrite !fmap_cons.
  intros [Hne Hnin]%not_elem_of_cons. by rewrite IH, report_target_miss by congruence.
Qed.

Lemma report_one s id :
  NoDup (DeploymentPlanTargetID <$> Targets s) -> id ∈ DeploymentPlanTargetID <$> Targets s ->
  TransitionTarget s id RollingTargetSucceeded "" = Ok (updatePhase
    {| Config := Config s; Phase := Phase s; CurrentWindow := CurrentWindow s;
       Targets := report_target [id] <$> Targets s |}).
Proof.
  intros Hnd Hid. unfold TransitionTarget, targetIndex. simpl fail_if.
  assert (exists i, find_index (λ t, bool_decide (DeploymentPlanTargetID t = id)) (Targets s) = Some i
    /\ alter (set_target_state RollingTargetSucceeded "") i (Targets s)
       = report_target [id] <$> Targets s) as (i & -> & Ha); [|simpl; by rewrite Ha].
  induction (Targets s) as [|t ts IH]; [by apply elem_of_nil in Hid|].
  rewrite fmap_cons in Hnd, Hid. apply NoDup_cons in Hnd as [Hnin Hnd].
  rewrite fmap_cons. simpl find_index. case_bool_decide as Heq.
  - exists 0. split; [done|]. subst id. by rewrite report_target_hit, report_target_other.
  - apply elem_of_cons in Hid as [->|Hid]; [done|].
    destruct (IH Hnd Hid) as (i & -> & Ha). exists (S i). split; [done|].
    rewrite report_target_miss by done. by rewrite <- Ha.
Qed.

Lemma report_target_id ids t : DeploymentPlanTargetID (report_target ids t) = DeploymentPlanTargetID t.
Proof. unfold report_target. by destruct (contains _ _). Qed.

Lemma report_target_compose id ids t :
  report_target ids (report_target [id] t) = report_target (id :: ids) t.
Proof.
  unfold report_target at 1. rewrite report_target_id.
  unfold report_target, contains.
  destruct (decide (DeploymentPlanTargetID t = id)) as [->|Hne].
  - rewrite !(bool_decide_eq_true_2 (id ∈ _ :: _)) by (by left). by case_bool_decide.
  - rewrite (bool_decide_eq_false_2 (_ ∈ [id])) by (by rewrite list_elem_of_singleton).
    rewrite (bool_decide_ext (_ ∈ id :: ids) (DeploymentPlanTargetID t ∈ ids)); [done|].
    rewrite elem_of_cons. naive_solver.
Qed.

Lemma report_all_spec started s :
  NoDup (DeploymentPlanTargetID <$> Targets s) ->
  (forall t, t ∈ started -> DeploymentPlanTargetID t ∈ DeploymentPlanTargetID <$> Targets s) ->
  let s' := report_all s started in
  Config s' = Config s /\ CurrentWindow s' = CurrentWindow s
  /\ Targets s' = report_target (DeploymentPlanTargetID <$> started) <$> Targets s
  /\ (started <> [] -> Phase s' = next_phase s').
Proof.
  revert s. induction started as [|t started IH]; intros s Hnd Hin.
  - simpl. split_and!; try done. symmetry. apply list_fmap_id.
  - simpl. rewrite report_one by (done || apply Hin; by left).
    set (s1 := updatePhase _).
    assert (DeploymentPlanTargetID <$> Targets s1 = DeploymentPlanTargetID <$> Targets s) as Hids.
    { simpl. rewrite <- list_fmap_compose. apply list_fmap_ext. intros. apply report_target_id. }
    destruct (IH s1) as (H1 & H2 & H3 & H4).
    { by rewrite Hids. }
    { intros u Hu. rewrite Hids. apply Hin. by right. }
    split_and!.
    + by rewrite H1.
    + by rewrite H2.
    + rewrite H3. simpl. rewrite <- list_fmap_compose. apply list_fmap_ext. intros ? u _.
      apply report_target_compose.
    + intros _. destruct started as [|u started]; [done|]. by apply H4.
Qed.

(** What holds between two windows of such a run. *)
Definition settled (t : RollingTarget) : Prop :=
  (State t = RollingTargetPending /\ WindowNumber t = 0%Z) \/ State t = RollingTargetSucceeded.

Record drive_inv (c : RollingConfig) (ids : list uuid) (s : RollingState) : Prop := {
  di_config : Config s = c;
  di_valid : config_validate c = Ok tt;
  di_ids : DeploymentPlanTargetID <$> Targets s = ids;
  di_nodup : NoDup ids;
  di_window : (0 <= CurrentWindow s)%Z;
  di_settled : Forall settled (Targets s);
  di_phase : Phase s = if bool_decide (count is_pending (Targets s) = 0)
                       then RollingPhaseCompleted else RollingPhasePending;
}.

Lemma elem_of_mark_pending_started window n (ts : list RollingTarget) t :
  t ∈ mark_pending window n ts ->
  t ∈ ts \/ t ∈ set_in_progress window <$> take n (List.filter is_pending ts).
Proof.
  revert n. induction ts as [|u ts IH]; intros [|n]; simpl; [naive_solver..|].
  destruct (is_pending u) eqn:E; intros [->|Ht]%elem_of_cons; try apply IH in Ht;
    rewrite ?elem_of_cons; simpl; rewrite ?elem_of_cons; naive_solver.
Qed.

Definition started_of (window : Z) (n : nat) (ts : list RollingTarget) : list RollingTarget :=
  set_in_progress window <$> take n (List.filter is_pending ts).

Lemma settle_window window n (ts : list RollingTarget) :
  Forall settled ts ->
  Forall settled (report_target (DeploymentPlanTargetID <$> started_of window n ts)
    <$> mark_pending window n ts).
Proof.
  unfold started_of. intros Hs. rewrite Forall_forall in Hs. apply Forall_forall.
  intros ? (t & -> & Ht)%list_elem_of_fmap. unfold report_target, contains.
  case_bool_decide as Hin; [by right|].
  apply elem_of_mark_pending_started in Ht as [Ht|Ht]; [by apply Hs|].
  destruct Hin. by apply list_elem_of_fmap_2.
Qed.

Lemma settled_cases t : settled t -> is_pending t = negb (target_state_terminal (State t)).
Proof. intros [[E _]|E]; unfold is_pending; by rewrite E. Qed.

Lemma settled_next_phase s :
  Targets s <> [] -> Forall settled (Targets s) -> (0 < CurrentWindow s)%Z ->
  next_phase s = if bool_decide (count is_pending (Targets s) = 0)
                 then RollingPhaseCompleted else RollingPhasePending.
Proof.
  intros Hne Hs Hw. rewrite Forall_forall in Hs. unfold next_phase.
  assert (failureThresholdPhase s = None) as ->.
  { unfold failureThresholdPhase, failed_targets. rewrite (proj2 (count_zero _ _)).
    - assert (0 < length (Targets s)) by (destruct (Targets s); [done | simpl; lia]).
      bool_cases; to_prop; try done; nia.
    - intros t Ht. by destruct (Hs t Ht) as [[-> _]| ->]. }
  assert (currentWindowTerminal s = true) as ->.
  { unfold currentWindowTerminal. destruct (CurrentWindow s =? 0)%Z; [done|].
    apply forallb_forall. intros t Ht%list_elem_of_In. unfold in_window.
    destruct (Hs t Ht) as [[-> ->]| ->].
    - destruct (Z.eqb_spec 0 (CurrentWindow s)); [lia|done].
    - by rewrite andb_false_r. }
  unfold allTargetsTerminal. case_bool_decide as Hc.
  - rewrite (proj2 (forallb_forall _ _)); [done|]. intros t Ht%list_elem_of_In.
    rewrite count_zero in Hc. apply negb_false_iff. rewrite <- settled_cases by auto. by apply Hc.
  - destruct (forallb _ _) eqn:E; [|done]. destruct Hc. apply count_zero.
    intros t Ht. rewrite forallb_forall in E. rewrite settled_cases by auto.
    by rewrite E by (by apply list_elem_of_In).
Qed.

Lemma count_pending_report ids (ts : list RollingTarget) :
  count is_pending (report_target ids <$> ts) <= count is_pending ts.
Proof.
  induction ts as [|t ts IH]; [done|]. rewrite fmap_cons, !count_cons.
  unfold report_target at 1. destruct (contains _ _); [|lia].
  change (is_pending (set_target_state RollingTargetSucceeded "" t)) with false. simpl. lia.
Qed.

Lemma drive_step c ids s :
  drive_inv c ids s -> count is_pending (Targets s) <> 0 ->
  let '(started, s1) := StartNextWindow s in
  drive_inv c ids (report_all s1 started)
  /\ count is_pending (Targets (report_all s1 started)) < count is_pending (Targets s).
Proof.
  intros [Hc Hv Hids Hnd Hw Hs Hp] Hne. rewrite bool_decide_eq_false_2 in Hp by done.
  rewrite StartNextWindow_eq, Hp. simpl.
  assert (currentWindowTerminal s = true) as ->.
  { unfold currentWindowTerminal. destruct (Z.eqb_spec (CurrentWindow s) 0); [done|].
    apply forallb_forall. intros t Ht%list_elem_of_In. unfold in_window.
    rewrite Forall_forall in Hs. destruct (Hs t Ht) as [[-> ->]| ->].
    - by destruct (Z.eqb_spec 0 (CurrentWindow s)).
    - by rewrite andb_false_r. }
  simpl. rewrite bool_decide_eq_false_2 by done.
  set (n := Z.to_nat _). set (started := set_in_progress _ <$> _). set (s1 := Build_RollingState _ _ _ _).
  assert (0 < n) as Hn.
  { pose proof (effectiveWindowSize_pos c (Targets s) (Phase s) (CurrentWindow s) Hv) as He.
    destruct s; simpl in *; subst. lia. }
  assert (started <> []) as Hst.
  { unfold started. intros H%(f_equal length). rewrite length_fmap, length_take in H.
    unfold count in Hne. simpl in H. lia. }
  destruct (report_all_spec started s1) as (H1 & H2 & H3 & H4).
  { simpl. rewrite mark_pending_ids. congruence. }
  { simpl. intros t Ht. rewrite mark_pending_ids. unfold started in Ht.
    apply list_elem_of_fmap in Ht as (u & -> & Hu). simpl.
    apply elem_of_take in Hu as (i & Hi & _). apply list_elem_of_lookup_2 in Hi.
    apply list_elem_of_fmap_2, list_elem_of_In.
    apply list_elem_of_In, filter_In in Hi. apply Hi. }
  specialize (H4 Hst). set (s2 := report_all s1 started) in *.
  assert (Forall settled (Targets s2)) as Hs2 by (rewrite H3; by apply settle_window).
  assert (Targets s2 <> []) as Hne2.
  { intros E. rewrite E in H3. symmetry in H3. apply fmap_nil_inv in H3. simpl in H3.
    apply (f_equal (fmap DeploymentPlanTargetID)) in H3. rewrite mark_pending_ids in H3.
    apply fmap_nil_inv in H3. by rewrite H3 in Hne. }
  split.
  - constructor; auto.
    + by rewrite H1.
    + rewrite H3, <- list_fmap_compose, <- Hids. simpl.
      etransitivity; [|apply (mark_pending_ids (CurrentWindow s + 1) n (Targets s))].
      apply list_fmap_ext. intros. apply report_target_id.
    + rewrite H2. simpl. lia.
    + rewrite H4. apply settled_next_phase; auto. rewrite H2. simpl. lia.
  - rewrite H3. eapply Nat.le_lt_trans; [apply count_pending_report|]. simpl.
    rewrite mark_pending_pending. lia.
Qed.

Lemma drive_inv_run c ids fuel s :
  drive_inv c ids s -> count is_pending (Targets s) <= fuel ->
  drive_inv c ids (drive fuel s) /\ count is_pending (Targets (drive fuel s)) = 0.
Proof.
  revert s. induction fuel as [|fuel IH]; intros s Hinv Hle; [split; [done|]; simpl; lia|].
  simpl. destruct (decide (count is_pending (Targets s) = 0)) as [E|E].
  - pose proof (di_phase _ _ _ Hinv) as Hp. rewrite bool_decide_eq_true_2 in Hp by done.
    assert (StartNextWindow s = ([], s)) as -> by (by rewrite StartNextWindow_eq, Hp).
    simpl. apply IH; [done | lia].
  - pose proof (drive_step c ids s Hinv E) as H. destruct (StartNextWindow s) as [started s1].
    destruct H as [H1 H2]. apply IH; [done|lia].
Qed.

(** Progress. A rollout that [NewRollingState] accepts, whose executor
    reports every started target as succeeded, is complete after at most one
    window per target: every target has succeeded, and the targets are those
    of the plan. *)
Theorem rolling_completes c ts s :
  NewRollingState c ts = Ok s ->
  let s' := drive (length ts) s in
  Phase s' = RollingPhaseCompleted
  /\ (forall t, t ∈ Targets s' -> State t = RollingTargetSucceeded)
  /\ DeploymentPlanTargetID <$> Targets s' ≡ₚ DeploymentPlanTargetID <$> ts.
Proof.
  intros (Hv & Hne & Hnd & _ & ->)%NewRollingState_ok. cbv zeta.
  set (l := stable_sort _ _).
  assert (length ts = length l) as Hlen by (unfold l; by rewrite length_stable_sort, length_fmap).
  assert (DeploymentPlanTargetID <$> l ≡ₚ DeploymentPlanTargetID <$> ts) as Hids.
  { unfold l. by rewrite (stable_sort_perm rolling_less), <- list_fmap_compose. }
  assert (Forall settled l) as Hl.
  { apply Forall_forall. intros t. unfold l. rewrite elem_of_stable_sort.
    intros (u & -> & _)%list_elem_of_fmap. by left. }
  destruct (drive_inv_run c (DeploymentPlanTargetID <$> l) (length ts)
    {| Config := c; Phase := RollingPhasePending; CurrentWindow := 0; Targets := l |})
    as [[_ _ Hi _ _ Hset Hp] Hz].
  - constructor; simpl; try done; [by rewrite Hids|].
    rewrite bool_decide_eq_false_2; [done|]. destruct l as [|t l'] eqn:E; [by destruct ts|].
    rewrite count_cons. unfold is_pending. rewrite (new_targets_pending ts t); [done|].
    fold l. rewrite E. by left.
  - simpl. rewrite Hlen. apply count_le_length.
  - rewrite Hz in Hp. split_and!; [done| |by rewrite Hi].
    intros t Ht. rewrite count_zero in Hz. specialize (Hz t Ht). unfold is_pending in Hz.
    rewrite Forall_forall in Hset. destruct (Hset t Ht) as [[E _]|E]; [by rewrite E in Hz|done].
Qed.

(** ** A concrete rollout: three targets, windows of two *)

Definition demo_target (n : N) (order : Z) : RollingTarget :=
  {| DeploymentPlanTargetID := uid n; DeploymentTargetID := uid (100 + n); SortOrder := order;
     State := RollingTargetPending; WindowNumber := 0; FailureReason := "" |}.

Definition demo_config : RollingConfig :=
  {| WindowSize := 2; MaximumUnavailable := 0; PauseBetweenWindows := 0;
     FailureThreshold := {| MaxFailedTargets := 1; MaxFailurePercentage := 0; Action := ActionUnset |} |}.

Definition demo_targets : list RollingTarget :=
  [demo_target 3 20; demo_target 1 10; demo_target 2 10].

Definition demo_state : RollingState :=
  ok_or {| Config := demo_config; Phase := RollingPhasePending; CurrentWindow := 0; Targets := [] |}
    (NewRollingState demo_config demo_targets).

Definition demo_started : list RollingTarget * RollingState := StartNextWindow demo_state.

Lemma demo_new : NewRollingState demo_config demo_targets = Ok demo_state.
Proof. vm_compute. reflexivity. Qed.

Lemma demo_run : rtc rolling_step demo_state (snd demo_started).
Proof. eapply rtc_l; [eapply (rolling_start _ (fst demo_started)); vm_compute; reflexivity | apply rtc_refl]. Qed.


Lemma rolling_starts_in_plan_order_witness :
  (DeploymentPlanTargetID <$> fst demo_started = [uid 1; uid 2])
  /\ forall t, t ∈ fst demo_started ->
    forall v, v ∈ Targets (snd demo_started) -> is_pending v = true -> rolling_less v t = false.
Proof.
  split; [vm_compute; reflexivity|]. intros t Ht.
  apply (rolling_starts_in_plan_order demo_config demo_targets demo_state demo_state
    (fst demo_started) (snd demo_started) demo_new (rtc_refl _ _) eq_refl t Ht).
Defined.

Lemma rolling_threshold_halts_witness :
  exists s', TransitionTarget (snd demo_started) (uid 1) RollingTargetFailed "boom" = Ok s'
    /\ Phase s' = RollingPhasePaused /\ StartNextWindow s' = ([], s').
Proof.
  eexists. split; [vm_compute; reflexivity|].
  match goal with |- Phase ?s = _ /\ _ =>
    apply (rolling_threshold_halts (snd demo_started) (uid 1) RollingTargetFailed "boom" s) end.
  - vm_compute. reflexivity.
  - left. vm_compute. split; [reflexivity | discriminate].
Defined.

Lemma rolling_completes_witness :
  Phase (drive 3 demo_state) = RollingPhaseCompleted.
Proof. apply (rolling_completes demo_config demo_targets demo_state demo_new). Defined.
