(* ===== verification/TrafficProvider.v ===== *)
(** * Traffic providers ([internal/traffic/provider/provider.go])

    The requests that a deployment strategy hands to a traffic provider, and
    the registry of provider factories. A factory and the provider it builds
    are calls into code outside the process, so their types are parameters. *)
From S2P Require Import Prelude GoStrings Uuid.

Inductive Operation :=
| OperationPrepare | OperationShift | OperationVerify | OperationRollback | OperationCleanup
| OperationOther (s : string).

#[export] Instance Operation_eq_dec : EqDecision Operation.
Proof. solve_decision. Defined.

Definition operation_string (o : Operation) : string :=
  match o with
  | OperationPrepare => "prepare" | OperationShift => "shift" | OperationVerify => "verify"
  | OperationRollback => "rollback" | OperationCleanup => "cleanup" | OperationOther s => s
  end.

Record ProviderCapability := {
  cap_Type : string;
  cap_Operations : list Operation;
  cap_Metadata : gmap string string;
}.

Definition Supports (c : ProviderCapability) (o : Operation) : bool :=
  contains (cap_Operations c) o.

(** The fields of the Go struct that the deployment strategies set; the others
    keep their zero value. *)
Record RolloutContext := {
  rc_DeploymentPlanID : uuid;
  rc_RolloutID : uuid;
  rc_Strategy : string;
  rc_IdempotencyKey : string;
  rc_ProviderMetadata : gmap string string;
}.

Record Target := {
  tgt_DeploymentPlanTargetID : uuid;
  tgt_DeploymentTargetID : uuid;
  tgt_Name : string;
  tgt_State : string;
  tgt_Metadata : gmap string string;
}.

(** [ShiftRequest] and [RollbackRequest]: the parameters the strategies send
    are strings. *)
Record TrafficRequest := {
  req_RolloutContext : RolloutContext;
  req_Targets : list Target;
  req_Parameters : gmap string string;
}.

(** ** The registry *)

Inductive RegistryError :=
| RegistryNil | FactoryRequired | TypeRequired
| AlreadyRegistered (providerType : string) | UnknownProvider (providerType : string).

#[export] Instance RegistryError_eq_dec : EqDecision RegistryError.
Proof. solve_decision. Defined.

Definition normalizeProviderType (providerType : string) : string :=
  ToLower (TrimSpace providerType).

Section registry.
Context {Config Provider : Type}.

(** A factory may fail with the error of the provider, [RegistryError + E]. *)
Context {E : Type}.
Abbreviation Factory := (Config -> result E Provider).

(** [Registry.factories]; the receiver [*Registry] may be nil. *)
Abbreviation Registry := (gmap string Factory).

Definition NewRegistry : Registry := ∅.

Definition Register (r : option Registry) (providerType : string) (factory : option Factory)
    : result RegistryError Registry :=
  match r, factory with
  | None, _ => Err RegistryNil
  | Some _, None => Err FactoryRequired
  | Some m, Some f =>
      let providerType := normalizeProviderType providerType in
      if bool_decide (providerType = "") then Err TypeRequired
      else match m !! providerType with
      | Some _ => Err (AlreadyRegistered providerType)
      | None => Ok (<[providerType := f]> m)
      end
  end.

(** [config.Type] is passed beside the rest of the configuration. *)
Definition Build (r : option Registry) (providerType : string) (config : Config)
    : result (RegistryError + E) Provider :=
  match r with
  | None => Err (inl RegistryNil)
  | Some m =>
      match m !! normalizeProviderType providerType with
      | None => Err (inl (UnknownProvider providerType))
      | Some f => match f config with Ok p => Ok p | Err e => Err (inr e) end
      end
  end.

Lemma Register_inv r t f m' :
  Register r t f = Ok m' ->
  exists m g, r = Some m /\ f = Some g /\ normalizeProviderType t <> ""
    /\ m !! normalizeProviderType t = None /\ m' = <[normalizeProviderType t := g]> m.
Proof.
  unfold Register. destruct r as [m|], f as [g|]; try done.
  case_bool_decide; [done|]. destruct (m !! _) eqn:E1; [done|]. intros [= <-]. naive_solver.
Qed.

(** A registration is visible under every spelling of the provider type
    that differs only in case and surrounding blanks, leaves the answers for
    every other type unchanged, and is final: registering the same type
    again fails. *)
Theorem registry_register_build (r : option Registry) t f m' :
  Register r t f = Ok m' ->
  (forall u config, normalizeProviderType u = normalizeProviderType t ->
     exists g, f = Some g /\
       Build (Some m') u config = match g config with Ok p => Ok p | Err e => Err (inr e) end)
  /\ (forall u config, normalizeProviderType u <> normalizeProviderType t ->
     Build (Some m') u config = Build r u config)
  /\ (forall u g, normalizeProviderType u = normalizeProviderType t ->
     Register (Some m') u (Some g) = Err (AlreadyRegistered (normalizeProviderType t))).
Proof.
  intros (m & g & -> & -> & Hne & Hnone & ->)%Register_inv. split_and!.
  - intros u config Hu. exists g. split; [done|]. unfold Build. by rewrite Hu, lookup_insert_eq.
  - intros u config Hu. unfold Build. by rewrite lookup_insert_ne by congruence.
  - intros u g' Hu. unfold Register. rewrite Hu, bool_decide_eq_false_2 by done.
    by rewrite lookup_insert_eq.
Qed.
End registry.

Lemma registry_register_build_witness :
  exists m : gmap string (unit -> result unit nat),
    Register (Some NewRegistry) " Webhook " (Some (fun _ => Ok 7)) = Ok m
    /\ Build (Some m) "WEBHOOK" tt = Ok 7
    /\ Register (Some m) "webhook" (Some (fun _ => Ok 8)) = Err (AlreadyRegistered "webhook").
Proof.
  exists (<[ "webhook" := fun _ => Ok 7 ]> NewRegistry).
  assert (Register (Some (NewRegistry (Config := unit) (Provider := nat) (E := unit))) " Webhook "
    (Some (fun _ => Ok 7)) = Ok (<[ "webhook" := fun _ => Ok 7 ]> NewRegistry)) as H by reflexivity.
  destruct (registry_register_build _ _ _ _ H) as (H1 & _ & H3).
  split; [exact H|]. split.
  - destruct (H1 "WEBHOOK" tt eq_refl) as (g & Hg & Hb). injection Hg as <-. exact Hb.
  - exact (H3 "webhook" (fun _ => Ok 8) eq_refl).
Defined.
