(* ===== verification/BlueGreen.v ===== *)
(** * Blue-green deployments ([internal/deployments/bluegreen/bluegreen.go])

    The life cycle of one blue-green deployment: the inactive slot is
    deployed, verified by health checks, receives the traffic, is observed and
    promoted, or the previous slot is restored. [Lifecycle] is the Go struct;
    a method that mutates the receiver returns the new state. *)
From S2P Require Import Prelude GoStrings Uuid TrafficProvider.

(** ** Data *)

(** [SlotStateUnset] is the empty string, the zero value of the Go type. *)
Inductive SlotState :=
| SlotStateUnset
| SlotStateActive | SlotStateInactive | SlotStateDeploying | SlotStateReady | SlotStateShifting
| SlotStateRetained | SlotStateScaledDown | SlotStateDestroyed | SlotStateRolledBack.

Inductive Phase :=
| PhaseCreate | PhaseDeploy | PhaseVerify | PhaseShift | PhaseObserve | PhasePromote
| PhaseCleanup | PhaseRollback | PhaseCompleted.

Inductive RetentionPolicy :=
| RetentionPolicyKeep | RetentionPolicyScaleDown | RetentionPolicyDestroy
| RetentionPolicyOther (s : string).

Inductive HealthStatus :=
| HealthStatusPending | HealthStatusPassed | HealthStatusFailed
| HealthStatusOther (s : string).

#[export] Instance SlotState_eq_dec : EqDecision SlotState.
Proof. solve_decision. Defined.
#[export] Instance Phase_eq_dec : EqDecision Phase.
Proof. solve_decision. Defined.
#[export] Instance RetentionPolicy_eq_dec : EqDecision RetentionPolicy.
Proof. solve_decision. Defined.
#[export] Instance HealthStatus_eq_dec : EqDecision HealthStatus.
Proof. solve_decision. Defined.

Definition slot_state_string (s : SlotState) : string :=
  match s with
  | SlotStateUnset => "" | SlotStateActive => "ACTIVE" | SlotStateInactive => "INACTIVE"
  | SlotStateDeploying => "DEPLOYING" | SlotStateReady => "READY" | SlotStateShifting => "SHIFTING"
  | SlotStateRetained => "RETAINED" | SlotStateScaledDown => "SCALED_DOWN"
  | SlotStateDestroyed => "DESTROYED" | SlotStateRolledBack => "ROLLED_BACK"
  end.

Definition policy_valid (p : RetentionPolicy) : bool :=
  bool_decide (p = RetentionPolicyKeep) || bool_decide (p = RetentionPolicyScaleDown)
  || bool_decide (p = RetentionPolicyDestroy).

Definition health_status_valid (s : HealthStatus) : bool :=
  bool_decide (s = HealthStatusPending) || bool_decide (s = HealthStatusPassed)
  || bool_decide (s = HealthStatusFailed).

Record Slot := {
  Name : string;
  State : SlotState;
  DeploymentPlanTargetID : uuid;
  DeploymentTargetID : uuid;
  DeploymentRevisionID : uuid;
  ApplicationVersionID : uuid;
  ProviderTargetID : string;
  Metadata : gmap string string;
}.

(** [Slot{}] *)
Definition empty_slot : Slot :=
  {| Name := ""; State := SlotStateUnset; DeploymentPlanTargetID := Nil; DeploymentTargetID := Nil;
     DeploymentRevisionID := Nil; ApplicationVersionID := Nil; ProviderTargetID := "";
     Metadata := ∅ |}.

(** [CheckedAt] is the instant in nanoseconds. *)
Record HealthCheck := {
  check_Name : string;
  Status : HealthStatus;
  Message : string;
  CheckedAt : Z;
}.

Record Config := {
  cfg_RolloutID : uuid;
  cfg_DeploymentPlanID : uuid;
  cfg_Strategy : string;
  cfg_ActiveSlot : Slot;
  cfg_InactiveSlot : Slot;
  cfg_RetentionPolicy : RetentionPolicy;
}.

Record Lifecycle := {
  RolloutID : uuid;
  DeploymentPlanID : uuid;
  Strategy : string;
  lc_Phase : Phase;
  ActiveSlot : Slot;
  InactiveSlot : Slot;
  PreviousActiveSlot : Slot;
  lc_RetentionPolicy : RetentionPolicy;
  HealthChecks : list HealthCheck;
  Observations : list HealthCheck;
  RollbackReason : string;
}.

Inductive BlueGreenError :=
| RolloutIDRequired | ActiveSlotInvalid (e : BlueGreenError) | InactiveSlotInvalid (e : BlueGreenError)
| SlotsNotDifferent | PolicyInvalid | SlotNameRequired | SlotTargetRequired
| DeployOnlyFromCreate | DeployedOnlyFromDeploy | ChecksOnlyDuringVerify | CheckNameRequired
| CheckStatusInvalid | ChecksNotPassing | ShiftedOnlyFromShift | ObservationsOnlyDuringObserve
| PromoteOnlyFromObserve | ObservationsNotPassing | RollbackOnlyFromShiftOrObserve.

(** ** Assignments to the fields of the receiver *)

Definition set_slot_state (st : SlotState) (s : Slot) : Slot :=
  {| Name := Name s; State := st; DeploymentPlanTargetID := DeploymentPlanTargetID s;
     DeploymentTargetID := DeploymentTargetID s; DeploymentRevisionID := DeploymentRevisionID s;
     ApplicationVersionID := ApplicationVersionID s; ProviderTargetID := ProviderTargetID s;
     Metadata := Metadata s |}.

Definition set_slots (p : Phase) (active inactive previous : Slot) (l : Lifecycle) : Lifecycle :=
  {| RolloutID := RolloutID l; DeploymentPlanID := DeploymentPlanID l; Strategy := Strategy l;
     lc_Phase := p; ActiveSlot := active; InactiveSlot := inactive; PreviousActiveSlot := previous;
     lc_RetentionPolicy := lc_RetentionPolicy l; HealthChecks := HealthChecks l;
     Observations := Observations l; RollbackReason := RollbackReason l |}.

Definition set_checks (checks observations : list HealthCheck) (l : Lifecycle) : Lifecycle :=
  {| RolloutID := RolloutID l; DeploymentPlanID := DeploymentPlanID l; Strategy := Strategy l;
     lc_Phase := lc_Phase l; ActiveSlot := ActiveSlot l; InactiveSlot := InactiveSlot l;
     PreviousActiveSlot := PreviousActiveSlot l; lc_RetentionPolicy := lc_RetentionPolicy l;
     HealthChecks := checks; Observations := observations; RollbackReason := RollbackReason l |}.

Definition set_reason (reason : string) (l : Lifecycle) : Lifecycle :=
  {| RolloutID := RolloutID l; DeploymentPlanID := DeploymentPlanID l; Strategy := Strategy l;
     lc_Phase := lc_Phase l; ActiveSlot := ActiveSlot l; InactiveSlot := InactiveSlot l;
     PreviousActiveSlot := PreviousActiveSlot l; lc_RetentionPolicy := lc_RetentionPolicy l;
     HealthChecks := HealthChecks l; Observations := Observations l; RollbackReason := reason |}.

(** ** Normalisation *)

Definition normalizeSlot (slot : Slot) : result BlueGreenError Slot :=
  let name := TrimSpace (Name slot) in
  fail_if (bool_decide (name = "")) SlotNameRequired ≫= λ _,
  fail_if (is_nil (DeploymentTargetID slot)) SlotTargetRequired ≫= λ _,
  Ok {| Name := name; State := State slot; DeploymentPlanTargetID := DeploymentPlanTargetID slot;
        DeploymentTargetID := DeploymentTargetID slot;
        DeploymentRevisionID := DeploymentRevisionID slot;
        ApplicationVersionID := ApplicationVersionID slot;
        ProviderTargetID :=
          if bool_decide (ProviderTargetID slot = "") then name else ProviderTargetID slot;
        Metadata := Metadata slot |}.

Definition normalizeHealthCheck (check : HealthCheck) : result BlueGreenError HealthCheck :=
  let name := TrimSpace (check_Name check) in
  fail_if (bool_decide (name = "")) CheckNameRequired ≫= λ _,
  fail_if (negb (health_status_valid (Status check))) CheckStatusInvalid ≫= λ _,
  Ok {| check_Name := name; Status := Status check; Message := Message check;
        CheckedAt := CheckedAt check |}.

(** Replace the first check of that name, or append. *)
Fixpoint upsertHealthCheck (checks : list HealthCheck) (check : HealthCheck) : list HealthCheck :=
  match checks with
  | [] => [check]
  | existing :: rest =>
      if EqualFold (check_Name existing) (check_Name check) then check :: rest
      else existing :: upsertHealthCheck rest check
  end.

Definition allChecksPassed (checks : list HealthCheck) : bool :=
  if bool_decide (length checks = 0) then false
  else forallb (λ c, bool_decide (Status c = HealthStatusPassed)) checks.

Definition NewLifecycle (config : Config) : result BlueGreenError Lifecycle :=
  fail_if (is_nil (cfg_RolloutID config)) RolloutIDRequired ≫= λ _,
  match normalizeSlot (cfg_ActiveSlot config) with
  | Err e => Err (ActiveSlotInvalid e)
  | Ok activeSlot =>
      match normalizeSlot (cfg_InactiveSlot config) with
      | Err e => Err (InactiveSlotInvalid e)
      | Ok inactiveSlot =>
          fail_if (EqualFold (Name activeSlot) (Name inactiveSlot)) SlotsNotDifferent ≫= λ _,
          fail_if (negb (policy_valid (cfg_RetentionPolicy config))) PolicyInvalid ≫= λ _,
          let strategy := TrimSpace (cfg_Strategy config) in
          Ok {| RolloutID := cfg_RolloutID config;
                DeploymentPlanID := cfg_DeploymentPlanID config;
                Strategy := if bool_decide (strategy = "") then "blue-green" else strategy;
                lc_Phase := PhaseCreate;
                ActiveSlot := set_slot_state SlotStateActive activeSlot;
                InactiveSlot := set_slot_state SlotStateInactive inactiveSlot;
                PreviousActiveSlot := empty_slot;
                lc_RetentionPolicy := cfg_RetentionPolicy config;
                HealthChecks := []; Observations := []; RollbackReason := "" |}
      end
  end.

(** ** Requests to the traffic provider *)

Definition retainedSlotState (l : Lifecycle) : SlotState :=
  match lc_RetentionPolicy l with
  | RetentionPolicyScaleDown => SlotStateScaledDown
  | RetentionPolicyDestroy => SlotStateDestroyed
  | _ => SlotStateRetained
  end.

Definition rolloutContext (l : Lifecycle) (prefix : string) : RolloutContext :=
  {| rc_DeploymentPlanID := DeploymentPlanID l; rc_RolloutID := RolloutID l;
     rc_Strategy := Strategy l;
     rc_IdempotencyKey := prefix +:+ uuid_string (RolloutID l);
     rc_ProviderMetadata :=
       <["activeSlot" := Name (ActiveSlot l)]> (<["inactiveSlot" := Name (InactiveSlot l)]> ∅) |}.

Definition slotProviderTarget (slot : Slot) : Target :=
  {| tgt_DeploymentPlanTargetID := DeploymentPlanTargetID slot;
     tgt_DeploymentTargetID := DeploymentTargetID slot;
     tgt_Name := Name slot; tgt_State := slot_state_string (State slot);
     tgt_Metadata :=
       <["providerTargetId" := ProviderTargetID slot]> (<["slot" := Name slot]> ∅) |}.

Definition providerTargets (l : Lifecycle) : list Target :=
  [slotProviderTarget (ActiveSlot l); slotProviderTarget (InactiveSlot l)].

(** ** The operations *)

Definition StartDeployInactive (l : Lifecycle) : result BlueGreenError Lifecycle :=
  fail_if (negb (bool_decide (lc_Phase l = PhaseCreate))) DeployOnlyFromCreate ≫= λ _,
  Ok (set_slots PhaseDeploy (ActiveSlot l) (set_slot_state SlotStateDeploying (InactiveSlot l))
        (PreviousActiveSlot l) l).

Definition MarkInactiveDeployed (l : Lifecycle) : result BlueGreenError Lifecycle :=
  fail_if (negb (bool_decide (lc_Phase l = PhaseDeploy))) DeployedOnlyFromDeploy ≫= λ _,
  Ok (set_slots PhaseVerify (ActiveSlot l) (set_slot_state SlotStateReady (InactiveSlot l))
        (PreviousActiveSlot l) l).

Definition RecordHealthCheck (l : Lifecycle) (check : HealthCheck) : result BlueGreenError Lifecycle :=
  fail_if (negb (bool_decide (lc_Phase l = PhaseVerify))) ChecksOnlyDuringVerify ≫= λ _,
  normalizeHealthCheck check ≫= λ normalized,
  Ok (set_checks (upsertHealthCheck (HealthChecks l) normalized) (Observations l) l).

Definition ReadyForTrafficShift (l : Lifecycle) : bool := allChecksPassed (HealthChecks l).

(** The phase is not tested. *)
Definition PlanTrafficShift (l : Lifecycle) : result BlueGreenError (TrafficRequest * Lifecycle) :=
  fail_if (negb (ReadyForTrafficShift l)) ChecksNotPassing ≫= λ _,
  let l' := set_slots PhaseShift (ActiveSlot l) (set_slot_state SlotStateShifting (InactiveSlot l))
              (ActiveSlot l) l in
  Ok ({| req_RolloutContext := rolloutContext l' "blue-green-shift-";
         req_Targets := providerTargets l';
         req_Parameters :=
           <["operation" := operation_string OperationShift]>
             (<["activeSlot" := Name (ActiveSlot l')]>
               (<["inactiveSlot" := Name (InactiveSlot l')]> ∅)) |}, l').

Definition MarkTrafficShifted (l : Lifecycle) : result BlueGreenError Lifecycle :=
  fail_if (negb (bool_decide (lc_Phase l = PhaseShift))) ShiftedOnlyFromShift ≫= λ _,
  Ok (set_slots PhaseObserve (ActiveSlot l) (InactiveSlot l) (PreviousActiveSlot l) l).

Definition RecordObservation (l : Lifecycle) (check : HealthCheck) : result BlueGreenError Lifecycle :=
  fail_if (negb (bool_decide (lc_Phase l = PhaseObserve))) ObservationsOnlyDuringObserve ≫= λ _,
  normalizeHealthCheck check ≫= λ normalized,
  Ok (set_checks (HealthChecks l) (upsertHealthCheck (Observations l) normalized) l).

Definition Promote (l : Lifecycle) : result BlueGreenError Lifecycle :=
  fail_if (negb (bool_decide (lc_Phase l = PhaseObserve))) PromoteOnlyFromObserve ≫= λ _,
  fail_if (negb (allChecksPassed (Observations l))) ObservationsNotPassing ≫= λ _,
  let previousActive := set_slot_state (retainedSlotState l) (ActiveSlot l) in
  Ok (set_slots PhaseCompleted (set_slot_state SlotStateActive (InactiveSlot l)) empty_slot
        previousActive l).

Definition PlanRollback (l : Lifecycle) (reason : string)
    : result BlueGreenError (TrafficRequest * Lifecycle) :=
  fail_if (negb (bool_decide (lc_Phase l = PhaseShift)) && negb (bool_decide (lc_Phase l = PhaseObserve)))
    RollbackOnlyFromShiftOrObserve ≫= λ _,
  let reason := TrimSpace reason in
  let reason := if bool_decide (reason = "") then "rollback requested" else reason in
  let active := if bool_decide (Name (PreviousActiveSlot l) = "") then ActiveSlot l
                else PreviousActiveSlot l in
  let l' := set_reason reason
    (set_slots PhaseRollback (set_slot_state SlotStateActive active)
       (set_slot_state SlotStateRolledBack (InactiveSlot l)) (PreviousActiveSlot l) l) in
  Ok ({| req_RolloutContext := rolloutContext l' "blue-green-rollback-";
         req_Targets := providerTargets l';
         req_Parameters :=
           <["operation" := operation_string OperationRollback]>
             (<["activeSlot" := Name (ActiveSlot l')]>
               (<["inactiveSlot" := Name (InactiveSlot l')]>
                 (<["reason" := reason]> ∅))) |}, l').

(** ** Runs of the life cycle *)

(** [promote = false] leaves out [Promote]. *)
Inductive bg_step (promote : bool) (l : Lifecycle) : Lifecycle -> Prop :=
| step_deploy l' : StartDeployInactive l = Ok l' -> bg_step promote l l'
| step_deployed l' : MarkInactiveDeployed l = Ok l' -> bg_step promote l l'
| step_check c l' : RecordHealthCheck l c = Ok l' -> bg_step promote l l'
| step_shift r l' : PlanTrafficShift l = Ok (r, l') -> bg_step promote l l'
| step_shifted l' : MarkTrafficShifted l = Ok l' -> bg_step promote l l'
| step_observe c l' : RecordObservation l c = Ok l' -> bg_step promote l l'
| step_promote l' : promote = true -> Promote l = Ok l' -> bg_step promote l l'
| step_rollback reason r l' : PlanRollback l reason = Ok (r, l') -> bg_step promote l l'.

(** The successful branch of every operation. *)
Ltac bg_invert H :=
  unfold StartDeployInactive, MarkInactiveDeployed, RecordHealthCheck, PlanTrafficShift,
    MarkTrafficShifted, RecordObservation, Promote, PlanRollback, ReadyForTrafficShift in H;
  rewrite ?fail_if_bind, ?if_err_ok in H; repeat match goal with Hand : _ /\ _ |- _ => destruct Hand end; inv_result; to_prop.

(** What the checks say about the phase. *)
Record gated (l : Lifecycle) : Prop := {
  g_early : lc_Phase l = PhaseCreate \/ lc_Phase l = PhaseDeploy -> HealthChecks l = [];
  g_health : lc_Phase l = PhaseShift \/ lc_Phase l = PhaseObserve \/ lc_Phase l = PhaseCompleted
             \/ lc_Phase l = PhaseRollback -> allChecksPassed (HealthChecks l) = true;
  g_observed : lc_Phase l = PhaseCompleted -> allChecksPassed (Observations l) = true;
}.

Lemma NewLifecycle_ok c l :
  NewLifecycle c = Ok l ->
  exists a i, normalizeSlot (cfg_ActiveSlot c) = Ok a /\ normalizeSlot (cfg_InactiveSlot c) = Ok i
    /\ ToLower (Name a) <> ToLower (Name i)
    /\ lc_Phase l = PhaseCreate /\ HealthChecks l = []
    /\ ActiveSlot l = set_slot_state SlotStateActive a
    /\ InactiveSlot l = set_slot_state SlotStateInactive i
    /\ PreviousActiveSlot l = empty_slot
    /\ lc_RetentionPolicy l = cfg_RetentionPolicy c.
Proof.
  unfold NewLifecycle. rewrite fail_if_bind, if_err_ok. intros [_ H].
  destruct (normalizeSlot (cfg_ActiveSlot c)) as [a|]; [|done].
  destruct (normalizeSlot (cfg_InactiveSlot c)) as [i|]; [|done].
  rewrite !fail_if_bind, !if_err_ok in H. destruct H as (Hne & _ & [= <-]).
  unfold EqualFold in Hne. to_prop. exists a, i. done.
Qed.

Lemma normalizeSlot_name s s' : normalizeSlot s = Ok s' -> Name s' <> "".
Proof. unfold normalizeSlot. rewrite !fail_if_bind, !if_err_ok. intros (H & _ & [= <-]). by to_prop. Qed.

Lemma shift_or_observe l :
  negb (bool_decide (lc_Phase l = PhaseShift)) && negb (bool_decide (lc_Phase l = PhaseObserve)) = false ->
  lc_Phase l = PhaseShift \/ lc_Phase l = PhaseObserve.
Proof. intros H. apply andb_false_iff in H as [H|H]; to_prop; auto. Qed.

Lemma gated_step promote l l' : gated l -> bg_step promote l l' -> gated l'.
Proof.
  intros [He Hh Ho] Hs. destruct Hs as [? H|? H|? ? H|? ? H|? H|? ? H|? ? H|? ? ? H]; bg_invert H;
    try apply shift_or_observe in H;
    constructor; simpl; intros; auto; try (intuition congruence).
Qed.


(** ** Which slot serves traffic *)

Definition any_state : Slot -> Slot := set_slot_state SlotStateUnset.

(** Until the promotion the active slot is the configured one, and the inactive
    slot changes its state only. *)
Record slots_of (l0 l : Lifecycle) : Prop := {
  so_active : ActiveSlot l = ActiveSlot l0;
  so_inactive : any_state (InactiveSlot l) = any_state (InactiveSlot l0);
  so_previous : PreviousActiveSlot l = empty_slot \/ PreviousActiveSlot l = ActiveSlot l0;
  so_policy : lc_RetentionPolicy l = lc_RetentionPolicy l0;
}.

Lemma set_any_state st s s' : any_state s = any_state s' -> set_slot_state st s = set_slot_state st s'.
Proof. destruct s, s'. unfold any_state, set_slot_state. simpl. congruence. Qed.

Lemma slots_of_step l0 l l' :
  State (ActiveSlot l0) = SlotStateActive -> slots_of l0 l -> bg_step false l l' -> slots_of l0 l'.
Proof.
  intros Hact [Ha Hi Hp Hr] Hs.
  assert (set_slot_state SlotStateActive (ActiveSlot l0) = ActiveSlot l0) as Hid
    by (destruct (ActiveSlot l0); simpl in *; by subst).
  destruct Hs as [? H|? H|? ? H|? ? H|? H|? ? H|? ? H|? ? ? H]; bg_invert H; try done;
    constructor; simpl; auto; try (by rewrite Hi).
  clear H. case_bool_decide; [by rewrite Ha|]. by destruct Hp as [E|E]; rewrite E in *.
Qed.

Lemma slots_of_run c l0 l :
  NewLifecycle c = Ok l0 -> rtc (bg_step false) l0 l ->
  slots_of l0 l /\ State (ActiveSlot l0) = SlotStateActive.
Proof.
  intros (a & i & _ & _ & _ & _ & _ & Ha & _ & Hp & _)%NewLifecycle_ok Hrun.
  assert (State (ActiveSlot l0) = SlotStateActive) as Hact by (by rewrite Ha).
  split; [|done].
  assert (forall x y, rtc (bg_step false) x y -> slots_of l0 x -> slots_of l0 y) as Hind
    by (induction 1; eauto using slots_of_step).
  apply (Hind _ _ Hrun). constructor; auto.
Qed.

(** The switch is all or nothing. While the traffic of a deployment created
    by [NewLifecycle] is being shifted or observed, a rollback is always
    possible and restores the configured active slot unchanged, marks the
    other slot as rolled back and tells the provider so; a promotion succeeds
    exactly when the deployment is observed with passing observations, and
    makes the configured inactive slot, a different one, the active slot and
    retains the old one as the policy says. *)
Theorem bg_switch_or_restore c l0 l :
  NewLifecycle c = Ok l0 -> rtc (bg_step false) l0 l ->
  (lc_Phase l = PhaseShift \/ lc_Phase l = PhaseObserve ->
   forall reason, exists r l', PlanRollback l reason = Ok (r, l')
     /\ ActiveSlot l' = ActiveSlot l0
     /\ InactiveSlot l' = set_slot_state SlotStateRolledBack (InactiveSlot l0)
     /\ req_Targets r = [slotProviderTarget (ActiveSlot l0);
          slotProviderTarget (set_slot_state SlotStateRolledBack (InactiveSlot l0))]
     /\ RollbackReason l' <> "")
  /\ (is_ok (Promote l) = true <->
      lc_Phase l = PhaseObserve /\ allChecksPassed (Observations l) = true)
  /\ forall l', Promote l = Ok l' ->
       lc_Phase l' = PhaseCompleted
       /\ ActiveSlot l' = set_slot_state SlotStateActive (InactiveSlot l0)
       /\ ToLower (Name (ActiveSlot l')) <> ToLower (Name (ActiveSlot l0))
       /\ PreviousActiveSlot l' = set_slot_state (retainedSlotState l0) (ActiveSlot l0)
       /\ InactiveSlot l' = empty_slot.
Proof.
  intros Hnew Hrun. destruct (slots_of_run _ _ _ Hnew Hrun) as [[Ha Hi Hp Hr] Hact].
  apply NewLifecycle_ok in Hnew as (a & i & Hna & _ & Hne & _ & _ & Ha0 & Hi0 & _).
  assert (set_slot_state SlotStateActive (ActiveSlot l0) = ActiveSlot l0) as Hid
    by (destruct (ActiveSlot l0); simpl in *; by subst).
  split_and!.
  - intros Hphase reason. unfold PlanRollback.
    rewrite fail_if_bind. destruct (negb _ && negb _) eqn:E.
    { exfalso. to_prop. intuition. }
    eexists _, _. split; [reflexivity|]. simpl.
    assert (set_slot_state SlotStateActive
      (if bool_decide (Name (PreviousActiveSlot l) = "") then ActiveSlot l else PreviousActiveSlot l)
      = ActiveSlot l0) as Hs.
    { clear E. case_bool_decide; [by rewrite Ha|]. by destruct Hp as [E|E]; rewrite E in *. }
    unfold providerTargets. simpl. rewrite Hs, (set_any_state _ _ _ Hi). split_and!; try done.
    by destruct (bool_decide_reflect (TrimSpace reason = "")) as [?|?].
  - unfold Promote. rewrite !fail_if_bind. bool_cases; to_prop; simpl; intuition congruence.
  - intros l' H. bg_invert H. simpl. rewrite Ha, (set_any_state _ _ _ Hi).
    split_and!; try done.
    + assert (Name (InactiveSlot l) = Name (InactiveSlot l0)) as ->
        by exact (f_equal Name Hi).
      rewrite Ha0, Hi0. simpl. congruence.
    + unfold retainedSlotState. by rewrite Hr.
Qed.

(** ** A concrete deployment *)

Definition demo_slot (name : string) (n : N) : Slot :=
  {| Name := name; State := SlotStateUnset; DeploymentPlanTargetID := Nil;
     DeploymentTargetID := uid n; DeploymentRevisionID := Nil; ApplicationVersionID := Nil;
     ProviderTargetID := ""; Metadata := ∅ |}.

Definition demo_config : Config :=
  {| cfg_RolloutID := uid 1; cfg_DeploymentPlanID := uid 2; cfg_Strategy := " ";
     cfg_ActiveSlot := demo_slot "blue" 3; cfg_InactiveSlot := demo_slot "green" 4;
     cfg_RetentionPolicy := RetentionPolicyKeep |}.

Definition demo_check : HealthCheck :=
  {| check_Name := "http"; Status := HealthStatusPassed; Message := ""; CheckedAt := 0 |}.

(** The states of the successful run up to the observation, and after the promotion. *)
Definition observed_run (config : Config) (check : HealthCheck) : result BlueGreenError (Lifecycle * Lifecycle) :=
  NewLifecycle config ≫= λ l0,
  StartDeployInactive l0 ≫= λ l1, MarkInactiveDeployed l1 ≫= λ l2,
  RecordHealthCheck l2 check ≫= λ l3, PlanTrafficShift l3 ≫= λ '(_, l4),
  MarkTrafficShifted l4 ≫= λ l5, RecordObservation l5 check ≫= λ l6, Ok (l0, l6).

Lemma run_steps promote k0 k1 k2 k3 k4 k5 k6 check r :
  StartDeployInactive k0 = Ok k1 -> MarkInactiveDeployed k1 = Ok k2 -> RecordHealthCheck k2 check = Ok k3 ->
  PlanTrafficShift k3 = Ok (r, k4) -> MarkTrafficShifted k4 = Ok k5 -> RecordObservation k5 check = Ok k6 ->
  rtc (bg_step promote) k0 k6.
Proof.
  intros. eapply rtc_l; [by eapply step_deploy|]. eapply rtc_l; [by eapply step_deployed|].
  eapply rtc_l; [by eapply step_check|]. eapply rtc_l; [by eapply step_shift|].
  eapply rtc_l; [by eapply step_shifted|]. eapply rtc_l; [by eapply step_observe|]. apply rtc_refl.
Qed.

Lemma observed_run_steps promote config check l0 l6 :
  observed_run config check = Ok (l0, l6) -> NewLifecycle config = Ok l0 /\ rtc (bg_step promote) l0 l6.
Proof.
  unfold observed_run. intros E.
  apply result_bind_ok in E as (k0 & E0 & E). apply result_bind_ok in E as (k1 & E1 & E).
  apply result_bind_ok in E as (k2 & E2 & E). apply result_bind_ok in E as (k3 & E3 & E).
  apply result_bind_ok in E as ([r k4] & E4 & E). apply result_bind_ok in E as (k5 & E5 & E).
  apply result_bind_ok in E as (k6 & E6 & E). injection E as <- <-.
  exact (conj E0 (run_steps promote _ _ _ _ _ _ _ _ _ E1 E2 E3 E4 E5 E6)).
Qed.

#[local] Abbreviation demo_observed := (observed_run demo_config demo_check).

Lemma demo_observed_ok promote :
  exists l0 l6, demo_observed = Ok (l0, l6) /\ NewLifecycle demo_config = Ok l0
    /\ rtc (bg_step promote) l0 l6.
Proof.
  destruct (ok_value demo_observed) as [[l0 l6] E]; [by vm_compute|].
  exists l0, l6. exact (conj E (observed_run_steps promote _ _ _ _ E)).
Qed.


Lemma bg_switch_or_restore_witness :
  exists l', lc_Phase l' = PhaseCompleted /\ Name (ActiveSlot l') = "green"
    /\ State (PreviousActiveSlot l') = SlotStateRetained.
Proof.
  destruct (demo_observed_ok false) as (l0 & l6 & E & Hnew & Hrun).
  destruct (bg_switch_or_restore demo_config l0 l6 Hnew Hrun) as (_ & _ & H).
  destruct (Promote l6) as [l'|] eqn:Ep.
  - exists l'. destruct (H l' eq_refl) as (H1 & H2 & _ & H3 & _). split; [exact H1|].
    rewrite H2, H3. vm_compute in E. injection E as <- _. split; reflexivity.
  - exfalso. vm_compute in E. injection E as _ <-. vm_compute in Ep. discriminate Ep.
Defined.

(** A completed deployment can be shifted again. [PlanTrafficShift] tests
    the health checks but not the phase, so in every state that a deployment
    reaches after its promotion it succeeds, with an inactive slot that has no
    name and no deployment target; the old observations then let a second
    promotion make that empty slot the active one. *)
Theorem bg_completed_shift_replaces_active c l0 l :
  NewLifecycle c = Ok l0 -> rtc (bg_step false) l0 l -> lc_Phase l = PhaseObserve ->
  allChecksPassed (Observations l) = true ->
  exists l1 r l2 l3 l4, Promote l = Ok l1 /\ PlanTrafficShift l1 = Ok (r, l2)
    /\ MarkTrafficShifted l2 = Ok l3 /\ Promote l3 = Ok l4
    /\ lc_Phase l4 = PhaseCompleted /\ Name (ActiveSlot l4) = "" /\ is_nil (DeploymentTargetID (ActiveSlot l4)) = true.
Proof.
  intros Hnew Hrun Hp Ho. assert (gated l) as [_ Hh _].
  { apply NewLifecycle_ok in Hnew as (a & i & _ & _ & _ & Hc & He & _).
    assert (gated l0) as Hg by (split; rewrite ?Hc; [done | intuition congruence..]).
    clear - Hg Hrun. induction Hrun; eauto using gated_step. }
  assert (Promote l = Ok (set_slots PhaseCompleted (set_slot_state SlotStateActive (InactiveSlot l))
    empty_slot (set_slot_state (retainedSlotState l) (ActiveSlot l)) l)) as E.
  { unfold Promote. by rewrite Hp, Ho. }
  rewrite E. eexists _, _, _, _, _. split; [reflexivity|].
  unfold PlanTrafficShift, ReadyForTrafficShift. simpl. rewrite Hh by auto. split; [reflexivity|].
  split; [reflexivity|]. unfold Promote. simpl. rewrite Ho. split; [reflexivity|]. done.
Qed.

Lemma bg_completed_shift_replaces_active_witness :
  exists l4, lc_Phase l4 = PhaseCompleted /\ Name (ActiveSlot l4) = "".
Proof.
  destruct (demo_observed_ok false) as (l0 & l6 & E & Hnew & Hrun).
  destruct (bg_completed_shift_replaces_active demo_config l0 l6 Hnew Hrun)
    as (_ & _ & _ & _ & l4 & _ & _ & _ & _ & H1 & H2 & _).
  - vm_compute in E. injection E as _ <-. reflexivity.
  - vm_compute in E. injection E as _ <-. reflexivity.
  - exists l4. split; [exact H1 | exact H2].
Defined.
