(* ===== verification/Lifecycle.v ===== *)
(** * Lifecycle eligibility ([internal/lifecycle/eligibility.go])

    Whether a release bundle may advance to an environment through the phases
    of a life cycle, with the reasons that stop it. *)
From S2P Require Import Prelude GoStrings Uuid.
Open Scope list_scope.

(** ** Data *)

(** [types.ReleaseBundleStatus]; [StatusOther] is any other value, drafts included. *)
Inductive ReleaseBundleStatus :=
| ReleaseBundleStatusPublished | ReleaseBundleStatusBlocked | ReleaseBundleStatusArchived
| ReleaseBundleStatusOther (s : string).

#[export] Instance ReleaseBundleStatus_eq_dec : EqDecision ReleaseBundleStatus.
Proof. solve_decision. Defined.

(** The fields of [types.ReleaseBundle] that are read. *)
Record ReleaseBundle := {
  rb_ID : uuid;
  rb_ApplicationID : uuid;
  rb_ChannelID : uuid;
  rb_Status : ReleaseBundleStatus;
}.

Record LifecyclePhase := {
  ph_ID : uuid;
  ph_Name : string;
  ph_SortOrder : Z;
  ph_EnvironmentIDs : list uuid;
  ph_Optional : bool;
  ph_AutomaticPromotion : bool;
  ph_MinimumSuccessfulDeployments : Z;
  ph_ApprovalPolicyID : option uuid;
  ph_RetentionPolicyID : option uuid;
}.

Record EligibilityRequest := {
  req_ReleaseBundle : ReleaseBundle;
  (** [Channel.LifecycleID] *)
  req_ChannelLifecycleID : uuid;
  (** [Lifecycle.ID] and [Lifecycle.Phases] *)
  req_LifecycleID : uuid;
  req_Phases : list LifecyclePhase;
  req_EnvironmentID : uuid;
}.

Inductive EligibilityReasonCode :=
| EligibilityReasonReleaseNotPublished | EligibilityReasonReleaseBlocked
| EligibilityReasonReleaseArchived | EligibilityReasonEnvironmentNotInLifecycle
| EligibilityReasonRequiredPriorPhaseIncomplete | EligibilityReasonApprovalRequired
| EligibilityReasonChannelLifecycleMismatch.

#[export] Instance EligibilityReasonCode_eq_dec : EqDecision EligibilityReasonCode.
Proof. solve_decision. Defined.

Record EligibilityReason := {
  Code : EligibilityReasonCode;
  Field : string;
  Message : string;
}.

Record EligibilityPhase := {
  ep_ID : uuid;
  ep_Name : string;
  ep_SortOrder : Z;
  ep_EnvironmentIDs : list uuid;
  ep_Optional : bool;
  ep_AutomaticPromotion : bool;
  ep_MinimumSuccessfulDeployments : Z;
  ep_ApprovalPolicyID : option uuid;
  ep_RetentionPolicyID : option uuid;
  ep_MatchesEnvironment : bool;
  ep_RequiredBeforeTarget : bool;
  ep_BlocksEligibility : bool;
}.

Record EligibilityResult := {
  res_ReleaseBundleID : uuid;
  res_ApplicationID : uuid;
  res_ChannelID : uuid;
  res_LifecycleID : uuid;
  res_EnvironmentID : uuid;
  EngineReady : bool;
  Eligible : bool;
  TargetPhase : option EligibilityPhase;
  Phases : list EligibilityPhase;
  Reasons : list EligibilityReason;
}.

(** ** [Explain] *)

(** [a.SortOrder - b.SortOrder < 0], in 64-bit arithmetic. *)
Definition phase_less (a b : LifecyclePhase) : bool :=
  (wrap64 (ph_SortOrder a - ph_SortOrder b) <? 0)%Z.

Definition eligibility_phase (env : uuid) (p : LifecyclePhase) : EligibilityPhase :=
  {| ep_ID := ph_ID p; ep_Name := ph_Name p; ep_SortOrder := ph_SortOrder p;
     ep_EnvironmentIDs := ph_EnvironmentIDs p; ep_Optional := ph_Optional p;
     ep_AutomaticPromotion := ph_AutomaticPromotion p;
     ep_MinimumSuccessfulDeployments := ph_MinimumSuccessfulDeployments p;
     ep_ApprovalPolicyID := ph_ApprovalPolicyID p;
     ep_RetentionPolicyID := ph_RetentionPolicyID p;
     ep_MatchesEnvironment := contains (ph_EnvironmentIDs p) env;
     ep_RequiredBeforeTarget := false; ep_BlocksEligibility := false |}.

Definition set_blocks (required : bool) (p : EligibilityPhase) : EligibilityPhase :=
  {| ep_ID := ep_ID p; ep_Name := ep_Name p; ep_SortOrder := ep_SortOrder p;
     ep_EnvironmentIDs := ep_EnvironmentIDs p; ep_Optional := ep_Optional p;
     ep_AutomaticPromotion := ep_AutomaticPromotion p;
     ep_MinimumSuccessfulDeployments := ep_MinimumSuccessfulDeployments p;
     ep_ApprovalPolicyID := ep_ApprovalPolicyID p;
     ep_RetentionPolicyID := ep_RetentionPolicyID p;
     ep_MatchesEnvironment := ep_MatchesEnvironment p;
     ep_RequiredBeforeTarget := required || ep_RequiredBeforeTarget p;
     ep_BlocksEligibility := true |}.

Definition mismatch_reasons (r : EligibilityRequest) : list EligibilityReason :=
  if negb (is_nil (req_ChannelLifecycleID r)) && negb (is_nil (req_LifecycleID r))
     && negb (bool_decide (req_ChannelLifecycleID r = req_LifecycleID r))
  then [{| Code := EligibilityReasonChannelLifecycleMismatch; Field := "channel.lifecycleId";
           Message := "channel lifecycle does not match the evaluated lifecycle" |}]
  else [].

Definition status_reasons (s : ReleaseBundleStatus) : list EligibilityReason :=
  match s with
  | ReleaseBundleStatusPublished => []
  | ReleaseBundleStatusBlocked =>
      [{| Code := EligibilityReasonReleaseBlocked; Field := "status";
          Message := "blocked release bundles cannot advance through lifecycle phases" |}]
  | ReleaseBundleStatusArchived =>
      [{| Code := EligibilityReasonReleaseArchived; Field := "status";
          Message := "archived release bundles cannot advance through lifecycle phases" |}]
  | ReleaseBundleStatusOther _ =>
      [{| Code := EligibilityReasonReleaseNotPublished; Field := "status";
          Message := "release bundle must be published before lifecycle eligibility can pass" |}]
  end.

Definition prior_reason (p : EligibilityPhase) : EligibilityReason :=
  {| Code := EligibilityReasonRequiredPriorPhaseIncomplete;
     Field := "phases." +:+ uuid_string (ep_ID p);
     Message := "required lifecycle phase " +:+ quote (ep_Name p)
       +:+ " has no successful deployment evidence for this release bundle" |}.

Definition approval_reason (p : EligibilityPhase) : EligibilityReason :=
  {| Code := EligibilityReasonApprovalRequired;
     Field := "phases." +:+ uuid_string (ep_ID p) +:+ ".approvalPolicyId";
     Message := "lifecycle phase " +:+ quote (ep_Name p)
       +:+ " requires approval; approval evaluation is not available yet" |}.

(** [for i := range targetPhaseIndex]: the first [n] phases. *)
Fixpoint block_prior (n : nat) (phases : list EligibilityPhase)
    : list EligibilityReason * list EligibilityPhase :=
  match n, phases with
  | S n, p :: phases =>
      let '(reasons, phases) := block_prior n phases in
      if ep_Optional p then (reasons, p :: phases)
      else (prior_reason p :: reasons, set_blocks true p :: phases)
  | _, _ => ([], phases)
  end.

Definition Explain (r : EligibilityRequest) : EligibilityResult :=
  let phases := eligibility_phase (req_EnvironmentID r) <$> stable_sort phase_less (req_Phases r) in
  let reasons := mismatch_reasons r ++ status_reasons (rb_Status (req_ReleaseBundle r)) in
  let mk target phases reasons :=
    {| res_ReleaseBundleID := rb_ID (req_ReleaseBundle r);
       res_ApplicationID := rb_ApplicationID (req_ReleaseBundle r);
       res_ChannelID := rb_ChannelID (req_ReleaseBundle r);
       res_LifecycleID := req_LifecycleID r; res_EnvironmentID := req_EnvironmentID r;
       EngineReady := true; Eligible := bool_decide (length reasons = 0);
       TargetPhase := target; Phases := phases; Reasons := reasons |} in
  match find_index ep_MatchesEnvironment phases with
  | None =>
      mk None phases (reasons ++
        [{| Code := EligibilityReasonEnvironmentNotInLifecycle; Field := "environmentId";
            Message := "environment is not assigned to any phase in the channel lifecycle" |}])
  | Some i =>
      let '(prior, phases) := block_prior i phases in
      match phases !! i with
      | Some target =>
          match ep_ApprovalPolicyID target with
          | Some _ =>
              let target' := set_blocks false target in
              mk (Some target') (<[i := target']> phases) (reasons ++ prior ++ [approval_reason target])
          | None => mk (Some target) phases (reasons ++ prior)
          end
      | None => mk None phases (reasons ++ prior)
      end
  end.

(** ** Facts *)

(** In the range of the database column the comparison does not wrap. *)
Lemma phase_less_in_range a b :
  in_int32 (ph_SortOrder a) -> in_int32 (ph_SortOrder b) ->
  phase_less a b = less_by ph_SortOrder a b.
Proof.
  unfold in_int32, phase_less, less_by. intros Ha Hb. rewrite wrap64_id.
  - destruct (Z.ltb_spec (ph_SortOrder a - ph_SortOrder b) 0),
      (Z.ltb_spec (ph_SortOrder a) (ph_SortOrder b)); lia.
  - unfold in_int64, int64_min, int64_max. lia.
Qed.

Lemma phase_sort_in_range l :
  Forall (λ p, in_int32 (ph_SortOrder p)) l ->
  stable_sort phase_less l = stable_sort (less_by ph_SortOrder) l.
Proof.
  rewrite Forall_forall. intros H. apply stable_sort_ext. auto using phase_less_in_range.
Qed.

Lemma length_block_prior n l : length (snd (block_prior n l)) = length l.
Proof.
  revert n. induction l as [|p l IH]; intros [|n]; [done..|]. simpl.
  specialize (IH n). destruct (block_prior n l). destruct (ep_Optional p); simpl in *; congruence.
Qed.

Lemma block_prior_lookup n l i :
  snd (block_prior n l) !! i
  = (λ p, if bool_decide (i < n) && negb (ep_Optional p) then set_blocks true p else p) <$> l !! i.
Proof.
  revert n i. induction l as [|p l IH]; intros [|n] i; simpl.
  - done.
  - done.
  - by destruct ((p :: l) !! i).
  - specialize (IH n). destruct (block_prior n l) as [rs l']. simpl in IH.
    destruct i as [|i].
    + rewrite (bool_decide_eq_true_2 (0 < S n)) by lia. destruct (ep_Optional p) eqn:E; simpl; by rewrite E.
    + replace (bool_decide (S i < S n)) with (bool_decide (i < n))
        by (apply bool_decide_ext; lia).
      destruct (ep_Optional p); simpl; apply IH.
Qed.

Lemma block_prior_reasons n l :
  fst (block_prior n l) = prior_reason <$> List.filter (λ p, negb (ep_Optional p)) (take n l).
Proof.
  revert n. induction l as [|p l IH]; intros [|n]; [done..|]. simpl.
  specialize (IH n). destruct (block_prior n l) as [rs l']. simpl in IH. subst.
  by destruct (ep_Optional p).
Qed.

Lemma block_prior_none n l :
  fst (block_prior n l) = [] <-> forall j p, j < n -> l !! j = Some p -> ep_Optional p = true.
Proof.
  revert n. induction l as [|p l IH]; intros [|n]; simpl; [by split; [lia|]|done|by split; [lia|]|].
  specialize (IH n). destruct (block_prior n l) as [rs l']. simpl in IH.
  destruct (ep_Optional p) eqn:E; simpl.
  - rewrite IH. split.
    + intros H [|j] q Hj Hq; simpl in Hq; [congruence|]. apply (H j); [lia|done].
    + intros H j q Hj Hq. apply (H (S j)); [lia|done].
  - split; [done|]. intros H. by rewrite (H 0 p) in E by (done || lia).
Qed.

Lemma mismatch_reasons_nil r :
  mismatch_reasons r = [] <->
  req_ChannelLifecycleID r = Nil \/ req_LifecycleID r = Nil \/ req_ChannelLifecycleID r = req_LifecycleID r.
Proof.
  unfold mismatch_reasons, is_nil. do 3 case_bool_decide; simpl; naive_solver.
Qed.

Lemma status_reasons_nil s : status_reasons s = [] <-> s = ReleaseBundleStatusPublished.
Proof. by destruct s. Qed.

Lemma nil_reasons (l : list EligibilityReason) : bool_decide (length l = 0) = true <-> l = [].
Proof. rewrite bool_decide_eq_true. by destruct l. Qed.

(** Promotion is eligible exactly when the bundle is published, the channel
    does not name another life cycle, and, in the stable order by sort order,
    the first phase that contains the environment needs no approval and every
    phase before it is optional. *)
Theorem lifecycle_eligible_iff r :
  Forall (λ p, in_int32 (ph_SortOrder p)) (req_Phases r) ->
  let sorted := stable_sort (less_by ph_SortOrder) (req_Phases r) in
  Eligible (Explain r) = true <->
  rb_Status (req_ReleaseBundle r) = ReleaseBundleStatusPublished
  /\ (req_ChannelLifecycleID r = Nil \/ req_LifecycleID r = Nil
      \/ req_ChannelLifecycleID r = req_LifecycleID r)
  /\ exists i p, sorted !! i = Some p /\ req_EnvironmentID r ∈ ph_EnvironmentIDs p
       /\ ph_ApprovalPolicyID p = None
       /\ forall j q, j < i -> sorted !! j = Some q ->
            ph_Optional q = true /\ req_EnvironmentID r ∉ ph_EnvironmentIDs q.
Proof.
  intros Hr sorted. unfold Explain. rewrite phase_sort_in_range by done. fold sorted.
  set (phases := eligibility_phase _ <$> sorted).
  assert (forall j, phases !! j = eligibility_phase (req_EnvironmentID r) <$> sorted !! j) as Hl
    by (intros; apply list_lookup_fmap).
  rewrite <- mismatch_reasons_nil, <- status_reasons_nil.
  destruct (find_index ep_MatchesEnvironment phases) as [i|] eqn:E.
  - apply find_index_Some in E as [(p & Hp & Hm) Hbefore].
    pose proof (block_prior_lookup i phases i) as Hi. pose proof (block_prior_none i phases) as Hn.
    destruct (block_prior i phases) as [prior phases']. simpl in Hi, Hn.
    rewrite Hp, bool_decide_eq_false_2 in Hi by lia. simpl in Hi. rewrite Hi.
    rewrite Hl in Hp. destruct (sorted !! i) as [q|] eqn:Hq; [|done]. injection Hp as <-.
    simpl in Hm. unfold contains in Hm. to_prop.
    assert (forall j u, j < i -> sorted !! j = Some u -> req_EnvironmentID r ∉ ph_EnvironmentIDs u) as Hnot.
    { intros j u Hj Hu. specialize (Hbefore j (eligibility_phase (req_EnvironmentID r) u) Hj).
      rewrite Hl, Hu in Hbefore. specialize (Hbefore eq_refl). simpl in Hbefore.
      unfold contains in Hbefore. by to_prop. }
    assert (forall k u, sorted !! k = Some u -> req_EnvironmentID r ∈ ph_EnvironmentIDs u ->
      (forall j v, j < k -> sorted !! j = Some v -> req_EnvironmentID r ∉ ph_EnvironmentIDs v) -> k = i)
      as Huniq.
    { intros k u Hk Hu Hb. destruct (lt_eq_lt_dec k i) as [[?|?]|?]; [|done|].
      - by destruct (Hnot k u).
      - by destruct (Hb i q). }
    simpl. destruct (ph_ApprovalPolicyID q) as [ap|] eqn:Ha; cbn [Eligible]; rewrite nil_reasons, ?app_nil.
    + split; [intuition discriminate|]. intros (_ & _ & k & u & Hk & Hu & Hnone & Hb).
      assert (k = i) as -> by (eapply Huniq; [done..|]; intros; by eapply Hb). congruence.
    + rewrite Hn. split.
      * intros [[??] Hopt]. split_and!; try done. exists i, q. split_and!; try done.
        intros j u Hj Hu. split; [|by eapply Hnot]. specialize (Hopt j). rewrite Hl, Hu in Hopt.
        by apply (Hopt (eligibility_phase (req_EnvironmentID r) u)).
      * intros (? & ? & k & u & Hk & Hu & _ & Hb).
        assert (k = i) as -> by (eapply Huniq; [done..|]; intros; by eapply Hb).
        split; [done|]. intros j v Hj. rewrite Hl. destruct (sorted !! j) as [w|] eqn:Hw; [|done].
        intros [= <-]. by apply (Hb j w).
  - cbn [Eligible]. rewrite nil_reasons, app_nil. split; [by intros []|].
    intros (_ & _ & k & u & Hk & Hu & _). rewrite find_index_None in E.
    specialize (E (eligibility_phase (req_EnvironmentID r) u)). simpl in E.
    unfold contains in E. rewrite bool_decide_eq_true_2 in E by done.
    discriminate E. apply (list_elem_of_lookup_2 _ k). by rewrite Hl, Hk.
Qed.

Lemma find_index_fmap {A B} (f : A -> B) (p : B -> bool) l :
  find_index p (f <$> l) = find_index (λ x, p (f x)) l.
Proof. induction l as [|x l IH]; [done|]. rewrite fmap_cons. simpl. by rewrite IH. Qed.

(** The position of the target phase. *)
Definition target_index (env : uuid) (phases : list LifecyclePhase) : option nat :=
  find_index (λ p, contains (ph_EnvironmentIDs p) env) phases.

Ltac explain_phase :=
  eexists; split; [reflexivity|]; simpl; rewrite ?contains_true;
  rewrite ?bool_decide_eq_true; repeat case_bool_decide;
  repeat match goal with |- context [ph_Optional ?p] => destruct (ph_Optional p) eqn:? end;
  simpl; rewrite ?contains_true, ?bool_decide_eq_true; split_and!; try done; split; intros;
  try naive_solver lia.

(** The explained phases are those of the life cycle, in the stable order
    by sort order; a phase is marked as blocking exactly when it comes before
    the target phase and is not optional, or is the target phase and needs an
    approval; and the reported target phase is the marked phase at the
    target's position, when there is one. *)
Theorem lifecycle_phases_explained r :
  Forall (λ p, in_int32 (ph_SortOrder p)) (req_Phases r) ->
  let sorted := stable_sort (less_by ph_SortOrder) (req_Phases r) in
  let target := target_index (req_EnvironmentID r) sorted in
  length (Phases (Explain r)) = length sorted
  /\ TargetPhase (Explain r) = (target ≫= λ t, Phases (Explain r) !! t)
  /\ forall i p, sorted !! i = Some p ->
     exists e, Phases (Explain r) !! i = Some e /\ ep_ID e = ph_ID p /\ ep_Name e = ph_Name p
       /\ (ep_MatchesEnvironment e = true <-> req_EnvironmentID r ∈ ph_EnvironmentIDs p)
       /\ (ep_RequiredBeforeTarget e = true <->
           exists t, target = Some t /\ i < t /\ ph_Optional p = false)
       /\ (ep_BlocksEligibility e = true <->
           exists t, target = Some t
             /\ (i < t /\ ph_Optional p = false \/ i = t /\ ph_ApprovalPolicyID p <> None)).
Proof.
  intros Hr sorted target. unfold Explain. rewrite phase_sort_in_range by done. fold sorted.
  rewrite find_index_fmap. simpl. change (find_index _ sorted) with target.
  set (phases := eligibility_phase _ <$> sorted).
  assert (forall j, phases !! j = eligibility_phase (req_EnvironmentID r) <$> sorted !! j) as Hl
    by (intros; apply list_lookup_fmap).
  assert (length phases = length sorted) as Hlen by apply length_fmap.
  destruct target as [t|] eqn:Et.
  - destruct (find_index_Some _ _ _ Et) as [(q & Hq & _) _].
    pose proof (block_prior_lookup t phases) as Hi. pose proof (length_block_prior t phases) as Hlb.
    destruct (block_prior t phases) as [prior phases']. simpl in Hi, Hlb.
    assert (phases' !! t = Some (eligibility_phase (req_EnvironmentID r) q)) as Ht.
    { rewrite Hi, Hl, Hq, bool_decide_eq_false_2 by lia. done. }
    assert (t < length phases') as Hlt by (by eapply lookup_lt_Some).
    rewrite Ht. simpl. destruct (ph_ApprovalPolicyID q) as [a|] eqn:Ha; cbn [Phases TargetPhase];
      rewrite ?length_insert; (split; [congruence|]);
      (split; [simpl; by rewrite ?list_lookup_insert_eq|]);
      intros i p Hp; destruct (decide (i = t)) as [->|Hne];
      rewrite ?list_lookup_insert_eq, ?list_lookup_insert_ne by done.
    + rewrite Hp in Hq. injection Hq as ->. explain_phase.
    + rewrite Hi, Hl, Hp. explain_phase.
    + rewrite Hp in Hq. injection Hq as ->. rewrite Ht. explain_phase.
    + rewrite Hi, Hl, Hp. explain_phase.
  - cbn [Phases TargetPhase]. split; [done|]. split; [done|]. intros i p Hp.
    rewrite Hl, Hp. explain_phase.
Qed.

(** ** A concrete request *)

Definition demo_phase (n : N) (order : Z) (envs : list N) (optional : bool) : LifecyclePhase :=
  {| ph_ID := uid n; ph_Name := "phase"; ph_SortOrder := order; ph_EnvironmentIDs := uid <$> envs;
     ph_Optional := optional; ph_AutomaticPromotion := false; ph_MinimumSuccessfulDeployments := 0;
     ph_ApprovalPolicyID := None; ph_RetentionPolicyID := None |}.

Definition demo_request (optional : bool) : EligibilityRequest :=
  {| req_ReleaseBundle := {| rb_ID := uid 1; rb_ApplicationID := uid 2; rb_ChannelID := uid 3;
                             rb_Status := ReleaseBundleStatusPublished |};
     req_ChannelLifecycleID := uid 4; req_LifecycleID := uid 4;
     req_Phases := [demo_phase 6 20 [8%N] false; demo_phase 5 10 [7%N] optional];
     req_EnvironmentID := uid 8 |}.

Lemma demo_in_range optional : Forall (λ p, in_int32 (ph_SortOrder p)) (req_Phases (demo_request optional)).
Proof. unfold in_int32. repeat constructor; simpl; lia. Qed.

Lemma lifecycle_eligible_iff_witness : Eligible (Explain (demo_request true)) = true.
Proof.
  apply (lifecycle_eligible_iff (demo_request true) (demo_in_range true)).
  split_and!; [reflexivity | right; right; reflexivity |].
  exists 1, (demo_phase 6 20 [8%N] false). split_and!; [reflexivity | by left | reflexivity|].
  intros [|j] q Hj Hq; [|lia]. injection Hq as <-. split; [reflexivity|].
  apply contains_false. vm_compute. reflexivity.
Defined.

Lemma lifecycle_phases_explained_witness :
  TargetPhase (Explain (demo_request false)) <> None
  /\ TargetPhase (Explain (demo_request false)) = Phases (Explain (demo_request false)) !! 1.
Proof.
  split; [vm_compute; discriminate|].
  apply (lifecycle_phases_explained (demo_request false) (demo_in_range false)).
Defined.
