(* ===== verification/WebhookPolicy.v ===== *)
(** * The webhook policy engine ([internal/policy])

    Circuit breaker, fixed-window rate limiters, failure threshold and
    concurrency limit that guard outgoing webhooks. The engine is mutated under
    its mutex, so a call is one atomic step; every [time.Now] is an explicit
    argument in Unix seconds. A Go map with a default zero value is a [gmap]
    read with [default]. *)
From S2P Require Import Prelude GoStrings Uuid.
Open Scope list_scope.

(** ** [circuit_breaker.go] *)

Inductive circuitState := circuitClosed | circuitOpen | circuitHalfOpen.

#[export] Instance circuitState_eq_dec : EqDecision circuitState.
Proof. solve_decision. Defined.

Record circuitBreakerRegistry := {
  states : gmap string circuitState;
  halfOpenProbes : gmap string Z;
  halfOpenLimit : Z;
}.

Definition normalizePolicyToken (value : string) : string :=
  trim_suffix_dot (ToLower (TrimSpace value)).

Definition set_hosts (st : circuitState) (hosts : list string) (m : gmap string circuitState)
    : gmap string circuitState :=
  foldl (λ m host,
    let normalized := normalizePolicyToken host in
    if bool_decide (normalized = "") then m else <[normalized := st]> m) m hosts.

Definition newCircuitBreakerRegistry (openHosts halfOpenHosts : list string) (limit : Z)
    : circuitBreakerRegistry :=
  {| states := set_hosts circuitHalfOpen halfOpenHosts (set_hosts circuitOpen openHosts ∅);
     halfOpenProbes := ∅;
     halfOpenLimit := if (limit <=? 0)%Z then 1%Z else limit |}.

(** The reason of a refusal, or the updated registry. *)
Definition circuit_allow (r : circuitBreakerRegistry) (host : string)
    : result string circuitBreakerRegistry :=
  let host := normalizePolicyToken host in
  match states r !! host with
  | Some circuitOpen => Err "circuit breaker open"
  | Some circuitHalfOpen =>
      let probes := default 0%Z (halfOpenProbes r !! host) in
      if (halfOpenLimit r <=? probes)%Z
      then Err "circuit breaker half-open probe limit exceeded"
      else Ok {| states := states r; halfOpenProbes := <[host := (probes + 1)%Z]> (halfOpenProbes r);
                 halfOpenLimit := halfOpenLimit r |}
  | _ => Ok r
  end.

(** ** [rate_limiter.go] *)

Record rateWindow := { unixSecond : Z; hit_count : Z }.

Record fixedWindowRateLimiter := {
  limit : Z;
  hits : gmap string rateWindow;
}.

Definition newFixedWindowRateLimiter (limit : Z) : fixedWindowRateLimiter :=
  {| limit := limit; hits := ∅ |}.

Definition limiter_allow (now : Z) (key : string) (l : fixedWindowRateLimiter)
    : bool * fixedWindowRateLimiter :=
  if (limit l <=? 0)%Z || bool_decide (key = "") then (true, l)
  else
    let window := default {| unixSecond := 0; hit_count := 0 |} (hits l !! key) in
    let window := if (unixSecond window =? now)%Z then window
                  else {| unixSecond := now; hit_count := 0 |} in
    if (limit l <=? hit_count window)%Z
    then (false, {| limit := limit l; hits := <[key := window]> (hits l) |})
    else (true, {| limit := limit l;
                   hits := <[key := {| unixSecond := unixSecond window;
                                       hit_count := (hit_count window + 1)%Z |}]> (hits l) |}).

(** ** [webhook_policy_engine.go] *)

Record WebhookPolicyConfig := {
  TenantRequestsPerSecond : Z;
  AgentRequestsPerSecond : Z;
  AgentConcurrentExecutions : Z;
  (** The entries of the map in the order the loop visits them. *)
  CorridorRequestsPerSecond : list (string * Z);
  OpenCircuitHosts : list string;
  HalfOpenCircuitHosts : list string;
  HalfOpenProbeLimit : Z;
  MaxRetryAttempts : Z;
  EndpointFailureLimit : Z;
}.

(** The fields of the input that the engine reads. *)
Record WebhookPolicyInput := {
  TenantID : uuid;
  AgentID : uuid;
  Corridor : string;
  Host : string;
  RetryMax : Z;
}.

(** [result_Err] is [result.Err != nil]. *)
Record WebhookPolicyResult := {
  StatusCode : Z;
  result_Err : bool;
  result_Replay : bool;
}.

Record WebhookPolicyEngine := {
  tenantLimiter : fixedWindowRateLimiter;
  agentLimiter : fixedWindowRateLimiter;
  corridorLimiter : gmap string fixedWindowRateLimiter;
  circuits : circuitBreakerRegistry;
  agentConcurrent : gmap string Z;
  hostFailures : gmap string Z;
  config : WebhookPolicyConfig;
}.

Definition NewWebhookPolicyEngine (c : WebhookPolicyConfig) : WebhookPolicyEngine :=
  {| tenantLimiter := newFixedWindowRateLimiter (TenantRequestsPerSecond c);
     agentLimiter := newFixedWindowRateLimiter (AgentRequestsPerSecond c);
     corridorLimiter :=
       foldl (λ m '(corridor, l),
         let normalized := normalizePolicyToken corridor in
         if bool_decide (normalized = "") then m
         else <[normalized := newFixedWindowRateLimiter l]> m) ∅ (CorridorRequestsPerSecond c);
     circuits := newCircuitBreakerRegistry (OpenCircuitHosts c) (HalfOpenCircuitHosts c)
                   (HalfOpenProbeLimit c);
     agentConcurrent := ∅; hostFailures := ∅; config := c |}.

Definition set_circuits (r : circuitBreakerRegistry) (e : WebhookPolicyEngine) : WebhookPolicyEngine :=
  {| tenantLimiter := tenantLimiter e; agentLimiter := agentLimiter e;
     corridorLimiter := corridorLimiter e; circuits := r; agentConcurrent := agentConcurrent e;
     hostFailures := hostFailures e; config := config e |}.

Definition set_limiters (t a : fixedWindowRateLimiter) (c : gmap string fixedWindowRateLimiter)
    (e : WebhookPolicyEngine) : WebhookPolicyEngine :=
  {| tenantLimiter := t; agentLimiter := a; corridorLimiter := c; circuits := circuits e;
     agentConcurrent := agentConcurrent e; hostFailures := hostFailures e; config := config e |}.

Definition set_counts (concurrent failures : gmap string Z) (e : WebhookPolicyEngine)
    : WebhookPolicyEngine :=
  {| tenantLimiter := tenantLimiter e; agentLimiter := agentLimiter e;
     corridorLimiter := corridorLimiter e; circuits := circuits e; agentConcurrent := concurrent;
     hostFailures := failures; config := config e |}.

Inductive WebhookPolicyDecision :=
| Allowed (acquiredAgentSlot : bool)
| Denied (reason : string)
| ContextDone.

(** The part of [EvaluateWebhookPolicy] after the circuit breaker, the retry
    limit and the failure threshold: rate limits and the agent's slot. The
    clock is read once per limiter. *)
Definition evaluate_limits (now : Z * Z * Z) (input : WebhookPolicyInput) (e : WebhookPolicyEngine)
    : WebhookPolicyDecision * WebhookPolicyEngine :=
  let '(now1, now2, now3) := now in
  let '(ok, tenant) := limiter_allow now1 (uuid_string (TenantID input)) (tenantLimiter e) in
  let e := set_limiters tenant (agentLimiter e) (corridorLimiter e) e in
  if negb ok then (Denied "tenant rate limit exceeded", e) else
  let '(ok, agent) := limiter_allow now2 (uuid_string (AgentID input)) (agentLimiter e) in
  let e := set_limiters tenant agent (corridorLimiter e) e in
  if negb ok then (Denied "agent rate limit exceeded", e) else
  let corridor := normalizePolicyToken (Corridor input) in
  let '(ok, corridors) :=
    match corridorLimiter e !! corridor with
    | Some limiter =>
        let '(ok, limiter) := limiter_allow now3 corridor limiter in
        (ok, <[corridor := limiter]> (corridorLimiter e))
    | None => (true, corridorLimiter e)
    end in
  let e := set_limiters tenant agent corridors e in
  if negb ok then (Denied "corridor rate limit exceeded", e) else
  let agentKey := uuid_string (AgentID input) in
  if (0 <? AgentConcurrentExecutions (config e))%Z && negb (bool_decide (agentKey = "")) then
    let n := default 0%Z (agentConcurrent e !! agentKey) in
    if (AgentConcurrentExecutions (config e) <=? n)%Z
    then (Denied "agent concurrency limit exceeded", e)
    else (Allowed true, set_counts (<[agentKey := (n + 1)%Z]> (agentConcurrent e)) (hostFailures e) e)
  else (Allowed false, e).

(** [ctxErr]: the context was cancelled. *)
Definition EvaluateWebhookPolicy (ctxErr : bool) (now : Z * Z * Z) (input : WebhookPolicyInput)
    (e : WebhookPolicyEngine) : WebhookPolicyDecision * WebhookPolicyEngine :=
  if ctxErr then (ContextDone, e) else
  let host := normalizePolicyToken (Host input) in
  match circuit_allow (circuits e) host with
  | Err reason => (Denied reason, e)
  | Ok r =>
      let e := set_circuits r e in
      if (0 <? MaxRetryAttempts (config e))%Z && (MaxRetryAttempts (config e) <? RetryMax input)%Z
      then (Denied "retry storm detected", e)
      else if (0 <? EndpointFailureLimit (config e))%Z && negb (bool_decide (host = ""))
        && (EndpointFailureLimit (config e) <=? default 0 (hostFailures e !! host))%Z
      then (Denied "endpoint failure threshold exceeded", e)
      else evaluate_limits now input e
  end.

Definition recordResult (input : WebhookPolicyInput) (r : WebhookPolicyResult) (releaseAgentSlot : bool)
    (e : WebhookPolicyEngine) : WebhookPolicyEngine :=
  let agentKey := uuid_string (AgentID input) in
  let n := default 0%Z (agentConcurrent e !! agentKey) in
  let concurrent :=
    if releaseAgentSlot && (0 <? n)%Z then <[agentKey := (n - 1)%Z]> (agentConcurrent e)
    else agentConcurrent e in
  let host := normalizePolicyToken (Host input) in
  let failures :=
    if bool_decide (host = "") || result_Replay r then hostFailures e
    else if result_Err r || (500 <=? StatusCode r)%Z
    then <[host := (default 0 (hostFailures e !! host) + 1)%Z]> (hostFailures e)
    else if (0 <? StatusCode r)%Z && (StatusCode r <? 500)%Z
    then delete host (hostFailures e)
    else hostFailures e in
  set_counts concurrent failures e.

(** ** Runs of the engine *)

(** A grant is an allowed request together with its release callback; [sync.Once]
    makes every call of the callback after the first one a no-op. *)
Record grant := { g_input : WebhookPolicyInput; g_slot : bool; g_released : bool }.

Definition granted (d : WebhookPolicyDecision) (input : WebhookPolicyInput) : list grant :=
  match d with
  | Allowed slot => [{| g_input := input; g_slot := slot; g_released := false |}]
  | _ => []
  end.

Definition release (r : WebhookPolicyResult) (g : grant) (e : WebhookPolicyEngine)
    : WebhookPolicyEngine :=
  if g_released g then e else recordResult (g_input g) r (g_slot g) e.

Definition set_released (g : grant) : grant :=
  {| g_input := g_input g; g_slot := g_slot g; g_released := true |}.

Inductive policy_step : WebhookPolicyEngine * list grant -> WebhookPolicyEngine * list grant -> Prop :=
| policy_evaluate e gs ctxErr now input d e' :
    EvaluateWebhookPolicy ctxErr now input e = (d, e') ->
    policy_step (e, gs) (e', gs ++ granted d input)
| policy_release e gs k g r :
    gs !! k = Some g -> policy_step (e, gs) (release r g e, <[k := set_released g]> gs).

Definition circuit_key (input : WebhookPolicyInput) : string :=
  normalizePolicyToken (normalizePolicyToken (Host input)).

(** What one evaluation changes. *)
Definition evaluated (e : WebhookPolicyEngine) (input : WebhookPolicyInput)
    (d : WebhookPolicyDecision) (e' : WebhookPolicyEngine) : Prop :=
  let key := uuid_string (AgentID input) in
  let n := default 0%Z (agentConcurrent e !! key) in
  let L := AgentConcurrentExecutions (config e) in
  config e' = config e /\ hostFailures e' = hostFailures e
  /\ (circuits e' = circuits e /\ granted d input = []
      \/ circuit_allow (circuits e) (normalizePolicyToken (Host input)) = Ok (circuits e'))
  /\ (granted d input <> [] -> (0 < EndpointFailureLimit (config e))%Z ->
      normalizePolicyToken (Host input) <> "" ->
      (default 0 (hostFailures e !! normalizePolicyToken (Host input)) < EndpointFailureLimit (config e))%Z)
  /\ match d with
     | Allowed true => (n < L)%Z /\ agentConcurrent e' = <[key := (n + 1)%Z]> (agentConcurrent e)
     | Allowed false => (L <= 0)%Z /\ agentConcurrent e' = agentConcurrent e
     | _ => agentConcurrent e' = agentConcurrent e
     end.

Lemma evaluate_limits_spec now input e d e' :
  evaluate_limits now input e = (d, e') ->
  config e' = config e /\ hostFailures e' = hostFailures e /\ circuits e' = circuits e
  /\ match d with
     | Allowed true =>
         (default 0 (agentConcurrent e !! uuid_string (AgentID input))
            < AgentConcurrentExecutions (config e))%Z
         /\ agentConcurrent e' = <[uuid_string (AgentID input) :=
              (default 0 (agentConcurrent e !! uuid_string (AgentID input)) + 1)%Z]> (agentConcurrent e)
     | Allowed false => (AgentConcurrentExecutions (config e) <= 0)%Z
                        /\ agentConcurrent e' = agentConcurrent e
     | _ => agentConcurrent e' = agentConcurrent e
     end.
Proof.
  unfold evaluate_limits. destruct now as [[n1 n2] n3].
  destruct (limiter_allow n1 _ _) as [[] l1]; simpl; [|by intros [= <- <-]].
  destruct (limiter_allow n2 _ _) as [[] l2]; simpl; [|by intros [= <- <-]].
  destruct (match corridorLimiter e !! _ with Some _ => _ | None => _ end) as [[] l3]; simpl;
    [|by intros [= <- <-]].
  rewrite andb_true_r. bool_cases; intros [= <- <-]; to_prop; simpl; split_and!; auto; lia.
Qed.

Lemma EvaluateWebhookPolicy_spec ctxErr now input e d e' :
  EvaluateWebhookPolicy ctxErr now input e = (d, e') -> evaluated e input d e'.
Proof.
  unfold EvaluateWebhookPolicy, evaluated. destruct ctxErr.
  { intros [= <- <-]. simpl. split_and!; auto; done. }
  destruct (circuit_allow _ _) as [r|reason] eqn:Ec.
  2: { intros [= <- <-]. simpl. split_and!; auto; done. }
  destruct (_ && (MaxRetryAttempts _ <? _)%Z).
  { intros [= <- <-]. simpl. split_and!; auto; done. }
  destruct (_ && (EndpointFailureLimit _ <=? _)%Z) eqn:Ef.
  { intros [= <- <-]. simpl. split_and!; auto; done. }
  intros (H1 & H2 & H3 & H4)%evaluate_limits_spec. simpl in *. rewrite H1, H2, H3.
  split_and!; auto. intros _ Hl Hh.
  rewrite (bool_decide_eq_false_2 (_ = "")) in Ef by done. simpl in Ef.
  rewrite andb_true_r in Ef. apply andb_false_iff in Ef as [Ef|Ef]; to_prop; lia.
Qed.

Definition holds_slot (key : string) (g : grant) : bool :=
  negb (g_released g) && g_slot g && bool_decide (uuid_string (AgentID (g_input g)) = key).

Definition probes_circuit (h : string) (g : grant) : bool := bool_decide (circuit_key (g_input g) = h).

Record policy_inv (c : WebhookPolicyConfig) (s : WebhookPolicyEngine * list grant) : Prop := {
  pi_config : config (fst s) = c;
  pi_count key : default 0%Z (agentConcurrent (fst s) !! key) = Z.of_nat (count (holds_slot key) (snd s));
  pi_limit key : (Z.of_nat (count (holds_slot key) (snd s)) <= Z.max 0 (AgentConcurrentExecutions c))%Z;
  pi_states : states (circuits (fst s)) = states (circuits (NewWebhookPolicyEngine c));
  pi_half_limit : halfOpenLimit (circuits (fst s)) = halfOpenLimit (circuits (NewWebhookPolicyEngine c));
  pi_open h : states (circuits (fst s)) !! h = Some circuitOpen -> count (probes_circuit h) (snd s) = 0;
  pi_half h : states (circuits (fst s)) !! h = Some circuitHalfOpen ->
    (Z.of_nat (count (probes_circuit h) (snd s)) <= default 0 (halfOpenProbes (circuits (fst s)) !! h)
     <= halfOpenLimit (circuits (fst s)))%Z;
}.

Lemma half_open_limit_pos c : (0 < halfOpenLimit (circuits (NewWebhookPolicyEngine c)))%Z.
Proof. simpl. bool_cases; to_prop; lia. Qed.

Lemma policy_inv_init c : policy_inv c (NewWebhookPolicyEngine c, []).
Proof.
  constructor; simpl; try done; intros; [change (count _ []) with 0; lia|].
  pose proof (half_open_limit_pos c) as Hpos. simpl in Hpos.
  change (count _ []) with 0. change (default 0%Z (∅ !! h)) with 0%Z. lia.
Qed.

(** An allowed circuit is not open, and a half-open one has a probe left. *)
Lemma circuit_allow_ok r host r' :
  circuit_allow r host = Ok r' ->
  let h := normalizePolicyToken host in
  states r' = states r /\ halfOpenLimit r' = halfOpenLimit r
  /\ states r !! h <> Some circuitOpen
  /\ (states r !! h = Some circuitHalfOpen ->
      (default 0 (halfOpenProbes r !! h) < halfOpenLimit r)%Z
      /\ halfOpenProbes r' = <[h := (default 0 (halfOpenProbes r !! h) + 1)%Z]> (halfOpenProbes r))
  /\ (states r !! h <> Some circuitHalfOpen -> r' = r).
Proof.
  unfold circuit_allow. destruct (states r !! _) as [[]|] eqn:E; try done.
  - by intros [= <-].
  - bool_cases; [done|]. intros [= <-]. to_prop. simpl. split_and!; auto; congruence.
  - by intros [= <-].
Qed.

Lemma count_granted p d input :
  count p (granted d input)
  = match d with Allowed slot => if p {| g_input := input; g_slot := slot; g_released := false |} then 1 else 0 | _ => 0 end.
Proof. destruct d; simpl; [|done..]. rewrite count_cons. unfold count. simpl. lia. Qed.

(** The counters of the half-open circuits bound the grants. *)
Lemma policy_inv_circuits c e gs input d e' :
  policy_inv c (e, gs) -> evaluated e input d e' ->
  states (circuits e') = states (circuits e) /\ halfOpenLimit (circuits e') = halfOpenLimit (circuits e)
  /\ (forall h, states (circuits e') !! h = Some circuitOpen ->
        count (probes_circuit h) (gs ++ granted d input) = 0)
  /\ (forall h, states (circuits e') !! h = Some circuitHalfOpen ->
        (Z.of_nat (count (probes_circuit h) (gs ++ granted d input))
         <= default 0 (halfOpenProbes (circuits e') !! h) <= halfOpenLimit (circuits e'))%Z).
Proof.
  intros Hinv (_ & _ & Hc & _). destruct Hinv as [_ _ _ _ _ Hopen Hhalf]; simpl in *.
  destruct Hc as [[-> ->]|H].
  { split_and!; [done..| |]; intros h; rewrite app_nil_r; auto. }
  apply circuit_allow_ok in H as (Hs & Hl & Hno & Hpr & Hsame). fold (circuit_key input) in *.
  rewrite Hs, Hl. split_and!; [done..| |]; intros h Hh; rewrite count_app, count_granted.
  - rewrite (Hopen h Hh). destruct d; try done. unfold probes_circuit.
    simpl. case_bool_decide; [congruence|done].
  - specialize (Hhalf h Hh). destruct (decide (circuit_key input = h)) as [<-|Hne].
    + destruct (Hpr Hh) as [Hlt ->]. rewrite lookup_insert_eq. simpl.
      destruct d; [destruct (probes_circuit _ _)|..]; lia.
    + assert (default 0%Z (halfOpenProbes (circuits e') !! h)
        = default 0%Z (halfOpenProbes (circuits e) !! h)) as ->.
      { destruct (decide (states (circuits e) !! circuit_key input = Some circuitHalfOpen)) as [E|E].
        - destruct (Hpr E) as [_ ->]. by rewrite lookup_insert_ne.
        - by rewrite (Hsame E). }
      destruct d as [slot|reason|]; try lia.
      replace (probes_circuit h {| g_input := input; g_slot := slot; g_released := false |}) with false
        by (symmetry; by apply bool_decide_eq_false_2). lia.
Qed.

Lemma policy_inv_evaluate c e gs input d e' :
  policy_inv c (e, gs) -> evaluated e input d e' -> policy_inv c (e', gs ++ granted d input).
Proof.
  intros Hinv Hev. destruct (policy_inv_circuits _ _ _ _ _ _ Hinv Hev) as (Hs & Hl & Ho & Hh).
  destruct Hinv as [Hc Hn Hm Hst Hhl _ _], Hev as (Hc' & _ & _ & _ & Hd); simpl in *.
  assert (forall key, default 0%Z (agentConcurrent e' !! key)
      = Z.of_nat (count (holds_slot key) (gs ++ granted d input))
    /\ (Z.of_nat (count (holds_slot key) (gs ++ granted d input)) <= Z.max 0 (AgentConcurrentExecutions c))%Z)
    as Hkeys.
  { intros key. rewrite count_app, count_granted, Nat2Z.inj_add, <- Hn.
    specialize (Hm key). rewrite <- Hn in Hm.
    destruct d as [[]|r|]; simpl in *; rewrite ?Hd; try (simpl; lia).
    - destruct Hd as [Hlt ->]. rewrite Hc in Hlt. unfold holds_slot. simpl.
      case_bool_decide as E; [subst key; rewrite lookup_insert_eq | rewrite lookup_insert_ne by done];
        simpl; lia.
    - destruct Hd as [_ ->]. simpl. lia. }
  constructor; simpl; try congruence; auto; apply Hkeys.
Qed.

Lemma policy_inv_release c e gs k g r :
  policy_inv c (e, gs) -> gs !! k = Some g -> policy_inv c (release r g e, <[k := set_released g]> gs).
Proof.
  intros [Hc Hn Hm Hst Hhl Ho Hh] Hk; simpl in *.
  assert (circuits (release r g e) = circuits e /\ config (release r g e) = config e) as [Hce Hcf]
    by (unfold release; by destruct (g_released g)).
  assert (forall h, count (probes_circuit h) (<[k := set_released g]> gs) = count (probes_circuit h) gs) as Hp.
  { intros h. pose proof (count_insert (probes_circuit h) gs k g (set_released g) Hk).
    change (probes_circuit h (set_released g)) with (probes_circuit h g) in *. lia. }
  assert (forall key, count (holds_slot key) (<[k := set_released g]> gs) + (if holds_slot key g then 1 else 0)
    = count (holds_slot key) gs) as Hs.
  { intros key. pose proof (count_insert (holds_slot key) gs k g (set_released g) Hk) as H.
    assert (holds_slot key (set_released g) = false) as E by reflexivity. rewrite E in H. lia. }
  constructor; simpl; rewrite ?Hce, ?Hcf; auto.
  - intros key. specialize (Hn key). specialize (Hs key). unfold holds_slot at 2 in Hs.
    unfold release. destruct (g_released g); simpl in *; [rewrite Hn; lia|].
    unfold recordResult. simpl. destruct (g_slot g); simpl in *; [|rewrite Hn; lia].
    destruct (bool_decide_reflect (uuid_string (AgentID (g_input g)) = key)) as [<-|Hne].
    + destruct (Z.ltb_spec 0 (default 0%Z (agentConcurrent e !! uuid_string (AgentID (g_input g)))));
        [rewrite lookup_insert_eq; simpl|]; lia.
    + destruct (_ <? _)%Z; [rewrite lookup_insert_ne by done|]; rewrite Hn; lia.
  - intros key. specialize (Hm key). specialize (Hs key). lia.
  - intros h Hh'. rewrite Hp. auto.
  - intros h Hh'. rewrite Hp. auto.
Qed.

Lemma policy_inv_steps c s s' : rtc policy_step s s' -> policy_inv c s -> policy_inv c s'.
Proof.
  induction 1 as [|s s1 s2 Hstep _ IH]; [done|]. intros Hinv. apply IH.
  destruct Hstep; eauto using policy_inv_evaluate, EvaluateWebhookPolicy_spec, policy_inv_release.
Qed.

(** The concurrency limit. In every run of the engine the number of
    granted requests of an agent that hold a slot and are not yet released is
    the engine's counter for that agent and never exceeds the configured
    limit, however often and in whatever order the releases are called. *)
Theorem webhook_concurrency_bounded c e gs agent :
  rtc policy_step (NewWebhookPolicyEngine c, []) (e, gs) ->
  let outstanding := Z.of_nat (count (holds_slot (uuid_string agent)) gs) in
  outstanding = default 0%Z (agentConcurrent e !! uuid_string agent)
  /\ (outstanding <= Z.max 0 (AgentConcurrentExecutions c))%Z.
Proof.
  intros Hrun. destruct (policy_inv_steps c _ _ Hrun (policy_inv_init c)) as [_ Hn Hm _ _ _ _].
  simpl in *. by rewrite Hn.
Qed.

(** The circuit breaker. In every run no request is granted to a host whose
    circuit is configured open, and the requests ever granted to a half-open
    host number at most the probe limit, whatever their results: a half-open
    circuit never closes. *)
Theorem webhook_circuit_bounds_grants c e gs h :
  rtc policy_step (NewWebhookPolicyEngine c, []) (e, gs) ->
  (states (circuits e) !! h = Some circuitOpen -> forall g, g ∈ gs -> circuit_key (g_input g) <> h)
  /\ (states (circuits e) !! h = Some circuitHalfOpen ->
      (Z.of_nat (count (probes_circuit h) gs) <= Z.max 1 (HalfOpenProbeLimit c))%Z)
  /\ states (circuits e) = states (circuits (NewWebhookPolicyEngine c)).
Proof.
  intros Hrun. destruct (policy_inv_steps c _ _ Hrun (policy_inv_init c)) as [_ _ _ Hs Hl Ho Hh].
  simpl in *. split_and!; [| |done].
  - intros Hopen g Hg. specialize (Ho h Hopen). rewrite count_zero in Ho. specialize (Ho g Hg).
    unfold probes_circuit in Ho. by to_prop.
  - intros Hhalf. specialize (Hh h Hhalf). rewrite Hl in Hh. bool_cases; to_prop; lia.
Qed.

(** ** The rate limiter *)

(** The answers to a sequence of calls, each with its second and key. *)
Fixpoint run_limiter (l : fixedWindowRateLimiter) (calls : list (Z * string)) : list (Z * string * bool) :=
  match calls with
  | [] => []
  | (now, key) :: calls =>
      let '(ok, l') := limiter_allow now key l in (now, key, ok) :: run_limiter l' calls
  end.

Definition is_call (t : Z) (k : string) (c : Z * string) : bool :=
  (fst c =? t)%Z && bool_decide (snd c = k).
Definition is_grant (t : Z) (k : string) (c : Z * string * bool) : bool :=
  is_call t k (fst c) && snd c.

Definition window_of (l : fixedWindowRateLimiter) (key : string) : rateWindow :=
  default {| unixSecond := 0; hit_count := 0 |} (hits l !! key).

(** The hits that count against a call in second [t]. *)
Definition used (l : fixedWindowRateLimiter) (t : Z) (key : string) : Z :=
  if (unixSecond (window_of l key) =? t)%Z then hit_count (window_of l key) else 0%Z.

Lemma limiter_allow_spec now key l :
  (0 < limit l)%Z -> key <> "" ->
  exists l', limiter_allow now key l = ((used l now key <? limit l)%Z, l')
    /\ limit l' = limit l
    /\ window_of l' key = {| unixSecond := now;
         hit_count := if (used l now key <? limit l)%Z then (used l now key + 1)%Z else used l now key |}
    /\ forall k, k <> key -> window_of l' k = window_of l k.
Proof.
  intros Hl Hk. unfold limiter_allow, used.
  rewrite (proj2 (Z.leb_gt _ _)), (bool_decide_eq_false_2 (key = "")) by done. simpl.
  fold (window_of l key). destruct (window_of l key) as [s n] eqn:Ew. simpl.
  destruct (Z.eqb_spec s now) as [->|Hne]; simpl;
    (match goal with |- context [(limit l <=? ?n)%Z] =>
       destruct (Z.leb_spec (limit l) n), (Z.ltb_spec n (limit l)); try lia end);
    (eexists; split; [reflexivity|]; split; [done|]; unfold window_of; simpl;
     split; [by rewrite lookup_insert_eq | intros k Hne'; by rewrite lookup_insert_ne]).
Qed.

(** The rate limit is exact. When the clock does not go backwards, the
    calls of one key that a fresh limiter allows within one second are exactly
    the calls of that second up to the limit, and the other keys do not
    interfere. *)
Theorem rate_limit_exact limit calls t key :
  (0 < limit)%Z -> key <> "" -> Forall (λ c, snd c <> "") calls ->
  StronglySorted (λ c d, fst c <= fst d)%Z calls ->
  Z.of_nat (count (is_grant t key) (run_limiter (newFixedWindowRateLimiter limit) calls))
  = Z.min limit (Z.of_nat (count (is_call t key) calls)).
Proof.
  intros Hlim Hkey Hne Hsort.
  assert (forall l, WebhookPolicy.limit l = limit ->
    (0 <= hit_count (window_of l key) <= limit)%Z ->
    (hit_count (window_of l key) = 0 \/ Forall (λ c, unixSecond (window_of l key) <= fst c) calls)%Z ->
    Z.of_nat (count (is_grant t key) (run_limiter l calls))
    = Z.min (limit - used l t key) (Z.of_nat (count (is_call t key) calls))) as Hgen.
  { induction Hsort as [|[now k] calls Hsort IH Hnow]; intros l Hl Hc Hw.
    { simpl. change (count _ []) with 0. change (count (is_call t key) []) with 0.
      unfold used. destruct (_ =? _)%Z; lia. }
    apply Forall_cons in Hne as [Hk Hne]. specialize (IH Hne). simpl in Hk, Hnow.
    destruct (limiter_allow_spec now k l) as (l' & Ha & Hl' & Hw' & Hother); [lia|done|].
    simpl. rewrite Ha, !count_cons. unfold is_grant at 1, is_call at 1 2. simpl.
    destruct (decide (k = key)) as [->|Hkk].
    2: { rewrite (bool_decide_eq_false_2 (k = key)), andb_false_r by done. simpl.
      rewrite IH; rewrite ?Hother by done; try congruence.
      - unfold used. by rewrite Hother by done.
      - destruct Hw as [?|Hw]; [by left|]. right. by apply Forall_cons in Hw as [_ Hw]. }
    rewrite (bool_decide_eq_true_2 (key = key)), andb_true_r by done.
    assert (used l now key <= limit /\ 0 <= used l now key)%Z as Hu
      by (unfold used; destruct (_ =? _)%Z; lia).
    assert (used l' t key = if (now =? t)%Z
      then if (used l now key <? limit)%Z then (used l now key + 1)%Z else used l now key else 0%Z) as Hu'
      by (unfold used at 1; by rewrite Hw', Hl).
    specialize (IH l'). rewrite Hu', Hw', Hl in IH. simpl in IH. rewrite Hl.
    destruct (Z.eqb_spec now t) as [->|Hnt].
    - rewrite Nat2Z.inj_add, IH; [|congruence|destruct (_ <? _)%Z eqn:E; to_prop; lia|by right].
      rewrite Nat2Z.inj_add. destruct (Z.ltb_spec (used l t key) limit); simpl; lia.
    - simpl. rewrite IH; [|congruence|destruct (_ <? _)%Z eqn:E; to_prop; lia|by right].
      assert ((used l t key = 0)%Z \/ count (is_call t key) calls = 0) as [->|H0]; [|lia|].
      { unfold used. destruct (Z.eqb_spec (unixSecond (window_of l key)) t) as [Ht|]; [|by left].
        destruct Hw as [?|Hw]; [by left|]. right. apply Forall_cons in Hw as [Hw _]. simpl in Hw.
        assert (count (is_call t key) calls = 0) as ->; [|done]. apply count_zero.
        intros [n' k'] Hin. rewrite Forall_forall in Hnow. specialize (Hnow _ Hin). simpl in Hnow.
        unfold is_call. simpl. destruct (Z.eqb_spec n' t); [lia|done]. }
      rewrite H0. unfold used. destruct (_ =? _)%Z; lia. }
  assert (window_of (newFixedWindowRateLimiter limit) key = {| unixSecond := 0; hit_count := 0 |})
    as Hw by reflexivity.
  rewrite Hgen; rewrite ?Hw; simpl; [|done|lia|by left].
  unfold used. rewrite Hw. cbn [unixSecond hit_count]. destruct (0 =? t)%Z; lia.
Qed.

(** ** The failure threshold *)

(** Outstanding requests whose result may still clear the host's failures. *)
Definition may_report (host : string) (g : grant) : bool :=
  negb (g_released g) && bool_decide (normalizePolicyToken (Host (g_input g)) = host).

(** The failure threshold is final. Once a host has reached the endpoint
    failure limit and no request to it is outstanding, no run of the engine
    ever grants a request to it again. *)
Theorem webhook_failure_lockout c host s s' :
  (0 < EndpointFailureLimit c)%Z -> host <> "" ->
  config (fst s) = c ->
  (EndpointFailureLimit c <= default 0 (hostFailures (fst s) !! host))%Z ->
  count (may_report host) (snd s) = 0 ->
  rtc policy_step s s' ->
  (EndpointFailureLimit c <= default 0 (hostFailures (fst s') !! host))%Z
  /\ count (may_report host) (snd s') = 0
  /\ forall ctxErr now input d e',
       normalizePolicyToken (Host input) = host ->
       EvaluateWebhookPolicy ctxErr now input (fst s') = (d, e') -> granted d input = [].
Proof.
  intros Hlim Hhost Hc Hf Hn Hrun.
  assert (config (fst s') = c /\ (EndpointFailureLimit c <= default 0 (hostFailures (fst s') !! host))%Z
    /\ count (may_report host) (snd s') = 0) as (Hc' & Hf' & Hn').
  { induction Hrun as [|s s1 s2 Hstep _ IH]; [done|].
    apply IH; clear IH; destruct Hstep as [e gs cx now input d e' He|e gs k g r Hk]; simpl in *.
    - apply EvaluateWebhookPolicy_spec in He as (? & _). congruence.
    - unfold release. by destruct (g_released g).
    - apply EvaluateWebhookPolicy_spec in He as (_ & -> & _). done.
    - rewrite count_zero in Hn. specialize (Hn g (list_elem_of_lookup_2 _ _ _ Hk)).
      unfold may_report, release in *. destruct (g_released g); [done|]. simpl in Hn. to_prop.
      unfold recordResult. simpl. destruct (_ || result_Replay r); [done|].
      destruct (_ || _); [by rewrite lookup_insert_ne|]. destruct (_ && _); [|done].
      by rewrite lookup_delete_ne.
    - apply EvaluateWebhookPolicy_spec in He as (_ & _ & _ & Hg & _).
      rewrite count_app, Hn, count_granted. destruct d; try done.
      unfold may_report. simpl. case_bool_decide as Eh; [|done]. subst. exfalso.
      assert (default 0%Z (hostFailures e !! normalizePolicyToken (Host input))
        < EndpointFailureLimit (config e))%Z by (apply Hg; done). lia.
    - pose proof (count_insert (may_report host) gs k g (set_released g) Hk) as H.
      assert (may_report host (set_released g) = false) as E by reflexivity. rewrite E in H. lia. }
  split; [done|]. split; [done|].
  intros cx now input d e' <- (_ & _ & _ & Hg & _)%EvaluateWebhookPolicy_spec.
  destruct (granted d input); [done|]. exfalso. rewrite Hc' in Hg.
  specialize (Hg ltac:(done) Hlim Hhost). lia.
Qed.

(** ** A concrete engine: one request at a time per agent, two per second and tenant *)

Definition demo_config : WebhookPolicyConfig :=
  {| TenantRequestsPerSecond := 2; AgentRequestsPerSecond := 0; AgentConcurrentExecutions := 1;
     CorridorRequestsPerSecond := [("eu", 5%Z)]; OpenCircuitHosts := ["bad.example"];
     HalfOpenCircuitHosts := ["Shaky.example."]; HalfOpenProbeLimit := 1;
     MaxRetryAttempts := 3; EndpointFailureLimit := 1 |}.

Definition demo_input (host : string) : WebhookPolicyInput :=
  {| TenantID := uid 1; AgentID := uid 2; Corridor := "EU"; Host := host; RetryMax := 0 |}.

Definition demo_eval (host : string) (e : WebhookPolicyEngine) :=
  EvaluateWebhookPolicy false (7, 7, 7)%Z (demo_input host) e.

Definition demo_engine : WebhookPolicyEngine := NewWebhookPolicyEngine demo_config.
Definition demo_engine1 : WebhookPolicyEngine := snd (demo_eval "shaky.example" demo_engine).
Definition demo_grants : list grant := granted (Allowed true) (demo_input "shaky.example").

Lemma demo_policy_run : rtc policy_step (demo_engine, []) (demo_engine1, demo_grants).
Proof.
  eapply rtc_l; [|apply rtc_refl].
  apply (policy_evaluate demo_engine [] false (7, 7, 7)%Z (demo_input "shaky.example") (Allowed true)).
  vm_compute. reflexivity.
Qed.

Lemma webhook_concurrency_bounded_witness :
  Z.of_nat (count (holds_slot (uuid_string (uid 2))) demo_grants)
    = default 0%Z (agentConcurrent demo_engine1 !! uuid_string (uid 2))
  /\ fst (demo_eval "ok.example" demo_engine1) = Denied "agent concurrency limit exceeded".
Proof.
  split; [|vm_compute; reflexivity].
  exact (proj1 (webhook_concurrency_bounded demo_config demo_engine1 demo_grants (uid 2) demo_policy_run)).
Defined.

Lemma webhook_circuit_bounds_grants_witness :
  (Z.of_nat (count (probes_circuit "shaky.example") demo_grants) <= 1)%Z
  /\ fst (demo_eval "bad.example" demo_engine) = Denied "circuit breaker open".
Proof.
  split; [|vm_compute; reflexivity].
  apply (webhook_circuit_bounds_grants demo_config demo_engine1 demo_grants "shaky.example" demo_policy_run).
  vm_compute. reflexivity.
Defined.

Lemma rate_limit_exact_witness :
  Z.of_nat (count (is_grant 5 "t")
    (run_limiter (newFixedWindowRateLimiter 2) [(4%Z, "t"); (5%Z, "t"); (5%Z, "u"); (5%Z, "t"); (5%Z, "t")]))
  = 2%Z.
Proof.
  rewrite (rate_limit_exact 2 _ 5 "t"); [vm_compute; reflexivity | lia | discriminate | |].
  - repeat constructor; discriminate.
  - repeat constructor; simpl; lia.
Defined.

Definition demo_failed : WebhookPolicyEngine * list grant :=
  (release {| StatusCode := 503; result_Err := false; result_Replay := false |}
     {| g_input := demo_input "shaky.example"; g_slot := true; g_released := false |} demo_engine1,
   set_released <$> demo_grants).

Lemma webhook_failure_lockout_witness :
  granted (fst (demo_eval "shaky.example" (fst demo_failed))) (demo_input "shaky.example") = [].
Proof.
  destruct (webhook_failure_lockout demo_config "shaky.example" demo_failed demo_failed)
    as (_ & _ & H).
  - vm_compute. reflexivity.
  - discriminate.
  - vm_compute. reflexivity.
  - vm_compute. discriminate.
  - vm_compute. reflexivity.
  - apply rtc_refl.
  - eapply (H false (7, 7, 7)%Z (demo_input "shaky.example")); [vm_compute; reflexivity|].
    apply surjective_pairing.
Defined.
