(* ===== verification/Preflight.v ===== *)
(** * Deployment preflight ([internal/deploymentpreflight/evaluate.go])

    The checks that a frozen deployment plan passes before its tasks are
    created, and the status of the run that stores them
    ([internal/db/deployment_preflight.go]). Semantic versions are parsed and
    compared by a library outside the repository: a class parameter. *)
From S2P Require Import Prelude GoStrings Uuid.
Open Scope list_scope.

(** [semver.StrictNewVersion] and [Version.LessThan]. *)
Class StrictSemver := {
  semver_version : Type;
  StrictNewVersion : string -> option semver_version;
  LessThan : semver_version -> semver_version -> bool;
}.

(** ** Data *)

(** The values of the [map[string]any] of expected and actual facts. *)
Inductive fact := FStr (s : string) | FBool (b : bool) | FInt (n : Z) | FStrs (l : list string).
Abbreviation facts := (gmap string fact) (only parsing).

Inductive CheckStatus := CheckPassed | CheckFailed.
#[export] Instance CheckStatus_eq_dec : EqDecision CheckStatus.
Proof. solve_decision. Defined.

Record StateKey := {
  key_DeploymentTargetID : uuid;
  key_ApplicationID : uuid;
  key_Component : string;
}.

#[export] Instance StateKey_eq_dec : EqDecision StateKey.
Proof. solve_decision. Defined.
#[export] Instance StateKey_countable : Countable StateKey.
Proof.
  refine (inj_countable' (λ k, (key_DeploymentTargetID k, key_ApplicationID k, key_Component k))
    (λ '(a, b, c), {| key_DeploymentTargetID := a; key_ApplicationID := b; key_Component := c |}) _).
  by intros [].
Defined.

(** [types.DeploymentPlanTarget] *)
Record PlanTarget := {
  pt_ID : uuid;
  pt_DeploymentTargetID : uuid;
  pt_Type : string;
  pt_Platform : string;
  pt_CustomerOrganizationID : option uuid;
}.

Record PlanTargetComponent := {
  pc_DeploymentPlanTargetID : uuid;
  pc_DeploymentTargetID : uuid;
  pc_Component : string;
  pc_Version : string;
  pc_Platform : string;
  pc_Contracts : list string;
  pc_ExpectedStateVersion : Z;
  pc_ExpectedStateChecksum : string;
}.

Record Requirement := {
  rq_Component : string;
  rq_Contract : string;
  rq_MinimumVersion : string;
}.

(** The part of [types.ReleaseContract] that the checks read. *)
Record ReleaseContract := {
  rc_Schema : string;
  rc_Requires : list Requirement;
  rc_MigrationRequired : bool;
  rc_ConfigChangeRequired : bool;
}.

Record Plan := {
  plan_ApplicationID : uuid;
  plan_CanonicalChecksum : string;
  plan_Targets : list PlanTarget;
  plan_TargetComponents : list PlanTargetComponent;
  plan_ReleaseContract : option ReleaseContract;
}.

(** The part of [types.DeploymentTarget] and [types.TargetComponentState]. *)
Record LiveTarget := {
  lt_Type : string;
  lt_Platform : string;
  lt_CustomerOrganizationID : option uuid;
}.

Record ComponentState := {
  cs_StateVersion : Z;
  cs_StateChecksum : string;
  cs_Version : string;
  cs_Contracts : list string;
}.

(** The zero values that a failed map lookup yields. *)
Definition no_target : PlanTarget :=
  {| pt_ID := Nil; pt_DeploymentTargetID := Nil; pt_Type := ""; pt_Platform := "";
     pt_CustomerOrganizationID := None |}.
Definition no_live_target : LiveTarget :=
  {| lt_Type := ""; lt_Platform := ""; lt_CustomerOrganizationID := None |}.
Definition no_state : ComponentState :=
  {| cs_StateVersion := 0; cs_StateChecksum := ""; cs_Version := ""; cs_Contracts := [] |}.

Record Input := {
  in_Plan : Plan;
  PlanPayloadChecksumValid : bool;
  ReleaseEligible : bool;
  ReleaseEligibilityMessage : string;
  ReleaseContractValid : bool;
  ReleaseContractMessage : string;
  CurrentTargets : gmap uuid LiveTarget;
  CurrentStates : gmap StateKey ComponentState;
}.

Record Check := {
  DeploymentPlanTargetID : uuid;
  DeploymentTargetID : uuid;
  Component : string;
  CheckKey : string;
  Status : CheckStatus;
  Expected : facts;
  Actual : facts;
  Message : string;
  SortOrder : Z;
}.

(** ** Helpers *)

Definition uuidPointerString (value : option uuid) : string :=
  match value with None => "" | Some u => uuid_string u end.

Definition uuidPointersEqual (left right : option uuid) : bool :=
  match left, right with
  | Some l, Some r => bool_decide (l = r)
  | None, None => true
  | _, _ => false
  end.

Definition statusFor (passed : bool) : CheckStatus := if passed then CheckPassed else CheckFailed.

Definition versionAtLeast `{StrictSemver} (actual minimum : string) : bool :=
  match StrictNewVersion actual with
  | None => false
  | Some a => match StrictNewVersion minimum with
              | None => false
              | Some m => negb (LessThan a m)
              end
  end.

(** A check before [add] numbers it. *)
Definition requirementCheck (target : PlanTarget) (component key : string) (status : CheckStatus)
    (expected actual : facts) (message : string) : Check :=
  {| DeploymentPlanTargetID := pt_ID target; DeploymentTargetID := pt_DeploymentTargetID target;
     Component := component; CheckKey := key; Status := status; Expected := expected;
     Actual := actual; Message := message; SortOrder := 0 |}.

Definition componentCheck (target : PlanTarget) (component : PlanTargetComponent) :
    string -> CheckStatus -> facts -> facts -> string -> Check :=
  requirementCheck target (pc_Component component).

Definition targetCheck (target : PlanTarget) :
    string -> CheckStatus -> facts -> facts -> string -> Check :=
  requirementCheck target "".

Definition set_sort_order (n : Z) (c : Check) : Check :=
  {| DeploymentPlanTargetID := DeploymentPlanTargetID c; DeploymentTargetID := DeploymentTargetID c;
     Component := Component c; CheckKey := CheckKey c; Status := Status c; Expected := Expected c;
     Actual := Actual c; Message := Message c; SortOrder := n |}.

(** The closure [add]. *)
Definition add (checks : list Check) (check : Check) : list Check :=
  checks ++ [set_sort_order ((Z.of_nat (length checks) + 1) * 10) check].

(** ** The checks *)

(** The conditions, named as the local variables of [Evaluate]. *)
Definition bindingMatches (i : Input) (target : PlanTarget) : bool :=
  match CurrentTargets i !! pt_DeploymentTargetID target with
  | None => false
  | Some live => bool_decide (lt_Type live = pt_Type target)
      && uuidPointersEqual (lt_CustomerOrganizationID live) (pt_CustomerOrganizationID target)
  end.

Definition targetsByPlanTargetID (i : Input) : gmap uuid PlanTarget :=
  foldl (λ m t, <[pt_ID t := t]> m) ∅ (plan_Targets (in_Plan i)).

Definition component_key (i : Input) (c : PlanTargetComponent) : StateKey :=
  {| key_DeploymentTargetID := pc_DeploymentTargetID c;
     key_ApplicationID := plan_ApplicationID (in_Plan i);
     key_Component := pc_Component c |}.

Definition desiredByTargetAndComponent (i : Input) : gmap StateKey PlanTargetComponent :=
  foldl (λ m c, <[component_key i c := c]> m) ∅ (plan_TargetComponents (in_Plan i)).

Definition component_target (i : Input) (c : PlanTargetComponent) : PlanTarget :=
  default no_target (targetsByPlanTargetID i !! pc_DeploymentPlanTargetID c).

Definition platformMatches (i : Input) (c : PlanTargetComponent) : bool :=
  match CurrentTargets i !! pc_DeploymentTargetID c with
  | None => false
  | Some live => bool_decide (lt_Platform live = pt_Platform (component_target i c))
                 && bool_decide (lt_Platform live = pc_Platform c)
  end.

Definition stateMatches (i : Input) (c : PlanTargetComponent) : bool :=
  let current := CurrentStates i !! component_key i c in
  if (pc_ExpectedStateVersion c =? 0)%Z then bool_decide (current = None)
  else match current with
  | None => false
  | Some s => (cs_StateVersion s =? pc_ExpectedStateVersion c)%Z
              && bool_decide (cs_StateChecksum s = pc_ExpectedStateChecksum c)
  end.

(** The first loop: the checks of one plan target. *)
Definition target_checks (i : Input) (target : PlanTarget) : list Check :=
  let live := default no_live_target (CurrentTargets i !! pt_DeploymentTargetID target) in
  let found := bool_decide (is_Some (CurrentTargets i !! pt_DeploymentTargetID target)) in
  let valid := PlanPayloadChecksumValid i in
  [targetCheck target "plan_checksum" (statusFor valid)
     (<["checksum" := FStr (plan_CanonicalChecksum (in_Plan i))]> ∅)
     (<["valid" := FBool valid]> ∅)
     (if valid then "plan canonical payload matches its checksum"
      else "plan canonical payload no longer matches its checksum");
   targetCheck target "target_binding" (statusFor (bindingMatches i target))
     (<["type" := FStr (pt_Type target)]>
       (<["customerOrganizationId" := FStr (uuidPointerString (pt_CustomerOrganizationID target))]> ∅))
     (<["found" := FBool found]> (<["type" := FStr (lt_Type live)]>
       (<["customerOrganizationId" := FStr (uuidPointerString (lt_CustomerOrganizationID live))]> ∅)))
     (if bindingMatches i target then "target type and customer binding match the frozen plan"
      else "target type or customer binding changed after the plan was created");
   targetCheck target "release_eligibility" (statusFor (ReleaseEligible i))
     (<["eligible" := FBool true]> ∅) (<["eligible" := FBool (ReleaseEligible i)]> ∅)
     (if bool_decide (ReleaseEligibilityMessage i = "") then
        if ReleaseEligible i
        then "release remains eligible for the selected environment and channel lifecycle"
        else "release is not eligible for the selected environment and channel lifecycle"
      else ReleaseEligibilityMessage i)] ++
  match plan_ReleaseContract (in_Plan i) with
  | None => []
  | Some contract =>
      [targetCheck target "release_contract" (statusFor (ReleaseContractValid i))
         (<["schema" := FStr "distr.release-contract/v1"]> (<["valid" := FBool true]> ∅))
         (<["schema" := FStr (rc_Schema contract)]>
           (<["valid" := FBool (ReleaseContractValid i)]> ∅))
         (if bool_decide (ReleaseContractMessage i = "") then
            if ReleaseContractValid i
            then "release contract matches the published immutable components and config"
            else "release contract does not match the published immutable components and config"
          else ReleaseContractMessage i);
       targetCheck target "release_operations" CheckPassed
         (<["recorded" := FBool true]> ∅)
         (<["migrationRequired" := FBool (rc_MigrationRequired contract)]>
           (<["configChangeRequired" := FBool (rc_ConfigChangeRequired contract)]> ∅))
         "migration and configuration-change flags are frozen in the plan"]
  end.

(** The second loop: the checks of one target component. *)
Definition component_checks (i : Input) (c : PlanTargetComponent) : list Check :=
  let target := component_target i c in
  let live := default no_live_target (CurrentTargets i !! pc_DeploymentTargetID c) in
  let found := bool_decide (is_Some (CurrentTargets i !! pc_DeploymentTargetID c)) in
  let current := default no_state (CurrentStates i !! component_key i c) in
  let stateFound := bool_decide (is_Some (CurrentStates i !! component_key i c)) in
  [componentCheck target c ("target_platform:" +:+ pc_Component c) (statusFor (platformMatches i c))
     (<["platform" := FStr (pc_Platform c)]> ∅)
     (<["found" := FBool found]> (<["platform" := FStr (lt_Platform live)]> ∅))
     (if platformMatches i c then "target platform matches " +:+ pc_Platform c
      else "target platform changed or does not support " +:+ pc_Platform c);
   componentCheck target c ("target_state:" +:+ pc_Component c) (statusFor (stateMatches i c))
     (<["stateVersion" := FInt (pc_ExpectedStateVersion c)]>
       (<["stateChecksum" := FStr (pc_ExpectedStateChecksum c)]> ∅))
     (<["found" := FBool stateFound]> (<["stateVersion" := FInt (cs_StateVersion current)]>
       (<["stateChecksum" := FStr (cs_StateChecksum current)]> ∅)))
     (if stateMatches i c then "target component state matches the frozen plan snapshot"
      else "target component state changed after the plan was created")].

(** Who provides a required component on a target: the plan itself, or the
    observed state. *)
Definition provider (i : Input) (target : PlanTarget) (component : string)
    : option (string * list string * string) :=
  let key := {| key_DeploymentTargetID := pt_DeploymentTargetID target;
                key_ApplicationID := plan_ApplicationID (in_Plan i);
                key_Component := component |} in
  match desiredByTargetAndComponent i !! key with
  | Some desired => Some (pc_Version desired, pc_Contracts desired, "candidate")
  | None =>
      match CurrentStates i !! key with
      | Some current => Some (cs_Version current, cs_Contracts current, "observed")
      | None => None
      end
  end.

(** The last loop: the checks of one requirement on one target. *)
Definition requirement_checks `{StrictSemver} (i : Input) (target : PlanTarget) (r : Requirement)
    : list Check :=
  let found := bool_decide (is_Some (provider i target (rq_Component r))) in
  let '(version, contracts, source) :=
    default ("", [], "observed") (provider i target (rq_Component r)) in
  (if bool_decide (rq_MinimumVersion r = "") then [] else
     let matches := found && versionAtLeast version (rq_MinimumVersion r) in
     [requirementCheck target (rq_Component r) ("dependency_version:" +:+ rq_Component r)
        (statusFor matches)
        (<["minimumVersion" := FStr (rq_MinimumVersion r)]> ∅)
        (<["found" := FBool found]> (<["version" := FStr version]> (<["source" := FStr source]> ∅)))
        (rq_Component r +:+ (if matches then " version satisfies >= "
          else " version does not satisfy >= ") +:+ rq_MinimumVersion r)]) ++
  (if bool_decide (rq_Contract r = "") then [] else
     let matches := found && contains contracts (rq_Contract r) in
     [requirementCheck target (rq_Component r) ("dependency_contract:" +:+ rq_Component r)
        (statusFor matches)
        (<["contract" := FStr (rq_Contract r)]> ∅)
        (<["found" := FBool found]> (<["contracts" := FStrs contracts]> (<["source" := FStr source]> ∅)))
        (rq_Component r +:+ (if matches then " provides contract "
          else " does not provide contract ") +:+ rq_Contract r)]).

Definition Evaluate `{StrictSemver} (i : Input) : list Check :=
  let checks := foldl (λ checks t, foldl add checks (target_checks i t)) [] (plan_Targets (in_Plan i)) in
  let checks := foldl (λ checks c, foldl add checks (component_checks i c)) checks
                  (plan_TargetComponents (in_Plan i)) in
  match plan_ReleaseContract (in_Plan i) with
  | None => checks
  | Some contract =>
      foldl (λ checks t,
        foldl (λ checks r, foldl add checks (requirement_checks i t r)) checks (rc_Requires contract))
        checks (plan_Targets (in_Plan i))
  end.

(** The plan of one task: its target and the components of that target
    ([evaluateAndPersistDeploymentPreflightForTask]); [None] is the error that
    the target is not in the frozen plan. *)
Definition scope_for_task (plan : Plan) (planTargetID targetID : uuid) : option Plan :=
  target ← List.find (λ t, bool_decide (pt_ID t = planTargetID)
                      && bool_decide (pt_DeploymentTargetID t = targetID)) (plan_Targets plan);
  Some {| plan_ApplicationID := plan_ApplicationID plan;
          plan_CanonicalChecksum := plan_CanonicalChecksum plan;
          plan_Targets := [target];
          plan_TargetComponents :=
            List.filter (λ c, bool_decide (pc_DeploymentPlanTargetID c = planTargetID))
              (plan_TargetComponents plan);
          plan_ReleaseContract := plan_ReleaseContract plan |}.

Definition with_plan (plan : Plan) (i : Input) : Input :=
  {| in_Plan := plan; PlanPayloadChecksumValid := PlanPayloadChecksumValid i;
     ReleaseEligible := ReleaseEligible i; ReleaseEligibilityMessage := ReleaseEligibilityMessage i;
     ReleaseContractValid := ReleaseContractValid i;
     ReleaseContractMessage := ReleaseContractMessage i; CurrentTargets := CurrentTargets i;
     CurrentStates := CurrentStates i |}.

(** The status of the run: the loop of [evaluateAndPersistDeploymentPreflightScope]. *)
Definition run_status (checks : list Check) : CheckStatus :=
  if existsb (λ c, bool_decide (Status c = CheckFailed)) checks then CheckFailed else CheckPassed.

(** ** The list of checks *)

Section preflight.
Context `{StrictSemver}.

(** The checks before they are numbered. *)
Definition raw_checks (i : Input) : list Check :=
  (plan_Targets (in_Plan i) ≫= target_checks i)
  ++ (plan_TargetComponents (in_Plan i) ≫= component_checks i)
  ++ match plan_ReleaseContract (in_Plan i) with
     | None => []
     | Some contract =>
         plan_Targets (in_Plan i) ≫= λ t, rc_Requires contract ≫= requirement_checks i t
     end.

Lemma foldl_bind {A B C} (f : C -> B -> C) (g : A -> list B) l acc :
  foldl (λ acc x, foldl f acc (g x)) acc l = foldl f acc (l ≫= g).
Proof. revert acc. induction l as [|x l IH]; intros acc; [done|]. simpl. by rewrite IH, foldl_app. Qed.

Lemma foldl_ext {A B} (f g : A -> B -> A) l acc :
  (forall a x, f a x = g a x) -> foldl f acc l = foldl g acc l.
Proof. intros Hfg. revert acc. induction l as [|x l IH]; intros acc; [done|]. simpl. by rewrite Hfg. Qed.

Lemma Evaluate_raw i : Evaluate i = foldl add [] (raw_checks i).
Proof.
  unfold Evaluate, raw_checks. rewrite !foldl_bind, <- foldl_app.
  destruct (plan_ReleaseContract (in_Plan i)) as [contract|]; [|by rewrite app_nil_r].
  rewrite app_assoc, (foldl_app _ (_ ++ _)), <- foldl_bind.
  apply foldl_ext. intros acc t. by rewrite foldl_bind.
Qed.

Lemma foldl_add acc l :
  foldl add acc l
  = acc ++ imap (λ k c, set_sort_order ((Z.of_nat (length acc + k) + 1) * 10) c) l.
Proof.
  revert acc. induction l as [|c l IH]; intros acc; simpl; [by rewrite app_nil_r|].
  rewrite IH. unfold add. rewrite <- app_assoc. f_equal. simpl. rewrite Nat.add_0_r. f_equal.
  apply imap_ext. intros k x _. rewrite length_app. simpl. by rewrite <- Nat.add_assoc.
Qed.

(** The report is complete and in order. The reported checks are the checks
    of every target, then of every component, then of every requirement on
    every target, in the order of the plan, numbered 10, 20, 30 and so on;
    every target and every component has its checks, passed or not. *)
Theorem preflight_report_order i :
  Evaluate i = imap (λ k c, set_sort_order (10 * (Z.of_nat k + 1)) c) (raw_checks i)
  /\ (3 * length (plan_Targets (in_Plan i)) + 2 * length (plan_TargetComponents (in_Plan i))
      <= length (Evaluate i))
  /\ (plan_ReleaseContract (in_Plan i) = None ->
      length (Evaluate i)
      = 3 * length (plan_Targets (in_Plan i)) + 2 * length (plan_TargetComponents (in_Plan i))).
Proof.
  assert (Evaluate i = imap (λ k c, set_sort_order (10 * (Z.of_nat k + 1)) c) (raw_checks i)) as E.
  { rewrite Evaluate_raw, foldl_add. apply imap_ext. intros k x _. simpl. f_equal. lia. }
  split; [exact E|]. rewrite E, length_imap. unfold raw_checks. rewrite !length_app.
  assert (forall l, 3 * length l <= length (l ≫= target_checks i)) as Ht.
  { induction l as [|t l IH]; [done|]. cbn [mbind list_bind]. rewrite length_app.
    assert (3 <= length (target_checks i t)) by (unfold target_checks; rewrite length_app; simpl; lia).
    simpl in *. lia. }
  assert (forall l, length (l ≫= component_checks i) = 2 * length l) as Hc.
  { induction l as [|t l IH]; [done|]. cbn [mbind list_bind]. rewrite length_app. simpl in *. lia. }
  rewrite Hc. split; [specialize (Ht (plan_Targets (in_Plan i))); lia|]. intros Hn. rewrite Hn.
  assert (forall l, length (l ≫= target_checks i) = 3 * length l) as ->; [|simpl; lia].
  induction l as [|t l IH]; [done|]. cbn [mbind list_bind]. rewrite length_app.
  unfold target_checks at 1. rewrite Hn. simpl in *. lia.
Qed.

(** ** When the preflight passes *)

Lemma run_status_passed checks :
  run_status checks = CheckPassed <-> Forall (λ c, Status c = CheckPassed) checks.
Proof.
  unfold run_status. induction checks as [|c l IH]; simpl; [by split|].
  rewrite Forall_cons, <- IH. destruct (Status c); simpl; naive_solver.
Qed.

Lemma run_status_numbered l : Forall (λ c, Status c = CheckPassed) (foldl add [] l)
  <-> Forall (λ c, Status c = CheckPassed) l.
Proof.
  rewrite foldl_add. simpl. rewrite !Forall_lookup. split.
  - intros Hf k x Hx. specialize (Hf k). rewrite list_lookup_imap, Hx in Hf. by apply (Hf _ eq_refl).
  - intros Hf k x. rewrite list_lookup_imap. destruct (l !! k) eqn:E; [|done]. intros [= <-].
    exact (Hf k _ E).
Qed.

Lemma Forall_bind_iff {A B} (P : B -> Prop) (f : A -> list B) l :
  Forall P (l ≫= f) <-> Forall (λ x, Forall P (f x)) l.
Proof. induction l as [|x l IH]; simpl; [by split|]. by rewrite Forall_app, Forall_cons, IH. Qed.

Lemma statusFor_passed b : statusFor b = CheckPassed <-> b = true.
Proof. by destruct b. Qed.

(** The specification of one target, one component, one requirement. *)
Definition target_ok (i : Input) (t : PlanTarget) : Prop :=
  PlanPayloadChecksumValid i = true
  /\ (exists live, CurrentTargets i !! pt_DeploymentTargetID t = Some live
        /\ lt_Type live = pt_Type t
        /\ lt_CustomerOrganizationID live = pt_CustomerOrganizationID t)
  /\ ReleaseEligible i = true
  /\ (plan_ReleaseContract (in_Plan i) <> None -> ReleaseContractValid i = true).

Definition component_ok (i : Input) (c : PlanTargetComponent) : Prop :=
  (exists live, CurrentTargets i !! pc_DeploymentTargetID c = Some live
     /\ lt_Platform live = pc_Platform c
     /\ lt_Platform live = pt_Platform (component_target i c))
  /\ (pc_ExpectedStateVersion c = 0%Z -> CurrentStates i !! component_key i c = None)
  /\ (pc_ExpectedStateVersion c <> 0%Z -> exists s, CurrentStates i !! component_key i c = Some s
        /\ cs_StateVersion s = pc_ExpectedStateVersion c
        /\ cs_StateChecksum s = pc_ExpectedStateChecksum c).

Definition requirement_ok (i : Input) (t : PlanTarget) (r : Requirement) : Prop :=
  (rq_MinimumVersion r <> "" -> exists version contracts source,
     provider i t (rq_Component r) = Some (version, contracts, source)
     /\ versionAtLeast version (rq_MinimumVersion r) = true)
  /\ (rq_Contract r <> "" -> exists version contracts source,
     provider i t (rq_Component r) = Some (version, contracts, source) /\ rq_Contract r ∈ contracts).

Lemma target_checks_ok i t :
  Forall (λ c, Status c = CheckPassed) (target_checks i t) <-> target_ok i t.
Proof.
  assert (bindingMatches i t = true <-> exists live,
    CurrentTargets i !! pt_DeploymentTargetID t = Some live /\ lt_Type live = pt_Type t
    /\ lt_CustomerOrganizationID live = pt_CustomerOrganizationID t) as Hb.
  { unfold bindingMatches. destruct (CurrentTargets i !! _) as [live|]; [|naive_solver].
    rewrite andb_true_iff, bool_decide_eq_true.
    assert (uuidPointersEqual (lt_CustomerOrganizationID live) (pt_CustomerOrganizationID t) = true
      <-> lt_CustomerOrganizationID live = pt_CustomerOrganizationID t) as ->.
    { unfold uuidPointersEqual. destruct (lt_CustomerOrganizationID live), (pt_CustomerOrganizationID t);
        rewrite ?bool_decide_eq_true; naive_solver. }
    naive_solver. }
  unfold target_checks, target_ok. rewrite Forall_app, !Forall_cons, <- Hb. simpl.
  rewrite !statusFor_passed.
  destruct (plan_ReleaseContract (in_Plan i)); rewrite ?Forall_cons; simpl; rewrite ?statusFor_passed;
    intuition (auto; congruence).
Qed.

Lemma component_checks_ok i c :
  Forall (λ c, Status c = CheckPassed) (component_checks i c) <-> component_ok i c.
Proof.
  unfold component_checks, component_ok. rewrite !Forall_cons. simpl. rewrite !statusFor_passed.
  unfold platformMatches, stateMatches.
  destruct (CurrentTargets i !! _) as [live|].
  - rewrite andb_true_iff, !bool_decide_eq_true.
    destruct (Z.eqb_spec (pc_ExpectedStateVersion c) 0) as [E|E];
      destruct (CurrentStates i !! _) as [s|]; rewrite ?bool_decide_eq_true, ?andb_true_iff, ?Z.eqb_eq;
      rewrite ?bool_decide_eq_true; naive_solver.
  - naive_solver.
Qed.

Lemma requirement_checks_ok i t r :
  Forall (λ c, Status c = CheckPassed) (requirement_checks i t r) <-> requirement_ok i t r.
Proof.
  unfold requirement_checks, requirement_ok.
  destruct (provider i t (rq_Component r)) as [[[v cs] src]|]; simpl;
    rewrite Forall_app; do 2 case_bool_decide; rewrite ?Forall_cons; simpl;
    rewrite ?statusFor_passed, ?contains_true; naive_solver.
Qed.

(** C19: a plan passes its preflight exactly when its payload matches its
    checksum, every target still has its type and customer, the release is
    eligible and its contract valid, every component runs on the planned
    platform with the frozen state, and every requirement is provided by the
    plan or, failing that, by the observed state, in a sufficient version and
    with the required contract. *)
Theorem preflight_passes_iff i :
  run_status (Evaluate i) = CheckPassed <->
  (forall t, t ∈ plan_Targets (in_Plan i) -> target_ok i t)
  /\ (forall c, c ∈ plan_TargetComponents (in_Plan i) -> component_ok i c)
  /\ (forall contract t r, plan_ReleaseContract (in_Plan i) = Some contract ->
        t ∈ plan_Targets (in_Plan i) -> r ∈ rc_Requires contract -> requirement_ok i t r).
Proof.
  rewrite Evaluate_raw, run_status_passed, run_status_numbered. unfold raw_checks.
  rewrite !Forall_app, !Forall_bind_iff.
  setoid_rewrite target_checks_ok. setoid_rewrite component_checks_ok.
  destruct (plan_ReleaseContract (in_Plan i)) as [contract|].
  - rewrite Forall_bind_iff. setoid_rewrite Forall_bind_iff. setoid_rewrite requirement_checks_ok.
    repeat setoid_rewrite Forall_forall. naive_solver.
  - rewrite Forall_nil, !Forall_forall. naive_solver.
Qed.

(** ** The preflight of one task *)

(** The last element of a key wins. *)
Lemma foldl_insert_lookup {K A} `{Countable K} (key : A -> K) (l : list A) (m : gmap K A) k :
  foldl (λ m x, <[key x := x]> m) m l !! k
  = match last (List.filter (λ x, bool_decide (key x = k)) l) with Some x => Some x | None => m !! k end.
Proof.
  revert m. induction l as [|x l IH]; intros m; [done|]. simpl foldl. rewrite IH. simpl List.filter.
  case_bool_decide as E.
  - rewrite last_cons. destruct (last _); [done|]. subst. by rewrite lookup_insert_eq.
  - destruct (last _); [done|]. by rewrite lookup_insert_ne.
Qed.

Lemma filter_filter {A} (p q : A -> bool) l :
  (forall x, x ∈ l -> p x = true -> q x = true) -> List.filter p (List.filter q l) = List.filter p l.
Proof.
  induction l as [|x l IH]; intros Hpq; [done|]. simpl.
  assert (List.filter p (List.filter q l) = List.filter p l) as <-
    by (apply IH; intros y Hy; apply Hpq; by right).
  destruct (q x) eqn:Eq; simpl; [done|].
  destruct (p x) eqn:Ep; [|done]. rewrite (Hpq x) in Eq; [done|by left|done].
Qed.

Lemma filter_bind {A B} (p : B -> bool) (q : A -> bool) (f g : A -> list B) l :
  (forall x, x ∈ l -> q x = true -> g x = f x /\ Forall (λ y, p y = true) (f x)) ->
  (forall x, x ∈ l -> q x = false -> Forall (λ y, p y = false) (f x)) ->
  List.filter p (l ≫= f) = (List.filter q l ≫= g).
Proof.
  assert (forall l, Forall (λ y, p y = true) l -> List.filter p l = l) as Hall
    by (induction 1 as [|y l' Hy _ IHl]; [done|]; simpl; by rewrite Hy, IHl).
  assert (forall l, Forall (λ y, p y = false) l -> List.filter p l = []) as Hnone
    by (induction 1 as [|y l' Hy _ IHl]; [done|]; simpl; by rewrite Hy, IHl).
  induction l as [|x l IH]; intros H1 H2; [done|]. cbn [mbind list_bind]. rewrite List.filter_app.
  fold (mbind (M := list) f l). simpl List.filter.
  rewrite IH by (intros y Hy; first [apply H1 | apply H2]; by right).
  destruct (q x) eqn:E.
  - destruct (H1 x) as [Hg Hf]; [by left|done|]. cbn [mbind list_bind].
    by rewrite Hg, Hall.
  - by rewrite Hnone by (apply H2; [by left|done]).
Qed.

(** A frozen plan: plan targets and deployment targets are distinct, and every
    component belongs to a target of the plan. *)
Record frozen (plan : Plan) : Prop := {
  fr_ids : NoDup (pt_ID <$> plan_Targets plan);
  fr_targets : NoDup (pt_DeploymentTargetID <$> plan_Targets plan);
  fr_components c : c ∈ plan_TargetComponents plan -> exists t, t ∈ plan_Targets plan
    /\ pt_ID t = pc_DeploymentPlanTargetID c /\ pt_DeploymentTargetID t = pc_DeploymentTargetID c;
}.

Lemma NoDup_fmap_eq {A B} (f : A -> B) l x y :
  NoDup (f <$> l) -> x ∈ l -> y ∈ l -> f x = f y -> x = y.
Proof.
  induction l as [|z l IH]; intros Hnd Hx Hy E; [by apply elem_of_nil in Hx|].
  rewrite fmap_cons in Hnd. apply NoDup_cons in Hnd as [Hz Hnd].
  apply elem_of_cons in Hx as [->|Hx], Hy as [Hy|Hy]; subst; auto.
  - destruct Hz. apply list_elem_of_fmap. by exists y.
  - destruct Hz. apply list_elem_of_fmap. by exists x.
Qed.

Lemma filter_NoDup_key {A B} `{EqDecision B} (f : A -> B) l x :
  NoDup (f <$> l) -> x ∈ l -> List.filter (λ y, bool_decide (f y = f x)) l = [x].
Proof.
  induction l as [|z l IH]; intros Hnd Hx; [by apply elem_of_nil in Hx|].
  rewrite fmap_cons in Hnd. apply NoDup_cons in Hnd as [Hz Hnd]. simpl.
  assert (forall l', (forall y, y ∈ l' -> f y <> f x) -> List.filter (λ y, bool_decide (f y = f x)) l' = [])
    as Hnil.
  { induction l' as [|y l' IHl]; intros Hl; [done|]. simpl.
    rewrite bool_decide_eq_false_2 by (apply Hl; by left). apply IHl. intros u Hu. apply Hl. by right. }
  apply elem_of_cons in Hx as [->|Hx].
  - rewrite bool_decide_eq_true_2 by done. f_equal. apply Hnil. intros y Hy Hf. apply Hz.
    rewrite <- Hf. by apply list_elem_of_fmap_2.
  - rewrite bool_decide_eq_false_2; [by apply IH|]. intros Hf. apply Hz. rewrite Hf.
    by apply list_elem_of_fmap_2.
Qed.

Lemma scope_for_task_ok plan ptid dtid p' :
  scope_for_task plan ptid dtid = Some p' ->
  exists t, t ∈ plan_Targets plan /\ pt_ID t = ptid /\ pt_DeploymentTargetID t = dtid
    /\ plan_Targets p' = [t] /\ plan_ApplicationID p' = plan_ApplicationID plan
    /\ plan_CanonicalChecksum p' = plan_CanonicalChecksum plan
    /\ plan_ReleaseContract p' = plan_ReleaseContract plan
    /\ plan_TargetComponents p'
       = List.filter (λ c, bool_decide (pc_DeploymentPlanTargetID c = ptid)) (plan_TargetComponents plan).
Proof.
  unfold scope_for_task. destruct (List.find _ _) as [t|] eqn:E; [|done]. intros [= <-].
  apply find_some in E as [Hin Ht]. to_prop. exists t. rewrite list_elem_of_In. done.
Qed.

Lemma targetsByPlanTargetID_lookup i t :
  NoDup (pt_ID <$> plan_Targets (in_Plan i)) -> t ∈ plan_Targets (in_Plan i) ->
  targetsByPlanTargetID i !! pt_ID t = Some t.
Proof.
  intros Hnd Ht. unfold targetsByPlanTargetID. rewrite foldl_insert_lookup.
  destruct (last _) as [u|] eqn:E.
  - apply last_Some_elem_of, list_elem_of_In, filter_In in E as [Hu Hk]. to_prop.
    f_equal. eapply (NoDup_fmap_eq pt_ID); [done| |done|done]. by apply list_elem_of_In.
  - apply last_None in E. assert (t ∈ ([] : list PlanTarget)) as Hn; [|by apply elem_of_nil in Hn].
    rewrite <- E. apply list_elem_of_In, filter_In. split; [by apply list_elem_of_In|].
    by apply bool_decide_eq_true_2.
Qed.

(** The plan target that a check is about. *)
Lemma target_checks_on i t (P : Check -> Prop) :
  (forall c, DeploymentPlanTargetID c = pt_ID t -> P c) -> Forall P (target_checks i t).
Proof.
  intros HP. unfold target_checks. apply Forall_app.
  destruct (plan_ReleaseContract (in_Plan i)); split; repeat constructor; by apply HP.
Qed.

Lemma component_checks_on i c (P : Check -> Prop) :
  (forall k, DeploymentPlanTargetID k = pt_ID (component_target i c) -> P k) ->
  Forall P (component_checks i c).
Proof. intros HP. unfold component_checks. repeat constructor; by apply HP. Qed.

Lemma requirement_checks_on i t l (P : Check -> Prop) :
  (forall c, DeploymentPlanTargetID c = pt_ID t -> P c) -> Forall P (l ≫= requirement_checks i t).
Proof.
  intros HP. apply Forall_bind_iff, Forall_forall. intros r _. unfold requirement_checks.
  destruct (default _ _) as [[? ?] ?]. apply Forall_app.
  split; case_bool_decide; repeat constructor; by apply HP.
Qed.

Lemma target_checks_scope i p' t :
  plan_CanonicalChecksum p' = plan_CanonicalChecksum (in_Plan i) ->
  plan_ReleaseContract p' = plan_ReleaseContract (in_Plan i) ->
  target_checks (with_plan p' i) t = target_checks i t.
Proof. intros Hs Hc. unfold target_checks, bindingMatches. simpl. by rewrite Hs, Hc. Qed.

(** The preflight of a task is the task's part of the preflight of its plan.
    For a frozen plan the checks that a task's preflight evaluates are exactly
    the plan's checks on the task's plan target, in the same order; so the
    tasks of a plan that passes all pass while nothing changes. *)
Theorem preflight_task_scope i ptid dtid p' :
  frozen (in_Plan i) -> scope_for_task (in_Plan i) ptid dtid = Some p' ->
  raw_checks (with_plan p' i)
  = List.filter (λ c, bool_decide (DeploymentPlanTargetID c = ptid)) (raw_checks i)
  /\ (run_status (Evaluate i) = CheckPassed -> run_status (Evaluate (with_plan p' i)) = CheckPassed).
Proof.
  intros [Hids Htgts Hcomps] (t & Ht & <- & _ & Hpt & Happ & Hsum & Hcon & Hpc)%scope_for_task_ok.
  set (i' := with_plan p' i).
  assert (in_Plan i' = p') as Hi' by done.
  assert (List.filter (λ u, bool_decide (pt_ID u = pt_ID t)) (plan_Targets (in_Plan i)) = [t]) as Hft
    by (by apply filter_NoDup_key).
  assert (forall c, pc_DeploymentTargetID c = pt_DeploymentTargetID t -> c ∈ plan_TargetComponents (in_Plan i) ->
    pc_DeploymentPlanTargetID c = pt_ID t) as Hkey.
  { intros c Hc Hin. destruct (Hcomps c Hin) as (u & Hu & <- & Hd).
    f_equal. eapply (NoDup_fmap_eq pt_DeploymentTargetID); [done..|congruence]. }
  assert (forall r, provider i' t r = provider i t r) as Hprov.
  { intros r. unfold provider, desiredByTargetAndComponent. rewrite Hi', Happ, Hpc, !foldl_insert_lookup.
    change (CurrentStates i') with (CurrentStates i).
    unfold component_key. rewrite Hi', Happ.
    rewrite filter_filter; [done|]. intros c Hc Hk. to_prop. injection Hk as Hk _.
    apply bool_decide_eq_true_2. auto. }
  assert (raw_checks i' = List.filter (λ c, bool_decide (DeploymentPlanTargetID c = pt_ID t)) (raw_checks i)) as E.
  { unfold raw_checks. rewrite !List.filter_app, Hi', Hcon, Hpt, Hpc. f_equal; [|f_equal].
    - rewrite (filter_bind _ (λ u, bool_decide (pt_ID u = pt_ID t)) _ (target_checks i')), Hft; [done|..].
      + intros u Hu Hid. to_prop. split; [by apply target_checks_scope|]. rewrite <- Hid.
        apply target_checks_on. intros; by apply bool_decide_eq_true_2.
      + intros u Hu Hid. to_prop. apply target_checks_on. intros c ->. by apply bool_decide_eq_false_2.
    - rewrite (filter_bind _ (λ c, bool_decide (pc_DeploymentPlanTargetID c = pt_ID t)) _ (component_checks i'));
        [done|..]; intros c Hc Hid; to_prop; destruct (Hcomps c Hc) as (u & Hu & Hpu & _);
        pose proof (targetsByPlanTargetID_lookup i u Hids Hu) as Hlook; rewrite Hpu in Hlook.
      + assert (component_target i c = t /\ component_target i' c = t) as [Ht1 Ht2].
        { unfold component_target. rewrite Hlook. simpl.
          assert (u = t) as -> by (apply (NoDup_fmap_eq pt_ID (plan_Targets (in_Plan i))); congruence).
          rewrite Hid, (targetsByPlanTargetID_lookup i' t); [done|..]; rewrite Hi', Hpt;
            [apply NoDup_singleton | by left]. }
        split.
        * unfold component_checks, platformMatches, stateMatches, component_key.
          rewrite Ht1, Ht2, Hi', Happ. done.
        * apply component_checks_on. intros k ->. rewrite Ht1. by apply bool_decide_eq_true_2.
      + apply component_checks_on. intros k ->. unfold component_target. rewrite Hlook. simpl.
        apply bool_decide_eq_false_2. congruence.
    - destruct (plan_ReleaseContract (in_Plan i)) as [contract|]; [|done].
      rewrite (filter_bind _ (λ u, bool_decide (pt_ID u = pt_ID t)) _
        (λ u, rc_Requires contract ≫= requirement_checks i' u)), Hft; [done|..].
      + intros u Hu Hid. to_prop.
        assert (u = t) as -> by (by apply (NoDup_fmap_eq pt_ID (plan_Targets (in_Plan i)))). split.
        * induction (rc_Requires contract) as [|r l IH]; [done|]. cbn [mbind list_bind].
          unfold requirement_checks at 1 3. rewrite Hprov. f_equal. exact IH.
        * apply requirement_checks_on. intros c ->. by apply bool_decide_eq_true_2.
      + intros u Hu Hid. to_prop. apply requirement_checks_on. intros c ->.
        by apply bool_decide_eq_false_2. }
  split; [exact E|]. rewrite !Evaluate_raw, !run_status_passed, !run_status_numbered, E.
  rewrite !Forall_forall. intros Hall c Hc. apply Hall. apply list_elem_of_In.
  by apply list_elem_of_In, filter_In in Hc as [Hc _].
Qed.
End preflight.

(** ** A concrete plan, with versions compared as strings *)

Definition string_semver : StrictSemver :=
  {| semver_version := string;
     StrictNewVersion := λ s, if bool_decide (s = "") then None else Some s;
     LessThan := string_less |}.

Definition demo_component (n : N) (name : string) : PlanTargetComponent :=
  {| pc_DeploymentPlanTargetID := uid n; pc_DeploymentTargetID := uid (100 + n);
     pc_Component := name; pc_Version := "1.2.0"; pc_Platform := "linux/amd64"; pc_Contracts := ["api/v1"];
     pc_ExpectedStateVersion := 0; pc_ExpectedStateChecksum := "" |}.

Definition demo_plan_target (n : N) : PlanTarget :=
  {| pt_ID := uid n; pt_DeploymentTargetID := uid (100 + n); pt_Type := "docker";
     pt_Platform := "linux/amd64"; pt_CustomerOrganizationID := None |}.

Definition demo_plan : Plan :=
  {| plan_ApplicationID := uid 50; plan_CanonicalChecksum := "sha256:0";
     plan_Targets := [demo_plan_target 1; demo_plan_target 2];
     plan_TargetComponents := [demo_component 1 "api"; demo_component 2 "api"];
     plan_ReleaseContract := Some
       {| rc_Schema := "distr.release-contract/v1";
          rc_Requires := [{| rq_Component := "api"; rq_Contract := "api/v1"; rq_MinimumVersion := "1.1.0" |}];
          rc_MigrationRequired := false; rc_ConfigChangeRequired := false |} |}.

Definition demo_input : Input :=
  let live := {| lt_Type := "docker"; lt_Platform := "linux/amd64"; lt_CustomerOrganizationID := None |} in
  {| in_Plan := demo_plan; PlanPayloadChecksumValid := true; ReleaseEligible := true;
     ReleaseEligibilityMessage := ""; ReleaseContractValid := true; ReleaseContractMessage := "";
     CurrentTargets := <[uid 101 := live]> (<[uid 102 := live]> ∅); CurrentStates := ∅ |}.

Lemma demo_frozen : frozen demo_plan.
Proof.
  constructor.
  - apply (bool_decide_unpack _). vm_compute. exact I.
  - apply (bool_decide_unpack _). vm_compute. exact I.
  - intros c Hc. cbn [demo_plan plan_TargetComponents] in Hc.
    apply elem_of_cons in Hc as [->|Hc]; [exists (demo_plan_target 1); split_and!; [by left|done..]|].
    apply list_elem_of_singleton in Hc as ->.
    exists (demo_plan_target 2). split_and!; [right; by left | done..].
Qed.

Lemma preflight_passes_iff_witness :
  run_status (Evaluate (H := string_semver) demo_input) = CheckPassed
  /\ target_ok demo_input (demo_plan_target 2) /\ component_ok demo_input (demo_component 1 "api").
Proof.
  assert (run_status (Evaluate (H := string_semver) demo_input) = CheckPassed) as H
    by (vm_compute; reflexivity).
  destruct (proj1 (preflight_passes_iff (H := string_semver) demo_input) H) as (Ht & Hc & _).
  exact (conj H (conj (Ht _ (list_elem_of_further _ _ _ (list_elem_of_here _ _)))
                      (Hc _ (list_elem_of_here _ _)))).
Defined.

Lemma preflight_report_order_witness : 10 <= length (Evaluate (H := string_semver) demo_input).
Proof. apply (preflight_report_order (H := string_semver) demo_input). Defined.

Lemma preflight_task_scope_witness :
  exists p', scope_for_task demo_plan (uid 1) (uid 101) = Some p'
    /\ run_status (Evaluate (H := string_semver) (with_plan p' demo_input)) = CheckPassed.
Proof.
  eexists. split; [reflexivity|].
  apply (preflight_task_scope (H := string_semver) demo_input (uid 1) (uid 101));
    [exact demo_frozen | reflexivity | vm_compute; reflexivity].
Defined.
