(* ===== verification/TaskStore.v ===== *)
(** * The task tables and transactions ([internal/types/task_queue.go],
    [internal/types/task_leases.go], [internal/db/tx.go])

    The rows the task queue, the leases and the step events work on, one list
    of rows per table, and a transaction monad. The columns [created_at] and
    [updated_at], which no query reads, and the surrogate key of the lock
    table, which decides no order because task and resource are unique, are
    left out. A transaction runs on the committed state of the ones before it
    (the row locks and advisory locks of the code make its transactions wait
    for each other), commits its writes when the function succeeds and leaves
    no trace when it fails. [now()] is constant during a transaction. *)
From S2P Require Import Prelude GoStrings Uuid.
Open Scope list_scope.

(** ** Enumerations: [...Other s] is a value outside the Go constants, and
    [...Other ""] is the zero value *)

Inductive TaskStatus :=
| TaskStatusQueued | TaskStatusRunning | TaskStatusSucceeded | TaskStatusFailed
| TaskStatusCanceled | TaskStatusOther (s : string).

Inductive TaskConcurrencyPolicy :=
| PolicyQueue | PolicyCancelOlder | PolicyRejectNew | PolicyAllowParallel | PolicyOther (s : string).

Inductive TaskLockResourceType :=
| ResourceDeploymentTarget | ResourceTargetComponent | ResourceTenantEnvironment
| ResourceApplicationEnvironment | ResourceCustom | ResourceOther (s : string).

Inductive StepRunStatus :=
| StepRunPending | StepRunRunning | StepRunSucceeded | StepRunFailed | StepRunSkipped
| StepRunOther (s : string).

Inductive TaskExecutorType := ExecutorAgent | ExecutorHub | ExecutorOther (s : string).

(** Plan and bundle statuses: the ones the queries name, and the others. *)
Inductive PlanStatus := PlanReady | PlanExecuted | PlanOther (s : string).
Inductive BundleStatus := BundlePublished | BundleOther (s : string).

#[export] Instance TaskStatus_eq_dec : EqDecision TaskStatus.
Proof. solve_decision. Defined.
#[export] Instance TaskConcurrencyPolicy_eq_dec : EqDecision TaskConcurrencyPolicy.
Proof. solve_decision. Defined.
#[export] Instance TaskLockResourceType_eq_dec : EqDecision TaskLockResourceType.
Proof. solve_decision. Defined.
#[export] Instance StepRunStatus_eq_dec : EqDecision StepRunStatus.
Proof. solve_decision. Defined.
#[export] Instance TaskExecutorType_eq_dec : EqDecision TaskExecutorType.
Proof. solve_decision. Defined.
#[export] Instance PlanStatus_eq_dec : EqDecision PlanStatus.
Proof. solve_decision. Defined.
#[export] Instance BundleStatus_eq_dec : EqDecision BundleStatus.
Proof. solve_decision. Defined.

Definition task_status_valid (s : TaskStatus) : bool :=
  match s with TaskStatusOther _ => false | _ => true end.

Definition task_status_string (s : TaskStatus) : string :=
  match s with
  | TaskStatusQueued => "QUEUED" | TaskStatusRunning => "RUNNING"
  | TaskStatusSucceeded => "SUCCEEDED" | TaskStatusFailed => "FAILED"
  | TaskStatusCanceled => "CANCELED" | TaskStatusOther s => s
  end.

Definition step_status_string (s : StepRunStatus) : string :=
  match s with
  | StepRunPending => "PENDING" | StepRunRunning => "RUNNING" | StepRunSucceeded => "SUCCEEDED"
  | StepRunFailed => "FAILED" | StepRunSkipped => "SKIPPED" | StepRunOther s => s
  end.

Definition task_status_terminal (s : TaskStatus) : bool :=
  bool_decide (s = TaskStatusSucceeded) || bool_decide (s = TaskStatusFailed)
  || bool_decide (s = TaskStatusCanceled).

Definition policy_valid (p : TaskConcurrencyPolicy) : bool :=
  match p with PolicyOther _ => false | _ => true end.

Definition resource_type_valid (t : TaskLockResourceType) : bool :=
  match t with ResourceOther _ => false | _ => true end.

Definition resource_type_string (t : TaskLockResourceType) : string :=
  match t with
  | ResourceDeploymentTarget => "deployment_target"
  | ResourceTargetComponent => "target_component"
  | ResourceTenantEnvironment => "tenant_environment"
  | ResourceApplicationEnvironment => "application_environment"
  | ResourceCustom => "custom"
  | ResourceOther s => s
  end.

Definition step_status_valid (s : StepRunStatus) : bool :=
  match s with StepRunOther _ => false | _ => true end.

Definition step_status_terminal (s : StepRunStatus) : bool :=
  bool_decide (s = StepRunSucceeded) || bool_decide (s = StepRunFailed)
  || bool_decide (s = StepRunSkipped).

Definition executor_valid (t : TaskExecutorType) : bool :=
  bool_decide (t = ExecutorAgent) || bool_decide (t = ExecutorHub).

Definition ExecutionLocation (t : TaskExecutorType) : string :=
  if bool_decide (t = ExecutorHub) then "hub" else "target".

(** ** Rows *)

Record Task := {
  task_ID : uuid;
  task_QueuedAt : Z;
  task_StartedAt : option Z;
  task_CompletedAt : option Z;
  task_OrganizationID : uuid;
  task_DeploymentPlanID : uuid;
  task_DeploymentPlanTargetID : uuid;
  task_DeploymentTargetID : uuid;
  task_ApplicationID : uuid;
  task_ReleaseBundleID : uuid;
  task_ChannelID : uuid;
  task_EnvironmentID : uuid;
  task_ActorUserAccountID : option uuid;
  task_Status : TaskStatus;
  task_QueueOrder : Z;
}.

Record TaskResourceLock := {
  lock_AcquiredAt : option Z;
  lock_ReleasedAt : option Z;
  lock_OrganizationID : uuid;
  lock_TaskID : uuid;
  lock_ResourceType : TaskLockResourceType;
  lock_ResourceKey : string;
  lock_ConcurrencyPolicy : TaskConcurrencyPolicy;
}.

Record StepRun := {
  sr_ID : uuid;
  sr_StartedAt : option Z;
  sr_CompletedAt : option Z;
  sr_OrganizationID : uuid;
  sr_TaskID : uuid;
  sr_DeploymentPlanID : uuid;
  sr_DeploymentPlanStepID : uuid;
  sr_StepKey : string;
  sr_Name : string;
  sr_ActionType : string;
  sr_Status : StepRunStatus;
  sr_SortOrder : Z;
  sr_SkippedReason : string;
}.

Record TaskLease := {
  lease_ID : uuid;
  lease_OrganizationID : uuid;
  lease_TaskID : uuid;
  lease_AgentID : uuid;
  lease_ExecutorType : TaskExecutorType;
  lease_TokenHash : string;
  lease_LeasedAt : Z;
  lease_ExpiresAt : Z;
  lease_HeartbeatAt : Z;
  lease_Attempt : Z;
  lease_ReleasedAt : option Z;
}.

(** The deployment plan with the rows of its targets, components and steps. *)
Record PlanTarget := {
  pt_ID : uuid;
  pt_DeploymentTargetID : uuid;
  pt_SortOrder : Z;
}.

Record PlanTargetComponent := {
  pc_DeploymentPlanTargetID : uuid;
  pc_DeploymentTargetID : uuid;
  pc_Component : string;
}.

Record PlanStep := {
  ps_ID : uuid;
  ps_StepKey : string;
  ps_Name : string;
  ps_ActionType : string;
  ps_ExecutionLocation : string;
  ps_Included : bool;
  ps_ExcludedReason : string;
  ps_Dependencies : list string;
  ps_SortOrder : Z;
}.

Record DeploymentPlan := {
  plan_ID : uuid;
  plan_OrganizationID : uuid;
  plan_Status : PlanStatus;
  plan_ApplicationID : uuid;
  plan_ReleaseBundleID : uuid;
  plan_ChannelID : uuid;
  plan_EnvironmentID : uuid;
  plan_Targets : list PlanTarget;
  plan_TargetComponents : list PlanTargetComponent;
  plan_Steps : list PlanStep;
}.

Record ReleaseBundle := {
  bundle_ID : uuid;
  bundle_OrganizationID : uuid;
  bundle_Status : BundleStatus;
}.

(** A recorded step event; its payload is what the caller sent. *)
Record StepRunEvent := {
  event_ID : uuid;
  event_OrganizationID : uuid;
  event_TaskID : uuid;
  event_StepRunID : uuid;
  event_TaskLeaseID : uuid;
  event_AgentID : uuid;
  event_Sequence : Z;
  event_OccurredAt : Z;
  event_PayloadHash : string;
}.

Record StepRunLogChunk := {
  chunk_EventID : uuid;
  chunk_StepRunID : uuid;
  chunk_Index : Z;
  chunk_OccurredAt : Z;
  chunk_Stream : string;
  chunk_Severity : string;
  chunk_Body : string;
  chunk_Redacted : bool;
}.

Record StepRunOutput := {
  output_EventID : uuid;
  output_OrganizationID : uuid;
  output_StepRunID : uuid;
  output_Name : string;
  output_Sensitive : bool;
  output_Redacted : bool;
}.

Record db := {
  Tasks : list Task;
  Locks : list TaskResourceLock;
  StepRuns : list StepRun;
  Leases : list TaskLease;
  Plans : list DeploymentPlan;
  Bundles : list ReleaseBundle;
  Events : list StepRunEvent;
  LogChunks : list StepRunLogChunk;
  Outputs : list StepRunOutput;
  (** The last value of [Task_queue_order_seq]. *)
  queue_order_seq : Z;
}.

Definition set_tasks (l : list Task) (s : db) : db :=
  {| Tasks := l; Locks := Locks s; StepRuns := StepRuns s; Leases := Leases s; Plans := Plans s;
     Bundles := Bundles s; Events := Events s; LogChunks := LogChunks s;
     Outputs := Outputs s; queue_order_seq := queue_order_seq s |}.
Definition set_locks (l : list TaskResourceLock) (s : db) : db :=
  {| Tasks := Tasks s; Locks := l; StepRuns := StepRuns s; Leases := Leases s; Plans := Plans s;
     Bundles := Bundles s; Events := Events s; LogChunks := LogChunks s;
     Outputs := Outputs s; queue_order_seq := queue_order_seq s |}.
Definition set_step_runs (l : list StepRun) (s : db) : db :=
  {| Tasks := Tasks s; Locks := Locks s; StepRuns := l; Leases := Leases s; Plans := Plans s;
     Bundles := Bundles s; Events := Events s; LogChunks := LogChunks s;
     Outputs := Outputs s; queue_order_seq := queue_order_seq s |}.
Definition set_leases (l : list TaskLease) (s : db) : db :=
  {| Tasks := Tasks s; Locks := Locks s; StepRuns := StepRuns s; Leases := l; Plans := Plans s;
     Bundles := Bundles s; Events := Events s; LogChunks := LogChunks s;
     Outputs := Outputs s; queue_order_seq := queue_order_seq s |}.
Definition set_plans (l : list DeploymentPlan) (s : db) : db :=
  {| Tasks := Tasks s; Locks := Locks s; StepRuns := StepRuns s; Leases := Leases s; Plans := l;
     Bundles := Bundles s; Events := Events s; LogChunks := LogChunks s;
     Outputs := Outputs s; queue_order_seq := queue_order_seq s |}.
Definition set_events (l : list StepRunEvent) (s : db) : db :=
  {| Tasks := Tasks s; Locks := Locks s; StepRuns := StepRuns s; Leases := Leases s; Plans := Plans s;
     Bundles := Bundles s; Events := l; LogChunks := LogChunks s;
     Outputs := Outputs s; queue_order_seq := queue_order_seq s |}.
Definition set_bundles (l : list ReleaseBundle) (s : db) : db :=
  {| Tasks := Tasks s; Locks := Locks s; StepRuns := StepRuns s; Leases := Leases s; Plans := Plans s;
     Bundles := l; Events := Events s; LogChunks := LogChunks s; Outputs := Outputs s;
     queue_order_seq := queue_order_seq s |}.
Definition set_payload (logs : list StepRunLogChunk) (outputs : list StepRunOutput) (s : db) : db :=
  {| Tasks := Tasks s; Locks := Locks s; StepRuns := StepRuns s; Leases := Leases s; Plans := Plans s;
     Bundles := Bundles s; Events := Events s; LogChunks := logs; Outputs := outputs;
     queue_order_seq := queue_order_seq s |}.
Definition set_seq (n : Z) (s : db) : db :=
  {| Tasks := Tasks s; Locks := Locks s; StepRuns := StepRuns s; Leases := Leases s; Plans := Plans s;
     Bundles := Bundles s; Events := Events s; LogChunks := LogChunks s;
     Outputs := Outputs s; queue_order_seq := n |}.

(** ** Transactions *)

Inductive apierror :=
| BadRequest (message : string) | NotFound | Conflict (message : string) | AlreadyExists (message : string)
| Internal (message : string).

#[export] Instance apierror_eq_dec : EqDecision apierror.
Proof. solve_decision. Defined.

(** Inside a transaction an error ends it, so no state is returned with it. *)
Definition tx (A : Type) : Type := db -> result apierror (A * db).

#[export] Instance tx_ret : MRet tx := fun A a s => Ok (a, s).
#[export] Instance tx_bind : MBind tx :=
  fun A B f m s => match m s with Ok (a, s') => f a s' | Err e => Err e end.

Definition throw {A} (e : apierror) : tx A := fun _ => Err e.
Definition reads {A} (f : db -> A) : tx A := fun s => Ok (f s, s).
Definition modifies (f : db -> db) : tx unit := fun s => Ok (tt, f s).
Definition lift_result {A} (r : result apierror A) : tx A :=
  fun s => match r with Ok a => Ok (a, s) | Err e => Err e end.

(** [RunTx]: commit or roll back. *)
Definition RunTx {A} (m : tx A) (s : db) : result apierror A * db :=
  match m s with Ok (a, s') => (Ok a, s') | Err e => (Err e, s) end.

(** [UPDATE ... SET ... WHERE] and [SELECT ... WHERE]. *)
Definition update_where {A} (cond : A -> bool) (f : A -> A) (l : list A) : list A :=
  (fun x => if cond x then f x else x) <$> l.
Definition select_where {A} (cond : A -> bool) (l : list A) : list A := List.filter cond l.
Definition exists_where {A} (cond : A -> bool) (l : list A) : bool := existsb cond l.

(** [COALESCE(column, now())] *)
Definition coalesce (column : option Z) (now : Z) : option Z := Some (default now column).

(** What a transaction takes from outside: the clock, the generated keys of
    the rows it inserts and the random lease token. *)
Record tx_env := {
  now : Z;
  fresh_task : nat -> uuid;
  fresh_step : nat -> uuid;
  fresh_lease : uuid;
  fresh_event : uuid;
  random_token : string;
}.

(** ** Facts *)

Lemma tx_bind_ok {A B} (m : tx A) (f : A -> tx B) s b s' :
  (m ≫= f) s = Ok (b, s') <-> exists a s1, m s = Ok (a, s1) /\ f a s1 = Ok (b, s').
Proof. unfold mbind, tx_bind. destruct (m s) as [[a s1]|]; naive_solver. Qed.

(** A transaction commits its result, or fails and changes nothing. *)
Lemma RunTx_cases {A} (m : tx A) s res s' :
  RunTx m s = (res, s') ->
  (exists a, res = Ok a /\ m s = Ok (a, s')) \/ (exists e, res = Err e /\ m s = Err e /\ s' = s).
Proof. unfold RunTx. destruct (m s) as [[a s1]|e]; naive_solver. Qed.

(** Invert a successful transaction into its successful steps. *)
Ltac tx_inv :=
  repeat match goal with
  | H : (_ ≫= _) _ = Ok _ |- _ => apply tx_bind_ok in H as (? & ? & ? & H)
  | H : mret _ _ = Ok _ |- _ => injection H; clear H; intros; subst
  | H : reads _ _ = Ok _ |- _ => injection H; clear H; intros; subst
  | H : modifies _ _ = Ok _ |- _ => injection H; clear H; intros; subst
  | H : Ok _ = Ok _ |- _ => injection H; clear H; intros; subst
  | H : throw _ _ = Ok _ |- _ => discriminate H
  | u : unit |- _ => destruct u
  | H : Err _ = Ok _ |- _ => discriminate H
  end.

Lemma elem_of_update_where {A} (c : A -> bool) f (l : list A) x :
  x ∈ update_where c f l <-> exists y, y ∈ l /\ x = if c y then f y else y.
Proof. unfold update_where. rewrite list_elem_of_fmap. naive_solver. Qed.

Lemma elem_of_select_where {A} (c : A -> bool) (l : list A) x :
  x ∈ select_where c l <-> x ∈ l /\ c x = true.
Proof. unfold select_where. by rewrite !list_elem_of_In, filter_In. Qed.

Lemma filter_app_bool {A} (p : A -> bool) k l : select_where p (k ++ l) = select_where p k ++ select_where p l.
Proof. apply List.filter_app. Qed.

Lemma select_none {A} (p : A -> bool) l : (forall x, x ∈ l -> p x = false) -> select_where p l = [].
Proof. apply filter_none_bool. Qed.

Lemma select_ext {A} (p q : A -> bool) l : (forall x, x ∈ l -> p x = q x) -> select_where p l = select_where q l.
Proof.
  unfold select_where. induction l as [|x l IH]; intros H; [done|]. simpl. rewrite (H x) by (by left).
  rewrite IH; [done|]. intros y Hy. apply H. by right.
Qed.

Lemma NoDup_select {A} (p : A -> bool) (l : list A) : NoDup l -> NoDup (select_where p l).
Proof. intros H%NoDup_ListNoDup. apply NoDup_ListNoDup. by apply List.NoDup_filter. Qed.

Lemma fmap_select_NoDup {A B} (f : A -> B) (c : A -> bool) l : NoDup (f <$> l) -> NoDup (f <$> select_where c l).
Proof.
  unfold select_where. induction l as [|x l IH]; [done|]. simpl. rewrite NoDup_cons. intros [Hx Hn].
  destruct (c x); [|by apply IH]. simpl. apply NoDup_cons. split; [|by apply IH].
  intros (y & Ey & [Hy _]%elem_of_select_where)%list_elem_of_fmap. apply Hx. rewrite Ey. by apply list_elem_of_fmap_2.
Qed.

(** A query by a key finds the one row. *)
Lemma select_key {A B} (c : A -> bool) (key : A -> B) l x :
  NoDup (key <$> l) -> x ∈ l -> c x = true -> (forall y, y ∈ l -> c y = true -> key y = key x) -> select_where c l = [x].
Proof.
  unfold select_where. induction l as [|y l IH]; intros Hn Hx Hc Hk; [by apply elem_of_nil in Hx|].
  rewrite fmap_cons in Hn. apply NoDup_cons in Hn as [Hy Hn]. simpl.
  apply elem_of_cons in Hx as [->|Hx].
  - rewrite Hc. f_equal. apply (select_none c l). intros z Hz. destruct (c z) eqn:E; [|done].
    exfalso. apply Hy. rewrite <- (Hk z ltac:(by right) E). by apply list_elem_of_fmap_2.
  - destruct (c y) eqn:E.
    + exfalso. apply Hy. rewrite (Hk y ltac:(by left) E). by apply list_elem_of_fmap_2.
    + apply IH; try done. intros z Hz. apply Hk. by right.
Qed.

(** The rows of one owner among the rows of several. *)
Lemma select_group {A B K} `{EqDecision K} (owner : B -> K) (key : A -> K) (g : A -> list B) (l : list A) x :
  NoDup (key <$> l) -> (forall a b, b ∈ g a -> owner b = key a) -> x ∈ l ->
  select_where (λ b, bool_decide (owner b = key x)) (l ≫= g) = g x.
Proof.
  intros Hn Hg. induction l as [|a l IH]; intros Hx; [by apply elem_of_nil in Hx|]. simpl in Hn.
  apply NoDup_cons in Hn as [Ha Hn]. change ((a :: l) ≫= g) with (g a ++ (l ≫= g)). rewrite filter_app_bool.
  apply elem_of_cons in Hx as [->|Hx].
  - unfold select_where at 1. rewrite filter_all_bool by (intros b Hb; by apply bool_decide_eq_true, Hg).
    rewrite select_none, app_nil_r; [done|]. intros b (c & Hb & Hc)%list_elem_of_bind. apply bool_decide_eq_false.
    rewrite (Hg c b Hb). intros E. apply Ha. rewrite <- E. by apply list_elem_of_fmap_2.
  - rewrite select_none, IH; [done..|]. intros b Hb. apply bool_decide_eq_false. rewrite (Hg a b Hb).
    intros E. apply Ha. rewrite E. by apply list_elem_of_fmap_2.
Qed.

Lemma exists_where_true {A} (c : A -> bool) (l : list A) :
  exists_where c l = true <-> exists x, x ∈ l /\ c x = true.
Proof. unfold exists_where. rewrite existsb_exists. by setoid_rewrite <- list_elem_of_In. Qed.

Lemma exists_where_false {A} (c : A -> bool) (l : list A) :
  exists_where c l = false <-> forall x, x ∈ l -> c x = false.
Proof.
  rewrite <- not_true_iff_false, exists_where_true. split.
  - intros H x Hx. destruct (c x) eqn:E; [|done]. destruct H. by exists x.
  - intros H (x & Hx & E). rewrite (H x Hx) in E. done.
Qed.

(** An update that keeps a column keeps the list of its values. *)
Lemma fmap_update_where {A B} (g : A -> B) c f (l : list A) :
  (forall x, x ∈ l -> c x = true -> g (f x) = g x) -> g <$> update_where c f l = g <$> l.
Proof.
  intros H. unfold update_where. rewrite <- list_fmap_compose. apply list_fmap_ext.
  intros i x Hx. simpl. apply list_elem_of_lookup_2 in Hx. destruct (c x) eqn:E; auto.
Qed.

Lemma update_where_id {A} c (f : A -> A) l :
  (forall x, x ∈ l -> c x = true -> f x = x) -> update_where c f l = l.
Proof.
  intros H. rewrite <- (list_fmap_id l) at 2. rewrite <- (fmap_update_where id c f l H).
  by rewrite list_fmap_id.
Qed.

Lemma head_elem_of {A} (l : list A) x : head l = Some x -> x ∈ l.
Proof. destruct l; [done|]. intros [= ->]. by left. Qed.

(** The library functions that the code calls: SHA-256 in hexadecimal. *)
Class Crypto := { sha256_hex : string -> string }.

(** The order of names in the database, which depends on its collation. *)
Class Collation := { name_less : string -> string -> bool }.
