(* ===== verification/Transaction.v ===== *)
(** * Transactions over the tables of a component ([internal/db/tx.go])

    The monad of [TaskStore.tx] for any state: an error ends the transaction
    and leaves no trace. With the lemmas that take a successful transaction
    apart. *)
From S2P Require Import Prelude GoStrings TaskStore.
Open Scope list_scope.

Definition stx (S A : Type) : Type := S -> result apierror (A * S).
#[export] Instance stx_ret {S} : MRet (stx S) := λ A a s, Ok (a, s).
#[export] Instance stx_bind {S} : MBind (stx S) :=
  λ A B f m s, match m s with Ok (a, s') => f a s' | Err e => Err e end.

Section operations.
Context {S : Type}.

Definition sthrow {A} (e : apierror) : stx S A := λ _, Err e.
Definition scheck (cond : bool) (e : apierror) : stx S unit := λ s, if cond then Err e else Ok (tt, s).
Definition slift {A} (r : result apierror A) : stx S A :=
  λ s, match r with Ok a => Ok (a, s) | Err e => Err e end.
Definition smodify (f : S -> S) : stx S unit := λ s, Ok (tt, f s).
Definition sreads {A} (f : S -> A) : stx S A := λ s, Ok (f s, s).
(** A condition and a query on the state. *)
Definition sforbid (cond : S -> bool) (e : apierror) : stx S unit := λ s, if cond s then Err e else Ok (tt, s).
Definition squery {A} (f : S -> result apierror A) : stx S A :=
  λ s, match f s with Ok a => Ok (a, s) | Err e => Err e end.
Definition RunSTx {A} (m : stx S A) (s : S) : result apierror A * S :=
  match m s with Ok (a, s') => (Ok a, s') | Err e => (Err e, s) end.

(** A transaction over a part of the tables. *)
Definition zoom {T A} (get : S -> T) (put : T -> S -> S) (m : stx T A) : stx S A :=
  λ s, match m (get s) with Ok (a, t) => Ok (a, put t s) | Err e => Err e end.

Lemma zoom_ok {T A} (get : S -> T) (put : T -> S -> S) (m : stx T A) s a s' :
  zoom get put m s = Ok (a, s') <-> exists t, m (get s) = Ok (a, t) /\ s' = put t s.
Proof. unfold zoom. destruct (m (get s)) as [[b t]|]; naive_solver. Qed.

Lemma stx_bind_ok {A B} (m : stx S A) (f : A -> stx S B) s b s' :
  (m ≫= f) s = Ok (b, s') <-> exists a s1, m s = Ok (a, s1) /\ f a s1 = Ok (b, s').
Proof. unfold mbind, stx_bind. destruct (m s) as [[a s1]|]; naive_solver. Qed.

Lemma RunSTx_cases {A} (m : stx S A) s res s' :
  RunSTx m s = (res, s') ->
  (exists a, res = Ok a /\ m s = Ok (a, s')) \/ (exists e, res = Err e /\ m s = Err e /\ s' = s).
Proof. unfold RunSTx. destruct (m s) as [[a s1]|e]; naive_solver. Qed.

Lemma scheck_ok c e s u s' : scheck c e s = Ok (u, s') <-> c = false /\ s' = s.
Proof. unfold scheck. destruct c, u; split; [done|by intros [? _]|by intros [= <-]|by intros [_ ->]]. Qed.

Lemma slift_ok {A} (r : result apierror A) s a s' : slift r s = Ok (a, s') <-> r = Ok a /\ s' = s.
Proof. unfold slift. destruct r; split; [by intros [= -> ->]|by intros [[= ->] ->]|done|by intros [? _]]. Qed.

Lemma sforbid_ok c e s u s' : sforbid c e s = Ok (u, s') <-> c s = false /\ s' = s.
Proof. apply scheck_ok. Qed.

Lemma squery_ok {A} (f : S -> result apierror A) s a s' : squery f s = Ok (a, s') <-> f s = Ok a /\ s' = s.
Proof. apply slift_ok. Qed.
End operations.

(** Invert a successful transaction into its steps. *)
Ltac stx_inv :=
  repeat match goal with
  | H : (_ ≫= _) _ = Ok _ |- _ => apply stx_bind_ok in H as (? & ? & ? & H)
  | H : mret _ _ = Ok _ |- _ => injection H; clear H; intros; subst
  | H : Ok _ = Ok _ |- _ => injection H; clear H; intros; subst
  | H : sthrow _ _ = Ok _ |- _ => discriminate H
  | H : Err _ = Ok _ |- _ => discriminate H
  | H : scheck _ _ _ = Ok _ |- _ => apply scheck_ok in H as [? ->]
  | H : sforbid _ _ _ = Ok _ |- _ => apply sforbid_ok in H as [? ->]
  | H : squery _ _ = Ok _ |- _ => apply squery_ok in H as [? ->]
  | H : zoom _ _ _ _ = Ok _ |- _ => apply zoom_ok in H as (? & H & ->)
  | H : smodify _ _ = Ok _ |- _ => injection H; clear H; intros; subst
  | H : sreads _ _ = Ok _ |- _ => injection H; clear H; intros; subst
  | u : unit |- _ => destruct u
  end.
