(* ===== verification/TaskQueue.v ===== *)
(** * The task queue ([internal/db/task_queue.go])

    Tasks of a deployment plan, their resource locks and step runs: creation
    under a concurrency policy, the explicit transitions, and the acquisition
    and release of locks. *)
From S2P Require Import Prelude GoStrings Uuid TaskStore.
Open Scope list_scope.

(** ** Requests *)

Record TaskLockResourceRequest := {
  lr_ResourceType : TaskLockResourceType;
  lr_ResourceKey : string;
  lr_ConcurrencyPolicy : TaskConcurrencyPolicy;
}.

Record CreateTasksForDeploymentPlanRequest := {
  ct_OrganizationID : uuid;
  ct_DeploymentPlanID : uuid;
  ct_ActorUserAccountID : uuid;
  ct_ConcurrencyPolicy : TaskConcurrencyPolicy;
  ct_AdditionalResources : list TaskLockResourceRequest;
}.

Record TransitionTaskStateRequest := {
  tt_OrganizationID : uuid;
  tt_TaskID : uuid;
  tt_Status : TaskStatus;
}.

Record TransitionStepRunStateRequest := {
  ts_OrganizationID : uuid;
  ts_StepRunID : uuid;
  ts_Status : StepRunStatus;
}.

(** A task with its locks and step runs: [hydrateTask]. *)
Record HydratedTask := {
  ht_Task : Task;
  ht_Locks : list TaskResourceLock;
  ht_StepRuns : list StepRun;
}.

Record taskResourceLockGroup := {
  group_OrganizationID : uuid;
  group_ResourceType : TaskLockResourceType;
  group_ResourceKey : string;
}.

#[export] Instance taskResourceLockGroup_eq_dec : EqDecision taskResourceLockGroup.
Proof. solve_decision. Defined.

(** ** Validation *)

Definition unset_policy : TaskConcurrencyPolicy := PolicyOther "".

(** The byte 0 between the parts of a composite key. *)
Definition nul : string := String Ascii.zero "".

Definition resource_dedup_key (t : TaskLockResourceType) (key : string) : string :=
  resource_type_string t +:+ nul +:+ key.

Definition additional_message (i : nat) (what : string) : string :=
  "additionalResources[" +:+ itoa (Z.of_nat i) +:+ "]." +:+ what.

(** The loop over [AdditionalResources] from index [i], with the keys [seen]. *)
Fixpoint validate_resources (i : nat) (seen : list string) (l : list TaskLockResourceRequest)
    : result apierror unit :=
  match l with
  | [] => Ok tt
  | r :: l =>
      fail_if (negb (resource_type_valid (lr_ResourceType r)))
        (BadRequest (additional_message i "resourceType is invalid")) ≫= λ _,
      let key := TrimSpace (lr_ResourceKey r) in
      fail_if (bool_decide (key = ""))
        (BadRequest (additional_message i "resourceKey is required")) ≫= λ _,
      fail_if (negb (bool_decide (lr_ConcurrencyPolicy r = unset_policy))
               && negb (policy_valid (lr_ConcurrencyPolicy r)))
        (BadRequest (additional_message i "concurrencyPolicy is invalid")) ≫= λ _,
      let duplicateKey := resource_dedup_key (lr_ResourceType r) key in
      fail_if (contains seen duplicateKey)
        (BadRequest "additionalResources contains duplicate resource") ≫= λ _,
      validate_resources (S i) (duplicateKey :: seen) l
  end.

Definition validateCreateTasksForDeploymentPlanRequest (r : CreateTasksForDeploymentPlanRequest)
    : result apierror unit :=
  fail_if (is_nil (ct_OrganizationID r)) (BadRequest "organizationId is required") ≫= λ _,
  fail_if (is_nil (ct_DeploymentPlanID r)) (BadRequest "deploymentPlanId is required") ≫= λ _,
  fail_if (negb (bool_decide (ct_ConcurrencyPolicy r = unset_policy))
           && negb (policy_valid (ct_ConcurrencyPolicy r)))
    (BadRequest "concurrencyPolicy is invalid") ≫= λ _,
  validate_resources 0 [] (ct_AdditionalResources r).

Definition normalizeTaskLockResourceRequests (r : CreateTasksForDeploymentPlanRequest)
    : TaskConcurrencyPolicy * list TaskLockResourceRequest :=
  let defaultPolicy := if bool_decide (ct_ConcurrencyPolicy r = unset_policy) then PolicyQueue
                       else ct_ConcurrencyPolicy r in
  (defaultPolicy,
   (λ x, {| lr_ResourceType := lr_ResourceType x; lr_ResourceKey := TrimSpace (lr_ResourceKey x);
            lr_ConcurrencyPolicy := if bool_decide (lr_ConcurrencyPolicy x = unset_policy)
                                    then defaultPolicy else lr_ConcurrencyPolicy x |})
     <$> ct_AdditionalResources r).

Definition validateTransitionTaskStateRequest (r : TransitionTaskStateRequest) : result apierror unit :=
  fail_if (is_nil (tt_OrganizationID r)) (BadRequest "organizationId is required") ≫= λ _,
  fail_if (is_nil (tt_TaskID r)) (BadRequest "taskId is required") ≫= λ _,
  fail_if (bool_decide (tt_Status r = TaskStatusOther "")) (BadRequest "status is required") ≫= λ _,
  fail_if (negb (task_status_valid (tt_Status r))) (BadRequest "status is invalid").

Definition validateTransitionStepRunStateRequest (r : TransitionStepRunStateRequest)
    : result apierror unit :=
  fail_if (is_nil (ts_OrganizationID r)) (BadRequest "organizationId is required") ≫= λ _,
  fail_if (is_nil (ts_StepRunID r)) (BadRequest "stepRunId is required") ≫= λ _,
  fail_if (bool_decide (ts_Status r = StepRunOther "")) (BadRequest "status is required") ≫= λ _,
  fail_if (negb (step_status_valid (ts_Status r))) (BadRequest "status is invalid").

Definition isAllowedTaskTransition (from to : TaskStatus) : bool :=
  match from with
  | TaskStatusQueued => bool_decide (to = TaskStatusRunning)
  | TaskStatusRunning => bool_decide (to = TaskStatusSucceeded) || bool_decide (to = TaskStatusFailed)
  | _ => false
  end.

Definition isAllowedStepRunTransition (from to : StepRunStatus) : bool :=
  match from with
  | StepRunPending => bool_decide (to = StepRunRunning) || bool_decide (to = StepRunSkipped)
  | StepRunRunning => bool_decide (to = StepRunSucceeded) || bool_decide (to = StepRunFailed)
  | _ => false
  end.

(** ** Lock groups *)

Definition taskResourceLockGroupKey (g : taskResourceLockGroup) : string :=
  let resourceType := resource_type_string (group_ResourceType g) in
  uuid_string (group_OrganizationID g) +:+ ":" +:+ itoa (len resourceType) +:+ ":" +:+ resourceType
  +:+ ":" +:+ itoa (len (group_ResourceKey g)) +:+ ":" +:+ group_ResourceKey g.

Definition distinctTaskResourceLockGroups (groups : list taskResourceLockGroup)
    : list taskResourceLockGroup :=
  stable_sort (less_str_by taskResourceLockGroupKey) (dedup_by taskResourceLockGroupKey [] groups).

Definition lock_group (l : TaskResourceLock) : taskResourceLockGroup :=
  {| group_OrganizationID := lock_OrganizationID l; group_ResourceType := lock_ResourceType l;
     group_ResourceKey := lock_ResourceKey l |}.

Definition taskResourceLockGroupsFromLocks (locks : list TaskResourceLock) : list taskResourceLockGroup :=
  distinctTaskResourceLockGroups (lock_group <$> locks).

Definition distinctTaskResourceLocks (locks : list TaskResourceLock) : list TaskResourceLock :=
  dedup_by (λ l, resource_dedup_key (lock_ResourceType l) (lock_ResourceKey l)) [] locks.

(** ** Queries *)

Definition task_where (id org : uuid) (t : Task) : bool :=
  bool_decide (task_ID t = id) && bool_decide (task_OrganizationID t = org).
Definition locks_where (id org : uuid) (l : TaskResourceLock) : bool :=
  bool_decide (lock_TaskID l = id) && bool_decide (lock_OrganizationID l = org).
Definition step_where (id org : uuid) (r : StepRun) : bool :=
  bool_decide (sr_ID r = id) && bool_decide (sr_OrganizationID r = org).
Definition steps_of_task (id org : uuid) (r : StepRun) : bool :=
  bool_decide (sr_TaskID r = id) && bool_decide (sr_OrganizationID r = org).

(** [ORDER BY resource_type, resource_key] *)
Definition lock_less : TaskResourceLock -> TaskResourceLock -> bool := λ l m,
  let t1 := resource_type_string (lock_ResourceType l) in
  let t2 := resource_type_string (lock_ResourceType m) in
  if bool_decide (t1 = t2) then string_less (lock_ResourceKey l) (lock_ResourceKey m)
  else string_less t1 t2.

(** [ORDER BY sort_order, step_key] *)
Definition step_less : StepRun -> StepRun -> bool := less_then sr_SortOrder (less_str_by sr_StepKey).

(** [ORDER BY queue_order, id] *)
Definition task_less : Task -> Task -> bool :=
  less_then task_QueueOrder (less_str_by (λ t, uuid_string (task_ID t))).

Definition getTaskResourceLocksByTaskID (id org : uuid) : tx (list TaskResourceLock) :=
  reads (λ s, stable_sort lock_less (select_where (locks_where id org) (Locks s))).

(** [FOR UPDATE]: the same rows. *)
Definition getTaskResourceLocksForUpdate := getTaskResourceLocksByTaskID.

(** [ORDER BY resource_type, resource_key, task_id] *)
Definition lock_task_less : TaskResourceLock -> TaskResourceLock -> bool := λ l m,
  if lock_less l m then true else if lock_less m l then false
  else string_less (uuid_string (lock_TaskID l)) (uuid_string (lock_TaskID m)).

Definition getTaskResourceLocksByTaskIDs (ids : list uuid) : tx (list TaskResourceLock) :=
  reads (λ s, stable_sort lock_task_less (select_where (λ l, contains ids (lock_TaskID l)) (Locks s))).

Definition getStepRunsByTaskID (id org : uuid) : tx (list StepRun) :=
  reads (λ s, stable_sort step_less (select_where (steps_of_task id org) (StepRuns s))).

Definition hydrateTask (t : Task) : tx HydratedTask :=
  getTaskResourceLocksByTaskID (task_ID t) (task_OrganizationID t) ≫= λ locks,
  getStepRunsByTaskID (task_ID t) (task_OrganizationID t) ≫= λ runs,
  mret {| ht_Task := t; ht_Locks := locks; ht_StepRuns := runs |}.

Definition getTask (id org : uuid) : tx HydratedTask := λ s,
  match select_where (task_where id org) (Tasks s) with
  | [] => Err NotFound
  | [t] => hydrateTask t s
  | _ => Err (Internal "could not collect Task: too many rows")
  end.

Definition GetTask := getTask.

Fixpoint hydrate_all (l : list Task) : tx (list HydratedTask) :=
  match l with
  | [] => mret []
  | t :: l => hydrateTask t ≫= λ h, hydrate_all l ≫= λ hs, mret (h :: hs)
  end.

Definition GetTasksByOrganizationID (org : uuid) : tx (list HydratedTask) :=
  reads (λ s, stable_sort task_less
    (select_where (λ t, bool_decide (task_OrganizationID t = org)) (Tasks s))) ≫= hydrate_all.

Definition getTasksByDeploymentPlanID (plan org : uuid) : tx (list HydratedTask) :=
  reads (λ s, stable_sort task_less (select_where (λ t,
    bool_decide (task_DeploymentPlanID t = plan) && bool_decide (task_OrganizationID t = org))
    (Tasks s))) ≫= hydrate_all.

Definition getTaskStatusForUpdate (id org : uuid) : tx TaskStatus := λ s,
  match select_where (task_where id org) (Tasks s) with
  | [] => Err NotFound
  | t :: _ => Ok (task_Status t, s)
  end.

Definition getStepRun (id org : uuid) : tx StepRun := λ s,
  match select_where (step_where id org) (StepRuns s) with
  | [] => Err NotFound
  | [r] => Ok (r, s)
  | _ => Err (Internal "could not collect StepRun: too many rows")
  end.

Definition getStepRunStatusForUpdate (id org : uuid) : tx StepRunStatus := λ s,
  match select_where (step_where id org) (StepRuns s) with
  | [] => Err NotFound
  | r :: _ => Ok (sr_Status r, s)
  end.

(** ** Row updates *)

Definition acquire_lock (now : Z) (l : TaskResourceLock) : TaskResourceLock :=
  {| lock_AcquiredAt := coalesce (lock_AcquiredAt l) now; lock_ReleasedAt := lock_ReleasedAt l;
     lock_OrganizationID := lock_OrganizationID l; lock_TaskID := lock_TaskID l;
     lock_ResourceType := lock_ResourceType l; lock_ResourceKey := lock_ResourceKey l;
     lock_ConcurrencyPolicy := lock_ConcurrencyPolicy l |}.

Definition release_lock (now : Z) (l : TaskResourceLock) : TaskResourceLock :=
  {| lock_AcquiredAt := lock_AcquiredAt l; lock_ReleasedAt := coalesce (lock_ReleasedAt l) now;
     lock_OrganizationID := lock_OrganizationID l; lock_TaskID := lock_TaskID l;
     lock_ResourceType := lock_ResourceType l; lock_ResourceKey := lock_ResourceKey l;
     lock_ConcurrencyPolicy := lock_ConcurrencyPolicy l |}.

Definition release_lease (now : Z) (l : TaskLease) : TaskLease :=
  {| lease_ID := lease_ID l; lease_OrganizationID := lease_OrganizationID l;
     lease_TaskID := lease_TaskID l; lease_AgentID := lease_AgentID l;
     lease_ExecutorType := lease_ExecutorType l; lease_TokenHash := lease_TokenHash l;
     lease_LeasedAt := lease_LeasedAt l; lease_ExpiresAt := lease_ExpiresAt l;
     lease_HeartbeatAt := lease_HeartbeatAt l; lease_Attempt := lease_Attempt l;
     lease_ReleasedAt := coalesce (lease_ReleasedAt l) now |}.

Definition with_task_status (status : TaskStatus) (started completed : option Z) (t : Task) : Task :=
  {| task_ID := task_ID t; task_QueuedAt := task_QueuedAt t; task_StartedAt := started;
     task_CompletedAt := completed; task_OrganizationID := task_OrganizationID t;
     task_DeploymentPlanID := task_DeploymentPlanID t;
     task_DeploymentPlanTargetID := task_DeploymentPlanTargetID t;
     task_DeploymentTargetID := task_DeploymentTargetID t;
     task_ApplicationID := task_ApplicationID t; task_ReleaseBundleID := task_ReleaseBundleID t;
     task_ChannelID := task_ChannelID t; task_EnvironmentID := task_EnvironmentID t;
     task_ActorUserAccountID := task_ActorUserAccountID t; task_Status := status;
     task_QueueOrder := task_QueueOrder t |}.

(** The [SET] clause of [updateTaskStatus]. *)
Definition set_task_status (status : TaskStatus) (now : Z) (t : Task) : Task :=
  with_task_status status
    (if bool_decide (status = TaskStatusRunning) && bool_decide (task_StartedAt t = None)
     then Some now else task_StartedAt t)
    (if task_status_terminal status then Some now else task_CompletedAt t) t.

(** The [SET] clause of [cancelOlderQueuedTasksForResource]. *)
Definition cancel_task (now : Z) (t : Task) : Task :=
  with_task_status TaskStatusCanceled (task_StartedAt t) (coalesce (task_CompletedAt t) now) t.

Definition with_step_status (status : StepRunStatus) (started completed : option Z) (r : StepRun)
    : StepRun :=
  {| sr_ID := sr_ID r; sr_StartedAt := started; sr_CompletedAt := completed;
     sr_OrganizationID := sr_OrganizationID r; sr_TaskID := sr_TaskID r;
     sr_DeploymentPlanID := sr_DeploymentPlanID r;
     sr_DeploymentPlanStepID := sr_DeploymentPlanStepID r; sr_StepKey := sr_StepKey r;
     sr_Name := sr_Name r; sr_ActionType := sr_ActionType r; sr_Status := status;
     sr_SortOrder := sr_SortOrder r; sr_SkippedReason := sr_SkippedReason r |}.

(** The [SET] clause of [updateStepRunStatus]. *)
Definition set_step_status (status : StepRunStatus) (now : Z) (r : StepRun) : StepRun :=
  with_step_status status
    (if bool_decide (status = StepRunRunning) && bool_decide (sr_StartedAt r = None)
     then Some now else sr_StartedAt r)
    (if step_status_terminal status then Some now else sr_CompletedAt r) r.

Definition updateStepRunStatus (env : tx_env) (id org : uuid) (status : StepRunStatus) : tx unit :=
  modifies (λ s, set_step_runs (update_where (step_where id org)
    (set_step_status status (now env)) (StepRuns s)) s).

(** ** Locks *)

Definition same_resource (l m : TaskResourceLock) : bool :=
  bool_decide (lock_OrganizationID l = lock_OrganizationID m)
  && bool_decide (lock_ResourceType l = lock_ResourceType m)
  && bool_decide (lock_ResourceKey l = lock_ResourceKey m).

Definition is_null (column : option Z) : bool := bool_decide (column = None).

(** The lock is held in the table: acquired and not released. *)
Definition lock_active (l : TaskResourceLock) : bool :=
  negb (is_null (lock_AcquiredAt l)) && is_null (lock_ReleasedAt l).

(** [JOIN Task t ON t.id = trl.task_id AND t.organization_id = trl.organization_id] *)
Definition lock_task_has (cond : Task -> bool) (s : db) (l : TaskResourceLock) : bool :=
  exists_where (λ t, task_where (lock_TaskID l) (lock_OrganizationID l) t && cond t) (Tasks s).

Definition status_in (statuses : list TaskStatus) (t : Task) : bool := contains statuses (task_Status t).

Definition hasActiveTaskResourceConflict (lock : TaskResourceLock) (id : uuid) (s : db) : bool :=
  exists_where (λ l, same_resource lock l && negb (bool_decide (lock_TaskID l = id))
    && lock_active l && lock_task_has (status_in [TaskStatusRunning]) s l) (Locks s).

Definition hasNonTerminalTaskResourceConflict (lock : TaskResourceLock) (ids : list uuid) (s : db) : bool :=
  exists_where (λ l, same_resource lock l && negb (contains ids (lock_TaskID l))
    && is_null (lock_ReleasedAt l)
    && lock_task_has (status_in [TaskStatusQueued; TaskStatusRunning]) s l) (Locks s).

Definition lock_conflict_message : string := "task resource lock is held by another running task".

Definition acquireTaskResourceLocks (env : tx_env) (id org : uuid) : tx unit :=
  getTaskResourceLocksForUpdate id org ≫= λ locks,
  (λ s, if existsb (λ l, negb (bool_decide (lock_ConcurrencyPolicy l = PolicyAllowParallel))
                         && hasActiveTaskResourceConflict l id s) locks
        then Err (Conflict lock_conflict_message) else Ok (tt, s)) ≫= λ _,
  if bool_decide (length locks = 0) then mret tt
  else modifies (λ s, set_locks (update_where (λ l, locks_where id org l && is_null (lock_ReleasedAt l))
         (acquire_lock (now env)) (Locks s)) s).

Definition releaseTaskResourceLocks (env : tx_env) (id org : uuid) : tx unit :=
  modifies (λ s, set_locks (update_where (λ l, locks_where id org l && is_null (lock_ReleasedAt l))
    (release_lock (now env)) (Locks s)) s).

Definition leases_where (id org : uuid) (l : TaskLease) : bool :=
  bool_decide (lease_TaskID l = id) && bool_decide (lease_OrganizationID l = org).

(** [internal/db/task_leases.go] *)
Definition releaseActiveTaskLeasesForTask (env : tx_env) (id org : uuid) : tx unit :=
  modifies (λ s, set_leases (update_where (λ l, leases_where id org l && is_null (lease_ReleasedAt l))
    (release_lease (now env)) (Leases s)) s).

Definition updateTaskStatus (env : tx_env) (id org : uuid) (status : TaskStatus) : tx unit :=
  modifies (λ s, set_tasks (update_where (task_where id org)
    (set_task_status status (now env)) (Tasks s)) s) ≫= λ _,
  if task_status_terminal status then
    releaseActiveTaskLeasesForTask env id org ≫= λ _, releaseTaskResourceLocks env id org
  else mret tt.

(** ** The explicit transitions *)

Definition TransitionTaskState (env : tx_env) (r : TransitionTaskStateRequest) (s : db)
    : result apierror HydratedTask * db :=
  match validateTransitionTaskStateRequest r with
  | Err e => (Err e, s)
  | Ok _ =>
      RunTx (
        getTaskStatusForUpdate (tt_TaskID r) (tt_OrganizationID r) ≫= λ current,
        (if isAllowedTaskTransition current (tt_Status r) then mret tt
         else throw (Conflict ("cannot transition task from " +:+ task_status_string current
                        +:+ " to " +:+ task_status_string (tt_Status r)))) ≫= λ _,
        (if bool_decide (tt_Status r = TaskStatusRunning)
         then acquireTaskResourceLocks env (tt_TaskID r) (tt_OrganizationID r) else mret tt) ≫= λ _,
        updateTaskStatus env (tt_TaskID r) (tt_OrganizationID r) (tt_Status r) ≫= λ _,
        getTask (tt_TaskID r) (tt_OrganizationID r)) s
  end.

Definition TransitionStepRunState (env : tx_env) (r : TransitionStepRunStateRequest) (s : db)
    : result apierror StepRun * db :=
  match validateTransitionStepRunStateRequest r with
  | Err e => (Err e, s)
  | Ok _ =>
      RunTx (
        getStepRunStatusForUpdate (ts_StepRunID r) (ts_OrganizationID r) ≫= λ current,
        (if isAllowedStepRunTransition current (ts_Status r) then mret tt
         else throw (Conflict ("cannot transition step run from " +:+ step_status_string current
                        +:+ " to " +:+ step_status_string (ts_Status r)))) ≫= λ _,
        updateStepRunStatus env (ts_StepRunID r) (ts_OrganizationID r) (ts_Status r) ≫= λ _,
        getStepRun (ts_StepRunID r) (ts_OrganizationID r)) s
  end.

(** ** Creation *)

(** What the task queue asks of the preflight ([evaluateAndPersistDeploymentPreflight],
    see [Preflight]): whether the plan passes, and the message when it does not.
    The preflight writes its own tables, which the queue does not read. *)
Class PreflightGate := {
  evaluateAndPersistDeploymentPreflight : DeploymentPlan -> uuid -> result apierror (bool * string);
}.

Definition GetDeploymentPlan (id org : uuid) : tx DeploymentPlan := λ s,
  match select_where (λ p, bool_decide (plan_ID p = id) && bool_decide (plan_OrganizationID p = org))
          (Plans s) with
  | [] => Err NotFound
  | p :: _ => Ok (p, s)
  end.

Definition uuidOrNil (id : uuid) : option uuid := if is_nil id then None else Some id.

(** [ORDER BY dpt.sort_order, dpt.deployment_target_id] *)
Definition plan_target_less : PlanTarget -> PlanTarget -> bool :=
  less_then pt_SortOrder (less_str_by (λ t, uuid_string (pt_DeploymentTargetID t))).

Definition new_task (env : tx_env) (plan : DeploymentPlan) (actor : option uuid) (seq : Z)
    (i : nat) (target : PlanTarget) : Task :=
  {| task_ID := fresh_task env i; task_QueuedAt := now env; task_StartedAt := None;
     task_CompletedAt := None; task_OrganizationID := plan_OrganizationID plan;
     task_DeploymentPlanID := plan_ID plan; task_DeploymentPlanTargetID := pt_ID target;
     task_DeploymentTargetID := pt_DeploymentTargetID target;
     task_ApplicationID := plan_ApplicationID plan;
     task_ReleaseBundleID := plan_ReleaseBundleID plan; task_ChannelID := plan_ChannelID plan;
     task_EnvironmentID := plan_EnvironmentID plan; task_ActorUserAccountID := actor;
     task_Status := TaskStatusQueued; task_QueueOrder := (seq + Z.of_nat i + 1)%Z |}.

(** [ON CONFLICT (deployment_plan_id, deployment_plan_target_id) DO NOTHING]: a
    conflicting row draws a queue order and is dropped. *)
Definition plan_target_taken (s : db) (t : Task) : bool :=
  exists_where (λ u, bool_decide (task_DeploymentPlanID u = task_DeploymentPlanID t)
    && bool_decide (task_DeploymentPlanTargetID u = task_DeploymentPlanTargetID t)) (Tasks s).

Definition insertTasksForDeploymentPlan (env : tx_env) (plan : DeploymentPlan) (actor : option uuid)
    : tx (list Task) := λ s,
  let rows := imap (new_task env plan actor (queue_order_seq s))
                (stable_sort plan_target_less (plan_Targets plan)) in
  let created := select_where (λ t, negb (plan_target_taken s t)) rows in
  Ok (created, set_seq (queue_order_seq s + Z.of_nat (length rows))
                 (set_tasks (Tasks s ++ created) s)).

Definition new_lock (t : Task) (ty : TaskLockResourceType) (key : string) (p : TaskConcurrencyPolicy)
    : TaskResourceLock :=
  {| lock_AcquiredAt := None; lock_ReleasedAt := None; lock_OrganizationID := task_OrganizationID t;
     lock_TaskID := task_ID t; lock_ResourceType := ty; lock_ResourceKey := key;
     lock_ConcurrencyPolicy := p |}.

(** The lock rows of one task: its target, its components, the additional resources. *)
Definition task_locks (components : list PlanTargetComponent) (defaultPolicy : TaskConcurrencyPolicy)
    (additional : list TaskLockResourceRequest) (t : Task) : list TaskResourceLock :=
  let target := uuid_string (task_DeploymentTargetID t) in
  new_lock t ResourceDeploymentTarget target defaultPolicy
  :: ((λ c, new_lock t ResourceTargetComponent (target +:+ ":" +:+ pc_Component c) defaultPolicy)
        <$> select_where (λ c, bool_decide (pc_DeploymentPlanTargetID c = task_DeploymentPlanTargetID t))
              components)
  ++ ((λ r, new_lock t (lr_ResourceType r) (lr_ResourceKey r) (lr_ConcurrencyPolicy r)) <$> additional).

(** [taskresourcelock_task_resource_unique]: a violation is mapped to a conflict. *)
Definition lock_unique_key (l : TaskResourceLock) : uuid * TaskLockResourceType * string :=
  (lock_TaskID l, lock_ResourceType l, lock_ResourceKey l).

Definition insertTaskResourceLocksForTasks (created : list Task) (components : list PlanTargetComponent)
    (defaultPolicy : TaskConcurrencyPolicy) (additional : list TaskLockResourceRequest) : tx unit := λ s,
  let locks := created ≫= task_locks components defaultPolicy additional in
  if bool_decide (NoDup (lock_unique_key <$> (Locks s ++ locks)))
  then Ok (tt, set_locks (Locks s ++ locks) s)
  else Err (Conflict "could not insert resource locks Task").

Definition cancelOlderQueuedTasksForResource (env : tx_env) (lock : TaskResourceLock) (ids : list uuid)
    : tx unit :=
  let older s l := same_resource lock l && negb (contains ids (lock_TaskID l)) in
  modifies (λ s,
    let older_tasks := select_where (λ l, older s l && is_null (lock_ReleasedAt l)
                         && lock_task_has (status_in [TaskStatusQueued]) s l) (Locks s) in
    set_tasks (update_where (λ t, contains (lock_TaskID <$> older_tasks) (task_ID t)
        && bool_decide (task_OrganizationID t = lock_OrganizationID lock))
      (cancel_task (now env)) (Tasks s)) s) ≫= λ _,
  modifies (λ s,
    let older_tasks := select_where (λ l, older s l
                         && lock_task_has (status_in [TaskStatusCanceled]) s l) (Locks s) in
    set_locks (update_where (λ l, contains (lock_TaskID <$> older_tasks) (lock_TaskID l)
        && bool_decide (lock_OrganizationID l = lock_OrganizationID lock)
        && is_null (lock_ReleasedAt l))
      (release_lock (now env)) (Locks s)) s).

Fixpoint apply_policies (env : tx_env) (ids : list uuid) (locks : list TaskResourceLock) : tx unit :=
  match locks with
  | [] => mret tt
  | lock :: locks =>
      match lock_ConcurrencyPolicy lock with
      | PolicyRejectNew => λ s,
          if hasNonTerminalTaskResourceConflict lock ids s
          then Err (Conflict "task resource lock conflicts with an existing queued or running task")
          else apply_policies env ids locks s
      | PolicyCancelOlder =>
          cancelOlderQueuedTasksForResource env lock ids ≫= λ _, apply_policies env ids locks
      | _ => apply_policies env ids locks
      end
  end.

Definition applyTaskConcurrencyPolicies (env : tx_env) (created : list Task) : tx unit :=
  let ids := task_ID <$> created in
  getTaskResourceLocksByTaskIDs ids ≫= λ locks, apply_policies env ids (distinctTaskResourceLocks locks).

(** [ORDER BY dps.sort_order, dps.step_key] *)
Definition plan_step_less : PlanStep -> PlanStep -> bool := less_then ps_SortOrder (less_str_by ps_StepKey).

Definition new_step_run (env : tx_env) (i : nat) (row : Task * PlanStep) : StepRun :=
  let '(t, step) := row in
  {| sr_ID := fresh_step env i; sr_StartedAt := None;
     sr_CompletedAt := if ps_Included step then None else Some (now env);
     sr_OrganizationID := task_OrganizationID t; sr_TaskID := task_ID t;
     sr_DeploymentPlanID := task_DeploymentPlanID t; sr_DeploymentPlanStepID := ps_ID step;
     sr_StepKey := ps_StepKey step; sr_Name := ps_Name step; sr_ActionType := ps_ActionType step;
     sr_Status := if ps_Included step then StepRunPending else StepRunSkipped;
     sr_SortOrder := ps_SortOrder step;
     sr_SkippedReason := if ps_Included step then "" else ps_ExcludedReason step |}.

(** [Task t JOIN DeploymentPlanStep dps]: every task with the steps of its plan. *)
Definition insertStepRunsForTasks (env : tx_env) (created : list Task) : tx unit := λ s,
  let tasks := stable_sort task_less
                 (select_where (λ t, contains (task_ID <$> created) (task_ID t)) (Tasks s)) in
  let rows := tasks ≫= λ t,
    select_where (λ p, bool_decide (plan_ID p = task_DeploymentPlanID t)
                       && bool_decide (plan_OrganizationID p = task_OrganizationID t)) (Plans s) ≫= λ p,
    pair t <$> stable_sort plan_step_less (plan_Steps p) in
  let taken (r : StepRun) := exists_where (λ u, bool_decide (sr_TaskID u = sr_TaskID r)
    && bool_decide (sr_DeploymentPlanStepID u = sr_DeploymentPlanStepID r)) (StepRuns s) in
  Ok (tt, set_step_runs (StepRuns s ++ select_where (λ r, negb (taken r)) (imap (new_step_run env) rows)) s).

Definition set_plan_status (st : PlanStatus) (p : DeploymentPlan) : DeploymentPlan :=
  {| plan_ID := plan_ID p; plan_OrganizationID := plan_OrganizationID p; plan_Status := st;
     plan_ApplicationID := plan_ApplicationID p; plan_ReleaseBundleID := plan_ReleaseBundleID p;
     plan_ChannelID := plan_ChannelID p; plan_EnvironmentID := plan_EnvironmentID p;
     plan_Targets := plan_Targets p; plan_TargetComponents := plan_TargetComponents p;
     plan_Steps := plan_Steps p |}.

Definition plan_ready_message : string := "deployment plan must be READY before tasks can be created".

Definition markDeploymentPlanExecuted (plan org : uuid) : tx unit := λ s,
  let cond p := bool_decide (plan_ID p = plan) && bool_decide (plan_OrganizationID p = org)
                && bool_decide (plan_Status p = PlanReady) in
  if bool_decide (length (select_where cond (Plans s)) = 1)
  then Ok (tt, set_plans (update_where cond (set_plan_status PlanExecuted) (Plans s)) s)
  else Err (Conflict plan_ready_message).

(** The body of the transaction: the tasks, or the message of a failed
    preflight, which is committed with its report before it becomes an error.
    The advisory locks order concurrent creations; under them the second test
    for existing tasks repeats the first. *)
Definition create_tasks_tx `{PreflightGate} (env : tx_env) (r : CreateTasksForDeploymentPlanRequest)
    : tx (list HydratedTask + string) :=
  let '(defaultPolicy, lockResources) := normalizeTaskLockResourceRequests r in
  GetDeploymentPlan (ct_DeploymentPlanID r) (ct_OrganizationID r) ≫= λ plan,
  getTasksByDeploymentPlanID (ct_DeploymentPlanID r) (ct_OrganizationID r) ≫= λ existing,
  if negb (bool_decide (length existing = 0)) then mret (inl existing) else
  if negb (bool_decide (plan_Status plan = PlanReady)) then throw (Conflict plan_ready_message) else
  lift_result (evaluateAndPersistDeploymentPreflight plan (ct_ActorUserAccountID r)) ≫= λ '(passed, message),
  if negb passed then mret (inr message) else
  insertTasksForDeploymentPlan env plan (uuidOrNil (ct_ActorUserAccountID r)) ≫= λ created,
  insertTaskResourceLocksForTasks created (plan_TargetComponents plan) defaultPolicy lockResources ≫= λ _,
  applyTaskConcurrencyPolicies env created ≫= λ _,
  insertStepRunsForTasks env created ≫= λ _,
  markDeploymentPlanExecuted (plan_ID plan) (plan_OrganizationID plan) ≫= λ _,
  getTasksByDeploymentPlanID (ct_DeploymentPlanID r) (ct_OrganizationID r) ≫= λ tasks,
  mret (inl tasks).

Definition CreateTasksForDeploymentPlan `{PreflightGate} (env : tx_env)
    (r : CreateTasksForDeploymentPlanRequest) (s : db) : result apierror (list HydratedTask) * db :=
  match validateCreateTasksForDeploymentPlanRequest r with
  | Err e => (Err e, s)
  | Ok _ =>
      match RunTx (create_tasks_tx env r) s with
      | (Ok (inl tasks), s') => (Ok tasks, s')
      | (Ok (inr message), s') => (Err (Conflict message), s')
      | (Err e, s') => (Err e, s')
      end
  end.
