(* ===== verification/TaskLocks.v ===== *)
(** * The order of the resource locks ([internal/db/task_queue.go])

    Transactions that need several resources take the advisory locks of their
    groups in the order of [distinctTaskResourceLockGroups]. Every two of them
    take common groups in the same order, so they cannot wait for each other
    in a circle. *)
From S2P Require Import Prelude GoStrings Uuid TaskStore TaskQueue.
Open Scope list_scope.

(** The group as the database sees it: a resource type is a string. *)
Definition group_view (g : taskResourceLockGroup) : uuid * string * string :=
  (group_OrganizationID g, resource_type_string (group_ResourceType g), group_ResourceKey g).

Lemma group_key_injective g h :
  taskResourceLockGroupKey g = taskResourceLockGroupKey h -> group_view g = group_view h.
Proof.
  unfold taskResourceLockGroupKey, group_view. cbv zeta. rewrite <- !uuid_print_app.
  intros E. apply uuid_print_inj in E as [-> E]. injection E as E.
  apply field_inj in E as [-> E]. injection E as E.
  destruct (field_inj (group_ResourceKey g) (group_ResourceKey h) "" "") as [-> _]; [|done].
  rewrite !string_app_nil_r. exact E.
Qed.

Lemma group_view_key g h : group_view g = group_view h -> taskResourceLockGroupKey g = taskResourceLockGroupKey h.
Proof. unfold group_view, taskResourceLockGroupKey. by intros [= -> -> ->]. Qed.

(** The groups are strictly ordered by their keys. *)
Lemma groups_sorted groups :
  StronglySorted (λ g h, string_less (taskResourceLockGroupKey g) (taskResourceLockGroupKey h) = true)
    (distinctTaskResourceLockGroups groups).
Proof.
  unfold distinctTaskResourceLockGroups. set (l := dedup_by _ _ _).
  assert (NoDup (taskResourceLockGroupKey <$> stable_sort (less_str_by taskResourceLockGroupKey) l)) as Hnd.
  { rewrite stable_sort_perm. apply dedup_by_keys. }
  pose proof (stable_sort_sorted (less_str_by taskResourceLockGroupKey) l) as Hs.
  induction Hs as [|g k Hs IH Hg]; [constructor|].
  rewrite fmap_cons in Hnd. apply NoDup_cons in Hnd as [Hn Hnd].
  constructor; [by apply IH|]. rewrite Forall_forall in Hg |- *. intros h Hh. specialize (Hg h Hh).
  unfold not_after, less_str_by in Hg.
  destruct (string_less (taskResourceLockGroupKey g) (taskResourceLockGroupKey h)) eqn:E; [done|].
  exfalso. apply Hn. rewrite (string_less_total _ _ E Hg). by apply list_elem_of_fmap_2.
Qed.

(** The lock order. The list of lock groups of a transaction has every
    group it was asked for exactly once, and two groups that two transactions
    both take are taken in the same order by both. *)
Theorem lock_groups_consistent_order groups1 groups2 :
  let out1 := distinctTaskResourceLockGroups groups1 in
  let out2 := distinctTaskResourceLockGroups groups2 in
  (forall v, v ∈ group_view <$> out1 <-> v ∈ group_view <$> groups1)
  /\ NoDup (group_view <$> out1)
  /\ (forall i j i' j' g h g' h',
        out1 !! i = Some g -> out1 !! j = Some h -> out2 !! i' = Some g' -> out2 !! j' = Some h' ->
        group_view g' = group_view g -> group_view h' = group_view h -> i < j -> i' < j').
Proof.
  cbv zeta. pose proof (groups_sorted groups1) as Hs1. pose proof (groups_sorted groups2) as Hs2.
  split_and!.
  - intros v. unfold distinctTaskResourceLockGroups. rewrite stable_sort_perm. split.
    + intros (g & -> & Hg%dedup_by_sub)%list_elem_of_fmap. by apply list_elem_of_fmap_2.
    + intros (g & -> & Hg)%list_elem_of_fmap.
      destruct (dedup_by_complete taskResourceLockGroupKey [] groups1 g Hg) as [Hn|(h & E & Hh)%list_elem_of_fmap];
        [by apply elem_of_nil in Hn|].
      rewrite (group_key_injective g h E). by apply list_elem_of_fmap_2.
  - assert (NoDup (taskResourceLockGroupKey <$> distinctTaskResourceLockGroups groups1)) as Hnd.
    { unfold distinctTaskResourceLockGroups. rewrite stable_sort_perm. apply dedup_by_keys. }
    apply NoDup_alt. intros i j v Hi Hj. rewrite list_lookup_fmap in Hi, Hj.
    apply fmap_Some in Hi as (g & Hg & ->), Hj as (h & Hh & E).
    apply (NoDup_lookup _ _ _ (taskResourceLockGroupKey g) Hnd); rewrite list_lookup_fmap;
      [by rewrite Hg|by rewrite Hh, (group_view_key g h E)].
  - intros i j i' j' g h g' h' Hi Hj Hi' Hj' Eg%group_view_key Eh%group_view_key Hij.
    pose proof (StronglySorted_lookup_lt _ _ _ _ _ _ Hs1 Hij Hi Hj) as Hlt. cbv beta in Hlt.
    destruct (Nat.lt_trichotomy i' j') as [?|[->|Hji]]; [done| |]; exfalso.
    + rewrite Hi' in Hj'. injection Hj' as ->. rewrite <- Eg, <- Eh in Hlt.
      by rewrite (swo_asym _ _ Hlt) in Hlt.
    + pose proof (StronglySorted_lookup_lt _ _ _ _ _ _ Hs2 Hji Hj' Hi') as Hgt. cbv beta in Hgt.
      rewrite Eg, Eh in Hgt. by rewrite (swo_asym _ _ Hgt) in Hlt.
Qed.
