(* ===== verification/TaskLeases.v ===== *)
(** * Task leases ([internal/db/task_leases.go])

    An executor, the agent of a deployment target or the hub, leases the next
    task with runnable steps, receives the steps that are ready, and keeps the
    lease alive by heartbeats. *)
From S2P Require Import Prelude GoStrings Uuid TaskStore TaskQueue.
Open Scope list_scope.

(** ** The ready steps of a task *)

Record taskLeaseStepCandidate := {
  c_StepRunID : uuid;
  c_StepKey : string;
  c_Name : string;
  c_ActionType : string;
  c_SortOrder : Z;
  c_Status : StepRunStatus;
  c_ExecutionLocation : string;
  c_Included : bool;
  c_Dependencies : list string;
}.

Definition taskLeaseDependencyStatusSatisfied (s : StepRunStatus) : bool :=
  bool_decide (s = StepRunSucceeded) || bool_decide (s = StepRunSkipped).

(** The Go maps [satisfied] and [selected] are the lists of their true keys. *)
Definition taskLeaseDependenciesSatisfied (dependencies satisfied : list string) : bool :=
  forallb (contains satisfied) dependencies.

(** The loop state: [ready] in order, and the keys [selected] and [satisfied]. *)
Record ready_state := {
  rs_ready : list taskLeaseStepCandidate;
  rs_selected : list string;
  rs_satisfied : list string;
}.

Definition selectable (location : string) (st : ready_state) (c : taskLeaseStepCandidate) : bool :=
  negb (contains (rs_selected st) (c_StepKey c) || negb (c_Included c)
        || negb (bool_decide (c_ExecutionLocation c = location))
        || negb (bool_decide (c_Status c = StepRunPending))
        || negb (taskLeaseDependenciesSatisfied (c_Dependencies c) (rs_satisfied st))).

Definition select_candidate (c : taskLeaseStepCandidate) (st : ready_state) : ready_state :=
  {| rs_ready := rs_ready st ++ [c]; rs_selected := c_StepKey c :: rs_selected st;
     rs_satisfied := c_StepKey c :: rs_satisfied st |}.

(** One pass of the inner loop, with the flag [progressed]. *)
Fixpoint ready_pass (location : string) (cs : list taskLeaseStepCandidate) (st : ready_state)
    : bool * ready_state :=
  match cs with
  | [] => (false, st)
  | c :: cs =>
      if selectable location st c
      then let '(_, st') := ready_pass location cs (select_candidate c st) in (true, st')
      else ready_pass location cs st
  end.

(** The outer loop, which stops after a pass without progress. *)
Fixpoint ready_loop (fuel : nat) (location : string) (cs : list taskLeaseStepCandidate)
    (st : ready_state) : ready_state :=
  match fuel with
  | 0 => st
  | S fuel =>
      let '(progressed, st') := ready_pass location cs st in
      if progressed then ready_loop fuel location cs st' else st'
  end.

Definition initially_satisfied (cs : list taskLeaseStepCandidate) : list string :=
  c_StepKey <$> select_where (λ c, taskLeaseDependencyStatusSatisfied (c_Status c)) cs.

(** Every pass but the last selects a candidate, so one more than their number
    is enough. *)
Definition readyTaskLeaseStepCandidates (cs : list taskLeaseStepCandidate) (location : string)
    : list taskLeaseStepCandidate :=
  rs_ready (ready_loop (S (length cs)) location cs
    {| rs_ready := []; rs_selected := []; rs_satisfied := initially_satisfied cs |}).

(** ** Queries *)

(** [lower(trim(column))]: SQL trims blanks only. *)
Fixpoint ltrim_blanks (s : string) : string :=
  match s with
  | String a r => if (code a =? 32)%N then ltrim_blanks r else s
  | EmptyString => ""
  end.
Fixpoint rtrim_blanks (s : string) : string :=
  match s with
  | String a r => if bool_decide (ltrim_blanks s = "") then "" else String a (rtrim_blanks r)
  | EmptyString => ""
  end.
Definition lower_trim (s : string) : string := ToLower (rtrim_blanks (ltrim_blanks s)).

(** [StepRun sr JOIN DeploymentPlanStep dps]: the plan steps of a step run. *)
Definition join_plan_step (s : db) (r : StepRun) : list PlanStep :=
  select_where (λ p, bool_decide (plan_ID p = sr_DeploymentPlanID r)
                     && bool_decide (plan_OrganizationID p = sr_OrganizationID r)) (Plans s) ≫= λ p,
  select_where (λ d, bool_decide (ps_ID d = sr_DeploymentPlanStepID r)) (plan_Steps p).

Definition getTaskLeaseStepCandidates (id org : uuid) : tx (list taskLeaseStepCandidate) :=
  reads (λ s, stable_sort step_less (select_where (steps_of_task id org) (StepRuns s)) ≫= λ r,
    (λ d, {| c_StepRunID := sr_ID r; c_StepKey := sr_StepKey r; c_Name := sr_Name r;
             c_ActionType := sr_ActionType r; c_SortOrder := sr_SortOrder r;
             c_Status := sr_Status r; c_ExecutionLocation := lower_trim (ps_ExecutionLocation d);
             c_Included := ps_Included d; c_Dependencies := ps_Dependencies d |})
    <$> join_plan_step s r).

Definition getReadyTaskLeaseStepCandidates (id org : uuid) (location : string)
    : tx (list taskLeaseStepCandidate) :=
  getTaskLeaseStepCandidates id org ≫= λ cs, mret (readyTaskLeaseStepCandidates cs location).

Definition lease_expired (now : Z) (l : TaskLease) : bool := (lease_ExpiresAt l <=? now)%Z.

Definition active_leases (s : db) (t : Task) : list TaskLease :=
  select_where (λ l, leases_where (task_ID t) (task_OrganizationID t) l && is_null (lease_ReleasedAt l))
    (Leases s).

(** [NOT EXISTS (... dependency_run.id IS NULL OR dependency_run.status NOT IN ...)] *)
Definition dependency_satisfied (s : db) (r : StepRun) (key : string) : bool :=
  let runs := select_where (λ d, steps_of_task (sr_TaskID r) (sr_OrganizationID r) d
                                 && bool_decide (sr_StepKey d = key)) (StepRuns s) in
  negb (bool_decide (length runs = 0))
  && forallb (λ d, taskLeaseDependencyStatusSatisfied (sr_Status d)) runs.

Definition step_runnable (location : string) (s : db) (r : StepRun) : bool :=
  (bool_decide (sr_Status r = StepRunPending) || bool_decide (sr_Status r = StepRunRunning))
  && existsb (λ d, ps_Included d && bool_decide (lower_trim (ps_ExecutionLocation d) = location)
       && forallb (dependency_satisfied s r) (ps_Dependencies d)) (join_plan_step s r).

Definition bundle_published (s : db) (t : Task) : bool :=
  exists_where (λ b, bool_decide (bundle_ID b = task_ReleaseBundleID t)
    && bool_decide (bundle_OrganizationID b = task_OrganizationID t)
    && bool_decide (bundle_Status b = BundlePublished)) (Bundles s).

(** The [WHERE] clause that the agent's and the hub's query share. *)
Definition lease_candidate (now : Z) (location : string) (s : db) (t : Task) : bool :=
  (bool_decide (task_Status t = TaskStatusQueued)
   || (bool_decide (task_Status t = TaskStatusRunning)
       && (bool_decide (length (active_leases s t) = 0)
           || existsb (lease_expired now) (active_leases s t))))
  && bundle_published s t
  && exists_where (λ r, steps_of_task (task_ID t) (task_OrganizationID t) r && step_runnable location s r)
       (StepRuns s).

(** [ORDER BY t.queue_order, t.id LIMIT 1] *)
Definition first_task (cond : Task -> bool) (s : db) : option Task :=
  head (stable_sort task_less (select_where cond (Tasks s))).

Definition getNextTaskLeaseCandidateForUpdate (now : Z) (org agent : uuid) (s : db) : option Task :=
  first_task (λ t, bool_decide (task_OrganizationID t = org)
    && bool_decide (task_DeploymentTargetID t = agent) && lease_candidate now "target" s t) s.

Definition getNextHubTaskLeaseCandidateForUpdate (now : Z) (s : db) : option Task :=
  first_task (lease_candidate now "hub" s) s.

(** [None] when the task or its bundle does not exist. *)
Definition lockTaskReleaseBundlePublishedForLease (id org : uuid) (s : db) : option bool :=
  let bundles := select_where (task_where id org) (Tasks s) ≫= λ t,
    select_where (λ b, bool_decide (bundle_ID b = task_ReleaseBundleID t)
      && bool_decide (bundle_OrganizationID b = task_OrganizationID t)) (Bundles s) in
  (λ b, bool_decide (bundle_Status b = BundlePublished)) <$> head bundles.

(** ** Expired leases *)

Definition max_attempt (l : list TaskLease) : Z :=
  foldl (λ next l, if (next <=? lease_Attempt l)%Z then (lease_Attempt l + 1)%Z else next) 1%Z l.

Definition resetInterruptedStepRunsForTaskExecutor (id org : uuid) (e : TaskExecutorType) : tx unit :=
  modifies (λ s, set_step_runs (update_where
    (λ r, steps_of_task id org r && bool_decide (sr_Status r = StepRunRunning)
          && existsb (λ d, bool_decide (lower_trim (ps_ExecutionLocation d) = ExecutionLocation e))
               (join_plan_step s r))
    (λ r, with_step_status StepRunPending (sr_StartedAt r) (sr_CompletedAt r) r) (StepRuns s)) s).

Fixpoint reset_interrupted (id org : uuid) (es : list TaskExecutorType) : tx unit :=
  match es with
  | [] => mret tt
  | e :: es =>
      if negb (executor_valid e)
      then throw (Internal "could not reset interrupted StepRuns: invalid TaskLease executor type")
      else resetInterruptedStepRunsForTaskExecutor id org e ≫= λ _, reset_interrupted id org es
  end.

Definition releaseExpiredTaskLeasesAndNextAttempt (env : tx_env) (id org : uuid) : tx Z :=
  reads (λ s, max_attempt (select_where (leases_where id org) (Leases s))) ≫= λ nextAttempt,
  let expired l := leases_where id org l && is_null (lease_ReleasedAt l) && lease_expired (now env) l in
  reads (λ s, lease_ExecutorType <$> select_where expired (Leases s)) ≫= λ executorTypes,
  modifies (λ s, set_leases (update_where expired (release_lease (now env)) (Leases s)) s) ≫= λ _,
  reset_interrupted id org executorTypes ≫= λ _,
  mret nextAttempt.

(** ** The lease handed to the executor *)

Record TaskLeaseStep := {
  tls_StepRunID : uuid;
  tls_StepKey : string;
  tls_Name : string;
  tls_ActionType : string;
  tls_SecretReferences : list string;
  tls_IdempotencyKey : string;
  tls_SortOrder : Z;
}.

(** [types.TaskLease] with its token, task and steps. *)
Record LeasedTask := {
  lt_Lease : TaskLease;
  lt_Token : string;
  lt_Task : HydratedTask;
  lt_Steps : list TaskLeaseStep;
}.

(** What the leases ask of the secret store: the input bindings of a step with
    the values of the secrets they name, here the references that were
    resolved ([resolveTaskLeaseStepSecrets]), or the error of a missing one. *)
Class SecretResolver := {
  resolveTaskLeaseStepSecrets : Task -> taskLeaseStepCandidate -> result apierror (list string);
}.

(** 2 minutes, in microseconds. *)
Definition taskLeaseDuration : Z := 120000000.

Section leases.
Context `{Crypto} `{SecretResolver}.

Definition hashTaskLeaseToken (token : string) : string := "sha256:" +:+ sha256_hex token.

Definition taskLeaseStepIdempotencyKey (t : Task) (stepKey : string) : string :=
  "sha256:" +:+ sha256_hex (uuid_string (task_ReleaseBundleID t) +:+ nul
    +:+ uuid_string (task_DeploymentPlanID t) +:+ nul
    +:+ uuid_string (task_DeploymentTargetID t) +:+ nul
    +:+ uuid_string (task_ID t) +:+ nul +:+ stepKey).

(** [TaskLease_active_task]: at most one lease of a task is not released. *)
Definition insertTaskLease (env : tx_env) (org target id : uuid) (e : TaskExecutorType)
    (tokenHash : string) (attempt : Z) : tx uuid := λ s,
  if exists_where (λ l, bool_decide (lease_TaskID l = id) && is_null (lease_ReleasedAt l)) (Leases s)
  then Err (Conflict "could not insert lease Task")
  else Ok (fresh_lease env, set_leases (Leases s ++
    [{| lease_ID := fresh_lease env; lease_OrganizationID := org; lease_TaskID := id;
        lease_AgentID := target; lease_ExecutorType := e; lease_TokenHash := tokenHash;
        lease_LeasedAt := now env; lease_ExpiresAt := (now env + taskLeaseDuration)%Z;
        lease_HeartbeatAt := now env; lease_Attempt := attempt; lease_ReleasedAt := None |}]) s).

Fixpoint lease_steps (t : Task) (cs : list taskLeaseStepCandidate) : result apierror (list TaskLeaseStep) :=
  match cs with
  | [] => Ok []
  | c :: cs =>
      resolveTaskLeaseStepSecrets t c ≫= λ refs,
      lease_steps t cs ≫= λ rest,
      Ok ({| tls_StepRunID := c_StepRunID c; tls_StepKey := c_StepKey c; tls_Name := c_Name c;
             tls_ActionType := c_ActionType c; tls_SecretReferences := refs;
             tls_IdempotencyKey := taskLeaseStepIdempotencyKey t (c_StepKey c);
             tls_SortOrder := c_SortOrder c |} :: rest)
  end.

Definition getTaskLeaseSteps (t : Task) (location : string) : tx (list TaskLeaseStep) :=
  getReadyTaskLeaseStepCandidates (task_ID t) (task_OrganizationID t) location ≫= λ cs,
  lift_result (lease_steps t cs).

(** [JOIN Task t ... JOIN DeploymentPlan dp]: the lease with its plan. *)
Definition lease_with_plan (s : db) (l : TaskLease) : bool :=
  exists_where (λ t, task_where (lease_TaskID l) (lease_OrganizationID l) t
    && exists_where (λ p, bool_decide (plan_ID p = task_DeploymentPlanID t)
         && bool_decide (plan_OrganizationID p = task_OrganizationID t)) (Plans s)) (Tasks s).

Definition getTaskLease (id org : uuid) (token : string) : tx LeasedTask := λ s,
  match select_where (λ l, bool_decide (lease_ID l = id) && bool_decide (lease_OrganizationID l = org)
                           && lease_with_plan s l) (Leases s) with
  | [] => Err NotFound
  | l :: _ =>
      (getTask (lease_TaskID l) (lease_OrganizationID l) ≫= λ task,
       getTaskLeaseSteps (ht_Task task) (ExecutionLocation (lease_ExecutorType l)) ≫= λ steps,
       mret {| lt_Lease := l; lt_Token := token; lt_Task := task; lt_Steps := steps |}) s
  end.

(** [acquireTaskResourceLocks] with its conflict turned into "no lease". The
    conflict is found before the locks are written, so nothing is undone. *)
Definition try_acquire (env : tx_env) (id org : uuid) : tx bool := λ s,
  match acquireTaskResourceLocks env id org s with
  | Ok (_, s') => Ok (true, s')
  | Err (Conflict _) => Ok (false, s)
  | Err e => Err e
  end.

(** The last part: the token, the row and the answer. *)
Definition grant_lease (env : tx_env) (t : Task) (e : TaskExecutorType) (attempt : Z)
    : tx (option LeasedTask) :=
  let token := random_token env in
  insertTaskLease env (task_OrganizationID t) (task_DeploymentTargetID t) (task_ID t) e
    (hashTaskLeaseToken token) attempt ≫= λ leaseID,
  getTaskLease leaseID (task_OrganizationID t) token ≫= λ lease, mret (Some lease).

Definition leaseTaskCandidate (env : tx_env) (t : Task) (e : TaskExecutorType)
    : tx (option LeasedTask) := λ s,
  match lockTaskReleaseBundlePublishedForLease (task_ID t) (task_OrganizationID t) s with
  | None => Err NotFound
  | Some false => Ok (None, s)
  | Some true =>
      ((if bool_decide (task_Status t = TaskStatusRunning)
        then releaseExpiredTaskLeasesAndNextAttempt env (task_ID t) (task_OrganizationID t)
        else mret 1%Z) ≫= λ attempt,
       getReadyTaskLeaseStepCandidates (task_ID t) (task_OrganizationID t) (ExecutionLocation e) ≫= λ steps,
       if bool_decide (length steps = 0) then mret None else
       if bool_decide (task_Status t = TaskStatusQueued) then
         try_acquire env (task_ID t) (task_OrganizationID t) ≫= λ acquired,
         if negb acquired then mret None else
         updateTaskStatus env (task_ID t) (task_OrganizationID t) TaskStatusRunning ≫= λ _,
         releaseExpiredTaskLeasesAndNextAttempt env (task_ID t) (task_OrganizationID t) ≫= λ attempt,
         grant_lease env t e attempt
       else grant_lease env t e attempt) s
  end.

Record LeaseAgentTaskRequest := { la_OrganizationID : uuid; la_AgentID : uuid }.

Definition validateLeaseAgentTaskRequest (r : LeaseAgentTaskRequest) : result apierror unit :=
  fail_if (is_nil (la_OrganizationID r)) (BadRequest "organizationId is required") ≫= λ _,
  fail_if (is_nil (la_AgentID r)) (BadRequest "agentId is required").

Definition LeaseAgentTask (env : tx_env) (r : LeaseAgentTaskRequest) (s : db)
    : result apierror (option LeasedTask) * db :=
  match validateLeaseAgentTaskRequest r with
  | Err e => (Err e, s)
  | Ok _ =>
      RunTx (λ s, match getNextTaskLeaseCandidateForUpdate (now env) (la_OrganizationID r) (la_AgentID r) s with
                  | None => Ok (None, s)
                  | Some t => leaseTaskCandidate env t ExecutorAgent s
                  end) s
  end.

Definition LeaseHubTask (env : tx_env) (s : db) : result apierror (option LeasedTask) * db :=
  RunTx (λ s, match getNextHubTaskLeaseCandidateForUpdate (now env) s with
              | None => Ok (None, s)
              | Some t => leaseTaskCandidate env t ExecutorHub s
              end) s.

(** ** Heartbeats *)

Record HeartbeatTaskLeaseRequest := {
  hb_OrganizationID : uuid;
  (** [AgentID] of the agent's request, [DeploymentTargetID] of the hub's. *)
  hb_AgentID : uuid;
  hb_TaskID : uuid;
  hb_LeaseToken : string;
}.

Definition lease_token_where (org agent id : uuid) (e : TaskExecutorType) (token : string) (l : TaskLease)
    : bool :=
  bool_decide (lease_OrganizationID l = org) && bool_decide (lease_AgentID l = agent)
  && bool_decide (lease_TaskID l = id) && bool_decide (lease_ExecutorType l = e)
  && bool_decide (lease_TokenHash l = hashTaskLeaseToken token).

(** The identifier of the active lease and whether it has expired. *)
Definition getActiveTaskLeaseIDForHeartbeat (env : tx_env) (org agent id : uuid) (token : string)
    (e : TaskExecutorType) : tx (uuid * bool) := λ s,
  match select_where (λ l, lease_token_where org agent id e token l && is_null (lease_ReleasedAt l))
          (Leases s) with
  | [] => Err NotFound
  | l :: _ => Ok ((lease_ID l, lease_expired (now env) l), s)
  end.

Definition extend_lease (now : Z) (l : TaskLease) : TaskLease :=
  {| lease_ID := lease_ID l; lease_OrganizationID := lease_OrganizationID l;
     lease_TaskID := lease_TaskID l; lease_AgentID := lease_AgentID l;
     lease_ExecutorType := lease_ExecutorType l; lease_TokenHash := lease_TokenHash l;
     lease_LeasedAt := lease_LeasedAt l; lease_ExpiresAt := (now + taskLeaseDuration)%Z;
     lease_HeartbeatAt := now; lease_Attempt := lease_Attempt l;
     lease_ReleasedAt := lease_ReleasedAt l |}.

Definition updateTaskLeaseHeartbeat (env : tx_env) (id org : uuid) : tx unit :=
  modifies (λ s, set_leases (update_where
    (λ l, bool_decide (lease_ID l = id) && bool_decide (lease_OrganizationID l = org)
          && is_null (lease_ReleasedAt l)) (extend_lease (now env)) (Leases s)) s).

Definition heartbeatTaskLease (env : tx_env) (org target id : uuid) (token : string)
    (e : TaskExecutorType) (s : db) : result apierror LeasedTask * db :=
  RunTx (
    getTaskStatusForUpdate id org ≫= λ status,
    if negb (bool_decide (status = TaskStatusRunning)) then throw NotFound else
    getActiveTaskLeaseIDForHeartbeat env org target id token e ≫= λ '(leaseID, expired),
    if expired : bool then throw (Conflict "task lease has expired") else
    updateTaskLeaseHeartbeat env leaseID org ≫= λ _,
    getTaskLease leaseID org token) s.

Definition validateHeartbeatAgentTaskLeaseRequest (r : HeartbeatTaskLeaseRequest) : result apierror unit :=
  fail_if (is_nil (hb_OrganizationID r)) (BadRequest "organizationId is required") ≫= λ _,
  fail_if (is_nil (hb_AgentID r)) (BadRequest "agentId is required") ≫= λ _,
  fail_if (is_nil (hb_TaskID r)) (BadRequest "taskId is required") ≫= λ _,
  fail_if (bool_decide (hb_LeaseToken r = "")) (BadRequest "leaseToken is required").

Definition HeartbeatAgentTaskLease (env : tx_env) (r : HeartbeatTaskLeaseRequest) (s : db)
    : result apierror LeasedTask * db :=
  match validateHeartbeatAgentTaskLeaseRequest r with
  | Err e => (Err e, s)
  | Ok _ => heartbeatTaskLease env (hb_OrganizationID r) (hb_AgentID r) (hb_TaskID r) (hb_LeaseToken r)
              ExecutorAgent s
  end.

(** The checks at the start of [HeartbeatHubTaskLease]. *)
Definition validate_hub_heartbeat (r : HeartbeatTaskLeaseRequest) : result apierror unit :=
  fail_if (is_nil (hb_OrganizationID r)) (BadRequest "organizationId is required") ≫= λ _,
  fail_if (is_nil (hb_AgentID r)) (BadRequest "deploymentTargetId is required") ≫= λ _,
  fail_if (is_nil (hb_TaskID r)) (BadRequest "taskId is required") ≫= λ _,
  fail_if (bool_decide (TrimSpace (hb_LeaseToken r) = "")) (BadRequest "leaseToken is required").

Definition HeartbeatHubTaskLease (env : tx_env) (r : HeartbeatTaskLeaseRequest) (s : db)
    : result apierror LeasedTask * db :=
  match validate_hub_heartbeat r with
  | Err e => (Err e, s)
  | Ok _ => heartbeatTaskLease env (hb_OrganizationID r) (hb_AgentID r) (hb_TaskID r)
              (TrimSpace (hb_LeaseToken r)) ExecutorHub s
  end.

(** ** The end of a batch *)

Definition releaseTaskLeaseIfExecutorBatchComplete (env : tx_env) (id org leaseID : uuid)
    (location : string) : tx unit :=
  modifies (λ s,
    let open_steps := exists_where (λ r, steps_of_task id org r
      && (bool_decide (sr_Status r = StepRunPending) || bool_decide (sr_Status r = StepRunRunning))
      && existsb (λ d, ps_Included d && bool_decide (lower_trim (ps_ExecutionLocation d) = location))
           (join_plan_step s r)) (StepRuns s) in
    set_leases (update_where (λ l, bool_decide (lease_ID l = leaseID) && leases_where id org l
        && is_null (lease_ReleasedAt l) && negb open_steps)
      (release_lease (now env)) (Leases s)) s).
End leases.

(** ** The ready steps are the steps that can run, in an order that respects
    their dependencies *)

Section ready.
Context (location : string) (cs : list taskLeaseStepCandidate).

(** A pending step of this executor. *)
Definition eligible (c : taskLeaseStepCandidate) : Prop :=
  c ∈ cs /\ c_Included c = true /\ c_ExecutionLocation c = location /\ c_Status c = StepRunPending.

(** Selections: each step comes after the steps it depends on. *)
Inductive ordered : list taskLeaseStepCandidate -> Prop :=
| ordered_nil : ordered []
| ordered_snoc l c :
    ordered l -> eligible c -> c_StepKey c ∉ c_StepKey <$> l ->
    (forall d, d ∈ c_Dependencies c -> d ∈ initially_satisfied cs \/ d ∈ c_StepKey <$> l) ->
    ordered (l ++ [c]).

Record ready_inv (st : ready_state) : Prop := {
  ri_ordered : ordered (rs_ready st);
  ri_selected k : k ∈ rs_selected st <-> k ∈ c_StepKey <$> rs_ready st;
  ri_satisfied k : k ∈ rs_satisfied st <-> k ∈ initially_satisfied cs \/ k ∈ c_StepKey <$> rs_ready st;
}.

Lemma selectable_spec st c :
  ready_inv st -> c ∈ cs ->
  selectable location st c = true <->
  (eligible c /\ (c_StepKey c ∉ (c_StepKey <$> rs_ready st))
   /\ forall d, d ∈ c_Dependencies c -> d ∈ initially_satisfied cs \/ d ∈ c_StepKey <$> rs_ready st).
Proof.
  intros [_ Hsel Hsat] Hc. unfold selectable, taskLeaseDependenciesSatisfied, eligible.
  rewrite negb_true_iff, !orb_false_iff, !negb_false_iff, !bool_decide_eq_true, contains_false, Hsel.
  rewrite forallb_forall. setoid_rewrite contains_true. setoid_rewrite Hsat.
  setoid_rewrite <- list_elem_of_In. naive_solver.
Qed.

Lemma select_candidate_inv st c :
  ready_inv st -> c ∈ cs -> selectable location st c = true -> ready_inv (select_candidate c st).
Proof.
  intros Hinv Hc Hs. apply selectable_spec in Hs as (He & Hn & Hd); [|done..].
  destruct Hinv as [Ho Hsel Hsat]. constructor; simpl.
  - by apply ordered_snoc.
  - intros k. rewrite elem_of_cons, Hsel, fmap_app, elem_of_app. simpl.
    rewrite list_elem_of_singleton. naive_solver.
  - intros k. rewrite elem_of_cons, Hsat, fmap_app, elem_of_app. simpl.
    rewrite list_elem_of_singleton. naive_solver.
Qed.

(** A pass keeps the invariant; without progress nothing could be selected,
    with progress the selection grows. *)
Lemma ready_pass_spec l st :
  ready_inv st -> (forall c, c ∈ l -> c ∈ cs) ->
  ready_inv (snd (ready_pass location l st))
  /\ (fst (ready_pass location l st) = false ->
      snd (ready_pass location l st) = st /\ forall c, c ∈ l -> selectable location st c = false)
  /\ length (rs_ready st) + (if fst (ready_pass location l st) then 1 else 0)
     <= length (rs_ready (snd (ready_pass location l st))).
Proof.
  revert st. induction l as [|c l IH]; intros st Hinv Hl; simpl.
  { split_and!; [done| |lia]. intros _. split; [done|]. intros c Hc. by apply elem_of_nil in Hc. }
  assert (forall x, x ∈ l -> x ∈ cs) as Hl' by (intros x Hx; apply Hl; by right).
  destruct (selectable location st c) eqn:E.
  - destruct (IH (select_candidate c st)) as (H1 & _ & H3); [|done|].
    { apply select_candidate_inv; [done|apply Hl; by left|done]. }
    destruct (ready_pass location l (select_candidate c st)) as [p st']. simpl in *.
    rewrite length_app in H3. simpl in H3. split_and!; [done..|destruct p; lia].
  - destruct (IH st Hinv Hl') as (H1 & H2 & H3). split_and!; [done| |done].
    intros Hf. destruct (H2 Hf) as [H4 H5]. split; [done|].
    intros x [->|Hx]%elem_of_cons; auto.
Qed.

Lemma ordered_spec l :
  ordered l -> NoDup (c_StepKey <$> l) /\ forall c, c ∈ l -> eligible c.
Proof.
  induction 1 as [|l c _ [IH1 IH2] He Hn _].
  - split; [constructor|]. intros c Hc. by apply elem_of_nil in Hc.
  - rewrite fmap_app. split.
    + apply NoDup_app. split_and!; [done| |apply NoDup_singleton].
      intros k Hk. simpl. rewrite list_elem_of_singleton. by intros ->.
    + intros x [Hx|Hx]%elem_of_app; [auto|]. by apply list_elem_of_singleton in Hx as ->.
Qed.

Lemma ordered_length l : ordered l -> length l <= length cs.
Proof.
  intros Ho. destruct (ordered_spec l Ho) as [Hnd Hin].
  apply submseteq_length, NoDup_submseteq; [by apply (NoDup_fmap_1 c_StepKey)|].
  intros c Hc. apply Hin, Hc.
Qed.

Lemma ready_loop_spec fuel st :
  ready_inv st -> length cs < fuel + length (rs_ready st) ->
  ready_inv (ready_loop fuel location cs st)
  /\ forall c, c ∈ cs -> selectable location (ready_loop fuel location cs st) c = false.
Proof.
  revert st. induction fuel as [|fuel IH]; intros st Hinv Hf.
  { pose proof (ordered_length _ (ri_ordered _ Hinv)). lia. }
  simpl. destruct (ready_pass_spec cs st Hinv ltac:(done)) as (H1 & H2 & H3).
  destruct (ready_pass location cs st) as [[] st']; simpl in *.
  - apply IH; [done|lia].
  - destruct (H2 eq_refl) as [-> H]. done.
Qed.

Lemma ready_init : ready_inv {| rs_ready := []; rs_selected := []; rs_satisfied := initially_satisfied cs |}.
Proof. constructor; simpl; [constructor|done|]. intros k. rewrite elem_of_nil. naive_solver. Qed.

(** More fuel changes nothing. *)
Lemma ready_loop_fuel fuel st :
  ready_inv st -> length cs < fuel + length (rs_ready st) ->
  ready_loop (S fuel) location cs st = ready_loop fuel location cs st.
Proof.
  revert st. induction fuel as [|fuel IH]; intros st Hinv Hf.
  { pose proof (ordered_length _ (ri_ordered _ Hinv)). lia. }
  destruct (ready_pass_spec cs st Hinv ltac:(done)) as (H1 & _ & H3).
  rewrite (eq_refl : ready_loop (S (S fuel)) location cs st
    = let '(p, st') := ready_pass location cs st in
      if p then ready_loop (S fuel) location cs st' else st').
  rewrite (eq_refl : ready_loop (S fuel) location cs st
    = let '(p, st') := ready_pass location cs st in
      if p then ready_loop fuel location cs st' else st').
  destruct (ready_pass location cs st) as [[] st']; [|done]. simpl in *. apply IH; [done|lia].
Qed.
End ready.

Lemma app_eq_unit_or_prefix {A} (l : list A) c before x after :
  l ++ [c] = before ++ x :: after ->
  (before = l /\ x = c) \/ exists a, l = before ++ x :: a.
Proof.
  destruct after as [|y after _] using rev_ind.
  - intros [-> E]%app_inj_2; [|done]. injection E as ->. by left.
  - rewrite app_comm_cons, app_assoc. intros [-> _]%app_inj_2; [|done]. right. by exists after.
Qed.

(** C21: the steps of a lease. The steps handed out are pending included steps of
    the executor without repetition, each one after the steps it depends on
    unless they already succeeded or were skipped; no further step could be
    handed out; and the loop stops by itself within the fuel. *)
Theorem ready_steps_topological cs location :
  let ready := readyTaskLeaseStepCandidates cs location in
  NoDup (c_StepKey <$> ready)
  /\ (forall c, c ∈ ready -> c ∈ cs /\ c_Included c = true /\ c_ExecutionLocation c = location
        /\ c_Status c = StepRunPending)
  /\ (forall before c after, ready = before ++ c :: after ->
        forall d, d ∈ c_Dependencies c -> d ∈ initially_satisfied cs \/ d ∈ c_StepKey <$> before)
  /\ (forall c, c ∈ cs -> c_Included c = true -> c_ExecutionLocation c = location ->
        c_Status c = StepRunPending ->
        (forall d, d ∈ c_Dependencies c -> d ∈ initially_satisfied cs \/ d ∈ c_StepKey <$> ready) ->
        c_StepKey c ∈ c_StepKey <$> ready)
  /\ (forall fuel, length cs < fuel -> rs_ready (ready_loop fuel location cs
        {| rs_ready := []; rs_selected := []; rs_satisfied := initially_satisfied cs |}) = ready).
Proof.
  cbv zeta. unfold readyTaskLeaseStepCandidates.
  set (st0 := {| rs_ready := []; rs_selected := []; rs_satisfied := initially_satisfied cs |}).
  destruct (ready_loop_spec location cs (S (length cs)) st0 (ready_init location cs)) as [Hinv Hdone];
    [simpl; lia|].
  assert (forall fuel, length cs < fuel ->
    ready_loop fuel location cs st0 = ready_loop (S (length cs)) location cs st0) as Hfuel.
  { induction 1 as [|fuel Hf IH]; [done|]. rewrite <- IH.
    apply ready_loop_fuel; [apply ready_init | simpl; lia]. }
  set (st := ready_loop _ location cs st0) in *.
  destruct (ordered_spec _ _ _ (ri_ordered _ _ _ Hinv)) as [Hnd Hel]. split_and!; [done|exact Hel|..].
  - pose proof (ri_ordered _ _ _ Hinv) as Ho. clear -Ho. induction Ho as [|l c Ho IH _ _ Hd].
    + intros before c after E. by destruct before.
    + intros before x after E d Hx. destruct (app_eq_unit_or_prefix l c before x after E) as [[-> ->]|(a & ->)].
      * by apply Hd.
      * by eapply IH.
  - intros c Hc Hi Hloc Hst Hd. destruct (decide (c_StepKey c ∈ c_StepKey <$> rs_ready st)) as [|Hn]; [done|].
    specialize (Hdone c Hc). assert (selectable location st c = true); [|congruence].
    by apply (selectable_spec location cs).
  - intros fuel Hf. by rewrite Hfuel.
Qed.
