(* ===== verification/StepEvents.v ===== *)
(** * Step events ([internal/db/step_events.go], [internal/types/step_events.go])

    An executor that holds a lease reports the progress of a step run as a
    numbered sequence of events; the events drive the step run and, at the
    end, its task. *)
From S2P Require Import Prelude GoStrings Uuid TaskStore TaskQueue TaskLeases.
Open Scope list_scope.

(** ** Requests *)

Inductive StepRunEventType :=
| EventStarted | EventProgress | EventLog | EventOutput | EventSucceeded | EventFailed
| EventTypeOther (s : string).

#[export] Instance StepRunEventType_eq_dec : EqDecision StepRunEventType.
Proof. solve_decision. Defined.

Definition event_type_valid (t : StepRunEventType) : bool :=
  match t with EventTypeOther _ => false | _ => true end.

Definition log_stream_valid (s : string) : bool := contains ["stdout"; "stderr"; "system"] s.
Definition log_severity_valid (s : string) : bool := contains ["debug"; "info"; "warn"; "error"] s.

Record LogChunkRequest := {
  log_OccurredAt : option Z;
  log_Stream : string;
  log_Severity : string;
  log_Body : string;
}.

(** The value of an output and the details of an event are JSON documents that
    only the preparation of the payload reads: [out_Value] and [ev_Details] are
    their texts. *)
Record OutputRequest := {
  out_Name : string;
  out_Value : string;
  out_Sensitive : bool;
}.

Record RecordStepRunEventRequest := {
  ev_OrganizationID : uuid;
  (** [AgentID] of the agent's request, [DeploymentTargetID] of the hub's. *)
  ev_AgentID : uuid;
  ev_StepRunID : uuid;
  ev_LeaseToken : string;
  ev_Sequence : Z;
  ev_Type : StepRunEventType;
  ev_OccurredAt : option Z;
  ev_Message : string;
  ev_ProgressPercent : option Z;
  ev_Details : string;
  ev_Logs : list LogChunkRequest;
  ev_Outputs : list OutputRequest;
}.

Definition MaxStepRunEventMessageLength : Z := 2048.
Definition MaxStepRunLogChunkBodyLength : Z := 8192.
Definition MaxStepRunOutputNameLength : Z := 128.
Definition MaxStepRunEventLogChunkCount : nat := 16.
Definition MaxStepRunEventOutputItemCount : nat := 32.

(** [^[A-Za-z_][A-Za-z0-9_.-]*$] *)
Definition letter (a : Ascii.ascii) : bool :=
  let n := code a in ((65 <=? n)%N && (n <=? 90)%N) || ((97 <=? n)%N && (n <=? 122)%N) || (n =? 95)%N.
Definition name_char (a : Ascii.ascii) : bool :=
  let n := code a in letter a || ((48 <=? n)%N && (n <=? 57)%N) || (n =? 46)%N || (n =? 45)%N.
Fixpoint name_rest (s : string) : bool :=
  match s with String a s => name_char a && name_rest s | EmptyString => true end.
Definition IsValidStepRunOutputName (s : string) : bool :=
  match s with String a s => letter a && name_rest s | EmptyString => false end.

Definition indexed (field : string) (i : nat) (what : string) : apierror :=
  BadRequest (field +:+ "[" +:+ itoa (Z.of_nat i) +:+ "]." +:+ what).

Fixpoint validate_logs (i : nat) (l : list LogChunkRequest) : result apierror unit :=
  match l with
  | [] => Ok tt
  | x :: l =>
      fail_if (negb (log_stream_valid (log_Stream x))) (indexed "logs" i "stream is invalid") ≫= λ _,
      fail_if (negb (log_severity_valid (log_Severity x))) (indexed "logs" i "severity is invalid") ≫= λ _,
      fail_if (trimmed_empty (log_Body x)) (indexed "logs" i "body is required") ≫= λ _,
      fail_if (MaxStepRunLogChunkBodyLength <? len (log_Body x))%Z (indexed "logs" i "body is too long") ≫= λ _,
      validate_logs (S i) l
  end.

Fixpoint validate_outputs (i : nat) (seen : list string) (l : list OutputRequest) : result apierror unit :=
  match l with
  | [] => Ok tt
  | x :: l =>
      let name := TrimSpace (out_Name x) in
      fail_if (bool_decide (name = "")) (indexed "outputs" i "name is required") ≫= λ _,
      fail_if (MaxStepRunOutputNameLength <? len name)%Z (indexed "outputs" i "name is too long") ≫= λ _,
      fail_if (negb (IsValidStepRunOutputName name)) (indexed "outputs" i "name is invalid") ≫= λ _,
      fail_if (contains seen name) (BadRequest "outputs contains duplicate name") ≫= λ _,
      validate_outputs (S i) (name :: seen) l
  end.

Definition trim_request (r : RecordStepRunEventRequest) : RecordStepRunEventRequest :=
  {| ev_OrganizationID := ev_OrganizationID r; ev_AgentID := ev_AgentID r;
     ev_StepRunID := ev_StepRunID r; ev_LeaseToken := TrimSpace (ev_LeaseToken r);
     ev_Sequence := ev_Sequence r; ev_Type := ev_Type r; ev_OccurredAt := ev_OccurredAt r;
     ev_Message := TrimSpace (ev_Message r); ev_ProgressPercent := ev_ProgressPercent r;
     ev_Details := ev_Details r; ev_Logs := ev_Logs r;
     ev_Outputs := (λ o, {| out_Name := TrimSpace (out_Name o); out_Value := out_Value o;
                            out_Sensitive := out_Sensitive o |}) <$> ev_Outputs r |}.

(** The Go function trims the fields of the request it validates: the result is
    the trimmed request. *)
Definition validateRecordAgentStepRunEventRequest (r : RecordStepRunEventRequest)
    : result apierror RecordStepRunEventRequest :=
  let r := trim_request r in
  fail_if (is_nil (ev_OrganizationID r)) (BadRequest "organizationId is required") ≫= λ _,
  fail_if (is_nil (ev_AgentID r)) (BadRequest "agentId is required") ≫= λ _,
  fail_if (is_nil (ev_StepRunID r)) (BadRequest "stepRunId is required") ≫= λ _,
  fail_if (bool_decide (ev_LeaseToken r = "")) (BadRequest "leaseToken is required") ≫= λ _,
  fail_if (ev_Sequence r <=? 0)%Z (BadRequest "sequence must be greater than 0") ≫= λ _,
  fail_if (negb (event_type_valid (ev_Type r))) (BadRequest "type is invalid") ≫= λ _,
  fail_if (MaxStepRunEventMessageLength <? len (ev_Message r))%Z (BadRequest "message is too long") ≫= λ _,
  fail_if (match ev_ProgressPercent r with Some p => (p <? 0)%Z || (100 <? p)%Z | None => false end)
    (BadRequest "progressPercent must be between 0 and 100") ≫= λ _,
  fail_if (bool_decide (MaxStepRunEventLogChunkCount < length (ev_Logs r)))
    (BadRequest "logs contains too many entries") ≫= λ _,
  validate_logs 0 (ev_Logs r) ≫= λ _,
  fail_if (bool_decide (MaxStepRunEventOutputItemCount < length (ev_Outputs r)))
    (BadRequest "outputs contains too many entries") ≫= λ _,
  validate_outputs 0 [] (ev_Outputs r) ≫= λ _,
  Ok r.

(** ** The prepared payload

    [prepareStepRunEventRequest] redacts the secrets of the step in the
    message, details, logs and outputs, bounds their JSON sizes and hashes the
    canonical JSON form. It depends on the request and the secrets only; here
    it is an interface, with the secrets of the step ([getStepRunSecretValuesForRedaction]). *)
Record Prepared := {
  p_PayloadHash : string;
  p_Logs : list (LogChunkRequest * bool);
  p_Outputs : list (OutputRequest * bool);
}.

Class EventPreparer := {
  step_secrets : uuid -> uuid -> result apierror (list string);
  prepare : RecordStepRunEventRequest -> list string -> result apierror Prepared;
}.

Section events.
Context `{Crypto} `{SecretResolver} `{EventPreparer}.

(** ** Queries *)

Record stepRunEventTarget := {
  tg_TaskID : uuid;
  tg_AgentID : uuid;
  tg_TaskStatus : TaskStatus;
  tg_StepStatus : StepRunStatus;
}.

Definition getStepRunEventTargetForUpdate (org stepRunID : uuid) : tx stepRunEventTarget := λ s,
  match select_where (step_where stepRunID org) (StepRuns s) ≫= λ r,
        (λ t, {| tg_TaskID := task_ID t; tg_AgentID := task_DeploymentTargetID t;
                 tg_TaskStatus := task_Status t; tg_StepStatus := sr_Status r |})
        <$> select_where (task_where (sr_TaskID r) (sr_OrganizationID r)) (Tasks s) with
  | [] => Err NotFound
  | t :: _ => Ok (t, s)
  end.

(** The lease of the token, released or not. *)
Definition getTaskLeaseForStepRunEvent (r : RecordStepRunEventRequest) (id : uuid) (e : TaskExecutorType)
    : tx TaskLease := λ s,
  match select_where (lease_token_where (ev_OrganizationID r) (ev_AgentID r) id e (ev_LeaseToken r))
          (Leases s) with
  | [] => Err NotFound
  | l :: _ => Ok (l, s)
  end.

Definition events_where (org stepRunID leaseID : uuid) (v : StepRunEvent) : bool :=
  bool_decide (event_OrganizationID v = org) && bool_decide (event_StepRunID v = stepRunID)
  && bool_decide (event_TaskLeaseID v = leaseID).

Definition getStepRunEventBySequence (org stepRunID leaseID : uuid) (sequence : Z) (s : db)
    : option StepRunEvent :=
  head (select_where (λ v, events_where org stepRunID leaseID v && (event_Sequence v =? sequence)%Z)
    (Events s)).

(** [COALESCE(max(sequence), 0)] *)
Definition getMaxStepRunEventSequence (org stepRunID leaseID : uuid) (s : db) : Z :=
  match event_Sequence <$> select_where (events_where org stepRunID leaseID) (Events s) with
  | [] => 0%Z
  | n :: l => foldl Z.max n l
  end.

Definition validateStepRunOutputNameLimit (org stepRunID : uuid) (outputs : list (OutputRequest * bool))
    : tx unit := λ s,
  if bool_decide (length outputs = 0) then Ok (tt, s) else
  let existing := output_Name <$> select_where (λ o, bool_decide (output_OrganizationID o = org)
                    && bool_decide (output_StepRunID o = stepRunID)) (Outputs s) in
  let names := dedup_by id [] ((out_Name <$> (fst <$> outputs)) ++ existing) in
  if bool_decide (MaxStepRunEventOutputItemCount < length names)
  then Err (Conflict "step run output name limit exceeded") else Ok (tt, s).

(** ** Effects of an event *)

Definition completeTaskIfStepRunsTerminal (env : tx_env) (id org : uuid) : tx unit := λ s,
  let runs := select_where (steps_of_task id org) (StepRuns s) in
  let failed := select_where (λ r, bool_decide (sr_Status r = StepRunFailed)) runs in
  let incomplete := select_where (λ r, negb (step_status_terminal (sr_Status r))) runs in
  (if bool_decide (0 < length failed) then updateTaskStatus env id org TaskStatusFailed
   else if bool_decide (length incomplete = 0) then updateTaskStatus env id org TaskStatusSucceeded
   else mret tt) s.

Definition applyStepRunEventTransition (env : tx_env) (target : stepRunEventTarget)
    (r : RecordStepRunEventRequest) : tx unit :=
  if negb (bool_decide (tg_TaskStatus target = TaskStatusRunning))
  then throw (Conflict "task must be RUNNING to record step events")
  else match ev_Type r with
  | EventStarted =>
      if negb (bool_decide (tg_StepStatus target = StepRunPending))
      then throw (Conflict "step run must be PENDING to start")
      else updateStepRunStatus env (ev_StepRunID r) (ev_OrganizationID r) StepRunRunning
  | EventProgress | EventLog | EventOutput =>
      if negb (bool_decide (tg_StepStatus target = StepRunRunning))
      then throw (Conflict "step run must be RUNNING to record progress")
      else mret tt
  | EventSucceeded =>
      if negb (bool_decide (tg_StepStatus target = StepRunRunning))
      then throw (Conflict "step run must be RUNNING to succeed")
      else
        updateStepRunStatus env (ev_StepRunID r) (ev_OrganizationID r) StepRunSucceeded ≫= λ _,
        completeTaskIfStepRunsTerminal env (tg_TaskID target) (ev_OrganizationID r)
  | EventFailed =>
      if negb (bool_decide (tg_StepStatus target = StepRunRunning))
      then throw (Conflict "step run must be RUNNING to fail")
      else
        updateStepRunStatus env (ev_StepRunID r) (ev_OrganizationID r) StepRunFailed ≫= λ _,
        updateTaskStatus env (tg_TaskID target) (ev_OrganizationID r) TaskStatusFailed
  | EventTypeOther _ => throw (BadRequest "type is invalid")
  end.

Definition new_event (env : tx_env) (r : RecordStepRunEventRequest) (p : Prepared) (taskID leaseID : uuid)
    : StepRunEvent :=
  {| event_ID := fresh_event env; event_OrganizationID := ev_OrganizationID r; event_TaskID := taskID;
     event_StepRunID := ev_StepRunID r; event_TaskLeaseID := leaseID; event_AgentID := ev_AgentID r;
     event_Sequence := ev_Sequence r; event_OccurredAt := default (now env) (ev_OccurredAt r);
     event_PayloadHash := p_PayloadHash p |}.

(** The insertion of the event, its log chunks and its outputs. *)
Definition insertStepRunEvent (env : tx_env) (r : RecordStepRunEventRequest) (p : Prepared)
    (taskID leaseID : uuid) : tx StepRunEvent := λ s,
  let v := new_event env r p taskID leaseID in
  let chunks := imap (λ i '(l, redacted),
    {| chunk_EventID := event_ID v; chunk_StepRunID := ev_StepRunID r; chunk_Index := Z.of_nat i;
       chunk_OccurredAt := default (event_OccurredAt v) (log_OccurredAt l);
       chunk_Stream := log_Stream l; chunk_Severity := log_Severity l; chunk_Body := log_Body l;
       chunk_Redacted := redacted |}) (p_Logs p) in
  let outputs := (λ '(o, redacted),
    {| output_EventID := event_ID v; output_OrganizationID := ev_OrganizationID r;
       output_StepRunID := ev_StepRunID r; output_Name := out_Name o;
       output_Sensitive := out_Sensitive o; output_Redacted := redacted |}) <$> p_Outputs p in
  Ok (v, set_payload (LogChunks s ++ chunks) (Outputs s ++ outputs) (set_events (Events s ++ [v]) s)).

(** The transaction after the request, the target and the lease are known. *)
Definition record_event (env : tx_env) (r : RecordStepRunEventRequest) (p : Prepared)
    (target : stepRunEventTarget) (lease : TaskLease) (e : TaskExecutorType) : tx StepRunEvent := λ s,
  let org := ev_OrganizationID r in
  match getStepRunEventBySequence org (ev_StepRunID r) (lease_ID lease) (ev_Sequence r) s with
  | Some existing =>
      if bool_decide (event_PayloadHash existing = p_PayloadHash p) then Ok (existing, s)
      else Err (Conflict "step event sequence already recorded with different payload")
  | None =>
      if negb (is_null (lease_ReleasedAt lease)) then Err (Conflict "task lease has been released") else
      if lease_expired (now env) lease then Err (Conflict "task lease has expired") else
      if negb (ev_Sequence r =? getMaxStepRunEventSequence org (ev_StepRunID r) (lease_ID lease) s + 1)%Z
      then Err (Conflict "step event sequence is out of order") else
      (validateStepRunOutputNameLimit org (ev_StepRunID r) (p_Outputs p) ≫= λ _,
       applyStepRunEventTransition env target r ≫= λ _,
       insertStepRunEvent env r p (tg_TaskID target) (lease_ID lease) ≫= λ v,
       (if bool_decide (ev_Type r = EventSucceeded)
        then releaseTaskLeaseIfExecutorBatchComplete env (tg_TaskID target) org (lease_ID lease)
               (ExecutionLocation e)
        else mret tt) ≫= λ _,
       mret v) s
  end.

Definition recordStepRunEvent (env : tx_env) (request : RecordStepRunEventRequest) (e : TaskExecutorType)
    (s : db) : result apierror StepRunEvent * db :=
  match validateRecordAgentStepRunEventRequest request with
  | Err err => (Err err, s)
  | Ok r =>
      if negb (executor_valid e) then (Err (BadRequest "executorType is invalid"), s) else
      RunTx (
        getStepRunEventTargetForUpdate (ev_OrganizationID r) (ev_StepRunID r) ≫= λ target,
        if negb (bool_decide (tg_AgentID target = ev_AgentID r)) then throw NotFound else
        getTaskLeaseForStepRunEvent r (tg_TaskID target) e ≫= λ lease,
        lift_result (step_secrets (ev_OrganizationID r) (ev_StepRunID r)) ≫= λ secrets,
        lift_result (prepare r secrets) ≫= λ p,
        record_event env r p target lease e) s
  end.

Definition RecordAgentStepRunEvent (env : tx_env) (r : RecordStepRunEventRequest) (s : db) :=
  recordStepRunEvent env r ExecutorAgent s.

Definition RecordHubStepRunEvent (env : tx_env) (r : RecordStepRunEventRequest) (s : db) :=
  recordStepRunEvent env r ExecutorHub s.
End events.
