(* ===== verification/TaskSystem.v ===== *)
(** * The task system: the queue, the leases and the events together

    The operations of [TaskQueue], [TaskLeases] and [StepEvents] as the steps of
    one system over the shared tables, its invariant, and the guarantees that
    executors rely on: exclusive resources, one lease at a time with rising
    attempts, nothing held by a finished task, and fencing of stale leases. *)
From S2P Require Import Prelude GoStrings Uuid TaskStore TaskQueue TaskLeases StepEvents.
Open Scope list_scope.

(** ** The invariant *)

Definition owns (t : Task) (l : TaskResourceLock) : Prop :=
  task_ID t = lock_TaskID l /\ task_OrganizationID t = lock_OrganizationID l.

Definition leased (t : Task) (l : TaskLease) : Prop :=
  task_ID t = lease_TaskID l /\ task_OrganizationID t = lease_OrganizationID l.

(** What the status of a task says about its locks. *)
Definition lock_ok (st : TaskStatus) (l : TaskResourceLock) : Prop :=
  match st with
  | TaskStatusQueued => lock_AcquiredAt l = None /\ lock_ReleasedAt l = None
  | TaskStatusRunning => lock_AcquiredAt l <> None /\ lock_ReleasedAt l = None
  | TaskStatusSucceeded | TaskStatusFailed | TaskStatusCanceled => lock_ReleasedAt l <> None
  | TaskStatusOther _ => False
  end.

Definition active (l : TaskLease) : bool := is_null (lease_ReleasedAt l).

Definition attempt_order (a b : TaskLease) : Prop :=
  lease_TaskID a = lease_TaskID b -> (lease_Attempt a < lease_Attempt b)%Z.

Definition running (s : db) (id : uuid) : Prop :=
  exists t, t ∈ Tasks s /\ task_ID t = id /\ task_Status t = TaskStatusRunning.

Record task_inv (s : db) : Prop := {
  inv_ids : NoDup (task_ID <$> Tasks s);
  inv_status t : t ∈ Tasks s -> task_status_valid (task_Status t) = true;
  inv_locks l : l ∈ Locks s -> exists t, t ∈ Tasks s /\ owns t l /\ lock_ok (task_Status t) l;
  inv_leases l : l ∈ Leases s ->
    exists t, t ∈ Tasks s /\ leased t l
      /\ (lease_ReleasedAt l = None -> task_Status t = TaskStatusRunning);
  inv_active : NoDup (lease_TaskID <$> select_where active (Leases s));
  inv_attempts : StronglySorted attempt_order (Leases s);
  inv_exclusive l m :
    l ∈ Locks s -> m ∈ Locks s -> same_resource l m = true -> lock_TaskID l <> lock_TaskID m ->
    running s (lock_TaskID l) -> running s (lock_TaskID m) ->
    lock_ConcurrencyPolicy l = PolicyAllowParallel \/ lock_ConcurrencyPolicy m = PolicyAllowParallel;
}.

Lemma task_unique s t u : task_inv s -> t ∈ Tasks s -> u ∈ Tasks s -> task_ID t = task_ID u -> t = u.
Proof.
  intros Hinv. exact (NoDup_fmap_elem task_ID _ t u (inv_ids s Hinv)).
Qed.

(** The invariant speaks of the tasks, the locks and the leases only. *)
Lemma task_inv_frame s s' :
  Tasks s' = Tasks s -> Locks s' = Locks s -> Leases s' = Leases s -> task_inv s -> task_inv s'.
Proof.
  intros E1 E2 E3 [H1 H2 H3 H4 H5 H6 H7]. unfold running in *.
  constructor; unfold running; rewrite ?E1, ?E2, ?E3; done.
Qed.

(** The tables after a task's status changed: the rows of the other tasks are
    unchanged, the locks and leases of the task are updated by [fl] and [fe]. *)
Definition change_status (id org : uuid) (ft : Task -> Task) (fl : TaskResourceLock -> TaskResourceLock)
    (fe : TaskLease -> TaskLease) (s s' : db) : Prop :=
  Tasks s' = update_where (task_where id org) ft (Tasks s)
  /\ Locks s' = update_where (locks_where id org) fl (Locks s)
  /\ Leases s' = update_where (leases_where id org) fe (Leases s).

Lemma update_where_and {A} (c d : A -> bool) f l :
  update_where (λ x, c x && d x) f l = update_where c (λ x, if d x then f x else x) l.
Proof. unfold update_where. apply list_fmap_ext. intros i x _. simpl. by destruct (c x), (d x). Qed.

Lemma updateTaskStatus_terminal env id org st s s' :
  task_status_terminal st = true -> updateTaskStatus env id org st s = Ok (tt, s') ->
  change_status id org (set_task_status st (now env))
    (λ l, if is_null (lock_ReleasedAt l) then release_lock (now env) l else l)
    (λ l, if is_null (lease_ReleasedAt l) then release_lease (now env) l else l) s s'
  /\ StepRuns s' = StepRuns s /\ Plans s' = Plans s /\ Bundles s' = Bundles s /\ Events s' = Events s.
Proof.
  intros Ht H. unfold updateTaskStatus in H. rewrite Ht in H.
  unfold releaseActiveTaskLeasesForTask, releaseTaskResourceLocks in H. tx_inv.
  unfold change_status. simpl. by rewrite !update_where_and.
Qed.

(** *** Leases: a row update that keeps the keys and activates no lease *)

Definition lease_update (g : TaskLease -> TaskLease) : Prop :=
  forall x, lease_TaskID (g x) = lease_TaskID x /\ lease_OrganizationID (g x) = lease_OrganizationID x
    /\ lease_Attempt (g x) = lease_Attempt x /\ (active (g x) = true -> active x = true).

Lemma lease_update_attempts g l :
  lease_update g -> StronglySorted attempt_order l -> StronglySorted attempt_order (g <$> l).
Proof.
  intros Hg. induction 1 as [|x l Hs IH Hx]; [constructor|]. rewrite fmap_cons.
  constructor; [exact IH|]. rewrite Forall_forall in Hx |- *.
  intros y (z & -> & Hz)%list_elem_of_fmap. specialize (Hx z Hz). unfold attempt_order in *.
  destruct (Hg x) as (-> & _ & -> & _), (Hg z) as (-> & _ & -> & _). done.
Qed.

Lemma lease_update_active g l :
  lease_update g -> NoDup (lease_TaskID <$> select_where active l) ->
  NoDup (lease_TaskID <$> select_where active (g <$> l)).
Proof.
  intros Hg Hnd. eapply sublist_NoDup; [exact Hnd|]. clear Hnd. induction l as [|x l IH]; [constructor|].
  rewrite fmap_cons. unfold select_where in *. simpl.
  destruct (Hg x) as (Hid & _ & _ & Hact). destruct (active (g x)) eqn:E.
  - rewrite (Hact eq_refl). rewrite !fmap_cons, Hid. by constructor.
  - destruct (active x); [rewrite fmap_cons; by constructor | done].
Qed.

Lemma lease_update_where (c : TaskLease -> bool) f : lease_update f -> lease_update (λ x : TaskLease, if c x then f x else x).
Proof. intros Hf x. destruct (c x); [apply Hf | done]. Qed.

Lemma release_lease_update now : lease_update (release_lease now).
Proof. by intros x. Qed.

Lemma extend_lease_update now : lease_update (extend_lease now).
Proof. by intros x. Qed.

Lemma is_null_true c : is_null c = true <-> c = None.
Proof. unfold is_null. by rewrite bool_decide_eq_true. Qed.

Lemma task_inv_leases g s : lease_update g -> task_inv s -> task_inv (set_leases (g <$> Leases s) s).
Proof.
  intros Hg [H1 H2 H3 H4 H5 H6 H7]. constructor; simpl; auto.
  - intros l (x & -> & Hx)%list_elem_of_fmap. destruct (H4 x Hx) as (t & Ht & [Hid Horg] & Ha).
    destruct (Hg x) as (E1 & E2 & _ & E3). exists t. unfold leased. rewrite E1, E2. split_and!; try done.
    intros Hn. apply Ha, is_null_true, E3. by apply is_null_true.
  - by apply lease_update_active.
  - by apply lease_update_attempts.
Qed.

(** *** The status of one task changes *)

(** The guarded updates of [change_status] keep the keys of the rows. *)
Definition task_update (g : Task -> Task) : Prop :=
  forall t, task_ID (g t) = task_ID t /\ task_OrganizationID (g t) = task_OrganizationID t.

Definition lock_update (g : TaskResourceLock -> TaskResourceLock) : Prop :=
  forall l, lock_TaskID (g l) = lock_TaskID l /\ lock_OrganizationID (g l) = lock_OrganizationID l
    /\ lock_ResourceType (g l) = lock_ResourceType l /\ lock_ResourceKey (g l) = lock_ResourceKey l
    /\ lock_ConcurrencyPolicy (g l) = lock_ConcurrencyPolicy l.

Lemma owns_where id org t l : owns t l -> task_where id org t = locks_where id org l.
Proof. intros [E1 E2]. unfold task_where, locks_where. by rewrite E1, E2. Qed.

Lemma leased_where id org t l : leased t l -> task_where id org t = leases_where id org l.
Proof. intros [E1 E2]. unfold task_where, leases_where. by rewrite E1, E2. Qed.

Lemma task_where_true id org t :
  task_where id org t = true <-> task_ID t = id /\ task_OrganizationID t = org.
Proof. unfold task_where. by rewrite andb_true_iff, !bool_decide_eq_true. Qed.

Section change.
Context (id org : uuid) (ft : Task -> Task) (fl : TaskResourceLock -> TaskResourceLock)
  (fe : TaskLease -> TaskLease) (s s' : db).
Context (Hinv : task_inv s) (Hch : change_status id org ft fl fe s s').
Context (Hft : task_update ft) (Hfl : lock_update fl) (Hfe : lease_update fe).

Lemma change_running x :
  running s' x -> running s x
  \/ exists t, t ∈ Tasks s /\ task_ID t = x /\ task_where id org t = true
       /\ task_Status (ft t) = TaskStatusRunning.
Proof.
  destruct Hch as (Ht & _). intros (t & Hin & <- & Hr). rewrite Ht in Hin.
  apply elem_of_update_where in Hin as (u & Hu & ->). destruct (task_where id org u) eqn:E.
  - right. exists u. split_and!; auto. symmetry. apply (Hft u).
  - left. by exists u.
Qed.

Lemma change_inv :
  (forall t, t ∈ Tasks s -> task_where id org t = true -> task_status_valid (task_Status (ft t)) = true) ->
  (forall t l, t ∈ Tasks s -> l ∈ Locks s -> task_where id org t = true -> owns t l ->
     lock_ok (task_Status t) l -> lock_ok (task_Status (ft t)) (fl l)) ->
  (forall t l, t ∈ Tasks s -> l ∈ Leases s -> task_where id org t = true -> leased t l ->
     (lease_ReleasedAt l = None -> task_Status t = TaskStatusRunning) ->
     lease_ReleasedAt (fe l) = None -> task_Status (ft t) = TaskStatusRunning) ->
  (forall t l m, t ∈ Tasks s -> task_where id org t = true -> task_Status (ft t) = TaskStatusRunning ->
     l ∈ Locks s -> m ∈ Locks s -> owns t l -> same_resource l m = true ->
     lock_TaskID l <> lock_TaskID m -> running s (lock_TaskID m) ->
     lock_ConcurrencyPolicy l = PolicyAllowParallel \/ lock_ConcurrencyPolicy m = PolicyAllowParallel) ->
  task_inv s'.
Proof.
  intros Hval Hlock Hlease Hexcl. destruct Hch as (Ht & Hl & He).
  destruct Hinv as [H1 H2 H3 H4 H5 H6 H7]. constructor.
  - rewrite Ht, fmap_update_where; [done|]. intros x _ _. apply Hft.
  - intros t Hin. rewrite Ht in Hin. apply elem_of_update_where in Hin as (u & Hu & ->).
    destruct (task_where id org u) eqn:E; auto.
  - intros l Hin. rewrite Hl in Hin. apply elem_of_update_where in Hin as (x & Hx & ->).
    destruct (H3 x Hx) as (t & Htin & Ho & Hok).
    exists (if task_where id org t then ft t else t). rewrite <- (owns_where id org t x Ho).
    split; [rewrite Ht; apply elem_of_update_where; by exists t|].
    destruct (task_where id org t) eqn:E; [|done]. split; [|auto].
    destruct Ho as [E1 E2], (Hft t) as [E3 E4], (Hfl x) as (E5 & E6 & _). split; congruence.
  - intros l Hin. rewrite He in Hin. apply elem_of_update_where in Hin as (x & Hx & ->).
    destruct (H4 x Hx) as (t & Htin & Ho & Hok).
    exists (if task_where id org t then ft t else t). rewrite <- (leased_where id org t x Ho).
    split; [rewrite Ht; apply elem_of_update_where; by exists t|].
    destruct (task_where id org t) eqn:E; [|done]. split; [|eauto].
    destruct Ho as [E1 E2], (Hft t) as [E3 E4], (Hfe x) as (E5 & E6 & _). split; congruence.
  - rewrite He. apply lease_update_active, H5. by apply lease_update_where.
  - rewrite He. apply lease_update_attempts, H6. by apply lease_update_where.
  - intros l m Hin Hin' Hsame Hne Hr1 Hr2. rewrite Hl in Hin, Hin'.
    apply elem_of_update_where in Hin as (x & Hx & ->), Hin' as (y & Hy & ->).
    assert (forall z, lock_TaskID (if locks_where id org z then fl z else z) = lock_TaskID z
      /\ lock_ConcurrencyPolicy (if locks_where id org z then fl z else z) = lock_ConcurrencyPolicy z) as Hkeep
      by (intros z; destruct (Hfl z) as (? & _ & _ & _ & ?); by destruct (locks_where id org z)).
    assert (same_resource x y = true) as Hxy.
    { revert Hsame. unfold same_resource.
      destruct (Hfl x) as (_ & E1 & E2 & E3 & _), (Hfl y) as (_ & E4 & E5 & E6 & _).
      destruct (locks_where id org x), (locks_where id org y); by rewrite ?E1, ?E2, ?E3, ?E4, ?E5, ?E6. }
    destruct (Hkeep x) as [Kx1 Kx2], (Hkeep y) as [Ky1 Ky2]. rewrite Kx1, Ky1 in *. rewrite Kx2, Ky2.
    apply change_running in Hr1, Hr2.
    destruct Hr1 as [Hr1|(t & Htin & Hid & Hw & Hr1)], Hr2 as [Hr2|(u & Huin & Hid2 & Hw2 & Hr2)].
    + by apply H7.
    + destruct (Hexcl u y x) as [?|?]; auto.
      * destruct (H3 y Hy) as (v & Hv & Hov & _). assert (u = v) as ->; [|done].
        destruct Hov as [Hov _]. apply (task_unique s); [by constructor|done..|congruence].
      * unfold same_resource in *. rewrite !andb_true_iff, !bool_decide_eq_true in *. intuition congruence.
    + apply (Hexcl t x y); auto. destruct (H3 x Hx) as (v & Hv & Hov & _).
      assert (t = v) as ->; [|done]. destruct Hov as [Hov _].
      apply (task_unique s); [by constructor|done..|congruence].
    + exfalso. apply task_where_true in Hw as [E1 _], Hw2 as [E2 _]. congruence.
Qed.
End change.

Lemma set_task_status_update st now : task_update (set_task_status st now).
Proof. by intros t. Qed.

Lemma guarded_release_lock now :
  lock_update (λ l, if is_null (lock_ReleasedAt l) then release_lock now l else l).
Proof. intros l. by destruct (is_null _). Qed.

Lemma guarded_acquire_lock now :
  lock_update (λ l, if is_null (lock_ReleasedAt l) then acquire_lock now l else l).
Proof. intros l. by destruct (is_null _). Qed.

Lemma terminal_lock_ok st l :
  task_status_terminal st = true -> lock_ReleasedAt l <> None -> lock_ok st l.
Proof. by destruct st. Qed.

Lemma guarded_release_lock_released now l :
  lock_ReleasedAt (if is_null (lock_ReleasedAt l) then release_lock now l else l) <> None.
Proof.
  destruct (is_null (lock_ReleasedAt l)) eqn:E; [done|]. intros H. rewrite H in E. discriminate.
Qed.

Lemma guarded_release_lease_released now l :
  lease_ReleasedAt (if is_null (lease_ReleasedAt l) then release_lease now l else l) <> None.
Proof.
  destruct (is_null (lease_ReleasedAt l)) eqn:E; [done|]. intros H. rewrite H in E. discriminate.
Qed.

Lemma terminal_valid st : task_status_terminal st = true -> task_status_valid st = true.
Proof. by destruct st. Qed.

Lemma terminal_not_running st : task_status_terminal st = true -> st <> TaskStatusRunning.
Proof. by destruct st. Qed.

Lemma inv_updateTaskStatus_terminal env id org st s s' :
  task_inv s -> task_status_terminal st = true -> updateTaskStatus env id org st s = Ok (tt, s') ->
  task_inv s'.
Proof.
  intros Hinv Hst H. destruct (updateTaskStatus_terminal _ _ _ _ _ _ Hst H) as [Hch _].
  apply (change_inv _ _ _ _ _ _ _ Hinv Hch (set_task_status_update _ _) (guarded_release_lock _)).
  - apply (lease_update_where (λ l, is_null (lease_ReleasedAt l))), release_lease_update.
  - intros t _ _. by apply terminal_valid.
  - intros t l _ _ _ _ _. apply terminal_lock_ok; [done|]. apply guarded_release_lock_released.
  - intros t l _ _ _ _ _ Hn. by apply guarded_release_lease_released in Hn.
  - intros t l m _ _ Hr. simpl in Hr. subst. discriminate.
Qed.

(** *** A task starts to run *)

Lemma acquireTaskResourceLocks_inv env id org s s1 :
  acquireTaskResourceLocks env id org s = Ok (tt, s1) ->
  Tasks s1 = Tasks s /\ Leases s1 = Leases s /\ StepRuns s1 = StepRuns s /\ Plans s1 = Plans s
  /\ Bundles s1 = Bundles s /\ Events s1 = Events s
  /\ Locks s1 = update_where (locks_where id org)
       (λ l, if is_null (lock_ReleasedAt l) then acquire_lock (now env) l else l) (Locks s)
  /\ forall l, l ∈ Locks s -> locks_where id org l = true ->
       lock_ConcurrencyPolicy l <> PolicyAllowParallel -> hasActiveTaskResourceConflict l id s = false.
Proof.
  unfold acquireTaskResourceLocks, getTaskResourceLocksForUpdate, getTaskResourceLocksByTaskID. intros H.
  tx_inv. set (locks := stable_sort _ _) in *.
  assert (forall l, l ∈ locks <-> l ∈ Locks x0 /\ locks_where id org l = true) as Hin.
  { intros l. unfold locks. by rewrite elem_of_stable_sort, elem_of_select_where. }
  destruct (existsb _ locks) eqn:Ex; [discriminate|].
  assert (forall l, l ∈ locks -> lock_ConcurrencyPolicy l <> PolicyAllowParallel ->
    hasActiveTaskResourceConflict l id x0 = false) as Hno.
  { intros l Hl Hp. change (exists_where (λ l, negb (bool_decide (lock_ConcurrencyPolicy l = PolicyAllowParallel))
      && hasActiveTaskResourceConflict l id x0) locks = false) in Ex.
    rewrite exists_where_false in Ex. specialize (Ex l Hl).
    by rewrite (bool_decide_eq_false_2 _ Hp) in Ex. }
  tx_inv. case_bool_decide as El; tx_inv.
  - split_and!; try done; [|intros l Hl Hw; apply Hno; by apply Hin].
    symmetry. apply update_where_id. intros l Hl Hw. exfalso.
    assert (l ∈ locks) as Hl' by (by apply Hin). destruct locks; [by apply elem_of_nil in Hl'|done].
  - split_and!; try done; [simpl; by rewrite update_where_and|]. intros l Hl Hw. apply Hno. by apply Hin.
Qed.

Lemma inv_start_task env id org s s1 s2 :
  task_inv s -> acquireTaskResourceLocks env id org s = Ok (tt, s1) ->
  (forall t, t ∈ Tasks s -> task_where id org t = true -> task_Status t = TaskStatusQueued) ->
  updateTaskStatus env id org TaskStatusRunning s1 = Ok (tt, s2) -> task_inv s2.
Proof.
  intros Hinv (HT & HE & _ & _ & _ & _ & HL & Hno)%acquireTaskResourceLocks_inv Hq H.
  unfold updateTaskStatus in H. simpl in H. tx_inv.
  assert (change_status id org (set_task_status TaskStatusRunning (now env))
    (λ l, if is_null (lock_ReleasedAt l) then acquire_lock (now env) l else l) (λ l, l) s
    (set_tasks (update_where (task_where id org) (set_task_status TaskStatusRunning (now env)) (Tasks s1)) s1))
    as Hch.
  { split_and!; simpl; [by rewrite HT|done|]. rewrite HE. symmetry. by apply update_where_id. }
  apply (change_inv _ _ _ _ _ _ _ Hinv Hch (set_task_status_update _ _) (guarded_acquire_lock _)).
  - by intros l.
  - done.
  - intros t l Ht Hl Hw Ho Hok. rewrite (Hq t Ht Hw) in Hok. destruct Hok as [_ Hok]. simpl.
    rewrite Hok. simpl. done.
  - done.
  - intros t l m Ht Hw _ Hl Hm Ho Hsame Hne Hr.
    destruct (decide (lock_ConcurrencyPolicy l = PolicyAllowParallel)) as [|Hp]; [by left|]. exfalso.
    rewrite (owns_where id org t l Ho) in Hw.
    specialize (Hno l Hl Hw Hp). unfold hasActiveTaskResourceConflict in Hno.
    rewrite exists_where_false in Hno. specialize (Hno m Hm).
    destruct (inv_locks s Hinv m Hm) as (u & Hu & Hou & Hok).
    assert (task_Status u = TaskStatusRunning) as Hru.
    { destruct Hr as (v & Hv & Hvid & Hrv). destruct Hou as [E _].
      rewrite <- (task_unique s v u Hinv Hv Hu); [done|congruence]. }
    rewrite Hru in Hok. destruct Hok as [Hacq Hrel].
    assert (lock_task_has (status_in [TaskStatusRunning]) s m = true) as Hhas.
    { apply exists_where_true. exists u. split; [done|]. apply andb_true_iff. split.
      - apply task_where_true. by destruct Hou.
      - unfold status_in. apply contains_true. rewrite Hru. by left. }
    unfold locks_where in Hw. to_prop. unfold lock_active, is_null in Hno.
    rewrite Hsame, Hhas, (bool_decide_eq_false_2 _ Hacq), (bool_decide_eq_true_2 _ Hrel) in Hno.
    rewrite bool_decide_eq_false_2 in Hno by congruence. discriminate.
Qed.

(** ** The operations preserve the invariant *)

Lemma getTaskStatusForUpdate_inv id org s st s' :
  getTaskStatusForUpdate id org s = Ok (st, s') ->
  s' = s /\ exists t, t ∈ Tasks s /\ task_where id org t = true /\ task_Status t = st.
Proof.
  unfold getTaskStatusForUpdate. destruct (select_where _ _) as [|t l] eqn:E; [done|]. intros [= <- <-].
  split; [done|]. exists t. assert (t ∈ select_where (task_where id org) (Tasks s)) as Ht
    by (rewrite E; by left). apply elem_of_select_where in Ht as [??]. done.
Qed.

Lemma task_where_unique s id org t u :
  task_inv s -> t ∈ Tasks s -> u ∈ Tasks s -> task_where id org t = true -> task_where id org u = true -> t = u.
Proof.
  intros Hinv Ht Hu [E1 _]%task_where_true [E2 _]%task_where_true.
  apply (task_unique s); auto. congruence.
Qed.

Lemma getTask_state id org s h s' : getTask id org s = Ok (h, s') -> s' = s.
Proof.
  unfold getTask. destruct (select_where _ _) as [|t [|]]; [done| |done].
  unfold hydrateTask, getTaskResourceLocksByTaskID, getStepRunsByTaskID. intros H. by tx_inv.
Qed.

Lemma getTask_inv id org s h s' :
  getTask id org s = Ok (h, s') ->
  ht_Task h ∈ Tasks s /\ task_where id org (ht_Task h) = true.
Proof.
  unfold getTask. destruct (select_where _ _) as [|t [|]] eqn:E; [done| |done].
  unfold hydrateTask, getTaskResourceLocksByTaskID, getStepRunsByTaskID. intros H. tx_inv. simpl.
  rewrite <- elem_of_select_where, E. by left.
Qed.

Lemma inv_TransitionTaskState env r s res s' :
  task_inv s -> TransitionTaskState env r s = (res, s') -> task_inv s'.
Proof.
  intros Hinv. unfold TransitionTaskState. destruct (validateTransitionTaskStateRequest r); [|by intros [= _ <-]].
  intros [(h & -> & E)|(e & _ & _ & ->)]%RunTx_cases; [|done].
  tx_inv. apply getTaskStatusForUpdate_inv in H as [-> (t & Ht & Hw & Hst)].
  destruct (isAllowedTaskTransition x (tt_Status r)) eqn:Ha; [|tx_inv]. tx_inv.
  apply getTask_state in E as ->.
  destruct (decide (task_Status t = TaskStatusQueued)) as [Hq|Hq].
  - rewrite Hq in Ha. simpl in Ha. to_prop. rewrite Ha in *. simpl in *.
    eapply inv_start_task; [done|done| |done].
    intros u Hu Hwu. by rewrite (task_where_unique _ _ _ u t Hinv Hu Ht Hwu Hw).
  - assert (task_status_terminal (tt_Status r) = true) as Hterm.
    { destruct (task_Status t); try done. simpl in Ha. by destruct (tt_Status r). }
    rewrite bool_decide_eq_false_2 in H1 by (by apply terminal_not_running). tx_inv.
    by eapply inv_updateTaskStatus_terminal.
Qed.

Lemma inv_step_runs l s : task_inv s -> task_inv (set_step_runs l s).
Proof. by apply task_inv_frame. Qed.

Lemma updateStepRunStatus_inv env id org st s s' :
  updateStepRunStatus env id org st s = Ok (tt, s') ->
  s' = set_step_runs (update_where (step_where id org) (set_step_status st (now env)) (StepRuns s)) s.
Proof. unfold updateStepRunStatus. intros H. by tx_inv. Qed.

Lemma inv_TransitionStepRunState env r s res s' :
  task_inv s -> TransitionStepRunState env r s = (res, s') -> task_inv s'.
Proof.
  intros Hinv. unfold TransitionStepRunState.
  destruct (validateTransitionStepRunStateRequest r); [|by intros [= _ <-]].
  intros [(h & -> & E)|(e & _ & _ & ->)]%RunTx_cases; [|done].
  apply tx_bind_ok in E as (st & s1 & E1 & E). unfold getStepRunStatusForUpdate in E1.
  destruct (select_where _ _); [done|]. injection E1 as _ <-.
  apply tx_bind_ok in E as (? & s2 & E1 & E). destruct (isAllowedStepRunTransition _ _); [|done]. tx_inv.
  apply updateStepRunStatus_inv in H as ->. unfold getStepRun in E.
  destruct (select_where _ _) as [|? [|]]; [done| |done]. tx_inv. by apply inv_step_runs.
Qed.

(** *** Leases *)

Lemma reset_interrupted_frame id org es s s' :
  reset_interrupted id org es s = Ok (tt, s') ->
  Tasks s' = Tasks s /\ Locks s' = Locks s /\ Leases s' = Leases s /\ Plans s' = Plans s
  /\ Bundles s' = Bundles s /\ Events s' = Events s.
Proof.
  revert s. induction es as [|e es IH]; intros s H; simpl in H.
  { tx_inv. done. }
  destruct (negb (executor_valid e)); [done|]. unfold resetInterruptedStepRunsForTaskExecutor in H. tx_inv.
  apply IH in H. done.
Qed.

Definition lease_stale (env : tx_env) (id org : uuid) (l : TaskLease) : bool :=
  leases_where id org l && is_null (lease_ReleasedAt l) && lease_expired (now env) l.

Lemma releaseExpired_inv env id org s n s' :
  releaseExpiredTaskLeasesAndNextAttempt env id org s = Ok (n, s') ->
  Tasks s' = Tasks s /\ Locks s' = Locks s /\ Plans s' = Plans s /\ Bundles s' = Bundles s
  /\ Events s' = Events s
  /\ Leases s' = update_where (lease_stale env id org) (release_lease (now env)) (Leases s)
  /\ n = max_attempt (select_where (leases_where id org) (Leases s)).
Proof.
  unfold releaseExpiredTaskLeasesAndNextAttempt. intros H. tx_inv.
  apply reset_interrupted_frame in H3 as (-> & -> & -> & -> & -> & ->). done.
Qed.

Lemma inv_releaseExpired env id org s n s' :
  task_inv s -> releaseExpiredTaskLeasesAndNextAttempt env id org s = Ok (n, s') -> task_inv s'.
Proof.
  intros Hinv (HT & HL & _ & _ & _ & HE & _)%releaseExpired_inv.
  apply (task_inv_frame (set_leases (update_where (lease_stale env id org) (release_lease (now env)) (Leases s)) s));
    [done..|].
  apply (task_inv_leases (λ l, if lease_stale env id org l then release_lease (now env) l else l)); [|done].
  apply lease_update_where, release_lease_update.
Qed.

Lemma max_attempt_spec l : (1 <= max_attempt l)%Z /\ forall x, x ∈ l -> (lease_Attempt x < max_attempt l)%Z.
Proof.
  unfold max_attempt.
  assert (forall n, (n <= foldl (λ next l, if (next <=? lease_Attempt l)%Z then (lease_Attempt l + 1)%Z else next) n l)%Z
    /\ forall x, x ∈ l -> (lease_Attempt x < foldl (λ next l,
         if (next <=? lease_Attempt l)%Z then (lease_Attempt l + 1)%Z else next) n l)%Z) as Hgen; [|apply Hgen].
  induction l as [|y l IH]; intros n; simpl.
  - split; [lia|]. intros x Hx. by apply elem_of_nil in Hx.
  - destruct (IH (if (n <=? lease_Attempt y)%Z then (lease_Attempt y + 1)%Z else n)) as [H1 H2].
    destruct (Z.leb_spec n (lease_Attempt y)); (split; [lia|]);
      intros x [->|Hx]%elem_of_cons; auto; lia.
Qed.

Lemma StronglySorted_snoc {A} (R : A -> A -> Prop) l x :
  StronglySorted R l -> Forall (λ y, R y x) l -> StronglySorted R (l ++ [x]).
Proof.
  induction 1 as [|y l Hs IH Hy]; intros Hx; simpl; [by repeat constructor|].
  apply Forall_cons in Hx as [Hyx Hx]. constructor; [by apply IH|]. apply Forall_app. by split; [|constructor].
Qed.

Lemma inv_insertTaskLease `{Crypto} env org target id e h n s leaseID s' :
  task_inv s -> insertTaskLease env org target id e h n s = Ok (leaseID, s') ->
  (exists t, t ∈ Tasks s /\ task_where id org t = true /\ task_Status t = TaskStatusRunning) ->
  (forall l, l ∈ Leases s -> leases_where id org l = true -> (lease_Attempt l < n)%Z) ->
  task_inv s'.
Proof.
  intros Hinv Hins (t & Ht & Hw & Hr) Hn. unfold insertTaskLease in Hins.
  destruct (exists_where _ _) eqn:Ex; [done|]. injection Hins as _ <-.
  apply task_where_true in Hw as [<- <-]. rewrite exists_where_false in Ex.
  destruct Hinv as [H1 H2 H3 H4 H5 H6 H7]. constructor; simpl; auto.
  - intros l [Hl|Hl]%elem_of_app; [by apply H4|]. apply list_elem_of_singleton in Hl as ->.
    exists t. split_and!; try done.
  - unfold select_where. rewrite List.filter_app, fmap_app. simpl. apply NoDup_app.
    split_and!; [done| |apply NoDup_singleton].
    intros x (l & -> & Hl)%list_elem_of_fmap Hx. apply list_elem_of_singleton in Hx.
    apply elem_of_select_where in Hl as [Hl Ha]. specialize (Ex l Hl).
    unfold active in Ha. rewrite Ha, bool_decide_eq_true_2 in Ex by done. done.
  - apply StronglySorted_snoc; [done|]. apply Forall_forall. intros l Hl. unfold attempt_order. simpl.
    intros E. apply Hn; [done|]. destruct (H4 l Hl) as (u & Hu & [Hu1 Hu2] & _).
    assert (t = u) as <- by (apply (task_unique s); [by constructor|done..|congruence]).
    unfold leases_where. rewrite <- Hu2, E. by rewrite !bool_decide_eq_true_2.
Qed.

Lemma getTaskLeaseSteps_state `{Crypto} `{SecretResolver} t loc s x s' :
  getTaskLeaseSteps t loc s = Ok (x, s') -> s' = s.
Proof.
  unfold getTaskLeaseSteps, getReadyTaskLeaseStepCandidates, getTaskLeaseStepCandidates. intros H1. tx_inv.
  unfold lift_result in H1. destruct (lease_steps _ _); by tx_inv.
Qed.

Lemma getTaskLease_state `{Crypto} `{SecretResolver} id org token s x s' :
  getTaskLease id org token s = Ok (x, s') -> s' = s.
Proof.
  unfold getTaskLease. destruct (select_where _ _) as [|l ls]; [done|]. intros E.
  apply tx_bind_ok in E as (h & s1 & ->%getTask_state & E).
  apply tx_bind_ok in E as (steps & s2 & ->%getTaskLeaseSteps_state & E). by tx_inv.
Qed.

Lemma stale_attempts env id org s s1 n :
  releaseExpiredTaskLeasesAndNextAttempt env id org s = Ok (n, s1) ->
  forall l, l ∈ Leases s1 -> leases_where id org l = true -> (lease_Attempt l < n)%Z.
Proof.
  intros (_ & _ & _ & _ & _ & HE & ->)%releaseExpired_inv l Hl Hw. rewrite HE in Hl.
  apply elem_of_update_where in Hl as (x & Hx & ->).
  replace (lease_Attempt _) with (lease_Attempt x) by (by destruct (lease_stale _ _ _ _)).
  apply max_attempt_spec, elem_of_select_where. split; [done|].
  by destruct (lease_stale _ _ _ _) in Hw.
Qed.

Section lease_ops.
Context `{Crypto} `{SecretResolver}.

Lemma inv_grant_lease env t e n s x s' :
  task_inv s -> grant_lease env t e n s = Ok (x, s') ->
  (exists u, u ∈ Tasks s /\ task_where (task_ID t) (task_OrganizationID t) u = true
     /\ task_Status u = TaskStatusRunning) ->
  (forall l, l ∈ Leases s -> leases_where (task_ID t) (task_OrganizationID t) l = true ->
     (lease_Attempt l < n)%Z) ->
  task_inv s'.
Proof.
  intros Hinv Hg Ht Hn. unfold grant_lease in Hg.
  apply tx_bind_ok in Hg as (leaseID & s1 & Hins & Hg).
  apply tx_bind_ok in Hg as (lease & s2 & ->%getTaskLease_state & Hg). tx_inv.
  by eapply inv_insertTaskLease.
Qed.

Lemma task_where_refl t : task_where (task_ID t) (task_OrganizationID t) t = true.
Proof. by apply task_where_true. Qed.

Lemma getReady_state id org loc s x s' :
  getReadyTaskLeaseStepCandidates id org loc s = Ok (x, s') -> s' = s.
Proof. unfold getReadyTaskLeaseStepCandidates, getTaskLeaseStepCandidates. intros E. by tx_inv. Qed.

(** A queued candidate that gets its locks: it runs, and its attempt is next. *)
Lemma start_candidate env t s s1 s2 n s3 :
  task_inv s -> t ∈ Tasks s -> task_Status t = TaskStatusQueued ->
  acquireTaskResourceLocks env (task_ID t) (task_OrganizationID t) s = Ok (tt, s1) ->
  updateTaskStatus env (task_ID t) (task_OrganizationID t) TaskStatusRunning s1 = Ok (tt, s2) ->
  releaseExpiredTaskLeasesAndNextAttempt env (task_ID t) (task_OrganizationID t) s2 = Ok (n, s3) ->
  task_inv s3 /\ set_task_status TaskStatusRunning (now env) t ∈ Tasks s3.
Proof.
  intros Hinv Ht Hq Hacq Hupd Hrel. split.
  - eapply inv_releaseExpired; [|done]. eapply inv_start_task; [done|done| |done].
    intros u Hu Hw. by rewrite (task_where_unique _ _ _ u t Hinv Hu Ht Hw (task_where_refl t)).
  - apply releaseExpired_inv in Hrel as (-> & _). apply acquireTaskResourceLocks_inv in Hacq as (HT & _).
    unfold updateTaskStatus in Hupd. simpl in Hupd. tx_inv. simpl. rewrite HT.
    apply elem_of_update_where. exists t. by rewrite task_where_refl.
Qed.

(** The states between a candidate and its lease: a running task releases its
    expired leases; a queued one acquires its locks and starts first. *)
Definition started (env : tx_env) (t : Task) (s : db) (n : Z) (s1 : db) : Prop :=
  (task_Status t = TaskStatusRunning
   /\ releaseExpiredTaskLeasesAndNextAttempt env (task_ID t) (task_OrganizationID t) s = Ok (n, s1))
  \/ (task_Status t = TaskStatusQueued /\ exists sa sb,
       acquireTaskResourceLocks env (task_ID t) (task_OrganizationID t) s = Ok (tt, sa)
       /\ updateTaskStatus env (task_ID t) (task_OrganizationID t) TaskStatusRunning sa = Ok (tt, sb)
       /\ releaseExpiredTaskLeasesAndNextAttempt env (task_ID t) (task_OrganizationID t) sb = Ok (n, s1)).

Lemma leaseTaskCandidate_cases env t e s x s' :
  task_Status t = TaskStatusQueued \/ task_Status t = TaskStatusRunning ->
  leaseTaskCandidate env t e s = Ok (x, s') ->
  (x = None /\ (s' = s \/ (task_Status t = TaskStatusRunning /\ exists n,
     releaseExpiredTaskLeasesAndNextAttempt env (task_ID t) (task_OrganizationID t) s = Ok (n, s'))))
  \/ (exists lease n s1, x = Some lease
      /\ lockTaskReleaseBundlePublishedForLease (task_ID t) (task_OrganizationID t) s = Some true
      /\ started env t s n s1 /\ grant_lease env t e n s1 = Ok (Some lease, s')).
Proof.
  intros Hst. unfold leaseTaskCandidate.
  destruct (lockTaskReleaseBundlePublishedForLease _ _ s) as [[]|] eqn:Epub;
    [|by intros [= <- <-]; auto|done].
  intros E. apply tx_bind_ok in E as (n & s1 & E1 & E).
  apply tx_bind_ok in E as (steps & s2 & ->%getReady_state & E). destruct Hst as [Hst|Hst].
  - rewrite bool_decide_eq_false_2 in E1 by (by rewrite Hst). injection E1 as <- <-.
    case_bool_decide; [injection E as <- <-; auto|]. rewrite bool_decide_eq_true_2 in E by done.
    apply tx_bind_ok in E as (acq & s2 & E1 & E). unfold try_acquire in E1.
    destruct (acquireTaskResourceLocks env _ _ s) as [[[] s3]|[]] eqn:Ea; try discriminate;
      injection E1 as <- <-; simpl in E; [|injection E as <- <-; auto].
    apply tx_bind_ok in E as ([] & s4 & E2 & E). apply tx_bind_ok in E as (m & s5 & E3 & E). right.
    pose proof E as E'. unfold grant_lease in E'. apply tx_bind_ok in E' as (? & ? & _ & E').
    apply tx_bind_ok in E' as (lease & ? & _ & E'). injection E' as <- _.
    exists lease, m, s5. split_and!; try done. right. split; [done|]. by exists s3, s4.
  - rewrite bool_decide_eq_true_2 in E1 by done.
    rewrite (bool_decide_eq_false_2 (task_Status t = TaskStatusQueued)) in E by (by rewrite Hst).
    case_bool_decide; [injection E as <- <-; left; split; [done|]; right; split; [done|]; by exists n|].
    pose proof E as E'. unfold grant_lease in E'. apply tx_bind_ok in E' as (? & ? & _ & E').
    apply tx_bind_ok in E' as (lease & ? & _ & E'). injection E' as <- _. right.
    exists lease, n, s1. split_and!; try done. by left.
Qed.

Lemma inv_started env t s n s1 :
  task_inv s -> t ∈ Tasks s -> started env t s n s1 ->
  task_inv s1
  /\ (exists u, u ∈ Tasks s1 /\ task_where (task_ID t) (task_OrganizationID t) u = true
        /\ task_Status u = TaskStatusRunning)
  /\ (forall l, l ∈ Leases s1 -> leases_where (task_ID t) (task_OrganizationID t) l = true ->
        (lease_Attempt l < n)%Z).
Proof.
  intros Hinv Ht [[Hst E]|(Hst & sa & sb & Ea & Eb & E)].
  - split_and!; [by eapply inv_releaseExpired| |by eapply stale_attempts].
    apply releaseExpired_inv in E as (-> & _). exists t. by rewrite task_where_refl.
  - destruct (start_candidate _ _ _ _ _ _ _ Hinv Ht Hst Ea Eb E) as [Hinv3 Ht3].
    split_and!; [done| |by eapply stale_attempts]. eexists. split; [exact Ht3|].
    split; [|done]. by apply task_where_true.
Qed.
Lemma inv_leaseTaskCandidate env t e s x s' :
  task_inv s -> t ∈ Tasks s ->
  task_Status t = TaskStatusQueued \/ task_Status t = TaskStatusRunning ->
  leaseTaskCandidate env t e s = Ok (x, s') -> task_inv s'.
Proof.
  intros Hinv Ht Hst [(_ & [->|(_ & n & E)])|(lease & n & s1 & _ & _ & Hs & E)]%leaseTaskCandidate_cases;
    [done| |  |done].
  - by eapply inv_releaseExpired.
  - destruct (inv_started _ _ _ _ _ Hinv Ht Hs) as (? & ? & ?). by eapply inv_grant_lease.
Qed.

Lemma first_task_elem cond s t : first_task cond s = Some t -> t ∈ Tasks s /\ cond t = true.
Proof.
  unfold first_task. intros E%head_elem_of. rewrite elem_of_stable_sort in E.
  by apply elem_of_select_where in E.
Qed.

Lemma lease_candidate_status now loc s t :
  lease_candidate now loc s t = true ->
  task_Status t = TaskStatusQueued \/ task_Status t = TaskStatusRunning.
Proof.
  unfold lease_candidate. intros Hc. to_prop. apply orb_true_iff in H1 as [E|E]; to_prop; auto.
Qed.

Lemma inv_LeaseAgentTask env r s res s' :
  task_inv s -> LeaseAgentTask env r s = (res, s') -> task_inv s'.
Proof.
  intros Hinv. unfold LeaseAgentTask. destruct (validateLeaseAgentTaskRequest r); [|by intros [= _ <-]].
  intros [(x & -> & E)|(e & _ & _ & ->)]%RunTx_cases; [|done].
  destruct (getNextTaskLeaseCandidateForUpdate _ _ _ s) as [t|] eqn:Et; [|by injection E as _ <-].
  apply first_task_elem in Et as [Ht Hc]. to_prop. eapply inv_leaseTaskCandidate; eauto using lease_candidate_status.
Qed.

Lemma inv_LeaseHubTask env s res s' : task_inv s -> LeaseHubTask env s = (res, s') -> task_inv s'.
Proof.
  intros Hinv. unfold LeaseHubTask. intros [(x & -> & E)|(e & _ & _ & ->)]%RunTx_cases; [|done].
  destruct (getNextHubTaskLeaseCandidateForUpdate _ s) as [t|] eqn:Et; [|by injection E as _ <-].
  apply first_task_elem in Et as [Ht Hc]. eapply inv_leaseTaskCandidate; eauto using lease_candidate_status.
Qed.

Lemma inv_heartbeatTaskLease env org target id token e s res s' :
  task_inv s -> heartbeatTaskLease env org target id token e s = (res, s') -> task_inv s'.
Proof.
  intros Hinv. unfold heartbeatTaskLease. intros [(x & -> & E)|(err & _ & _ & ->)]%RunTx_cases; [|done].
  apply tx_bind_ok in E as (st & s1 & [-> _]%getTaskStatusForUpdate_inv & E).
  destruct (negb _); [done|]. apply tx_bind_ok in E as ([leaseID expired] & s2 & E1 & E).
  unfold getActiveTaskLeaseIDForHeartbeat in E1. destruct (select_where _ _); [done|].
  injection E1 as _ _ <-. destruct expired; [done|].
  apply tx_bind_ok in E as ([] & s3 & E1 & ->%getTaskLease_state). unfold updateTaskLeaseHeartbeat in E1.
  tx_inv. apply (task_inv_leases (λ l, if _ : bool then extend_lease (now env) l else l)); [|done].
  apply lease_update_where, extend_lease_update.
Qed.
End lease_ops.

(** *** Events *)

Section event_ops.
Context `{Crypto} `{SecretResolver} `{EventPreparer}.

Lemma inv_completeTaskIfStepRunsTerminal env id org s s' :
  task_inv s -> completeTaskIfStepRunsTerminal env id org s = Ok (tt, s') -> task_inv s'.
Proof.
  intros Hinv. unfold completeTaskIfStepRunsTerminal.
  destruct (bool_decide (0 < _)); [by apply inv_updateTaskStatus_terminal|].
  case_bool_decide; [by apply inv_updateTaskStatus_terminal|]. intros E. by tx_inv.
Qed.

Lemma inv_applyStepRunEventTransition env target r s s' :
  task_inv s -> applyStepRunEventTransition env target r s = Ok (tt, s') -> task_inv s'.
Proof.
  intros Hinv. unfold applyStepRunEventTransition. destruct (negb _); [done|].
  assert (forall st s1, updateStepRunStatus env (ev_StepRunID r) (ev_OrganizationID r) st s = Ok (tt, s1) ->
    task_inv s1) as Hstep.
  { intros st s1 ->%updateStepRunStatus_inv. by apply inv_step_runs. }
  destruct (ev_Type r); try (destruct (negb _); [done|]); intros E; try by tx_inv.
  - by eapply Hstep.
  - apply tx_bind_ok in E as ([] & s1 & E1 & E). by eapply inv_completeTaskIfStepRunsTerminal; [exact (Hstep _ _ E1)|].
  - apply tx_bind_ok in E as ([] & s1 & E1 & E).
    by refine (inv_updateTaskStatus_terminal _ _ _ _ _ _ (Hstep _ _ E1) _ E).
Qed.

Lemma inv_insertStepRunEvent env r p id leaseID s v s' :
  task_inv s -> insertStepRunEvent env r p id leaseID s = Ok (v, s') -> task_inv s'.
Proof. intros Hinv E. unfold insertStepRunEvent in E. tx_inv. by apply (task_inv_frame s). Qed.

Lemma inv_releaseBatch env id org leaseID loc s s' :
  task_inv s -> releaseTaskLeaseIfExecutorBatchComplete env id org leaseID loc s = Ok (tt, s') -> task_inv s'.
Proof.
  intros Hinv E. unfold releaseTaskLeaseIfExecutorBatchComplete in E. tx_inv.
  apply (task_inv_leases (λ l, if _ : bool then release_lease (now env) l else l)); [|done].
  apply lease_update_where, release_lease_update.
Qed.

Lemma validateStepRunOutputNameLimit_state org stepRunID os s s' :
  validateStepRunOutputNameLimit org stepRunID os s = Ok (tt, s') -> s' = s.
Proof.
  unfold validateStepRunOutputNameLimit. case_bool_decide; [by intros [= <-]|].
  case_bool_decide; [done|]. by intros [= <-].
Qed.

Lemma inv_record_event env r p target lease e s v s' :
  task_inv s -> record_event env r p target lease e s = Ok (v, s') -> task_inv s'.
Proof.
  intros Hinv. unfold record_event.
  destruct (getStepRunEventBySequence _ _ _ _ _); [case_bool_decide; [by intros [= _ <-]|done]|].
  destruct (negb _); [done|]. destruct (lease_expired _ _); [done|]. destruct (negb _); [done|].
  intros E. apply tx_bind_ok in E as ([] & s1 & ->%validateStepRunOutputNameLimit_state & E).
  apply tx_bind_ok in E as ([] & s2 & E1 & E). apply tx_bind_ok in E as (w & s3 & E2 & E).
  apply tx_bind_ok in E as ([] & s4 & E3 & E). tx_inv.
  assert (task_inv s3) by eauto using inv_insertStepRunEvent, inv_applyStepRunEventTransition.
  case_bool_decide; [by eapply inv_releaseBatch | by tx_inv].
Qed.

Lemma target_state org stepRunID s target s' :
  getStepRunEventTargetForUpdate org stepRunID s = Ok (target, s') -> s' = s.
Proof. unfold getStepRunEventTargetForUpdate. destruct (_ ≫= _); [done|]. by intros [= _ <-]. Qed.

Lemma event_lease_state r id e s l s' : getTaskLeaseForStepRunEvent r id e s = Ok (l, s') -> s' = s.
Proof. unfold getTaskLeaseForStepRunEvent. destruct (select_where _ _); [done|]. by intros [= _ <-]. Qed.

Lemma lift_state {A} (r : result apierror A) s a s' : lift_result r s = Ok (a, s') -> r = Ok a /\ s' = s.
Proof. unfold lift_result. destruct r; [|done]. by intros [= -> <-]. Qed.

(** The successful path of an event up to [record_event], which changes nothing. *)
Lemma recordStepRunEvent_inv env request e s v s' :
  recordStepRunEvent env request e s = (Ok v, s') ->
  exists r target lease secrets p,
    validateRecordAgentStepRunEventRequest request = Ok r
    /\ getStepRunEventTargetForUpdate (ev_OrganizationID r) (ev_StepRunID r) s = Ok (target, s)
    /\ tg_AgentID target = ev_AgentID r
    /\ getTaskLeaseForStepRunEvent r (tg_TaskID target) e s = Ok (lease, s)
    /\ step_secrets (ev_OrganizationID r) (ev_StepRunID r) = Ok secrets
    /\ prepare r secrets = Ok p
    /\ record_event env r p target lease e s = Ok (v, s').
Proof.
  unfold recordStepRunEvent. destruct (validateRecordAgentStepRunEventRequest request) as [r|]; [|done].
  destruct (negb (executor_valid e)); [done|].
  intros [(x & [= <-] & E)|(err & ? & _)]%RunTx_cases; [|done].
  apply tx_bind_ok in E as (target & s1 & E1 & E). pose proof (target_state _ _ _ _ _ E1) as ->.
  case_bool_decide as Hag; simpl in E; [|done].
  apply tx_bind_ok in E as (lease & s2 & E2 & E). pose proof (event_lease_state _ _ _ _ _ _ E2) as ->.
  apply tx_bind_ok in E as (secrets & s3 & E3 & E). apply lift_state in E3 as [E3 ->].
  apply tx_bind_ok in E as (p & s4 & E4 & E). apply lift_state in E4 as [E4 ->].
  exists r, target, lease, secrets, p. done.
Qed.

Lemma recordStepRunEvent_err env request e s err s' :
  recordStepRunEvent env request e s = (Err err, s') -> s' = s.
Proof.
  unfold recordStepRunEvent. destruct (validateRecordAgentStepRunEventRequest request); [|by intros [= _ <-]].
  destruct (negb (executor_valid e)); [by intros [= _ <-]|].
  intros [(x & ? & _)|(? & _ & _ & ->)]%RunTx_cases; done.
Qed.

Lemma inv_recordStepRunEvent env request e s res s' :
  task_inv s -> recordStepRunEvent env request e s = (res, s') -> task_inv s'.
Proof.
  intros Hinv E. destruct res as [v|err].
  - apply recordStepRunEvent_inv in E as (r & target & lease & secrets & p & _ & _ & _ & _ & _ & _ & E).
    by eapply inv_record_event.
  - by apply recordStepRunEvent_err in E as ->.
Qed.
End event_ops.
