(* ===== verification/TaskCreation.v ===== *)
(** * The creation of the tasks of a plan keeps the invariant and does what the
    concurrency policies promise

    [CreateTasksForDeploymentPlan] of [TaskQueue]: the rows it inserts, the
    older tasks it cancels, and its repetition. *)
From S2P Require Import Prelude GoStrings Uuid TaskStore TaskQueue TaskLeases StepEvents TaskSystem.
Open Scope list_scope.

(** ** The invariant under the inserts and the cancellation *)

(** A creation needs at most this many generated keys of a table. *)
Definition key_bound (s : db) : nat :=
  sum_list ((λ p, length (plan_Targets p)) <$> Plans s)
  * S (sum_list ((λ p, length (plan_Steps p)) <$> Plans s)).

(** The keys the database generates are new. *)
Record fresh_env (env : tx_env) (s : db) : Prop := {
  fresh_injective i j :
    i < key_bound s -> j < key_bound s -> fresh_task env i = fresh_task env j -> i = j;
  fresh_new i : i < key_bound s -> fresh_task env i ∉ task_ID <$> Tasks s;
  fresh_step_injective i j :
    i < key_bound s -> j < key_bound s -> fresh_step env i = fresh_step env j -> i = j;
  fresh_step_new i : i < key_bound s -> fresh_step env i ∉ sr_ID <$> StepRuns s;
}.

Lemma sum_list_elem {A} (f : A -> nat) l x : x ∈ l -> f x <= sum_list (f <$> l).
Proof.
  induction l as [|y l IH]; intros Hx; [by apply elem_of_nil in Hx|]. rewrite fmap_cons. simpl.
  apply elem_of_cons in Hx as [->|Hx]; [lia|]. specialize (IH Hx). lia.
Qed.

Lemma targets_bound plan s : plan ∈ Plans s -> length (plan_Targets plan) <= key_bound s.
Proof.
  intros Hp. pose proof (sum_list_elem (λ p, length (plan_Targets p)) _ _ Hp) as H. simpl in H.
  unfold key_bound. nia.
Qed.

(** Rows are relabelled: tasks and locks keep their keys, nothing starts to run. *)
Lemma relabel_inv s s' ft fl :
  task_inv s ->
  Tasks s' = ft <$> Tasks s -> Locks s' = fl <$> Locks s -> Leases s' = Leases s ->
  task_update ft -> lock_update fl ->
  (forall t, t ∈ Tasks s -> task_status_valid (task_Status (ft t)) = true
     /\ (task_Status (ft t) = TaskStatusRunning <-> task_Status t = TaskStatusRunning)) ->
  (forall t l, t ∈ Tasks s -> l ∈ Locks s -> owns t l -> lock_ok (task_Status t) l ->
     lock_ok (task_Status (ft t)) (fl l)) ->
  task_inv s'.
Proof.
  intros [H1 H2 H3 H4 H5 H6 H7] ET EL EE Hft Hfl Hst Hok.
  assert (forall x, running s' x -> running s x) as Hrun.
  { intros x (t & Ht & <- & Hr). rewrite ET in Ht. apply list_elem_of_fmap in Ht as (u & -> & Hu).
    exists u. split_and!; [done|symmetry; apply Hft|by apply Hst]. }
  constructor; rewrite ?ET, ?EL, ?EE.
  - rewrite <- list_fmap_compose, (list_fmap_ext _ task_ID); [done|]. intros i t _. apply Hft.
  - intros t (u & -> & Hu)%list_elem_of_fmap. by apply Hst.
  - intros l (m & -> & Hm)%list_elem_of_fmap. destruct (H3 m Hm) as (t & Ht & Ho & Hk).
    exists (ft t). split; [by apply list_elem_of_fmap_2|]. split; [|auto].
    destruct Ho as [E1 E2], (Hft t) as [E3 E4], (Hfl m) as (E5 & E6 & _). split; congruence.
  - intros l Hl. destruct (H4 l Hl) as (t & Ht & [E1 E2] & Hk). exists (ft t).
    split; [by apply list_elem_of_fmap_2|]. destruct (Hft t) as [E3 E4]. split.
    + split; congruence.
    + intros Hn. apply Hst; auto.
  - done.
  - done.
  - intros l m (x & -> & Hx)%list_elem_of_fmap (y & -> & Hy)%list_elem_of_fmap Hsame Hne Hr1%Hrun Hr2%Hrun.
    destruct (Hfl x) as (X1 & X2 & X3 & X4 & X5), (Hfl y) as (Y1 & Y2 & Y3 & Y4 & Y5).
    rewrite X1, Y1 in *. rewrite X5, Y5. apply H7; auto. unfold same_resource in *.
    by rewrite X2, X3, X4, Y2, Y3, Y4 in Hsame.
Qed.

(** Queued tasks and their unacquired locks are added. *)
Lemma append_inv s s' ts ls :
  task_inv s ->
  Tasks s' = Tasks s ++ ts -> Locks s' = Locks s ++ ls -> Leases s' = Leases s ->
  NoDup (task_ID <$> ts) -> (forall t, t ∈ ts -> task_ID t ∉ task_ID <$> Tasks s) ->
  (forall t, t ∈ ts -> task_Status t = TaskStatusQueued) ->
  (forall l, l ∈ ls -> (lock_AcquiredAt l = None /\ lock_ReleasedAt l = None) /\ exists t, t ∈ ts /\ owns t l) ->
  task_inv s'.
Proof.
  intros [H1 H2 H3 H4 H5 H6 H7] ET EL EE Hnd Hnew Hq Hls.
  assert (forall x, running s' x -> running s x) as Hrun.
  { intros x (t & Ht & <- & Hr). rewrite ET in Ht. apply elem_of_app in Ht as [Ht|Ht]; [by exists t|].
    rewrite (Hq t Ht) in Hr. done. }
  assert (forall l, l ∈ ls -> ~ running s (lock_TaskID l)) as Hnr.
  { intros l Hl (u & Hu & Hid & _). destruct (Hls l Hl) as (_ & t & Ht & [Ho _]).
    apply (Hnew t Ht). rewrite Ho, <- Hid. by apply list_elem_of_fmap_2. }
  constructor; rewrite ?ET, ?EL, ?EE.
  - rewrite fmap_app. apply NoDup_app. split_and!; [done| |done].
    intros x Hx (t & -> & Ht)%list_elem_of_fmap. by apply (Hnew t Ht).
  - intros t [Ht|Ht]%elem_of_app; [auto|]. by rewrite (Hq t Ht).
  - intros l [Hl|Hl]%elem_of_app.
    + destruct (H3 l Hl) as (t & Ht & ?). exists t. split; [|done]. apply elem_of_app. by left.
    + destruct (Hls l Hl) as (Hr & t & Ht & Ho). exists t. rewrite (Hq t Ht).
      split; [|done]. apply elem_of_app. by right.
  - intros l Hl. destruct (H4 l Hl) as (t & Ht & ?). exists t. split; [|done]. apply elem_of_app. by left.
  - done.
  - done.
  - intros l m [Hl|Hl]%elem_of_app [Hm|Hm]%elem_of_app Hsame Hne Hr1%Hrun Hr2%Hrun;
      [by apply H7|by destruct (Hnr m Hm)|by destruct (Hnr l Hl)|by destruct (Hnr l Hl)].
Qed.

(** *** The cancellation of the older tasks *)

Lemma same_resource_spec l m :
  same_resource l m = true <->
  lock_OrganizationID l = lock_OrganizationID m /\ lock_ResourceType l = lock_ResourceType m
  /\ lock_ResourceKey l = lock_ResourceKey m.
Proof. unfold same_resource. rewrite !andb_true_iff, !bool_decide_eq_true. tauto. Qed.

Lemma lock_task_has_spec c s l :
  lock_task_has c s l = true <-> exists t, t ∈ Tasks s /\ owns t l /\ c t = true.
Proof.
  unfold lock_task_has, owns. rewrite exists_where_true.
  setoid_rewrite andb_true_iff. setoid_rewrite task_where_true. done.
Qed.

Lemma status_in_spec sts t : status_in sts t = true <-> task_Status t ∈ sts.
Proof. apply contains_true. Qed.

(** A queued task outside [ids] that waits for the resource of [lock]. *)
Definition superseded (lock : TaskResourceLock) (ids : list uuid) (s : db) (t : Task) : Prop :=
  task_Status t = TaskStatusQueued /\ (task_ID t ∉ ids) /\ exists l, l ∈ Locks s /\ owns t l
    /\ same_resource lock l = true /\ lock_ReleasedAt l = None.

(** [s'] is [s] with exactly the superseded tasks canceled and their locks released. *)
Record cancels (env : tx_env) (lock : TaskResourceLock) (ids : list uuid) (s s' : db) : Prop := {
  cancels_tasks : exists c, Tasks s' = update_where c (cancel_task (now env)) (Tasks s)
    /\ (forall t, t ∈ Tasks s -> (c t = true <-> superseded lock ids s t));
  cancels_locks : exists c, Locks s' = update_where c (release_lock (now env)) (Locks s)
    /\ (forall l t, l ∈ Locks s -> t ∈ Tasks s -> owns t l ->
         (c l = true <-> superseded lock ids s t));
  cancels_frame : Leases s' = Leases s /\ StepRuns s' = StepRuns s /\ Plans s' = Plans s
    /\ Bundles s' = Bundles s /\ Events s' = Events s /\ queue_order_seq s' = queue_order_seq s;
}.

Lemma owner_unique s t u l : task_inv s -> t ∈ Tasks s -> u ∈ Tasks s -> owns t l -> owns u l -> t = u.
Proof. intros Hinv Ht Hu [E1 _] [E2 _]. apply (task_unique s); auto. congruence. Qed.

Lemma id_owner s t l : task_inv s -> t ∈ Tasks s -> l ∈ Locks s -> task_ID t = lock_TaskID l -> owns t l.
Proof.
  intros Hinv Ht Hl E. destruct (inv_locks s Hinv l Hl) as (u & Hu & Ho & _).
  assert (t = u) as ->; [|done]. destruct Ho as [E' _]. apply (task_unique s); auto. congruence.
Qed.

Lemma owned_lock_ok s t l : task_inv s -> t ∈ Tasks s -> l ∈ Locks s -> owns t l -> lock_ok (task_Status t) l.
Proof.
  intros Hinv Ht Hl Ho. destruct (inv_locks s Hinv l Hl) as (u & Hu & Hou & Hok).
  by rewrite (owner_unique s t u l).
Qed.

Section cancel.
Context (env : tx_env) (lock : TaskResourceLock) (ids : list uuid) (s : db) (Hinv : task_inv s).

(** The subquery of the first update selects the locks of the superseded tasks. *)
Lemma older_queued t :
  t ∈ Tasks s ->
  contains (lock_TaskID <$> select_where (λ l, same_resource lock l && negb (contains ids (lock_TaskID l))
      && is_null (lock_ReleasedAt l) && lock_task_has (status_in [TaskStatusQueued]) s l) (Locks s)) (task_ID t)
    && bool_decide (task_OrganizationID t = lock_OrganizationID lock) = true
  <-> superseded lock ids s t.
Proof.
  intros Ht. rewrite andb_true_iff, contains_true, list_elem_of_fmap, bool_decide_eq_true. split.
  - intros [(l & E & [Hl Hc]%elem_of_select_where) Ho].
    rewrite !andb_true_iff, negb_true_iff, contains_false, is_null_true, lock_task_has_spec in Hc.
    destruct Hc as [[[Hs Hn] Hr] (u & Hu & Hou & Hq%status_in_spec)].
    pose proof (id_owner s t l Hinv Ht Hl E) as Hot. rewrite (owner_unique s t u l) in * by done.
    apply list_elem_of_singleton in Hq. split_and!; [done|by rewrite (proj1 Hou)|by exists l].
  - intros (Hq & Hn & l & Hl & Ho & Hs & Hr). pose proof Ho as [E1 E2]. split.
    + exists l. split; [done|]. apply elem_of_select_where. split; [done|].
      rewrite !andb_true_iff, negb_true_iff, contains_false, is_null_true, lock_task_has_spec, <- E1.
      split_and!; try done. exists t. split_and!; try done. apply status_in_spec. rewrite Hq. by left.
    + rewrite E2. by apply same_resource_spec in Hs as (-> & _).
Qed.

(** After the first update, the second one selects their unreleased locks. *)
Lemma older_canceled s1 c l t :
  Tasks s1 = update_where c (cancel_task (now env)) (Tasks s) -> Locks s1 = Locks s ->
  (forall t, t ∈ Tasks s -> c t = true <-> superseded lock ids s t) ->
  l ∈ Locks s -> t ∈ Tasks s -> owns t l ->
  contains (lock_TaskID <$> select_where (λ l, same_resource lock l && negb (contains ids (lock_TaskID l))
      && lock_task_has (status_in [TaskStatusCanceled]) s1 l) (Locks s1)) (lock_TaskID l)
    && bool_decide (lock_OrganizationID l = lock_OrganizationID lock) && is_null (lock_ReleasedAt l) = true
  <-> superseded lock ids s t.
Proof.
  intros ET EL Hc Hl Ht Ho. rewrite EL.
  rewrite !andb_true_iff, contains_true, list_elem_of_fmap, bool_decide_eq_true, is_null_true. split.
  - intros [[(m & E & [Hm Hcm]%elem_of_select_where) Horg] Hr].
    rewrite !andb_true_iff, lock_task_has_spec in Hcm. destruct Hcm as [_ (u' & Hu' & Hou & Hst)].
    rewrite ET in Hu'. apply elem_of_update_where in Hu' as (u & Hu & ->).
    assert (t = u) as <-.
    { apply (task_unique s); auto. destruct Hou as [E1 _], Ho as [E2 _].
      destruct (c u); simpl in E1; congruence. }
    destruct (c t) eqn:Ec; [by apply Hc|]. exfalso. apply status_in_spec, list_elem_of_singleton in Hst.
    pose proof (owned_lock_ok s t l Hinv Ht Hl Ho) as Hok. rewrite Hst in Hok. done.
  - intros Hsup. pose proof Hsup as (Hq & Hn & m & Hm & Hom & Hs & Hrm).
    pose proof Ho as [E1 E2]. pose proof Hom as [E3 E4]. split_and!.
    + exists m. split; [congruence|]. apply elem_of_select_where. split; [done|].
      rewrite !andb_true_iff, negb_true_iff, contains_false, lock_task_has_spec, <- E3.
      split_and!; try done. exists (cancel_task (now env) t). split_and!; [|done|by apply status_in_spec; left].
      rewrite ET. apply elem_of_update_where. exists t. by rewrite (proj2 (Hc t Ht) Hsup).
    + rewrite <- E2, E4. symmetry. by apply same_resource_spec in Hs as (-> & _).
    + pose proof (owned_lock_ok s t l Hinv Ht Hl Ho) as Hok. rewrite Hq in Hok. apply Hok.
Qed.

Lemma cancelOlder_spec s' :
  cancelOlderQueuedTasksForResource env lock ids s = Ok (tt, s') -> cancels env lock ids s s'.
Proof.
  unfold cancelOlderQueuedTasksForResource. intros H. tx_inv. constructor; [| |done].
  - eexists. split; [simpl; reflexivity|]. apply older_queued.
  - eexists. split; [simpl; reflexivity|]. intros l t Hl Ht Ho.
    eapply (older_canceled (set_tasks _ s)); [simpl; reflexivity|done|apply older_queued|done..].
Qed.
End cancel.

Lemma cancel_task_update now c : task_update (λ t : Task, if c t : bool then cancel_task now t else t).
Proof. intros t. by destruct (c t). Qed.

Lemma release_lock_update now c :
  lock_update (λ l : TaskResourceLock, if c l : bool then release_lock now l else l).
Proof. intros l. by destruct (c l). Qed.

Lemma inv_cancels env lock ids s s' : task_inv s -> cancels env lock ids s s' -> task_inv s'.
Proof.
  intros Hinv [(c & ET & Hc) (d & EL & Hd) (EE & _)].
  apply (relabel_inv s s' _ _ Hinv ET EL EE); [apply cancel_task_update|apply release_lock_update|..].
  - intros t Ht. destruct (c t) eqn:E; simpl; [|split; [by apply (inv_status s)|done]].
    split; [done|]. apply Hc in E as (-> & _); done.
  - intros t l Ht Hl Ho Hok. pose proof (Hc t Ht) as H1. pose proof (Hd l t Hl Ht Ho) as H2.
    destruct (c t), (d l); simpl; [done|..|done]; exfalso; naive_solver.
Qed.

(** *** The policies *)

(** What the policies of [locks] may do to a task, relative to the state [s]. *)
Definition superseded_by (locks : list TaskResourceLock) (ids : list uuid) (s : db) (t : Task) : Prop :=
  exists lock, lock ∈ locks /\ lock_ConcurrencyPolicy lock = PolicyCancelOlder /\ superseded lock ids s t.

(** The tasks are kept or canceled for a reason; the locks are kept or released. *)
Record thinned (env : tx_env) (reason : Task -> Prop) (s s' : db) : Prop := {
  thinned_tasks : Forall2 (λ t t', t' = t \/ (reason t /\ t' = cancel_task (now env) t)) (Tasks s) (Tasks s');
  thinned_locks : Forall2 (λ l l', l' = l \/ l' = release_lock (now env) l) (Locks s) (Locks s');
  thinned_frame : Leases s' = Leases s /\ StepRuns s' = StepRuns s /\ Plans s' = Plans s
    /\ Bundles s' = Bundles s /\ Events s' = Events s /\ queue_order_seq s' = queue_order_seq s;
}.

Lemma Forall2_update_where {A} (c : A -> bool) f (P : A -> A -> Prop) l :
  (forall x, x ∈ l -> P x (if c x then f x else x)) -> Forall2 P l (update_where c f l).
Proof.
  intros H. unfold update_where. rewrite Forall2_fmap_r. apply Forall_Forall2_diag, Forall_forall.
  intros x Hx. by apply H.
Qed.

Lemma thinned_refl env reason s : thinned env reason s s.
Proof. constructor; [| |done]; apply Forall_Forall2_diag, Forall_forall; auto. Qed.

Lemma cancels_thinned env lock ids s s' :
  cancels env lock ids s s' -> thinned env (superseded lock ids s) s s'.
Proof.
  intros [(c & ET & Hc) (d & EL & _) Hf].
  constructor; [rewrite ET|rewrite EL|done]; apply Forall2_update_where.
  - intros t Ht. destruct (c t) eqn:E; [|by left]. right. split; [by apply Hc|done].
  - intros l _. destruct (d l); auto.
Qed.

Lemma thinned_weaken env (P Q : Task -> Prop) s s' :
  (forall t, t ∈ Tasks s -> P t -> Q t) -> thinned env P s s' -> thinned env Q s s'.
Proof.
  intros H [H1 H2 H3]. constructor; [|done..]. apply Forall2_same_length_lookup_2.
  - by apply Forall2_length in H1.
  - intros i t t' Ht Ht'. destruct (Forall2_lookup_lr _ _ _ _ _ _ H1 Ht Ht') as [->|[Hp ->]]; [by left|].
    right. split; [|done]. apply H; [|done]. by eapply list_elem_of_lookup_2.
Qed.

(** To cancel twice is to cancel once. *)
Lemma thinned_trans env (P : Task -> Prop) s1 s2 s3 :
  thinned env P s1 s2 -> thinned env P s2 s3 -> thinned env P s1 s3.
Proof.
  intros [A1 A2 A3] [B1 B2 B3]. constructor; [| |naive_solver congruence].
  - eapply Forall2_compose; [|exact A1|exact B1]. intros t u v [->|[Hp ->]] [->|[Hr ->]]; auto.
  - eapply Forall2_compose; [|exact A2|exact B2].
    intros l m n [->| ->] [->| ->]; auto.
Qed.

Lemma thinned_task env P s s' t :
  thinned env P s s' -> t ∈ Tasks s' -> task_Status t <> TaskStatusCanceled -> t ∈ Tasks s.
Proof.
  intros [H _ _] Ht Hn. apply list_elem_of_lookup in Ht as [i Hi].
  destruct (Forall2_lookup_r _ _ _ _ _ H Hi) as (u & Hu & [->|[_ ->]]); [|done].
  by eapply list_elem_of_lookup_2.
Qed.

Lemma release_released now l : lock_ReleasedAt (release_lock now l) <> None.
Proof. done. Qed.

Lemma thinned_lock env P s s' l :
  thinned env P s s' -> l ∈ Locks s' -> lock_ReleasedAt l = None -> l ∈ Locks s.
Proof.
  intros [_ H _] Hl Hn. apply list_elem_of_lookup in Hl as [i Hi].
  destruct (Forall2_lookup_r _ _ _ _ _ H Hi) as (u & Hu & [->| ->]); [|done].
  by eapply list_elem_of_lookup_2.
Qed.

(** A task outside [ids] with one of the statuses waits for or holds the resource. *)
Definition occupied (statuses : list TaskStatus) (lock : TaskResourceLock) (ids : list uuid) (s : db)
    (t : Task) : Prop :=
  t ∈ Tasks s /\ task_Status t ∈ statuses /\ (task_ID t ∉ ids) /\ exists l, l ∈ Locks s /\ owns t l
    /\ same_resource lock l = true /\ lock_ReleasedAt l = None.

Lemma thinned_occupied env P s s' statuses lock ids t :
  TaskStatusCanceled ∉ statuses -> thinned env P s s' ->
  occupied statuses lock ids s' t -> occupied statuses lock ids s t.
Proof.
  intros Hst Hth (Ht & Hs & Hn & l & Hl & Ho & Hr & Hu). split_and!; [|done..|].
  - eapply thinned_task; [done..|]. by intros E; rewrite E in Hs.
  - exists l. split_and!; [by eapply thinned_lock|done..].
Qed.

Lemma hasNonTerminal_spec lock ids s :
  hasNonTerminalTaskResourceConflict lock ids s = false ->
  forall t, ~ occupied [TaskStatusQueued; TaskStatusRunning] lock ids s t.
Proof.
  unfold hasNonTerminalTaskResourceConflict. rewrite exists_where_false.
  intros H t (Ht & Hs & Hn & l & Hl & Ho & Hr & Hu). specialize (H l Hl). pose proof Ho as [E _].
  apply not_true_iff_false in H. apply H.
  rewrite !andb_true_iff, negb_true_iff, contains_false, is_null_true, lock_task_has_spec, <- E.
  split_and!; try done. exists t. split_and!; [done..|]. by apply status_in_spec.
Qed.

Lemma superseded_occupied lock ids s t :
  t ∈ Tasks s -> superseded lock ids s t <-> occupied [TaskStatusQueued] lock ids s t.
Proof. unfold superseded, occupied. rewrite list_elem_of_singleton. tauto. Qed.

Lemma cancels_done env lock ids s s' t :
  cancels env lock ids s s' -> ~ occupied [TaskStatusQueued] lock ids s' t.
Proof.
  intros Hc Ho. pose proof (cancels_thinned _ _ _ _ _ Hc) as Hth.
  assert (t ∈ Tasks s') as Ht by apply Ho.
  assert (occupied [TaskStatusQueued] lock ids s t) as Ho1.
  { eapply thinned_occupied; [|done..]. by rewrite list_elem_of_singleton. }
  destruct Hc as [(c & ET & Hc) _ _]. assert (t ∈ Tasks s) as Hts by apply Ho1.
  apply superseded_occupied in Ho1; [|done]. apply Hc in Ho1; [|done].
  rewrite ET in Ht. apply elem_of_update_where in Ht as (u & Hu & E).
  destruct (c u) eqn:Ecu; [|congruence].
  destruct Ho as (_ & Hq & _). apply list_elem_of_singleton in Hq. by rewrite E in Hq.
Qed.

Definition policy_holds (ids : list uuid) (s : db) (lock : TaskResourceLock) : Prop :=
  match lock_ConcurrencyPolicy lock with
  | PolicyRejectNew => forall t, ~ occupied [TaskStatusQueued; TaskStatusRunning] lock ids s t
  | PolicyCancelOlder => forall t, ~ occupied [TaskStatusQueued] lock ids s t
  | _ => True
  end.

Lemma thinned_policy env P ids s s' lock : thinned env P s s' -> policy_holds ids s lock -> policy_holds ids s' lock.
Proof.
  intros Hth. unfold policy_holds. destruct (lock_ConcurrencyPolicy lock); try done; intros H t Ho; apply (H t);
    (eapply thinned_occupied; [|done..]); rewrite !elem_of_cons, elem_of_nil; naive_solver.
Qed.

Lemma apply_policies_spec env ids locks s s' :
  task_inv s -> apply_policies env ids locks s = Ok (tt, s') ->
  task_inv s' /\ thinned env (superseded_by locks ids s) s s' /\ Forall (policy_holds ids s') locks.
Proof.
  revert s. induction locks as [|lock locks IH]; intros s Hinv E.
  { simpl in E. tx_inv. split_and!; [done|apply thinned_refl|constructor]. }
  assert (forall s1, task_inv s1 -> thinned env (superseded_by (lock :: locks) ids s) s s1 ->
    policy_holds ids s1 lock -> apply_policies env ids locks s1 = Ok (tt, s') ->
    task_inv s' /\ thinned env (superseded_by (lock :: locks) ids s) s s'
    /\ Forall (policy_holds ids s') (lock :: locks)) as Hstep.
  { intros s1 Hinv1 Hth Hp E1. destruct (IH s1 Hinv1 E1) as (H1 & H2 & H3). split_and!; [done| |].
    - eapply thinned_trans; [exact Hth|].
      eapply thinned_weaken; [|exact H2]. intros t Ht (m & Hm & Hpol & Hsup). exists m.
      split; [by right|]. split; [done|]. pose proof Hsup as (Hq & _).
      assert (t ∈ Tasks s) by (eapply thinned_task; [done..|congruence]).
      apply superseded_occupied; [done|]. eapply thinned_occupied; [by rewrite list_elem_of_singleton|done|].
      by apply superseded_occupied.
    - constructor; [|done]. by eapply thinned_policy. }
  simpl in E. destruct (lock_ConcurrencyPolicy lock) eqn:Epol;
    try (apply (Hstep s); [done|apply thinned_refl|by unfold policy_holds; rewrite Epol|exact E]).
  - apply tx_bind_ok in E as ([] & s1 & E1 & E). apply cancelOlder_spec in E1; [|done].
    apply (Hstep s1); [by eapply inv_cancels| | |exact E].
    + eapply thinned_weaken; [|by apply cancels_thinned]. intros t _ Hs. exists lock. split; [by left|done].
    + unfold policy_holds. rewrite Epol. intros t. by eapply cancels_done.
  - destruct (hasNonTerminalTaskResourceConflict lock ids s) eqn:Ec; [done|].
    apply (Hstep s); [done|apply thinned_refl| |exact E]. unfold policy_holds. rewrite Epol.
    by apply hasNonTerminal_spec.
Qed.

(** ** The transaction of the creation *)

Definition hydrated (s : db) (t : Task) : HydratedTask :=
  {| ht_Task := t;
     ht_Locks := stable_sort lock_less (select_where (locks_where (task_ID t) (task_OrganizationID t)) (Locks s));
     ht_StepRuns := stable_sort step_less
       (select_where (steps_of_task (task_ID t) (task_OrganizationID t)) (StepRuns s)) |}.

Definition of_plan (plan org : uuid) (t : Task) : bool :=
  bool_decide (task_DeploymentPlanID t = plan) && bool_decide (task_OrganizationID t = org).

Lemma hydrate_all_spec l s : hydrate_all l s = Ok (hydrated s <$> l, s).
Proof.
  induction l as [|t l IH]; [done|]. simpl. unfold mbind, tx_bind. simpl. by rewrite IH.
Qed.

Lemma getTasksByPlan_spec plan org s :
  getTasksByDeploymentPlanID plan org s
  = Ok (hydrated s <$> stable_sort task_less (select_where (of_plan plan org) (Tasks s)), s).
Proof. unfold getTasksByDeploymentPlanID. unfold mbind at 1, tx_bind. simpl. apply hydrate_all_spec. Qed.

Lemma getTasksByPlan_nil plan org s s' :
  getTasksByDeploymentPlanID plan org s = Ok ([], s') ->
  forall t, t ∈ Tasks s -> of_plan plan org t = false.
Proof.
  rewrite getTasksByPlan_spec. intros [= E _] t Ht. apply fmap_nil_inv in E.
  destruct (of_plan plan org t) eqn:Ep; [|done]. exfalso.
  apply (not_elem_of_nil t). rewrite <- E. rewrite elem_of_stable_sort. by apply elem_of_select_where.
Qed.

Lemma GetDeploymentPlan_inv id org' s plan s' :
  GetDeploymentPlan id org' s = Ok (plan, s') ->
  s' = s /\ plan ∈ Plans s /\ plan_ID plan = id /\ plan_OrganizationID plan = org'.
Proof.
  unfold GetDeploymentPlan. destruct (select_where _ (Plans s)) as [|p l] eqn:E; [done|]. intros [= <- <-].
  assert (p ∈ p :: l) as Hp by (by left). rewrite <- E in Hp. apply elem_of_select_where in Hp as [Hp Hc].
  to_prop. done.
Qed.

Section creation.
Context `{PreflightGate}.
Context (env : tx_env) (r : CreateTasksForDeploymentPlanRequest).

Let org := ct_OrganizationID r.
Let defaultPolicy := fst (normalizeTaskLockResourceRequests r).
Let additional := snd (normalizeTaskLockResourceRequests r).

(** The rows inserted for a plan, in the plan's order of the targets. *)
Definition new_rows (plan : DeploymentPlan) (s : db) : list Task :=
  select_where (λ t, negb (plan_target_taken s t))
    (imap (new_task env plan (uuidOrNil (ct_ActorUserAccountID r)) (queue_order_seq s))
       (stable_sort plan_target_less (plan_Targets plan))).

Definition new_locks (plan : DeploymentPlan) (created : list Task) : list TaskResourceLock :=
  created ≫= task_locks (plan_TargetComponents plan) defaultPolicy additional.

Definition inserted (plan : DeploymentPlan) (s : db) : db :=
  set_locks (Locks s ++ new_locks plan (new_rows plan s))
    (set_seq (queue_order_seq s + Z.of_nat (length (plan_Targets plan)))
       (set_tasks (Tasks s ++ new_rows plan s) s)).

(** The tables after a creation that inserted rows: [s2] after the policies,
    [s3] with the step runs, [s'] with the plan executed. *)
Record created_by (plan : DeploymentPlan) (s s' : db) : Prop := {
  cb_plan : GetDeploymentPlan (ct_DeploymentPlanID r) org s = Ok (plan, s);
  cb_none : forall t, t ∈ Tasks s -> of_plan (ct_DeploymentPlanID r) org t = false;
  cb_ready : plan_Status plan = PlanReady;
  cb_preflight : exists m, evaluateAndPersistDeploymentPreflight plan (ct_ActorUserAccountID r) = Ok (true, m);
  cb_unique : NoDup (lock_unique_key <$> (Locks s ++ new_locks plan (new_rows plan s)));
  cb_tables : exists s2 s3,
    apply_policies env (task_ID <$> new_rows plan s) (distinctTaskResourceLocks
      (stable_sort lock_task_less (select_where (λ l, contains (task_ID <$> new_rows plan s) (lock_TaskID l))
         (Locks (inserted plan s))))) (inserted plan s) = Ok (tt, s2)
    /\ insertStepRunsForTasks env (new_rows plan s) s2 = Ok (tt, s3)
    /\ markDeploymentPlanExecuted (plan_ID plan) (plan_OrganizationID plan) s3 = Ok (tt, s');
}.

Lemma create_tasks_cases s res s' :
  CreateTasksForDeploymentPlan env r s = (res, s') ->
  (exists tasks, res = Ok tasks /\ s' = s /\ tasks <> []
     /\ validateCreateTasksForDeploymentPlanRequest r = Ok tt
     /\ (exists plan, GetDeploymentPlan (ct_DeploymentPlanID r) org s = Ok (plan, s))
     /\ getTasksByDeploymentPlanID (ct_DeploymentPlanID r) org s = Ok (tasks, s))
  \/ (exists plan, validateCreateTasksForDeploymentPlanRequest r = Ok tt /\ created_by plan s s'
     /\ res = Ok (hydrated s' <$> stable_sort task_less
          (select_where (of_plan (ct_DeploymentPlanID r) org) (Tasks s'))))
  \/ (exists e, res = Err e /\ s' = s).
Proof.
  unfold CreateTasksForDeploymentPlan.
  destruct (validateCreateTasksForDeploymentPlanRequest r) as [[]|e]; [|intros [= <- <-]; naive_solver].
  destruct (RunTx (create_tasks_tx env r) s) as [rr sr] eqn:E. apply RunTx_cases in E as [(a & -> & E)|(e & -> & _ & ->)];
    [|intros [= <- <-]; naive_solver].
  unfold create_tasks_tx in E. change (normalizeTaskLockResourceRequests r) with (defaultPolicy, additional) in E.
  cbv iota beta zeta in E. apply tx_bind_ok in E as (plan & s1 & E1 & E).
  assert (s1 = s) as ->. { unfold GetDeploymentPlan in E1. destruct (select_where _ _); [done|by injection E1]. }
  apply tx_bind_ok in E as (existing & s1 & E2 & E). pose proof E2 as E2'. rewrite getTasksByPlan_spec in E2'.
  injection E2' as _ <-. destruct existing as [|h existing]; simpl in E.
  2: { injection E as <- <-. intros [= <- <-]. left. exists (h :: existing). split_and!; try done. by exists plan. }
  destruct (decide (plan_Status plan = PlanReady)) as [Hready|Hready];
    [rewrite bool_decide_eq_true_2 in E by done | by rewrite bool_decide_eq_false_2 in E]. simpl in E.
  apply tx_bind_ok in E as ([passed message] & s1 & E3 & E). apply lift_state in E3 as [E3 ->].
  destruct passed; simpl in E; [|injection E as <- <-; intros [= <- <-]; naive_solver].
  apply tx_bind_ok in E as (created & s1 & E4 & E). unfold insertTasksForDeploymentPlan in E4.
  fold (new_rows plan s) in E4. rewrite length_imap, length_stable_sort in E4. injection E4 as <- <-.
  apply tx_bind_ok in E as ([] & s2 & E4 & E). unfold insertTaskResourceLocksForTasks in E4.
  case_bool_decide as Hu; [|done]. injection E4 as <-.
  apply tx_bind_ok in E as ([] & s3 & E4 & E). unfold applyTaskConcurrencyPolicies in E4.
  apply tx_bind_ok in E4 as (locks & s4 & E5 & E4). injection E5 as <- <-.
  apply tx_bind_ok in E as ([] & s4 & E5 & E). apply tx_bind_ok in E as ([] & s5 & E6 & E).
  apply tx_bind_ok in E as (tasks & s6 & E7 & E). rewrite getTasksByPlan_spec in E7.
  injection E7 as <- <-. injection E as <- <-. intros [= <- <-]. right. left. exists plan. split; [done|]. split; [|done].
  constructor; try done; [by eapply getTasksByPlan_nil|by exists message|by exists s3, s4].
Qed.

Lemma new_rows_elem plan s t :
  t ∈ new_rows plan s ->
  exists i target, stable_sort plan_target_less (plan_Targets plan) !! i = Some target
    /\ t = new_task env plan (uuidOrNil (ct_ActorUserAccountID r)) (queue_order_seq s) i target.
Proof. unfold new_rows. intros [(i & x & ? & ?)%elem_of_lookup_imap _]%elem_of_select_where. by exists i, x. Qed.

Lemma created_by_in plan s s' : created_by plan s s' -> plan ∈ Plans s.
Proof. intros Hc. by destruct (GetDeploymentPlan_inv _ _ _ _ _ (cb_plan _ _ _ Hc)) as (_ & ? & _). Qed.

Lemma new_rows_fresh plan s :
  plan ∈ Plans s -> fresh_env env s ->
  NoDup (task_ID <$> new_rows plan s) /\ forall t, t ∈ new_rows plan s -> task_ID t ∉ task_ID <$> Tasks s.
Proof.
  intros Hp [Hinj Hnew _ _].
  assert (forall i x, stable_sort plan_target_less (plan_Targets plan) !! i = Some x -> i < key_bound s) as Hi.
  { intros i x Hx. apply lookup_lt_Some in Hx. rewrite length_stable_sort in Hx.
    pose proof (targets_bound plan s Hp). lia. }
  split.
  - unfold new_rows. eapply sublist_NoDup; [|apply fmap_sublist, sublist_filter_bool].
    rewrite fmap_imap. apply NoDup_imap. intros i j x y Hx Hy. apply Hinj; by eapply Hi.
  - intros t (i & target & Hx & ->)%new_rows_elem. apply Hnew. by eapply Hi.
Qed.

Lemma task_locks_elem components default more t l :
  l ∈ task_locks components default more t ->
  lock_ReleasedAt l = None /\ lock_AcquiredAt l = None /\ owns t l
  /\ (lock_ConcurrencyPolicy l = default
       \/ exists x, x ∈ more /\ l = new_lock t (lr_ResourceType x) (lr_ResourceKey x) (lr_ConcurrencyPolicy x)).
Proof.
  unfold task_locks. intros [->|[(c & -> & _)%list_elem_of_fmap|(x & -> & Hx)%list_elem_of_fmap]%elem_of_app]%elem_of_cons.
  - split_and!; try done. by left.
  - split_and!; try done. by left.
  - split_and!; try done. right. by exists x.
Qed.

Lemma new_locks_elem plan created l :
  l ∈ new_locks plan created <->
  exists t, t ∈ created /\ l ∈ task_locks (plan_TargetComponents plan) defaultPolicy additional t.
Proof. unfold new_locks. rewrite list_elem_of_bind. naive_solver. Qed.

Lemma inv_inserted plan s : plan ∈ Plans s -> task_inv s -> fresh_env env s -> task_inv (inserted plan s).
Proof.
  intros Hp Hinv Hf. destruct (new_rows_fresh plan s Hp Hf) as [Hnd Hnew].
  eapply (append_inv s); [done|reflexivity..|done|done| |].
  - by intros t (i & target & _ & ->)%new_rows_elem.
  - intros l (t & Ht & Hl)%new_locks_elem. apply task_locks_elem in Hl as (? & ? & ? & _).
    split; [done|]. by exists t.
Qed.

Lemma markExecuted_inv plan org' s s' :
  markDeploymentPlanExecuted plan org' s = Ok (tt, s') ->
  s' = set_plans (update_where (λ p, bool_decide (plan_ID p = plan) && bool_decide (plan_OrganizationID p = org')
         && bool_decide (plan_Status p = PlanReady)) (set_plan_status PlanExecuted) (Plans s)) s.
Proof. unfold markDeploymentPlanExecuted. case_bool_decide; [|done]. by intros [= <-]. Qed.

(** The tables at the end, from the tables with the inserted rows. *)
Lemma created_by_spec plan s s' :
  task_inv s -> fresh_env env s -> created_by plan s s' ->
  let ids := task_ID <$> new_rows plan s in
  let locks := distinctTaskResourceLocks
      (stable_sort lock_task_less (select_where (λ l, contains ids (lock_TaskID l)) (Locks (inserted plan s)))) in
  task_inv s'
  /\ exists s2, thinned env (superseded_by locks ids (inserted plan s)) (inserted plan s) s2
       /\ Forall (policy_holds ids s2) locks
       /\ Tasks s' = Tasks s2 /\ Locks s' = Locks s2 /\ Leases s' = Leases s2.
Proof.
  intros Hinv Hf Hc ids locks. pose proof (created_by_in plan s s' Hc) as Hin.
  destruct Hc as [_ _ _ _ _ (s2 & s3 & E1 & E2 & E3)].
  destruct (apply_policies_spec _ _ _ _ _ (inv_inserted plan s Hin Hinv Hf) E1) as (Hinv2 & Hth & Hp).
  unfold insertStepRunsForTasks in E2. injection E2 as <-. apply markExecuted_inv in E3 as ->.
  split; [by apply (task_inv_frame s2)|]. by exists s2.
Qed.

Lemma inv_CreateTasksForDeploymentPlan s res s' :
  task_inv s -> fresh_env env s -> CreateTasksForDeploymentPlan env r s = (res, s') -> task_inv s'.
Proof.
  intros Hinv Hf [(_ & _ & -> & _)|[(plan & _ & Hc & _)|(_ & _ & ->)]]%create_tasks_cases; [done| |done].
  by apply (created_by_spec plan s s').
Qed.

(** *** The policies hold for every new lock *)

Lemma resource_dedup_key_inj t u k l :
  resource_type_valid t = true -> resource_type_valid u = true ->
  resource_dedup_key t k = resource_dedup_key u l -> t = u /\ k = l.
Proof.
  unfold resource_dedup_key. destruct t, u; intros Ht Hu E; try discriminate; simpl in E;
    injection E; auto; discriminate.
Qed.

Lemma validate_resources_types i seen l :
  validate_resources i seen l = Ok tt -> Forall (λ x, resource_type_valid (lr_ResourceType x) = true) l.
Proof.
  revert i seen. induction l as [|x l IH]; intros i seen H0; [constructor|]. simpl in H0. inv_result.
  to_prop. constructor; [done|by eapply IH].
Qed.

Lemma additional_types x :
  validateCreateTasksForDeploymentPlanRequest r = Ok tt -> x ∈ additional ->
  resource_type_valid (lr_ResourceType x) = true.
Proof.
  unfold validateCreateTasksForDeploymentPlanRequest. intros Hv (y & -> & Hy)%list_elem_of_fmap. inv_result.
  match goal with H : validate_resources _ _ _ = _ |- _ => apply validate_resources_types in H; rename H into Hall end.
  rewrite Forall_forall in Hall. exact (Hall y Hy).
Qed.

Lemma task_locks_type components default t l :
  validateCreateTasksForDeploymentPlanRequest r = Ok tt -> l ∈ task_locks components default additional t ->
  resource_type_valid (lock_ResourceType l) = true.
Proof.
  unfold task_locks. intros Hv [->|[(c & -> & _)%list_elem_of_fmap|(x & -> & Hx)%list_elem_of_fmap]%elem_of_app]%elem_of_cons;
    [done..|]. by apply additional_types.
Qed.

Lemma task_locks_additional components default t x :
  x ∈ additional ->
  new_lock t (lr_ResourceType x) (lr_ResourceKey x) (lr_ConcurrencyPolicy x)
    ∈ task_locks components default additional t.
Proof.
  intros Hx. unfold task_locks. apply elem_of_cons. right. apply elem_of_app. right.
  by apply (list_elem_of_fmap_2 (λ r, new_lock t (lr_ResourceType r) (lr_ResourceKey r) (lr_ConcurrencyPolicy r))).
Qed.

(** One resource has one policy among the new locks: an additional resource
    is locked for every task, and a task has one lock for a resource. *)
Lemma new_locks_policy plan created l m :
  NoDup (lock_unique_key <$> new_locks plan created) ->
  l ∈ new_locks plan created -> m ∈ new_locks plan created ->
  lock_ResourceType l = lock_ResourceType m -> lock_ResourceKey l = lock_ResourceKey m ->
  lock_ConcurrencyPolicy l = lock_ConcurrencyPolicy m.
Proof.
  intros Hnd Hl Hm E1 E2.
  assert (forall k n, k ∈ new_locks plan created -> n ∈ new_locks plan created ->
    lock_ResourceType k = lock_ResourceType n -> lock_ResourceKey k = lock_ResourceKey n ->
    forall u x, x ∈ additional -> n = new_lock u (lr_ResourceType x) (lr_ResourceKey x) (lr_ConcurrencyPolicy x) ->
    lock_ConcurrencyPolicy k = lock_ConcurrencyPolicy n) as Hadd.
  { intros k n Hk Hn F1 F2 u x Hx ->. apply new_locks_elem in Hk as (t & Ht & Hk).
    assert (k = new_lock t (lr_ResourceType x) (lr_ResourceKey x) (lr_ConcurrencyPolicy x)) as ->; [|done].
    apply (NoDup_fmap_elem lock_unique_key _ _ _ Hnd).
    - apply new_locks_elem. by exists t.
    - apply new_locks_elem. exists t. split; [done|]. by apply task_locks_additional.
    - apply task_locks_elem in Hk as (_ & _ & [Ho _] & _). unfold lock_unique_key. by rewrite F1, F2, <- Ho. }
  pose proof Hl as (t & _ & Hlt)%new_locks_elem. pose proof Hm as (u & _ & Hmu)%new_locks_elem.
  apply task_locks_elem in Hlt as (_ & _ & _ & [P1|(x & Hx & Ex)]), Hmu as (_ & _ & _ & [P2|(y & Hy & Ey)]).
  - congruence.
  - by eapply Hadd.
  - symmetry. by eapply Hadd.
  - by eapply Hadd.
Qed.

Lemma new_locks_org plan s l : l ∈ new_locks plan (new_rows plan s) -> lock_OrganizationID l = plan_OrganizationID plan.
Proof.
  intros (t & (i & target & _ & ->)%new_rows_elem & Hl)%new_locks_elem.
  by apply task_locks_elem in Hl as (_ & _ & [_ <-] & _).
Qed.

Lemma policy_holds_resource ids s lock m :
  same_resource lock m = true -> lock_ConcurrencyPolicy lock = lock_ConcurrencyPolicy m ->
  policy_holds ids s lock -> policy_holds ids s m.
Proof.
  intros (E1 & E2 & E3)%same_resource_spec Hp. unfold policy_holds, occupied, same_resource.
  by rewrite <- Hp, E1, E2, E3.
Qed.

(** Every lock of a new task has a representative in the list the policies see. *)
Lemma representative plan s l :
  validateCreateTasksForDeploymentPlanRequest r = Ok tt ->
  NoDup (lock_unique_key <$> (Locks s ++ new_locks plan (new_rows plan s))) ->
  l ∈ new_locks plan (new_rows plan s) ->
  (forall m, m ∈ Locks s -> lock_TaskID m ∉ task_ID <$> new_rows plan s) ->
  exists m, m ∈ distinctTaskResourceLocks (stable_sort lock_task_less (select_where
      (λ l, contains (task_ID <$> new_rows plan s) (lock_TaskID l)) (Locks (inserted plan s))))
    /\ same_resource m l = true /\ lock_ConcurrencyPolicy m = lock_ConcurrencyPolicy l.
Proof.
  intros Hv Hnd Hl Hold. rewrite fmap_app in Hnd. apply NoDup_app in Hnd as (_ & _ & Hnd).
  set (sel := stable_sort _ _).
  assert (forall k, k ∈ sel -> k ∈ new_locks plan (new_rows plan s)) as Hsel.
  { intros k [Hk Hc]%elem_of_stable_sort%elem_of_select_where. apply contains_true in Hc.
    apply elem_of_app in Hk as [Hk|Hk]; [by destruct (Hold k Hk)|done]. }
  assert (l ∈ sel) as Hls.
  { apply elem_of_stable_sort, elem_of_select_where. split; [apply elem_of_app; by right|].
    apply contains_true. apply new_locks_elem in Hl as (t & Ht & Hl).
    apply task_locks_elem in Hl as (_ & _ & [<- _] & _). by apply list_elem_of_fmap_2. }
  destruct (dedup_by_complete (λ l, resource_dedup_key (lock_ResourceType l) (lock_ResourceKey l)) [] sel l Hls)
    as [Hn|(m & E & Hm)%list_elem_of_fmap]; [by apply elem_of_nil in Hn|].
  exists m. split; [exact Hm|]. apply dedup_by_sub, Hsel in Hm.
  assert (forall k, k ∈ new_locks plan (new_rows plan s) -> resource_type_valid (lock_ResourceType k) = true) as Hty.
  { intros k (t & _ & Hk)%new_locks_elem. by eapply task_locks_type. }
  apply resource_dedup_key_inj in E as [E1 E2]; [|by apply Hty..]. split.
  - apply same_resource_spec. rewrite !(new_locks_org plan s) by done. done.
  - by eapply new_locks_policy.
Qed.
End creation.

Section created.
Context `{PreflightGate}.
Context (env : tx_env) (r : CreateTasksForDeploymentPlanRequest) (plan : DeploymentPlan) (s s' : db).
Context (Hinv : task_inv s) (Hf : fresh_env env s).
Context (Hv : validateCreateTasksForDeploymentPlanRequest r = Ok tt) (Hc : created_by env r plan s s').

Let rows := new_rows env r plan s.
Let ids := task_ID <$> rows.

Lemma old_not_new t : t ∈ Tasks s -> task_ID t ∉ ids.
Proof.
  intros Ht (u & E & Hu)%list_elem_of_fmap. destruct (new_rows_fresh env r plan s (created_by_in env r plan s _ Hc) Hf) as [_ Hnew].
  apply (Hnew u Hu). rewrite <- E. by apply list_elem_of_fmap_2.
Qed.

Lemma old_lock_not_new l : l ∈ Locks s -> lock_TaskID l ∉ ids.
Proof. intros Hl. destruct (inv_locks s Hinv l Hl) as (t & Ht & [<- _] & _). by apply old_not_new. Qed.

Lemma superseded_old lock t :
  superseded lock ids (inserted env r plan s) t <-> superseded lock ids s t.
Proof.
  unfold superseded. split; intros (Hq & Hn & l & Hl & Ho & Hs & Hr); split_and!; try done;
    exists l; split_and!; try done.
  - apply elem_of_app in Hl as [Hl|(u & Hu & Hl)%new_locks_elem]; [done|]. exfalso. apply Hn.
    apply task_locks_elem in Hl as (_ & _ & [Hou _] & _). destruct Ho as [-> _]. rewrite <- Hou.
    by apply list_elem_of_fmap_2.
  - apply elem_of_app. by left.
Qed.

(** The old tasks are kept or canceled, the new ones are queued after them. *)
Lemma created_tasks :
  exists kept, Tasks s' = kept ++ rows
  /\ Forall2 (λ t t', t' = t \/ (t' = cancel_task (now env) t
       /\ exists lock, lock ∈ Locks s' /\ lock_TaskID lock ∈ ids
          /\ lock_ConcurrencyPolicy lock = PolicyCancelOlder /\ superseded lock ids s t)) (Tasks s) kept.
Proof.
  destruct (created_by_spec env r plan s s' Hinv Hf Hc) as (Hinv' & s2 & Hth & _ & ET & EL & _).
  rewrite ET. pose proof (thinned_tasks _ _ _ _ Hth) as HT.
  apply Forall2_app_inv_l in HT as (kept & new & HT & HN & E). exists kept.
  assert (new = rows) as Enew.
  { eapply Forall2_elem_eq; [exact HN|]. simpl. intros t u Ht [->|[(lock & _ & _ & _ & Hn & _) _]]; [done|].
    destruct Hn. by apply list_elem_of_fmap_2. }
  subst new. split; [done|]. eapply Forall2_impl; [exact HT|].
  intros t t' [->|[(lock & Hl & Hp & Hs) ->]]; [by left|]. right. split; [done|].
  apply dedup_by_sub in Hl. apply elem_of_stable_sort, elem_of_select_where in Hl as [Hl Hi%contains_true].
  exists lock. split_and!; [|done..|by apply superseded_old].
  (* a lock of a new task is not released, so the policies left it alone *)
  apply list_elem_of_lookup in Hl as [i Hi']. rewrite EL.
  destruct (Forall2_lookup_l _ _ _ _ _ (thinned_locks _ _ _ _ Hth) Hi') as (l' & Hl' & Hor).
  assert (l' ∈ Locks s') as Hin by (rewrite EL; by eapply list_elem_of_lookup_2).
  destruct Hor as [->| ->]; [by rewrite <- EL|exfalso].
  apply list_elem_of_fmap in Hi as (u & Eu & Hu).
  assert (u ∈ Tasks s') as Hus by (rewrite ET, E; apply elem_of_app; by right).
  pose proof (id_owner s' u _ Hinv' Hus Hin (eq_sym Eu)) as Ho.
  pose proof (owned_lock_ok s' u _ Hinv' Hus Hin Ho) as Hok.
  apply new_rows_elem in Hu as (j & target & _ & ->).
  destruct Hok as [_ Hok]. by apply (release_released (now env) lock) in Hok.
Qed.

Lemma created_policies lock :
  lock ∈ Locks s' -> lock_TaskID lock ∈ ids -> policy_holds ids s' lock.
Proof.
  intros Hl Hi. destruct (created_by_spec env r plan s s' Hinv Hf Hc) as (Hinv' & s2 & Hth & Hp & ET & EL & _).
  destruct created_tasks as (kept & Etasks & _).
  pose proof Hi as (u & Eu & Hu)%list_elem_of_fmap.
  assert (u ∈ Tasks s') as Hus by (rewrite Etasks; apply elem_of_app; by right).
  pose proof (owned_lock_ok s' u _ Hinv' Hus Hl (id_owner s' u _ Hinv' Hus Hl (eq_sym Eu))) as Hok.
  assert (lock_ReleasedAt lock = None) as Hr by (apply new_rows_elem in Hu as (j & target & _ & ->); apply Hok).
  assert (lock ∈ Locks (inserted env r plan s)) as Hin
    by (eapply thinned_lock; [exact Hth|by rewrite <- EL|done]).
  apply elem_of_app in Hin as [Hin|Hin]; [by destruct (old_lock_not_new lock Hin)|].
  destruct (representative env r plan s lock Hv (cb_unique _ _ _ _ _ Hc) Hin old_lock_not_new)
    as (m & Hm & Hsame & Hpol).
  rewrite Forall_forall in Hp. specialize (Hp m Hm).
  apply (policy_holds_resource ids s' m lock Hsame Hpol).
  unfold policy_holds, occupied in *. by rewrite ET, EL.
Qed.

Lemma plan_keys : plan_ID plan = ct_DeploymentPlanID r /\ plan_OrganizationID plan = ct_OrganizationID r.
Proof. by destruct (GetDeploymentPlan_inv _ _ _ _ _ (cb_plan _ _ _ _ _ Hc)) as (_ & _ & ? & ?). Qed.

Lemma rows_sorted : stable_sort task_less rows = rows.
Proof.
  apply stable_sort_id. unfold rows, new_rows. apply StronglySorted_filter_bool, StronglySorted_imap.
  intros i j x y Hij. unfold not_after, task_less, less_then. simpl.
  destruct (Z.eqb_spec (queue_order_seq s + Z.of_nat j + 1) (queue_order_seq s + Z.of_nat i + 1)); [lia|].
  apply Z.ltb_ge. lia.
Qed.

(** The tasks of the plan are the new rows. *)
Lemma created_of_plan :
  select_where (of_plan (ct_DeploymentPlanID r) (ct_OrganizationID r)) (Tasks s') = rows.
Proof.
  destruct created_tasks as (kept & -> & Hk). unfold select_where. rewrite List.filter_app.
  assert (List.filter (of_plan (ct_DeploymentPlanID r) (ct_OrganizationID r)) kept = []) as ->.
  { apply filter_none_bool. intros t [i Hi]%list_elem_of_lookup.
    destruct (Forall2_lookup_r _ _ _ _ _ Hk Hi) as (u & Hu & Hor).
    apply list_elem_of_lookup_2 in Hu. pose proof (cb_none _ _ _ _ _ Hc u Hu) as Hn.
    by destruct Hor as [->|[-> _]]. }
  simpl. apply filter_all_bool. intros t (i & target & _ & ->)%new_rows_elem.
  destruct plan_keys as [E1 E2]. unfold of_plan. simpl. by rewrite E1, E2, !bool_decide_eq_true_2.
Qed.

(** The query of the step runs selects the new rows. *)
Lemma created_selected :
  stable_sort task_less (select_where (λ t, contains (task_ID <$> rows) (task_ID t)) (Tasks s')) = rows.
Proof.
  destruct created_tasks as (kept & -> & Hk). unfold select_where. rewrite List.filter_app.
  rewrite (filter_none_bool _ kept), (filter_all_bool _ rows).
  - apply rows_sorted.
  - intros t Ht. apply contains_true. by apply list_elem_of_fmap_2.
  - intros t [i Hi]%list_elem_of_lookup. apply contains_false.
    destruct (Forall2_lookup_r _ _ _ _ _ Hk Hi) as (u & Hu & Hor). apply list_elem_of_lookup_2 in Hu.
    pose proof (old_not_new u Hu). by destruct Hor as [->|[-> _]].
Qed.
End created.

(** ** Guarantees *)

(** *** Repetition *)

Lemma GetDeploymentPlan_update id org plan s s' :
  GetDeploymentPlan id org s = Ok (plan, s) ->
  (exists c, Plans s' = update_where c (set_plan_status PlanExecuted) (Plans s)) ->
  exists p, GetDeploymentPlan id org s' = Ok (p, s').
Proof.
  intros (_ & Hin & Hid & Ho)%GetDeploymentPlan_inv [c E]. unfold GetDeploymentPlan.
  destruct (select_where _ (Plans s')) as [|p l] eqn:Es; [|by exists p]. exfalso.
  apply (not_elem_of_nil (if c plan then set_plan_status PlanExecuted plan else plan)). rewrite <- Es.
  apply elem_of_select_where. split; [rewrite E; apply elem_of_update_where; by exists plan|].
  by destruct (c plan); simpl; rewrite !bool_decide_eq_true_2.
Qed.

Lemma created_by_plans `{PreflightGate} env r plan s s' :
  created_by env r plan s s' ->
  exists c, Plans s' = update_where c (set_plan_status PlanExecuted) (Plans s).
Proof.
  intros [_ _ _ _ _ (s2 & s3 & E1 & E2 & E3)]. apply markExecuted_inv in E3 as ->.
  unfold insertStepRunsForTasks in E2. injection E2 as <-. simpl.
  assert (forall ids locks s s2, apply_policies env ids locks s = Ok (tt, s2) -> Plans s2 = Plans s) as Hp.
  { clear. intros ids locks. induction locks as [|lock locks IH]; intros s s2 E; simpl in E; [by tx_inv|].
    destruct (lock_ConcurrencyPolicy lock); try by apply IH.
    - unfold cancelOlderQueuedTasksForResource in E. tx_inv. by apply IH in E as ->.
    - destruct (hasNonTerminalTaskResourceConflict _ _ _); [done|by apply IH]. }
  apply Hp in E1 as ->. eexists. reflexivity.
Qed.

(** Repeating a creation. Once tasks were created for a plan, every later
    creation request for it, whatever its policy and resources, returns the
    same tasks and changes nothing. *)
Theorem create_tasks_idempotent `{PreflightGate} env r s tasks s' env' r' :
  CreateTasksForDeploymentPlan env r s = (Ok tasks, s') -> tasks <> [] ->
  validateCreateTasksForDeploymentPlanRequest r' = Ok tt ->
  ct_DeploymentPlanID r' = ct_DeploymentPlanID r -> ct_OrganizationID r' = ct_OrganizationID r ->
  CreateTasksForDeploymentPlan env' r' s' = (Ok tasks, s').
Proof.
  intros E Hne Hv Eid Eorg.
  assert ((exists plan, GetDeploymentPlan (ct_DeploymentPlanID r) (ct_OrganizationID r) s' = Ok (plan, s'))
    /\ getTasksByDeploymentPlanID (ct_DeploymentPlanID r) (ct_OrganizationID r) s' = Ok (tasks, s')) as [[plan Ep] Et].
  { apply create_tasks_cases in E as [(ts & [= <-] & -> & _ & _ & Hp & Ht)|[(plan & _ & Hc & [= ->])|(e & ? & _)]];
      [done| |done]. split; [|by rewrite getTasksByPlan_spec].
    eapply GetDeploymentPlan_update; [apply (cb_plan _ _ _ _ _ Hc)|by eapply created_by_plans]. }
  unfold CreateTasksForDeploymentPlan, RunTx, create_tasks_tx. rewrite Hv, Eid, Eorg.
  destruct (normalizeTaskLockResourceRequests r') as [policy more].
  unfold mbind, tx_bind. rewrite Ep. simpl. rewrite Et. simpl. by destruct tasks.
Qed.

Lemma hydrated_tasks s (l : list Task) : ht_Task <$> (hydrated s <$> l) = l.
Proof. induction l as [|t l IH]; [done|]. rewrite !fmap_cons, IH. done. Qed.

(** C7: the concurrency policies. The first creation for a plan adds its tasks
    as queued; an older task changes only by being canceled, and only when it is
    queued and waits for a resource that a new task locks with CANCEL_OLDER. Afterwards no older queued or running task holds or waits for a
    resource locked with REJECT_NEW, and no older queued task waits for one
    locked with CANCEL_OLDER. *)
Theorem create_tasks_policies `{PreflightGate} env r s tasks s' :
  task_inv s -> fresh_env env s ->
  (forall t, t ∈ Tasks s -> of_plan (ct_DeploymentPlanID r) (ct_OrganizationID r) t = false) ->
  CreateTasksForDeploymentPlan env r s = (Ok tasks, s') ->
  let ids := task_ID <$> (ht_Task <$> tasks) in
  (exists kept, Tasks s' = kept ++ (ht_Task <$> tasks)
     /\ Forall2 (λ t t', t' = t \/ (t' = cancel_task (now env) t
          /\ exists lock, lock ∈ Locks s' /\ lock_TaskID lock ∈ ids
             /\ lock_ConcurrencyPolicy lock = PolicyCancelOlder /\ superseded lock ids s t)) (Tasks s) kept)
  /\ Forall (λ t, task_Status t = TaskStatusQueued) (ht_Task <$> tasks)
  /\ (forall lock t, lock ∈ Locks s' -> lock_TaskID lock ∈ ids ->
        lock_ConcurrencyPolicy lock = PolicyRejectNew ->
        ~ occupied [TaskStatusQueued; TaskStatusRunning] lock ids s' t)
  /\ (forall lock t, lock ∈ Locks s' -> lock_TaskID lock ∈ ids ->
        lock_ConcurrencyPolicy lock = PolicyCancelOlder -> ~ occupied [TaskStatusQueued] lock ids s' t).
Proof.
  intros Hinv Hf Hnone E.
  apply create_tasks_cases in E as [(ts & [= <-] & -> & Hne & _ & _ & Ht)|[(plan & Hv & Hc & [= ->])|(e & ? & _)]];
    [| |done].
  { exfalso. rewrite getTasksByPlan_spec in Ht. injection Ht as <-. apply Hne.
    unfold select_where. by rewrite (filter_none_bool _ _ Hnone). }
  rewrite (created_of_plan env r plan s s' Hinv Hf Hc), rows_sorted, hydrated_tasks. cbv zeta.
  pose proof (created_policies env r plan s s' Hinv Hf Hv Hc) as Hpol. unfold policy_holds in Hpol.
  split_and!.
  - by apply created_tasks.
  - apply Forall_forall. by intros t (i & target & _ & ->)%new_rows_elem.
  - intros lock t Hl Hi Hp. specialize (Hpol lock Hl Hi). rewrite Hp in Hpol. apply Hpol.
  - intros lock t Hl Hi Hp. specialize (Hpol lock Hl Hi). rewrite Hp in Hpol. apply Hpol.
Qed.

(** *** The rows of a creation *)

Definition step_view (r : StepRun) : uuid * string * StepRunStatus :=
  (sr_DeploymentPlanStepID r, sr_StepKey r, sr_Status r).

Definition plan_step_view (d : PlanStep) : uuid * string * StepRunStatus :=
  (ps_ID d, ps_StepKey d, if ps_Included d then StepRunPending else StepRunSkipped).

(** The step runs of one task among the ones inserted for several. *)
Lemma step_runs_of_task env t (rows : list Task) steps k :
  NoDup (task_ID <$> rows) -> t ∈ rows ->
  step_view <$> select_where (steps_of_task (task_ID t) (task_OrganizationID t))
    (imap (λ i, new_step_run env (k + i)) (rows ≫= λ u, pair u <$> steps))
  = plan_step_view <$> steps.
Proof.
  revert k. induction rows as [|u rows IH]; intros k Hnd Ht; [by apply elem_of_nil in Ht|].
  apply NoDup_cons in Hnd as [Hu Hnd].
  rewrite bind_cons, imap_app. unfold select_where in *. rewrite List.filter_app, fmap_app, imap_fmap.
  assert (forall l j, (task_ID u <> task_ID t \/ u = t) ->
    step_view <$> List.filter (steps_of_task (task_ID t) (task_OrganizationID t))
      (imap (λ n, new_step_run env (j + n) ∘ pair u) l)
    = if bool_decide (task_ID u = task_ID t) then plan_step_view <$> l else []) as Hone.
  { intros l. clear IH. induction l as [|d l IHl]; intros j Hid; [by case_bool_decide|]. simpl.
    specialize (IHl (S j) Hid).
    rewrite (imap_ext _ (λ n, new_step_run env (S j + n) ∘ pair u)) by (intros; simpl; by rewrite Nat.add_succ_r).
    unfold steps_of_task at 1. simpl sr_TaskID. simpl sr_OrganizationID.
    destruct (bool_decide_reflect (task_ID u = task_ID t)) as [E|E]; simpl.
    - destruct Hid as [?| ->]; [done|]. rewrite bool_decide_eq_true_2 by done. rewrite fmap_cons.
      f_equal. exact IHl.
    - exact IHl. }
  apply elem_of_cons in Ht as [->|Ht].
  - rewrite Hone by auto. rewrite bool_decide_eq_true_2 by done.
    rewrite (filter_none_bool _ (imap _ _)); [by rewrite app_nil_r|].
    intros x (i & [v d] & -> & Hi)%elem_of_lookup_imap. apply list_elem_of_lookup_2 in Hi.
    apply list_elem_of_bind in Hi as (w & (d' & [= <- <-] & _)%list_elem_of_fmap & Hw).
    unfold steps_of_task. simpl. rewrite bool_decide_eq_false_2; [done|].
    intros E. apply Hu. rewrite <- E. by apply list_elem_of_fmap_2.
  - assert (task_ID u <> task_ID t) as Hne.
    { intros E. apply Hu. rewrite E. by apply list_elem_of_fmap_2. }
    rewrite Hone by auto. rewrite bool_decide_eq_false_2 by done. simpl.
    rewrite length_fmap. specialize (IH (k + length steps) Hnd Ht).
    rewrite (imap_ext _ (λ i, new_step_run env (k + length steps + i))); [exact IH|].
    intros i x _. simpl. by rewrite Nat.add_assoc.
Qed.

Lemma filter_unique {A} (p : A -> bool) (l : list A) x :
  x ∈ l -> p x = true -> (forall y, y ∈ l -> p y = true -> y = x) -> NoDup l -> List.filter p l = [x].
Proof.
  intros Hx Hp Hu Hnd. induction Hnd as [|y l Hy Hnd IH]; [by apply elem_of_nil in Hx|]. simpl.
  apply elem_of_cons in Hx as [->|Hx].
  - rewrite Hp. f_equal. apply filter_none_bool. intros z Hz. destruct (p z) eqn:E; [|done].
    rewrite (Hu z) in Hz; [done|by right|done].
  - destruct (p y) eqn:E; [|apply IH; [done|]; intros z Hz; apply Hu; by right].
    rewrite (Hu y) in Hy; [done|by left|done].
Qed.

Section created_rows.
Context `{PreflightGate}.
Context (env : tx_env) (r : CreateTasksForDeploymentPlanRequest) (plan : DeploymentPlan) (s s' : db).
Context (Hinv : task_inv s) (Hf : fresh_env env s) (Hc : created_by env r plan s s').
Context (Hplans : NoDup (plan_ID <$> Plans s)).
Context (Hfk : forall u, u ∈ StepRuns s -> sr_TaskID u ∈ task_ID <$> Tasks s).

Let rows := new_rows env r plan s.
Let steps := stable_sort plan_step_less (plan_Steps plan).

Lemma plan_of_row t : t ∈ rows ->
  select_where (λ p, bool_decide (plan_ID p = task_DeploymentPlanID t)
    && bool_decide (plan_OrganizationID p = task_OrganizationID t)) (Plans s) = [plan].
Proof.
  intros (i & target & _ & ->)%new_rows_elem.
  destruct (GetDeploymentPlan_inv _ _ _ _ _ (cb_plan _ _ _ _ _ Hc)) as (_ & Hin & _ & _).
  apply filter_unique; [done|simpl; by rewrite !bool_decide_eq_true_2| |by eapply NoDup_fmap_1].
  intros p Hp Hcond. to_prop. by apply (NoDup_fmap_elem plan_ID _ _ _ Hplans).
Qed.

Lemma created_step_runs :
  StepRuns s' = StepRuns s ++ imap (new_step_run env) (rows ≫= λ t, pair t <$> steps).
Proof.
  pose proof plan_of_row as Hplan. pose proof (created_selected env r plan s s' Hinv Hf Hc) as Hsel.
  pose proof Hc as [_ _ _ _ _ (s2 & s3 & E1 & E2 & E3)].
  apply apply_policies_spec in E1 as (_ & Hth & _); [|by apply inv_inserted; [eapply created_by_in|..]].
  destruct (thinned_frame _ _ _ _ Hth) as (_ & EST & EP & _). simpl in EST, EP.
  apply markExecuted_inv in E3 as ->. unfold insertStepRunsForTasks in E2. injection E2 as <-.
  simpl in Hsel |- *. rewrite EST. f_equal.
  rewrite Hsel.
  rewrite EP. rewrite (list_bind_ext_elem _ (λ t, pair t <$> steps) rows).
  - unfold select_where. apply filter_all_bool. intros u (i & [t d] & -> & Hi)%elem_of_lookup_imap.
    apply list_elem_of_lookup_2, list_elem_of_bind in Hi as (w & (d' & [= <- <-] & _)%list_elem_of_fmap & Hw).
    apply negb_true_iff, exists_where_false. intros v Hv. apply Hfk in Hv. simpl.
    rewrite bool_decide_eq_false_2; [done|]. intros E. rewrite E in Hv.
    by apply (proj2 (new_rows_fresh env r plan s (created_by_in env r plan s _ Hc) Hf) t Hw).
  - intros t Ht. by rewrite Hplan, bind_cons, app_nil_r.
Qed.

Lemma new_rows_targets :
  (forall t, t ∈ Tasks s -> task_DeploymentPlanID t <> ct_DeploymentPlanID r) ->
  (λ t, (task_DeploymentPlanTargetID t, task_DeploymentTargetID t)) <$> rows
  = (λ p, (pt_ID p, pt_DeploymentTargetID p)) <$> stable_sort plan_target_less (plan_Targets plan).
Proof.
  intros Hnone. destruct (plan_keys env r plan s s' Hc) as [Eid _]. unfold rows, new_rows, select_where.
  rewrite filter_all_bool.
  - rewrite fmap_imap. apply (imap_const (λ p, (pt_ID p, pt_DeploymentTargetID p))).
  - intros t (i & target & -> & _)%elem_of_lookup_imap. apply negb_true_iff, exists_where_false.
    intros u Hu. rewrite bool_decide_eq_false_2; [done|]. simpl. rewrite Eid. by apply Hnone.
Qed.

Lemma created_row t :
  t ∈ rows ->
  task_Status t = TaskStatusQueued
  /\ (exists l, l ∈ ht_Locks (hydrated s' t) /\ lock_ResourceType l = ResourceDeploymentTarget
        /\ lock_ResourceKey l = uuid_string (task_DeploymentTargetID t))
  /\ step_view <$> ht_StepRuns (hydrated s' t) ≡ₚ plan_step_view <$> plan_Steps plan.
Proof.
  intros Ht. split_and!.
  - by apply new_rows_elem in Ht as (i & target & _ & ->).
  - destruct (created_by_spec env r plan s s' Hinv Hf Hc) as (_ & s2 & Hth & _ & _ & EL & _).
    set (l := new_lock t ResourceDeploymentTarget (uuid_string (task_DeploymentTargetID t))
                (fst (normalizeTaskLockResourceRequests r))).
    assert (l ∈ Locks (inserted env r plan s)) as Hl.
    { apply elem_of_app. right. apply new_locks_elem. exists t. split; [done|by left]. }
    apply list_elem_of_lookup in Hl as [i Hi].
    destruct (Forall2_lookup_l _ _ _ _ _ (thinned_locks _ _ _ _ Hth) Hi) as (l' & Hl' & Hor).
    exists l'. split; [|by destruct Hor as [->| ->]]. simpl. apply elem_of_stable_sort, elem_of_select_where.
    split; [rewrite EL; by eapply list_elem_of_lookup_2|].
    unfold locks_where. by destruct Hor as [->| ->]; simpl; rewrite !bool_decide_eq_true_2.
  - simpl. rewrite (stable_sort_perm step_less), created_step_runs. unfold select_where.
    rewrite List.filter_app, filter_none_bool.
    + assert (NoDup (task_ID <$> rows)) as Hnd by (apply new_rows_fresh; [by eapply created_by_in|done]).
      transitivity (plan_step_view <$> steps); [|unfold steps; by rewrite stable_sort_perm].
      pose proof (step_runs_of_task env t rows steps 0 Hnd Ht) as <-. done.
    + intros u Hu. unfold steps_of_task. rewrite bool_decide_eq_false_2; [done|]. intros E.
      apply Hfk in Hu. rewrite E in Hu. by apply (proj2 (new_rows_fresh env r plan s (created_by_in env r plan s _ Hc) Hf) t Ht).
Qed.

Lemma created_executed p :
  p ∈ Plans s' -> plan_ID p = ct_DeploymentPlanID r -> plan_Status p = PlanExecuted.
Proof.
  destruct (plan_keys env r plan s s' Hc) as [Eid _].
  destruct (GetDeploymentPlan_inv _ _ _ _ _ (cb_plan _ _ _ _ _ Hc)) as (_ & Hin & _ & _).
  pose proof Hc as [_ _ Hready _ _ (s2 & s3 & E1 & E2 & E3)].
  apply apply_policies_spec in E1 as (_ & Hth & _); [|by apply inv_inserted; [eapply created_by_in|..]].
  destruct (thinned_frame _ _ _ _ Hth) as (_ & _ & EP & _).
  apply markExecuted_inv in E3. unfold insertStepRunsForTasks in E2. injection E2 as <-.
  rewrite E3. simpl. rewrite EP. intros (q & Hq & ->)%elem_of_update_where Ep.
  assert (q = plan) as ->; [|by rewrite Hready, !bool_decide_eq_true_2].
  apply (NoDup_fmap_elem plan_ID _ _ _ Hplans); [done..|]. rewrite Eid, <- Ep. by case_match.
Qed.
End created_rows.

(** The rows of a creation. The first creation for a ready plan makes one
    queued task per target of the plan, in the plan's order of the targets,
    with the lock of its target; each task gets one step run per step of the
    plan, pending when the step is included and skipped otherwise; and the plan
    is marked executed. *)
Theorem create_tasks_complete `{PreflightGate} env r s tasks s' :
  task_inv s -> fresh_env env s -> NoDup (plan_ID <$> Plans s) ->
  (forall u, u ∈ StepRuns s -> sr_TaskID u ∈ task_ID <$> Tasks s) ->
  (forall t, t ∈ Tasks s -> task_DeploymentPlanID t <> ct_DeploymentPlanID r) ->
  CreateTasksForDeploymentPlan env r s = (Ok tasks, s') ->
  exists plan, plan ∈ Plans s /\ plan_ID plan = ct_DeploymentPlanID r
  /\ plan_OrganizationID plan = ct_OrganizationID r /\ plan_Status plan = PlanReady
  /\ (λ t, (task_DeploymentPlanTargetID t, task_DeploymentTargetID t)) <$> (ht_Task <$> tasks)
     = (λ p, (pt_ID p, pt_DeploymentTargetID p)) <$> stable_sort plan_target_less (plan_Targets plan)
  /\ Forall (λ h, task_Status (ht_Task h) = TaskStatusQueued
       /\ (exists l, l ∈ ht_Locks h /\ lock_ResourceType l = ResourceDeploymentTarget
            /\ lock_ResourceKey l = uuid_string (task_DeploymentTargetID (ht_Task h)))
       /\ step_view <$> ht_StepRuns h ≡ₚ plan_step_view <$> plan_Steps plan) tasks
  /\ (forall p, p ∈ Plans s' -> plan_ID p = ct_DeploymentPlanID r -> plan_Status p = PlanExecuted).
Proof.
  intros Hinv Hf Hplans Hfk Hnone E.
  assert (forall t, t ∈ Tasks s -> of_plan (ct_DeploymentPlanID r) (ct_OrganizationID r) t = false) as Hnone'.
  { intros t Ht. unfold of_plan. rewrite bool_decide_eq_false_2; [done|by apply Hnone]. }
  apply create_tasks_cases in E as [(ts & [= <-] & -> & Hne & _ & _ & Ht)|[(plan & Hv & Hc & [= ->])|(e & ? & _)]];
    [| |done].
  { exfalso. rewrite getTasksByPlan_spec in Ht. injection Ht as <-. apply Hne.
    unfold select_where. by rewrite (filter_none_bool _ _ Hnone'). }
  destruct (GetDeploymentPlan_inv _ _ _ _ _ (cb_plan _ _ _ _ _ Hc)) as (_ & Hin & Eid & Eorg).
  exists plan. split_and!; [done..|by apply (cb_ready _ _ _ _ _ Hc)| | |].
  - rewrite (created_of_plan env r plan s s' Hinv Hf Hc), rows_sorted, hydrated_tasks.
    by apply (new_rows_targets env r plan s s').
  - rewrite (created_of_plan env r plan s s' Hinv Hf Hc), rows_sorted. apply Forall_fmap, Forall_forall.
    intros t Ht. by apply (created_row env r plan s s').
  - intros p Hp Ep. by apply (created_executed env r plan s s').
Qed.
