(* ===== verification/TaskSteps.v ===== *)
(** * The steps of the task system

    Every operation of [TaskQueue], [TaskLeases] and [StepEvents] as a step of
    one transition system, the invariant of its reachable states, and the
    edges along which the statuses of tasks and step runs move. *)
From S2P Require Import Prelude GoStrings Uuid TaskStore TaskQueue TaskLeases StepEvents TaskSystem TaskCreation.
Open Scope list_scope.

(** ** The edges of the statuses *)

Definition task_edge (a b : TaskStatus) : bool :=
  bool_decide (a = b) || isAllowedTaskTransition a b
  || (bool_decide (a = TaskStatusQueued) && bool_decide (b = TaskStatusCanceled)).

(** A step run that its executor lost is pending again. *)
Definition step_edge (a b : StepRunStatus) : bool :=
  bool_decide (a = b) || isAllowedStepRunTransition a b
  || (bool_decide (a = StepRunRunning) && bool_decide (b = StepRunPending)).

Definition task_moves (t t' : Task) : Prop :=
  task_ID t' = task_ID t /\ task_OrganizationID t' = task_OrganizationID t
  /\ task_DeploymentTargetID t' = task_DeploymentTargetID t /\ task_edge (task_Status t) (task_Status t') = true.

Definition step_moves (r r' : StepRun) : Prop :=
  sr_ID r' = sr_ID r /\ sr_OrganizationID r' = sr_OrganizationID r /\ sr_TaskID r' = sr_TaskID r
  /\ step_edge (sr_Status r) (sr_Status r') = true.

(** Rows move and new rows come after them. *)
Definition extends {A} (R : A -> A -> Prop) (l l' : list A) : Prop :=
  exists kept new, l' = kept ++ new /\ Forall2 R l kept.

Record progress (s s' : db) : Prop := {
  progress_tasks : extends task_moves (Tasks s) (Tasks s');
  progress_steps : extends step_moves (StepRuns s) (StepRuns s');
}.

(** No rows are added. *)
Definition moves (s s' : db) : Prop :=
  Forall2 task_moves (Tasks s) (Tasks s') /\ Forall2 step_moves (StepRuns s) (StepRuns s').

Lemma task_edge_refl a : task_edge a a = true.
Proof. unfold task_edge. by rewrite bool_decide_eq_true_2. Qed.

Lemma step_edge_refl a : step_edge a a = true.
Proof. unfold step_edge. by rewrite bool_decide_eq_true_2. Qed.

Lemma task_edge_allowed a b : isAllowedTaskTransition a b = true -> task_edge a b = true.
Proof. unfold task_edge. intros ->. by rewrite orb_true_r. Qed.

Lemma step_edge_allowed a b : isAllowedStepRunTransition a b = true -> step_edge a b = true.
Proof. unfold step_edge. intros ->. by rewrite orb_true_r. Qed.

Lemma extends_Forall2 {A} (R : A -> A -> Prop) l l' : Forall2 R l l' -> extends R l l'.
Proof. intros H. exists l', []. by rewrite app_nil_r. Qed.

Lemma task_moves_refl l : Forall2 task_moves l l.
Proof. apply Forall_Forall2_diag, Forall_forall. intros t _. split_and!; [done..|apply task_edge_refl]. Qed.

Lemma step_moves_refl l : Forall2 step_moves l l.
Proof. apply Forall_Forall2_diag, Forall_forall. intros t _. split_and!; [done..|apply step_edge_refl]. Qed.

Lemma moves_of s s' :
  Forall2 task_moves (Tasks s) (Tasks s') -> Forall2 step_moves (StepRuns s) (StepRuns s') -> moves s s'.
Proof. by split. Qed.

Lemma moves_progress s s' : moves s s' -> progress s s'.
Proof. intros [H1 H2]. split; by apply extends_Forall2. Qed.

Lemma moves_same s s' : Tasks s' = Tasks s -> StepRuns s' = StepRuns s -> moves s s'.
Proof. intros E1 E2. apply moves_of; rewrite ?E1, ?E2; [apply task_moves_refl|apply step_moves_refl]. Qed.

Lemma task_moves_update id org st now l :
  (forall t, t ∈ l -> task_where id org t = true -> task_edge (task_Status t) st = true) ->
  Forall2 task_moves l (update_where (task_where id org) (set_task_status st now) l).
Proof.
  intros H. apply Forall2_update_where. intros t Ht.
  destruct (task_where id org t) eqn:E; split_and!; auto using task_edge_refl.
Qed.

Lemma step_moves_update (c : StepRun -> bool) (f : StepRun -> StepRun) l :
  (forall r, r ∈ l -> c r = true -> step_moves r (f r)) -> Forall2 step_moves l (update_where c f l).
Proof.
  intros H. apply Forall2_update_where. intros r Hr. destruct (c r) eqn:E; [by apply H|].
  split_and!; auto using step_edge_refl.
Qed.

(** ** The operations move along the edges *)

Definition steps_unique (s : db) : Prop := NoDup (sr_ID <$> StepRuns s).

Lemma step_where_true id org r : step_where id org r = true <-> sr_ID r = id /\ sr_OrganizationID r = org.
Proof. unfold step_where. by rewrite andb_true_iff, !bool_decide_eq_true. Qed.

Lemma step_where_unique s id org r u :
  steps_unique s -> r ∈ StepRuns s -> u ∈ StepRuns s -> step_where id org r = true ->
  step_where id org u = true -> r = u.
Proof.
  intros Hu Hr Hin [E1 _]%step_where_true [E2 _]%step_where_true.
  apply (NoDup_fmap_elem sr_ID _ _ _ Hu); auto. congruence.
Qed.

Lemma task_status_tables env id org st s s' :
  updateTaskStatus env id org st s = Ok (tt, s') ->
  Tasks s' = update_where (task_where id org) (set_task_status st (now env)) (Tasks s)
  /\ StepRuns s' = StepRuns s.
Proof.
  unfold updateTaskStatus, releaseActiveTaskLeasesForTask, releaseTaskResourceLocks. intros E. tx_inv.
  destruct (task_status_terminal st); by tx_inv.
Qed.

Lemma moves_status env id org st s s' :
  updateTaskStatus env id org st s = Ok (tt, s') ->
  (forall t, t ∈ Tasks s -> task_where id org t = true -> task_edge (task_Status t) st = true) ->
  moves s s'.
Proof.
  intros [ET ES]%task_status_tables H. apply moves_of; rewrite ?ET, ?ES;
    [by apply task_moves_update|apply step_moves_refl].
Qed.

Lemma moves_task env r s res s' :
  task_inv s -> TransitionTaskState env r s = (res, s') -> moves s s'.
Proof.
  intros Hinv. unfold TransitionTaskState.
  destruct (validateTransitionTaskStateRequest r); [|intros [= _ <-]; by apply moves_same].
  intros [(h & -> & E)|(e & _ & _ & ->)]%RunTx_cases; [|by apply moves_same].
  apply tx_bind_ok in E as (st & s1 & [-> (t & Ht & Hw & Hst)]%getTaskStatusForUpdate_inv & E).
  destruct (isAllowedTaskTransition st (tt_Status r)) eqn:Ha; [|by tx_inv].
  apply tx_bind_ok in E as (? & s2 & [= _ <-] & E). apply tx_bind_ok in E as ([] & s2 & E1 & E).
  apply tx_bind_ok in E as ([] & s3 & E2 & ->%getTask_state).
  assert (Tasks s2 = Tasks s /\ StepRuns s2 = StepRuns s) as [ET ES].
  { case_bool_decide; [|by tx_inv]. by apply acquireTaskResourceLocks_inv in E1 as (? & _ & ? & _). }
  apply task_status_tables in E2 as [ET' ES']. rewrite ET in ET'. rewrite ES in ES'.
  apply moves_of; rewrite ?ET', ?ES'; [|apply step_moves_refl]. apply task_moves_update.
  intros u Hu Hwu. rewrite (task_where_unique _ _ _ u t Hinv Hu Ht Hwu Hw), Hst. by apply task_edge_allowed.
Qed.

Lemma update_step_moves env id org st s s' :
  updateStepRunStatus env id org st s = Ok (tt, s') ->
  (forall r, r ∈ StepRuns s -> step_where id org r = true -> step_edge (sr_Status r) st = true) ->
  Forall2 step_moves (StepRuns s) (StepRuns s').
Proof.
  intros ->%updateStepRunStatus_inv H. apply step_moves_update. intros r Hr Hw. split_and!; [done..|by apply H].
Qed.

Lemma moves_step_run env r s res s' :
  steps_unique s -> TransitionStepRunState env r s = (res, s') -> moves s s'.
Proof.
  intros Hu. unfold TransitionStepRunState.
  destruct (validateTransitionStepRunStateRequest r); [|intros [= _ <-]; by apply moves_same].
  intros [(h & -> & E)|(e & _ & _ & ->)]%RunTx_cases; [|by apply moves_same].
  apply tx_bind_ok in E as (st & s1 & E1 & E). unfold getStepRunStatusForUpdate in E1.
  destruct (select_where _ _) as [|x l] eqn:Es; [done|]. injection E1 as <- <-.
  assert (x ∈ StepRuns s /\ step_where (ts_StepRunID r) (ts_OrganizationID r) x = true) as [Hx Hwx].
  { rewrite <- elem_of_select_where, Es. by left. }
  destruct (isAllowedStepRunTransition (sr_Status x) (ts_Status r)) eqn:Ha; [|by tx_inv].
  apply tx_bind_ok in E as (? & s2 & [= _ <-] & E). apply tx_bind_ok in E as ([] & s2 & E1 & E).
  assert (s' = s2) as ->. { unfold getStepRun in E. destruct (select_where _ (StepRuns s2)) as [|? [|]]; [done|by injection E|done]. }
  apply moves_of.
  - apply updateStepRunStatus_inv in E1 as ->. apply task_moves_refl.
  - eapply update_step_moves; [exact E1|]. intros u Hin Hw.
    rewrite (step_where_unique s _ _ u x Hu Hin Hx Hw Hwx). by apply step_edge_allowed.
Qed.

(** *** Leases *)

Definition reset_moves (r r' : StepRun) : Prop :=
  r' = r \/ (sr_Status r = StepRunRunning
             /\ r' = with_step_status StepRunPending (sr_StartedAt r) (sr_CompletedAt r) r).

Lemma reset_interrupted_moves id org es s s' :
  reset_interrupted id org es s = Ok (tt, s') -> Forall2 reset_moves (StepRuns s) (StepRuns s').
Proof.
  revert s. induction es as [|e es IH]; intros s E; simpl in E.
  { tx_inv. apply Forall_Forall2_diag, Forall_forall. by left. }
  destruct (negb (executor_valid e)); [done|]. apply tx_bind_ok in E as ([] & s1 & E1 & E).
  apply IH in E. injection E1 as <-. simpl in E. eapply Forall2_compose; [| |exact E].
  2: { apply Forall2_update_where with (P := reset_moves). intros r _.
       destruct (_ && existsb _ _) eqn:Ec; [|by left]. right. by to_prop. }
  intros x y z [->|[Hx ->]] [->|[Hy ->]]; [by left|by right|by right|done].
Qed.

Lemma reset_moves_step r r' : reset_moves r r' -> step_moves r r'.
Proof.
  intros [->|[E ->]]; split_and!; try done; [apply step_edge_refl|]. unfold step_edge. simpl. by rewrite E.
Qed.

Lemma releaseExpired_steps env id org s n s' :
  releaseExpiredTaskLeasesAndNextAttempt env id org s = Ok (n, s') ->
  Forall2 step_moves (StepRuns s) (StepRuns s').
Proof.
  unfold releaseExpiredTaskLeasesAndNextAttempt. intros E.
  apply tx_bind_ok in E as (m & s1 & [= <- <-] & E). apply tx_bind_ok in E as (es & s1 & [= <- <-] & E).
  apply tx_bind_ok in E as ([] & s1 & [= <-] & E). apply tx_bind_ok in E as ([] & s2 & E1 & E).
  injection E as _ <-. apply reset_interrupted_moves in E1. simpl in E1.
  eapply Forall2_impl; [exact E1|]. apply reset_moves_step.
Qed.

Lemma acquire_steps env id org s s' :
  acquireTaskResourceLocks env id org s = Ok (tt, s') -> Tasks s' = Tasks s /\ StepRuns s' = StepRuns s.
Proof. by intros (? & _ & ? & _)%acquireTaskResourceLocks_inv. Qed.

Section lease_moves.
Context `{Crypto} `{SecretResolver}.

Lemma grant_lease_inv env t e n s lease s' :
  grant_lease env t e n s = Ok (Some lease, s') ->
  insertTaskLease env (task_OrganizationID t) (task_DeploymentTargetID t) (task_ID t) e
    (hashTaskLeaseToken (random_token env)) n s = Ok (fresh_lease env, s')
  /\ getTaskLease (fresh_lease env) (task_OrganizationID t) (random_token env) s' = Ok (lease, s').
Proof.
  unfold grant_lease. intros E. apply tx_bind_ok in E as (id & s1 & E1 & E).
  apply tx_bind_ok in E as (l & s2 & E2 & E). injection E as <- <-.
  pose proof E2 as ->%getTaskLease_state.
  assert (id = fresh_lease env) as ->; [|done].
  unfold insertTaskLease in E1. destruct (exists_where _ _); [done|by injection E1].
Qed.

Lemma insertTaskLease_inv env org target id e h n s l s' :
  insertTaskLease env org target id e h n s = Ok (l, s') ->
  Tasks s' = Tasks s /\ StepRuns s' = StepRuns s /\ Locks s' = Locks s /\ Bundles s' = Bundles s
  /\ Plans s' = Plans s /\ Events s' = Events s
  /\ Leases s' = Leases s ++ [{| lease_ID := fresh_lease env; lease_OrganizationID := org;
       lease_TaskID := id; lease_AgentID := target; lease_ExecutorType := e; lease_TokenHash := h;
       lease_LeasedAt := now env; lease_ExpiresAt := (now env + taskLeaseDuration)%Z;
       lease_HeartbeatAt := now env; lease_Attempt := n; lease_ReleasedAt := None |}].
Proof. unfold insertTaskLease. destruct (exists_where _ _); [done|]. by intros [= _ <-]. Qed.

Lemma moves_started env t s n s1 :
  task_inv s -> t ∈ Tasks s -> started env t s n s1 ->
  Forall2 task_moves (Tasks s) (Tasks s1) /\ Forall2 step_moves (StepRuns s) (StepRuns s1).
Proof.
  intros Hinv Ht [[Hst E]|(Hst & sa & sb & Ea & Eb & E)].
  - split; [|by eapply releaseExpired_steps].
    apply releaseExpired_inv in E as (-> & _). apply task_moves_refl.
  - apply acquire_steps in Ea as [ET ES]. apply task_status_tables in Eb as [ET' ES'].
    pose proof E as Esteps%releaseExpired_steps. apply releaseExpired_inv in E as (ET3 & _).
    split; [|by rewrite <- ES, <- ES']. rewrite ET3, ET', ET. apply task_moves_update.
    intros u Hu Hw. by rewrite (task_where_unique _ _ _ u t Hinv Hu Ht Hw (task_where_refl t)), Hst.
Qed.

Lemma moves_leaseTaskCandidate env t e s x s' :
  task_inv s -> t ∈ Tasks s ->
  task_Status t = TaskStatusQueued \/ task_Status t = TaskStatusRunning ->
  leaseTaskCandidate env t e s = Ok (x, s') -> moves s s'.
Proof.
  intros Hinv Ht Hst [(_ & [->|(_ & n & E)])|(lease & n & s1 & _ & _ & Hs & E)]%leaseTaskCandidate_cases;
    [by apply moves_same| |  |done].
  - apply moves_of; [|by eapply releaseExpired_steps].
    apply releaseExpired_inv in E as (-> & _). apply task_moves_refl.
  - destruct (moves_started _ _ _ _ _ Hinv Ht Hs) as [H1 H2].
    apply grant_lease_inv in E as [(ET & ES & _)%insertTaskLease_inv _].
    apply moves_of; rewrite ?ET, ?ES; done.
Qed.

Lemma moves_agent_lease env r s res s' :
  task_inv s -> LeaseAgentTask env r s = (res, s') -> moves s s'.
Proof.
  intros Hinv. unfold LeaseAgentTask.
  destruct (validateLeaseAgentTaskRequest r); [|intros [= _ <-]; by apply moves_same].
  intros [(x & -> & E)|(e & _ & _ & ->)]%RunTx_cases; [|by apply moves_same].
  destruct (getNextTaskLeaseCandidateForUpdate _ _ _ s) as [t|] eqn:Et;
    [|injection E as _ <-; by apply moves_same].
  apply first_task_elem in Et as [Ht Hc]. to_prop.
  eapply moves_leaseTaskCandidate; eauto using lease_candidate_status.
Qed.

Lemma moves_hub_lease env s res s' : task_inv s -> LeaseHubTask env s = (res, s') -> moves s s'.
Proof.
  intros Hinv. unfold LeaseHubTask. intros [(x & -> & E)|(e & _ & _ & ->)]%RunTx_cases; [|by apply moves_same].
  destruct (getNextHubTaskLeaseCandidateForUpdate _ s) as [t|] eqn:Et;
    [|injection E as _ <-; by apply moves_same].
  apply first_task_elem in Et as [Ht Hc]. eapply moves_leaseTaskCandidate; eauto using lease_candidate_status.
Qed.

Lemma heartbeat_tables env org target id token e s res s' :
  heartbeatTaskLease env org target id token e s = (res, s') ->
  Tasks s' = Tasks s /\ StepRuns s' = StepRuns s /\ Events s' = Events s.
Proof.
  unfold heartbeatTaskLease. intros [(x & -> & E)|(err & _ & _ & ->)]%RunTx_cases; [|done].
  apply tx_bind_ok in E as (st & s1 & [-> _]%getTaskStatusForUpdate_inv & E).
  destruct (negb _); [done|]. apply tx_bind_ok in E as ([leaseID expired] & s2 & E1 & E).
  unfold getActiveTaskLeaseIDForHeartbeat in E1. destruct (select_where _ _); [done|].
  injection E1 as _ _ <-. destruct expired; [done|].
  apply tx_bind_ok in E as ([] & s3 & [= <-] & ->%getTaskLease_state). done.
Qed.
End lease_moves.

(** *** Events *)

Section event_moves.
Context `{Crypto} `{SecretResolver} `{EventPreparer}.

Lemma target_inv org stepRunID s target s' :
  getStepRunEventTargetForUpdate org stepRunID s = Ok (target, s') ->
  exists r t, r ∈ StepRuns s /\ step_where stepRunID org r = true
  /\ t ∈ Tasks s /\ task_where (sr_TaskID r) org t = true
  /\ target = {| tg_TaskID := task_ID t; tg_AgentID := task_DeploymentTargetID t;
                 tg_TaskStatus := task_Status t; tg_StepStatus := sr_Status r |}.
Proof.
  unfold getStepRunEventTargetForUpdate. destruct (_ ≫= _) as [|x l] eqn:E; [done|]. intros [= <- <-].
  assert (x ∈ x :: l) as Hx by (by left). rewrite <- E in Hx.
  apply list_elem_of_bind in Hx as (r & (t & -> & Ht)%list_elem_of_fmap & Hr).
  apply elem_of_select_where in Ht as [Ht Hwt], Hr as [Hr Hwr].
  exists r, t. apply step_where_true in Hwr as Hk. destruct Hk as [_ Eorg]. rewrite Eorg in Hwt. done.
Qed.

(** The two ways an event succeeds: it was recorded before, or it is the next
    one of an active lease and takes effect. *)
Lemma record_event_cases env r p target lease e s v s' :
  record_event env r p target lease e s = Ok (v, s') ->
  (s' = s /\ event_PayloadHash v = p_PayloadHash p
   /\ getStepRunEventBySequence (ev_OrganizationID r) (ev_StepRunID r) (lease_ID lease) (ev_Sequence r) s = Some v)
  \/ (getStepRunEventBySequence (ev_OrganizationID r) (ev_StepRunID r) (lease_ID lease) (ev_Sequence r) s = None
      /\ lease_ReleasedAt lease = None /\ lease_expired (now env) lease = false
      /\ ev_Sequence r
         = (getMaxStepRunEventSequence (ev_OrganizationID r) (ev_StepRunID r) (lease_ID lease) s + 1)%Z
      /\ v = new_event env r p (tg_TaskID target) (lease_ID lease)
      /\ exists s1 s2, applyStepRunEventTransition env target r s = Ok (tt, s1)
           /\ insertStepRunEvent env r p (tg_TaskID target) (lease_ID lease) s1 = Ok (v, s2)
           /\ (s' = s2 \/ releaseTaskLeaseIfExecutorBatchComplete env (tg_TaskID target) (ev_OrganizationID r)
                 (lease_ID lease) (ExecutionLocation e) s2 = Ok (tt, s'))).
Proof.
  unfold record_event. destruct (getStepRunEventBySequence _ _ _ _ _) as [x|] eqn:Ex.
  { case_bool_decide; [|done]. intros [= <- <-]. by left. }
  destruct (is_null (lease_ReleasedAt lease)) eqn:Er; [|done]. simpl.
  destruct (lease_expired (now env) lease) eqn:El; [done|].
  destruct (Z.eqb_spec (ev_Sequence r)
    (getMaxStepRunEventSequence (ev_OrganizationID r) (ev_StepRunID r) (lease_ID lease) s + 1)) as [Es|]; [|done].
  intros E. apply tx_bind_ok in E as ([] & s1 & ->%validateStepRunOutputNameLimit_state & E).
  apply tx_bind_ok in E as ([] & s2 & E1 & E). apply tx_bind_ok in E as (w & s3 & E2 & E).
  apply tx_bind_ok in E as ([] & s4 & E3 & E). injection E as <- <-. right.
  apply is_null_true in Er. pose proof E2 as E2'. unfold insertStepRunEvent in E2'. injection E2' as <- _.
  split_and!; try done. exists s2, s3. split_and!; try done.
  case_bool_decide; [by right|]. injection E3 as <-. by left.
Qed.

Lemma complete_tables env id org s s' :
  completeTaskIfStepRunsTerminal env id org s = Ok (tt, s') ->
  s' = s \/ exists st, task_status_terminal st = true /\ (st = TaskStatusFailed \/ st = TaskStatusSucceeded)
    /\ updateTaskStatus env id org st s = Ok (tt, s').
Proof.
  unfold completeTaskIfStepRunsTerminal.
  destruct (bool_decide (0 < _)); [intros E; right; eexists; split_and!; [|by left|exact E]; done|].
  case_bool_decide; [intros E; right; eexists; split_and!; [|by right|exact E]; done|].
  intros E. left. by injection E.
Qed.

(** The task and the step run of an event. *)
Lemma transition_tables env target r s s1 :
  applyStepRunEventTransition env target r s = Ok (tt, s1) ->
  tg_TaskStatus target = TaskStatusRunning
  /\ exists sm,
    (sm = s \/ exists st, isAllowedStepRunTransition (tg_StepStatus target) st = true
       /\ updateStepRunStatus env (ev_StepRunID r) (ev_OrganizationID r) st s = Ok (tt, sm))
    /\ (s1 = sm \/ exists st, isAllowedTaskTransition TaskStatusRunning st = true
          /\ updateTaskStatus env (tg_TaskID target) (ev_OrganizationID r) st sm = Ok (tt, s1)).
Proof.
  unfold applyStepRunEventTransition. case_bool_decide as Hst; [|done]. simpl.
  intros E. split; [done|].
  destruct (ev_Type r); try (destruct (bool_decide_reflect (tg_StepStatus target = StepRunRunning)) as [Hs|]; [|done]);
    try (destruct (bool_decide_reflect (tg_StepStatus target = StepRunPending)) as [Hs|]; [|done]);
    simpl in E; try (injection E as <-; exists s; by auto); try done; rewrite Hs.
  - exists s1. split; [|by left]. right. eexists. split; [|exact E]. done.
  - apply tx_bind_ok in E as ([] & sm & E1 & E). exists sm. split; [right; eexists; split; [|exact E1]; done|].
    apply complete_tables in E as [->|(st & _ & Hor & E)]; [by left|]. right. exists st. split; [|done].
    by destruct Hor as [->| ->].
  - apply tx_bind_ok in E as ([] & sm & E1 & E). exists sm. split; [right; eexists; split; [|exact E1]; done|].
    right. eexists. split; [|exact E]. done.
Qed.

Lemma releaseBatch_tables env id org leaseID loc s s' :
  releaseTaskLeaseIfExecutorBatchComplete env id org leaseID loc s = Ok (tt, s') ->
  Tasks s' = Tasks s /\ StepRuns s' = StepRuns s /\ Events s' = Events s.
Proof. unfold releaseTaskLeaseIfExecutorBatchComplete. by intros [= <-]. Qed.

Lemma moves_record env request e s res s' :
  task_inv s -> steps_unique s -> recordStepRunEvent env request e s = (res, s') -> moves s s'.
Proof.
  intros Hinv Hu E. destruct res as [v|err]; [|apply recordStepRunEvent_err in E as ->; by apply moves_same].
  apply recordStepRunEvent_inv in E as (r & target & lease & secrets & p & _ & Et & _ & _ & _ & _ & E).
  apply record_event_cases in E as [(-> & _)|(_ & _ & _ & _ & _ & s1 & s2 & E1 & E2 & E3)];
    [by apply moves_same|].
  assert (Tasks s' = Tasks s1 /\ StepRuns s' = StepRuns s1) as [ET ES].
  { unfold insertStepRunEvent in E2. injection E2 as _ <-. destruct E3 as [->|E3]; [done|].
    by apply releaseBatch_tables in E3 as (? & ? & _). }
  apply target_inv in Et as (r0 & t0 & Hr0 & Hwr & Ht0 & Hwt & ->).
  apply transition_tables in E1 as (Hrun & sm & Hstep & Htask). simpl in *.
  assert (Tasks sm = Tasks s /\ Forall2 step_moves (StepRuns s) (StepRuns sm)) as [ETm ESm].
  { destruct Hstep as [->|(st & Ha & E1)]; [split; [done|apply step_moves_refl]|].
    pose proof E1 as E1'. apply updateStepRunStatus_inv in E1' as ->. split; [done|].
    eapply update_step_moves; [exact E1|]. intros u Hin Hw.
    rewrite (step_where_unique s _ _ u r0 Hu Hin Hr0 Hw Hwr). by apply step_edge_allowed. }
  destruct Htask as [->|(st & Ha & E1)].
  - apply moves_of; [|by rewrite ES]. rewrite ET, ETm. apply task_moves_refl.
  - apply task_status_tables in E1 as [ET1 ES1]. apply moves_of; [|by rewrite ES, ES1].
    rewrite ET, ET1, ETm. apply task_moves_update. intros u Hin [Eid _]%task_where_true.
    rewrite (task_unique s u t0), Hrun by (by try congruence). by apply task_edge_allowed.
Qed.
End event_moves.

(** *** Creation *)

Section creation_progress.
Context `{PreflightGate}.
Context (env : tx_env) (r : CreateTasksForDeploymentPlanRequest) (plan : DeploymentPlan) (s s' : db).
Context (Hinv : task_inv s) (Hf : fresh_env env s) (Hc : created_by env r plan s s').

(** The rows of the step runs before the generated keys are drawn. *)
Definition step_rows (l : list Task) (ps : list DeploymentPlan) : list (Task * PlanStep) :=
  l ≫= λ t, select_where (λ p, bool_decide (plan_ID p = task_DeploymentPlanID t)
              && bool_decide (plan_OrganizationID p = task_OrganizationID t)) ps ≫= λ p,
            pair t <$> stable_sort plan_step_less (plan_Steps p).

Lemma length_bind_le {A B} (f : A -> list B) (l : list A) n :
  (forall x, x ∈ l -> length (f x) <= n) -> length (l ≫= f) <= length l * n.
Proof.
  induction l as [|x l IH]; intros Hn; [done|]. rewrite bind_cons, length_app. simpl.
  pose proof (Hn x ltac:(by left)). specialize (IH (λ y Hy, Hn y ltac:(by right))). lia.
Qed.

Lemma plan_steps_bound (t : Task) (ps : list DeploymentPlan) c :
  length (select_where c ps ≫= λ p, pair t <$> stable_sort plan_step_less (plan_Steps p))
  <= sum_list ((λ p, length (plan_Steps p)) <$> ps).
Proof.
  induction ps as [|p ps IH]; [done|]. unfold select_where in *. rewrite fmap_cons. simpl.
  destruct (c p); [|lia]. rewrite bind_cons, length_app, length_fmap, length_stable_sort. lia.
Qed.

Lemma step_rows_bound l ps :
  length (step_rows l ps) <= length l * sum_list ((λ p, length (plan_Steps p)) <$> ps).
Proof. apply length_bind_le. intros t _. apply plan_steps_bound. Qed.

Lemma created_steps_app :
  exists rows p, length rows <= key_bound s
    /\ StepRuns s' = StepRuns s ++ List.filter p (imap (new_step_run env) rows).
Proof.
  pose proof (created_selected env r plan s s' Hinv Hf Hc) as Hsel.
  pose proof (created_by_in _ _ _ _ _ Hc) as Hin.
  pose proof Hc as [_ _ _ _ _ (s2 & s3 & E1 & E2 & E3)].
  apply apply_policies_spec in E1 as (_ & Hth & _); [|by apply inv_inserted].
  destruct (thinned_frame _ _ _ _ Hth) as (_ & EST & EP & _).
  apply markExecuted_inv in E3. unfold insertStepRunsForTasks in E2. injection E2 as <-.
  rewrite E3 in Hsel. simpl in Hsel, EP. rewrite E3. simpl. rewrite EST, Hsel, EP.
  exists (step_rows (new_rows env r plan s) (Plans s)). eexists. split; [|done].
  rewrite step_rows_bound. unfold key_bound.
  assert (length (new_rows env r plan s) <= length (plan_Targets plan)) as Hl.
  { unfold new_rows, select_where. rewrite (sublist_length _ _ (sublist_filter_bool _ _)).
    by rewrite length_imap, length_stable_sort. }
  pose proof (sum_list_elem (λ p, length (plan_Targets p)) _ _ Hin) as Ht. simpl in Ht. nia.
Qed.

Lemma created_events : Events s' = Events s.
Proof.
  pose proof Hc as [_ _ _ _ _ (s2 & s3 & E1 & E2 & E3)].
  apply apply_policies_spec in E1 as (_ & Hth & _); [|by apply inv_inserted; [eapply created_by_in|..]].
  destruct (thinned_frame _ _ _ _ Hth) as (_ & _ & _ & _ & EE & _).
  apply markExecuted_inv in E3. unfold insertStepRunsForTasks in E2. injection E2 as <-. by rewrite E3.
Qed.

Lemma progress_created : progress s s'.
Proof.
  split.
  - destruct (created_tasks env r plan s s' Hinv Hf Hc) as (kept & -> & Hk).
    exists kept, (new_rows env r plan s). split; [done|]. eapply Forall2_impl; [exact Hk|].
    intros t t' [->|[-> (lock & _ & _ & _ & Hq & _)]]; split_and!; try done; [apply task_edge_refl|].
    unfold task_edge. by rewrite Hq.
  - destruct created_steps_app as (rows & p & _ & ->). exists (StepRuns s). eexists. split; [done|].
    apply step_moves_refl.
Qed.

Lemma unique_created : steps_unique s -> steps_unique s'.
Proof.
  unfold steps_unique. intros Hu. destruct created_steps_app as (rows & p & Hb & ->).
  destruct Hf as [_ _ Hinj Hnew]. rewrite fmap_app. apply NoDup_app. split_and!; [done| |].
  - intros x Hx (u & -> & Hin)%list_elem_of_fmap.
    apply list_elem_of_In, filter_In in Hin as [Hin _]. apply list_elem_of_In in Hin.
    apply elem_of_lookup_imap in Hin as (i & [t d] & -> & Hi). apply lookup_lt_Some in Hi.
    apply (Hnew i); [lia|done].
  - eapply sublist_NoDup; [|apply fmap_sublist, sublist_filter_bool]. rewrite fmap_imap.
    apply NoDup_imap. intros i j [t d] [t' d'] Hi%lookup_lt_Some Hj%lookup_lt_Some. apply Hinj; lia.
Qed.
End creation_progress.

(** *** The events table *)

Lemma status_events env id org st s s' :
  updateTaskStatus env id org st s = Ok (tt, s') -> Events s' = Events s.
Proof.
  unfold updateTaskStatus, releaseActiveTaskLeasesForTask, releaseTaskResourceLocks. intros E. tx_inv.
  destruct (task_status_terminal st); by tx_inv.
Qed.

Lemma acquire_events env id org s s' : acquireTaskResourceLocks env id org s = Ok (tt, s') -> Events s' = Events s.
Proof. by intros (_ & _ & _ & _ & _ & ? & _)%acquireTaskResourceLocks_inv. Qed.

Lemma expired_events env id org s n s' :
  releaseExpiredTaskLeasesAndNextAttempt env id org s = Ok (n, s') -> Events s' = Events s.
Proof. by intros (_ & _ & _ & _ & ? & _)%releaseExpired_inv. Qed.

Lemma transition_events env r s res s' : TransitionTaskState env r s = (res, s') -> Events s' = Events s.
Proof.
  unfold TransitionTaskState. destruct (validateTransitionTaskStateRequest r); [|by intros [= _ <-]].
  intros [(h & -> & E)|(e & _ & _ & ->)]%RunTx_cases; [|done].
  apply tx_bind_ok in E as (st & s1 & [-> _]%getTaskStatusForUpdate_inv & E).
  destruct (isAllowedTaskTransition _ _); [|by tx_inv].
  apply tx_bind_ok in E as (? & s2 & [= _ <-] & E). apply tx_bind_ok in E as ([] & s2 & E1 & E).
  apply tx_bind_ok in E as ([] & s3 & E2 & ->%getTask_state). apply status_events in E2 as ->.
  case_bool_decide; [by eapply acquire_events|by injection E1 as <-].
Qed.

Lemma step_run_events env r s res s' : TransitionStepRunState env r s = (res, s') -> Events s' = Events s.
Proof.
  unfold TransitionStepRunState. destruct (validateTransitionStepRunStateRequest r); [|by intros [= _ <-]].
  intros [(h & -> & E)|(e & _ & _ & ->)]%RunTx_cases; [|done].
  apply tx_bind_ok in E as (st & s1 & E1 & E). unfold getStepRunStatusForUpdate in E1.
  destruct (select_where _ (StepRuns s)); [done|]. injection E1 as _ <-.
  destruct (isAllowedStepRunTransition _ _); [|by tx_inv].
  apply tx_bind_ok in E as (? & s2 & [= _ <-] & E).
  apply tx_bind_ok in E as ([] & s2 & ->%updateStepRunStatus_inv & E).
  unfold getStepRun in E. destruct (select_where _ _) as [|? [|]]; [done| |done]. by injection E as _ <-.
Qed.

Lemma candidate_events `{Crypto} `{SecretResolver} env t e s x s' :
  task_Status t = TaskStatusQueued \/ task_Status t = TaskStatusRunning ->
  leaseTaskCandidate env t e s = Ok (x, s') -> Events s' = Events s.
Proof.
  intros Hst [(_ & [->|(_ & n & E)])|(lease & n & s1 & _ & _ & Hs & E)]%leaseTaskCandidate_cases;
    [done|by eapply expired_events| |done].
  apply grant_lease_inv in E as [(_ & _ & _ & _ & _ & -> & _)%insertTaskLease_inv _].
  destruct Hs as [[_ ->%expired_events]|(_ & sa & sb & Ea & Eb & ->%expired_events)]; [done|].
  apply status_events in Eb as ->. by eapply acquire_events.
Qed.

Lemma agent_lease_events `{Crypto} `{SecretResolver} env r s res s' :
  LeaseAgentTask env r s = (res, s') -> Events s' = Events s.
Proof.
  unfold LeaseAgentTask. destruct (validateLeaseAgentTaskRequest r); [|by intros [= _ <-]].
  intros [(x & -> & E)|(e & _ & _ & ->)]%RunTx_cases; [|done].
  destruct (getNextTaskLeaseCandidateForUpdate _ _ _ s) as [t|] eqn:Et; [|by injection E as _ <-].
  apply first_task_elem in Et as [_ Hc]. to_prop. eapply candidate_events; eauto using lease_candidate_status.
Qed.

Lemma hub_lease_events `{Crypto} `{SecretResolver} env s res s' :
  LeaseHubTask env s = (res, s') -> Events s' = Events s.
Proof.
  unfold LeaseHubTask. intros [(x & -> & E)|(e & _ & _ & ->)]%RunTx_cases; [|done].
  destruct (getNextHubTaskLeaseCandidateForUpdate _ s) as [t|] eqn:Et; [|by injection E as _ <-].
  apply first_task_elem in Et as [_ Hc]. eapply candidate_events; eauto using lease_candidate_status.
Qed.

Lemma apply_transition_events `{Crypto} `{SecretResolver} env target r s s1 :
  applyStepRunEventTransition env target r s = Ok (tt, s1) -> Events s1 = Events s.
Proof.
  intros (_ & sm & Hs & Ht)%transition_tables.
  assert (Events sm = Events s) as <-. { destruct Hs as [->|(st & _ & ->%updateStepRunStatus_inv)]; done. }
  destruct Ht as [->|(st & _ & E)]; [done|by eapply status_events].
Qed.

(** A recorded event is new at the end of the table, or was there before. *)
Lemma record_events `{Crypto} `{SecretResolver} `{EventPreparer} env request e s res s' :
  recordStepRunEvent env request e s = (res, s') ->
  Events s' = Events s
  \/ exists r p taskID leaseID, Events s' = Events s ++ [new_event env r p taskID leaseID]
     /\ ev_Sequence r
        = (getMaxStepRunEventSequence (ev_OrganizationID r) (ev_StepRunID r) leaseID s + 1)%Z.
Proof.
  intros E. destruct res as [v|err]; [|apply recordStepRunEvent_err in E as ->; by left].
  apply recordStepRunEvent_inv in E as (r & target & lease & secrets & p & _ & _ & _ & _ & _ & _ & E).
  apply record_event_cases in E as [(-> & _)|(_ & _ & _ & Hseq & -> & s1 & s2 & E1 & E2 & E3)]; [by left|].
  right. exists r, p, (tg_TaskID target), (lease_ID lease). split; [|done].
  apply apply_transition_events in E1. unfold insertStepRunEvent in E2. injection E2 as <-.
  rewrite <- E1. destruct E3 as [->|(_ & _ & ->)%releaseBatch_tables]; done.
Qed.

(** *** The leases table: rows keep their keys *)

Definition lease_key (l : TaskLease) : uuid * uuid * uuid * uuid * TaskExecutorType * string :=
  (lease_ID l, lease_OrganizationID l, lease_AgentID l, lease_TaskID l, lease_ExecutorType l, lease_TokenHash l).

Definition leases_kept (s s' : db) : Prop := extends (λ l m, lease_key m = lease_key l) (Leases s) (Leases s').

Lemma leases_same s s' : Leases s' = Leases s -> leases_kept s s'.
Proof. intros E. unfold leases_kept. rewrite E. by apply extends_Forall2, Forall_Forall2_diag, Forall_forall. Qed.

Lemma leases_update c f s s' :
  (forall l, lease_key (f l) = lease_key l) -> Leases s' = update_where c f (Leases s) -> leases_kept s s'.
Proof.
  intros Hf E. unfold leases_kept. rewrite E. apply extends_Forall2, Forall2_update_where. intros l _.
  by destruct (c l).
Qed.

Lemma leases_append s s' l : Leases s' = Leases s ++ l -> leases_kept s s'.
Proof.
  intros E. exists (Leases s), l. split; [done|]. by apply Forall_Forall2_diag, Forall_forall.
Qed.

Lemma leases_trans s1 s2 s3 : leases_kept s1 s2 -> leases_kept s2 s3 -> leases_kept s1 s3.
Proof.
  intros (k1 & n1 & E1 & F1) (k2 & n2 & E2 & F2). unfold leases_kept. rewrite E1 in F2.
  apply Forall2_app_inv_l in F2 as (k3 & k4 & F3 & _ & ->). exists k3, (k4 ++ n2).
  split; [by rewrite E2, <- app_assoc|]. eapply Forall2_compose; [|exact F1|exact F3]. intros; congruence.
Qed.

Lemma status_leases env id org st s s' : updateTaskStatus env id org st s = Ok (tt, s') -> leases_kept s s'.
Proof.
  destruct (task_status_terminal st) eqn:E.
  - intros [(_ & _ & EL) _]%updateTaskStatus_terminal; [|done]. eapply leases_update; [|exact EL].
    intros l. cbv beta. by destruct (is_null (lease_ReleasedAt l)).
  - unfold updateTaskStatus. rewrite E. intros Ex. tx_inv. by apply leases_same.
Qed.

Lemma acquire_leases env id org s s' : acquireTaskResourceLocks env id org s = Ok (tt, s') -> leases_kept s s'.
Proof. intros (_ & E & _)%acquireTaskResourceLocks_inv. by apply leases_same. Qed.

Lemma expired_leases env id org s n s' :
  releaseExpiredTaskLeasesAndNextAttempt env id org s = Ok (n, s') -> leases_kept s s'.
Proof. intros (_ & _ & _ & _ & _ & E & _)%releaseExpired_inv. by eapply leases_update; [|exact E]. Qed.

Lemma transition_leases env r s res s' : TransitionTaskState env r s = (res, s') -> leases_kept s s'.
Proof.
  unfold TransitionTaskState.
  destruct (validateTransitionTaskStateRequest r); [|intros [= _ <-]; by apply leases_same].
  intros [(h & -> & E)|(e & _ & _ & ->)]%RunTx_cases; [|by apply leases_same].
  apply tx_bind_ok in E as (st & s1 & [-> _]%getTaskStatusForUpdate_inv & E).
  destruct (isAllowedTaskTransition _ _); [|by tx_inv].
  apply tx_bind_ok in E as (? & s2 & [= _ <-] & E). apply tx_bind_ok in E as ([] & s2 & E1 & E).
  apply tx_bind_ok in E as ([] & s3 & E2 & ->%getTask_state). eapply leases_trans; [|by eapply status_leases].
  case_bool_decide; [by eapply acquire_leases|injection E1 as <-; by apply leases_same].
Qed.

Lemma step_run_leases env r s res s' : TransitionStepRunState env r s = (res, s') -> leases_kept s s'.
Proof.
  unfold TransitionStepRunState.
  destruct (validateTransitionStepRunStateRequest r); [|intros [= _ <-]; by apply leases_same].
  intros [(h & -> & E)|(e & _ & _ & ->)]%RunTx_cases; [|by apply leases_same].
  apply tx_bind_ok in E as (st & s1 & E1 & E). unfold getStepRunStatusForUpdate in E1.
  destruct (select_where _ (StepRuns s)); [done|]. injection E1 as _ <-.
  destruct (isAllowedStepRunTransition _ _); [|by tx_inv].
  apply tx_bind_ok in E as (? & s2 & [= _ <-] & E).
  apply tx_bind_ok in E as ([] & s2 & ->%updateStepRunStatus_inv & E).
  unfold getStepRun in E. destruct (select_where _ _) as [|? [|]]; [done| |done]. injection E as _ <-.
  by apply leases_same.
Qed.

Lemma candidate_leases `{Crypto} `{SecretResolver} env t e s x s' :
  task_Status t = TaskStatusQueued \/ task_Status t = TaskStatusRunning ->
  leaseTaskCandidate env t e s = Ok (x, s') -> leases_kept s s'.
Proof.
  intros Hst [(_ & [->|(_ & n & E)])|(lease & n & s1 & _ & _ & Hs & E)]%leaseTaskCandidate_cases;
    [by apply leases_same|by eapply expired_leases| |done].
  apply grant_lease_inv in E as [(_ & _ & _ & _ & _ & _ & EL)%insertTaskLease_inv _].
  eapply leases_trans; [|by eapply leases_append].
  destruct Hs as [[_ E]|(_ & sa & sb & Ea & Eb & E)]; [by eapply expired_leases|].
  eapply leases_trans; [by eapply acquire_leases|]. eapply leases_trans; [by eapply status_leases|].
  by eapply expired_leases.
Qed.

Lemma agent_lease_leases `{Crypto} `{SecretResolver} env r s res s' :
  LeaseAgentTask env r s = (res, s') -> leases_kept s s'.
Proof.
  unfold LeaseAgentTask. destruct (validateLeaseAgentTaskRequest r); [|intros [= _ <-]; by apply leases_same].
  intros [(x & -> & E)|(e & _ & _ & ->)]%RunTx_cases; [|by apply leases_same].
  destruct (getNextTaskLeaseCandidateForUpdate _ _ _ s) as [t|] eqn:Et; [|injection E as _ <-; by apply leases_same].
  apply first_task_elem in Et as [_ Hc]. to_prop. eapply candidate_leases; eauto using lease_candidate_status.
Qed.

Lemma hub_lease_leases `{Crypto} `{SecretResolver} env s res s' :
  LeaseHubTask env s = (res, s') -> leases_kept s s'.
Proof.
  unfold LeaseHubTask. intros [(x & -> & E)|(e & _ & _ & ->)]%RunTx_cases; [|by apply leases_same].
  destruct (getNextHubTaskLeaseCandidateForUpdate _ s) as [t|] eqn:Et; [|injection E as _ <-; by apply leases_same].
  apply first_task_elem in Et as [_ Hc]. eapply candidate_leases; eauto using lease_candidate_status.
Qed.

Lemma heartbeat_leases `{Crypto} `{SecretResolver} env org target id token e s res s' :
  heartbeatTaskLease env org target id token e s = (res, s') -> leases_kept s s'.
Proof.
  unfold heartbeatTaskLease. intros [(x & -> & E)|(err & _ & _ & ->)]%RunTx_cases; [|by apply leases_same].
  apply tx_bind_ok in E as (st & s1 & [-> _]%getTaskStatusForUpdate_inv & E).
  destruct (negb _); [done|]. apply tx_bind_ok in E as ([leaseID expired] & s2 & E1 & E).
  unfold getActiveTaskLeaseIDForHeartbeat in E1. destruct (select_where _ _); [done|].
  injection E1 as _ _ <-. destruct expired; [done|].
  apply tx_bind_ok in E as ([] & s3 & E1 & ->%getTaskLease_state). injection E1 as <-.
  by eapply leases_update; [|simpl; reflexivity].
Qed.

Lemma record_leases `{Crypto} `{SecretResolver} `{EventPreparer} env request e s res s' :
  recordStepRunEvent env request e s = (res, s') -> leases_kept s s'.
Proof.
  intros E. destruct res as [v|err]; [|apply recordStepRunEvent_err in E as ->; by apply leases_same].
  apply recordStepRunEvent_inv in E as (r & target & lease & secrets & p & _ & _ & _ & _ & _ & _ & E).
  apply record_event_cases in E as [(-> & _)|(_ & _ & _ & _ & _ & s1 & s2 & E1 & E2 & E3)]; [by apply leases_same|].
  apply leases_trans with s1.
  - apply transition_tables in E1 as (_ & sm & Hs & Ht). apply leases_trans with sm.
    + destruct Hs as [->|(st & _ & ->%updateStepRunStatus_inv)]; by apply leases_same.
    + destruct Ht as [->|(st & _ & E)]; [by apply leases_same|by eapply status_leases].
  - unfold insertStepRunEvent in E2. injection E2 as _ <-. destruct E3 as [->|E3]; [by apply leases_same|].
    injection E3 as <-. by eapply leases_update; [|simpl; reflexivity].
Qed.

(** ** The transition system *)

(** The numbers of the events of a step run under a lease are 1, 2, ..., n. *)
Definition events_contiguous (s : db) : Prop :=
  forall org stepRunID leaseID,
    event_Sequence <$> select_where (events_where org stepRunID leaseID) (Events s)
    = Z.of_nat <$> seq 1 (length (select_where (events_where org stepRunID leaseID) (Events s))).

Section system.
Context `{Crypto} `{SecretResolver} `{EventPreparer} `{PreflightGate}.

(** One call, whatever its result. Plans and bundles are also written by other
    parts of the program. *)
Inductive task_step (s : db) : db -> Prop :=
| step_create env r res s' :
    fresh_env env s -> CreateTasksForDeploymentPlan env r s = (res, s') -> task_step s s'
| step_transition env r res s' : TransitionTaskState env r s = (res, s') -> task_step s s'
| step_step_run env r res s' : TransitionStepRunState env r s = (res, s') -> task_step s s'
| step_lease_agent env r res s' : LeaseAgentTask env r s = (res, s') -> task_step s s'
| step_lease_hub env res s' : LeaseHubTask env s = (res, s') -> task_step s s'
| step_heartbeat_agent env r res s' : HeartbeatAgentTaskLease env r s = (res, s') -> task_step s s'
| step_heartbeat_hub env r res s' : HeartbeatHubTaskLease env r s = (res, s') -> task_step s s'
| step_event_agent env r res s' : RecordAgentStepRunEvent env r s = (res, s') -> task_step s s'
| step_event_hub env r res s' : RecordHubStepRunEvent env r s = (res, s') -> task_step s s'
| step_plans plans : task_step s (set_plans plans s)
| step_bundles bundles : task_step s (set_bundles bundles s).

Definition init : db :=
  {| Tasks := []; Locks := []; StepRuns := []; Leases := []; Plans := []; Bundles := []; Events := [];
     LogChunks := []; Outputs := []; queue_order_seq := 0 |}.

Definition reachable (s : db) : Prop := rtc task_step init s.

Record sys_inv (s : db) : Prop := {
  sys_tasks : task_inv s;
  sys_steps : steps_unique s;
  sys_events : events_contiguous s;
}.

(** Progress keeps the keys of the step runs when no rows are added. *)
Lemma heartbeat_either env org target id token e (m : result apierror unit) res s s' :
  match m with Err err => (Err err, s) | Ok _ => heartbeatTaskLease env org target id token e s end = (res, s') ->
  s' = s \/ exists res', heartbeatTaskLease env org target id token e s = (res', s').
Proof. destruct m; [intros E; right; by exists res|intros [= _ <-]; by left]. Qed.

(** A step creates tasks or moves the existing rows. *)
Lemma step_cases s s' :
  sys_inv s -> task_step s s' ->
  moves s s' \/ exists env r plan, fresh_env env s /\ created_by env r plan s s'.
Proof.
  intros [Hinv Hu _] Hstep. destruct Hstep as [env r res s' Hf E|env r res s' E|env r res s' E|env r res s' E|
    env res s' E|env r res s' E|env r res s' E|env r res s' E|env r res s' E|plans|bundles].
  - apply create_tasks_cases in E as [(_ & _ & -> & _)|[(plan & _ & Hc & _)|(_ & _ & ->)]];
      [left; by apply moves_same|right; by exists env, r, plan|left; by apply moves_same].
  - left. by eapply moves_task.
  - left. by eapply moves_step_run.
  - left. by eapply moves_agent_lease.
  - left. by eapply moves_hub_lease.
  - left. apply heartbeat_either in E as [->|[res' (ET & ES & _)%heartbeat_tables]]; by apply moves_same.
  - left. apply heartbeat_either in E as [->|[res' (ET & ES & _)%heartbeat_tables]]; by apply moves_same.
  - left. by eapply moves_record.
  - left. by eapply moves_record.
  - left. by apply moves_same.
  - left. by apply moves_same.
Qed.

Lemma step_progress s s' : sys_inv s -> task_step s s' -> progress s s'.
Proof.
  intros Hi Hstep. pose proof (sys_tasks s Hi). apply step_cases in Hstep as [Hm|(env & r & plan & Hf & Hc)]; [| |done].
  - by apply moves_progress.
  - by eapply progress_created.
Qed.

Lemma inv_step s s' : task_inv s -> task_step s s' -> task_inv s'.
Proof.
  intros Hinv Hstep. destruct Hstep as [env r res s' Hf E|env r res s' E|env r res s' E|env r res s' E|
    env res s' E|env r res s' E|env r res s' E|env r res s' E|env r res s' E|plans|bundles].
  - by eapply inv_CreateTasksForDeploymentPlan.
  - by eapply inv_TransitionTaskState.
  - by eapply inv_TransitionStepRunState.
  - by eapply inv_LeaseAgentTask.
  - by eapply inv_LeaseHubTask.
  - apply heartbeat_either in E as [->|[res' E]]; [done|by eapply inv_heartbeatTaskLease].
  - apply heartbeat_either in E as [->|[res' E]]; [done|by eapply inv_heartbeatTaskLease].
  - by eapply inv_recordStepRunEvent.
  - by eapply inv_recordStepRunEvent.
  - by apply (task_inv_frame s).
  - by apply (task_inv_frame s).
Qed.

Lemma unique_step s s' : sys_inv s -> task_step s s' -> steps_unique s'.
Proof.
  intros Hi Hstep. pose proof (sys_tasks s Hi). pose proof (sys_steps s Hi) as Hu.
  apply step_cases in Hstep as [[_ Hm]|(env & r & plan & Hf & Hc)]; [|by eapply unique_created|done].
  unfold steps_unique in *. replace (sr_ID <$> StepRuns s') with (sr_ID <$> StepRuns s); [done|].
  clear -Hm. induction Hm as [|r r' l l' (E & _) _ IH]; [done|]. by rewrite !fmap_cons, E, IH.
Qed.

Lemma events_step s s' :
  task_inv s -> task_step s s' ->
  Events s' = Events s
  \/ exists env r p taskID leaseID, Events s' = Events s ++ [new_event env r p taskID leaseID]
     /\ ev_Sequence r
        = (getMaxStepRunEventSequence (ev_OrganizationID r) (ev_StepRunID r) leaseID s + 1)%Z.
Proof.
  intros Hinv Hstep. destruct Hstep as [env r res s' Hf E|env r res s' E|env r res s' E|env r res s' E|
    env res s' E|env r res s' E|env r res s' E|env r res s' E|env r res s' E|plans|bundles];
    [left|left|left|left|left|left|left| | |by left|by left].
  - apply create_tasks_cases in E as [(_ & _ & -> & _)|[(plan & _ & Hc & _)|(_ & _ & ->)]];
      [done|by eapply created_events|done].
  - by eapply transition_events.
  - by eapply step_run_events.
  - by eapply agent_lease_events.
  - by eapply hub_lease_events.
  - apply heartbeat_either in E as [->|[res' (_ & _ & EE)%heartbeat_tables]]; done.
  - apply heartbeat_either in E as [->|[res' (_ & _ & EE)%heartbeat_tables]]; done.
  - apply record_events in E as [?|?]; [by left|right; by exists env].
  - apply record_events in E as [?|?]; [by left|right; by exists env].
Qed.

Lemma foldl_max_seq n k : foldl Z.max (Z.of_nat k) (Z.of_nat <$> seq (S k) n) = Z.of_nat (k + n).
Proof.
  revert k. induction n as [|n IH]; intros k; simpl; [f_equal; lia|].
  replace (Z.of_nat k `max` Z.of_nat (S k))%Z with (Z.of_nat (S k)) by lia. rewrite IH. f_equal. lia.
Qed.

Lemma max_sequence_contiguous s org stepRunID leaseID :
  events_contiguous s ->
  getMaxStepRunEventSequence org stepRunID leaseID s
  = Z.of_nat (length (select_where (events_where org stepRunID leaseID) (Events s))).
Proof.
  intros Hc. unfold getMaxStepRunEventSequence. rewrite (Hc org stepRunID leaseID).
  destruct (length _) as [|n]; [done|]. simpl seq. rewrite fmap_cons. apply (foldl_max_seq n 1).
Qed.

Lemma contiguous_step s s' : task_inv s -> events_contiguous s -> task_step s s' -> events_contiguous s'.
Proof.
  intros Hinv Hc [E|(env & r & p & taskID & leaseID & E & Hseq)]%events_step; [| |done].
  - unfold events_contiguous. rewrite E. exact Hc.
  - intros org stepRunID lease. rewrite E. unfold select_where. rewrite List.filter_app. simpl.
    destruct (events_where org stepRunID lease _) eqn:Ew; [|rewrite app_nil_r; apply Hc].
    unfold events_where in Ew. simpl in Ew. to_prop. subst.
    rewrite fmap_app, length_app. simpl. rewrite Nat.add_1_r, seq_S, fmap_app.
    rewrite max_sequence_contiguous in Hseq by done. unfold select_where in Hseq.
    f_equal; [apply Hc|]. simpl. f_equal. rewrite Hseq. lia.
Qed.

Lemma sys_inv_init : sys_inv init.
Proof.
  split; [|by apply NoDup_nil_2|done].
  constructor; simpl; try (by constructor); try (intros x Hx; by apply elem_of_nil in Hx).
  intros l m Hl. by apply elem_of_nil in Hl.
Qed.

Lemma sys_inv_step s s' : sys_inv s -> task_step s s' -> sys_inv s'.
Proof.
  intros Hi Hstep. pose proof Hi as [Ht Hu He]. split.
  - by eapply inv_step.
  - by eapply unique_step.
  - by eapply contiguous_step.
Qed.

Lemma sys_inv_steps s s' : sys_inv s -> rtc task_step s s' -> sys_inv s'.
Proof. intros Hi Hs. induction Hs; eauto using sys_inv_step. Qed.

Lemma sys_inv_reachable s : reachable s -> sys_inv s.
Proof. apply sys_inv_steps, sys_inv_init. Qed.

Lemma leases_step s s' : task_inv s -> task_step s s' -> leases_kept s s'.
Proof.
  intros Hinv Hstep. destruct Hstep as [env r res s' Hf E|env r res s' E|env r res s' E|env r res s' E|
    env res s' E|env r res s' E|env r res s' E|env r res s' E|env r res s' E|plans|bundles].
  - apply create_tasks_cases in E as [(_ & _ & -> & _)|[(plan & _ & Hc & _)|(_ & _ & ->)]];
      [by apply leases_same| |by apply leases_same].
    apply leases_same. destruct (created_by_spec env r plan s s' Hinv Hf Hc) as (_ & s2 & Hth & _ & _ & _ & ->).
    by destruct (thinned_frame _ _ _ _ Hth) as (-> & _).
  - by eapply transition_leases.
  - by eapply step_run_leases.
  - by eapply agent_lease_leases.
  - by eapply hub_lease_leases.
  - apply heartbeat_either in E as [->|[res' E]]; [by apply leases_same|by eapply heartbeat_leases].
  - apply heartbeat_either in E as [->|[res' E]]; [by apply leases_same|by eapply heartbeat_leases].
  - by eapply record_leases.
  - by eapply record_leases.
  - by apply leases_same.
  - by apply leases_same.
Qed.
End system.
