(* ===== verification/TaskGuarantees.v ===== *)
(** * What the task system guarantees

    The properties of the reachable states and of the operations that executors
    and operators rely on, each with a concrete run of the system. *)
From S2P Require Import Prelude GoStrings Uuid TaskStore TaskQueue TaskLeases StepEvents TaskSystem TaskCreation TaskSteps.
Open Scope list_scope.

(** ** A concrete system

    One plan for two targets with a step each, a published bundle, and the
    library functions instantiated by simple ones. *)

Module Demo.
#[export] Instance crypto : Crypto := {| sha256_hex := λ s, s |}.
#[export] Instance secrets : SecretResolver := {| resolveTaskLeaseStepSecrets := λ _ _, Ok [] |}.
#[export] Instance preparer : EventPreparer := {|
  step_secrets := λ _ _, Ok [];
  prepare := λ r _, Ok {| p_PayloadHash := ev_Message r; p_Logs := []; p_Outputs := [] |};
|}.
#[export] Instance gate : PreflightGate := {| evaluateAndPersistDeploymentPreflight := λ _ _, Ok (true, "") |}.

Definition org := uid 1.
Definition target (n : N) := uid (10 + n).

Definition env (time : Z) : tx_env :=
  {| now := time; fresh_task i := uid (100 + N.of_nat i); fresh_step i := uid (200 + N.of_nat i);
     fresh_lease := uid (300 + Z.to_N time); fresh_event := uid (400 + Z.to_N time);
     random_token := "token" +:+ itoa time |}.

Definition plan : DeploymentPlan :=
  {| plan_ID := uid 2; plan_OrganizationID := org; plan_Status := PlanReady; plan_ApplicationID := uid 3;
     plan_ReleaseBundleID := uid 4; plan_ChannelID := uid 5; plan_EnvironmentID := uid 6;
     plan_Targets := [{| pt_ID := uid 21; pt_DeploymentTargetID := target 1; pt_SortOrder := 1 |};
                      {| pt_ID := uid 22; pt_DeploymentTargetID := target 2; pt_SortOrder := 0 |}];
     plan_TargetComponents := [];
     plan_Steps := [{| ps_ID := uid 31; ps_StepKey := "deploy"; ps_Name := "Deploy"; ps_ActionType := "helm";
                       ps_ExecutionLocation := "target"; ps_Included := true; ps_ExcludedReason := "";
                       ps_Dependencies := []; ps_SortOrder := 0 |}] |}.

Definition bundle : ReleaseBundle :=
  {| bundle_ID := uid 4; bundle_OrganizationID := org; bundle_Status := BundlePublished |}.

(** The additional resource that the tasks of a request share. *)
Definition create_request (policy : TaskConcurrencyPolicy) : CreateTasksForDeploymentPlanRequest :=
  {| ct_OrganizationID := org; ct_DeploymentPlanID := uid 2; ct_ActorUserAccountID := uid 7;
     ct_ConcurrencyPolicy := PolicyQueue;
     ct_AdditionalResources := [{| lr_ResourceType := ResourceCustom; lr_ResourceKey := "db";
                                   lr_ConcurrencyPolicy := policy |}] |}.

Definition s0 : db := set_bundles [bundle] (set_plans [plan] init).
Definition created (policy : TaskConcurrencyPolicy) : db :=
  snd (CreateTasksForDeploymentPlan (env 1) (create_request policy) s0).

Definition agent_request (n : N) : LeaseAgentTaskRequest := {| la_OrganizationID := org; la_AgentID := target n |}.
Definition leased1 (policy : TaskConcurrencyPolicy) : db :=
  snd (LeaseAgentTask (env 2) (agent_request 1) (created policy)).
Definition leased2 (policy : TaskConcurrencyPolicy) : db :=
  snd (LeaseAgentTask (env 3) (agent_request 2) (leased1 policy)).

(** Events of the step run of target 1 (the second task) under its first lease. *)
Definition event (n : Z) (ty : StepRunEventType) : RecordStepRunEventRequest :=
  {| ev_OrganizationID := org; ev_AgentID := target 1; ev_StepRunID := uid 201; ev_LeaseToken := "token2";
     ev_Sequence := n; ev_Type := ty; ev_OccurredAt := None; ev_Message := itoa n;
     ev_ProgressPercent := None; ev_Details := ""; ev_Logs := []; ev_Outputs := [] |}.
Definition step_started : db := snd (RecordAgentStepRunEvent (env 4) (event 1 EventStarted) (leased1 PolicyQueue)).
Definition step_done : db := snd (RecordAgentStepRunEvent (env 5) (event 2 EventSucceeded) step_started).

Lemma s0_reachable : reachable s0.
Proof.
  apply rtc_l with (set_plans [plan] init); [apply step_plans|apply rtc_once, step_bundles].
Qed.

Lemma reachable_step s s' : reachable s -> task_step s s' -> reachable s'.
Proof. intros H1 H2. by eapply rtc_r. Qed.

(** Freshness by computation. *)
Lemma fresh_env_check e s :
  bool_decide (NoDup ((fresh_task e <$> seq 0 (key_bound s)) ++ (task_ID <$> Tasks s))) = true ->
  bool_decide (NoDup ((fresh_step e <$> seq 0 (key_bound s)) ++ (sr_ID <$> StepRuns s))) = true ->
  fresh_env e s.
Proof.
  assert (forall (f : nat -> uuid) n (l : list uuid), NoDup ((f <$> seq 0 n) ++ l) ->
    (forall i j, i < n -> j < n -> f i = f j -> i = j) /\ forall i, i < n -> f i ∉ l) as H.
  { intros f n l (H1 & H2 & _)%NoDup_app. split.
    - intros i j Hi Hj E. apply (NoDup_fmap_elem f _ _ _ H1); [apply elem_of_seq; lia..|done].
    - intros i Hi. apply H2. apply (list_elem_of_fmap_2 f), elem_of_seq. lia. }
  intros [H1 H2]%bool_decide_eq_true_1%H [H3 H4]%bool_decide_eq_true_1%H. by split.
Qed.

Lemma created_reachable policy : reachable (created policy).
Proof.
  eapply reachable_step; [apply s0_reachable|].
  eapply (step_create _ (env 1) (create_request policy)); [by apply fresh_env_check|apply surjective_pairing].
Qed.

Lemma leased1_reachable policy : reachable (leased1 policy).
Proof.
  eapply reachable_step; [apply (created_reachable policy)|].
  eapply (step_lease_agent _ (env 2) (agent_request 1)), surjective_pairing.
Qed.

Lemma leased2_reachable policy : reachable (leased2 policy).
Proof.
  eapply reachable_step; [apply (leased1_reachable policy)|].
  eapply (step_lease_agent _ (env 3) (agent_request 2)), surjective_pairing.
Qed.

Lemma step_started_reachable : reachable step_started.
Proof.
  eapply reachable_step; [apply (leased1_reachable PolicyQueue)|].
  eapply (step_event_agent _ (env 4)), surjective_pairing.
Qed.

Lemma step_done_reachable : reachable step_done.
Proof.
  eapply reachable_step; [apply step_started_reachable|].
  eapply (step_event_agent _ (env 5)), surjective_pairing.
Qed.
End Demo.

(** ** The reachable states *)

Section guarantees.
Context `{Crypto} `{SecretResolver} `{EventPreparer} `{PreflightGate}.

Definition tasks_follow (s s' : db) : Prop :=
  forall t, t ∈ Tasks s -> exists t', t' ∈ Tasks s' /\ task_ID t' = task_ID t
    /\ rtc (λ a b, task_edge a b = true) (task_Status t) (task_Status t').

Definition step_runs_follow (s s' : db) : Prop :=
  forall r, r ∈ StepRuns s -> exists r', r' ∈ StepRuns s' /\ sr_ID r' = sr_ID r
    /\ rtc (λ a b, step_edge a b = true) (sr_Status r) (sr_Status r').

Lemma extends_elem {A} (R : A -> A -> Prop) l l' x :
  extends R l l' -> x ∈ l -> exists x', x' ∈ l' /\ R x x'.
Proof.
  intros (kept & new & -> & HF) [i Hi]%list_elem_of_lookup.
  destruct (Forall2_lookup_l _ _ _ _ _ HF Hi) as (x' & Hx' & HR). exists x'. split; [|done].
  apply elem_of_app. left. by eapply list_elem_of_lookup_2.
Qed.

Lemma steps_follow s s' : sys_inv s -> rtc task_step s s' -> tasks_follow s s' /\ step_runs_follow s s'.
Proof.
  intros Hi Hs. induction Hs as [s|s1 s2 s3 Hstep Hs IH].
  { split; intros x Hx; exists x; done. }
  destruct (IH (sys_inv_step _ _ Hi Hstep)) as [IH1 IH2].
  destruct (step_progress _ _ Hi Hstep) as [Hpt Hps]. split.
  - intros t Ht. destruct (extends_elem _ _ _ _ Hpt Ht) as (u & Hu & Eu & _ & _ & He).
    destruct (IH1 u Hu) as (v & Hv & Ev & Hp). exists v. split_and!; [done|congruence|by eapply rtc_l].
  - intros t Ht. destruct (extends_elem _ _ _ _ Hps Ht) as (u & Hu & Eu & _ & _ & He).
    destruct (IH2 u Hu) as (v & Hv & Ev & Hp). exists v. split_and!; [done|congruence|by eapply rtc_l].
Qed.

Lemma task_edge_terminal a b : task_status_terminal a = true -> task_edge a b = true -> b = a.
Proof. destruct a; try done; intros _; unfold task_edge; simpl; rewrite !orb_false_r; intros E; by to_prop. Qed.

Lemma step_edge_terminal a b : step_status_terminal a = true -> step_edge a b = true -> b = a.
Proof. destruct a; try done; intros _; unfold step_edge; simpl; rewrite !orb_false_r; intros E; by to_prop. Qed.

Lemma absorbing {A} (edge : A -> A -> bool) (stop : A -> bool) a b :
  (forall x y, stop x = true -> edge x y = true -> y = x) ->
  rtc (λ x y, edge x y = true) a b -> stop a = true -> b = a.
Proof.
  intros Hstop Hs. induction Hs as [x|x y z E _ IH]; [done|]. intros Hx.
  pose proof (Hstop _ _ Hx E) as ->. by apply IH.
Qed.

(** C1: mutual exclusion. In every reachable state, when two different running
    tasks have locks on the same resource, one of the two locks has the policy
    ALLOW_PARALLEL. *)
Theorem task_resources_exclusive s l m :
  reachable s -> l ∈ Locks s -> m ∈ Locks s -> same_resource l m = true -> lock_TaskID l <> lock_TaskID m ->
  running s (lock_TaskID l) -> running s (lock_TaskID m) ->
  lock_ConcurrencyPolicy l = PolicyAllowParallel \/ lock_ConcurrencyPolicy m = PolicyAllowParallel.
Proof. intros Hr%sys_inv_reachable%sys_tasks. by apply (inv_exclusive s). Qed.

(** C6: what a task holds. In every reachable state each lock and each lease
    belongs to a task; a running task has acquired all its locks and released
    none; a queued task has acquired none of its locks and has no active lease;
    and a finished or canceled task has released all its locks and all its
    leases. *)
Theorem task_holdings s :
  reachable s ->
  (forall l, l ∈ Locks s -> exists t, t ∈ Tasks s /\ owns t l
     /\ (task_Status t = TaskStatusRunning -> lock_active l = true)
     /\ (task_Status t = TaskStatusQueued -> lock_AcquiredAt l = None /\ lock_ReleasedAt l = None)
     /\ (task_status_terminal (task_Status t) = true -> lock_ReleasedAt l <> None))
  /\ (forall l, l ∈ Leases s -> exists t, t ∈ Tasks s /\ leased t l
     /\ (task_Status t <> TaskStatusRunning -> lease_ReleasedAt l <> None)).
Proof.
  intros Hinv%sys_inv_reachable%sys_tasks. split; intros l Hl.
  - destruct (inv_locks s Hinv l Hl) as (t & Ht & Ho & Hok). exists t. split_and!; try done.
    + intros E. rewrite E in Hok. destruct Hok as [Ha Hr]. unfold lock_active, is_null.
      by rewrite (bool_decide_eq_false_2 _ Ha), (bool_decide_eq_true_2 _ Hr).
    + intros E. by rewrite E in Hok.
    + intros E. by destruct (task_Status t).
  - destruct (inv_leases s Hinv l Hl) as (t & Ht & Ho & Hok). exists t. split_and!; try done. auto.
Qed.


(** Leases are exclusive. In every reachable state a task has at most one
    lease that is not released, and of two leases of a task the later one has
    the higher attempt. *)
Theorem lease_exclusive s i j l m :
  reachable s -> Leases s !! i = Some l -> Leases s !! j = Some m -> lease_TaskID l = lease_TaskID m ->
  (lease_ReleasedAt l = None -> lease_ReleasedAt m = None -> i = j)
  /\ (i < j -> (lease_Attempt l < lease_Attempt m)%Z).
Proof.
  intros Hinv%sys_inv_reachable%sys_tasks Hi Hj E.
  assert (forall i j l m, i < j -> Leases s !! i = Some l -> Leases s !! j = Some m ->
    lease_TaskID l = lease_TaskID m -> (lease_Attempt l < lease_Attempt m)%Z) as Hlt.
  { clear -Hinv. intros i j l m Hij Hi Hj E.
    exact (StronglySorted_lookup_lt _ _ i j l m (inv_attempts s Hinv) Hij Hi Hj E). }
  split; [|intros Hij; by apply (Hlt i j)]. intros Hl Hm.
  assert (l = m) as ->.
  { apply (NoDup_fmap_elem lease_TaskID (select_where active (Leases s))); [apply (inv_active s Hinv)|..|done];
      apply elem_of_select_where; (split; [by eapply list_elem_of_lookup_2|by apply is_null_true]). }
  destruct (Nat.lt_trichotomy i j) as [Hij|[->|Hij]]; [|done|].
  - specialize (Hlt i j m m Hij Hi Hj eq_refl). lia.
  - specialize (Hlt j i m m Hij Hj Hi eq_refl). lia.
Qed.

(** The events of a step run under one lease are numbered 1, 2, 3, ... in
    the order in which they were recorded, without gaps or repetitions. *)
Theorem event_numbers_contiguous s org stepRunID leaseID i v :
  reachable s -> select_where (events_where org stepRunID leaseID) (Events s) !! i = Some v ->
  event_Sequence v = Z.of_nat (S i).
Proof.
  intros Hc%sys_inv_reachable%sys_events Hv. specialize (Hc org stepRunID leaseID).
  assert ((event_Sequence <$> select_where (events_where org stepRunID leaseID) (Events s)) !! i
    = Some (event_Sequence v)) as E by (by rewrite list_lookup_fmap, Hv).
  rewrite Hc, list_lookup_fmap, lookup_seq_lt in E by (by eapply lookup_lt_Some). simpl in E.
  injection E as <-. done.
Qed.
End guarantees.

(** ** Leases *)

Section lease_contract.
Context `{Crypto} `{SecretResolver}.

#[local] Instance task_less_swo : StrictWeakOrder task_less.
Proof. unfold task_less. apply _. Qed.

(** The first candidate of the queue. *)
Lemma first_task_minimal cond s t u :
  first_task cond s = Some t -> u ∈ Tasks s -> cond u = true -> task_less u t = false.
Proof.
  unfold first_task. intros E Hu Hc.
  assert (u ∈ stable_sort task_less (select_where cond (Tasks s))) as Hin
    by (by apply elem_of_stable_sort, elem_of_select_where).
  pose proof (stable_sort_sorted task_less (select_where cond (Tasks s))) as Hs.
  destruct (stable_sort _ _) as [|x l]; [done|]. injection E as ->.
  inversion Hs as [|? ? _ Hall]; subst. rewrite Forall_forall in Hall.
  apply elem_of_cons in Hin as [->|Hin]; [|by apply Hall].
  destruct (task_less t t) eqn:Et; [|done]. by rewrite (swo_asym _ _ Et) in Et.
Qed.

Lemma getTaskLease_inv id org token s x :
  getTaskLease id org token s = Ok (x, s) ->
  lt_Lease x ∈ Leases s /\ lease_ID (lt_Lease x) = id /\ lease_OrganizationID (lt_Lease x) = org
  /\ lt_Token x = token
  /\ (exists steps, getTaskLeaseSteps (ht_Task (lt_Task x)) (ExecutionLocation (lease_ExecutorType (lt_Lease x))) s
        = Ok (steps, s) /\ lt_Steps x = steps)
  /\ ht_Task (lt_Task x) ∈ Tasks s /\ leased (ht_Task (lt_Task x)) (lt_Lease x).
Proof.
  unfold getTaskLease. destruct (select_where _ (Leases s)) as [|l ls] eqn:El; [done|]. intros E.
  assert (l ∈ l :: ls) as Hl by (by left). rewrite <- El in Hl. apply elem_of_select_where in Hl as [Hl Hc]. to_prop.
  apply tx_bind_ok in E as (h & s1 & E1 & E). pose proof E1 as ->%getTask_state.
  apply tx_bind_ok in E as (steps & s2 & E2 & E). injection E as <- ->. simpl.
  pose proof E2 as Es%getTaskLeaseSteps_state.
  apply getTask_inv in E1 as [Hh Hw]. apply task_where_true in Hw. split_and!; try done. by exists steps.
Qed.

Lemma lease_steps_keys t cs steps : lease_steps t cs = Ok steps -> tls_StepKey <$> steps = c_StepKey <$> cs.
Proof.
  revert steps. induction cs as [|c cs IH]; intros steps E; simpl in E; [by injection E as <-|].
  apply result_bind_ok in E as (refs & _ & E). apply result_bind_ok in E as (rest & E1 & E).
  injection E as <-. rewrite !fmap_cons. f_equal. by apply IH.
Qed.

(** The steps of a lease are the ready steps of its task. *)
Definition ready_keys (s : db) (t : Task) (location : string) : list string :=
  c_StepKey <$> readyTaskLeaseStepCandidates
    (ok_or [] (fst <$> getTaskLeaseStepCandidates (task_ID t) (task_OrganizationID t) s)) location.

Lemma lease_steps_ready t location s steps :
  getTaskLeaseSteps t location s = Ok (steps, s) -> tls_StepKey <$> steps = ready_keys s t location.
Proof.
  unfold getTaskLeaseSteps, getReadyTaskLeaseStepCandidates. intros E.
  apply tx_bind_ok in E as (cs & s1 & E1 & E). apply tx_bind_ok in E1 as (cs0 & s2 & E0 & E1).
  injection E1 as <- <-. apply lift_state in E as [E <-]. unfold ready_keys. rewrite E0.
  by apply lease_steps_keys in E.
Qed.

(** What a granted lease is, in the state [s'] after the grant. *)
Record granted (env : tx_env) (t : Task) (e : TaskExecutorType) (s : db) (x : LeasedTask) (s' : db) : Prop := {
  granted_row : lt_Lease x ∈ Leases s';
  granted_active : lease_ReleasedAt (lt_Lease x) = None;
  granted_task : lease_TaskID (lt_Lease x) = task_ID t /\ lease_OrganizationID (lt_Lease x) = task_OrganizationID t;
  granted_executor : lease_AgentID (lt_Lease x) = task_DeploymentTargetID t /\ lease_ExecutorType (lt_Lease x) = e;
  granted_expiry : lease_ExpiresAt (lt_Lease x) = (now env + taskLeaseDuration)%Z;
  granted_token : lease_TokenHash (lt_Lease x) = hashTaskLeaseToken (lt_Token x);
  granted_attempt l : l ∈ Leases s -> lease_TaskID l = task_ID t -> (lease_Attempt l < lease_Attempt (lt_Lease x))%Z;
  granted_alone l : l ∈ Leases s' -> lease_TaskID l = task_ID t -> lease_ReleasedAt l = None -> l = lt_Lease x;
  granted_running : task_ID (ht_Task (lt_Task x)) = task_ID t /\ ht_Task (lt_Task x) ∈ Tasks s'
    /\ task_Status (ht_Task (lt_Task x)) = TaskStatusRunning;
  granted_locks l : l ∈ Locks s' -> lock_TaskID l = task_ID t -> lock_active l = true;
  granted_steps : tls_StepKey <$> lt_Steps x = ready_keys s' (ht_Task (lt_Task x)) (ExecutionLocation e);
}.

(** Both ways to start end with the release of the expired leases. *)
Lemma started_release env t s n s1 :
  started env t s n s1 ->
  exists sb, Leases sb = Leases s
    /\ releaseExpiredTaskLeasesAndNextAttempt env (task_ID t) (task_OrganizationID t) sb = Ok (n, s1).
Proof.
  intros [[_ E]|(_ & sa & sb & Ea & Eb & E)]; [by exists s|]. exists sb. split; [|done].
  apply acquireTaskResourceLocks_inv in Ea as (_ & <- & _). unfold updateTaskStatus in Eb. simpl in Eb. by tx_inv.
Qed.

Lemma started_leases env t s n s1 l :
  task_inv s -> t ∈ Tasks s -> started env t s n s1 -> l ∈ Leases s -> lease_TaskID l = task_ID t ->
  (lease_Attempt l < n)%Z /\ exists l', l' ∈ Leases s1 /\ lease_ID l' = lease_ID l.
Proof.
  intros Hinv Ht Hst Hl Eid.
  destruct (started_release _ _ _ _ _ Hst) as (sb & Eb & E).
  apply releaseExpired_inv in E as (_ & _ & _ & _ & _ & EL & ->). rewrite Eb in *. split.
  - apply max_attempt_spec, elem_of_select_where. split; [done|]. unfold leases_where.
    destruct (inv_leases s Hinv l Hl) as (u & Hu & [Eu1 Eu2] & _).
    assert (t = u) as -> by (apply (task_unique s); [done..|congruence]).
    rewrite Eid, <- Eu2. by rewrite !bool_decide_eq_true_2.
  - exists (if lease_stale env (task_ID t) (task_OrganizationID t) l then release_lease (now env) l else l).
    split; [rewrite EL; apply elem_of_update_where; by exists l|by destruct (lease_stale _ _ _ l)].
Qed.

Lemma started_lease_ids env t s n s1 :
  started env t s n s1 -> lease_ID <$> Leases s1 = lease_ID <$> Leases s.
Proof.
  intros Hst. destruct (started_release _ _ _ _ _ Hst) as (sb & Eb & E).
  apply releaseExpired_inv in E as (_ & _ & _ & _ & _ & -> & _). rewrite Eb. by apply fmap_update_where.
Qed.

Lemma candidate_granted env t e s x s' :
  task_inv s -> t ∈ Tasks s -> fresh_lease env ∉ lease_ID <$> Leases s ->
  task_Status t = TaskStatusQueued \/ task_Status t = TaskStatusRunning ->
  leaseTaskCandidate env t e s = Ok (Some x, s') -> granted env t e s x s'.
Proof.
  intros Hinv Ht Hfresh Hst E. pose proof (inv_leaseTaskCandidate _ _ _ _ _ _ Hinv Ht Hst E) as Hinv'.
  apply leaseTaskCandidate_cases in E as [[? _]|(lease & n & s1 & [= <-] & _ & Hs & E)]; [done| |done].
  apply grant_lease_inv in E as [Ei Eg].
  destruct (inv_started _ _ _ _ _ Hinv Ht Hs) as (Hinv1 & (u & Hu & Hwu & Hru) & Hatt).
  assert (exists_where (λ l, bool_decide (lease_TaskID l = task_ID t) && is_null (lease_ReleasedAt l)) (Leases s1)
    = false) as Hnone.
  { unfold insertTaskLease in Ei. by destruct (exists_where _ _). }
  apply insertTaskLease_inv in Ei as (ET & _ & EL & _ & _ & _ & EE).
  apply getTaskLease_inv in Eg as (Hin & Hid & _ & Htok & (steps & Esteps & Hsteps) & Hht & Hleased).
  set (new := {| lease_ID := fresh_lease env |}) in EE.
  assert (lt_Lease x = new) as Enew.
  { rewrite EE in Hin. apply elem_of_app in Hin as [Hin|Hin]; [|by apply list_elem_of_singleton in Hin].
    exfalso. apply Hfresh. rewrite <- (started_lease_ids _ _ _ _ _ Hs), <- Hid. by apply list_elem_of_fmap_2. }
  assert (task_ID (ht_Task (lt_Task x)) = task_ID t /\ task_Status (ht_Task (lt_Task x)) = TaskStatusRunning) as [Eid Erun].
  { destruct Hleased as [Eid _]. rewrite Enew in Eid. simpl in Eid. split; [done|].
    apply task_where_true in Hwu as [Euid _]. rewrite ET in Hht.
    rewrite <- (task_unique s1 u (ht_Task (lt_Task x))); [done..|congruence]. }
  constructor; rewrite ?Enew; try done.
  - by rewrite <- Enew.
  - by rewrite Htok.
  - intros l Hl El. by destruct (started_leases env t s n s1 l Hinv Ht Hs Hl El).
  - intros l Hl El Hr. rewrite EE in Hl. apply elem_of_app in Hl as [Hl|Hl]; [|by apply list_elem_of_singleton in Hl].
    rewrite exists_where_false in Hnone. specialize (Hnone l Hl).
    by rewrite bool_decide_eq_true_2, (proj2 (is_null_true _) Hr) in Hnone.
  - intros l Hl El. assert (task_ID (ht_Task (lt_Task x)) = lock_TaskID l) as Eo by congruence.
    pose proof (owned_lock_ok s' _ l Hinv' Hht Hl (id_owner s' _ l Hinv' Hht Hl Eo)) as Hok.
    rewrite Erun in Hok. destruct Hok as [Ha Hr]. unfold lock_active, is_null.
    by rewrite (bool_decide_eq_false_2 _ Ha), (bool_decide_eq_true_2 _ Hr).
  - subst steps. rewrite Enew in Esteps. by apply lease_steps_ready in Esteps.
Qed.

(** C4: what an agent's lease promises. When an agent gets a lease, the task is
    one of its own target and organization, queued or running, with a published
    bundle and a runnable step, and no such task comes before it in the queue;
    the task runs and holds all its locks; the lease is the only active one of
    the task, has a higher attempt than every earlier one, expires two minutes
    after the grant and stores the hash of the token; and it lists the steps
    that are ready. *)
Theorem agent_lease_contract env r s x s' :
  task_inv s -> fresh_lease env ∉ lease_ID <$> Leases s ->
  LeaseAgentTask env r s = (Ok (Some x), s') ->
  exists t, t ∈ Tasks s /\ task_OrganizationID t = la_OrganizationID r
  /\ task_DeploymentTargetID t = la_AgentID r /\ lease_candidate (now env) "target" s t = true
  /\ (forall u, u ∈ Tasks s -> task_OrganizationID u = la_OrganizationID r ->
        task_DeploymentTargetID u = la_AgentID r -> lease_candidate (now env) "target" s u = true ->
        task_less u t = false)
  /\ granted env t ExecutorAgent s x s'.
Proof.
  intros Hinv Hfresh. unfold LeaseAgentTask. destruct (validateLeaseAgentTaskRequest r); [|done].
  intros [(y & [= <-] & E)|(e & ? & _)]%RunTx_cases; [|done].
  destruct (getNextTaskLeaseCandidateForUpdate _ _ _ s) as [t|] eqn:Et; [|done]. exists t.
  pose proof Et as [Ht Hc]%first_task_elem. to_prop. split_and!; try done.
  - intros u Hu E1 E2 Hcu. apply (first_task_minimal _ _ _ _ Et); [done|]. by rewrite !bool_decide_eq_true_2, Hcu.
  - eapply candidate_granted; [done..| |done]. by eapply lease_candidate_status.
Qed.

(** The hub's lease promises the same for the first task of any
    organization with a runnable step that is executed by the hub. *)
Theorem hub_lease_contract env s x s' :
  task_inv s -> fresh_lease env ∉ lease_ID <$> Leases s ->
  LeaseHubTask env s = (Ok (Some x), s') ->
  exists t, t ∈ Tasks s /\ lease_candidate (now env) "hub" s t = true
  /\ (forall u, u ∈ Tasks s -> lease_candidate (now env) "hub" s u = true -> task_less u t = false)
  /\ granted env t ExecutorHub s x s'.
Proof.
  intros Hinv Hfresh. unfold LeaseHubTask. intros [(y & [= <-] & E)|(e & ? & _)]%RunTx_cases; [|done].
  destruct (getNextHubTaskLeaseCandidateForUpdate _ s) as [t|] eqn:Et; [|done]. exists t.
  pose proof Et as [Ht Hc]%first_task_elem. split_and!; try done.
  - intros u Hu Hcu. by apply (first_task_minimal _ _ _ _ Et).
  - eapply candidate_granted; [done..| |done]. by eapply lease_candidate_status.
Qed.
End lease_contract.

(** ** Events *)

Section event_guarantees.
Context `{Crypto} `{SecretResolver} `{EventPreparer}.

Lemma validate_trim r r' : validateRecordAgentStepRunEventRequest r = Ok r' -> r' = trim_request r.
Proof. unfold validateRecordAgentStepRunEventRequest. intros E. by inv_result. Qed.

Lemma event_lease_inv r id e s l s' :
  getTaskLeaseForStepRunEvent r id e s = Ok (l, s') ->
  l ∈ Leases s /\ lease_token_where (ev_OrganizationID r) (ev_AgentID r) id e (ev_LeaseToken r) l = true.
Proof.
  unfold getTaskLeaseForStepRunEvent. destruct (select_where _ _) as [|x xs] eqn:E; [done|]. intros [= <- <-].
  rewrite <- elem_of_select_where, E. by left.
Qed.

Lemma getBySequence_elem org stepRunID leaseID n s v :
  getStepRunEventBySequence org stepRunID leaseID n s = Some v -> v ∈ Events s.
Proof. by intros [? _]%head_elem_of%elem_of_select_where. Qed.

(** A lease that no longer counts: released, or past its expiry. *)
Definition stale (now : Z) (l : TaskLease) : Prop := lease_ReleasedAt l <> None \/ lease_expired now l = true.

Lemma heartbeat_stale env org agent id token e s :
  (forall l, l ∈ Leases s -> lease_token_where org agent id e token l = true -> stale (now env) l) ->
  exists err, heartbeatTaskLease env org agent id token e s = (Err err, s).
Proof.
  intros Hstale. destruct (heartbeatTaskLease env org agent id token e s) as [res s'] eqn:E.
  apply RunTx_cases in E as [(x & -> & E)|(err & -> & _ & ->)]; [|by exists err]. exfalso.
  apply tx_bind_ok in E as (st & s1 & [-> _]%getTaskStatusForUpdate_inv & E).
  destruct (negb _); [done|]. apply tx_bind_ok in E as ([leaseID expired] & s2 & E1 & E).
  unfold getActiveTaskLeaseIDForHeartbeat in E1. destruct (select_where _ _) as [|l ls] eqn:El; [done|].
  injection E1 as _ <- <-. assert (l ∈ l :: ls) as Hl by (by left). rewrite <- El in Hl.
  apply elem_of_select_where in Hl as [Hl Hc]. apply andb_true_iff in Hc as [Hc Hn].
  apply is_null_true in Hn. destruct (Hstale l Hl Hc) as [?|He]; [done|]. by rewrite He in E.
Qed.

Lemma record_stale env request e s :
  (forall id l, l ∈ Leases s -> lease_token_where (ev_OrganizationID request) (ev_AgentID request) id e
     (TrimSpace (ev_LeaseToken request)) l = true -> stale (now env) l) ->
  exists res, recordStepRunEvent env request e s = (res, s)
    /\ forall v, res = Ok v -> v ∈ Events s.
Proof.
  intros Hstale. destruct (recordStepRunEvent env request e s) as [res s'] eqn:E. exists res.
  destruct res as [v|err]; [|by apply recordStepRunEvent_err in E as ->].
  apply recordStepRunEvent_inv in E as (r & target & lease & secrets & p & Hv & _ & _ & El & _ & _ & E).
  apply validate_trim in Hv as ->. apply event_lease_inv in El as [Hl Hw].
  apply record_event_cases in E as [(-> & _ & Hv)|(_ & Hr & He & _)].
  - split; [done|]. intros v' [= <-]. by eapply getBySequence_elem.
  - destruct (Hstale _ _ Hl Hw) as [?|He']; [done|congruence].
Qed.

(** C3: fencing. When every lease of a token is released or has expired, a
    heartbeat with that token fails and an event with it changes nothing: the
    event fails too, unless it repeats a recorded one. *)
Theorem stale_lease_fenced env org agent token e s :
  (forall id l, l ∈ Leases s -> lease_token_where org agent id e token l = true -> stale (now env) l) ->
  (forall id, exists err, heartbeatTaskLease env org agent id token e s = (Err err, s))
  /\ (forall request, ev_OrganizationID request = org -> ev_AgentID request = agent ->
        TrimSpace (ev_LeaseToken request) = token ->
        exists res, recordStepRunEvent env request e s = (res, s) /\ forall v, res = Ok v -> v ∈ Events s).
Proof.
  intros Hstale. split.
  - intros id. apply heartbeat_stale. intros l. apply Hstale.
  - intros request <- <- <-. by apply record_stale.
Qed.
End event_guarantees.

(** *** What the system remembers: rows keep their keys, events stay *)

Definition kept {A K} (key : A -> K) (l l' : list A) : Prop := extends (λ x y, key y = key x) l l'.

Lemma kept_refl {A K} (key : A -> K) l : kept key l l.
Proof. by apply extends_Forall2, Forall_Forall2_diag, Forall_forall. Qed.

Lemma kept_trans {A K} (key : A -> K) l1 l2 l3 : kept key l1 l2 -> kept key l2 l3 -> kept key l1 l3.
Proof.
  intros (k1 & n1 & -> & F1) (k2 & n2 & -> & F2).
  apply Forall2_app_inv_l in F2 as (k3 & k4 & F3 & _ & ->). exists k3, (k4 ++ n2).
  split; [by rewrite <- app_assoc|]. eapply Forall2_compose; [|exact F1|exact F3]. intros; congruence.
Qed.

Lemma kept_extends {A K} (key : A -> K) (R : A -> A -> Prop) l l' :
  (forall x y, R x y -> key y = key x) -> extends R l l' -> kept key l l'.
Proof. intros HR (k & n & -> & F). exists k, n. split; [done|]. by eapply Forall2_impl. Qed.

(** The first row of a query over the keys stays the first one. *)
Lemma kept_head {A K} (key : A -> K) (c : A -> bool) l l' x :
  (forall x y, key y = key x -> c y = c x) -> kept key l l' ->
  head (select_where c l) = Some x -> exists y, head (select_where c l') = Some y /\ key y = key x.
Proof.
  intros Hc (k & n & -> & F). induction F as [|a b l k E F IH]; [done|]. unfold select_where in *. simpl.
  rewrite (Hc a b E). destruct (c a); [|done]. simpl. intros [= <-]. by exists b.
Qed.

Definition task_key (t : Task) := (task_ID t, task_OrganizationID t, task_DeploymentTargetID t).
Definition step_key (r : StepRun) := (sr_ID r, sr_OrganizationID r, sr_TaskID r).

Record remembers (s s' : db) : Prop := {
  rem_tasks : kept task_key (Tasks s) (Tasks s');
  rem_steps : kept step_key (StepRuns s) (StepRuns s');
  rem_leases : kept lease_key (Leases s) (Leases s');
  rem_events : kept id (Events s) (Events s');
}.

Section replay.
Context `{Crypto} `{SecretResolver} `{EventPreparer} `{PreflightGate}.

Lemma remembers_step s s' : sys_inv s -> task_step s s' -> remembers s s'.
Proof.
  intros Hi Hs. destruct (step_progress _ _ Hi Hs) as [Hp1 Hp2]. split.
  - eapply kept_extends; [|exact Hp1]. intros t u (E1 & E2 & E3 & _). unfold task_key. congruence.
  - eapply kept_extends; [|exact Hp2]. intros t u (E1 & E2 & E3 & _). unfold step_key. congruence.
  - exact (leases_step _ _ (sys_tasks s Hi) Hs).
  - destruct (events_step _ _ (sys_tasks s Hi) Hs) as [->|(? & ? & ? & ? & ? & -> & _)]; [apply kept_refl|].
    eexists _, _. split; [done|]. by apply Forall_Forall2_diag, Forall_forall.
Qed.

Lemma remembers_steps s s' : sys_inv s -> rtc task_step s s' -> remembers s s'.
Proof.
  intros Hi Hs. induction Hs as [s|s1 s2 s3 Hstep Hs IH]; [split; apply kept_refl|].
  destruct (remembers_step _ _ Hi Hstep) as [A1 A2 A3 A4].
  destruct (IH (sys_inv_step _ _ Hi Hstep)) as [B1 B2 B3 B4]. split; by eapply kept_trans.
Qed.

Lemma target_remembered s s' org stepRunID target :
  sys_inv s' -> remembers s s' ->
  getStepRunEventTargetForUpdate org stepRunID s = Ok (target, s) ->
  exists target', getStepRunEventTargetForUpdate org stepRunID s' = Ok (target', s')
    /\ tg_TaskID target' = tg_TaskID target /\ tg_AgentID target' = tg_AgentID target.
Proof.
  intros Hi [Kt Kr _ _] (r & t & Hr & Hwr & Ht & Hwt & ->)%target_inv. simpl.
  destruct (extends_elem _ _ _ _ Kt Ht) as (t1 & Ht1 & Et), (extends_elem _ _ _ _ Kr Hr) as (r1 & Hr1 & Er).
  injection Et as Et1 Et2 Et3. injection Er as Er1 Er2 Er3.
  apply step_where_true in Hwr as [Ew1 Ew2]. apply task_where_true in Hwt as [Ew3 Ew4].
  destruct (getStepRunEventTargetForUpdate org stepRunID s') as [[target' s'']|err] eqn:E.
  - pose proof (target_state _ _ _ _ _ E) as ->. exists target'. split; [done|].
    apply target_inv in E as (r2 & t2 & Hr2 & Hwr2 & Ht2 & Hwt2 & ->). simpl.
    apply step_where_true in Hwr2 as [Ew5 Ew6]. apply task_where_true in Hwt2 as [Ew7 Ew8].
    assert (r2 = r1) as ->
      by (apply (NoDup_fmap_elem sr_ID _ _ _ (sys_steps s' Hi)); [done..|congruence]).
    assert (t2 = t1) as -> by (apply (task_unique s'); [by apply sys_tasks|done..|congruence]).
    done.
  - exfalso. unfold getStepRunEventTargetForUpdate in E.
    destruct (_ ≫= _) as [|x l] eqn:El; [|done].
    eapply (not_elem_of_nil _). rewrite <- El. apply list_elem_of_bind. exists r1. split.
    + eapply (list_elem_of_fmap_2 _ _ t1), elem_of_select_where. split; [done|].
      apply task_where_true. split; congruence.
    + apply elem_of_select_where. split; [done|]. apply step_where_true. split; congruence.
Qed.

Lemma event_lease_remembered r r' id e s s' l :
  remembers s s' -> getTaskLeaseForStepRunEvent r id e s = Ok (l, s) ->
  ev_OrganizationID r' = ev_OrganizationID r -> ev_AgentID r' = ev_AgentID r ->
  ev_LeaseToken r' = ev_LeaseToken r ->
  exists l', getTaskLeaseForStepRunEvent r' id e s' = Ok (l', s') /\ lease_ID l' = lease_ID l.
Proof.
  intros [_ _ Kl _] E E1 E2 E3. unfold getTaskLeaseForStepRunEvent in *. rewrite E1, E2, E3.
  set (c := lease_token_where _ _ _ _ _) in *.
  assert (head (select_where c (Leases s)) = Some l) as Hh.
  { destruct (select_where c (Leases s)); [done|]. by injection E as ->. }
  destruct (λ Hc, kept_head lease_key c _ _ l Hc Kl Hh) as (l' & Hl' & Ek).
  { intros x y [= F1 F2 F3 F4 F5 F6]. unfold c, lease_token_where. by rewrite F2, F3, F4, F5, F6. }
  exists l'. destruct (select_where c (Leases s')); [done|]. injection Hl' as ->. by injection Ek.
Qed.

Lemma event_remembered org stepRunID leaseID n s s' v :
  remembers s s' -> getStepRunEventBySequence org stepRunID leaseID n s = Some v ->
  getStepRunEventBySequence org stepRunID leaseID n s' = Some v.
Proof.
  intros [_ _ _ Ke] E. unfold getStepRunEventBySequence in *.
  eapply kept_head in E as (v' & E' & Ev); [|clear E|exact Ke].
  - change (v' = v) in Ev. by subst.
  - intros x y Exy. change (y = x) in Exy. by subst.
Qed.

(** After a successful recording the event is in the table. *)
Lemma recorded_event env r p target lease e s v s' :
  record_event env r p target lease e s = Ok (v, s') ->
  event_PayloadHash v = p_PayloadHash p
  /\ getStepRunEventBySequence (ev_OrganizationID r) (ev_StepRunID r) (lease_ID lease) (ev_Sequence r) s' = Some v.
Proof.
  intros [(-> & Hh & Hv)|(Hn & _ & _ & _ & Ev & s1 & s2 & E1 & E2 & E3)]%record_event_cases; [done|].
  split; [by rewrite Ev|]. apply apply_transition_events in E1. unfold insertStepRunEvent in E2. injection E2 as _ <-.
  assert (Events s' = Events s1 ++ [v]) as E.
  { destruct E3 as [->|(_ & _ & ->)%releaseBatch_tables]; by rewrite Ev. }
  unfold getStepRunEventBySequence in *. rewrite E, E1. unfold select_where in *. rewrite List.filter_app.
  destruct (List.filter _ (Events s)) as [|x l]; [|done]. rewrite Ev. simpl.
  unfold events_where. simpl. by rewrite !bool_decide_eq_true_2, Z.eqb_refl.
Qed.

Lemma record_executor env request e s v s' :
  recordStepRunEvent env request e s = (Ok v, s') -> executor_valid e = true.
Proof.
  unfold recordStepRunEvent. destruct (validateRecordAgentStepRunEventRequest request); [|done].
  by destruct (executor_valid e).
Qed.

Lemma record_step env request e s v s' :
  recordStepRunEvent env request e s = (Ok v, s') -> task_step s s'.
Proof.
  intros E. pose proof (record_executor _ _ _ _ _ _ E) as He. unfold executor_valid in He.
  apply orb_true_iff in He as [He|He]; to_prop; subst; [by eapply step_event_agent|by eapply step_event_hub].
Qed.

(** What a request meets when its number was already recorded. *)
Lemma record_known env request e s r target lease secrets p v :
  validateRecordAgentStepRunEventRequest request = Ok r -> executor_valid e = true ->
  getStepRunEventTargetForUpdate (ev_OrganizationID r) (ev_StepRunID r) s = Ok (target, s) ->
  tg_AgentID target = ev_AgentID r ->
  getTaskLeaseForStepRunEvent r (tg_TaskID target) e s = Ok (lease, s) ->
  step_secrets (ev_OrganizationID r) (ev_StepRunID r) = Ok secrets -> prepare r secrets = Ok p ->
  getStepRunEventBySequence (ev_OrganizationID r) (ev_StepRunID r) (lease_ID lease) (ev_Sequence r) s = Some v ->
  recordStepRunEvent env request e s
  = (if bool_decide (event_PayloadHash v = p_PayloadHash p) then Ok v
     else Err (Conflict "step event sequence already recorded with different payload"), s).
Proof.
  intros Hv He Et Ea El Es Ep Eb. unfold recordStepRunEvent. rewrite Hv, He. simpl.
  unfold RunTx, mbind, tx_bind. rewrite Et, Ea, bool_decide_eq_true_2 by done. simpl. rewrite El.
  unfold lift_result. rewrite Es, Ep. unfold record_event. rewrite Eb. by case_bool_decide.
Qed.

End replay.

(** *** How events drive the step run and the task *)

(** The outcome that the step runs of a task imply. *)
Definition verdict (runs : list StepRun) : TaskStatus :=
  if existsb (λ r, bool_decide (sr_Status r = StepRunFailed)) runs then TaskStatusFailed
  else if forallb (λ r, step_status_terminal (sr_Status r)) runs then TaskStatusSucceeded
  else TaskStatusRunning.

Definition event_effect (ty : StepRunEventType) (r r' : StepRun) (st : TaskStatus) (runs' : list StepRun) : Prop :=
  match ty with
  | EventStarted => sr_Status r = StepRunPending /\ sr_Status r' = StepRunRunning /\ st = TaskStatusRunning
  | EventProgress | EventLog | EventOutput =>
      sr_Status r = StepRunRunning /\ sr_Status r' = StepRunRunning /\ st = TaskStatusRunning
  | EventSucceeded => sr_Status r = StepRunRunning /\ sr_Status r' = StepRunSucceeded /\ st = verdict runs'
  | EventFailed => sr_Status r = StepRunRunning /\ sr_Status r' = StepRunFailed /\ st = TaskStatusFailed
  | EventTypeOther _ => False
  end.

Section event_effects.
Context `{Crypto} `{SecretResolver} `{EventPreparer} `{PreflightGate}.

Lemma existsb_select {A} (p : A -> bool) l : bool_decide (0 < length (select_where p l)) = existsb p l.
Proof.
  unfold select_where. induction l as [|x l IH]; [done|]. simpl. destruct (p x); [done|exact IH].
Qed.

Lemma forallb_select {A} (p : A -> bool) l :
  bool_decide (length (select_where (λ x, negb (p x)) l) = 0) = forallb p l.
Proof.
  unfold select_where. induction l as [|x l IH]; [done|]. simpl. destruct (p x); [exact IH|done].
Qed.

Lemma complete_spec env id org s s' t :
  t ∈ Tasks s -> task_where id org t = true -> task_Status t = TaskStatusRunning ->
  completeTaskIfStepRunsTerminal env id org s = Ok (tt, s') ->
  StepRuns s' = StepRuns s /\ exists t', t' ∈ Tasks s' /\ task_ID t' = task_ID t
    /\ task_Status t' = verdict (select_where (steps_of_task id org) (StepRuns s)).
Proof.
  intros Ht Hw Hr. unfold completeTaskIfStepRunsTerminal, verdict.
  rewrite existsb_select, forallb_select.
  assert (forall st s', updateTaskStatus env id org st s = Ok (tt, s') ->
    StepRuns s' = StepRuns s /\ exists t', t' ∈ Tasks s' /\ task_ID t' = task_ID t /\ task_Status t' = st) as Hup.
  { intros st s2 [ET ES]%task_status_tables. split; [done|]. exists (set_task_status st (now env) t).
    split; [|done]. rewrite ET. apply elem_of_update_where. exists t. by rewrite Hw. }
  destruct (existsb _ _); [apply Hup|]. destruct (forallb _ _); [apply Hup|].
  intros [= <-]. split; [done|]. by exists t.
Qed.

Lemma update_step_row env r0 stepRunID org st s s1 :
  r0 ∈ StepRuns s -> step_where stepRunID org r0 = true ->
  updateStepRunStatus env stepRunID org st s = Ok (tt, s1) ->
  Tasks s1 = Tasks s /\ exists r', r' ∈ StepRuns s1 /\ sr_ID r' = sr_ID r0 /\ sr_Status r' = st.
Proof.
  intros Hr Hw ->%updateStepRunStatus_inv. split; [done|]. exists (set_step_status st (now env) r0).
  split; [|done]. simpl. apply elem_of_update_where. exists r0. by rewrite Hw.
Qed.

(** C8: the effect of an event. A newly recorded event finds its task running
    and its step run in the state that the event starts from (pending for
    STARTED, running otherwise) and moves the step run to the state it reports;
    a failed step fails the task, and a succeeded step finishes the task exactly
    when no step run of the task is left open, as succeeded unless one of them
    failed. *)
Theorem event_drives_task env request e s v s' :
  recordStepRunEvent env request e s = (Ok v, s') -> Events s' <> Events s ->
  exists t r t' r', t ∈ Tasks s /\ task_Status t = TaskStatusRunning
  /\ r ∈ StepRuns s /\ sr_ID r = ev_StepRunID request /\ sr_TaskID r = task_ID t
  /\ t' ∈ Tasks s' /\ task_ID t' = task_ID t /\ r' ∈ StepRuns s' /\ sr_ID r' = sr_ID r
  /\ event_effect (ev_Type request) r r' (task_Status t')
       (select_where (steps_of_task (task_ID t) (ev_OrganizationID request)) (StepRuns s')).
Proof.
  intros E Hne. apply recordStepRunEvent_inv in E as (r & target & lease & secrets & p & Hv & Et & _ & _ & _ & _ & E).
  apply record_event_cases in E as [(-> & _)|(_ & _ & _ & _ & _ & s1 & s2 & E1 & E2 & E3)]; [done|].
  assert (Tasks s' = Tasks s1 /\ StepRuns s' = StepRuns s1) as [ET ES].
  { unfold insertStepRunEvent in E2. injection E2 as _ <-. destruct E3 as [->|E3]; [done|].
    by apply releaseBatch_tables in E3 as (? & ? & _). }
  rewrite ET, ES. clear E2 E3 ET ES Hne. apply target_inv in Et as (r0 & t0 & Hr0 & Hwr & Ht0 & Hwt & ->).
  pose proof Hwr as [Er0 _]%step_where_true. pose proof Hwt as [Et0 _]%task_where_true.
  unfold applyStepRunEventTransition in E1. simpl in E1. case_bool_decide as Hrun; [|done]. simpl in E1.
  apply validate_trim in Hv as ->. simpl in *. exists t0, r0.
  assert (task_where (task_ID t0) (ev_OrganizationID request) t0 = true) as Hw0 by (by rewrite Et0).
  destruct (ev_Type request); simpl;
    try (destruct (bool_decide_reflect (sr_Status r0 = StepRunRunning)) as [Hs|]; [|done]);
    try (destruct (bool_decide_reflect (sr_Status r0 = StepRunPending)) as [Hs|]; [|done]); simpl in E1;
    [|by injection E1 as <-; exists t0, r0..| | |done].
  - destruct (update_step_row _ _ _ _ _ _ _ Hr0 Hwr E1) as (ET & r' & Hr' & Ei & Es).
    exists t0, r'. rewrite ET. done.
  - apply tx_bind_ok in E1 as ([] & sm & E1 & E2).
    destruct (update_step_row _ _ _ _ _ _ _ Hr0 Hwr E1) as (ET & r' & Hr' & Ei & Es).
    rewrite <- ET in Ht0. destruct (complete_spec _ _ _ _ _ _ Ht0 Hw0 Hrun E2) as (ES & t' & Ht' & Eti & Ev).
    exists t', r'. rewrite ES, <- ET. done.
  - apply tx_bind_ok in E1 as ([] & sm & E1 & E2).
    destruct (update_step_row _ _ _ _ _ _ _ Hr0 Hwr E1) as (ET & r' & Hr' & Ei & Es).
    apply task_status_tables in E2 as [ET2 ES2]. exists (set_task_status TaskStatusFailed (now env) t0), r'.
    rewrite ET2, ES2, ET. split_and!; try done. apply elem_of_update_where. exists t0. by rewrite Hw0.
Qed.
End event_effects.

(** ** Runs *)

Section runs.
Import Demo.

Definition some_lock : TaskResourceLock := new_lock (new_task (env 0) plan None 0 0
  {| pt_ID := Nil; pt_DeploymentTargetID := Nil; pt_SortOrder := 0 |}) ResourceCustom "" PolicyQueue.

Definition the_task (s : db) (i : nat) : Task := List.nth i (Tasks s) (new_task (env 0) plan None 0 0
  {| pt_ID := Nil; pt_DeploymentTargetID := Nil; pt_SortOrder := 0 |}).
Definition the_lock (s : db) (i : nat) : TaskResourceLock := List.nth i (Locks s) some_lock.

Lemma lease_value (x : result apierror (option LeasedTask)) :
  match x with Ok (Some _) => true | _ => false end = true -> exists l, x = Ok (Some l).
Proof. destruct x as [[l|]|]; [by exists l|done..]. Qed.

Lemma nth_elem {A} (d : A) l i : bool_decide (i < length l) = true -> List.nth i l d ∈ l.
Proof. intros H%bool_decide_eq_true_1. rewrite list_elem_of_In. by apply nth_In. Qed.

Lemma create_tasks_complete_witness :
  exists p, p ∈ Plans s0 /\ plan_ID p = uid 2 /\ length (plan_Targets p) = 2.
Proof.
  destruct (create_tasks_complete (env 1) (create_request PolicyQueue) s0
    (ok_or [] (fst (CreateTasksForDeploymentPlan (env 1) (create_request PolicyQueue) s0))) (created PolicyQueue))
    as (p & Hp & Eid & _ & _ & Et & _).
  - exact (sys_tasks _ (sys_inv_reachable _ s0_reachable)).
  - by apply fresh_env_check.
  - apply (bool_decide_eq_true_1 _). by vm_compute.
  - intros u Hu. by apply elem_of_nil in Hu.
  - intros u Hu. by apply elem_of_nil in Hu.
  - vm_compute. reflexivity.
  - exists p. split_and!; [done..|]. apply (f_equal length) in Et.
    rewrite !length_fmap, length_stable_sort in Et. rewrite <- Et. vm_compute. reflexivity.
Defined.

Lemma create_tasks_idempotent_witness :
  CreateTasksForDeploymentPlan (env 9) (create_request PolicyRejectNew) (created PolicyQueue)
  = (fst (CreateTasksForDeploymentPlan (env 1) (create_request PolicyQueue) s0), created PolicyQueue).
Proof.
  transitivity (Ok (ok_or [] (fst (CreateTasksForDeploymentPlan (env 1) (create_request PolicyQueue) s0)))
    : result apierror (list HydratedTask), created PolicyQueue); [|by vm_compute].
  apply (create_tasks_idempotent (env 1) (create_request PolicyQueue) s0); [by vm_compute..].
Defined.

Lemma create_tasks_policies_witness :
  Forall (λ t, task_Status t = TaskStatusQueued) (Tasks (created PolicyCancelOlder)).
Proof.
  destruct (create_tasks_policies (env 1) (create_request PolicyCancelOlder) s0
    (ok_or [] (fst (CreateTasksForDeploymentPlan (env 1) (create_request PolicyCancelOlder) s0)))
    (created PolicyCancelOlder)) as ((kept & -> & Hk) & Hq & _).
  - exact (sys_tasks _ (sys_inv_reachable _ s0_reachable)).
  - by apply fresh_env_check.
  - intros u Hu. by apply elem_of_nil in Hu.
  - vm_compute. reflexivity.
  - inversion Hk. subst. exact Hq.
Defined.

Lemma task_resources_exclusive_witness :
  lock_ConcurrencyPolicy (the_lock (leased2 PolicyAllowParallel) 1) = PolicyAllowParallel
  \/ lock_ConcurrencyPolicy (the_lock (leased2 PolicyAllowParallel) 3) = PolicyAllowParallel.
Proof.
  apply (task_resources_exclusive (leased2 PolicyAllowParallel)); [apply leased2_reachable|
    by apply nth_elem|by apply nth_elem|by vm_compute|by vm_compute|..].
  - exists (the_task (leased2 PolicyAllowParallel) 0). split_and!; [by apply nth_elem|by vm_compute..].
  - exists (the_task (leased2 PolicyAllowParallel) 1). split_and!; [by apply nth_elem|by vm_compute..].
Defined.

Lemma task_holdings_witness :
  exists t, t ∈ Tasks step_done /\ owns t (the_lock step_done 2).
Proof.
  destruct (task_holdings step_done step_done_reachable) as [Hl _].
  destruct (Hl (the_lock step_done 2)) as (t & Ht & Ho & _); [by apply nth_elem|]. by exists t.
Defined.


(** The lease of the first agent expires and is granted again. *)
Definition expired_lease : db := snd (LeaseAgentTask (env 200000000) (agent_request 1) (leased1 PolicyQueue)).

Lemma expired_lease_reachable : reachable expired_lease.
Proof.
  eapply reachable_step; [apply (leased1_reachable PolicyQueue)|].
  eapply (step_lease_agent _ (env 200000000) (agent_request 1)), surjective_pairing.
Qed.

Lemma lease_exclusive_witness :
  exists l m, Leases expired_lease !! 0 = Some l /\ Leases expired_lease !! 1 = Some m
    /\ (lease_Attempt l < lease_Attempt m)%Z.
Proof.
  eexists _, _. split; [vm_compute; reflexivity|]. split; [vm_compute; reflexivity|].
  eapply (lease_exclusive expired_lease 0 1 _ _ expired_lease_reachable);
    [vm_compute; reflexivity|vm_compute; reflexivity|by vm_compute|lia].
Defined.

Lemma event_numbers_contiguous_witness :
  exists v, v ∈ Events step_done /\ event_Sequence v = 2%Z.
Proof.
  eexists. split; [|eapply (event_numbers_contiguous step_done org (uid 201) (uid 302) 1 _ step_done_reachable);
                      vm_compute; reflexivity].
  apply (list_elem_of_lookup_2 _ 1). vm_compute. reflexivity.
Defined.

Lemma agent_lease_contract_witness :
  exists x, lt_Lease x ∈ Leases (leased1 PolicyQueue) /\ lease_ReleasedAt (lt_Lease x) = None.
Proof.
  destruct (lease_value (fst (LeaseAgentTask (env 2) (agent_request 1) (created PolicyQueue)))) as [x E];
    [by vm_compute|].
  exists x. destruct (agent_lease_contract (env 2) (agent_request 1) (created PolicyQueue) x (leased1 PolicyQueue))
    as (t & _ & _ & _ & _ & _ & Hg).
  - exact (sys_tasks _ (sys_inv_reachable _ (created_reachable _))).
  - apply (bool_decide_eq_true_1 _). by vm_compute.
  - rewrite <- E. apply surjective_pairing.
  - split; [by eapply granted_row|by eapply granted_active].
Defined.

(** The same plan with a step that the hub executes. *)
Definition hub_plan : DeploymentPlan :=
  {| plan_ID := uid 2; plan_OrganizationID := org; plan_Status := PlanReady; plan_ApplicationID := uid 3;
     plan_ReleaseBundleID := uid 4; plan_ChannelID := uid 5; plan_EnvironmentID := uid 6;
     plan_Targets := plan_Targets plan; plan_TargetComponents := [];
     plan_Steps := [{| ps_ID := uid 31; ps_StepKey := "notify"; ps_Name := "Notify"; ps_ActionType := "webhook";
                       ps_ExecutionLocation := " Hub"; ps_Included := true; ps_ExcludedReason := "";
                       ps_Dependencies := []; ps_SortOrder := 0 |}] |}.
Definition hub_s0 : db := set_bundles [bundle] (set_plans [hub_plan] init).
Definition hub_created : db := snd (CreateTasksForDeploymentPlan (env 1) (create_request PolicyQueue) hub_s0).

Lemma hub_created_reachable : reachable hub_created.
Proof.
  apply reachable_step with hub_s0.
  - apply rtc_l with (set_plans [hub_plan] init); [apply step_plans|apply rtc_once, step_bundles].
  - eapply (step_create _ (env 1) (create_request PolicyQueue)); [by apply fresh_env_check|apply surjective_pairing].
Qed.

Lemma hub_lease_contract_witness :
  exists x t, t ∈ Tasks hub_created /\ lt_Lease x ∈ Leases (snd (LeaseHubTask (env 2) hub_created))
    /\ lease_TaskID (lt_Lease x) = task_ID t.
Proof.
  destruct (lease_value (fst (LeaseHubTask (env 2) hub_created))) as [x E]; [by vm_compute|].
  exists x. destruct (hub_lease_contract (env 2) hub_created x (snd (LeaseHubTask (env 2) hub_created)))
    as (t & Ht & _ & _ & Hg).
  - exact (sys_tasks _ (sys_inv_reachable _ hub_created_reachable)).
  - apply (bool_decide_eq_true_1 _). by vm_compute.
  - rewrite <- E. apply surjective_pairing.
  - destruct Hg as [Hrow _ [Eid _] _ _ _ _ _ _ _ _].
    exists t. exact (conj Ht (conj Hrow Eid)).
Defined.

Lemma stale_lease_fenced_witness :
  exists res, recordStepRunEvent (env 200000000) (event 1 EventStarted) ExecutorAgent (leased1 PolicyQueue)
    = (res, leased1 PolicyQueue).
Proof.
  destruct (stale_lease_fenced (env 200000000) org (target 1) "token2" ExecutorAgent (leased1 PolicyQueue)) as [_ H].
  - intros id l Hl _. right. vm_compute in Hl. apply list_elem_of_singleton in Hl as ->. by vm_compute.
  - destruct (H (event 1 EventStarted)) as (res & E & _); [by vm_compute..|]. by exists res.
Defined.


Lemma event_drives_task_witness :
  exists r', r' ∈ StepRuns step_done /\ sr_Status r' = StepRunSucceeded.
Proof.
  destruct (ok_value (fst (recordStepRunEvent (env 5) (event 2 EventSucceeded) ExecutorAgent step_started)))
    as [v E]; [by vm_compute|].
  destruct (event_drives_task (env 5) (event 2 EventSucceeded) ExecutorAgent step_started v step_done)
    as (t & r & t' & r' & _ & _ & _ & _ & _ & _ & _ & Hr' & _ & _ & Hs & _).
  - rewrite <- E. apply surjective_pairing.
  - intros H. apply (f_equal length) in H. by vm_compute in H.
  - exists r'. exact (conj Hr' Hs).
Defined.
End runs.
