(* ===== verification/VariableResolution.v ===== *)
(** * Variable scopes and resolution ([internal/variablescope/scope.go],
    [internal/variableresolution/resolver.go])

    The value of a variable for a tenant, environment, channel, target,
    application and step: a prompted value, the scoped value of the most
    specific supported shape that matches, or the default. *)
From S2P Require Import Prelude GoStrings Uuid.
From Stdlib Require Import Ascii.
Open Scope list_scope.

(** ** Data ([internal/types/variable_set.go]) *)

Inductive VariableType :=
| VariableTypeString | VariableTypeNumber | VariableTypeBoolean | VariableTypeJSON
| VariableTypeSecretReference | VariableTypeAccountReference | VariableTypeCertificateReference
| VariableTypeOther (s : string).

#[export] Instance VariableType_eq_dec : EqDecision VariableType.
Proof. solve_decision. Defined.

Inductive VariableResolutionSource :=
| SourcePrompted
| SourceExactTenantEnvironmentTargetChannelStep | SourceExactTenantEnvironmentTarget
| SourceExactTenantEnvironmentChannel | SourceExactTenantEnvironment
| SourceExactEnvironmentTargetTag | SourceExactEnvironment | SourceChannel | SourceApplication
| SourceDefault | SourceUnresolved.

#[export] Instance VariableResolutionSource_eq_dec : EqDecision VariableResolutionSource.
Proof. solve_decision. Defined.

Inductive VariableResolutionStatus :=
| VariableResolutionStatusResolved | VariableResolutionStatusUnresolved.

Record VariableScope := {
  vs_CustomerOrganizationID : option uuid;
  vs_EnvironmentID : option uuid;
  vs_ChannelID : option uuid;
  vs_DeploymentTargetID : option uuid;
  vs_ApplicationID : option uuid;
  vs_TargetTag : string;
  vs_ProcessStepKey : string;
}.

Record VariableResolutionScope := {
  rs_CustomerOrganizationID : option uuid;
  rs_EnvironmentID : option uuid;
  rs_ChannelID : option uuid;
  rs_DeploymentTargetID : option uuid;
  rs_ApplicationID : option uuid;
  rs_TargetTags : list string;
  rs_ProcessStepKey : string;
}.

(** A [json.RawMessage] is a byte slice; [None] is the nil slice. The
    identifiers and times of the rows, which the resolution does not read, are left out. *)
Record VariableScopedValue := {
  sv_Scope : VariableScope;
  sv_SortOrder : Z;
  sv_Value : option string;
  sv_ReferenceID : string;
  sv_ReferenceName : string;
}.

(** [types.Variable] *)
Record types_Variable := {
  v_ID : uuid;
  v_VariableSetID : uuid;
  v_Key : string;
  v_Type : VariableType;
  v_IsRequired : bool;
  v_DefaultValue : option string;
  v_ReferenceID : string;
  v_ReferenceName : string;
  v_ScopedValues : list VariableScopedValue;
}.

Record VariablePromptedValue := {
  pv_Key : string;
  pv_Value : option string;
  pv_ReferenceID : string;
  pv_ReferenceName : string;
}.

Record VariableResolutionTraceEntry := {
  te_Source : VariableResolutionSource;
  te_Scope : VariableScope;
  te_Selected : bool;
  te_Reason : string;
}.

Record ResolvedVariable := {
  rv_VariableSetID : uuid;
  rv_VariableID : uuid;
  rv_Key : string;
  rv_Type : VariableType;
  rv_IsRequired : bool;
  rv_Status : VariableResolutionStatus;
  rv_Source : VariableResolutionSource;
  rv_Value : option string;
  rv_ReferenceID : string;
  rv_ReferenceName : string;
  rv_Redacted : bool;
  rv_Trace : list VariableResolutionTraceEntry;
}.

(** The zero value of a scope. *)
Definition no_scope : VariableScope :=
  {| vs_CustomerOrganizationID := None; vs_EnvironmentID := None; vs_ChannelID := None;
     vs_DeploymentTargetID := None; vs_ApplicationID := None; vs_TargetTag := "";
     vs_ProcessStepKey := "" |}.

(** ** Scopes *)

Definition scopeTenant : Z := Z.shiftl 1 0.
Definition scopeEnvironment : Z := Z.shiftl 1 1.
Definition scopeChannel : Z := Z.shiftl 1 2.
Definition scopeTarget : Z := Z.shiftl 1 3.
Definition scopeApplication : Z := Z.shiftl 1 4.
Definition scopeTargetTag : Z := Z.shiftl 1 5.
Definition scopeStep : Z := Z.shiftl 1 6.

Record shape := { shape_mask : Z; shape_source : VariableResolutionSource; shape_rank : Z }.

Definition bits (l : list Z) : Z := foldl Z.lor 0%Z l.

Definition shapes : list shape :=
  [ {| shape_mask := bits [scopeTenant; scopeEnvironment; scopeTarget; scopeChannel; scopeStep];
       shape_source := SourceExactTenantEnvironmentTargetChannelStep; shape_rank := 2 |};
    {| shape_mask := bits [scopeTenant; scopeEnvironment; scopeTarget];
       shape_source := SourceExactTenantEnvironmentTarget; shape_rank := 3 |};
    {| shape_mask := bits [scopeTenant; scopeEnvironment; scopeChannel];
       shape_source := SourceExactTenantEnvironmentChannel; shape_rank := 4 |};
    {| shape_mask := bits [scopeTenant; scopeEnvironment];
       shape_source := SourceExactTenantEnvironment; shape_rank := 5 |};
    {| shape_mask := bits [scopeEnvironment; scopeTargetTag];
       shape_source := SourceExactEnvironmentTargetTag; shape_rank := 6 |};
    {| shape_mask := bits [scopeEnvironment];
       shape_source := SourceExactEnvironment; shape_rank := 7 |};
    {| shape_mask := bits [scopeChannel]; shape_source := SourceChannel; shape_rank := 8 |};
    {| shape_mask := bits [scopeApplication]; shape_source := SourceApplication; shape_rank := 9 |} ].

Definition non_nil {A} (x : option A) : bool := match x with Some _ => true | None => false end.

Definition Mask (s : VariableScope) : Z :=
  let mask := 0%Z in
  let mask := if non_nil (vs_CustomerOrganizationID s) then Z.lor mask scopeTenant else mask in
  let mask := if non_nil (vs_EnvironmentID s) then Z.lor mask scopeEnvironment else mask in
  let mask := if non_nil (vs_ChannelID s) then Z.lor mask scopeChannel else mask in
  let mask := if non_nil (vs_DeploymentTargetID s) then Z.lor mask scopeTarget else mask in
  let mask := if non_nil (vs_ApplicationID s) then Z.lor mask scopeApplication else mask in
  let mask := if negb (trimmed_empty (vs_TargetTag s)) then Z.lor mask scopeTargetTag else mask in
  if negb (trimmed_empty (vs_ProcessStepKey s)) then Z.lor mask scopeStep else mask.

Definition shape_of (mask : Z) : option shape :=
  List.find (λ c, (shape_mask c =? mask)%Z) shapes.

Definition Source (s : VariableScope) : option (VariableResolutionSource * Z) :=
  c ← shape_of (Mask s); Some (shape_source c, shape_rank c).

Definition Supported (s : VariableScope) : bool := non_nil (Source s).

Definition uuidScopeKey (value : option uuid) : string :=
  match value with None => "" | Some u => uuid_string u end.

Definition Key (s : VariableScope) : string :=
  Join [uuidScopeKey (vs_CustomerOrganizationID s); uuidScopeKey (vs_EnvironmentID s);
        uuidScopeKey (vs_DeploymentTargetID s); uuidScopeKey (vs_ChannelID s);
        uuidScopeKey (vs_ApplicationID s); TrimSpace (vs_TargetTag s);
        TrimSpace (vs_ProcessStepKey s)] "|".

(** ** Resolution *)

Record Request := {
  rq_Variables : list types_Variable;
  rq_Scope : VariableResolutionScope;
  rq_PromptedValues : list VariablePromptedValue;
}.

Record candidate := {
  cd_source : VariableResolutionSource;
  cd_rank : Z;
  cd_sortOrder : Z;
  cd_scope : VariableScope;
  cd_value : option string;
  cd_referenceID : string;
  cd_referenceName : string;
}.

Definition with_key (k : string) (p : VariablePromptedValue) : VariablePromptedValue :=
  {| pv_Key := k; pv_Value := pv_Value p; pv_ReferenceID := pv_ReferenceID p;
     pv_ReferenceName := pv_ReferenceName p |}.

Fixpoint prompted_loop (result_ : gmap string VariablePromptedValue) (values : list VariablePromptedValue)
    : result string (gmap string VariablePromptedValue) :=
  match values with
  | [] => Ok result_
  | p :: values =>
      let key := TrimSpace (pv_Key p) in
      if bool_decide (key = "") then Err "prompted variable key is required" else
      if bool_decide (is_Some (result_ !! key)) then Err "prompted variable keys must be unique" else
      prompted_loop (<[key := with_key key p]> result_) values
  end.

Definition promptedValuesByKey (values : list VariablePromptedValue)
    : result string (gmap string VariablePromptedValue) := prompted_loop ∅ values.

Definition isReferenceVariableType (t : VariableType) : bool :=
  match t with
  | VariableTypeSecretReference | VariableTypeAccountReference | VariableTypeCertificateReference => true
  | _ => false
  end.

(** [len] of a nil slice is 0. *)
Definition hasRawJSONValue (value : option string) : bool :=
  let trimmed := TrimSpace (default "" value) in
  (0 <? len trimmed)%Z && negb (bool_decide (trimmed = "null")).

Definition hasResolutionDefault (v : types_Variable) : bool :=
  if isReferenceVariableType (v_Type v) then negb (trimmed_empty (v_ReferenceID v))
  else hasRawJSONValue (v_DefaultValue v).

Definition uuidPtrMatches (value request : option uuid) : bool :=
  match value with
  | None => true
  | Some u => bool_decide (request = Some u)
  end.

Definition containsString (values : list string) (expected : string) : bool :=
  existsb (λ value, bool_decide (TrimSpace value = expected)) values.

Definition scopeMatches (s : VariableScope) (r : VariableResolutionScope) : bool :=
  if negb (uuidPtrMatches (vs_CustomerOrganizationID s) (rs_CustomerOrganizationID r)) then false else
  if negb (uuidPtrMatches (vs_EnvironmentID s) (rs_EnvironmentID r)) then false else
  if negb (uuidPtrMatches (vs_ChannelID s) (rs_ChannelID r)) then false else
  if negb (uuidPtrMatches (vs_DeploymentTargetID s) (rs_DeploymentTargetID r)) then false else
  if negb (uuidPtrMatches (vs_ApplicationID s) (rs_ApplicationID r)) then false else
  if negb (trimmed_empty (vs_ProcessStepKey s))
     && negb (bool_decide (TrimSpace (vs_ProcessStepKey s) = TrimSpace (rs_ProcessStepKey r)))
  then false else
  let tag := TrimSpace (vs_TargetTag s) in
  if negb (bool_decide (tag = "")) && negb (containsString (rs_TargetTags r) tag) then false else true.

Definition prompted_candidate (p : VariablePromptedValue) : candidate :=
  {| cd_source := SourcePrompted; cd_rank := 1; cd_sortOrder := 0; cd_scope := no_scope;
     cd_value := pv_Value p; cd_referenceID := pv_ReferenceID p;
     cd_referenceName := pv_ReferenceName p |}.

(** The body of the loop over the scoped values: [continue] adds nothing. *)
Definition scoped_candidate (scope : VariableResolutionScope) (sv : VariableScopedValue)
    : option candidate :=
  match Source (sv_Scope sv) with
  | Some (source, rank) =>
      if negb (scopeMatches (sv_Scope sv) scope) then None
      else Some {| cd_source := source; cd_rank := rank; cd_sortOrder := sv_SortOrder sv;
                   cd_scope := sv_Scope sv; cd_value := sv_Value sv;
                   cd_referenceID := sv_ReferenceID sv; cd_referenceName := sv_ReferenceName sv |}
  | None => None
  end.

Definition default_candidate (v : types_Variable) : candidate :=
  {| cd_source := SourceDefault; cd_rank := 10; cd_sortOrder := 0; cd_scope := no_scope;
     cd_value := v_DefaultValue v; cd_referenceID := v_ReferenceID v;
     cd_referenceName := v_ReferenceName v |}.

Definition candidates (v : types_Variable) (scope : VariableResolutionScope)
    (prompted : option VariablePromptedValue) : list candidate :=
  option_list (prompted_candidate <$> prompted)
  ++ omap (scoped_candidate scope) (v_ScopedValues v)
  ++ (if hasResolutionDefault v then [default_candidate v] else []).

Definition candidate_less : candidate -> candidate -> bool :=
  less_then cd_rank (less_then cd_sortOrder (less_str_by (λ c, Key (cd_scope c)))).

Definition traceFromCandidates (l : list candidate) : list VariableResolutionTraceEntry :=
  imap (λ i c, {| te_Source := cd_source c; te_Scope := cd_scope c;
                  te_Selected := bool_decide (i = 0); te_Reason := "matched resolution scope" |}) l.

Definition resolveVariable (v : types_Variable) (scope : VariableResolutionScope)
    (prompted : option VariablePromptedValue) : ResolvedVariable :=
  let sorted := stable_sort candidate_less (candidates v scope prompted) in
  match sorted with
  | [] =>
      {| rv_VariableSetID := v_VariableSetID v; rv_VariableID := v_ID v; rv_Key := TrimSpace (v_Key v);
         rv_Type := v_Type v; rv_IsRequired := v_IsRequired v;
         rv_Status := VariableResolutionStatusUnresolved; rv_Source := SourceUnresolved;
         rv_Value := None; rv_ReferenceID := ""; rv_ReferenceName := ""; rv_Redacted := false;
         rv_Trace := [{| te_Source := SourceUnresolved; te_Scope := no_scope; te_Selected := true;
                         te_Reason := "no prompted, scoped, or default value matched" |}] |}
  | selected :: _ =>
      let secret := bool_decide (v_Type v = VariableTypeSecretReference) in
      {| rv_VariableSetID := v_VariableSetID v; rv_VariableID := v_ID v; rv_Key := TrimSpace (v_Key v);
         rv_Type := v_Type v; rv_IsRequired := v_IsRequired v;
         rv_Status := VariableResolutionStatusResolved; rv_Source := cd_source selected;
         rv_Value := if secret then None else if negb (isReferenceVariableType (v_Type v))
                     then cd_value selected else None;
         rv_ReferenceID := cd_referenceID selected; rv_ReferenceName := cd_referenceName selected;
         rv_Redacted := secret; rv_Trace := traceFromCandidates sorted |}
  end.

Definition Resolve (request : Request) : result string (list ResolvedVariable) :=
  prompted ← promptedValuesByKey (rq_PromptedValues request);
  Ok ((λ v, resolveVariable v (rq_Scope request) (prompted !! TrimSpace (v_Key v)))
      <$> rq_Variables request).

(** ** The key of a scope *)

(** The tags of a scope as the key and the matching see them. *)
Definition trim_scope (s : VariableScope) : VariableScope :=
  {| vs_CustomerOrganizationID := vs_CustomerOrganizationID s; vs_EnvironmentID := vs_EnvironmentID s;
     vs_ChannelID := vs_ChannelID s; vs_DeploymentTargetID := vs_DeploymentTargetID s;
     vs_ApplicationID := vs_ApplicationID s; vs_TargetTag := TrimSpace (vs_TargetTag s);
     vs_ProcessStepKey := TrimSpace (vs_ProcessStepKey s) |}.

(** A scope with a target tag has no other component than the environment, and
    a scope with a step has all of tenant, environment, channel and target. *)
Lemma supported_shape s :
  Supported s = true ->
  (trimmed_empty (vs_TargetTag s) = false -> trimmed_empty (vs_ProcessStepKey s) = true
     /\ vs_CustomerOrganizationID s = None)
  /\ (trimmed_empty (vs_ProcessStepKey s) = negb (non_nil (vs_CustomerOrganizationID s)
        && non_nil (vs_ChannelID s) && non_nil (vs_DeploymentTargetID s))).
Proof.
  unfold Supported, Source, Mask.
  destruct (vs_CustomerOrganizationID s), (vs_EnvironmentID s), (vs_ChannelID s), (vs_DeploymentTargetID s),
    (vs_ApplicationID s), (trimmed_empty (vs_TargetTag s)), (trimmed_empty (vs_ProcessStepKey s));
    vm_compute; intros; try discriminate; split; try done.
Qed.

Lemma uuidScopeKey_no_bar x : no_char "|"%char (uuidScopeKey x) = true.
Proof. destruct x; [apply uuid_string_no_bar | done]. Qed.

#[export] Instance uuidScopeKey_inj : Inj (=) (=) uuidScopeKey.
Proof.
  intros [u|] [v|]; simpl; intros E; [by f_equal; apply (inj uuid_string)|..|done].
  - by destruct (uuid_string_nonempty u).
  - by destruct (uuid_string_nonempty v).
Qed.

(** The identifiers of a key, and what remains. *)
Lemma Key_inj_ids a b :
  Key a = Key b ->
  vs_CustomerOrganizationID a = vs_CustomerOrganizationID b /\ vs_EnvironmentID a = vs_EnvironmentID b
  /\ vs_DeploymentTargetID a = vs_DeploymentTargetID b /\ vs_ChannelID a = vs_ChannelID b
  /\ vs_ApplicationID a = vs_ApplicationID b
  /\ TrimSpace (vs_TargetTag a) +:+ "|" +:+ TrimSpace (vs_ProcessStepKey a)
     = TrimSpace (vs_TargetTag b) +:+ "|" +:+ TrimSpace (vs_ProcessStepKey b).
Proof.
  unfold Key, Join. cbn [String.concat]. intros E.
  do 5 (apply split_at_inj in E as [?%(inj uuidScopeKey) E]; [|apply uuidScopeKey_no_bar..]).
  done.
Qed.

Lemma string_app_inj_r s t u : s +:+ u = t +:+ u -> s = t.
Proof.
  revert t. induction s as [|a s IH]; intros [|b t] E; simpl in E; try done.
  - assert (String.length u = String.length (String b t +:+ u)) as L by (by rewrite <- E).
    rewrite string_length_app in L. simpl in L. lia.
  - assert (String.length u = String.length (String a s +:+ u)) as L by (by rewrite E).
    rewrite string_length_app in L. simpl in L. lia.
  - injection E as -> E. f_equal. by apply IH.
Qed.

Lemma Key_inj a b :
  Supported a = true -> Supported b = true -> Key a = Key b -> trim_scope a = trim_scope b.
Proof.
  intros [Ha1 Ha2]%supported_shape [Hb1 Hb2]%supported_shape (E1 & E2 & E3 & E4 & E5 & E)%Key_inj_ids.
  assert (trimmed_empty (vs_ProcessStepKey a) = trimmed_empty (vs_ProcessStepKey b)) as Es
    by (rewrite Ha2, Hb2, E1, E3, E4; done).
  unfold trim_scope. rewrite E1, E2, E3, E4, E5. unfold trimmed_empty in *.
  destruct (bool_decide (TrimSpace (vs_ProcessStepKey b) = "")) eqn:Hb; to_prop.
  - rewrite Es, Hb in E. f_equal; [|congruence]. by apply string_app_inj_r in E.
  - destruct (decide (TrimSpace (vs_TargetTag a) = "")) as [Ta|Ta];
      [|destruct Ha1; [by apply bool_decide_eq_false_2|to_prop; done]].
    destruct (decide (TrimSpace (vs_TargetTag b) = "")) as [Tb|Tb];
      [|destruct Hb1; [by apply bool_decide_eq_false_2|to_prop; done]].
    rewrite Ta, Tb in *. f_equal. by injection E.
Qed.

(** Trimming the tags of a scope changes nothing. *)
Lemma Key_trim s : Key (trim_scope s) = Key s.
Proof. unfold Key. simpl. by rewrite !TrimSpace_idem. Qed.

(** ** Resolution *)

(** What [normalizeScopedValues] of [internal/db/variable_sets.go] makes sure of. *)
Record normalized (v : types_Variable) : Prop := {
  norm_supported : forall sv, sv ∈ v_ScopedValues v -> Supported (sv_Scope sv) = true;
  norm_keys : NoDup ((λ sv, Key (sv_Scope sv)) <$> v_ScopedValues v);
}.

Definition scope_rank (s : VariableScope) : Z := from_option snd 0%Z (Source s).

(** The scoped values that apply, and the order of precedence among them: the
    rank of the shape, then, which only target tags need, the sort order and the key. *)
Definition applies (scope : VariableResolutionScope) (sv : VariableScopedValue) : bool :=
  Supported (sv_Scope sv) && scopeMatches (sv_Scope sv) scope.

Definition precedes (a b : VariableScopedValue) : Prop :=
  (scope_rank (sv_Scope a) < scope_rank (sv_Scope b))%Z
  \/ (Source (sv_Scope a) = Some (SourceExactEnvironmentTargetTag, 6%Z)
      /\ Source (sv_Scope b) = Some (SourceExactEnvironmentTargetTag, 6%Z)
      /\ ((sv_SortOrder a < sv_SortOrder b)%Z
          \/ (sv_SortOrder a = sv_SortOrder b /\ string_less (Key (sv_Scope a)) (Key (sv_Scope b)) = true))).

Lemma shape_of_mask m c : shape_of m = Some c -> shape_mask c = m /\ In c shapes.
Proof. intros [Hin Hm]%List.find_some. split; [by apply Z.eqb_eq|done]. Qed.

(** The rank determines the shape. *)
Lemma rank_inj c d : In c shapes -> In d shapes -> shape_rank c = shape_rank d -> c = d.
Proof.
  unfold shapes. cbn [In]. intros Hc Hd E.
  repeat match goal with H : _ \/ _ |- _ => destruct H end; subst; done.
Qed.

Lemma shape_rank_range c : In c shapes -> (2 <= shape_rank c <= 9)%Z.
Proof.
  unfold shapes. cbn [In]. intros Hc.
  repeat match goal with H : _ \/ _ |- _ => destruct H end; subst; simpl; lia || done.
Qed.

(** The shape of a supported scope. *)
Lemma Source_shape s src r :
  Source s = Some (src, r) ->
  exists c, In c shapes /\ shape_mask c = Mask s /\ shape_source c = src /\ shape_rank c = r.
Proof.
  unfold Source. destruct (shape_of (Mask s)) as [c|] eqn:E; [|done].
  intros [= <- <-]. apply shape_of_mask in E as [Hm Hin]. by exists c.
Qed.

(** The mask tells which components a scope has. *)
Lemma Mask_inj s t :
  Mask s = Mask t ->
  non_nil (vs_CustomerOrganizationID s) = non_nil (vs_CustomerOrganizationID t)
  /\ non_nil (vs_EnvironmentID s) = non_nil (vs_EnvironmentID t)
  /\ non_nil (vs_ChannelID s) = non_nil (vs_ChannelID t)
  /\ non_nil (vs_DeploymentTargetID s) = non_nil (vs_DeploymentTargetID t)
  /\ non_nil (vs_ApplicationID s) = non_nil (vs_ApplicationID t)
  /\ trimmed_empty (vs_TargetTag s) = trimmed_empty (vs_TargetTag t)
  /\ trimmed_empty (vs_ProcessStepKey s) = trimmed_empty (vs_ProcessStepKey t).
Proof.
  assert (forall u, exists a b c d e f g,
    a = non_nil (vs_CustomerOrganizationID u) /\ b = non_nil (vs_EnvironmentID u)
    /\ c = non_nil (vs_ChannelID u) /\ d = non_nil (vs_DeploymentTargetID u)
    /\ e = non_nil (vs_ApplicationID u) /\ f = trimmed_empty (vs_TargetTag u)
    /\ g = trimmed_empty (vs_ProcessStepKey u)
    /\ a = Z.testbit (Mask u) 0 /\ b = Z.testbit (Mask u) 1 /\ c = Z.testbit (Mask u) 2
    /\ d = Z.testbit (Mask u) 3 /\ e = Z.testbit (Mask u) 4 /\ f = negb (Z.testbit (Mask u) 5)
    /\ g = negb (Z.testbit (Mask u) 6)) as H.
  { intros u. do 7 eexists. split_and!; try reflexivity; unfold Mask;
      destruct (non_nil _), (non_nil _), (non_nil _), (non_nil _), (non_nil _), (trimmed_empty _),
        (trimmed_empty _); reflexivity. }
  intros E. destruct (H s) as (?&?&?&?&?&?&?&?&?&?&?&?&?&?&?&?&?&?&?&?&?).
  destruct (H t) as (?&?&?&?&?&?&?&?&?&?&?&?&?&?&?&?&?&?&?&?&?). rewrite E in *. split_and!; congruence.
Qed.

(** Two matching scopes of one shape without a target tag are the same. *)
Lemma matches_determined s t scope :
  scopeMatches s scope = true -> scopeMatches t scope = true -> Mask s = Mask t ->
  trimmed_empty (vs_TargetTag s) = true -> Key s = Key t.
Proof.
  intros Hs Ht (E1 & E2 & E3 & E4 & E5 & E6 & E7)%Mask_inj Htag.
  assert (forall x y r, uuidPtrMatches x r = true -> uuidPtrMatches y r = true ->
    non_nil x = non_nil y -> x = y) as Hptr.
  { intros [x|] [y|] r Hx Hy E; simpl in *; to_prop; try done. congruence. }
  unfold scopeMatches in *.
  repeat match type of Hs with (if negb ?b then _ else _) = _ => destruct b eqn:?; [|done]; simpl in Hs end.
  repeat match type of Ht with (if negb ?b then _ else _) = _ => destruct b eqn:?; [|done]; simpl in Ht end.
  eapply Hptr in E1 as E1'; [|eassumption..]. eapply Hptr in E2 as E2'; [|eassumption..].
  eapply Hptr in E3 as E3'; [|eassumption..]. eapply Hptr in E4 as E4'; [|eassumption..].
  eapply Hptr in E5 as E5'; [|eassumption..].
  unfold Key. rewrite E1', E2', E3', E4', E5'.
  assert (TrimSpace (vs_TargetTag s) = TrimSpace (vs_TargetTag t)) as ->.
  { rewrite Htag in E6. symmetry in E6. unfold trimmed_empty in *. to_prop. congruence. }
  assert (TrimSpace (vs_ProcessStepKey s) = TrimSpace (vs_ProcessStepKey t)) as ->; [|done].
  rewrite E7 in Hs. destruct (trimmed_empty (vs_ProcessStepKey t)) eqn:Hk; simpl in Hs, Ht.
  - unfold trimmed_empty in E7, Hk. to_prop. congruence.
  - repeat case_bool_decide; simpl in *; congruence.
Qed.

(** *** The candidates of a variable *)

Definition cand_of (sv : VariableScopedValue) : candidate :=
  {| cd_source := from_option fst SourceUnresolved (Source (sv_Scope sv));
     cd_rank := scope_rank (sv_Scope sv); cd_sortOrder := sv_SortOrder sv;
     cd_scope := sv_Scope sv; cd_value := sv_Value sv;
     cd_referenceID := sv_ReferenceID sv; cd_referenceName := sv_ReferenceName sv |}.

Lemma scoped_candidate_eq scope sv :
  scoped_candidate scope sv = if applies scope sv then Some (cand_of sv) else None.
Proof.
  unfold scoped_candidate, applies, Supported, cand_of, scope_rank.
  destruct (Source (sv_Scope sv)) as [[src r]|]; simpl; [|done]. by destruct (scopeMatches _ _).
Qed.

Lemma elem_of_candidates c v scope p :
  c ∈ candidates v scope p <->
  (exists q, p = Some q /\ c = prompted_candidate q)
  \/ (exists sv, sv ∈ v_ScopedValues v /\ applies scope sv = true /\ c = cand_of sv)
  \/ (hasResolutionDefault v = true /\ c = default_candidate v).
Proof.
  unfold candidates. rewrite !elem_of_app, list_elem_of_omap.
  assert (c ∈ option_list (prompted_candidate <$> p) <-> exists q, p = Some q /\ c = prompted_candidate q) as ->.
  { destruct p; simpl; rewrite ?list_elem_of_singleton, ?elem_of_nil; naive_solver. }
  assert (forall sv, scoped_candidate scope sv = Some c <-> applies scope sv = true /\ c = cand_of sv) as Hsv.
  { intros sv. rewrite scoped_candidate_eq. destruct (applies scope sv); naive_solver. }
  setoid_rewrite Hsv.
  destruct (hasResolutionDefault v); rewrite ?list_elem_of_singleton, ?elem_of_nil; naive_solver.
Qed.

Lemma applies_shape scope sv :
  applies scope sv = true ->
  exists c, In c shapes /\ shape_mask c = Mask (sv_Scope sv)
    /\ Source (sv_Scope sv) = Some (shape_source c, shape_rank c)
    /\ scope_rank (sv_Scope sv) = shape_rank c /\ scopeMatches (sv_Scope sv) scope = true.
Proof.
  unfold applies, Supported, scope_rank. destruct (Source (sv_Scope sv)) as [[src r]|] eqn:E; [|done].
  simpl. intros Hm. apply Source_shape in E as (c & Hin & Hk & <- & <-). by exists c.
Qed.

Lemma applies_rank scope sv : applies scope sv = true -> (2 <= scope_rank (sv_Scope sv) <= 9)%Z.
Proof. intros (c & Hin & _ & _ & -> & _)%applies_shape. by apply shape_rank_range. Qed.

Lemma candidate_less_neither x y :
  candidate_less x y = false -> candidate_less y x = false ->
  cd_rank x = cd_rank y /\ cd_sortOrder x = cd_sortOrder y /\ Key (cd_scope x) = Key (cd_scope y).
Proof.
  unfold candidate_less, less_then. rewrite (Z.eqb_sym (cd_rank y)), (Z.eqb_sym (cd_sortOrder y)).
  destruct (Z.eqb_spec (cd_rank x) (cd_rank y)); [|intros; to_prop; lia].
  destruct (Z.eqb_spec (cd_sortOrder x) (cd_sortOrder y)); [|intros; to_prop; lia].
  intros. split_and!; [done..|]. by apply string_less_total.
Qed.

(** No two candidates of a normalized variable are ordered neither way. *)
Lemma candidates_antisym v scope p x y :
  normalized v -> x ∈ candidates v scope p -> y ∈ candidates v scope p ->
  candidate_less x y = false -> candidate_less y x = false -> x = y.
Proof.
  intros [Hs Hk] Hx Hy H1 H2. destruct (candidate_less_neither x y H1 H2) as (Er & _ & Ek).
  apply elem_of_candidates in Hx as [(q & Hq & ->)|[(sv & Hin & Ha & ->)|[Hd ->]]];
  apply elem_of_candidates in Hy as [(q' & Hq' & ->)|[(sv' & Hin' & Ha' & ->)|[Hd' ->]]];
  simpl in Er; try (pose proof (applies_rank _ _ Ha)); try (pose proof (applies_rank _ _ Ha'));
  try lia; try done; [congruence|].
  f_equal. by apply (NoDup_fmap_elem (λ sv, Key (sv_Scope sv)) (v_ScopedValues v)).
Qed.

#[export] Instance candidate_less_swo : StrictWeakOrder candidate_less.
Proof. unfold candidate_less. apply _. Qed.

(** Scoped values that apply to one scope: what the order of the candidates means. *)
Lemma not_after_precedes v scope a b :
  normalized v -> a ∈ v_ScopedValues v -> b ∈ v_ScopedValues v ->
  applies scope a = true -> applies scope b = true ->
  candidate_less (cand_of b) (cand_of a) = false -> b = a \/ precedes a b.
Proof.
  intros [Hs Hk] Ha Hb Haa Hab Hless.
  destruct (decide (Key (sv_Scope a) = Key (sv_Scope b))) as [E|Hne].
  { left. symmetry. by apply (NoDup_fmap_elem (λ sv, Key (sv_Scope sv)) (v_ScopedValues v)). }
  right. unfold precedes.
  destruct (applies_shape _ _ Haa) as (c & Hc & Hmc & Hsc & Hrc & Hma).
  destruct (applies_shape _ _ Hab) as (d & Hd & Hmd & Hsd & Hrd & Hmb).
  unfold candidate_less, less_then, less_str_by in Hless. simpl in Hless. rewrite Hrc, Hrd in *.
  destruct (Z.eqb_spec (shape_rank d) (shape_rank c)) as [E|E]; [|to_prop; lia]. right.
  apply rank_inj in E as ->; [|done..]. destruct (trimmed_empty (vs_TargetTag (sv_Scope a))) eqn:Et.
  { destruct Hne. eapply matches_determined; [done..|congruence|done]. }
  assert (c = {| shape_mask := bits [scopeEnvironment; scopeTargetTag];
                 shape_source := SourceExactEnvironmentTargetTag; shape_rank := 6 |}) as ->.
  { assert (Z.testbit (shape_mask c) 5 = true) as Hbit.
    { rewrite Hmc. unfold Mask. rewrite Et.
      destruct (non_nil _), (non_nil _), (non_nil _), (non_nil _), (non_nil _),
        (trimmed_empty (vs_ProcessStepKey _)); reflexivity. }
    clear -Hc Hbit. unfold shapes in Hc. cbn [In] in Hc.
    repeat match goal with H : _ \/ _ |- _ => destruct H end; subst; by vm_compute in Hbit. }
  rewrite Hsc, Hsd. split_and!; [done..|].
  destruct (Z.eqb_spec (sv_SortOrder b) (sv_SortOrder a)) as [E|E]; [|to_prop; lia]. right. split; [done|].
  destruct (string_less (Key (sv_Scope a)) (Key (sv_Scope b))) eqn:El; [done|].
  destruct Hne. by apply string_less_total.
Qed.

(** *** Prompted values *)

Lemma prompted_loop_ok m l m' :
  prompted_loop m l = Ok m' ->
  NoDup ((λ q, TrimSpace (pv_Key q)) <$> l) /\ Forall (λ q, TrimSpace (pv_Key q) <> "") l
  /\ (forall q, q ∈ l -> m !! TrimSpace (pv_Key q) = None)
  /\ forall k q, m' !! k = Some q <->
       m !! k = Some q \/ exists q0, q0 ∈ l /\ TrimSpace (pv_Key q0) = k /\ q = with_key k q0.
Proof.
  revert m. induction l as [|p l IH]; intros m; simpl.
  { intros [= ->]. split_and!; [constructor..| |]; intros; [set_solver|].
    split; [by left|]. intros [H|(q0 & H & _)]; [done|set_solver]. }
  case_bool_decide as Hb; [done|]. case_bool_decide as Hd; [done|]. intros E.
  apply eq_None_not_Some in Hd. apply IH in E as (Hn & Hf & Hm & Hl). split_and!.
  - constructor; [|done]. intros (q & E & Hq)%list_elem_of_fmap. specialize (Hm q Hq).
    rewrite <- E, lookup_insert_eq in Hm. done.
  - by constructor.
  - intros q [->|Hq]%elem_of_cons; [done|]. specialize (Hm q Hq).
    by apply lookup_insert_None in Hm as [? _].
  - intros k q. rewrite Hl, lookup_insert_Some. split.
    + intros [[[<- <-]|[Hne H]]|(q0 & Hq & H)]; [right; exists p; split; [by left|done]|by left|].
      right. exists q0. split; [by right|done].
    + intros [H|(q0 & [->|Hq]%elem_of_cons & <- & ->)]; [|left; by left|right; by exists q0].
      left. destruct (decide (TrimSpace (pv_Key p) = k)) as [<-|]; [congruence|]. by right.
Qed.

Lemma prompted_loop_total m l :
  NoDup ((λ q, TrimSpace (pv_Key q)) <$> l) -> Forall (λ q, TrimSpace (pv_Key q) <> "") l ->
  (forall q, q ∈ l -> m !! TrimSpace (pv_Key q) = None) -> exists m', prompted_loop m l = Ok m'.
Proof.
  revert m. induction l as [|p l IH]; intros m; simpl; [by exists m|].
  intros [Hp Hn]%NoDup_cons [Hb Hf]%Forall_cons Hm.
  rewrite (bool_decide_eq_false_2 _ Hb), bool_decide_eq_false_2.
  - apply IH; [done..|]. intros q Hq. rewrite lookup_insert_ne; [apply Hm; by right|].
    intros E. apply Hp. rewrite E. by apply (list_elem_of_fmap_2 (λ q, TrimSpace (pv_Key q))).
  - rewrite Hm by (by left). by intros [? ?].
Qed.

Definition prompts_valid (l : list VariablePromptedValue) : Prop :=
  NoDup ((λ q, TrimSpace (pv_Key q)) <$> l) /\ Forall (λ q, TrimSpace (pv_Key q) <> "") l.

Lemma promptedValuesByKey_spec l :
  (prompts_valid l <-> exists m, promptedValuesByKey l = Ok m)
  /\ forall m, promptedValuesByKey l = Ok m -> forall k q, m !! k = Some q <->
       exists q0, q0 ∈ l /\ TrimSpace (pv_Key q0) = k /\ q = with_key k q0.
Proof.
  unfold promptedValuesByKey, prompts_valid. split; [split|].
  - intros [Hn Hf]. by apply prompted_loop_total.
  - intros [m Hm]. by apply prompted_loop_ok in Hm as (? & ? & _).
  - intros m (_ & _ & _ & Hl)%prompted_loop_ok k q. rewrite Hl, lookup_empty. naive_solver.
Qed.

(** ** The properties *)

(** The result [r] carries the value and the reference of a candidate. *)
Definition carries (v : types_Variable) (r : ResolvedVariable) (source : VariableResolutionSource)
    (value : option string) (referenceID referenceName : string) : Prop :=
  rv_Status r = VariableResolutionStatusResolved /\ rv_Source r = source
  /\ rv_Value r = (if isReferenceVariableType (v_Type v) then None else value)
  /\ rv_ReferenceID r = referenceID /\ rv_ReferenceName r = referenceName
  /\ rv_Redacted r = bool_decide (v_Type v = VariableTypeSecretReference).

Lemma resolve_selected v scope p c k :
  stable_sort candidate_less (candidates v scope p) = c :: k ->
  carries v (resolveVariable v scope p) (cd_source c) (cd_value c) (cd_referenceID c) (cd_referenceName c).
Proof.
  intros E. unfold resolveVariable, carries. rewrite E. simpl. split_and!; try done.
  destruct (v_Type v); done.
Qed.

(** What decides the value of [v], when [prompted] are the values prompted for its key. *)
Definition decided (v : types_Variable) (scope : VariableResolutionScope)
    (prompted : list VariablePromptedValue) (r : ResolvedVariable) : Prop :=
  (exists q, q ∈ prompted /\ TrimSpace (pv_Key q) = TrimSpace (v_Key v)
     /\ carries v r SourcePrompted (pv_Value q) (pv_ReferenceID q) (pv_ReferenceName q))
  \/ ((forall q, q ∈ prompted -> TrimSpace (pv_Key q) <> TrimSpace (v_Key v))
      /\ ((exists sv source, sv ∈ v_ScopedValues v /\ applies scope sv = true
             /\ Source (sv_Scope sv) = Some (source, scope_rank (sv_Scope sv))
             /\ carries v r source (sv_Value sv) (sv_ReferenceID sv) (sv_ReferenceName sv)
             /\ forall other, other ∈ v_ScopedValues v -> applies scope other = true ->
                  other = sv \/ precedes sv other)
          \/ ((forall sv, sv ∈ v_ScopedValues v -> applies scope sv = false)
              /\ if hasResolutionDefault v
                 then carries v r SourceDefault (v_DefaultValue v) (v_ReferenceID v) (v_ReferenceName v)
                 else rv_Status r = VariableResolutionStatusUnresolved /\ rv_Source r = SourceUnresolved
                      /\ rv_Value r = None /\ rv_ReferenceID r = "" /\ rv_Redacted r = false))).

(** The trace names the selected candidate first and only it as selected. *)
Definition traced (r : ResolvedVariable) : Prop :=
  exists e l, rv_Trace r = e :: l /\ te_Selected e = true /\ te_Source e = rv_Source r
    /\ Forall (λ e, te_Selected e = false) l.

Lemma resolve_traced v scope p : traced (resolveVariable v scope p).
Proof.
  unfold traced, resolveVariable. destruct (stable_sort _ _) as [|c l] eqn:E; simpl; do 2 eexists;
    split_and!; try reflexivity; [by constructor|].
  apply Forall_forall. intros e (i & c' & -> & _)%elem_of_lookup_imap_1. done.
Qed.

Lemma resolve_decided_scoped v scope :
  normalized v ->
  (exists sv source, sv ∈ v_ScopedValues v /\ applies scope sv = true
     /\ Source (sv_Scope sv) = Some (source, scope_rank (sv_Scope sv))
     /\ carries v (resolveVariable v scope None) source (sv_Value sv) (sv_ReferenceID sv) (sv_ReferenceName sv)
     /\ forall other, other ∈ v_ScopedValues v -> applies scope other = true ->
          other = sv \/ precedes sv other)
  \/ ((forall sv, sv ∈ v_ScopedValues v -> applies scope sv = false)
      /\ if hasResolutionDefault v
         then carries v (resolveVariable v scope None) SourceDefault (v_DefaultValue v)
                (v_ReferenceID v) (v_ReferenceName v)
         else rv_Status (resolveVariable v scope None) = VariableResolutionStatusUnresolved
              /\ rv_Source (resolveVariable v scope None) = SourceUnresolved
              /\ rv_Value (resolveVariable v scope None) = None
              /\ rv_ReferenceID (resolveVariable v scope None) = ""
              /\ rv_Redacted (resolveVariable v scope None) = false).
Proof.
  intros Hv. destruct (stable_sort candidate_less (candidates v scope None)) as [|c l] eqn:E.
  { right. assert (candidates v scope None = []) as Hnil.
    { apply Permutation_nil_r. by rewrite <- E, stable_sort_perm. }
    split.
    - intros sv Hsv. destruct (applies scope sv) eqn:Ha; [|done].
      assert (cand_of sv ∈ candidates v scope None) as Hin; [|rewrite Hnil in Hin; set_solver].
      apply elem_of_candidates. right. left. by exists sv.
    - destruct (hasResolutionDefault v) eqn:Hd.
      + assert (default_candidate v ∈ candidates v scope None) as Hin; [|rewrite Hnil in Hin; set_solver].
        apply elem_of_candidates. by do 2 right.
      + unfold resolveVariable. by rewrite E. }
  apply resolve_selected in E as Hc. apply stable_sort_head in E as [Hin Hmin]; [|apply _].
  assert (forall y, y ∈ candidates v scope None -> (cd_rank c <= cd_rank y)%Z) as Hrank.
  { intros y [->|H]%Hmin; [lia|]. unfold candidate_less, less_then in H.
    destruct (Z.eqb_spec (cd_rank y) (cd_rank c)); to_prop; lia. }
  apply elem_of_candidates in Hin as [(q & ? & _)|[(sv & Hsv & Ha & ->)|[Hd ->]]]; [done|left|right].
  - destruct (applies_shape _ _ Ha) as (sh & _ & _ & Hs & Hr & _).
    exists sv, (shape_source sh). rewrite <- Hr in Hs. split_and!; try done.
    { simpl in Hc. by rewrite Hs in Hc. }
    intros other Ho Hao. destruct (Hmin (cand_of other)) as [E|E].
    { apply elem_of_candidates. right. left. by exists other. }
    + left. apply (NoDup_fmap_elem (λ sv, Key (sv_Scope sv)) (v_ScopedValues v));
        [apply Hv|done..|]. by injection E as _ _ _ ->.
    + by eapply not_after_precedes.
  - split; [|by rewrite Hd]. intros sv Hsv. destruct (applies scope sv) eqn:Ha; [|done].
    pose proof (applies_rank _ _ Ha) as Hr.
    assert (cand_of sv ∈ candidates v scope None) as Hin.
    { apply elem_of_candidates. right. left. by exists sv. }
    apply Hrank in Hin. simpl in Hin. lia.
Qed.

Lemma resolve_decided_prompted v scope q :
  carries v (resolveVariable v scope (Some q)) SourcePrompted (pv_Value q) (pv_ReferenceID q)
    (pv_ReferenceName q).
Proof.
  destruct (stable_sort candidate_less (candidates v scope (Some q))) as [|c l] eqn:E.
  { apply (f_equal length) in E. by rewrite length_stable_sort in E. }
  apply resolve_selected in E as Hc. apply stable_sort_head in E as [Hin Hmin]; [|apply _].
  assert (c = prompted_candidate q) as ->; [|done].
  destruct (Hmin (prompted_candidate q)) as [<-|H]; [apply elem_of_candidates; left; by exists q|done|].
  unfold candidate_less, less_then in H.
  apply elem_of_candidates in Hin as [(? & [= <-] & ->)|[(sv & Hsv & Ha & ->)|[Hd ->]]]; [done|..];
    cbn [cd_rank prompted_candidate cand_of] in H; [|by vm_compute in H].
  pose proof (applies_rank _ _ Ha). destruct (Z.eqb_spec 1 (scope_rank (sv_Scope sv))); [lia|].
  to_prop. lia.
Qed.


Definition with_values (l : list VariableScopedValue) (v : types_Variable) : types_Variable :=
  {| v_ID := v_ID v; v_VariableSetID := v_VariableSetID v; v_Key := v_Key v; v_Type := v_Type v;
     v_IsRequired := v_IsRequired v; v_DefaultValue := v_DefaultValue v; v_ReferenceID := v_ReferenceID v;
     v_ReferenceName := v_ReferenceName v; v_ScopedValues := l |}.

(** The same variable with its scoped values in another order. *)
Definition reordered (v v' : types_Variable) : Prop :=
  normalized v /\ exists l, v_ScopedValues v ≡ₚ l /\ v' = with_values l v.

Lemma resolveVariable_reordered v v' scope p :
  reordered v v' -> resolveVariable v scope p = resolveVariable v' scope p.
Proof.
  intros [Hv (l & Hp & ->)].
  assert (stable_sort candidate_less (candidates v scope p)
          = stable_sort candidate_less (candidates (with_values l v) scope p)) as E.
  { apply stable_sort_unique; [apply _| |].
    - unfold candidates. simpl. by rewrite Hp.
    - intros x y. by apply candidates_antisym. }
  unfold resolveVariable. rewrite <- E. by destruct (stable_sort _ _).
Qed.

(** The order in which the scoped values of a variable and the prompted
    values are listed changes neither a value nor a trace: a resolution is
    reproducible from the same data. *)
Theorem variable_resolution_reproducible request request' rs :
  Resolve request = Ok rs -> rq_Scope request' = rq_Scope request ->
  Forall2 reordered (rq_Variables request) (rq_Variables request') ->
  rq_PromptedValues request ≡ₚ rq_PromptedValues request' ->
  Resolve request' = Ok rs.
Proof.
  unfold Resolve. intros H -> Hvs Hps.
  destruct (promptedValuesByKey_spec (rq_PromptedValues request)) as [Hok Hm].
  destruct (promptedValuesByKey_spec (rq_PromptedValues request')) as [Hok' Hm'].
  destruct (promptedValuesByKey (rq_PromptedValues request)) as [m|] eqn:E; simpl in H; [|done].
  injection H as <-. destruct (proj1 Hok') as [m' E'].
  { destruct Hok as [_ [Hn Hf]]; [by exists m|]. split; by rewrite <- Hps. }
  rewrite E'. simpl. assert (m' = m) as ->.
  { apply map_eq. intros k. apply option_eq. intros q. rewrite (Hm' m' E' k q), (Hm m eq_refl k q).
    by setoid_rewrite Hps. }
  f_equal. induction Hvs as [|v v' vs vs' Hv Hvs IH]; [done|]. cbn [fmap list_fmap]. rewrite IH. f_equal.
  rewrite (resolveVariable_reordered v v') by done. by destruct Hv as [_ (l & _ & ->)].
Qed.

(** The textual key of a scope, by which a variable set rejects duplicate
    scoped values, identifies the scope: among scopes of a supported shape,
    two have the same key exactly when they have the same identifiers and, up
    to surrounding white space, the same target tag and step, although a tag
    may contain the separator. *)
Theorem scope_key_identifies a b :
  Supported a = true -> Supported b = true -> (Key a = Key b <-> trim_scope a = trim_scope b).
Proof.
  intros Ha Hb. split; [by apply Key_inj|]. intros E. by rewrite <- (Key_trim a), <- (Key_trim b), E.
Qed.

(** ** A concrete variable, as in the tests of the resolver *)

Definition demo_value (s : VariableScope) (order : Z) (value : string) : VariableScopedValue :=
  {| sv_Scope := s; sv_SortOrder := order; sv_Value := Some value; sv_ReferenceID := "";
     sv_ReferenceName := "" |}.

Definition demo_scope (tenant env target : option uuid) (tag : string) : VariableScope :=
  {| vs_CustomerOrganizationID := tenant; vs_EnvironmentID := env; vs_ChannelID := None;
     vs_DeploymentTargetID := target; vs_ApplicationID := None; vs_TargetTag := tag;
     vs_ProcessStepKey := "" |}.

Definition demo_values : list VariableScopedValue :=
  [demo_value (demo_scope None (Some (uid 2)) None "") 0 "environment";
   demo_value (demo_scope None (Some (uid 2)) None "gpu") 1 "gpu";
   demo_value (demo_scope None (Some (uid 2)) None " linux ") 0 "linux";
   demo_value (demo_scope (Some (uid 1)) (Some (uid 2)) (Some (uid 3)) "") 0 "tenant"].

Definition demo_variable : types_Variable :=
  {| v_ID := uid 10; v_VariableSetID := uid 11; v_Key := "api_url"; v_Type := VariableTypeString;
     v_IsRequired := true; v_DefaultValue := Some "default"; v_ReferenceID := ""; v_ReferenceName := "";
     v_ScopedValues := demo_values |}.

Definition demo_request (tenant : option uuid) (values : list VariableScopedValue) : Request :=
  {| rq_Variables := [with_values values demo_variable];
     rq_Scope := {| rs_CustomerOrganizationID := tenant; rs_EnvironmentID := Some (uid 2);
                    rs_ChannelID := None; rs_DeploymentTargetID := Some (uid 3);
                    rs_ApplicationID := None; rs_TargetTags := ["linux"; "gpu"];
                    rs_ProcessStepKey := "" |};
     rq_PromptedValues := [] |}.

Lemma demo_normalized : normalized demo_variable.
Proof.
  split.
  - apply Forall_forall. apply (bool_decide_unpack _). vm_compute. exact I.
  - apply (bool_decide_unpack _). vm_compute. exact I.
Qed.

(** The most specific value, and among tags the one with the lower sort order. *)
Example demo_resolved :
  (λ r, rv_Value <$> ok_or [] (Resolve r)) <$> [demo_request (Some (uid 1)) demo_values; demo_request None demo_values]
  = [[Some "tenant"]; [Some "linux"]].
Proof. vm_compute. reflexivity. Qed.


Lemma variable_resolution_reproducible_witness :
  exists rs, Resolve (demo_request None demo_values) = Ok rs
    /\ Resolve (demo_request None (reverse demo_values)) = Ok rs.
Proof.
  destruct (ok_value (Resolve (demo_request None demo_values)) eq_refl) as [rs Hrs].
  exists rs. split; [exact Hrs|].
  apply (variable_resolution_reproducible (demo_request None demo_values)); [exact Hrs|reflexivity| |done].
  constructor; [|constructor]. split; [exact demo_normalized|].
  exists (reverse demo_values). split; [symmetry; apply reverse_Permutation|reflexivity].
Defined.

Lemma scope_key_identifies_witness :
  Key (demo_scope None (Some (uid 2)) None " a|b") = Key (demo_scope None (Some (uid 2)) None "a|b ").
Proof. apply scope_key_identifies; vm_compute; reflexivity. Defined.
