(* ===== verification/GoRegexp.v ===== *)
(** * Runes and regular expressions of Go

    [unicode/utf8]: a string is decoded to runes, an invalid byte to the
    replacement character with width one. [regexp]: the expressions the program
    uses, as a syntax tree with the leftmost-first semantics of the package: a
    match is the first one of a backtracking search. Repetition is of single
    runes only, which is all that the program's expressions need. *)
From S2P Require Import Prelude GoStrings.
From Stdlib Require Import Ascii.
Open Scope list_scope.

(** ** Runes *)

(** A decoded rune with the bytes it was decoded from. *)
Record rune := { r_code : N; r_raw : string }.

Definition RuneError : N := 65533.

Definition between (lo hi : N) (a : ascii) : bool := (lo <=? code a)%N && (code a <=? hi)%N.

Definition valid2 (a b : ascii) : bool := between 194 223 a && between 128 191 b.

Definition valid3 (a b c : ascii) : bool :=
  between 224 239 a && between 128 191 c
  && (if (code a =? 224)%N then between 160 191 b
      else if (code a =? 237)%N then between 128 159 b else between 128 191 b).

Definition valid4 (a b c d : ascii) : bool :=
  between 240 244 a && between 128 191 c && between 128 191 d
  && (if (code a =? 240)%N then between 144 191 b
      else if (code a =? 244)%N then between 128 143 b else between 128 191 b).

Definition low6 (a : ascii) : N := N.land (code a) 63.

Definition rune1 (a : ascii) : rune :=
  {| r_code := if (code a <? 128)%N then code a else RuneError; r_raw := String a "" |}.
Definition rune2 (a b : ascii) : rune :=
  {| r_code := N.shiftl (N.land (code a) 31) 6 + low6 b; r_raw := String a (String b "") |}.
Definition rune3 (a b c : ascii) : rune :=
  {| r_code := N.shiftl (N.land (code a) 15) 12 + N.shiftl (low6 b) 6 + low6 c;
     r_raw := String a (String b (String c "")) |}.
Definition rune4 (a b c d : ascii) : rune :=
  {| r_code := N.shiftl (N.land (code a) 7) 18 + N.shiftl (low6 b) 12 + N.shiftl (low6 c) 6 + low6 d;
     r_raw := String a (String b (String c (String d ""))) |}.

(** [for _, r := range s]: an invalid byte is a rune of its own. *)
Fixpoint runes (s : string) : list rune :=
  match s with
  | EmptyString => []
  | String a s1 =>
      match s1 with
      | EmptyString => [rune1 a]
      | String b s2 =>
          if valid2 a b then rune2 a b :: runes s2 else
          match s2 with
          | EmptyString => rune1 a :: runes s1
          | String c s3 =>
              if valid3 a b c then rune3 a b c :: runes s3 else
              match s3 with
              | EmptyString => rune1 a :: runes s1
              | String d s4 =>
                  if valid4 a b c d then rune4 a b c d :: runes s4 else rune1 a :: runes s1
              end
          end
      end
  end.

(** The bytes of a list of runes. *)
Definition raw (l : list rune) : string := foldr (λ r s, r_raw r +:+ s) "" l.

(** The UTF-8 encoding of the replacement character. *)
Definition replacement_char : string :=
  String (ascii_of_N 239) (String (ascii_of_N 191) (String (ascii_of_N 189) "")).

(** Encoding a decoded rune: itself, or the replacement character. *)
Definition encode_rune (r : rune) : string :=
  if (r_code r =? RuneError)%N then replacement_char else r_raw r.

(** [string(runes)] of a slice of runes. *)
Definition string_of_runes (l : list rune) : string := foldr (λ r s, encode_rune r +:+ s) "" l.

Lemma raw_app k l : raw (k ++ l) = raw k +:+ raw l.
Proof. induction k as [|r k IH]; [done|]. simpl. by rewrite IH, string_app_assoc. Qed.

(** The runes that the decoding makes. *)
Inductive decoded : rune -> Prop :=
| decoded1 a : decoded (rune1 a)
| decoded2 a b : valid2 a b = true -> decoded (rune2 a b)
| decoded3 a b c : valid3 a b c = true -> decoded (rune3 a b c)
| decoded4 a b c d : valid4 a b c d = true -> decoded (rune4 a b c d).

Lemma decoded_nonempty r : decoded r -> String.length (r_raw r) <> 0.
Proof. by destruct 1. Qed.

(** Induction along the decoding: every step takes one to four bytes. *)
Lemma runes_ind (P : string -> Prop) :
  P "" ->
  (forall r s, decoded r -> runes (r_raw r +:+ s) = r :: runes s -> P s -> P (r_raw r +:+ s)) ->
  forall s, P s.
Proof.
  intros H0 HS s. remember (String.length s) as n eqn:Hn. revert s Hn.
  induction (lt_wf n) as [n _ IH]. intros s ->.
  assert (forall t, String.length t < String.length s -> P t) as IHs.
  { intros t Ht. by apply (IH (String.length t)). }
  destruct s as [|a s1]; [done|]. destruct s1 as [|b s2].
  { by apply (HS (rune1 a) "" (decoded1 a)). }
  destruct (valid2 a b) eqn:E2.
  { apply (HS (rune2 a b) s2); [by constructor|simpl; by rewrite E2|]. apply IHs. simpl. lia. }
  destruct s2 as [|c s3].
  { apply (HS (rune1 a) (String b "")); [by constructor|simpl; by rewrite E2|]. apply IHs. simpl. lia. }
  destruct (valid3 a b c) eqn:E3.
  { apply (HS (rune3 a b c) s3); [by constructor|simpl; by rewrite E2, E3|]. apply IHs. simpl. lia. }
  destruct s3 as [|d s4].
  { apply (HS (rune1 a) (String b (String c ""))); [by constructor|simpl; by rewrite E2, E3|]. apply IHs. simpl. lia. }
  destruct (valid4 a b c d) eqn:E4.
  { apply (HS (rune4 a b c d) s4); [by constructor|simpl; by rewrite E2, E3, E4|]. apply IHs. simpl. lia. }
  apply (HS (rune1 a) (String b (String c (String d s4)))); [by constructor|simpl; by rewrite E2, E3, E4|].
  apply IHs. simpl. lia.
Qed.

(** Decoding loses nothing. *)
Lemma raw_runes s : raw (runes s) = s.
Proof. induction s as [|r s _ E IH] using runes_ind; [done|]. rewrite E. simpl. by rewrite IH. Qed.

Lemma runes_decoded s : Forall decoded (runes s).
Proof. induction s as [|r s Hr E IH] using runes_ind; [constructor|]. rewrite E. by constructor. Qed.

(** ** Regular expressions *)

Inductive regex :=
| RRune (f : N -> bool)            (** one rune *)
| RWordBoundary                     (** [\b] *)
| RSeq (r1 r2 : regex)
| RAlt (r1 r2 : regex)
| ROpt (r : regex)                  (** [r?] *)
| RStar (f : N -> bool)            (** [[...]*] *)
| RPlus (f : N -> bool)            (** [[...]+] *)
| RRep (n : nat) (f : N -> bool)   (** [[...]{n}] *)
| RGroup (i : nat) (r : regex)      (** a capturing group *)
| RBegin                            (** [^] *)
| REnd.                             (** [$] *)

(** A position of the input: the rune before it, the runes after it, and the
    texts captured so far. *)
Record position := {
  pos_prev : option rune;
  pos_rest : list rune;
  pos_caps : list (nat * string);
}.

Definition is_word (c : N) : bool :=
  ((48 <=? c) && (c <=? 57) || (65 <=? c) && (c <=? 90) || (97 <=? c) && (c <=? 122) || (c =? 95))%N.

Definition word_at (r : option rune) : bool := match r with Some r => is_word (r_code r) | None => false end.

Definition advance (p : position) (r : rune) (rest : list rune) : position :=
  {| pos_prev := Some r; pos_rest := rest; pos_caps := pos_caps p |}.

Fixpoint star (f : N -> bool) (prev : option rune) (caps : list (nat * string)) (l : list rune)
    : list position :=
  let here := {| pos_prev := prev; pos_rest := l; pos_caps := caps |} in
  match l with
  | r :: rest => if f (r_code r) then star f (Some r) caps rest ++ [here] else [here]
  | [] => [here]
  end.

(** All ends of matches from a position, in the order of preference. *)
Fixpoint match_re (e : regex) (p : position) : list position :=
  match e with
  | RRune f =>
      match pos_rest p with
      | r :: rest => if f (r_code r) then [advance p r rest] else []
      | [] => []
      end
  | RWordBoundary => if xorb (word_at (pos_prev p)) (word_at (head (pos_rest p))) then [p] else []
  | RSeq e1 e2 => match_re e1 p ≫= match_re e2
  | RAlt e1 e2 => match_re e1 p ++ match_re e2 p
  | ROpt e => match_re e p ++ [p]
  | RStar f => star f (pos_prev p) (pos_caps p) (pos_rest p)
  | RPlus f =>
      match pos_rest p with
      | r :: rest => if f (r_code r) then star f (Some r) (pos_caps p) rest else []
      | [] => []
      end
  | RRep n f =>
      Nat.iter n (λ ps, ps ≫= λ p, match pos_rest p with
        | r :: rest => if f (r_code r) then [advance p r rest] else []
        | [] => []
        end) [p]
  | RGroup i e =>
      (λ q, {| pos_prev := pos_prev q; pos_rest := pos_rest q;
               pos_caps := (i, raw (take (length (pos_rest p) - length (pos_rest q)) (pos_rest p)))
                           :: pos_caps q |}) <$> match_re e p
  | RBegin => match pos_prev p with None => [p] | Some _ => [] end
  | REnd => match pos_rest p with [] => [p] | _ => [] end
  end.

Definition start (prev : option rune) (l : list rune) : position :=
  {| pos_prev := prev; pos_rest := l; pos_caps := [] |}.

(** The preferred match that starts here. *)
Definition match_here (e : regex) (prev : option rune) (l : list rune) : option position :=
  head (match_re e (start prev l)).

(** The leftmost match. *)
Fixpoint find_from (e : regex) (prev : option rune) (l : list rune) : option position :=
  match match_here e prev l with
  | Some q => Some q
  | None => match l with [] => None | r :: l => find_from e (Some r) l end
  end.

(** [${i}] of a replacement and the groups of a match: the text of a group,
    empty when it has none. *)
Definition group (i : nat) (q : position) : string :=
  default "" (snd <$> List.find (λ c, bool_decide (fst c = i)) (pos_caps q)).

Definition MatchString (e : regex) (s : string) : bool :=
  match find_from e None (runes s) with Some _ => true | None => false end.

Definition FindStringSubmatch (e : regex) (s : string) : option (nat -> string) :=
  (λ q i, group i q) <$> find_from e None (runes s).

(** The scan of [ReplaceAllString], [skip] runes being part of a match; the
    expressions of the program match no empty text. *)
Fixpoint replace_matches (e : regex) (template : position -> string) (skip : nat) (prev : option rune)
    (l : list rune) : string :=
  match l with
  | [] => ""
  | r :: rest =>
      match skip with
      | S k => replace_matches e template k (Some r) rest
      | 0 =>
          match match_here e prev l with
          | Some q =>
              template q +:+ replace_matches e template (length rest - length (pos_rest q)) (Some r) rest
          | None => r_raw r +:+ replace_matches e template 0 (Some r) rest
          end
      end
  end.

Definition ReplaceAllString (e : regex) (s : string) (template : position -> string) : string :=
  replace_matches e template 0 None (runes s).

(** ** Character classes *)

(** A rune that equals the ASCII letter or sign [c] up to case, as [(?i)] folds
    it: [s] also matches U+017F and [k] also matches U+212A. *)
Definition folds (c : ascii) (r : N) : bool :=
  let lower := code (lower_ascii c) in
  ((r =? lower) || (97 <=? lower) && (lower <=? 122) && (r =? lower - 32)
   || (lower =? 115) && (r =? 383) || (lower =? 107) && (r =? 8490))%N.

(** A literal text under [(?i)], and an exact one; never empty. *)
Fixpoint literal (f : ascii -> N -> bool) (s : string) : regex :=
  match s with
  | EmptyString => RStar (λ _, false)
  | String a EmptyString => RRune (f a)
  | String a s => RSeq (RRune (f a)) (literal f s)
  end.

Definition RText (s : string) : regex := literal (λ a r, (code a =? r)%N) s.
Definition RTextFold (s : string) : regex := literal folds s.

(** [\s] *)
Definition is_space (c : N) : bool := ((c =? 9) || (c =? 10) || (c =? 12) || (c =? 13) || (c =? 32))%N.

Definition one_of (s : string) (c : N) : bool := existsb (λ a, (code a =? c)%N) (String.list_ascii_of_string s).

Definition range (lo hi : ascii) (c : N) : bool := ((code lo <=? c) && (c <=? code hi))%N.

Fixpoint RSeqs (l : list regex) : regex :=
  match l with
  | [] => RStar (λ _, false)
  | [e] => e
  | e :: l => RSeq e (RSeqs l)
  end.

Fixpoint RAlts (l : list regex) : regex :=
  match l with
  | [] => RRune (λ _, false)
  | [e] => e
  | e :: l => RAlt e (RAlts l)
  end.
