(* ===== verification/GoJson.v ===== *)
(** * The JSON encoding of Go ([encoding/json])

    What [json.Marshal] prints for the structures that the program hashes:
    strings, integers, booleans, slices, raw messages and structs with tagged
    fields; and how [json.Unmarshal] reads a string. *)
From S2P Require Import Prelude GoStrings GoRegexp.
From Stdlib Require Import Ascii.
Open Scope list_scope.

Definition hex4 (n : N) : string :=
  String (quote_hex (N.shiftr n 12 mod 16)) (String (quote_hex (N.shiftr n 8 mod 16))
    (String (quote_hex (N.shiftr n 4 mod 16)) (String (quote_hex (n mod 16)) ""))).

Definition backslash : ascii := ascii_of_N 92.
Definition double_quote : ascii := ascii_of_N 34.

(** One rune inside a string, with the HTML escapes that [Marshal] applies. *)
Definition json_rune (r : rune) : string :=
  let c := r_code r in
  if (c =? RuneError)%N && bool_decide (String.length (r_raw r) = 1) then String backslash "ufffd" else
  if (c =? 34)%N || (c =? 92)%N then String backslash (r_raw r) else
  if (c =? 8)%N then String backslash "b" else if (c =? 12)%N then String backslash "f" else
  if (c =? 10)%N then String backslash "n" else if (c =? 13)%N then String backslash "r" else
  if (c =? 9)%N then String backslash "t" else
  if (c <? 32)%N || (c =? 60)%N || (c =? 62)%N || (c =? 38)%N || (c =? 8232)%N || (c =? 8233)%N
  then String backslash ("u" +:+ hex4 c) else r_raw r.

Definition json_string (s : string) : string :=
  String double_quote (foldr (λ r t, json_rune r +:+ t) (String double_quote "") (runes s)).

Definition json_int (z : Z) : string := itoa z.

Definition json_list (l : list string) : string := "[" +:+ Join l "," +:+ "]".

(** A nil slice is [null]. *)
Definition json_strings (l : option (list string)) : string :=
  match l with None => "null" | Some l => json_list (json_string <$> l) end.

(** A struct: the fields that [omitempty] leaves in, in their order. *)
Definition json_struct (fields : list (string * option string)) : string :=
  "{" +:+ Join (omap (λ '(name, v), (λ v, json_string name +:+ ":" +:+ v) <$> v) fields) "," +:+ "}".

Definition omitempty (s : string) : option string :=
  if bool_decide (s = "") then None else Some (json_string s).

(** Fields without [omitempty]; a nil slice of structs is [null]. *)
Definition text (s : string) : option string := Some (json_string s).
Definition texts_field (l : list string) : option string := Some (json_list (json_string <$> l)).
Definition nil_list {A} (f : A -> string) (l : option (list A)) : option string :=
  Some match l with None => "null" | Some l => json_list (f <$> l) end.

Example json_demo :
  json_struct [("a", Some (json_string "x<y")); ("b", omitempty ""); ("c", Some (json_strings (Some ["k"])));
               ("n", Some (json_int (-3)))]
  = "{" +:+ json_string "a" +:+ ":" +:+ String double_quote ("x" +:+ String backslash "u003cy")
    +:+ String double_quote "," +:+ json_string "c" +:+ ":[" +:+ json_string "k" +:+ "]," +:+ json_string "n" +:+ ":-3}".
Proof. vm_compute. reflexivity. Qed.

Definition json_bool (b : bool) : string := if b then "true" else "false".

(** ** Strings read back *)

(** [utf8.AppendRune] *)
Definition utf8_encode (n : N) : string :=
  let a (k : N) : ascii := ascii_of_N k in
  let tail (k : N) : ascii := a (128 + N.land (N.shiftr n k) 63)%N in
  if (n <? 128)%N then String (a n) "" else
  if (n <? 2048)%N then String (a (192 + N.shiftr n 6)%N) (String (tail 0%N) "") else
  if (n <? 65536)%N then String (a (224 + N.shiftr n 12)%N) (String (tail 6%N) (String (tail 0%N) "")) else
  String (a (240 + N.shiftr n 18)%N) (String (tail 12%N) (String (tail 6%N) (String (tail 0%N) ""))).

Definition hex_value (r : rune) : option N :=
  let c := r_code r in
  if ((48 <=? c) && (c <=? 57))%N then Some (c - 48)%N else
  if ((97 <=? c) && (c <=? 102))%N then Some (c - 87)%N else
  if ((65 <=? c) && (c <=? 70))%N then Some (c - 55)%N else None.

(** The characters of a string literal: a rune, or the code unit of an escape. *)
Inductive token := TRune (r : rune) | TUnit (n : N).

Definition simple_escape (c : N) : option N :=
  if ((c =? 34) || (c =? 92) || (c =? 47))%N then Some c else
  if (c =? 98)%N then Some 8%N else if (c =? 102)%N then Some 12%N else if (c =? 110)%N then Some 10%N else
  if (c =? 114)%N then Some 13%N else if (c =? 116)%N then Some 9%N else None.

(** Up to the closing quotation mark, with what follows it. *)
Fixpoint json_literal (l : list rune) : option (list token * list rune) :=
  match l with
  | [] => None
  | r :: l =>
      let c := r_code r in
      let add (t : token) (x : option (list token * list rune)) := (λ '(ts, rest), (t :: ts, rest)) <$> x in
      if (c =? 34)%N then Some ([], l) else
      if (c <? 32)%N then None else
      if negb (c =? 92)%N then add (TRune r) (json_literal l) else
      match l with
      | [] => None
      | e :: l1 =>
          match simple_escape (r_code e) with
          | Some n => add (TUnit n) (json_literal l1)
          | None =>
              if negb (r_code e =? 117)%N then None else
              match l1 with
              | h1 :: h2 :: h3 :: h4 :: l5 =>
                  match hex_value h1, hex_value h2, hex_value h3, hex_value h4 with
                  | Some a, Some b, Some c, Some d =>
                      add (TUnit (a * 4096 + b * 256 + c * 16 + d)%N) (json_literal l5)
                  | _, _, _, _ => None
                  end
              | _ => None
              end
          end
      end
  end.

Definition is_surrogate (n : N) : bool := ((55296 <=? n) && (n <? 57344))%N.

(** Escaped surrogates count in pairs; a single one is replaced, as is an
    invalid byte. *)
Fixpoint decode_tokens (l : list token) : string :=
  match l with
  | [] => ""
  | TRune r :: l => encode_rune r +:+ decode_tokens l
  | TUnit n :: l =>
      match l with
      | TUnit m :: l' =>
          if ((55296 <=? n) && (n <? 56320) && (56320 <=? m) && (m <? 57344))%N
          then utf8_encode (65536 + (n - 55296) * 1024 + (m - 56320))%N +:+ decode_tokens l'
          else (if is_surrogate n then replacement_char else utf8_encode n) +:+ decode_tokens l
      | _ => (if is_surrogate n then replacement_char else utf8_encode n) +:+ decode_tokens l
      end
  end.

(** [json.Unmarshal] of a text that starts and ends with a quotation mark into a
    [string]. *)
Definition unmarshal_string (s : string) : option string :=
  match runes s with
  | q :: l =>
      if negb (r_code q =? 34)%N then None else
      match json_literal l with Some (tokens, []) => Some (decode_tokens tokens) | _ => None end
  | [] => None
  end.

Example unmarshal_string_demo :
  let q s := String double_quote (s +:+ String double_quote "") in
  let u s := String backslash ("u" +:+ s) in
  unmarshal_string (q ("a" +:+ u "003c" +:+ u "d83d" +:+ u "de00" +:+ u "d800" +:+ "b"))
  = Some ("a<" +:+ utf8_encode 128512 +:+ replacement_char +:+ "b")
  /\ unmarshal_string (q (String backslash "")) = None /\ unmarshal_string (q (q "")) = None
  /\ unmarshal_string (json_string ("x<" +:+ String backslash "y")) = Some ("x<" +:+ String backslash "y").
Proof. vm_compute. done. Qed.

(** ** Raw messages

    [Marshal] of a [json.RawMessage] checks the text and drops the white space
    between its tokens; inside strings it applies the HTML escapes. *)

Definition json_space (a : ascii) : bool :=
  let c := code a in ((c =? 32) || (c =? 9) || (c =? 10) || (c =? 13))%N.

Fixpoint skip_space (s : string) : string :=
  match s with String a r => if json_space a then skip_space r else s | EmptyString => s end.

Definition is_digit (a : ascii) : bool := ((48 <=? code a) && (code a <=? 57))%N.

Fixpoint scan_digits (s : string) : string * string :=
  match s with
  | String a r => if is_digit a then let '(d, rest) := scan_digits r in (String a d, rest) else ("", s)
  | EmptyString => ("", s)
  end.

Definition scan_digits1 (s : string) : option (string * string) :=
  let '(d, rest) := scan_digits s in if bool_decide (d = "") then None else Some (d, rest).

Definition scan_integer (s : string) : option (string * string) :=
  match s with
  | String a r => if (code a =? 48)%N then Some (String a "", r) else scan_digits1 s
  | EmptyString => None
  end.

Definition scan_fraction (s : string) : option (string * string) :=
  match s with
  | String a r => if (code a =? 46)%N then (λ '(d, rest), (String a d, rest)) <$> scan_digits1 r else Some ("", s)
  | EmptyString => Some ("", s)
  end.

Definition scan_json_exponent (s : string) : option (string * string) :=
  match s with
  | String a r =>
      if ((code a =? 101) || (code a =? 69))%N then
        match r with
        | String b r1 =>
            if ((code b =? 43) || (code b =? 45))%N
            then (λ '(d, rest), (String a (String b d), rest)) <$> scan_digits1 r1
            else (λ '(d, rest), (String a d, rest)) <$> scan_digits1 r
        | EmptyString => None
        end
      else Some ("", s)
  | EmptyString => Some ("", s)
  end.

Definition scan_number (s : string) : option (string * string) :=
  let '(sign, body) := match s with
    | String a r => if (code a =? 45)%N then (String a "", r) else ("", s)
    | EmptyString => ("", s)
    end in
  '(i, s1) ← scan_integer body;
  '(f, s2) ← scan_fraction s1;
  '(e, s3) ← scan_json_exponent s2;
  Some (sign +:+ i +:+ f +:+ e, s3).

Definition is_hex (a : ascii) : bool :=
  let c := code a in (is_digit a || (97 <=? c) && (c <=? 102) || (65 <=? c) && (c <=? 70))%N.

(** After the opening quotation mark: the text up to the closing one, included. *)
Fixpoint scan_string (s : string) : option (string * string) :=
  match s with
  | EmptyString => None
  | String a r =>
      let c := code a in
      if (c =? 34)%N then Some (String a "", r) else
      if (c <? 32)%N then None else
      if (c =? 92)%N then
        match r with
        | EmptyString => None
        | String b r1 =>
            if (existsb (N.eqb (code b)) [34; 92; 47; 98; 102; 110; 114; 116])%N
            then (λ '(t, rest), (String a (String b t), rest)) <$> scan_string r1 else
            match r1 with
            | String h1 (String h2 (String h3 (String h4 r5))) =>
                if (code b =? 117)%N && is_hex h1 && is_hex h2 && is_hex h3 && is_hex h4
                then (λ '(t, rest), (String a (String b (String h1 (String h2 (String h3 (String h4 t))))), rest))
                       <$> scan_string r5
                else None
            | _ => None
            end
        end
      else if ((c =? 60) || (c =? 62) || (c =? 38))%N
      then (λ '(t, rest), (String backslash ("u" +:+ hex4 c) +:+ t, rest)) <$> scan_string r
      else
        match r with
        | String b (String d r3) =>
            if ((c =? 226) && (code b =? 128) && ((code d =? 168) || (code d =? 169)))%N
            then (λ '(t, rest), (String backslash ("u202" +:+ (if (code d =? 168)%N then "8" else "9")) +:+ t, rest))
                   <$> scan_string r3
            else (λ '(t, rest), (String a t, rest)) <$> scan_string r
        | _ => (λ '(t, rest), (String a t, rest)) <$> scan_string r
        end
  end.

Fixpoint scan_word (word s : string) : option string :=
  match word, s with
  | EmptyString, _ => Some s
  | String a w, String b r => if bool_decide (a = b) then scan_word w r else None
  | String _ _, EmptyString => None
  end.

(** Every second call consumes a character, which bounds the fuel; [depth] is the
    nesting that the package still allows. *)
Fixpoint scan_value (fuel : nat) (depth : Z) (s : string) : option (string * string) :=
  match fuel with
  | 0 => None
  | S fuel =>
      match skip_space s with
      | EmptyString => None
      | String a r =>
          let c := code a in
          if (c =? 34)%N then (λ '(t, rest), (String a t, rest)) <$> scan_string r else
          if (c =? 123)%N then
            if (depth <=? 0)%Z then None else
            match skip_space r with
            | String b r1 =>
                if (code b =? 125)%N then Some ("{}", r1)
                else (λ '(t, rest), ("{" +:+ t, rest)) <$> scan_members fuel (depth - 1) r
            | EmptyString => None
            end
          else if (c =? 91)%N then
            if (depth <=? 0)%Z then None else
            match skip_space r with
            | String b r1 =>
                if (code b =? 93)%N then Some ("[]", r1)
                else (λ '(t, rest), ("[" +:+ t, rest)) <$> scan_elements fuel (depth - 1) r
            | EmptyString => None
            end
          else if (c =? 116)%N then (λ rest, ("true", rest)) <$> scan_word "true" (String a r)
          else if (c =? 102)%N then (λ rest, ("false", rest)) <$> scan_word "false" (String a r)
          else if (c =? 110)%N then (λ rest, ("null", rest)) <$> scan_word "null" (String a r)
          else scan_number (String a r)
      end
  end
with scan_members (fuel : nat) (depth : Z) (s : string) : option (string * string) :=
  match fuel with
  | 0 => None
  | S fuel =>
      match skip_space s with
      | EmptyString => None
      | String q r =>
          if negb (code q =? 34)%N then None else
          '(k, s1) ← scan_string r;
          s2 ← scan_word ":" (skip_space s1);
          '(v, s3) ← scan_value fuel depth s2;
          match skip_space s3 with
          | String b r1 =>
              if (code b =? 125)%N then Some (String q k +:+ ":" +:+ v +:+ "}", r1) else
              if (code b =? 44)%N
              then (λ '(t, rest), (String q k +:+ ":" +:+ v +:+ "," +:+ t, rest)) <$> scan_members fuel depth r1
              else None
          | EmptyString => None
          end
      end
  end
with scan_elements (fuel : nat) (depth : Z) (s : string) : option (string * string) :=
  match fuel with
  | 0 => None
  | S fuel =>
      '(v, s1) ← scan_value fuel depth s;
      match skip_space s1 with
      | String b r1 =>
          if (code b =? 93)%N then Some (v +:+ "]", r1) else
          if (code b =? 44)%N then (λ '(t, rest), (v +:+ "," +:+ t, rest)) <$> scan_elements fuel depth r1
          else None
      | EmptyString => None
      end
  end.

Definition maxNestingDepth : Z := 10000.

(** [None] where [Marshal] fails. *)
Definition json_raw (s : string) : option string :=
  '(t, rest) ← scan_value (2 * String.length s + 2) maxNestingDepth s;
  if bool_decide (skip_space rest = "") then Some t else None.

Example json_raw_demo :
  let q s := String double_quote (s +:+ String double_quote "") in
  json_raw (" { " +:+ q "a" +:+ " : [ 1 , -0.5e+3, " +:+ q "<" +:+ " ] , " +:+ q "b" +:+ ":null} ")
  = Some ("{" +:+ q "a" +:+ ":[1,-0.5e+3," +:+ q (String backslash "u003c") +:+ "]," +:+ q "b" +:+ ":null}")
  /\ json_raw "01" = None /\ json_raw "{" = None /\ json_raw "" = None /\ json_raw "[1,]" = None
  /\ json_raw "[[],{}]" = Some "[[],{}]" /\ json_raw "[[[[[[0]]]]]]" = Some "[[[[[[0]]]]]]".
Proof. vm_compute. done. Qed.

(** ** The scanner always ends with the fuel that [json_raw] gives it *)

(** What a scan leaves has at most [n] bytes. *)
Definition leaves (n : nat) (x : option (string * string)) : Prop :=
  forall t rest, x = Some (t, rest) -> String.length rest <= n.

Lemma leaves_map n x (g : string -> string) : leaves n x -> leaves n ((λ '(t, rest), (g t, rest)) <$> x).
Proof. intros Hx t rest E. destruct x as [[t' rest']|]; [|done]. injection E as <- <-. by eapply Hx. Qed.
Lemma leaves_none n : leaves n None.
Proof. by intros t rest. Qed.
Lemma leaves_some n t rest : String.length rest <= n -> leaves n (Some (t, rest)).
Proof. by intros Hr ? ? [= <- <-]. Qed.
Lemma leaves_mono m n x : leaves m x -> m <= n -> leaves n x.
Proof. intros Hx Hn t rest E. specialize (Hx t rest E). lia. Qed.


Lemma skip_space_length s : String.length (skip_space s) <= String.length s.
Proof. induction s as [|a s IH]; simpl; [done|]. destruct (json_space a); simpl; lia. Qed.

Lemma scan_word_length w s rest : scan_word w s = Some rest -> String.length rest <= String.length s.
Proof.
  revert s; induction w as [|a w IH]; intros [|b s] E; simpl in *; simplify_eq; try done.
  case_bool_decide; [|done]. apply IH in E. lia.
Qed.

Lemma scan_string_leaves s : leaves (String.length s) (scan_string s).
Proof.
  induction s as [s IH] using (well_founded_induction (Wf_nat.well_founded_ltof _ String.length)).
  assert (forall r (g : string -> string), String.length r < String.length s ->
            leaves (String.length s) ((λ '(t, rest), (g t, rest)) <$> scan_string r)) as IHmap.
  { intros r g Hr. apply leaves_map. eapply leaves_mono; [by apply IH|lia]. }
  destruct s as [|a r]; [apply leaves_none|]. cbn [scan_string].
  destruct (_ =? 34)%N; [apply leaves_some; simpl; lia|]. destruct (_ <? 32)%N; [apply leaves_none|].
  destruct (_ =? 92)%N.
  - destruct r as [|b r1]; [apply leaves_none|]. destruct (existsb _ _); [apply IHmap; simpl; lia|].
    destruct r1 as [|h1 [|h2 [|h3 [|h4 r5]]]]; try apply leaves_none.
    destruct (_ && _); [|apply leaves_none]. apply (IHmap _ (λ t, String a (String b (String h1 (String h2 (String h3 (String h4 t))))))). simpl; lia.
  - destruct (_ || _); [apply (IHmap _ (λ t, String backslash ("u" +:+ hex4 _) +:+ t)); simpl; lia|].
    destruct r as [|b [|d r3]]; [apply (IHmap _ (String a)); simpl; lia..|].
    destruct (_ && _); [|apply (IHmap _ (String a)); simpl; lia].
    apply (IHmap _ (λ t, String backslash ("u202" +:+ _) +:+ t)); simpl; lia.
Qed.
Lemma scan_digits_length s : String.length (snd (scan_digits s)) <= String.length s.
Proof. induction s as [|a s IH]; simpl; [done|]. destruct (is_digit a); [|simpl; lia]. destruct (scan_digits s); simpl in *; lia. Qed.
Lemma scan_digits1_leaves s : leaves (String.length s) (scan_digits1 s).
Proof.
  unfold scan_digits1. pose proof (scan_digits_length s). destruct (scan_digits s) as [d rest].
  case_bool_decide; [apply leaves_none|by apply leaves_some].
Qed.
Lemma scan_integer_leaves s : leaves (String.length s) (scan_integer s).
Proof.
  destruct s as [|a r]; [apply leaves_none|]. unfold scan_integer. destruct (_ =? 48)%N; [apply leaves_some; simpl; lia|].
  apply scan_digits1_leaves.
Qed.
Lemma scan_fraction_leaves s : leaves (String.length s) (scan_fraction s).
Proof.
  destruct s as [|a r]; [by apply leaves_some|]. simpl. destruct (_ =? 46)%N; [|by apply leaves_some].
  apply (leaves_map _ _ (String a)). eapply leaves_mono; [apply scan_digits1_leaves|lia].
Qed.
Lemma scan_exponent_leaves s : leaves (String.length s) (scan_json_exponent s).
Proof.
  destruct s as [|a r]; [by apply leaves_some|]. cbn [scan_json_exponent].
  destruct (_ || _); [|by apply leaves_some]. destruct r as [|b r]; [apply leaves_none|].
  destruct (_ || _).
  - apply (leaves_map _ _ (λ d, String a (String b d))). eapply leaves_mono; [apply scan_digits1_leaves|simpl; lia].
  - apply (leaves_map _ _ (String a)). eapply leaves_mono; [apply scan_digits1_leaves|simpl; lia].
Qed.
Lemma scan_number_leaves s : leaves (String.length s) (scan_number s).
Proof.
  intros t rest E. unfold scan_number in E.
  set (p := match s with String a r => if (code a =? 45)%N then _ else _ | EmptyString => _ end) in E.
  assert (String.length (snd p) <= String.length s) as Hp.
  { unfold p. destruct s; [done|]. destruct (_ =? 45)%N; simpl; lia. }
  destruct p as [sign body]. simpl in Hp.
  destruct (scan_integer body) as [[i s1]|] eqn:E1; [|done]. simpl in E.
  destruct (scan_fraction s1) as [[f s2]|] eqn:E2; [|done]. simpl in E.
  destruct (scan_json_exponent s2) as [[e s3]|] eqn:E3; [|done]. injection E as <- <-.
  apply scan_integer_leaves in E1. apply scan_fraction_leaves in E2. apply scan_exponent_leaves in E3. lia.
Qed.

#[local] Arguments scan_word : simpl never.

Lemma leaves_word (w s t : string) : leaves (String.length s) ((λ rest, (t, rest)) <$> scan_word w s).
Proof. intros t' rest E. destruct (scan_word w s) as [r|] eqn:Ew; [|done]. injection E as <- <-. by eapply scan_word_length. Qed.

Lemma scan_leaves fuel : forall depth s,
  leaves (String.length s) (scan_value fuel depth s) /\ leaves (String.length s) (scan_members fuel depth s)
  /\ leaves (String.length s) (scan_elements fuel depth s).
Proof.
  induction fuel as [|fuel IH]; intros depth s; [split_and!; apply leaves_none|].
  pose proof (skip_space_length s) as Hskip. split_and!; cbn [scan_value scan_members scan_elements].
  - destruct (skip_space s) as [|a r]; [apply leaves_none|]. simpl in Hskip.
    pose proof (skip_space_length r) as Hr.
    assert (forall x : option (string * string), leaves (S (String.length r)) x -> leaves (String.length s) x) as Hle
      by (intros x Hx; by eapply leaves_mono).
    repeat destruct (_ =? _)%N.
    + apply Hle, (leaves_map _ _ (String a)). eapply leaves_mono; [apply scan_string_leaves|lia].
    + destruct (_ <=? 0)%Z; [apply leaves_none|]. destruct (skip_space r) as [|b r1]; [apply leaves_none|]. simpl in Hr.
      destruct (_ =? 125)%N; [apply leaves_some; lia|]. apply (leaves_map _ _ (String.append "{")).
      eapply leaves_mono; [apply IH|lia].
    + destruct (_ <=? 0)%Z; [apply leaves_none|]. destruct (skip_space r) as [|b r1]; [apply leaves_none|]. simpl in Hr.
      destruct (_ =? 93)%N; [apply leaves_some; lia|]. apply (leaves_map _ _ (String.append "[")).
      eapply leaves_mono; [apply IH|lia].
    + apply Hle, leaves_word.
    + apply Hle, leaves_word.
    + apply Hle, leaves_word.
    + apply Hle, scan_number_leaves.
  - destruct (skip_space s) as [|q r]; [apply leaves_none|]. simpl in Hskip. destruct (negb _); [apply leaves_none|].
    destruct (scan_string r) as [[k s1]|] eqn:E1; [|apply leaves_none]. apply scan_string_leaves in E1. simpl.
    destruct (scan_word ":" (skip_space s1)) as [s2|] eqn:E2; [|apply leaves_none]. apply scan_word_length in E2. simpl.
    pose proof (skip_space_length s1).
    destruct (scan_value fuel depth s2) as [[v s3]|] eqn:E3; [|apply leaves_none].
    apply (proj1 (IH depth s2)) in E3. simpl. pose proof (skip_space_length s3) as H3.
    destruct (skip_space s3) as [|b r1]; [apply leaves_none|]. simpl in H3.
    destruct (_ =? 125)%N; [apply leaves_some; lia|]. destruct (_ =? 44)%N; [|apply leaves_none].
    apply leaves_map. eapply leaves_mono; [apply IH|lia].
  - destruct (scan_value fuel depth s) as [[v s1]|] eqn:E1; [|apply leaves_none].
    apply (proj1 (IH depth s)) in E1. simpl. pose proof (skip_space_length s1) as H1.
    destruct (skip_space s1) as [|b r1]; [apply leaves_none|]. simpl in H1.
    destruct (_ =? 93)%N; [apply leaves_some; lia|]. destruct (_ =? 44)%N; [|apply leaves_none].
    apply (leaves_map _ _ (λ t, v +:+ "," +:+ t)). eapply leaves_mono; [apply IH|lia].
Qed.

(** Two amounts of fuel that both suffice give the same scan. *)
Lemma scan_fuel fuel : forall fuel' depth s,
  (2 * String.length s < fuel -> 2 * String.length s < fuel' -> scan_value fuel depth s = scan_value fuel' depth s)
  /\ (2 * String.length s < fuel -> 2 * String.length s < fuel' -> scan_members fuel depth s = scan_members fuel' depth s)
  /\ (2 * String.length s + 1 < fuel -> 2 * String.length s + 1 < fuel' ->
        scan_elements fuel depth s = scan_elements fuel' depth s).
Proof.
  induction fuel as [|fuel IH]; intros [|fuel'] depth s; [split_and!; lia..|].
  pose proof (skip_space_length s) as Hskip. split_and!; intros Hf Hf'; cbn [scan_value scan_members scan_elements].
  - destruct (skip_space s) as [|a r]; [done|]. simpl in Hskip.
    repeat destruct (_ =? _)%N; try done; destruct (_ <=? 0)%Z; try done; destruct (skip_space r); try done;
      destruct (_ =? _)%N; try done; f_equal; apply IH; lia.
  - destruct (skip_space s) as [|q r]; [done|]. simpl in Hskip. destruct (negb _); [done|].
    destruct (scan_string r) as [[k s1]|] eqn:E1; [|done]. apply scan_string_leaves in E1. simpl.
    destruct (scan_word ":" (skip_space s1)) as [s2|] eqn:E2; [|done]. apply scan_word_length in E2. simpl.
    pose proof (skip_space_length s1). rewrite (proj1 (IH fuel' depth s2)) by lia.
    destruct (scan_value fuel' depth s2) as [[v s3]|] eqn:E3; [|done]. apply scan_leaves in E3. simpl.
    pose proof (skip_space_length s3) as H3. destruct (skip_space s3) as [|b r1]; [done|]. simpl in H3.
    destruct (_ =? 125)%N; [done|]. destruct (_ =? 44)%N; [|done]. f_equal. apply IH; lia.
  - rewrite (proj1 (IH fuel' depth s)) by lia.
    destruct (scan_value fuel' depth s) as [[v s1]|] eqn:E1; [|done]. apply scan_leaves in E1. simpl.
    pose proof (skip_space_length s1) as H1. destruct (skip_space s1) as [|b r1]; [done|]. simpl in H1.
    destruct (_ =? 93)%N; [done|]. destruct (_ =? 44)%N; [|done]. f_equal. apply IH; lia.
Qed.

(** More fuel than [json_raw] provides changes nothing. *)
Lemma json_raw_fuel s fuel :
  2 * String.length s + 2 <= fuel -> scan_value fuel maxNestingDepth s = scan_value (2 * String.length s + 2) maxNestingDepth s.
Proof. intros Hf. apply scan_fuel; lia. Qed.
