(* ===== verification/StepRedaction.v ===== *)
(** * Redaction of secrets ([internal/stepredaction/redaction.go])

    Messages, logs, details and outputs of steps are redacted before they are
    stored: texts that look like credentials, and every known secret value. *)
From S2P Require Import Prelude GoStrings GoRegexp.
From Stdlib Require Import Ascii.
Open Scope list_scope.

(** ** Replacement of a text ([strings.ReplaceAll]) *)

Fixpoint strip_prefix (p s : string) : option string :=
  match p, s with
  | EmptyString, _ => Some s
  | String a p, String b s => if bool_decide (a = b) then strip_prefix p s else None
  | String _ _, EmptyString => None
  end.

(** [strings.Cut]: around the first occurrence. *)
Fixpoint Cut (old s : string) : option (string * string) :=
  match strip_prefix old s with
  | Some rest => Some ("", rest)
  | None =>
      match s with
      | EmptyString => None
      | String a s => (λ '(b, rest), (String a b, rest)) <$> Cut old s
      end
  end.

(** [strings.Contains] *)
Definition Contains (s sub : string) : bool := bool_decide (is_Some (Cut sub s)).

(** For a text that is not empty, every cut shortens the string. *)
Fixpoint replace_fuel (fuel : nat) (old new s : string) : string :=
  match fuel with
  | 0 => s
  | S fuel =>
      match Cut old s with
      | Some (before, after) => before +:+ new +:+ replace_fuel fuel old new after
      | None => s
      end
  end.

Definition ReplaceAll (s old new : string) : string := replace_fuel (String.length s) old new s.

(** ** The patterns *)

Definition redactedValue : string := "[REDACTED]".

(** [[^\s,;]] *)
Definition secret_rune (c : N) : bool := negb (is_space c) && negb (one_of ",;" c).

Definition hex_rune (c : N) : bool := range "a" "f" c || range "A" "F" c || range "0" "9" c.

Definition api_key : regex := RSeqs [RTextFold "api"; ROpt (RRune (one_of "_-")); RTextFold "key"].

(** [(?i)(authorization\s*:\s*bearer\s+)[^\s,;]+] *)
Definition bearer_pattern : regex :=
  RSeq (RGroup 1 (RSeqs [RTextFold "authorization"; RStar is_space; RText ":"; RStar is_space;
                         RTextFold "bearer"; RPlus is_space])) (RPlus secret_rune).

(** The second pattern: a word boundary, a key, a word boundary, [:] or [=] between
    white space, and the value. *)
Definition assignment_pattern : regex :=
  RSeqs [RWordBoundary;
         RGroup 1 (RAlts [RTextFold "password"; RTextFold "passwd"; RTextFold "secret"; RTextFold "token"; api_key]);
         RWordBoundary; RGroup 2 (RSeqs [RStar is_space; RRune (one_of ":="); RStar is_space]);
         RPlus secret_rune].

(** [(?i)\bsha256=[a-f0-9]{64}\b] *)
Definition signature_pattern : regex :=
  RSeqs [RWordBoundary; RTextFold "sha256="; RRep 64 hex_rune; RWordBoundary].

Definition secretPatterns : list regex := [bearer_pattern; assignment_pattern; signature_pattern].

(** [(?i)(password|passwd|secret|token|api[_-]?key|authorization)] *)
Definition secretKeyPattern : regex :=
  RGroup 1 (RAlts [RTextFold "password"; RTextFold "passwd"; RTextFold "secret"; RTextFold "token"; api_key;
                   RTextFold "authorization"]).

Definition redact_pattern (result_ : string) (pattern : regex) : string :=
  ReplaceAllString pattern result_ (λ q, group 1 q +:+ group 2 q +:+ redactedValue).

(** ** Redaction of a string *)

Fixpoint distinct_nonempty (seen : list string) (values : list string) : list string :=
  match values with
  | [] => []
  | value :: values =>
      if bool_decide (value = "") then distinct_nonempty seen values
      else if contains seen value then distinct_nonempty seen values
      else value :: distinct_nonempty (value :: seen) values
  end.

(** [sort.Slice] by falling length; the order among values of one length is
    unspecified in Go, the order of the input here. *)
Definition normalizedSecretValues (values : list string) : list string :=
  stable_sort (less_by (λ v, - len v)%Z) (distinct_nonempty [] values).

(** [next := ...; if next != result { changed = true; result = next }] *)
Definition changing {A} (step : string -> A -> string) (acc : string * bool) (a : A) : string * bool :=
  let next := step (fst acc) a in
  if bool_decide (next = fst acc) then acc else (next, true).

Definition NUL : string := String (ascii_of_N 0) "".

Definition RedactStringWithValues (value : string) (secretValues : list string) : string * bool :=
  let result_ := ReplaceAll value NUL "" in
  let changed := negb (bool_decide (result_ = value)) in
  foldl (changing (λ s v, ReplaceAll s v redactedValue))
    (foldl (changing redact_pattern) (result_, changed) secretPatterns)
    (normalizedSecretValues secretValues).

Definition RedactString (value : string) : string * bool := RedactStringWithValues value [].

(** ** Redaction of a decoded JSON value

    The values that [json.Decoder] with [UseNumber] produces: a number keeps
    its text, an object is a map, listed here in the order in which Go ranges
    over it. *)
Inductive json :=
| JObject (fields : list (string * json))
| JArray (l : list json)
| JString (s : string)
| JNumber (s : string)
| JBool (b : bool)
| JNull.

(** [result[key] = value] *)
Fixpoint assign {A} (key : string) (a : A) (l : list (string * A)) : list (string * A) :=
  match l with
  | [] => [(key, a)]
  | (k, b) :: l => if bool_decide (k = key) then (k, a) :: l else (k, b) :: assign key a l
  end.

Definition redactScalarStringWithValues (value : string) (original : json) (secretValues : list string)
    : json * bool :=
  let '(redacted, changed) := RedactStringWithValues value secretValues in
  if changed then (JString redacted, true) else (original, false).

Definition bool_string (b : bool) : string := if b then "true" else "false".

Fixpoint RedactValueWithValues (value : json) (secretValues : list string) : json * bool :=
  match value with
  | JObject fields =>
      let '(result_, changed) :=
        (fix go acc fields :=
           match fields with
           | [] => acc
           | (key, child) :: fields =>
               let '(result_, changed) := acc in
               let '(redactedKey, keyChanged) := RedactStringWithValues key secretValues in
               let changed := changed || keyChanged in
               if MatchString secretKeyPattern key
               then go (assign redactedKey (JString redactedValue) result_, true) fields
               else let '(redacted, childChanged) := RedactValueWithValues child secretValues in
                    go (assign redactedKey redacted result_, changed || childChanged) fields
           end) ([], false) fields in
      (JObject result_, changed)
  | JArray l =>
      let '(result_, changed) :=
        (fix go l :=
           match l with
           | [] => ([], false)
           | child :: l =>
               let '(redacted, childChanged) := RedactValueWithValues child secretValues in
               let '(result_, changed) := go l in (redacted :: result_, childChanged || changed)
           end) l in
      (JArray result_, changed)
  | JString s => let '(redacted, changed) := RedactStringWithValues s secretValues in (JString redacted, changed)
  | JNumber s => redactScalarStringWithValues s value secretValues
  | JBool b => redactScalarStringWithValues (bool_string b) value secretValues
  | JNull => redactScalarStringWithValues "null" value secretValues
  end.

Example redact_demo :
  RedactStringWithValues "Authorization:  Bearer abc, api_key = xyz; pin 4711 passwordless my_token=1" ["4711"; "pin 4"]
  = ("Authorization:  Bearer [REDACTED], api_key = [REDACTED]; [REDACTED]711 passwordless my_token=1", true).
Proof. vm_compute. reflexivity. Qed.

(** ** Occurrences *)

Definition occurs (t s : string) : Prop := exists a b, s = a +:+ t +:+ b.

(** A secret that the marker itself does not contain: what a replacement hides. *)
Definition hideable (t : string) : Prop :=
  no_char "["%char t = true /\ no_char "]"%char t = true /\ ~ occurs t "REDACTED".

Lemma strip_prefix_spec p s r : strip_prefix p s = Some r <-> s = p +:+ r.
Proof.
  revert s. induction p as [|a p IH]; intros s; [split; [by intros [= ->]|by intros ->]|].
  destruct s as [|b s]; [done|]. simpl.
  case_bool_decide as E; [subst; rewrite IH|]; rewrite string_app_cons; split; intros E'; congruence.
Qed.

Lemma occurs_nil t : occurs t "" -> t = "".
Proof. intros (a & b & E). destruct a, t; simpl in E; done. Qed.

(** An occurrence starts at the front or lies behind it. *)
Lemma occurs_cons t a s :
  occurs t (String a s) <-> (exists r, strip_prefix t (String a s) = Some r) \/ occurs t s.
Proof.
  setoid_rewrite strip_prefix_spec. split.
  - intros ([|c x] & y & E); [left; by exists y|]. injection E as -> ->. right. by exists x, y.
  - intros [[r E]|(x & y & ->)]; [by exists "", r|by exists (String a x), y].
Qed.

Lemma Cut_Some old s b a :
  old <> "" -> Cut old s = Some (b, a) -> s = b +:+ old +:+ a /\ ~ occurs old b.
Proof.
  intros Hne. revert b. induction s as [|c s IH]; intros b.
  { simpl. destruct (strip_prefix old "") as [r|] eqn:E; [|done]. apply strip_prefix_spec in E. by destruct old. }
  simpl. destruct (strip_prefix old (String c s)) as [r|] eqn:E.
  { intros [= <- <-]. apply strip_prefix_spec in E. split; [done|]. intros H%occurs_nil. done. }
  destruct (Cut old s) as [[b' a']|] eqn:E'; [|done]. simpl. intros [= <- <-].
  destruct (IH b' eq_refl) as [-> Hb]. split; [done|].
  intros [[r Hr]|H]%occurs_cons; [|done]. apply strip_prefix_spec in Hr.
  assert (strip_prefix old (String c (b' +:+ old +:+ a')) = Some (r +:+ old +:+ a')) as E2; [|congruence].
  apply strip_prefix_spec. change (String c (b' +:+ old +:+ a')) with (String c b' +:+ old +:+ a').
  by rewrite Hr, <- string_app_assoc.
Qed.

Lemma Cut_None old s : Cut old s = None -> ~ occurs old s.
Proof.
  induction s as [|c s IH].
  - simpl. destruct (strip_prefix old "") as [r|] eqn:E; [done|]. intros _ H%occurs_nil. by subst.
  - simpl. destruct (strip_prefix old (String c s)) as [r|] eqn:E; [done|].
    destruct (Cut old s) as [[b a]|]; [done|]. intros _ [[r Hr]|H]%occurs_cons; [congruence|by apply IH].
Qed.

(** A text without [c] that starts before a [c] ends before it. *)
Lemma prefix_split c t a b r :
  no_char c t = true -> a +:+ String c b = t +:+ r -> exists r', a = t +:+ r'.
Proof.
  revert a. induction t as [|x t IH]; intros a Hc E; [by exists a|]. simpl in Hc. to_prop.
  destruct a as [|y a]; injection E as -> E; [done|]. destruct (IH a) as [r' ->]; [done..|]. by exists r'.
Qed.

Lemma occurs_split c t a b :
  no_char c t = true -> occurs t (a +:+ String c b) -> occurs t a \/ occurs t b.
Proof.
  intros Hc. induction a as [|x a IH].
  - intros [[r Hr]|H]%occurs_cons; [|by right]. apply strip_prefix_spec in Hr.
    apply (prefix_split c t "" b) in Hr as [r' Hr]; [|done]. left. by exists "", r'.
  - intros [[r Hr]|H]%occurs_cons; [|destruct (IH H); [left; apply occurs_cons; by right|by right]].
    apply strip_prefix_spec in Hr. apply (prefix_split c t (String x a) b) in Hr as [r' Hr]; [|done].
    left. by exists "", r'.
Qed.

Lemma occurs_marker t p q : hideable t -> occurs t (p +:+ redactedValue +:+ q) -> occurs t p \/ occurs t q.
Proof.
  intros (H1 & H2 & H3) H.
  change (p +:+ redactedValue +:+ q) with (p +:+ String "[" ("REDACTED" +:+ String "]" q)) in H.
  apply occurs_split in H as [H|H]; [by left| |done]. apply occurs_split in H as [H|H]; [done|by right|done].
Qed.

Lemma hideable_nonempty t : hideable t -> t <> "".
Proof. intros (_ & _ & H) ->. apply H. by exists "", "REDACTED". Qed.

Lemma occurs_app t p q : occurs t p \/ occurs t q -> occurs t (p +:+ q).
Proof.
  intros [(a & b & ->)|(a & b & ->)].
  - exists a, (b +:+ q). by rewrite !string_app_assoc.
  - exists (p +:+ a), b. by rewrite !string_app_assoc.
Qed.

(** A replacement by the marker brings no hideable text in. *)
Lemma replace_occurs fuel old t s :
  old <> "" -> hideable t -> occurs t (replace_fuel fuel old redactedValue s) -> occurs t s.
Proof.
  intros Hold Ht. revert s. induction fuel as [|fuel IH]; intros s; simpl; [done|].
  destruct (Cut old s) as [[b a]|] eqn:E; [|done]. apply Cut_Some in E as [-> _]; [|done].
  intros [H|H%IH]%occurs_marker; [..|done]; apply occurs_app; [by left|right].
  apply occurs_app. by right.
Qed.

(** The replaced text itself is gone. *)
Lemma replace_hides fuel old s :
  hideable old -> String.length s <= fuel -> ~ occurs old (replace_fuel fuel old redactedValue s).
Proof.
  intros Hold. pose proof (hideable_nonempty _ Hold) as Hne. revert s.
  induction fuel as [|fuel IH]; intros s Hl; simpl.
  - destruct s; [|simpl in Hl; lia]. by intros H%occurs_nil.
  - destruct (Cut old s) as [[b a]|] eqn:E; [|by apply Cut_None]. apply Cut_Some in E as [-> Hb]; [|done].
    intros [H|H]%occurs_marker; [done| |done]. revert H. apply IH.
    rewrite !string_length_app in Hl. destruct old; [done|]. simpl in Hl. lia.
Qed.

(** ** Redacted strings and values *)

Lemma changing_fst {A} (step : string -> A -> string) acc l :
  fst (foldl (changing step) acc l) = foldl step (fst acc) l.
Proof.
  revert acc. induction l as [|a l IH]; intros acc; [done|]. simpl. rewrite IH. f_equal.
  unfold changing. by case_bool_decide as E.
Qed.

Lemma changing_unchanged {A} (step : string -> A -> string) acc l :
  snd (foldl (changing step) acc l) = false -> foldl (changing step) acc l = acc.
Proof.
  revert acc. induction l as [|a l IH]; intros acc; [done|]. simpl. intros H.
  assert (changing step acc a = acc) as E; [|rewrite E in *; by apply IH].
  apply IH in H as E. unfold changing in *. case_bool_decide; [done|]. by rewrite E in H.
Qed.

Lemma distinct_nonempty_elem seen values t :
  t ∈ distinct_nonempty seen values <-> t ∈ values /\ t <> "" /\ t ∉ seen.
Proof.
  revert seen. induction values as [|v values IH]; intros seen; simpl; [set_solver|].
  case_bool_decide as Hv; [rewrite IH; set_solver|].
  destruct (contains seen v) eqn:Hs; [apply contains_true in Hs|apply contains_false in Hs];
    rewrite ?elem_of_cons, IH; [set_solver|]. destruct (decide (t = v)) as [->|]; set_solver.
Qed.

Lemma redact_values_hide values s t :
  t ∈ values -> (forall v, v ∈ values -> v <> "") -> hideable t ->
  ~ occurs t (foldl (λ s v, ReplaceAll s v redactedValue) s values).
Proof.
  intros Hin Hne Ht. assert (forall values s, (forall v, v ∈ values -> v <> "") -> ~ occurs t s ->
    ~ occurs t (foldl (λ s v, ReplaceAll s v redactedValue) s values)) as Hkeep.
  { clear Hin Hne. intros l. induction l as [|v l IH]; intros u Hne Hu; [done|]. simpl.
    apply IH; [intros; apply Hne; by right|]. intros H%replace_occurs; [done|apply Hne; by left|done]. }
  revert s. induction values as [|v values IH]; intros s; [set_solver|]. simpl.
  apply elem_of_cons in Hin as [->|Hin].
  - apply Hkeep; [intros; apply Hne; by right|]. by apply replace_hides.
  - apply IH; [done|]. intros; apply Hne; by right.
Qed.

Lemma redact_string_hides value secrets t :
  t ∈ secrets -> hideable t -> ~ occurs t (fst (RedactStringWithValues value secrets)).
Proof.
  intros Hin Ht. unfold RedactStringWithValues. rewrite changing_fst.
  apply redact_values_hide; [|intros v|done]; unfold normalizedSecretValues;
    rewrite elem_of_stable_sort, distinct_nonempty_elem; [|naive_solver].
  split_and!; [done|by apply hideable_nonempty|set_solver].
Qed.

Lemma redact_string_unchanged value secrets :
  snd (RedactStringWithValues value secrets) = false -> fst (RedactStringWithValues value secrets) = value.
Proof.
  unfold RedactStringWithValues. intros H. apply changing_unchanged in H as E. rewrite E in *.
  apply changing_unchanged in H as E'. rewrite E' in *. simpl in *. by to_prop.
Qed.

(** The texts of a value: keys, strings, and how its scalars print. *)
Fixpoint texts (v : json) : list string :=
  match v with
  | JObject fields =>
      (fix go l := match l with [] => [] | (k, c) :: l => k :: texts c ++ go l end) fields
  | JArray l => (fix go l := match l with [] => [] | c :: l => texts c ++ go l end) l
  | JString s | JNumber s => [s]
  | JBool b => [bool_string b]
  | JNull => ["null"]
  end.

Definition field_texts (fields : list (string * json)) : list string :=
  fields ≫= λ '(k, c), k :: texts c.

Lemma texts_object fields : texts (JObject fields) = field_texts fields.
Proof.
  induction fields as [|[k c] l IH]; [done|]. simpl in *. unfold field_texts in *. simpl.
  by rewrite IH.
Qed.

Lemma texts_array l : texts (JArray l) = l ≫= texts.
Proof. induction l as [|c l IH]; [done|]. simpl in *. by rewrite IH. Qed.

Lemma json_ind' (P : json -> Prop) :
  (forall l, Forall (λ f, P (snd f)) l -> P (JObject l)) -> (forall l, Forall P l -> P (JArray l)) ->
  (forall s, P (JString s)) -> (forall s, P (JNumber s)) -> (forall b, P (JBool b)) -> P JNull ->
  forall v, P v.
Proof.
  intros Ho Ha Hs Hn Hb H0. fix IH 1. intros [l|l|s|s|b|]; [apply Ho|apply Ha|apply Hs|apply Hn|apply Hb|exact H0].
  - induction l as [|[k c] l IHl]; constructor; [apply IH|exact IHl].
  - induction l as [|c l IHl]; constructor; [apply IH|exact IHl].
Qed.

Lemma elem_of_assign key a l u :
  u ∈ field_texts (assign key a l) -> u = key \/ u ∈ texts a \/ u ∈ field_texts l.
Proof.
  induction l as [|[k b] l IH]; simpl.
  - unfold field_texts. simpl. rewrite app_nil_r. set_solver.
  - case_bool_decide as E; unfold field_texts in *; simpl; set_solver.
Qed.

Section redact_value.
Context (secrets : list string) (t : string) (Hin : t ∈ secrets) (Ht : hideable t).

Lemma scalar_hides value original u :
  texts original = [value] -> u ∈ texts (fst (redactScalarStringWithValues value original secrets)) ->
  ~ occurs t u.
Proof.
  intros Ho. unfold redactScalarStringWithValues.
  destruct (RedactStringWithValues value secrets) as [r c] eqn:E.
  pose proof (redact_string_hides value secrets t Hin Ht) as Hh.
  pose proof (redact_string_unchanged value secrets) as Hu. rewrite E in Hh, Hu. simpl in *.
  destruct c; simpl; [|rewrite Ho]; intros ->%list_elem_of_singleton; [done|].
  by rewrite Hu in Hh.
Qed.

Lemma marker_hides : ~ occurs t redactedValue.
Proof.
  intros H. destruct (occurs_marker t "" "" Ht) as [E%occurs_nil|E%occurs_nil];
    [by rewrite string_app_nil_l, string_app_nil_r|..]; by apply (hideable_nonempty _ Ht).
Qed.

Lemma redact_value_hides v u : u ∈ texts (fst (RedactValueWithValues v secrets)) -> ~ occurs t u.
Proof.
  revert u. induction v as [l IH|l IH|s|s|b|] using json_ind'; intros u; cbn [RedactValueWithValues].
  - match goal with |- context [let '(_, _) := ?go ([], false) l in _] => set (f := go) end.
    assert (forall acc, (forall u, u ∈ field_texts (fst acc) -> ~ occurs t u) ->
      forall u, u ∈ field_texts (fst (f acc l)) -> ~ occurs t u) as Hgo.
    { induction IH as [|[key child] l Hc _ IHl]; intros [res ch] Hacc w; [apply Hacc|]. cbn [f].
      destruct (RedactStringWithValues key secrets) as [key' kc] eqn:Ek.
      pose proof (redact_string_hides key secrets t Hin Ht) as Hk. rewrite Ek in Hk. simpl in Hk, Hc.
      destruct (MatchString secretKeyPattern key).
      - apply IHl. intros x [->|[Hx|Hx]]%elem_of_assign; [done| |by apply Hacc].
        apply list_elem_of_singleton in Hx as ->. apply marker_hides.
      - destruct (RedactValueWithValues child secrets) as [child' cc] eqn:Ec.
        apply IHl. intros x [->|[Hx|Hx]]%elem_of_assign; [done|by apply Hc|by apply Hacc]. }
    specialize (Hgo ([], false)). destruct (f ([], false) l) as [res ch]. cbn [fst]. rewrite texts_object.
    apply Hgo. set_solver.
  - match goal with |- context [let '(_, _) := ?go l in _] => set (f := go) end.
    assert (forall u, u ∈ (fst (f l) ≫= texts) -> ~ occurs t u) as Hgo.
    { induction IH as [|child l Hc _ IHl]; intros w; [set_solver|]. cbn [f].
      destruct (RedactValueWithValues child secrets) as [child' cc] eqn:Ec. destruct (f l) as [res ch].
      simpl in *. rewrite elem_of_app. intros [Hx|Hx]; [by apply Hc|by apply IHl]. }
    destruct (f l) as [res ch]. cbn [fst] in *. rewrite texts_array. apply Hgo.
  - pose proof (redact_string_hides s secrets t Hin Ht) as Hh.
    destruct (RedactStringWithValues s secrets) as [r c]. simpl in *. by intros ->%list_elem_of_singleton.
  - by apply scalar_hides.
  - by apply scalar_hides.
  - by apply scalar_hides.
Qed.
End redact_value.


Lemma not_occurs_check t s : Cut t s = None -> ~ occurs t s.
Proof. apply Cut_None. Qed.

