(* ===== verification/GoFloat.v ===== *)
(** * Floating-point numbers of Go ([strconv.ParseFloat], [encoding/json])

    The syntax that [ParseFloat(s, 64)] accepts and whether the number fits a
    [float64]; a literal is read as an exact number: [digits * base^exponent].
    The number that [json.Marshal] prints for one that [json.Unmarshal] read. *)
From S2P Require Import Prelude GoStrings.
From Stdlib Require Import Ascii.
Open Scope list_scope.

Definition lower_code (a : ascii) : N := code (lower_ascii a).

(** The value of a digit of the base. *)
Definition digit_of (hex : bool) (a : ascii) : option Z :=
  let c := code a in
  if ((48 <=? c) && (c <=? 57))%N then Some (Z.of_N c - 48)%Z else
  if hex && ((97 <=? lower_code a) && (lower_code a <=? 102))%N then Some (Z.of_N (lower_code a) - 87)%Z else None.

(** The loop over the mantissa: the significant digits, how many there are, and
    where the point is. *)
Record mantissa := {
  sawdot : bool;
  sawdigits : bool;
  underscores : bool;
  digits : Z;
  nd : Z;
  dp : Z;
}.

Definition no_mantissa : mantissa :=
  {| sawdot := false; sawdigits := false; underscores := false; digits := 0; nd := 0; dp := 0 |}.

Fixpoint scan_mantissa (hex : bool) (m : mantissa) (s : string) : mantissa * string :=
  match s with
  | EmptyString => (m, s)
  | String a r =>
      if (code a =? 95)%N then
        scan_mantissa hex {| sawdot := sawdot m; sawdigits := sawdigits m; underscores := true;
                             digits := digits m; nd := nd m; dp := dp m |} r else
      if (code a =? 46)%N then
        if sawdot m then (m, s) else
        scan_mantissa hex {| sawdot := true; sawdigits := sawdigits m; underscores := underscores m;
                             digits := digits m; nd := nd m; dp := nd m |} r else
      match digit_of hex a with
      | None => (m, s)
      | Some d =>
          if (d =? 0)%Z && (nd m =? 0)%Z then
            scan_mantissa hex {| sawdot := sawdot m; sawdigits := true; underscores := underscores m;
                                 digits := digits m; nd := nd m; dp := dp m - 1 |} r
          else
            scan_mantissa hex {| sawdot := sawdot m; sawdigits := true; underscores := underscores m;
                                 digits := digits m * (if hex then 16 else 10) + d; nd := nd m + 1; dp := dp m |} r
      end
  end.

(** The digits of the exponent; it stops growing at five digits. *)
Fixpoint scan_exponent (e : Z) (us : bool) (s : string) : Z * bool * string :=
  match s with
  | EmptyString => (e, us, s)
  | String a r =>
      if (code a =? 95)%N then scan_exponent e true r else
      match digit_of false a with
      | None => (e, us, s)
      | Some d => scan_exponent (if e <? 10000 then e * 10 + d else e)%Z us r
      end
  end.

(** [underscoreOK]: what the last character was. *)
Inductive saw := SawStart | SawDigit | SawUnderscore | SawOther.

Fixpoint underscore_loop (hex : bool) (last : saw) (s : string) : bool :=
  match s with
  | EmptyString => match last with SawUnderscore => false | _ => true end
  | String a r =>
      match digit_of hex a with
      | Some _ => underscore_loop hex SawDigit r
      | None =>
          if (code a =? 95)%N then match last with SawDigit => underscore_loop hex SawUnderscore r | _ => false end
          else match last with SawUnderscore => false | _ => underscore_loop hex SawOther r end
      end
  end.

Definition strip_sign (s : string) : string :=
  match s with
  | String a r => if ((code a =? 43) || (code a =? 45))%N then r else s
  | EmptyString => s
  end.

(** The part of [s] after the prefix of the base, if it has one of [prefixes]. *)
Definition strip_base (prefixes : list N) (s : string) : option (N * string) :=
  match s with
  | String z (String b r) =>
      if (code z =? 48)%N && existsb (N.eqb (lower_code b)) prefixes then Some (lower_code b, r) else None
  | _ => None
  end.

Definition underscoreOK (s : string) : bool :=
  match strip_base [98; 111; 120]%N (strip_sign s) with
  | Some (b, r) => underscore_loop (b =? 120)%N SawDigit r
  | None => underscore_loop false SawStart (strip_sign s)
  end.

(** An exact number [digits * base^exponent]. *)
Record exact := { ex_digits : Z; ex_base : Z; ex_exponent : Z }.

(** The mandatory part of an exponent: a sign and a digit. *)
Definition read_exponent (s : string) : option (Z * bool * string) :=
  let negative := match s with String a _ => (code a =? 45)%N | EmptyString => false end in
  let s := strip_sign s in
  match s with
  | String a _ =>
      if bool_decide (is_Some (digit_of false a)) then
        let '(e, us, rest) := scan_exponent 0 false s in Some (if negative then (- e)%Z else e, us, rest)
      else None
  | EmptyString => None
  end.

(** [readFloat] on the whole string. *)
Definition readFloat (s : string) : option exact :=
  let body := strip_sign s in
  let '(hex, body) :=
    match strip_base [120]%N body with
    | Some (_, r) => if bool_decide (r = "") then (false, body) else (true, r)
    | None => (false, body)
    end in
  let '(m, rest) := scan_mantissa hex no_mantissa body in
  if negb (sawdigits m) then None else
  let dp := if sawdot m then dp m else nd m in
  let finish (e : Z) (us : bool) :=
    if (underscores m || us) && negb (underscoreOK s) then None
    else Some {| ex_digits := digits m; ex_base := if hex then 2 else 10;
                 ex_exponent := (if hex then 4 * (dp - nd m) else dp - nd m) + e |}%Z in
  match rest with
  | EmptyString => if hex then None else finish 0%Z false
  | String a r =>
      if negb (lower_code a =? (if hex then 112 else 101))%N then None else
      match read_exponent r with
      | Some (e, us, EmptyString) => finish e us
      | _ => None
      end
  end.

(** The numbers from here on are rounded to infinity: half a unit in the last
    place above the largest [float64]. *)
Definition float64_overflow : Z := 2 ^ 1024 - 2 ^ 970.

Definition fits_float64 (x : exact) : bool :=
  if (0 <=? ex_exponent x)%Z then (ex_digits x * ex_base x ^ ex_exponent x <? float64_overflow)%Z
  else (ex_digits x <? float64_overflow * ex_base x ^ (- ex_exponent x))%Z.

(** [ParseFloat] succeeds with a number that is neither infinite nor [NaN]; the
    names of those need no reading. *)
Definition parses_finite (s : string) : bool :=
  match readFloat s with Some x => fits_float64 x | None => false end.

Example parses_finite_demo :
  parses_finite <$> ["1e+5"; "+1"; "1_23.50_0_0e+1_2"; "-.5"; "0x1p-2"; "1.7976931348623158e308"; "0"; "7."]
  = replicate 8 true
  /\ parses_finite <$> ["1e+"; "inf"; "+Inf"; "nan"; "."; "0x"; "0x1"; "1__2"; "_1"; "1.7976931348623159e308"; "1e400"; "1 "; ""]
  = replicate 13 false.
Proof. vm_compute. done. Qed.

(** ** Numbers read into an [interface{}] and printed again

    [Unmarshal] reads a number into a [float64], [Marshal] prints the shortest
    decimal number that rounds to it. *)

(** [mantissa * 2^exponent] with 53 bits of mantissa at most. *)
Record float64 := { fl_mantissa : Z; fl_exponent : Z }.

#[export] Instance float64_eq_dec : EqDecision float64.
Proof. solve_decision. Defined.

(** The quotient to the nearest integer, to the even one of two. *)
Definition div_even (n d : Z) : Z :=
  let q := (n / d)%Z in
  match (2 * (n mod d) ?= d)%Z with
  | Lt => q
  | Gt => q + 1
  | Eq => if Z.even q then q else q + 1
  end%Z.

Definition scaled (base n e : Z) : Z := if (0 <=? e)%Z then (n * base ^ e)%Z else n.
Definition scale (base e : Z) : Z := if (0 <=? e)%Z then 1%Z else (base ^ (- e))%Z.

(** [n / d] rounded; the least exponent is that of the subnormal numbers. *)
Definition round_float64 (n d : Z) : float64 :=
  if (n =? 0)%Z then {| fl_mantissa := 0; fl_exponent := 0 |} else
  let e0 := (Z.log2 n - Z.log2 d - 53)%Z in
  let at_exponent (e : Z) := div_even (scaled 2 n (- e)) (d * scale 2 (- e)) in
  let e := Z.max (-1074) (if (at_exponent e0 <? 2 ^ 53)%Z then e0 else e0 + 1)%Z in
  let m := at_exponent e in
  if (m =? 2 ^ 53)%Z then {| fl_mantissa := 2 ^ 52; fl_exponent := e + 1 |} else {| fl_mantissa := m; fl_exponent := e |}.

(** A value [digits * 10^exponent]. *)
Definition round_decimal (digits e : Z) : float64 := round_float64 (scaled 10 digits e) (scale 10 e).

(** The digits [n] at a time: the closest number below or above that rounds
    back; 17 digits are always enough. *)
Fixpoint shortest (fuel : nat) (x : float64) (num den k n : Z) : Z * Z :=
  let e := (k - n)%Z in
  let low := (scaled 10 num (- e) / (den * scale 10 (- e)))%Z in
  let near := div_even (scaled 10 num (- e)) (den * scale 10 (- e)) in
  let far := (if near =? low then low + 1 else low)%Z in
  match fuel with
  | O => (near, e)
  | S fuel =>
      if bool_decide (round_decimal near e = x) then (near, e) else
      if bool_decide (round_decimal far e = x) then (far, e) else
      shortest fuel x num den k (n + 1)
  end.

(** The position of the decimal point of a positive number. *)
Definition decimal_point (num den : Z) : Z :=
  let k := ((Z.log2 num - Z.log2 den - 1) * 30103 / 100000)%Z in
  let below (k : Z) := (scaled 10 num (- k) <? den * scale 10 (- k))%Z in
  (if below k then k else if below (k + 1) then k + 1 else if below (k + 2) then k + 2 else k + 3)%Z.

Fixpoint trim_zeros (fuel : nat) (digits e : Z) : Z * Z :=
  match fuel with
  | O => (digits, e)
  | S fuel => if (digits mod 10 =? 0)%Z then trim_zeros fuel (digits / 10) (e + 1) else (digits, e)
  end.

Definition zeros (n : Z) : string := Nat.iter (Z.to_nat n) (String "0") "".

(** [%e] with the exponent of [encoding/json], [%f] in between. *)
Definition float_layout (digits e : Z) : string :=
  let ds := itoa digits in
  let nd := len ds in
  let dp := (nd + e)%Z in
  if ((dp <=? -6) || (22 <=? dp))%Z then
    let x := (dp - 1)%Z in
    String.substring 0 1 ds +:+ (if (nd =? 1)%Z then "" else "." +:+ String.substring 1 (String.length ds) ds)
    +:+ "e" +:+ (if (x <? 0)%Z then "-" else "+") +:+ itoa (Z.abs x)
  else if (dp <=? 0)%Z then "0." +:+ zeros (- dp) +:+ ds
  else if (nd <=? dp)%Z then ds +:+ zeros (dp - nd)
  else String.substring 0 (Z.to_nat dp) ds +:+ "." +:+ String.substring (Z.to_nat dp) (String.length ds) ds.

Definition negative (s : string) : bool := match s with String a _ => (code a =? 45)%N | EmptyString => false end.

(** [None] where the number is too large. *)
Definition float64_text (s : string) : option string :=
  match readFloat s with
  | None => None
  | Some x =>
      let x := round_float64 (scaled (ex_base x) (ex_digits x) (ex_exponent x)) (scale (ex_base x) (ex_exponent x)) in
      if (971 <? fl_exponent x)%Z then None else
      let sign := if negative s then "-" else "" in
      if (fl_mantissa x =? 0)%Z then Some (sign +:+ "0") else
      let num := scaled 2 (fl_mantissa x) (fl_exponent x) in
      let den := scale 2 (fl_exponent x) in
      let '(digits, e) := shortest 17 x num den (decimal_point num den) 1 in
      let '(digits, e) := trim_zeros 17 digits e in
      Some (sign +:+ float_layout digits e)
  end.

Example float64_text_demo :
  float64_text <$> ["1"; "1.50"; "-0"; "0.1"; "100000000000000000000"; "1e21"; "0.000001"; "1e-7"; "123456789.125";
                    "9007199254740993"; "1.7976931348623159e308"; "0.30000000000000004"; "3.0e2"; "5e-324"]
  = [Some "1"; Some "1.5"; Some "-0"; Some "0.1"; Some "100000000000000000000"; Some "1e+21"; Some "0.000001"; Some "1e-7";
     Some "123456789.125"; Some "9007199254740992"; None; Some "0.30000000000000004"; Some "300"; Some "5e-324"].
Proof. vm_compute. done. Qed.
