(* ===== verification/JsonDecode.v ===== *)
(** * Reading JSON back ([json.Unmarshal])

    The values of [StepRedaction.json] printed in order, the parser of
    [json.Unmarshal] over the runes of a text, the fields of a struct, and the
    proof that the parser reads back every printed value. *)
From S2P Require Import Prelude GoStrings GoRegexp GoJson StepRedaction.
From Stdlib Require Import Ascii.
Open Scope list_scope.

(** ** Printing *)

(** The members in their order. *)
Fixpoint json_text (v : json) : string :=
  match v with
  | JObject fields =>
      let members := (fix go (l : list (string * json)) : list string :=
        match l with [] => [] | (k, x) :: l => (json_string k +:+ ":" +:+ json_text x) :: go l end) fields in
      "{" +:+ Join members "," +:+ "}"
  | JArray l =>
      json_list ((fix go (l : list json) : list string := match l with [] => [] | x :: l => json_text x :: go l end) l)
  | JString s => json_string s
  | JNumber s => s
  | JBool b => json_bool b
  | JNull => "null"
  end.

Fixpoint sort_members (v : json) : json :=
  match v with
  | JObject fields =>
      JObject (stable_sort (less_str_by fst) ((fix go (l : list (string * json)) : list (string * json) :=
        match l with [] => [] | (k, x) :: l => (k, sort_members x) :: go l end) fields))
  | JArray l => JArray ((fix go (l : list json) : list json := match l with [] => [] | x :: l => sort_members x :: go l end) l)
  | v => v
  end.

(** [json.Marshal] of the values of a [map[string]any]: the keys are sorted; a
    number is the text that [Marshal] prints for it. *)
Definition json_value (v : json) : string := json_text (sort_members v).

(** ** Parsing *)

Definition space_rune (r : rune) : bool := existsb (N.eqb (r_code r)) [32; 9; 10; 13]%N.

Fixpoint skip_spaces (l : list rune) : list rune :=
  match l with r :: l' => if space_rune r then skip_spaces l' else l | [] => [] end.

(** Digits, signs, the point and the mark of the exponent. *)
Definition number_rune (r : rune) : bool :=
  let c := r_code r in ((48 <=? c) && (c <=? 57) || existsb (N.eqb c) [43; 45; 46; 69; 101])%N.

Fixpoint span_number (l : list rune) : string * list rune :=
  match l with
  | r :: l' => if number_rune r then let '(t, rest) := span_number l' in (r_raw r +:+ t, rest) else ("", l)
  | [] => ("", [])
  end.

Definition parse_number (l : list rune) : option (json * list rune) :=
  let '(t, rest) := span_number l in
  match scan_number t with Some (_, EmptyString) => Some (JNumber t, rest) | _ => None end.

Fixpoint parse_word (w : list N) (l : list rune) : option (list rune) :=
  match w, l with
  | [], _ => Some l
  | c :: w, r :: l => if (r_code r =? c)%N then parse_word w l else None
  | _ :: _, [] => None
  end.

(** The code of the next rune after white space, and what follows. *)
Definition next_rune (l : list rune) : option (N * list rune) :=
  match skip_spaces l with r :: l => Some (r_code r, l) | [] => None end.

(** [depth] is the nesting that the package still allows. A number starts at
    the rune that is none of the others. *)
Fixpoint parse_value (fuel : nat) (depth : Z) (l : list rune) : option (json * list rune) :=
  match fuel with
  | 0 => None
  | S fuel =>
      '(c, rest) ← next_rune l;
      if (c =? 34)%N then (λ '(ts, rest), (JString (decode_tokens ts), rest)) <$> json_literal rest else
      if (c =? 123)%N then
        if (depth <=? 0)%Z then None else
        '(d, rest') ← next_rune rest;
        if (d =? 125)%N then Some (JObject [], rest')
        else (λ '(fields, rest), (JObject fields, rest)) <$> parse_members fuel (depth - 1) rest
      else if (c =? 91)%N then
        if (depth <=? 0)%Z then None else
        '(d, rest') ← next_rune rest;
        if (d =? 93)%N then Some (JArray [], rest')
        else (λ '(l, rest), (JArray l, rest)) <$> parse_elements fuel (depth - 1) rest
      else if (c =? 116)%N then pair (JBool true) <$> parse_word [114; 117; 101]%N rest
      else if (c =? 102)%N then pair (JBool false) <$> parse_word [97; 108; 115; 101]%N rest
      else if (c =? 110)%N then pair JNull <$> parse_word [117; 108; 108]%N rest
      else parse_number (skip_spaces l)
  end
with parse_members (fuel : nat) (depth : Z) (l : list rune) : option (list (string * json) * list rune) :=
  match fuel with
  | 0 => None
  | S fuel =>
      '(c, l1) ← next_rune l;
      if negb (c =? 34)%N then None else
      '(ts, l2) ← json_literal l1;
      '(c, l3) ← next_rune l2;
      if negb (c =? 58)%N then None else
      '(v, l4) ← parse_value fuel depth l3;
      '(c, l5) ← next_rune l4;
      if (c =? 125)%N then Some ([(decode_tokens ts, v)], l5) else
      if (c =? 44)%N then (λ '(fields, rest), ((decode_tokens ts, v) :: fields, rest)) <$> parse_members fuel depth l5
      else None
  end
with parse_elements (fuel : nat) (depth : Z) (l : list rune) : option (list json * list rune) :=
  match fuel with
  | 0 => None
  | S fuel =>
      '(v, l1) ← parse_value fuel depth l;
      '(c, l2) ← next_rune l1;
      if (c =? 93)%N then Some ([v], l2) else
      if (c =? 44)%N then (λ '(vs, rest), (v :: vs, rest)) <$> parse_elements fuel depth l2
      else None
  end.

(** Members as they stand in the text, repeated keys included; [None] is a
    syntax error. *)
Definition json_parse (s : string) : option json :=
  '(v, rest) ← parse_value (2 * String.length s + 2) maxNestingDepth (runes s);
  if bool_decide (length (skip_spaces rest) = 0) then Some v else None.

Example json_parse_demo :
  let q s := String double_quote (s +:+ String double_quote "") in
  json_parse (" { " +:+ q "a" +:+ " : [ 1 , -0.5e+3, " +:+ q ("<" +:+ String backslash "u0041") +:+ " ] , " +:+ q "b" +:+ ":null} ")
  = Some (JObject [("a", JArray [JNumber "1"; JNumber "-0.5e+3"; JString "<A"]); ("b", JNull)])
  /\ json_parse "01" = None /\ json_parse "{" = None /\ json_parse "" = None /\ json_parse "[1,]" = None
  /\ json_parse "1 2" = None /\ json_parse "[[],{},true]" = Some (JArray [JArray []; JObject []; JBool true]).
Proof. vm_compute. done. Qed.

(** ** Valid texts *)

(** Not the replacement of an invalid byte. *)
Definition valid_rune (r : rune) : bool := negb ((r_code r =? RuneError)%N && bool_decide (String.length (r_raw r) = 1)).
Definition valid_text (s : string) : bool := forallb valid_rune (runes s).

(** The bits of a byte of an encoding. *)
Lemma low6_tail a : between 128 191 a = true -> low6 a = (code a - 128)%N.
Proof. destruct a as [[] [] [] [] [] [] [] []]; vm_compute; done. Qed.
Lemma low5_head a : between 194 223 a = true -> N.land (code a) 31 = (code a - 192)%N.
Proof. destruct a as [[] [] [] [] [] [] [] []]; vm_compute; done. Qed.
Lemma low4_head a : between 224 239 a = true -> N.land (code a) 15 = (code a - 224)%N.
Proof. destruct a as [[] [] [] [] [] [] [] []]; vm_compute; done. Qed.
Lemma low3_head a : between 240 244 a = true -> N.land (code a) 7 = (code a - 240)%N.
Proof. destruct a as [[] [] [] [] [] [] [] []]; vm_compute; done. Qed.

Lemma between_iff lo hi a : between lo hi a = true <-> (lo <= code a <= hi)%N.
Proof. unfold between. rewrite andb_true_iff, !N.leb_le. done. Qed.

(** A decoded rune is an ASCII byte or has one of the longer encodings, whose
    bytes are those of its code. *)
Inductive utf8 : rune -> Prop :=
| utf8_ascii a : (code a < 128)%N -> utf8 (rune1 a)
| utf8_invalid a : (128 <= code a)%N -> utf8 (rune1 a)
| utf8_2 a b n : valid2 a b = true -> r_code (rune2 a b) = n ->
    (n = (code a - 192) * 64 + (code b - 128) /\ 194 <= code a <= 223 /\ 128 <= code b <= 191)%N -> utf8 (rune2 a b)
| utf8_3 a b c n : valid3 a b c = true -> r_code (rune3 a b c) = n ->
    (n = (code a - 224) * 4096 + (code b - 128) * 64 + (code c - 128) /\ 224 <= code a <= 239 /\ 128 <= code b <= 191
     /\ 128 <= code c <= 191 /\ (code a = 224 -> 160 <= code b))%N -> utf8 (rune3 a b c)
| utf8_4 a b c d n : valid4 a b c d = true -> r_code (rune4 a b c d) = n ->
    (n = (code a - 240) * 262144 + (code b - 128) * 4096 + (code c - 128) * 64 + (code d - 128)
     /\ 240 <= code a <= 244 /\ 128 <= code b <= 191 /\ 128 <= code c <= 191 /\ 128 <= code d <= 191
     /\ (code a = 240 -> 144 <= code b))%N -> utf8 (rune4 a b c d).

Lemma decoded_utf8 r : decoded r -> utf8 r.
Proof.
  intros [a|a b Hv|a b c Hv|a b c d Hv].
  - destruct (N.ltb_spec (code a) 128); by constructor.
  - eapply utf8_2; [done..|]. unfold valid2 in Hv. apply andb_true_iff in Hv as [Ha Hb]. cbn [r_code rune2].
    rewrite low5_head, low6_tail, N.shiftl_mul_pow2 by done. rewrite between_iff in Ha, Hb. simpl. lia.
  - eapply utf8_3; [done..|]. unfold valid3 in Hv. rewrite !andb_true_iff in Hv. destruct Hv as [[Ha Hc] Hb]. cbn [r_code rune3].
    assert (between 128 191 b = true /\ (code a = 224 -> 160 <= code b)%N) as [Hb' Hmin].
    { rewrite between_iff in *. destruct (N.eqb_spec (code a) 224); [|destruct (N.eqb_spec (code a) 237)];
        rewrite between_iff in Hb; lia. }
    rewrite low4_head, !low6_tail, !N.shiftl_mul_pow2 by done. rewrite between_iff in Ha, Hc, Hb'. simpl. lia.
  - eapply utf8_4; [done..|]. unfold valid4 in Hv. rewrite !andb_true_iff in Hv. destruct Hv as [[[Ha Hc] Hd] Hb]. cbn [r_code rune4].
    assert (between 128 191 b = true /\ (code a = 240 -> 144 <= code b)%N) as [Hb' Hmin].
    { rewrite between_iff in *. destruct (N.eqb_spec (code a) 240); [|destruct (N.eqb_spec (code a) 244)];
        rewrite between_iff in Hb; lia. }
    rewrite low3_head, !low6_tail, !N.shiftl_mul_pow2 by done. rewrite between_iff in Ha, Hc, Hd, Hb'. simpl. lia.
Qed.

Lemma valid2_head a b : valid2 a b = true -> (194 <= code a <= 223)%N.
Proof. unfold valid2. rewrite andb_true_iff, !between_iff. lia. Qed.
Lemma valid3_head a b c : valid3 a b c = true -> (224 <= code a <= 239)%N.
Proof. unfold valid3. rewrite !andb_true_iff, !between_iff. lia. Qed.
Lemma valid4_head a b c d : valid4 a b c d = true -> (240 <= code a <= 244)%N.
Proof. unfold valid4. rewrite !andb_true_iff, !between_iff. lia. Qed.

Ltac wrong_head :=
  match goal with
  | H : valid2 ?a ?b = true |- _ => apply valid2_head in H; lia
  | H : valid3 ?a ?b ?c = true |- _ => apply valid3_head in H; lia
  | H : valid4 ?a ?b ?c ?d = true |- _ => apply valid4_head in H; lia
  end.

(** A valid rune is decoded in front of any text. *)
Lemma runes_valid_step r u : decoded r -> valid_rune r = true -> runes (r_raw r +:+ u) = r :: runes u.
Proof.
  intros Hd Hr. destruct (decoded_utf8 r Hd) as [a Ha|a Ha|a b n Hv _ Hn|a b c n Hv _ Hn|a b c d n Hv _ Hn].
  - simpl. destruct u as [|b [|c [|d u]]]; simpl; [done|..];
      repeat match goal with |- context [if ?x then _ else _] => destruct x eqn:?; [exfalso; wrong_head|] end; done.
  - exfalso. revert Hr. unfold valid_rune. cbn [r_code rune1 r_raw String.length].
    apply N.ltb_ge in Ha as ->. rewrite N.eqb_refl. done.
  - simpl. by rewrite Hv.
  - simpl. destruct (valid2 a b) eqn:?; [exfalso; wrong_head|]. by rewrite Hv.
  - simpl. destruct (valid2 a b) eqn:?; [exfalso; wrong_head|]. destruct (valid3 a b c) eqn:?; [exfalso; wrong_head|].
    by rewrite Hv.
Qed.

Lemma runes_valid_app s t : valid_text s = true -> runes (s +:+ t) = runes s ++ runes t.
Proof.
  unfold valid_text. induction s as [|r s Hr E IH] using runes_ind; [done|]. rewrite E. simpl.
  intros [Hv Hs]%andb_true_iff. rewrite <- string_app_assoc, runes_valid_step by done. by rewrite IH.
Qed.

Lemma valid_text_app s t : valid_text s = true -> valid_text t = true -> valid_text (s +:+ t) = true.
Proof. intros Hs Ht. unfold valid_text in *. rewrite runes_valid_app by done. by rewrite forallb_app, Hs, Ht. Qed.

Lemma runes_raw_valid r : decoded r -> valid_rune r = true -> runes (r_raw r) = [r].
Proof. intros Hd Hr. rewrite <- (string_app_nil_r (r_raw r)). by rewrite runes_valid_step. Qed.

Lemma ascii_code a n : n = code a -> ascii_of_N n = a.
Proof. intros ->. apply ascii_N_embedding. Qed.

Ltac div_mod := rewrite ?N.shiftr_div_pow2; change 63%N with (N.ones 6); rewrite ?N.land_ones;
  change (2 ^ 0)%N with 1%N; change (2 ^ 6)%N with 64%N; change (2 ^ 12)%N with 4096%N; change (2 ^ 18)%N with 262144%N;
  zify; Z.to_euclidean_division_equations; lia.

(** Encoding the code of a valid rune gives back its bytes. *)
Lemma utf8_encode_valid r : decoded r -> valid_rune r = true -> utf8_encode (r_code r) = r_raw r.
Proof.
  intros Hd Hr. unfold utf8_encode.
  destruct (decoded_utf8 r Hd) as [a Ha|a Ha|a b n Hv E Hn|a b c n Hv E Hn|a b c d n Hv E Hn].
  - cbn [r_code rune1 r_raw]. apply N.ltb_lt in Ha as E. rewrite E, E. f_equal. by apply ascii_code.
  - exfalso. revert Hr. unfold valid_rune. cbn [r_code rune1 r_raw String.length].
    apply N.ltb_ge in Ha as ->. rewrite N.eqb_refl. done.
  - rewrite E. cbn [r_raw rune2]. destruct Hn as (-> & Ha & Hb).
    rewrite (proj2 (N.ltb_ge _ _)), (proj2 (N.ltb_lt _ _)) by lia. repeat f_equal; apply ascii_code; div_mod.
  - rewrite E. cbn [r_raw rune3]. destruct Hn as (-> & Ha & Hb & Hc & Hmin).
    assert (forall x y z : N, (224 <= x <= 239 -> 128 <= y <= 191 -> (x = 224 -> 160 <= y) ->
      2048 <= (x - 224) * 4096 + (y - 128) * 64 + z)%N) as Hlow by lia.
    rewrite (proj2 (N.ltb_ge _ 128)), (proj2 (N.ltb_ge _ 2048)), (proj2 (N.ltb_lt _ _)) by (specialize (Hlow (code a) (code b)); lia).
    repeat f_equal; apply ascii_code; div_mod.
  - rewrite E. cbn [r_raw rune4]. destruct Hn as (-> & Ha & Hb & Hc & He & Hmin).
    rewrite (proj2 (N.ltb_ge _ 128)), (proj2 (N.ltb_ge _ 2048)), (proj2 (N.ltb_ge _ _)) by lia.
    repeat f_equal; apply ascii_code; div_mod.
Qed.

(** ** A printed string is read back *)

(** The character that an escaped or plain rune becomes. *)
Definition rune_token (r : rune) : token :=
  let c := r_code r in
  if (existsb (N.eqb c) [34; 92; 60; 62; 38; 8232; 8233] || (c <? 32))%N then TUnit c else TRune r.

Definition add_token (t : token) (x : option (list token * list rune)) : option (list token * list rune) :=
  (λ '(ts, rest), (t :: ts, rest)) <$> x.

Lemma literal_plain r l :
  (r_code r =? 34)%N = false -> (r_code r <? 32)%N = false -> (r_code r =? 92)%N = false ->
  json_literal (r :: l) = add_token (TRune r) (json_literal l).
Proof. intros H1 H2 H3. cbn [json_literal]. by rewrite H1, H2, H3. Qed.

Lemma literal_ascii a l : (code a < 128)%N ->
  json_literal (runes (json_rune (rune1 a)) ++ l) = add_token (rune_token (rune1 a)) (json_literal l)
  /\ valid_text (json_rune (rune1 a)) = true.
Proof.
  intros Ha. apply N.ltb_lt in Ha. revert Ha.
  destruct a as [[] [] [] [] [] [] [] []]; intros Ha; first [discriminate Ha | split; reflexivity].
Qed.

Lemma rune_cases r : decoded r -> valid_rune r = true ->
  (exists a, r = rune1 a /\ (code a < 128)%N) \/ (128 <= r_code r)%N.
Proof.
  intros [a Ha|a Ha|a b n Hv E Hn|a b c n Hv E Hn|a b c d n Hv E Hn]%decoded_utf8 Hr; rewrite ?E.
  - left. by exists a.
  - exfalso. revert Hr. unfold valid_rune. cbn [r_code rune1 r_raw String.length].
    apply N.ltb_ge in Ha as ->. rewrite N.eqb_refl. done.
  - right. lia.
  - right. destruct Hn as (-> & ? & ? & ? & ?). assert ((code a = 224 \/ 225 <= code a)%N) as [?|?] by lia; lia.
  - right. destruct Hn as (-> & ? & ? & ? & ? & ?). assert ((code a = 240 \/ 241 <= code a)%N) as [?|?] by lia; lia.
Qed.

Lemma json_rune_large r : valid_rune r = true -> (128 <= r_code r)%N ->
  json_rune r = if ((r_code r =? 8232) || (r_code r =? 8233))%N then String backslash ("u" +:+ hex4 (r_code r)) else r_raw r.
Proof.
  intros Hr Hc. unfold json_rune, valid_rune in *. apply negb_true_iff in Hr. rewrite Hr.
  repeat match goal with |- context [(r_code r =? ?k)%N] =>
    lazymatch k with 8232%N => fail | 8233%N => fail | _ => rewrite (proj2 (N.eqb_neq (r_code r) k)) by lia end end.
  rewrite (proj2 (N.ltb_ge (r_code r) 32)) by lia. done.
Qed.

Lemma rune_token_large r : (128 <= r_code r)%N ->
  rune_token r = if ((r_code r =? 8232) || (r_code r =? 8233))%N then TUnit (r_code r) else TRune r.
Proof.
  intros Hc. unfold rune_token. cbn [existsb].
  repeat match goal with |- context [(r_code r =? ?k)%N] =>
    lazymatch k with 8232%N => fail | 8233%N => fail | _ => rewrite (proj2 (N.eqb_neq (r_code r) k)) by lia end end.
  rewrite (proj2 (N.ltb_ge (r_code r) 32)) by lia. by rewrite !orb_false_r.
Qed.

Lemma literal_rune r l : decoded r -> valid_rune r = true ->
  json_literal (runes (json_rune r) ++ l) = add_token (rune_token r) (json_literal l) /\ valid_text (json_rune r) = true.
Proof.
  intros Hd Hr. destruct (rune_cases r Hd Hr) as [(a & -> & Ha)|Hc]; [by apply literal_ascii|].
  rewrite json_rune_large, rune_token_large by done.
  destruct (N.eqb_spec (r_code r) 8232) as [->|]; [by split|]. destruct (N.eqb_spec (r_code r) 8233) as [->|]; [by split|].
  simpl. unfold valid_text. rewrite runes_raw_valid by done. simpl. rewrite Hr. split; [|done].
  apply literal_plain; [apply N.eqb_neq; lia|apply N.ltb_ge; lia|apply N.eqb_neq; lia].
Qed.

Lemma decode_token r ts : decoded r -> valid_rune r = true ->
  decode_tokens (rune_token r :: ts) = r_raw r +:+ decode_tokens ts.
Proof.
  intros Hd Hr. pose proof (utf8_encode_valid r Hd Hr) as He. unfold rune_token.
  destruct (_ || _) eqn:Ec.
  - assert (r_code r < 55296)%N as Hlow.
    { apply orb_true_iff in Ec as [Ec|Ec]; [|apply N.ltb_lt in Ec; lia].
      apply existsb_exists in Ec as (k & Hk & Ek). apply N.eqb_eq in Ek as ->. simpl in Hk. lia. }
    cbn [decode_tokens]. unfold is_surrogate. rewrite (proj2 (N.leb_gt _ _)) by done. cbn [andb]. rewrite He.
    by destruct ts as [|[]].
  - cbn [decode_tokens]. f_equal. unfold encode_rune. destruct (N.eqb_spec (r_code r) RuneError) as [E|]; [|done].
    rewrite E in He. by rewrite <- He.
Qed.

Lemma literal_body rs l : Forall decoded rs -> forallb valid_rune rs = true ->
  valid_text (foldr (λ r t, json_rune r +:+ t) (String double_quote "") rs) = true
  /\ exists ts, json_literal (runes (foldr (λ r t, json_rune r +:+ t) (String double_quote "") rs) ++ l) = Some (ts, l)
       /\ decode_tokens ts = raw rs.
Proof.
  induction 1 as [|r rs Hd _ IH]; simpl; [intros _; split; [done|by exists []]|].
  intros [Hr Hrs]%andb_true_iff. destruct (IH Hrs) as (Hv & ts & E & Et).
  destruct (literal_rune r (runes (foldr (λ r t, json_rune r +:+ t) (String double_quote "") rs) ++ l) Hd Hr) as [El Hvr].
  split; [by apply valid_text_app|]. exists (rune_token r :: ts).
  rewrite runes_valid_app, <- app_assoc, El, E by done. split; [done|]. by rewrite decode_token, Et.
Qed.

Definition quote_rune : rune := rune1 double_quote.

(** What [Marshal] prints for a valid string is a literal for it. *)
Lemma json_string_literal s l : valid_text s = true ->
  valid_text (json_string s) = true
  /\ exists ts rest, runes (json_string s) ++ l = quote_rune :: rest /\ json_literal rest = Some (ts, l)
       /\ decode_tokens ts = s.
Proof.
  intros Hs. destruct (literal_body (runes s) l (runes_decoded s) Hs) as (Hv & ts & E & Et).
  unfold json_string. set (body := foldr _ _ _) in *.
  assert (runes (String double_quote body) = quote_rune :: runes body) as Er.
  { change (String double_quote body) with (r_raw quote_rune +:+ body). apply runes_valid_step; [constructor|done]. }
  split; [unfold valid_text; rewrite Er; simpl; exact Hv|].
  exists ts, (runes body ++ l). rewrite Er. split_and!; [done|done|]. by rewrite Et, raw_runes.
Qed.

(** [json.Unmarshal] inverts [json.Marshal] on valid strings. *)
Lemma unmarshal_marshal_string s : valid_text s = true -> unmarshal_string (json_string s) = Some s.
Proof.
  intros Hs. destruct (json_string_literal s [] Hs) as (_ & ts & rest & E & El & Et). rewrite app_nil_r in E.
  unfold unmarshal_string. rewrite E. simpl. by rewrite El, Et.
Qed.

(** ** A printed value is read back *)

Lemma runes_ascii a t : (code a < 128)%N -> runes (String a t) = rune1 a :: runes t.
Proof.
  intros Ha. change (String a t) with (r_raw (rune1 a) +:+ t). apply runes_valid_step; [constructor|].
  unfold valid_rune. cbn [r_code rune1]. apply N.ltb_lt in Ha. rewrite Ha. apply N.ltb_lt in Ha.
  apply negb_true_iff, andb_false_iff. left. apply N.eqb_neq. unfold RuneError. lia.
Qed.

Lemma valid_ascii a t : (code a < 128)%N -> valid_text (String a t) = valid_text t.
Proof.
  intros Ha. unfold valid_text. rewrite runes_ascii by done. cbn [forallb]. unfold valid_rune at 1. cbn [r_code rune1].
  apply N.ltb_lt in Ha. rewrite Ha. apply N.ltb_lt in Ha.
  rewrite (proj2 (N.eqb_neq (code a) RuneError)) by (unfold RuneError; lia). done.
Qed.

(** The text of a number, which is what a scan of it yields. *)
Definition number_text (s : string) : bool :=
  match scan_number s with Some (_, EmptyString) => forallb number_rune (runes s) | _ => false end.

Fixpoint printable (v : json) : bool :=
  match v with
  | JObject fields => (fix go (l : list (string * json)) : bool :=
      match l with [] => true | (k, x) :: l => valid_text k && printable x && go l end) fields
  | JArray l => (fix go (l : list json) : bool := match l with [] => true | x :: l => printable x && go l end) l
  | JString s => valid_text s
  | JNumber s => number_text s
  | JBool _ | JNull => true
  end.

Fixpoint json_depth (v : json) : nat :=
  match v with
  | JObject fields => S ((fix go (l : list (string * json)) : nat :=
      match l with [] => 0 | (_, x) :: l => Nat.max (json_depth x) (go l) end) fields)
  | JArray l => S ((fix go (l : list json) : nat := match l with [] => 0 | x :: l => Nat.max (json_depth x) (go l) end) l)
  | _ => 0
  end.

Definition member_text (f : string * json) : string := json_string (fst f) +:+ ":" +:+ json_text (snd f).

Lemma json_text_object fields : json_text (JObject fields) = "{" +:+ Join (member_text <$> fields) "," +:+ "}".
Proof. cbn [json_text]. do 2 f_equal. f_equal. induction fields as [|[k x] l IH]; [done|]. rewrite fmap_cons, <- IH. done. Qed.
Lemma json_text_array l : json_text (JArray l) = json_list (json_text <$> l).
Proof. reflexivity. Qed.
Lemma printable_object fields :
  printable (JObject fields) = true <-> Forall (λ f, valid_text (fst f) = true /\ printable (snd f) = true) fields.
Proof.
  induction fields as [|[k x] l IH]; [split; [constructor|done]|]. rewrite Forall_cons, <- IH. simpl.
  rewrite !andb_true_iff. done.
Qed.
Lemma printable_array l : printable (JArray l) = true <-> Forall (λ x, printable x = true) l.
Proof. induction l as [|x l IH]; [split; [constructor|done]|]. rewrite Forall_cons, <- IH. simpl. by rewrite andb_true_iff. Qed.
Lemma depth_object fields f : f ∈ fields -> json_depth (snd f) < json_depth (JObject fields).
Proof.
  induction fields as [|[k x] l IH]; intros Hf; [by apply elem_of_nil in Hf|].
  apply elem_of_cons in Hf as [->|Hf]; simpl in *; [lia|specialize (IH Hf); lia].
Qed.
Lemma depth_array l x : x ∈ l -> json_depth x < json_depth (JArray l).
Proof.
  induction l as [|y l IH]; intros Hf; [by apply elem_of_nil in Hf|].
  apply elem_of_cons in Hf as [->|Hf]; simpl in *; [lia|specialize (IH Hf); lia].
Qed.

Lemma Join_cons x y l sep : Join (x :: y :: l) sep = x +:+ sep +:+ Join (y :: l) sep.
Proof. reflexivity. Qed.

Lemma valid_join l : Forall (λ s, valid_text s = true) l -> valid_text (Join l ",") = true.
Proof.
  induction 1 as [|x l Hx Hl IH]; [done|]. destruct l as [|y l]; [done|]. rewrite Join_cons.
  apply valid_text_app; [done|]. by apply valid_text_app.
Qed.

Lemma number_rune_valid r : number_rune r = true -> valid_rune r = true.
Proof.
  unfold number_rune, valid_rune. intros H. apply negb_true_iff, andb_false_iff. left. apply N.eqb_neq. intros E. by rewrite E in H.
Qed.

Lemma number_text_valid s : number_text s = true -> valid_text s = true.
Proof.
  unfold number_text, valid_text. destruct (scan_number s) as [[t []]|]; [|done..]. rewrite !forallb_forall.
  intros H r Hr. by apply number_rune_valid, H.
Qed.

Lemma json_text_valid v : printable v = true -> valid_text (json_text v) = true.
Proof.
  induction v as [fields IH|l IH|s|s|b|] using json_ind'; intros Hv.
  - rewrite json_text_object. apply valid_text_app; [done|]. apply valid_text_app; [|done]. apply valid_join.
    apply printable_object in Hv. apply Forall_fmap. rewrite Forall_forall in *. intros f Hf. destruct (Hv f Hf) as [Hk Hx].
    unfold member_text. simpl. apply valid_text_app; [by apply json_string_literal with (l := [])|].
    apply valid_text_app; [done|]. by apply IH.
  - rewrite json_text_array. unfold json_list. apply valid_text_app; [done|]. apply valid_text_app; [|done]. apply valid_join.
    apply printable_array in Hv. apply Forall_fmap. rewrite Forall_forall in *. intros x Hx. by apply IH, Hv.
  - by apply json_string_literal with (l := []).
  - by apply number_text_valid.
  - by destruct b.
  - done.
Qed.

(** What can follow a value inside a text: a separator or the end. *)
Definition closing (l : list rune) : Prop := match l with [] => True | r :: _ => r_code r ∈ [44; 93; 125]%N end.

Lemma span_number_app rs l : forallb number_rune rs = true -> closing l -> span_number (rs ++ l) = (raw rs, l).
Proof.
  intros Hrs Hl. induction rs as [|r rs IH]; simpl in *.
  - destruct l as [|r l]; [done|]. simpl in *. destruct (number_rune r) eqn:E; [|done].
    exfalso. unfold number_rune in E. rewrite !elem_of_cons, elem_of_nil in Hl. by destruct Hl as [E'|[E'|[E'|[]]]]; rewrite E' in E.
  - apply andb_true_iff in Hrs as [-> Hrs]. by rewrite IH.
Qed.

Lemma number_text_start s : number_text s = true -> exists a r, s = String a r /\ (code a = 45 \/ 48 <= code a <= 57)%N.
Proof.
  unfold number_text. destruct (scan_number s) as [[t rest]|] eqn:E; [|done]. intros _. unfold scan_number in E.
  destruct s as [|a r]; [done|]. exists a, r. split; [done|]. destruct (N.eqb_spec (code a) 45); [by left|]. right.
  simpl in E. destruct (N.eqb_spec (code a) 48) as [->|]; [lia|]. unfold scan_digits1 in E. cbn [scan_digits] in E.
  unfold is_digit in E. destruct (_ && _) eqn:Ed; [|done]. apply andb_true_iff in Ed as [?%N.leb_le ?%N.leb_le]. lia.
Qed.

Lemma parse_number_text s l : number_text s = true -> closing l -> parse_number (runes s ++ l) = Some (JNumber s, l).
Proof.
  intros Hs Hl. unfold parse_number, number_text in *. destruct (scan_number s) as [[t []]|] eqn:E; [|done..].
  rewrite span_number_app, raw_runes by done. by rewrite E.
Qed.

Definition plain (a : ascii) : bool := (code a <? 128)%N && negb (space_rune (rune1 a)).

Lemma skip_plain a l : plain a = true -> skip_spaces (rune1 a :: l) = rune1 a :: l.
Proof. intros [_ H%negb_true_iff]%andb_true_iff. simpl. by rewrite H. Qed.

Lemma next_rune_ascii a l : plain a = true -> next_rune (rune1 a :: l) = Some (code a, l).
Proof.
  intros H. unfold next_rune. rewrite skip_plain by done. cbn [r_code rune1].
  apply andb_true_iff in H as [-> _]. done.
Qed.

Lemma next_rune_quote l : next_rune (quote_rune :: l) = Some (34%N, l).
Proof. reflexivity. Qed.

Definition parses (v : json) : Prop := forall fuel depth l,
  String.length (json_text v) <= fuel -> (Z.of_nat (json_depth v) <= depth)%Z -> closing l ->
  parse_value fuel depth (runes (json_text v) ++ l) = Some (v, l).

Lemma runes_join_cons x y l sep rest : valid_text x = true -> (code sep < 128)%N ->
  runes (Join (x :: y :: l) (String sep "") +:+ rest) = runes x ++ rune1 sep :: runes (Join (y :: l) (String sep "") +:+ rest).
Proof.
  intros Hx Hsep. rewrite Join_cons, <- !string_app_assoc, runes_valid_app by done. f_equal.
  by rewrite string_app_cons, runes_ascii.
Qed.

Lemma parse_elements_text x l fuel depth rest :
  Forall (λ v, printable v = true /\ parses v /\ (Z.of_nat (json_depth v) <= depth)%Z) (x :: l) ->
  String.length (Join (json_text x :: (json_text <$> l)) "," +:+ "]") <= fuel ->
  parse_elements fuel depth (runes (Join (json_text x :: (json_text <$> l)) "," +:+ "]") ++ rest) = Some (x :: l, rest).
Proof.
  revert x fuel. induction l as [|y l IH]; intros x fuel [(Hx & Hp & Hd) Hl]%Forall_cons Hf.
  - simpl in Hf. rewrite string_length_app in Hf. simpl in Hf. destruct fuel as [|fuel]; [lia|].
    simpl. rewrite runes_valid_app, <- app_assoc by by apply json_text_valid. simpl. cbn [parse_elements].
    rewrite Hp; [done|lia|done|]. simpl. set_solver.
  - rewrite fmap_cons in *. rewrite runes_join_cons, <- app_assoc by (done || by apply json_text_valid).
    rewrite Join_cons, <- !string_app_assoc, !string_length_app in Hf. change (String.length ",") with 1 in Hf. change (String.length "]") with 1 in Hf.
    destruct fuel as [|fuel]; [lia|]. cbn [parse_elements app]. rewrite Hp; [|lia|done|simpl; set_solver].
    assert (String.length (Join (json_text y :: (json_text <$> l)) "," +:+ "]") <= fuel) as Hf'
      by (rewrite string_length_app; change (String.length "]") with 1; lia).
    specialize (IH y fuel Hl Hf'). set (tail := _ ++ rest) in *. cbn [mbind option_bind]. rewrite next_rune_ascii by done. cbn. by rewrite IH.
Qed.

Lemma parse_members_text f l fuel depth rest :
  Forall (λ f, valid_text (fst f) = true /\ printable (snd f) = true /\ parses (snd f)
               /\ (Z.of_nat (json_depth (snd f)) <= depth)%Z) (f :: l) ->
  String.length (Join (member_text f :: (member_text <$> l)) "," +:+ "}") <= fuel ->
  parse_members fuel depth (runes (Join (member_text f :: (member_text <$> l)) "," +:+ "}") ++ rest) = Some (f :: l, rest).
Proof.
  assert (forall (f : string * json) fuel depth l2, valid_text (fst f) = true -> printable (snd f) = true -> parses (snd f) ->
    (Z.of_nat (json_depth (snd f)) <= depth)%Z -> String.length (member_text f) <= fuel -> closing l2 ->
    exists ts rest1, runes (member_text f) ++ l2 = quote_rune :: rest1
      /\ json_literal rest1 = Some (ts, rune1 ":" :: runes (json_text (snd f)) ++ l2) /\ decode_tokens ts = fst f
      /\ parse_value fuel depth (runes (json_text (snd f)) ++ l2) = Some (snd f, l2)
      /\ valid_text (member_text f) = true) as Hmember.
  { intros [k v] fuel' depth' l2 Hk Hv Hp Hd Hf Hl2. unfold member_text in *. cbn [fst snd] in *.
    destruct (json_string_literal k (rune1 ":" :: runes (json_text v) ++ l2) Hk) as (Hvk & ts & rest1 & E & El & Et).
    exists ts, rest1. change (":" +:+ json_text v) with (String ":" (json_text v)) in *.
    rewrite runes_valid_app, <- app_assoc by done. rewrite runes_ascii by done. rewrite <- app_comm_cons, E.
    rewrite string_length_app in Hf. simpl in Hf. split_and!; [done..| |].
    - apply Hp; [lia|done|done].
    - apply valid_text_app; [done|]. rewrite valid_ascii by done. by apply json_text_valid. }
  revert f fuel. induction l as [|g l IH]; intros f fuel [(Hk & Hv & Hp & Hd) Hl]%Forall_cons Hf.
  - change (Join _ _) with (member_text f) in *. rewrite string_length_app in Hf. change (String.length "}") with 1 in Hf.
    destruct fuel as [|fuel]; [lia|].
    destruct (Hmember f fuel depth (rune1 "}" :: rest)) as (ts & rest1 & E & El & Et & Ev & Hvm); [done..|lia|simpl; set_solver|].
    rewrite runes_valid_app, <- app_assoc by done. change (runes "}" ++ rest) with (rune1 "}" :: rest). rewrite E. cbn [parse_members].
    rewrite next_rune_quote. cbn. rewrite El. cbn [mbind option_bind]. rewrite next_rune_ascii by done. cbn.
    rewrite Ev. cbn [mbind option_bind]. rewrite next_rune_ascii by done. cbn. rewrite Et. by destruct f.
  - rewrite fmap_cons in *.
    destruct (Hmember f (pred fuel) depth (rune1 "," :: runes (Join (member_text g :: (member_text <$> l)) "," +:+ "}") ++ rest))
      as (ts & rest1 & E & El & Et & Ev & Hvm); [done..| |simpl; set_solver|].
    { rewrite Join_cons, !string_length_app in Hf. change (String.length "}") with 1 in Hf. lia. }
    rewrite runes_join_cons, <- app_assoc by done. rewrite <- app_comm_cons, E.
    rewrite Join_cons, <- !string_app_assoc, !string_length_app in Hf. change (String.length ",") with 1 in Hf.
    change (String.length "}") with 1 in Hf. destruct fuel as [|fuel]; [lia|]. simpl pred in Ev. cbn [parse_members].
    assert (String.length (Join (member_text g :: (member_text <$> l)) "," +:+ "}") <= fuel) as Hf'
      by (rewrite string_length_app; change (String.length "}") with 1; lia).
    specialize (IH g fuel Hl Hf'). set (tail := _ ++ rest) in *. set (body := _ ++ _ :: tail) in *.
    rewrite next_rune_quote. cbn. rewrite El. cbn [mbind option_bind]. rewrite next_rune_ascii by done. cbn.
    rewrite Ev. cbn [mbind option_bind]. rewrite next_rune_ascii by done. cbn. rewrite IH, Et. by destruct f.
Qed.

Lemma Join_head x l sep t : exists u, Join (x :: l) sep +:+ t = x +:+ u.
Proof.
  destruct l as [|y l]; [by exists t|]. exists (sep +:+ Join (y :: l) sep +:+ t). by rewrite Join_cons, <- !string_app_assoc.
Qed.

Definition tail_of (s : string) : string := match s with String _ s => s | EmptyString => "" end.

Lemma plain_low a : plain a = true -> (code a < 128)%N.
Proof. by intros [H%N.ltb_lt _]%andb_true_iff. Qed.

Lemma number_start_plain a : (code a = 45 \/ 48 <= code a <= 57)%N -> plain a = true.
Proof.
  intros Ha. unfold plain. rewrite (proj2 (N.ltb_lt _ _)) by lia. unfold space_rune. cbn [r_code rune1 existsb].
  rewrite (proj2 (N.ltb_lt _ _)) by lia. by repeat rewrite (proj2 (N.eqb_neq (code a) _)) by lia.
Qed.

Lemma json_text_head v : printable v = true -> exists a t, json_text v = String a t /\ plain a = true /\ code a <> 93%N.
Proof.
  destruct v as [fields|l|s|s|b|]; intros Hv.
  - rewrite json_text_object. by eexists _, _.
  - rewrite json_text_array. by eexists _, _.
  - by eexists _, _.
  - destruct (number_text_start s Hv) as (a & r & -> & Ha). eexists _, _. split; [done|].
    split; [by apply number_start_plain|]. lia.
  - destruct b; by eexists _, _.
  - by eexists _, _.
Qed.

Lemma json_text_parses v : printable v = true -> parses v.
Proof.
  induction v as [fields IH|l IH|s|s|b|] using json_ind'; intros Hv fuel depth rest Hf Hd Hrest.
  - pose proof (proj1 (printable_object fields) Hv) as Hfs. rewrite json_text_object in *.
    set (body := Join (member_text <$> fields) "," +:+ "}") in *. change ("{" +:+ body) with (String "{" body) in *.
    destruct fuel as [|fuel]; [simpl in Hf; lia|]. assert (0 < depth)%Z as Hd0 by (simpl in Hd; lia).
    rewrite runes_ascii by done. cbn [parse_value app]. rewrite next_rune_ascii by done. cbn.
    rewrite (proj2 (Z.leb_gt depth 0)) by done. destruct fields as [|f fields]; [done|].
    unfold body in *. rewrite fmap_cons in *.
    destruct (Join_head (member_text f) (member_text <$> fields) "," "}") as (u & Eu).
    assert (exists l', next_rune (runes (Join (member_text f :: (member_text <$> fields)) "," +:+ "}") ++ rest) = Some (34%N, l'))
      as (l' & ->).
    { rewrite Eu. change (member_text f +:+ u) with (String double_quote (tail_of (member_text f) +:+ u)).
      rewrite runes_ascii by done. eexists. apply next_rune_ascii. done. }
    pose proof (parse_members_text f fields fuel (depth - 1) rest) as Hm. set (text := runes _ ++ rest) in *.
    cbn. rewrite Hm; [done| |exact (le_S_n _ _ Hf)].
    rewrite Forall_forall in *. intros g Hg. destruct (Hfs g Hg) as [Hk Hx]. split_and!; [done|done|by apply IH|].
    pose proof (depth_object _ g Hg). lia.
  - pose proof (proj1 (printable_array l) Hv) as Hl. rewrite json_text_array in *. unfold json_list in *.
    set (body := Join (json_text <$> l) "," +:+ "]") in *. change ("[" +:+ body) with (String "[" body) in *.
    destruct fuel as [|fuel]; [simpl in Hf; lia|]. assert (0 < depth)%Z as Hd0 by (simpl in Hd; lia).
    rewrite runes_ascii by done. cbn [parse_value app]. rewrite next_rune_ascii by done. cbn.
    rewrite (proj2 (Z.leb_gt depth 0)) by done. destruct l as [|x l]; [done|].
    unfold body in *. rewrite fmap_cons in *.
    destruct (Join_head (json_text x) (json_text <$> l) "," "]") as (u & Eu).
    assert (exists c l', next_rune (runes (Join (json_text x :: (json_text <$> l)) "," +:+ "]") ++ rest) = Some (c, l')
              /\ (c =? 93)%N = false) as (c & l' & -> & Hc).
    { rewrite Eu. destruct (json_text_head x) as (a & t & -> & Ha & Hc); [by inversion Hl|].
      rewrite string_app_cons, runes_ascii by by apply plain_low. eexists _, _. split; [by apply next_rune_ascii|].
      by apply N.eqb_neq. }
    pose proof (parse_elements_text x l fuel (depth - 1) rest) as Hm. set (text := runes _ ++ rest) in *.
    cbn. rewrite Hc. rewrite Hm; [done| |exact (le_S_n _ _ Hf)].
    rewrite Forall_forall in *. intros y Hy. split_and!; [by apply Hl|by apply IH, Hl|].
    pose proof (depth_array _ y Hy). lia.
  - destruct (json_string_literal s rest Hv) as (_ & ts & rest1 & E & El & <-).
    destruct fuel as [|fuel]; [simpl in Hf; lia|]. cbn [json_text] in *. rewrite E. cbn [parse_value]. rewrite next_rune_quote. cbn.
    by rewrite El.
  - destruct (number_text_start s Hv) as (a & r & -> & Ha). destruct fuel as [|fuel]; [simpl in Hf; lia|].
    cbn [parse_value json_text]. pose proof (parse_number_text _ rest Hv Hrest) as Hp.
    rewrite runes_ascii in * by lia. pose proof (number_start_plain a Ha) as Hpl.
    cbn [app]. rewrite next_rune_ascii, skip_plain by done. cbn [mbind option_bind].
    repeat rewrite (proj2 (N.eqb_neq (code a) _)) by lia. exact Hp.
  - destruct fuel as [|fuel]; [destruct b; simpl in Hf; lia|]. by destruct b.
  - destruct fuel as [|fuel]; [simpl in Hf; lia|]. done.
Qed.

(** [Unmarshal] inverts [Marshal], up to the order of the members that the text shows. *)
Lemma json_parse_text v :
  printable v = true -> (Z.of_nat (json_depth v) <= maxNestingDepth)%Z -> json_parse (json_text v) = Some v.
Proof.
  intros Hv Hd. unfold json_parse. pose proof (json_text_parses v Hv (2 * String.length (json_text v) + 2) _ [] ltac:(lia) Hd I) as Hp.
  rewrite app_nil_r in Hp. rewrite Hp. done.
Qed.

(** ** The fuel suffices *)

Definition rest_within {A} (n : nat) (x : option (A * list rune)) : Prop :=
  forall a rest, x = Some (a, rest) -> length rest <= n.

Lemma rest_map {A B} n (x : option (A * list rune)) (g : A -> B) :
  rest_within n x -> rest_within n ((λ '(a, rest), (g a, rest)) <$> x).
Proof. intros Hx b rest E. destruct x as [[a r]|]; [|done]. injection E as <- <-. by eapply Hx. Qed.
Lemma rest_mono {A} m n (x : option (A * list rune)) : rest_within m x -> m <= n -> rest_within n x.
Proof. intros Hx Hn a rest E. specialize (Hx a rest E). lia. Qed.
Lemma rest_some {A} n (a : A) rest : length rest <= n -> rest_within n (Some (a, rest)).
Proof. by intros Hr ? ? [= <- <-]. Qed.
Lemma rest_none {A} n : @rest_within A n None.
Proof. by intros a rest. Qed.

Lemma skip_spaces_length l : length (skip_spaces l) <= length l.
Proof. induction l as [|r l IH]; [done|]. simpl. destruct (space_rune r); simpl; lia. Qed.
Lemma next_rune_length l c rest : next_rune l = Some (c, rest) -> length rest < length l.
Proof. unfold next_rune. pose proof (skip_spaces_length l). destruct (skip_spaces l); [done|]. intros [= _ <-]. simpl in *. lia. Qed.

Lemma json_literal_rest l : rest_within (length l) (json_literal l).
Proof.
  induction l as [l IH] using (well_founded_induction (Wf_nat.well_founded_ltof _ length)). unfold Wf_nat.ltof in IH.
  assert (forall t l', length l' < length l -> rest_within (length l) (add_token t (json_literal l'))) as IHt.
  { intros t l' Hl. apply (rest_map _ _ (cons t)). eapply rest_mono; [by apply IH|lia]. }
  destruct l as [|r l]; [apply rest_none|]. cbn [json_literal].
  destruct (_ =? 34)%N; [apply rest_some; simpl; lia|]. destruct (_ <? 32)%N; [apply rest_none|].
  destruct (negb _); [apply (IHt (TRune r)); simpl; lia|]. destruct l as [|e l1]; [apply rest_none|].
  destruct (simple_escape _) as [n|]; [apply (IHt (TUnit n)); simpl; lia|]. destruct (negb _); [apply rest_none|].
  destruct l1 as [|h1 [|h2 [|h3 [|h4 l5]]]]; try apply rest_none.
  destruct (hex_value h1), (hex_value h2), (hex_value h3), (hex_value h4); try apply rest_none.
  apply (IHt (TUnit _)). simpl; lia.
Qed.

Lemma parse_word_rest w l (v : json) : rest_within (length l) (pair v <$> parse_word w l).
Proof.
  revert l. induction w as [|c w IH]; intros l; [by apply rest_some|]. destruct l as [|r l]; [apply rest_none|]. simpl.
  destruct (_ =? _)%N; [|apply rest_none]. eapply rest_mono; [apply IH|simpl; lia].
Qed.

Lemma parse_number_rest l : rest_within (length l) (parse_number l).
Proof.
  unfold parse_number. assert (length (snd (span_number l)) <= length l) as Hl.
  { induction l as [|r l IH]; [done|]. simpl. destruct (number_rune r); [|simpl; lia]. destruct (span_number l); simpl in *; lia. }
  destruct (span_number l) as [t rest]. destruct (scan_number t) as [[? []]|]; [by apply rest_some|apply rest_none..].
Qed.

Lemma parse_rest fuel : forall depth l,
  rest_within (length l) (parse_value fuel depth l) /\ rest_within (length l) (parse_members fuel depth l)
  /\ rest_within (length l) (parse_elements fuel depth l).
Proof.
  induction fuel as [|fuel IH]; intros depth l; [split_and!; apply rest_none|].
  split_and!; cbn [parse_value parse_members parse_elements].
  - destruct (next_rune l) as [[c rest]|] eqn:E; [|apply rest_none]. cbn [mbind option_bind]. apply next_rune_length in E as Hn.
    repeat destruct (_ =? _)%N.
    + apply (rest_map _ _ (λ ts, JString (decode_tokens ts))). eapply rest_mono; [apply json_literal_rest|lia].
    + destruct (_ <=? 0)%Z; [apply rest_none|]. destruct (next_rune rest) as [[d rest']|] eqn:E'; [|apply rest_none].
      cbn [mbind option_bind]. apply next_rune_length in E'. destruct (_ =? 125)%N; [apply rest_some; lia|].
      apply (rest_map _ _ JObject). eapply rest_mono; [apply IH|lia].
    + destruct (_ <=? 0)%Z; [apply rest_none|]. destruct (next_rune rest) as [[d rest']|] eqn:E'; [|apply rest_none].
      cbn [mbind option_bind]. apply next_rune_length in E'. destruct (_ =? 93)%N; [apply rest_some; lia|].
      apply (rest_map _ _ JArray). eapply rest_mono; [apply IH|lia].
    + eapply rest_mono; [apply parse_word_rest|lia].
    + eapply rest_mono; [apply parse_word_rest|lia].
    + eapply rest_mono; [apply parse_word_rest|lia].
    + eapply rest_mono; [apply parse_number_rest|apply skip_spaces_length].
  - destruct (next_rune l) as [[c l1]|] eqn:E1; [|apply rest_none]. cbn [mbind option_bind]. apply next_rune_length in E1.
    destruct (negb _); [apply rest_none|].
    destruct (json_literal l1) as [[ts l2]|] eqn:E2; [|apply rest_none]. cbn [mbind option_bind]. apply json_literal_rest in E2.
    destruct (next_rune l2) as [[c2 l3]|] eqn:E3; [|apply rest_none]. cbn [mbind option_bind]. apply next_rune_length in E3.
    destruct (negb _); [apply rest_none|].
    destruct (parse_value fuel depth l3) as [[v l4]|] eqn:E4; [|apply rest_none]. cbn [mbind option_bind]. apply (proj1 (IH depth l3)) in E4.
    destruct (next_rune l4) as [[c5 l5]|] eqn:E5; [|apply rest_none]. cbn [mbind option_bind]. apply next_rune_length in E5.
    destruct (_ =? 125)%N; [apply rest_some; lia|]. destruct (_ =? 44)%N; [|apply rest_none].
    apply (rest_map _ _ (cons (decode_tokens ts, v))). eapply rest_mono; [apply IH|lia].
  - destruct (parse_value fuel depth l) as [[v l1]|] eqn:E1; [|apply rest_none]. cbn [mbind option_bind]. apply (proj1 (IH depth l)) in E1.
    destruct (next_rune l1) as [[c2 l2]|] eqn:E2; [|apply rest_none]. cbn [mbind option_bind]. apply next_rune_length in E2.
    destruct (_ =? 93)%N; [apply rest_some; lia|]. destruct (_ =? 44)%N; [|apply rest_none].
    apply (rest_map _ _ (cons v)). eapply rest_mono; [apply IH|lia].
Qed.

(** Two amounts of fuel that both suffice give the same parse. *)
Lemma parse_fuel fuel : forall fuel' depth l,
  (2 * length l < fuel -> 2 * length l < fuel' -> parse_value fuel depth l = parse_value fuel' depth l)
  /\ (2 * length l < fuel -> 2 * length l < fuel' -> parse_members fuel depth l = parse_members fuel' depth l)
  /\ (2 * length l + 1 < fuel -> 2 * length l + 1 < fuel' -> parse_elements fuel depth l = parse_elements fuel' depth l).
Proof.
  induction fuel as [|fuel IH]; intros [|fuel'] depth l; [split_and!; lia..|].
  split_and!; intros Hf Hf'; cbn [parse_value parse_members parse_elements].
  - destruct (next_rune l) as [[c rest]|] eqn:E; [|done]. cbn [mbind option_bind]. apply next_rune_length in E.
    repeat destruct (_ =? _)%N; try done; destruct (_ <=? 0)%Z; try done; destruct (next_rune rest) as [[d rest']|]; try done;
      cbn [mbind option_bind]; destruct (_ =? _)%N; try done; f_equal; apply IH; lia.
  - destruct (next_rune l) as [[c l1]|] eqn:E1; [|done]. cbn [mbind option_bind]. apply next_rune_length in E1.
    destruct (negb _); [done|].
    destruct (json_literal l1) as [[ts l2]|] eqn:E2; [|done]. cbn [mbind option_bind]. apply json_literal_rest in E2.
    destruct (next_rune l2) as [[c2 l3]|] eqn:E3; [|done]. cbn [mbind option_bind]. apply next_rune_length in E3.
    destruct (negb _); [done|]. rewrite (proj1 (IH fuel' depth l3)) by lia.
    destruct (parse_value fuel' depth l3) as [[v l4]|] eqn:E4; [|done]. cbn [mbind option_bind]. apply parse_rest in E4.
    destruct (next_rune l4) as [[c5 l5]|] eqn:E5; [|done]. cbn [mbind option_bind]. apply next_rune_length in E5.
    destruct (_ =? 125)%N; [done|]. destruct (_ =? 44)%N; [|done]. f_equal. apply IH; lia.
  - rewrite (proj1 (IH fuel' depth l)) by lia.
    destruct (parse_value fuel' depth l) as [[v l1]|] eqn:E1; [|done]. cbn [mbind option_bind]. apply parse_rest in E1.
    destruct (next_rune l1) as [[c2 l2]|] eqn:E2; [|done]. cbn [mbind option_bind]. apply next_rune_length in E2.
    destruct (_ =? 93)%N; [done|]. destruct (_ =? 44)%N; [|done]. f_equal. apply IH; lia.
Qed.

Lemma length_runes s : length (runes s) <= String.length s.
Proof.
  induction s as [|r s Hr E IH] using runes_ind; [done|]. rewrite E, string_length_app. simpl.
  pose proof (decoded_nonempty r Hr). lia.
Qed.

(** More fuel than [json_parse] provides changes nothing. *)
Lemma json_parse_fuel s fuel : 2 * String.length s + 2 <= fuel ->
  parse_value fuel maxNestingDepth (runes s) = parse_value (2 * String.length s + 2) maxNestingDepth (runes s).
Proof. intros Hf. pose proof (length_runes s). apply parse_fuel; lia. Qed.
