(* ===== verification/JsonStruct.v ===== *)
(** * The fields of structs and maps in JSON texts

    What [json.Unmarshal] assigns to an [interface{}], to integers, strings and
    slices, and to the fields of a struct; what [json.Marshal] prints for a
    struct. With the round trips of each. *)
From S2P Require Import Prelude GoStrings Uuid GoRegexp GoJson GoFloat StepRedaction JsonDecode.
From Stdlib Require Import Ascii.
Open Scope list_scope.

(** ** Integers *)

Fixpoint digits_value (acc : Z) (s : string) : option Z :=
  match s with
  | EmptyString => Some acc
  | String a s => if is_digit a then digits_value (10 * acc + (Z.of_N (code a) - 48)) s else None
  end.

Definition in_int64b (z : Z) : bool := (int64_min <=? z)%Z && (z <=? int64_max)%Z.

(** [strconv.ParseInt(s, 10, 64)] of the text of a number. *)
Definition parse_int64 (s : string) : option Z :=
  let '(minus, digits) := if negative s then (true, strip_sign s) else (false, s) in
  if bool_decide (digits = "") then None else
  '(n) ← digits_value 0 digits;
  let z := if minus then (- n)%Z else n in
  if in_int64b z then Some z else None.

Lemma digits_value_app s t acc : digits_value acc (s +:+ t) = digits_value acc s ≫= λ n, digits_value n t.
Proof. revert acc. induction s as [|a s IH]; intros acc; [done|]. rewrite string_app_cons. simpl. destruct (is_digit a); [apply IH|done]. Qed.

Lemma digit_char k : (k < 10)%N -> is_digit (pretty_N_char k) = true /\ (Z.of_N (code (pretty_N_char k)) - 48 = Z.of_N k)%Z.
Proof. intros Hk. do 10 (destruct k as [|k] using N.peano_ind; [done|clear IHk]). lia. Qed.

(** Not empty, and the first digit is not zero. *)
Definition leading (d : string) : Prop := match d with String a _ => code a <> 48%N | EmptyString => False end.

(** The digits in front of a text. *)
Lemma pretty_digits n : (0 < n)%N -> exists d, leading d /\ (forall s, pretty_N_go n s = d +:+ s) /\ digits_value 0 d = Some (Z.of_N n).
Proof.
  induction (N.lt_wf_0 n) as [n _ IH]. intros Hn.
  destruct (digit_char (n mod 10) ltac:(apply N.mod_lt; lia)) as [Hd Hv].
  assert (Z.of_N n = 10 * Z.of_N (n / 10) + Z.of_N (n mod 10))%Z as En by (pose proof (N.div_mod n 10); lia).
  destruct (N.eq_dec (n / 10)%N 0%N) as [E|E].
  - exists (String (pretty_N_char (n mod 10)) ""). split_and!.
    + simpl. intros Ec. rewrite Ec in Hv. assert ((n mod 10)%N = 0%N) by lia. lia.
    + intros s. rewrite pretty_N_go_step, E by done. done.
    + rewrite E in En. cbn [digits_value]. rewrite Hd. f_equal. lia.
  - assert (0 < n / 10)%N as Hpos by (by apply N.neq_0_lt_0).
    destruct (IH (n / 10)%N ltac:(by apply N.div_lt) Hpos) as (d & Hne & Hd' & Hv').
    exists (d +:+ String (pretty_N_char (n mod 10)) ""). split_and!.
    + by destruct d as [|a d].
    + intros s. rewrite pretty_N_go_step by done. rewrite Hd', <- string_app_assoc. done.
    + rewrite digits_value_app, Hv'. cbn. rewrite Hd. f_equal. lia.
Qed.

Lemma itoa_digits z : (0 <= z)%Z -> (z = 0%Z \/ leading (itoa z)) /\ digits_value 0 (itoa z) = Some z.
Proof.
  intros Hz. destruct z as [|p|p]; [split; [by left|done]| |lia]. destruct (pretty_digits (Npos p) ltac:(lia)) as (d & Hne & Hd & Hv).
  assert (itoa (Z.pos p) = d) as ->; [|by split; [right|]].
  unfold itoa, pretty, pretty_Z, pretty, pretty_positive, pretty, pretty_N. rewrite decide_False by done. rewrite Hd.
  apply string_app_nil_r.
Qed.

Lemma itoa_negative p : itoa (Z.neg p) = String "-" (itoa (Z.pos p)).
Proof. done. Qed.

Lemma leading_sign d : leading d -> is_Some (digits_value 0 d) -> negative d = false.
Proof.
  destruct d as [|a d]; [done|]. intros _ [n Hn]. cbn [digits_value negative] in *. unfold is_digit in Hn.
  destruct (N.eqb_spec (code a) 45) as [E|]; [|done]. by rewrite E in Hn.
Qed.

(** [ParseInt] reads what [Itoa] prints. *)
Lemma parse_int64_itoa z : in_int64 z -> parse_int64 (itoa z) = Some z.
Proof.
  intros Hz. assert (in_int64b z = true) as Hb.
  { unfold in_int64b. apply andb_true_iff. rewrite !Z.leb_le. exact Hz. }
  destruct z as [|p|p]; [done| |]; destruct (itoa_digits (Z.pos p) ltac:(lia)) as [[?|Hl] Hv]; try done; unfold parse_int64.
  - rewrite leading_sign by (rewrite ?Hv; eauto). rewrite bool_decide_eq_false_2 by (intros E; by rewrite E in Hl).
    rewrite Hv. simpl. by rewrite Hb.
  - rewrite itoa_negative. change (negative _) with true.
    change (strip_sign _) with (itoa (Z.pos p)). cbv iota zeta beta.
    rewrite bool_decide_eq_false_2 by (intros E; by rewrite E in Hl). rewrite Hv.
    cbn. change (in_int64b (Z.neg p)) with (in_int64b (- Z.pos p)) in Hb. by rewrite Hb.
Qed.

Lemma scan_digits_all d acc n : digits_value acc d = Some n -> scan_digits d = (d, "").
Proof.
  revert acc. induction d as [|a d IH]; intros acc; [done|]. simpl. destruct (is_digit a); [|done].
  intros H. by rewrite (IH _ H).
Qed.

Lemma scan_number_digits d n : d = "0" \/ leading d -> digits_value 0 d = Some n ->
  scan_number d = Some (d, "") /\ scan_number (String "-" d) = Some (String "-" d, "").
Proof.
  intros Hl Hd. assert (scan_integer d = Some (d, "")) as Hi.
  { destruct Hl as [->|Hl]; [done|]. unfold scan_integer. destruct d as [|a d]; [done|].
    simpl in Hl. apply N.eqb_neq in Hl. rewrite Hl. unfold scan_digits1. by rewrite (scan_digits_all _ _ _ Hd). }
  assert (match d with String a _ => (code a =? 45)%N | "" => false end = false) as Hs.
  { destruct Hl as [->|Hl]; [done|]. apply leading_sign; [done|eauto]. }
  unfold scan_number. split.
  - replace (match d with String a r => if (code a =? 45)%N then (String a "", r) else ("", d) | "" => ("", d) end)
      with ("", d) by (destruct d; [done|by rewrite Hs]). rewrite Hi. simpl. by rewrite string_app_nil_r.
  - simpl. rewrite Hi. simpl. by rewrite !string_app_nil_r.
Qed.

Lemma digits_runes d acc n : digits_value acc d = Some n -> forallb number_rune (runes d) = true.
Proof.
  revert acc. induction d as [|a d IH]; intros acc; [done|]. cbn [digits_value]. destruct (is_digit a) eqn:Ea; [|done].
  intros H. assert (48 <= code a <= 57)%N as Hc by (unfold is_digit in Ea; rewrite andb_true_iff, !N.leb_le in Ea; lia).
  rewrite runes_ascii by lia. cbn [forallb]. rewrite (IH _ H), andb_true_r. unfold number_rune. cbn [r_code rune1].
  apply orb_true_iff. left. apply andb_true_iff. rewrite !N.leb_le.
  by rewrite (proj2 (N.ltb_lt _ _)) by lia.
Qed.

Lemma itoa_number_text z : number_text (itoa z) = true.
Proof.
  unfold number_text. destruct z as [|p|p]; [done| |]; destruct (itoa_digits (Z.pos p) ltac:(lia)) as [[?|Hl] Hv]; try done.
  - rewrite (proj1 (scan_number_digits _ _ (or_intror Hl) Hv)). by eapply digits_runes.
  - rewrite itoa_negative, (proj2 (scan_number_digits _ _ (or_intror Hl) Hv)), runes_ascii by done. cbn [forallb].
    rewrite (digits_runes _ _ _ Hv). done.
Qed.

(** ** Values of any type *)

(** What [Unmarshal] stores in an [interface{}]: the numbers become [float64],
    of equal keys the last one counts. *)
Fixpoint decode_any (v : json) : option json :=
  match v with
  | JObject fields =>
      JObject <$> (fix go (acc l : list (string * json)) : option (list (string * json)) :=
        match l with [] => Some acc | (k, x) :: l => x ← decode_any x; go (assign k x acc) l end) [] fields
  | JArray l =>
      JArray <$> (fix go (l : list json) : option (list json) :=
        match l with [] => Some [] | x :: l => x ← decode_any x; l ← go l; Some (x :: l) end) l
  | JNumber s => JNumber <$> float64_text s
  | v => Some v
  end.

Fixpoint decode_members (acc l : list (string * json)) : option (list (string * json)) :=
  match l with [] => Some acc | (k, x) :: l => x ← decode_any x; decode_members (assign k x acc) l end.

Lemma decode_object fields : decode_any (JObject fields) = JObject <$> decode_members [] fields.
Proof. reflexivity. Qed.
Lemma decode_array l : decode_any (JArray l) = JArray <$> mapM decode_any l.
Proof. reflexivity. Qed.

(** A value that [Unmarshal] can have stored there: texts are valid, numbers
    have the text that [Marshal] gives them, keys are distinct. *)
Fixpoint any_value (v : json) : bool :=
  match v with
  | JObject fields =>
      bool_decide (NoDup (fst <$> fields)) && (fix go (l : list (string * json)) : bool :=
        match l with [] => true | (k, x) :: l => valid_text k && any_value x && go l end) fields
  | JArray l => (fix go (l : list json) : bool := match l with [] => true | x :: l => any_value x && go l end) l
  | JString s => valid_text s
  | JNumber s => number_text s && bool_decide (float64_text s = Some s)
  | JBool _ | JNull => true
  end.

Lemma any_object fields : any_value (JObject fields) = true <->
  NoDup (fst <$> fields) /\ Forall (λ f, valid_text (fst f) = true /\ any_value (snd f) = true) fields.
Proof.
  cbn [any_value]. rewrite andb_true_iff, bool_decide_eq_true. apply and_iff_compat_l.
  induction fields as [|[k x] l IH]; [split; [constructor|done]|]. rewrite Forall_cons, <- IH. simpl.
  rewrite !andb_true_iff. done.
Qed.
Lemma any_array l : any_value (JArray l) = true <-> Forall (λ x, any_value x = true) l.
Proof. induction l as [|x l IH]; [split; [constructor|done]|]. rewrite Forall_cons, <- IH. simpl. by rewrite andb_true_iff. Qed.

Lemma assign_fresh {A} k (a : A) l : k ∉ fst <$> l -> assign k a l = l ++ [(k, a)].
Proof.
  induction l as [|[k' b] l IH]; intros Hk; [done|]. rewrite fmap_cons, not_elem_of_cons in Hk. destruct Hk as [Hne Hk]. simpl.
  rewrite bool_decide_eq_false_2 by (intros ->; done). by rewrite IH.
Qed.

Lemma sort_object fields : sort_members (JObject fields) =
  JObject (stable_sort (less_str_by fst) ((λ f, (fst f, sort_members (snd f))) <$> fields)).
Proof. cbn [sort_members]. do 2 f_equal. induction fields as [|[k x] l IH]; [done|]. rewrite fmap_cons, <- IH. done. Qed.
Lemma sort_array l : sort_members (JArray l) = JArray (sort_members <$> l).
Proof. reflexivity. Qed.

Lemma sorted_keys (l : list (string * json)) : fst <$> ((λ f, (fst f, sort_members (snd f))) <$> l) = fst <$> l.
Proof. rewrite <- list_fmap_compose. by apply list_fmap_ext; intros ? [? ?] ?. Qed.

Lemma depth_object_le l n : json_depth (JObject l) <= S n <-> Forall (λ f, json_depth (snd f) <= n) l.
Proof.
  induction l as [|[k x] l IH]; [split; [constructor|simpl; lia]|]. rewrite Forall_cons, <- IH. simpl. lia.
Qed.
Lemma depth_array_le l n : json_depth (JArray l) <= S n <-> Forall (λ x, json_depth x <= n) l.
Proof. induction l as [|x l IH]; [split; [constructor|simpl; lia]|]. rewrite Forall_cons, <- IH. simpl. lia. Qed.

(** Sorting the keys keeps the value and its depth. *)
Lemma any_value_sorted v : any_value v = true -> any_value (sort_members v) = true.
Proof.
  induction v as [l IH|l IH|s|s|b|] using json_ind'; try done.
  - rewrite any_object, sort_object, any_object. intros [Hd Hl]. split; rewrite stable_sort_perm.
    + by rewrite sorted_keys.
    + apply Forall_fmap. eapply Forall_impl; [apply Forall_and; split; [exact IH|exact Hl]|]. simpl. naive_solver.
  - rewrite any_array, sort_array, any_array. intros Hl. apply Forall_fmap.
    eapply Forall_impl; [apply Forall_and; split; [exact IH|exact Hl]|]. simpl. naive_solver.
Qed.

Lemma sort_members_depth v n : json_depth v <= n -> json_depth (sort_members v) <= n.
Proof.
  revert n. induction v as [l IH|l IH|s|s|b|] using json_ind'; try done; intros [|n]; try (simpl; lia).
  - rewrite sort_object, !depth_object_le. intros Hl. rewrite stable_sort_perm. apply Forall_fmap.
    eapply Forall_impl; [apply Forall_and; split; [exact IH|exact Hl]|]. simpl. naive_solver.
  - rewrite sort_array, !depth_array_le. intros Hl. apply Forall_fmap.
    eapply Forall_impl; [apply Forall_and; split; [exact IH|exact Hl]|]. simpl. naive_solver.
Qed.

Lemma any_value_printable v : any_value v = true -> printable v = true.
Proof.
  induction v as [l IH|l IH|s|s|b|] using json_ind'; try done.
  - rewrite any_object, printable_object. intros [_ Hl].
    eapply Forall_impl; [apply Forall_and; split; [exact IH|exact Hl]|]. simpl. naive_solver.
  - rewrite any_array, printable_array. intros Hl.
    eapply Forall_impl; [apply Forall_and; split; [exact IH|exact Hl]|]. simpl. naive_solver.
  - simpl. by intros [? _]%andb_true_iff.
Qed.

(** It is read back as it is. *)
Lemma decode_any_value v : any_value v = true -> decode_any v = Some v.
Proof.
  induction v as [l IH|l IH|s|s|b|] using json_ind'; try done.
  - rewrite any_object, decode_object. intros [Hd Hl].
    assert (forall acc, (fst <$> l) ## (fst <$> acc) -> decode_members acc l = Some (acc ++ l)) as Hm; [|by rewrite Hm by set_solver].
    induction l as [|[k x] l IHl]; intros acc Hacc; [by rewrite app_nil_r|].
    apply Forall_cons in IH as [IHx IH]. apply Forall_cons in Hl as [[_ Hx] Hl]. rewrite fmap_cons in Hd, Hacc.
    apply NoDup_cons in Hd as [Hk Hd]. simpl in IHx, Hx. cbn. rewrite IHx by done. cbn.
    rewrite assign_fresh by (simpl in *; set_solver). rewrite IHl; [by rewrite <- app_assoc|done..|].
    rewrite fmap_app. simpl in *. set_solver.
  - rewrite any_array, decode_array. intros Hl.
    assert (mapM decode_any l = Some l) as ->; [|done].
    induction l as [|x l IHl]; [done|]. apply Forall_cons in IH as [IHx IH]. apply Forall_cons in Hl as [Hx Hl].
    cbn. rewrite IHx by done. cbn. rewrite IHl by done. done.
  - simpl. intros [_ ->%bool_decide_eq_true]%andb_true_iff. done.
Qed.

(** ** Structs *)

(** The field of a struct named [name]: members whose key differs in its letter
    case count too, and each one is read into what the field holds already.
    (Two members for one slice would share its elements; a member stands once
    here.) [None] is an error. *)
Definition read_field {A V} (name : string) (read : A -> V -> option A) (zero : A) (fields : list (string * V))
    : option A :=
  foldl (λ acc '(k, v), if EqualFold k name then a ← acc; read a v else acc) (Some zero) fields.

Definition read_string (old : string) (v : json) : option string :=
  match v with JString s => Some s | JNull => Some old | _ => None end.
Definition read_int (old : Z) (v : json) : option Z :=
  match v with JNumber s => parse_int64 s | JNull => Some old | _ => None end.
Definition read_bool (old : bool) (v : json) : option bool :=
  match v with JBool b => Some b | JNull => Some old | _ => None end.
Definition read_list {A} (read : A -> json -> option A) (zero : A) (_ : list A) (v : json) : option (list A) :=
  match v with JArray l => mapM (read zero) l | JNull => Some [] | _ => None end.
Definition read_strings : list string -> json -> option (list string) := read_list read_string "".
Definition read_struct {A} (read : list (string * json) -> option A) (old : A) (v : json) : option A :=
  match v with JObject fields => read fields | JNull => Some old | _ => None end.
(** A map keeps its entries; [None] is the nil map. *)
Definition read_map (old : option (list (string * json))) (v : json) : option (option (list (string * json))) :=
  match v with
  | JObject fields => Some <$> decode_members (default [] old) fields
  | JNull => Some None
  | _ => None
  end.

(** The fields of a printed struct; [omitempty] leaves some out. *)
Definition present {V} (l : list (string * option V)) : list (string * V) :=
  omap (λ '(name, v), pair name <$> v) l.
Definition struct_json (l : list (string * option json)) : json := JObject (present l).

Definition string_json (s : string) : option json := Some (JString s).
Definition int_json (z : Z) : option json := Some (JNumber (itoa z)).
Definition strings_json (l : list string) : json := JArray (JString <$> l).
Definition nonempty_json (s : string) : option json := if bool_decide (s = "") then None else Some (JString s).
Definition nonzero_json (z : Z) : option json := if bool_decide (z = 0)%Z then None else Some (JNumber (itoa z)).
Definition nonempty_strings_json (l : list string) : option json :=
  match l with [] => None | _ => Some (strings_json l) end.

Lemma read_field_app {A V} name (read : A -> V -> option A) zero k l :
  read_field name read zero (k ++ l) = a ← read_field name read zero k; read_field name read a l.
Proof.
  unfold read_field. rewrite foldl_app. destruct (foldl _ (Some zero) k) as [a|]; [done|]. simpl.
  induction l as [|[x v] l IH]; [done|]. simpl. by destruct (EqualFold x name).
Qed.

Lemma read_field_other {A V} name (read : A -> V -> option A) zero l :
  ToLower name ∉ ToLower <$> l.*1 -> read_field name read zero (present l) = Some zero.
Proof.
  induction l as [|[k [v|]] l IH]; intros Hl; [done|..]; rewrite !fmap_cons, not_elem_of_cons in Hl; destruct Hl as [Hk Hl];
    [|by apply IH].
  unfold read_field in *. simpl. unfold EqualFold. rewrite bool_decide_eq_false_2 by (intros E; by apply Hk).
  by apply IH.
Qed.

(** A field is read from the member that the struct printed for it. *)
Lemma read_present {A V} name (read : A -> V -> option A) zero l i o :
  bool_decide (NoDup (ToLower <$> l.*1)) = true -> l !! i = Some (name, o) ->
  read_field name read zero (present l) = match o with Some v => read zero v | None => Some zero end.
Proof.
  intros Hd%bool_decide_eq_true Hi. pose proof (take_drop_middle l i _ Hi) as El. revert El.
  generalize (take i l), (drop (S i) l). intros k l' <-.
  rewrite !fmap_app, !fmap_cons in Hd. apply NoDup_app in Hd as (_ & Hk & [Hl _]%NoDup_cons).
  unfold present. rewrite omap_app. fold (present k). rewrite read_field_app, read_field_other.
  2: { intros Hin. apply (Hk _ Hin). simpl. left. }
  simpl. destruct o as [v|]; simpl; [|by apply read_field_other].
  change (read_field name read zero ((name, v) :: present l') = read zero v).
  unfold read_field at 1. simpl. rewrite EqualFold_refl. destruct (read zero v) as [a|] eqn:E.
  - simpl. apply (read_field_other _ read a l' Hl).
  - simpl. clear. generalize (present l'). intros l. induction l as [|[x v] l IH]; [done|]. simpl. by destruct (EqualFold x name).
Qed.

Lemma read_nonempty s : match nonempty_json s with Some v => read_string "" v | None => Some "" end = Some s.
Proof. unfold nonempty_json. case_bool_decide as E; [by rewrite E|done]. Qed.
Lemma read_nonzero z : in_int64 z ->
  match nonzero_json z with Some v => read_int 0 v | None => Some 0%Z end = Some z.
Proof. intros Hz. unfold nonzero_json. case_bool_decide as E; [by rewrite E|]. simpl. by apply parse_int64_itoa. Qed.
Lemma read_int_json z : in_int64 z -> read_int 0 (JNumber (itoa z)) = Some z.
Proof. apply parse_int64_itoa. Qed.

Lemma mapM_fmap_some {A B} (f : A -> B) (g : B -> option A) l : (forall x, x ∈ l -> g (f x) = Some x) -> mapM g (f <$> l) = Some l.
Proof.
  intros H. induction l as [|x l IH]; [done|]. cbn. rewrite H by left. cbn. rewrite IH; [done|]. intros y Hy. apply H. by right.
Qed.
Lemma read_strings_json l : read_strings [] (strings_json l) = Some l.
Proof. apply (mapM_fmap_some JString). done. Qed.
Lemma read_nonempty_strings l :
  match nonempty_strings_json l with Some v => read_strings [] v | None => Some [] end = Some l.
Proof. destruct l as [|s l]; [done|]. apply read_strings_json. Qed.

(** ** What can be printed *)

Definition fine (n : Z) (v : json) : Prop := printable v = true /\ (Z.of_nat (json_depth v) <= n)%Z.

Section fine.
Context (n : Z) (Hn : (0 <= n)%Z).

Lemma fine_string s : valid_text s = true -> fine n (JString s).
Proof using Hn. split; [done|simpl; lia]. Qed.
Lemma fine_int z : fine n (JNumber (itoa z)).
Proof using Hn. split; [apply itoa_number_text|simpl; lia]. Qed.
Lemma fine_bool b : fine n (JBool b).
Proof using Hn. split; [done|simpl; lia]. Qed.
Lemma fine_null : fine n JNull.
Proof using Hn. split; [done|simpl; lia]. Qed.
Lemma fine_any v : any_value v = true -> (Z.of_nat (json_depth v) <= n)%Z -> fine n (sort_members v).
Proof using Hn.
  intros ? Hd. split; [by apply any_value_printable, any_value_sorted|].
  pose proof (sort_members_depth v (Z.to_nat n) ltac:(lia)). lia.
Qed.
Lemma fine_array l : Forall (fine n) l -> fine (n + 1) (JArray l).
Proof using Hn.
  intros H. apply Forall_and in H as [? H]. split; [by apply printable_array|].
  assert (json_depth (JArray l) <= S (Z.to_nat n)); [|lia]. apply depth_array_le.
  eapply Forall_impl; [exact H|]. simpl. lia.
Qed.
Lemma fine_strings l : Forall (λ s, valid_text s = true) l -> fine (n + 1) (strings_json l).
Proof using Hn. intros H. apply fine_array, Forall_fmap. eapply Forall_impl; [exact H|]. intros s Hs. by apply fine_string. Qed.

Definition fine_field (f : string * option json) : Prop :=
  valid_text (fst f) = true /\ match snd f with Some v => fine n v | None => True end.

Lemma fine_struct l : Forall fine_field l -> fine (n + 1) (struct_json l).
Proof using Hn.
  intros H. assert (Forall (λ f, valid_text (fst f) = true /\ fine n (snd f)) (present l)) as Hp.
  { induction H as [|[k [v|]] l [Hk Hv] _ IH]; [constructor|by constructor|exact IH]. }
  split; [apply printable_object; eapply Forall_impl; [exact Hp|]; intros f [? [? ?]]; done|].
  assert (json_depth (struct_json l) <= S (Z.to_nat n)); [|lia]. apply depth_object_le.
  eapply Forall_impl; [exact Hp|]. intros f [? [? ?]]. lia.
Qed.

Lemma fine_nonempty name s : valid_text name = true -> valid_text s = true -> fine_field (name, nonempty_json s).
Proof using Hn. intros ? ?. split; [done|]. simpl. unfold nonempty_json. case_bool_decide; [done|]. by apply fine_string. Qed.
Lemma fine_nonzero name z : valid_text name = true -> fine_field (name, nonzero_json z).
Proof using Hn. intros ?. split; [done|]. simpl. unfold nonzero_json. case_bool_decide; [done|]. by apply fine_int. Qed.
Lemma fine_some name v : valid_text name = true -> fine n v -> fine_field (name, Some v).
Proof using Hn. by split. Qed.
End fine.

Lemma fine_mono m n v : fine m v -> (m <= n)%Z -> fine n v.
Proof. intros [? ?] ?. split; [done|lia]. Qed.

Lemma forallb_Forall {A} (p : A -> bool) l : forallb p l = true <-> Forall (λ x, p x = true) l.
Proof. rewrite forallb_forall, Forall_forall. by setoid_rewrite list_elem_of_In. Qed.

Lemma fine_nonempty_strings n name l : (1 <= n)%Z -> valid_text name = true -> forallb valid_text l = true ->
  fine_field n (name, nonempty_strings_json l).
Proof.
  intros ? ? Hl%forallb_Forall. split; [done|]. destruct l; [done|].
  replace n with (n - 1 + 1)%Z by lia. apply fine_strings; [lia|done].
Qed.

(** [Unmarshal] reads what [Marshal] printed. *)
Lemma parse_fine v : fine maxNestingDepth v -> json_parse (json_text v) = Some v.
Proof. intros [Hp Hd]. by apply json_parse_text. Qed.

(** ** Identifiers in texts *)

(** [uuid.Parse] of the package [google/uuid]: among the forms that it accepts is
    the one that [String] prints, and none is empty. *)
Class UuidParser := {
  uuid_Parse : string -> option uuid;
  uuid_Parse_String u : uuid_Parse (uuid_string u) = Some u;
  uuid_Parse_empty : uuid_Parse "" = None;
}.

Lemma hex_byte_valid b r : valid_text (hex_byte b r) = valid_text r.
Proof. unfold hex_byte. rewrite !valid_ascii; [done|by destruct b..]. Qed.
Lemma uuid_string_valid u : valid_text (uuid_string u) = true.
Proof. unfold uuid_string, uuid_print, dash. repeat (rewrite hex_byte_valid || (rewrite valid_ascii by done)). reflexivity. Qed.

(** ** Columns *)

(** The text of a [JSONB] value as PostgreSQL prints it; [None] where it refuses the text. *)
Class Jsonb := { jsonb_text : string -> option string }.

(** The type that [jsonb_typeof] names. *)
Definition jsonb_typeof (v : json) : string :=
  match v with
  | JObject _ => "object" | JArray _ => "array" | JString _ => "string" | JNumber _ => "number"
  | JBool _ => "boolean" | JNull => "null"
  end.

(** The stored value has the type of the given one, and no white space around it. *)
Class JsonbLaws `{Jsonb} := {
  jsonb_type s t : jsonb_text s = Some t ->
    exists v w, json_parse s = Some v /\ json_parse t = Some w /\ jsonb_typeof w = jsonb_typeof v;
  jsonb_trimmed s t : jsonb_text s = Some t -> TrimSpace t = t;
}.

(** A parser of the printed form alone, for concrete instances. *)
Fixpoint hex_pairs (s : string) : list N :=
  match s with
  | String a r =>
      if bool_decide (a = "-"%char) then hex_pairs r else
      match r with String b r => (Uuid.hex_value a * 16 + Uuid.hex_value b)%N :: hex_pairs r | EmptyString => [] end
  | EmptyString => []
  end.

Definition parse_printed (s : string) : option uuid :=
  u ← uuid_of_bytes (hex_pairs s); if bool_decide (uuid_string u = s) then Some u else None.

Lemma hex_pairs_byte b r : hex_pairs (hex_byte b r) = Byte.to_N b :: hex_pairs r.
Proof. by destruct b. Qed.

Lemma parse_printed_string u : parse_printed (uuid_string u) = Some u.
Proof.
  assert (hex_pairs (uuid_string u) = uuid_bytes u) as E.
  { unfold uuid_string, uuid_print. repeat (rewrite hex_pairs_byte || change (hex_pairs (dash ?r)) with (hex_pairs r)).
    by destruct u. }
  unfold parse_printed. rewrite E, uuid_of_to_bytes. simpl. by rewrite bool_decide_eq_true_2.
Qed.

Definition printed_parser : UuidParser :=
  {| uuid_Parse := parse_printed; uuid_Parse_String := parse_printed_string; uuid_Parse_empty := eq_refl |}.

(** A column that stores valid texts as they are. *)
Definition valid_jsonb : Jsonb :=
  {| jsonb_text := λ s, if bool_decide (is_Some (json_parse s)) && bool_decide (TrimSpace s = s) then Some s else None |}.

Lemma valid_jsonb_laws : @JsonbLaws valid_jsonb.
Proof.
  assert (forall s t, @jsonb_text valid_jsonb s = Some t -> t = s /\ is_Some (json_parse s) /\ TrimSpace s = s) as Hj.
  { intros s t. simpl. destruct (_ && _) eqn:E; [|done]. to_prop. intros Et. by injection Et as <-. }
  split; intros s t (-> & [v Ev] & E)%Hj; [|done]. by exists v, v.
Qed.
