(* ===== verification/VariableJson.v ===== *)
(** * The JSON texts of variables ([internal/types/variable_set.go])

    The texts of the types, sources and statuses of variables, and what
    [json.Marshal] prints for scopes, traces and resolved variables: deployment
    plans and variable snapshots hash them. *)
From S2P Require Import Prelude GoStrings Uuid GoRegexp GoJson VariableResolution.
Open Scope list_scope.

Definition variable_type_string (t : VariableType) : string :=
  match t with
  | VariableTypeString => "string" | VariableTypeNumber => "number" | VariableTypeBoolean => "boolean"
  | VariableTypeJSON => "json" | VariableTypeSecretReference => "secret_reference"
  | VariableTypeAccountReference => "account_reference" | VariableTypeCertificateReference => "certificate_reference"
  | VariableTypeOther s => s
  end.

Definition resolution_source_string (x : VariableResolutionSource) : string :=
  match x with
  | SourcePrompted => "prompted"
  | SourceExactTenantEnvironmentTargetChannelStep => "exact_tenant_environment_target_channel_step"
  | SourceExactTenantEnvironmentTarget => "exact_tenant_environment_target"
  | SourceExactTenantEnvironmentChannel => "exact_tenant_environment_channel"
  | SourceExactTenantEnvironment => "exact_tenant_environment"
  | SourceExactEnvironmentTargetTag => "exact_environment_target_tag"
  | SourceExactEnvironment => "exact_environment"
  | SourceChannel => "channel" | SourceApplication => "application"
  | SourceDefault => "default" | SourceUnresolved => "unresolved"
  end.

Definition resolution_status_string (x : VariableResolutionStatus) : string :=
  match x with VariableResolutionStatusResolved => "resolved" | VariableResolutionStatusUnresolved => "unresolved" end.

(** By key, set and variable. *)
Definition variable_less (x y : ResolvedVariable) : bool :=
  if negb (bool_decide (rv_Key x = rv_Key y)) then string_less (rv_Key x) (rv_Key y) else
  if negb (bool_decide (rv_VariableSetID x = rv_VariableSetID y))
  then string_less (uuid_string (rv_VariableSetID x)) (uuid_string (rv_VariableSetID y)) else
  string_less (uuid_string (rv_VariableID x)) (uuid_string (rv_VariableID y)).

(** ** Texts *)

Definition uuid_field (u : option uuid) : option string := json_string ∘ uuid_string <$> u.

Definition scope_json (s : VariableScope) : string :=
  json_struct [("customerOrganizationId", uuid_field (vs_CustomerOrganizationID s));
    ("environmentId", uuid_field (vs_EnvironmentID s)); ("channelId", uuid_field (vs_ChannelID s));
    ("deploymentTargetId", uuid_field (vs_DeploymentTargetID s)); ("applicationId", uuid_field (vs_ApplicationID s));
    ("targetTag", omitempty (vs_TargetTag s)); ("processStepKey", omitempty (vs_ProcessStepKey s))].

Definition trace_json (l : list VariableResolutionTraceEntry) : string :=
  json_list ((λ e, json_struct [("source", Some (json_string (resolution_source_string (te_Source e))));
    ("scope", Some (scope_json (te_Scope e))); ("selected", Some (json_bool (te_Selected e)));
    ("reason", Some (json_string (te_Reason e)))]) <$> l).

(** A raw message with [omitempty]: [Some None] leaves the field out, [None] fails. *)
Definition raw_field (value : option string) : option (option string) :=
  if bool_decide (default "" value = "") then Some None else Some <$> json_raw (default "" value).

Definition variable_json (v : ResolvedVariable) : option string :=
  value ← raw_field (rv_Value v);
  Some (json_struct [("variableSetId", Some (json_string (uuid_string (rv_VariableSetID v))));
    ("variableId", Some (json_string (uuid_string (rv_VariableID v)))); ("key", Some (json_string (rv_Key v)));
    ("type", Some (json_string (variable_type_string (rv_Type v)))); ("isRequired", Some (json_bool (rv_IsRequired v)));
    ("status", Some (json_string (resolution_status_string (rv_Status v))));
    ("source", Some (json_string (resolution_source_string (rv_Source v)))); ("value", value);
    ("referenceId", omitempty (rv_ReferenceID v)); ("referenceName", omitempty (rv_ReferenceName v));
    ("redacted", Some (json_bool (rv_Redacted v))); ("trace", Some (trace_json (rv_Trace v)))]).
