(* ===== verification/ActionRegistry.v ===== *)
(** * The registry of actions ([internal/actionregistry/registry.go])

    The step actions the hub knows and the validation of their inputs. The
    JSON schemas are checked by a schema library, an interface here; an object
    is the list of its fields in the order in which Go ranges over the map. *)
From S2P Require Import Prelude GoStrings GoRegexp StepRedaction TaskStore StepEvents.
Open Scope list_scope.

(** [validator.Validate]: the message of the violation, if there is one. *)
Class SchemaValidator := { schema_error : string -> list (string * json) -> option string }.

(** The types and names of [defaultActions]. *)
Definition default_actions : list (string * string) :=
  [("distr.preflight", "Preflight checks"); ("distr.http.check", "HTTP check"); ("distr.wait", "Wait");
   ("distr.compose.deploy", "Compose deploy"); ("distr.oci.job", "OCI one-shot job");
   ("distr.file.render", "File render"); ("distr.webhook", "Webhook")].
Definition action_types : list string := fst <$> default_actions.

(** [Registry.Get]: the name of the action. *)
Definition Get (actionType : string) : option string :=
  snd <$> head (select_where (λ a, bool_decide (fst a = TrimSpace actionType)) default_actions).

(** [input[key]] and the type assertions, with their zero values. *)
Definition field (input : list (string * json)) (key : string) : option json :=
  snd <$> head (select_where (λ f, bool_decide (fst f = key)) input).
Definition as_string (v : option json) : string := match v with Some (JString s) => s | _ => "" end.
Definition as_array (v : option json) : list json := match v with Some (JArray l) => l | _ => [] end.
Definition as_object (v : option json) : list (string * json) := match v with Some (JObject l) => l | _ => [] end.

Definition isWebhookReservedOutputName (name : string) (callback : bool) : bool :=
  contains ["statusCode"; "attempts"; "signingKeyVersion"; "keyRotationApplied"; "auditChainRoot"; "auditEventHash";
            "auditTrail"] name
  || callback && contains ["externalExecutionId"; "providerReference"; "providerUrl"; "actualVersion"; "actualImage";
       "actualPlatform"; "actualConfigReference"; "actualConfigChecksum"; "actualHealth"; "observedStateChecksum"] name.

Definition isWebhookSensitiveHeaderName (name : string) : bool :=
  contains ["authorization"; "proxy-authorization"; "x-api-key"; "cookie"] (ToLower (TrimSpace name)).

Definition isWebhookReservedHeaderName (name : string) : bool :=
  contains ["idempotency-key"; "x-distr-timestamp"; "x-distr-body-digest"; "x-distr-signature"; "x-distr-key-version";
    "x-distr-tenant-id"; "x-distr-external-execution-id"; "x-distr-plan-checksum"; "x-distr-expected-state-version";
    "x-distr-expected-state-checksum"; "x-distr-callback-url"] (ToLower (TrimSpace name)).

Definition webhookResponseBuiltInOutputCount : nat := 7.
Definition webhookCallbackBuiltInOutputCount : nat := 10.

(** The loops over the signing secrets, the headers and the outputs. *)
Fixpoint check_signing_secrets (seen : list string) (l : list json) : result apierror unit :=
  match l with
  | [] => Ok tt
  | raw :: l =>
      let secret := as_string (Some raw) in
      if trimmed_empty secret then Err (BadRequest "webhook signingSecrets contains empty secret") else
      if contains seen secret then Err (BadRequest "webhook signingSecrets contains duplicate secret") else
      check_signing_secrets (secret :: seen) l
  end.

Fixpoint check_headers (kind : string) (sensitive : bool) (l : list (string * json)) : result apierror unit :=
  match l with
  | [] => Ok tt
  | (name, _) :: l =>
      if sensitive && isWebhookSensitiveHeaderName name
      then Err (BadRequest ("webhook headers cannot include " +:+ name +:+ "; use secretHeaders")) else
      if isWebhookReservedHeaderName name
      then Err (BadRequest ("webhook " +:+ kind +:+ " cannot include reserved header " +:+ name)) else
      check_headers kind sensitive l
  end.

Fixpoint check_outputs (callback : bool) (seen : list string) (l : list json) : result apierror unit :=
  match l with
  | [] => Ok tt
  | raw :: l =>
      let name := TrimSpace (as_string (field (as_object (Some raw)) "name")) in
      if bool_decide (name = "") then check_outputs callback seen l else
      if isWebhookReservedOutputName name callback
      then Err (BadRequest ("webhook outputs name " +:+ name +:+ " is reserved")) else
      if contains seen name then Err (BadRequest "webhook outputs contains duplicate name") else
      check_outputs callback (name :: seen) l
  end.

Definition validateWebhookRegistryInput (input : list (string * json)) : result apierror unit :=
  let callback := bool_decide (as_string (field input "completionMode") = "callback") in
  let signingSecret := as_string (field input "signingSecret") in
  let signingSecrets := as_array (field input "signingSecrets") in
  let outputs := as_array (field input "outputs") in
  fail_if (callback && trimmed_empty (as_string (field input "component")))
    (BadRequest "webhook component is required for callback completion mode") ≫= λ _,
  fail_if (trimmed_empty signingSecret && bool_decide (length signingSecrets = 0))
    (BadRequest "webhook signingSecret or signingSecrets is required") ≫= λ _,
  fail_if (negb (trimmed_empty signingSecret) && bool_decide (0 < length signingSecrets))
    (BadRequest "webhook signingSecret and signingSecrets cannot both be set") ≫= λ _,
  check_signing_secrets [] signingSecrets ≫= λ _,
  check_headers "headers" true (as_object (field input "headers")) ≫= λ _,
  check_headers "secretHeaders" false (as_object (field input "secretHeaders")) ≫= λ _,
  fail_if (callback && bool_decide (0 < length outputs))
    (BadRequest "webhook outputs are not supported in callback completion mode; report durable values in the callback")
    ≫= λ _,
  let builtIn := if callback then webhookCallbackBuiltInOutputCount else webhookResponseBuiltInOutputCount in
  fail_if (bool_decide (MaxStepRunEventOutputItemCount - builtIn < length outputs))
    (BadRequest "webhook outputs contains too many entries") ≫= λ _,
  check_outputs callback [] outputs.

Section registry.
Context `{SchemaValidator}.

(** A nil map is [None]. *)
Definition ValidateInput (actionType : string) (input : option (list (string * json))) : result apierror unit :=
  let actionType := TrimSpace actionType in
  if negb (contains action_types actionType)
  then Err (BadRequest ("unknown actionType " +:+ quote actionType)) else
  let input := default [] input in
  match schema_error actionType input with
  | Some message =>
      Err (BadRequest ("actionType " +:+ quote actionType +:+ " inputBindings do not match schema: " +:+ message))
  | None => if bool_decide (actionType = "distr.webhook") then validateWebhookRegistryInput input else Ok tt
  end.
End registry.
