(* ===== verification/ExternalExecution.v ===== *)
(** * External executions ([internal/db/external_executions.go],
    [internal/externalexecution/state.go], [internal/types/external_execution.go])

    A webhook step can hand its work to an external executor, which reports
    back through numbered callbacks: the row of the execution, the history of
    its callbacks, the deadline, and the state of the component on the target
    that a success attests. *)
From S2P Require Import Prelude GoStrings Uuid GoRegexp GoJson StepRedaction TaskStore Transaction TaskQueue.
From Stdlib Require Import Ascii.
Open Scope list_scope.

(** ** Data *)

Inductive ExternalExecutionStatus :=
| StatusQueued | StatusRunning | StatusSucceeded | StatusFailed | StatusCanceled | StatusTimedOut
| StatusOther (s : string).

#[export] Instance ExternalExecutionStatus_eq_dec : EqDecision ExternalExecutionStatus.
Proof. solve_decision. Defined.

Definition execution_status_string (s : ExternalExecutionStatus) : string :=
  match s with
  | StatusQueued => "QUEUED" | StatusRunning => "RUNNING" | StatusSucceeded => "SUCCEEDED"
  | StatusFailed => "FAILED" | StatusCanceled => "CANCELED" | StatusTimedOut => "TIMED_OUT"
  | StatusOther s => s
  end.

Definition IsCallbackStatus (s : ExternalExecutionStatus) : bool :=
  bool_decide (s = StatusRunning) || bool_decide (s = StatusSucceeded)
  || bool_decide (s = StatusFailed) || bool_decide (s = StatusCanceled).

Definition IsTerminal (s : ExternalExecutionStatus) : bool :=
  bool_decide (s = StatusSucceeded) || bool_decide (s = StatusFailed)
  || bool_decide (s = StatusCanceled) || bool_decide (s = StatusTimedOut).

(** [types.ExternalExecution]. Times are integers; [None] is a null column or a
    nil slice. The columns [created_at] and [updated_at] are left out. *)
Record ExternalExecution := {
  ee_ID : uuid;
  ee_StartedAt : option Z;
  ee_CompletedAt : option Z;
  ee_CallbackDeadlineAt : Z;
  ee_OrganizationID : uuid;
  ee_StepRunID : uuid;
  ee_TaskID : uuid;
  ee_DeploymentPlanID : uuid;
  ee_DeploymentPlanTargetID : uuid;
  ee_DeploymentTargetID : uuid;
  ee_ApplicationID : uuid;
  ee_ReleaseBundleID : uuid;
  ee_Component : string;
  ee_PlanChecksum : string;
  ee_IdempotencyKey : string;
  ee_ExpectedStateVersion : Z;
  ee_ExpectedStateChecksum : string;
  ee_ExpectedVersion : string;
  ee_ExpectedImage : string;
  ee_ExpectedPlatform : string;
  ee_ExpectedContracts : list string;
  ee_ExpectedConfigReference : string;
  ee_ExpectedConfigChecksum : string;
  ee_ExpectedComposeReference : string;
  ee_ExpectedComposeChecksum : string;
  ee_Status : ExternalExecutionStatus;
  ee_ProviderReference : string;
  ee_ProviderURL : string;
  ee_TriggerAttempts : Z;
  ee_LastCallbackSequence : Z;
  ee_LastMessage : string;
  ee_ErrorSummary : string;
  ee_ActualVersion : string;
  ee_ActualImage : string;
  ee_ActualPlatform : option string;
  ee_ActualContracts : list string;
  ee_ActualConfigReference : string;
  ee_ActualConfigChecksum : string;
  ee_ActualHealth : option string;
  ee_ObservedStateChecksum : string;
}.

Record ExternalExecutionExpectedState := {
  xs_Version : string;
  xs_Image : string;
  xs_Platform : string;
  xs_Contracts : list string;
  xs_ConfigReference : string;
  xs_ConfigChecksum : string;
}.

Record ExternalExecutionObservedState := {
  os_Version : string;
  os_Image : string;
  os_Platform : string;
  os_Contracts : option (list string);
  os_ConfigReference : string;
  os_ConfigChecksum : string;
  os_Health : string;
}.

Record ExternalExecutionEvent := {
  xe_OrganizationID : uuid;
  xe_ExternalExecutionID : uuid;
  xe_Sequence : Z;
  xe_Status : ExternalExecutionStatus;
  xe_ProviderReference : string;
  xe_ProviderURL : string;
  xe_Message : string;
  xe_ObservedState : option ExternalExecutionObservedState;
  xe_PayloadHash : string;
}.

(** [types.TargetComponentState] and [types.TargetComponentObservation]. *)
Record TargetComponentState := {
  cs_OrganizationID : uuid;
  cs_DeploymentTargetID : uuid;
  cs_ApplicationID : uuid;
  cs_Component : string;
  cs_StateVersion : Z;
  cs_StateChecksum : string;
  cs_ReleaseBundleID : uuid;
  cs_Version : string;
  cs_Image : string;
  cs_Platform : string;
  cs_Contracts : list string;
  cs_ConfigReference : string;
  cs_ConfigChecksum : string;
  cs_Health : string;
  cs_ObservedAt : Z;
}.

Record TargetComponentObservation := {
  ob_State : TargetComponentState;
  ob_ExternalExecutionID : uuid;
}.

Record RecordExternalExecutionCallbackRequest := {
  cb_OrganizationID : uuid;
  cb_ExternalExecutionID : uuid;
  cb_Sequence : Z;
  cb_Status : ExternalExecutionStatus;
  cb_ProviderReference : string;
  cb_ProviderURL : string;
  cb_Message : string;
  cb_ObservedState : option ExternalExecutionObservedState;
}.

(** [TimeoutExternalExecutionRequest] and [FailExternalExecutionRequest]. *)
Record CloseExternalExecutionRequest := {
  cl_OrganizationID : uuid;
  cl_ExternalExecutionID : uuid;
  cl_Message : string;
}.

Record MarkExternalExecutionTriggeredRequest := {
  mt_OrganizationID : uuid;
  mt_ExternalExecutionID : uuid;
  mt_TriggerAttempts : Z;
}.

Definition TargetComponentHealthHealthy : string := "HEALTHY".

(** ** The tables and the transactions

    The tables of the task system ([TaskStore]) and the ones of the external
    executions. [xnow] is the time of the transaction, [clock] what
    [time.Now()] returns in the handler. *)
Record xdb := {
  base : db;
  Executions : list ExternalExecution;
  ExecutionEvents : list ExternalExecutionEvent;
  ComponentStates : list TargetComponentState;
  Observations : list TargetComponentObservation;
}.

Record xenv := { xnow : Z; clock : Z }.

Definition set_executions (l : list ExternalExecution) (s : xdb) : xdb :=
  {| base := base s; Executions := l; ExecutionEvents := ExecutionEvents s;
     ComponentStates := ComponentStates s; Observations := Observations s |}.
Definition set_execution_events (l : list ExternalExecutionEvent) (s : xdb) : xdb :=
  {| base := base s; Executions := Executions s; ExecutionEvents := l;
     ComponentStates := ComponentStates s; Observations := Observations s |}.
Definition set_components (l : list TargetComponentState) (o : list TargetComponentObservation) (s : xdb) : xdb :=
  {| base := base s; Executions := Executions s; ExecutionEvents := ExecutionEvents s;
     ComponentStates := l; Observations := o |}.

Notation xtx := (stx xdb).

(** ** The rules of the protocol ([state.go]) *)

Definition MaxEventCount : Z := 256.

Definition CanCallbackTransition (from to : ExternalExecutionStatus) : bool :=
  if negb (IsCallbackStatus to) || IsTerminal from then false
  else bool_decide (from = StatusQueued) || bool_decide (from = StatusRunning).

Definition ValidateCallbackSequence (sequence : Z) (status : ExternalExecutionStatus) : result string unit :=
  if (MaxEventCount <? sequence)%Z then Err "external execution callback history limit exceeded"
  else if (sequence =? MaxEventCount)%Z && negb (IsTerminal status)
       then Err "final external execution callback event must be terminal"
  else Ok tt.

(** [net/url]: what the program reads of a parsed URL. *)
Record URL := { url_Scheme : string; url_Host : string; url_HasUser : bool; url_RawQuery : string }.

Class UrlParser := { ParseRequestURI : string -> option URL }.

Definition line_break (s : string) : bool :=
  existsb (λ a, (code a =? 13)%N || (code a =? 10)%N) (String.list_ascii_of_string s).

Definition ValidateProviderURL `{UrlParser} (value : string) : result string unit :=
  let value := TrimSpace value in
  if bool_decide (value = "") then Ok tt else
  if (2048 <? len value)%Z || line_break value then Err "provider URL is invalid" else
  match ParseRequestURI value with
  | None => Err "provider URL must be an HTTP or HTTPS URL"
  | Some parsed =>
      if bool_decide (url_Host parsed = "")
         || negb (bool_decide (url_Scheme parsed = "http")) && negb (bool_decide (url_Scheme parsed = "https"))
      then Err "provider URL must be an HTTP or HTTPS URL" else
      if url_HasUser parsed then Err "provider URL must not contain credentials" else
      if negb (bool_decide (url_RawQuery parsed = "")) then Err "provider URL must not contain query parameters" else
      Ok tt
  end.

(** [slices.Sort] of strings. *)
Definition sort_strings (l : list string) : list string := stable_sort string_less l.

Definition observed_json (o : ExternalExecutionObservedState) : string :=
  json_struct [("version", Some (json_string (os_Version o))); ("image", Some (json_string (os_Image o)));
    ("platform", Some (json_string (os_Platform o))); ("contracts", Some (json_strings (os_Contracts o)));
    ("configReference", Some (json_string (os_ConfigReference o)));
    ("configChecksum", Some (json_string (os_ConfigChecksum o))); ("health", Some (json_string (os_Health o)))].

Definition with_contracts (l : option (list string)) (o : ExternalExecutionObservedState)
    : ExternalExecutionObservedState :=
  {| os_Version := os_Version o; os_Image := os_Image o; os_Platform := os_Platform o; os_Contracts := l;
     os_ConfigReference := os_ConfigReference o; os_ConfigChecksum := os_ConfigChecksum o;
     os_Health := os_Health o |}.

Definition checksum `{Crypto} (payload : string) : string := "sha256:" +:+ sha256_hex payload.

Definition ObservedStateChecksum `{Crypto} (o : ExternalExecutionObservedState) : string :=
  checksum (observed_json (with_contracts ((λ l, sort_strings (TrimSpace <$> l)) <$> os_Contracts o) o)).

Definition CallbackPayloadHash `{Crypto} (r : RecordExternalExecutionCallbackRequest) : string :=
  checksum (json_struct [("sequence", Some (json_int (cb_Sequence r)));
    ("status", Some (json_string (execution_status_string (cb_Status r))));
    ("providerReference", omitempty (cb_ProviderReference r)); ("providerUrl", omitempty (cb_ProviderURL r));
    ("message", omitempty (cb_Message r));
    ("observedState", (λ o, observed_json (with_contracts (sort_strings <$> os_Contracts o) o)) <$> cb_ObservedState r)]).

Definition ValidateObservedState (expected : ExternalExecutionExpectedState)
    (actual : ExternalExecutionObservedState) : result string unit :=
  if negb (bool_decide (os_Version actual = xs_Version expected))
  then Err "observed version does not match frozen execution" else
  if negb (EqualFold (os_Image actual) (xs_Image expected))
  then Err "observed image does not match frozen execution" else
  if negb (bool_decide (os_Platform actual = xs_Platform expected))
  then Err "observed platform does not match frozen execution" else
  if negb (bool_decide (sort_strings (xs_Contracts expected) = sort_strings (default [] (os_Contracts actual))))
  then Err "observed contracts do not match frozen execution" else
  if negb (bool_decide (os_ConfigReference actual = xs_ConfigReference expected))
  then Err "observed config reference does not match frozen execution" else
  if negb (bool_decide (os_ConfigChecksum actual = xs_ConfigChecksum expected))
  then Err "observed config checksum does not match frozen execution" else
  if negb (bool_decide (os_Health actual = TargetComponentHealthHealthy))
  then Err "observed health is not HEALTHY" else Ok tt.

(** ** Queries and writes *)

Definition execution_where (id org : uuid) (x : ExternalExecution) : bool :=
  bool_decide (ee_ID x = id) && bool_decide (ee_OrganizationID x = org).

Definition collectExternalExecution (l : list ExternalExecution) : xtx ExternalExecution :=
  match l with
  | [] => sthrow NotFound
  | x :: _ => mret x
  end.

Definition getExternalExecutionForUpdate (id org : uuid) : xtx ExternalExecution := λ s,
  collectExternalExecution (select_where (execution_where id org) (Executions s)) s.

Definition getExternalExecutionByStepRun (stepRunID org : uuid) (s : xdb) : option ExternalExecution :=
  head (select_where (λ x, bool_decide (ee_StepRunID x = stepRunID)
    && bool_decide (ee_OrganizationID x = org)) (Executions s)).

Definition GetExternalExecution (id org : uuid) (s : xdb) : result apierror ExternalExecution :=
  match select_where (execution_where id org) (Executions s) with x :: _ => Ok x | [] => Err NotFound end.

(** [UPDATE ... WHERE id AND organization_id RETURNING]. *)
Definition update_execution (id org : uuid) (f : ExternalExecution -> ExternalExecution) : xtx ExternalExecution := λ s,
  let s := set_executions (update_where (execution_where id org) f (Executions s)) s in
  collectExternalExecution (select_where (execution_where id org) (Executions s)) s.

Definition getExternalExecutionEventPayloadHash (id org : uuid) (sequence : Z) (s : xdb) : option string :=
  xe_PayloadHash <$> head (select_where (λ v, bool_decide (xe_ExternalExecutionID v = id)
    && bool_decide (xe_OrganizationID v = org) && bool_decide (xe_Sequence v = sequence)) (ExecutionEvents s)).

(** [length(text)]: the characters of a UTF-8 text are its bytes that start one. *)
Fixpoint char_length (s : string) : Z :=
  match s with
  | EmptyString => 0
  | String a s => (if between 128 191 a then char_length s else 1 + char_length s)%Z
  end.

(** The [CHECK] constraints of the event table on what a handler may pass; the
    form of the hash holds by construction. *)
Definition event_checks (v : ExternalExecutionEvent) : bool :=
  (1 <=? xe_Sequence v)%Z && (xe_Sequence v <=? 256)%Z
  && (bool_decide (xe_Status v = StatusRunning) || IsTerminal (xe_Status v))
  && (char_length (xe_ProviderReference v) <=? 512)%Z && (char_length (xe_ProviderURL v) <=? 2048)%Z
  && (char_length (xe_Message v) <=? 2048)%Z.

(** [mapExternalExecutionWriteError] names the violated constraint. *)
Definition insertExternalExecutionEvent (r : RecordExternalExecutionCallbackRequest)
    (observed : option ExternalExecutionObservedState) (hash : string) : xtx unit := λ s,
  let v := {| xe_OrganizationID := cb_OrganizationID r; xe_ExternalExecutionID := cb_ExternalExecutionID r;
              xe_Sequence := cb_Sequence r; xe_Status := cb_Status r;
              xe_ProviderReference := cb_ProviderReference r; xe_ProviderURL := cb_ProviderURL r;
              xe_Message := cb_Message r; xe_ObservedState := observed; xe_PayloadHash := hash |} in
  if negb (event_checks v) then Err (BadRequest "external execution violates an immutable constraint") else
  if exists_where (λ w, bool_decide (xe_ExternalExecutionID w = xe_ExternalExecutionID v)
       && bool_decide (xe_Sequence w = xe_Sequence v)) (ExecutionEvents s)
  then Err (Conflict "external execution already exists") else
  if negb (exists_where (execution_where (cb_ExternalExecutionID r) (cb_OrganizationID r)) (Executions s))
  then Err NotFound else
  Ok (tt, set_execution_events (ExecutionEvents s ++ [v]) s).

(** [TaskLockResourceTargetComponent] with the key of the component. *)
Definition component_key (target : uuid) (component : string) : string := uuid_string target +:+ ":" +:+ component.

Definition owns_component_lock (org task target : uuid) (component : string) (s : xdb) : bool :=
  exists_where (λ l, bool_decide (lock_OrganizationID l = org) && bool_decide (lock_TaskID l = task)
    && bool_decide (lock_ResourceType l = ResourceTargetComponent)
    && bool_decide (lock_ResourceKey l = component_key target component)
    && negb (is_null (lock_AcquiredAt l)) && is_null (lock_ReleasedAt l)) (Locks (base s)).

(** The advisory lock of the group makes concurrent transactions wait; what
    remains is the query. *)
Definition requireExternalExecutionComponentLock (org task target : uuid) (component : string) : xtx unit := λ s,
  if owns_component_lock org task target component s then Ok (tt, s)
  else Err (Conflict "task does not own the active target-component lock").

(** ** The state of the component *)

Definition component_where (x : ExternalExecution) (c : TargetComponentState) : bool :=
  bool_decide (cs_OrganizationID c = ee_OrganizationID x)
  && bool_decide (cs_DeploymentTargetID c = ee_DeploymentTargetID x)
  && bool_decide (cs_ApplicationID c = ee_ApplicationID x) && bool_decide (cs_Component c = ee_Component x).

Definition externalExecutionObservedStateArgs (now : Z) (x : ExternalExecution)
    (o : ExternalExecutionObservedState) (sum : string) (stateVersion : Z) : TargetComponentState :=
  {| cs_OrganizationID := ee_OrganizationID x; cs_DeploymentTargetID := ee_DeploymentTargetID x;
     cs_ApplicationID := ee_ApplicationID x; cs_Component := ee_Component x; cs_StateVersion := stateVersion;
     cs_StateChecksum := sum; cs_ReleaseBundleID := ee_ReleaseBundleID x; cs_Version := os_Version o;
     cs_Image := os_Image o; cs_Platform := os_Platform o; cs_Contracts := default [] (os_Contracts o);
     cs_ConfigReference := os_ConfigReference o; cs_ConfigChecksum := os_ConfigChecksum o;
     cs_Health := os_Health o; cs_ObservedAt := now |}.

Definition state_changed_message : string := "target component state changed after external execution started".

Definition expected_row (x : ExternalExecution) (d : TargetComponentState) : bool :=
  component_where x d && bool_decide (cs_StateVersion d = ee_ExpectedStateVersion x)
  && bool_decide (cs_StateChecksum d = ee_ExpectedStateChecksum x).

(** An insert for the first version, a compare-and-set for the following ones.
    The table has one row per component and [CHECK (state_version > 0)]. *)
Definition write_component_state (x : ExternalExecution) (c : TargetComponentState) : xtx unit := λ s,
  let observed := Observations s ++ [{| ob_State := c; ob_ExternalExecutionID := ee_ID x |}] in
  let unchecked := (cs_StateVersion c <=? 0)%Z in
  if (ee_ExpectedStateVersion x =? 0)%Z then
    if unchecked then Err (Internal "could not project external observed state") else
    if exists_where (component_where x) (ComponentStates s) then Err (Conflict state_changed_message)
    else Ok (tt, set_components (ComponentStates s ++ [c]) observed s)
  else
    if negb (exists_where (expected_row x) (ComponentStates s)) then Err (Conflict state_changed_message) else
    if unchecked then Err (Internal "could not project external observed state")
    else Ok (tt, set_components (update_where (expected_row x) (λ _, c) (ComponentStates s)) observed s).

Section handlers.
Context `{Crypto} `{UrlParser}.

Definition upsertExternalExecutionObservedState (env : xenv) (x : ExternalExecution)
    (o : ExternalExecutionObservedState) : xtx string :=
  requireExternalExecutionComponentLock (ee_OrganizationID x) (ee_TaskID x) (ee_DeploymentTargetID x)
    (ee_Component x) ≫= λ _,
  let sum := ObservedStateChecksum o in
  write_component_state x (externalExecutionObservedStateArgs (xnow env) x o sum
    (wrap64 (ee_ExpectedStateVersion x + 1))) ≫= λ _,
  mret sum.

(** ** The requests *)

Definition limitExternalExecutionMessage (message : string) : string :=
  let r := runes message in
  if bool_decide (2048 < length r) then string_of_runes (take 2048 r) else message.

Definition redact_trim (s : string) : string := fst (RedactString (TrimSpace s)).

Definition normalize_fields (r : RecordExternalExecutionCallbackRequest) : RecordExternalExecutionCallbackRequest :=
  {| cb_OrganizationID := cb_OrganizationID r; cb_ExternalExecutionID := cb_ExternalExecutionID r;
     cb_Sequence := cb_Sequence r; cb_Status := cb_Status r;
     cb_ProviderReference := redact_trim (cb_ProviderReference r);
     cb_ProviderURL := redact_trim (cb_ProviderURL r);
     cb_Message := limitExternalExecutionMessage (redact_trim (cb_Message r));
     cb_ObservedState := (λ o, with_contracts (sort_strings <$> os_Contracts o) o) <$> cb_ObservedState r |}.

(** The Go function changes the request it checks: the result is that request. *)
Definition normalizeExternalExecutionCallback (request : RecordExternalExecutionCallbackRequest)
    : result apierror RecordExternalExecutionCallbackRequest :=
  fail_if (is_nil (cb_OrganizationID request) || is_nil (cb_ExternalExecutionID request))
    (BadRequest "organizationId and externalExecutionId are required") ≫= λ _,
  fail_if (cb_Sequence request <=? 0)%Z (BadRequest "sequence must be greater than 0") ≫= λ _,
  fail_if (negb (IsCallbackStatus (cb_Status request))) (BadRequest "status must be a callback state") ≫= λ _,
  let r := normalize_fields request in
  fail_if ((512 <? len (cb_ProviderReference r))%Z || line_break (cb_ProviderReference r))
    (BadRequest "providerReference is invalid") ≫= λ _,
  match ValidateProviderURL (cb_ProviderURL r) with
  | Err message => Err (BadRequest message)
  | Ok _ =>
      fail_if ((bool_decide (cb_Status r = StatusFailed) || bool_decide (cb_Status r = StatusCanceled))
               && bool_decide (cb_Message r = ""))
        (BadRequest "message is required for failed or canceled callbacks") ≫= λ _,
      Ok r
  end.

(** ** The changes of an execution *)

Definition close_execution (now : Z) (status : ExternalExecutionStatus) (sequence : Z) (message : string)
    (x : ExternalExecution) : ExternalExecution :=
  {| ee_ID := ee_ID x; ee_StartedAt := ee_StartedAt x; ee_CompletedAt := coalesce (ee_CompletedAt x) now;
     ee_CallbackDeadlineAt := ee_CallbackDeadlineAt x; ee_OrganizationID := ee_OrganizationID x;
     ee_StepRunID := ee_StepRunID x; ee_TaskID := ee_TaskID x; ee_DeploymentPlanID := ee_DeploymentPlanID x;
     ee_DeploymentPlanTargetID := ee_DeploymentPlanTargetID x; ee_DeploymentTargetID := ee_DeploymentTargetID x;
     ee_ApplicationID := ee_ApplicationID x; ee_ReleaseBundleID := ee_ReleaseBundleID x;
     ee_Component := ee_Component x; ee_PlanChecksum := ee_PlanChecksum x;
     ee_IdempotencyKey := ee_IdempotencyKey x; ee_ExpectedStateVersion := ee_ExpectedStateVersion x;
     ee_ExpectedStateChecksum := ee_ExpectedStateChecksum x; ee_ExpectedVersion := ee_ExpectedVersion x;
     ee_ExpectedImage := ee_ExpectedImage x; ee_ExpectedPlatform := ee_ExpectedPlatform x;
     ee_ExpectedContracts := ee_ExpectedContracts x; ee_ExpectedConfigReference := ee_ExpectedConfigReference x;
     ee_ExpectedConfigChecksum := ee_ExpectedConfigChecksum x;
     ee_ExpectedComposeReference := ee_ExpectedComposeReference x;
     ee_ExpectedComposeChecksum := ee_ExpectedComposeChecksum x;
     ee_Status := status; ee_ProviderReference := ee_ProviderReference x; ee_ProviderURL := ee_ProviderURL x;
     ee_TriggerAttempts := ee_TriggerAttempts x; ee_LastCallbackSequence := sequence;
     ee_LastMessage := message; ee_ErrorSummary := message;
     ee_ActualVersion := ee_ActualVersion x; ee_ActualImage := ee_ActualImage x;
     ee_ActualPlatform := ee_ActualPlatform x; ee_ActualContracts := ee_ActualContracts x;
     ee_ActualConfigReference := ee_ActualConfigReference x;
     ee_ActualConfigChecksum := ee_ActualConfigChecksum x; ee_ActualHealth := ee_ActualHealth x;
     ee_ObservedStateChecksum := ee_ObservedStateChecksum x |}.

Definition trigger_execution (now attempts : Z) (x : ExternalExecution) : ExternalExecution :=
  {| ee_ID := ee_ID x; ee_StartedAt := coalesce (ee_StartedAt x) now; ee_CompletedAt := ee_CompletedAt x;
     ee_CallbackDeadlineAt := ee_CallbackDeadlineAt x; ee_OrganizationID := ee_OrganizationID x;
     ee_StepRunID := ee_StepRunID x; ee_TaskID := ee_TaskID x; ee_DeploymentPlanID := ee_DeploymentPlanID x;
     ee_DeploymentPlanTargetID := ee_DeploymentPlanTargetID x; ee_DeploymentTargetID := ee_DeploymentTargetID x;
     ee_ApplicationID := ee_ApplicationID x; ee_ReleaseBundleID := ee_ReleaseBundleID x;
     ee_Component := ee_Component x; ee_PlanChecksum := ee_PlanChecksum x;
     ee_IdempotencyKey := ee_IdempotencyKey x; ee_ExpectedStateVersion := ee_ExpectedStateVersion x;
     ee_ExpectedStateChecksum := ee_ExpectedStateChecksum x; ee_ExpectedVersion := ee_ExpectedVersion x;
     ee_ExpectedImage := ee_ExpectedImage x; ee_ExpectedPlatform := ee_ExpectedPlatform x;
     ee_ExpectedContracts := ee_ExpectedContracts x; ee_ExpectedConfigReference := ee_ExpectedConfigReference x;
     ee_ExpectedConfigChecksum := ee_ExpectedConfigChecksum x;
     ee_ExpectedComposeReference := ee_ExpectedComposeReference x;
     ee_ExpectedComposeChecksum := ee_ExpectedComposeChecksum x;
     ee_Status := StatusRunning; ee_ProviderReference := ee_ProviderReference x; ee_ProviderURL := ee_ProviderURL x;
     ee_TriggerAttempts := Z.max (ee_TriggerAttempts x) attempts;
     ee_LastCallbackSequence := ee_LastCallbackSequence x; ee_LastMessage := ee_LastMessage x;
     ee_ErrorSummary := ee_ErrorSummary x;
     ee_ActualVersion := ee_ActualVersion x; ee_ActualImage := ee_ActualImage x;
     ee_ActualPlatform := ee_ActualPlatform x; ee_ActualContracts := ee_ActualContracts x;
     ee_ActualConfigReference := ee_ActualConfigReference x;
     ee_ActualConfigChecksum := ee_ActualConfigChecksum x; ee_ActualHealth := ee_ActualHealth x;
     ee_ObservedStateChecksum := ee_ObservedStateChecksum x |}.

(** The [SET] clause of a callback, with the columns computed before it from
    the row [x0] that the transaction locked. *)
Definition callback_execution (now : Z) (x0 : ExternalExecution) (r : RecordExternalExecutionCallbackRequest)
    (observedChecksum : string) (x : ExternalExecution) : ExternalExecution :=
  let either a b := if bool_decide (a = "") then b else a in
  let actual {A} (f : ExternalExecutionObservedState -> A) (zero : A) := from_option f zero (cb_ObservedState r) in
  {| ee_ID := ee_ID x; ee_StartedAt := coalesce (ee_StartedAt x) now;
     ee_CompletedAt := if IsTerminal (cb_Status r) then coalesce (ee_CompletedAt x) now else ee_CompletedAt x;
     ee_CallbackDeadlineAt := ee_CallbackDeadlineAt x; ee_OrganizationID := ee_OrganizationID x;
     ee_StepRunID := ee_StepRunID x; ee_TaskID := ee_TaskID x; ee_DeploymentPlanID := ee_DeploymentPlanID x;
     ee_DeploymentPlanTargetID := ee_DeploymentPlanTargetID x; ee_DeploymentTargetID := ee_DeploymentTargetID x;
     ee_ApplicationID := ee_ApplicationID x; ee_ReleaseBundleID := ee_ReleaseBundleID x;
     ee_Component := ee_Component x; ee_PlanChecksum := ee_PlanChecksum x;
     ee_IdempotencyKey := ee_IdempotencyKey x; ee_ExpectedStateVersion := ee_ExpectedStateVersion x;
     ee_ExpectedStateChecksum := ee_ExpectedStateChecksum x; ee_ExpectedVersion := ee_ExpectedVersion x;
     ee_ExpectedImage := ee_ExpectedImage x; ee_ExpectedPlatform := ee_ExpectedPlatform x;
     ee_ExpectedContracts := ee_ExpectedContracts x; ee_ExpectedConfigReference := ee_ExpectedConfigReference x;
     ee_ExpectedConfigChecksum := ee_ExpectedConfigChecksum x;
     ee_ExpectedComposeReference := ee_ExpectedComposeReference x;
     ee_ExpectedComposeChecksum := ee_ExpectedComposeChecksum x;
     ee_Status := cb_Status r;
     ee_ProviderReference := either (cb_ProviderReference r) (ee_ProviderReference x0);
     ee_ProviderURL := either (cb_ProviderURL r) (ee_ProviderURL x0);
     ee_TriggerAttempts := ee_TriggerAttempts x; ee_LastCallbackSequence := cb_Sequence r;
     ee_LastMessage := cb_Message r;
     ee_ErrorSummary := if bool_decide (cb_Status r = StatusFailed) || bool_decide (cb_Status r = StatusCanceled)
                        then cb_Message r else "";
     ee_ActualVersion := actual os_Version ""; ee_ActualImage := actual os_Image "";
     ee_ActualPlatform := os_Platform <$> cb_ObservedState r;
     ee_ActualContracts := actual (λ o, default [] (os_Contracts o)) [];
     ee_ActualConfigReference := actual os_ConfigReference "";
     ee_ActualConfigChecksum := actual os_ConfigChecksum ""; ee_ActualHealth := os_Health <$> cb_ObservedState r;
     ee_ObservedStateChecksum := observedChecksum |}.

Definition updateExternalExecutionFromCallback (env : xenv) (x : ExternalExecution)
    (r : RecordExternalExecutionCallbackRequest) (observedChecksum : string) : xtx ExternalExecution :=
  update_execution (ee_ID x) (ee_OrganizationID x) (callback_execution (xnow env) x r observedChecksum).

(** ** The handlers *)

Definition expected_state (x : ExternalExecution) : ExternalExecutionExpectedState :=
  {| xs_Version := ee_ExpectedVersion x; xs_Image := ee_ExpectedImage x; xs_Platform := ee_ExpectedPlatform x;
     xs_Contracts := ee_ExpectedContracts x; xs_ConfigReference := ee_ExpectedConfigReference x;
     xs_ConfigChecksum := ee_ExpectedConfigChecksum x |}.

(** A rule of [state.go] that fails the transaction with a conflict. *)
Definition conflict_on (r : result string unit) : xtx unit :=
  slift (match r with Ok u => Ok u | Err message => Err (Conflict message) end).

(** Recording the last event of an execution and closing its row, as
    [timeoutExternalExecutionLocked] and [FailExternalExecution] do. *)
Definition close_with_event (env : xenv) (x : ExternalExecution) (id org : uuid)
    (status : ExternalExecutionStatus) (message : string) : xtx ExternalExecution :=
  let event := {| cb_OrganizationID := org; cb_ExternalExecutionID := id;
                  cb_Sequence := wrap64 (ee_LastCallbackSequence x + 1); cb_Status := status;
                  cb_ProviderReference := ""; cb_ProviderURL := ""; cb_Message := message;
                  cb_ObservedState := None |} in
  conflict_on (ValidateCallbackSequence (cb_Sequence event) (cb_Status event)) ≫= λ _,
  insertExternalExecutionEvent event None (CallbackPayloadHash event) ≫= λ _,
  update_execution id org (close_execution (xnow env) status (cb_Sequence event) message).

Definition timeoutExternalExecutionLocked (env : xenv) (x : ExternalExecution) (message : string)
    : xtx ExternalExecution :=
  close_with_event env x (ee_ID x) (ee_OrganizationID x) StatusTimedOut message.

Definition timed_out_message : string := "external execution callback timed out".

(** The observed state of a callback: required, checked and projected for a
    success, and refused otherwise. *)
Definition record_observed_state (env : xenv) (x : ExternalExecution)
    (r : RecordExternalExecutionCallbackRequest) : xtx string :=
  if bool_decide (cb_Status r = StatusSucceeded) then
    match cb_ObservedState r with
    | None => sthrow (BadRequest "observedState is required for a succeeded callback")
    | Some o =>
        conflict_on (ValidateObservedState (expected_state x) o) ≫= λ _,
        upsertExternalExecutionObservedState env x o
    end
  else match cb_ObservedState r with
       | Some _ => sthrow (BadRequest "observedState is only allowed for a succeeded callback")
       | None => mret ""
       end.

(** The transaction of a callback on the locked row [x]: the row, and whether
    the deadline closed it. *)
Definition callback_on (env : xenv) (r : RecordExternalExecutionCallbackRequest) (x : ExternalExecution)
    : xtx (ExternalExecution * bool) := λ s,
  match getExternalExecutionEventPayloadHash (cb_ExternalExecutionID r) (cb_OrganizationID r) (cb_Sequence r) s with
  | Some existing =>
      if negb (bool_decide (existing = CallbackPayloadHash r))
      then Err (Conflict "external execution callback sequence already has a different payload")
      else Ok ((x, false), s)
  | None =>
      (if IsTerminal (ee_Status x) then sthrow (Conflict "external execution is already terminal") else
       if negb (clock env <? ee_CallbackDeadlineAt x)%Z then
         timeoutExternalExecutionLocked env x timed_out_message ≫= λ u, mret (u, true)
       else
         scheck (negb (cb_Sequence r =? wrap64 (ee_LastCallbackSequence x + 1))%Z)
           (Conflict "external execution callback sequence is out of order") ≫= λ _,
         conflict_on (ValidateCallbackSequence (cb_Sequence r) (cb_Status r)) ≫= λ _,
         scheck (negb (CanCallbackTransition (ee_Status x) (cb_Status r)))
           (Conflict "external execution callback state transition is invalid") ≫= λ _,
         record_observed_state env x r ≫= λ observedChecksum,
         insertExternalExecutionEvent r (if bool_decide (cb_Status r = StatusSucceeded) then cb_ObservedState r else None)
           (CallbackPayloadHash r) ≫= λ _,
         updateExternalExecutionFromCallback env x r observedChecksum ≫= λ u, mret (u, false)) s
  end.

Definition record_callback (env : xenv) (r : RecordExternalExecutionCallbackRequest)
    : xtx (ExternalExecution * bool) :=
  getExternalExecutionForUpdate (cb_ExternalExecutionID r) (cb_OrganizationID r) ≫= callback_on env r.

Definition RecordExternalExecutionCallback (env : xenv) (request : RecordExternalExecutionCallbackRequest) (s : xdb)
    : result apierror ExternalExecution * xdb :=
  match normalizeExternalExecutionCallback request with
  | Err e => (Err e, s)
  | Ok r =>
      match RunSTx (record_callback env r) s with
      | (Ok (_, true), s') => (Err (Conflict "external execution callback deadline has elapsed"), s')
      | (Ok (u, false), s') => (Ok u, s')
      | (Err e, s') => (Err e, s')
      end
  end.

Definition MarkExternalExecutionTriggered (env : xenv) (r : MarkExternalExecutionTriggeredRequest) (s : xdb)
    : result apierror ExternalExecution * xdb :=
  if is_nil (mt_OrganizationID r) || is_nil (mt_ExternalExecutionID r)
  then (Err (BadRequest "organizationId and externalExecutionId are required"), s) else
  if (mt_TriggerAttempts r <? 1)%Z then (Err (BadRequest "triggerAttempts must be greater than 0"), s) else
  RunSTx (
    getExternalExecutionForUpdate (mt_ExternalExecutionID r) (mt_OrganizationID r) ≫= λ x,
    scheck (negb (bool_decide (ee_Status x = StatusQueued)))
      (Conflict "external execution dispatch is already claimed") ≫= λ _,
    update_execution (mt_ExternalExecutionID r) (mt_OrganizationID r)
      (trigger_execution (xnow env) (mt_TriggerAttempts r))) s.

(** The message of a closing request, or the one that stands for an empty one. *)
Definition closing_message (message fallback : string) : string :=
  let message := limitExternalExecutionMessage (redact_trim message) in
  if bool_decide (message = "") then fallback else message.

Definition TimeoutExternalExecution (env : xenv) (r : CloseExternalExecutionRequest) (s : xdb)
    : result apierror ExternalExecution * xdb :=
  if is_nil (cl_OrganizationID r) || is_nil (cl_ExternalExecutionID r)
  then (Err (BadRequest "organizationId and externalExecutionId are required"), s) else
  RunSTx (
    getExternalExecutionForUpdate (cl_ExternalExecutionID r) (cl_OrganizationID r) ≫= λ x,
    if IsTerminal (ee_Status x) then mret x else
    scheck (clock env <? ee_CallbackDeadlineAt x)%Z
      (Conflict "external execution callback deadline has not elapsed") ≫= λ _,
    timeoutExternalExecutionLocked env x (closing_message (cl_Message r) timed_out_message)) s.

Definition FailExternalExecution (env : xenv) (r : CloseExternalExecutionRequest) (s : xdb)
    : result apierror ExternalExecution * xdb :=
  if is_nil (cl_OrganizationID r) || is_nil (cl_ExternalExecutionID r)
  then (Err (BadRequest "organizationId and externalExecutionId are required"), s) else
  RunSTx (
    getExternalExecutionForUpdate (cl_ExternalExecutionID r) (cl_OrganizationID r) ≫= λ x,
    if IsTerminal (ee_Status x) then mret x else
    close_with_event env x (cl_ExternalExecutionID r) (cl_OrganizationID r) StatusFailed
      (closing_message (cl_Message r) "external execution trigger failed")) s.

(** ** The creation of an execution *)

Record externalExecutionSource := {
  src_OrganizationID : uuid;
  src_StepRunID : uuid;
  src_TaskID : uuid;
  src_TaskStatus : TaskStatus;
  src_DeploymentPlanID : uuid;
  src_DeploymentPlanTargetID : uuid;
  src_DeploymentTargetID : uuid;
  src_ApplicationID : uuid;
  src_ReleaseBundleID : uuid;
  src_ActionType : string;
  src_Component : string;
  src_PlanChecksum : string;
  src_ExpectedStateVersion : Z;
  src_ExpectedStateChecksum : string;
  src_ExpectedVersion : string;
  src_ExpectedImage : string;
  src_ExpectedPlatform : string;
  src_ExpectedContracts : list string;
  src_ExpectedConfigChecksum : string;
}.

Record PrepareExternalExecutionRequest := {
  pr_OrganizationID : uuid;
  pr_StepRunID : uuid;
  pr_Component : string;
  pr_CallbackTimeoutSeconds : Z;
}.

(** What the transaction reads of the frozen plan: the joined row of step run,
    task, plan and component, the outcome of the task's preflight, and the
    references of the release contract. *)
Record plan_facts := {
  pf_source : result apierror externalExecutionSource;
  pf_preflight_failure : result apierror (option string);
  pf_config_reference : result apierror string;
  pf_compose_reference : result apierror string;
  pf_compose_checksum : string;
  pf_new_id : uuid;
}.

Definition newline : string := String (ascii_of_N 10) "".

Definition externalExecutionIdempotencyKey (source : externalExecutionSource) : string :=
  "ext:" +:+ sha256_hex (Join [src_PlanChecksum source; uuid_string (src_TaskID source);
    uuid_string (src_StepRunID source); uuid_string (src_DeploymentTargetID source); src_Component source] newline).

(** Seconds of the timeout as a duration in microseconds, the precision of the database. *)
Definition seconds (n : Z) : Z := (n * 1000000)%Z.

Definition new_execution (env : xenv) (r : PrepareExternalExecutionRequest) (f : plan_facts)
    (source : externalExecutionSource) (config compose : string) : ExternalExecution :=
  {| ee_ID := pf_new_id f; ee_StartedAt := None; ee_CompletedAt := None;
     ee_CallbackDeadlineAt := (clock env + seconds (pr_CallbackTimeoutSeconds r))%Z;
     ee_OrganizationID := pr_OrganizationID r; ee_StepRunID := src_StepRunID source;
     ee_TaskID := src_TaskID source; ee_DeploymentPlanID := src_DeploymentPlanID source;
     ee_DeploymentPlanTargetID := src_DeploymentPlanTargetID source;
     ee_DeploymentTargetID := src_DeploymentTargetID source; ee_ApplicationID := src_ApplicationID source;
     ee_ReleaseBundleID := src_ReleaseBundleID source; ee_Component := src_Component source;
     ee_PlanChecksum := src_PlanChecksum source; ee_IdempotencyKey := externalExecutionIdempotencyKey source;
     ee_ExpectedStateVersion := src_ExpectedStateVersion source;
     ee_ExpectedStateChecksum := src_ExpectedStateChecksum source;
     ee_ExpectedVersion := src_ExpectedVersion source; ee_ExpectedImage := src_ExpectedImage source;
     ee_ExpectedPlatform := src_ExpectedPlatform source; ee_ExpectedContracts := src_ExpectedContracts source;
     ee_ExpectedConfigReference := config; ee_ExpectedConfigChecksum := src_ExpectedConfigChecksum source;
     ee_ExpectedComposeReference := compose; ee_ExpectedComposeChecksum := pf_compose_checksum f;
     ee_Status := StatusQueued; ee_ProviderReference := ""; ee_ProviderURL := ""; ee_TriggerAttempts := 0;
     ee_LastCallbackSequence := 0; ee_LastMessage := ""; ee_ErrorSummary := ""; ee_ActualVersion := "";
     ee_ActualImage := ""; ee_ActualPlatform := None; ee_ActualContracts := []; ee_ActualConfigReference := "";
     ee_ActualConfigChecksum := ""; ee_ActualHealth := None; ee_ObservedStateChecksum := "" |}.

(** The constraints of the table that a row of [new_execution] can violate:
    [CHECK (expected_state_version >= 0)], and the unique key, step run, and
    idempotency key within the organization. *)
Definition insertExternalExecution (x : ExternalExecution) : xtx unit := λ s,
  if (ee_ExpectedStateVersion x <? 0)%Z
  then Err (BadRequest "external execution violates an immutable constraint") else
  if exists_where (λ y, bool_decide (ee_ID y = ee_ID x) || bool_decide (ee_StepRunID y = ee_StepRunID x)
       || bool_decide (ee_OrganizationID y = ee_OrganizationID x)
          && bool_decide (ee_IdempotencyKey y = ee_IdempotencyKey x)) (Executions s)
  then Err (Conflict "external execution already exists")
  else Ok (tt, set_executions (Executions s ++ [x]) s).

(** The result of the transaction: an execution, or the message of a preflight
    that failed; its report is stored by [evaluateAndPersistDeploymentPreflightForTask]. *)
Definition prepare_from (env : xenv) (r : PrepareExternalExecutionRequest) (f : plan_facts)
    (source : externalExecutionSource) : xtx (ExternalExecution + string) := λ s,
  match getExternalExecutionByStepRun (pr_StepRunID r) (pr_OrganizationID r) s with
  | Some existing =>
      if negb (bool_decide (ee_Component existing = pr_Component r))
      then Err (Conflict "step run already belongs to a different external execution component")
      else Ok (inl existing, s)
  | None =>
      (scheck (negb (bool_decide (src_ActionType source = "distr.webhook")))
         (BadRequest "external execution requires a distr.webhook step") ≫= λ _,
       scheck (negb (bool_decide (src_TaskStatus source = TaskStatusRunning)))
         (Conflict "external execution task is not running") ≫= λ _,
       requireExternalExecutionComponentLock (src_OrganizationID source) (src_TaskID source)
         (src_DeploymentTargetID source) (src_Component source) ≫= λ _,
       slift (pf_preflight_failure f) ≫= λ failure,
       match failure with
       | Some message => mret (inr message)
       | None =>
           slift (pf_config_reference f) ≫= λ config,
           slift (pf_compose_reference f) ≫= λ compose,
           let x := new_execution env r f source config compose in
           insertExternalExecution x ≫= λ _, mret (inl x)
       end) s
  end.

Definition prepare_tx (env : xenv) (r : PrepareExternalExecutionRequest) (f : plan_facts)
    : xtx (ExternalExecution + string) := slift (pf_source f) ≫= prepare_from env r f.

Definition PrepareExternalExecution (env : xenv) (request : PrepareExternalExecutionRequest) (f : plan_facts)
    (s : xdb) : result apierror ExternalExecution * xdb :=
  let r := {| pr_OrganizationID := pr_OrganizationID request; pr_StepRunID := pr_StepRunID request;
              pr_Component := TrimSpace (pr_Component request);
              pr_CallbackTimeoutSeconds := pr_CallbackTimeoutSeconds request |} in
  if is_nil (pr_OrganizationID r) then (Err (BadRequest "organizationId is required"), s) else
  if is_nil (pr_StepRunID r) then (Err (BadRequest "stepRunId is required"), s) else
  if bool_decide (pr_Component r = "") then (Err (BadRequest "component is required"), s) else
  if (pr_CallbackTimeoutSeconds r <? 1)%Z || (86400 <? pr_CallbackTimeoutSeconds r)%Z
  then (Err (BadRequest "callbackTimeoutSeconds must be between 1 and 86400"), s) else
  match RunSTx (prepare_tx env r f) s with
  | (Ok (inl x), s') => (Ok x, s')
  | (Ok (inr message), s') => (Err (Conflict message), s')
  | (Err e, s') => (Err e, s')
  end.

Definition GetExternalExecutionEvents (id org : uuid) (s : xdb) : result apierror (list ExternalExecutionEvent) :=
  match GetExternalExecution id org s with
  | Err e => Err e
  | Ok _ => Ok (take 256 (stable_sort (less_by xe_Sequence)
      (select_where (λ v, bool_decide (xe_ExternalExecutionID v = id) && bool_decide (xe_OrganizationID v = org))
        (ExecutionEvents s))))
  end.
End handlers.
