(* ===== verification/ExternalProtocol.v ===== *)
(** * What the protocol of external executions guarantees

    The handlers of [ExternalExecution] beside the task system as one
    transition system: the history of an execution, its final states, that it
    can always be closed, and what a success attests. *)
From S2P Require Import Prelude GoStrings Uuid GoRegexp GoJson StepRedaction TaskStore Transaction TaskQueue TaskLeases StepEvents TaskSystem TaskCreation TaskSteps ExternalExecution.
From Stdlib Require Import Ascii.
Open Scope list_scope.

(** ** Transactions *)

Lemma conflict_on_ok r s u s' : conflict_on r s = Ok (u, s') <-> r = Ok tt /\ s' = s.
Proof. unfold conflict_on, slift. destruct r as [[]|], u; split; [by intros [= <-]|by intros [_ ->]|done|by intros [? _]]. Qed.

Lemma collect_ok l s x s' : collectExternalExecution l s = Ok (x, s') <-> head l = Some x /\ s' = s.
Proof. destruct l; split; [done|by intros [? _]|by intros [= -> ->]|by intros [[= ->] ->]]. Qed.

Ltac xtx_inv :=
  repeat (stx_inv; match goal with
  | H : conflict_on _ _ = Ok _ |- _ => apply conflict_on_ok in H as [? ->]
  end); stx_inv.

(** ** The invariant *)

Definition events_of (id : uuid) (s : xdb) : list ExternalExecutionEvent :=
  select_where (λ v, bool_decide (xe_ExternalExecutionID v = id)) (ExecutionEvents s).

(** The history of an execution: its events are numbered 1, 2, 3, ... up to
    the last callback sequence, at most 256; only the last may be terminal, the
    status of the row is that of the last event, and an execution without
    events is queued or was just dispatched. *)
Record history_ok (s : xdb) (x : ExternalExecution) : Prop := {
  h_bounds : (0 <= ee_LastCallbackSequence x <= MaxEventCount)%Z;
  h_numbers : xe_Sequence <$> events_of (ee_ID x) s = seqZ 1 (ee_LastCallbackSequence x);
  h_status : IsTerminal (ee_Status x) = true \/ ee_Status x = StatusQueued \/ ee_Status x = StatusRunning;
  h_queued : ee_Status x = StatusQueued -> ee_LastCallbackSequence x = 0%Z;
  h_room : IsTerminal (ee_Status x) = false -> (ee_LastCallbackSequence x < MaxEventCount)%Z;
  h_last : forall v, last (events_of (ee_ID x) s) = Some v -> xe_Status v = ee_Status x;
  h_terminal : IsTerminal (ee_Status x) = true -> events_of (ee_ID x) s <> [];
  h_open : forall v, v ∈ events_of (ee_ID x) s ->
    xe_Status v = StatusRunning \/ last (events_of (ee_ID x) s) = Some v;
  h_org : forall v, v ∈ events_of (ee_ID x) s -> xe_OrganizationID v = ee_OrganizationID x;
}.

(** The scope of a component state. *)
Definition component_scope (x : ExternalExecution) : uuid * uuid * uuid * string :=
  (ee_OrganizationID x, ee_DeploymentTargetID x, ee_ApplicationID x, ee_Component x).
Definition state_scope (c : TargetComponentState) : uuid * uuid * uuid * string :=
  (cs_OrganizationID c, cs_DeploymentTargetID c, cs_ApplicationID c, cs_Component c).

Record x_inv (s : xdb) : Prop := {
  x_ids : NoDup (ee_ID <$> Executions s);
  x_history : forall x, x ∈ Executions s -> history_ok s x;
  x_events : forall v, v ∈ ExecutionEvents s -> exists x, x ∈ Executions s /\ ee_ID x = xe_ExternalExecutionID v;
  x_versions : forall x, x ∈ Executions s -> (0 <= ee_ExpectedStateVersion x <= int64_max)%Z;
  x_scopes : NoDup (state_scope <$> ComponentStates s);
  x_succeeded : forall x, x ∈ Executions s -> ee_Status x = StatusSucceeded ->
    exists c, c ∈ ComponentStates s /\ state_scope c = component_scope x
      /\ (ee_ExpectedStateVersion x < cs_StateVersion c)%Z;
  x_single : forall x y, x ∈ Executions s -> y ∈ Executions s -> ee_Status x = StatusSucceeded ->
    ee_Status y = StatusSucceeded -> component_scope x = component_scope y ->
    ee_ExpectedStateVersion x = ee_ExpectedStateVersion y -> x = y;
}.

Section protocol.
Context `{Crypto} `{PreflightGate} `{SecretResolver} `{EventPreparer} `{UrlParser}.

(** The values of Go's [int64] fields. *)
Definition facts_typed (f : plan_facts) : Prop :=
  forall source, pf_source f = Ok source -> in_int64 (src_ExpectedStateVersion source).

(** A step: a handler of the executions, or a step of the task system. *)
Inductive x_step (s : xdb) : xdb -> Prop :=
| x_prepare env r f res s' : facts_typed f -> PrepareExternalExecution env r f s = (res, s') -> x_step s s'
| x_trigger env r res s' : MarkExternalExecutionTriggered env r s = (res, s') -> x_step s s'
| x_callback env r res s' : RecordExternalExecutionCallback env r s = (res, s') -> x_step s s'
| x_timeout env r res s' : TimeoutExternalExecution env r s = (res, s') -> x_step s s'
| x_fail env r res s' : FailExternalExecution env r s = (res, s') -> x_step s s'
| x_task b : task_step (base s) b ->
    x_step s {| base := b; Executions := Executions s; ExecutionEvents := ExecutionEvents s;
                ComponentStates := ComponentStates s; Observations := Observations s |}.

Definition x_init : xdb :=
  {| base := init; Executions := []; ExecutionEvents := []; ComponentStates := []; Observations := [] |}.

Definition x_reachable (s : xdb) : Prop := rtc x_step x_init s.

(** *** One row of the table *)

Lemma execution_where_self x : execution_where (ee_ID x) (ee_OrganizationID x) x = true.
Proof. unfold execution_where. by rewrite !bool_decide_eq_true_2. Qed.

Lemma execution_unique s x y : NoDup (ee_ID <$> Executions s) -> x ∈ Executions s -> y ∈ Executions s -> ee_ID x = ee_ID y -> x = y.
Proof. apply NoDup_fmap_elem. Qed.

Lemma execution_where_true s x y :
  NoDup (ee_ID <$> Executions s) -> x ∈ Executions s -> y ∈ Executions s ->
  (execution_where (ee_ID x) (ee_OrganizationID x) y = true <-> y = x).
Proof.
  intros Hs Hx Hy. split; [|intros ->; apply execution_where_self].
  unfold execution_where. intros E. to_prop. by apply (execution_unique s).
Qed.

(** [FOR UPDATE]: the row that a handler works on. *)
Lemma getForUpdate_inv id org s x s' :
  getExternalExecutionForUpdate id org s = Ok (x, s') ->
  s' = s /\ x ∈ Executions s /\ ee_ID x = id /\ ee_OrganizationID x = org.
Proof.
  unfold getExternalExecutionForUpdate. intros [Hh%head_elem_of ->]%collect_ok.
  apply elem_of_select_where in Hh as [Hx Hw]. unfold execution_where in Hw. by to_prop.
Qed.

(** The table after an update of the row [x] by [f]. *)
Definition row_updated (s s' : xdb) (x : ExternalExecution) (f : ExternalExecution -> ExternalExecution) : Prop :=
  x ∈ Executions s
  /\ Executions s' = update_where (execution_where (ee_ID x) (ee_OrganizationID x)) f (Executions s).

Lemma row_updated_elem s s' x f y :
  NoDup (ee_ID <$> Executions s) -> row_updated s s' x f ->
  (y ∈ Executions s' <-> y = f x \/ (y ∈ Executions s /\ y <> x)).
Proof.
  intros Hs [Hx ->]. rewrite elem_of_update_where. split.
  - intros (z & Hz & ->). pose proof (execution_where_true s x z Hs Hx Hz) as E.
    destruct (execution_where _ _ z); [left; by rewrite (proj1 E)|right; split; [done|]].
    intros ->. by apply diff_false_true, E.
  - intros [->|[Hy Hne]]; [exists x; by rewrite execution_where_self|exists y; split; [done|]].
    pose proof (execution_where_true s x y Hs Hx Hy) as E.
    destruct (execution_where _ _ y); [by destruct Hne; apply E|done].
Qed.

Lemma row_updated_ids s s' x f :
  row_updated s s' x f -> (forall y, ee_ID (f y) = ee_ID y) -> ee_ID <$> Executions s' = ee_ID <$> Executions s.
Proof. intros [_ ->] Hf. apply fmap_update_where. auto. Qed.

Lemma update_execution_ok id org f s u s' :
  update_execution id org f s = Ok (u, s') ->
  s' = set_executions (update_where (execution_where id org) f (Executions s)) s
  /\ u ∈ Executions s' /\ execution_where id org u = true.
Proof.
  unfold update_execution. intros [Hh%head_elem_of ->]%collect_ok.
  apply elem_of_select_where in Hh as [Hu Hw]. done.
Qed.

(** The row itself is what the update returns. *)
Lemma update_execution_row s x f u s' :
  NoDup (ee_ID <$> Executions s) -> x ∈ Executions s -> (forall y, ee_ID (f y) = ee_ID y) ->
  update_execution (ee_ID x) (ee_OrganizationID x) f s = Ok (u, s') ->
  u = f x /\ row_updated s s' x f /\ s' = set_executions (Executions s') s.
Proof.
  intros Hs Hx Hf (-> & Hu & Hw)%update_execution_ok. split_and!; [|done|done].
  assert (row_updated s (set_executions (update_where (execution_where (ee_ID x) (ee_OrganizationID x)) f
    (Executions s)) s) x f) as Hr by done.
  apply (row_updated_elem _ _ _ _ u Hs) in Hr. apply Hr in Hu as [->|[Hu Hne]]; [done|].
  by apply (execution_where_true s x u) in Hw.
Qed.

(** *** Recording an event and updating the row *)

(** What no update changes. *)
Definition keeps (x y : ExternalExecution) : Prop :=
  ee_ID y = ee_ID x /\ ee_OrganizationID y = ee_OrganizationID x /\ component_scope y = component_scope x
  /\ ee_ExpectedStateVersion y = ee_ExpectedStateVersion x.

(** The projection of an observed state: the first version of the component,
    or the one after the expected version. *)
Definition projected (x : ExternalExecution) (c : TargetComponentState) (s s' : xdb) : Prop :=
  state_scope c = component_scope x /\ cs_StateVersion c = (ee_ExpectedStateVersion x + 1)%Z
  /\ ((ee_ExpectedStateVersion x = 0%Z /\ (forall d, d ∈ ComponentStates s -> state_scope d <> component_scope x)
       /\ ComponentStates s' = ComponentStates s ++ [c])
      \/ ((exists d, d ∈ ComponentStates s /\ expected_row x d = true)
          /\ ComponentStates s' = update_where (expected_row x) (λ _, c) (ComponentStates s))).

Record advanced (s s' : xdb) (x : ExternalExecution) (f : ExternalExecution -> ExternalExecution)
    (v : ExternalExecutionEvent) : Prop := {
  adv_row : row_updated s s' x f;
  adv_events : ExecutionEvents s' = ExecutionEvents s ++ [v];
  adv_base : base s' = base s;
  adv_id : xe_ExternalExecutionID v = ee_ID x;
  adv_org : xe_OrganizationID v = ee_OrganizationID x;
  adv_seq : xe_Sequence v = (ee_LastCallbackSequence x + 1)%Z;
  adv_status : xe_Status v = StatusRunning \/ IsTerminal (xe_Status v) = true;
  adv_bound : (xe_Sequence v <= MaxEventCount)%Z;
  adv_room : IsTerminal (xe_Status v) = false -> (xe_Sequence v < MaxEventCount)%Z;
  adv_open : IsTerminal (ee_Status x) = false;
  adv_keeps : forall y, keeps y (f y);
  adv_set : ee_Status (f x) = xe_Status v /\ ee_LastCallbackSequence (f x) = xe_Sequence v;
  adv_components :
    (xe_Status v <> StatusSucceeded /\ ComponentStates s' = ComponentStates s)
    \/ (xe_Status v = StatusSucceeded /\ exists c, projected x c s s');
}.

Lemma component_where_scope x d : component_where x d = true <-> state_scope d = component_scope x.
Proof.
  unfold component_where, state_scope, component_scope. rewrite !andb_true_iff, !bool_decide_eq_true.
  split; [by intros [[[-> ->] ->] ->]|by intros [= -> -> -> ->]].
Qed.

Lemma events_of_append s s' v id :
  ExecutionEvents s' = ExecutionEvents s ++ [v] ->
  events_of id s' = events_of id s ++ (if bool_decide (xe_ExternalExecutionID v = id) then [v] else []).
Proof. intros E. unfold events_of, select_where. rewrite E, List.filter_app. by simpl. Qed.

Section advanced.
Context (s s' : xdb) (x : ExternalExecution) (f : ExternalExecution -> ExternalExecution)
  (v : ExternalExecutionEvent) (Hs : x_inv s) (Ha : advanced s s' x f v).

Lemma adv_elem y : y ∈ Executions s' <-> y = f x \/ (y ∈ Executions s /\ y <> x).
Proof. apply row_updated_elem; [apply Hs|apply Ha]. Qed.

Lemma adv_in : x ∈ Executions s.
Proof. apply (adv_row _ _ _ _ _ Ha). Qed.

Lemma adv_events_self : events_of (ee_ID x) s' = events_of (ee_ID x) s ++ [v].
Proof.
  rewrite (events_of_append s s' v) by apply Ha. by rewrite bool_decide_eq_true_2 by apply Ha.
Qed.

Lemma adv_events_other y : y ∈ Executions s -> y <> x -> events_of (ee_ID y) s' = events_of (ee_ID y) s.
Proof.
  intros Hy Hne. rewrite (events_of_append s s' v) by apply Ha.
  rewrite bool_decide_eq_false_2, app_nil_r; [done|]. rewrite (adv_id _ _ _ _ _ Ha).
  intros E. apply Hne. apply (execution_unique s); [apply Hs|done|apply adv_in|done].
Qed.

Lemma adv_history_self : history_ok s' (f x).
Proof.
  destruct (adv_keeps _ _ _ _ _ Ha x) as (Ki & Ko & _). destruct (adv_set _ _ _ _ _ Ha) as [Es El].
  destruct (x_history s Hs x adv_in) as [Hb Hn _ _ Hr Hl _ Ho Horg].
  pose proof (adv_seq _ _ _ _ _ Ha) as Eseq. pose proof (adv_open _ _ _ _ _ Ha) as Hopen.
  pose proof (adv_bound _ _ _ _ _ Ha) as Hbound. pose proof (adv_status _ _ _ _ _ Ha) as Hst.
  split; rewrite ?Ki, ?Ko, ?Es, ?El, ?adv_events_self.
  - lia.
  - rewrite fmap_app, Hn, Eseq, seqZ_app by lia. f_equal. cbn [fmap list_fmap]. rewrite Eseq.
    rewrite seqZ_cons by lia. f_equal. lia.
  - destruct Hst as [->|]; auto.
  - intros E. rewrite E in Hst. by destruct Hst.
  - intros E. apply (adv_room _ _ _ _ _ Ha E).
  - intros w. rewrite last_snoc. by intros [= <-].
  - by destruct (events_of (ee_ID x) s).
  - intros w [Hw| ->%list_elem_of_singleton]%elem_of_app; [|right; by rewrite last_snoc].
    left. destruct (Ho w Hw) as [|Hlast]; [done|]. specialize (Hl w Hlast).
    pose proof (h_status _ _ (x_history s Hs x adv_in)) as [Hx|[Hx|Hx]]; [congruence| |congruence].
    pose proof (h_queued _ _ (x_history s Hs x adv_in) Hx) as Hz. rewrite Hz in Hn.
    destruct (events_of (ee_ID x) s); [set_solver|done].
  - intros w [Hw| ->%list_elem_of_singleton]%elem_of_app; [by apply Horg|apply Ha].
Qed.

Lemma adv_history_other y : y ∈ Executions s -> y <> x -> history_ok s' y.
Proof.
  intros Hy Hne. destruct (x_history s Hs y Hy). split; by rewrite ?(adv_events_other y Hy Hne).
Qed.

Lemma projected_scopes c : projected x c s s' -> NoDup (state_scope <$> ComponentStates s').
Proof.
  intros (Hc & _ & [(_ & Hnone & ->)|(_ & ->)]).
  - rewrite fmap_app. apply NoDup_app. split_and!; [apply Hs| |apply NoDup_singleton].
    intros k (d & -> & Hd)%list_elem_of_fmap. simpl. rewrite list_elem_of_singleton, Hc. by apply Hnone.
  - rewrite fmap_update_where; [apply Hs|]. intros d _ Hd. unfold expected_row in Hd. to_prop.
    by rewrite Hc, (proj1 (component_where_scope x d)).
Qed.

(** After the projection the row of the component is the new one. *)
Lemma projected_row c : projected x c s s' -> c ∈ ComponentStates s'.
Proof.
  intros (Hc & _ & [(_ & _ & ->)|([d [Hd Hw]] & ->)]).
  - apply elem_of_app. right. by left.
  - apply elem_of_update_where. exists d. by rewrite Hw.
Qed.

(** The versions that earlier successes attested are below the expected one,
    and rows of other components stay. *)
Lemma projected_old c d :
  projected x c s s' -> d ∈ ComponentStates s ->
  d ∈ ComponentStates s' \/ (state_scope d = component_scope x /\ cs_StateVersion d = ee_ExpectedStateVersion x).
Proof.
  intros (_ & _ & [(_ & _ & ->)|(_ & ->)]) Hd; [left; apply elem_of_app; by left|].
  destruct (expected_row x d) eqn:E.
  - right. unfold expected_row in E. to_prop. by rewrite <- component_where_scope.
  - left. apply elem_of_update_where. exists d. by rewrite E.
Qed.

Lemma projected_below c y :
  projected x c s s' -> y ∈ Executions s -> ee_Status y = StatusSucceeded ->
  component_scope y = component_scope x -> (ee_ExpectedStateVersion y < ee_ExpectedStateVersion x)%Z.
Proof.
  intros (_ & _ & Hp) Hy Hst Hsc. destruct (x_succeeded s Hs y Hy Hst) as (d & Hd & Hds & Hlt).
  destruct Hp as [(_ & Hnone & _)|([e [He Hw]] & _)].
  - destruct (Hnone d Hd). congruence.
  - unfold expected_row in Hw. to_prop.
    assert (d = e) as ->; [|lia]. apply (NoDup_fmap_elem state_scope (ComponentStates s)); [apply Hs|done..|].
    rewrite Hds, Hsc. symmetry. by apply component_where_scope.
Qed.

Lemma adv_succeeded_other y :
  y ∈ Executions s -> ee_Status y = StatusSucceeded ->
  exists c, c ∈ ComponentStates s' /\ state_scope c = component_scope y
    /\ (ee_ExpectedStateVersion y < cs_StateVersion c)%Z.
Proof.
  intros Hy Hst. destruct (x_succeeded s Hs y Hy Hst) as (d & Hd & Hds & Hlt).
  destruct (adv_components _ _ _ _ _ Ha) as [[_ ->]|[_ [c Hc]]]; [by exists d|].
  destruct (projected_old c d Hc Hd) as [Hd'|[E1 E2]]; [by exists d|].
  exists c. pose proof Hc as (Hsc & Hv & _). split_and!; [by apply projected_row|congruence|lia].
Qed.

Lemma inv_advanced : x_inv s'.
Proof.
  destruct (adv_keeps _ _ _ _ _ Ha x) as (Ki & Ko & Ks & Kv). destruct (adv_set _ _ _ _ _ Ha) as [Es El].
  split.
  - rewrite (row_updated_ids s s' x f); [apply Hs|apply Ha|]. intros y. apply (adv_keeps _ _ _ _ _ Ha y).
  - intros y [->|[Hy Hne]]%adv_elem; [apply adv_history_self|by apply adv_history_other].
  - intros w. rewrite (adv_events _ _ _ _ _ Ha). intros [Hw| ->%list_elem_of_singleton]%elem_of_app.
    + destruct (x_events s Hs w Hw) as (y & Hy & Ey). destruct (decide (ee_ID y = ee_ID x)) as [E|E].
      * exists (f x). rewrite adv_elem. split; [by left|congruence].
      * exists y. rewrite adv_elem. split; [right; split; [done|by intros ->]|done].
    + exists (f x). rewrite adv_elem, Ki, (adv_id _ _ _ _ _ Ha). auto.
  - intros y [->|[Hy _]]%adv_elem; [rewrite Kv; apply (x_versions s Hs x adv_in)|by apply Hs].
  - destruct (adv_components _ _ _ _ _ Ha) as [[_ ->]|[_ [c Hc]]]; [apply Hs|by apply (projected_scopes c)].
  - intros y [->|[Hy Hne]]%adv_elem Hst; [|by apply adv_succeeded_other].
    destruct (adv_components _ _ _ _ _ Ha) as [[Hn _]|[_ [c Hc]]]; [congruence|].
    exists c. pose proof Hc as (Hsc & Hv & _). split_and!; [by apply projected_row|congruence|lia].
  - assert (forall y, y ∈ Executions s -> ee_Status y = StatusSucceeded -> ee_Status (f x) = StatusSucceeded ->
      component_scope y = component_scope x -> ee_ExpectedStateVersion y <> ee_ExpectedStateVersion x) as Hdiff.
    { intros y Hy Hst Hf Hsc. destruct (adv_components _ _ _ _ _ Ha) as [[Hn _]|[_ [c Hc]]]; [congruence|].
      pose proof (projected_below c y Hc Hy Hst Hsc). lia. }
    intros y z [->|[Hy Hyx]]%adv_elem [->|[Hz Hzx]]%adv_elem Sy Sz Esc Ev; [done|..].
    + destruct (Hdiff z Hz Sz Sy); congruence.
    + destruct (Hdiff y Hy Sy Sz); congruence.
    + by apply (x_single s Hs).
Qed.
End advanced.

(** *** The handlers *)

Definition request_event (r : RecordExternalExecutionCallbackRequest)
    (observed : option ExternalExecutionObservedState) (hash : string) : ExternalExecutionEvent :=
  {| xe_OrganizationID := cb_OrganizationID r; xe_ExternalExecutionID := cb_ExternalExecutionID r;
     xe_Sequence := cb_Sequence r; xe_Status := cb_Status r; xe_ProviderReference := cb_ProviderReference r;
     xe_ProviderURL := cb_ProviderURL r; xe_Message := cb_Message r; xe_ObservedState := observed;
     xe_PayloadHash := hash |}.

Lemma insertEvent_ok r o h s u s' :
  insertExternalExecutionEvent r o h s = Ok (u, s') ->
  s' = set_execution_events (ExecutionEvents s ++ [request_event r o h]) s
  /\ event_checks (request_event r o h) = true.
Proof.
  unfold insertExternalExecutionEvent. fold (request_event r o h).
  destruct (event_checks (request_event r o h)); [|done]. simpl.
  destruct (exists_where _ (ExecutionEvents s)); [done|].
  destruct (exists_where _ (Executions s)); [|done]. by intros [= _ <-].
Qed.

Lemma validate_sequence_ok n st :
  ValidateCallbackSequence n st = Ok tt <->
  (n <= MaxEventCount)%Z /\ (IsTerminal st = false -> (n < MaxEventCount)%Z).
Proof.
  unfold ValidateCallbackSequence. destruct (Z.ltb_spec MaxEventCount n); [split; [done|lia]|].
  destruct (Z.eqb_spec n MaxEventCount), (IsTerminal st); simpl; split; try done; intros; try lia; split; try lia; done.
Qed.

Lemma wrap_next s x : x_inv s -> x ∈ Executions s ->
  wrap64 (ee_LastCallbackSequence x + 1) = (ee_LastCallbackSequence x + 1)%Z.
Proof.
  intros Hs Hx. pose proof (h_bounds _ _ (x_history s Hs x Hx)) as Hb. unfold MaxEventCount in Hb.
  apply wrap64_id. unfold in_int64, int64_min, int64_max. lia.
Qed.

Lemma keeps_close now st n m y : keeps y (close_execution now st n m y).
Proof. done. Qed.

Lemma keeps_callback now x0 r sum y : keeps y (callback_execution now x0 r sum y).
Proof. done. Qed.

Lemma keeps_trigger now n y : keeps y (trigger_execution now n y).
Proof. done. Qed.

(** [timeoutExternalExecutionLocked] and the transaction of [FailExternalExecution]. *)
Lemma close_advanced env x st m s u s' :
  x_inv s -> x ∈ Executions s -> IsTerminal (ee_Status x) = false -> st = StatusFailed \/ st = StatusTimedOut ->
  close_with_event env x (ee_ID x) (ee_OrganizationID x) st m s = Ok (u, s') ->
  exists v, advanced s s' x (close_execution (xnow env) st (ee_LastCallbackSequence x + 1)%Z m) v
    /\ xe_Status v = st /\ xe_Message v = m
    /\ u = close_execution (xnow env) st (ee_LastCallbackSequence x + 1)%Z m x.
Proof.
  intros Hs Hx Hopen Hst E. unfold close_with_event in E. xtx_inv.
  match goal with H : insertExternalExecutionEvent _ _ _ _ = _ |- _ => apply insertEvent_ok in H as [-> Hc] end.
  match goal with H : ValidateCallbackSequence _ _ = _ |- _ => apply validate_sequence_ok in H as [Hle Hlt] end.
  simpl in *. rewrite (wrap_next s x) in * by done.
  match goal with H : update_execution _ _ _ _ = _ |- _ => rename H into Hup end.
  set (v := request_event _ _ _) in *.
  apply update_execution_row in Hup as (-> & Hrow & Hs'); [|apply Hs|done|done].
  exists v. split_and!; [|done..]. split; try done; simpl.
  - by rewrite Hs'.
  - by rewrite Hs'.
  - destruct Hst as [->| ->]; by right.
  - left. split; [by destruct Hst as [->| ->]|by rewrite Hs'].
Qed.

Lemma require_lock_ok org task target c s u s' :
  requireExternalExecutionComponentLock org task target c s = Ok (u, s') ->
  s' = s /\ owns_component_lock org task target c s = true.
Proof. unfold requireExternalExecutionComponentLock. destruct (owns_component_lock _ _ _ _ _); [|done]. by intros [= _ <-]. Qed.

(** A compare-and-set that succeeds found the expected version, which the new
    one follows. *)
Lemma write_component_ok x c s u s' :
  (0 <= ee_ExpectedStateVersion x <= int64_max)%Z -> state_scope c = component_scope x ->
  cs_StateVersion c = wrap64 (ee_ExpectedStateVersion x + 1) ->
  write_component_state x c s = Ok (u, s') ->
  projected x c s s' /\ s' = set_components (ComponentStates s')
    (Observations s ++ [{| ob_State := c; ob_ExternalExecutionID := ee_ID x |}]) s.
Proof.
  intros Hv Hsc Hn. unfold write_component_state.
  assert ((cs_StateVersion c <=? 0)%Z = false -> cs_StateVersion c = (ee_ExpectedStateVersion x + 1)%Z) as Hnext.
  { intros Hc. to_prop. rewrite Hn in *. destruct (decide (ee_ExpectedStateVersion x = int64_max)) as [E|E].
    - rewrite E in Hc. by vm_compute in Hc.
    - apply wrap64_id. unfold in_int64, int64_min, int64_max in *. lia. }
  destruct (Z.eqb_spec (ee_ExpectedStateVersion x) 0) as [E|E].
  - destruct (cs_StateVersion c <=? 0)%Z eqn:Hc; [done|]. destruct (exists_where _ _) eqn:Hex; [done|].
    intros [= _ <-]. split; [|done]. split_and!; [done|by apply Hnext|]. left. split_and!; [done| |done].
    intros d Hd Hds%component_where_scope. pose proof (proj1 (exists_where_false _ _) Hex d Hd) as Hw. congruence.
  - destruct (exists_where (expected_row x) _) eqn:Hex; [|done]. simpl.
    destruct (cs_StateVersion c <=? 0)%Z eqn:Hc; [done|]. intros [= _ <-]. split; [|done].
    split_and!; [done|by apply Hnext|]. right. split; [|done].
    apply exists_where_true in Hex as (d & Hd & Hw). by exists d.
Qed.

(** What [ValidateObservedState] accepts. *)
Definition attests (o : ExternalExecutionObservedState) (x : ExternalExecution) : Prop :=
  os_Version o = ee_ExpectedVersion x /\ ToLower (os_Image o) = ToLower (ee_ExpectedImage x)
  /\ os_Platform o = ee_ExpectedPlatform x /\ default [] (os_Contracts o) ≡ₚ ee_ExpectedContracts x
  /\ os_ConfigReference o = ee_ExpectedConfigReference x /\ os_ConfigChecksum o = ee_ExpectedConfigChecksum x
  /\ os_Health o = TargetComponentHealthHealthy.

Lemma sort_strings_perm k l : sort_strings k = sort_strings l <-> k ≡ₚ l.
Proof.
  unfold sort_strings. split; [intros E; by rewrite <- (stable_sort_perm string_less k), E, stable_sort_perm|].
  intros Hp. apply stable_sort_unique; [apply _|done|]. intros y z _ _. apply string_less_total.
Qed.

Lemma validate_observed_ok x o : ValidateObservedState (expected_state x) o = Ok tt <-> attests o x.
Proof.
  unfold ValidateObservedState, attests, EqualFold. simpl. rewrite <- sort_strings_perm.
  repeat (case_bool_decide; simpl; [|split; [done|intros (?&?&?&?&?&?&?); congruence]]).
  by split.
Qed.

(** The row that a success of [x] with the state [o] writes. *)
Definition attested_row (now : Z) (x : ExternalExecution) (o : ExternalExecutionObservedState) : TargetComponentState :=
  externalExecutionObservedStateArgs now x o (ObservedStateChecksum o) (wrap64 (ee_ExpectedStateVersion x + 1)).

(** The task owns the component, the observed state is the expected one, and it is projected. *)
Definition attested (now : Z) (x : ExternalExecution) (o : ExternalExecutionObservedState) (s s' : xdb) : Prop :=
  attests o x
  /\ owns_component_lock (ee_OrganizationID x) (ee_TaskID x) (ee_DeploymentTargetID x) (ee_Component x) s = true
  /\ projected x (attested_row now x o) s s'
  /\ Observations s' = Observations s ++ [{| ob_State := attested_row now x o; ob_ExternalExecutionID := ee_ID x |}].

Lemma record_observed_ok env x r s sum s' :
  (0 <= ee_ExpectedStateVersion x <= int64_max)%Z -> record_observed_state env x r s = Ok (sum, s') ->
  s' = set_components (ComponentStates s') (Observations s') s
  /\ ((cb_Status r <> StatusSucceeded /\ s' = s)
      \/ (cb_Status r = StatusSucceeded /\ exists o, cb_ObservedState r = Some o
            /\ sum = ObservedStateChecksum o /\ attested (xnow env) x o s s')).
Proof.
  intros Hv. unfold record_observed_state. case_bool_decide as Hst.
  - destruct (cb_ObservedState r) as [o|]; [|done]. intros E. unfold upsertExternalExecutionObservedState in E.
    xtx_inv. match goal with H : ValidateObservedState _ _ = _ |- _ => apply validate_observed_ok in H end.
    match goal with H : requireExternalExecutionComponentLock _ _ _ _ _ = _ |- _ => apply require_lock_ok in H as [-> Ho] end.
    match goal with H : write_component_state _ _ _ = _ |- _ => apply write_component_ok in H as [Hp Hs']; [|done..] end.
    split; [by rewrite Hs'|]. right. split; [done|]. exists o. split_and!; [done..|].
    split_and!; [done..|]. by rewrite Hs'.
  - destruct (cb_ObservedState r); [done|]. intros [= _ <-]. split; [by destruct s|]. by left.
Qed.

Lemma projected_tables x c s s' t t' :
  projected x c s s' -> ComponentStates t = ComponentStates s -> ComponentStates t' = ComponentStates s' ->
  projected x c t t'.
Proof. unfold projected. by intros Hp -> ->. Qed.

(** The transaction of a callback that is recorded for the first time. *)
Lemma callback_advanced env r x s u late s' :
  x_inv s -> x ∈ Executions s -> ee_ID x = cb_ExternalExecutionID r -> ee_OrganizationID x = cb_OrganizationID r ->
  IsCallbackStatus (cb_Status r) = true ->
  getExternalExecutionEventPayloadHash (cb_ExternalExecutionID r) (cb_OrganizationID r) (cb_Sequence r) s = None ->
  callback_on env r x s = Ok ((u, late), s') ->
  IsTerminal (ee_Status x) = false
  /\ if late then
       (ee_CallbackDeadlineAt x <= clock env)%Z /\ ee_Status u = StatusTimedOut
       /\ exists v, advanced s s' x (close_execution (xnow env) StatusTimedOut (ee_LastCallbackSequence x + 1)%Z
            timed_out_message) v
     else
       (clock env < ee_CallbackDeadlineAt x)%Z
       /\ (exists sum v, advanced s s' x (callback_execution (xnow env) x r sum) v
            /\ u = callback_execution (xnow env) x r sum x /\ xe_PayloadHash v = CallbackPayloadHash r
            /\ xe_Status v = cb_Status r)
       /\ (cb_Status r = StatusSucceeded -> exists o, cb_ObservedState r = Some o
            /\ ee_ObservedStateChecksum u = ObservedStateChecksum o /\ attested (xnow env) x o s s').
Proof.
  intros Hs Hx Ei Eo Hcb Hnone. unfold callback_on. rewrite Hnone.
  destruct (IsTerminal (ee_Status x)) eqn:Hopen; [done|]. intros E. split; [done|].
  destruct (clock env <? ee_CallbackDeadlineAt x)%Z eqn:Hd; simpl in E; xtx_inv; [|].
  2: { unfold timeoutExternalExecutionLocked in *.
       match goal with H : close_with_event _ _ _ _ _ _ _ = _ |- _ =>
         apply close_advanced in H as (v & Hadv & _ & _ & ->); [|auto..] end.
       split; [by to_prop|]. split; [done|by exists v]. }
  split; [by to_prop|].
  match goal with H : insertExternalExecutionEvent _ _ _ _ = _ |- _ => apply insertEvent_ok in H as [-> _] end.
  match goal with H : ValidateCallbackSequence _ _ = _ |- _ => apply validate_sequence_ok in H as [Hle Hlt] end.
  match goal with H : record_observed_state _ _ _ _ = Ok (?m, _) |- _ =>
    apply record_observed_ok in H as [Hs2 Hobs]; [|by apply (x_versions s Hs)]; rename m into sum end.
  match goal with H : negb (_ =? _)%Z = false |- _ => rewrite (wrap_next s x) in H by done; to_prop; rename H into Hseq end.
  match goal with H : updateExternalExecutionFromCallback _ _ _ _ ?t = _ |- _ => unfold updateExternalExecutionFromCallback in H; set (s3 := t) in *;
    assert (Executions s3 = Executions s) as Ex by (unfold s3; by rewrite Hs2);
    apply update_execution_row in H as (-> & Hrow & Hs'); [|rewrite Ex; apply Hs|by rewrite Ex|done] end.
  assert (ComponentStates s' = ComponentStates s3) as Ec by (by rewrite Hs').
  assert (Observations s' = Observations s3) as Eob by (by rewrite Hs').
  split.
  - exists sum, (request_event r (if bool_decide (cb_Status r = StatusSucceeded) then cb_ObservedState r else None)
      (CallbackPayloadHash r)). split_and!; [|done|reflexivity|reflexivity]. unfold row_updated in Hrow. rewrite Ex in Hrow.
    split; [exact Hrow| | |exact (eq_sym Ei)|exact (eq_sym Eo)|exact Hseq| |exact Hle|exact Hlt|exact Hopen
      |intros y; apply keeps_callback|split; reflexivity|].
    + rewrite Hs'. unfold s3. rewrite Hs2. reflexivity.
    + rewrite Hs'. unfold s3. rewrite Hs2. reflexivity.
    + cbn [request_event xe_Status]. clear -Hcb. destruct (cb_Status r); auto; done.
    + cbn [request_event xe_Status]. rewrite Ec. cbn [s3 set_execution_events ComponentStates]. destruct Hobs as [[Hne ->]|(Hst & o & _ & _ & _ & _ & Hp & _)]; [by left|].
      right. split; [done|]. exists (attested_row (xnow env) x o). by eapply projected_tables.
  - intros Hst. destruct Hobs as [[Hne _]|(_ & o & Ho & -> & Hat & Hlock & Hp & Hobs)]; [done|].
    exists o. split_and!; [done|done|]. split_and!; [done..| |].
    + eapply projected_tables; [done..|]. by rewrite Ec.
    + rewrite Eob. by unfold s3.
Qed.

(** *** Every step *)

Definition same_tables (s s' : xdb) : Prop :=
  ExecutionEvents s' = ExecutionEvents s /\ ComponentStates s' = ComponentStates s.

Definition created_row (x : ExternalExecution) (s : xdb) : Prop :=
  ~ (ee_ID x ∈ ee_ID <$> Executions s) /\ (0 <= ee_ExpectedStateVersion x <= int64_max)%Z
  /\ ee_Status x = StatusQueued /\ ee_LastCallbackSequence x = 0%Z.

(** What a step does to the tables. *)
Inductive x_change (s s' : xdb) : Prop :=
| change_none : Executions s' = Executions s -> same_tables s s' -> x_change s s'
| change_created x : created_row x s -> Executions s' = Executions s ++ [x] -> same_tables s s' -> x_change s s'
| change_triggered x now n :
    row_updated s s' x (trigger_execution now n) -> ee_Status x = StatusQueued -> same_tables s s' -> x_change s s'
| change_advanced x f v : advanced s s' x f v -> x_change s s'.

Lemma events_of_same s s' id : same_tables s s' -> events_of id s' = events_of id s.
Proof. intros [E _]. unfold events_of. by rewrite E. Qed.

Lemma history_same s s' x : same_tables s s' -> history_ok s x -> history_ok s' x.
Proof. intros E [? ? ? ? ? ? ? ? ?]. split; by rewrite ?(events_of_same s s'). Qed.

Lemma inv_created s s' x :
  x_inv s -> created_row x s -> Executions s' = Executions s ++ [x] -> same_tables s s' -> x_inv s'.
Proof.
  intros Hs (Hfresh & Hv & Hst & Hl) Ex Ht. pose proof Ht as [Ee Ec].
  assert (events_of (ee_ID x) s' = []) as Hnone.
  { rewrite (events_of_same s s') by done. unfold events_of, select_where. apply filter_none_bool.
    intros v Hin. apply bool_decide_eq_false_2. intros E. destruct (x_events s Hs v Hin) as (y & Hy & Ey).
    apply Hfresh. rewrite <- E, <- Ey. by apply list_elem_of_fmap_2. }
  assert (forall y, y ∈ Executions s' -> y ∈ Executions s \/ y = x) as Hin.
  { intros y. rewrite Ex, elem_of_app, list_elem_of_singleton. done. }
  split.
  - rewrite Ex, fmap_app. apply NoDup_app. split_and!; [apply Hs| |apply NoDup_singleton].
    intros k Hk ->%list_elem_of_singleton. done.
  - intros y [Hy| ->]%Hin; [by eapply history_same, Hs|]. split; rewrite ?Hnone, ?Hst, ?Hl; try done; auto.
    all: unfold MaxEventCount; try lia; intros v Hv'; by apply elem_of_nil in Hv'.
  - intros v. rewrite Ee. intros (y & Hy & Ey)%Hs. exists y. rewrite Ex, elem_of_app. auto.
  - intros y [Hy| ->]%Hin; [by apply Hs|done].
  - rewrite Ec. apply Hs.
  - intros y [Hy| ->]%Hin; [rewrite Ec; by apply Hs|congruence].
  - intros y z [Hy| ->]%Hin [Hz| ->]%Hin; [by apply (x_single s Hs)|congruence..].
Qed.

Lemma inv_triggered s s' x now n :
  x_inv s -> row_updated s s' x (trigger_execution now n) -> ee_Status x = StatusQueued -> same_tables s s' -> x_inv s'.
Proof.
  intros Hs Hr Hq Ht. pose proof Ht as [Ee Ec]. pose proof (proj1 Hr) as Hx.
  pose proof (x_history s Hs x Hx) as Hh. pose proof (h_queued _ _ Hh Hq) as Hz.
  assert (events_of (ee_ID x) s = []) as Hnone.
  { pose proof (h_numbers _ _ Hh) as Hn. rewrite Hz in Hn. by destruct (events_of (ee_ID x) s). }
  assert (forall y, y ∈ Executions s' -> y = trigger_execution now n x \/ (y ∈ Executions s /\ y <> x)) as Hin.
  { intros y. by apply row_updated_elem; [apply Hs|]. }
  split.
  - rewrite (row_updated_ids s s' x _ Hr); [apply Hs|done].
  - intros y [->|[Hy _]]%Hin; [|by eapply history_same, Hs].
    split; cbn [trigger_execution ee_ID ee_OrganizationID ee_Status ee_LastCallbackSequence];
      rewrite ?(events_of_same s s'), ?Hnone, ?Hz by done; try done; auto.
    all: unfold MaxEventCount; try lia; intros v Hv'; by apply elem_of_nil in Hv'.
  - intros v. rewrite Ee. intros (y & Hy & Ey)%Hs. destruct (decide (ee_ID y = ee_ID x)) as [E|E].
    + exists (trigger_execution now n x). split; [|simpl; congruence].
      apply (row_updated_elem s s' x (trigger_execution now n)); [apply Hs|done|by left].
    + exists y. split; [|done]. apply (row_updated_elem s s' x (trigger_execution now n)); [apply Hs|done|right].
      split; [done|by intros ->].
  - intros y [->|[Hy _]]%Hin; [apply (x_versions s Hs x Hx)|by apply Hs].
  - rewrite Ec. apply Hs.
  - intros y [->|[Hy _]]%Hin; [done|rewrite Ec; by apply Hs].
  - intros y z [->|[Hy _]]%Hin [->|[Hz' _]]%Hin; [done..|by apply (x_single s Hs)].
Qed.

Lemma inv_change s s' : x_inv s -> x_change s s' -> x_inv s'.
Proof.
  intros Hs [Ex Ht|x Hx Ex Ht|x now n Hr Hq Ht|x f v Ha].
  - pose proof Ht as [Ee Ec]. split; rewrite ?Ex, ?Ee, ?Ec; try apply Hs.
    intros x Hx. by eapply history_same, Hs.
  - by eapply inv_created.
  - by eapply inv_triggered.
  - by eapply inv_advanced.
Qed.

Lemma prepare_change env r f s res s' :
  facts_typed f -> PrepareExternalExecution env r f s = (res, s') ->
  (s' = s \/ exists x, res = Ok x /\ created_row x s /\ Executions s' = Executions s ++ [x]
     /\ same_tables s s' /\ base s' = base s).
Proof.
  intros Hf. unfold PrepareExternalExecution.
  do 4 (match goal with |- (if ?b then _ else _) = _ -> _ => destruct b; [intros [= _ <-]; by left|] end).
  match goal with |- context [RunSTx ?m s] => destruct (RunSTx m s) as [res1 s1] eqn:E end.
  apply RunSTx_cases in E as [(a & -> & E)|(e & -> & _ & ->)]; [|by intros [= _ <-]; left].
  unfold prepare_tx in E. xtx_inv.
  match goal with H : slift (pf_source f) s = Ok (?src, ?s1) |- _ => rename src into source; unfold slift in H;
    destruct (pf_source f) as [src|] eqn:Esrc; [|done]; injection H as -> <- end.
  unfold prepare_from in E. destruct (getExternalExecutionByStepRun _ _ s) as [x|] eqn:Ex.
  { case_bool_decide; simpl in E; [|done]. injection E as <- <-. intros [= _ <-]. by left. }
  xtx_inv. match goal with H : requireExternalExecutionComponentLock _ _ _ _ _ = _ |- _ => apply require_lock_ok in H as [-> Hlock] end.
  match goal with H : slift (pf_preflight_failure f) _ = _ |- _ => unfold slift in H;
    destruct (pf_preflight_failure f) as [failure|]; [|done]; injection H as <- <- end.
  destruct failure as [m|]; [injection E as <- <-; intros [= _ <-]; by left|].
  apply stx_bind_ok in E as (config & s2 & E2 & E). unfold slift in E2.
  destruct (pf_config_reference f); [|done]. injection E2 as <- <-.
  apply stx_bind_ok in E as (compose & s2 & E2 & E). unfold slift in E2.
  destruct (pf_compose_reference f); [|done]. injection E2 as <- <-.
  apply stx_bind_ok in E as ([] & s2 & Hi & E). injection E as <- <-. intros [= <- <-].
  unfold insertExternalExecution in Hi. destruct (_ <? 0)%Z eqn:Hv; [done|].
  destruct (exists_where _ _) eqn:Hex; [done|]. injection Hi as <-. right. eexists. split; [reflexivity|].
  split; [|done]. split_and!; [|by to_prop|apply (Hf source Esrc)|done|done].
  intros (y & Ey & Hy)%list_elem_of_fmap. pose proof (proj1 (exists_where_false _ _) Hex y Hy) as Hno.
  simpl in Hno, Ey. to_prop. congruence.
Qed.

Lemma set_executions_base l s : base (set_executions l s) = base s.
Proof. done. Qed.

Lemma trigger_change env r s res s' :
  x_inv s -> MarkExternalExecutionTriggered env r s = (res, s') ->
  s' = s \/ exists x, row_updated s s' x (trigger_execution (xnow env) (mt_TriggerAttempts r))
    /\ ee_Status x = StatusQueued /\ same_tables s s' /\ base s' = base s
    /\ res = Ok (trigger_execution (xnow env) (mt_TriggerAttempts r) x).
Proof.
  intros Hs. unfold MarkExternalExecutionTriggered.
  destruct (is_nil _ || is_nil _); [intros [= _ <-]; by left|].
  destruct (_ <? 1)%Z; [intros [= _ <-]; by left|].
  intros [(u & -> & E)|(e & -> & _ & ->)]%RunSTx_cases; [right|by left]. xtx_inv.
  match goal with H : getExternalExecutionForUpdate _ _ _ = Ok (?y, _) |- _ =>
    apply getForUpdate_inv in H as (-> & Hx & Ei & Eo); rename y into x end.
  rewrite <- Ei, <- Eo in E. apply update_execution_row in E as (-> & Hr & Hs'); [|apply Hs|done|done].
  exists x. split; [done|]. split; [match goal with H : negb _ = false |- _ => by to_prop end|].
  by rewrite Hs'.
Qed.

(** The transactions that close an execution. *)
Lemma close_change env org id st m s (k : ExternalExecution -> xtx ExternalExecution) s' res :
  x_inv s -> st = StatusFailed \/ st = StatusTimedOut ->
  (forall x u t t', ee_ID x = id -> ee_OrganizationID x = org -> k x t = Ok (u, t') ->
     close_with_event env x (ee_ID x) (ee_OrganizationID x) st m t = Ok (u, t')) ->
  RunSTx (getExternalExecutionForUpdate id org ≫= λ x,
    if IsTerminal (ee_Status x) then mret x else k x) s = (res, s') ->
  s' = s \/ exists x v, advanced s s' x (close_execution (xnow env) st (ee_LastCallbackSequence x + 1)%Z m) v
    /\ res = Ok (close_execution (xnow env) st (ee_LastCallbackSequence x + 1)%Z m x).
Proof.
  intros Hs Hst Hk [(u & -> & E)|(e & -> & _ & ->)]%RunSTx_cases; [|by left].
  apply stx_bind_ok in E as (x & s1 & (-> & Hx & Hi & Ho)%getForUpdate_inv & E).
  destruct (IsTerminal (ee_Status x)) eqn:Hopen; [injection E as _ <-; by left|].
  apply Hk in E; [|done..].
  apply close_advanced in E as (v & Ha & _ & _ & ->); [|done..]. right. by exists x, v.
Qed.

Lemma timeout_change env r s res s' :
  x_inv s -> TimeoutExternalExecution env r s = (res, s') ->
  s' = s \/ exists x v, advanced s s' x (close_execution (xnow env) StatusTimedOut (ee_LastCallbackSequence x + 1)%Z
      (closing_message (cl_Message r) timed_out_message)) v
    /\ res = Ok (close_execution (xnow env) StatusTimedOut (ee_LastCallbackSequence x + 1)%Z
      (closing_message (cl_Message r) timed_out_message) x).
Proof.
  intros Hs. unfold TimeoutExternalExecution.
  destruct (is_nil _ || is_nil _); [intros [= _ <-]; by left|]. apply close_change; [done|by right|].
  intros x u t t' _ _ E. by apply stx_bind_ok in E as ([] & t1 & [_ ->]%scheck_ok & E).
Qed.

Lemma fail_change env r s res s' :
  x_inv s -> FailExternalExecution env r s = (res, s') ->
  s' = s \/ exists x v, advanced s s' x (close_execution (xnow env) StatusFailed (ee_LastCallbackSequence x + 1)%Z
      (closing_message (cl_Message r) "external execution trigger failed")) v
    /\ res = Ok (close_execution (xnow env) StatusFailed (ee_LastCallbackSequence x + 1)%Z
      (closing_message (cl_Message r) "external execution trigger failed") x).
Proof.
  intros Hs. unfold FailExternalExecution.
  destruct (is_nil _ || is_nil _); [intros [= _ <-]; by left|]. apply close_change; [done|by left|].
  by intros x u t t' <- <- E.
Qed.

Lemma normalize_ok request r :
  normalizeExternalExecutionCallback request = Ok r -> r = normalize_fields request
  /\ IsCallbackStatus (cb_Status request) = true /\ (0 < cb_Sequence request)%Z.
Proof.
  unfold normalizeExternalExecutionCallback. intros E.
  apply result_bind_ok in E as (_ & _ & E). apply result_bind_ok in E as (_ & Hseq%fail_if_ok & E).
  apply result_bind_ok in E as (_ & Hst%fail_if_ok & E). apply result_bind_ok in E as (_ & _ & E).
  destruct (ValidateProviderURL _); [|done]. apply result_bind_ok in E as (_ & _ & [= <-]).
  split; [done|]. to_prop. done.
Qed.

(** The callbacks that the transaction replays, refuses or records. *)
Lemma callback_cases env request s res s' :
  x_inv s -> RecordExternalExecutionCallback env request s = (res, s') ->
  (exists e, res = Err e /\ s' = s)
  \/ exists r x, normalizeExternalExecutionCallback request = Ok r /\ x ∈ Executions s
    /\ ee_ID x = cb_ExternalExecutionID r /\ ee_OrganizationID x = cb_OrganizationID r
    /\ ((getExternalExecutionEventPayloadHash (cb_ExternalExecutionID r) (cb_OrganizationID r) (cb_Sequence r) s
           = Some (CallbackPayloadHash r) /\ res = Ok x /\ s' = s)
        \/ (getExternalExecutionEventPayloadHash (cb_ExternalExecutionID r) (cb_OrganizationID r) (cb_Sequence r) s = None
            /\ exists u late, callback_on env r x s = Ok ((u, late), s')
              /\ res = if late then Err (Conflict "external execution callback deadline has elapsed") else Ok u)).
Proof.
  intros Hs. unfold RecordExternalExecutionCallback.
  destruct (normalizeExternalExecutionCallback request) as [r|e] eqn:Hn; [|intros [= <- <-]; left; by exists e].
  destruct (RunSTx (record_callback env r) s) as [res1 s1] eqn:E.
  apply RunSTx_cases in E as [([u late] & -> & E)|(e & -> & _ & ->)]; [|intros [= <- <-]; left; by exists e].
  unfold record_callback in E. apply stx_bind_ok in E as (x & s2 & (-> & Hx & Hi & Ho)%getForUpdate_inv & E).
  intros Hres. right. exists r, x. split_and!; [done..|].
  destruct (getExternalExecutionEventPayloadHash _ _ _ s) as [h|] eqn:Hh.
  - left. unfold callback_on in E. rewrite Hh in E. case_bool_decide as Eh; simpl in E; [|done].
    injection E as <- <- <-. injection Hres as <- <-. by rewrite Eh.
  - right. split; [done|]. exists u, late. destruct late; injection Hres as <- <-; done.
Qed.

Lemma callback_change env request s res s' :
  x_inv s -> RecordExternalExecutionCallback env request s = (res, s') ->
  s' = s \/ exists x f v, advanced s s' x f v.
Proof.
  intros Hs [(e & _ & ->)|(r & x & Hn & Hx & Hi & Ho & [(_ & _ & ->)|(Hnone & u & late & E & _)])]%callback_cases;
    [by left..| |done].
  apply normalize_ok in Hn as (-> & Hst & _).
  apply callback_advanced in E as [_ E]; [|done..]. right. destruct late.
  - destruct E as (_ & _ & v & Ha). exists x; eexists; exists v; exact Ha.
  - destruct E as (_ & (sum & v & Ha & _) & _). exists x; eexists; exists v; exact Ha.
Qed.

Lemma step_change s s' : x_inv s -> x_step s s' -> x_change s s'.
Proof.
  intros Hs. assert (x_change s s) as Hrefl by (by apply change_none).
  intros [env r f res t' Hf E|env r res t' E|env r res t' E|env r res t' E|env r res t' E|b _].
  - apply prepare_change in E as [->|(x & _ & Hx & Ex & Ht & _)]; [done| |done]. by apply (change_created _ _ x).
  - apply trigger_change in E as [->|(x & Hr & Hq & Ht & _)]; [done| |done]. by eapply change_triggered.
  - apply callback_change in E as [->|(x & f & v & Ha)]; [done| |done]. by eapply change_advanced.
  - apply timeout_change in E as [->|(x & v & Ha & _)]; [done| |done]. by eapply change_advanced.
  - apply fail_change in E as [->|(x & v & Ha & _)]; [done| |done]. by eapply change_advanced.
  - by apply change_none.
Qed.

Lemma x_inv_init : x_inv x_init.
Proof. split; try (intros; set_solver); constructor. Qed.

Lemma x_inv_steps s s' : x_inv s -> rtc x_step s s' -> x_inv s'.
Proof. intros Hs Hrt. induction Hrt as [|s t s' Hst _ IH]; [done|]. apply IH. by eapply inv_change, step_change. Qed.

Lemma x_inv_reachable s : x_reachable s -> x_inv s.
Proof. apply x_inv_steps, x_inv_init. Qed.
End protocol.
