(* ===== verification/ExternalGuarantees.v ===== *)
(** * The guarantees of external executions

    What [ExternalProtocol] amounts to for a caller: the lifecycle of an
    execution, that an open one can always be closed, what a success attests,
    and that callbacks can be repeated. *)
From S2P Require Import Prelude GoStrings Uuid GoRegexp GoJson StepRedaction TaskStore Transaction TaskQueue TaskLeases StepEvents TaskSystem TaskCreation TaskSteps TaskGuarantees ExternalExecution ExternalProtocol.
From Stdlib Require Import Ascii.
Open Scope list_scope.

(** ** The length of a message *)

Lemma char_length_app a b : char_length (a +:+ b) = (char_length a + char_length b)%Z.
Proof.
  induction a as [|c a IH]; [by rewrite string_app_nil_l|]. rewrite string_app_cons. simpl.
  rewrite IH. destruct (between 128 191 c); lia.
Qed.

Lemma char_length_one a s : (char_length s <= char_length (String a s) <= 1 + char_length s)%Z.
Proof. simpl. destruct (between 128 191 a); lia. Qed.

Lemma char_length_cont a s : between 128 191 a = true -> char_length (String a s) = char_length s.
Proof. simpl. by intros ->. Qed.

Lemma between_cont lo hi a :
  (128 <= lo)%N -> (hi <= 191)%N -> between lo hi a = true -> between 128 191 a = true.
Proof. unfold between. intros ? ?. rewrite !andb_true_iff, !N.leb_le. lia. Qed.

(** A decoded rune starts at most one character. *)
Lemma decoded_char r : decoded r -> (char_length (r_raw r) <= 1)%Z.
Proof.
  assert (forall a s, char_length s = 0%Z -> (char_length (String a s) <= 1)%Z) as Hone.
  { intros a s Hs. pose proof (char_length_one a s). lia. }
  intros [a|a b Hv|a b c Hv|a b c d Hv]; cbn [rune1 rune2 rune3 rune4 r_raw]; apply Hone.
  - done.
  - apply andb_true_iff in Hv as [_ Hb]. by rewrite char_length_cont.
  - unfold valid3 in Hv. rewrite !andb_true_iff in Hv. destruct Hv as [[_ Hc] Hb].
    assert (between 128 191 b = true).
    { destruct (code a =? 224)%N; [|destruct (code a =? 237)%N]; by eapply between_cont, Hb. }
    by rewrite !char_length_cont.
  - unfold valid4 in Hv. rewrite !andb_true_iff in Hv. destruct Hv as [[[_ Hc] Hd] Hb].
    assert (between 128 191 b = true).
    { destruct (code a =? 240)%N; [|destruct (code a =? 244)%N]; by eapply between_cont, Hb. }
    by rewrite !char_length_cont.
Qed.

Lemma raw_char_length l : Forall decoded l -> (char_length (raw l) <= Z.of_nat (length l))%Z.
Proof.
  induction 1 as [|r l Hr _ IH]; [done|]. cbn [raw foldr length]. fold (raw l).
  rewrite char_length_app. pose proof (decoded_char r Hr). lia.
Qed.

Lemma encoded_char_length l : Forall decoded l -> (char_length (string_of_runes l) <= Z.of_nat (length l))%Z.
Proof.
  induction 1 as [|r l Hr _ IH]; [done|]. cbn [string_of_runes foldr length]. fold (string_of_runes l).
  rewrite char_length_app. assert (char_length (encode_rune r) <= 1)%Z; [|lia].
  unfold encode_rune. destruct (r_code r =? RuneError)%N; [by vm_compute|by apply decoded_char].
Qed.

Lemma limited_message m : (char_length (limitExternalExecutionMessage m) <= 2048)%Z.
Proof.
  unfold limitExternalExecutionMessage. pose proof (runes_decoded m) as Hd. case_bool_decide as E.
  - pose proof (encoded_char_length (take 2048 (runes m)) (Forall_take _ _ _ Hd)) as Hl.
    rewrite length_take in Hl. lia.
  - pose proof (raw_char_length _ Hd) as Hl. rewrite raw_runes in Hl. lia.
Qed.

Lemma closing_message_limited m fallback :
  (char_length fallback <= 2048)%Z -> (char_length (closing_message m fallback) <= 2048)%Z.
Proof. intros Hf. unfold closing_message. case_bool_decide; [done|]. apply limited_message. Qed.

Section guarantees.
Context `{Crypto} `{PreflightGate} `{SecretResolver} `{EventPreparer} `{UrlParser}.

(** ** The lifecycle *)

Definition execution_rank (st : ExternalExecutionStatus) : nat :=
  match st with StatusQueued => 0 | StatusRunning => 1 | _ => 2 end.

(** What becomes of the row [x]. *)
Definition follows (s s' : xdb) (x x' : ExternalExecution) : Prop :=
  x' ∈ Executions s' /\ keeps x x'
  /\ execution_rank (ee_Status x) <= execution_rank (ee_Status x')
  /\ events_of (ee_ID x) s `prefix_of` events_of (ee_ID x) s'
  /\ (IsTerminal (ee_Status x) = true -> x' = x /\ events_of (ee_ID x) s' = events_of (ee_ID x) s).

Lemma keeps_refl x : keeps x x.
Proof. done. Qed.

Lemma keeps_trans x y z : keeps x y -> keeps y z -> keeps x z.
Proof. intros (?&?&?&?) (?&?&?&?). split_and!; congruence. Qed.

Lemma follows_same s s' x :
  x ∈ Executions s' -> events_of (ee_ID x) s' = events_of (ee_ID x) s -> follows s s' x x.
Proof. intros Hx E. split_and!; [done|done|done|by rewrite E|done]. Qed.

Lemma follows_trans s t s' x y z : follows s t x y -> follows t s' y z -> follows s s' x z.
Proof.
  intros (_ & K1 & R1 & P1 & T1) (Hz & K2 & R2 & P2 & T2).
  assert (ee_ID y = ee_ID x) as Ei by apply K1. rewrite Ei in P2, T2.
  split_and!; [done|by eapply keeps_trans|lia|by etrans|].
  intros Ht. destruct (T1 Ht) as [-> E1]. destruct (T2 Ht) as [-> E2]. split; [done|congruence].
Qed.

Lemma terminal_rank st : IsTerminal st = true -> execution_rank st = 2.
Proof. by destruct st. Qed.

Lemma advance_follows s s' x f v y :
  x_inv s -> advanced s s' x f v -> y ∈ Executions s -> exists y', follows s s' y y'.
Proof.
  intros Hs Ha Hy. destruct (decide (ee_ID y = ee_ID x)) as [E|E].
  - assert (y = x) as ->.
    { apply (execution_unique s); [apply Hs|done| |done]. by apply (adv_in s s' x f v). }
    exists (f x). destruct (adv_set _ _ _ _ _ Ha) as [Es _]. pose proof (adv_open _ _ _ _ _ Ha) as Hopen.
    split_and!.
    + apply (adv_elem s s' x f v Hs Ha). by left.
    + apply Ha.
    + rewrite Es. pose proof (h_status _ _ (x_history s Hs x Hy)) as Hx.
      destruct (adv_status _ _ _ _ _ Ha) as [->|Ht%terminal_rank]; [|rewrite Ht]; destruct (ee_Status x); simpl; try lia; by destruct Hx as [|[|]].
    + rewrite (adv_events_self s s' x f v Ha). by eexists.
    + by rewrite Hopen.
  - exists y. apply follows_same.
    + apply (adv_elem s s' x f v Hs Ha). right. split; [done|by intros ->].
    + apply (adv_events_other s s' x f v Hs Ha); [done|by intros ->].
Qed.

Lemma step_follows s s' y : x_inv s -> x_step s s' -> y ∈ Executions s -> exists y', follows s s' y y'.
Proof.
  intros Hs Hst Hy. destruct (step_change s s' Hs Hst) as [Ex Ht|x Hx Ex Ht|x now n Hr Hq Ht|x f v Ha].
  - exists y. apply follows_same; [by rewrite Ex|by apply events_of_same].
  - exists y. apply follows_same; [rewrite Ex; apply elem_of_app; by left|by apply events_of_same].
  - assert (events_of (ee_ID y) s' = events_of (ee_ID y) s) as Ee by by apply events_of_same.
    pose proof (row_updated_elem s s' x _ (trigger_execution now n x) (x_ids s Hs) Hr) as Hx'.
    destruct (decide (ee_ID y = ee_ID x)) as [E|Hne].
    + apply (execution_unique s) in E as ->; [|apply Hs|done|apply Hr].
      exists (trigger_execution now n x). split_and!; [apply Hx'; by left|apply keeps_trigger| | |].
      * rewrite Hq. simpl. lia.
      * by rewrite Ee.
      * by rewrite Hq.
    + exists y. apply follows_same; [|done]. apply (row_updated_elem s s' x _ y (x_ids s Hs) Hr). right. split; [done|by intros ->].
  - by eapply advance_follows.
Qed.

Lemma steps_follow_execution s s' y :
  x_inv s -> rtc x_step s s' -> y ∈ Executions s -> exists y', follows s s' y y'.
Proof.
  intros Hs Hrt. revert y Hs. induction Hrt as [s|s t s' Hst _ IH]; intros y Hs Hy.
  - exists y. by apply follows_same.
  - destruct (step_follows s t y Hs Hst Hy) as (z & Hz).
    destruct (IH z) as (y' & Hy'); [by eapply inv_change, step_change|apply Hz|].
    exists y'. by eapply follows_trans.
Qed.

(** C24: the lifecycle of an external execution. In every reachable state the
    events of an execution are numbered 1, 2, 3, ... up to its last callback
    sequence, which is at most 256; only the last one can be terminal, and it
    has the status of the row. From there on the row keeps its identity and
    its expected state, its status moves only QUEUED, RUNNING, terminal, its
    history only grows, and once it is terminal neither the row nor its history
    changes again. *)
Theorem external_lifecycle s s' x :
  x_reachable s -> rtc x_step s s' -> x ∈ Executions s ->
  (ee_LastCallbackSequence x <= MaxEventCount)%Z
  /\ xe_Sequence <$> events_of (ee_ID x) s = seqZ 1 (ee_LastCallbackSequence x)
  /\ (forall v, v ∈ events_of (ee_ID x) s -> IsTerminal (xe_Status v) = true -> last (events_of (ee_ID x) s) = Some v)
  /\ (forall v, last (events_of (ee_ID x) s) = Some v -> xe_Status v = ee_Status x)
  /\ (IsTerminal (ee_Status x) = true -> events_of (ee_ID x) s <> [])
  /\ exists x', follows s s' x x'.
Proof.
  intros Hs%x_inv_reachable Hrt Hx. pose proof (x_history s Hs x Hx) as [Hb Hn _ _ _ Hl Ht Ho _].
  split_and!; [lia|done| |done|done|by eapply steps_follow_execution].
  intros v Hv Hterm. destruct (Ho v Hv) as [E|]; [|done]. by rewrite E in Hterm.
Qed.

(** ** Closing an execution *)

Lemma select_execution s x f :
  NoDup (ee_ID <$> Executions s) -> x ∈ Executions s -> (forall y, keeps y (f y)) ->
  head (select_where (execution_where (ee_ID x) (ee_OrganizationID x))
    (update_where (execution_where (ee_ID x) (ee_OrganizationID x)) f (Executions s))) = Some (f x).
Proof.
  intros Hs Hx Hf. set (c := execution_where _ _).
  assert (forall y, y ∈ select_where c (update_where c f (Executions s)) -> y = f x) as Hall.
  { intros y [Hy Hw]%elem_of_select_where. apply elem_of_update_where in Hy as (z & Hz & ->).
    destruct (c z) eqn:Ez; [|congruence]. by apply (execution_where_true s x z) in Ez as ->. }
  assert (f x ∈ select_where c (update_where c f (Executions s))) as Hin.
  { apply elem_of_select_where. split.
    - apply elem_of_update_where. exists x. unfold c. by rewrite execution_where_self.
    - unfold c, execution_where. destruct (Hf x) as (-> & -> & _). by rewrite !bool_decide_eq_true_2. }
  destruct (select_where c (update_where c f (Executions s))) as [|y l]; [by apply elem_of_nil in Hin|].
  simpl. f_equal. apply Hall. by left.
Qed.

Lemma getForUpdate_row s x :
  x_inv s -> x ∈ Executions s -> getExternalExecutionForUpdate (ee_ID x) (ee_OrganizationID x) s = Ok (x, s).
Proof.
  intros Hs Hx. unfold getExternalExecutionForUpdate.
  pose proof (select_execution s x (λ y, y) (x_ids s Hs) Hx (λ y, keeps_refl y)) as Hh.
  rewrite update_where_id in Hh by done. by apply collect_ok.
Qed.

Lemma update_row s t x f :
  x_inv s -> Executions t = Executions s -> x ∈ Executions s -> (forall y, keeps y (f y)) ->
  exists s', update_execution (ee_ID x) (ee_OrganizationID x) f t = Ok (f x, s') /\ f x ∈ Executions s'.
Proof.
  intros Hs Et Hx Hf. pose proof (select_execution s x f (x_ids s Hs) Hx Hf) as Hh. rewrite <- Et in Hh.
  eexists. unfold update_execution. rewrite (proj2 (collect_ok _ _ (f x) _) (conj Hh eq_refl)). split; [done|].
  apply head_elem_of, elem_of_select_where in Hh. apply Hh.
Qed.

(** No event has the next number. *)
Lemma next_event_new s x v :
  x_inv s -> x ∈ Executions s -> v ∈ ExecutionEvents s -> xe_ExternalExecutionID v = ee_ID x ->
  xe_Sequence v <> (ee_LastCallbackSequence x + 1)%Z.
Proof.
  intros Hs Hx Hv E Eq. pose proof (h_numbers _ _ (x_history s Hs x Hx)) as Hn.
  assert (xe_Sequence v ∈ seqZ 1 (ee_LastCallbackSequence x)) as Hin%elem_of_seqZ; [|lia].
  rewrite <- Hn. apply list_elem_of_fmap_2, elem_of_select_where. by rewrite bool_decide_eq_true_2.
Qed.

Lemma close_succeeds env x st m s :
  x_inv s -> x ∈ Executions s -> IsTerminal (ee_Status x) = false -> IsTerminal st = true ->
  (char_length m <= 2048)%Z ->
  exists s', close_with_event env x (ee_ID x) (ee_OrganizationID x) st m s
      = Ok (close_execution (xnow env) st (ee_LastCallbackSequence x + 1)%Z m x, s')
    /\ close_execution (xnow env) st (ee_LastCallbackSequence x + 1)%Z m x ∈ Executions s'.
Proof.
  intros Hs Hx Hopen Hst Hm. pose proof (x_history s Hs x Hx) as Hh.
  pose proof (h_bounds _ _ Hh) as Hb. pose proof (h_room _ _ Hh Hopen) as Hr. unfold MaxEventCount in *.
  unfold close_with_event. rewrite (wrap_next s x Hs Hx). cbn [cb_Sequence cb_Status].
  match goal with |- context [insertExternalExecutionEvent ?r ?o ?h] => set (ev := r); set (hash := h) end.
  assert (insertExternalExecutionEvent ev None hash s
    = Ok (tt, set_execution_events (ExecutionEvents s ++ [request_event ev None hash]) s)) as Hins.
  { unfold insertExternalExecutionEvent. fold (request_event ev None hash).
    assert (event_checks (request_event ev None hash) = true) as ->.
    { unfold event_checks. cbn [request_event ev xe_Sequence xe_Status xe_ProviderReference xe_ProviderURL xe_Message
        cb_Sequence cb_Status cb_ProviderReference cb_ProviderURL cb_Message].
      rewrite Hst, orb_true_r. rewrite !andb_true_iff, !Z.leb_le. simpl (char_length ""). lia. }
    rewrite (proj2 (exists_where_false _ (ExecutionEvents s))).
    2: { intros v Hv. apply andb_false_iff. destruct (bool_decide _) eqn:E; [right|by left].
         apply bool_decide_eq_true in E. apply bool_decide_eq_false. by apply (next_event_new s x). }
    rewrite (proj2 (exists_where_true _ (Executions s))); [done|].
    exists x. split; [done|]. apply execution_where_self. }
  destruct (update_row s (set_execution_events (ExecutionEvents s ++ [request_event ev None hash]) s) x
    (close_execution (xnow env) st (ee_LastCallbackSequence x + 1)%Z m) Hs eq_refl Hx (λ y, keeps_close _ _ _ _ y))
    as (s' & Hup & Hin).
  exists s'. split; [|done]. apply stx_bind_ok. exists tt, s. split.
  { unfold conflict_on. rewrite (proj2 (validate_sequence_ok _ _)); [done|].
    unfold MaxEventCount. split; [lia|]. by rewrite Hst. }
  apply stx_bind_ok. by eexists tt, _.
Qed.

Definition close_request (x : ExternalExecution) (m : string) : CloseExternalExecutionRequest :=
  {| cl_OrganizationID := ee_OrganizationID x; cl_ExternalExecutionID := ee_ID x; cl_Message := m |}.

(** The row of [x] ended with the status [st], a time and a reason. *)
Definition closed (st : ExternalExecutionStatus) (x u : ExternalExecution) (s' : xdb) : Prop :=
  u ∈ Executions s' /\ keeps x u /\ ee_Status u = st /\ ee_CompletedAt u <> None /\ ee_ErrorSummary u <> "".

Lemma close_closed env x st n m s' :
  close_execution (xnow env) st n m x ∈ Executions s' -> m <> "" ->
  closed st x (close_execution (xnow env) st n m x) s'.
Proof. intros Hin Hm. split_and!; [done|done|done| |done]. simpl. by destruct (ee_CompletedAt x). Qed.

Lemma closing_message_nonempty m fallback : fallback <> "" -> closing_message m fallback <> "".
Proof. intros Hf. unfold closing_message. by case_bool_decide. Qed.

(** C25: no execution stays open for ever. In every reachable state an open
    execution is failed by a failed dispatch, whatever the message; it times
    out as soon as its deadline has passed, and not before; and past the
    deadline a new callback for it is refused and closes it as timed out. *)
Theorem external_closable env x s :
  x_reachable s -> x ∈ Executions s -> IsTerminal (ee_Status x) = false ->
  is_nil (ee_OrganizationID x) || is_nil (ee_ID x) = false ->
  (forall m, exists s' u, FailExternalExecution env (close_request x m) s = (Ok u, s') /\ closed StatusFailed x u s')
  /\ (forall m, if (clock env <? ee_CallbackDeadlineAt x)%Z
       then TimeoutExternalExecution env (close_request x m) s
              = (Err (Conflict "external execution callback deadline has not elapsed"), s)
       else exists s' u, TimeoutExternalExecution env (close_request x m) s = (Ok u, s') /\ closed StatusTimedOut x u s')
  /\ (forall request r, (ee_CallbackDeadlineAt x <= clock env)%Z ->
       normalizeExternalExecutionCallback request = Ok r ->
       cb_ExternalExecutionID r = ee_ID x -> cb_OrganizationID r = ee_OrganizationID x ->
       getExternalExecutionEventPayloadHash (ee_ID x) (ee_OrganizationID x) (cb_Sequence r) s = None ->
       exists s' u, RecordExternalExecutionCallback env request s
           = (Err (Conflict "external execution callback deadline has elapsed"), s')
         /\ closed StatusTimedOut x u s').
Proof.
  intros Hs%x_inv_reachable Hx Hopen Hnil. pose proof (getForUpdate_row s x Hs Hx) as Hget. split_and!.
  - intros m. destruct (close_succeeds env x StatusFailed (closing_message m "external execution trigger failed") s)
      as (s' & E & Hin); [done..|by apply closing_message_limited|].
    eexists s', _. split; [|by apply close_closed, closing_message_nonempty]. unfold FailExternalExecution, RunSTx.
    cbn [close_request cl_OrganizationID cl_ExternalExecutionID cl_Message]. rewrite Hnil.
    unfold mbind, stx_bind. rewrite Hget, Hopen, E. reflexivity.
  - intros m. destruct (clock env <? ee_CallbackDeadlineAt x)%Z eqn:Hd.
    + unfold TimeoutExternalExecution, RunSTx.
      cbn [close_request cl_OrganizationID cl_ExternalExecutionID cl_Message]. rewrite Hnil.
      unfold mbind, stx_bind. rewrite Hget, Hopen. unfold scheck. by rewrite Hd.
    + destruct (close_succeeds env x StatusTimedOut (closing_message m timed_out_message) s)
        as (s' & E & Hin); [done..|by apply closing_message_limited|].
      eexists s', _. split; [|by apply close_closed, closing_message_nonempty].
      unfold TimeoutExternalExecution, timeoutExternalExecutionLocked, RunSTx.
      cbn [close_request cl_OrganizationID cl_ExternalExecutionID cl_Message]. rewrite Hnil.
      unfold mbind, stx_bind. rewrite Hget, Hopen. unfold scheck. rewrite Hd, E. reflexivity.
  - intros request r Hd Hn Ei Eo Hnone.
    destruct (close_succeeds env x StatusTimedOut timed_out_message s) as (s' & E & Hin); [done..|].
    eexists s', _. split; [|by apply close_closed]. unfold RecordExternalExecutionCallback. rewrite Hn.
    unfold record_callback, RunSTx. rewrite Ei, Eo. unfold mbind at 1, stx_bind at 1. rewrite Hget.
    unfold callback_on. rewrite Ei, Eo, Hnone, Hopen. apply Z.ltb_ge in Hd. rewrite Hd. cbn [negb].
    unfold timeoutExternalExecutionLocked, mbind, stx_bind. rewrite E. reflexivity.
Qed.

(** ** The task system beside the executions *)

Lemma step_base s s' : x_inv s -> x_step s s' -> base s' = base s \/ task_step (base s) (base s').
Proof.
  intros Hs [env r f res t' Hf E|env r res t' E|env r res t' E|env r res t' E|env r res t' E|b Hb].
  - left. apply prepare_change in E as [->|(x & _ & _ & _ & _ & ->)]; done.
  - left. by apply trigger_change in E as [->|(x & _ & _ & _ & -> & _)].
  - left. apply callback_change in E as [->|(x & f & v & Ha)]; [done|apply Ha|done].
  - left. apply timeout_change in E as [->|(x & v & Ha & _)]; [done|apply Ha|done].
  - left. apply fail_change in E as [->|(x & v & Ha & _)]; [done|apply Ha|done].
  - by right.
Qed.

Lemma base_reachable s : x_reachable s -> reachable (base s).
Proof.
  revert s. apply (rtc_ind_r (λ s, reachable (base s)) x_init); [by apply rtc_refl|].
  - intros t u Ht Hst IH. destruct (step_base t u (x_inv_reachable t Ht) Hst) as [->|Hb]; [done|].
    by eapply rtc_r.
Qed.

(** A task that holds a component is running. *)
Lemma component_holder s org task target c :
  reachable (base s) -> owns_component_lock org task target c s = true ->
  exists t, t ∈ Tasks (base s) /\ task_ID t = task /\ task_OrganizationID t = org /\ task_Status t = TaskStatusRunning.
Proof.
  intros Hr%sys_inv_reachable%sys_tasks (l & Hl & Hw)%exists_where_true. to_prop.
  destruct (inv_locks _ Hr l Hl) as (t & Ht & [Ei Eo] & Hok). exists t.
  split_and!; [done|congruence|congruence|].
  match goal with H : is_null (lock_AcquiredAt l) = false |- _ => rename H into Ha end.
  match goal with H : is_null (lock_ReleasedAt l) = true |- _ => apply is_null_true in H; rename H into Hrel end.
  destruct (task_Status t); simpl in Hok; try done. destruct Hok as [E _]. by rewrite E in Ha.
Qed.

(** ** What a success attests *)

(** C23: what a success attests. When a callback that reports SUCCEEDED is
    recorded for the first time, the execution was open and its deadline had
    not passed, the state the executor observed is the one that the plan froze,
    the task of the execution is running and holds the component, the state of
    the component moved by compare-and-set from the expected version to the
    next one and is appended to the observations, and no other success of this
    component from the same version exists. *)
Theorem external_success_attested env request s u s' :
  x_reachable s -> RecordExternalExecutionCallback env request s = (Ok u, s') ->
  cb_Status request = StatusSucceeded ->
  getExternalExecutionEventPayloadHash (cb_ExternalExecutionID request) (cb_OrganizationID request)
    (cb_Sequence request) s = None ->
  exists x o t, x ∈ Executions s /\ ee_ID x = cb_ExternalExecutionID request
    /\ IsTerminal (ee_Status x) = false /\ (clock env < ee_CallbackDeadlineAt x)%Z
    /\ u ∈ Executions s' /\ keeps x u /\ ee_Status u = StatusSucceeded
    /\ cb_ObservedState (normalize_fields request) = Some o /\ attests o x
    /\ t ∈ Tasks (base s) /\ task_ID t = ee_TaskID x /\ task_Status t = TaskStatusRunning
    /\ owns_component_lock (ee_OrganizationID x) (ee_TaskID x) (ee_DeploymentTargetID x) (ee_Component x) s = true
    /\ projected x (attested_row (xnow env) x o) s s'
    /\ Observations s' = Observations s ++ [{| ob_State := attested_row (xnow env) x o; ob_ExternalExecutionID := ee_ID x |}]
    /\ (forall y, y ∈ Executions s' -> ee_Status y = StatusSucceeded -> component_scope y = component_scope u ->
          ee_ExpectedStateVersion y = ee_ExpectedStateVersion u -> y = u).
Proof.
  intros Hr E Hst Hnone. pose proof (x_inv_reachable s Hr) as Hs.
  apply callback_cases in E as [(e & ? & _)|(r & x & Hn & Hx & Hi & Ho & Hcase)]; [done| |done].
  apply normalize_ok in Hn as (-> & Hcb & _). change (cb_Status request) with (cb_Status (normalize_fields request)) in *.
  destruct Hcase as [(Eh & _)|(_ & u' & late & E & Eres)]; [discriminate (eq_trans (eq_sym Hnone) Eh)|].
  destruct late; [done|]. injection Eres as <-.
  apply callback_advanced in E as (Hopen & Hd & (sum & v & Ha & -> & _ & Ev) & Hobs); [|done..].
  destruct (Hobs Hst) as (o & Eo & _ & Hat & Hlock & Hp & Hob).
  destruct (component_holder s _ _ _ _ (base_reachable s Hr) Hlock) as (t & Ht & Et & _ & Hrun).
  assert (callback_execution (xnow env) x (normalize_fields request) sum x ∈ Executions s') as Hin
    by (apply (adv_elem s s' x _ v Hs Ha); by left).
  exists x, o, t. repeat (split; [first [done|apply keeps_callback]|]).
  intros y Hy Hsy Esc Ever. apply (x_single s' (inv_advanced s s' x _ v Hs Ha)); done.
Qed.

(** ** Repeated callbacks *)

Lemma hash_of_event s x v :
  x_inv s -> x ∈ Executions s -> v ∈ events_of (ee_ID x) s ->
  getExternalExecutionEventPayloadHash (ee_ID x) (ee_OrganizationID x) (xe_Sequence v) s = Some (xe_PayloadHash v).
Proof.
  intros Hs Hx Hv. pose proof (x_history s Hs x Hx) as Hh. unfold getExternalExecutionEventPayloadHash.
  set (l := select_where _ _). assert (forall w, w ∈ l <-> w = v) as Hl.
  { intros w. unfold l. rewrite elem_of_select_where. rewrite !andb_true_iff, !bool_decide_eq_true. split.
    - intros (Hw & [Ei _] & Eq). apply (NoDup_fmap_elem xe_Sequence (events_of (ee_ID x) s)); [|by apply elem_of_select_where; rewrite bool_decide_eq_true_2|done..].
      rewrite (h_numbers _ _ Hh). apply NoDup_seqZ.
    - intros ->. pose proof Hv as [Hin Ei]%elem_of_select_where. apply bool_decide_eq_true in Ei.
      split_and!; [done..|by apply (h_org _ _ Hh)|done]. }
  destruct l as [|w l']; [by destruct (proj1 (elem_of_nil v) (proj2 (Hl v) eq_refl))|].
  simpl. f_equal. f_equal. apply Hl. by left.
Qed.

(** A callback that was accepted is in the history. *)
Lemma callback_recorded env request s u s' :
  x_inv s -> RecordExternalExecutionCallback env request s = (Ok u, s') ->
  u ∈ Executions s' /\ ee_ID u = cb_ExternalExecutionID request /\ ee_OrganizationID u = cb_OrganizationID request
  /\ exists v, v ∈ events_of (ee_ID u) s' /\ xe_Sequence v = cb_Sequence request
       /\ xe_PayloadHash v = CallbackPayloadHash (normalize_fields request).
Proof.
  intros Hs E. apply callback_cases in E as [(e & ? & _)|(r & x & Hn & Hx & Hi & Ho & Hcase)]; [done| |done].
  apply normalize_ok in Hn as (-> & Hcb & _). destruct Hcase as [(Eh & [= ->] & ->)|(Hnone & u' & late & E & Eres)].
  - split_and!; [done..|]. unfold getExternalExecutionEventPayloadHash in Eh.
    destruct (head _) as [v|] eqn:Ev; [|done]. apply head_elem_of, elem_of_select_where in Ev as [Hv Hw].
    to_prop. exists v. injection Eh as Eh. split_and!; [|done|done].
    apply elem_of_select_where. split; [done|]. apply bool_decide_eq_true. congruence.
  - destruct late; [done|]. injection Eres as <-.
    apply callback_advanced in E as (Hopen & Hd & (sum & v & Ha & -> & Eh & Ev) & _); [|done..].
    split_and!; [apply (adv_elem s s' x _ v Hs Ha); by left|done|done|]. exists v.
    change (ee_ID (callback_execution (xnow env) x (normalize_fields request) sum x)) with (ee_ID x).
    rewrite (adv_events_self s s' x _ v Ha). split_and!; [apply elem_of_app; right; by left| |done].
    by destruct (adv_set _ _ _ _ _ Ha).
Qed.

(** C26: callbacks can be repeated. Once a callback was accepted, in every
    later state the same callback is answered with the current row of the
    execution and changes nothing, and a callback with its number but another
    content is refused and changes nothing, also after the execution ended or
    its deadline passed. *)
Theorem external_callback_replay env request s u s' t env' :
  x_reachable s -> RecordExternalExecutionCallback env request s = (Ok u, s') -> rtc x_step s' t ->
  exists u', follows s' t u u' /\ RecordExternalExecutionCallback env' request t = (Ok u', t)
    /\ forall other r, normalizeExternalExecutionCallback other = Ok r ->
         cb_ExternalExecutionID r = cb_ExternalExecutionID request ->
         cb_OrganizationID r = cb_OrganizationID request -> cb_Sequence r = cb_Sequence request ->
         CallbackPayloadHash r <> CallbackPayloadHash (normalize_fields request) ->
         RecordExternalExecutionCallback env' other t
           = (Err (Conflict "external execution callback sequence already has a different payload"), t).
Proof.
  intros Hr%x_inv_reachable E Hrt. pose proof E as Erec.
  pose proof (inv_change s s' Hr (step_change s s' Hr (x_callback s env request _ s' E))) as Hs'.
  apply callback_recorded in E as (Hu & Ei & Eo & v & Hv & Eseq & Ehash); [|done].
  destruct (steps_follow_execution s' t u Hs' Hrt Hu) as (u' & Hf). exists u'. split; [done|].
  destruct Hf as (Hu' & (Ki & Ko & _) & _ & Hpre & _). pose proof (x_inv_steps s' t Hs' Hrt) as Ht.
  assert (v ∈ events_of (ee_ID u') t) as Hvt by (rewrite Ki; by eapply elem_of_prefix).
  pose proof (hash_of_event t u' v Ht Hu' Hvt) as Hash. pose proof (getForUpdate_row t u' Ht Hu') as Hget.
  rewrite Ki, Ko, Ei, Eo, Eseq, Ehash in Hash. rewrite Ki, Ko, Ei, Eo in Hget.
  assert (normalizeExternalExecutionCallback request = Ok (normalize_fields request)) as Hn.
  { unfold RecordExternalExecutionCallback in Erec. destruct (normalizeExternalExecutionCallback request) as [r|] eqn:En; [|done].
    by apply normalize_ok in En as (-> & _). }
  assert (forall other r, normalizeExternalExecutionCallback other = Ok r ->
    cb_ExternalExecutionID r = cb_ExternalExecutionID request -> cb_OrganizationID r = cb_OrganizationID request ->
    cb_Sequence r = cb_Sequence request ->
    RecordExternalExecutionCallback env' other t
    = if bool_decide (CallbackPayloadHash (normalize_fields request) = CallbackPayloadHash r) then (Ok u', t)
      else (Err (Conflict "external execution callback sequence already has a different payload"), t)) as Hcall.
  { intros other r En Fi Fo Fs. unfold RecordExternalExecutionCallback. rewrite En. unfold record_callback, RunSTx.
    unfold mbind, stx_bind. rewrite Fi, Fo, Hget. unfold callback_on. rewrite Fi, Fo, Fs, Hash.
    by destruct (bool_decide _). }
  split.
  - rewrite (Hcall request (normalize_fields request) Hn eq_refl eq_refl eq_refl).
    by rewrite (bool_decide_eq_true_2 _ eq_refl).
  - intros other r En Fi Fo Fs Hne. rewrite (Hcall other r En Fi Fo Fs). rewrite bool_decide_eq_false_2; [reflexivity|].
    intros Eq. by apply Hne.
Qed.
End guarantees.

(** ** A concrete run *)

Module ExternalDemo.
Import TaskGuarantees.Demo.

#[export] Instance urls : UrlParser := {| ParseRequestURI := λ _, None |}.

Definition plan_x : DeploymentPlan :=
  {| plan_ID := plan_ID plan; plan_OrganizationID := org; plan_Status := PlanReady;
     plan_ApplicationID := plan_ApplicationID plan; plan_ReleaseBundleID := plan_ReleaseBundleID plan;
     plan_ChannelID := plan_ChannelID plan; plan_EnvironmentID := plan_EnvironmentID plan;
     plan_Targets := plan_Targets plan;
     plan_TargetComponents := [{| pc_DeploymentPlanTargetID := uid 21; pc_DeploymentTargetID := target 1;
                                  pc_Component := "web" |}];
     plan_Steps := plan_Steps plan |}.

(** The task of target 1 holds its component "web". *)
Definition b0 : db := set_bundles [bundle] (set_plans [plan_x] init).
Definition b1 : db := snd (CreateTasksForDeploymentPlan (env 1) (create_request PolicyQueue) b0).
Definition b2 : db := snd (LeaseAgentTask (env 2) (agent_request 1) b1).

Definition source (step : N) (version : Z) : externalExecutionSource :=
  {| src_OrganizationID := org; src_StepRunID := uid step; src_TaskID := uid 101;
     src_TaskStatus := TaskStatusRunning; src_DeploymentPlanID := uid 2; src_DeploymentPlanTargetID := uid 21;
     src_DeploymentTargetID := target 1; src_ApplicationID := uid 3; src_ReleaseBundleID := uid 4;
     src_ActionType := "distr.webhook"; src_Component := "web"; src_PlanChecksum := "plan";
     src_ExpectedStateVersion := version; src_ExpectedStateChecksum := ""; src_ExpectedVersion := "1.2.3";
     src_ExpectedImage := "Registry/web"; src_ExpectedPlatform := "linux/amd64";
     src_ExpectedContracts := ["b"; "a"]; src_ExpectedConfigChecksum := "cfg" |}.
Definition facts (step : N) : plan_facts :=
  {| pf_source := Ok (source step 0); pf_preflight_failure := Ok None; pf_config_reference := Ok "config";
     pf_compose_reference := Ok "compose"; pf_compose_checksum := "sum"; pf_new_id := uid (700 + step) |}.

Definition xe (time : Z) : xenv := {| xnow := time; clock := time |}.
Definition prepare_request (step : N) : PrepareExternalExecutionRequest :=
  {| pr_OrganizationID := org; pr_StepRunID := uid step; pr_Component := " web "; pr_CallbackTimeoutSeconds := 60 |}.
Definition trigger_request : MarkExternalExecutionTriggeredRequest :=
  {| mt_OrganizationID := org; mt_ExternalExecutionID := uid 901; mt_TriggerAttempts := 1 |}.
Definition observed : ExternalExecutionObservedState :=
  {| os_Version := "1.2.3"; os_Image := "registry/web"; os_Platform := "linux/amd64"; os_Contracts := Some ["a"; "b"];
     os_ConfigReference := "config"; os_ConfigChecksum := "cfg"; os_Health := "HEALTHY" |}.
Definition callback (n : Z) (st : ExternalExecutionStatus) (o : option ExternalExecutionObservedState)
    : RecordExternalExecutionCallbackRequest :=
  {| cb_OrganizationID := org; cb_ExternalExecutionID := uid 901; cb_Sequence := n; cb_Status := st;
     cb_ProviderReference := " run 7 "; cb_ProviderURL := ""; cb_Message := "deploying"; cb_ObservedState := o |}.

Definition with_base (b : db) (s : xdb) : xdb :=
  {| base := b; Executions := Executions s; ExecutionEvents := ExecutionEvents s;
     ComponentStates := ComponentStates s; Observations := Observations s |}.
Definition x0 : xdb := with_base b2 x_init.
Definition x1 : xdb := snd (PrepareExternalExecution (xe 3) (prepare_request 201) (facts 201) x0).
Definition x2 : xdb := snd (MarkExternalExecutionTriggered (xe 4) trigger_request x1).
Definition running_callback := callback 1 StatusRunning None.
Definition success_callback := callback 2 StatusSucceeded (Some observed).
Definition x3 : xdb := snd (RecordExternalExecutionCallback (xe 5) running_callback x2).
Definition x4 : xdb := snd (RecordExternalExecutionCallback (xe 6) success_callback x3).

Lemma b2_reachable : reachable b2.
Proof.
  eapply reachable_step; [eapply reachable_step; [apply rtc_l with (set_plans [plan_x] init);
    [apply step_plans|apply rtc_once, step_bundles]|]|].
  - eapply (step_create _ (env 1) (create_request PolicyQueue)); [by apply fresh_env_check|apply surjective_pairing].
  - eapply (step_lease_agent _ (env 2) (agent_request 1)), surjective_pairing.
Qed.

Lemma tasks_reachable b c s : rtc task_step b c -> rtc x_step (with_base b s) (with_base c s).
Proof.
  induction 1 as [|b c d Hb _ IH]; [done|]. eapply rtc_l; [|exact IH].
  by apply (x_task (with_base b s) c).
Qed.

Lemma x0_reachable : x_reachable x0.
Proof. apply (tasks_reachable init b2 x_init), b2_reachable. Qed.

Lemma x_then s s' : x_reachable s -> x_step s s' -> x_reachable s'.
Proof. intros H1 H2. by eapply rtc_r. Qed.

Lemma x2_reachable : x_reachable x2.
Proof.
  eapply x_then; [eapply x_then; [apply x0_reachable|]|].
  - eapply (x_prepare _ (xe 3) (prepare_request 201) (facts 201)); [|apply surjective_pairing].
    by intros src [= <-].
  - eapply (x_trigger _ (xe 4) trigger_request), surjective_pairing.
Qed.

Lemma x23 : x_step x2 x3.
Proof. eapply (x_callback _ (xe 5) running_callback), surjective_pairing. Qed.
Lemma x34 : x_step x3 x4.
Proof. eapply (x_callback _ (xe 6) success_callback), surjective_pairing. Qed.

Definition row (s : xdb) : ExternalExecution :=
  match Executions s with x :: _ => x | [] => new_execution (xe 3) (prepare_request 201) (facts 201) (source 201 0) "" "" end.
End ExternalDemo.

(** ** Witnesses *)

Section witnesses.
Import TaskGuarantees.Demo ExternalDemo.

Lemma external_lifecycle_witness :
  exists x', x' ∈ Executions x4 /\ ee_ID x' = ee_ID (row x2) /\ execution_rank StatusRunning <= execution_rank (ee_Status x').
Proof.
  destruct (external_lifecycle x2 x4 (row x2) x2_reachable (rtc_l _ _ _ _ x23 (rtc_once _ _ x34)))
    as (_ & _ & _ & _ & _ & x' & Hx' & (Ki & _) & Hr & _).
  - vm_compute. by left.
  - exists x'. split_and!; [done..|]. exact Hr.
Defined.

Lemma external_closable_witness :
  exists s' u, FailExternalExecution (xe 9) (close_request (row x2) "broken") x2 = (Ok u, s')
    /\ closed StatusFailed (row x2) u s'.
Proof.
  destruct (external_closable (xe 9) (row x2) x2 x2_reachable) as [Hf _]; [| | |apply Hf].
  - vm_compute. by left.
  - by vm_compute.
  - by vm_compute.
Defined.

Lemma external_success_attested_witness :
  exists x t, ee_ID x = uid 901 /\ t ∈ Tasks (base x3) /\ task_ID t = ee_TaskID x /\ task_Status t = TaskStatusRunning.
Proof.
  destruct (external_success_attested (xe 6) success_callback x3 (row x4) x4 (x_then _ _ x2_reachable x23))
    as (x & o & t & _ & Ei & _ & _ & _ & _ & _ & _ & _ & Ht & Et & Hr & _).
  - by vm_compute.
  - done.
  - by vm_compute.
  - by exists x, t.
Defined.

Lemma external_callback_replay_witness :
  exists u', u' ∈ Executions x4 /\ RecordExternalExecutionCallback (xe 100000000) running_callback x4 = (Ok u', x4).
Proof.
  destruct (external_callback_replay (xe 5) running_callback x2 (row x3) x3 x4 (xe 100000000) x2_reachable)
    as (u' & (Hu & _) & Hr & _).
  - by vm_compute.
  - apply rtc_once, x34.
  - exact (ex_intro _ u' (conj Hu Hr)).
Defined.
End witnesses.
