(* ===== verification/TimestampCanonical.v ===== *)
(** * External execution timestamps: canonical forms
    ([externalexecutiontimestamp/canonical.go], [types/external_execution_timestamp.go])

    The raw wall clocks of the timestamp columns, the encoding of cells, sets
    of cells and of the identity of the database under a checksum, and the
    conversion of a wall clock with an explicit offset into an instant. *)
From S2P Require Import Prelude GoStrings GoTime Uuid TaskStore.
From Stdlib Require Import Ascii.
Open Scope list_scope.
#[local] Open Scope Z_scope.

(** ** Data *)

Definition RawWallLayout : string := "2006-01-02T15:04:05.000000".
Definition InstantLayout : string := "2006-01-02T15:04:05.000000Z".
Definition ConversionExpressionVersion : string := "external-execution-offset/v1".
Definition rawCellDomain : string := "distr.external-execution-timestamp/raw-cell/v1".
Definition rawSetDomain : string := "distr.external-execution-timestamp/raw-set/v1".
Definition databaseIdentityDomain : string := "distr.external-execution-timestamp/database-identity/v1".

(** [ColumnOrdinal] is a [uint8]. *)
Record RawCell := {
  cell_SourceTable : string; cell_SourceRowID : uuid; cell_SourceColumn : string; cell_ColumnOrdinal : Z;
  cell_RawValue : option string; cell_RawCellChecksum : string }.

Record rawCellKey := { key_table : string; key_rowID : string; key_ordinal : Z }.
#[export] Instance rawCellKey_eq_dec : EqDecision rawCellKey.
Proof. solve_decision. Defined.
#[export] Instance rawCellKey_countable : Countable rawCellKey.
Proof.
  refine (inj_countable' (λ k, (key_table k, key_rowID k, key_ordinal k))
    (λ '(t, r, o), {| key_table := t; key_rowID := r; key_ordinal := o |}) _). by intros [].
Defined.

(** ** Texts *)

(** [strings.ToLower] as far as it can give an ASCII text: besides the ASCII
    letters, the Kelvin sign and the dotted capital I have an ASCII lower case. *)
Fixpoint lower_name (s : string) : string :=
  match s with
  | String a (String b r as r1) =>
      if bool_decide (code a = 196%N /\ code b = 176%N) then String "i" (lower_name r) else
      match r with
      | String c r' =>
          if bool_decide (code a = 226%N /\ code b = 132%N /\ code c = 170%N) then String "k" (lower_name r')
          else String (lower_ascii a) (lower_name r1)
      | EmptyString => String (lower_ascii a) (lower_name r1)
      end
  | String a EmptyString => String (lower_ascii a) ""
  | EmptyString => ""
  end.

Definition lower_hex_char (a : ascii) : bool :=
  let n := code a in ((48 <=? n)%N && (n <=? 57)%N) || ((97 <=? n)%N && (n <=? 102)%N).
Definition lower_hex_text (n : nat) (s : string) : bool :=
  bool_decide (String.length s = n) && forallb lower_hex_char (String.list_ascii_of_string s).

(** [^sha256:[0-9a-f]{64}$] *)
Definition checksumPattern (s : string) : bool :=
  String.prefix "sha256:" s && lower_hex_text 64 (String.substring 7 (String.length s - 7) s).

(** ** The encoding *)

Definition byte_at (n shift : Z) : ascii := ascii_of_N (Z.to_N (Z.shiftr n shift mod 256)).
(** [binary.BigEndian.PutUint32] of [uint32(n)] *)
Definition PutUint32 (n : Z) : string :=
  let n := n mod 2 ^ 32 in
  String (byte_at n 24) (String (byte_at n 16) (String (byte_at n 8) (String (byte_at n 0) ""))).

(** What is written to the buffer. *)
Definition writeField (value : string) : string := PutUint32 (len value) +:+ value.

Definition write_option (value : option string) : string :=
  match value with None => writeField "NULL" | Some v => writeField "VALUE" +:+ writeField v end.
Definition writeOptionalString (value : string) : string := write_option (if bool_decide (value = "") then None else Some value).
Definition writeOptionalUUID (value : option uuid) : result string string :=
  match value with
  | None => Ok (writeField "NULL")
  | Some u => if is_nil u then Err "optional UUID cannot be nil UUID"
              else Ok (writeField "VALUE" +:+ writeField (uuid_string u))
  end.
Definition writeOptionalInt32 (value : option Z) : string := write_option (itoa <$> value).
Definition writeOptionalPointerString (value : option string) : string := write_option value.

(** ** Cells *)

(** [cellOrdinals] *)
Definition cellOrdinals (table column : string) : option Z :=
  if bool_decide (table = "externalexecution") then
    if bool_decide (column = "created_at") then Some 1%Z else if bool_decide (column = "updated_at") then Some 2%Z else
    if bool_decide (column = "started_at") then Some 3%Z else if bool_decide (column = "completed_at") then Some 4%Z else
    if bool_decide (column = "callback_deadline_at") then Some 5%Z else None
  else if bool_decide (table = "externalexecutionevent") then
    if bool_decide (column = "created_at") then Some 6%Z else None
  else None.
Definition known_table (table : string) : bool :=
  contains ["externalexecution"; "externalexecutionevent"] table.

Definition wall_ok (value : option string) : bool :=
  match value with Some v => match parse_wall v with Some _ => true | None => false end | None => true end.

Definition rawKey (c : RawCell) : result string rawCellKey :=
  let table := lower_name (cell_SourceTable c) in
  let column := lower_name (cell_SourceColumn c) in
  if negb (known_table table) then Err ("raw cell table " +:+ quote (cell_SourceTable c) +:+ " is not in allowlist") else
  if negb (bool_decide (cellOrdinals table column = Some (cell_ColumnOrdinal c)))
  then Err ("raw cell " +:+ cell_SourceTable c +:+ "." +:+ cell_SourceColumn c +:+ " ordinal " +:+ itoa (cell_ColumnOrdinal c)
            +:+ " is not in allowlist") else
  if is_nil (cell_SourceRowID c) then Err "raw cell source row id cannot be nil UUID" else
  if negb (wall_ok (cell_RawValue c)) then Err ("raw wall value must use " +:+ RawWallLayout) else
  Ok {| key_table := table; key_rowID := uuid_string (cell_SourceRowID c); key_ordinal := cell_ColumnOrdinal c |}.

Definition rawCellKeyLess (l r : rawCellKey) : bool :=
  if negb (bool_decide (key_table l = key_table r)) then string_less (key_table l) (key_table r) else
  if negb (bool_decide (key_rowID l = key_rowID r)) then string_less (key_rowID l) (key_rowID r) else
  (key_ordinal l <? key_ordinal r)%Z.

Definition CanonicalRawCell (c : RawCell) : result string string :=
  rawKey c ≫= λ key,
  Ok (writeField rawCellDomain +:+ writeField (key_table key) +:+ writeField (key_rowID key)
      +:+ writeField (lower_name (cell_SourceColumn c)) +:+ writeField (itoa (cell_ColumnOrdinal c))
      +:+ write_option (cell_RawValue c)).

Definition key_text (k : rawCellKey) : string := key_table k +:+ "/" +:+ key_rowID k +:+ "/" +:+ itoa (key_ordinal k).

Fixpoint concat_texts (l : list string) : string := match l with [] => "" | s :: l => s +:+ concat_texts l end.

(** The loop over a sorted list that compares neighbours. *)
Fixpoint duplicate_neighbour {A} `{EqDecision A} (l : list A) : option A :=
  match l with
  | x :: (y :: _) as t => if bool_decide (x = y) then Some y else duplicate_neighbour t
  | _ => None
  end.

Section checksums.
Context `{Crypto}.

Definition checksum (data : string) : string := "sha256:" +:+ sha256_hex data.

Definition ComputeRawCellChecksum (c : RawCell) : result string string := checksum <$> CanonicalRawCell c.

(** The keys and checksums of the cells; an error names the index. *)
Fixpoint canonical_cells (i : nat) (l : list RawCell) : result string (list (rawCellKey * string)) :=
  match l with
  | [] => Ok []
  | c :: l =>
      match rawKey c with
      | Err e => Err ("raw cell " +:+ itoa (Z.of_nat i) +:+ ": " +:+ e)
      | Ok key =>
          match ComputeRawCellChecksum c with
          | Err e => Err ("raw cell " +:+ itoa (Z.of_nat i) +:+ ": " +:+ e)
          | Ok sum => canonical_cells (S i) l ≫= λ rest, Ok ((key, sum) :: rest)
          end
      end
  end.

Definition sort_cells {B} (l : list (rawCellKey * B)) : list (rawCellKey * B) :=
  stable_sort (λ x y, rawCellKeyLess x.1 y.1) l.

Definition ComputeRawSetChecksum (cells : list RawCell) : result string string :=
  canonical_cells 0 cells ≫= λ l,
  let sorted := sort_cells l in
  match duplicate_neighbour (fst <$> sorted) with
  | Some k => Err ("duplicate raw cell " +:+ key_text k)
  | None => Ok (checksum (writeField rawSetDomain +:+ writeField (itoa (Z.of_nat (length sorted)))
                          +:+ concat_texts (writeField ∘ snd <$> sorted)))
  end.

(** The bytes of an identifier. *)
Definition uuid_raw (u : uuid) : string := foldr (λ n s, String (ascii_of_N n) s) "" (uuid_bytes u).

Definition canonicalIDs (kind : string) (ids : list uuid) : result string (list uuid) :=
  if existsb is_nil ids then Err ("nil " +:+ kind +:+ " id") else
  let sorted := stable_sort (less_str_by uuid_raw) ids in
  match duplicate_neighbour sorted with
  | Some u => Err ("duplicate " +:+ kind +:+ " id " +:+ uuid_string u)
  | None => Ok sorted
  end.

Definition ComputeDatabaseIdentityChecksum (sourceVersion : Z) (executionIDs eventIDs : list uuid) (rawCellCount : Z)
    (rawSetChecksum : string) : result string string :=
  if negb (checksumPattern rawSetChecksum) then Err "raw set checksum must use lowercase sha256 format" else
  canonicalIDs "execution" executionIDs ≫= λ executions : list uuid,
  canonicalIDs "event" eventIDs ≫= λ events : list uuid,
  Ok (checksum (writeField databaseIdentityDomain +:+ writeField (itoa sourceVersion)
      +:+ writeField (itoa (Z.of_nat (length executions))) +:+ concat_texts (writeField ∘ uuid_string <$> executions)
      +:+ writeField (itoa (Z.of_nat (length events))) +:+ concat_texts (writeField ∘ uuid_string <$> events)
      +:+ writeField (itoa rawCellCount) +:+ writeField rawSetChecksum)).
End checksums.

(** ** Instants *)

Definition ParseInstant (value : string) : result string Z :=
  let n := String.length value in
  match parse_wall (String.substring 0 (n - 1) value) with
  | Some t => if bool_decide (String.substring (n - 1) 1 value = "Z") then Ok t else Err ("instant must use " +:+ InstantLayout)
  | None => Err ("instant must use " +:+ InstantLayout)
  end.

Definition FormatInstant (value : Z) : string := format_wall value +:+ "Z".

(** [offsetSeconds] is an [int32]. *)
Definition ConvertWallClock (raw : string) (offsetSeconds : Z) : result string Z :=
  if (offsetSeconds <? -64800)%Z || (64800 <? offsetSeconds)%Z then Err "offset seconds must be between -64800 and 64800" else
  match parse_wall raw with
  | Some t => Ok (t - offsetSeconds * 1000000000)%Z
  | None => Err ("raw wall value must use " +:+ RawWallLayout)
  end.

Example conversions :
  ParseInstant "2024-01-01T00:30:00.000001Z" = Ok 1704069000000001000%Z
  /\ FormatInstant <$> ConvertWallClock "2024-01-01T00:30:00.000001" 3600 = Ok "2023-12-31T23:30:00.000001Z"
  /\ ConvertWallClock "2024-01-01T00:30:00.000001" 64801 = Err "offset seconds must be between -64800 and 64800"
  /\ is_ok (ParseInstant "2024-01-01T00:30:00.000001") = false /\ is_ok (ParseInstant "") = false.
Proof. vm_compute. done. Qed.
