(* ===== verification/TimestampManifest.v ===== *)
(** * External execution timestamps: manifests
    ([externalexecutiontimestamp/manifest.go], [seal.go])

    A manifest decides for every timestamp cell of a snapshot which instant it
    means. The problems of a document are the messages of its validation; a
    manifest that supersedes another one keeps what was resolved; sealing turns
    a valid draft into an approved manifest. Values are immutable here, so the
    deep copy of [cloneManifest] is the value itself. Where Go ranges over a
    map, the problems come in the order of the keys of a [gmap]; the order of a
    Go map is not defined. *)
From S2P Require Import Prelude GoStrings GoTime Uuid TaskStore TimestampCanonical.
From Stdlib Require Import Ascii.
Open Scope list_scope.
#[local] Open Scope Z_scope.

(** ** Data *)

Definition DecisionProven : string := "PROVEN".
Definition DecisionAttested : string := "ATTESTED".
Definition DecisionUnresolved : string := "UNRESOLVED".
Definition DecisionNull : string := "NULL_VALUE".

Definition StateDraft : string := "DRAFT".
Definition StateApproved : string := "APPROVED".
Definition StateApplied : string := "APPLIED".
Definition StateVerified : string := "VERIFIED".
Definition StateRevokedBeforeApply : string := "REVOKED_BEFORE_APPLY".

Record CellDecision := {
  dec_Raw : RawCell; dec_Decision : string; dec_SourceZone : string; dec_SourceOffsetSeconds : option Z;
  dec_ConvertedValue : option string; dec_EvidenceReference : string; dec_EvidenceChecksum : string;
  dec_ApprovingIdentity : string; dec_ConversionExpressionVersion : string }.

(** The counts are [uint64]. *)
Record Manifest := {
  man_ID : uuid; man_SupersedesManifestID : option uuid; man_DatabaseIdentityChecksum : string;
  man_SourceSchemaVersion : Z; man_SnapshotStartedAt : string; man_SnapshotEndedAt : string; man_ExecutionCount : Z;
  man_EventCount : Z; man_RawCellCount : Z; man_PopulatedCellCount : Z; man_RawCellChecksum : string;
  man_EvidenceBundleReference : string; man_EvidenceBundleChecksum : string; man_ToolVersion : string;
  man_ConversionExpressionVersion : string; man_AuthorIdentity : string; man_ReviewerIdentity : string;
  man_ApprovedAt : string; man_TargetReleaseCommit : string; man_TargetImageDigest : string; man_State : string;
  man_DecisionContentChecksum : string; man_Cells : list CellDecision }.

Definition cellDecisionDomain : string := "distr.external-execution-timestamp/cell-decision/v1".
Definition manifestDecisionDomain : string := "distr.external-execution-timestamp/manifest-decision/v1".

(** [^[0-9a-f]{40}$] *)
Definition commitPattern (s : string) : bool := lower_hex_text 40 s.

Definition maximumUint64 : Z := 2 ^ 64 - 1.

Definition problem_if (c : bool) (message : string) : list string := if c then [message] else [].
(** [%v] of an error. *)
Definition error_of {A} (prefix : string) (r : result string A) : list string :=
  match r with Ok _ => [] | Err e => [prefix +:+ e] end.
Definition index_text (i : nat) : string := itoa (Z.of_nat i).
Definition blank_field (s : string) : bool := bool_decide (TrimSpace s = "").

(** ** Checksums of decisions *)

Section manifests.
Context `{Crypto}.

(** What is hashed of a decision. *)
Definition decision_buffer (c : CellDecision) : string :=
  writeField cellDecisionDomain +:+ writeField (cell_RawCellChecksum (dec_Raw c)) +:+ writeField (dec_Decision c)
  +:+ writeOptionalString (dec_SourceZone c) +:+ writeOptionalInt32 (dec_SourceOffsetSeconds c)
  +:+ writeOptionalPointerString (dec_ConvertedValue c) +:+ writeOptionalString (dec_EvidenceReference c)
  +:+ writeOptionalString (dec_EvidenceChecksum c) +:+ writeOptionalString (dec_ApprovingIdentity c)
  +:+ writeField (dec_ConversionExpressionVersion c).

Definition converted_instant (c : CellDecision) : result string unit :=
  match dec_ConvertedValue c with
  | None => Ok tt
  | Some v => match ParseInstant v with Ok _ => Ok tt | Err e => Err ("converted value: " +:+ e) end
  end.

Definition ComputeCellDecisionChecksum (c : CellDecision) : result string string :=
  if negb (checksumPattern (cell_RawCellChecksum (dec_Raw c))) then Err "raw cell checksum must use lowercase sha256 format" else
  converted_instant c ≫= λ _, Ok (checksum (decision_buffer c)).

(** The key and checksum of a decision, with the index in an error. *)
Definition canonicalCellDecision (i : nat) (c : CellDecision) : result string (rawCellKey * string) :=
  match rawKey (dec_Raw c) ≫= λ key, ComputeCellDecisionChecksum c ≫= λ sum, Ok (key, sum) with
  | Ok x => Ok x
  | Err e => Err ("cell " +:+ index_text i +:+ ": " +:+ e)
  end.
Fixpoint canonical_decisions (i : nat) (l : list CellDecision) : result string (list (rawCellKey * string)) :=
  match l with
  | [] => Ok []
  | c :: l => canonicalCellDecision i c ≫= λ x, canonical_decisions (S i) l ≫= λ rest, Ok (x :: rest)
  end.

Definition snapshot_instant (name value : string) : result string unit :=
  match ParseInstant value with Ok _ => Ok tt | Err e => Err (name +:+ ": " +:+ e) end.

(** Cells with one key are a problem of their own, so the order of equal keys
    does not matter. *)
Definition manifest_buffer (m : Manifest) (supersedes : string) (decisions : list (rawCellKey * string)) : string :=
  writeField manifestDecisionDomain +:+ writeField (uuid_string (man_ID m)) +:+ supersedes
  +:+ writeField (man_DatabaseIdentityChecksum m) +:+ writeField (itoa (man_SourceSchemaVersion m))
  +:+ writeField (man_SnapshotStartedAt m) +:+ writeField (man_SnapshotEndedAt m)
  +:+ writeField (itoa (man_ExecutionCount m)) +:+ writeField (itoa (man_EventCount m))
  +:+ writeField (itoa (man_RawCellCount m)) +:+ writeField (itoa (man_PopulatedCellCount m))
  +:+ writeField (man_RawCellChecksum m) +:+ writeOptionalString (man_EvidenceBundleReference m)
  +:+ writeOptionalString (man_EvidenceBundleChecksum m) +:+ writeField (man_ToolVersion m)
  +:+ writeField (man_ConversionExpressionVersion m) +:+ writeOptionalString (man_AuthorIdentity m)
  +:+ writeOptionalString (man_ReviewerIdentity m) +:+ writeOptionalString (man_TargetReleaseCommit m)
  +:+ writeOptionalString (man_TargetImageDigest m) +:+ writeField (itoa (Z.of_nat (length decisions)))
  +:+ concat_texts (writeField ∘ snd <$> sort_cells decisions).

Definition ComputeDecisionContentChecksum (m : Manifest) : result string string :=
  if is_nil (man_ID m) then Err "manifest id cannot be nil UUID" else
  if negb (checksumPattern (man_DatabaseIdentityChecksum m)) then Err "database identity checksum must use lowercase sha256 format" else
  if negb (checksumPattern (man_RawCellChecksum m)) then Err "raw cell checksum must use lowercase sha256 format" else
  snapshot_instant "snapshot start" (man_SnapshotStartedAt m) ≫= λ _,
  snapshot_instant "snapshot end" (man_SnapshotEndedAt m) ≫= λ _,
  canonical_decisions 0 (man_Cells m) ≫= λ decisions,
  match writeOptionalUUID (man_SupersedesManifestID m) with
  | Err e => Err ("supersedes manifest id: " +:+ e)
  | Ok supersedes => Ok (checksum (manifest_buffer m supersedes decisions))
  end.

(** ** The header *)

Definition supersedes_problems (m : Manifest) : list string :=
  match man_SupersedesManifestID m with
  | None => []
  | Some u => if is_nil u then ["supersedes manifest id cannot be nil UUID"] else
              problem_if (bool_decide (u = man_ID m)) "manifest cannot supersede itself"
  end.

Definition validateManifestHeader (m : Manifest) : list string :=
  problem_if (is_nil (man_ID m)) "manifest id cannot be nil UUID"
  ++ supersedes_problems m
  ++ problem_if (negb (man_SourceSchemaVersion m =? 137)%Z) "manifest source schema version must be 137"
  ++ problem_if (negb (checksumPattern (man_DatabaseIdentityChecksum m))) "database identity checksum must use lowercase sha256 format"
  ++ problem_if (negb (checksumPattern (man_RawCellChecksum m))) "raw cell checksum must use lowercase sha256 format"
  ++ problem_if (negb (checksumPattern (man_DecisionContentChecksum m))) "decision content checksum must use lowercase sha256 format"
  ++ problem_if (blank_field (man_ToolVersion m)) "tool version is required"
  ++ problem_if (negb (bool_decide (man_ConversionExpressionVersion m = ConversionExpressionVersion)))
       ("manifest conversion expression version must equal " +:+ quote ConversionExpressionVersion).

Definition validateManifestSnapshotInterval (m : Manifest) : list string :=
  let start := ParseInstant (man_SnapshotStartedAt m) in
  let finish := ParseInstant (man_SnapshotEndedAt m) in
  error_of "snapshot start: " start ++ error_of "snapshot end: " finish
  ++ match start, finish with
     | Ok s, Ok e => problem_if (e <? s)%Z "snapshot end cannot precede snapshot start"
     | _, _ => []
     end.

(** [(maximumUint64 - EventCount) / 5] and [5*ExecutionCount + EventCount] on [uint64]. *)
Definition validateManifestRawCellCount (m : Manifest) (actual : Z) : list string :=
  let expected := ((5 * man_ExecutionCount m + man_EventCount m) mod 2 ^ 64)%Z in
  (if ((maximumUint64 - man_EventCount m) / 5 <? man_ExecutionCount m)%Z then ["raw cell count formula overflows"] else
   problem_if (negb (man_RawCellCount m =? expected)%Z)
     ("raw cell count = " +:+ itoa (man_RawCellCount m) +:+ ", want 5*" +:+ itoa (man_ExecutionCount m) +:+ "+"
      +:+ itoa (man_EventCount m) +:+ " = " +:+ itoa expected))
  ++ problem_if (negb (man_RawCellCount m =? actual)%Z)
       ("raw cell count = " +:+ itoa (man_RawCellCount m) +:+ ", but document has " +:+ itoa actual +:+ " cells").

(** ** The cells *)

(** [manifestCellValidationState]; an ordinal set is a [uint8]. *)
Record cell_state := {
  st_rawCells : list RawCell; st_seenCells : gset rawCellKey; st_executionOrdinals : gmap string Z;
  st_eventOrdinals : gmap string Z; st_executionIDs : gmap string uuid; st_eventIDs : gmap string uuid;
  st_populatedCellCount : Z }.
Definition no_cells : cell_state :=
  {| st_rawCells := []; st_seenCells := ∅; st_executionOrdinals := ∅; st_eventOrdinals := ∅; st_executionIDs := ∅;
     st_eventIDs := ∅; st_populatedCellCount := 0 |}.

Definition add_ordinal (m : gmap string Z) (row : string) (ordinal : Z) : gmap string Z :=
  <[row := Z.lor (default 0%Z (m !! row)) (Z.shiftl 1 ordinal mod 256)]> m.

Definition validateManifestCellKey (raw : RawCell) (key : rawCellKey) (s : cell_state) : cell_state * list string :=
  let problems := problem_if (bool_decide (key ∈ st_seenCells s)) ("duplicate cell " +:+ key_text key) in
  let execution := bool_decide (key_table key = "externalexecution") in
  let event := bool_decide (key_table key = "externalexecutionevent") in
  ({| st_rawCells := st_rawCells s; st_seenCells := {[key]} ∪ st_seenCells s;
      st_executionOrdinals := if execution then add_ordinal (st_executionOrdinals s) (key_rowID key) (key_ordinal key)
                              else st_executionOrdinals s;
      st_eventOrdinals := if event then add_ordinal (st_eventOrdinals s) (key_rowID key) (key_ordinal key) else st_eventOrdinals s;
      st_executionIDs := if execution then <[key_rowID key := cell_SourceRowID raw]> (st_executionIDs s) else st_executionIDs s;
      st_eventIDs := if event then <[key_rowID key := cell_SourceRowID raw]> (st_eventIDs s) else st_eventIDs s;
      st_populatedCellCount := st_populatedCellCount s |}, problems).

Definition cell_text (i : nat) : string := "cell " +:+ index_text i.

Definition validateResolvedManifestCell (i : nat) (c : CellDecision) : list string :=
  let incomplete := [cell_text i +:+ " " +:+ dec_Decision c
    +:+ " requires raw value, explicit offset, converted value, evidence, and approver"] in
  match cell_RawValue (dec_Raw c), dec_SourceOffsetSeconds c, dec_ConvertedValue c with
  | Some raw, Some offset, Some converted =>
      if blank_field (dec_EvidenceReference c) || negb (checksumPattern (dec_EvidenceChecksum c))
         || blank_field (dec_ApprovingIdentity c) then incomplete else
      match ConvertWallClock raw offset with
      | Err e => [cell_text i +:+ " conversion: " +:+ e]
      | Ok expected =>
          match ParseInstant converted with
          | Err e => [cell_text i +:+ " converted value: " +:+ e]
          | Ok t => problem_if (negb (t =? expected)%Z)
                      (cell_text i +:+ " converted value does not reproduce raw wall minus explicit offset")
          end
      end
  | _, _, _ => incomplete
  end.

Definition no_conversion (c : CellDecision) : bool :=
  bool_decide (dec_SourceZone c = "" /\ dec_SourceOffsetSeconds c = None /\ dec_ConvertedValue c = None
    /\ dec_EvidenceReference c = "" /\ dec_EvidenceChecksum c = "" /\ dec_ApprovingIdentity c = "").
Definition is_resolved (decision : string) : bool :=
  bool_decide (decision = DecisionProven) || bool_decide (decision = DecisionAttested).

Definition validateManifestCellDecision (i : nat) (c : CellDecision) : list string :=
  let raw := cell_RawValue (dec_Raw c) in
  if bool_decide (dec_Decision c = DecisionNull) then
    problem_if (negb (bool_decide (raw = None)) || negb (no_conversion c))
      (cell_text i +:+ " NULL_VALUE requires null raw value and no conversion evidence")
  else if bool_decide (dec_Decision c = DecisionUnresolved) then
    problem_if (bool_decide (raw = None) || negb (no_conversion c))
      (cell_text i +:+ " UNRESOLVED requires a raw value and no conversion evidence")
  else if is_resolved (dec_Decision c) then validateResolvedManifestCell i c
  else [cell_text i +:+ " has unsupported decision " +:+ quote (dec_Decision c)].

Definition cell_checksum_problems (i : nat) (raw : RawCell) : list string :=
  match ComputeRawCellChecksum raw with
  | Err e => [cell_text i +:+ " raw checksum: " +:+ e]
  | Ok sum => problem_if (negb (bool_decide (cell_RawCellChecksum raw = sum)))
      (cell_text i +:+ " raw cell checksum = " +:+ quote (cell_RawCellChecksum raw) +:+ ", want " +:+ quote sum)
  end.

Definition validateManifestCell (i : nat) (c : CellDecision) (s : cell_state) : cell_state * list string :=
  let raw := dec_Raw c in
  let s := {| st_rawCells := st_rawCells s ++ [raw]; st_seenCells := st_seenCells s; st_executionOrdinals := st_executionOrdinals s;
              st_eventOrdinals := st_eventOrdinals s; st_executionIDs := st_executionIDs s; st_eventIDs := st_eventIDs s;
              st_populatedCellCount := if bool_decide (cell_RawValue raw = None) then st_populatedCellCount s
                                       else (st_populatedCellCount s + 1)%Z |} in
  let '(s, problems) := match rawKey raw with
                        | Err e => (s, [cell_text i +:+ ": " +:+ e])
                        | Ok key => validateManifestCellKey raw key s
                        end in
  (s, problems ++ cell_checksum_problems i raw
      ++ problem_if (negb (checksumPattern (cell_RawCellChecksum raw))) (cell_text i +:+ " raw cell checksum must use lowercase sha256 format")
      ++ problem_if (negb (bool_decide (dec_ConversionExpressionVersion c = ConversionExpressionVersion)))
           (cell_text i +:+ " conversion expression version must equal " +:+ quote ConversionExpressionVersion)
      ++ validateManifestCellDecision i c).

Fixpoint validate_cells_from (i : nat) (l : list CellDecision) (s : cell_state) : cell_state * list string :=
  match l with
  | [] => (s, [])
  | c :: l => let '(s, problems) := validateManifestCell i c s in
              let '(s, more) := validate_cells_from (S i) l s in (s, problems ++ more)
  end.
Definition validateManifestCells (l : list CellDecision) : cell_state * list string := validate_cells_from 0 l no_cells.

(** ** The set of cells *)

Definition expectedExecutionOrdinals : Z := 62.

Definition map_values {A} (m : gmap string A) : list A := (map_to_list m).*2.

Definition validateManifestSnapshotIdentity (m : Manifest) (actual : Z) (s : cell_state) : list string :=
  match ComputeRawSetChecksum (st_rawCells s) with
  | Err e => ["raw cell checksum: " +:+ e]
  | Ok rawSet =>
      problem_if (negb (bool_decide (man_RawCellChecksum m = rawSet)))
        ("raw cell checksum = " +:+ quote (man_RawCellChecksum m) +:+ ", want " +:+ quote rawSet)
      ++ match ComputeDatabaseIdentityChecksum (man_SourceSchemaVersion m) (map_values (st_executionIDs s))
                 (map_values (st_eventIDs s)) actual rawSet with
         | Err e => ["database identity checksum: " +:+ e]
         | Ok identity =>
             problem_if (negb (bool_decide (man_DatabaseIdentityChecksum m = identity)))
               ("database identity checksum = " +:+ quote (man_DatabaseIdentityChecksum m) +:+ ", want " +:+ quote identity)
         end
  end.

Definition count_text (kind : string) (want got : Z) : string :=
  kind +:+ " count = " +:+ itoa want +:+ ", but cells contain " +:+ itoa got +:+ " " +:+ kind +:+ " ids".

Definition validateManifestCellSet (m : Manifest) (actual : Z) (s : cell_state) : list string :=
  (map_to_list (st_executionOrdinals s) ≫= λ x, problem_if (negb (x.2 =? expectedExecutionOrdinals)%Z)
     ("execution " +:+ x.1 +:+ " must contain exactly ordinals 1 through 5"))
  ++ (map_to_list (st_eventOrdinals s) ≫= λ x, problem_if (negb (x.2 =? Z.shiftl 1 6)%Z)
        ("event " +:+ x.1 +:+ " must contain exactly ordinal 6"))
  ++ problem_if (negb (Z.of_nat (size (st_executionIDs s)) =? man_ExecutionCount m)%Z)
       (count_text "execution" (man_ExecutionCount m) (Z.of_nat (size (st_executionIDs s))))
  ++ problem_if (negb (Z.of_nat (size (st_eventIDs s)) =? man_EventCount m)%Z)
       (count_text "event" (man_EventCount m) (Z.of_nat (size (st_eventIDs s))))
  ++ problem_if (negb (st_populatedCellCount s =? man_PopulatedCellCount m)%Z)
       ("populated cell count = " +:+ itoa (man_PopulatedCellCount m) +:+ ", but document contains "
        +:+ itoa (st_populatedCellCount s) +:+ " populated cells")
  ++ validateManifestSnapshotIdentity m actual s.

(** ** Approval *)

Definition approval_fields (m : Manifest) : list string :=
  [man_EvidenceBundleReference m; man_EvidenceBundleChecksum m; man_AuthorIdentity m; man_ReviewerIdentity m;
   man_TargetReleaseCommit m; man_TargetImageDigest m].
Definition allFieldsEmpty (m : Manifest) : bool :=
  forallb (λ s, bool_decide (s = "")) (approval_fields m) && bool_decide (man_ApprovedAt m = "").

Definition validateComplete (m : Manifest) (requireApprovedAt : bool) : list string :=
  let author := TrimSpace (man_AuthorIdentity m) in
  let reviewer := TrimSpace (man_ReviewerIdentity m) in
  problem_if (blank_field (man_EvidenceBundleReference m)) "evidence bundle reference is required"
  ++ problem_if (negb (checksumPattern (man_EvidenceBundleChecksum m))) "evidence bundle checksum must use lowercase sha256 format"
  ++ problem_if (bool_decide (author = "")) "author identity is required"
  ++ problem_if (bool_decide (reviewer = "")) "reviewer identity is required"
  ++ problem_if (bool_decide (author <> "" /\ reviewer <> "" /\ author = reviewer)) "author and reviewer identities must differ"
  ++ problem_if (negb (commitPattern (man_TargetReleaseCommit m))) "target release commit must be 40 lowercase hexadecimal characters"
  ++ problem_if (negb (checksumPattern (man_TargetImageDigest m))) "target image digest must use lowercase sha256 format"
  ++ (if requireApprovedAt then error_of "approved at: " (ParseInstant (man_ApprovedAt m))
      else problem_if (negb (bool_decide (man_ApprovedAt m = ""))) "DRAFT manifest must not have approved at").

Definition validateManifestApprovalMetadata (m : Manifest) : list string :=
  if bool_decide (man_State m = StateDraft) then if allFieldsEmpty m then [] else validateComplete m false else
  if contains [StateApproved; StateApplied; StateVerified] (man_State m) then validateComplete m true else
  if bool_decide (man_State m = StateRevokedBeforeApply) then if allFieldsEmpty m then [] else validateComplete m true else
  ["unsupported manifest state " +:+ quote (man_State m)].

Definition decision_content_problems (m : Manifest) : list string :=
  match ComputeDecisionContentChecksum m with
  | Err e => ["decision content checksum: " +:+ e]
  | Ok sum => problem_if (negb (bool_decide (man_DecisionContentChecksum m = sum)))
      ("decision content checksum = " +:+ quote (man_DecisionContentChecksum m) +:+ ", want " +:+ quote sum)
  end.

Definition ValidateManifestDocument (m : Manifest) : list string :=
  let actual := Z.of_nat (length (man_Cells m)) in
  let '(s, cells) := validateManifestCells (man_Cells m) in
  validateManifestHeader m ++ validateManifestSnapshotInterval m ++ validateManifestRawCellCount m actual ++ cells
  ++ validateManifestCellSet m actual s ++ validateManifestApprovalMetadata m ++ decision_content_problems m.

(** ** Supersession *)

Definition validateSupersessionMetadata (previous next : Manifest) : list string :=
  problem_if (bool_decide (man_ID next = man_ID previous)) "superseding manifest must have a new id"
  ++ problem_if (negb (bool_decide (man_SupersedesManifestID next = Some (man_ID previous))))
       ("next manifest must supersede previous manifest " +:+ uuid_string (man_ID previous))
  ++ problem_if (negb (man_SourceSchemaVersion next =? man_SourceSchemaVersion previous)%Z)
       "superseding manifest must preserve original source schema version"
  ++ problem_if (negb (bool_decide (man_SnapshotStartedAt next = man_SnapshotStartedAt previous
                                    /\ man_SnapshotEndedAt next = man_SnapshotEndedAt previous)))
       "superseding manifest must preserve original snapshot interval"
  ++ problem_if (negb (bool_decide (man_ExecutionCount next = man_ExecutionCount previous
                                    /\ man_EventCount next = man_EventCount previous
                                    /\ man_RawCellCount next = man_RawCellCount previous
                                    /\ man_PopulatedCellCount next = man_PopulatedCellCount previous)))
       "superseding manifest must preserve original snapshot counts"
  ++ problem_if (negb (bool_decide (man_DatabaseIdentityChecksum next = man_DatabaseIdentityChecksum previous)))
       "superseding manifest must preserve original database identity checksum"
  ++ problem_if (negb (bool_decide (man_RawCellChecksum next = man_RawCellChecksum previous)))
       "superseding manifest must preserve original raw-set checksum".

(** The first cell of a key stays. *)
Fixpoint index_previous (i : nat) (l : list CellDecision) (m : gmap rawCellKey CellDecision)
    : gmap rawCellKey CellDecision * list string :=
  match l with
  | [] => (m, [])
  | c :: l =>
      match rawKey (dec_Raw c) with
      | Err e => let '(m, more) := index_previous (S i) l m in
                 (m, ("previous cell " +:+ index_text i +:+ ": " +:+ e) :: more)
      | Ok key =>
          match m !! key with
          | Some _ => let '(m, more) := index_previous (S i) l m in
                      (m, ("previous manifest contains duplicate cell " +:+ key_text key) :: more)
          | None => index_previous (S i) l (<[key := c]> m)
          end
      end
  end.
Definition indexPreviousManifestCells (l : list CellDecision) : gmap rawCellKey CellDecision * list string := index_previous 0 l ∅.

(** The last cell of a key stays. *)
Definition index_next (m : gmap rawCellKey CellDecision) (l : list CellDecision) : gmap rawCellKey CellDecision :=
  foldl (λ m c, match rawKey (dec_Raw c) with Ok key => <[key := c]> m | Err _ => m end) m l.
Definition indexNextManifestCells (l : list CellDecision) : gmap rawCellKey CellDecision := index_next ∅ l.

Definition validateSupersededResolvedCell (key : rawCellKey) (previous next : CellDecision) : list string :=
  problem_if (negb (bool_decide (dec_Decision next = dec_Decision previous)))
    ("resolved decision cannot change for " +:+ key_text key)
  ++ problem_if (negb (bool_decide (dec_SourceZone next = dec_SourceZone previous
        /\ dec_SourceOffsetSeconds next = dec_SourceOffsetSeconds previous
        /\ dec_EvidenceReference next = dec_EvidenceReference previous /\ dec_EvidenceChecksum next = dec_EvidenceChecksum previous
        /\ dec_ApprovingIdentity next = dec_ApprovingIdentity previous
        /\ dec_ConversionExpressionVersion next = dec_ConversionExpressionVersion previous)))
       ("resolved cell evidence cannot change for " +:+ key_text key)
  ++ problem_if (bool_decide (dec_ConvertedValue next = None \/ dec_ConvertedValue previous = None
                              \/ dec_ConvertedValue next <> dec_ConvertedValue previous))
       ("resolved instant cannot change for " +:+ key_text key).

Definition validateSupersededUnresolvedCell (key : rawCellKey) (next : CellDecision) : list string :=
  problem_if (negb (contains [DecisionUnresolved; DecisionProven; DecisionAttested] (dec_Decision next)))
    ("UNRESOLVED decision may change only to PROVEN or ATTESTED for " +:+ key_text key).

Definition validateSupersededCell (key : rawCellKey) (previous next : CellDecision) : list string :=
  problem_if (negb (bool_decide (cell_RawValue (dec_Raw previous) = cell_RawValue (dec_Raw next)
                                 /\ cell_RawCellChecksum (dec_Raw previous) = cell_RawCellChecksum (dec_Raw next))))
    ("cell " +:+ key_text key +:+ " raw value and checksum must remain unchanged")
  ++ (if is_resolved (dec_Decision previous) then validateSupersededResolvedCell key previous next else
      if bool_decide (dec_Decision previous = DecisionUnresolved) then validateSupersededUnresolvedCell key next else
      if bool_decide (dec_Decision previous = DecisionNull)
      then problem_if (negb (bool_decide (dec_Decision next = DecisionNull))) ("NULL_VALUE decision cannot change for " +:+ key_text key)
      else []).

Definition validateSupersessionCells (previous next : gmap rawCellKey CellDecision) : list string :=
  (map_to_list next ≫= λ x, problem_if (bool_decide (previous !! x.1 = None))
     ("superseding manifest contains unexpected cell " +:+ key_text x.1))
  ++ (map_to_list previous ≫= λ x, match next !! x.1 with
        | None => ["superseding manifest is missing prior cell " +:+ key_text x.1]
        | Some c => validateSupersededCell x.1 x.2 c
        end).

Definition ValidateSupersession (previous next : Manifest) : list string :=
  let '(previousCells, problems) := indexPreviousManifestCells (man_Cells previous) in
  ValidateManifestDocument next ++ validateSupersessionMetadata previous next ++ problems
  ++ validateSupersessionCells previousCells (indexNextManifestCells (man_Cells next)).

(** ** Sealing *)

Record SealOptions := {
  seal_AuthorIdentity : string; seal_ReviewerIdentity : string; seal_EvidenceBundleReference : string;
  seal_EvidenceBundleChecksum : string; seal_TargetReleaseCommit : string; seal_TargetImageDigest : string }.

Definition with_cells (cells : list CellDecision) (sum : string) (m : Manifest) : Manifest :=
  {| man_ID := man_ID m; man_SupersedesManifestID := man_SupersedesManifestID m;
     man_DatabaseIdentityChecksum := man_DatabaseIdentityChecksum m; man_SourceSchemaVersion := man_SourceSchemaVersion m;
     man_SnapshotStartedAt := man_SnapshotStartedAt m; man_SnapshotEndedAt := man_SnapshotEndedAt m;
     man_ExecutionCount := man_ExecutionCount m; man_EventCount := man_EventCount m; man_RawCellCount := man_RawCellCount m;
     man_PopulatedCellCount := man_PopulatedCellCount m; man_RawCellChecksum := man_RawCellChecksum m;
     man_EvidenceBundleReference := man_EvidenceBundleReference m; man_EvidenceBundleChecksum := man_EvidenceBundleChecksum m;
     man_ToolVersion := man_ToolVersion m; man_ConversionExpressionVersion := man_ConversionExpressionVersion m;
     man_AuthorIdentity := man_AuthorIdentity m; man_ReviewerIdentity := man_ReviewerIdentity m; man_ApprovedAt := man_ApprovedAt m;
     man_TargetReleaseCommit := man_TargetReleaseCommit m; man_TargetImageDigest := man_TargetImageDigest m;
     man_State := man_State m; man_DecisionContentChecksum := sum; man_Cells := cells |}.
Definition approved (o : SealOptions) (approvedAt : Z) (m : Manifest) : Manifest :=
  {| man_ID := man_ID m; man_SupersedesManifestID := man_SupersedesManifestID m;
     man_DatabaseIdentityChecksum := man_DatabaseIdentityChecksum m; man_SourceSchemaVersion := man_SourceSchemaVersion m;
     man_SnapshotStartedAt := man_SnapshotStartedAt m; man_SnapshotEndedAt := man_SnapshotEndedAt m;
     man_ExecutionCount := man_ExecutionCount m; man_EventCount := man_EventCount m; man_RawCellCount := man_RawCellCount m;
     man_PopulatedCellCount := man_PopulatedCellCount m; man_RawCellChecksum := man_RawCellChecksum m;
     man_EvidenceBundleReference := TrimSpace (seal_EvidenceBundleReference o);
     man_EvidenceBundleChecksum := TrimSpace (seal_EvidenceBundleChecksum o); man_ToolVersion := man_ToolVersion m;
     man_ConversionExpressionVersion := man_ConversionExpressionVersion m;
     man_AuthorIdentity := TrimSpace (seal_AuthorIdentity o); man_ReviewerIdentity := TrimSpace (seal_ReviewerIdentity o);
     man_ApprovedAt := FormatInstant approvedAt; man_TargetReleaseCommit := TrimSpace (seal_TargetReleaseCommit o);
     man_TargetImageDigest := TrimSpace (seal_TargetImageDigest o); man_State := StateApproved;
     man_DecisionContentChecksum := man_DecisionContentChecksum m; man_Cells := man_Cells m |}.

Definition with_converted (v : string) (c : CellDecision) : CellDecision :=
  {| dec_Raw := dec_Raw c; dec_Decision := dec_Decision c; dec_SourceZone := dec_SourceZone c;
     dec_SourceOffsetSeconds := dec_SourceOffsetSeconds c; dec_ConvertedValue := Some v;
     dec_EvidenceReference := dec_EvidenceReference c; dec_EvidenceChecksum := dec_EvidenceChecksum c;
     dec_ApprovingIdentity := dec_ApprovingIdentity c; dec_ConversionExpressionVersion := dec_ConversionExpressionVersion c |}.

(** The converted value of a resolved cell in its canonical form. *)
Definition seal_cell (i : nat) (c : CellDecision) : result string CellDecision :=
  if negb (is_resolved (dec_Decision c)) then Ok c else
  match cell_RawValue (dec_Raw c), dec_SourceOffsetSeconds c, dec_ConvertedValue c with
  | Some raw, Some offset, Some converted =>
      match ConvertWallClock raw offset with
      | Err e => Err (cell_text i +:+ " conversion: " +:+ e)
      | Ok expected =>
          match parse_rfc3339 converted with
          | None => Err (cell_text i +:+ " converted value must be RFC3339")
          | Some actual =>
              if negb (actual =? expected)%Z
              then Err (cell_text i +:+ " converted value does not reproduce raw wall minus explicit offset")
              else Ok (with_converted (FormatInstant expected) c)
          end
      end
  | _, _, _ => Ok c
  end.
Fixpoint seal_cells (i : nat) (l : list CellDecision) : result string (list CellDecision) :=
  match l with [] => Ok [] | c :: l => seal_cell i c ≫= λ c, seal_cells (S i) l ≫= λ l, Ok (c :: l) end.

(** [errors.Join] *)
Definition join_problems (l : list string) : string := Join l (String (ascii_of_N 10) "").

(** The manifest with its checksum, when it is valid. *)
Definition checked (m : Manifest) : result string Manifest :=
  ComputeDecisionContentChecksum m ≫= λ sum,
  let m := with_cells (man_Cells m) sum m in
  let problems := ValidateManifestDocument m in
  if negb (bool_decide (problems = [])) then Err (join_problems problems) else Ok m.

(** With an error the manifest is returned as it was. *)
Definition SealManifest (m : Manifest) (o : SealOptions) (approvedAt : Z) : result string Manifest :=
  if negb (bool_decide (man_State m = StateDraft)) then Err "only DRAFT manifests can be sealed" else
  seal_cells 0 (man_Cells m) ≫= λ cells,
  checked (with_cells cells (man_DecisionContentChecksum m) m) ≫= λ validated,
  checked (approved o approvedAt validated).
End manifests.
