(* ===== verification/TimestampGuarantees.v ===== *)
(** * External execution timestamps: guarantees

    Instants are printed and read without loss; a canonical encoding tells
    different content apart; the validation of a manifest accepts exactly the
    decisions of a whole snapshot; a chain of superseding manifests keeps what
    was resolved; sealing approves the same decisions. *)
From S2P Require Import Prelude GoStrings GoTime Uuid TaskStore TimestampCanonical TimestampManifest.
From Stdlib Require Import Ascii.
Open Scope list_scope.

(** ** Instants *)

Lemma substring_all s : String.substring 0 (String.length s) s = s.
Proof. induction s as [|a s IH]; simpl; [done|]. by rewrite IH. Qed.
Lemma string_append_substring s n :
  s = String.substring 0 n s +:+ String.substring n (String.length s - n) s.
Proof.
  revert n. induction s as [|a s IH]; intros [|n]; simpl; try done.
  - by rewrite substring_all.
  - rewrite string_app_cons. by rewrite <- IH.
Qed.
Lemma substring_app_l s t : String.substring 0 (String.length s) (s +:+ t) = s.
Proof. induction s as [|a s IH]; simpl; [by destruct t|]. by rewrite IH. Qed.
Lemma substring_app_r s t n : String.substring (String.length s) n (s +:+ t) = String.substring 0 n t.
Proof. induction s as [|a s IH]; simpl; done. Qed.

Lemma ParseInstant_iff v t : ParseInstant v = Ok t <-> layout_instant t /\ v = FormatInstant t.
Proof.
  unfold ParseInstant, FormatInstant. split.
  - destruct (parse_wall _) as [u|] eqn:E; [|done]. case_bool_decide as Hz; [|done]. intros [= <-].
    apply parse_wall_iff in E as [Hl E]. split; [done|].
    destruct (String.length v) as [|n] eqn:Hn; [by destruct v|].
    rewrite (string_append_substring v (S n - 1)), Hn.
    replace (S n - (S n - 1)) with 1 by lia. by rewrite Hz, E.
  - intros [Hl ->]. rewrite string_length_app. simpl.
    replace (String.length (format_wall t) + 1 - 1) with (String.length (format_wall t)) by lia.
    rewrite substring_app_l, substring_app_r. by rewrite (proj2 (parse_wall_iff _ t)).
Qed.

Lemma ParseInstant_FormatInstant t : layout_instant t -> ParseInstant (FormatInstant t) = Ok t.
Proof. intros Ht. by apply ParseInstant_iff. Qed.

Lemma ConvertWallClock_ok raw o t : ConvertWallClock raw o = Ok t <->
  (-64800 <= o <= 64800)%Z /\ raw = format_wall (t + o * 1000000000) /\ layout_instant (t + o * 1000000000).
Proof.
  unfold ConvertWallClock. destruct ((o <? -64800)%Z || (64800 <? o)%Z) eqn:Ho.
  - split; [done|]. intros [H _]. apply orb_true_iff in Ho as [H'|H']; apply Z.ltb_lt in H'; lia.
  - apply orb_false_iff in Ho as [H1 H2]. apply Z.ltb_ge in H1, H2. split.
    + destruct (parse_wall raw) as [u|] eqn:E; [|done]. intros [= <-]. split; [lia|].
      apply parse_wall_iff in E as [Hl ->]. replace (u - o * 1000000000 + o * 1000000000)%Z with u by lia. done.
    + intros (_ & -> & Hl). rewrite (proj2 (parse_wall_iff _ _)) by (split; [exact Hl | reflexivity]). f_equal. lia.
Qed.

(** ** The encoding *)

Definition small (s : string) : Prop := (len s < 2 ^ 32)%Z.

Lemma byte_at_value n k : N_of_ascii (byte_at n k) = Z.to_N (Z.shiftr n k mod 256).
Proof.
  unfold byte_at. apply N_ascii_embedding. pose proof (Z.mod_pos_bound (Z.shiftr n k) 256 ltac:(lia)). lia.
Qed.
Lemma byte_at_inj n m k : byte_at n k = byte_at m k -> (Z.shiftr n k mod 256 = Z.shiftr m k mod 256)%Z.
Proof.
  intros E. apply (f_equal N_of_ascii) in E. rewrite !byte_at_value in E.
  pose proof (Z.mod_pos_bound (Z.shiftr n k) 256 ltac:(lia)). pose proof (Z.mod_pos_bound (Z.shiftr m k) 256 ltac:(lia)). lia.
Qed.
Lemma PutUint32_inj n m s t : (0 <= n < 2 ^ 32)%Z -> (0 <= m < 2 ^ 32)%Z -> PutUint32 n +:+ s = PutUint32 m +:+ t -> n = m /\ s = t.
Proof.
  intros Hn Hm. unfold PutUint32. rewrite !(Z.mod_small _ (2 ^ 32)) by done.
  rewrite !string_app_cons, !string_app_nil_l. intros E. injection E as E1 E2 E3 E4 ->. split; [|done].
  apply byte_at_inj in E1, E2, E3, E4. rewrite !Z.shiftr_div_pow2 in E1, E2, E3, E4 by done.
  Z.to_euclidean_division_equations. lia.
Qed.

(** A field determines itself and what follows. *)
Lemma writeField_inj s t a b : small s -> small t -> writeField s +:+ a = writeField t +:+ b -> s = t /\ a = b.
Proof.
  unfold small, writeField. intros Hs Ht E. rewrite <- !string_app_assoc in E.
  assert (forall x, 0 <= len x)%Z as Hpos by (intros x; unfold len; lia).
  apply PutUint32_inj in E as [El E]; [|split; auto..]. unfold len in El. apply app_length_inj in E; [done|lia].
Qed.
Lemma writeField_end_inj s t : small s -> small t -> writeField s = writeField t -> s = t.
Proof. intros Hs Ht E. eapply (writeField_inj s t "" ""); [done..|]. by rewrite E. Qed.

(** ** Problems *)

Lemma problem_if_nil c m : problem_if c m = [] <-> c = false.
Proof. by destruct c. Qed.
Lemma error_of_nil {A} p (r : result string A) : error_of p r = [] <-> exists a, r = Ok a.
Proof. destruct r; simpl; split; try done; [intros _; by eexists | by intros [? ?]]. Qed.
Lemma bind_nil {A B} (f : A -> list B) l : l ≫= f = [] <-> forall x, x ∈ l -> f x = [].
Proof.
  split.
  - intros E x Hx. destruct (f x) as [|y r] eqn:Ef; [done|]. exfalso. assert (y ∈ l ≫= f) as Hy.
    { apply list_elem_of_bind. exists x. split; [rewrite Ef; by left | done]. }
    rewrite E in Hy. by apply elem_of_nil in Hy.
  - induction l as [|x l IH]; intros Hl; [done|]. rewrite bind_cons, (Hl x) by (by left). apply IH. intros y Hy. apply Hl. by right.
Qed.

(** Rewrites the absence of problems into the conditions. *)
Ltac no_problems :=
  rewrite ?app_nil, ?problem_if_nil, ?error_of_nil, ?negb_false_iff, ?negb_true_iff, ?andb_true_iff, ?orb_false_iff,
    ?Z.eqb_eq, ?Z.ltb_ge, ?bool_decide_eq_true, ?bool_decide_eq_false.

(** ** Valid decisions *)

Definition populated (c : CellDecision) : bool := negb (bool_decide (cell_RawValue (dec_Raw c) = None)).

Record resolved_ok (c : CellDecision) (raw : string) (offset t : Z) : Prop := {
  ro_raw : cell_RawValue (dec_Raw c) = Some raw; ro_offset : dec_SourceOffsetSeconds c = Some offset;
  ro_value : dec_ConvertedValue c = Some (FormatInstant t); ro_evidence : TrimSpace (dec_EvidenceReference c) <> "";
  ro_checksum : checksumPattern (dec_EvidenceChecksum c) = true; ro_approver : TrimSpace (dec_ApprovingIdentity c) <> "";
  ro_range : (-64800 <= offset <= 64800)%Z; ro_layout : layout_instant t;
  ro_wall : raw = format_wall (t + offset * 1000000000); ro_wall_layout : layout_instant (t + offset * 1000000000) }.

(** What each decision claims: a resolved cell has the instant which its wall
    clock and offset mean. *)
Unset Elimination Schemes.
Inductive decision_ok (c : CellDecision) : Prop :=
  | null_ok : dec_Decision c = DecisionNull -> cell_RawValue (dec_Raw c) = None -> no_conversion c = true -> decision_ok c
  | unresolved_ok raw : dec_Decision c = DecisionUnresolved -> cell_RawValue (dec_Raw c) = Some raw -> no_conversion c = true ->
      decision_ok c
  | resolved_is_ok raw offset t : is_resolved (dec_Decision c) = true -> resolved_ok c raw offset t -> decision_ok c.
Set Elimination Schemes.

Lemma resolved_cell_ok i c : validateResolvedManifestCell i c = [] <-> exists raw offset t, resolved_ok c raw offset t.
Proof.
  unfold validateResolvedManifestCell. destruct (cell_RawValue (dec_Raw c)) as [raw|] eqn:Er; cycle 1.
  { split; [done|]. intros (raw & o & t & []). congruence. }
  destruct (dec_SourceOffsetSeconds c) as [o|] eqn:Eo; cycle 1. { split; [done|]. intros (r & o & t & []). congruence. }
  destruct (dec_ConvertedValue c) as [v|] eqn:Ev; cycle 1. { split; [done|]. intros (r & o' & t & []). congruence. }
  destruct (blank_field (dec_EvidenceReference c) || _ || _) eqn:Eb.
  { split; [done|]. intros (r & o' & t & [Hr Ho _ He Hc Ha _ _ _ _]). exfalso. unfold blank_field in Eb.
    rewrite (bool_decide_eq_false_2 _ He), (bool_decide_eq_false_2 _ Ha), Hc in Eb. done. }
  rewrite !orb_false_iff, negb_false_iff in Eb. unfold blank_field in Eb. rewrite !bool_decide_eq_false in Eb.
  destruct Eb as ((He & Hc) & Ha). split.
  - destruct (ConvertWallClock raw o) as [t|e] eqn:Ec; [|done]. apply ConvertWallClock_ok in Ec as (Hr & Hraw & Hl).
    destruct (ParseInstant v) as [u|e] eqn:Ep; [|done]. apply ParseInstant_iff in Ep as [Hu ->]. no_problems. intros ->.
    exists raw, o, t. by constructor.
  - intros (r & o' & t & [Hr Ho Hv _ _ _ Hrange Hl Hwall Hwl]). simplify_eq.
    rewrite (proj2 (ConvertWallClock_ok _ o t)), ParseInstant_FormatInstant by done. by rewrite Z.eqb_refl.
Qed.

Lemma decision_names_distinct d : is_resolved d = true -> d <> DecisionNull /\ d <> DecisionUnresolved.
Proof. unfold is_resolved. rewrite orb_true_iff, !bool_decide_eq_true. intros [-> | ->]; by split. Qed.

Lemma decision_ok_iff i c : validateManifestCellDecision i c = [] <-> decision_ok c.
Proof.
  unfold validateManifestCellDecision.
  destruct (decide (dec_Decision c = DecisionNull)) as [Hd|Hn]; [rewrite bool_decide_eq_true_2 by done|rewrite bool_decide_eq_false_2 by done;
    destruct (decide (dec_Decision c = DecisionUnresolved)) as [Hd|Hu]; [rewrite bool_decide_eq_true_2 by done|
    rewrite bool_decide_eq_false_2 by done; destruct (is_resolved (dec_Decision c)) eqn:Er]].
  - rewrite problem_if_nil, orb_false_iff, !negb_false_iff, bool_decide_eq_true. split; [intros [? ?]; by apply null_ok|].
    intros [_ ? ?|raw H|raw o t H]; [done|rewrite Hd in H; discriminate H|apply decision_names_distinct in H; by destruct H].
  - rewrite problem_if_nil, orb_false_iff, negb_false_iff, bool_decide_eq_false. split.
    + intros [Hr ?]. destruct (cell_RawValue (dec_Raw c)) as [raw|] eqn:E; [|done]. by eapply unresolved_ok.
    + intros [H|raw _ -> ?|raw o t H]; [rewrite H in Hd; discriminate Hd | done | apply decision_names_distinct in H; by destruct H].
  - rewrite resolved_cell_ok. split.
    + intros (raw & o & t & Hr). by eapply resolved_is_ok.
    + intros [H|raw H|raw o t _ Hr]; [done|done|by exists raw, o, t].
  - split; [done|]. intros [H|raw H|raw o t H]; [done|done|]. congruence.
Qed.

(** ** The keys of a set of cells *)

Definition cell_key (c : CellDecision) : option rawCellKey := match rawKey (dec_Raw c) with Ok k => Some k | Err _ => None end.
Definition keys (l : list CellDecision) : list rawCellKey := omap cell_key l.

Lemma elem_of_keys k l : k ∈ keys l <-> exists c, c ∈ l /\ cell_key c = Some k.
Proof. unfold keys. apply list_elem_of_omap. Qed.
Lemma keys_snoc l c : keys (l ++ [c]) = keys l ++ match cell_key c with Some k => [k] | None => [] end.
Proof. unfold keys. by rewrite omap_app. Qed.

Definition execution_table : string := "externalexecution".
Definition event_table : string := "externalexecutionevent".

Lemma cellOrdinals_cases t col o : cellOrdinals t col = Some o ->
  t = execution_table /\ (1 <= o <= 5)%Z \/ t = event_table /\ o = 6%Z.
Proof. unfold cellOrdinals. repeat case_bool_decide; intros [= <-]; (left; split; [done|lia]) || by right. Qed.

(** The key of a cell: its table and ordinal are known, its row is printed. *)
Lemma cell_key_inv c k : cell_key c = Some k ->
  key_rowID k = uuid_string (cell_SourceRowID (dec_Raw c)) /\ cell_SourceRowID (dec_Raw c) <> Nil /\
  (key_table k = execution_table /\ (1 <= key_ordinal k <= 5)%Z \/ key_table k = event_table /\ key_ordinal k = 6%Z).
Proof.
  unfold cell_key, rawKey. destruct (negb (known_table _)); [done|].
  destruct (bool_decide (cellOrdinals _ _ = _)) eqn:E; simpl; [|done].
  destruct (is_nil _) eqn:Hn; [done|]. destruct (negb (wall_ok _)); [done|]. intros [= <-]. simpl.
  apply bool_decide_eq_true, cellOrdinals_cases in E. unfold is_nil in Hn. by apply bool_decide_eq_false in Hn.
Qed.

Definition row_key (table : string) (u : uuid) (o : Z) : rawCellKey :=
  {| key_table := table; key_rowID := uuid_string u; key_ordinal := o |}.

Lemma row_key_inj t u o t' v p : row_key t u o = row_key t' v p -> t = t' /\ u = v /\ o = p.
Proof.
  intros E. pose proof (f_equal key_table E) as E1. pose proof (f_equal key_rowID E) as E2.
  pose proof (f_equal key_ordinal E) as E3. by apply uuid_string_inj in E2.
Qed.

Lemma keys_row k l : k ∈ keys l -> exists u, u <> Nil /\
  ((exists o, (1 <= o <= 5)%Z /\ k = row_key execution_table u o) \/ k = row_key event_table u 6).
Proof.
  intros (c & _ & Hk)%elem_of_keys. apply cell_key_inv in Hk as (Hr & Hn & Hc).
  exists (cell_SourceRowID (dec_Raw c)). destruct k as [t r o]; simpl in *; subst. destruct Hc as [[-> Ho]|[-> ->]].
  - split; [done|]. left. by exists o.
  - split; [done|]. by right.
Qed.

Definition ids_of (table : string) (l : list CellDecision) (m : gmap string uuid) : Prop :=
  forall row u, m !! row = Some u <-> row = uuid_string u /\ exists o, row_key table u o ∈ keys l.
Definition ordinals_of (table : string) (l : list CellDecision) (m : gmap string Z) : Prop :=
  (forall row b, m !! row = Some b -> exists u o, row = uuid_string u /\ row_key table u o ∈ keys l)
  /\ forall u o, (0 <= o)%Z -> Z.testbit (default 0%Z (m !! uuid_string u)) o = true <-> row_key table u o ∈ keys l.

Record state_of (l : list CellDecision) (s : cell_state) : Prop := {
  so_raw : st_rawCells s = dec_Raw <$> l;
  so_seen : forall k, k ∈ st_seenCells s <-> k ∈ keys l;
  so_execs : ids_of execution_table l (st_executionIDs s); so_events : ids_of event_table l (st_eventIDs s);
  so_exec_ordinals : ordinals_of execution_table l (st_executionOrdinals s);
  so_event_ordinals : ordinals_of event_table l (st_eventOrdinals s);
  so_populated : st_populatedCellCount s = Z.of_nat (count populated l) }.

Lemma ids_of_other table l c m : (forall k, cell_key c = Some k -> key_table k <> table) -> ids_of table l m -> ids_of table (l ++ [c]) m.
Proof.
  intros Hc Hm row u. rewrite (Hm row u). apply and_iff_compat_l. split; intros [o Ho]; exists o.
  - rewrite keys_snoc. apply elem_of_app. by left.
  - rewrite keys_snoc in Ho. apply elem_of_app in Ho as [Ho|Ho]; [done|]. destruct (cell_key c) as [k|]; [|by apply elem_of_nil in Ho].
    apply list_elem_of_singleton in Ho. subst k. by destruct (Hc _ eq_refl).
Qed.
Lemma ids_of_add table l c m k : cell_key c = Some k -> key_table k = table -> ids_of table l m ->
  ids_of table (l ++ [c]) (<[key_rowID k := cell_SourceRowID (dec_Raw c)]> m).
Proof.
  intros Hc Ht Hm row u. pose proof (cell_key_inv _ _ Hc) as (Hr & _ & _).
  assert (k = row_key table (cell_SourceRowID (dec_Raw c)) (key_ordinal k)) as Hk by (destruct k; simpl in *; by subst).
  rewrite keys_snoc, Hc, lookup_insert_Some, Hr. split.
  - intros [[<- <-]|[Hne Hu]].
    + split; [done|]. exists (key_ordinal k). apply elem_of_app. right. rewrite <- Hk. by left.
    + apply Hm in Hu as [-> [o Ho]]. split; [done|]. exists o. apply elem_of_app. by left.
  - intros [-> [o Ho]]. apply elem_of_app in Ho as [Ho|Ho].
    + destruct (decide (u = cell_SourceRowID (dec_Raw c))) as [->|Hne]; [by left|]. right. split.
      * intros E. apply uuid_string_inj in E. by subst.
      * apply Hm. split; [done|]. by exists o.
    + apply list_elem_of_singleton in Ho. rewrite Hk in Ho. apply row_key_inj in Ho as (_ & -> & _). by left.
Qed.

Lemma ordinals_of_other table l c m : (forall k, cell_key c = Some k -> key_table k <> table) ->
  ordinals_of table l m -> ordinals_of table (l ++ [c]) m.
Proof.
  intros Hc [Hm Hb]. assert (forall u o, row_key table u o ∈ keys (l ++ [c]) <-> row_key table u o ∈ keys l) as Hk.
  { intros u o. rewrite keys_snoc, elem_of_app. split; [|by left]. intros [H|H]; [done|].
    destruct (cell_key c) as [k|]; [|by apply elem_of_nil in H]. apply list_elem_of_singleton in H. subst k. by destruct (Hc _ eq_refl). }
  split.
  - intros row b Hr. destruct (Hm row b Hr) as (u & o & -> & Ho). exists u, o. by rewrite Hk.
  - intros u o Ho. by rewrite Hk, Hb.
Qed.
Lemma ordinals_of_add table l c m k : cell_key c = Some k -> key_table k = table -> ordinals_of table l m ->
  ordinals_of table (l ++ [c]) (add_ordinal m (key_rowID k) (key_ordinal k)).
Proof.
  intros Hc Ht [Hm Hb]. pose proof (cell_key_inv _ _ Hc) as (Hr & _ & Hord).
  assert (0 <= key_ordinal k < 8)%Z as Hrange by (destruct Hord as [[_ ?]|[_ ->]]; lia).
  assert (k = row_key table (cell_SourceRowID (dec_Raw c)) (key_ordinal k)) as Hk by (destruct k; simpl in *; by subst).
  rewrite Hr. set (v := cell_SourceRowID (dec_Raw c)) in *. set (q := key_ordinal k) in *. unfold add_ordinal. split.
  - intros row b. rewrite lookup_insert_Some. intros [[<- _]|[_ Hl]].
    + exists v, q. split; [done|]. rewrite keys_snoc, Hc. apply elem_of_app. right. rewrite Hk. by left.
    + destruct (Hm row b Hl) as (u & o & -> & Ho). exists u, o. split; [done|]. rewrite keys_snoc. apply elem_of_app. by left.
  - intros u o Ho. rewrite keys_snoc, Hc, elem_of_app, list_elem_of_singleton, Hk, <- Hb by done.
    destruct (decide (u = v)) as [->|Hne].
    + rewrite lookup_insert_eq. cbn [default from_option id]. rewrite Z.lor_spec, orb_true_iff. apply or_iff_compat_l.
      change 256%Z with (2 ^ 8)%Z. destruct (decide (o < 8)%Z) as [H8|H8].
      * rewrite Z.mod_pow2_bits_low, Z.shiftl_1_l, Z.pow2_bits_eqb, Z.eqb_eq by lia. split; [by intros -> | by intros (_ & _ & ->)%row_key_inj].
      * rewrite Z.mod_pow2_bits_high by lia. split; [done|]. intros (_ & _ & ->)%row_key_inj. lia.
    + rewrite lookup_insert_ne by (intros E; apply uuid_string_inj in E; by subst). split; [by left|].
      intros [H|H]; [done|]. by apply row_key_inj in H as (_ & ? & _).
Qed.

Lemma no_ordinals table : ordinals_of table [] ∅.
Proof.
  split; [intros row b; by rewrite lookup_empty|]. intros u o _. rewrite lookup_empty. cbn [default from_option id].
  rewrite Z.bits_0. split; [done|]. by intros H%elem_of_nil.
Qed.

Lemma no_cells_state : state_of [] no_cells.
Proof.
  split; try done.
  - intros k. split; [by intros ?%elem_of_empty | by intros ?%elem_of_nil].
  - intros row u. split; [done|]. by intros [_ [o Ho%elem_of_nil]].
  - intros row u. split; [done|]. by intros [_ [o Ho%elem_of_nil]].
  - apply no_ordinals.
  - apply no_ordinals.
Qed.

Lemma key_tables c k : cell_key c = Some k -> (bool_decide (key_table k = "externalexecution") = true /\ key_table k <> event_table)
  \/ (bool_decide (key_table k = "externalexecution") = false /\ key_table k = event_table /\ key_table k <> execution_table).
Proof. intros (_ & _ & [[-> _]|[-> _]])%cell_key_inv; [left|right]; done. Qed.

Section guarantees.
Context `{Crypto}.

Lemma validateManifestCell_state l i c s : state_of l s -> state_of (l ++ [c]) (validateManifestCell i c s).1.
Proof.
  intros [Hraw Hseen He Hv Hoe Hov Hp]. unfold validateManifestCell, validateManifestCellKey.
  assert (forall b, st_populatedCellCount s = Z.of_nat (count populated l) ->
    populated c = negb b -> (if b then st_populatedCellCount s else st_populatedCellCount s + 1)%Z = Z.of_nat (count populated (l ++ [c]))) as Hcount.
  { intros b E Eb. rewrite count_app, count_cons, E, Eb. destruct b; unfold count; simpl; lia. }
  specialize (Hcount _ Hp eq_refl).
  destruct (rawKey (dec_Raw c)) as [k|e] eqn:Ek; simpl.
  - assert (cell_key c = Some k) as Hk by (unfold cell_key; by rewrite Ek).
    assert (forall table, key_table k <> table -> forall k', cell_key c = Some k' -> key_table k' <> table) as Hother
      by (intros table Ht k'; rewrite Hk; by intros [= <-]).
    split; simpl; try done.
    + by rewrite Hraw, fmap_app.
    + intros k'. rewrite keys_snoc, Hk, elem_of_app, list_elem_of_singleton, <- Hseen, elem_of_union, elem_of_singleton. tauto.
    + destruct (key_tables _ _ Hk) as [[-> Ht]|(-> & Ht & Hne)]; [|by apply ids_of_other; auto].
      apply ids_of_add; [done| |done]. destruct (cell_key_inv _ _ Hk) as (_ & _ & [[Ht' _]|[Ht' _]]); [done | congruence].
    + destruct (key_tables _ _ Hk) as [[_ Ht]|(_ & Ht & Hne)].
      * rewrite (bool_decide_eq_false_2 _ Ht). apply ids_of_other; auto.
      * rewrite (bool_decide_eq_true_2 _ Ht). by apply ids_of_add.
    + destruct (key_tables _ _ Hk) as [[-> Ht]|(-> & Ht & Hne)]; [|by apply ordinals_of_other; auto].
      apply ordinals_of_add; [done| |done]. destruct (cell_key_inv _ _ Hk) as (_ & _ & [[Ht' _]|[Ht' _]]); [done | congruence].
    + destruct (key_tables _ _ Hk) as [[_ Ht]|(_ & Ht & Hne)].
      * rewrite (bool_decide_eq_false_2 _ Ht). apply ordinals_of_other; auto.
      * rewrite (bool_decide_eq_true_2 _ Ht). by apply ordinals_of_add.
  - assert (cell_key c = None) as Hk by (unfold cell_key; by rewrite Ek).
    assert (forall table k, cell_key c = Some k -> key_table k <> table) as Hother by (intros table k; by rewrite Hk).
    split; simpl; try done; eauto using ids_of_other, ordinals_of_other.
    + by rewrite Hraw, fmap_app.
    + intros k'. by rewrite keys_snoc, Hk, app_nil_r.
Qed.

(** A cell of a valid manifest. *)
Record cell_ok (c : CellDecision) : Prop := {
  co_key : exists k, cell_key c = Some k;
  co_checksum : ComputeRawCellChecksum (dec_Raw c) = Ok (cell_RawCellChecksum (dec_Raw c));
  co_format : checksumPattern (cell_RawCellChecksum (dec_Raw c)) = true;
  co_version : dec_ConversionExpressionVersion c = ConversionExpressionVersion; co_decision : decision_ok c }.

Lemma cell_checksum_nil i raw : cell_checksum_problems i raw = [] <-> ComputeRawCellChecksum raw = Ok (cell_RawCellChecksum raw).
Proof.
  unfold cell_checksum_problems. destruct (ComputeRawCellChecksum raw) as [sum|e]; [|done]. no_problems.
  split; [by intros -> | by intros [= <-]].
Qed.

Lemma validateManifestCell_nil l i c s : state_of l s ->
  (validateManifestCell i c s).2 = [] <-> cell_ok c /\ forall k, cell_key c = Some k -> k ∉ keys l.
Proof.
  intros [_ Hseen _ _ _ _ _]. unfold validateManifestCell, validateManifestCellKey.
  destruct (rawKey (dec_Raw c)) as [k|e] eqn:Ek; cbn [fst snd]; no_problems; rewrite ?cell_checksum_nil, ?decision_ok_iff.
  - assert (cell_key c = Some k) as Hk by (unfold cell_key; by rewrite Ek). rewrite Hk, Hseen. split.
    + intros (Hd & Hs & Hf & Hv & Hdec). split; [split; [by eexists|done..]|]. by intros k' [= <-].
    + intros [[_ Hs Hf Hv Hd] Hn]. auto.
  - split; [by intros []|]. intros [[[k Hk] _ _ _ _] _]. unfold cell_key in Hk. by rewrite Ek in Hk.
Qed.

Lemma validate_cells_from_state l i l' s : state_of l s -> state_of (l ++ l') (validate_cells_from i l' s).1.
Proof.
  revert i l s. induction l' as [|c l' IH]; intros i l s Hs; simpl; [by rewrite app_nil_r|].
  pose proof (validateManifestCell_state l i c s Hs) as Hs1. destruct (validateManifestCell i c s) as [s1 p1]. simpl in Hs1.
  specialize (IH (S i) _ _ Hs1). destruct (validate_cells_from (S i) l' s1) as [s2 p2]. simpl in *.
  by rewrite <- app_assoc in IH.
Qed.

Lemma validate_cells_from_nil l i l' s : state_of l s -> NoDup (keys l) ->
  (validate_cells_from i l' s).2 = [] <-> Forall cell_ok l' /\ NoDup (keys (l ++ l')).
Proof.
  revert i l s. induction l' as [|c l' IH]; intros i l s Hs Hnd; simpl; [by rewrite app_nil_r|].
  pose proof (validateManifestCell_state l i c s Hs) as Hs1. pose proof (validateManifestCell_nil l i c s Hs) as Hn1.
  destruct (validateManifestCell i c s) as [s1 p1]. simpl in Hs1, Hn1. specialize (IH (S i) _ _ Hs1).
  destruct (validate_cells_from (S i) l' s1) as [s2 p2]. simpl in *. rewrite app_nil, Hn1, Forall_cons.
  rewrite <- app_assoc in IH. change ([c] ++ l') with (c :: l') in IH.
  assert (NoDup (keys (l ++ c :: l')) -> NoDup (keys (l ++ [c])) /\ forall k, cell_key c = Some k -> k ∉ keys l) as Hsplit.
  { unfold keys. rewrite !omap_app. simpl. destruct (cell_key c) as [k|]; simpl; rewrite !NoDup_app.
    - rewrite NoDup_cons. intros (H1 & H2 & H3 & H4). split; [|intros k' [= <-] Hk; apply (H2 _ Hk); by left].
      split; [done|]. split; [|by apply NoDup_singleton]. intros x Hx ->%list_elem_of_singleton. apply (H2 _ Hx). by left.
    - intros (H1 & H2 & H3). split; [|done]. split; [done|]. split; [|by apply NoDup_nil]. by intros x _ ?%elem_of_nil. }
  split.
  - intros [[Hc Hk] Hp]. assert (NoDup (keys (l ++ [c]))) as Hnd1.
    { rewrite keys_snoc, NoDup_app. split; [done|]. destruct (cell_key c) as [k|]; (split; [|first [apply NoDup_singleton | constructor]]).
      - intros x Hx ->%list_elem_of_singleton. by apply (Hk k).
      - by intros x _ ?%elem_of_nil. }
    destruct (IH Hnd1) as [H1 _]. destruct (H1 Hp) as [Hf Hn]. split; [by split | done].
  - intros [[Hc Hf] Hn]. destruct (Hsplit Hn) as [Hnd1 Hk]. split; [done|]. apply IH; [done|]. by split.
Qed.

Lemma validateManifestCells_spec l : state_of l (validateManifestCells l).1
  /\ ((validateManifestCells l).2 = [] <-> Forall cell_ok l /\ NoDup (keys l)).
Proof.
  split; [apply (validate_cells_from_state []), no_cells_state|].
  apply (validate_cells_from_nil [] 0 l no_cells no_cells_state). constructor.
Qed.

(** ** The whole snapshot *)

(** The cells of a snapshot of executions and events. *)
Definition execution_keys (u : uuid) : list rawCellKey := row_key execution_table u <$> [1; 2; 3; 4; 5]%Z.
Definition snapshot_keys (executions events : list uuid) : list rawCellKey :=
  (executions ≫= execution_keys) ++ ((λ u, row_key event_table u 6) <$> events).

Lemma elem_of_execution_keys k u : k ∈ execution_keys u <-> exists o, (1 <= o <= 5)%Z /\ k = row_key execution_table u o.
Proof.
  unfold execution_keys. rewrite list_elem_of_fmap. split.
  - intros (o & -> & Ho). exists o. split; [|done]. rewrite !elem_of_cons in Ho.
    destruct Ho as [-> |[-> |[-> |[-> |[-> |Ho%elem_of_nil]]]]]; lia || done.
  - intros (o & Ho & ->). exists o. split; [done|]. rewrite !elem_of_cons. lia.
Qed.
Lemma elem_of_snapshot_keys k executions events : k ∈ snapshot_keys executions events <->
  (exists u o, u ∈ executions /\ (1 <= o <= 5)%Z /\ k = row_key execution_table u o)
  \/ (exists u, u ∈ events /\ k = row_key event_table u 6).
Proof.
  unfold snapshot_keys. rewrite elem_of_app, list_elem_of_bind, list_elem_of_fmap.
  setoid_rewrite elem_of_execution_keys. split.
  - intros [(u & (o & Ho & ->) & Hu)|(u & -> & Hu)]; [left; by exists u, o | right; by exists u].
  - intros [(u & o & Hu & Ho & ->)|(u & Hu & ->)]; [left; exists u; split; [by exists o|done] | right; by exists u].
Qed.
Lemma length_snapshot_keys executions events : length (snapshot_keys executions events) = 5 * length executions + length events.
Proof.
  unfold snapshot_keys. rewrite length_app, length_fmap. f_equal.
  induction executions as [|u l IH]; [done|]. rewrite bind_cons, length_app, IH. simpl. lia.
Qed.
Lemma NoDup_snapshot_keys executions events : NoDup executions -> NoDup events -> NoDup (snapshot_keys executions events).
Proof.
  intros He Hv. unfold snapshot_keys. apply NoDup_app. split; [|split].
  - induction He as [|u l Hu He IH]; [constructor|]. rewrite bind_cons, NoDup_app. split; [|split; [|done]].
    + unfold execution_keys. apply NoDup_fmap_2_strong; [by intros x y _ _ (_ & _ & ->)%row_key_inj|].
      apply (bool_decide_unpack _). by vm_compute.
    + intros k (o & _ & ->)%elem_of_execution_keys (v & (p & _ & Hk)%elem_of_execution_keys & Hv')%list_elem_of_bind.
      apply row_key_inj in Hk as (_ & -> & _). done.
  - intros k (u & (o & _ & ->)%elem_of_execution_keys & _)%list_elem_of_bind (v & E & _)%list_elem_of_fmap.
    by apply row_key_inj in E as (E & _).
  - apply NoDup_fmap_2_strong; [by intros x y _ _ (_ & -> & _)%row_key_inj | done].
Qed.

(** The ids that a map keeps under their texts. *)
Lemma ids_of_values table l m u : ids_of table l m -> u ∈ map_values m <-> exists o, row_key table u o ∈ keys l.
Proof.
  intros Hm. unfold map_values. rewrite list_elem_of_fmap. split.
  - intros ([row v] & -> & Hv%elem_of_map_to_list). apply Hm in Hv. by destruct Hv.
  - intros Ho. exists (uuid_string u, u). split; [done|]. apply elem_of_map_to_list, Hm. by split.
Qed.
Lemma ids_of_NoDup table l m : ids_of table l m -> NoDup (map_values m).
Proof.
  intros Hm. unfold map_values. apply NoDup_fmap_2_strong; [|apply NoDup_map_to_list].
  intros [r u] [r' u'] Hx Hy. simpl. intros ->. apply elem_of_map_to_list, Hm in Hx as [-> _].
  by apply elem_of_map_to_list, Hm in Hy as [-> _].
Qed.
Lemma length_map_values {A} (m : gmap string A) : length (map_values m) = size m.
Proof. unfold map_values. by rewrite length_fmap, length_map_to_list. Qed.

(** The ordinals 1 to 5. *)
Lemma ordinal_bits b : (forall o, (0 <= o)%Z -> Z.testbit b o = true -> (1 <= o <= 5)%Z) ->
  (b =? expectedExecutionOrdinals)%Z = true <-> forall o, (1 <= o <= 5)%Z -> Z.testbit b o = true.
Proof.
  intros Hb. rewrite Z.eqb_eq. split.
  - intros -> o Ho. assert (o = 1 \/ o = 2 \/ o = 3 \/ o = 4 \/ o = 5)%Z as [-> |[-> |[-> |[-> | ->]]]] by lia; done.
  - intros Ho. apply Z.bits_inj'. intros n Hn. destruct (decide (1 <= n <= 5)%Z) as [Hr|Hr].
    + rewrite Ho by done. assert (n = 1 \/ n = 2 \/ n = 3 \/ n = 4 \/ n = 5)%Z as [-> |[-> |[-> |[-> | ->]]]] by lia; done.
    + transitivity false; [destruct (Z.testbit b n) eqn:E; [by apply Hb in E|done]|]. symmetry.
      unfold expectedExecutionOrdinals. destruct (decide (n = 0)%Z) as [-> |Hn0]; [done|].
      apply Z.bits_above_log2; [lia|]. change (Z.log2 62) with 5%Z. lia.
Qed.

(** Every execution of the cells has all its ordinals. *)
Lemma ordinals_complete l m : ordinals_of execution_table l m ->
  (map_to_list m ≫= λ x, problem_if (negb (x.2 =? expectedExecutionOrdinals)%Z)
     ("execution " +:+ x.1 +:+ " must contain exactly ordinals 1 through 5")) = []
  <-> forall u p o, row_key execution_table u p ∈ keys l -> (1 <= o <= 5)%Z -> row_key execution_table u o ∈ keys l.
Proof.
  intros [Hm Hb]. assert (forall u o, (0 <= o)%Z -> Z.testbit (default 0%Z (m !! uuid_string u)) o = true -> (1 <= o <= 5)%Z) as Hr.
  { intros u o Ho Ht. apply Hb in Ht; [|done]. apply keys_row in Ht as (v & _ & [(q & Hq & E)|E]);
      apply row_key_inj in E as (Et & _ & ->); [done | discriminate Et]. }
  rewrite bind_nil. split.
  - intros Hp u p o Hk Ho. assert (0 <= p)%Z as Hp0.
    { apply keys_row in Hk as (v & _ & [(q & Hq & E)|E]); apply row_key_inj in E as (_ & _ & ->); lia. }
    apply Hb in Hk; [|done]. destruct (m !! uuid_string u) as [b|] eqn:Em; [|by rewrite Z.bits_0 in Hk].
    specialize (Hp (uuid_string u, b) ltac:(by apply elem_of_map_to_list)). apply problem_if_nil, negb_false_iff in Hp.
    apply Hb; [lia|]. rewrite Em. cbn [default from_option id].
    refine (proj1 (ordinal_bits b _) Hp o Ho). intros q Hq Ht. apply (Hr u q Hq). by rewrite Em.
  - intros Hc [row b] Hx%elem_of_map_to_list. apply problem_if_nil, negb_false_iff. simpl.
    destruct (Hm _ _ Hx) as (u & p & -> & Hk). apply ordinal_bits.
    + intros q Hq Ht. apply (Hr u q Hq). by rewrite Hx.
    + intros o Ho. specialize (Hc u p o Hk Ho). apply Hb in Hc; [|lia]. by rewrite Hx in Hc.
Qed.

Lemma event_ordinals_ok l m : ordinals_of event_table l m ->
  (map_to_list m ≫= λ x, problem_if (negb (x.2 =? Z.shiftl 1 6)%Z) ("event " +:+ x.1 +:+ " must contain exactly ordinal 6")) = [].
Proof.
  intros [Hm Hb]. apply bind_nil. intros [row b] Hx%elem_of_map_to_list. apply problem_if_nil, negb_false_iff, Z.eqb_eq. simpl.
  destruct (Hm _ _ Hx) as (u & p & -> & Hk).
  assert (forall o, row_key event_table u o ∈ keys l -> o = 6%Z) as H6.
  { intros o (v & _ & [(q & Hq & E)|E])%keys_row; apply row_key_inj in E as (Et & _ & ->); [discriminate Et | done]. }
  pose proof (H6 _ Hk) as ->. apply Z.bits_inj'. intros n Hn. rewrite Z.shiftl_1_l, Z.pow2_bits_eqb by lia.
  specialize (Hb u n Hn). rewrite Hx in Hb. cbn [default from_option id] in Hb.
  destruct (Z.eqb_spec 6 n) as [<-|Hne]; [by apply Hb|]. destruct (Z.testbit b n); [|done].
  destruct Hne. symmetry. by apply H6, Hb.
Qed.

(** ** The identity of the database *)

Lemma string_of_bytes_inj k l : Forall (λ n, (n < 256)%N) k -> Forall (λ n, (n < 256)%N) l ->
  foldr (λ n s, String (ascii_of_N n) s) "" k = foldr (λ n s, String (ascii_of_N n) s) "" l -> k = l.
Proof.
  intros Hk. revert l. induction Hk as [|x k Hx Hk IH]; intros [|y l] Hl; simpl; try done. intros E.
  apply Forall_cons in Hl as [Hy Hl]. injection E as Ea El. f_equal; [|by apply IH].
  apply (f_equal N_of_ascii) in Ea. by rewrite !N_ascii_embedding in Ea.
Qed.
Lemma uuid_raw_inj u v : uuid_raw u = uuid_raw v -> u = v.
Proof.
  intros E. unfold uuid_raw in E. apply string_of_bytes_inj in E.
  - apply (inj Some). by rewrite <- !uuid_of_to_bytes, E.
  - unfold uuid_bytes. apply Forall_fmap, Forall_true. intros b. simpl. pose proof (Byte.to_N_bounded b). lia.
  - unfold uuid_bytes. apply Forall_fmap, Forall_true. intros b. simpl. pose proof (Byte.to_N_bounded b). lia.
Qed.

Lemma existsb_perm {A} (p : A -> bool) k l : k ≡ₚ l -> existsb p k = existsb p l.
Proof.
  induction 1 as [|x k l _ IH|x y l|? ? ? _ IH1 _ IH2]; simpl; [done|by rewrite IH| |by rewrite IH1].
  destruct (p x), (p y); done.
Qed.
Lemma canonicalIDs_perm kind k l : k ≡ₚ l -> canonicalIDs kind k = canonicalIDs kind l.
Proof.
  intros Hp. unfold canonicalIDs. rewrite (existsb_perm _ _ _ Hp), (stable_sort_unique (less_str_by uuid_raw) k l); [done..|].
  intros x y _ _ H1 H2. by apply uuid_raw_inj, string_less_total.
Qed.
Lemma identity_perm v e e' ev ev' n sum : e ≡ₚ e' -> ev ≡ₚ ev' ->
  ComputeDatabaseIdentityChecksum v e ev n sum = ComputeDatabaseIdentityChecksum v e' ev' n sum.
Proof. intros He Hv. unfold ComputeDatabaseIdentityChecksum. by rewrite (canonicalIDs_perm _ _ _ He), (canonicalIDs_perm _ _ _ Hv). Qed.

(** ** Valid manifests *)

Record complete (m : Manifest) : Prop := {
  cm_evidence : TrimSpace (man_EvidenceBundleReference m) <> ""; cm_bundle : checksumPattern (man_EvidenceBundleChecksum m) = true;
  cm_author : TrimSpace (man_AuthorIdentity m) <> ""; cm_reviewer : TrimSpace (man_ReviewerIdentity m) <> "";
  cm_distinct : TrimSpace (man_AuthorIdentity m) <> TrimSpace (man_ReviewerIdentity m);
  cm_commit : commitPattern (man_TargetReleaseCommit m) = true; cm_image : checksumPattern (man_TargetImageDigest m) = true }.
Definition unapproved (m : Manifest) : Prop := man_ApprovedAt m = "" /\ Forall (λ s, s = "") (approval_fields m).
Definition approved_at (m : Manifest) : Prop := exists t, ParseInstant (man_ApprovedAt m) = Ok t.

Inductive approval_ok (m : Manifest) : Prop :=
  | draft_ok : man_State m = StateDraft -> unapproved m \/ complete m /\ man_ApprovedAt m = "" -> approval_ok m
  | approved_ok : man_State m ∈ [StateApproved; StateApplied; StateVerified] -> complete m -> approved_at m -> approval_ok m
  | revoked_ok : man_State m = StateRevokedBeforeApply -> unapproved m \/ complete m /\ approved_at m -> approval_ok m.

(** The cells are the cells of some executions and events of the database,
    whose identity is the one that the manifest names. *)
Definition snapshot_of (m : Manifest) (executions events : list uuid) : Prop :=
  NoDup executions /\ NoDup events /\ Z.of_nat (length executions) = man_ExecutionCount m
  /\ Z.of_nat (length events) = man_EventCount m /\ keys (man_Cells m) ≡ₚ snapshot_keys executions events
  /\ ComputeDatabaseIdentityChecksum 137 executions events (man_RawCellCount m) (man_RawCellChecksum m)
     = Ok (man_DatabaseIdentityChecksum m).

Record valid_manifest (m : Manifest) : Prop := {
  vm_id : man_ID m <> Nil; vm_supersedes u : man_SupersedesManifestID m = Some u -> u <> Nil /\ u <> man_ID m;
  vm_schema : man_SourceSchemaVersion m = 137%Z; vm_tool : TrimSpace (man_ToolVersion m) <> "";
  vm_conversion : man_ConversionExpressionVersion m = ConversionExpressionVersion;
  vm_interval : exists s e, ParseInstant (man_SnapshotStartedAt m) = Ok s /\ ParseInstant (man_SnapshotEndedAt m) = Ok e /\ (s <= e)%Z;
  vm_cells : Forall cell_ok (man_Cells m); vm_snapshot : exists executions events, snapshot_of m executions events;
  vm_count : man_RawCellCount m = Z.of_nat (length (man_Cells m));
  vm_populated : man_PopulatedCellCount m = Z.of_nat (count populated (man_Cells m));
  vm_raw : ComputeRawSetChecksum (dec_Raw <$> man_Cells m) = Ok (man_RawCellChecksum m); vm_approval : approval_ok m;
  vm_format : checksumPattern (man_DecisionContentChecksum m) = true;
  vm_decisions : ComputeDecisionContentChecksum m = Ok (man_DecisionContentChecksum m) }.

Lemma header_nil m : validateManifestHeader m = [] <->
  man_ID m <> Nil /\ (forall u, man_SupersedesManifestID m = Some u -> u <> Nil /\ u <> man_ID m) /\ man_SourceSchemaVersion m = 137%Z
  /\ checksumPattern (man_DatabaseIdentityChecksum m) = true /\ checksumPattern (man_RawCellChecksum m) = true
  /\ checksumPattern (man_DecisionContentChecksum m) = true /\ TrimSpace (man_ToolVersion m) <> ""
  /\ man_ConversionExpressionVersion m = ConversionExpressionVersion.
Proof.
  unfold validateManifestHeader, is_nil, blank_field. no_problems.
  assert (supersedes_problems m = [] <-> forall u, man_SupersedesManifestID m = Some u -> u <> Nil /\ u <> man_ID m) as ->; [|done].
  unfold supersedes_problems, is_nil. destruct (man_SupersedesManifestID m) as [u|]; [|done].
  case_bool_decide as Hu.
  - split; [done|]. intros Hs. by destruct (Hs u eq_refl).
  - no_problems. split; [by intros Hne v [= <-] | intros Hs; by apply (Hs u)].
Qed.

Lemma interval_nil m : validateManifestSnapshotInterval m = [] <->
  exists s e, ParseInstant (man_SnapshotStartedAt m) = Ok s /\ ParseInstant (man_SnapshotEndedAt m) = Ok e /\ (s <= e)%Z.
Proof.
  unfold validateManifestSnapshotInterval. no_problems. split.
  - intros ([s Hs] & [e He] & Hp). exists s, e. rewrite Hs, He in Hp. by apply problem_if_nil, Z.ltb_ge in Hp.
  - intros (s & e & -> & -> & Hle). split; [by eexists|]. split; [by eexists|]. by apply problem_if_nil, Z.ltb_ge.
Qed.

Lemma complete_nil m b : validateComplete m b = [] <->
  complete m /\ if b then approved_at m else man_ApprovedAt m = "".
Proof.
  unfold validateComplete, blank_field.
  assert ((if b then error_of "approved at: " (ParseInstant (man_ApprovedAt m))
           else problem_if (negb (bool_decide (man_ApprovedAt m = ""))) "DRAFT manifest must not have approved at") = []
          <-> if b then approved_at m else man_ApprovedAt m = "") as Ha by (destruct b; by no_problems).
  no_problems. rewrite Ha. split.
  - intros (H1 & H2 & H3 & H4 & H5 & H6 & H7 & H8). split; [|done]. split; try done. intros E. by apply H5.
  - intros [[] H8]. repeat split; try done. by intros (_ & _ & ?).
Qed.
Lemma allFieldsEmpty_true m : allFieldsEmpty m = true <-> unapproved m.
Proof.
  unfold allFieldsEmpty, unapproved. rewrite andb_true_iff, forallb_forall, bool_decide_eq_true, Forall_forall.
  setoid_rewrite bool_decide_eq_true. setoid_rewrite list_elem_of_In. tauto.
Qed.
Lemma draft_not_approved : StateDraft ∉ [StateApproved; StateApplied; StateVerified].
Proof. by apply (bool_decide_unpack _). Qed.
Lemma approval_nil m : validateManifestApprovalMetadata m = [] <-> approval_ok m.
Proof.
  unfold validateManifestApprovalMetadata. destruct (decide (man_State m = StateDraft)) as [Hd|Hd].
  { rewrite bool_decide_eq_true_2 by done. destruct (allFieldsEmpty m) eqn:Ee.
    - split; [|done]. intros _. apply draft_ok; [done|]. left. by apply allFieldsEmpty_true.
    - rewrite complete_nil. split; [by intros; apply draft_ok; [|right]|].
      intros [_ [Hu|Hc]|Hin|Hr]; [apply allFieldsEmpty_true in Hu; congruence | done | |];
        [rewrite Hd in Hin; by apply draft_not_approved in Hin | rewrite Hd in Hr; discriminate Hr]. }
  rewrite bool_decide_eq_false_2 by done. destruct (contains _ (man_State m)) eqn:Ec.
  { apply contains_true in Ec. rewrite complete_nil. split; [by intros [? ?]; apply approved_ok|].
    intros [?|_ ? ?|Hr]; [done|done|]. rewrite Hr in Ec. rewrite !elem_of_cons in Ec. destruct Ec as [Ec|[Ec|[Ec|Ec%elem_of_nil]]]; done. }
  apply contains_false in Ec. destruct (decide (man_State m = StateRevokedBeforeApply)) as [Hr|Hr].
  - rewrite bool_decide_eq_true_2 by done. destruct (allFieldsEmpty m) eqn:Ee.
    + split; [|done]. intros _. apply revoked_ok; [done|]. left. by apply allFieldsEmpty_true.
    + rewrite complete_nil. split; [by intros; apply revoked_ok; [|right]|].
      intros [?|?|_ [Hu|Hc]]; [done|done| |done]. apply allFieldsEmpty_true in Hu. congruence.
  - rewrite bool_decide_eq_false_2 by done. split; [done|]. by intros [].
Qed.

Lemma keys_length l : Forall cell_ok l -> length (keys l) = length l.
Proof. induction 1 as [|c l [[k Hk] _ _ _ _] _ IH]; [done|]. unfold keys in *. simpl. by rewrite Hk, <- IH. Qed.

Lemma keys_of_snapshot l s : state_of l s -> NoDup (keys l) ->
  (forall u p o, row_key execution_table u p ∈ keys l -> (1 <= o <= 5)%Z -> row_key execution_table u o ∈ keys l) ->
  keys l ≡ₚ snapshot_keys (map_values (st_executionIDs s)) (map_values (st_eventIDs s)).
Proof.
  intros [_ _ He Hv _ _ _] Hnd Hc. apply NoDup_Permutation; [done|apply NoDup_snapshot_keys; eauto using ids_of_NoDup|].
  intros k. rewrite elem_of_snapshot_keys. setoid_rewrite (ids_of_values _ _ _ _ He). setoid_rewrite (ids_of_values _ _ _ _ Hv). split.
  - intros Hk. pose proof Hk as (u & _ & [(o & Ho & ->)| ->])%keys_row; [left; exists u, o | right; exists u]; split; eauto.
  - intros [(u & o & [p Hp] & Ho & ->)|(u & [p Hp] & ->)]; [by apply (Hc u p)|].
    pose proof Hp as (v & _ & [(q & _ & E)|E])%keys_row; apply row_key_inj in E as (Et & -> & ->); [discriminate Et | done].
Qed.

Lemma snapshot_of_keys l s executions events : state_of l s -> NoDup executions -> NoDup events ->
  keys l ≡ₚ snapshot_keys executions events ->
  NoDup (keys l) /\ executions ≡ₚ map_values (st_executionIDs s) /\ events ≡ₚ map_values (st_eventIDs s)
  /\ forall u p o, row_key execution_table u p ∈ keys l -> (1 <= o <= 5)%Z -> row_key execution_table u o ∈ keys l.
Proof.
  intros [_ _ He Hv _ _ _] Hne Hnv Hk.
  assert (forall k, k ∈ keys l <-> k ∈ snapshot_keys executions events) as Hel by (intros k; by rewrite Hk).
  setoid_rewrite elem_of_snapshot_keys in Hel. split; [rewrite Hk; by apply NoDup_snapshot_keys|]. split; [|split].
  - apply NoDup_Permutation; [done|by eapply ids_of_NoDup|]. intros u. rewrite (ids_of_values _ _ _ _ He). setoid_rewrite Hel. split.
    + intros Hu. exists 1%Z. left. exists u, 1%Z. by split; [|split; [lia|]].
    + intros [o [(v & p & Hv' & _ & E)|(v & _ & E)]]; apply row_key_inj in E as (Et & -> & _); [done | discriminate Et].
  - apply NoDup_Permutation; [done|by eapply ids_of_NoDup|]. intros u. rewrite (ids_of_values _ _ _ _ Hv). setoid_rewrite Hel. split.
    + intros Hu. exists 6%Z. right. by exists u.
    + intros [o [(v & p & _ & _ & E)|(v & Hv' & E)]]; apply row_key_inj in E as (Et & -> & _); [discriminate Et | done].
  - setoid_rewrite Hel. intros u p o [(v & q & Hu & _ & E)|(v & _ & E)] Ho; apply row_key_inj in E as (Et & -> & _);
      [left; by exists v, o | discriminate Et].
Qed.

Lemma identity_nil m actual s : validateManifestSnapshotIdentity m actual s = [] <->
  ComputeRawSetChecksum (st_rawCells s) = Ok (man_RawCellChecksum m)
  /\ ComputeDatabaseIdentityChecksum (man_SourceSchemaVersion m) (map_values (st_executionIDs s)) (map_values (st_eventIDs s)) actual
       (man_RawCellChecksum m) = Ok (man_DatabaseIdentityChecksum m).
Proof.
  unfold validateManifestSnapshotIdentity. destruct (ComputeRawSetChecksum _) as [raw|e]; [|split; [done|by intros []]].
  no_problems. split.
  - intros [-> Hp]. split; [done|]. destruct (ComputeDatabaseIdentityChecksum _ _ _ _ _) as [i|e]; [|done].
    revert Hp. no_problems. by intros ->.
  - intros [[= ->] ->]. split; [done|]. by no_problems.
Qed.

Definition uint64 (n : Z) : Prop := (0 <= n < 2 ^ 64)%Z.
Definition uint64_counts (m : Manifest) : Prop := uint64 (man_ExecutionCount m) /\ uint64 (man_EventCount m) /\ uint64 (man_RawCellCount m).

Lemma raw_count_nil m actual : uint64_counts m -> validateManifestRawCellCount m actual = [] <->
  man_RawCellCount m = (5 * man_ExecutionCount m + man_EventCount m)%Z /\ man_RawCellCount m = actual.
Proof.
  intros (He & Hv & Hr). unfold validateManifestRawCellCount, uint64, maximumUint64 in *.
  set (E := man_ExecutionCount m) in *. set (V := man_EventCount m) in *. set (R := man_RawCellCount m) in *.
  destruct (_ <? E)%Z eqn:Eo.
  - rewrite app_nil. split; [by intros []|]. intros [Hs _]. apply Z.ltb_lt in Eo.
    exfalso. Z.to_euclidean_division_equations. lia.
  - apply Z.ltb_ge in Eo. no_problems. rewrite Z.mod_small; [done|]. Z.to_euclidean_division_equations. lia.
Qed.

Lemma decision_content_nil m : decision_content_problems m = [] <-> ComputeDecisionContentChecksum m = Ok (man_DecisionContentChecksum m).
Proof.
  unfold decision_content_problems. destruct (ComputeDecisionContentChecksum m) as [sum|e]; [|done]. no_problems.
  split; [by intros -> | by intros [= <-]].
Qed.

Lemma decision_content_patterns m sum : ComputeDecisionContentChecksum m = Ok sum ->
  checksumPattern (man_DatabaseIdentityChecksum m) = true /\ checksumPattern (man_RawCellChecksum m) = true.
Proof.
  unfold ComputeDecisionContentChecksum. destruct (is_nil _); [done|]. do 2 (destruct (checksumPattern _); [|done]). done.
Qed.

Lemma cell_set_nil m actual s l : state_of l s -> validateManifestCellSet m actual s = [] <->
  (forall u p o, row_key execution_table u p ∈ keys l -> (1 <= o <= 5)%Z -> row_key execution_table u o ∈ keys l)
  /\ Z.of_nat (length (map_values (st_executionIDs s))) = man_ExecutionCount m
  /\ Z.of_nat (length (map_values (st_eventIDs s))) = man_EventCount m
  /\ man_PopulatedCellCount m = Z.of_nat (count populated l) /\ validateManifestSnapshotIdentity m actual s = [].
Proof.
  intros [_ _ _ _ Hoe Hov Hp]. unfold validateManifestCellSet.
  rewrite !app_nil, (ordinals_complete _ _ Hoe), (event_ordinals_ok _ _ Hov), Hp, !length_map_values. no_problems.
  split; [intros (? & _ & ? & ? & ? & ?) | intros (? & ? & ? & ? & ?)]; auto 10.
Qed.

Lemma document_valid_iff m : uint64_counts m ->
  ValidateManifestDocument m = [] <-> valid_manifest m.
Proof.
  intros Hcounts. pose proof (validateManifestCells_spec (man_Cells m)) as [Hst Hcells]. unfold ValidateManifestDocument.
  destruct (validateManifestCells (man_Cells m)) as [s problems]. simpl in *.
  rewrite !app_nil, header_nil, interval_nil, raw_count_nil, Hcells, (cell_set_nil _ _ _ _ Hst), identity_nil, approval_nil,
    decision_content_nil by done. rewrite (so_raw _ _ Hst). split.
  - intros ((Hid & Hsup & Hver & _ & _ & Hf & Htool & Hconv) & Hint & (_ & Hn) & (Hok & Hnd) & (Hc & Hne & Hnv & Hpop & Hraw & Hdb) & Hap & Hdec).
    split; try done. exists (map_values (st_executionIDs s)), (map_values (st_eventIDs s)).
    rewrite Hver, <- Hn in Hdb. pose proof (keys_of_snapshot _ _ Hst Hnd Hc). destruct Hst. split; [by eapply ids_of_NoDup|].
    split; [by eapply ids_of_NoDup|done].
  - intros [Hid Hsup Hver Htool Hconv Hint Hok (ex & ev & Hne & Hnv & Hle & Hlv & Hk & Hdb) Hn Hpop Hraw Hap Hf Hdec].
    destruct (snapshot_of_keys _ _ _ _ Hst Hne Hnv Hk) as (Hnd & Hpe & Hpv & Hc).
    destruct (decision_content_patterns _ _ Hdec) as [Hf1 Hf2].
    pose proof (keys_length _ Hok) as Hlen. rewrite Hk, length_snapshot_keys in Hlen.
    assert (man_RawCellCount m = (5 * man_ExecutionCount m + man_EventCount m)%Z) as Hsum by (rewrite Hn, <- Hle, <- Hlv; lia).
    rewrite Hver, <- Hn, <- (identity_perm _ _ _ _ _ _ _ Hpe Hpv), <- (Permutation_length Hpe), <- (Permutation_length Hpv).
    auto 25.
Qed.

(** C27: the validation of a manifest document accepts exactly the valid
    manifests: the cells are all the cells of distinct executions (ordinals 1
    to 5) and events (ordinal 6) that the counts and the identity name, every
    resolved cell has the instant its wall clock and offset mean with its
    evidence, every other one has no conversion, and the checksums and the
    approval fit. *)
Theorem validation_accepts_valid_manifests m : uint64_counts m ->
  ValidateManifestDocument m = [] <-> valid_manifest m.
Proof. apply document_valid_iff. Qed.

(** ** Supersession *)

Lemma document_cells m : ValidateManifestDocument m = [] -> Forall cell_ok (man_Cells m) /\ NoDup (keys (man_Cells m)).
Proof.
  pose proof (validateManifestCells_spec (man_Cells m)) as [_ Hcells]. unfold ValidateManifestDocument.
  destruct (validateManifestCells (man_Cells m)) as [s problems]. rewrite !app_nil. intros (_ & _ & _ & Hp & _). by apply Hcells.
Qed.

Lemma keys_cons c l : keys (c :: l) = match cell_key c with Some k => k :: keys l | None => keys l end.
Proof. done. Qed.

Lemma index_previous_spec i l m k c : NoDup (keys l) -> (forall k, k ∈ keys l -> m !! k = None) ->
  (index_previous i l m).1 !! k = Some c <-> m !! k = Some c \/ c ∈ l /\ cell_key c = Some k.
Proof.
  revert i m. induction l as [|d l IH]; intros i m Hnd Hm; simpl.
  { split; [by left|]. intros [?|[Hc _]]; [done | by apply elem_of_nil in Hc]. }
  rewrite keys_cons in Hnd, Hm. unfold cell_key in Hnd, Hm. destruct (rawKey (dec_Raw d)) as [kd|e] eqn:Ek.
  - assert (cell_key d = Some kd) as Hd by (unfold cell_key; by rewrite Ek).
    apply NoDup_cons in Hnd as [Hkd Hnd]. rewrite (Hm kd) by (by left). rewrite IH; [|done|].
    + rewrite lookup_insert_Some, elem_of_cons. split.
      * intros [[[-> ->]|[_ ?]]|[? ?]]; auto.
      * intros [Hk|[[->|Hc] Hck]]; [left; right; split; [|done]|left; left; split; congruence|by right].
        intros ->. by rewrite (Hm k) in Hk by (by left).
    + intros k' Hk'. rewrite lookup_insert_ne by (by intros ->). apply Hm. by right.
  - assert (cell_key d = None) as Hd by (unfold cell_key; by rewrite Ek).
    specialize (IH (S i) m Hnd Hm). destruct (index_previous (S i) l m) as [m' more]. simpl in *. rewrite IH, elem_of_cons.
    split; [intros [?|[? ?]]; auto|]. intros [?|[[->|?] Hc]]; [by left|congruence|by right].
Qed.

Lemma index_next_spec l m k c : NoDup (keys l) -> (forall k, k ∈ keys l -> m !! k = None) -> index_next m l !! k = Some c
  <-> m !! k = Some c \/ c ∈ l /\ cell_key c = Some k.
Proof.
  revert m. induction l as [|d l IH]; intros m Hnd Hm; simpl.
  { split; [by left|]. intros [?|[Hc _]]; [done | by apply elem_of_nil in Hc]. }
  rewrite keys_cons in Hnd, Hm. unfold cell_key in Hnd, Hm. destruct (rawKey (dec_Raw d)) as [kd|e] eqn:Ek.
  - assert (cell_key d = Some kd) as Hd by (unfold cell_key; by rewrite Ek).
    apply NoDup_cons in Hnd as [Hkd Hnd]. rewrite IH; [|done|].
    + rewrite lookup_insert_Some, elem_of_cons. split.
      * intros [[[-> ->]|[_ ?]]|[? ?]]; auto.
      * intros [Hk|[[->|Hc] Hck]]; [left; right; split; [|done]|left; left; split; congruence|by right].
        intros ->. by rewrite (Hm k) in Hk by (by left).
    + intros k' Hk'. rewrite lookup_insert_ne by (by intros ->). apply Hm. by right.
  - assert (cell_key d = None) as Hd by (unfold cell_key; by rewrite Ek).
    rewrite (IH _ Hnd Hm), elem_of_cons. split; [intros [?|[? ?]]; auto|]. intros [?|[[->|?] Hc]]; [by left|congruence|by right].
Qed.

(** What a superseding manifest may do to a cell. *)
Record same_raw (c d : CellDecision) : Prop := {
  sr_key : cell_key d = cell_key c; sr_value : cell_RawValue (dec_Raw d) = cell_RawValue (dec_Raw c);
  sr_checksum : cell_RawCellChecksum (dec_Raw d) = cell_RawCellChecksum (dec_Raw c) }.
Definition resolution (c : CellDecision) :=
  (dec_Decision c, dec_SourceZone c, dec_SourceOffsetSeconds c, dec_ConvertedValue c, dec_EvidenceReference c, dec_EvidenceChecksum c,
   dec_ApprovingIdentity c, dec_ConversionExpressionVersion c).
Record evolves (c d : CellDecision) : Prop := {
  ev_raw : same_raw c d; ev_resolved : is_resolved (dec_Decision c) = true -> resolution d = resolution c;
  ev_null : dec_Decision c = DecisionNull -> dec_Decision d = DecisionNull;
  ev_unresolved : dec_Decision c = DecisionUnresolved -> dec_Decision d = DecisionUnresolved \/ is_resolved (dec_Decision d) = true }.

#[export] Instance evolves_preorder : PreOrder evolves.
Proof.
  split.
  - intros c. split; [by split|done|done|auto].
  - intros c d e [[K1 V1 S1] R1 N1 U1] [[K2 V2 S2] R2 N2 U2]. split; [split; congruence| |auto|].
    + intros Hr. specialize (R1 Hr). rewrite R2; [done|]. assert (dec_Decision d = dec_Decision c) as -> by (by injection R1). done.
    + intros Hu. destruct (U1 Hu) as [Hd|Hd]; [auto|]. right. specialize (R2 Hd).
      assert (dec_Decision e = dec_Decision d) as -> by (by injection R2). done.
Qed.

Lemma superseded_cell_evolves k c d : cell_key c = Some k -> cell_key d = Some k ->
  validateSupersededCell k c d = [] -> evolves c d.
Proof.
  intros Hc Hd. unfold validateSupersededCell. rewrite app_nil. intros [Hraw Hp]. revert Hraw. no_problems. intros [Hv Hs].
  assert (same_raw c d) as Hr by (split; congruence).
  destruct (is_resolved (dec_Decision c)) eqn:Er.
  - destruct (decision_names_distinct _ Er) as [Hn Hu]. split; [done| |done|done]. intros _. revert Hp.
    unfold validateSupersededResolvedCell. no_problems. intros (H1 & (H2 & H3 & H4 & H5 & H6 & H7) & H8).
    assert (dec_ConvertedValue d = dec_ConvertedValue c) as H9 by (destruct (decide (dec_ConvertedValue d = dec_ConvertedValue c)); tauto).
    unfold resolution. congruence.
  - destruct (decide (dec_Decision c = DecisionUnresolved)) as [Hu|Hu].
    + rewrite bool_decide_eq_true_2 in Hp by done. split; [done|congruence| |].
      * rewrite Hu. intros E. discriminate E.
      * intros _. revert Hp. unfold validateSupersededUnresolvedCell. rewrite problem_if_nil, negb_false_iff, contains_true, !elem_of_cons.
        unfold is_resolved. rewrite orb_true_iff, !bool_decide_eq_true. intros [?|[?|[?|E%elem_of_nil]]]; auto. done.
    + rewrite bool_decide_eq_false_2 in Hp by done. split; [done|congruence| |done].
      intros Hn. rewrite bool_decide_eq_true_2 in Hp by done. revert Hp. by no_problems.
Qed.

Definition snapshot_identity (m : Manifest) :=
  (man_SourceSchemaVersion m, man_SnapshotStartedAt m, man_SnapshotEndedAt m,
   (man_ExecutionCount m, man_EventCount m, man_RawCellCount m, man_PopulatedCellCount m),
   man_DatabaseIdentityChecksum m, man_RawCellChecksum m).

Definition supersedes (previous next : Manifest) : Prop := ValidateSupersession previous next = [].

Record continues (m0 m : Manifest) : Prop := {
  ct_identity : snapshot_identity m = snapshot_identity m0;
  ct_kept c : c ∈ man_Cells m0 -> exists d, d ∈ man_Cells m /\ evolves c d;
  ct_known d : d ∈ man_Cells m -> exists c, c ∈ man_Cells m0 /\ evolves c d }.
#[export] Instance continues_preorder : PreOrder continues.
Proof.
  split.
  - intros m. split; [done| |]; intros c Hc; by exists c.
  - intros x y z [I1 K1 B1] [I2 K2 B2]. split; [congruence| |].
    + intros c Hc. destruct (K1 c Hc) as (d & Hd & H1). destruct (K2 d Hd) as (e & He & H2). exists e. by split; [|etrans].
    + intros e He. destruct (B2 e He) as (d & Hd & H1). destruct (B1 d Hd) as (c & Hc & H2). exists c. by split; [|etrans].
Qed.

Lemma supersedes_metadata previous next : validateSupersessionMetadata previous next = [] ->
  snapshot_identity next = snapshot_identity previous /\ man_SupersedesManifestID next = Some (man_ID previous)
  /\ man_ID next <> man_ID previous.
Proof.
  unfold validateSupersessionMetadata. no_problems. unfold snapshot_identity.
  intros (H1 & H2 & H3 & (H4 & H5) & (H6 & H7 & H8 & H9) & H10 & H11). split; [congruence|done].
Qed.

Lemma supersedes_continues previous next : ValidateManifestDocument previous = [] -> supersedes previous next ->
  ValidateManifestDocument next = [] /\ continues previous next.
Proof.
  intros Hp. apply document_cells in Hp as [Hok Hnd]. unfold supersedes, ValidateSupersession, indexPreviousManifestCells.
  destruct (index_previous 0 (man_Cells previous) ∅) as [pm problems] eqn:Ei. rewrite !app_nil. intros (Hd & Hm & _ & Hcells).
  split; [done|]. apply document_cells in Hd as [Hok' Hnd'].
  assert (forall k c, pm !! k = Some c <-> c ∈ man_Cells previous /\ cell_key c = Some k) as Hpm.
  { intros k c. pose proof (index_previous_spec 0 _ ∅ k c Hnd) as H1. rewrite Ei, lookup_empty in H1. simpl in H1.
    rewrite H1; [|done]. split; [by intros [?|?]|by right]. }
  assert (forall k c, indexNextManifestCells (man_Cells next) !! k = Some c <-> c ∈ man_Cells next /\ cell_key c = Some k) as Hnm.
  { intros k c. unfold indexNextManifestCells. rewrite (index_next_spec _ _ k c Hnd'), lookup_empty by done.
    split; [by intros [?|?]|by right]. }
  unfold validateSupersessionCells in Hcells. rewrite app_nil, !bind_nil in Hcells. destruct Hcells as [Hn Hk].
  assert (forall k c, pm !! k = Some c -> exists d, indexNextManifestCells (man_Cells next) !! k = Some d /\ evolves c d) as Hev.
  { intros k c Hc. specialize (Hk (k, c) ltac:(by apply elem_of_map_to_list)). simpl in Hk.
    destruct (_ !! k) as [d|] eqn:Ed; [|done]. exists d. split; [done|].
    apply (superseded_cell_evolves k); [by apply Hpm in Hc as [_ ?] | by apply Hnm in Ed as [_ ?] | done]. }
  split; [by apply supersedes_metadata in Hm as (? & _)| |].
  - intros c Hc. rewrite Forall_forall in Hok. destruct (Hok c Hc) as [[k Hck] _ _ _ _].
    destruct (Hev k c) as (d & Hd & He); [by apply Hpm|]. exists d. apply Hnm in Hd as [Hd _]. done.
  - intros d Hd. rewrite Forall_forall in Hok'. destruct (Hok' d Hd) as [[k Hdk] _ _ _ _].
    assert (indexNextManifestCells (man_Cells next) !! k = Some d) as Hl by (by apply Hnm).
    specialize (Hn (k, d) ltac:(by apply elem_of_map_to_list)). simpl in Hn. apply problem_if_nil, bool_decide_eq_false in Hn.
    destruct (pm !! k) as [c|] eqn:Ec; [|done]. destruct (Hev k c Ec) as (d' & Hd' & He).
    assert (d' = d) as -> by congruence. exists c. apply Hpm in Ec as [Hc _]. done.
Qed.

(** C28: along a chain of superseding manifests nothing that was decided is
    changed: the snapshot and the raw values stay the same, no cell is lost or
    invented, a resolved cell keeps its instant, offset and evidence for ever,
    an empty one stays empty, and an unresolved one is at most resolved. *)
Theorem supersession_keeps_resolutions m0 m : ValidateManifestDocument m0 = [] -> rtc supersedes m0 m ->
  ValidateManifestDocument m = [] /\ continues m0 m
  /\ forall d, d ∈ man_Cells m -> dec_Decision d = DecisionUnresolved ->
     exists c, c ∈ man_Cells m0 /\ cell_key c = cell_key d /\ dec_Decision c = DecisionUnresolved.
Proof.
  intros H0 Hc. assert (ValidateManifestDocument m = [] /\ continues m0 m) as [Hm Hct].
  { revert H0. induction Hc as [m|x y z Hxy _ IH]; [done|]. intros Hx.
    destruct (supersedes_continues _ _ Hx Hxy) as [Hy Hc1]. destruct (IH Hy) as [Hz Hc2]. split; [done | by etrans]. }
  split; [done|]. split; [done|]. intros d Hd Hu. destruct (ct_known _ _ Hct d Hd) as (c & Hcc & [[Hk _ _] Hr Hn _]).
  exists c. split; [done|]. split; [done|]. apply document_cells in H0 as [Hok _]. rewrite Forall_forall in Hok.
  destruct (co_decision _ (Hok c Hcc)) as [E|raw E|raw o t E]; [|done|].
  - specialize (Hn E). rewrite Hu in Hn. discriminate Hn.
  - specialize (Hr E). assert (dec_Decision d = dec_Decision c) as Ed by (by injection Hr).
    destruct (decision_names_distinct _ E) as [_ Hne]. congruence.
Qed.

(** ** Sealing *)

Lemma ComputeDecisionContentChecksum_ok m sum : ComputeDecisionContentChecksum m = Ok sum <->
  man_ID m <> Nil /\ checksumPattern (man_DatabaseIdentityChecksum m) = true /\ checksumPattern (man_RawCellChecksum m) = true
  /\ is_ok (ParseInstant (man_SnapshotStartedAt m)) = true /\ is_ok (ParseInstant (man_SnapshotEndedAt m)) = true
  /\ exists decisions supersedes, canonical_decisions 0 (man_Cells m) = Ok decisions
     /\ writeOptionalUUID (man_SupersedesManifestID m) = Ok supersedes /\ sum = checksum (manifest_buffer m supersedes decisions).
Proof.
  unfold ComputeDecisionContentChecksum, is_nil, snapshot_instant. case_bool_decide as Hid; [split; [done|by intros []]|].
  destruct (checksumPattern (man_DatabaseIdentityChecksum m)); [|split; [done|by intros (_ & ? & _)]].
  destruct (checksumPattern (man_RawCellChecksum m)); [|split; [done|by intros (_ & _ & ? & _)]]. simpl.
  destruct (ParseInstant (man_SnapshotStartedAt m)); simpl; [|split; [done|by intros (_ & _ & _ & ? & _)]].
  destruct (ParseInstant (man_SnapshotEndedAt m)); simpl; [|split; [done|by intros (_ & _ & _ & _ & ? & _)]].
  destruct (canonical_decisions 0 (man_Cells m)) as [ds|e]; simpl; [|split; [done|by intros (_ & _ & _ & _ & _ & ? & ? & ? & _)]].
  destruct (writeOptionalUUID _) as [sup|e]; [|split; [done|by intros (_ & _ & _ & _ & _ & ? & ? & _ & ? & _)]]. split.
  - intros [= <-]. do 5 (split; [done|]). by exists ds, sup.
  - intros (_ & _ & _ & _ & _ & ds' & sup' & [= <-] & [= <-] & ->). done.
Qed.

Lemma checked_ok m s : checked m = Ok s <-> exists sum, ComputeDecisionContentChecksum m = Ok sum /\ s = with_cells (man_Cells m) sum m
  /\ ValidateManifestDocument s = [].
Proof.
  unfold checked. destruct (ComputeDecisionContentChecksum m) as [sum|e]; simpl; [|split; [done|by intros (? & ? & _)]].
  case_bool_decide as Hv; simpl; split; try done.
  - intros [= <-]. by exists sum.
  - by intros (? & [= <-] & -> & _).
  - by intros (? & [= <-] & -> & ?).
Qed.

(** How sealing changes a cell: the converted value of a resolved cell gets
    its canonical form. *)
Definition sealed_cell (c d : CellDecision) : Prop :=
  d = c \/ is_resolved (dec_Decision c) = true /\ exists v t, dec_ConvertedValue c = Some v /\ parse_rfc3339 v = Some t
           /\ d = with_converted (FormatInstant t) c.

Lemma seal_cell_ok i c d : seal_cell i c = Ok d -> sealed_cell c d.
Proof.
  unfold seal_cell. destruct (is_resolved (dec_Decision c)) eqn:Er; simpl; [|intros [= <-]; by left].
  destruct (cell_RawValue (dec_Raw c)) as [raw|]; [|intros [= <-]; by left].
  destruct (dec_SourceOffsetSeconds c) as [o|]; [|intros [= <-]; by left].
  destruct (dec_ConvertedValue c) as [v|] eqn:Ev; [|intros [= <-]; by left].
  destruct (ConvertWallClock raw o) as [t|e]; [|done]. destruct (parse_rfc3339 v) as [u|] eqn:Ep; [|done].
  destruct (Z.eqb_spec u t) as [->|]; [|done]. intros [= <-]. right. split; [done|]. by exists v, t.
Qed.
Lemma seal_cells_ok i l k : seal_cells i l = Ok k -> Forall2 sealed_cell l k.
Proof.
  revert i k. induction l as [|c l IH]; intros i k; simpl; [by intros [= <-]; constructor|].
  destruct (seal_cell i c) as [d|e] eqn:Ed; simpl; [|done]. destruct (seal_cells (S i) l) as [r|e] eqn:Er; simpl; [|done].
  intros [= <-]. constructor; [by eapply seal_cell_ok|by eapply IH].
Qed.

(** The cells of a valid manifest are in their canonical form. *)
Lemma seal_cells_valid i l : Forall cell_ok l -> seal_cells i l = Ok l.
Proof.
  intros Hl. revert i. induction Hl as [|c l [_ _ _ _ Hd] _ IH]; intros i; [done|]. simpl.
  assert (seal_cell i c = Ok c) as ->; [|by rewrite IH]. unfold seal_cell.
  destruct Hd as [E|raw E|raw o t Er [-> -> Ev _ _ _ Hr Hlt Hw Hlw]]; [by rewrite E|by rewrite E|]. rewrite Er, Ev. simpl.
  rewrite (proj2 (ConvertWallClock_ok raw o t)) by done. unfold FormatInstant at 1. rewrite parse_rfc3339_format by done.
  rewrite Z.eqb_refl. simpl. f_equal. unfold with_converted. destruct c; simpl in *. by rewrite Ev.
Qed.

Record complete_options (o : SealOptions) : Prop := {
  op_evidence : TrimSpace (seal_EvidenceBundleReference o) <> "";
  op_bundle : checksumPattern (TrimSpace (seal_EvidenceBundleChecksum o)) = true;
  op_author : TrimSpace (seal_AuthorIdentity o) <> ""; op_reviewer : TrimSpace (seal_ReviewerIdentity o) <> "";
  op_distinct : TrimSpace (seal_AuthorIdentity o) <> TrimSpace (seal_ReviewerIdentity o);
  op_commit : commitPattern (TrimSpace (seal_TargetReleaseCommit o)) = true;
  op_image : checksumPattern (TrimSpace (seal_TargetImageDigest o)) = true }.

Lemma complete_approved o t m : complete (approved o t m) <-> complete_options o.
Proof.
  split; intros [H1 H2 H3 H4 H5 H6 H7].
  - cbn -[TrimSpace checksumPattern commitPattern] in H1, H2, H3, H4, H5, H6, H7. rewrite TrimSpace_idem in H1. rewrite TrimSpace_idem in H3. rewrite TrimSpace_idem in H4.
    rewrite !TrimSpace_idem in H5. by split.
  - split; cbn -[TrimSpace checksumPattern commitPattern]; rewrite ?TrimSpace_idem; done.
Qed.
(** A time between the years 0 and 9999, cut to microseconds, as [FormatInstant]
    prints it. *)
Definition microsecond (t : Z) : Z := (t - t mod 1000)%Z.
Definition printable (t : Z) : Prop := (0 <= w_year (wall_of t) < 10000)%Z.

Lemma wall_of_microsecond t : wall_of (microsecond t) =
  {| w_year := w_year (wall_of t); w_month := w_month (wall_of t); w_day := w_day (wall_of t); w_hour := w_hour (wall_of t);
     w_minute := w_minute (wall_of t); w_second := w_second (wall_of t); w_nanos := w_nanos (wall_of t) / 1000 * 1000 |}.
Proof.
  assert (microsecond t / 1000000000 = t / 1000000000)%Z as E by (unfold microsecond; Z.to_euclidean_division_equations; lia).
  unfold wall_of. rewrite E. destruct (date_of _) as [[y m] d]. cbn. f_equal.
  unfold microsecond. Z.to_euclidean_division_equations. lia.
Qed.
Lemma ParseInstant_microsecond t : printable t -> ParseInstant (FormatInstant t) = Ok (microsecond t).
Proof.
  intros Hy. apply ParseInstant_iff. split.
  - unfold layout_instant. rewrite wall_of_microsecond. split; [|split; [done|apply Z.mod_mul; lia]].
    pose proof (wall_of_valid t) as Hv. unfold valid_wall in *. cbn [w_year w_month w_day w_hour w_minute w_second w_nanos].
    apply andb_true_iff in Hv as [Hv H8%Z.ltb_lt]. apply andb_true_iff in Hv as [-> H7%Z.leb_le].
    clear Hy. generalize dependent (w_nanos (wall_of t)). intros n Hn Hn'. rewrite andb_true_l.
    apply andb_true_iff. split; [apply Z.leb_le|apply Z.ltb_lt]; Z.to_euclidean_division_equations; lia.
  - unfold FormatInstant, format_wall, format_fields, format_rest. rewrite wall_of_microsecond. cbn.
    by rewrite Z.div_mul by lia.
Qed.

(** SHA-256 digests are printed as 64 lower-case hexadecimal digits. *)
Definition hex_digests : Prop := forall data, lower_hex_text 64 (sha256_hex data) = true.
Lemma checksum_format data : hex_digests -> checksumPattern (checksum data) = true.
Proof.
  intros Hx. unfold checksumPattern, checksum. specialize (Hx data).
  assert (String.length ("sha256:" +:+ sha256_hex data) - 7 = String.length (sha256_hex data)) as -> by (rewrite string_length_app; simpl; lia).
  pose proof (substring_app_r "sha256:" (sha256_hex data) (String.length (sha256_hex data))) as E.
  change (String.length "sha256:") with 7 in E. rewrite E, substring_all, Hx, andb_true_r. by destruct (sha256_hex data).
Qed.

(** The checksum, the state and the approval are all that changes. *)
Lemma approved_valid m o t sum : valid_manifest m -> hex_digests -> complete_options o -> printable t ->
  ComputeDecisionContentChecksum (approved o t m) = Ok sum -> valid_manifest (with_cells (man_Cells m) sum (approved o t m)).
Proof.
  intros [H1 H2 H3 H4 H5 H6 H7 (ex & ev & H8) H9 H10 H11 H12 H13 H14] Hx Ho Ht Hs.
  split; try done.
  - by exists ex, ev.
  - apply approved_ok; [by do 1 left| |].
    + by apply (complete_approved o t m) in Ho as [].
    + exists (microsecond t). by apply ParseInstant_microsecond.
  - apply ComputeDecisionContentChecksum_ok in Hs as (_ & _ & _ & _ & _ & ds & sup & _ & _ & ->). by apply checksum_format.
Qed.

Lemma with_same_cells m : with_cells (man_Cells m) (man_DecisionContentChecksum m) m = m.
Proof. by destruct m. Qed.

Lemma checked_valid m : uint64_counts m -> valid_manifest m -> checked m = Ok m.
Proof.
  intros Hc Hv. apply checked_ok. exists (man_DecisionContentChecksum m). rewrite with_same_cells. split; [apply Hv|]. split; [done|].
  by apply document_valid_iff.
Qed.

Lemma seal_valid m o t : uint64_counts m -> hex_digests -> printable t -> valid_manifest m -> man_State m = StateDraft ->
  complete_options o -> exists s, SealManifest m o t = Ok s /\ man_Cells s = man_Cells m.
Proof.
  intros Hc Hx Ht Hv Hd Ho. unfold SealManifest. rewrite Hd. simpl. rewrite seal_cells_valid by apply Hv. simpl.
  rewrite with_same_cells, checked_valid by done. simpl.
  destruct (proj1 (ComputeDecisionContentChecksum_ok m _) (vm_decisions _ Hv)) as (H1 & H2 & H3 & H4 & H5 & ds & sup & H6 & H7 & _).
  pose proof (proj2 (ComputeDecisionContentChecksum_ok (approved o t m) (checksum (manifest_buffer (approved o t m) sup ds)))) as Hs.
  specialize (Hs ltac:(do 5 (split; [done|]); by exists ds, sup)).
  exists (with_cells (man_Cells m) (checksum (manifest_buffer (approved o t m) sup ds)) (approved o t m)). split; [|done].
  apply checked_ok. eexists. split; [exact Hs|]. split; [done|]. apply document_valid_iff; [done|].
  by apply approved_valid.
Qed.

(** What is sealed: the draft with its cells in canonical form. *)
Record sealed_from (m : Manifest) (o : SealOptions) (t : Z) (s : Manifest) : Prop := {
  sf_draft : man_State m = StateDraft; sf_approved : man_State s = StateApproved;
  sf_valid : ValidateManifestDocument s = []; sf_options : complete_options o;
  sf_id : man_ID s = man_ID m; sf_supersedes : man_SupersedesManifestID s = man_SupersedesManifestID m;
  sf_identity : snapshot_identity s = snapshot_identity m;
  sf_author : man_AuthorIdentity s = TrimSpace (seal_AuthorIdentity o);
  sf_reviewer : man_ReviewerIdentity s = TrimSpace (seal_ReviewerIdentity o);
  sf_time : man_ApprovedAt s = FormatInstant t; sf_cells : Forall2 sealed_cell (man_Cells m) (man_Cells s) }.

Lemma document_approval m : ValidateManifestDocument m = [] -> approval_ok m.
Proof.
  unfold ValidateManifestDocument. destruct (validateManifestCells _) as [s p]. rewrite !app_nil, approval_nil. tauto.
Qed.

Lemma seal_ok m o t s : SealManifest m o t = Ok s -> sealed_from m o t s.
Proof.
  unfold SealManifest. case_bool_decide as Hd; simpl; [|done]. destruct (seal_cells 0 (man_Cells m)) as [cells|e] eqn:Ec; simpl; [|done].
  apply seal_cells_ok in Ec. destruct (checked (with_cells _ _ m)) as [v|e] eqn:Ev; simpl; [|done].
  apply checked_ok in Ev as (sum1 & _ & -> & _). intros (sum2 & _ & -> & Hs)%checked_ok. split; try done.
  apply document_approval in Hs as [E|_ Hc _|E]; [discriminate E| |discriminate E].
  apply (complete_approved o t m). destruct Hc. by split.
Qed.

(** C29: sealing turns only drafts into approved manifests that pass the
    validation, with an author and a different reviewer; the snapshot stays the
    same and only the spelling of resolved instants may change. Every valid
    draft can be sealed when the approval is complete, and a sealed manifest is
    never sealed again. *)
Theorem sealing_approves_drafts m o t : hex_digests -> uint64_counts m -> printable t ->
  (forall s, SealManifest m o t = Ok s -> sealed_from m o t s /\ forall o' t', exists e, SealManifest s o' t' = Err e)
  /\ (ValidateManifestDocument m = [] -> man_State m = StateDraft ->
      (exists s, SealManifest m o t = Ok s /\ man_Cells s = man_Cells m) <-> complete_options o).
Proof.
  intros Hx Hc Ht. split.
  - intros s Hs%seal_ok. split; [done|]. intros o' t'. unfold SealManifest. rewrite (sf_approved _ _ _ _ Hs). by eexists.
  - intros Hv Hd. apply document_valid_iff in Hv; [|done]. split; [|by apply seal_valid].
    intros (s & Hs%seal_ok & _). apply Hs.
Qed.

(** ** The decision checksum *)

(** Order by a text, then by something else. *)
Definition less_text_then {A} (f : A -> string) (next : A -> A -> bool) (x y : A) : bool :=
  if bool_decide (f x = f y) then next x y else string_less (f x) (f y).
#[export] Instance less_text_then_swo {A} (f : A -> string) (next : A -> A -> bool) `{!StrictWeakOrder next} :
  StrictWeakOrder (less_text_then f next).
Proof.
  split; unfold less_text_then.
  - intros x y. destruct (decide (f x = f y)) as [E|E].
    + rewrite !bool_decide_eq_true_2 by done. apply swo_asym.
    + rewrite !bool_decide_eq_false_2 by congruence. apply swo_asym.
  - intros x y z. destruct (decide (f y = f x)) as [E1|E1], (decide (f z = f y)) as [E2|E2], (decide (f z = f x)) as [E3|E3];
      rewrite ?(bool_decide_eq_true_2 _ E1), ?(bool_decide_eq_false_2 _ E1), ?(bool_decide_eq_true_2 _ E2),
        ?(bool_decide_eq_false_2 _ E2), ?(bool_decide_eq_true_2 _ E3), ?(bool_decide_eq_false_2 _ E3);
      intros H1 H2; try congruence; try (by eapply swo_ntrans).
    destruct E1. rewrite E3 in H2. symmetry. by apply string_less_total.
Qed.
Lemma rawCellKeyLess_text l r : rawCellKeyLess l r = less_text_then key_table (less_text_then key_rowID (less_by key_ordinal)) l r.
Proof. unfold rawCellKeyLess, less_text_then. by do 2 (case_bool_decide; simpl; [|done]). Qed.

#[export] Instance sort_cells_swo {B} : StrictWeakOrder (λ x y : rawCellKey * B, rawCellKeyLess x.1 y.1).
Proof.
  split; intros *; rewrite !rawCellKeyLess_text; [apply swo_asym|apply swo_ntrans].
Qed.
Lemma rawCellKeyLess_total l r : rawCellKeyLess l r = false -> rawCellKeyLess r l = false -> l = r.
Proof.
  rewrite !rawCellKeyLess_text. unfold less_text_then. destruct l as [t i o], r as [t' i' o']. simpl.
  destruct (decide (t = t')) as [->|Ht].
  2:{ rewrite !bool_decide_eq_false_2 by congruence. intros H1 H2. destruct Ht. by apply string_less_total. }
  rewrite !(bool_decide_eq_true_2 (t' = t')) by done. destruct (decide (i = i')) as [->|Hi].
  2:{ rewrite !bool_decide_eq_false_2 by congruence. intros H1 H2. destruct Hi. by apply string_less_total. }
  rewrite !(bool_decide_eq_true_2 (i' = i')) by done. unfold less_by. simpl. intros H1%Z.ltb_ge H2%Z.ltb_ge. f_equal. lia.
Qed.
Lemma sort_cells_unique {B} (k l : list (rawCellKey * B)) : NoDup (fst <$> k) -> k ≡ₚ l -> sort_cells k = sort_cells l.
Proof.
  intros Hnd Hp. apply stable_sort_unique; [apply sort_cells_swo|done|]. intros x y Hx Hy H1 H2.
  pose proof (rawCellKeyLess_total _ _ H1 H2). by eapply (NoDup_fmap_elem fst).
Qed.

Lemma pretty_length n k s : (n < 10 ^ k)%N -> String.length (pretty.pretty_N_go n s) <= N.to_nat k + String.length s.
Proof.
  revert n s. induction k as [|k IH] using N.peano_ind; intros n s Hn.
  - assert (n = 0%N) as -> by (rewrite N.pow_0_r in Hn; lia). rewrite pretty.pretty_N_go_0. lia.
  - destruct (decide (0 < n)%N) as [Hpos|Hz]; [|assert (n = 0%N) as -> by lia; rewrite pretty.pretty_N_go_0; lia].
    rewrite pretty.pretty_N_go_step by done. rewrite N.pow_succ_r' in Hn.
    etrans; [apply IH; apply N.Div0.div_lt_upper_bound; lia|]. simpl. lia.
Qed.
Lemma small_itoa n : uint64 n -> small (itoa n).
Proof.
  intros Hn. unfold uint64 in Hn. unfold small, len. destruct n as [|p|p]; [done| |lia]. change (itoa (Zpos p)) with (pretty (Npos p)).
  unfold pretty, pretty.pretty_N. destruct (decide _); [done|].
  pose proof (pretty_length (Npos p) 20 "" ltac:(lia)) as Hl. change (N.to_nat 20) with 20 in Hl. simpl in Hl. lia.
Qed.

(** A collision of SHA-256. *)
Definition collision : Prop := exists x y, x <> y /\ sha256_hex x = sha256_hex y.
Lemma checksum_inj x y : checksum x = checksum y -> x = y \/ collision.
Proof.
  unfold checksum. intros E. apply (inj (String.append "sha256:")) in E. destruct (decide (x = y)) as [->|Hne]; [by left|].
  right. by exists x, y.
Qed.

Lemma write_option_inj a b s t : (forall x, a = Some x -> small x) -> (forall x, b = Some x -> small x) ->
  write_option a +:+ s = write_option b +:+ t -> a = b /\ s = t.
Proof.
  assert (small "NULL" /\ small "VALUE") as [Hn Hv] by done. unfold write_option. intros Ha Hb E.
  destruct a as [x|], b as [y|]; rewrite <- ?string_app_assoc in E; apply writeField_inj in E as [E1 E2]; try done.
  apply writeField_inj in E2 as [-> ->]; auto.
Qed.
Lemma small_nonempty a x : small a -> (if bool_decide (a = "") then None else Some a) = Some x -> small x.
Proof. intros Ha. case_bool_decide; [done|by intros [= <-]]. Qed.
Lemma writeOptionalString_inj a b s t : small a -> small b -> writeOptionalString a +:+ s = writeOptionalString b +:+ t -> a = b /\ s = t.
Proof.
  intros Ha Hb E. unfold writeOptionalString in E. apply write_option_inj in E as [E ->].
  - split; [|done]. revert E. repeat case_bool_decide; congruence.
  - intros x. by apply small_nonempty.
  - intros x. by apply small_nonempty.
Qed.

(** Texts that fit in the length field of the encoding. *)
Definition cell_texts (c : CellDecision) : list string :=
  [dec_Decision c; dec_SourceZone c; dec_EvidenceReference c; dec_EvidenceChecksum c; dec_ApprovingIdentity c;
   dec_ConversionExpressionVersion c; cell_RawCellChecksum (dec_Raw c); lower_name (cell_SourceColumn (dec_Raw c));
   default "" (dec_ConvertedValue c); default "" (cell_RawValue (dec_Raw c)); default "" (itoa <$> dec_SourceOffsetSeconds c)].
Definition manifest_texts (m : Manifest) : list string :=
  [man_DatabaseIdentityChecksum m; man_SnapshotStartedAt m; man_SnapshotEndedAt m; man_RawCellChecksum m;
   man_EvidenceBundleReference m; man_EvidenceBundleChecksum m; man_ToolVersion m; man_ConversionExpressionVersion m;
   man_AuthorIdentity m; man_ReviewerIdentity m; man_TargetReleaseCommit m; man_TargetImageDigest m].
Definition fits (m : Manifest) : Prop :=
  Forall small (manifest_texts m) /\ Forall (λ c, Forall small (cell_texts c)) (man_Cells m) /\ uint64_counts m
  /\ uint64 (man_PopulatedCellCount m).

Lemma small_default (o : option string) x : small (default "" o) -> o = Some x -> small x.
Proof. by intros Hs ->. Qed.

Lemma decision_buffer_inj c d : Forall small (cell_texts c) -> Forall small (cell_texts d) -> decision_buffer c = decision_buffer d ->
  resolution c = resolution d /\ cell_RawCellChecksum (dec_Raw c) = cell_RawCellChecksum (dec_Raw d).
Proof.
  intros Hc Hd. apply Forall_cons in Hc as [C1 Hc], Hd as [D1 Hd].
  do 10 (apply Forall_cons in Hc as [? Hc], Hd as [? Hd]). clear Hc Hd. unfold decision_buffer. intros E.
  apply writeField_inj in E as [_ E]; [|done..]. apply writeField_inj in E as [E1 E]; [|done..].
  apply writeField_inj in E as [E2 E]; [|done..]. apply writeOptionalString_inj in E as [E3 E]; [|done..].
  apply write_option_inj in E as [E4 E]; [|by intros x; apply small_default..].
  apply write_option_inj in E as [E5 E]; [|by intros x; apply small_default..].
  apply writeOptionalString_inj in E as [E6 E]; [|done..]. apply writeOptionalString_inj in E as [E7 E]; [|done..].
  apply writeOptionalString_inj in E as [E8 E]; [|done..]. apply writeField_end_inj in E; [|done..].
  assert (dec_SourceOffsetSeconds c = dec_SourceOffsetSeconds d) as E9 by (by apply (inj (fmap itoa)) in E4).
  unfold resolution. split; congruence.
Qed.

Lemma small_table t : known_table t = true -> small t.
Proof. unfold known_table. rewrite contains_true, !elem_of_cons. by intros [-> |[-> |Hx%elem_of_nil]]. Qed.
Lemma small_uuid u : small (uuid_string u).
Proof. done. Qed.

Lemma Ok_inj {E A} (a b : A) : @Ok E A a = Ok b -> a = b.
Proof. congruence. Qed.

(** The canonical encoding of a raw cell determines the cell but for the
    spelling of its names. *)
Lemma CanonicalRawCell_inj c d x : Forall small (cell_texts c) -> Forall small (cell_texts d) ->
  CanonicalRawCell (dec_Raw c) = Ok x -> CanonicalRawCell (dec_Raw d) = Ok x ->
  cell_key d = cell_key c /\ cell_RawValue (dec_Raw d) = cell_RawValue (dec_Raw c).
Proof.
  intros Hc Hd. unfold cell_texts in Hc, Hd. rewrite !Forall_cons in Hc, Hd. destruct Hc as (_ & _ & _ & _ & _ & _ & _ & Cc & _ & Cr & _).
  destruct Hd as (_ & _ & _ & _ & _ & _ & _ & Dc & _ & Dr & _). unfold CanonicalRawCell.
  destruct (rawKey (dec_Raw c)) as [k|e] eqn:Ek; [|done]. destruct (rawKey (dec_Raw d)) as [q|e] eqn:Eq; [|done]. simpl.
  assert (forall c k, rawKey (dec_Raw c) = Ok k -> small (key_table k) /\ small (key_rowID k) /\ uint64 (cell_ColumnOrdinal (dec_Raw c))
          /\ key_ordinal k = cell_ColumnOrdinal (dec_Raw c) /\ cell_key c = Some k) as Hsmall.
  { clear. intros c k Ek. assert (cell_key c = Some k) as Hk by (unfold cell_key; by rewrite Ek).
    pose proof (cell_key_inv _ _ Hk) as (Hr & _ & Ho). unfold rawKey in Ek.
    destruct (known_table _) eqn:Et; [|done]. destruct (bool_decide _); [|done]. destruct (is_nil _); [done|].
    destruct (wall_ok _); [|done]. simpl in Ek. injection Ek as <-. simpl in *. split; [by apply small_table|].
    split; [done|]. split; [|done]. unfold uint64. destruct Ho as [[_ ?]|[_ ->]]; lia. }
  destruct (Hsmall _ _ Ek) as (Kt & Kr & Ko & Eo & Hk). destruct (Hsmall _ _ Eq) as (Qt & Qr & Qo & Eo' & Hq).
  intros [= <-] E%Ok_inj. apply writeField_inj in E as [_ E]; [|done..]. apply writeField_inj in E as [E1 E]; [|done..].
  apply writeField_inj in E as [E2 E]; [|done..]. apply writeField_inj in E as [E3 E]; [|done..].
  apply writeField_inj in E as [E4 E]; [|by apply small_itoa..]. apply (inj itoa) in E4.
  rewrite <- (string_app_nil_r (write_option _)), <- (string_app_nil_r (write_option (cell_RawValue (dec_Raw c)))) in E.
  apply write_option_inj in E as [E5 _]; [|by intros x'; apply small_default..].
  split; [|done]. rewrite Hk, Hq. f_equal. destruct k, q. simpl in *. congruence.
Qed.

(** Cells with the same content: the same cell and the same resolution. *)
Definition same_cell (c d : CellDecision) : Prop := same_raw c d /\ resolution c = resolution d.

Definition content (m : Manifest) :=
  (man_ID m, man_SupersedesManifestID m, snapshot_identity m,
   (man_EvidenceBundleReference m, man_EvidenceBundleChecksum m, man_ToolVersion m, man_ConversionExpressionVersion m),
   (man_AuthorIdentity m, man_ReviewerIdentity m, man_TargetReleaseCommit m, man_TargetImageDigest m)).

(** Everything but the state, the time of the approval and the order of the cells. *)
Definition same_content (m1 m2 : Manifest) : Prop :=
  content m1 = content m2 /\ exists l, man_Cells m1 ≡ₚ l /\ Forall2 same_cell l (man_Cells m2).

Definition decided (c : CellDecision) (x : rawCellKey * string) : Prop :=
  cell_key c = Some x.1 /\ x.2 = checksum (decision_buffer c).

Lemma canonical_decisions_ok i l ds : canonical_decisions i l = Ok ds -> Forall2 decided l ds.
Proof.
  revert i ds. induction l as [|c l IH]; intros i ds; simpl; [by intros [= <-]; constructor|]. unfold canonicalCellDecision.
  destruct (rawKey (dec_Raw c)) as [k|e] eqn:Ek; simpl; [|done]. unfold ComputeCellDecisionChecksum.
  destruct (negb _); [done|]. destruct (converted_instant c); simpl; [|done].
  destruct (canonical_decisions (S i) l) as [r|e] eqn:Er; simpl; [|done]. intros [= <-]. constructor; [|by eapply IH].
  split; [unfold cell_key; by rewrite Ek|done].
Qed.

Lemma Forall2_or {A B} (P : A -> B -> Prop) (Q : Prop) k l : Forall2 (λ x y, P x y \/ Q) k l -> Forall2 P k l \/ Q.
Proof. induction 1 as [|x y k l [Hp|Hq] _ [IH|IH]]; auto. Qed.

Lemma decided_perm l ds ds' : ds ≡ₚ ds' -> Forall2 decided l ds -> exists l', l ≡ₚ l' /\ Forall2 decided l' ds'.
Proof.
  intros Hp Hf. apply Forall2_flip in Hf. destruct (Permutation_Forall2 Hp Hf) as (l' & Hl & Hf').
  exists l'. split; [done|]. by apply Forall2_flip.
Qed.
Lemma decided_keys l ds : Forall2 decided l ds -> keys l = fst <$> ds.
Proof. induction 1 as [|c x l ds [Hk _] _ IH]; [done|]. rewrite keys_cons, Hk, IH. done. Qed.

Lemma Forall2_with {A B} (P : A -> Prop) (Q : B -> Prop) (R S : A -> B -> Prop) k l :
  Forall P k -> Forall Q l -> Forall2 R k l -> (forall x y, P x -> Q y -> R x y -> S x y) -> Forall2 S k l.
Proof.
  intros Hk Hl Hr Hi. revert Hk Hl. induction Hr as [|x y k l Hxy _ IH]; intros [Hx Hk]%Forall_cons_1 [Hy Hl]%Forall_cons_1 || intros; constructor; auto.
Qed.

Lemma concat_fields_inj k l : Forall small k -> Forall small l -> length k = length l ->
  concat_texts (writeField <$> k) = concat_texts (writeField <$> l) -> k = l.
Proof.
  intros Hk. revert l. induction Hk as [|x k Hx Hk IH]; intros [|y l] Hl Hlen E; try done. simpl in *.
  apply Forall_cons in Hl as [Hy Hl]. apply writeField_inj in E as [-> E]; [|done..]. f_equal. apply IH; [done|lia|done].
Qed.

Lemma small_checksum x : hex_digests -> small (checksum x).
Proof.
  intros Hx. specialize (Hx x). unfold lower_hex_text in Hx. apply andb_true_iff in Hx as [Hl _]. apply bool_decide_eq_true in Hl.
  unfold small, len, checksum. rewrite string_length_app, Hl. done.
Qed.

Lemma supersedes_field o s : writeOptionalUUID o = Ok s -> s = write_option (uuid_string <$> o).
Proof. destruct o as [u|]; simpl; [destruct (is_nil u); [done|]|]; by intros [= <-]. Qed.

(** The fields before the decisions. *)
Lemma manifest_buffer_inj m1 m2 s1 s2 ds1 ds2 : fits m1 -> fits m2 -> man_SourceSchemaVersion m1 = 137%Z -> man_SourceSchemaVersion m2 = 137%Z ->
  writeOptionalUUID (man_SupersedesManifestID m1) = Ok s1 -> writeOptionalUUID (man_SupersedesManifestID m2) = Ok s2 ->
  uint64 (Z.of_nat (length ds1)) -> uint64 (Z.of_nat (length ds2)) -> manifest_buffer m1 s1 ds1 = manifest_buffer m2 s2 ds2 ->
  content m1 = content m2 /\ length ds1 = length ds2
  /\ concat_texts (writeField ∘ snd <$> sort_cells ds1) = concat_texts (writeField ∘ snd <$> sort_cells ds2).
Proof.
  intros (T1 & _ & (A1 & A2 & A3) & A4) (T2 & _ & (B1 & B2 & B3) & B4) V1 V2 ->%supersedes_field ->%supersedes_field L1 L2.
  unfold manifest_texts in T1, T2. do 12 (apply Forall_cons in T1 as [? T1], T2 as [? T2]). clear T1 T2.
  unfold manifest_buffer. rewrite V1, V2. intros E. repeat rewrite <- string_app_assoc in E.
  apply writeField_inj in E as [_ E]; [|done..]. apply writeField_inj in E as [E1 E]; [|done..].
  apply write_option_inj in E as [E2 E]; [|by intros x [u [_ ->]]%fmap_Some..].
  apply writeField_inj in E as [E3 E]; [|done..]. apply writeField_inj in E as [_ E]; [|done..].
  apply writeField_inj in E as [E5 E]; [|done..]. apply writeField_inj in E as [E6 E]; [|done..].
  do 4 (apply writeField_inj in E as [?%(inj itoa) E]; [|by apply small_itoa..]).
  apply writeField_inj in E as [E7 E]; [|done..]. do 2 (apply writeOptionalString_inj in E as [? E]; [|done..]).
  do 2 (apply writeField_inj in E as [? E]; [|done..]). do 4 (apply writeOptionalString_inj in E as [? E]; [|done..]).
  apply writeField_inj in E as [E8%(inj itoa) E]; [|by apply small_itoa..]. split; [|split; [lia|done]].
  apply uuid_string_inj in E1. apply (inj (fmap uuid_string)) in E2. unfold content, snapshot_identity. congruence.
Qed.

Lemma same_decision_same_cell c d : cell_ok c /\ Forall small (cell_texts c) -> cell_ok d /\ Forall small (cell_texts d) ->
  checksum (decision_buffer c) = checksum (decision_buffer d) -> same_cell c d \/ collision.
Proof.
  intros [[_ C _ _ _] Tc] [[_ D _ _ _] Td] E. apply checksum_inj in E as [E|E]; [|by right].
  apply decision_buffer_inj in E as [Er Es]; [|done..]. rewrite Es in C. unfold ComputeRawCellChecksum in C, D.
  destruct (CanonicalRawCell (dec_Raw c)) as [x|] eqn:Ec; [|done]. destruct (CanonicalRawCell (dec_Raw d)) as [y|] eqn:Ed; [|done].
  apply Ok_inj in C, D. rewrite <- D in C. apply checksum_inj in C as [->|C]; [|by right]. left.
  destruct (CanonicalRawCell_inj c d y Tc Td Ec Ed). split; [by split|done].
Qed.

Lemma decided_same_checksum l k a b : Forall2 decided l a -> Forall2 decided k b -> snd <$> a = snd <$> b ->
  Forall2 (λ c d, checksum (decision_buffer c) = checksum (decision_buffer d)) l k.
Proof.
  intros Ha. revert k b. induction Ha as [|c x l a [_ Hx] _ IH]; intros k b [|d y k' b' [_ Hy] Hb]; simpl; intros E; try done.
  injection E as E1 E2. constructor; [congruence|by eapply IH].
Qed.

Lemma same_cells_decided l k a b : Forall2 same_cell l k -> Forall2 decided l a -> Forall2 decided k b -> a = b.
Proof.
  intros Hs. revert a b. induction Hs as [|c d l k [[Hk _ Hr] Hres] _ IH]; intros a b Ha Hb.
  - apply Forall2_nil_inv_l in Ha as ->. by apply Forall2_nil_inv_l in Hb as ->.
  - apply Forall2_cons_inv_l in Ha as ([k1 x] & a' & [K1 X] & Ha & ->). apply Forall2_cons_inv_l in Hb as ([k2 y] & b' & [K2 Y] & Hb & ->).
    f_equal; [|by apply IH]. simpl in *. rewrite Hk, K1 in K2. injection K2 as ->. f_equal. rewrite X, Y. f_equal.
    unfold resolution in Hres. injection Hres as E1 E2 E3 E4 E5 E6 E7 E8. unfold decision_buffer. by rewrite Hr, E1, E2, E3, E4, E5, E6, E7, E8.
Qed.

(** What a valid document says of its decisions. *)
Lemma document_decisions m : uint64_counts m -> ValidateManifestDocument m = [] -> exists ds supersedes,
  man_SourceSchemaVersion m = 137%Z /\ Forall cell_ok (man_Cells m) /\ NoDup (keys (man_Cells m)) /\ Forall2 decided (man_Cells m) ds
  /\ writeOptionalUUID (man_SupersedesManifestID m) = Ok supersedes /\ uint64 (Z.of_nat (length ds))
  /\ man_DecisionContentChecksum m = checksum (manifest_buffer m supersedes ds).
Proof.
  intros Hc Hv. pose proof (document_cells _ Hv) as [Hok Hnd]. apply document_valid_iff in Hv; [|done].
  pose proof (vm_decisions _ Hv) as Hd. apply ComputeDecisionContentChecksum_ok in Hd as (_ & _ & _ & _ & _ & ds & sup & Hds & Hsup & Hsum).
  apply canonical_decisions_ok in Hds. exists ds, sup. split; [apply Hv|]. do 4 (split; [done|]). split; [|done].
  rewrite <- (Forall2_length _ _ _ Hds), <- (vm_count _ Hv). apply Hc.
Qed.

Lemma decision_cells_ok m : fits m -> Forall cell_ok (man_Cells m) -> forall l, man_Cells m ≡ₚ l ->
  Forall (λ c, cell_ok c /\ Forall small (cell_texts c)) l.
Proof. intros (_ & Ht & _) Hok l <-. apply Forall_and. by split. Qed.

(** The decision checksum identifies what was decided: two valid
    manifests have the same checksum exactly when they decide the same cells in
    the same way, with the same snapshot, identifiers, evidence, identities and
    targets, in whatever order and spelling the cells come, unless SHA-256
    collides. The state and the time of the approval are not covered. *)
Theorem decision_checksum_identifies m1 m2 : hex_digests -> fits m1 -> fits m2 ->
  ValidateManifestDocument m1 = [] -> ValidateManifestDocument m2 = [] ->
  (man_DecisionContentChecksum m1 = man_DecisionContentChecksum m2 -> same_content m1 m2 \/ collision)
  /\ (same_content m1 m2 -> man_DecisionContentChecksum m1 = man_DecisionContentChecksum m2).
Proof.
  intros Hx F1 F2 V1 V2.
  destruct (document_decisions m1) as (ds1 & s1 & S1 & O1 & N1 & D1 & U1 & L1 & ->); [apply F1|done|].
  destruct (document_decisions m2) as (ds2 & s2 & S2 & O2 & N2 & D2 & U2 & L2 & ->); [apply F2|done|]. split.
  - intros E. apply checksum_inj in E as [E|E]; [|by right].
    apply manifest_buffer_inj in E as (Ec & El & E); [|done..]. rewrite !(list_fmap_compose snd writeField) in E.
    destruct (decided_perm _ _ (sort_cells ds1) (symmetry (stable_sort_perm _ _)) D1) as (l1 & P1 & Q1).
    destruct (decided_perm _ _ (sort_cells ds2) (symmetry (stable_sort_perm _ _)) D2) as (l2 & P2 & Q2).
    assert (forall l ds, Forall2 decided l ds -> Forall small (snd <$> ds)) as Hsmall.
    { intros l ds Hf. induction Hf as [|c x l ds [_ Hy] _ IH]; constructor; [rewrite Hy; by apply small_checksum|done]. }
    apply concat_fields_inj in E; [|by eapply Hsmall..|].
    2:{ rewrite !length_fmap. unfold sort_cells. by rewrite !length_stable_sort. }
    pose proof (decided_same_checksum _ _ _ _ Q1 Q2 E) as Hs.
    eapply Forall2_with in Hs; [|exact (decision_cells_ok _ F1 O1 _ P1)|exact (decision_cells_ok _ F2 O2 _ P2)|exact same_decision_same_cell].
    apply Forall2_or in Hs as [Hs|Hs]; [|by right]. left. split; [done|].
    apply Forall2_flip in Hs. destruct (Permutation_Forall2 (symmetry P2) Hs) as (l & Hl & Hf). exists l.
    split; [by rewrite P1|by apply Forall2_flip].
  - intros [Ec (l & Hl & Hs)]. destruct (Permutation_Forall2 Hl D1) as (ds & Hds & Hf).
    pose proof (same_cells_decided _ _ _ _ Hs Hf D2) as ->. rewrite (decided_keys _ _ D1) in N1.
    unfold content, snapshot_identity in Ec. injection Ec as ? E. assert (s1 = s2) as -> by congruence.
    f_equal. unfold manifest_buffer. rewrite (sort_cells_unique _ _ N1 Hds), (Permutation_length Hds). congruence.
Qed.
End guarantees.

(** ** A manifest *)

Module demo.
(** A digest that only depends on the sum of the bytes. *)
Fixpoint sum_codes (s : string) : N := match s with String a s => (code a + sum_codes s)%N | EmptyString => 0%N end.
Definition zeros : string := "00000000000000000000000000000000000000000000000000000000000000".
#[local] Instance sum_crypto : Crypto := {| sha256_hex s := hex_byte (byte_of_N (sum_codes s mod 256)) zeros |}.
Lemma sum_hex : hex_digests.
Proof. intros data. unfold sha256_hex, sum_crypto. by destruct (byte_of_N _). Qed.

Definition row : uuid := uid 7.
Definition raw_cell (column : string) (ordinal : Z) (value : option string) : RawCell :=
  let c := {| cell_SourceTable := "ExternalExecution"; cell_SourceRowID := row; cell_SourceColumn := column;
              cell_ColumnOrdinal := ordinal; cell_RawValue := value; cell_RawCellChecksum := "" |} in
  {| cell_SourceTable := cell_SourceTable c; cell_SourceRowID := row; cell_SourceColumn := column; cell_ColumnOrdinal := ordinal;
     cell_RawValue := value; cell_RawCellChecksum := ok_or "" (ComputeRawCellChecksum c) |}.
Definition cell_with (decision : string) (raw : RawCell) : CellDecision :=
  {| dec_Raw := raw; dec_Decision := decision; dec_SourceZone := ""; dec_SourceOffsetSeconds := None; dec_ConvertedValue := None;
     dec_EvidenceReference := ""; dec_EvidenceChecksum := ""; dec_ApprovingIdentity := "";
     dec_ConversionExpressionVersion := ConversionExpressionVersion |}.
Definition digest : string := "sha256:" +:+ "00" +:+ zeros.
Definition proven (c : CellDecision) : CellDecision :=
  {| dec_Raw := dec_Raw c; dec_Decision := DecisionProven; dec_SourceZone := "Europe/Vienna"; dec_SourceOffsetSeconds := Some 3600%Z;
     dec_ConvertedValue := Some "2023-12-31T23:30:00.000001Z"; dec_EvidenceReference := "log"; dec_EvidenceChecksum := digest;
     dec_ApprovingIdentity := "ops"; dec_ConversionExpressionVersion := ConversionExpressionVersion |}.
Definition cells : list CellDecision :=
  [cell_with DecisionUnresolved (raw_cell "created_at" 1 (Some "2024-01-01T00:30:00.000001")); cell_with DecisionNull (raw_cell "updated_at" 2 None);
   cell_with DecisionNull (raw_cell "started_at" 3 None); cell_with DecisionNull (raw_cell "completed_at" 4 None);
   cell_with DecisionNull (raw_cell "callback_deadline_at" 5 None)].
Definition resolved_cells : list CellDecision := match cells with c :: l => proven c :: l | [] => [] end.

Definition unsigned (id : uuid) (previous : option uuid) (l : list CellDecision) : Manifest :=
  let raw := ok_or "" (ComputeRawSetChecksum (dec_Raw <$> l)) in
  {| man_ID := id; man_SupersedesManifestID := previous;
     man_DatabaseIdentityChecksum := ok_or "" (ComputeDatabaseIdentityChecksum 137 [row] [] 5 raw); man_SourceSchemaVersion := 137;
     man_SnapshotStartedAt := "2024-02-01T00:00:00.000000Z"; man_SnapshotEndedAt := "2024-02-01T00:00:01.000000Z"; man_ExecutionCount := 1;
     man_EventCount := 0; man_RawCellCount := 5; man_PopulatedCellCount := 1; man_RawCellChecksum := raw; man_EvidenceBundleReference := "";
     man_EvidenceBundleChecksum := ""; man_ToolVersion := "v1"; man_ConversionExpressionVersion := ConversionExpressionVersion;
     man_AuthorIdentity := ""; man_ReviewerIdentity := ""; man_ApprovedAt := ""; man_TargetReleaseCommit := ""; man_TargetImageDigest := "";
     man_State := StateDraft; man_DecisionContentChecksum := ""; man_Cells := l |}.
Definition signed (m : Manifest) : Manifest := with_cells (man_Cells m) (ok_or "" (ComputeDecisionContentChecksum m)) m.
Definition first_manifest : Manifest := Eval vm_compute in signed (unsigned (uid 1) None cells).
Definition second_manifest : Manifest := Eval vm_compute in signed (unsigned (uid 2) (Some (uid 1)) resolved_cells).

Lemma first_valid : ValidateManifestDocument first_manifest = [].
Proof. reflexivity. Qed.
Lemma second_supersedes : supersedes first_manifest second_manifest.
Proof. reflexivity. Qed.
Lemma first_counts : uint64_counts first_manifest.
Proof. repeat split; unfold first_manifest; cbn; lia. Qed.
Lemma second_counts : uint64_counts second_manifest.
Proof. repeat split; unfold second_manifest; cbn; lia. Qed.

(** The same manifest with its cells in another order. *)
Definition reordered : Manifest := with_cells (rev (man_Cells first_manifest)) (man_DecisionContentChecksum first_manifest) first_manifest.
Lemma reordered_valid : ValidateManifestDocument reordered = [].
Proof. reflexivity. Qed.
Lemma demo_fits m : m = first_manifest \/ m = reordered -> fits m.
Proof.
  intros [-> | ->]; (split; [|split; [|split]]); try (repeat split; cbn; lia);
    unfold reordered, first_manifest, manifest_texts, cell_texts; cbn [man_Cells with_cells rev app];
    repeat (apply Forall_cons; split); try apply Forall_nil; try done; reflexivity.
Qed.

Definition options : SealOptions :=
  {| seal_AuthorIdentity := " ann "; seal_ReviewerIdentity := "bob"; seal_EvidenceBundleReference := "ticket";
     seal_EvidenceBundleChecksum := digest; seal_TargetReleaseCommit := "0123456789012345678901234567890123456789";
     seal_TargetImageDigest := digest |}.
Lemma options_complete : complete_options options.
Proof. split; vm_compute; done. Qed.

Lemma validation_accepts_valid_manifests_witness : uint64_counts second_manifest /\ valid_manifest second_manifest.
Proof.
  split; [exact second_counts|]. apply (proj1 (validation_accepts_valid_manifests second_manifest second_counts)). reflexivity.
Defined.

Lemma supersession_keeps_resolutions_witness : supersedes first_manifest second_manifest /\ continues first_manifest second_manifest.
Proof.
  split; [exact second_supersedes|].
  exact (proj1 (proj2 (supersession_keeps_resolutions first_manifest second_manifest first_valid (rtc_once _ _ second_supersedes)))).
Defined.

Lemma sealing_approves_drafts_witness :
  exists s, SealManifest second_manifest options 1706800000000000123 = Ok s /\ man_Cells s = man_Cells second_manifest.
Proof.
  apply (proj2 (proj2 (sealing_approves_drafts second_manifest options 1706800000000000123 sum_hex second_counts ltac:(split; vm_compute; done))
    ltac:(reflexivity) ltac:(reflexivity))). exact options_complete.
Defined.

Lemma decision_checksum_identifies_witness : man_Cells first_manifest <> man_Cells reordered
  /\ (same_content first_manifest reordered \/ collision).
Proof.
  split; [discriminate|]. apply (proj1 (decision_checksum_identifies first_manifest reordered sum_hex (demo_fits _ (or_introl eq_refl))
    (demo_fits _ (or_intror eq_refl)) first_valid reordered_valid)). reflexivity.
Defined.
End demo.
