(* ===== verification/TimestampTables.v ===== *)
(** * External execution timestamps: tables and catalog
    ([db/external_execution_timestamps.go], migration 138)

    The timestamp columns of external executions and their events, the ledger
    of manifests with the decisions on every cell, the tombstones of deleted
    rows, and the state that the migration left. A [timestamp] column holds a
    wall clock, as the instant that it is in UTC; a [timestamptz] column holds
    an instant; both in nanoseconds. What a query finds in the system catalogs
    is a field of [Catalog]. *)
From S2P Require Import Prelude GoStrings GoTime Uuid TaskStore Transaction StepRedaction TimestampCanonical TimestampManifest.
From Stdlib Require Import Ascii.
Open Scope list_scope.
#[local] Open Scope Z_scope.

(** ** Errors

    An error is [Internal] of its message; [NotFound] is [pgx.ErrNoRows]. *)

Definition fail {A} (message : string) : result apierror A := Err (Internal message).
Definition text_result {A} (context : string) (r : result string A) : result apierror A :=
  match r with Ok a => Ok a | Err e => Err (Internal (context +:+ e)) end.
Definition unless (cond : bool) (message : string) : result apierror unit :=
  if cond then fail message else Ok tt.

(** ** Rows *)

(** A column and its instant. *)
Record pair := { p_raw : option Z; p_instant : option Z }.
Record ExecutionTimes := {
  et_ID : uuid; et_CreatedAt : pair; et_UpdatedAt : pair; et_StartedAt : pair; et_CompletedAt : pair;
  et_CallbackDeadlineAt : pair }.
Record EventTimes := { ev_ID : uuid; ev_CreatedAt : pair }.

(** [storedExternalExecutionTimestampManifestRow], with [applied_at]. *)
Record ManifestRow := {
  mr_ID : uuid; mr_SupersedesManifestID : option uuid; mr_DatabaseIdentityChecksum : string; mr_SourceSchemaVersion : Z;
  mr_SnapshotStartedAt : Z; mr_SnapshotEndedAt : Z; mr_ExecutionCount : Z; mr_EventCount : Z; mr_RawCellCount : Z;
  mr_PopulatedCellCount : Z; mr_RawCellChecksum : string; mr_EvidenceBundleReference : string;
  mr_EvidenceBundleChecksum : string; mr_ToolVersion : string; mr_ConversionExpressionVersion : string;
  mr_AuthorIdentity : string; mr_ReviewerIdentity : string; mr_ApprovedAt : Z; mr_TargetReleaseCommit : string;
  mr_TargetImageDigest : string; mr_State : string; mr_DecisionContentChecksum : string;
  mr_AppliedAt : option Z; mr_VerifiedAt : option Z }.

(** [storedExternalExecutionTimestampProvenanceRow]; [raw_is_null] is whether
    there is no raw value, [xmin] the transaction that inserted the row. *)
Record ProvenanceRow := {
  pr_ManifestID : uuid; pr_SourceTable : string; pr_SourceRowID : uuid; pr_SourceColumn : string; pr_ColumnOrdinal : Z;
  pr_RawValue : option Z; pr_Decision : string; pr_SourceZone : option string; pr_SourceOffsetSeconds : option Z;
  pr_ConvertedValue : option Z; pr_EvidenceReference : option string; pr_EvidenceChecksum : option string;
  pr_ApprovingIdentity : option string; pr_RawCellChecksum : string; pr_ParentManifestChecksum : string;
  pr_ConversionExpressionVersion : string; pr_Xmin : Z }.

Record TombstoneRow := {
  tr_SourceTable : string; tr_SourceRowID : uuid; tr_SourceColumn : string; tr_ColumnOrdinal : Z; tr_RawValue : option Z;
  tr_InstantValue : option Z; tr_RowCreatedInstant : option Z; tr_DeletionOperationID : uuid; tr_DeletionReason : string;
  tr_DeletedAt : Z }.

Record ExpandState := {
  xs_TransitionKind : string; xs_SourceVersion : Z; xs_ExecutionCount : Z; xs_EventCount : Z; xs_RawCellCount : Z;
  xs_TransitionedAt : Z }.

(** [externalExecutionTimestampGuardSpec] *)
Record GuardSpec := {
  gs_errorLabel : string; gs_functionName : string; gs_functionBodyHash : string; gs_tableName : string;
  gs_triggerName : string; gs_triggerType : Z; gs_updateColumns : list string }.
Record TriggerSetSpec := { ss_tableName : string; ss_triggerCount : Z }.

(** What the catalog queries return: the kind of [schema_migrations] (none when
    it is absent), its columns and those of the expected shape, its primary
    keys and rows; the eight counts of the shape of the tables; the exact
    indexes; the body of a trigger function, the triggers that match a
    specification, and the triggers of a table. *)
Record Catalog := {
  ca_MigrationsKind : option string; ca_MigrationColumns : Z; ca_MatchingMigrationColumns : Z; ca_MigrationPrimaryKeys : Z;
  ca_Migrations : list (Z * bool);
  ca_Legacy : Z; ca_ShadowShape : Z; ca_ShadowName : Z; ca_ExpandObject : Z; ca_OrdinaryTable : Z; ca_ExpandColumn : Z;
  ca_ExpandConstraint : Z; ca_ExpandDefault : Z; ca_Indexes : Z;
  ca_FunctionBody : string -> option string; ca_Triggers : GuardSpec -> Z; ca_TriggerCount : string -> Z }.

Record tsdb := {
  Catalogs : Catalog; Executions : list ExecutionTimes; Events : list EventTimes; Manifests : list ManifestRow;
  Provenance : list ProvenanceRow; Tombstones : list TombstoneRow; Expand : list ExpandState }.
Definition ttx (A : Type) : Type := stx tsdb A.

Definition with_executions (l : list ExecutionTimes) (s : tsdb) : tsdb :=
  {| Catalogs := Catalogs s; Executions := l; Events := Events s; Manifests := Manifests s; Provenance := Provenance s;
     Tombstones := Tombstones s; Expand := Expand s |}.
Definition with_events (l : list EventTimes) (s : tsdb) : tsdb :=
  {| Catalogs := Catalogs s; Executions := Executions s; Events := l; Manifests := Manifests s; Provenance := Provenance s;
     Tombstones := Tombstones s; Expand := Expand s |}.
Definition with_manifests (l : list ManifestRow) (s : tsdb) : tsdb :=
  {| Catalogs := Catalogs s; Executions := Executions s; Events := Events s; Manifests := l; Provenance := Provenance s;
     Tombstones := Tombstones s; Expand := Expand s |}.
Definition with_provenance (l : list ProvenanceRow) (s : tsdb) : tsdb :=
  {| Catalogs := Catalogs s; Executions := Executions s; Events := Events s; Manifests := Manifests s; Provenance := l;
     Tombstones := Tombstones s; Expand := Expand s |}.

(** ** The schema *)

(** [externalExecutionTimestampSchemaStatusExpectation] *)
Record SchemaStatusExpectation := {
  sx_MarkerVersion : Z; sx_CatalogVersion : Z; sx_Dirty : bool; sx_MarkerAlreadyValidated : bool }.
Record SchemaContract := { sc_CatalogVersion : Z; sc_IdentitySourceVersion : Z }.

Definition bool_text (b : bool) : string := if b then "true" else "false".

(** The row of [schema_migrations], when the table has the exact shape. *)
Definition readMigrationRow (c : Catalog) : result apierror (Z * bool) :=
  match ca_MigrationsKind c with
  | None => fail "schema_migrations is absent"
  | Some kind =>
      unless (negb (bool_decide (kind = "r"))) "schema_migrations must be an ordinary table" ≫= λ _,
      unless (negb (ca_MigrationColumns c =? 2) || negb (ca_MatchingMigrationColumns c =? 2))
        "schema_migrations catalog must contain exactly version BIGINT NOT NULL and dirty BOOLEAN NOT NULL" ≫= λ _,
      unless (negb (ca_MigrationPrimaryKeys c =? 1)) "schema_migrations must have exactly one primary key on version" ≫= λ _,
      match ca_Migrations c with
      | [row] => Ok row
      | l => fail ("schema_migrations must contain exactly one row; found " +:+ itoa (Z.of_nat (length l)))
      end
  end.

Definition effective_version (expected : option SchemaStatusExpectation) (version : Z) (dirty : bool) : result apierror Z :=
  match expected with
  | None => if dirty then fail ("schema version " +:+ itoa version +:+ " is dirty") else Ok version
  | Some x =>
      if negb (version =? sx_MarkerVersion x) || negb (Bool.eqb dirty (sx_Dirty x)) then
        fail ("schema marker is version " +:+ itoa version +:+ " dirty=" +:+ bool_text dirty +:+ "; expected version "
              +:+ itoa (sx_MarkerVersion x) +:+ " dirty=" +:+ bool_text (sx_Dirty x))
      else Ok (sx_CatalogVersion x)
  end.

Definition readTimestampEffectiveSchemaVersion (expected : option SchemaStatusExpectation) (s : tsdb) : result apierror Z :=
  let read := readMigrationRow (Catalogs s) ≫= λ '(version, dirty), effective_version expected version dirty in
  match expected with
  | Some x => if sx_MarkerAlreadyValidated x then Ok (sx_CatalogVersion x) else read
  | None => read
  end.

(** [COALESCE(min(source_schema_version), 0)]; the column is 137 in every row. *)
Definition min_source_version (l : list ExpandState) : Z :=
  match l with [] => 0 | x :: l => foldl (λ v y, Z.min v (xs_SourceVersion y)) (xs_SourceVersion x) l end.

Definition readTimestampSchemaContractWithStatusInTx (expected : option SchemaStatusExpectation) (s : tsdb)
    : result apierror SchemaContract :=
  readTimestampEffectiveSchemaVersion expected s ≫= λ version,
  let c := Catalogs s in
  if negb (version =? 137) && (version <? 138) then fail ("schema " +:+ itoa version +:+ " is not supported") else
  if negb (ca_Legacy c =? 6) then fail ("legacy timestamp catalog has " +:+ itoa (ca_Legacy c) +:+ " of 6 required columns") else
  if version =? 137 then
    if negb (ca_ShadowName c =? 0) || negb (ca_ExpandObject c =? 0) then fail "schema 137 has unexpected expand objects" else
    Ok {| sc_CatalogVersion := 137; sc_IdentitySourceVersion := 137 |}
  else
  if negb (ca_ShadowName c =? 6) || negb (ca_ShadowShape c =? 6) || negb (ca_OrdinaryTable c =? 5)
     || negb (ca_ExpandColumn c =? 77) || negb (ca_ExpandConstraint c =? 19) || negb (ca_ExpandDefault c =? 1)
  then fail ("schema " +:+ itoa version +:+ " is not expand-compatible") else
  let source := min_source_version (Expand s) in
  if negb (Z.of_nat (length (Expand s)) =? 1) || negb (source =? 137)
  then fail "expand state must contain exactly one source version 137 row" else
  Ok {| sc_CatalogVersion := version; sc_IdentitySourceVersion := source |}.
Definition readTimestampSchemaContractInTx : tsdb -> result apierror SchemaContract :=
  readTimestampSchemaContractWithStatusInTx None.

Definition error_text (e : apierror) : string := match e with Internal m => m | _ => "no rows in result set" end.

Definition timestampReadinessContractError (e : apierror) : apierror :=
  let m := error_text e in
  Internal (if Contains m "dirty" then m else
            if Contains m "expand state" then "expand state: " +:+ m else
            if Contains m "schema_migrations" then "schema version ledger: " +:+ m else "column shape: " +:+ m).

Definition requireTimestampIndexesInTx (s : tsdb) : result apierror unit :=
  unless (negb (ca_Indexes (Catalogs s) =? 5))
    ("index shape has " +:+ itoa (ca_Indexes (Catalogs s)) +:+ " of 5 exact required indexes").

(** ** The guards of the ledger *)

(** [strings.Fields] *)
Fixpoint fields_from (s : string) (word : string) : list string :=
  let flush := if bool_decide (word = "") then [] else [word] in
  match s with
  | EmptyString => flush
  | String a r =>
      if space1 a then flush ++ fields_from r "" else
      match r with
      | String b r2 =>
          if space2 a b then flush ++ fields_from r2 "" else
          match r2 with
          | String c r3 => if space3 a b c then flush ++ fields_from r3 "" else fields_from r (word +:+ String a "")
          | EmptyString => fields_from r (word +:+ String a "")
          end
      | EmptyString => fields_from r (word +:+ String a "")
      end
  end.
Definition Fields (s : string) : list string := fields_from s "".

Definition provenance_guard : GuardSpec :=
  {| gs_errorLabel := "provenance guard"; gs_functionName := "external_execution_timestamp_provenance_append_only";
     gs_functionBodyHash := "a07a7f8724882ba9dd00aa22f1d1c9808daa22c3233a8fa8cdbeb49ce9259739";
     gs_tableName := "externalexecutiontimestampcellprovenance";
     gs_triggerName := "externalexecutiontimestampcellprovenance_append_only"; gs_triggerType := 27; gs_updateColumns := [] |}.
Definition TombstoneTable : string := "externalexecutiontimestampdeletiontombstone".
Definition RejectTruncateFunction : string := "external_execution_timestamp_reject_truncate".
Definition RejectTruncateBodyHash : string := "f3e3a6a3efe319c199d432db99ca0151bfae72a44523e31100b4253419e41852".
Definition DeletionBodyHash : string := "bfffd0e15835e8da290f44cfc428e33d3718d8f684368ce40f5a1d8f42537410".
Definition PairBodyHash : string := "3203c6ef209d179789667ba3e153013ea0009a944ca4d3f40e99a2ecdf2b27d9".
Definition guard (label function hash table trigger : string) (type : Z) (columns : list string) : GuardSpec :=
  {| gs_errorLabel := label; gs_functionName := function; gs_functionBodyHash := hash; gs_tableName := table;
     gs_triggerName := trigger; gs_triggerType := type; gs_updateColumns := columns |}.

(** [externalExecutionTimestampGuardSpecs] *)
Definition GuardSpecs : list GuardSpec := [
  provenance_guard;
  guard "deletion tombstone guard" "external_execution_timestamp_tombstone_append_only"
    "1edfa6735b7b4a19ee1ad8686fa986441e9f2d7d73dbce0781ae78a0fbb4039e" TombstoneTable
    "externalexecutiontimestampdeletiontombstone_append_only" 27 [];
  guard "execution deletion guard" "external_execution_timestamp_capture_deletion" DeletionBodyHash "externalexecution"
    "externalexecution_timestamp_deletion_tombstone" 11 [];
  guard "event deletion guard" "external_execution_timestamp_capture_deletion" DeletionBodyHash "externalexecutionevent"
    "externalexecutionevent_timestamp_deletion_tombstone" 11 [];
  guard "expand state" "external_execution_timestamp_expand_state_append_only"
    "59160ab340a6d88434a559ae95ac44ad19656e4dd9622449c805626cddeb9ec9" "externalexecutiontimestampexpandstate"
    "externalexecutiontimestampexpandstate_append_only" 27 [];
  guard "execution timestamp pair guard" "external_execution_timestamp_pair_guard" PairBodyHash "externalexecution"
    "externalexecution_timestamp_pair_guard" 23
    ["created_at"; "created_at_instant"; "updated_at"; "updated_at_instant"; "started_at"; "started_at_instant";
     "completed_at"; "completed_at_instant"; "callback_deadline_at"; "callback_deadline_at_instant"];
  guard "event timestamp pair guard" "external_execution_timestamp_pair_guard" PairBodyHash "externalexecutionevent"
    "externalexecutionevent_timestamp_pair_guard" 23 ["created_at"; "created_at_instant"];
  guard "lifecycle trigger" "external_execution_lifecycle_pair_one_shot"
    "add0ab160477869f8e3ff881623ec7a6fd8d37cd28864cbabdd6be0acdf3d2e3" "externalexecution"
    "externalexecution_lifecycle_pair_one_shot" 19 ["started_at"; "started_at_instant"; "completed_at"; "completed_at_instant"];
  guard "manifest lifecycle" "external_execution_timestamp_manifest_lifecycle"
    "a496fb4bb76835006a10ee70a2dc9fde1bd930508cf1ccbf60a0c395ff230632" "externalexecutiontimestampmanifest"
    "externalexecutiontimestampmanifest_lifecycle" 31 [];
  guard "expand state truncate guard" RejectTruncateFunction RejectTruncateBodyHash "externalexecutiontimestampexpandstate"
    "externalexecutiontimestampexpandstate_reject_truncate" 34 [];
  guard "manifest truncate guard" RejectTruncateFunction RejectTruncateBodyHash "externalexecutiontimestampmanifest"
    "externalexecutiontimestampmanifest_reject_truncate" 34 [];
  guard "provenance truncate guard" RejectTruncateFunction RejectTruncateBodyHash "externalexecutiontimestampcellprovenance"
    "externalexecutiontimestampcellprovenance_reject_truncate" 34 [];
  guard "deletion tombstone truncate guard" RejectTruncateFunction RejectTruncateBodyHash TombstoneTable
    "externalexecutiontimestampdeletiontombstone_reject_truncate" 34 []].

Definition BusinessTriggerSetSpecs : list TriggerSetSpec := [
  {| ss_tableName := "externalexecution"; ss_triggerCount := 3 |};
  {| ss_tableName := "externalexecutionevent"; ss_triggerCount := 2 |};
  {| ss_tableName := TombstoneTable; ss_triggerCount := 2 |}].

Section guards.
Context `{Crypto}.

Definition normalizedTimestampFunctionHash (body : string) : string := sha256_hex (Join (Fields body) " ").

Definition requireTimestampGuardInTx (c : Catalog) (spec : GuardSpec) : result apierror unit :=
  match ca_FunctionBody c (gs_functionName spec) with
  | None => fail (gs_errorLabel spec +:+ " function is absent or malformed: no rows in result set")
  | Some body =>
      unless (negb (bool_decide (normalizedTimestampFunctionHash body = gs_functionBodyHash spec)))
        (gs_errorLabel spec +:+ " function body differs from migration 138") ≫= λ _,
      unless (negb (ca_Triggers c spec =? 1)) (gs_errorLabel spec +:+ " must have one exact enabled migration-138 trigger")
  end.

Definition requireTriggerSet (c : Catalog) (spec : TriggerSetSpec) : result apierror unit :=
  let found := ca_TriggerCount c (ss_tableName spec) in
  unless (negb (found =? ss_triggerCount spec))
    (ss_tableName spec +:+ " non-internal trigger set has " +:+ itoa found +:+ " triggers; expected exactly "
     +:+ itoa (ss_triggerCount spec)).

Definition requireTimestampGuardsInTx (s : tsdb) : result apierror unit :=
  for_each (requireTimestampGuardInTx (Catalogs s)) GuardSpecs ≫= λ _,
  for_each (requireTriggerSet (Catalogs s)) BusinessTriggerSetSpecs.
End guards.

(** ** The state of the migration *)

Definition count_mod (n : Z) : Z := n mod 2 ^ 64.

Definition readTimestampExpandStateInTx (s : tsdb) : result apierror ExpandState :=
  match Expand s with
  | [x] =>
      if negb (xs_SourceVersion x =? 137) || negb (xs_RawCellCount x =? count_mod (5 * xs_ExecutionCount x + xs_EventCount x))
      then fail "expand state counts/source version are invalid" else
      let kind := xs_TransitionKind x in
      if bool_decide (kind = "ZERO_HISTORY") then
        if negb (xs_ExecutionCount x =? 0) || negb (xs_EventCount x =? 0) || negb (xs_RawCellCount x =? 0)
        then fail "expand state ZERO_HISTORY counts are invalid" else Ok x
      else if bool_decide (kind = "MANIFEST_REQUIRED") then
        if (xs_ExecutionCount x =? 0) && (xs_EventCount x =? 0) then fail "expand state MANIFEST_REQUIRED counts are invalid" else Ok x
      else fail ("expand state transition kind " +:+ quote kind +:+ " is unsupported")
  | [] => fail "expand state must contain exactly one row: no rows in result set"
  | _ => fail "expand state must contain exactly one row: too many rows in result set"
  end.

Definition requireRootManifestMatchesExpandState (m : Manifest) (x : ExpandState) : result apierror unit :=
  unless (negb (bool_decide (xs_TransitionKind x = "MANIFEST_REQUIRED"))) "first manifest requires MANIFEST_REQUIRED expand state" ≫= λ _,
  unless (negb (man_ExecutionCount m =? xs_ExecutionCount x) || negb (man_EventCount m =? xs_EventCount x)
          || negb (man_RawCellCount m =? xs_RawCellCount x)) "first manifest counts differ from migration-138 transition counts" ≫= λ _,
  text_result "first manifest snapshot end: " (ParseInstant (man_SnapshotEndedAt m)) ≫= λ ended,
  unless (xs_TransitionedAt x <? ended) "first manifest snapshot must end at or before migration-138 transition".

(** ** The cells of the tables *)

Definition raw_text (v : option Z) : option string := format_wall <$> v.
Definition instant_text (v : option Z) : option string := FormatInstant <$> v.

(** [currentExternalExecutionTimestampCell] *)
Record CurrentCell := {
  cu_SourceTable : string; cu_SourceRowID : uuid; cu_SourceColumn : string; cu_ColumnOrdinal : Z;
  cu_RawValue : option string; cu_InstantValue : option string; cu_RowCreatedInstant : option string }.
(** [externalExecutionTimestampDeletionTombstone] *)
Record Tombstone := {
  tm_Cell : CurrentCell; tm_DeletionOperationID : uuid; tm_DeletionReason : string; tm_DeletedAt : string }.

(** The columns of a row, with their ordinals. *)
Definition execution_columns (x : ExecutionTimes) : list (string * Z * pair) :=
  [("created_at", 1, et_CreatedAt x); ("updated_at", 2, et_UpdatedAt x); ("started_at", 3, et_StartedAt x);
   ("completed_at", 4, et_CompletedAt x); ("callback_deadline_at", 5, et_CallbackDeadlineAt x)].
Definition cell_of (table : string) (id : uuid) (created : option Z) (c : string * Z * pair) : CurrentCell :=
  {| cu_SourceTable := table; cu_SourceRowID := id; cu_SourceColumn := c.1.1; cu_ColumnOrdinal := c.1.2;
     cu_RawValue := raw_text (p_raw c.2); cu_InstantValue := instant_text (p_instant c.2);
     cu_RowCreatedInstant := instant_text created |}.
Definition execution_current (x : ExecutionTimes) : list CurrentCell :=
  cell_of "externalexecution" (et_ID x) (p_instant (et_CreatedAt x)) <$> execution_columns x.
Definition event_current (x : EventTimes) : CurrentCell :=
  cell_of "externalexecutionevent" (ev_ID x) (p_instant (ev_CreatedAt x)) ("created_at", 6, ev_CreatedAt x).

(** [ORDER BY source_table, source_row_id, column_ordinal] *)
Definition row_order (x y : string * uuid * Z) : bool :=
  if negb (bool_decide (x.1.1 = y.1.1)) then string_less x.1.1 y.1.1 else
  if negb (bool_decide (x.1.2 = y.1.2)) then string_less (uuid_raw x.1.2) (uuid_raw y.1.2) else (x.2 <? y.2).
Definition order_rows {A} (key : A -> string * uuid * Z) (l : list A) : list A := stable_sort (λ x y, row_order (key x) (key y)) l.
Definition current_order (c : CurrentCell) : string * uuid * Z := (cu_SourceTable c, cu_SourceRowID c, cu_ColumnOrdinal c).

(** [currentExternalExecutionTimestampCellsSQL] *)
Definition readCurrentTimestampCellsInTx (s : tsdb) : list CurrentCell :=
  order_rows current_order ((Executions s ≫= execution_current) ++ (event_current <$> Events s)).

(** [externalExecutionTimestampDeletionTombstonesSQL] *)
Definition tombstone_of (t : TombstoneRow) : Tombstone :=
  {| tm_Cell := {| cu_SourceTable := tr_SourceTable t; cu_SourceRowID := tr_SourceRowID t; cu_SourceColumn := tr_SourceColumn t;
                   cu_ColumnOrdinal := tr_ColumnOrdinal t; cu_RawValue := raw_text (tr_RawValue t);
                   cu_InstantValue := instant_text (tr_InstantValue t); cu_RowCreatedInstant := instant_text (tr_RowCreatedInstant t) |};
     tm_DeletionOperationID := tr_DeletionOperationID t; tm_DeletionReason := tr_DeletionReason t;
     tm_DeletedAt := FormatInstant (tr_DeletedAt t) |}.
Definition readTimestampDeletionTombstonesInTx (s : tsdb) : list Tombstone :=
  tombstone_of <$> order_rows (λ t, (tr_SourceTable t, tr_SourceRowID t, tr_ColumnOrdinal t)) (Tombstones s).

(** [externalExecutionTimestampRawCellsSQL] *)
Definition raw_row (c : CurrentCell) : RawCell :=
  {| cell_SourceTable := cu_SourceTable c; cell_SourceRowID := cu_SourceRowID c; cell_SourceColumn := cu_SourceColumn c;
     cell_ColumnOrdinal := cu_ColumnOrdinal c mod 256; cell_RawValue := cu_RawValue c; cell_RawCellChecksum := "" |}.
Definition readRawRows (s : tsdb) : list RawCell := raw_row <$> readCurrentTimestampCellsInTx s.

Definition timestampCellKey (table : string) (rowID : uuid) (column : string) (ordinal : Z) : string :=
  table +:+ "/" +:+ uuid_string rowID +:+ "/" +:+ column +:+ "/" +:+ itoa ordinal.
Definition raw_cell_key (c : RawCell) : string :=
  timestampCellKey (cell_SourceTable c) (cell_SourceRowID c) (cell_SourceColumn c) (cell_ColumnOrdinal c).
Definition decision_key (c : CellDecision) : string := raw_cell_key (dec_Raw c).
(** [uint8(cell.ColumnOrdinal)] *)
Definition current_key (c : CurrentCell) : string :=
  timestampCellKey (cu_SourceTable c) (cu_SourceRowID c) (cu_SourceColumn c) (cu_ColumnOrdinal c mod 256).

(** A Go map of values under their keys: the last one stays. *)
Definition keyed {A} (key : A -> string) (l : list A) : gmap string A := foldl (λ m x, <[key x := x]> m) ∅ l.

(** ** Inspection *)

(** The two readings of the clock, [uuid.New()] and [buildconfig.Version()]. *)
Record InspectEnv := { in_StartedAt : Z; in_EndedAt : Z; in_ID : uuid; in_Version : string }.

(** A slice with a map of what it has. *)
Definition add_seen (l : list uuid) (u : uuid) : list uuid := if contains l u then l else l ++ [u].
Definition source_ids (table : string) (cells : list RawCell) : list uuid :=
  foldl (λ l c, if bool_decide (cell_SourceTable c = table) then add_seen l (cell_SourceRowID c) else l) [] cells.

Definition undecided (raw : RawCell) : CellDecision :=
  {| dec_Raw := raw; dec_Decision := if bool_decide (cell_RawValue raw = None) then DecisionNull else DecisionUnresolved;
     dec_SourceZone := ""; dec_SourceOffsetSeconds := None; dec_ConvertedValue := None; dec_EvidenceReference := "";
     dec_EvidenceChecksum := ""; dec_ApprovingIdentity := ""; dec_ConversionExpressionVersion := ConversionExpressionVersion |}.

Definition populated_count (cells : list RawCell) : Z :=
  Z.of_nat (length (List.filter (λ c, negb (bool_decide (cell_RawValue c = None))) cells)).

Definition with_raw_checksum (sum : string) (c : RawCell) : RawCell :=
  {| cell_SourceTable := cell_SourceTable c; cell_SourceRowID := cell_SourceRowID c; cell_SourceColumn := cell_SourceColumn c;
     cell_ColumnOrdinal := cell_ColumnOrdinal c; cell_RawValue := cell_RawValue c; cell_RawCellChecksum := sum |}.

Section inspection.
Context `{Crypto}.

Definition inspect_row (c : RawCell) : result apierror RawCell :=
  text_result "" (ComputeRawCellChecksum c) ≫= λ sum,
  if known_table (cell_SourceTable c) then Ok (with_raw_checksum sum c)
  else fail ("unexpected timestamp source table " +:+ quote (cell_SourceTable c)).
Fixpoint inspect_rows (l : list RawCell) : result apierror (list RawCell) :=
  match l with [] => Ok [] | c :: l => inspect_row c ≫= λ c, inspect_rows l ≫= λ l, Ok (c :: l) end.

Definition draft_manifest (env : InspectEnv) (version : Z) (cells : list RawCell) (executions events : list uuid)
    (rawSet identity : string) : Manifest :=
  {| man_ID := in_ID env; man_SupersedesManifestID := None; man_DatabaseIdentityChecksum := identity;
     man_SourceSchemaVersion := version; man_SnapshotStartedAt := FormatInstant (in_StartedAt env);
     man_SnapshotEndedAt := FormatInstant (in_EndedAt env); man_ExecutionCount := Z.of_nat (length executions);
     man_EventCount := Z.of_nat (length events); man_RawCellCount := Z.of_nat (length cells);
     man_PopulatedCellCount := populated_count cells; man_RawCellChecksum := rawSet; man_EvidenceBundleReference := "";
     man_EvidenceBundleChecksum := ""; man_ToolVersion := in_Version env;
     man_ConversionExpressionVersion := ConversionExpressionVersion; man_AuthorIdentity := ""; man_ReviewerIdentity := "";
     man_ApprovedAt := ""; man_TargetReleaseCommit := ""; man_TargetImageDigest := ""; man_State := StateDraft;
     man_DecisionContentChecksum := ""; man_Cells := undecided <$> cells |}.

Definition inspectTimestampsInTx (env : InspectEnv) (s : tsdb) : result apierror Manifest :=
  readTimestampSchemaContractInTx s ≫= λ contract,
  inspect_rows (readRawRows s) ≫= λ cells : list RawCell,
  let executions := source_ids "externalexecution" cells in
  let events := source_ids "externalexecutionevent" cells in
  text_result "" (ComputeRawSetChecksum cells) ≫= λ rawSet,
  text_result "" (ComputeDatabaseIdentityChecksum (sc_IdentitySourceVersion contract) executions events
    (Z.of_nat (length cells)) rawSet) ≫= λ identity,
  let m := draft_manifest env (sc_IdentitySourceVersion contract) cells executions events rawSet identity in
  text_result "" (ComputeDecisionContentChecksum m) ≫= λ sum, Ok (with_cells (man_Cells m) sum m).

(** [RunReadOnlyTxRR]: one snapshot of the state, which stays. *)
Definition InspectExternalExecutionTimestamps (env : InspectEnv) : ttx Manifest := squery (inspectTimestampsInTx env).
End inspection.

(** ** A manifest against a snapshot *)

Definition same_snapshot (m snapshot : Manifest) : bool :=
  (man_SourceSchemaVersion m =? man_SourceSchemaVersion snapshot) && (man_ExecutionCount m =? man_ExecutionCount snapshot)
  && (man_EventCount m =? man_EventCount snapshot) && (man_RawCellCount m =? man_RawCellCount snapshot)
  && (man_PopulatedCellCount m =? man_PopulatedCellCount snapshot)
  && bool_decide (man_RawCellChecksum m = man_RawCellChecksum snapshot)
  && bool_decide (man_DatabaseIdentityChecksum m = man_DatabaseIdentityChecksum snapshot).

(** The cells that are left when those of the manifest are taken away. *)
Fixpoint match_cells (l : list CellDecision) (current : gmap string RawCell) : result apierror (gmap string RawCell) :=
  match l with
  | [] => Ok current
  | c :: l =>
      let key := decision_key c in
      match current !! key with
      | Some raw =>
          if bool_decide (cell_RawValue raw = cell_RawValue (dec_Raw c)
                          /\ cell_RawCellChecksum raw = cell_RawCellChecksum (dec_Raw c))
          then match_cells l (delete key current)
          else fail ("manifest raw cell " +:+ key +:+ " does not match snapshot")
      | None => fail ("manifest raw cell " +:+ key +:+ " does not match snapshot")
      end
  end.

Definition requireManifestMatchesSnapshot (m snapshot : Manifest) : result apierror unit :=
  unless (negb (same_snapshot m snapshot)) "manifest does not match the current raw snapshot" ≫= λ _,
  match_cells (man_Cells m) (keyed raw_cell_key (dec_Raw <$> man_Cells snapshot)) ≫= λ rest,
  unless (negb (bool_decide (rest = ∅))) "manifest omits current raw cells".

Record ValidationReport := {
  vr_ManifestID : uuid; vr_SchemaVersion : Z; vr_ExecutionCount : Z; vr_EventCount : Z; vr_RawCellCount : Z;
  vr_PopulatedCellCount : Z; vr_UnresolvedCellCount : Z; vr_RawSetChecksum : string; vr_DatabaseIdentityChecksum : string;
  vr_DecisionContentChecksum : string }.

(** The cells with one of the decisions. *)
Definition count_decisions (decisions : list string) (l : list CellDecision) : Z :=
  Z.of_nat (length (List.filter (λ c, contains decisions (dec_Decision c)) l)).

Definition validationReportFromManifest (m : Manifest) (catalogVersion : Z) : ValidationReport :=
  {| vr_ManifestID := man_ID m; vr_SchemaVersion := catalogVersion; vr_ExecutionCount := man_ExecutionCount m;
     vr_EventCount := man_EventCount m; vr_RawCellCount := man_RawCellCount m; vr_PopulatedCellCount := man_PopulatedCellCount m;
     vr_UnresolvedCellCount := count_decisions [DecisionUnresolved] (man_Cells m); vr_RawSetChecksum := man_RawCellChecksum m;
     vr_DatabaseIdentityChecksum := man_DatabaseIdentityChecksum m; vr_DecisionContentChecksum := man_DecisionContentChecksum m |}.

Section validation.
Context `{Crypto}.

(** [len(problems) != 0]: the problems are joined. *)
Definition require_no_problems (problems : list string) : result apierror unit :=
  unless (negb (bool_decide (problems = []))) (join_problems problems).

Definition ValidateExternalExecutionTimestampManifest (env : InspectEnv) (m : Manifest) : ttx ValidationReport := λ s,
  if negb (bool_decide (man_SupersedesManifestID m = None))
  then fail "superseding manifest live validation requires verified-tip provenance; use the apply workflow" else
  squery (λ s,
    require_no_problems (ValidateManifestDocument m) ≫= λ _,
    readTimestampSchemaContractInTx s ≫= λ contract,
    inspectTimestampsInTx env s ≫= λ snapshot,
    requireManifestMatchesSnapshot m snapshot ≫= λ _,
    Ok (validationReportFromManifest m (sc_CatalogVersion contract))) s.
End validation.
