(* ===== verification/TimestampVerify.v ===== *)
(** * External execution timestamps: verification
    ([db/external_execution_timestamps.go])

    The ledger is read back as manifests; a verified manifest is compared with
    the rows and tombstones of today: the cells of its snapshot keep what the
    ledger proves of them, later cells are exact UTC pairs. Readiness asks this
    of the whole chain of manifests. *)
From S2P Require Import Prelude GoStrings GoTime Uuid TaskStore Transaction StepRedaction TimestampCanonical TimestampManifest TimestampTables.
From Stdlib Require Import Ascii.
Open Scope list_scope.
#[local] Open Scope Z_scope.

(** [fmt.Errorf("context%w", err)] *)
Definition wrap {A} (context : string) (r : result apierror A) : result apierror A :=
  match r with Ok a => Ok a | Err e => Err (Internal (context +:+ error_text e)) end.

(** ** Stored manifests *)

Definition manifest_of (r : ManifestRow) (cells : list CellDecision) : Manifest :=
  {| man_ID := mr_ID r; man_SupersedesManifestID := mr_SupersedesManifestID r;
     man_DatabaseIdentityChecksum := mr_DatabaseIdentityChecksum r; man_SourceSchemaVersion := mr_SourceSchemaVersion r;
     man_SnapshotStartedAt := FormatInstant (mr_SnapshotStartedAt r); man_SnapshotEndedAt := FormatInstant (mr_SnapshotEndedAt r);
     man_ExecutionCount := mr_ExecutionCount r; man_EventCount := mr_EventCount r; man_RawCellCount := mr_RawCellCount r;
     man_PopulatedCellCount := mr_PopulatedCellCount r; man_RawCellChecksum := mr_RawCellChecksum r;
     man_EvidenceBundleReference := mr_EvidenceBundleReference r; man_EvidenceBundleChecksum := mr_EvidenceBundleChecksum r;
     man_ToolVersion := mr_ToolVersion r; man_ConversionExpressionVersion := mr_ConversionExpressionVersion r;
     man_AuthorIdentity := mr_AuthorIdentity r; man_ReviewerIdentity := mr_ReviewerIdentity r;
     man_ApprovedAt := FormatInstant (mr_ApprovedAt r); man_TargetReleaseCommit := mr_TargetReleaseCommit r;
     man_TargetImageDigest := mr_TargetImageDigest r; man_State := mr_State r;
     man_DecisionContentChecksum := mr_DecisionContentChecksum r; man_Cells := cells |}.

Definition dereferenceTimestampText (value : option string) : string := default "" value.

Definition decision_of (p : ProvenanceRow) : CellDecision :=
  {| dec_Raw := {| cell_SourceTable := pr_SourceTable p; cell_SourceRowID := pr_SourceRowID p; cell_SourceColumn := pr_SourceColumn p;
                   cell_ColumnOrdinal := pr_ColumnOrdinal p mod 256; cell_RawValue := raw_text (pr_RawValue p);
                   cell_RawCellChecksum := pr_RawCellChecksum p |};
     dec_Decision := pr_Decision p; dec_SourceZone := dereferenceTimestampText (pr_SourceZone p);
     dec_SourceOffsetSeconds := pr_SourceOffsetSeconds p; dec_ConvertedValue := instant_text (pr_ConvertedValue p);
     dec_EvidenceReference := dereferenceTimestampText (pr_EvidenceReference p);
     dec_EvidenceChecksum := dereferenceTimestampText (pr_EvidenceChecksum p);
     dec_ApprovingIdentity := dereferenceTimestampText (pr_ApprovingIdentity p);
     dec_ConversionExpressionVersion := pr_ConversionExpressionVersion p |}.

Definition manifest_row (id : uuid) (s : tsdb) : result apierror ManifestRow :=
  match select_where (λ r, bool_decide (mr_ID r = id)) (Manifests s) with
  | [r] => Ok r
  | [] => Err NotFound
  | _ => fail "too many rows in result set"
  end.

(** [storedExternalExecutionTimestampProvenanceSQL] *)
Definition stored_cells (id : uuid) (s : tsdb) : list CellDecision :=
  decision_of <$> order_rows (λ p, (pr_SourceTable p, pr_SourceRowID p, pr_ColumnOrdinal p))
    (select_where (λ p, bool_decide (pr_ManifestID p = id)) (Provenance s)).

Definition readStoredTimestampManifestInTx (id : uuid) (s : tsdb) : result apierror (Manifest * string) :=
  manifest_row id s ≫= λ r, Ok (manifest_of r (stored_cells id s), mr_State r).

(** ** Tombstones *)

Definition timestampSourceRowKey (table : string) (id : uuid) : string := table +:+ "/" +:+ uuid_string id.

Record deletionGroup := { dg_operationID : uuid; dg_deletedAt : string; dg_ordinals : gset Z }.

Definition instant_or (context : string) (v : option string) : result apierror unit :=
  match v with Some v => text_result context (ParseInstant v) ≫= λ _, Ok tt | None => Ok tt end.
Definition tombstone_raw (t : Tombstone) : RawCell := raw_row (tm_Cell t).

Section tombstones.
Context `{Crypto}.

Definition check_tombstone (t : Tombstone) : result apierror unit :=
  unless (negb (bool_decide (tm_DeletionReason t = "ORGANIZATION_RETENTION")) || bool_decide (tm_DeletionOperationID t = Nil))
    "deletion tombstone has invalid authorization" ≫= λ _,
  instant_or "deletion tombstone time is invalid: " (Some (tm_DeletedAt t)) ≫= λ _,
  instant_or "deletion tombstone instant is invalid: " (cu_InstantValue (tm_Cell t)) ≫= λ _,
  instant_or "deletion tombstone creation instant is invalid: " (cu_RowCreatedInstant (tm_Cell t)) ≫= λ _,
  text_result "deletion tombstone cell is invalid: " (ComputeRawCellChecksum (tombstone_raw t)) ≫= λ _, Ok tt.

Definition add_to_group (t : Tombstone) (groups : gmap string deletionGroup) : result apierror (gmap string deletionGroup) :=
  let key := timestampSourceRowKey (cu_SourceTable (tm_Cell t)) (cu_SourceRowID (tm_Cell t)) in
  let group := default {| dg_operationID := tm_DeletionOperationID t; dg_deletedAt := tm_DeletedAt t; dg_ordinals := ∅ |} (groups !! key) in
  unless (negb (bool_decide (dg_operationID group = tm_DeletionOperationID t)) || negb (bool_decide (dg_deletedAt group = tm_DeletedAt t)))
    ("deletion tombstone row " +:+ key +:+ " has inconsistent operation evidence") ≫= λ _,
  Ok (<[key := {| dg_operationID := dg_operationID group; dg_deletedAt := dg_deletedAt group;
                  dg_ordinals := {[cu_ColumnOrdinal (tm_Cell t)]} ∪ dg_ordinals group |}]> groups).

Fixpoint group_tombstones (l : list Tombstone) (groups : gmap string deletionGroup) : result apierror (gmap string deletionGroup) :=
  match l with
  | [] => Ok groups
  | t :: l => check_tombstone t ≫= λ _, add_to_group t groups ≫= λ groups, group_tombstones l groups
  end.

(** [strings.SplitN(rowKey, "/", 2)[0]] *)
Definition table_of_key (rowKey : string) : string := match Cut "/" rowKey with Some (table, _) => table | None => rowKey end.
Definition expected_ordinals (table : string) : gset Z :=
  if bool_decide (table = "externalexecution") then list_to_set [1; 2; 3; 4; 5] else {[6]}.
Definition check_group (x : string * deletionGroup) : result apierror unit :=
  unless (negb (bool_decide (dg_ordinals x.2 = expected_ordinals (table_of_key x.1))))
    ("deletion tombstone row " +:+ x.1 +:+ " is incomplete").

Definition validateTimestampDeletionTombstones (l : list Tombstone) : result apierror unit :=
  group_tombstones l ∅ ≫= λ groups, for_each check_group (map_to_list groups).
End tombstones.

(** ** The cells *)

Definition requireExactUTCTimestampPair (raw instant : option string) : result apierror unit :=
  match raw, instant with
  | None, None => Ok tt
  | Some raw, Some instant =>
      text_result "" (ConvertWallClock raw 0) ≫= λ expected,
      unless (negb (bool_decide (FormatInstant expected = instant))) "timestamp pair does not represent one UTC instant"
  | _, _ => fail "timestamp pair is incomplete"
  end.

Definition verifyPostBaselineTimestampCell (c : CurrentCell) (baseline : Z) (label : string) : result apierror unit :=
  match cu_RowCreatedInstant c with
  | None => fail (label +:+ " creation instant is absent")
  | Some v =>
      text_result (label +:+ " creation instant is invalid: ") (ParseInstant v) ≫= λ created,
      unless (created <? baseline) (label +:+ " creation predates verification") ≫= λ _,
      wrap (label +:+ " " +:+ cu_SourceColumn c +:+ " pair is unpaired: ")
        (requireExactUTCTimestampPair (cu_RawValue c) (cu_InstantValue c))
  end.

(** [equalTimestampText] is the equality of options. *)
Definition equalTimestampText (l r : option string) : bool := bool_decide (l = r).

(** The instant that the ledger proves of a cell. *)
Definition expected_instant (c : CellDecision) : option string :=
  if bool_decide (dec_Decision c = DecisionUnresolved) || bool_decide (dec_Decision c = DecisionNull) then None
  else dec_ConvertedValue c.

Definition unchanged_cell (p : CellDecision) (c : CurrentCell) : result apierror unit :=
  unless (negb (equalTimestampText (cell_RawValue (dec_Raw p)) (cu_RawValue c))) "immutable raw timestamp changed" ≫= λ _,
  unless (bool_decide (dec_Decision p = DecisionUnresolved) && negb (bool_decide (cu_InstantValue c = None)))
    "unresolved shadow must remain null" ≫= λ _,
  unless (negb (equalTimestampText (expected_instant p) (cu_InstantValue c))) "historical shadow differs from provenance".

Definition evolved_cell (c : CurrentCell) (baseline : Z) : result apierror unit :=
  requireExactUTCTimestampPair (cu_RawValue c) (cu_InstantValue c) ≫= λ _,
  match cu_InstantValue c with
  | None => fail "evolved lifecycle instant is absent"
  | Some v => text_result "" (ParseInstant v) ≫= λ instant,
              unless (instant <? baseline) "evolved lifecycle instant predates verification"
  end.

Definition verifyHistoricalTimestampCell (p : CellDecision) (c : CurrentCell) (baseline : Z) : result apierror unit :=
  let column := cell_SourceColumn (dec_Raw p) in
  let raw := cell_RawValue (dec_Raw p) in
  let sameRaw := equalTimestampText raw (cu_RawValue c) in
  if bool_decide (cell_SourceTable (dec_Raw p) = "externalexecutionevent") || bool_decide (column = "created_at")
     || bool_decide (column = "callback_deadline_at") then unchanged_cell p c else
  if (bool_decide (column = "started_at") || bool_decide (column = "completed_at")) && negb (bool_decide (raw = None)) then
    unless (negb sameRaw) "immutable lifecycle raw timestamp changed" ≫= λ _, unchanged_cell p c else
  if sameRaw then unchanged_cell p c else
  if negb (contains ["updated_at"; "started_at"; "completed_at"] column) then fail "unsupported lifecycle evolution" else
  if negb (bool_decide (raw = None)) && negb (bool_decide (column = "updated_at"))
  then fail "immutable lifecycle raw timestamp changed" else evolved_cell c baseline.

(** [provenanceOnlyPromotionAppliedAt] is absent when it is the zero time. *)
Definition verifyDeletedHistoricalTimestampCell (p : CellDecision) (t : Tombstone) (baseline : Z) (promotedAt : option Z)
    : result apierror unit :=
  match promotedAt with
  | Some applied =>
      if is_resolved (dec_Decision p) && bool_decide (cu_InstantValue (tm_Cell t) = None)
         && equalTimestampText (cell_RawValue (dec_Raw p)) (cu_RawValue (tm_Cell t)) then
        text_result "deletion tombstone time is invalid: " (ParseInstant (tm_DeletedAt t)) ≫= λ deleted,
        unless (negb (deleted <? applied)) "deletion follows or coincides with provenance promotion"
      else verifyHistoricalTimestampCell p (tm_Cell t) baseline
  | None => verifyHistoricalTimestampCell p (tm_Cell t) baseline
  end.

(** ** The chain of manifests *)

Definition promoted_decision (previous next : CellDecision) : bool :=
  bool_decide (dec_Decision previous = DecisionUnresolved) && is_resolved (dec_Decision next).

(** The cells that a manifest promotes over its parent, with the time. *)
Fixpoint promote_cells (previous : gmap string CellDecision) (applied : Z) (l : list CellDecision) (promoted : gmap string Z)
    : result apierror (gmap string Z) :=
  match l with
  | [] => Ok promoted
  | c :: l =>
      let key := decision_key c in
      match previous !! key with
      | None => fail ("manifest promotion cell " +:+ key +:+ " has no ancestor")
      | Some p =>
          if promoted_decision p c then
            match promoted !! key with
            | Some _ => fail ("manifest promotion cell " +:+ key +:+ " is promoted more than once")
            | None => promote_cells previous applied l (<[key := applied]> promoted)
            end
          else promote_cells previous applied l promoted
      end
  end.

(** The loop along [SupersedesManifestID]; the fuel is the length of a chain. *)
Fixpoint deleted_promotions (fuel : nat) (current : Manifest) (promoted : gmap string Z) (s : tsdb) : result apierror (gmap string Z) :=
  match man_SupersedesManifestID current, fuel with
  | None, _ => Ok promoted
  | Some _, O => fail "manifest chain contains a cycle"
  | Some parent, S fuel =>
      manifest_row (man_ID current) s ≫= λ row,
      match mr_AppliedAt row with
      | Some applied =>
          unless (negb (bool_decide (mr_State row = StateVerified))) "manifest promotion child must be VERIFIED and applied" ≫= λ _,
          readStoredTimestampManifestInTx parent s ≫= λ '(previous, state),
          unless (negb (bool_decide (state = StateVerified))) "manifest promotion ancestry must be VERIFIED" ≫= λ _,
          promote_cells (keyed decision_key (man_Cells previous)) applied (man_Cells current) promoted ≫= λ promoted,
          deleted_promotions fuel previous promoted s
      | None => fail "manifest promotion child must be VERIFIED and applied"
      end
  end.
Definition readTimestampDeletedPromotionAppliedAtInTx (latest : Manifest) (s : tsdb) : result apierror (gmap string Z) :=
  deleted_promotions (length (Manifests s)) latest ∅ s.

Fixpoint lifecycle_baseline (fuel : nat) (seen : list uuid) (id : uuid) (s : tsdb) : result apierror Z :=
  match fuel with
  | O => fail "manifest chain contains a cycle"
  | S fuel =>
      if contains seen id then fail "manifest chain contains a cycle" else
      manifest_row id s ≫= λ row,
      match mr_VerifiedAt row with
      | Some verified =>
          unless (negb (bool_decide (mr_State row = StateVerified))) "manifest lifecycle baseline must be VERIFIED" ≫= λ _,
          match mr_SupersedesManifestID row with
          | None => Ok verified
          | Some parent => lifecycle_baseline fuel (id :: seen) parent s
          end
      | None => fail "manifest lifecycle baseline must be VERIFIED"
      end
  end.
Definition readTimestampLifecycleBaselineInTx (id : uuid) (s : tsdb) : result apierror Z :=
  lifecycle_baseline (S (length (Manifests s))) [] id s.

(** ** Verification *)

Record VerificationReport := {
  ver_ManifestID : uuid; ver_SchemaVersion : Z; ver_SourceExecutionCount : Z; ver_SourceEventCount : Z;
  ver_CurrentExecutionCount : Z; ver_CurrentEventCount : Z; ver_ProvenanceRows : Z; ver_ResolvedShadowCount : Z;
  ver_UnresolvedShadowCount : Z; ver_ResolvedDeletedEvidenceCount : Z; ver_UnresolvedDeletedEvidenceCount : Z;
  ver_PostManifestPairedCount : Z; ver_DeletionTombstoneRows : Z; ver_DeletedExecutionCount : Z; ver_DeletedEventCount : Z;
  ver_RawSetChecksum : string; ver_DecisionContentChecksum : string }.

(** The set of the rows of a table. *)
Definition ids_where (cond : string -> bool) (l : list CurrentCell) : gset uuid :=
  list_to_set (cu_SourceRowID <$> List.filter (λ c, cond (cu_SourceTable c)) l).
Definition count_set (x : gset uuid) : Z := Z.of_nat (size x).
Definition is_table (table : string) (t : string) : bool := bool_decide (t = table).

(** The cells of the manifest, each with its row or its tombstone; what is left
    came later. *)
Record verify_state := {
  vs_current : gmap string CurrentCell; vs_tombstones : gmap string Tombstone;
  vs_Resolved : Z; vs_Unresolved : Z; vs_ResolvedDeleted : Z; vs_UnresolvedDeleted : Z }.

Definition verify_start (current : list CurrentCell) (tombstones : list Tombstone) : verify_state :=
  {| vs_current := keyed current_key current; vs_tombstones := keyed (current_key ∘ tm_Cell) tombstones; vs_Resolved := 0;
     vs_Unresolved := 0; vs_ResolvedDeleted := 0; vs_UnresolvedDeleted := 0 |}.

Definition count_decision (p : CellDecision) (deleted : bool) (key : string) (v : verify_state) : verify_state :=
  let resolved := is_resolved (dec_Decision p) in
  let unresolved := bool_decide (dec_Decision p = DecisionUnresolved) in
  {| vs_current := delete key (vs_current v); vs_tombstones := delete key (vs_tombstones v);
     vs_Resolved := if resolved && negb deleted then vs_Resolved v + 1 else vs_Resolved v;
     vs_Unresolved := if unresolved && negb deleted then vs_Unresolved v + 1 else vs_Unresolved v;
     vs_ResolvedDeleted := if resolved && deleted then vs_ResolvedDeleted v + 1 else vs_ResolvedDeleted v;
     vs_UnresolvedDeleted := if unresolved && deleted then vs_UnresolvedDeleted v + 1 else vs_UnresolvedDeleted v |}.

Definition verify_cell (baseline : Z) (promoted : gmap string Z) (p : CellDecision) (v : verify_state)
    : result apierror verify_state :=
  let key := decision_key p in
  let context := "cell " +:+ key +:+ " " +:+ cell_SourceColumn (dec_Raw p) +:+ " pair: " in
  match vs_current v !! key, vs_tombstones v !! key with
  | Some _, Some _ => fail ("provenance cell " +:+ key +:+ " has both a source row and authorized tombstone")
  | None, None => fail ("provenance cell " +:+ key +:+ " has no source row or authorized tombstone")
  | None, Some t =>
      wrap context (verifyDeletedHistoricalTimestampCell p t baseline (promoted !! key)) ≫= λ _, Ok (count_decision p true key v)
  | Some c, None => wrap context (verifyHistoricalTimestampCell p c baseline) ≫= λ _, Ok (count_decision p false key v)
  end.
Fixpoint verify_cells (baseline : Z) (promoted : gmap string Z) (l : list CellDecision) (v : verify_state)
    : result apierror verify_state :=
  match l with [] => Ok v | p :: l => verify_cell baseline promoted p v ≫= λ v, verify_cells baseline promoted l v end.

Definition check_later_cell (baseline : Z) (label : string) (x : string * CurrentCell) : result apierror unit :=
  verifyPostBaselineTimestampCell x.2 baseline (label +:+ x.1).

(** A tombstone whose cell has a row. *)
Definition check_both (current : gmap string CurrentCell) (message : string -> string) (t : Tombstone) : result apierror unit :=
  let key := current_key (tm_Cell t) in
  unless (negb (bool_decide (current !! key = None))) (message key).

Section verification.
Context `{Crypto}.

(** What is read of the ledger: a verified manifest, its baseline and the
    promotions of its chain. *)
Definition read_verified (id : uuid) (s : tsdb) : result apierror (Manifest * Z * gmap string Z) :=
  readStoredTimestampManifestInTx id s ≫= λ '(m, state),
  unless (negb (bool_decide (state = StateVerified))) "manifest state must be VERIFIED" ≫= λ _,
  unless (negb (Z.of_nat (length (man_Cells m)) =? man_RawCellCount m)) "provenance row count is incomplete" ≫= λ _,
  require_no_problems (ValidateManifestDocument m) ≫= λ _,
  readTimestampLifecycleBaselineInTx id s ≫= λ baseline,
  readTimestampDeletedPromotionAppliedAtInTx m s ≫= λ promoted, Ok (m, baseline, promoted).

Definition verification_report (m : Manifest) (catalog : Z) (current : list CurrentCell) (tombstones : list Tombstone)
    (v : verify_state) : VerificationReport :=
  {| ver_ManifestID := man_ID m; ver_SchemaVersion := catalog; ver_SourceExecutionCount := man_ExecutionCount m;
     ver_SourceEventCount := man_EventCount m;
     ver_CurrentExecutionCount := count_set (ids_where (is_table "externalexecution") current);
     ver_CurrentEventCount := count_set (ids_where (negb ∘ is_table "externalexecution") current);
     ver_ProvenanceRows := Z.of_nat (length (man_Cells m));
     ver_ResolvedShadowCount := vs_Resolved v; ver_UnresolvedShadowCount := vs_Unresolved v;
     ver_ResolvedDeletedEvidenceCount := vs_ResolvedDeleted v; ver_UnresolvedDeletedEvidenceCount := vs_UnresolvedDeleted v;
     ver_PostManifestPairedCount := Z.of_nat (size (vs_current v) + size (vs_tombstones v));
     ver_DeletionTombstoneRows := Z.of_nat (length tombstones);
     ver_DeletedExecutionCount := count_set (ids_where (is_table "externalexecution") (tm_Cell <$> tombstones));
     ver_DeletedEventCount := count_set (ids_where (is_table "externalexecutionevent") (tm_Cell <$> tombstones));
     ver_RawSetChecksum := man_RawCellChecksum m; ver_DecisionContentChecksum := man_DecisionContentChecksum m |}.

Definition verifyTimestampManifestWithStatusInTx (id : uuid) (expected : option SchemaStatusExpectation) (s : tsdb)
    : result apierror VerificationReport :=
  read_verified id s ≫= λ '(m, baseline, promoted),
  let currentRows := readCurrentTimestampCellsInTx s in
  let tombstoneRows := readTimestampDeletionTombstonesInTx s in
  validateTimestampDeletionTombstones tombstoneRows ≫= λ _,
  let current := keyed current_key currentRows in
  for_each (check_both current (λ key, "cell " +:+ key +:+ " has both a source row and authorized tombstone")) tombstoneRows ≫= λ _,
  readTimestampSchemaContractWithStatusInTx expected s ≫= λ contract,
  verify_cells baseline promoted (man_Cells m) (verify_start currentRows tombstoneRows) ≫= λ v,
  for_each (check_later_cell baseline "post-manifest pair ") (map_to_list (vs_current v)) ≫= λ _,
  for_each (check_later_cell baseline "post-manifest tombstone ") (map_to_list (tm_Cell <$> vs_tombstones v)) ≫= λ _,
  Ok (verification_report m (sc_CatalogVersion contract) currentRows tombstoneRows v).
Definition verifyTimestampManifestInTx (id : uuid) : tsdb -> result apierror VerificationReport :=
  verifyTimestampManifestWithStatusInTx id None.

Definition VerifyExternalExecutionTimestampManifest (id : uuid) : ttx VerificationReport := squery (verifyTimestampManifestInTx id).

(** ** The tip of the chain *)

(** [externalExecutionTimestampVerifiedTipsSQL] *)
Definition has_child (s : tsdb) (r : ManifestRow) : bool :=
  exists_where (λ c, bool_decide (mr_SupersedesManifestID c = Some (mr_ID r)) && negb (bool_decide (mr_State c = StateRevokedBeforeApply)))
    (Manifests s).
Definition verified_tips (s : tsdb) : list ManifestRow :=
  select_where (λ r, bool_decide (mr_State r = StateVerified) && negb (has_child s r)) (Manifests s).

Definition readUniqueVerifiedManifestTipInTx (s : tsdb) : result apierror (option uuid) :=
  let incomplete := select_where (λ r, contains [StateDraft; StateApproved; StateApplied] (mr_State r)) (Manifests s) in
  unless (negb (bool_decide (incomplete = []))) ("found " +:+ itoa (Z.of_nat (length incomplete)) +:+ " incomplete manifests") ≫= λ _,
  match verified_tips s with
  | [] => Ok None
  | [r] => Ok (Some (mr_ID r))
  | l => fail ("found " +:+ itoa (Z.of_nat (length l)) +:+ " verified manifest tips")
  end.

(** ** Readiness *)

Record Readiness := {
  rd_SchemaVersion : Z; rd_TransitionKind : string; rd_ManifestID : option uuid; rd_ExecutionCount : Z; rd_EventCount : Z;
  rd_ProvenanceRows : Z; rd_PostTransitionPairCount : Z; rd_ResolvedShadowCount : Z; rd_UnresolvedShadowCount : Z;
  rd_ResolvedDeletedEvidenceCount : Z; rd_UnresolvedDeletedEvidenceCount : Z; rd_DeletionTombstoneRows : Z;
  rd_DeletedExecutionCount : Z; rd_DeletedEventCount : Z }.

Definition zero_history_cell (baseline : Z) (c : CurrentCell) : result apierror unit :=
  verifyPostBaselineTimestampCell c baseline "post-transition" ≫= λ _,
  unless (negb (known_table (cu_SourceTable c))) ("zero-history row uses unsupported source table " +:+ quote (cu_SourceTable c)).
Definition zero_history_tombstone (baseline : Z) (current : gmap string CurrentCell) (t : Tombstone) : result apierror unit :=
  check_both current (λ key, "zero-history cell " +:+ key +:+ " has both a source row and tombstone") t ≫= λ _,
  verifyPostBaselineTimestampCell (tm_Cell t) baseline "post-transition tombstone".

Definition checkTimestampZeroHistoryInTx (schemaVersion : Z) (x : ExpandState) (s : tsdb) : result apierror Readiness :=
  unless (negb (xs_ExecutionCount x =? 0) || negb (xs_EventCount x =? 0) || negb (xs_RawCellCount x =? 0))
    "zero-history transition counts must be zero" ≫= λ _,
  unless (negb (bool_decide (Manifests s = [])) || negb (bool_decide (Provenance s = []))) "zero-history ledger must remain empty" ≫= λ _,
  let cells := readCurrentTimestampCellsInTx s in
  let tombstones := readTimestampDeletionTombstonesInTx s in
  validateTimestampDeletionTombstones tombstones ≫= λ _,
  for_each (zero_history_cell (xs_TransitionedAt x)) cells ≫= λ _,
  for_each (zero_history_tombstone (xs_TransitionedAt x) (keyed current_key cells)) tombstones ≫= λ _,
  Ok {| rd_SchemaVersion := schemaVersion; rd_TransitionKind := xs_TransitionKind x; rd_ManifestID := None;
        rd_ExecutionCount := count_set (ids_where (is_table "externalexecution") cells);
        rd_EventCount := count_set (ids_where (is_table "externalexecutionevent") cells); rd_ProvenanceRows := 0;
        rd_PostTransitionPairCount := Z.of_nat (length cells + length tombstones); rd_ResolvedShadowCount := 0;
        rd_UnresolvedShadowCount := 0; rd_ResolvedDeletedEvidenceCount := 0; rd_UnresolvedDeletedEvidenceCount := 0;
        rd_DeletionTombstoneRows := Z.of_nat (length tombstones);
        rd_DeletedExecutionCount := count_set (ids_where (is_table "externalexecution") (tm_Cell <$> tombstones));
        rd_DeletedEventCount := count_set (ids_where (is_table "externalexecutionevent") (tm_Cell <$> tombstones)) |}.

(** The loop from the tip to the root: the root and how many manifests were seen. *)
Fixpoint manifest_chain (fuel : nat) (seen : list uuid) (child : option Manifest) (id : uuid) (x : ExpandState) (s : tsdb)
    : result apierror (Manifest * nat) :=
  match fuel with
  | O => fail "manifest chain contains a cycle"
  | S fuel =>
      if contains seen id then fail "manifest chain contains a cycle" else
      readStoredTimestampManifestInTx id s ≫= λ '(m, state),
      unless (negb (bool_decide (state = StateVerified))) "manifest chain contains a non-VERIFIED row" ≫= λ _,
      unless (negb (Z.of_nat (length (man_Cells m)) =? man_RawCellCount m)) "manifest provenance row count is incomplete" ≫= λ _,
      require_no_problems (ValidateManifestDocument m) ≫= λ _,
      unless (negb (man_SourceSchemaVersion m =? xs_SourceVersion x)) "manifest chain source version differs from expand state" ≫= λ _,
      match child with Some c => require_no_problems (ValidateSupersession m c) | None => Ok tt end ≫= λ _,
      match man_SupersedesManifestID m with
      | None => Ok (m, S (length seen))
      | Some parent => manifest_chain fuel (id :: seen) (Some m) parent x s
      end
  end.

Definition checkTimestampManifestReadinessInTx (schemaVersion : Z) (x : ExpandState) (expected : option SchemaStatusExpectation)
    (s : tsdb) : result apierror Readiness :=
  unless ((xs_ExecutionCount x =? 0) && (xs_EventCount x =? 0)) "manifest-required transition has zero counts" ≫= λ _,
  wrap "VERIFIED manifest tip: " (readUniqueVerifiedManifestTipInTx s) ≫= λ tip : option uuid,
  match tip with
  | None => fail "verified manifest tip is required"
  | Some tip =>
      manifest_chain (S (length (Manifests s))) [] None tip x s ≫= λ '(root, seen),
      let verified := length (select_where (λ r, bool_decide (mr_State r = StateVerified)) (Manifests s)) in
      unless (negb (bool_decide (verified = seen)))
        ("manifest chain contains " +:+ itoa (Z.of_nat seen) +:+ " of " +:+ itoa (Z.of_nat verified)
         +:+ " VERIFIED rows; it must include all VERIFIED rows") ≫= λ _,
      requireRootManifestMatchesExpandState root x ≫= λ _,
      verifyTimestampManifestWithStatusInTx tip expected s ≫= λ v,
      Ok {| rd_SchemaVersion := schemaVersion; rd_TransitionKind := xs_TransitionKind x; rd_ManifestID := Some tip;
            rd_ExecutionCount := ver_CurrentExecutionCount v; rd_EventCount := ver_CurrentEventCount v;
            rd_ProvenanceRows := ver_ProvenanceRows v; rd_PostTransitionPairCount := ver_PostManifestPairedCount v;
            rd_ResolvedShadowCount := ver_ResolvedShadowCount v; rd_UnresolvedShadowCount := ver_UnresolvedShadowCount v;
            rd_ResolvedDeletedEvidenceCount := ver_ResolvedDeletedEvidenceCount v;
            rd_UnresolvedDeletedEvidenceCount := ver_UnresolvedDeletedEvidenceCount v;
            rd_DeletionTombstoneRows := ver_DeletionTombstoneRows v; rd_DeletedExecutionCount := ver_DeletedExecutionCount v;
            rd_DeletedEventCount := ver_DeletedEventCount v |}
  end.

Definition checkTimestampExpandReadinessWithStatusInTx (expected : option SchemaStatusExpectation) (s : tsdb)
    : result apierror Readiness :=
  match readTimestampSchemaContractWithStatusInTx expected s with
  | Err e => Err (timestampReadinessContractError e)
  | Ok contract =>
      let version := sc_CatalogVersion contract in
      unless (version <? 138) ("schema version " +:+ itoa version +:+ " is pre-expand") ≫= λ _,
      requireTimestampIndexesInTx s ≫= λ _,
      requireTimestampGuardsInTx s ≫= λ _,
      readTimestampExpandStateInTx s ≫= λ x,
      let kind := xs_TransitionKind x in
      if bool_decide (kind = "ZERO_HISTORY") then checkTimestampZeroHistoryInTx version x s else
      if bool_decide (kind = "MANIFEST_REQUIRED") then checkTimestampManifestReadinessInTx version x expected s else
      fail ("unsupported expand transition " +:+ quote kind)
  end.

Definition CheckTimestampExpandReadinessInTx (marker catalog : Z) (dirty : bool) (s : tsdb) : result apierror Readiness :=
  if negb (marker =? 137) && negb (marker =? 138) then fail "timestamp recovery marker version must be 137 or 138" else
  if negb (catalog =? 138) then fail "timestamp recovery catalog version must be 138" else
  checkTimestampExpandReadinessWithStatusInTx
    (Some {| sx_MarkerVersion := marker; sx_CatalogVersion := catalog; sx_Dirty := dirty; sx_MarkerAlreadyValidated := false |}) s.

Definition CheckTimestampExpandRecoveryReadinessInTx (catalog : Z) (s : tsdb) : result apierror Readiness :=
  if negb (catalog =? 138) then fail "timestamp recovery catalog version must be 138" else
  checkTimestampExpandReadinessWithStatusInTx
    (Some {| sx_MarkerVersion := 0; sx_CatalogVersion := catalog; sx_Dirty := false; sx_MarkerAlreadyValidated := true |}) s.

Definition CheckExternalExecutionTimestampExpandReadiness : ttx Readiness := squery (checkTimestampExpandReadinessWithStatusInTx None).
Definition RequireExternalExecutionTimestampExpandReadiness : ttx unit :=
  CheckExternalExecutionTimestampExpandReadiness ≫= λ _, mret tt.
End verification.
