(* ===== verification/TimestampReading.v ===== *)
(** * External execution timestamps: what verification accepts

    The cells that the queries return under their keys, and the verification of
    a manifest as a predicate: every cell of the snapshot keeps what the ledger
    proves of it or evolved after the baseline, and every later cell is an exact
    UTC pair. *)
From S2P Require Import Prelude GoStrings GoTime Uuid TaskStore Transaction StepRedaction TimestampCanonical TimestampManifest TimestampGuarantees TimestampTables TimestampVerify.
From Stdlib Require Import Ascii.
Open Scope list_scope.
#[local] Open Scope Z_scope.

(** ** Results *)

Lemma unless_ok c m u : unless c m = Ok u <-> c = false.
Proof. unfold unless. destruct c, u; split; done. Qed.
Lemma text_result_ok {A} p (r : result string A) a : text_result p r = Ok a <-> r = Ok a.
Proof. unfold text_result. destruct r; naive_solver. Qed.
Lemma wrap_ok {A} p (r : result apierror A) a : wrap p r = Ok a <-> r = Ok a.
Proof. unfold wrap. destruct r; naive_solver. Qed.
Lemma require_ok l u : require_no_problems l = Ok u <-> l = [].
Proof. unfold require_no_problems. by rewrite unless_ok, negb_false_iff, bool_decide_eq_true. Qed.
Lemma bind_tt_ok {A} (r : result apierror A) : (r ≫= λ _, Ok tt) = Ok tt <-> is_ok r = true.
Proof. by destruct r. Qed.
Lemma is_ok_iff {E A} (r : result E A) : is_ok r = true <-> exists a, r = Ok a.
Proof. destruct r as [a|e]; split; [by exists a|done|done|by intros [? ?]]. Qed.

(** Take a successful chain of reads apart. *)
Ltac read_inv :=
  repeat match goal with
  | H : (_ ≫= _) = Ok _ |- _ => apply result_bind_ok in H as (? & ? & H)
  | H : unless _ _ = Ok _ |- _ => apply unless_ok in H
  | H : text_result _ _ = Ok _ |- _ => apply text_result_ok in H
  | H : wrap _ _ = Ok _ |- _ => apply wrap_ok in H
  | H : require_no_problems _ = Ok _ |- _ => apply require_ok in H
  | H : fail _ = Ok _ |- _ => discriminate H
  | H : Ok _ = Ok _ |- _ => injection H; clear H; intros; subst
  | H : Err _ = Ok _ |- _ => discriminate H
  | H : _ * _ |- _ => destruct H
  | u : unit |- _ => destruct u
  end.

(** ** Texts *)

Lemma format_wall_inj t u : layout_instant t -> layout_instant u -> format_wall t = format_wall u -> t = u.
Proof.
  intros Ht Hu E. assert (parse_wall (format_wall t) = Some u) as H1 by (by apply parse_wall_iff).
  assert (parse_wall (format_wall t) = Some t) as H2 by (by apply parse_wall_iff). congruence.
Qed.
Lemma FormatInstant_inj t u : layout_instant t -> layout_instant u -> FormatInstant t = FormatInstant u -> t = u.
Proof.
  intros Ht Hu E. apply ParseInstant_FormatInstant in Ht, Hu. rewrite E in Ht. congruence.
Qed.

(** One instant as a wall clock in UTC and as an instant, or neither. *)
Definition utc_pair (raw instant : option string) : Prop :=
  (raw = None /\ instant = None)
  \/ exists t, layout_instant t /\ raw = Some (format_wall t) /\ instant = Some (FormatInstant t).

Lemma exact_pair_ok raw instant : requireExactUTCTimestampPair raw instant = Ok tt <-> utc_pair raw instant.
Proof.
  unfold utc_pair, requireExactUTCTimestampPair. destruct raw as [raw|], instant as [i|]; try (split; [done|naive_solver]).
  - split.
    + intros H. read_inv. apply negb_false_iff, bool_decide_eq_true in H. apply ConvertWallClock_ok in H0 as (_ & Hr & Hl). right.
      rewrite Z.mul_0_l, Z.add_0_r in Hr, Hl. exists x. by subst.
    + intros [[? ?]|(t & Hl & [= ->] & [= ->])]; [done|]. rewrite (proj2 (ConvertWallClock_ok _ 0 t)).
      * simpl. apply unless_ok. by rewrite bool_decide_eq_true_2.
      * rewrite Z.mul_0_l, Z.add_0_r. split; [lia|done].
  - split; [by left|done].
Qed.

(** ** Values under their keys *)

Section keyed.
Context {A : Type} (key : A -> string).

Lemma keyed_snoc l x : keyed key (l ++ [x]) = <[key x := x]> (keyed key l).
Proof. unfold keyed. by rewrite foldl_snoc. Qed.
Lemma keyed_Some l k x : keyed key l !! k = Some x -> x ∈ l /\ key x = k.
Proof.
  induction l as [|y l IH] using rev_ind; [unfold keyed; simpl; by rewrite lookup_empty|]. rewrite keyed_snoc, lookup_insert_Some, elem_of_app, list_elem_of_singleton.
  intros [[<- <-]|[_ Hx]]; [auto|]. destruct (IH Hx). auto.
Qed.
Lemma keyed_None l k : keyed key l !! k = None <-> k ∉ (key <$> l).
Proof.
  induction l as [|y l IH] using rev_ind; [unfold keyed; simpl; rewrite lookup_empty; split; [by intros _ ?%elem_of_nil|done]|].
  rewrite keyed_snoc, lookup_insert_None, IH, fmap_app, not_elem_of_app. simpl. rewrite list_elem_of_singleton. naive_solver.
Qed.
Lemma keyed_elem l x : NoDup (key <$> l) -> keyed key l !! key x = Some x <-> x ∈ l.
Proof.
  intros Hnd. split; [by intros [? _]%keyed_Some|]. intros Hx.
  destruct (keyed key l !! key x) as [y|] eqn:E.
  - apply keyed_Some in E as [Hy E]. f_equal. by eapply (NoDup_fmap_elem key).
  - apply keyed_None in E. destruct E. by apply list_elem_of_fmap_2.
Qed.
Lemma keyed_Some_iff l k x : NoDup (key <$> l) -> keyed key l !! k = Some x <-> x ∈ l /\ key x = k.
Proof. intros Hnd. split; [apply keyed_Some|]. intros [Hx <-]. by apply keyed_elem. Qed.
End keyed.

(** ** Cells that may be verified *)

(** A cell of the snapshot is unchanged and has the instant that the ledger
    proves, or it is a life cycle column that evolved since: the last update,
    or a start or completion that was still open. *)
Inductive historical_ok (p : CellDecision) (c : CurrentCell) (baseline : Z) : Prop :=
  | history_kept : cell_RawValue (dec_Raw p) = cu_RawValue c -> cu_InstantValue c = expected_instant p -> historical_ok p c baseline
  | history_evolved t : cell_SourceTable (dec_Raw p) <> "externalexecutionevent" -> cell_RawValue (dec_Raw p) <> cu_RawValue c ->
      cell_SourceColumn (dec_Raw p) = "updated_at"
        \/ (cell_SourceColumn (dec_Raw p) ∈ ["started_at"; "completed_at"] /\ cell_RawValue (dec_Raw p) = None) ->
      layout_instant t -> baseline <= t -> cu_RawValue c = Some (format_wall t) -> cu_InstantValue c = Some (FormatInstant t) ->
      historical_ok p c baseline.

(** A row that was deleted before its cell was promoted keeps no instant. *)
Inductive deleted_ok (p : CellDecision) (t : Tombstone) (baseline : Z) (promotedAt : option Z) : Prop :=
  | deleted_history : historical_ok p (tm_Cell t) baseline -> deleted_ok p t baseline promotedAt
  | deleted_before_promotion applied deleted : promotedAt = Some applied -> is_resolved (dec_Decision p) = true ->
      cu_InstantValue (tm_Cell t) = None -> cell_RawValue (dec_Raw p) = cu_RawValue (tm_Cell t) ->
      ParseInstant (tm_DeletedAt t) = Ok deleted -> deleted < applied -> deleted_ok p t baseline promotedAt.

(** A cell of a row that was created later. *)
Definition later_ok (baseline : Z) (c : CurrentCell) : Prop :=
  (exists created, layout_instant created /\ cu_RowCreatedInstant c = Some (FormatInstant created) /\ baseline <= created)
  /\ utc_pair (cu_RawValue c) (cu_InstantValue c).

Lemma unchanged_ok p c : unchanged_cell p c = Ok tt <->
  cell_RawValue (dec_Raw p) = cu_RawValue c /\ cu_InstantValue c = expected_instant p.
Proof.
  unfold unchanged_cell, equalTimestampText. split.
  - intros H. read_inv. to_prop. done.
  - intros [Hr Hi]. rewrite Hr, Hi, (bool_decide_eq_true_2 (cu_RawValue c = _)), (bool_decide_eq_true_2 (expected_instant p = expected_instant p)) by done.
    unfold expected_instant. by destruct (bool_decide (dec_Decision p = DecisionUnresolved)).
Qed.

Lemma evolved_ok c b : evolved_cell c b = Ok tt <->
  exists t, layout_instant t /\ b <= t /\ cu_RawValue c = Some (format_wall t) /\ cu_InstantValue c = Some (FormatInstant t).
Proof.
  unfold evolved_cell. split.
  - intros H. read_inv. apply exact_pair_ok in H0 as [[Hr Hi]|(t & Hl & Hr & Hi)]; rewrite Hi in H; [done|]. read_inv.
    rewrite (ParseInstant_FormatInstant _ Hl) in H0. injection H0 as <-. exists t. by apply Z.ltb_ge in H.
  - intros (t & Hl & Hb & Hr & Hi). rewrite (proj2 (exact_pair_ok _ _)) by (right; by exists t). simpl.
    rewrite Hi, (ParseInstant_FormatInstant _ Hl). simpl. apply unless_ok. by apply Z.ltb_ge.
Qed.

Lemma lifecycle_columns x : contains ["updated_at"; "started_at"; "completed_at"] x = true <->
  x = "updated_at" \/ x ∈ ["started_at"; "completed_at"].
Proof. by rewrite contains_true, elem_of_cons. Qed.

Lemma historical_cell_ok p c b : verifyHistoricalTimestampCell p c b = Ok tt <-> historical_ok p c b.
Proof.
  unfold verifyHistoricalTimestampCell, equalTimestampText.
  set (table := cell_SourceTable (dec_Raw p)). set (col := cell_SourceColumn (dec_Raw p)). set (raw := cell_RawValue (dec_Raw p)).
  assert (forall b', unchanged_cell p c = Ok tt -> historical_ok p c b') as Hkeep by (intros b' [? ?]%unchanged_ok; by apply history_kept).
  destruct (bool_decide (table = _) || _ || _) eqn:Ei.
  { split; [by apply Hkeep|]. intros [H1 H2|t Ht _ Hc _ _ _ _]; [by apply unchanged_ok|]. exfalso.
    rewrite !orb_true_iff, !bool_decide_eq_true in Ei. fold table in Ht. fold col in Hc. destruct Ei as [[?|E]|E]; [done| |];
      (destruct Hc as [Hc|[Hc _]]; [congruence | rewrite E, !elem_of_cons in Hc; destruct Hc as [?|[?|?%elem_of_nil]]; done]). }
  rewrite !orb_false_iff, !bool_decide_eq_false in Ei. destruct Ei as ((Ht & _) & _).
  destruct ((bool_decide (col = "started_at") || _) && _) eqn:Es.
  { rewrite andb_true_iff, orb_true_iff, !bool_decide_eq_true, negb_true_iff, bool_decide_eq_false in Es. destruct Es as [Hcol Hraw].
    split.
    - intros H. read_inv. by apply Hkeep.
    - intros [H1 H2|t _ _ Hc _ _ _ _].
      + fold raw in H1. rewrite (bool_decide_eq_true_2 (raw = _)) by done. by apply unchanged_ok.
      + fold col raw in Hc. exfalso. destruct Hc as [Hc|[_ Hc]]; [|done]. rewrite Hc in Hcol. by destruct Hcol. }
  rewrite andb_false_iff, orb_false_iff, !bool_decide_eq_false, negb_false_iff, bool_decide_eq_true in Es.
  case_bool_decide as Hsame.
  { split; [by apply Hkeep|]. intros [H1 H2|t _ Hne _ _ _ _ _]; [by apply unchanged_ok|done]. }
  destruct (contains _ col) eqn:Ec; simpl.
  2:{ split; [done|]. intros [?|t _ _ Hc _ _ _ _]; [done|]. exfalso. fold col in Hc. apply contains_false in Ec. apply Ec.
      apply elem_of_cons. destruct Hc as [Hc|[Hc _]]; auto. }
  apply lifecycle_columns in Ec.
  destruct (negb (bool_decide (raw = None)) && negb (bool_decide (col = "updated_at"))) eqn:En.
  { rewrite andb_true_iff, !negb_true_iff, !bool_decide_eq_false in En. destruct En as [Hn Hu]. split; [done|].
    intros [?|t _ _ [Hc|[_ Hc]] _ _ _ _]; done. }
  rewrite evolved_ok. split.
  - intros (t & Hl & Hb & Hr & Hi). apply (history_evolved _ _ _ t); try done. fold col; fold raw.
    rewrite andb_false_iff, !negb_false_iff, !bool_decide_eq_true in En. destruct En as [En|En]; [|by left].
    destruct Ec as [Ec|Ec]; [by left|by right].
  - intros [?|t _ _ _ Hl Hb Hr Hi]; [done|]. by exists t.
Qed.

Lemma deleted_cell_ok p t b a : (is_resolved (dec_Decision p) = true -> dec_ConvertedValue p <> None) ->
  verifyDeletedHistoricalTimestampCell p t b a = Ok tt <-> deleted_ok p t b a.
Proof.
  intros Hp. unfold verifyDeletedHistoricalTimestampCell, equalTimestampText. destruct a as [applied|].
  2:{ rewrite historical_cell_ok. split; [by apply deleted_history|]. by intros [?|? ? ?]. }
  destruct (is_resolved _ && _ && _) eqn:E.
  - to_prop. split.
    + intros Hv. read_inv. to_prop. apply (deleted_before_promotion _ _ _ _ applied x); try done.
    + intros [[_ Hi|t' _ Hne _ _ _ _ _]|ap d [= <-] _ _ _ Hd Hlt]; [|done|].
      * exfalso. assert (is_resolved (dec_Decision p) = true) as Hr by done. unfold expected_instant in Hi.
        destruct (decision_names_distinct _ Hr). rewrite !bool_decide_eq_false_2 in Hi by done. simpl in Hi. destruct (Hp Hr). congruence.
      * rewrite Hd. simpl. apply unless_ok. by rewrite (proj2 (Z.ltb_lt _ _) Hlt).
  - rewrite historical_cell_ok. split; [by apply deleted_history|]. intros [?|ap d _ Hr Hi Hv _ _]; [done|].
    by rewrite Hr, Hi, Hv, !bool_decide_eq_true_2 in E.
Qed.

Lemma later_cell_ok c b label : verifyPostBaselineTimestampCell c b label = Ok tt <-> later_ok b c.
Proof.
  unfold verifyPostBaselineTimestampCell, later_ok. destruct (cu_RowCreatedInstant c) as [v|]; [|split; [done|naive_solver]]. split.
  - intros H. read_inv. apply exact_pair_ok in H. apply ParseInstant_iff in H0 as [Hl ->]. to_prop. split; [|done]. by exists x.
  - intros [(t & Hl & [= ->] & Hb) Hp]. rewrite (ParseInstant_FormatInstant _ Hl). simpl. rewrite (proj2 (Z.ltb_ge _ _) Hb). simpl.
    by apply wrap_ok, exact_pair_ok.
Qed.

(** ** The cells of a manifest *)

(** A cell has its row or its tombstone. *)
Definition cell_verified (b : Z) (promoted : gmap string Z) (current : gmap string CurrentCell) (tombstones : gmap string Tombstone)
    (p : CellDecision) : Prop :=
  (exists c, current !! decision_key p = Some c /\ tombstones !! decision_key p = None /\ historical_ok p c b)
  \/ (exists t, tombstones !! decision_key p = Some t /\ current !! decision_key p = None
                /\ deleted_ok p t b (promoted !! decision_key p)).

Definition converted_ok (p : CellDecision) : Prop := is_resolved (dec_Decision p) = true -> dec_ConvertedValue p <> None.

Lemma verify_cell_ok b pr p v : converted_ok p ->
  is_ok (verify_cell b pr p v) = true <-> cell_verified b pr (vs_current v) (vs_tombstones v) p.
Proof.
  intros Hp. unfold verify_cell, cell_verified.
  destruct (vs_current v !! decision_key p) as [c|], (vs_tombstones v !! decision_key p) as [t|].
  - split; [done|]. naive_solver.
  - rewrite is_ok_iff. split.
    + intros [v' H]. read_inv. left. exists c. split; [done|]. split; [done|]. by apply historical_cell_ok.
    + intros [(c' & [= <-] & _ & Hc)|(t & ? & _)]; [|done]. apply historical_cell_ok in Hc. rewrite (proj2 (wrap_ok _ _ tt) Hc). by eexists.
  - rewrite is_ok_iff. split.
    + intros [v' H]. read_inv. right. exists t. split; [done|]. split; [done|]. by apply deleted_cell_ok.
    + intros [(c & ? & _)|(t' & [= <-] & _ & Ht)]; [done|]. apply deleted_cell_ok in Ht; [|done]. rewrite (proj2 (wrap_ok _ _ tt) Ht). by eexists.
  - split; [done|]. naive_solver.
Qed.

Lemma verify_cell_state b pr p v v' : verify_cell b pr p v = Ok v' ->
  vs_current v' = delete (decision_key p) (vs_current v) /\ vs_tombstones v' = delete (decision_key p) (vs_tombstones v).
Proof.
  unfold verify_cell. destruct (vs_current v !! decision_key p), (vs_tombstones v !! decision_key p); intros H; read_inv; done.
Qed.

Lemma cell_verified_ext b pr c t c' t' p : c !! decision_key p = c' !! decision_key p -> t !! decision_key p = t' !! decision_key p ->
  cell_verified b pr c t p <-> cell_verified b pr c' t' p.
Proof. intros Hc Ht. unfold cell_verified. by rewrite Hc, Ht. Qed.

Lemma cell_verified_known b pr c t p : cell_verified b pr c t p -> c !! decision_key p <> None \/ t !! decision_key p <> None.
Proof. intros [(x & Hx & _)|(x & Hx & _)]; [left|right]; by rewrite Hx. Qed.

(** What is left are the cells with other keys. *)
Definition rest_of {A} (l : list CellDecision) (m : gmap string A) : gmap string A :=
  foldl (λ m p, delete (decision_key p) m) m l.
Lemma rest_of_lookup {A} l (m : gmap string A) k : rest_of l m !! k = if bool_decide (k ∈ (decision_key <$> l)) then None else m !! k.
Proof.
  unfold rest_of. revert m. induction l as [|p l IH]; intros m; simpl; [done|]. rewrite IH. clear IH.
  destruct (decide (k ∈ (decision_key <$> l))) as [Hk|Hk].
  { rewrite (bool_decide_eq_true_2 _ Hk), bool_decide_eq_true_2; [done|]. by right. }
  rewrite (bool_decide_eq_false_2 _ Hk). destruct (decide (k = decision_key p)) as [->|Hne].
  - rewrite lookup_delete_eq, bool_decide_eq_true_2; [done|]. by left.
  - rewrite lookup_delete_ne, bool_decide_eq_false_2; [done| |done]. rewrite elem_of_cons. tauto.
Qed.

Lemma verify_cells_rest b pr l v v' : verify_cells b pr l v = Ok v' ->
  vs_current v' = rest_of l (vs_current v) /\ vs_tombstones v' = rest_of l (vs_tombstones v).
Proof.
  revert v. induction l as [|p l IH]; intros v H; simpl in H; read_inv; [done|].
  apply verify_cell_state in H0 as [Hc Ht]. apply IH in H as [-> ->]. by rewrite Hc, Ht.
Qed.

Lemma verify_cells_ok b pr l v : Forall converted_ok l ->
  is_ok (verify_cells b pr l v) = true
  <-> NoDup (decision_key <$> l) /\ Forall (cell_verified b pr (vs_current v) (vs_tombstones v)) l.
Proof.
  intros Hl. revert v. induction Hl as [|p l Hp _ IH]; intros v; simpl; [split; [split; constructor|done]|].
  rewrite is_ok_iff. setoid_rewrite result_bind_ok. rewrite NoDup_cons, Forall_cons, <- verify_cell_ok by done.
  assert (forall v1, verify_cell b pr p v = Ok v1 -> (exists a, verify_cells b pr l v1 = Ok a)
    <-> (decision_key p ∉ (decision_key <$> l)) /\ NoDup (decision_key <$> l) /\ Forall (cell_verified b pr (vs_current v) (vs_tombstones v)) l) as H.
  { intros v1 Hv1. rewrite <- is_ok_iff, IH. apply verify_cell_state in Hv1 as [-> ->]. split.
    - intros [Hnd Hf]. assert (decision_key p ∉ (decision_key <$> l)) as Hk.
      { intros (q & Eq & Hq)%list_elem_of_fmap. rewrite Forall_forall in Hf. apply Hf, cell_verified_known in Hq.
        rewrite <- Eq, !lookup_delete_eq in Hq. by destruct Hq. }
      split; [done|]. split; [done|]. rewrite Forall_forall in Hf |- *. intros q Hq. specialize (Hf q Hq).
      assert (decision_key p <> decision_key q) by (intros E; apply Hk; rewrite E; by apply list_elem_of_fmap_2).
      eapply cell_verified_ext; [| |exact Hf]; by rewrite lookup_delete_ne.
    - intros (Hk & Hnd & Hf). split; [done|]. rewrite Forall_forall in Hf |- *. intros q Hq. specialize (Hf q Hq).
      assert (decision_key p <> decision_key q) by (intros E; apply Hk; rewrite E; by apply list_elem_of_fmap_2).
      eapply cell_verified_ext; [| |exact Hf]; by rewrite lookup_delete_ne. }
  split.
  - intros (a & v1 & Hv1 & Ha). destruct (proj1 (H v1 Hv1) (ex_intro _ _ Ha)) as (? & ? & ?). rewrite Hv1. done.
  - intros ((? & ?) & [v1 Hv1]%is_ok_iff & ?). destruct (proj2 (H v1 Hv1)) as [a Ha]; [done|]. by exists a, v1.
Qed.

(** ** The whole database *)

Section verification.
Context `{Crypto}.

(** The primary keys of the tables. *)
Definition distinct_cells (s : tsdb) : Prop :=
  NoDup (current_key <$> readCurrentTimestampCellsInTx s)
  /\ NoDup ((current_key ∘ tm_Cell) <$> readTimestampDeletionTombstonesInTx s).

(** What verification asks of the rows and tombstones: no cell has both, every
    cell of the manifest has one of them that fits, and all others are exact
    pairs of rows that were created after the baseline. *)
Record intact (m : Manifest) (baseline : Z) (promoted : gmap string Z) (s : tsdb) : Prop := {
  in_distinct : NoDup (decision_key <$> man_Cells m);
  in_separate c t : c ∈ readCurrentTimestampCellsInTx s -> t ∈ readTimestampDeletionTombstonesInTx s ->
    current_key c <> current_key (tm_Cell t);
  in_kept p : p ∈ man_Cells m ->
    (exists c, c ∈ readCurrentTimestampCellsInTx s /\ current_key c = decision_key p /\ historical_ok p c baseline)
    \/ (exists t, t ∈ readTimestampDeletionTombstonesInTx s /\ current_key (tm_Cell t) = decision_key p
                  /\ deleted_ok p t baseline (promoted !! decision_key p));
  in_later_rows c : c ∈ readCurrentTimestampCellsInTx s -> (current_key c ∉ (decision_key <$> man_Cells m)) -> later_ok baseline c;
  in_later_tombstones t : t ∈ readTimestampDeletionTombstonesInTx s -> (current_key (tm_Cell t) ∉ (decision_key <$> man_Cells m)) ->
    later_ok baseline (tm_Cell t) }.

Lemma document_converted m : ValidateManifestDocument m = [] -> Forall converted_ok (man_Cells m).
Proof.
  intros [Hc _]%document_cells. eapply Forall_impl; [exact Hc|]. intros p [_ _ _ _ Hd] Hr.
  destruct Hd as [E|raw E|raw o t _ [_ _ -> _ _ _ _ _ _ _]]; [rewrite E in Hr; discriminate Hr..|done].
Qed.

Lemma check_both_ok current message t : check_both current message t = Ok tt <-> current !! current_key (tm_Cell t) = None.
Proof. unfold check_both. by rewrite unless_ok, negb_false_iff, bool_decide_eq_true. Qed.

Lemma read_verified_ok id s m b pr : read_verified id s = Ok (m, b, pr) -> ValidateManifestDocument m = [].
Proof. unfold read_verified. intros E. by read_inv. Qed.

Lemma verify_cells_intact m b pr s v : Forall converted_ok (man_Cells m) -> distinct_cells s ->
  vs_current v = keyed current_key (readCurrentTimestampCellsInTx s) ->
  vs_tombstones v = keyed (current_key ∘ tm_Cell) (readTimestampDeletionTombstonesInTx s) ->
  (forall t, t ∈ readTimestampDeletionTombstonesInTx s -> vs_current v !! current_key (tm_Cell t) = None)
  /\ (exists v', verify_cells b pr (man_Cells m) v = Ok v'
      /\ (forall k c, vs_current v' !! k = Some c -> later_ok b c) /\ (forall k t, vs_tombstones v' !! k = Some t -> later_ok b (tm_Cell t)))
  <-> intact m b pr s.
Proof.
  intros Hcv [Hdc Hdt] Ec Et. set (cur := readCurrentTimestampCellsInTx s) in *. set (tombs := readTimestampDeletionTombstonesInTx s) in *.
  assert (forall k c, vs_current v !! k = Some c <-> c ∈ cur /\ current_key c = k) as Lc by (intros; rewrite Ec; by apply keyed_Some_iff).
  assert (forall k t, vs_tombstones v !! k = Some t <-> t ∈ tombs /\ current_key (tm_Cell t) = k) as Lt
    by (intros; rewrite Et; by apply (keyed_Some_iff (current_key ∘ tm_Cell))).
  assert ((forall t, t ∈ tombs -> vs_current v !! current_key (tm_Cell t) = None)
    <-> forall c t, c ∈ cur -> t ∈ tombs -> current_key c <> current_key (tm_Cell t)) as Hsep.
  { split.
    - intros Hn c t Hc Ht E. assert (vs_current v !! current_key (tm_Cell t) = Some c) as Hl by (by apply Lc). by rewrite Hn in Hl.
    - intros Hn t Ht. destruct (vs_current v !! _) as [c|] eqn:El; [|done]. apply Lc in El as [Hc E]. by destruct (Hn c t Hc Ht). }
  assert (forall v', verify_cells b pr (man_Cells m) v = Ok v' ->
    ((forall k c, vs_current v' !! k = Some c -> later_ok b c) <-> forall c, c ∈ cur -> (current_key c ∉ (decision_key <$> man_Cells m)) -> later_ok b c)
    /\ ((forall k t, vs_tombstones v' !! k = Some t -> later_ok b (tm_Cell t))
        <-> forall t, t ∈ tombs -> (current_key (tm_Cell t) ∉ (decision_key <$> man_Cells m)) -> later_ok b (tm_Cell t))) as Hrest.
  { intros v' [-> ->]%verify_cells_rest. setoid_rewrite rest_of_lookup. split; split.
    - intros Hl c Hc Hk. apply (Hl (current_key c)). rewrite bool_decide_eq_false_2 by done. by apply Lc.
    - intros Hl k c. case_bool_decide as Hk; [done|]. intros [Hc <-]%Lc. by apply Hl.
    - intros Hl t Ht Hk. apply (Hl (current_key (tm_Cell t))). rewrite bool_decide_eq_false_2 by done. by apply Lt.
    - intros Hl k t. case_bool_decide as Hk; [done|]. intros [Ht <-]%Lt. by apply Hl. }
  pose proof (verify_cells_ok b pr (man_Cells m) v Hcv) as Hvc. rewrite Hsep. split.
  - intros (Hs & v' & Hv & Hl1 & Hl2). destruct (Hrest _ Hv) as [R1 R2]. rewrite Hv in Hvc.
    destruct (proj1 Hvc eq_refl) as [Hnd Hf]. rewrite Forall_forall in Hf. split; [done|done| |by apply R1|by apply R2].
    intros p Hp. destruct (Hf p Hp) as [(c & [Hc Ek]%Lc & _ & Hh)|(t & [Ht Ek]%Lt & _ & Hh)]; [left; by exists c | right; by exists t].
  - intros [Hnd Hs Hk Hr Ht]. split; [done|]. assert (is_ok (verify_cells b pr (man_Cells m) v) = true) as [v' Hv]%is_ok_iff.
    { apply Hvc. split; [done|]. apply Forall_forall. intros p Hp. destruct (Hk p Hp) as [(c & Hc & Ek & Hh)|(t & Htt & Ek & Hh)].
      - left. exists c. split; [by apply Lc|]. split; [|done]. destruct (vs_tombstones v !! _) as [t|] eqn:El; [|done].
        apply Lt in El as [Htt E]. destruct (Hs c t Hc Htt). congruence.
      - right. exists t. split; [by apply Lt|]. split; [|done]. destruct (vs_current v !! _) as [c|] eqn:El; [|done].
        apply Lc in El as [Hc E]. destruct (Hs c t Hc Htt). congruence. }
    destruct (Hrest _ Hv) as [R1 R2]. exists v'. split; [done|]. split; [by apply R1|by apply R2].
Qed.

Lemma later_cells_ok b label (m : gmap string CurrentCell) :
  for_each (check_later_cell b label) (map_to_list m) = Ok tt <-> forall k c, m !! k = Some c -> later_ok b c.
Proof.
  rewrite for_each_ok, Forall_forall. split.
  - intros Hf k c Hc. apply (later_cell_ok c b (label +:+ k)), (Hf (k, c)). by apply elem_of_map_to_list.
  - intros Hf [k c] Hc%elem_of_map_to_list. by apply later_cell_ok, (Hf k).
Qed.

Lemma verification_ok id expected s : distinct_cells s ->
  is_ok (verifyTimestampManifestWithStatusInTx id expected s) = true
  <-> exists m b pr, read_verified id s = Ok (m, b, pr)
      /\ validateTimestampDeletionTombstones (readTimestampDeletionTombstonesInTx s) = Ok tt
      /\ is_ok (readTimestampSchemaContractWithStatusInTx expected s) = true /\ intact m b pr s.
Proof.
  intros Hd. rewrite is_ok_iff. unfold verifyTimestampManifestWithStatusInTx. split.
  - intros [v E]. read_inv. rename H0 into Hread, H1 into Htomb, H2 into Hboth, H3 into Hcon, H4 into Hv, H5 into Hl1, H6 into Hl2.
    exists m, z, g. split; [done|]. split; [done|]. split; [by rewrite Hcon|]. apply read_verified_ok, document_converted in Hread.
    refine (proj1 (verify_cells_intact m z g s (verify_start _ _) Hread Hd eq_refl eq_refl) _). split.
    + rewrite for_each_ok, Forall_forall in Hboth. intros t Ht. specialize (Hboth t Ht). by apply check_both_ok in Hboth.
    + eexists. split; [exact Hv|]. rewrite later_cells_ok in Hl1, Hl2. split; [done|]. intros k t Ht. apply (Hl2 k).
      by rewrite lookup_fmap, Ht.
  - intros (m & b & pr & Hr & Ht & [c Hc]%is_ok_iff & Hi). pose proof (document_converted _ (read_verified_ok _ _ _ _ _ Hr)) as Hcv.
    refine (_ (proj2 (verify_cells_intact m b pr s (verify_start _ _) Hcv Hd eq_refl eq_refl) Hi)). intros (Hb & v' & Hv & Hl1 & Hl2).
    rewrite Hr. simpl. rewrite Ht. simpl. rewrite (proj2 (for_each_ok _ _)).
    + simpl. rewrite Hc. simpl. rewrite Hv. simpl. rewrite (proj2 (later_cells_ok b _ _) Hl1). simpl. rewrite (proj2 (later_cells_ok b _ _)); [by eexists|].
      intros k x. rewrite lookup_fmap_Some. intros (t & <- & Hx). by apply (Hl2 k).
    + apply Forall_forall. intros t Htt. by apply check_both_ok, Hb.
Qed.
End verification.

(** ** Fuel *)

(** The loops over a chain of manifests end: their fuel is the number of stored
    manifests, a manifest is met at most once, and more fuel changes nothing. *)
Section fuel.
Context `{Crypto}.

Lemma manifest_row_known id s r : manifest_row id s = Ok r -> id ∈ (mr_ID <$> Manifests s) /\ mr_ID r = id.
Proof.
  unfold manifest_row. destruct (select_where _ _) as [|x [|y l]] eqn:E; try done. intros [= ->].
  assert (r ∈ select_where (λ r, bool_decide (mr_ID r = id)) (Manifests s)) as [Hr E']%elem_of_select_where by (rewrite E; by left).
  apply bool_decide_eq_true in E' as <-. split; [by apply list_elem_of_fmap_2|done].
Qed.

(** Manifests that were met and the fuel that is left. *)
Record enough (s : tsdb) (seen : list uuid) (fuel : nat) : Prop := {
  eg_distinct : NoDup seen; eg_known u : u ∈ seen -> u ∈ (mr_ID <$> Manifests s);
  eg_left : (length (Manifests s) < fuel + length seen)%nat }.

Lemma enough_start s : enough s [] (S (length (Manifests s))).
Proof. split; [constructor|by intros u ?%elem_of_nil|simpl; lia]. Qed.
Lemma enough_more s seen fuel fuel' : enough s seen fuel -> (fuel <= fuel')%nat -> enough s seen fuel'.
Proof. intros [H1 H2 H3] Hf. split; [done|done|lia]. Qed.
Lemma enough_some s seen : ~ enough s seen 0.
Proof.
  intros [Hd Hk Hl]. assert (seen ⊆+ (mr_ID <$> Manifests s)) as Hs by (apply NoDup_submseteq; [done|exact Hk]).
  apply submseteq_length in Hs. rewrite length_fmap in Hs. simpl in Hl. lia.
Qed.
Lemma enough_next s seen fuel id r : enough s seen (S fuel) -> contains seen id = false -> manifest_row id s = Ok r ->
  enough s (id :: seen) fuel.
Proof.
  intros [Hd Hk Hl] Hc%contains_false [Hr _]%manifest_row_known. split.
  - by constructor.
  - intros u [-> |Hu]%elem_of_cons; [done|by apply Hk].
  - simpl. lia.
Qed.

Lemma lifecycle_baseline_fuel s fuel fuel' seen id : enough s seen fuel -> enough s seen fuel' ->
  lifecycle_baseline fuel seen id s = lifecycle_baseline fuel' seen id s.
Proof.
  revert fuel' seen id. induction fuel as [|fuel IH]; intros fuel' seen id H1 H2; [by apply enough_some in H1|].
  destruct fuel' as [|fuel']; [by apply enough_some in H2|]. cbn [lifecycle_baseline]. destruct (contains seen id) eqn:Hc; [done|].
  destruct (manifest_row id s) as [r|e] eqn:Hr; [|done]. cbn [mbind result_bind]. destruct (mr_VerifiedAt r); [|done].
  destruct (unless _ _); [|done]. cbn. destruct (mr_SupersedesManifestID r); [|done].
  apply IH; by eapply enough_next.
Qed.

Lemma manifest_chain_fuel s fuel fuel' seen child id x : enough s seen fuel -> enough s seen fuel' ->
  manifest_chain fuel seen child id x s = manifest_chain fuel' seen child id x s.
Proof.
  revert fuel' seen child id. induction fuel as [|fuel IH]; intros fuel' seen child id H1 H2; [by apply enough_some in H1|].
  destruct fuel' as [|fuel']; [by apply enough_some in H2|]. cbn [manifest_chain]. destruct (contains seen id) eqn:Hc; [done|].
  unfold readStoredTimestampManifestInTx. destruct (manifest_row id s) as [r|e] eqn:Hr; [|done]. cbn [mbind result_bind].
  do 4 (destruct (unless _ _) || destruct (require_no_problems _); [cbn [mbind result_bind]|done]).
  destruct (match child with Some c => _ | None => _ end); [cbn [mbind result_bind]|done].
  destruct (man_SupersedesManifestID _); [|done]. apply IH; by eapply enough_next.
Qed.

(** A chain whose baseline can be read is walked to its end. *)
Lemma deleted_promotions_fuel s fuel seen id r cells b g g' promoted : lifecycle_baseline fuel seen id s = Ok b ->
  manifest_row id s = Ok r -> (fuel <= S g)%nat -> (fuel <= S g')%nat ->
  deleted_promotions g (manifest_of r cells) promoted s = deleted_promotions g' (manifest_of r cells) promoted s.
Proof.
  revert seen id r cells g g' promoted. induction fuel as [|fuel IH]; intros seen id r cells g g' promoted E Hr Hg Hg'; [done|].
  cbn [lifecycle_baseline] in E. destruct (contains seen id); [done|]. rewrite Hr in E. cbn [mbind result_bind] in E.
  destruct (mr_VerifiedAt r); [|done]. read_inv. destruct (manifest_row_known _ _ _ Hr) as [_ Hid].
  destruct (mr_SupersedesManifestID r) as [parent|] eqn:Hp; [|by destruct g, g'; cbn; rewrite Hp].
  assert (exists p, manifest_row parent s = Ok p) as [p Hpr].
  { destruct fuel as [|fuel]; [done|]. cbn [lifecycle_baseline] in E. destruct (contains _ parent); [done|]. read_inv. by eexists. }
  assert (fuel <> O) as Hne by (by destruct fuel). destruct g as [|g]; [lia|]. destruct g' as [|g']; [lia|].
  cbn [deleted_promotions manifest_of man_SupersedesManifestID man_ID]. rewrite Hp, Hid, Hr. cbn [mbind result_bind].
  destruct (mr_AppliedAt r); [|done]. destruct (unless _ _); [cbn [mbind result_bind]|done].
  unfold readStoredTimestampManifestInTx. rewrite Hpr. cbn [mbind result_bind]. destruct (unless _ _); [cbn [mbind result_bind]|done].
  destruct (promote_cells _ _ _ _); [cbn [mbind result_bind]|done]. eapply IH; [exact E|exact Hpr|lia|lia].
Qed.
End fuel.
