(* ===== verification/TimestampApply.v ===== *)
(** * External execution timestamps: application
    ([db/external_execution_timestamps.go])

    An approved manifest is stored with its decisions, fills the instants that
    it proves, and is verified in the same transaction. The constraints and
    triggers of migration 138 are conditions of the writes; a write that
    violates one fails with an error of the database. *)
From S2P Require Import Prelude GoStrings GoTime Uuid TaskStore Transaction StepRedaction TimestampCanonical TimestampManifest TimestampTables TimestampVerify.
From Stdlib Require Import Ascii.
Open Scope list_scope.
#[local] Open Scope Z_scope.

(** ** Data *)

Record ApplyRequest := {
  rq_Manifest : Manifest; rq_Apply : bool; rq_WriterFenceIdentifier : string; rq_BackupReference : string;
  rq_BackupChecksum : string; rq_RestoreVerificationReference : string; rq_RestoreVerificationChecksum : string }.

Record ApplyReport := {
  rp_ManifestID : uuid; rp_DryRun : bool; rp_Idempotent : bool; rp_ProvenCount : Z; rp_AttestedCount : Z;
  rp_UnresolvedCount : Z; rp_NullCount : Z; rp_ProvenanceRows : Z; rp_WouldPopulateCount : Z; rp_PopulatedShadowCount : Z;
  rp_RawSetChecksum : string; rp_DatabaseIdentityChecksum : string }.

(** The transaction's identity, its readings of the clock, what an inspection
    takes from outside, and the answers to the polls for the advisory lock
    until the time is up. *)
Record ApplyEnv := {
  ap_Xact : Z; ap_AppliedAt : Z; ap_VerifiedAt : Z; ap_Inspect : InspectEnv; ap_LockAnswers : list bool }.

#[export] Instance RawCell_eq_dec : EqDecision RawCell.
Proof. solve_decision. Defined.
#[export] Instance CellDecision_eq_dec : EqDecision CellDecision.
Proof. solve_decision. Defined.
#[export] Instance Manifest_eq_dec : EqDecision Manifest.
Proof. solve_decision. Defined.

(** ** The cells whose instants are filled *)

Definition resolved_cells (m : Manifest) : list CellDecision := List.filter (λ c, is_resolved (dec_Decision c)) (man_Cells m).
Definition resolvedTimestampCellKeys (m : Manifest) : gset string := list_to_set (decision_key <$> resolved_cells m).

(** A promoted cell: its row when the instant has to be filled. *)
Definition promoted_source (key : string) (previous : CellDecision) (current : gmap string CurrentCell)
    (tombstones : gmap string Tombstone) : result apierror bool :=
  match current !! key, tombstones !! key with
  | Some _, Some _ => fail ("promoted provenance cell " +:+ key +:+ " has both source and tombstone")
  | None, None => fail ("promoted provenance cell " +:+ key +:+ " has no source row")
  | None, Some t =>
      unless (negb (equalTimestampText (cell_RawValue (dec_Raw previous)) (cu_RawValue (tm_Cell t))))
        ("promoted deleted provenance cell " +:+ key +:+ " raw timestamp changed") ≫= λ _,
      unless (negb (bool_decide (cu_InstantValue (tm_Cell t) = None)))
        ("promoted deleted provenance cell " +:+ key +:+ " already has a shadow") ≫= λ _, Ok false
  | Some c, None =>
      if equalTimestampText (cell_RawValue (dec_Raw previous)) (cu_RawValue c) then
        unless (negb (bool_decide (cu_InstantValue c = None)))
          ("newly promoted timestamp shadow " +:+ key +:+ " is already non-null") ≫= λ _, Ok true
      else Ok false
  end.
Fixpoint newly_promoted (previous : gmap string CellDecision) (current : gmap string CurrentCell) (tombstones : gmap string Tombstone)
    (l : list CellDecision) (promoted : gset string) : result apierror (gset string) :=
  match l with
  | [] => Ok promoted
  | c :: l =>
      let key := decision_key c in
      match previous !! key with
      | None => fail ("superseding cell " +:+ key +:+ " has no prior decision")
      | Some p =>
          if promoted_decision p c then
            promoted_source key p current tombstones ≫= λ fill : bool,
            newly_promoted previous current tombstones l (if fill then {[key]} ∪ promoted else promoted)
          else newly_promoted previous current tombstones l promoted
      end
  end.

Definition root_cell (current : gmap string CurrentCell) (c : CellDecision) (fill : gset string) : result apierror (gset string) :=
  let key := decision_key c in
  match current !! key with
  | None => fail ("manifest cell " +:+ key +:+ " has no current source row")
  | Some x =>
      unless (negb (equalTimestampText (cell_RawValue (dec_Raw c)) (cu_RawValue x)))
        ("manifest raw cell " +:+ key +:+ " changed during preflight") ≫= λ _,
      unless (negb (bool_decide (cu_InstantValue x = None)))
        ("first manifest requires every historical timestamp shadow to be null: " +:+ key) ≫= λ _,
      if is_resolved (dec_Decision c) then Ok ({[key]} ∪ fill) else
      if contains [DecisionUnresolved; DecisionNull] (dec_Decision c) then Ok fill else
      fail ("timestamp cell " +:+ key +:+ " has unsupported decision")
  end.
Fixpoint root_cells (current : gmap string CurrentCell) (l : list CellDecision) (fill : gset string) : result apierror (gset string) :=
  match l with [] => Ok fill | c :: l => root_cell current c fill ≫= λ fill, root_cells current l fill end.

Definition rootTimestampCellsRequiringShadowFillInTx (m : Manifest) (s : tsdb) : result apierror (gset string) :=
  root_cells (keyed current_key (readCurrentTimestampCellsInTx s)) (man_Cells m) ∅.

Section application.
Context `{Crypto}.

Definition newlyPromotedTimestampCellsRequiringShadowFillInTx (previous next : Manifest) (s : tsdb) : result apierror (gset string) :=
  let tombstones := readTimestampDeletionTombstonesInTx s in
  validateTimestampDeletionTombstones tombstones ≫= λ _,
  newly_promoted (keyed decision_key (man_Cells previous)) (keyed current_key (readCurrentTimestampCellsInTx s))
    (keyed (current_key ∘ tm_Cell) tombstones) (man_Cells next) ∅.

Definition requireManifestSnapshotForApplyInTx (env : InspectEnv) (m : Manifest) (s : tsdb) : result apierror (gset string) :=
  readTimestampSchemaContractInTx s ≫= λ contract,
  if sc_CatalogVersion contract =? 137 then
    unless (negb (bool_decide (man_SupersedesManifestID m = None)))
      "schema-137 dry-run manifest cannot supersede another manifest" ≫= λ _,
    inspectTimestampsInTx env s ≫= λ live,
    requireManifestMatchesSnapshot m live ≫= λ _, Ok (resolvedTimestampCellKeys m)
  else
  readUniqueVerifiedManifestTipInTx s ≫= λ tip : option uuid,
  match tip with
  | None =>
      unless (negb (bool_decide (man_SupersedesManifestID m = None))) "first manifest cannot supersede another manifest" ≫= λ _,
      readTimestampExpandStateInTx s ≫= λ x,
      requireRootManifestMatchesExpandState m x ≫= λ _,
      inspectTimestampsInTx env s ≫= λ live,
      requireManifestMatchesSnapshot m live ≫= λ _, rootTimestampCellsRequiringShadowFillInTx m s
  | Some tip =>
      unless (negb (bool_decide (man_SupersedesManifestID m = Some tip))) ("manifest must supersede verified tip " +:+ uuid_string tip) ≫= λ _,
      readStoredTimestampManifestInTx tip s ≫= λ '(previous, _),
      require_no_problems (ValidateSupersession previous m) ≫= λ _,
      wrap "live lifecycle verification against verified tip: " (verifyTimestampManifestInTx tip s) ≫= λ _,
      newlyPromotedTimestampCellsRequiringShadowFillInTx previous m s
  end.

(** ** Reports *)

Definition timestampApplyReport (m : Manifest) (dryRun idempotent : bool) (populate populated rows : Z) : ApplyReport :=
  {| rp_ManifestID := man_ID m; rp_DryRun := dryRun; rp_Idempotent := idempotent;
     rp_ProvenCount := count_decisions [DecisionProven] (man_Cells m); rp_AttestedCount := count_decisions [DecisionAttested] (man_Cells m);
     rp_UnresolvedCount := count_decisions [DecisionUnresolved] (man_Cells m); rp_NullCount := count_decisions [DecisionNull] (man_Cells m);
     rp_ProvenanceRows := rows; rp_WouldPopulateCount := populate; rp_PopulatedShadowCount := populated;
     rp_RawSetChecksum := man_RawCellChecksum m; rp_DatabaseIdentityChecksum := man_DatabaseIdentityChecksum m |}.

Definition set_count (x : gset string) : Z := Z.of_nat (size x).

Definition dryRunTimestampManifest (env : InspectEnv) (m : Manifest) : ttx ApplyReport := squery (λ s,
  require_no_problems (ValidateManifestDocument m) ≫= λ _,
  requireManifestSnapshotForApplyInTx env m s ≫= λ cells,
  Ok (timestampApplyReport m true false (set_count cells) 0 0)).

(** Go ranges over two maps, in any order. *)
Definition requireApplyEvidence (r : ApplyRequest) : result apierror unit :=
  unless (negb (bool_decide (man_State (rq_Manifest r) = StateApproved))) "mutating apply requires an APPROVED manifest" ≫= λ _,
  require_no_problems (ValidateManifestDocument (rq_Manifest r)) ≫= λ _,
  for_each (λ x : string * string, unless (blank_field x.2) (x.1 +:+ " is required"))
    [("writer fence", rq_WriterFenceIdentifier r); ("backup reference", rq_BackupReference r);
     ("restore reference", rq_RestoreVerificationReference r)] ≫= λ _,
  for_each (λ x : string * string, unless (negb (checksumPattern x.2)) (x.1 +:+ " must be canonical SHA-256"))
    [("backup checksum", rq_BackupChecksum r); ("restore checksum", rq_RestoreVerificationChecksum r)].
End application.

(** ** The rows that are written *)

(** [CAST(text AS timestamp)] of a text in the layout; there is no year 0. *)
Definition storable_year (t : Z) : bool := 1 <=? w_year (wall_of t).
#[global] Arguments storable_year : simpl never.
Definition cast_wall (v : string) : option Z :=
  t ← parse_wall v; if storable_year t then Some t else None.
Definition cast_instant (v : string) : option Z :=
  match ParseInstant v with Ok t => if storable_year t then Some t else None | Err _ => None end.
Definition cast_nullable (cast : string -> option Z) (v : option string) : option (option Z) :=
  match v with None => Some None | Some v => Some <$> cast v end.

Definition nullableTimestampText (value : string) : option string := if blank_field value then None else Some value.

Definition manifestInsertArgs (m : Manifest) : option ManifestRow :=
  started ← cast_instant (man_SnapshotStartedAt m); ended ← cast_instant (man_SnapshotEndedAt m);
  approved ← cast_instant (man_ApprovedAt m);
  Some {| mr_ID := man_ID m; mr_SupersedesManifestID := man_SupersedesManifestID m;
     mr_DatabaseIdentityChecksum := man_DatabaseIdentityChecksum m; mr_SourceSchemaVersion := man_SourceSchemaVersion m;
     mr_SnapshotStartedAt := started; mr_SnapshotEndedAt := ended; mr_ExecutionCount := man_ExecutionCount m;
     mr_EventCount := man_EventCount m; mr_RawCellCount := man_RawCellCount m; mr_PopulatedCellCount := man_PopulatedCellCount m;
     mr_RawCellChecksum := man_RawCellChecksum m; mr_EvidenceBundleReference := man_EvidenceBundleReference m;
     mr_EvidenceBundleChecksum := man_EvidenceBundleChecksum m; mr_ToolVersion := man_ToolVersion m;
     mr_ConversionExpressionVersion := man_ConversionExpressionVersion m; mr_AuthorIdentity := man_AuthorIdentity m;
     mr_ReviewerIdentity := man_ReviewerIdentity m; mr_ApprovedAt := approved; mr_TargetReleaseCommit := man_TargetReleaseCommit m;
     mr_TargetImageDigest := man_TargetImageDigest m; mr_State := StateApproved;
     mr_DecisionContentChecksum := man_DecisionContentChecksum m; mr_AppliedAt := None; mr_VerifiedAt := None |}.

Definition provenanceInsertArgs (xact : Z) (m : Manifest) (c : CellDecision) : option ProvenanceRow :=
  raw ← cast_nullable cast_wall (cell_RawValue (dec_Raw c)); converted ← cast_nullable cast_instant (dec_ConvertedValue c);
  Some {| pr_ManifestID := man_ID m; pr_SourceTable := cell_SourceTable (dec_Raw c); pr_SourceRowID := cell_SourceRowID (dec_Raw c);
     pr_SourceColumn := cell_SourceColumn (dec_Raw c); pr_ColumnOrdinal := cell_ColumnOrdinal (dec_Raw c); pr_RawValue := raw;
     pr_Decision := dec_Decision c; pr_SourceZone := nullableTimestampText (dec_SourceZone c);
     pr_SourceOffsetSeconds := dec_SourceOffsetSeconds c; pr_ConvertedValue := converted;
     pr_EvidenceReference := nullableTimestampText (dec_EvidenceReference c);
     pr_EvidenceChecksum := nullableTimestampText (dec_EvidenceChecksum c);
     pr_ApprovingIdentity := nullableTimestampText (dec_ApprovingIdentity c);
     pr_RawCellChecksum := cell_RawCellChecksum (dec_Raw c); pr_ParentManifestChecksum := man_DecisionContentChecksum m;
     pr_ConversionExpressionVersion := dec_ConversionExpressionVersion c; pr_Xmin := xact |}.

(** [length(btrim(x)) > 0]: blanks only are cut. *)
Definition btrim_empty (s : string) : bool := forallb (λ a, bool_decide (a = " "%char)) (String.list_ascii_of_string s).
Definition fits_bigint (n : Z) : bool := (0 <=? n) && (n <? 2 ^ 63).

(** The checks of a row of [ExternalExecutionTimestampManifest]. *)
Definition metadata_ok (r : ManifestRow) : bool :=
  negb (btrim_empty (mr_EvidenceBundleReference r)) && checksumPattern (mr_EvidenceBundleChecksum r)
  && negb (btrim_empty (mr_AuthorIdentity r)) && negb (btrim_empty (mr_ReviewerIdentity r))
  && negb (bool_decide (mr_AuthorIdentity r = mr_ReviewerIdentity r)) && commitPattern (mr_TargetReleaseCommit r)
  && checksumPattern (mr_TargetImageDigest r).
Definition lifecycle_shape (r : ManifestRow) : bool :=
  let state := mr_State r in
  match mr_AppliedAt r, mr_VerifiedAt r with
  | None, None => bool_decide (state = StateApproved)
  | Some applied, None => bool_decide (state = StateApplied) && (mr_ApprovedAt r <=? applied)
  | Some applied, Some verified => bool_decide (state = StateVerified) && (mr_ApprovedAt r <=? applied) && (applied <=? verified)
  | None, Some _ => false
  end.
Definition manifest_checks (r : ManifestRow) : bool :=
  checksumPattern (mr_DatabaseIdentityChecksum r) && checksumPattern (mr_RawCellChecksum r)
  && checksumPattern (mr_DecisionContentChecksum r) && (mr_SourceSchemaVersion r =? 137)
  && fits_bigint (mr_ExecutionCount r) && fits_bigint (mr_EventCount r) && fits_bigint (mr_RawCellCount r)
  && fits_bigint (mr_PopulatedCellCount r) && (mr_PopulatedCellCount r <=? mr_RawCellCount r)
  && (mr_RawCellCount r =? 5 * mr_ExecutionCount r + mr_EventCount r) && (mr_SnapshotStartedAt r <=? mr_SnapshotEndedAt r)
  && negb (btrim_empty (mr_ToolVersion r)) && bool_decide (mr_ConversionExpressionVersion r = ConversionExpressionVersion)
  && negb (bool_decide (mr_SupersedesManifestID r = Some (mr_ID r))) && metadata_ok r && lifecycle_shape r.

(** The keys: the identifier, the parent, and one active child of a parent. *)
Definition manifest_keys (r : ManifestRow) (l : list ManifestRow) : bool :=
  negb (exists_where (λ x, bool_decide (mr_ID x = mr_ID r)) l)
  && match mr_SupersedesManifestID r with Some p => exists_where (λ x, bool_decide (mr_ID x = p)) l | None => true end
  && negb (exists_where (λ x, bool_decide (mr_SupersedesManifestID x = mr_SupersedesManifestID r)
                              && negb (bool_decide (mr_State x = StateRevokedBeforeApply))) l).

Definition database_error {A} : result apierror A := fail "could not write external execution timestamps".

(** [insertExternalExecutionTimestampManifestSQL] *)
Definition insert_manifest (m : Manifest) : ttx unit := λ s,
  match manifestInsertArgs m with
  | Some r => if manifest_checks r && manifest_keys r (Manifests s) then Ok (tt, with_manifests (Manifests s ++ [r]) s) else database_error
  | None => database_error
  end.

(** The checks of a row of [ExternalExecutionTimestampCellProvenance]. *)
Definition no_evidence (p : ProvenanceRow) : bool :=
  bool_decide (pr_SourceZone p = None /\ pr_SourceOffsetSeconds p = None /\ pr_ConvertedValue p = None
    /\ pr_EvidenceReference p = None /\ pr_EvidenceChecksum p = None /\ pr_ApprovingIdentity p = None).
Definition full_evidence (p : ProvenanceRow) : bool :=
  match pr_SourceOffsetSeconds p, pr_ConvertedValue p, pr_EvidenceReference p, pr_EvidenceChecksum p, pr_ApprovingIdentity p with
  | Some offset, Some _, Some reference, Some sum, Some approver =>
      (-64800 <=? offset) && (offset <=? 64800) && negb (btrim_empty reference) && checksumPattern sum && negb (btrim_empty approver)
      && match pr_SourceZone p with Some zone => negb (btrim_empty zone) | None => true end
  | _, _, _, _, _ => false
  end.
Definition decision_shape (p : ProvenanceRow) : bool :=
  let decision := pr_Decision p in
  if bool_decide (decision = DecisionNull) then bool_decide (pr_RawValue p = None) && no_evidence p else
  if bool_decide (decision = DecisionUnresolved) then negb (bool_decide (pr_RawValue p = None)) && no_evidence p else
  is_resolved decision && negb (bool_decide (pr_RawValue p = None)) && full_evidence p.
Definition provenance_checks (p : ProvenanceRow) : bool :=
  checksumPattern (pr_RawCellChecksum p) && checksumPattern (pr_ParentManifestChecksum p)
  && bool_decide (pr_ConversionExpressionVersion p = ConversionExpressionVersion)
  && bool_decide (cellOrdinals (pr_SourceTable p) (pr_SourceColumn p) = Some (pr_ColumnOrdinal p)) && decision_shape p.
Definition same_provenance (p q : ProvenanceRow) : bool :=
  bool_decide (pr_ManifestID p = pr_ManifestID q /\ pr_SourceTable p = pr_SourceTable q /\ pr_SourceRowID p = pr_SourceRowID q
               /\ pr_SourceColumn p = pr_SourceColumn q).
Definition provenance_keys (p : ProvenanceRow) (s : tsdb) : bool :=
  negb (exists_where (same_provenance p) (Provenance s))
  && exists_where (λ r, bool_decide (mr_ID r = pr_ManifestID p) && bool_decide (mr_DecisionContentChecksum r = pr_ParentManifestChecksum p))
       (Manifests s).

(** [insertExternalExecutionTimestampProvenanceSQL] *)
Definition insert_provenance (xact : Z) (m : Manifest) (c : CellDecision) : ttx unit := λ s,
  match provenanceInsertArgs xact m c with
  | Some p => if provenance_checks p && provenance_keys p s then Ok (tt, with_provenance (Provenance s ++ [p]) s) else database_error
  | None => database_error
  end.

(** ** The instants that are filled *)

(** The column that an update statement sets. *)
Inductive shadow :=
| ExecutionShadow (column : string) (ordinal : Z) (get : ExecutionTimes -> pair) (set : pair -> ExecutionTimes -> ExecutionTimes)
| EventShadow.

Definition set_CreatedAt (p : pair) (x : ExecutionTimes) : ExecutionTimes :=
  {| et_ID := et_ID x; et_CreatedAt := p; et_UpdatedAt := et_UpdatedAt x; et_StartedAt := et_StartedAt x;
     et_CompletedAt := et_CompletedAt x; et_CallbackDeadlineAt := et_CallbackDeadlineAt x |}.
Definition set_UpdatedAt (p : pair) (x : ExecutionTimes) : ExecutionTimes :=
  {| et_ID := et_ID x; et_CreatedAt := et_CreatedAt x; et_UpdatedAt := p; et_StartedAt := et_StartedAt x;
     et_CompletedAt := et_CompletedAt x; et_CallbackDeadlineAt := et_CallbackDeadlineAt x |}.
Definition set_StartedAt (p : pair) (x : ExecutionTimes) : ExecutionTimes :=
  {| et_ID := et_ID x; et_CreatedAt := et_CreatedAt x; et_UpdatedAt := et_UpdatedAt x; et_StartedAt := p;
     et_CompletedAt := et_CompletedAt x; et_CallbackDeadlineAt := et_CallbackDeadlineAt x |}.
Definition set_CompletedAt (p : pair) (x : ExecutionTimes) : ExecutionTimes :=
  {| et_ID := et_ID x; et_CreatedAt := et_CreatedAt x; et_UpdatedAt := et_UpdatedAt x; et_StartedAt := et_StartedAt x;
     et_CompletedAt := p; et_CallbackDeadlineAt := et_CallbackDeadlineAt x |}.
Definition set_CallbackDeadlineAt (p : pair) (x : ExecutionTimes) : ExecutionTimes :=
  {| et_ID := et_ID x; et_CreatedAt := et_CreatedAt x; et_UpdatedAt := et_UpdatedAt x; et_StartedAt := et_StartedAt x;
     et_CompletedAt := et_CompletedAt x; et_CallbackDeadlineAt := p |}.

(** The statements [updateExecutionCreatedInstantSQL] and so on. *)
Definition execution_shadows : list (string * shadow) :=
  [("externalexecution/created_at", ExecutionShadow "created_at" 1 et_CreatedAt set_CreatedAt);
   ("externalexecution/updated_at", ExecutionShadow "updated_at" 2 et_UpdatedAt set_UpdatedAt);
   ("externalexecution/started_at", ExecutionShadow "started_at" 3 et_StartedAt set_StartedAt);
   ("externalexecution/completed_at", ExecutionShadow "completed_at" 4 et_CompletedAt set_CompletedAt);
   ("externalexecution/callback_deadline_at", ExecutionShadow "callback_deadline_at" 5 et_CallbackDeadlineAt set_CallbackDeadlineAt);
   ("externalexecutionevent/created_at", EventShadow)].
Definition timestampShadowUpdateSQL (c : CellDecision) : result apierror shadow :=
  match select_where (λ x, bool_decide (x.1 = cell_SourceTable (dec_Raw c) +:+ "/" +:+ cell_SourceColumn (dec_Raw c))) execution_shadows with
  | x :: _ => Ok x.2
  | [] => fail "timestamp cell is outside the update allowlist"
  end.

(** [WHERE raw IS NOT DISTINCT FROM @raw AND (instant IS NULL OR instant = @converted)] *)
Definition shadow_where (raw converted : Z) (p : pair) : bool :=
  bool_decide (p_raw p = Some raw) && (bool_decide (p_instant p = None) || bool_decide (p_instant p = Some converted)).

(** [external_execution_timestamp_pair_guard] for an update of an instant. *)
Definition pair_guard (xact : Z) (table column : string) (ordinal : Z) (id : uuid) (raw converted : Z) (old : pair) (s : tsdb) : bool :=
  bool_decide (p_instant old = Some converted)
  || (bool_decide (p_instant old = None)
      && exists_where (λ p, bool_decide (pr_SourceTable p = table /\ pr_SourceRowID p = id /\ pr_SourceColumn p = column
             /\ pr_ColumnOrdinal p = ordinal /\ pr_RawValue p = Some raw /\ pr_ConvertedValue p = Some converted /\ pr_Xmin p = xact)
           && is_resolved (pr_Decision p)
           && exists_where (λ r, bool_decide (mr_ID r = pr_ManifestID p /\ mr_State r = StateApproved)) (Manifests s)) (Provenance s)).

(** The update and how many rows it affects. *)
Definition update_shadow (xact : Z) (id : uuid) (raw converted : Z) (w : shadow) : ttx nat := λ s,
  let filled := {| p_raw := Some raw; p_instant := Some converted |} in
  match w with
  | ExecutionShadow column ordinal get set =>
      let hit x := bool_decide (et_ID x = id) && shadow_where raw converted (get x) in
      if forallb (λ x, pair_guard xact "externalexecution" column ordinal id raw converted (get x) s) (select_where hit (Executions s))
      then Ok (length (select_where hit (Executions s)), with_executions (update_where hit (set filled) (Executions s)) s)
      else database_error
  | EventShadow =>
      let hit x := bool_decide (ev_ID x = id) && shadow_where raw converted (ev_CreatedAt x) in
      if forallb (λ x, pair_guard xact "externalexecutionevent" "created_at" 6 id raw converted (ev_CreatedAt x) s) (select_where hit (Events s))
      then Ok (length (select_where hit (Events s)),
               with_events (update_where hit (λ x, {| ev_ID := ev_ID x; ev_CreatedAt := filled |}) (Events s)) s)
      else database_error
  end.

(** A resolved cell without raw or converted value would be a panic. *)
Definition applyTimestampShadowInTx (xact : Z) (c : CellDecision) : ttx unit :=
  if negb (is_resolved (dec_Decision c)) then mret tt else
  slift (timestampShadowUpdateSQL c) ≫= λ statement,
  match cell_RawValue (dec_Raw c), dec_ConvertedValue c with
  | Some raw, Some converted =>
      match cast_wall raw, cast_instant converted with
      | Some raw, Some converted =>
          update_shadow xact (cell_SourceRowID (dec_Raw c)) raw converted statement ≫= λ affected,
          slift (unless (negb (bool_decide (affected = 1%nat)))
            ("resolved timestamp shadow update affected " +:+ itoa (Z.of_nat affected) +:+ " rows"))
      | _, _ => slift database_error
      end
  | _, _ => slift (fail "panic")
  end.

(** ** The transaction *)

Definition with_state (state : string) (r : ManifestRow) (applied verified : option Z) : ManifestRow :=
  {| mr_ID := mr_ID r; mr_SupersedesManifestID := mr_SupersedesManifestID r;
     mr_DatabaseIdentityChecksum := mr_DatabaseIdentityChecksum r; mr_SourceSchemaVersion := mr_SourceSchemaVersion r;
     mr_SnapshotStartedAt := mr_SnapshotStartedAt r; mr_SnapshotEndedAt := mr_SnapshotEndedAt r;
     mr_ExecutionCount := mr_ExecutionCount r; mr_EventCount := mr_EventCount r; mr_RawCellCount := mr_RawCellCount r;
     mr_PopulatedCellCount := mr_PopulatedCellCount r; mr_RawCellChecksum := mr_RawCellChecksum r;
     mr_EvidenceBundleReference := mr_EvidenceBundleReference r; mr_EvidenceBundleChecksum := mr_EvidenceBundleChecksum r;
     mr_ToolVersion := mr_ToolVersion r; mr_ConversionExpressionVersion := mr_ConversionExpressionVersion r;
     mr_AuthorIdentity := mr_AuthorIdentity r; mr_ReviewerIdentity := mr_ReviewerIdentity r; mr_ApprovedAt := mr_ApprovedAt r;
     mr_TargetReleaseCommit := mr_TargetReleaseCommit r; mr_TargetImageDigest := mr_TargetImageDigest r; mr_State := state;
     mr_DecisionContentChecksum := mr_DecisionContentChecksum r; mr_AppliedAt := applied; mr_VerifiedAt := verified |}.
Definition to_applied (at_time : Z) (r : ManifestRow) : ManifestRow := with_state StateApplied r (Some at_time) (mr_VerifiedAt r).
Definition to_verified (at_time : Z) (r : ManifestRow) : ManifestRow := with_state StateVerified r (mr_AppliedAt r) (Some at_time).

(** [UPDATE ... SET state = ... WHERE id = @id AND state = @from] *)
Definition advance_manifest (id : uuid) (from to : string) (f : ManifestRow -> ManifestRow) : ttx unit := λ s,
  let hit r := bool_decide (mr_ID r = id) && bool_decide (mr_State r = from) in
  if negb (forallb (λ r, lifecycle_shape (f r)) (select_where hit (Manifests s))) then database_error else
  if negb (bool_decide (length (select_where hit (Manifests s)) = 1%nat)) then fail ("could not advance manifest to " +:+ to) else
  Ok (tt, with_manifests (update_where hit f (Manifests s)) s).

(** Cells sorted by their keys. *)
Definition canonical_order (l : list CellDecision) : list CellDecision := stable_sort (less_str_by decision_key) l.
Definition with_state_and_cells (state : string) (cells : list CellDecision) (m : Manifest) : Manifest :=
  {| man_ID := man_ID m; man_SupersedesManifestID := man_SupersedesManifestID m;
     man_DatabaseIdentityChecksum := man_DatabaseIdentityChecksum m; man_SourceSchemaVersion := man_SourceSchemaVersion m;
     man_SnapshotStartedAt := man_SnapshotStartedAt m; man_SnapshotEndedAt := man_SnapshotEndedAt m;
     man_ExecutionCount := man_ExecutionCount m; man_EventCount := man_EventCount m; man_RawCellCount := man_RawCellCount m;
     man_PopulatedCellCount := man_PopulatedCellCount m; man_RawCellChecksum := man_RawCellChecksum m;
     man_EvidenceBundleReference := man_EvidenceBundleReference m; man_EvidenceBundleChecksum := man_EvidenceBundleChecksum m;
     man_ToolVersion := man_ToolVersion m; man_ConversionExpressionVersion := man_ConversionExpressionVersion m;
     man_AuthorIdentity := man_AuthorIdentity m; man_ReviewerIdentity := man_ReviewerIdentity m; man_ApprovedAt := man_ApprovedAt m;
     man_TargetReleaseCommit := man_TargetReleaseCommit m; man_TargetImageDigest := man_TargetImageDigest m; man_State := state;
     man_DecisionContentChecksum := man_DecisionContentChecksum m; man_Cells := cells |}.
Definition storedManifestMatchesApplyRequest (stored requested : Manifest) : bool :=
  bool_decide (with_state_and_cells StateApproved (canonical_order (man_Cells stored)) stored
               = with_state_and_cells (man_State requested) (canonical_order (man_Cells requested)) requested).

(** A cell is stored, and its instant filled when it is among the cells to
    populate. *)
Definition apply_cell (xact : Z) (m : Manifest) (fill : gset string) (c : CellDecision) : ttx unit :=
  insert_provenance xact m c ≫= λ _,
  if bool_decide (decision_key c ∈ fill) then applyTimestampShadowInTx xact c else mret tt.
Fixpoint apply_cells (xact : Z) (m : Manifest) (fill : gset string) (l : list CellDecision) : ttx unit :=
  match l with [] => mret tt | c :: l => apply_cell xact m fill c ≫= λ _, apply_cells xact m fill l end.

Section transaction.
Context `{Crypto}.

(** A manifest whose identifier is stored already. *)
Definition apply_again (m existing : Manifest) (state : string) : ttx ApplyReport := squery (λ s,
  unless (negb (bool_decide (state = StateVerified))
          || negb (bool_decide (man_DecisionContentChecksum existing = man_DecisionContentChecksum m))
          || negb (storedManifestMatchesApplyRequest existing m)) "manifest id collision" ≫= λ _,
  verifyTimestampManifestInTx (man_ID m) s ≫= λ v,
  Ok (timestampApplyReport m false true 0 0 (ver_ProvenanceRows v))).

Definition apply_new (env : ApplyEnv) (m : Manifest) : ttx ApplyReport :=
  squery (requireManifestSnapshotForApplyInTx (ap_Inspect env) m) ≫= λ fill,
  insert_manifest m ≫= λ _,
  apply_cells (ap_Xact env) m fill (man_Cells m) ≫= λ _,
  advance_manifest (man_ID m) StateApproved StateApplied (to_applied (ap_AppliedAt env)) ≫= λ _,
  advance_manifest (man_ID m) StateApplied StateVerified (to_verified (ap_VerifiedAt env)) ≫= λ _,
  squery (verifyTimestampManifestInTx (man_ID m)) ≫= λ v,
  mret (timestampApplyReport m false false (set_count fill) (set_count fill) (ver_ProvenanceRows v)).

Definition apply_stored (env : ApplyEnv) (m : Manifest) : ttx ApplyReport := λ s,
  match readStoredTimestampManifestInTx (man_ID m) s with
  | Ok (existing, state) => apply_again m existing state s
  | Err NotFound => apply_new env m s
  | Err e => Err e
  end.

Definition apply_in_tx (env : ApplyEnv) (m : Manifest) : ttx ApplyReport :=
  squery readTimestampSchemaContractInTx ≫= λ contract,
  slift (unless ((sc_CatalogVersion contract <? 138) || negb (man_SourceSchemaVersion m =? sc_IdentitySourceVersion contract))
    "mutating apply requires compatible schema 138") ≫= λ _,
  squery requireTimestampGuardsInTx ≫= λ _, apply_stored env m.

(** The advisory lock is polled until it is granted or the time is up. *)
Fixpoint acquireTimestampSessionLock (answers : list bool) : result apierror unit :=
  match answers with
  | [] => fail "acquire external execution timestamp advisory lock: context deadline exceeded"
  | locked :: answers => if locked then Ok tt else acquireTimestampSessionLock answers
  end.

Definition runTimestampApplyTransaction {A} (env : ApplyEnv) (f : ttx A) : ttx A :=
  slift (acquireTimestampSessionLock (ap_LockAnswers env)) ≫= λ _, f.

Definition ApplyExternalExecutionTimestampManifest (env : ApplyEnv) (r : ApplyRequest) : ttx ApplyReport :=
  if negb (rq_Apply r) then dryRunTimestampManifest (ap_Inspect env) (rq_Manifest r) else
  slift (requireApplyEvidence r) ≫= λ _,
  runTimestampApplyTransaction env (apply_in_tx env (rq_Manifest r)).
End transaction.
