(* ===== verification/TimestampEffects.v ===== *)
(** * External execution timestamps: what an application changes

    The writes of an application, cell by cell: the decisions that are stored
    and the instants that are filled. *)
From S2P Require Import Prelude GoStrings GoTime Uuid TaskStore Transaction StepRedaction TimestampCanonical TimestampManifest TimestampGuarantees TimestampTables TimestampVerify TimestampReading TimestampApply.
From Stdlib Require Import Ascii.
Open Scope list_scope.
#[local] Open Scope Z_scope.

(** ** Casts *)

(** A wall clock or instant that the database can store. *)
Definition storable (t : Z) : Prop := layout_instant t /\ storable_year t = true.

Lemma cast_wall_iff v t : cast_wall v = Some t <-> storable t /\ v = format_wall t.
Proof.
  unfold cast_wall, storable. split.
  - destruct (parse_wall v) as [u|] eqn:E; simpl; [|done]. destruct (storable_year u) eqn:Hy; [|done]. intros [= <-].
    apply parse_wall_iff in E as [? ->]. done.
  - intros [[Hl Hy] ->]. rewrite (proj2 (parse_wall_iff _ t)) by done. simpl. by rewrite Hy.
Qed.
Lemma cast_instant_iff v t : cast_instant v = Some t <-> storable t /\ v = FormatInstant t.
Proof.
  unfold cast_instant, storable. split.
  - destruct (ParseInstant v) as [u|] eqn:E; [|done]. destruct (storable_year u) eqn:Hy; [|done]. intros [= <-].
    apply ParseInstant_iff in E as [? ->]. done.
  - intros [[Hl Hy] ->]. rewrite (ParseInstant_FormatInstant _ Hl). by rewrite Hy.
Qed.
Lemma cast_nullable_text cast format v o : (forall v t, cast v = Some t -> v = format t) ->
  cast_nullable cast v = Some o -> format <$> o = v.
Proof.
  intros Hc. unfold cast_nullable. destruct v as [v|]; [|by intros [= <-]]. destruct (cast v) as [t|] eqn:E; simpl; [|done].
  intros [= <-]. simpl. by rewrite (Hc _ _ E).
Qed.

(** ** Filling a pair *)

(** Whether a cell of a manifest is this column of this row. *)
Definition cell_at (c : CellDecision) (table : string) (id : uuid) (column : string) : bool :=
  bool_decide (cell_SourceTable (dec_Raw c) = table /\ cell_SourceRowID (dec_Raw c) = id /\ cell_SourceColumn (dec_Raw c) = column).

(** The instant that a resolved cell proves of a wall clock. *)
Definition proves (c : CellDecision) : option (Z * Z) :=
  if is_resolved (dec_Decision c) then
    v ← cell_RawValue (dec_Raw c); w ← dec_ConvertedValue c; raw ← cast_wall v; converted ← cast_instant w; Some (raw, converted)
  else None.

Definition fill_with (c : CellDecision) (table : string) (id : uuid) (column : string) (p : pair) : pair :=
  match proves c with
  | Some (raw, converted) =>
      if cell_at c table id column && shadow_where raw converted p then {| p_raw := Some raw; p_instant := Some converted |} else p
  | None => p
  end.

Definition fill_execution (c : CellDecision) (x : ExecutionTimes) : ExecutionTimes :=
  let f := fill_with c "externalexecution" (et_ID x) in
  {| et_ID := et_ID x; et_CreatedAt := f "created_at" (et_CreatedAt x); et_UpdatedAt := f "updated_at" (et_UpdatedAt x);
     et_StartedAt := f "started_at" (et_StartedAt x); et_CompletedAt := f "completed_at" (et_CompletedAt x);
     et_CallbackDeadlineAt := f "callback_deadline_at" (et_CallbackDeadlineAt x) |}.
Definition fill_event (c : CellDecision) (x : EventTimes) : EventTimes :=
  {| ev_ID := ev_ID x; ev_CreatedAt := fill_with c "externalexecutionevent" (ev_ID x) "created_at" (ev_CreatedAt x) |}.

Lemma fill_with_not_at c table id column p : cell_at c table id column = false -> fill_with c table id column p = p.
Proof. intros E. unfold fill_with. destruct (proves c) as [[raw converted]|]; [|done]. by rewrite E. Qed.
Lemma fill_with_raw c table id column p : p_raw (fill_with c table id column p) = p_raw p.
Proof.
  unfold fill_with. destruct (proves c) as [[raw converted]|]; [|done]. destruct (_ && _) eqn:E; [|done].
  apply andb_true_iff in E as [_ [E%bool_decide_eq_true _]%andb_true_iff]. by rewrite E.
Qed.

Lemma cell_at_other c table id column table' column' : cell_SourceTable (dec_Raw c) = table -> cell_SourceColumn (dec_Raw c) = column ->
  table <> table' \/ column <> column' -> cell_at c table' id column' = false.
Proof. intros Ht Hc Hne. unfold cell_at. apply bool_decide_eq_false. intros (E1 & _ & E2). destruct Hne; congruence. Qed.

(** ** The statements *)

(** The six columns of the allow list. *)
Inductive statement_of : string -> string -> Z -> shadow -> Prop :=
  | st_created : statement_of "externalexecution" "created_at" 1 (ExecutionShadow "created_at" 1 et_CreatedAt set_CreatedAt)
  | st_updated : statement_of "externalexecution" "updated_at" 2 (ExecutionShadow "updated_at" 2 et_UpdatedAt set_UpdatedAt)
  | st_started : statement_of "externalexecution" "started_at" 3 (ExecutionShadow "started_at" 3 et_StartedAt set_StartedAt)
  | st_completed : statement_of "externalexecution" "completed_at" 4 (ExecutionShadow "completed_at" 4 et_CompletedAt set_CompletedAt)
  | st_deadline : statement_of "externalexecution" "callback_deadline_at" 5
      (ExecutionShadow "callback_deadline_at" 5 et_CallbackDeadlineAt set_CallbackDeadlineAt)
  | st_event : statement_of "externalexecutionevent" "created_at" 6 EventShadow.

Lemma ordinals_statement table column o : cellOrdinals table column = Some o -> exists w, statement_of table column o w.
Proof.
  unfold cellOrdinals. repeat case_bool_decide; subst; intros E; try discriminate E; injection E as <-; eexists; constructor.
Qed.

Lemma statement_found c o w : statement_of (cell_SourceTable (dec_Raw c)) (cell_SourceColumn (dec_Raw c)) o w ->
  timestampShadowUpdateSQL c = Ok w.
Proof. unfold timestampShadowUpdateSQL. intros Hw. by destruct Hw. Qed.

Lemma update_execution_column c column ordinal get set raw converted (l : list ExecutionTimes) :
  proves c = Some (raw, converted) ->
  cell_SourceTable (dec_Raw c) = "externalexecution" -> cell_SourceColumn (dec_Raw c) = column ->
  statement_of "externalexecution" column ordinal (ExecutionShadow column ordinal get set) ->
  update_where (λ x, bool_decide (et_ID x = cell_SourceRowID (dec_Raw c)) && shadow_where raw converted (get x))
    (set {| p_raw := Some raw; p_instant := Some converted |}) l = fill_execution c <$> l.
Proof.
  intros Hp Ht Hc Hw. unfold update_where. apply list_fmap_ext. intros i x _.
  assert (forall col, cell_at c "externalexecution" (et_ID x) col = bool_decide (col = column) && bool_decide (et_ID x = cell_SourceRowID (dec_Raw c))) as Hat.
  { intros col. unfold cell_at. rewrite Ht, Hc, <- bool_decide_and. apply bool_decide_ext. naive_solver. }
  unfold fill_execution, fill_with. rewrite Hp, !Hat. inversion Hw; subst; simpl;
    (destruct (bool_decide (et_ID x = _)); simpl; [|by destruct x]; by destruct (shadow_where _ _ _), x).
Qed.

Lemma update_event_column c raw converted (l : list EventTimes) :
  proves c = Some (raw, converted) ->
  cell_SourceTable (dec_Raw c) = "externalexecutionevent" -> cell_SourceColumn (dec_Raw c) = "created_at" ->
  update_where (λ x, bool_decide (ev_ID x = cell_SourceRowID (dec_Raw c)) && shadow_where raw converted (ev_CreatedAt x))
    (λ x, {| ev_ID := ev_ID x; ev_CreatedAt := {| p_raw := Some raw; p_instant := Some converted |} |}) l = fill_event c <$> l.
Proof.
  intros Hp Ht Hc. unfold update_where. apply list_fmap_ext. intros i x _.
  assert (cell_at c "externalexecutionevent" (ev_ID x) "created_at" = bool_decide (ev_ID x = cell_SourceRowID (dec_Raw c))) as Hat.
  { unfold cell_at. rewrite Ht, Hc. apply bool_decide_ext. naive_solver. }
  unfold fill_event, fill_with. rewrite Hp, Hat. destruct (bool_decide _); simpl; [|by destruct x]. by destruct (shadow_where _ _ _), x.
Qed.

Lemma fill_execution_other c (l : list ExecutionTimes) : cell_SourceTable (dec_Raw c) <> "externalexecution" -> fill_execution c <$> l = l.
Proof.
  intros Ht. rewrite <- (list_fmap_id l) at 2. apply list_fmap_ext. intros i x _. unfold fill_execution.
  rewrite !fill_with_not_at by (unfold cell_at; apply bool_decide_eq_false; by intros (? & _)). by destruct x.
Qed.
Lemma fill_event_other c (l : list EventTimes) : cell_SourceTable (dec_Raw c) <> "externalexecutionevent" -> fill_event c <$> l = l.
Proof.
  intros Ht. rewrite <- (list_fmap_id l) at 2. apply list_fmap_ext. intros i x _. unfold fill_event.
  rewrite !fill_with_not_at by (unfold cell_at; apply bool_decide_eq_false; by intros (? & _)). by destruct x.
Qed.

(** ** One cell *)

Definition fill_executions (cells : list CellDecision) (x : ExecutionTimes) : ExecutionTimes := foldl (λ x c, fill_execution c x) x cells.
Definition fill_events (cells : list CellDecision) (x : EventTimes) : EventTimes := foldl (λ x c, fill_event c x) x cells.

(** The tables after rows of provenance are stored and cells filled. *)
Definition applied (cells : list CellDecision) (rows : list ProvenanceRow) (s : tsdb) : tsdb :=
  {| Catalogs := Catalogs s; Executions := fill_executions cells <$> Executions s; Events := fill_events cells <$> Events s;
     Manifests := Manifests s; Provenance := Provenance s ++ rows; Tombstones := Tombstones s; Expand := Expand s |}.

Lemma applied_app cells cells' rows rows' s : applied cells' rows' (applied cells rows s) = applied (cells ++ cells') (rows ++ rows') s.
Proof.
  unfold applied. cbn [Catalogs Executions Events Manifests Provenance Tombstones Expand]. f_equal.
  - rewrite <- list_fmap_compose. apply list_fmap_ext. intros i x _. unfold fill_executions. simpl. by rewrite foldl_app.
  - rewrite <- list_fmap_compose. apply list_fmap_ext. intros i x _. unfold fill_events. simpl. by rewrite foldl_app.
  - by rewrite <- app_assoc.
Qed.
Lemma applied_nil s : applied [] [] s = s.
Proof.
  unfold applied. rewrite app_nil_r. unfold fill_executions, fill_events. simpl. rewrite !list_fmap_id. by destruct s.
Qed.

Lemma fill_one_executions c : fill_executions [c] = fill_execution c. Proof. done. Qed.
Lemma fill_one_events c : fill_events [c] = fill_event c. Proof. done. Qed.

Lemma fill_unproven c : proves c = None -> forall s, applied [c] [] s = s.
Proof.
  intros Hp s. rewrite <- (applied_nil s) at 2. unfold applied. f_equal; apply list_fmap_ext; intros i x _; simpl.
  - unfold fill_execution, fill_with. rewrite Hp. by destruct x.
  - unfold fill_event, fill_with. rewrite Hp. by destruct x.
Qed.

(** The rows and pairs of the column that a statement updates. *)
Definition column_pairs (w : shadow) (s : tsdb) : list (uuid * pair) :=
  match w with
  | ExecutionShadow _ _ get _ => (λ x, (et_ID x, get x)) <$> Executions s
  | EventShadow => (λ x, (ev_ID x, ev_CreatedAt x)) <$> Events s
  end.
Definition hits (id : uuid) (raw converted : Z) (w : shadow) (s : tsdb) : list (uuid * pair) :=
  select_where (λ y, bool_decide (y.1 = id) && shadow_where raw converted y.2) (column_pairs w s).

Lemma length_select_fmap {A B} (g : A -> B) (f : B -> bool) (l : list A) :
  length (select_where f (g <$> l)) = length (select_where (λ x, f (g x)) l).
Proof.
  unfold select_where. induction l as [|x l IH]; [done|]. rewrite fmap_cons. cbn [List.filter].
  destruct (f (g x)); cbn [length]; by rewrite IH.
Qed.

Lemma update_shadow_ok xact c table column o w raw converted s n s' :
  cell_SourceTable (dec_Raw c) = table -> cell_SourceColumn (dec_Raw c) = column -> statement_of table column o w ->
  proves c = Some (raw, converted) -> update_shadow xact (cell_SourceRowID (dec_Raw c)) raw converted w s = Ok (n, s') ->
  n = length (hits (cell_SourceRowID (dec_Raw c)) raw converted w s) /\ s' = applied [c] [] s.
Proof.
  intros Ht Hc Hw Hp. unfold update_shadow, hits. destruct w as [col ord get set|]; cbn [column_pairs]; rewrite length_select_fmap;
    (destruct (forallb _ _); [|done]); intros [= <- <-]; (split; [done|]); unfold applied; rewrite app_nil_r, fill_one_executions, fill_one_events.
  - assert (table = "externalexecution" /\ col = column) as [-> ->] by by inversion Hw.
    assert (ord = o) as -> by by inversion Hw.
    rewrite (update_execution_column c column o get set raw converted), fill_event_other by (done || (rewrite Ht; done)). by destruct s.
  - assert (table = "externalexecutionevent" /\ column = "created_at") as [-> ->] by by inversion Hw.
    rewrite (update_event_column c raw converted), fill_execution_other by (done || (rewrite Ht; done)). by destruct s.
Qed.

(** What holds when a cell is stored: a row of provenance and, for a cell that
    is filled, one row with its wall clock. *)
Record stored_cell (xact : Z) (m : Manifest) (fill : bool) (c : CellDecision) (p : ProvenanceRow) (s : tsdb) : Prop := {
  sc_row : provenanceInsertArgs xact m c = Some p; sc_checks : provenance_checks p = true; sc_keys : provenance_keys p s = true;
  sc_fill : fill = true -> is_resolved (dec_Decision c) = true -> exists o w raw converted,
    statement_of (cell_SourceTable (dec_Raw c)) (cell_SourceColumn (dec_Raw c)) o w /\ proves c = Some (raw, converted)
    /\ length (hits (cell_SourceRowID (dec_Raw c)) raw converted w s) = 1%nat }.

Lemma provenance_statement xact m c p : provenanceInsertArgs xact m c = Some p -> provenance_checks p = true ->
  exists w, statement_of (cell_SourceTable (dec_Raw c)) (cell_SourceColumn (dec_Raw c)) (cell_ColumnOrdinal (dec_Raw c)) w.
Proof.
  unfold provenanceInsertArgs. destruct (cast_nullable cast_wall _) as [raw|]; simpl; [|done].
  destruct (cast_nullable cast_instant _) as [conv|]; simpl; [|done]. intros [= <-]. unfold provenance_checks. simpl.
  intros Hc. to_prop. by eapply ordinals_statement.
Qed.

Definition filled_cells (fill : gset string) (l : list CellDecision) : list CellDecision :=
  List.filter (λ c, bool_decide (decision_key c ∈ fill)) l.

Lemma hits_provenance id raw converted w s rows : hits id raw converted w (with_provenance rows s) = hits id raw converted w s.
Proof. by destruct w. Qed.

Lemma apply_cell_ok xact m fill c s u s' : apply_cell xact m fill c s = Ok (u, s') ->
  exists p, stored_cell xact m (bool_decide (decision_key c ∈ fill)) c p s /\ s' = applied (filled_cells fill [c]) [p] s.
Proof.
  unfold apply_cell, filled_cells. intros E. apply stx_bind_ok in E as ([] & s1 & E1 & E). unfold insert_provenance in E1.
  destruct (provenanceInsertArgs xact m c) as [p|] eqn:Ep; [|done]. destruct (provenance_checks p && provenance_keys p s) eqn:Ec; [|done].
  injection E1 as <-. apply andb_true_iff in Ec as [Hc Hk]. exists p.
  assert (with_provenance (Provenance s ++ [p]) s = applied [] [p] s) as Happ.
  { unfold applied, fill_executions, fill_events. simpl. by rewrite !list_fmap_id. }
  destruct (bool_decide (decision_key c ∈ fill)) eqn:Ef; simpl; rewrite Ef.
  2:{ injection E as _ <-. split; [by split|done]. }
  unfold applyTimestampShadowInTx in E. destruct (is_resolved (dec_Decision c)) eqn:Er; simpl in E.
  2:{ injection E as _ <-. split; [split; [done..|]; congruence|].
      assert (proves c = None) as Hn by (unfold proves; by rewrite Er). change [c] with ([] ++ [c]).
      change [p] with ([p] ++ []). by rewrite <- applied_app, (fill_unproven _ Hn). }
  destruct (provenance_statement _ _ _ _ Ep Hc) as [w Hw]. rewrite (statement_found _ _ _ Hw) in E.
  apply stx_bind_ok in E as (w' & s2 & E2 & E). injection E2 as <- <-.
  destruct (cell_RawValue (dec_Raw c)) as [v|] eqn:Ev; [|done]. destruct (dec_ConvertedValue c) as [i|] eqn:Ei; [|done].
  destruct (cast_wall v) as [raw|] eqn:Ew; [|done]. destruct (cast_instant i) as [converted|] eqn:Ecv; [|done].
  assert (proves c = Some (raw, converted)) as Hp by (unfold proves; by rewrite Er, Ev, Ei; simpl; rewrite Ew; simpl; rewrite Ecv).
  apply stx_bind_ok in E as (n & s3 & E3 & E). apply (update_shadow_ok _ _ _ _ _ _ _ _ _ _ _ eq_refl eq_refl Hw Hp) in E3 as [-> ->].
  apply slift_ok in E as [E ->]. apply unless_ok in E. to_prop. split.
  - split; [done..|]. intros _ _. exists (cell_ColumnOrdinal (dec_Raw c)), w, raw, converted. split; [done|]. split; [done|].
    by rewrite hits_provenance in E.
  - by rewrite Happ, applied_app.
Qed.

(** ** All cells *)

Lemma filled_cells_cons fill c l : filled_cells fill (c :: l) = filled_cells fill [c] ++ filled_cells fill l.
Proof. unfold filled_cells. simpl. by destruct (bool_decide _). Qed.

Definition inserted (xact : Z) (m : Manifest) (c : CellDecision) (p : ProvenanceRow) : Prop :=
  provenanceInsertArgs xact m c = Some p /\ provenance_checks p = true.

Lemma apply_cells_ok xact m fill l s u s' : apply_cells xact m fill l s = Ok (u, s') ->
  exists rows, Forall2 (inserted xact m) l rows /\ s' = applied (filled_cells fill l) rows s
    /\ forall c, c ∈ filled_cells fill l -> is_resolved (dec_Decision c) = true -> is_Some (proves c).
Proof.
  revert s. induction l as [|c l IH]; intros s E; cbn [apply_cells] in E.
  - injection E as _ <-. exists []. split; [constructor|]. split; [by rewrite applied_nil|]. by intros c ?%elem_of_nil.
  - apply stx_bind_ok in E as ([] & s1 & E1 & E). apply apply_cell_ok in E1 as (p & [Hr Hc Hk Hf] & ->).
    destruct (IH _ E) as (rows & Hrows & -> & Hp). exists (p :: rows). split; [by constructor|].
    rewrite (filled_cells_cons fill c l). split; [by rewrite applied_app|].
    intros d [Hd|Hd]%elem_of_app Hres; [|by apply Hp]. unfold filled_cells in Hd. simpl in Hd.
    destruct (bool_decide (decision_key c ∈ fill)); [|by apply elem_of_nil in Hd]. apply list_elem_of_singleton in Hd as ->.
    destruct (Hf eq_refl Hres) as (o & w & raw & converted & _ & -> & _). by eexists.
Qed.

(** The stored manifest after its two transitions. *)
Definition verified_row (env : ApplyEnv) (r : ManifestRow) : ManifestRow := to_verified (ap_VerifiedAt env) (to_applied (ap_AppliedAt env) r).

Definition final_state (env : ApplyEnv) (r : ManifestRow) (cells : list CellDecision) (rows : list ProvenanceRow) (s : tsdb) : tsdb :=
  with_manifests (Manifests s ++ [verified_row env r]) (applied cells rows s).

Lemma manifest_args_id m r : manifestInsertArgs m = Some r -> mr_ID r = man_ID m /\ mr_State r = StateApproved
  /\ mr_AppliedAt r = None /\ mr_VerifiedAt r = None.
Proof.
  unfold manifestInsertArgs. destruct (cast_instant (man_SnapshotStartedAt m)); simpl; [|done].
  destruct (cast_instant (man_SnapshotEndedAt m)); simpl; [|done]. destruct (cast_instant (man_ApprovedAt m)); simpl; [|done].
  by intros [= <-].
Qed.

(** Only the last row has the identifier. *)
Lemma advance_last id from to f l r s u s' : Manifests s = l ++ [r] -> mr_ID r = id -> mr_State r = from ->
  exists_where (λ x, bool_decide (mr_ID x = id)) l = false ->
  advance_manifest id from to f s = Ok (u, s') <-> lifecycle_shape (f r) = true /\ s' = with_manifests (l ++ [f r]) s.
Proof.
  intros Hl Hid Hst Hn. rewrite exists_where_false in Hn. unfold advance_manifest. rewrite Hl.
  set (hit := λ r, bool_decide (mr_ID r = id) && bool_decide (mr_State r = from)).
  assert (select_where hit (l ++ [r]) = [r]) as ->.
  { rewrite filter_app_bool, select_none; [|intros x Hx; unfold hit; by rewrite (Hn x Hx)]. unfold select_where, hit. simpl.
    by rewrite !bool_decide_eq_true_2. }
  assert (update_where hit f (l ++ [r]) = l ++ [f r]) as ->.
  { unfold update_where. rewrite fmap_app. f_equal; [|unfold hit; simpl; by rewrite !bool_decide_eq_true_2].
    rewrite <- (list_fmap_id l) at 2. apply list_fmap_ext. intros i x Hx%list_elem_of_lookup_2. unfold hit. by rewrite (Hn x Hx). }
  simpl. rewrite andb_true_r. destruct (lifecycle_shape (f r)); simpl; destruct u; split; try done.
  - by intros [= <-].
  - by intros [_ ->].
  - by intros [? _].
Qed.

Section application.
Context `{Crypto}.

Lemma apply_new_ok env m s rep s' : apply_new env m s = Ok (rep, s') ->
  exists fill r rows v, requireManifestSnapshotForApplyInTx (ap_Inspect env) m s = Ok fill /\ manifestInsertArgs m = Some r
    /\ manifest_checks r = true /\ manifest_keys r (Manifests s) = true /\ lifecycle_shape (verified_row env r) = true
    /\ Forall2 (inserted (ap_Xact env) m) (man_Cells m) rows
    /\ (forall c, c ∈ filled_cells fill (man_Cells m) -> is_resolved (dec_Decision c) = true -> is_Some (proves c))
    /\ s' = final_state env r (filled_cells fill (man_Cells m)) rows s
    /\ verifyTimestampManifestInTx (man_ID m) s' = Ok v
    /\ rep = timestampApplyReport m false false (set_count fill) (set_count fill) (ver_ProvenanceRows v).
Proof.
  unfold apply_new. intros E. apply stx_bind_ok in E as (fill & s1 & E1 & E). apply squery_ok in E1 as [Hfill ->].
  apply stx_bind_ok in E as ([] & s1 & E1 & E). unfold insert_manifest in E1.
  destruct (manifestInsertArgs m) as [r|] eqn:Er; [|done]. destruct (manifest_checks r && manifest_keys r (Manifests s)) eqn:Ec; [|done].
  injection E1 as <-. apply andb_true_iff in Ec as [Hc Hk]. destruct (manifest_args_id _ _ Er) as (Hid & Hst & _ & _).
  apply stx_bind_ok in E as ([] & s2 & E2 & E). apply apply_cells_ok in E2 as (rows & Hrows & -> & Hp).
  assert (exists_where (λ x, bool_decide (mr_ID x = man_ID m)) (Manifests s) = false) as Hfresh.
  { unfold manifest_keys in Hk. rewrite !andb_true_iff, negb_true_iff, Hid in Hk. tauto. }
  apply stx_bind_ok in E as ([] & s3 & E3 & E).
  apply (advance_last _ _ _ _ (Manifests s) r) in E3 as [_ ->]; [|done..].
  apply stx_bind_ok in E as ([] & s4 & E4 & E).
  apply (advance_last _ _ _ _ (Manifests s) (to_applied (ap_AppliedAt env) r)) in E4 as [Hl ->]; [|done..].
  apply stx_bind_ok in E as (v & s5 & E5 & E). apply squery_ok in E5 as [Hv ->]. injection E as <- <-.
  exists fill, r, rows, v. repeat (split; [done|]). done.
Qed.
End application.
