(* ===== verification/TimestampLedger.v ===== *)
(** * External execution timestamps: the ledger

    What an application does to the tables, when it can be repeated, and that
    the dry run tells the truth about it. *)
From S2P Require Import Prelude GoStrings GoTime Uuid TaskStore Transaction StepRedaction TimestampCanonical TimestampManifest TimestampGuarantees TimestampTables TimestampVerify TimestampReading TimestampApply TimestampEffects.
From Stdlib Require Import Ascii.
Open Scope list_scope.
#[local] Open Scope Z_scope.

(** ** Keys of cells *)

Lemma hex_byte_no_slash b r : no_char "/" (hex_byte b r) = no_char "/" r.
Proof. by destruct b. Qed.
Lemma uuid_string_no_slash u : no_char "/" (uuid_string u) = true.
Proof.
  unfold uuid_string, uuid_print. repeat first [rewrite hex_byte_no_slash | change (no_char "/" (dash ?r)) with (no_char "/" r)]. reflexivity.
Qed.

Lemma cell_key_inj t u c o t' u' c' o' : no_char "/" t = true -> no_char "/" t' = true -> no_char "/" c = true -> no_char "/" c' = true ->
  timestampCellKey t u c o = timestampCellKey t' u' c' o' -> t = t' /\ u = u' /\ c = c'.
Proof.
  intros Ht Ht' Hc Hc' E. unfold timestampCellKey in E.
  assert (forall a b : string, a +:+ "/" +:+ b = a +:+ String "/" b) as Hs by done. rewrite !Hs in E.
  apply split_at_inj in E as [-> E]; [|done|done]. apply split_at_inj in E as [E1 E]; [|apply uuid_string_no_slash..].
  apply uuid_string_inj in E1 as ->. by apply split_at_inj in E as [-> _].
Qed.

(** A table and a column of the allow list. *)
Definition listed (table column : string) : Prop := exists o, cellOrdinals table column = Some o.
Lemma listed_no_slash table column : listed table column -> no_char "/" table = true /\ no_char "/" column = true.
Proof. intros [o Ho]. unfold cellOrdinals in Ho. repeat case_bool_decide; subst; done. Qed.
Lemma listed_key_inj t u c o t' u' c' o' : listed t c -> listed t' c' -> timestampCellKey t u c o = timestampCellKey t' u' c' o' ->
  t = t' /\ u = u' /\ c = c'.
Proof. intros [? ?]%listed_no_slash [? ?]%listed_no_slash. by apply cell_key_inj. Qed.

Lemma cell_of_key_inj t u r x t' u' r' x' : listed t x.1.1 -> listed t' x'.1.1 ->
  current_key (cell_of t u r x) = current_key (cell_of t' u' r' x') -> t = t' /\ u = u' /\ x.1.1 = x'.1.1.
Proof. apply listed_key_inj. Qed.

(** ** The rows of the tables *)

Definition table_cells (s : tsdb) : list CurrentCell := (Executions s ≫= execution_current) ++ (event_current <$> Events s).
Lemma current_cells_perm s : readCurrentTimestampCellsInTx s ≡ₚ table_cells s.
Proof. apply stable_sort_perm. Qed.
Lemma tombstones_perm s : readTimestampDeletionTombstonesInTx s ≡ₚ tombstone_of <$> Tombstones s.
Proof. unfold readTimestampDeletionTombstonesInTx, order_rows. by rewrite stable_sort_perm. Qed.

(** A column of a row. *)
Inductive column_of (s : tsdb) : string -> uuid -> string -> Z -> pair -> option Z -> Prop :=
  | execution_column x c o p : x ∈ Executions s -> (c, o, p) ∈ execution_columns x ->
      column_of s "externalexecution" (et_ID x) c o p (p_instant (et_CreatedAt x))
  | event_column x : x ∈ Events s -> column_of s "externalexecutionevent" (ev_ID x) "created_at" 6 (ev_CreatedAt x) (p_instant (ev_CreatedAt x)).

Lemma elem_of_current s c : c ∈ readCurrentTimestampCellsInTx s <->
  exists table id column o p created, column_of s table id column o p created /\ c = cell_of table id created (column, o, p).
Proof.
  rewrite current_cells_perm. unfold table_cells. rewrite elem_of_app, list_elem_of_bind, list_elem_of_fmap. split.
  - intros [(x & Hc & Hx)|(x & -> & Hx)].
    + unfold execution_current in Hc. apply list_elem_of_fmap in Hc as ([[col o] p] & -> & Hc). do 6 eexists. split; [by eapply execution_column|done].
    + do 6 eexists. split; [by eapply event_column|done].
  - intros (table & id & column & o & p & created & [x c0 o0 p0 Hx Hc|x Hx] & ->).
    + left. exists x. split; [|done]. unfold execution_current. by apply (list_elem_of_fmap_2 (cell_of _ _ _)).
    + right. by exists x.
Qed.

Lemma execution_columns_listed x c o p : (c, o, p) ∈ execution_columns x -> cellOrdinals "externalexecution" c = Some o.
Proof.
  unfold execution_columns. rewrite !elem_of_cons. intros [E|[E|[E|[E|[E|E%elem_of_nil]]]]]; [..|done]; by injection E as -> -> ->.
Qed.
Lemma column_listed s table id c o p created : column_of s table id c o p created -> cellOrdinals table c = Some o.
Proof. intros [x c0 o0 p0 _ H|x _]; [by eapply execution_columns_listed|done]. Qed.

(** What the schema guarantees of the rows: their keys are distinct, tombstones
    are of listed cells, and no identifier is zero. *)
Record tables_ok (s : tsdb) : Prop := {
  to_executions : NoDup (et_ID <$> Executions s); to_events : NoDup (ev_ID <$> Events s);
  to_tombstones : NoDup ((λ t, (tr_SourceTable t, tr_SourceRowID t, tr_SourceColumn t)) <$> Tombstones s);
  to_listed t : t ∈ Tombstones s -> listed (tr_SourceTable t) (tr_SourceColumn t) }.

Lemma NoDup_fmap_inj_on {A B} (f : A -> B) l : NoDup l -> (forall x y, x ∈ l -> y ∈ l -> f x = f y -> x = y) -> NoDup (f <$> l).
Proof. intros Hl Hf. apply NoDup_fmap_2_strong; [|done]. intros x y Hx Hy. by apply Hf. Qed.

Lemma execution_current_keys x : NoDup (current_key <$> execution_current x).
Proof.
  unfold execution_current. rewrite <- list_fmap_compose. apply NoDup_fmap_2_strong.
  - intros [[c o] p] [[c' o'] p'] Hx Hy E. simpl in E. pose proof (execution_columns_listed _ _ _ _ Hx) as H1.
    pose proof (execution_columns_listed _ _ _ _ Hy) as H2. apply cell_of_key_inj in E as (_ & _ & E); [|by eexists..]. simpl in E. subst c'.
    unfold execution_columns in Hx, Hy. rewrite !elem_of_cons in Hx, Hy.
    destruct Hx as [E|[E|[E|[E|[E|E%elem_of_nil]]]]]; [..|done]; injection E as -> -> ->;
    (destruct Hy as [E|[E|[E|[E|[E|E%elem_of_nil]]]]]; [..|done]; try (injection E as E; discriminate E); by rewrite E).
  - apply (NoDup_fmap_1 (fst ∘ fst)). unfold execution_columns. simpl. apply (bool_decide_unpack _). by vm_compute.
Qed.

Lemma distinct_tables s : tables_ok s -> distinct_cells s.
Proof.
  intros [He Hv Ht Hl]. split.
  - rewrite current_cells_perm. unfold table_cells. rewrite fmap_app. apply NoDup_app. split; [|split].
    + induction (Executions s) as [|x l IH]; [constructor|]. rewrite bind_cons, fmap_app. cbn [fmap list_fmap] in He.
      apply NoDup_cons in He as [Hx He]. apply NoDup_app. split; [apply execution_current_keys|]. split; [|by apply IH].
      intros k (c & -> & Hc)%list_elem_of_fmap (d & Ed & (y & Hd & Hy)%list_elem_of_bind)%list_elem_of_fmap.
      unfold execution_current in Hc, Hd. apply list_elem_of_fmap in Hc as ([[c1 o1] p1] & -> & Hc). apply list_elem_of_fmap in Hd as ([[c2 o2] p2] & -> & Hd).
      apply cell_of_key_inj in Ed as (_ & E & _); [|eexists; by eapply execution_columns_listed..].
      simpl in E. apply Hx. rewrite E. by apply list_elem_of_fmap_2.
    + intros k (c & -> & (x & Hc & Hx)%list_elem_of_bind)%list_elem_of_fmap (d & Ed & (y & -> & Hy)%list_elem_of_fmap)%list_elem_of_fmap.
      unfold execution_current in Hc. apply list_elem_of_fmap in Hc as ([[c1 o1] p1] & -> & Hc).
      apply cell_of_key_inj in Ed as (E & _); [done|eexists; by eapply execution_columns_listed|by eexists].
    + rewrite <- list_fmap_compose. apply (NoDup_fmap_1 ev_ID) in Hv as Hv1. apply NoDup_fmap_2_strong; [|done].
      intros x y Hx Hy E. apply cell_of_key_inj in E as (_ & E & _); [|by eexists..]. by eapply (NoDup_fmap_elem ev_ID).
  - rewrite tombstones_perm, <- list_fmap_compose. apply NoDup_fmap_2_strong; [|by eapply NoDup_fmap_1].
    intros x y Hx Hy E. apply listed_key_inj in E as (E1 & E2 & E3); [|by apply Hl..].
    apply (NoDup_fmap_elem _ _ _ _ Ht Hx Hy). simpl in *. congruence.
Qed.

(** ** What is filled *)

Definition fill_all (cells : list CellDecision) (table : string) (id : uuid) (column : string) (p : pair) : pair :=
  foldl (λ p c, fill_with c table id column p) p cells.

Lemma fill_all_cons c cells table id column p :
  fill_all (c :: cells) table id column p = fill_all cells table id column (fill_with c table id column p).
Proof. done. Qed.

Lemma fill_executions_columns cells x : fill_executions cells x =
  let f := fill_all cells "externalexecution" (et_ID x) in
  {| et_ID := et_ID x; et_CreatedAt := f "created_at" (et_CreatedAt x); et_UpdatedAt := f "updated_at" (et_UpdatedAt x);
     et_StartedAt := f "started_at" (et_StartedAt x); et_CompletedAt := f "completed_at" (et_CompletedAt x);
     et_CallbackDeadlineAt := f "callback_deadline_at" (et_CallbackDeadlineAt x) |}.
Proof. revert x. induction cells as [|c cells IH]; intros x; [by destruct x|]. simpl. by rewrite IH. Qed.
Lemma fill_events_columns cells x : fill_events cells x =
  {| ev_ID := ev_ID x; ev_CreatedAt := fill_all cells "externalexecutionevent" (ev_ID x) "created_at" (ev_CreatedAt x) |}.
Proof. revert x. induction cells as [|c cells IH]; intros x; [by destruct x|]. simpl. by rewrite IH. Qed.

(** A pair keeps its wall clock, and its instant unless it had none and a
    resolved cell proves one. *)
Definition proven_by (cells : list CellDecision) (table : string) (id : uuid) (column : string) (raw converted : Z) : Prop :=
  exists c, c ∈ cells /\ cell_at c table id column = true /\ proves c = Some (raw, converted).

Inductive filled (cells : list CellDecision) (table : string) (id : uuid) (column : string) (p : pair) : pair -> Prop :=
  | filled_not : filled cells table id column p p
  | filled_now raw converted : p = {| p_raw := Some raw; p_instant := None |} -> proven_by cells table id column raw converted ->
      filled cells table id column p {| p_raw := Some raw; p_instant := Some converted |}.

Lemma fill_with_cases c table id column p : fill_with c table id column p = p
  \/ exists raw converted, p = {| p_raw := Some raw; p_instant := None |} /\ cell_at c table id column = true
     /\ proves c = Some (raw, converted) /\ fill_with c table id column p = {| p_raw := Some raw; p_instant := Some converted |}.
Proof.
  unfold fill_with. destruct (proves c) as [[raw converted]|] eqn:Hp; [|by left].
  destruct (cell_at c table id column && _) eqn:E; [|by left]. apply andb_true_iff in E as [Hat [Hr Hi]%andb_true_iff].
  apply bool_decide_eq_true in Hr. apply orb_true_iff in Hi as [Hi|Hi]; apply bool_decide_eq_true in Hi.
  - right. exists raw, converted. destruct p; simpl in *; by subst.
  - left. destruct p; simpl in *; by subst.
Qed.

(** A pair with an instant stays. *)
Lemma fill_with_instant c table id column p i : p_instant p = Some i -> fill_with c table id column p = p.
Proof. intros Hi. destruct (fill_with_cases c table id column p) as [?|(raw & converted & -> & _)]; done. Qed.
Lemma fill_all_instant cells table id column p i : p_instant p = Some i -> fill_all cells table id column p = p.
Proof.
  intros Hi. induction cells as [|c cells IH]; [done|]. rewrite fill_all_cons. by rewrite (fill_with_instant c _ _ _ _ _ Hi).
Qed.

Lemma fill_all_filled cells table id column p : filled cells table id column p (fill_all cells table id column p).
Proof.
  revert p. induction cells as [|c cells IH]; intros p; [constructor|]. rewrite fill_all_cons.
  destruct (fill_with_cases c table id column p) as [->|(raw & converted & -> & Hat & Hp & ->)].
  - destruct (IH p) as [|raw converted -> (d & Hd & Hat & Hp)]; [constructor|]. apply filled_now; [done|]. exists d. split; [by right|done].
  - rewrite (fill_all_instant _ _ _ _ _ converted) by done.
    apply filled_now; [done|]. exists c. split; [by left|done].
Qed.

Lemma filled_raw cells table id column p q : filled cells table id column p q -> p_raw q = p_raw p.
Proof. by intros [|raw converted -> _]. Qed.

(** A cell that is filled has its instant afterwards. *)
Lemma fill_all_done cells table id column raw converted c : c ∈ cells -> cell_at c table id column = true ->
  proves c = Some (raw, converted) -> (forall d, d ∈ cells -> cell_at d table id column = true -> d = c) ->
  fill_all cells table id column {| p_raw := Some raw; p_instant := None |} = {| p_raw := Some raw; p_instant := Some converted |}.
Proof.
  intros Hc Hat Hp. induction cells as [|d cells IH]; intros Hu; [by apply elem_of_nil in Hc|]. rewrite fill_all_cons.
  destruct (cell_at d table id column) eqn:Hd.
  - pose proof (Hu d ltac:(by left) Hd) as ->. unfold fill_with. rewrite Hp, Hat. unfold shadow_where. simpl.
    rewrite bool_decide_eq_true_2 by done. simpl. by apply fill_all_instant with converted.
  - rewrite fill_with_not_at by done. apply IH; [|intros e He; apply Hu; by right].
    apply elem_of_cons in Hc as [->|Hc]; [congruence|done].
Qed.

(** ** What is stored is read back *)

(** The only text that may be lost is a zone of blanks. *)
Definition normal_zone (c : CellDecision) : CellDecision :=
  {| dec_Raw := dec_Raw c; dec_Decision := dec_Decision c;
     dec_SourceZone := if blank_field (dec_SourceZone c) then "" else dec_SourceZone c;
     dec_SourceOffsetSeconds := dec_SourceOffsetSeconds c; dec_ConvertedValue := dec_ConvertedValue c;
     dec_EvidenceReference := dec_EvidenceReference c; dec_EvidenceChecksum := dec_EvidenceChecksum c;
     dec_ApprovingIdentity := dec_ApprovingIdentity c; dec_ConversionExpressionVersion := dec_ConversionExpressionVersion c |}.

Lemma normal_zone_id c : dec_SourceZone c = "" \/ TrimSpace (dec_SourceZone c) <> "" -> normal_zone c = c.
Proof.
  intros Hz. unfold normal_zone, blank_field. destruct c as [raw d z o v r s a e]; simpl in *. f_equal.
  case_bool_decide as E; [|done]. destruct Hz as [-> |Hz]; done.
Qed.
Lemma decision_key_normal c : decision_key (normal_zone c) = decision_key c. Proof. done. Qed.

Lemma nullable_text value : value = "" \/ TrimSpace value <> "" -> dereferenceTimestampText (nullableTimestampText value) = value.
Proof.
  intros Hv. unfold nullableTimestampText, blank_field. case_bool_decide as E; simpl; [|done]. destruct Hv as [-> |Hv]; done.
Qed.
Lemma nullable_zone value : dereferenceTimestampText (nullableTimestampText value) = if blank_field value then "" else value.
Proof. unfold nullableTimestampText. by destruct (blank_field value). Qed.

Lemma prefix_cons a p x : String.prefix (String a p) x = true -> exists r, x = String a r.
Proof. destruct x as [|b x]; [done|]. cbn [String.prefix]. destruct (Ascii.ascii_dec a b) as [<-|]; [by eexists|done]. Qed.
Lemma checksum_not_blank x : checksumPattern x = true -> TrimSpace x <> "".
Proof.
  unfold checksumPattern. intros [(r & ->)%prefix_cons _]%andb_true_iff E.
  assert (trim_left (String "s" r) = String "s" r) as Hl by (destruct r as [|b [|c r]]; reflexivity).
  unfold TrimSpace in E. rewrite Hl in E. cbn [trim_right] in E. unfold blank in E. by rewrite Hl, bool_decide_eq_false_2 in E.
Qed.

(** The texts of a valid decision are empty or not blank, but for the zone. *)
Lemma decision_texts c : decision_ok c ->
  (dec_EvidenceReference c = "" \/ TrimSpace (dec_EvidenceReference c) <> "")
  /\ (dec_EvidenceChecksum c = "" \/ TrimSpace (dec_EvidenceChecksum c) <> "")
  /\ (dec_ApprovingIdentity c = "" \/ TrimSpace (dec_ApprovingIdentity c) <> "").
Proof.
  assert (no_conversion c = true -> (dec_EvidenceReference c = "" /\ dec_EvidenceChecksum c = "" /\ dec_ApprovingIdentity c = "")) as Hn.
  { unfold no_conversion. rewrite bool_decide_eq_true. tauto. }
  intros [_ _ (-> & -> & ->)%Hn|raw _ _ (-> & -> & ->)%Hn|raw o t _ [_ _ _ He Hc Ha _ _ _ _]]; [by auto..|].
  apply checksum_not_blank in Hc. auto.
Qed.

Lemma inserted_decision xact m c p : inserted xact m c p -> decision_ok c -> decision_of p = normal_zone c.
Proof.
  intros [Hi Hc] Hd. destruct (decision_texts _ Hd) as (H1 & H2 & H3). unfold provenanceInsertArgs in Hi.
  destruct (cast_nullable cast_wall _) as [raw|] eqn:Er; simpl in Hi; [|done].
  destruct (cast_nullable cast_instant _) as [conv|] eqn:Ec; simpl in Hi; [|done]. injection Hi as <-.
  apply (cast_nullable_text cast_wall format_wall) in Er; [|by intros v t [_ ?]%cast_wall_iff].
  apply (cast_nullable_text cast_instant FormatInstant) in Ec; [|by intros v t [_ ?]%cast_instant_iff].
  unfold provenance_checks in Hc. simpl in Hc. to_prop.
  match goal with H : cellOrdinals _ _ = _ |- _ => apply cellOrdinals_cases in H as Ho end.
  unfold decision_of, normal_zone, raw_text, instant_text. simpl.
  rewrite Er, Ec, nullable_zone, (nullable_text (dec_EvidenceReference c)), (nullable_text (dec_EvidenceChecksum c)),
    (nullable_text (dec_ApprovingIdentity c)) by assumption. f_equal.
  rewrite Z.mod_small by (destruct Ho as [[_ ?]|[_ ->]]; lia). by destruct (dec_Raw c).
Qed.

(** What the schema guarantees of the ledger. *)
Record ledger_ok (s : tsdb) : Prop := {
  lo_manifests : NoDup (mr_ID <$> Manifests s);
  lo_provenance p : p ∈ Provenance s -> exists r, r ∈ Manifests s /\ mr_ID r = pr_ManifestID p }.

Lemma provenance_args_id xact m c p : inserted xact m c p -> pr_ManifestID p = man_ID m /\ pr_Xmin p = xact.
Proof.
  intros [Hi _]. unfold provenanceInsertArgs in Hi. destruct (cast_nullable cast_wall _); simpl in Hi; [|done].
  destruct (cast_nullable cast_instant _); simpl in Hi; [|done]. by injection Hi as <-.
Qed.

Lemma inserted_rows xact m l rows : Forall2 (inserted xact m) l rows -> Forall decision_ok l ->
  decision_of <$> rows = normal_zone <$> l /\ Forall (λ p, pr_ManifestID p = man_ID m) rows.
Proof.
  induction 1 as [|c p l rows Hi _ IH]; intros Hl; [done|]. apply Forall_cons in Hl as [Hc Hl]. destruct (IH Hl) as [E Hf]. split.
  - simpl. f_equal; [by eapply inserted_decision|exact E].
  - constructor; [|done]. by eapply provenance_args_id.
Qed.

Lemma stored_cells_new env m r cells rows s xact : ledger_ok s -> manifest_keys r (Manifests s) = true -> mr_ID r = man_ID m ->
  Forall2 (inserted xact m) (man_Cells m) rows -> Forall decision_ok (man_Cells m) ->
  stored_cells (man_ID m) (final_state env r cells rows s) ≡ₚ normal_zone <$> man_Cells m.
Proof.
  intros Hl Hk Hid Hrows Hd. destruct (inserted_rows _ _ _ _ Hrows Hd) as [E Hf]. unfold stored_cells, order_rows. rewrite stable_sort_perm.
  unfold final_state. cbn [Provenance with_manifests applied]. rewrite filter_app_bool, select_none, filter_all_bool; [by rewrite <- E| |].
  - intros p Hp. rewrite Forall_forall in Hf. rewrite bool_decide_eq_true_2; [done|]. by apply Hf.
  - intros p Hp. apply bool_decide_eq_false. intros E'. destruct (lo_provenance _ Hl p Hp) as (x & Hx & Ex).
    unfold manifest_keys in Hk. rewrite !andb_true_iff, negb_true_iff, exists_where_false in Hk. destruct Hk as ((Hk & _) & _).
    specialize (Hk x Hx). apply bool_decide_eq_false in Hk. congruence.
Qed.

Lemma nullable_instant v (o : option Z) : cast_instant v = o -> forall t, o = Some t -> FormatInstant t = v.
Proof. intros <- t [_ ->]%cast_instant_iff. done. Qed.

(** The stored row has the texts of the manifest. *)
Lemma stored_manifest env m r cells : manifestInsertArgs m = Some r ->
  manifest_of (verified_row env r) cells = with_state_and_cells StateVerified cells m.
Proof.
  unfold manifestInsertArgs. destruct (cast_instant (man_SnapshotStartedAt m)) as [a|] eqn:Ea; simpl; [|done].
  destruct (cast_instant (man_SnapshotEndedAt m)) as [b|] eqn:Eb; simpl; [|done].
  destruct (cast_instant (man_ApprovedAt m)) as [c|] eqn:Ec; simpl; [|done]. intros [= <-].
  unfold manifest_of, with_state_and_cells. cbn [verified_row to_verified to_applied with_state mr_ID mr_SupersedesManifestID
    mr_DatabaseIdentityChecksum mr_SourceSchemaVersion mr_SnapshotStartedAt mr_SnapshotEndedAt mr_ExecutionCount mr_EventCount
    mr_RawCellCount mr_PopulatedCellCount mr_RawCellChecksum mr_EvidenceBundleReference mr_EvidenceBundleChecksum mr_ToolVersion
    mr_ConversionExpressionVersion mr_AuthorIdentity mr_ReviewerIdentity mr_ApprovedAt mr_TargetReleaseCommit mr_TargetImageDigest
    mr_State mr_DecisionContentChecksum]. by rewrite (nullable_instant _ _ Ea _ eq_refl), (nullable_instant _ _ Eb _ eq_refl), (nullable_instant _ _ Ec _ eq_refl).
Qed.

Lemma read_new_manifest env m r cells rows s : manifestInsertArgs m = Some r -> manifest_keys r (Manifests s) = true ->
  readStoredTimestampManifestInTx (man_ID m) (final_state env r cells rows s)
  = Ok (with_state_and_cells StateVerified (stored_cells (man_ID m) (final_state env r cells rows s)) m, StateVerified).
Proof.
  intros Hr Hk. destruct (manifest_args_id _ _ Hr) as (Hid & _). unfold readStoredTimestampManifestInTx, manifest_row.
  cbn [Manifests final_state with_manifests]. rewrite filter_app_bool, select_none.
  - assert (select_where (λ x, bool_decide (mr_ID x = man_ID m)) [verified_row env r] = [verified_row env r]) as ->.
    { unfold select_where. cbn [List.filter]. by rewrite bool_decide_eq_true_2. }
    simpl. f_equal. f_equal. by apply stored_manifest.
  - intros x Hx. unfold manifest_keys in Hk. rewrite !andb_true_iff, negb_true_iff, exists_where_false in Hk. destruct Hk as ((Hk & _) & _).
    rewrite <- Hid. by apply Hk.
Qed.

(** ** What an application does *)

Definition same_rows (s s' : tsdb) : Prop :=
  et_ID <$> Executions s' = et_ID <$> Executions s /\ ev_ID <$> Events s' = ev_ID <$> Events s
  /\ Catalogs s' = Catalogs s /\ Tombstones s' = Tombstones s /\ Expand s' = Expand s.

Lemma final_same_rows env r cells rows s : same_rows s (final_state env r cells rows s).
Proof.
  unfold same_rows, final_state. cbn [Catalogs Executions Events Tombstones Expand with_manifests applied]. rewrite <- !list_fmap_compose.
  split; [|split; [|done]]; apply list_fmap_ext; intros i x _; simpl; [by rewrite fill_executions_columns|by rewrite fill_events_columns].
Qed.
Lemma same_rows_tables s s' : same_rows s s' -> tables_ok s -> tables_ok s'.
Proof. intros (He & Hv & _ & Ht & _) [H1 H2 H3 H4]. split; [by rewrite He|by rewrite Hv|by rewrite Ht|]. by rewrite Ht. Qed.

(** Every column keeps its wall clock and its instant unless that is filled. *)
Lemma final_columns env r cells rows s table id column o p created : column_of s table id column o p created ->
  exists q created', column_of (final_state env r cells rows s) table id column o q created' /\ filled cells table id column p q.
Proof.
  intros [x c0 o0 p0 Hx Hc|x Hx].
  - assert (fill_executions cells x ∈ Executions (final_state env r cells rows s)) as Hx'
      by (unfold final_state; cbn [Executions with_manifests applied]; by apply list_elem_of_fmap_2).
    exists (fill_all cells "externalexecution" (et_ID x) c0 p0). eexists. split; [|apply fill_all_filled].
    assert (et_ID x = et_ID (fill_executions cells x)) as E by (by rewrite fill_executions_columns).
    rewrite E at 1. apply execution_column; [done|]. rewrite fill_executions_columns. unfold execution_columns in Hc |- *.
    rewrite !elem_of_cons in Hc |- *. simpl. destruct Hc as [Hc|[Hc|[Hc|[Hc|[Hc|Hc%elem_of_nil]]]]]; [..|done]; injection Hc as -> -> ->; auto 6.
  - assert (fill_events cells x ∈ Events (final_state env r cells rows s)) as Hx'
      by (unfold final_state; cbn [Events with_manifests applied]; by apply list_elem_of_fmap_2).
    exists (fill_all cells "externalexecutionevent" (ev_ID x) "created_at" (ev_CreatedAt x)). eexists. split; [|apply fill_all_filled].
    pose proof (event_column _ _ Hx') as H. by rewrite fill_events_columns in H.
Qed.

Lemma filled_weaken cells cells' table id column p q : (forall c, c ∈ cells -> c ∈ cells') ->
  filled cells table id column p q -> filled cells' table id column p q.
Proof. intros Hs [|raw converted -> (c & Hc & Hat & Hp)]; [constructor|]. apply filled_now; [done|]. exists c. auto. Qed.
Lemma filled_cells_elem fill l c : c ∈ filled_cells fill l -> c ∈ l.
Proof. unfold filled_cells. intros Hc. rewrite list_elem_of_In, filter_In, <- list_elem_of_In in Hc. by destruct Hc. Qed.

(** A cell proves the instant that its wall clock and offset mean. *)
Lemma proves_offset c raw converted : decision_ok c -> proves c = Some (raw, converted) ->
  cell_RawValue (dec_Raw c) = Some (format_wall raw) /\ dec_ConvertedValue c = Some (FormatInstant converted)
  /\ exists o, dec_SourceOffsetSeconds c = Some o /\ -64800 <= o <= 64800 /\ raw = converted + o * 1000000000.
Proof.
  unfold proves. intros Hd. destruct (is_resolved (dec_Decision c)) eqn:Hr; [|done].
  destruct Hd as [E|? E|v o t _ [Hraw Ho Hv _ _ _ Hrange Hl Hw Hwl]]; [by rewrite E in Hr..|]. rewrite Hraw, Hv. simpl.
  destruct (cast_wall v) as [u|] eqn:Eu; simpl; [|done]. destruct (cast_instant (FormatInstant t)) as [i|] eqn:Ei; simpl; [|done].
  intros [= <- <-]. apply cast_wall_iff in Eu as [[Hlu _] Eu]. apply cast_instant_iff in Ei as [[Hli _] Ei].
  apply FormatInstant_inj in Ei as <-; [|done..]. rewrite Hw in Eu. apply format_wall_inj in Eu as <-; [|done..].
  split; [by rewrite Hw|]. split; [done|]. by exists o.
Qed.
