(* ===== verification/TimestampInspection.v ===== *)
(** * External execution timestamps: what an inspection drafts

    A draft is a valid manifest of all cells of the tables, and validates
    against the tables it was taken from. *)
From S2P Require Import Prelude GoStrings GoTime Uuid TaskStore Transaction StepRedaction TimestampCanonical TimestampManifest TimestampGuarantees TimestampTables TimestampVerify TimestampReading TimestampApply TimestampEffects TimestampLedger.
From Stdlib Require Import Ascii.
Open Scope list_scope.
#[local] Open Scope Z_scope.

(** ** The rows that are read *)

Section inspection.
Context `{Crypto}.

(** A row with the checksum that it has. *)
Definition inspected (c d : RawCell) : Prop :=
  exists sum, ComputeRawCellChecksum c = Ok sum /\ d = with_raw_checksum sum c.

Lemma inspect_rows_ok l k : inspect_rows l = Ok k -> Forall2 inspected l k.
Proof.
  revert k. induction l as [|c l IH]; intros k E; simpl in E; read_inv; [constructor|]. unfold inspect_row in H0. read_inv.
  destruct (known_table _); [|done]. read_inv. constructor; [by eexists|]. by apply IH.
Qed.

Lemma inspected_checksum c d : inspected c d -> ComputeRawCellChecksum d = Ok (cell_RawCellChecksum d).
Proof. intros (sum & Hs & ->). exact Hs. Qed.
Lemma inspected_key c d : inspected c d -> raw_cell_key d = raw_cell_key c.
Proof. by intros (sum & _ & ->). Qed.

Lemma checksum_key c sum : ComputeRawCellChecksum c = Ok sum -> exists k, rawKey c = Ok k.
Proof. unfold ComputeRawCellChecksum, CanonicalRawCell. destruct (rawKey c) as [k|]; [by exists k|done]. Qed.

Lemma checksum_ok c sum : hex_digests -> ComputeRawCellChecksum c = Ok sum -> checksumPattern sum = true.
Proof.
  intros Hx. unfold ComputeRawCellChecksum. destruct (CanonicalRawCell c); [|done]. intros [= <-]. by apply checksum_format.
Qed.

(** A row of the tables has the key of its table, identifier and ordinal. *)
Lemma column_raw_key s table id column o p created k : column_of s table id column o p created ->
  rawKey (raw_row (cell_of table id created (column, o, p))) = Ok k -> k = row_key table id o.
Proof.
  intros Hc%column_listed. unfold rawKey, raw_row, cell_of. simpl.
  assert (lower_name table = table /\ cellOrdinals (lower_name table) (lower_name column) = Some o) as [-> Ho].
  { unfold cellOrdinals in Hc. repeat case_bool_decide; subst; by simplify_eq. }
  rewrite Ho. apply cellOrdinals_cases in Hc. rewrite Z.mod_small by (destruct Hc as [[_ ?]|[_ ->]]; lia).
  destruct (negb _); [done|]. rewrite bool_decide_eq_true_2 by done. simpl. destruct (is_nil id); [done|]. destruct (negb _); [done|].
  by intros [= <-].
Qed.

(** ** Its cells are decided by their values *)

Lemma undecided_ok d : hex_digests -> ComputeRawCellChecksum d = Ok (cell_RawCellChecksum d) -> cell_ok (undecided d).
Proof.
  intros Hx Hs. destruct (checksum_key _ _ Hs) as [k Hk]. split.
  - exists k. unfold cell_key. simpl. by rewrite Hk.
  - exact Hs.
  - simpl. by eapply checksum_ok.
  - done.
  - destruct (cell_RawValue d) as [v|] eqn:E.
    + apply (unresolved_ok _ v); unfold undecided; simpl; rewrite ?E; done.
    + apply null_ok; unfold undecided; simpl; rewrite ?E; done.
Qed.

Lemma source_ids_snoc table l c : source_ids table (l ++ [c]) =
  if bool_decide (cell_SourceTable c = table) then add_seen (source_ids table l) (cell_SourceRowID c) else source_ids table l.
Proof. unfold source_ids. by rewrite foldl_snoc. Qed.
Lemma source_ids_NoDup table l : NoDup (source_ids table l).
Proof.
  induction l as [|c l IH] using rev_ind; [constructor|]. rewrite source_ids_snoc. case_bool_decide; [|done].
  unfold add_seen. destruct (contains _ _) eqn:E; [done|]. apply contains_false in E. apply NoDup_app. split; [done|]. split; [|apply NoDup_singleton].
  by intros u Hu ->%list_elem_of_singleton.
Qed.
Lemma elem_of_source_ids table l u : u ∈ source_ids table l <-> exists c, c ∈ l /\ cell_SourceTable c = table /\ cell_SourceRowID c = u.
Proof.
  induction l as [|c l IH] using rev_ind; [split; [by intros ?%elem_of_nil|by intros (c & ?%elem_of_nil & _)]|].
  rewrite source_ids_snoc. setoid_rewrite elem_of_app. setoid_rewrite list_elem_of_singleton.
  assert (u ∈ add_seen (source_ids table l) (cell_SourceRowID c) <-> u ∈ source_ids table l \/ u = cell_SourceRowID c) as Ha.
  { unfold add_seen. destruct (contains _ _) eqn:E; [|by rewrite elem_of_app, list_elem_of_singleton]. apply contains_true in E. naive_solver. }
  case_bool_decide as Ht; [rewrite Ha|]; rewrite IH; naive_solver.
Qed.

(** ** The keys of the draft *)

Inductive row_cell (s : tsdb) : CurrentCell -> rawCellKey -> Prop :=
  | row_cell_of table id column o p created : column_of s table id column o p created ->
      row_cell s (cell_of table id created (column, o, p)) (row_key table id o).

Lemma inspected_row s c d : c ∈ readCurrentTimestampCellsInTx s -> inspected (raw_row c) d ->
  exists k, cell_key (undecided d) = Some k /\ row_cell s c k.
Proof.
  intros (table & id & column & o & p & created & Hc & ->)%elem_of_current (sum & Hs & ->). destruct (checksum_key _ _ Hs) as [k Hk].
  exists k. split.
  - unfold cell_key. simpl. change (rawKey (with_raw_checksum sum ?c)) with (rawKey c). by rewrite Hk.
  - apply (column_raw_key _ _ _ _ _ _ _ _ Hc) in Hk as ->. by constructor.
Qed.

Lemma inspected_keys s l cells : (forall c, c ∈ l -> c ∈ readCurrentTimestampCellsInTx s) -> Forall2 inspected (raw_row <$> l) cells ->
  Forall2 (row_cell s) l (keys (undecided <$> cells)).
Proof.
  revert cells. induction l as [|c l IH]; intros cells Hs Hf; simpl in Hf; apply Forall2_nil_inv_l in Hf || apply Forall2_cons_inv_l in Hf.
  - subst. constructor.
  - destruct Hf as (d & cells' & Hd & Hf & ->). destruct (inspected_row s c d (Hs c ltac:(by left)) Hd) as (k & Hk & Hr).
    rewrite fmap_cons, keys_cons, Hk. constructor; [done|]. apply IH; [|done]. intros e He. apply Hs. by right.
Qed.

Lemma ordinal_column table c c' o : cellOrdinals table c = Some o -> cellOrdinals table c' = Some o -> c = c'.
Proof. unfold cellOrdinals. intros. repeat case_bool_decide; by simplify_eq. Qed.

Lemma row_cell_key s c c' k : row_cell s c k -> row_cell s c' k -> current_key c = current_key c'.
Proof.
  intros [table id column o p created Hc%column_listed] Hr. remember (row_key table id o) as k' eqn:Ek.
  destruct Hr as [t' id' column' o' p' created' Hc'%column_listed]. apply row_key_inj in Ek as (-> & -> & ->).
  by rewrite (ordinal_column _ _ _ _ Hc Hc').
Qed.

Lemma NoDup_Forall2 {A B C} (R : A -> B -> Prop) (f : A -> C) l k : (forall x x' y, R x y -> R x' y -> f x = f x') ->
  Forall2 R l k -> NoDup (f <$> l) -> NoDup k.
Proof.
  intros Hf. induction 1 as [|x y l k Hr Hl IH]; [constructor|]. rewrite fmap_cons, !NoDup_cons. intros [Hx Hnd]. split; [|by apply IH].
  intros Hy. apply Hx. apply list_elem_of_lookup in Hy as [i Hi]. destruct (Forall2_lookup_r _ _ _ _ _ Hl Hi) as (x' & Hx' & Hr').
  rewrite (Hf _ _ _ Hr Hr'). by apply list_elem_of_fmap_2, list_elem_of_lookup_2 with i.
Qed.

Lemma execution_ordinal x o : 1 <= o <= 5 -> exists c p, (c, o, p) ∈ execution_columns x.
Proof.
  intros Ho. assert (o = 1 \/ o = 2 \/ o = 3 \/ o = 4 \/ o = 5) as Hcase by lia. unfold execution_columns.
  destruct Hcase as [-> |[-> |[-> |[-> | ->]]]]; do 2 eexists; rewrite !elem_of_cons; eauto 8.
Qed.

Lemma elem_of_row_keys s l cells k : l ≡ₚ readCurrentTimestampCellsInTx s -> Forall2 (row_cell s) l cells ->
  k ∈ cells <-> (exists x o, x ∈ Executions s /\ 1 <= o <= 5 /\ k = row_key execution_table (et_ID x) o)
             \/ (exists x, x ∈ Events s /\ k = row_key event_table (ev_ID x) 6).
Proof.
  intros Hl Hf. split.
  - intros [i Hi]%list_elem_of_lookup. destruct (Forall2_lookup_r _ _ _ _ _ Hf Hi) as (c & _ & Hr).
    destruct Hr as [table id column o p created [x c0 o0 p0 Hx Hc|x Hx]].
    + left. exists x, o0. split; [done|]. split; [|done]. apply execution_columns_listed, cellOrdinals_cases in Hc as [[_ ?]|[E _]]; done.
    + right. by exists x.
  - intros Hk. assert (exists table id column o p created, column_of s table id column o p created /\ k = row_key table id o)
      as (table & id & column & o & p & created & Hc & ->).
    { destruct Hk as [(x & o & Hx & Ho & ->)|(x & Hx & ->)].
      - destruct (execution_ordinal x o Ho) as (c & p & Hc). do 6 eexists. split; [by apply (execution_column s x c o p)|done].
      - do 6 eexists. split; [by apply event_column|done]. }
    assert (cell_of table id created (column, o, p) ∈ l) as Hin by (rewrite Hl; apply elem_of_current; by do 6 eexists).
    apply list_elem_of_lookup in Hin as [i Hi]. destruct (Forall2_lookup_l _ _ _ _ _ Hf Hi) as (k & Hk' & Hr).
    apply list_elem_of_lookup_2 with i. remember (cell_of table id created (column, o, p)) as y eqn:Ey.
    destruct Hr as [t' id' column' o' p' created' Hc']. unfold cell_of in Ey. simpl in Ey. by injection Ey as -> -> _ -> _ _ _.
Qed.

(** The identifiers of a draft are those of the tables. *)
Lemma elem_of_table_ids s table l cells u : l ≡ₚ readCurrentTimestampCellsInTx s -> Forall2 inspected (raw_row <$> l) cells ->
  u ∈ source_ids table cells <-> exists c, c ∈ l /\ cu_SourceTable c = table /\ cu_SourceRowID c = u.
Proof.
  intros Hl Hf. rewrite elem_of_source_ids. split.
  - intros (d & [i Hi]%list_elem_of_lookup & Ht & Hu). destruct (Forall2_lookup_r _ _ _ _ _ Hf Hi) as (r & Hr & (sum & _ & ->)).
    apply list_lookup_fmap_Some in Hr as (c & -> & Hc). exists c. split; [by apply list_elem_of_lookup_2 with i|done].
  - intros (c & [i Hi]%list_elem_of_lookup & Ht & Hu). assert ((raw_row <$> l) !! i = Some (raw_row c)) as Hr by (by rewrite list_lookup_fmap, Hi).
    destruct (Forall2_lookup_l _ _ _ _ _ Hf Hr) as (d & Hd & (sum & _ & ->)). eexists. split; [by apply list_elem_of_lookup_2 with i|done].
Qed.

Lemma execution_ids s l cells u : l ≡ₚ readCurrentTimestampCellsInTx s -> Forall2 inspected (raw_row <$> l) cells ->
  u ∈ source_ids "externalexecution" cells <-> exists x, x ∈ Executions s /\ et_ID x = u.
Proof.
  intros Hl Hf. rewrite (elem_of_table_ids _ _ _ _ _ Hl Hf). setoid_rewrite Hl. setoid_rewrite elem_of_current. split.
  - intros (c & (table & id & column & o & p & created & [x c0 o0 p0 Hx _|x _] & ->) & Ht & <-); [by exists x|done].
  - intros (x & Hx & <-). destruct (execution_ordinal x 1) as (c & p & Hc); [lia|].
    exists (cell_of "externalexecution" (et_ID x) (p_instant (et_CreatedAt x)) (c, 1, p)). split; [|done].
    do 6 eexists. split; [by apply (execution_column s x c 1 p)|reflexivity].
Qed.
Lemma event_ids s l cells u : l ≡ₚ readCurrentTimestampCellsInTx s -> Forall2 inspected (raw_row <$> l) cells ->
  u ∈ source_ids "externalexecutionevent" cells <-> exists x, x ∈ Events s /\ ev_ID x = u.
Proof.
  intros Hl Hf. rewrite (elem_of_table_ids _ _ _ _ _ Hl Hf). setoid_rewrite Hl. setoid_rewrite elem_of_current. split.
  - intros (c & (table & id & column & o & p & created & [x c0 o0 p0 _ _|x Hx] & ->) & Ht & <-); [done|by exists x].
  - intros (x & Hx & <-). exists (event_current x). split; [|done]. do 6 eexists. split; [by apply event_column|reflexivity].
Qed.

Lemma draft_keys s cells : tables_ok s -> Forall2 inspected (readRawRows s) cells ->
  keys (undecided <$> cells) ≡ₚ snapshot_keys (source_ids "externalexecution" cells) (source_ids "externalexecutionevent" cells).
Proof.
  intros Ht Hf. unfold readRawRows in Hf. assert (readCurrentTimestampCellsInTx s ≡ₚ readCurrentTimestampCellsInTx s) as Hp by done.
  pose proof (inspected_keys s _ _ (λ c Hc, Hc) Hf) as Hk. apply NoDup_Permutation.
  - apply (NoDup_Forall2 (row_cell s) current_key (readCurrentTimestampCellsInTx s)); [by apply row_cell_key|done|]. by apply distinct_tables.
  - apply NoDup_snapshot_keys; apply source_ids_NoDup.
  - intros k. rewrite (elem_of_row_keys s _ _ k Hp Hk), elem_of_snapshot_keys. setoid_rewrite (execution_ids _ _ _ _ Hp Hf).
    setoid_rewrite (event_ids _ _ _ _ Hp Hf). naive_solver.
Qed.

(** ** The draft *)

Definition sensible (env : InspectEnv) : Prop :=
  in_ID env <> Nil /\ TrimSpace (in_Version env) <> "" /\ printable (in_StartedAt env) /\ printable (in_EndedAt env)
  /\ in_StartedAt env <= in_EndedAt env.

Lemma contract_source s c : readTimestampSchemaContractInTx s = Ok c -> sc_IdentitySourceVersion c = 137.
Proof.
  unfold readTimestampSchemaContractInTx, readTimestampSchemaContractWithStatusInTx. intros E. read_inv.
  repeat match goal with H : (if ?b then _ else _) = Ok _ |- _ => destruct b eqn:?; [try discriminate H|try discriminate H] end;
    read_inv; to_prop; simpl; lia || done.
Qed.

Lemma microsecond_le t u : t <= u -> microsecond t <= microsecond u.
Proof. unfold microsecond. intros. Z.to_euclidean_division_equations. lia. Qed.

(** What an inspection reads and computes. *)
Lemma inspect_ok env s m : inspectTimestampsInTx env s = Ok m -> exists cells raw identity sum,
  let executions := source_ids "externalexecution" cells in let events := source_ids "externalexecutionevent" cells in
  let d := draft_manifest env 137 cells executions events raw identity in
  Forall2 inspected (readRawRows s) cells /\ ComputeRawSetChecksum cells = Ok raw
  /\ ComputeDatabaseIdentityChecksum 137 executions events (Z.of_nat (length cells)) raw = Ok identity
  /\ ComputeDecisionContentChecksum d = Ok sum /\ m = with_cells (man_Cells d) sum d.
Proof.
  unfold inspectTimestampsInTx. intros E. apply result_bind_ok in E as (c & Hc & E). apply contract_source in Hc as Hv. rewrite Hv in E.
  apply result_bind_ok in E as (cells & Hcells & E). apply inspect_rows_ok in Hcells. apply result_bind_ok in E as (raw & Hraw & E).
  apply text_result_ok in Hraw. apply result_bind_ok in E as (identity & Hid & E). apply text_result_ok in Hid.
  apply result_bind_ok in E as (sum & Hsum & E). apply text_result_ok in Hsum. injection E as <-. by exists cells, raw, identity, sum.
Qed.

Lemma raw_undecided (cells : list RawCell) : dec_Raw <$> (undecided <$> cells) = cells.
Proof. rewrite <- list_fmap_compose. rewrite <- (list_fmap_id cells) at 2. by apply list_fmap_ext. Qed.

Lemma populated_undecided (cells : list RawCell) : populated_count cells = Z.of_nat (count populated (undecided <$> cells)).
Proof.
  unfold populated_count, count. f_equal. induction cells as [|c cells IH]; [done|]. rewrite fmap_cons. cbn [List.filter].
  change (populated (undecided c)) with (negb (bool_decide (cell_RawValue c = None))). destruct (negb _); simpl; by rewrite IH.
Qed.

Lemma draft_valid env s m : hex_digests -> tables_ok s -> sensible env -> inspectTimestampsInTx env s = Ok m -> valid_manifest m.
Proof.
  intros Hx Ht (Hid & Hver & Hst & Hen & Hle) (cells & raw & identity & sum & Hf & Hraw & Hdb & Hsum & ->)%inspect_ok.
  assert (Forall cell_ok (undecided <$> cells)) as Hcells.
  { apply Forall_fmap, Forall_forall. intros d [i Hi]%list_elem_of_lookup. destruct (Forall2_lookup_r _ _ _ _ _ Hf Hi) as (c & _ & Hd).
    simpl. apply undecided_ok; [done|]. by eapply inspected_checksum. }
  split; simpl; try done.
  - do 2 eexists. split; [by apply ParseInstant_microsecond|]. split; [by apply ParseInstant_microsecond|]. by apply microsecond_le.
  - exists (source_ids "externalexecution" cells), (source_ids "externalexecutionevent" cells).
    split; [apply source_ids_NoDup|]. split; [apply source_ids_NoDup|]. split; [done|]. split; [done|]. split; [by apply (draft_keys s)|done].
  - by rewrite length_fmap.
  - apply populated_undecided.
  - by rewrite raw_undecided.
  - apply draft_ok; [done|]. left. split; [done|]. unfold approval_fields. simpl. repeat constructor.
  - apply ComputeDecisionContentChecksum_ok in Hsum as (_ & _ & _ & _ & _ & ds & sup & _ & _ & ->). by apply checksum_format.
Qed.

(** ** The draft against the tables *)

Lemma match_cells_all l current : NoDup (decision_key <$> l) -> (forall c, c ∈ l -> current !! decision_key c = Some (dec_Raw c)) ->
  match_cells l current = Ok (rest_of l current).
Proof.
  revert current. induction l as [|c l IH]; intros current Hnd Hl; [done|]. cbn [match_cells].
  rewrite (Hl c ltac:(by left)), bool_decide_eq_true_2 by done. rewrite fmap_cons, NoDup_cons in Hnd. destruct Hnd as [Hc Hnd]. apply IH; [done|].
  intros d Hd. rewrite lookup_delete_ne; [apply Hl; by right|]. intros E. apply Hc. rewrite E. by apply list_elem_of_fmap_2.
Qed.

Lemma matches_itself m : NoDup (decision_key <$> man_Cells m) -> requireManifestMatchesSnapshot m m = Ok tt.
Proof.
  intros Hnd. assert (NoDup (raw_cell_key <$> (dec_Raw <$> man_Cells m))) as Hraw by (by rewrite <- list_fmap_compose).
  unfold requireManifestMatchesSnapshot, same_snapshot. rewrite !Z.eqb_refl, !bool_decide_eq_true_2 by done. simpl.
  rewrite match_cells_all; [|done|intros c Hc; apply (keyed_elem raw_cell_key); [done|by apply list_elem_of_fmap_2]]. simpl.
  apply unless_ok, negb_false_iff, bool_decide_eq_true, map_eq. intros k. rewrite rest_of_lookup, lookup_empty.
  case_bool_decide as Hk; [done|]. apply keyed_None. by rewrite <- list_fmap_compose.
Qed.

Lemma draft_cells env s m : inspectTimestampsInTx env s = Ok m ->
  decision_key <$> man_Cells m = current_key <$> readCurrentTimestampCellsInTx s.
Proof.
  intros (cells & raw & identity & sum & Hf & _ & _ & _ & ->)%inspect_ok. cbn [man_Cells with_cells draft_manifest].
  rewrite <- list_fmap_compose. unfold readRawRows in Hf. revert Hf. generalize (readCurrentTimestampCellsInTx s) as l. intros l. revert cells.
  induction l as [|c l IH]; intros cells Hf; simpl in Hf; [apply Forall2_nil_inv_l in Hf as ->; done|].
  apply Forall2_cons_inv_l in Hf as (d & cells' & (sum' & _ & ->) & Hf & ->). simpl. f_equal. by apply IH.
Qed.
Lemma draft_distinct env s m : tables_ok s -> inspectTimestampsInTx env s = Ok m -> NoDup (decision_key <$> man_Cells m).
Proof. intros [Hd _]%distinct_tables E. by rewrite (draft_cells _ _ _ E). Qed.

Lemma draft_counts env s m : Z.of_nat (length (readCurrentTimestampCellsInTx s)) < 2 ^ 64 -> tables_ok s ->
  inspectTimestampsInTx env s = Ok m -> uint64_counts m.
Proof.
  intros Hs Ht (cells & raw & identity & sum & Hf & _ & _ & _ & ->)%inspect_ok.
  pose proof (Permutation_length (draft_keys _ _ Ht Hf)) as Hk. pose proof (Forall2_length _ _ _ (inspected_keys s _ _ (λ c Hc, Hc) Hf)) as Hl.
  pose proof (Forall2_length _ _ _ Hf) as Hc. unfold readRawRows in Hc. rewrite length_fmap in Hc.
  rewrite length_snapshot_keys in Hk. unfold uint64_counts, uint64. simpl. lia.
Qed.

End inspection.
