(* ===== verification/TimestampOutcomes.v ===== *)
(** * External execution timestamps: outcomes

    What an application, a repeated application and a dry run come to. *)
From S2P Require Import Prelude GoStrings GoTime Uuid TaskStore Transaction StepRedaction TimestampCanonical TimestampManifest TimestampGuarantees TimestampTables TimestampVerify TimestampReading TimestampApply TimestampEffects TimestampLedger TimestampInspection.
From Stdlib Require Import Ascii.
Open Scope list_scope.
#[local] Open Scope Z_scope.

(** ** A successful application *)

(** What has changed when a manifest has been applied. *)
Record application (m : Manifest) (s s' : tsdb) : Prop := {
  al_rows : same_rows s s';
  al_fresh r : r ∈ Manifests s -> mr_ID r <> man_ID m;
  al_manifests : exists row, Manifests s' = Manifests s ++ [row];
  al_stored : exists cells, readStoredTimestampManifestInTx (man_ID m) s' = Ok (with_state_and_cells StateVerified cells m, StateVerified)
                            /\ cells ≡ₚ normal_zone <$> man_Cells m;
  al_provenance : exists rows, Provenance s' = Provenance s ++ rows /\ Forall (λ p, pr_ManifestID p = man_ID m) rows;
  al_columns table id column o p created : column_of s table id column o p created ->
    exists q created', column_of s' table id column o q created' /\ filled (man_Cells m) table id column p q;
  al_meaning c raw converted : c ∈ man_Cells m -> proves c = Some (raw, converted) ->
    exists o, dec_SourceOffsetSeconds c = Some o /\ raw = converted + o * 1000000000;
  al_proven c o q created : c ∈ man_Cells m -> is_resolved (dec_Decision c) = true ->
    column_of s' (cell_SourceTable (dec_Raw c)) (cell_SourceRowID (dec_Raw c)) (cell_SourceColumn (dec_Raw c)) o q created ->
    raw_text (p_raw q) = cell_RawValue (dec_Raw c) -> instant_text (p_instant q) = dec_ConvertedValue c }.

Lemma listed_lower table column o : cellOrdinals table column = Some o ->
  cellOrdinals (lower_name table) (lower_name column) = cellOrdinals table column.
Proof. intros Hc. unfold cellOrdinals in Hc. repeat case_bool_decide; subst; done. Qed.
Lemma column_key s c k o q created : cell_key c = Some k ->
  column_of s (cell_SourceTable (dec_Raw c)) (cell_SourceRowID (dec_Raw c)) (cell_SourceColumn (dec_Raw c)) o q created ->
  current_key (cell_of (cell_SourceTable (dec_Raw c)) (cell_SourceRowID (dec_Raw c)) created (cell_SourceColumn (dec_Raw c), o, q)) = decision_key c.
Proof.
  unfold cell_key, rawKey. destruct (negb (known_table _)); [done|].
  destruct (bool_decide (cellOrdinals _ _ = _)) eqn:E; simpl; [|done]. apply bool_decide_eq_true in E. intros _ Hc.
  apply column_listed in Hc. rewrite (listed_lower _ _ _ Hc) in E. rewrite E in Hc. injection Hc as <-. unfold current_key, decision_key, raw_cell_key, cell_of. simpl.
  apply cellOrdinals_cases in E as Ho. rewrite Z.mod_small; [done|]. destruct Ho as [[_ ?]|[_ ->]]; lia.
Qed.

Section outcomes.
Context `{Crypto}.

Lemma intact_proven m b pr s c k o q created : tables_ok s -> intact m b pr s -> c ∈ man_Cells m -> cell_key c = Some k ->
  is_resolved (dec_Decision c) = true ->
  column_of s (cell_SourceTable (dec_Raw c)) (cell_SourceRowID (dec_Raw c)) (cell_SourceColumn (dec_Raw c)) o q created ->
  raw_text (p_raw q) = cell_RawValue (dec_Raw c) -> instant_text (p_instant q) = dec_ConvertedValue c.
Proof.
  intros Ht Hi Hc Hk Hr Hcol Hraw. set (x := cell_of (cell_SourceTable (dec_Raw c)) (cell_SourceRowID (dec_Raw c)) created (cell_SourceColumn (dec_Raw c), o, q)).
  assert (x ∈ readCurrentTimestampCellsInTx s) as Hx by (apply elem_of_current; by do 6 eexists).
  pose proof (column_key _ _ _ _ _ _ Hk Hcol) as Ek.
  destruct (in_kept _ _ _ _ Hi c Hc) as [(y & Hy & Ey & Hh)|(t & Htt & Et & _)].
  2:{ destruct (in_separate _ _ _ _ Hi x t Hx Htt). unfold x. congruence. }
  assert (y = x) as ->.
  { destruct (distinct_tables _ Ht) as [Hd _]. apply (NoDup_fmap_elem _ _ _ _ Hd Hy Hx). unfold x. congruence. }
  destruct Hh as [_ Hh|t _ Hne _ _ _ _ _]; [|by destruct Hne].
  unfold x in Hh. simpl in Hh. rewrite Hh. unfold expected_instant. destruct (decision_names_distinct _ Hr).
  by rewrite !bool_decide_eq_false_2.
Qed.

Lemma read_verified_stored id s m b pr : read_verified id s = Ok (m, b, pr) ->
  exists state, readStoredTimestampManifestInTx id s = Ok (m, state).
Proof. unfold read_verified. intros E. read_inv. by eexists. Qed.

Lemma evidence_document r u : requireApplyEvidence r = Ok u ->
  ValidateManifestDocument (rq_Manifest r) = [] /\ man_State (rq_Manifest r) = StateApproved.
Proof. unfold requireApplyEvidence. intros E. read_inv. to_prop. done. Qed.

Lemma apply_new_application env m s rep s' : tables_ok s -> ledger_ok s -> ValidateManifestDocument m = [] ->
  apply_new env m s = Ok (rep, s') -> application m s s'.
Proof.
  intros Ht Hl Hdoc E. apply apply_new_ok in E as (fill & r & rows & v & _ & Hr & _ & Hk & _ & Hrows & _ & -> & Hv & _).
  destruct (document_cells _ Hdoc) as [Hcells _]. rewrite Forall_forall in Hcells.
  assert (Forall decision_ok (man_Cells m)) as Hdec by (apply Forall_forall; intros c Hc; by apply Hcells).
  destruct (manifest_args_id _ _ Hr) as (Hid & _).
  pose proof (stored_cells_new env m r (filled_cells fill (man_Cells m)) rows s (ap_Xact env) Hl Hk Hid Hrows Hdec) as Hstored.
  pose proof (read_new_manifest env m r (filled_cells fill (man_Cells m)) rows s Hr Hk) as Hread.
  set (s' := final_state env r (filled_cells fill (man_Cells m)) rows s) in *.
  assert (same_rows s s') as Hrs by apply final_same_rows. pose proof (same_rows_tables _ _ Hrs Ht) as Ht'. split.
  - done.
  - intros x Hx E. unfold manifest_keys in Hk. rewrite !andb_true_iff, negb_true_iff, exists_where_false in Hk. destruct Hk as ((Hk & _) & _).
    specialize (Hk x Hx). apply bool_decide_eq_false in Hk. congruence.
  - by eexists.
  - by eexists.
  - exists rows. split; [done|]. by apply (inserted_rows _ _ _ _ Hrows Hdec).
  - intros table id column o p created (q & created' & Hq & Hf)%(final_columns env r (filled_cells fill (man_Cells m)) rows).
    exists q, created'. split; [done|]. eapply filled_weaken; [|exact Hf]. apply filled_cells_elem.
  - intros c raw converted Hc Hp. destruct (proves_offset c raw converted) as (_ & _ & o & ? & _ & ?); [by apply Hcells|done|]. by exists o.
  - intros c o q created Hc Hres Hcol Hraw. destruct (co_key _ (Hcells c Hc)) as [k Hkey].
    assert (is_ok (verifyTimestampManifestWithStatusInTx (man_ID m) None s') = true) as Hok
      by (change (verifyTimestampManifestWithStatusInTx (man_ID m) None s') with (verifyTimestampManifestInTx (man_ID m) s'); by rewrite Hv).
    apply (verification_ok _ _ _ (distinct_tables _ Ht')) in Hok as (m' & b & pr & Hm' & _ & _ & Hi).
    apply read_verified_stored in Hm' as [state Hm']. rewrite Hread in Hm'. injection Hm' as <- _.
    assert (normal_zone c ∈ stored_cells (man_ID m) s') as Hn by (rewrite Hstored; by apply list_elem_of_fmap_2).
    by apply (intact_proven _ _ _ _ (normal_zone c) k o q created Ht' Hi Hn).
Qed.

Lemma apply_ok env r s rep s' : rq_Apply r = true ->
  ApplyExternalExecutionTimestampManifest env r s = Ok (rep, s') <->
  (exists u, requireApplyEvidence r = Ok u) /\ (exists u, acquireTimestampSessionLock (ap_LockAnswers env) = Ok u)
  /\ (exists c, readTimestampSchemaContractInTx s = Ok c
      /\ (sc_CatalogVersion c <? 138) || negb (man_SourceSchemaVersion (rq_Manifest r) =? sc_IdentitySourceVersion c) = false)
  /\ (exists u, requireTimestampGuardsInTx s = Ok u) /\ apply_stored env (rq_Manifest r) s = Ok (rep, s').
Proof.
  intros Hr. unfold ApplyExternalExecutionTimestampManifest, runTimestampApplyTransaction, apply_in_tx. rewrite Hr. simpl. split.
  - intros E. apply stx_bind_ok in E as (u & s1 & E1 & E). apply slift_ok in E1 as [Hev ->].
    apply stx_bind_ok in E as (u1 & s1 & E1 & E). apply slift_ok in E1 as [Hlock ->].
    apply stx_bind_ok in E as (c & s1 & E1 & E). apply squery_ok in E1 as [Hc ->].
    apply stx_bind_ok in E as (u2 & s1 & E1 & E). apply slift_ok in E1 as [Hu ->]. apply unless_ok in Hu.
    apply stx_bind_ok in E as (u3 & s1 & E1 & E). apply squery_ok in E1 as [Hg ->].
    split; [by exists u|]. split; [by exists u1|]. split; [by exists c|]. split; [by exists u3|done].
  - intros ([u Hev] & [u1 Hlock] & (c & Hc & Hu) & [u3 Hg] & E).
    apply stx_bind_ok. exists u, s. split; [by apply slift_ok|]. apply stx_bind_ok. exists u1, s. split; [by apply slift_ok|].
    apply stx_bind_ok. exists c, s. split; [by apply squery_ok|]. apply stx_bind_ok. exists tt, s. split; [apply slift_ok; by rewrite unless_ok|].
    apply stx_bind_ok. exists u3, s. split; [by apply squery_ok|]. done.
Qed.

Lemma apply_outcome env r s rep s' : tables_ok s -> ledger_ok s -> rq_Apply r = true ->
  ApplyExternalExecutionTimestampManifest env r s = Ok (rep, s') ->
  if rp_Idempotent rep then s' = s else application (rq_Manifest r) s s'.
Proof.
  intros Ht Hl Hr (Hev & _ & _ & _ & E)%(apply_ok _ _ _ _ _ Hr). destruct Hev as [u Hev]. apply evidence_document in Hev as [Hdoc _].
  unfold apply_stored in E.
  destruct (readStoredTimestampManifestInTx _ s) as [[existing state]|e].
  - unfold apply_again in E. apply squery_ok in E as [E ->]. read_inv. done.
  - destruct e; try done. pose proof (apply_new_application _ _ _ _ _ Ht Hl Hdoc E) as Ha.
    apply apply_new_ok in E as (fill & r' & rows & v & _ & _ & _ & _ & _ & _ & _ & _ & _ & ->). exact Ha.
Qed.

(** C30: applying an approved manifest either finds it stored and changes
    nothing, or appends it, verified, with its decisions, and fills columns:
    a wall clock never changes, an instant only from none to the one that a
    resolved cell with that wall clock proves, which is the wall clock less
    the offset; and afterwards each resolved cell whose wall clock is still in
    its column has its instant there. No row, tombstone or earlier manifest
    changes. *)
Theorem application_fills_proven_instants env r s rep s' : tables_ok s -> ledger_ok s -> rq_Apply r = true ->
  ApplyExternalExecutionTimestampManifest env r s = Ok (rep, s') ->
  if rp_Idempotent rep then s' = s else application (rq_Manifest r) s s'.
Proof. exact (apply_outcome env r s rep s'). Qed.

(** A manifest verifies exactly when it is stored as verified and complete,
    its chain can be read, the tombstones are authorized and complete, the
    schema is supported, and the tables are intact: no cell has both a row and a
    tombstone, every cell of the manifest has one of them, with its wall clock
    and the instant that is proven of it or a later evolution that the life
    cycle allows, and every other cell is an exact UTC pair of a row that was
    created after the baseline. *)
Theorem verification_accepts_intact_tables id expected s : tables_ok s ->
  is_ok (verifyTimestampManifestWithStatusInTx id expected s) = true
  <-> exists m b pr, read_verified id s = Ok (m, b, pr)
      /\ validateTimestampDeletionTombstones (readTimestampDeletionTombstonesInTx s) = Ok tt
      /\ is_ok (readTimestampSchemaContractWithStatusInTx expected s) = true /\ intact m b pr s.
Proof. intros Ht. by apply verification_ok, distinct_tables. Qed.

(** ** A repeated application *)

(** The decisions have no zone of blanks, which would be stored as none. *)
Definition zones_kept (m : Manifest) : Prop :=
  forall c, c ∈ man_Cells m -> dec_SourceZone c = "" \/ TrimSpace (dec_SourceZone c) <> "".

Lemma canonical_order_unique k l : NoDup (decision_key <$> k) -> k ≡ₚ l -> canonical_order k = canonical_order l.
Proof.
  intros Hnd Hp. unfold canonical_order. apply stable_sort_unique; [apply _|done|]. intros x y Hx Hy H1 H2.
  apply (NoDup_fmap_elem _ _ _ _ Hnd Hx Hy). by apply string_less_total.
Qed.

Lemma normal_zones m : zones_kept m -> normal_zone <$> man_Cells m = man_Cells m.
Proof.
  unfold zones_kept. intros Hz. rewrite <- (list_fmap_id (man_Cells m)) at 2. apply list_fmap_ext. intros i c Hc%list_elem_of_lookup_2.
  apply normal_zone_id. by apply Hz.
Qed.

Lemma verified_distinct id m state v s : tables_ok s -> readStoredTimestampManifestInTx id s = Ok (m, state) ->
  verifyTimestampManifestInTx id s = Ok v -> NoDup (decision_key <$> man_Cells m).
Proof.
  intros Ht Hread Hv. assert (is_ok (verifyTimestampManifestWithStatusInTx id None s) = true) as Hok
    by (change (verifyTimestampManifestWithStatusInTx id None s) with (verifyTimestampManifestInTx id s); by rewrite Hv).
  apply (verification_ok _ _ _ (distinct_tables _ Ht)) in Hok as (m' & b & pr & Hm' & _ & _ & Hi).
  apply read_verified_stored in Hm' as [state' Hm']. rewrite Hread in Hm'. injection Hm' as <- _. exact (in_distinct _ _ _ _ Hi).
Qed.

Lemma stored_matches m cells : man_State m = StateApproved -> NoDup (decision_key <$> cells) -> cells ≡ₚ man_Cells m ->
  storedManifestMatchesApplyRequest (with_state_and_cells StateVerified cells m) m = true.
Proof.
  intros Hm Hnd Hp. unfold storedManifestMatchesApplyRequest. apply bool_decide_eq_true. rewrite Hm. simpl.
  by rewrite (canonical_order_unique cells (man_Cells m)).
Qed.

(** What is found is what was applied. *)
Lemma apply_new_again env m s rep s' : tables_ok s -> ledger_ok s -> ValidateManifestDocument m = [] -> man_State m = StateApproved ->
  zones_kept m -> apply_new env m s = Ok (rep, s') ->
  exists existing, readStoredTimestampManifestInTx (man_ID m) s' = Ok (existing, StateVerified)
  /\ apply_again m existing StateVerified s' = Ok (timestampApplyReport m false true 0 0 (rp_ProvenanceRows rep), s').
Proof.
  intros Ht Hl Hdoc Hm Hz E. pose proof (apply_new_application _ _ _ _ _ Ht Hl Hdoc E) as [Hrs _ _ (cells & Hread & Hp) _ _ _ _].
  apply apply_new_ok in E as (fill & r & rows & v & _ & _ & _ & _ & _ & _ & _ & _ & Hv & ->).
  exists (with_state_and_cells StateVerified cells m). split; [done|]. unfold apply_again, squery. rewrite (normal_zones m Hz) in Hp.
  rewrite stored_matches; [|done|exact (verified_distinct _ _ _ _ _ (same_rows_tables _ _ Hrs Ht) Hread Hv)|done].
  simpl. rewrite !bool_decide_eq_true_2 by done. simpl. by rewrite Hv.
Qed.

(** The checks before the ledger depend on the catalogs and the state of
    the migration only. *)
Lemma contract_catalogs s s' : Catalogs s' = Catalogs s -> Expand s' = Expand s -> readTimestampSchemaContractInTx s' = readTimestampSchemaContractInTx s.
Proof. 
  intros E E'. unfold readTimestampSchemaContractInTx, readTimestampSchemaContractWithStatusInTx, readTimestampEffectiveSchemaVersion.
  by rewrite E, E'.
Qed.
Lemma guards_catalogs s s' : Catalogs s' = Catalogs s -> requireTimestampGuardsInTx s' = requireTimestampGuardsInTx s.
Proof. intros E. unfold requireTimestampGuardsInTx. by rewrite E. Qed.

End outcomes.

(** ** An example *)

Module demo_tables.
Import TimestampGuarantees.demo.

Definition moment (hour : Z) : Z := 1704067200000000000 + hour * 3600000000000.
Definition only (t : Z) : pair := {| p_raw := Some t; p_instant := None |}.

(** A digest is its own digest, so that the body of a guard is its digest. *)
#[local] Instance text_crypto : Crypto :=
  {| sha256_hex s := if lower_hex_text 64 s then s else hex_byte (byte_of_N (sum_codes s mod 256)) zeros |}.

Definition catalog : Catalog :=
  {| ca_MigrationsKind := Some "r"; ca_MigrationColumns := 2; ca_MatchingMigrationColumns := 2; ca_MigrationPrimaryKeys := 1;
     ca_Migrations := [(138, false)]; ca_Legacy := 6; ca_ShadowShape := 6; ca_ShadowName := 6; ca_ExpandObject := 5;
     ca_OrdinaryTable := 5; ca_ExpandColumn := 77; ca_ExpandConstraint := 19; ca_ExpandDefault := 1; ca_Indexes := 5;
     ca_FunctionBody := λ f, gs_functionBodyHash <$> head (List.filter (λ g, bool_decide (gs_functionName g = f)) GuardSpecs);
     ca_Triggers := λ _, 1; ca_TriggerCount := λ t, if bool_decide (t = "externalexecution") then 3 else 2 |}.

Definition execution : ExecutionTimes :=
  {| et_ID := uid 7; et_CreatedAt := only (moment 1); et_UpdatedAt := only (moment 2); et_StartedAt := only (moment 2);
     et_CompletedAt := {| p_raw := None; p_instant := None |}; et_CallbackDeadlineAt := only (moment 3) |}.
Definition before : tsdb :=
  {| Catalogs := catalog; Executions := [execution]; Events := [{| ev_ID := uid 8; ev_CreatedAt := only (moment 1) |}];
     Manifests := []; Provenance := []; Tombstones := [];
     Expand := [{| xs_TransitionKind := "MANIFEST_REQUIRED"; xs_SourceVersion := 137; xs_ExecutionCount := 1; xs_EventCount := 1;
                   xs_RawCellCount := 6; xs_TransitionedAt := moment 10 |}] |}.
Definition inspection : InspectEnv := {| in_StartedAt := moment 8; in_EndedAt := moment 9; in_ID := uid 1; in_Version := "v1" |}.
Definition env : ApplyEnv :=
  {| ap_Xact := 7; ap_AppliedAt := moment 12; ap_VerifiedAt := moment 13; ap_Inspect := inspection; ap_LockAnswers := [false; true] |}.

(** The event is proven, the rest stays unresolved. *)
Definition decided (c : CellDecision) : CellDecision :=
  if bool_decide (cell_SourceTable (dec_Raw c) = event_table) then
    {| dec_Raw := dec_Raw c; dec_Decision := DecisionProven; dec_SourceZone := "Europe/Vienna"; dec_SourceOffsetSeconds := Some 3600;
       dec_ConvertedValue := Some (FormatInstant (moment 0)); dec_EvidenceReference := "log"; dec_EvidenceChecksum := digest;
       dec_ApprovingIdentity := "ops"; dec_ConversionExpressionVersion := ConversionExpressionVersion |}
  else c.
Definition sealed : Manifest :=
  Eval vm_compute in match inspectTimestampsInTx inspection before with
  | Ok m => match SealManifest (signed (with_cells (decided <$> man_Cells m) "" m)) options (moment 11) with Ok m => m | Err _ => first_manifest end
  | Err _ => first_manifest end.
Definition request : ApplyRequest :=
  {| rq_Manifest := sealed; rq_Apply := true; rq_WriterFenceIdentifier := "fence"; rq_BackupReference := "backup";
     rq_BackupChecksum := digest; rq_RestoreVerificationReference := "restore"; rq_RestoreVerificationChecksum := digest |}.
Definition after : tsdb := (RunSTx (ApplyExternalExecutionTimestampManifest env request) before).2.
Definition report : ApplyReport := timestampApplyReport sealed false false 1 1 6.

Lemma applied_once : ApplyExternalExecutionTimestampManifest env request before = Ok (report, after).
Proof. reflexivity. Qed.
Lemma before_tables : tables_ok before.
Proof.
  split; try (apply (bool_decide_unpack _); by vm_compute). by intros t ?%elem_of_nil.
Qed.
Lemma before_ledger : ledger_ok before.
Proof. split; [constructor|]. by intros p ?%elem_of_nil. Qed.
Lemma after_tables : tables_ok after.
Proof.
  pose proof (apply_outcome env request before report after before_tables before_ledger eq_refl applied_once) as Ha.
  exact (same_rows_tables _ _ (al_rows _ _ _ Ha) before_tables).
Qed.
Lemma sealed_zones : zones_kept (rq_Manifest request).
Proof.
  assert (forallb (λ c, bool_decide (dec_SourceZone c = "") || negb (bool_decide (TrimSpace (dec_SourceZone c) = ""))) (man_Cells sealed) = true)
    as Hz by reflexivity.
  intros c Hc%list_elem_of_In. rewrite forallb_forall in Hz. specialize (Hz c Hc). apply orb_true_iff in Hz as [Hz|Hz]; to_prop; auto.
Qed.

Lemma application_fills_proven_instants_witness : application sealed before after.
Proof. exact (application_fills_proven_instants env request before report after before_tables before_ledger eq_refl applied_once). Defined.


Lemma verification_accepts_intact_tables_witness : exists m b pr,
  read_verified (man_ID sealed) after = Ok (m, b, pr) /\ intact m b pr after.
Proof.
  assert (is_ok (verifyTimestampManifestWithStatusInTx (man_ID sealed) None after) = true) as Hv by reflexivity.
  pose proof after_tables as Ht.
  destruct (proj1 (verification_accepts_intact_tables (man_ID sealed) None after Ht) Hv) as (m & b & pr & Hm & _ & _ & Hi).
  exists m, b, pr. split; [exact Hm|exact Hi].
Defined.

(** A zone of blanks is part of the approved content but is stored as none: the
    manifest is sealed and passes the dry run, and can never be applied. *)
Definition blank_zone (c : CellDecision) : CellDecision :=
  {| dec_Raw := dec_Raw c; dec_Decision := dec_Decision c; dec_SourceZone := if is_resolved (dec_Decision c) then " " else "";
     dec_SourceOffsetSeconds := dec_SourceOffsetSeconds c; dec_ConvertedValue := dec_ConvertedValue c;
     dec_EvidenceReference := dec_EvidenceReference c; dec_EvidenceChecksum := dec_EvidenceChecksum c;
     dec_ApprovingIdentity := dec_ApprovingIdentity c; dec_ConversionExpressionVersion := dec_ConversionExpressionVersion c |}.
Definition sealed_blank : Manifest :=
  Eval vm_compute in match inspectTimestampsInTx inspection before with
  | Ok m => match SealManifest (signed (with_cells (blank_zone ∘ decided <$> man_Cells m) "" m)) options (moment 11) with Ok m => m | Err _ => first_manifest end
  | Err _ => first_manifest end.
Definition request_blank (apply : bool) : ApplyRequest :=
  {| rq_Manifest := sealed_blank; rq_Apply := apply; rq_WriterFenceIdentifier := "fence"; rq_BackupReference := "backup";
     rq_BackupChecksum := digest; rq_RestoreVerificationReference := "restore"; rq_RestoreVerificationChecksum := digest |}.
Example blank_zone_unappliable : man_State sealed_blank = StateApproved
  /\ ApplyExternalExecutionTimestampManifest env (request_blank false) before = Ok (timestampApplyReport sealed_blank true false 1 0 0, before)
  /\ is_ok (ApplyExternalExecutionTimestampManifest env (request_blank true) before) = false.
Proof. split; [reflexivity|]. split; reflexivity. Qed.

Lemma text_hex : hex_digests.
Proof.
  intros x. unfold sha256_hex, text_crypto. destruct (lower_hex_text 64 x) eqn:E; [done|]. by destruct (byte_of_N _).
Qed.
Lemma sensible_inspection : sensible inspection.
Proof. split; [done|]. split; [done|]. split; [by vm_compute|]. split; [by vm_compute|]. by vm_compute. Qed.
Definition drafted : Manifest := Eval vm_compute in ok_or first_manifest (match inspectTimestampsInTx inspection before with Ok m => Ok m | Err _ => Err "" end).

End demo_tables.
