(* ===== verification/DeploymentProcess.v ===== *)
(** * Deployment processes and their revisions
    ([internal/db/deployment_processes.go], [internal/types/deployment_process.go])

    A process has numbered revisions, a revision has steps with dependencies.
    The steps of a revision are checked, the dependencies must not have a
    cycle, and they are spread over four tables. The columns [created_at] and
    [updated_at] are left out. *)
From S2P Require Import Prelude GoStrings Uuid GoRegexp StepRedaction TaskStore Transaction StepEvents ActionRegistry.
Open Scope list_scope.

(** ** Data *)

Record DeploymentProcess := {
  dp_ID : uuid;
  dp_OrganizationID : uuid;
  dp_ApplicationID : uuid;
  dp_Name : string;
  dp_Description : string;
  dp_SortOrder : Z;
}.

(** [None] is a nil map. *)
Record DeploymentProcessStep := {
  ds_ID : uuid;
  ds_DeploymentProcessRevisionID : uuid;
  ds_Key : string;
  ds_Name : string;
  ds_ActionType : string;
  ds_StepTemplateVersionID : option uuid;
  ds_ExecutionLocation : string;
  ds_InputBindings : option (list (string * json));
  ds_Condition : string;
  ds_ChannelIDs : list uuid;
  ds_EnvironmentIDs : list uuid;
  ds_TargetTags : list string;
  ds_FailureMode : string;
  ds_TimeoutSeconds : Z;
  ds_RetryMaxAttempts : Z;
  ds_RetryIntervalSeconds : Z;
  ds_RequiredPermissions : list string;
  ds_SortOrder : Z;
  ds_Dependencies : list string;
}.

Record DeploymentProcessRevision := {
  dr_ID : uuid;
  dr_OrganizationID : uuid;
  dr_DeploymentProcessID : uuid;
  dr_RevisionNumber : Z;
  dr_Description : string;
  dr_Steps : list DeploymentProcessStep;
}.

(** ** The graph of the dependencies *)

(** [graph[key]]: the appended dependencies of the step. *)
Definition graph_of (steps : list DeploymentProcessStep) (key : string) : list string :=
  steps ≫= λ s, if bool_decide (ds_Key s = key) then ds_Dependencies s else [].

Fixpoint check_dependencies (key : string) (keys seen deps : list string) : result apierror unit :=
  match deps with
  | [] => Ok tt
  | dependency :: deps =>
      if bool_decide (dependency = "") then Err (BadRequest "step dependency is required") else
      if bool_decide (dependency = key) then Err (BadRequest "step cannot depend on itself") else
      if contains seen dependency then Err (BadRequest "step dependencies must be unique") else
      if negb (contains keys dependency)
      then Err (BadRequest ("step dependency " +:+ quote dependency +:+ " does not exist")) else
      check_dependencies key keys (dependency :: seen) deps
  end.

(** The sets [visiting] and [visited]. *)
Record marks := { visiting : list string; visited : list string }.

Definition remove (key : string) (l : list string) : list string :=
  select_where (λ k, negb (bool_decide (k = key))) l.

(** The loop over the dependencies, which stops at the first cycle. *)
Fixpoint visit_all (visit : string -> marks -> option (bool * marks)) (keys : list string) (m : marks)
    : option (bool * marks) :=
  match keys with
  | [] => Some (false, m)
  | key :: keys =>
      match visit key m with
      | Some (false, m) => visit_all visit keys m
      | r => r
      end
  end.

(** The depth-first search; [None] means that the fuel did not suffice. *)
Fixpoint visit (fuel : nat) (graph : string -> list string) (key : string) (m : marks) : option (bool * marks) :=
  match fuel with
  | O => None
  | S fuel =>
      if contains (visited m) key then Some (false, m) else
      if contains (visiting m) key then Some (true, m) else
      match visit_all (visit fuel graph) (graph key)
              {| visiting := key :: visiting m; visited := visited m |} with
      | Some (false, m) => Some (false, {| visiting := remove key (visiting m); visited := key :: visited m |})
      | r => r
      end
  end.

(** [order] is the order in which Go ranges over the keys of the graph. A path
    of the search has no key twice, so the number of keys bounds its depth. *)
Definition has_cycle (order : list string) (graph : string -> list string) : option bool :=
  fst <$> visit_all (visit (S (length order)) graph) order {| visiting := []; visited := [] |}.

Definition validateDeploymentProcessStepGraph (order : list string) (steps : list DeploymentProcessStep)
    (keys : list string) : result apierror unit :=
  for_each (λ s, check_dependencies (ds_Key s) keys [] (ds_Dependencies s)) steps ≫= λ _,
  match has_cycle order (graph_of steps) with
  | Some false => Ok tt
  | _ => Err (BadRequest "step dependencies must not contain cycles")
  end.

(** ** Normalization *)

Definition normalizeDeploymentProcess (p : DeploymentProcess) : result apierror DeploymentProcess :=
  let name := TrimSpace (dp_Name p) in
  fail_if (bool_decide (name = "")) (BadRequest "name is required") ≫= λ _,
  fail_if (is_nil (dp_OrganizationID p)) (BadRequest "organizationId is required") ≫= λ _,
  fail_if (is_nil (dp_ApplicationID p)) (BadRequest "applicationId is required") ≫= λ _,
  fail_if (dp_SortOrder p <? 0)%Z (BadRequest "sortOrder must be non-negative") ≫= λ _,
  Ok {| dp_ID := dp_ID p; dp_OrganizationID := dp_OrganizationID p; dp_ApplicationID := dp_ApplicationID p;
        dp_Name := name; dp_Description := dp_Description p; dp_SortOrder := dp_SortOrder p |}.

Definition normalizeDeploymentProcessStringList (values : list string) (field : string)
    : result apierror (list string) :=
  fail_if (existsb trimmed_empty values) (BadRequest (field +:+ " must not contain empty values")) ≫= λ _,
  Ok (TrimSpace <$> values).

Fixpoint normalizeDeploymentProcessUUIDList (seen values : list uuid) (field : string) : result apierror unit :=
  match values with
  | [] => Ok tt
  | value :: values =>
      if is_nil value then Err (BadRequest (field +:+ " must not contain empty IDs")) else
      if contains seen value then Err (BadRequest (field +:+ " must be unique")) else
      normalizeDeploymentProcessUUIDList (value :: seen) values field
  end.

(** The assignments to the fields of a step. *)
Definition normalized_step (s : DeploymentProcessStep) (tags permissions : list string) : DeploymentProcessStep :=
  let mode := TrimSpace (ds_FailureMode s) in
  {| ds_ID := ds_ID s; ds_DeploymentProcessRevisionID := ds_DeploymentProcessRevisionID s;
     ds_Key := TrimSpace (ds_Key s); ds_Name := TrimSpace (ds_Name s); ds_ActionType := TrimSpace (ds_ActionType s);
     ds_StepTemplateVersionID := ds_StepTemplateVersionID s;
     ds_ExecutionLocation := TrimSpace (ds_ExecutionLocation s);
     ds_InputBindings := Some (default [] (ds_InputBindings s)); ds_Condition := TrimSpace (ds_Condition s);
     ds_ChannelIDs := ds_ChannelIDs s; ds_EnvironmentIDs := ds_EnvironmentIDs s; ds_TargetTags := tags;
     ds_FailureMode := if bool_decide (mode = "") then "fail" else mode; ds_TimeoutSeconds := ds_TimeoutSeconds s;
     ds_RetryMaxAttempts := ds_RetryMaxAttempts s; ds_RetryIntervalSeconds := ds_RetryIntervalSeconds s;
     ds_RequiredPermissions := permissions; ds_SortOrder := ds_SortOrder s;
     ds_Dependencies := TrimSpace <$> ds_Dependencies s |}.

Definition normalize_step (s : DeploymentProcessStep) : result apierror DeploymentProcessStep :=
  fail_if (trimmed_empty (ds_Key s)) (BadRequest "step key is required") ≫= λ _,
  fail_if (trimmed_empty (ds_Name s)) (BadRequest "step name is required") ≫= λ _,
  fail_if (trimmed_empty (ds_ActionType s)) (BadRequest "step actionType is required") ≫= λ _,
  fail_if (trimmed_empty (ds_ExecutionLocation s)) (BadRequest "step executionLocation is required") ≫= λ _,
  fail_if (ds_SortOrder s <? 0)%Z (BadRequest "step sortOrder must be non-negative") ≫= λ _,
  fail_if (ds_TimeoutSeconds s <? 0)%Z (BadRequest "step timeoutSeconds must be non-negative") ≫= λ _,
  fail_if (ds_RetryMaxAttempts s <? 0)%Z (BadRequest "step retry_max_attempts must be non-negative") ≫= λ _,
  fail_if (ds_RetryIntervalSeconds s <? 0)%Z (BadRequest "step retry_interval_seconds must be non-negative") ≫= λ _,
  normalizeDeploymentProcessStringList (ds_TargetTags s) "step targetTags" ≫= λ tags,
  normalizeDeploymentProcessStringList (ds_RequiredPermissions s) "step requiredPermissions" ≫= λ permissions,
  normalizeDeploymentProcessUUIDList [] (ds_ChannelIDs s) "step channelIds" ≫= λ _,
  normalizeDeploymentProcessUUIDList [] (ds_EnvironmentIDs s) "step environmentIds" ≫= λ _,
  Ok (normalized_step s tags permissions).

(** The loop over the steps with the sets of their keys and sort orders. *)
Fixpoint normalize_steps (keys : list string) (orders : list Z) (steps : list DeploymentProcessStep)
    : result apierror (list DeploymentProcessStep) :=
  match steps with
  | [] => Ok []
  | s :: steps =>
      normalize_step s ≫= λ s,
      fail_if (contains keys (ds_Key s)) (BadRequest "step keys must be unique") ≫= λ _,
      fail_if (contains orders (ds_SortOrder s)) (BadRequest "step sortOrder values must be unique") ≫= λ _,
      normalize_steps (ds_Key s :: keys) (ds_SortOrder s :: orders) steps ≫= λ steps, Ok (s :: steps)
  end.

(** [badRequestMessage] of an error of the registry. *)
Definition step_error (key : string) (e : apierror) : apierror :=
  match e with BadRequest message => BadRequest ("step " +:+ quote key +:+ " " +:+ message) | e => e end.

(** ** The tables

    The rows of [DeploymentProcessRevision] and [DeploymentProcessStep] are
    the structs without the fields that other tables hold. The tables a process
    refers to are the keys that exist: applications and environments with their
    organization, channels with their organization and application. A snapshot
    freezes a revision of a process; [GitManaged] are the processes whose
    authority in [ConfigAsCodeAuthority] is Git. *)
Record StepDependency := {
  sd_RevisionID : uuid; sd_StepKey : string; sd_DependsOnKey : string; sd_SortOrder : Z }.
Record StepChannel := {
  sc_StepID : uuid; sc_OrganizationID : uuid; sc_ApplicationID : uuid; sc_ChannelID : uuid; sc_SortOrder : Z }.
Record StepEnvironment := { se_StepID : uuid; se_EnvironmentID : uuid; se_SortOrder : Z }.

Record pdb := {
  Processes : list DeploymentProcess;
  Revisions : list DeploymentProcessRevision;
  Steps : list DeploymentProcessStep;
  StepDependencies : list StepDependency;
  StepChannels : list StepChannel;
  StepEnvironments : list StepEnvironment;
  Applications : list (uuid * uuid);
  Channels : list (uuid * uuid * uuid);
  Environments : list (uuid * uuid);
  Snapshots : list uuid;
  GitManaged : list (uuid * uuid);
}.

Definition set_processes (l : list DeploymentProcess) (s : pdb) : pdb :=
  {| Processes := l; Revisions := Revisions s; Steps := Steps s; StepDependencies := StepDependencies s;
     StepChannels := StepChannels s; StepEnvironments := StepEnvironments s; Applications := Applications s;
     Channels := Channels s; Environments := Environments s; Snapshots := Snapshots s; GitManaged := GitManaged s |}.
Definition set_revisions (l : list DeploymentProcessRevision) (s : pdb) : pdb :=
  {| Processes := Processes s; Revisions := l; Steps := Steps s; StepDependencies := StepDependencies s;
     StepChannels := StepChannels s; StepEnvironments := StepEnvironments s; Applications := Applications s;
     Channels := Channels s; Environments := Environments s; Snapshots := Snapshots s; GitManaged := GitManaged s |}.
Definition set_steps (l : list DeploymentProcessStep) (d : list StepDependency) (c : list StepChannel)
    (e : list StepEnvironment) (s : pdb) : pdb :=
  {| Processes := Processes s; Revisions := Revisions s; Steps := l; StepDependencies := d; StepChannels := c;
     StepEnvironments := e; Applications := Applications s; Channels := Channels s; Environments := Environments s;
     Snapshots := Snapshots s; GitManaged := GitManaged s |}.
Definition set_references (a : list (uuid * uuid)) (c : list (uuid * uuid * uuid)) (e : list (uuid * uuid))
    (snapshots : list uuid) (git : list (uuid * uuid)) (s : pdb) : pdb :=
  {| Processes := Processes s; Revisions := Revisions s; Steps := Steps s; StepDependencies := StepDependencies s;
     StepChannels := StepChannels s; StepEnvironments := StepEnvironments s; Applications := a;
     Channels := c; Environments := e; Snapshots := snapshots; GitManaged := git |}.

(** The generated keys and the order in which Go ranges over a map of keys. *)
Record penv := {
  new_id : uuid;
  new_step_id : nat -> uuid;
  range_order : list string -> list string;
}.

Notation ptx := (stx pdb).

(** PostgreSQL's [INTEGER]. *)
Definition fits_int4 (z : Z) : bool := (-2147483648 <=? z)%Z && (z <=? 2147483647)%Z.

(** ** Processes *)

Definition process_where (id org : uuid) (p : DeploymentProcess) : bool :=
  bool_decide (dp_ID p = id) && bool_decide (dp_OrganizationID p = org).

Definition find_process (id org : uuid) (s : pdb) : result apierror DeploymentProcess :=
  match select_where (process_where id org) (Processes s) with p :: _ => Ok p | [] => Err NotFound end.

(** [FOR UPDATE] makes other transactions wait; the row is the same. *)
Definition getDeploymentProcess (id org : uuid) : ptx DeploymentProcess := squery (find_process id org).

Definition GetDeploymentProcess (id org : uuid) (s : pdb) : result apierror DeploymentProcess := find_process id org s.

Definition EnsureConfigAsCodeDatabaseManagedForUpdate (org id : uuid) : ptx unit :=
  getDeploymentProcess id org ≫= λ _,
  sforbid (λ s, contains (GitManaged s) (org, id)) (Conflict "resource is managed by Git").

Definition DeleteConfigAsCodeAuthorityForResource (org id : uuid) : ptx unit := smodify (λ s,
  set_references (Applications s) (Channels s) (Environments s) (Snapshots s)
    (select_where (λ k, negb (bool_decide (k = (org, id)))) (GitManaged s)) s).

Definition ensureDeploymentProcessApplication (org application : uuid) : ptx unit :=
  sforbid (λ s, negb (contains (Applications s) (application, org))) NotFound.

(** The constraints of the table that a normalized process can violate: the
    width of the sort order, the primary key and the unique name. *)
Definition name_taken (p : DeploymentProcess) (s : pdb) : bool :=
  exists_where (λ q, negb (bool_decide (dp_ID q = dp_ID p)) && bool_decide (dp_OrganizationID q = dp_OrganizationID p)
    && bool_decide (dp_ApplicationID q = dp_ApplicationID p) && bool_decide (dp_Name q = dp_Name p)) (Processes s).

Definition with_process_id (id : uuid) (p : DeploymentProcess) : DeploymentProcess :=
  {| dp_ID := id; dp_OrganizationID := dp_OrganizationID p; dp_ApplicationID := dp_ApplicationID p;
     dp_Name := dp_Name p; dp_Description := dp_Description p; dp_SortOrder := dp_SortOrder p |}.

Definition insert_process (p : DeploymentProcess) : ptx DeploymentProcess := λ s,
  if negb (fits_int4 (dp_SortOrder p)) then Err (Internal "could not insert DeploymentProcess") else
  if contains (dp_ID <$> Processes s) (dp_ID p) || name_taken p s
  then Err (AlreadyExists "could not insert DeploymentProcess")
  else Ok (p, set_processes (Processes s ++ [p]) s).

(** The id is the default of the column. *)
Definition CreateDeploymentProcess (env : penv) (process : DeploymentProcess) (s : pdb)
    : result apierror DeploymentProcess * pdb :=
  match normalizeDeploymentProcess process with
  | Err e => (Err e, s)
  | Ok p =>
      RunSTx (ensureDeploymentProcessApplication (dp_OrganizationID p) (dp_ApplicationID p) ≫= λ _,
              insert_process (with_process_id (new_id env) p)) s
  end.

Definition deploymentProcessHasRevisions (id : uuid) (s : pdb) : bool :=
  exists_where (λ r, bool_decide (dr_DeploymentProcessID r = id)) (Revisions s).

Definition update_process (p : DeploymentProcess) : ptx DeploymentProcess := λ s,
  if negb (fits_int4 (dp_SortOrder p)) then Err (Internal "could not update DeploymentProcess") else
  if name_taken p s then Err (AlreadyExists "could not update DeploymentProcess") else
  if negb (exists_where (process_where (dp_ID p) (dp_OrganizationID p)) (Processes s)) then Err NotFound else
  Ok (p, set_processes (update_where (process_where (dp_ID p) (dp_OrganizationID p)) (λ _, p) (Processes s)) s).

Definition UpdateDeploymentProcess (process : DeploymentProcess) (s : pdb)
    : result apierror DeploymentProcess * pdb :=
  match normalizeDeploymentProcess process with
  | Err e => (Err e, s)
  | Ok p =>
      RunSTx (
        getDeploymentProcess (dp_ID p) (dp_OrganizationID p) ≫= λ existing,
        EnsureConfigAsCodeDatabaseManagedForUpdate (dp_OrganizationID p) (dp_ID p) ≫= λ _,
        ensureDeploymentProcessApplication (dp_OrganizationID p) (dp_ApplicationID p) ≫= λ _,
        sreads (deploymentProcessHasRevisions (dp_ID p)) ≫= λ hasRevisions,
        scheck (negb (bool_decide (dp_ApplicationID existing = dp_ApplicationID p)) && hasRevisions)
          (Conflict "could not update DeploymentProcess") ≫= λ _,
        update_process p) s
  end.

(** [DELETE] with its cascades: the revisions of the process, their steps, and
    the relations of the steps. A snapshot of the process restricts it. *)
Definition delete_process (id org : uuid) : ptx unit := λ s,
  let gone := process_where id org in
  if contains (Snapshots s) id then Err (Conflict "could not delete DeploymentProcess") else
  if negb (exists_where gone (Processes s)) then Err NotFound else
  let revisions := select_where (λ r, negb (bool_decide (dr_DeploymentProcessID r = id))) (Revisions s) in
  let kept := dr_ID <$> revisions in
  let steps := select_where (λ d, contains kept (ds_DeploymentProcessRevisionID d)) (Steps s) in
  let kept_steps := ds_ID <$> steps in
  Ok (tt, set_steps steps
    (select_where (λ d, contains kept (sd_RevisionID d)) (StepDependencies s))
    (select_where (λ c, contains kept_steps (sc_StepID c)) (StepChannels s))
    (select_where (λ e, contains kept_steps (se_StepID e)) (StepEnvironments s))
    (set_revisions revisions (set_processes (select_where (λ p, negb (gone p)) (Processes s)) s))).

Definition DeleteDeploymentProcessWithID (id org : uuid) (s : pdb) : result apierror unit * pdb :=
  RunSTx (EnsureConfigAsCodeDatabaseManagedForUpdate org id ≫= λ _,
          DeleteConfigAsCodeAuthorityForResource org id ≫= λ _,
          delete_process id org) s.

(** ** Revisions *)

Definition ensureDeploymentProcessStepReferences (org application : uuid) (steps : list DeploymentProcessStep)
    : ptx unit := squery (λ s,
  for_each (λ d,
    for_each (λ c, fail_if (negb (contains (Channels s) (c, org, application))) NotFound) (ds_ChannelIDs d) ≫= λ _,
    for_each (λ e, fail_if (negb (contains (Environments s) (e, org))) NotFound) (ds_EnvironmentIDs d)) steps).

(** [COALESCE(MAX(revision_number), 0) + 1], an [INTEGER]. *)
Definition nextDeploymentProcessRevisionNumber (id : uuid) : ptx Z := λ s,
  let numbers := dr_RevisionNumber <$> select_where (λ r, bool_decide (dr_DeploymentProcessID r = id)) (Revisions s) in
  let number := (foldr Z.max 0 numbers + 1)%Z in
  if fits_int4 number then Ok (number, s)
  else Err (Internal "could not calculate DeploymentProcess revision number").

(** The step with its new keys, and its columns, without the relations. *)
Definition with_keys (id revision : uuid) (d : DeploymentProcessStep) : DeploymentProcessStep :=
  {| ds_ID := id; ds_DeploymentProcessRevisionID := revision; ds_Key := ds_Key d; ds_Name := ds_Name d;
     ds_ActionType := ds_ActionType d; ds_StepTemplateVersionID := ds_StepTemplateVersionID d;
     ds_ExecutionLocation := ds_ExecutionLocation d; ds_InputBindings := ds_InputBindings d;
     ds_Condition := ds_Condition d; ds_ChannelIDs := ds_ChannelIDs d; ds_EnvironmentIDs := ds_EnvironmentIDs d;
     ds_TargetTags := ds_TargetTags d; ds_FailureMode := ds_FailureMode d; ds_TimeoutSeconds := ds_TimeoutSeconds d;
     ds_RetryMaxAttempts := ds_RetryMaxAttempts d; ds_RetryIntervalSeconds := ds_RetryIntervalSeconds d;
     ds_RequiredPermissions := ds_RequiredPermissions d; ds_SortOrder := ds_SortOrder d;
     ds_Dependencies := ds_Dependencies d |}.
Definition with_relations (channels environments : list uuid) (dependencies : list string) (d : DeploymentProcessStep)
    : DeploymentProcessStep :=
  {| ds_ID := ds_ID d; ds_DeploymentProcessRevisionID := ds_DeploymentProcessRevisionID d; ds_Key := ds_Key d;
     ds_Name := ds_Name d; ds_ActionType := ds_ActionType d; ds_StepTemplateVersionID := ds_StepTemplateVersionID d;
     ds_ExecutionLocation := ds_ExecutionLocation d; ds_InputBindings := ds_InputBindings d;
     ds_Condition := ds_Condition d; ds_ChannelIDs := channels; ds_EnvironmentIDs := environments;
     ds_TargetTags := ds_TargetTags d; ds_FailureMode := ds_FailureMode d; ds_TimeoutSeconds := ds_TimeoutSeconds d;
     ds_RetryMaxAttempts := ds_RetryMaxAttempts d; ds_RetryIntervalSeconds := ds_RetryIntervalSeconds d;
     ds_RequiredPermissions := ds_RequiredPermissions d; ds_SortOrder := ds_SortOrder d;
     ds_Dependencies := dependencies |}.
Definition step_columns (d : DeploymentProcessStep) : DeploymentProcessStep := with_relations [] [] [] d.

Definition insertDeploymentProcessStepDependencies (revision : uuid) (steps : list DeploymentProcessStep)
    : list StepDependency :=
  steps ≫= λ d, imap (λ i k, {| sd_RevisionID := revision; sd_StepKey := ds_Key d; sd_DependsOnKey := k;
                                sd_SortOrder := Z.of_nat i |}) (ds_Dependencies d).
Definition insertDeploymentProcessStepChannels (org application : uuid) (steps : list DeploymentProcessStep)
    : list StepChannel :=
  steps ≫= λ d, imap (λ i c, {| sc_StepID := ds_ID d; sc_OrganizationID := org; sc_ApplicationID := application;
                                sc_ChannelID := c; sc_SortOrder := Z.of_nat i |}) (ds_ChannelIDs d).
Definition insertDeploymentProcessStepEnvironments (steps : list DeploymentProcessStep) : list StepEnvironment :=
  steps ≫= λ d, imap (λ i e, {| se_StepID := ds_ID d; se_EnvironmentID := e; se_SortOrder := Z.of_nat i |})
    (ds_EnvironmentIDs d).

Definition step_fits (d : DeploymentProcessStep) : bool :=
  fits_int4 (ds_TimeoutSeconds d) && fits_int4 (ds_RetryMaxAttempts d) && fits_int4 (ds_RetryIntervalSeconds d)
  && fits_int4 (ds_SortOrder d).

(** The rows of the steps and of their relations. The other constraints of
    these tables hold for checked steps: keys, sort orders and relations are
    unique in the new revision, dependencies name its steps, and the channels
    and environments were just found. *)
Definition insertDeploymentProcessSteps (env : penv) (revision org application : uuid)
    (steps : list DeploymentProcessStep) : ptx unit := λ s,
  let rows := imap (λ i, with_keys (new_step_id env i) revision) steps in
  if negb (forallb step_fits steps) then Err (Internal "could not insert steps DeploymentProcess") else
  if negb (bool_decide (NoDup (ds_ID <$> (Steps s ++ rows))))
  then Err (AlreadyExists "could not insert steps DeploymentProcess") else
  Ok (tt, set_steps (Steps s ++ (step_columns <$> rows))
    (StepDependencies s ++ insertDeploymentProcessStepDependencies revision rows)
    (StepChannels s ++ insertDeploymentProcessStepChannels org application rows)
    (StepEnvironments s ++ insertDeploymentProcessStepEnvironments rows) s).

(** Reading a revision back: the fields of a step that other tables hold. The
    further columns of the three orders decide nothing, because the sort orders
    of the steps of a revision and of the relations of a step are distinct. *)
Definition getDeploymentProcessStepDependencies (revision : uuid) (key : string) (s : pdb) : list string :=
  sd_DependsOnKey <$> stable_sort (less_by sd_SortOrder)
    (select_where (λ e, bool_decide (sd_RevisionID e = revision) && bool_decide (sd_StepKey e = key))
      (StepDependencies s)).
Definition getDeploymentProcessStepChannelIDs (step : uuid) (s : pdb) : list uuid :=
  sc_ChannelID <$> stable_sort (less_by sc_SortOrder)
    (select_where (λ c, bool_decide (sc_StepID c = step)) (StepChannels s)).
Definition getDeploymentProcessStepEnvironmentIDs (step : uuid) (s : pdb) : list uuid :=
  se_EnvironmentID <$> stable_sort (less_by se_SortOrder)
    (select_where (λ e, bool_decide (se_StepID e = step)) (StepEnvironments s)).

Definition load_step (s : pdb) (d : DeploymentProcessStep) : DeploymentProcessStep :=
  with_relations (getDeploymentProcessStepChannelIDs (ds_ID d) s) (getDeploymentProcessStepEnvironmentIDs (ds_ID d) s)
    (getDeploymentProcessStepDependencies (ds_DeploymentProcessRevisionID d) (ds_Key d) s) d.

Definition getDeploymentProcessSteps (revision : uuid) (s : pdb) : list DeploymentProcessStep :=
  load_step s <$> stable_sort (less_by ds_SortOrder)
    (select_where (λ d, bool_decide (ds_DeploymentProcessRevisionID d = revision)) (Steps s)).

Definition with_steps (steps : list DeploymentProcessStep) (r : DeploymentProcessRevision) : DeploymentProcessRevision :=
  {| dr_ID := dr_ID r; dr_OrganizationID := dr_OrganizationID r; dr_DeploymentProcessID := dr_DeploymentProcessID r;
     dr_RevisionNumber := dr_RevisionNumber r; dr_Description := dr_Description r; dr_Steps := steps |}.

Definition load_revision (s : pdb) (r : DeploymentProcessRevision) : DeploymentProcessRevision :=
  with_steps (getDeploymentProcessSteps (dr_ID r) s) r.

Definition getDeploymentProcessRevision (process revision org : uuid) (s : pdb)
    : result apierror DeploymentProcessRevision :=
  match select_where (λ r, bool_decide (dr_ID r = revision) && bool_decide (dr_DeploymentProcessID r = process)
      && bool_decide (dr_OrganizationID r = org)) (Revisions s) with
  | r :: _ => Ok (load_revision s r)
  | [] => Err NotFound
  end.

Definition GetDeploymentProcessRevisions (process org : uuid) (s : pdb)
    : result apierror (list DeploymentProcessRevision) :=
  match find_process process org s with
  | Err e => Err e
  | Ok _ => Ok (load_revision s <$> stable_sort (less_by dr_RevisionNumber)
      (select_where (λ r, bool_decide (dr_DeploymentProcessID r = process) && bool_decide (dr_OrganizationID r = org))
        (Revisions s)))
  end.

Definition insert_revision (r : DeploymentProcessRevision) : ptx unit := λ s,
  if contains (dr_ID <$> Revisions s) (dr_ID r)
  then Err (AlreadyExists "could not insert revision DeploymentProcess")
  else Ok (tt, set_revisions (Revisions s ++ [r]) s).

Section revisions.
Context `{SchemaValidator}.

Definition ValidateSteps (steps : list DeploymentProcessStep) : result apierror unit :=
  for_each (λ d, match ValidateInput (ds_ActionType d) (ds_InputBindings d) with
                 | Ok u => Ok u
                 | Err e => Err (step_error (ds_Key d) e)
                 end) steps.

Definition normalizeDeploymentProcessRevision (env : penv) (r : DeploymentProcessRevision)
    : result apierror DeploymentProcessRevision :=
  fail_if (is_nil (dr_OrganizationID r)) (BadRequest "organizationId is required") ≫= λ _,
  fail_if (is_nil (dr_DeploymentProcessID r)) (BadRequest "deploymentProcessId is required") ≫= λ _,
  fail_if (bool_decide (length (dr_Steps r) = 0)) (BadRequest "at least one step is required") ≫= λ _,
  normalize_steps [] [] (dr_Steps r) ≫= λ steps,
  ValidateSteps steps ≫= λ _,
  let keys := ds_Key <$> steps in
  validateDeploymentProcessStepGraph (range_order env keys) steps keys ≫= λ _,
  Ok {| dr_ID := dr_ID r; dr_OrganizationID := dr_OrganizationID r;
        dr_DeploymentProcessID := dr_DeploymentProcessID r; dr_RevisionNumber := dr_RevisionNumber r;
        dr_Description := TrimSpace (dr_Description r); dr_Steps := steps |}.

Definition create_revision (env : penv) (r : DeploymentProcessRevision) : ptx DeploymentProcessRevision :=
  getDeploymentProcess (dr_DeploymentProcessID r) (dr_OrganizationID r) ≫= λ process,
  EnsureConfigAsCodeDatabaseManagedForUpdate (dr_OrganizationID r) (dr_DeploymentProcessID r) ≫= λ _,
  ensureDeploymentProcessStepReferences (dp_OrganizationID process) (dp_ApplicationID process) (dr_Steps r) ≫= λ _,
  nextDeploymentProcessRevisionNumber (dp_ID process) ≫= λ number,
  let created := {| dr_ID := new_id env; dr_OrganizationID := dr_OrganizationID r;
                    dr_DeploymentProcessID := dr_DeploymentProcessID r; dr_RevisionNumber := number;
                    dr_Description := dr_Description r; dr_Steps := [] |} in
  insert_revision created ≫= λ _,
  insertDeploymentProcessSteps env (dr_ID created) (dp_OrganizationID process) (dp_ApplicationID process) (dr_Steps r)
    ≫= λ _,
  squery (getDeploymentProcessRevision (dp_ID process) (dr_ID created) (dp_OrganizationID process)).

Definition CreateDeploymentProcessRevision (env : penv) (revision : DeploymentProcessRevision) (s : pdb)
    : result apierror DeploymentProcessRevision * pdb :=
  match normalizeDeploymentProcessRevision env revision with
  | Err e => (Err e, s)
  | Ok r => RunSTx (create_revision env r) s
  end.
End revisions.
