(* ===== verification/ProcessGraph.v ===== *)
(** * The graph check of a deployment process

    The depth-first search of [validateDeploymentProcessStepGraph] accepts
    exactly the graphs whose steps can be ordered so that every step comes
    after its dependencies. *)
From S2P Require Import Prelude GoStrings Uuid GoRegexp StepRedaction TaskStore Transaction StepEvents ActionRegistry DeploymentProcess.
Open Scope list_scope.

Section search.
Context (graph : string -> list string).

Definition edge (k d : string) : Prop := d ∈ graph k.

(** A list in which every key comes before the ones that depend on it, newest first. *)
Inductive topo : list string -> Prop :=
| topo_nil : topo []
| topo_cons k l : (forall d, edge k d -> d ∈ l) -> k ∉ l -> topo l -> topo (k :: l).

Lemma topo_closed l a b : topo l -> a ∈ l -> tc edge a b -> b ∈ l.
Proof.
  intros Hl Ha Ht. revert Ha. assert (forall a b, a ∈ l -> edge a b -> b ∈ l) as Hstep.
  { clear a b Ht. induction Hl as [|k l Hd Hk Hl IH]; intros a b; [by intros ?%elem_of_nil|].
    intros [->|Ha]%elem_of_cons He; right; [by apply Hd|by eapply IH]. }
  induction Ht as [a b He|a c b He _ IH]; intros Ha; [by eapply Hstep|]. apply IH. by eapply Hstep.
Qed.

Lemma topo_acyclic l a : topo l -> a ∈ l -> ~ tc edge a a.
Proof.
  intros Hl. revert a. induction Hl as [|k l Hd Hk Hl IH]; intros a Ha Hc; [by apply elem_of_nil in Ha|].
  apply elem_of_cons in Ha as [->|Ha]; [|by apply (IH a)].
  apply Hk. assert (exists d, edge k d /\ rtc edge d k) as (d & He & Hr).
  { inversion Hc as [? He|? d ? He Hr]; [exists k; by split|exists d; split; [done|by apply tc_rtc]]. }
  apply rtc_tc in Hr as [->|Hr]; [by apply Hd|]. eapply (topo_closed l d k); [done|by apply Hd|done].
Qed.

Lemma topo_split l l1 k l2 : topo l -> l = l1 ++ k :: l2 -> forall d, edge k d -> d ∈ l2.
Proof.
  intros Hl. revert l1. induction Hl as [|a l Hd Hk Hl IH]; intros [|b l1] E; [done|done| |].
  - by injection E as -> ->.
  - injection E as -> ->. by eapply IH.
Qed.

(** The part of it that a closed set of keys selects. *)
Lemma topo_filter (keys l : list string) :
  (forall k d, k ∈ keys -> edge k d -> d ∈ keys) -> topo l -> topo (select_where (contains keys) l).
Proof.
  intros Hk. induction 1 as [|k l Hd Hn Hl IH]; [constructor|]. simpl. unfold select_where in *. simpl.
  destruct (contains keys k) eqn:Ek; [|done]. apply contains_true in Ek. constructor; [| |done].
  - intros d He. apply elem_of_select_where. split; [by apply Hd|]. apply contains_true. by eapply Hk.
  - by intros [Hin _]%elem_of_select_where.
Qed.

Lemma topo_NoDup l : topo l -> NoDup l.
Proof. induction 1; by constructor. Qed.

(** The outcome of a search from a key that all keys of the path reach. *)
Definition searched (m : marks) (keys : list string) (b : bool) (m' : marks) : Prop :=
  if b then exists a, tc edge a a
  else visiting m' = visiting m /\ topo (visited m') /\ (forall k, k ∈ visited m -> k ∈ visited m')
       /\ (forall k, k ∈ keys -> k ∈ visited m')
       /\ (forall k, k ∈ visited m' -> k ∉ visiting m).

Definition path_ok (m : marks) : Prop :=
  topo (visited m) /\ NoDup (visiting m) /\ (forall k, k ∈ visited m -> k ∉ visiting m).

Lemma remove_head key l : key ∉ l -> remove key (key :: l) = l.
Proof.
  intros Hk. unfold remove. simpl. rewrite bool_decide_eq_true_2 by done. simpl.
  apply filter_all_bool. intros x Hx. apply negb_true_iff, bool_decide_eq_false. by intros ->.
Qed.

(** The loop, for a search that meets its specification. *)
Lemma visit_all_searched (v : string -> marks -> option (bool * marks)) (reach : string -> Prop) keys :
  (forall key m b m', reach key -> path_ok m -> (forall k, k ∈ visiting m -> tc edge k key) ->
     v key m = Some (b, m') -> searched m [key] b m') ->
  forall m b m', path_ok m -> (forall key, key ∈ keys -> reach key /\ forall k, k ∈ visiting m -> tc edge k key) ->
  visit_all v keys m = Some (b, m') -> searched m keys b m'.
Proof.
  intros Hv. induction keys as [|key keys IH]; intros m b m' Hm Hk E; simpl in E.
  - injection E as <- <-. destruct Hm as (Ht & _ & Hd). split_and!; try done. by intros k Hk'%elem_of_nil.
  - destruct (v key m) as [[c m1]|] eqn:Ev; [|done].
    assert (key ∈ key :: keys) as Hin by by left. destruct (Hk key Hin) as [Hr Hp].
    pose proof (Hv key m c m1 Hr Hm Hp Ev) as H1. destruct c; [by injection E as <- <-|].
    destruct H1 as (E1 & Ht1 & Hsub1 & Hkey1 & Hd1).
    assert (path_ok m1) as Hm1 by (split_and!; rewrite ?E1; [done|apply Hm|done]).
    assert (forall key, key ∈ keys -> reach key /\ forall k, k ∈ visiting m1 -> tc edge k key) as Hk1.
    { intros k Hk'. rewrite E1. apply Hk. by right. }
    pose proof (IH m1 b m' Hm1 Hk1 E) as H2. destruct b; [done|].
    destruct H2 as (E2 & Ht2 & Hsub2 & Hkey2 & Hd2). split_and!.
    + congruence.
    + done.
    + auto.
    + intros k [->|Hk']%elem_of_cons; [apply Hsub2, Hkey1; by left|auto].
    + intros k Hk'. rewrite <- E1. by apply Hd2.
Qed.

Lemma visit_searched fuel key m b m' :
  path_ok m -> (forall k, k ∈ visiting m -> tc edge k key) -> visit fuel graph key m = Some (b, m') ->
  searched m [key] b m'.
Proof.
  revert key m b m'. induction fuel as [|fuel IH]; intros key m b m' Hm Hp E; [done|]. simpl in E.
  destruct (contains (visited m) key) eqn:Hvd.
  { injection E as <- <-. apply contains_true in Hvd. destruct Hm as (Ht & _ & Hd). split_and!; try done.
    by intros k ->%list_elem_of_singleton. }
  destruct (contains (visiting m) key) eqn:Hvs.
  { injection E as <- <-. apply contains_true in Hvs. exists key. by apply Hp. }
  apply contains_false in Hvd, Hvs. set (m0 := {| visiting := key :: visiting m; visited := visited m |}) in E.
  destruct (visit_all (visit fuel graph) (graph key) m0) as [[c m1]|] eqn:Ev; [|done].
  apply (visit_all_searched _ (λ _, True)) in Ev; [|by intros; eapply IH| |].
  2: { destruct Hm as (Ht & Hn & Hd). split_and!; [done|by constructor|].
       intros k Hk [->|Hk']%elem_of_cons; [done|by apply (Hd k)]. }
  2: { intros d Hd. split; [done|]. intros k [->|Hk]%elem_of_cons; [by apply tc_once|].
       eapply tc_r; [by apply Hp|done]. }
  destruct c; [by injection E as <- <-|]. injection E as <- <-.
  destruct Ev as (E1 & Ht1 & Hsub & Hkeys & Hd1). split_and!; simpl.
  - rewrite E1. by apply remove_head.
  - constructor; [done| |done]. intros Hk. apply (Hd1 key Hk). by left.
  - intros k Hk. right. auto.
  - intros k ->%list_elem_of_singleton. by left.
  - intros k [->|Hk]%elem_of_cons Hk'; [done|]. apply (Hd1 k Hk). by right.
Qed.

(** *** The fuel suffices *)

Lemma visit_all_visiting (v : string -> marks -> option (bool * marks)) keys m m' :
  (forall key m m', v key m = Some (false, m') -> visiting m' = visiting m) ->
  visit_all v keys m = Some (false, m') -> visiting m' = visiting m.
Proof.
  intros Hv. revert m. induction keys as [|key keys IH]; intros m E; simpl in E; [by injection E as <-|].
  destruct (v key m) as [[[] m1]|] eqn:Ev; [done| |done]. rewrite (IH m1 E). by eapply Hv.
Qed.

Lemma visit_visiting fuel key m m' : visit fuel graph key m = Some (false, m') -> visiting m' = visiting m.
Proof.
  revert key m m'. induction fuel as [|fuel IH]; intros key m m' E; [done|]. simpl in E.
  destruct (contains (visited m) key); [by injection E as <-|].
  destruct (contains (visiting m) key) eqn:Hvs; [done|]. apply contains_false in Hvs.
  destruct (visit_all _ _ _) as [[[] m1]|] eqn:Ev; [done| |done]. injection E as <-. simpl.
  apply visit_all_visiting in Ev; [|done]. rewrite Ev. by apply remove_head.
Qed.

Context (keys : list string) (Hkeys : forall k d, k ∈ keys -> edge k d -> d ∈ keys).

Definition on_path (m : marks) : Prop := NoDup (visiting m) /\ forall k, k ∈ visiting m -> k ∈ keys.

Lemma visit_all_total (v : string -> marks -> option (bool * marks)) l m :
  (forall key m', key ∈ l -> visiting m' = visiting m -> is_Some (v key m')) ->
  (forall key m m', v key m = Some (false, m') -> visiting m' = visiting m) ->
  is_Some (visit_all v l m).
Proof.
  intros Ht Hv. revert m Ht. induction l as [|key l IH]; intros m Ht; simpl; [by eexists|].
  destruct (Ht key m) as [[c m1] E]; [by left|done|]. rewrite E. destruct c; [by eexists|].
  apply IH. intros k m2 Hk Em. apply Ht; [by right|]. rewrite Em. by eapply Hv.
Qed.

Lemma visit_total fuel key m :
  on_path m -> key ∈ keys -> length keys < fuel + length (visiting m) -> is_Some (visit fuel graph key m).
Proof.
  revert key m. induction fuel as [|fuel IH]; intros key m [Hn Hin] Hkey Hf.
  - assert (length (visiting m) <= length keys); [|lia]. apply submseteq_length, NoDup_submseteq; auto.
  - simpl. destruct (contains (visited m) key); [by eexists|].
    destruct (contains (visiting m) key) eqn:Hvs; [by eexists|]. apply contains_false in Hvs.
    set (m0 := {| visiting := key :: visiting m; visited := visited m |}).
    assert (is_Some (visit_all (visit fuel graph) (graph key) m0)) as [[[] m1] E].
    { apply visit_all_total; [|by intros; eapply visit_visiting]. intros d m' Hd Em. apply IH.
      - split; rewrite Em; [by constructor|]. intros k [->|Hk]%elem_of_cons; auto.
      - by apply (Hkeys key).
      - rewrite Em. simpl. lia. }
    + rewrite E. by eexists.
    + rewrite E. by eexists.
Qed.

Lemma start_ok : path_ok {| visiting := []; visited := [] |}.
Proof. split_and!; [constructor|constructor|by intros k ?%elem_of_nil]. Qed.

(** The search decides whether the steps can be ordered. *)
Lemma has_cycle_spec :
  exists b, has_cycle keys graph = Some b
    /\ (b = true -> exists a, tc edge a a)
    /\ (b = false -> exists l, topo l /\ forall k, k ∈ keys -> k ∈ l).
Proof.
  unfold has_cycle. set (m := {| visiting := []; visited := [] |}).
  assert (is_Some (visit_all (visit (S (length keys)) graph) keys m)) as [[b m'] E].
  { apply visit_all_total; [|by intros; eapply visit_visiting]. intros key m' Hk Em. apply visit_total; [|done|].
    - unfold on_path. rewrite Em. split; [constructor|by intros k ?%elem_of_nil].
    - rewrite Em. simpl. lia. }
  exists b. rewrite E. split; [done|].
  apply (visit_all_searched _ (λ _, True)) in E; [|by intros; eapply visit_searched|apply start_ok|].
  2: { intros key _. split; [done|]. by intros k ?%elem_of_nil. }
  destruct b; split; try done. intros _. destruct E as (_ & Ht & _ & Hk & _). by exists (visited m').
Qed.
End search.

(** ** The check of the steps *)

Lemma check_dependencies_ok key keys seen deps :
  check_dependencies key keys seen deps = Ok tt <->
  NoDup deps /\ forall d, d ∈ deps -> d <> "" /\ d <> key /\ (d ∉ seen) /\ d ∈ keys.
Proof.
  revert seen. induction deps as [|d deps IH]; intros seen; simpl.
  { split; [|done]. intros _. split; [constructor|by intros d ?%elem_of_nil]. }
  assert (forall e, e ∈ d :: deps -> e = d \/ e ∈ deps) as Hc by (intros e; by rewrite elem_of_cons).
  assert (forall e : apierror, Err e = Ok tt <-> False) as Herr by done.
  case_bool_decide as E1.
  { split; [done|]. intros [_ H]. by destruct (H d) as [? _]; [left|]. }
  case_bool_decide as E2.
  { split; [done|]. intros [_ H]. by destruct (H d) as (_ & ? & _); [left|]. }
  destruct (contains seen d) eqn:E3.
  { apply contains_true in E3. split; [done|]. intros [_ H]. by destruct (H d) as (_ & _ & ? & _); [left|]. }
  destruct (contains keys d) eqn:E4; simpl.
  2: { apply contains_false in E4. split; [done|]. intros [_ H]. by destruct (H d) as (_ & _ & _ & ?); [left|]. }
  apply contains_false in E3. apply contains_true in E4. rewrite IH, NoDup_cons. split.
  - intros [Hn H]. split; [split; [|done]|].
    + intros Hd. destruct (H d Hd) as (_ & _ & Hs & _). apply Hs. by left.
    + intros e [->|He]%Hc; [done|]. destruct (H e He) as (? & ? & Hs & ?). split_and!; try done.
      intros He'. apply Hs. by right.
  - intros [[Hd Hn] H]. split; [done|]. intros e He. destruct (H e) as (? & ? & ? & ?); [by right|].
    split_and!; try done. intros [->|Hs]%elem_of_cons; done.
Qed.

Lemma graph_of_elem steps k d :
  d ∈ graph_of steps k <-> exists s, s ∈ steps /\ ds_Key s = k /\ d ∈ ds_Dependencies s.
Proof.
  unfold graph_of. rewrite list_elem_of_bind. split.
  - intros (s & Hd & Hs). case_bool_decide as E; [by exists s|by apply elem_of_nil in Hd].
  - intros (s & Hs & E & Hd). exists s. split; [|done]. by rewrite bool_decide_eq_true_2.
Qed.

(** What the check demands of the dependencies of each step. *)
Definition dependencies_ok (steps : list DeploymentProcessStep) : Prop :=
  forall s, s ∈ steps -> NoDup (ds_Dependencies s)
    /\ forall d, d ∈ ds_Dependencies s -> d <> "" /\ d <> ds_Key s /\ d ∈ (ds_Key <$> steps).

(** An order of execution: every step once, after all its dependencies. *)
Definition execution_order (steps : list DeploymentProcessStep) (plan : list string) : Prop :=
  plan ≡ₚ (ds_Key <$> steps)
  /\ forall before k after s d, plan = before ++ k :: after -> s ∈ steps -> ds_Key s = k ->
       d ∈ ds_Dependencies s -> d ∈ before.

Lemma for_each_dependencies steps :
  for_each (λ s, check_dependencies (ds_Key s) (ds_Key <$> steps) [] (ds_Dependencies s)) steps = Ok tt
  <-> dependencies_ok steps.
Proof.
  rewrite for_each_ok, Forall_forall. unfold dependencies_ok. split.
  - intros Hf s Hs. specialize (Hf s Hs). apply check_dependencies_ok in Hf as [Hn H]. split; [done|].
    intros d Hd. by destruct (H d Hd) as (? & ? & _ & ?).
  - intros Hf s Hs. apply check_dependencies_ok. destruct (Hf s Hs) as [Hn H]. split; [done|].
    intros d Hd. destruct (H d Hd) as (? & ? & ?). split_and!; try done. by intros ?%elem_of_nil.
Qed.

Lemma order_topo steps plan before rest :
  NoDup (ds_Key <$> steps) -> execution_order steps plan -> plan = before ++ rest -> topo (graph_of steps) (reverse before).
Proof.
  intros Hn [Hp Hplan]. revert rest. induction before as [|k before IH] using rev_ind; intros rest E; [constructor|].
  rewrite reverse_snoc. rewrite <- app_assoc in E. constructor.
  - intros d (s & Hs & Ek & Hd)%graph_of_elem. apply elem_of_reverse. by eapply Hplan.
  - rewrite elem_of_reverse. intros Hk. rewrite <- Hp, E in Hn. apply NoDup_app in Hn as (_ & Hn & _).
    apply (Hn k Hk). by left.
  - by eapply IH.
Qed.

Lemma dependencies_closed order steps :
  order ≡ₚ (ds_Key <$> steps) -> dependencies_ok steps ->
  forall k d, k ∈ order -> edge (graph_of steps) k d -> d ∈ order.
Proof.
  intros Ho Hd k d _ (s & Hs & _ & Hin)%graph_of_elem. rewrite Ho. by apply (proj2 (Hd s Hs) d).
Qed.

Lemma process_graph_accepted_aux order steps :
  NoDup (ds_Key <$> steps) -> order ≡ₚ (ds_Key <$> steps) ->
  validateDeploymentProcessStepGraph order steps (ds_Key <$> steps) = Ok tt
  <-> dependencies_ok steps /\ exists plan, execution_order steps plan.
Proof.
  intros Hn Ho. pose proof (dependencies_closed order steps Ho) as Hcl.
  unfold validateDeploymentProcessStepGraph. rewrite result_bind_ok. split.
  + intros ([] & Hd%for_each_dependencies & E). split; [done|].
    destruct (has_cycle_spec (graph_of steps) order (Hcl Hd)) as (b & Eb & _ & Hf). rewrite Eb in E.
    destruct b; [done|]. destruct (Hf eq_refl) as (l & Hl & Hk).
    apply (topo_filter _ order) in Hl; [|by apply Hcl]. set (l' := select_where _ l) in Hl.
    assert (forall k, k ∈ l' <-> k ∈ order) as El.
    { intros k. unfold l'. rewrite elem_of_select_where, contains_true. split; [by intros [_ ?]|auto]. }
    exists (reverse l'). split.
    * rewrite reverse_Permutation, <- Ho. apply NoDup_Permutation; [by eapply topo_NoDup| |done].
      by rewrite Ho.
    * intros before k after s d Ep Hs Ek Hin.
      assert (l' = reverse after ++ k :: reverse before) as El'.
      { rewrite <- (reverse_involutive l'), Ep. by rewrite reverse_app, reverse_cons, <- app_assoc. }
      apply elem_of_reverse. apply (topo_split (graph_of steps) l' _ _ _ Hl El').
      apply graph_of_elem. by exists s.
  + intros [Hd (plan & Hp & Hplan)]. exists tt. split; [by apply for_each_dependencies|].
    destruct (has_cycle_spec (graph_of steps) order (Hcl Hd)) as (b & -> & Ht & _). destruct b; [|done].
    destruct (Ht eq_refl) as (a & Ha). exfalso.
    pose proof (order_topo steps plan plan [] Hn (conj Hp Hplan) (eq_sym (app_nil_r plan))) as Htopo.
    apply (topo_acyclic (graph_of steps) (reverse plan) a Htopo); [|done].
    apply elem_of_reverse. rewrite Hp.
    assert (exists d, edge (graph_of steps) a d) as (d & (s & Hs & <- & _)%graph_of_elem)
      by (by inversion Ha; eexists). by apply list_elem_of_fmap_2.
Qed.

(** C36: the graph check accepts exactly the executable processes. Whatever the
    order in which Go ranges over the graph, the depth-first search ends, and
    the steps of a process with distinct keys are accepted exactly when each
    one names its dependencies once, correctly and not itself, and all steps
    can be put in an order in which every step comes after its dependencies. *)
Theorem process_graph_accepted_iff order steps :
  NoDup (ds_Key <$> steps) -> order ≡ₚ (ds_Key <$> steps) ->
  (dependencies_ok steps -> has_cycle order (graph_of steps) <> None)
  /\ (validateDeploymentProcessStepGraph order steps (ds_Key <$> steps) = Ok tt
      <-> dependencies_ok steps /\ exists plan, execution_order steps plan).
Proof.
  intros Hn Ho. split; [|by apply process_graph_accepted_aux]. intros Hd.
  by destruct (has_cycle_spec (graph_of steps) order (dependencies_closed order steps Ho Hd)) as (b & -> & _).
Qed.

(** ** Witness *)

Definition demo_step (key : string) (deps : list string) : DeploymentProcessStep :=
  {| ds_ID := Nil; ds_DeploymentProcessRevisionID := Nil; ds_Key := key; ds_Name := key; ds_ActionType := "distr.wait";
     ds_StepTemplateVersionID := None; ds_ExecutionLocation := "target"; ds_InputBindings := None; ds_Condition := "";
     ds_ChannelIDs := []; ds_EnvironmentIDs := []; ds_TargetTags := []; ds_FailureMode := ""; ds_TimeoutSeconds := 0;
     ds_RetryMaxAttempts := 0; ds_RetryIntervalSeconds := 0; ds_RequiredPermissions := []; ds_SortOrder := 0;
     ds_Dependencies := deps |}.

Definition demo_steps : list DeploymentProcessStep :=
  [demo_step "deploy" ["build"; "check"]; demo_step "check" ["build"]; demo_step "build" []].

Example cyclic_steps_rejected :
  validateDeploymentProcessStepGraph ["a"; "c"; "b"] [demo_step "a" ["b"]; demo_step "b" ["c"]; demo_step "c" ["b"]]
    ["a"; "b"; "c"] = Err (BadRequest "step dependencies must not contain cycles").
Proof. vm_compute. reflexivity. Qed.

Lemma process_graph_accepted_iff_witness :
  dependencies_ok demo_steps /\ exists plan, execution_order demo_steps plan.
Proof.
  apply (process_graph_accepted_iff ["check"; "build"; "deploy"] demo_steps).
  - apply (bool_decide_unpack (NoDup (ds_Key <$> demo_steps))). by vm_compute.
  - change (["check"; "build"; "deploy"] ≡ₚ ["deploy"; "check"; "build"]). solve_Permutation.
  - by vm_compute.
Defined.
