(* ===== verification/ProcessTables.v ===== *)
(** * The tables of deployment processes

    What was stored as a revision is read back unchanged, now and later: the
    invariant of the tables, the round trip through them, and that no operation
    changes a stored revision. *)
From S2P Require Import Prelude GoStrings Uuid GoRegexp StepRedaction TaskStore Transaction StepEvents ActionRegistry DeploymentProcess ProcessGraph.
Open Scope list_scope.

(** ** Lists *)

Lemma insert_sorted_fmap {A B} (f : A -> B) (less : A -> A -> bool) (less' : B -> B -> bool) x l :
  (forall x y, less' (f x) (f y) = less x y) ->
  f <$> insert_sorted less x l = insert_sorted less' (f x) (f <$> l).
Proof.
  intros Hf. induction l as [|y l IH]; [done|]. cbn [insert_sorted fmap list_fmap]. rewrite Hf.
  destruct (less y x); [|done]. cbn [fmap list_fmap]. f_equal. exact IH.
Qed.

Lemma stable_sort_fmap {A B} (f : A -> B) (less : A -> A -> bool) (less' : B -> B -> bool) l :
  (forall x y, less' (f x) (f y) = less x y) -> f <$> stable_sort less l = stable_sort less' (f <$> l).
Proof.
  intros Hf. induction l as [|x l IH]; [done|]. cbn [stable_sort fmap list_fmap].
  rewrite (insert_sorted_fmap f less less') by done. by rewrite IH.
Qed.

Lemma imap_sorted {A B} (f : nat -> A -> B) (num : B -> Z) l :
  (forall i x, num (f i x) = Z.of_nat i) -> stable_sort (less_by num) (imap f l) = imap f l.
Proof.
  intros Hf. apply stable_sort_id. revert f Hf.
  assert (forall n (f : nat -> A -> B), (forall i x, num (f i x) = Z.of_nat (n + i)) ->
    StronglySorted (not_after (less_by num)) (imap f l)) as H.
  { induction l as [|x l IH]; intros n f Hf; [constructor|]. rewrite imap_cons. constructor.
    - apply (IH (S n)). intros i y. simpl. rewrite Hf. f_equal. lia.
    - apply Forall_forall. intros b Hb. apply elem_of_lookup_imap in Hb as (i & y & -> & _).
      unfold not_after, less_by. simpl. rewrite !Hf. apply Z.ltb_ge. lia. }
  intros f Hf. by apply (H 0).
Qed.

Lemma fmap_imap_snd {A B} (f : nat -> A -> B) (back : B -> A) l :
  (forall i x, back (f i x) = x) -> back <$> imap f l = l.
Proof.
  revert f. induction l as [|x l IH]; intros f Hf; [done|]. rewrite imap_cons. cbn [fmap list_fmap].
  rewrite Hf. f_equal. apply IH. intros. apply Hf.
Qed.

(** ** The invariant *)

(** A list of steps that the checks accept, in the order of their sort orders. *)
Definition steps_valid (steps : list DeploymentProcessStep) : Prop :=
  steps <> [] /\ NoDup (ds_Key <$> steps) /\ StronglySorted Z.lt (ds_SortOrder <$> steps)
  /\ dependencies_ok steps /\ exists plan, execution_order steps plan.

Definition revisions_of (process : uuid) (s : pdb) : list DeploymentProcessRevision :=
  select_where (λ r, bool_decide (dr_DeploymentProcessID r = process)) (Revisions s).

(** Every row belongs to the row it refers to, the revisions of a process are
    numbered 1, 2, 3, ..., and the steps of a stored revision are valid. *)
Record p_inv (s : pdb) : Prop := {
  p_ids : NoDup (dp_ID <$> Processes s);
  p_revision_ids : NoDup (dr_ID <$> Revisions s);
  p_process r : r ∈ Revisions s -> exists p, p ∈ Processes s /\ dp_ID p = dr_DeploymentProcessID r
    /\ dp_OrganizationID p = dr_OrganizationID r;
  p_step_ids : NoDup (ds_ID <$> Steps s);
  p_step_revision d : d ∈ Steps s -> ds_DeploymentProcessRevisionID d ∈ dr_ID <$> Revisions s;
  p_dependency d : d ∈ StepDependencies s -> sd_RevisionID d ∈ dr_ID <$> Revisions s;
  p_channel c : c ∈ StepChannels s -> sc_StepID c ∈ ds_ID <$> Steps s;
  p_environment e : e ∈ StepEnvironments s -> se_StepID e ∈ ds_ID <$> Steps s;
  p_numbers process : dr_RevisionNumber <$> revisions_of process s = seqZ 1 (Z.of_nat (length (revisions_of process s)));
  p_valid r : r ∈ Revisions s -> steps_valid (getDeploymentProcessSteps (dr_ID r) s);
}.

(** ** Reading the steps of a revision *)

(** What the queries of a revision see. *)
Record same_rows (s s' : pdb) (revision : uuid) : Prop := {
  same_steps : select_where (λ d, bool_decide (ds_DeploymentProcessRevisionID d = revision)) (Steps s')
    = select_where (λ d, bool_decide (ds_DeploymentProcessRevisionID d = revision)) (Steps s);
  same_dependencies : select_where (λ d, bool_decide (sd_RevisionID d = revision)) (StepDependencies s')
    = select_where (λ d, bool_decide (sd_RevisionID d = revision)) (StepDependencies s);
  same_channels d : d ∈ Steps s -> ds_DeploymentProcessRevisionID d = revision ->
    select_where (λ c, bool_decide (sc_StepID c = ds_ID d)) (StepChannels s')
    = select_where (λ c, bool_decide (sc_StepID c = ds_ID d)) (StepChannels s);
  same_environments d : d ∈ Steps s -> ds_DeploymentProcessRevisionID d = revision ->
    select_where (λ e, bool_decide (se_StepID e = ds_ID d)) (StepEnvironments s')
    = select_where (λ e, bool_decide (se_StepID e = ds_ID d)) (StepEnvironments s);
}.

Lemma select_and {A} (p q : A -> bool) l : select_where (λ x, p x && q x) l = select_where q (select_where p l).
Proof.
  unfold select_where. induction l as [|x l IH]; [done|]. simpl. destruct (p x); simpl; [|done].
  destruct (q x); [by f_equal|done].
Qed.

Lemma same_rows_steps s s' revision :
  same_rows s s' revision -> getDeploymentProcessSteps revision s' = getDeploymentProcessSteps revision s.
Proof.
  intros [Hs Hd Hc He]. unfold getDeploymentProcessSteps. rewrite Hs.
  apply list_fmap_ext. intros i d Hi%list_elem_of_lookup_2. rewrite elem_of_stable_sort in Hi.
  apply elem_of_select_where in Hi as [Hin Er]. apply bool_decide_eq_true in Er.
  unfold load_step, getDeploymentProcessStepChannelIDs, getDeploymentProcessStepEnvironmentIDs,
    getDeploymentProcessStepDependencies.
  rewrite (Hc d Hin Er), (He d Hin Er). f_equal. rewrite !select_and, Er. by rewrite Hd.
Qed.

(** ** The rows of a new revision *)

Definition new_steps (env : penv) (steps : list DeploymentProcessStep) : list DeploymentProcessStep :=
  imap (λ i, with_keys (new_step_id env i) (new_id env)) steps.

(** The state after an insertion. *)
Definition inserted (env : penv) (org application : uuid) (row : DeploymentProcessRevision)
    (steps : list DeploymentProcessStep) (s : pdb) : pdb :=
  set_steps (Steps s ++ (step_columns <$> new_steps env steps))
    (StepDependencies s ++ insertDeploymentProcessStepDependencies (new_id env) (new_steps env steps))
    (StepChannels s ++ insertDeploymentProcessStepChannels org application (new_steps env steps))
    (StepEnvironments s ++ insertDeploymentProcessStepEnvironments (new_steps env steps))
    (set_revisions (Revisions s ++ [row]) s).

Lemma new_steps_revision env steps d : d ∈ new_steps env steps -> ds_DeploymentProcessRevisionID d = new_id env.
Proof. intros (i & e & -> & _)%elem_of_lookup_imap. done. Qed.

Lemma new_steps_same {A} (f : DeploymentProcessStep -> A) env steps :
  (forall id revision d, f (with_keys id revision d) = f d) -> f <$> new_steps env steps = f <$> steps.
Proof.
  intros Hf. unfold new_steps. generalize (new_step_id env).
  induction steps as [|d steps IH]; intros ids; [done|]. rewrite imap_cons. cbn [fmap list_fmap]. rewrite Hf. f_equal.
  apply (IH (ids ∘ S)).
Qed.

Section inserted.
Context (env : penv) (org application : uuid) (row : DeploymentProcessRevision) (steps : list DeploymentProcessStep)
  (s : pdb) (Hs : p_inv s).
Context (Hrow : dr_ID row = new_id env) (Hfresh : new_id env ∉ dr_ID <$> Revisions s).
Context (Hids : NoDup (ds_ID <$> (Steps s ++ new_steps env steps))).
Context (Hkeys : NoDup (ds_Key <$> steps)).

Let s' := inserted env org application row steps s.

Lemma new_ids : NoDup (ds_ID <$> new_steps env steps).
Proof. rewrite fmap_app in Hids. by apply NoDup_app in Hids as (_ & _ & ?). Qed.

Lemma old_id d e : d ∈ Steps s -> e ∈ new_steps env steps -> ds_ID d <> ds_ID e.
Proof.
  intros Hd He E. rewrite fmap_app in Hids. apply NoDup_app in Hids as (_ & H & _).
  apply (H (ds_ID d)); [by apply list_elem_of_fmap_2|]. rewrite E. by apply list_elem_of_fmap_2.
Qed.

(** The revisions that were there before. *)
Lemma inserted_old revision : revision ∈ dr_ID <$> Revisions s -> same_rows s s' revision.
Proof.
  intros Hr. assert (revision <> new_id env) as Hne by (by intros ->). unfold s', inserted. split; simpl.
  - rewrite filter_app_bool, (select_none _ (_ <$> _)), app_nil_r; [done|].
    intros d (e & -> & He)%list_elem_of_fmap. apply bool_decide_eq_false. simpl.
    rewrite (new_steps_revision env steps e He). congruence.
  - rewrite filter_app_bool, (select_none _ (insertDeploymentProcessStepDependencies _ _)), app_nil_r; [done|].
    intros d (e & Hd & He)%list_elem_of_bind. apply elem_of_lookup_imap in Hd as (i & k & -> & _).
    apply bool_decide_eq_false. simpl. congruence.
  - intros d Hd _. rewrite filter_app_bool, (select_none _ (insertDeploymentProcessStepChannels _ _ _)), app_nil_r; [done|].
    intros c (e & Hc & He)%list_elem_of_bind. apply elem_of_lookup_imap in Hc as (i & k & -> & _).
    apply bool_decide_eq_false. simpl. intros E. by apply (old_id d e).
  - intros d Hd _. rewrite filter_app_bool, (select_none _ (insertDeploymentProcessStepEnvironments _)), app_nil_r; [done|].
    intros c (e & Hc & He)%list_elem_of_bind. apply elem_of_lookup_imap in Hc as (i & k & -> & _).
    apply bool_decide_eq_false. simpl. intros E. by apply (old_id d e).
Qed.

Lemma dependency_rows_revision revision l :
  select_where (λ e, bool_decide (sd_RevisionID e = revision)) (insertDeploymentProcessStepDependencies revision l)
  = insertDeploymentProcessStepDependencies revision l.
Proof.
  apply filter_all_bool. intros b (e & Hb & _)%list_elem_of_bind. apply elem_of_lookup_imap in Hb as (i & k & -> & _).
  by apply bool_decide_eq_true.
Qed.

(** A new step is read back as it was. *)
Lemma load_new d : d ∈ new_steps env steps -> load_step s' (step_columns d) = d.
Proof.
  intros Hd. unfold load_step, getDeploymentProcessStepChannelIDs, getDeploymentProcessStepEnvironmentIDs,
    getDeploymentProcessStepDependencies, s', inserted.
  cbn [step_columns with_relations ds_ID ds_DeploymentProcessRevisionID ds_Key set_steps StepChannels StepEnvironments
    StepDependencies].
  rewrite (new_steps_revision env steps d Hd). rewrite !filter_app_bool.
  rewrite (select_none _ (StepChannels s)), (select_none _ (StepEnvironments s)), (select_none _ (StepDependencies s)).
  - simpl app. unfold insertDeploymentProcessStepChannels, insertDeploymentProcessStepEnvironments,
      insertDeploymentProcessStepDependencies.
    rewrite (select_group sc_StepID ds_ID), (select_group se_StepID ds_ID); [|apply new_ids| |done|apply new_ids| |done].
    2, 3: intros a b (i & k & -> & _)%elem_of_lookup_imap; done.
    rewrite select_and. change (new_steps env steps ≫= _) with
      (insertDeploymentProcessStepDependencies (new_id env) (new_steps env steps)). rewrite dependency_rows_revision.
    unfold insertDeploymentProcessStepDependencies.
    rewrite (select_group sd_StepKey ds_Key); [|by rewrite (new_steps_same ds_Key)| |done].
    2: { intros a b (i & k & -> & _)%elem_of_lookup_imap. done. }
    rewrite !imap_sorted by done. rewrite !fmap_imap_snd by done. by destruct d.
  - intros e He. apply andb_false_iff. left. apply bool_decide_eq_false. intros E. apply Hfresh. rewrite <- E.
    by apply (p_dependency s Hs).
  - intros e (f & Ef & Hf)%(p_environment s Hs)%list_elem_of_fmap. apply bool_decide_eq_false. rewrite Ef. by apply old_id.
  - intros e (f & Ef & Hf)%(p_channel s Hs)%list_elem_of_fmap. apply bool_decide_eq_false. rewrite Ef. by apply old_id.
Qed.

Lemma inserted_steps :
  getDeploymentProcessSteps (new_id env) s' = stable_sort (less_by ds_SortOrder) (new_steps env steps).
Proof.
  unfold getDeploymentProcessSteps. replace (select_where _ (Steps s')) with (step_columns <$> new_steps env steps).
  - rewrite <- (stable_sort_fmap step_columns (less_by ds_SortOrder)) by done. rewrite <- list_fmap_compose.
    rewrite <- (list_fmap_id (stable_sort _ (new_steps env steps))) at 2. apply list_fmap_ext.
    intros i d Hi%list_elem_of_lookup_2. rewrite elem_of_stable_sort in Hi. by apply load_new.
  - unfold s', inserted. simpl. rewrite filter_app_bool, (select_none _ (Steps s)).
    + simpl. unfold select_where. rewrite filter_all_bool; [done|]. intros d (e & -> & He)%list_elem_of_fmap.
      apply bool_decide_eq_true. exact (new_steps_revision env steps e He).
    + intros d Hd%(p_step_revision s Hs). apply bool_decide_eq_false. intros E. by rewrite E in Hd.
Qed.
End inserted.

(** ** What the checks give *)

Lemma normalize_steps_ok keys orders steps l :
  normalize_steps keys orders steps = Ok l ->
  length l = length steps /\ NoDup (ds_Key <$> l) /\ NoDup (ds_SortOrder <$> l)
  /\ (forall d, d ∈ l -> (ds_Key d ∉ keys) /\ (ds_SortOrder d ∉ orders)).
Proof.
  revert keys orders l. induction steps as [|d steps IH]; intros keys orders l; simpl.
  { intros [= <-]. split_and!; [done|apply NoDup_nil_2|apply NoDup_nil_2|by intros ? ?%elem_of_nil]. }
  intros (e & _ & E)%result_bind_ok. apply result_bind_ok in E as ([] & Hk%fail_if_ok & E).
  apply result_bind_ok in E as ([] & Ho%fail_if_ok & E). apply result_bind_ok in E as (l' & E & [= <-]).
  apply contains_false in Hk, Ho. apply IH in E as (El & Hnk & Hno & Hd). split_and!.
  - simpl. congruence.
  - simpl. constructor; [|done]. intros (f & Ef & Hf)%list_elem_of_fmap. destruct (Hd f Hf) as [H _]. apply H.
    rewrite <- Ef. by left.
  - simpl. constructor; [|done]. intros (f & Ef & Hf)%list_elem_of_fmap. destruct (Hd f Hf) as [_ H]. apply H.
    rewrite <- Ef. by left.
  - intros f [->|Hf]%elem_of_cons; [done|]. destruct (Hd f Hf) as [H1 H2].
    split; intros Hin; [apply H1|apply H2]; by right.
Qed.

(** Steps with distinct sort orders are sorted strictly. *)
Lemma sorted_steps l :
  NoDup (ds_SortOrder <$> l) -> StronglySorted Z.lt (ds_SortOrder <$> stable_sort (less_by ds_SortOrder) l).
Proof.
  intros Hn. pose proof (stable_sort_sorted (less_by ds_SortOrder) l) as Hs.
  rewrite <- (stable_sort_perm (less_by ds_SortOrder) l) in Hn.
  induction Hs as [|d k Hs IH Hd]; [constructor|]. simpl in Hn. apply NoDup_cons in Hn as [Hdk Hn].
  constructor; [by apply IH|]. apply Forall_forall. intros z (e & -> & He)%list_elem_of_fmap.
  rewrite Forall_forall in Hd. specialize (Hd e He). unfold not_after, less_by in Hd. apply Z.ltb_ge in Hd.
  assert (ds_SortOrder d <> ds_SortOrder e); [|lia]. intros E. apply Hdk. rewrite E. by apply list_elem_of_fmap_2.
Qed.

Lemma dependencies_ok_perm k l : k ≡ₚ l -> dependencies_ok l -> dependencies_ok k.
Proof.
  intros Hp Hl d Hd. rewrite Hp in Hd. destruct (Hl d Hd) as [H1 H2]. split; [done|]. intros e He.
  destruct (H2 e He) as (? & ? & ?). split_and!; [done|done|by rewrite Hp].
Qed.

Lemma execution_order_perm k l plan : k ≡ₚ l -> execution_order l plan -> execution_order k plan.
Proof.
  intros Hp [H1 H2]. split; [by rewrite Hp|]. intros before key after d e E Hd. rewrite Hp in Hd. by apply (H2 before key after d e).
Qed.

(** The relations of a step do not depend on its keys. *)
Lemma new_steps_elem env steps d :
  d ∈ new_steps env steps -> exists e id, e ∈ steps /\ d = with_keys id (new_id env) e.
Proof. intros (i & e & -> & He%list_elem_of_lookup_2)%elem_of_lookup_imap. by exists e, (new_step_id env i). Qed.

Lemma new_dependencies_ok env steps : dependencies_ok steps -> dependencies_ok (new_steps env steps).
Proof.
  intros Hd d (e & id & He & ->)%new_steps_elem. rewrite (new_steps_same ds_Key) by done. by apply (Hd e He).
Qed.

Lemma new_execution_order env steps plan : execution_order steps plan -> execution_order (new_steps env steps) plan.
Proof.
  intros [H1 H2]. split; [by rewrite (new_steps_same ds_Key)|].
  intros before key after d k E (e & id & He & ->)%new_steps_elem. by apply (H2 before key after e).
Qed.

Definition range_ok (env : penv) : Prop := forall l, range_order env l ≡ₚ l.

Section process.
Context `{SchemaValidator}.

Lemma normalize_revision_ok env revision r :
  range_ok env -> normalizeDeploymentProcessRevision env revision = Ok r ->
  dr_Steps r <> [] /\ NoDup (ds_Key <$> dr_Steps r) /\ NoDup (ds_SortOrder <$> dr_Steps r)
  /\ dependencies_ok (dr_Steps r) /\ exists plan, execution_order (dr_Steps r) plan.
Proof.
  intros Hr E. unfold normalizeDeploymentProcessRevision in E.
  apply result_bind_ok in E as (_ & _ & E). apply result_bind_ok in E as (_ & _ & E).
  apply result_bind_ok in E as ([] & Hne%fail_if_ok & E). apply result_bind_ok in E as (l & Hl & E).
  apply result_bind_ok in E as (_ & _ & E). apply result_bind_ok in E as ([] & Hg & [= <-]). simpl.
  apply normalize_steps_ok in Hl as (El & Hk & Ho & _). apply bool_decide_eq_false in Hne.
  apply (process_graph_accepted_aux (range_order env (ds_Key <$> l)) l Hk (Hr _)) in Hg as [Hd Hp].
  split_and!; try done. intros ->. by rewrite <- El in Hne.
Qed.

(** The transaction that stores a revision. *)
Lemma create_revision_ok env r s created s' :
  create_revision env r s = Ok (created, s') ->
  exists p number, let row := {| dr_ID := new_id env; dr_OrganizationID := dr_OrganizationID r;
      dr_DeploymentProcessID := dr_DeploymentProcessID r; dr_RevisionNumber := number;
      dr_Description := dr_Description r; dr_Steps := [] |} in
    p ∈ Processes s /\ dp_ID p = dr_DeploymentProcessID r /\ dp_OrganizationID p = dr_OrganizationID r
    /\ number = (foldr Z.max 0 (dr_RevisionNumber <$> revisions_of (dr_DeploymentProcessID r) s) + 1)%Z
    /\ (new_id env ∉ dr_ID <$> Revisions s) /\ NoDup (ds_ID <$> (Steps s ++ new_steps env (dr_Steps r)))
    /\ s' = inserted env (dp_OrganizationID p) (dp_ApplicationID p) row (dr_Steps r) s
    /\ getDeploymentProcessRevision (dr_DeploymentProcessID r) (new_id env) (dr_OrganizationID r) s' = Ok created.
Proof.
  intros E. unfold create_revision in E. apply stx_bind_ok in E as (p & s1 & [Hp ->]%squery_ok & E).
  apply stx_bind_ok in E as ([] & s1 & Hg & E).
  unfold EnsureConfigAsCodeDatabaseManagedForUpdate in Hg. apply stx_bind_ok in Hg as (_ & s2 & [_ ->]%squery_ok & Hg).
  apply sforbid_ok in Hg as [_ ->]. apply stx_bind_ok in E as ([] & s1 & Hrefs & E).
  unfold ensureDeploymentProcessStepReferences in Hrefs. apply squery_ok in Hrefs as [_ ->].
  apply stx_bind_ok in E as (number & s1 & Hn & E). unfold nextDeploymentProcessRevisionNumber in Hn.
  destruct (fits_int4 _); [|done]. injection Hn as <- <-.
  apply stx_bind_ok in E as ([] & s1 & Hi & E). unfold insert_revision in Hi. cbn [dr_ID] in Hi.
  destruct (contains _ (new_id env)) eqn:Hfresh; [done|]. injection Hi as <-. apply contains_false in Hfresh.
  apply stx_bind_ok in E as ([] & s1 & Hi & E). unfold insertDeploymentProcessSteps in Hi.
  destruct (negb (forallb _ _)); [done|]. case_bool_decide as Hids; [|done]. injection Hi as <-.
  apply squery_ok in E as [E ->]. unfold find_process in Hp.
  destruct (select_where _ (Processes s)) as [|q l] eqn:Eq; [done|]. injection Hp as ->.
  assert (p ∈ Processes s /\ process_where (dr_DeploymentProcessID r) (dr_OrganizationID r) p = true) as [Hin Hw].
  { apply elem_of_select_where. rewrite Eq. by left. }
  unfold process_where in Hw. apply andb_true_iff in Hw as [Ei%bool_decide_eq_true Eo%bool_decide_eq_true].
  rewrite Ei in *. rewrite Eo in *. eexists p, _. rewrite Eo. by split_and!.
Qed.

(** *** The operations keep the invariant *)

Lemma max_seqZ n : (0 <= n)%Z -> foldr Z.max 0%Z (seqZ 1 n) = n.
Proof.
  intros Hn. assert (forall k m, (0 <= m)%Z -> (0 < k)%Z -> foldr Z.max 0%Z (seqZ k m) = if (m =? 0)%Z then 0%Z else (k + m - 1)%Z)
    as H'.
  { intros k m Hm. revert k. pattern m. apply natlike_ind; [done| |done]. clear m Hm. intros m Hm IH k Hk.
    rewrite seqZ_cons by lia. simpl. rewrite Z.pred_succ, IH by lia.
    destruct (Z.eqb_spec m 0), (Z.eqb_spec (Z.succ m) 0); lia. }
  rewrite H' by lia. destruct (Z.eqb_spec n 0); lia.
Qed.

Lemma revisions_of_app process l (s : pdb) :
  revisions_of process (set_revisions (Revisions s ++ l) s)
  = revisions_of process s ++ select_where (λ r, bool_decide (dr_DeploymentProcessID r = process)) l.
Proof. apply filter_app_bool. Qed.

Lemma p_inv_inserted env org application row steps s p :
  p_inv s -> dr_ID row = new_id env -> (new_id env ∉ dr_ID <$> Revisions s) ->
  NoDup (ds_ID <$> (Steps s ++ new_steps env steps)) -> NoDup (ds_Key <$> steps) -> NoDup (ds_SortOrder <$> steps) ->
  steps <> [] -> dependencies_ok steps -> (exists plan, execution_order steps plan) ->
  p ∈ Processes s -> dp_ID p = dr_DeploymentProcessID row -> dp_OrganizationID p = dr_OrganizationID row ->
  dr_RevisionNumber row
    = (foldr Z.max 0 (dr_RevisionNumber <$> revisions_of (dr_DeploymentProcessID row) s) + 1)%Z ->
  p_inv (inserted env org application row steps s).
Proof.
  intros Hs Hrow Hfresh Hids Hkeys Hsort Hne Hdeps [plan Hplan] Hp Hpi Hpo Hnum.
  pose proof (inserted_old env org application row steps s Hfresh Hids) as Hold.
  assert (forall r, r ∈ Revisions s ++ [row] -> r ∈ Revisions s \/ r = row) as Hin.
  { intros r [Hr| ->%list_elem_of_singleton]%elem_of_app; auto. }
  assert (ds_ID <$> (step_columns <$> new_steps env steps) = ds_ID <$> new_steps env steps) as Ecol
    by (rewrite <- list_fmap_compose; by apply list_fmap_ext).
  assert (forall id, id ∈ ds_ID <$> new_steps env steps ->
    id ∈ ds_ID <$> (Steps s ++ (step_columns <$> new_steps env steps))) as Hnewid.
  { intros id Hid. rewrite fmap_app, Ecol, elem_of_app. by right. }
  split.
  - apply Hs.
  - unfold inserted. simpl. rewrite fmap_app. apply NoDup_app. split_and!; [apply Hs| |apply NoDup_singleton].
    intros id Hid ->%list_elem_of_singleton. by rewrite Hrow in Hid.
  - intros r [Hr| ->]%Hin; [by apply Hs|by exists p].
  - unfold inserted. simpl. by rewrite fmap_app, Ecol, <- fmap_app.
  - intros d. unfold inserted. simpl. rewrite fmap_app, !elem_of_app. intros [Hd|Hd].
    + left. by apply Hs.
    + apply list_elem_of_fmap in Hd as (e & -> & He). right. simpl. rewrite list_elem_of_singleton, Hrow.
      by apply (new_steps_revision env steps).
  - intros d. unfold inserted. simpl. rewrite fmap_app, !elem_of_app. intros [Hd|Hd].
    + left. by apply Hs.
    + apply list_elem_of_bind in Hd as (e & Hd & He). apply elem_of_lookup_imap in Hd as (i & k & -> & _).
      right. simpl. by rewrite list_elem_of_singleton, Hrow.
  - intros c. unfold inserted. simpl. rewrite elem_of_app. intros [Hc|Hc].
    + apply (p_channel s Hs) in Hc. rewrite fmap_app, elem_of_app. by left.
    + apply list_elem_of_bind in Hc as (e & Hc & He). apply elem_of_lookup_imap in Hc as (i & k & -> & _).
      apply Hnewid. simpl. by apply list_elem_of_fmap_2.
  - intros c. unfold inserted. simpl. rewrite elem_of_app. intros [Hc|Hc].
    + apply (p_environment s Hs) in Hc. rewrite fmap_app, elem_of_app. by left.
    + apply list_elem_of_bind in Hc as (e & Hc & He). apply elem_of_lookup_imap in Hc as (i & k & -> & _).
      apply Hnewid. simpl. by apply list_elem_of_fmap_2.
  - intros process. change (revisions_of process (inserted env org application row steps s))
      with (revisions_of process (set_revisions (Revisions s ++ [row]) s)).
    rewrite revisions_of_app. unfold select_where. simpl. case_bool_decide as E; [|rewrite app_nil_r; apply Hs].
    rewrite fmap_app, length_app, (p_numbers s Hs process). simpl. rewrite Hnum, E, (p_numbers s Hs process).
    rewrite max_seqZ by lia. rewrite Nat2Z.inj_add, seqZ_app by lia. f_equal. simpl.
    rewrite seqZ_cons by lia. simpl. f_equal. lia.
  - intros r [Hr| ->]%Hin.
    + rewrite (same_rows_steps s); [by apply Hs|]. apply Hold. by apply list_elem_of_fmap_2.
    + rewrite Hrow, (inserted_steps env org application row steps s Hs Hfresh Hids Hkeys).
      pose proof (stable_sort_perm (less_by ds_SortOrder) (new_steps env steps)) as Hperm. split_and!.
      * intros E. rewrite E in Hperm. apply Permutation_nil in Hperm. apply Hne.
        destruct steps; [done|]. by unfold new_steps in Hperm; rewrite imap_cons in Hperm.
      * rewrite Hperm. by rewrite (new_steps_same ds_Key).
      * apply sorted_steps. by rewrite (new_steps_same ds_SortOrder).
      * eapply dependencies_ok_perm; [exact Hperm|]. by apply new_dependencies_ok.
      * exists plan. eapply execution_order_perm; [exact Hperm|]. by apply new_execution_order.
Qed.

Lemma select_select {A} (c d : A -> bool) l :
  (forall x, x ∈ l -> c x = true -> d x = true) -> select_where c (select_where d l) = select_where c l.
Proof.
  intros Hcd. rewrite <- select_and. apply select_ext. intros x Hx. specialize (Hcd x Hx).
  destruct (c x), (d x); try done. by specialize (Hcd eq_refl).
Qed.

(** Nothing but the processes changes. *)
Lemma inv_processes s l :
  p_inv s -> NoDup (dp_ID <$> l) ->
  (forall r, r ∈ Revisions s -> exists p, p ∈ l /\ dp_ID p = dr_DeploymentProcessID r
     /\ dp_OrganizationID p = dr_OrganizationID r) ->
  p_inv (set_processes l s).
Proof. intros Hs Hn Hl. split; try apply Hs; done. Qed.

Lemma inv_references s a c e snapshots git : p_inv s -> p_inv (set_references a c e snapshots git s).
Proof. intros Hs. split; apply Hs. Qed.

Lemma ensure_managed_ok org id s u s' : EnsureConfigAsCodeDatabaseManagedForUpdate org id s = Ok (u, s') -> s' = s.
Proof. unfold EnsureConfigAsCodeDatabaseManagedForUpdate. intros (p & s1 & [_ ->]%squery_ok & [_ ->]%sforbid_ok)%stx_bind_ok. done. Qed.

Lemma ensure_application_ok org application s u s' :
  ensureDeploymentProcessApplication org application s = Ok (u, s') -> s' = s.
Proof. unfold ensureDeploymentProcessApplication. by intros [_ ->]%sforbid_ok. Qed.

Lemma create_process_ok env process s res s' :
  CreateDeploymentProcess env process s = (res, s') ->
  s' = s \/ exists p, (dp_ID p ∉ dp_ID <$> Processes s) /\ s' = set_processes (Processes s ++ [p]) s.
Proof.
  unfold CreateDeploymentProcess. destruct (normalizeDeploymentProcess process) as [p|]; [|intros [= _ <-]; by left].
  intros [(u & -> & E)|(e & -> & _ & ->)]%RunSTx_cases; [right|by left].
  apply stx_bind_ok in E as ([] & s1 & ->%ensure_application_ok & E). unfold insert_process in E.
  destruct (negb (fits_int4 _)); [done|]. destruct (contains _ _) eqn:Hc; [done|]. apply contains_false in Hc.
  destruct (name_taken _ _); [done|]. injection E as _ <-. by eexists.
Qed.

Lemma update_process_ok process s res s' :
  UpdateDeploymentProcess process s = (res, s') ->
  s' = s \/ exists p, s' = set_processes (update_where (process_where (dp_ID p) (dp_OrganizationID p)) (λ _, p)
    (Processes s)) s.
Proof.
  unfold UpdateDeploymentProcess. destruct (normalizeDeploymentProcess process) as [p|]; [|intros [= _ <-]; by left].
  intros [(u & -> & E)|(e & -> & _ & ->)]%RunSTx_cases; [right|by left].
  apply stx_bind_ok in E as (q & s1 & [_ ->]%squery_ok & E).
  apply stx_bind_ok in E as ([] & s1 & ->%ensure_managed_ok & E).
  apply stx_bind_ok in E as ([] & s1 & ->%ensure_application_ok & E). stx_inv. unfold update_process in E.
  destruct (negb (fits_int4 _)); [done|]. destruct (name_taken _ _); [done|]. destruct (exists_where _ _); [|done].
  injection E as _ <-. by exists p.
Qed.

(** The rows that a deletion keeps. *)
Definition deleted (id org : uuid) (s s' : pdb) : Prop :=
  let revisions := select_where (λ r, negb (bool_decide (dr_DeploymentProcessID r = id))) (Revisions s) in
  let steps := select_where (λ d, contains (dr_ID <$> revisions) (ds_DeploymentProcessRevisionID d)) (Steps s) in
  Processes s' = select_where (λ p, negb (process_where id org p)) (Processes s)
  /\ Revisions s' = revisions /\ Steps s' = steps
  /\ StepDependencies s' = select_where (λ d, contains (dr_ID <$> revisions) (sd_RevisionID d)) (StepDependencies s)
  /\ StepChannels s' = select_where (λ c, contains (ds_ID <$> steps) (sc_StepID c)) (StepChannels s)
  /\ StepEnvironments s' = select_where (λ e, contains (ds_ID <$> steps) (se_StepID e)) (StepEnvironments s).

Lemma delete_process_ok id org s res s' :
  DeleteDeploymentProcessWithID id org s = (res, s') -> s' = s \/ (res = Ok tt /\ deleted id org s s').
Proof.
  unfold DeleteDeploymentProcessWithID. intros [([] & -> & E)|(e & -> & _ & ->)]%RunSTx_cases; [right|by left].
  apply stx_bind_ok in E as ([] & s1 & ->%ensure_managed_ok & E). apply stx_bind_ok in E as ([] & s1 & Ed & E).
  injection Ed as <-. unfold delete_process in E. destruct (contains _ _); [done|]. destruct (negb _); [done|].
  injection E as <-. by split_and!.
Qed.

Lemma deleted_rows id org s s' r :
  deleted id org s s' -> r ∈ Revisions s' -> same_rows s s' (dr_ID r).
Proof.
  intros (_ & ER & ES & ED & EC & EE) Hr. rewrite ER in Hr. pose proof (list_elem_of_fmap_2 dr_ID _ _ Hr) as Hk.
  set (revisions := select_where _ (Revisions s)) in *.
  assert (forall d, d ∈ Steps s -> ds_DeploymentProcessRevisionID d = dr_ID r ->
    ds_ID d ∈ ds_ID <$> select_where (λ d, contains (dr_ID <$> revisions) (ds_DeploymentProcessRevisionID d)) (Steps s))
    as Hstep.
  { intros d Hd E. apply list_elem_of_fmap_2, elem_of_select_where. split; [done|]. apply contains_true. by rewrite E. }
  split.
  - rewrite ES. apply select_select. intros d _ E%bool_decide_eq_true. apply contains_true. by rewrite E.
  - rewrite ED. apply select_select. intros d _ E%bool_decide_eq_true. apply contains_true. by rewrite E.
  - intros d Hd E. rewrite EC. apply select_select. intros c _ Ec%bool_decide_eq_true. apply contains_true.
    rewrite Ec. by apply Hstep.
  - intros d Hd E. rewrite EE. apply select_select. intros c _ Ec%bool_decide_eq_true. apply contains_true.
    rewrite Ec. by apply Hstep.
Qed.

Lemma inv_deleted id org s s' : p_inv s -> deleted id org s s' -> p_inv s'.
Proof.
  intros Hs Hd. pose proof Hd as (EP & ER & ES & ED & EC & EE).
  split; rewrite ?EP, ?ER, ?ES, ?ED, ?EC, ?EE; try (apply fmap_select_NoDup, Hs).
  - intros r [Hr Hne]%elem_of_select_where. apply negb_true_iff, bool_decide_eq_false in Hne.
    destruct (p_process s Hs r Hr) as (p & Hp & Ei & Eo). exists p. split; [|done]. apply elem_of_select_where.
    split; [done|]. apply negb_true_iff. unfold process_where. rewrite (bool_decide_eq_false_2 (dp_ID p = id)); [done|congruence].
  - intros d [_ Hc%contains_true]%elem_of_select_where. done.
  - intros d [_ Hc%contains_true]%elem_of_select_where. done.
  - intros d [_ Hc%contains_true]%elem_of_select_where. done.
  - intros d [_ Hc%contains_true]%elem_of_select_where. done.
  - intros process. unfold revisions_of. rewrite ER. destruct (decide (process = id)) as [->|Hne].
    + rewrite select_none; [done|]. intros r [_ Hr]%elem_of_select_where. by apply negb_true_iff in Hr.
    + rewrite select_select; [apply Hs|]. intros r _ E%bool_decide_eq_true. apply negb_true_iff, bool_decide_eq_false.
      congruence.
  - intros r Hr. rewrite (same_rows_steps s).
    + apply Hs. by apply elem_of_select_where in Hr as [? _].
    + eapply deleted_rows; [done|by rewrite ER].
Qed.

(** ** The steps of the system *)

Inductive p_step (s : pdb) : pdb -> Prop :=
| p_create env process res s' : CreateDeploymentProcess env process s = (res, s') -> p_step s s'
| p_update process res s' : UpdateDeploymentProcess process s = (res, s') -> p_step s s'
| p_delete id org res s' : DeleteDeploymentProcessWithID id org s = (res, s') -> p_step s s'
| p_revision env revision res s' : range_ok env ->
    CreateDeploymentProcessRevision env revision s = (res, s') -> p_step s s'
| p_references a c e snapshots git : p_step s (set_references a c e snapshots git s).

Definition p_init : pdb :=
  {| Processes := []; Revisions := []; Steps := []; StepDependencies := []; StepChannels := []; StepEnvironments := [];
     Applications := []; Channels := []; Environments := []; Snapshots := []; GitManaged := [] |}.

Definition p_reachable (s : pdb) : Prop := rtc p_step p_init s.

Lemma inv_init : p_inv p_init.
Proof. split; try (intros; set_solver); try constructor. Qed.

(** A revision after a step: unchanged, or its process was deleted. *)
Definition revision_kept (s s' : pdb) (r : DeploymentProcessRevision) : Prop :=
  r ∈ Revisions s' /\ load_revision s' r = load_revision s r.

Lemma create_revision_cases env revision s res s' :
  range_ok env -> p_inv s -> CreateDeploymentProcessRevision env revision s = (res, s') ->
  ((exists e, res = Err e) /\ s' = s)
  \/ exists r created, normalizeDeploymentProcessRevision env revision = Ok r /\ res = Ok created
       /\ create_revision env r s = Ok (created, s').
Proof.
  intros Hr Hs. unfold CreateDeploymentProcessRevision.
  destruct (normalizeDeploymentProcessRevision env revision) as [r|]; [|intros [= <- <-]; left; by split; [eexists|]].
  intros [(u & -> & E)|(e & -> & _ & ->)]%RunSTx_cases; [right; by exists r, u|left; by split; [eexists|]].
Qed.

Lemma inv_create_revision env revision r s created s' :
  range_ok env -> p_inv s -> normalizeDeploymentProcessRevision env revision = Ok r ->
  create_revision env r s = Ok (created, s') ->
  p_inv s' /\ forall q, q ∈ Revisions s -> revision_kept s s' q.
Proof.
  intros Hr Hs Hn E. apply normalize_revision_ok in Hn as (Hne & Hk & Ho & Hd & Hp); [|done].
  apply create_revision_ok in E as (p & number & Hpin & Ei & Eo & En & Hfresh & Hids & -> & _). split.
  - eapply (p_inv_inserted env _ _ _ _ _ p); try done.
  - intros q Hq. split; [apply elem_of_app; by left|]. unfold load_revision. f_equal.
    apply same_rows_steps, inserted_old; [done|done|]. by apply list_elem_of_fmap_2.
Qed.

Lemma step_keeps s s' :
  p_inv s -> p_step s s' ->
  p_inv s' /\ ((forall q, q ∈ Revisions s -> revision_kept s s' q)
    \/ exists id org, DeleteDeploymentProcessWithID id org s = (Ok tt, s')
         /\ forall q, q ∈ Revisions s -> dr_DeploymentProcessID q <> id -> revision_kept s s' q).
Proof.
  intros Hs Hst. assert (p_inv s /\ ((forall q, q ∈ Revisions s -> revision_kept s s q) \/ False)) as Hsame
    by (split; [done|left; by split]).
  destruct Hst as [env process res s' E|process res s' E|id org res s' E|env revision res s' Hr E|a c e sn git].
  - apply create_process_ok in E as [->|(p & Hp & ->)]; [split; [done|by left]|]. split; [|by left].
    apply inv_processes; [done| |].
    + rewrite fmap_app. apply NoDup_app. split_and!; [apply Hs| |apply NoDup_singleton].
      by intros k Hk ->%list_elem_of_singleton.
    + intros r (q & Hq & ?)%(p_process s Hs). exists q. split; [|done]. apply elem_of_app. by left.
  - apply update_process_ok in E as [->|(p & ->)]; [split; [done|by left]|]. split; [|by left].
    assert (forall q, process_where (dp_ID p) (dp_OrganizationID p) q = true ->
      dp_ID p = dp_ID q /\ dp_OrganizationID p = dp_OrganizationID q) as Hw.
    { intros q Hq. unfold process_where in Hq. by to_prop. }
    apply inv_processes; [done| |].
    + rewrite fmap_update_where; [apply Hs|]. intros q _ Hq. by apply Hw.
    + intros r (q & Hq & Ei & Eo)%(p_process s Hs).
      exists (if process_where (dp_ID p) (dp_OrganizationID p) q then p else q).
      split; [apply elem_of_update_where; by exists q|]. destruct (process_where _ _ q) eqn:E; [|done].
      destruct (Hw q E). split; congruence.
  - pose proof E as Edel. apply delete_process_ok in E as [->|[-> Hd]]; [split; [done|by left]|].
    split; [by eapply inv_deleted|]. right. exists id, org. split; [done|]. intros q Hq Hne.
    assert (q ∈ Revisions s') as Hq'.
    { destruct Hd as (_ & -> & _). apply elem_of_select_where. split; [done|]. by apply negb_true_iff, bool_decide_eq_false. }
    split; [done|]. unfold load_revision. f_equal. by eapply same_rows_steps, deleted_rows.
  - apply create_revision_cases in E as [[_ ->]|(r & created & Hn & _ & E)]; [split; [done|by left]| |done|done].
    eapply inv_create_revision in E as [Hi Hk]; [|done..]. split; [done|by left].
  - split; [by apply inv_references|by left].
Qed.

Lemma p_inv_steps s s' : p_inv s -> rtc p_step s s' -> p_inv s'.
Proof. intros Hs Hrt. induction Hrt as [|s t s' Hst _ IH]; [done|]. apply IH. by apply (step_keeps s t). Qed.

Lemma p_inv_reachable s : p_reachable s -> p_inv s.
Proof. apply p_inv_steps, inv_init. Qed.

(** ** The guarantees *)

(** A step without the keys that the storage gives it. *)
Definition content (d : DeploymentProcessStep) : DeploymentProcessStep := with_keys Nil Nil d.

Lemma content_new env steps : content <$> new_steps env steps = content <$> steps.
Proof. by apply new_steps_same. Qed.

Lemma find_process_elem s p :
  p ∈ Processes s -> exists q, find_process (dp_ID p) (dp_OrganizationID p) s = Ok q.
Proof.
  intros Hp. unfold find_process. destruct (select_where _ (Processes s)) as [|q l] eqn:E; [|by exists q].
  exfalso. assert (p ∈ select_where (process_where (dp_ID p) (dp_OrganizationID p)) (Processes s)) as Hin.
  { apply elem_of_select_where. split; [done|]. unfold process_where. by rewrite !bool_decide_eq_true_2. }
  rewrite E in Hin. by apply elem_of_nil in Hin.
Qed.

(** The revisions of a process, as they are listed. *)
Lemma list_revisions s process org p :
  p_inv s -> find_process process org s = Ok p ->
  GetDeploymentProcessRevisions process org s = Ok (load_revision s <$> revisions_of process s).
Proof.
  intros Hs Hp. unfold GetDeploymentProcessRevisions. rewrite Hp. f_equal. f_equal.
  assert (p ∈ Processes s /\ process_where process org p = true) as [Hin Hw].
  { unfold find_process in Hp. destruct (select_where _ (Processes s)) as [|q l] eqn:E; [done|]. injection Hp as ->.
    apply elem_of_select_where. rewrite E. by left. }
  unfold process_where in Hw. to_prop. subst process org.
  rewrite (select_ext _ (λ r, bool_decide (dr_DeploymentProcessID r = dp_ID p))).
  - apply stable_sort_id. pose proof (p_numbers s Hs (dp_ID p)) as Hn. fold (revisions_of (dp_ID p) s).
    revert Hn. generalize (revisions_of (dp_ID p) s) 1%Z.
    induction l as [|r l IH]; intros k Hk; [constructor|]. cbn [fmap list_fmap length] in Hk.
    rewrite seqZ_cons in Hk by lia. injection Hk as Er El. constructor.
    + apply (IH (Z.succ k)). rewrite El. f_equal. lia.
    + apply Forall_forall. intros q Hq. unfold not_after, less_by. apply Z.ltb_ge.
      apply (list_elem_of_fmap_2 dr_RevisionNumber) in Hq. rewrite El in Hq. apply elem_of_seqZ in Hq. lia.
  - intros r Hr. destruct (p_process s Hs r Hr) as (q & Hq & Ei & Eo). case_bool_decide as E; [|done]. simpl.
    apply bool_decide_eq_true. rewrite <- Eo. f_equal. apply (NoDup_fmap_elem dp_ID (Processes s)); [apply Hs|done|done|congruence].
Qed.

(** A stored revision is read back. When a revision is created, the
    revisions of its process are the earlier ones, unchanged, followed by the
    new one, whose number is one more than there were; it has the normalized
    steps, with their dependencies, channels and environments in the order
    given, sorted by their sort order; only the keys of the rows are new. *)
Theorem revision_roundtrip env revision s created s' :
  p_reachable s -> range_ok env -> CreateDeploymentProcessRevision env revision s = (Ok created, s') ->
  exists r old, normalizeDeploymentProcessRevision env revision = Ok r
    /\ GetDeploymentProcessRevisions (dr_DeploymentProcessID r) (dr_OrganizationID r) s = Ok old
    /\ GetDeploymentProcessRevisions (dr_DeploymentProcessID r) (dr_OrganizationID r) s' = Ok (old ++ [created])
    /\ getDeploymentProcessRevision (dr_DeploymentProcessID r) (dr_ID created) (dr_OrganizationID r) s' = Ok created
    /\ dr_RevisionNumber created = (Z.of_nat (length old) + 1)%Z
    /\ dr_Description created = dr_Description r
    /\ content <$> dr_Steps created = content <$> stable_sort (less_by ds_SortOrder) (dr_Steps r).
Proof.
  intros Hs%p_inv_reachable Hr E.
  apply create_revision_cases in E as [[[e [= ]] _]|(r & c & Hn & [= <-] & E)]; [|done..].
  pose proof (inv_create_revision env revision r s created s' Hr Hs Hn E) as [Hs' Hkept].
  pose proof (normalize_revision_ok env revision r Hr Hn) as (_ & Hk & _).
  apply create_revision_ok in E as (p & number & Hp & Ei & Eo & En & Hfresh & Hids & Es' & Hget).
  set (row := {| dr_ID := new_id env; dr_OrganizationID := dr_OrganizationID r;
    dr_DeploymentProcessID := dr_DeploymentProcessID r; dr_RevisionNumber := number;
    dr_Description := dr_Description r; dr_Steps := [] |}) in *.
  assert (created = load_revision s' row) as ->.
  { unfold getDeploymentProcessRevision in Hget. rewrite Es' in Hget at 1. simpl in Hget.
    rewrite filter_app_bool, (select_none _ (Revisions s)) in Hget.
    - unfold select_where in Hget. simpl in Hget. rewrite !bool_decide_eq_true_2 in Hget by done. simpl in Hget.
      by injection Hget as <-.
    - intros q Hq. rewrite (bool_decide_eq_false_2 (dr_ID q = new_id env)); [done|]. intros Eq. apply Hfresh.
      rewrite <- Eq. by apply list_elem_of_fmap_2. }
  destruct (find_process_elem s p Hp) as (q & Hq). rewrite Ei, Eo in Hq.
  assert (find_process (dr_DeploymentProcessID r) (dr_OrganizationID r) s' = Ok q) as Hq' by by rewrite Es'.
  pose proof (list_revisions s _ _ q Hs Hq) as Hold. pose proof (list_revisions s' _ _ q Hs' Hq') as Hnew.
  assert (revisions_of (dr_DeploymentProcessID r) s' = revisions_of (dr_DeploymentProcessID r) s ++ [row]) as Erows.
  { rewrite Es'. unfold inserted. change (revisions_of _ (set_steps _ _ _ _ ?t)) with (revisions_of (dr_DeploymentProcessID r) t).
    rewrite revisions_of_app. f_equal. unfold select_where. simpl. by rewrite bool_decide_eq_true_2. }
  exists r, (load_revision s <$> revisions_of (dr_DeploymentProcessID r) s). split_and!; [done|done| |done| |done|].
  - rewrite Hnew, Erows, fmap_app. f_equal. f_equal. apply list_fmap_ext.
    intros i q' Hi%list_elem_of_lookup_2. apply elem_of_select_where in Hi as [Hin _]. by apply Hkept.
  - rewrite length_fmap. simpl. rewrite En, (p_numbers s Hs), max_seqZ by lia. done.
  - simpl. rewrite Es'. change (dr_ID row) with (new_id env). rewrite inserted_steps; [|done..].
    rewrite !(stable_sort_fmap content (less_by ds_SortOrder) (less_by ds_SortOrder)) by done. by rewrite content_new.
Qed.

(** C35: stored revisions never change. In every reachable state the revisions
    of a process are numbered 1, 2, 3, ... and the steps of each one can be
    executed in an order that respects their dependencies. And whatever is
    created, updated or deleted later, a stored revision stays as it is, with
    its steps and their relations, until its process is deleted. *)
Theorem process_revisions_immutable s s' r :
  p_reachable s -> rtc p_step s s' -> r ∈ Revisions s ->
  dr_RevisionNumber <$> revisions_of (dr_DeploymentProcessID r) s
    = seqZ 1 (Z.of_nat (length (revisions_of (dr_DeploymentProcessID r) s)))
  /\ steps_valid (getDeploymentProcessSteps (dr_ID r) s)
  /\ (revision_kept s s' r
      \/ exists org t t', rtc p_step s t /\ rtc p_step t' s'
           /\ DeleteDeploymentProcessWithID (dr_DeploymentProcessID r) org t = (Ok tt, t')).
Proof.
  intros Hs%p_inv_reachable Hrt Hr. split_and!; [by apply Hs|by apply Hs|].
  induction Hrt as [s|s t s' Hst Hrt IH]; [by left|].
  destruct (step_keeps s t Hs Hst) as [Ht Hcase].
  assert (revision_kept s t r \/ exists org, DeleteDeploymentProcessWithID (dr_DeploymentProcessID r) org s = (Ok tt, t))
    as [[Hin Eq]|[org Hdel]].
  { destruct Hcase as [Hk|(id & org & Hdel & Hk)]; [left; by apply Hk|].
    destruct (decide (dr_DeploymentProcessID r = id)) as [->|Hne]; [right; by exists org|left; by apply Hk]. }
  - destruct (IH Ht Hin) as [[Hin' Eq']|(org & u & u' & H1 & H2 & H3)].
    + left. split; [done|congruence].
    + right. exists org, u, u'. split_and!; [by eapply rtc_l|done|done].
  - right. exists org, s, t. by split_and!; [apply rtc_refl| |].
Qed.
End process.

(** ** Witnesses *)

Module ProcessDemo.
#[export] Instance validator : SchemaValidator := {| schema_error := λ _ _, None |}.

Definition env (n : N) : penv :=
  {| new_id := uid n; new_step_id i := uid (100 * n + N.of_nat i); range_order := λ l, l |}.

Definition step (key : string) (order : Z) (deps : list string) : DeploymentProcessStep :=
  {| ds_ID := Nil; ds_DeploymentProcessRevisionID := Nil; ds_Key := " " +:+ key; ds_Name := key;
     ds_ActionType := "distr.wait"; ds_StepTemplateVersionID := None; ds_ExecutionLocation := "target";
     ds_InputBindings := None; ds_Condition := ""; ds_ChannelIDs := [uid 4; uid 5]; ds_EnvironmentIDs := [uid 6];
     ds_TargetTags := ["eu "]; ds_FailureMode := ""; ds_TimeoutSeconds := 60; ds_RetryMaxAttempts := 0;
     ds_RetryIntervalSeconds := 0; ds_RequiredPermissions := []; ds_SortOrder := order; ds_Dependencies := deps |}.

Definition revision : DeploymentProcessRevision :=
  {| dr_ID := Nil; dr_OrganizationID := uid 1; dr_DeploymentProcessID := uid 3; dr_RevisionNumber := 0;
     dr_Description := "first"; dr_Steps := [step "deploy" 2 ["check"; "build"]; step "check" 1 ["build"]; step "build" 0 []] |}.

Definition s0 : pdb :=
  set_references [(uid 2, uid 1)] [(uid 4, uid 1, uid 2); (uid 5, uid 1, uid 2)] [(uid 6, uid 1)] [] [] p_init.
Definition process : DeploymentProcess :=
  {| dp_ID := Nil; dp_OrganizationID := uid 1; dp_ApplicationID := uid 2; dp_Name := "release"; dp_Description := "";
     dp_SortOrder := 0 |}.
Definition s1 : pdb := snd (CreateDeploymentProcess (env 3) process s0).
Definition s2 : pdb := snd (CreateDeploymentProcessRevision (env 7) revision s1).
Definition s3 : pdb := snd (CreateDeploymentProcessRevision (env 8) revision s2).

Lemma env_range n : range_ok (env n).
Proof. intros l. apply Permutation_refl. Qed.

Lemma s1_reachable : p_reachable s1.
Proof.
  eapply rtc_l; [apply (p_references p_init [(uid 2, uid 1)] [(uid 4, uid 1, uid 2); (uid 5, uid 1, uid 2)]
    [(uid 6, uid 1)] [] [])|].
  apply rtc_once. apply (p_create _ (env 3) process (fst (CreateDeploymentProcess (env 3) process s0))), surjective_pairing.
Qed.

Lemma s2_reachable : p_reachable s2.
Proof.
  eapply rtc_r; [apply s1_reachable|].
  eapply (p_revision _ (env 7) revision); [apply env_range|apply surjective_pairing].
Qed.

Lemma s23 : p_step s2 s3.
Proof. eapply (p_revision _ (env 8) revision); [apply env_range|apply surjective_pairing]. Qed.

Definition created (s : pdb) : DeploymentProcessRevision :=
  match GetDeploymentProcessRevisions (uid 3) (uid 1) s with Ok l => default revision (last l) | Err _ => revision end.

Example demo_steps_read :
  (λ d, (ds_Key d, ds_Dependencies d, ds_ChannelIDs d)) <$> dr_Steps (created s3)
  = [("build", [], [uid 4; uid 5]); ("check", ["build"], [uid 4; uid 5]); ("deploy", ["check"; "build"], [uid 4; uid 5])].
Proof. vm_compute. reflexivity. Qed.
End ProcessDemo.

Section witnesses.
Import ProcessDemo.

Lemma revision_roundtrip_witness : dr_RevisionNumber (created s3) = 2%Z.
Proof.
  destruct (revision_roundtrip (env 8) revision s2 (created s3) s3 s2_reachable (env_range 8))
    as (r & old & Hn & Hold & _ & _ & Hnum & _).
  - by vm_compute.
  - vm_compute in Hn. injection Hn as <-. rewrite Hnum. vm_compute in Hold. by injection Hold as <-.
Defined.

Lemma process_revisions_immutable_witness : steps_valid (dr_Steps (created s2)).
Proof.
  pose (row := match Revisions s2 with r :: _ => r | [] => revision end).
  destruct (process_revisions_immutable s2 s3 row s2_reachable (rtc_once _ _ s23)) as (_ & Hv & _).
  - vm_compute. by left.
  - assert (dr_Steps (created s2) = getDeploymentProcessSteps (dr_ID row) s2) as E by (by vm_compute).
    rewrite E. exact Hv.
Defined.
End witnesses.
