(* ===== verification/ProcessSnapshots.v ===== *)
(** * Process snapshots ([internal/processsnapshots/canonical.go],
    [internal/db/process_snapshots.go])

    A snapshot freezes a revision of a deployment process as a JSON text with
    its checksum. The encoding and the decoding with their round trip, and the
    table, which has one snapshot of a revision at most. The column
    [created_at] is left out. *)
From S2P Require Import Prelude GoStrings Uuid GoRegexp GoJson GoFloat StepRedaction JsonDecode JsonStruct TaskStore Transaction DeploymentProcess ProcessGraph ProcessTables ActionRegistry.
Open Scope list_scope.

(** ** The canonical payload *)

Record canonicalStep := {
  cst_Key : string;
  cst_Name : string;
  cst_ActionType : string;
  cst_StepTemplateVersionID : string;
  cst_ExecutionLocation : string;
  cst_InputBindings : option (list (string * json));
  cst_Condition : string;
  cst_ChannelIDs : list string;
  cst_EnvironmentIDs : list string;
  cst_TargetTags : list string;
  cst_FailureMode : string;
  cst_TimeoutSeconds : Z;
  cst_RetryMaxAttempts : Z;
  cst_RetryIntervalSeconds : Z;
  cst_RequiredPermissions : list string;
  cst_SortOrder : Z;
  cst_Dependencies : list string;
}.

Record canonicalSnapshot := {
  csn_ApplicationID : string;
  csn_DeploymentProcessID : string;
  csn_DeploymentProcessRevisionID : string;
  csn_RevisionNumber : Z;
  csn_Description : string;
  csn_Steps : list canonicalStep;
}.

Definition uuidStrings (values : list uuid) : list string := uuid_string <$> values.

Definition canonicalizeStep (step : DeploymentProcessStep) : canonicalStep :=
  {| cst_Key := ds_Key step; cst_Name := ds_Name step; cst_ActionType := ds_ActionType step;
     cst_StepTemplateVersionID := match ds_StepTemplateVersionID step with Some id => uuid_string id | None => "" end;
     cst_ExecutionLocation := ds_ExecutionLocation step;
     cst_InputBindings := Some (default [] (ds_InputBindings step)); cst_Condition := ds_Condition step;
     cst_ChannelIDs := uuidStrings (ds_ChannelIDs step); cst_EnvironmentIDs := uuidStrings (ds_EnvironmentIDs step);
     cst_TargetTags := ds_TargetTags step; cst_FailureMode := ds_FailureMode step;
     cst_TimeoutSeconds := ds_TimeoutSeconds step; cst_RetryMaxAttempts := ds_RetryMaxAttempts step;
     cst_RetryIntervalSeconds := ds_RetryIntervalSeconds step;
     cst_RequiredPermissions := ds_RequiredPermissions step; cst_SortOrder := ds_SortOrder step;
     cst_Dependencies := ds_Dependencies step |}.

(** The tags of the two structs, for [json.Marshal]. *)
Definition bindings_json (b : option (list (string * json))) : json :=
  match b with Some fields => sort_members (JObject fields) | None => JNull end.

Definition step_fields (c : canonicalStep) : list (string * option json) :=
  [("key", string_json (cst_Key c)); ("name", string_json (cst_Name c)); ("actionType", string_json (cst_ActionType c));
   ("stepTemplateVersionId", nonempty_json (cst_StepTemplateVersionID c));
   ("executionLocation", string_json (cst_ExecutionLocation c));
   ("inputBindings", Some (bindings_json (cst_InputBindings c))); ("condition", nonempty_json (cst_Condition c));
   ("channelIds", nonempty_strings_json (cst_ChannelIDs c));
   ("environmentIds", nonempty_strings_json (cst_EnvironmentIDs c));
   ("targetTags", nonempty_strings_json (cst_TargetTags c)); ("failureMode", string_json (cst_FailureMode c));
   ("timeoutSeconds", nonzero_json (cst_TimeoutSeconds c)); ("retryMaxAttempts", nonzero_json (cst_RetryMaxAttempts c));
   ("retryIntervalSeconds", nonzero_json (cst_RetryIntervalSeconds c));
   ("requiredPermissions", nonempty_strings_json (cst_RequiredPermissions c)); ("sortOrder", int_json (cst_SortOrder c));
   ("dependencies", nonempty_strings_json (cst_Dependencies c))].

Definition snapshot_fields (c : canonicalSnapshot) : list (string * option json) :=
  [("applicationId", string_json (csn_ApplicationID c));
   ("deploymentProcessId", string_json (csn_DeploymentProcessID c));
   ("deploymentProcessRevisionId", string_json (csn_DeploymentProcessRevisionID c));
   ("revisionNumber", int_json (csn_RevisionNumber c)); ("description", string_json (csn_Description c));
   ("steps", Some (JArray ((λ s, struct_json (step_fields s)) <$> csn_Steps c)))].

(** The comparison of [slices.SortFunc]; steps that it does not order have
    equal keys. *)
Definition canonical_step_less : DeploymentProcessStep -> DeploymentProcessStep -> bool :=
  less_then ds_SortOrder (less_str_by ds_Key).

Definition canonical_snapshot (process : DeploymentProcess) (revision : DeploymentProcessRevision) : canonicalSnapshot :=
  {| csn_ApplicationID := uuid_string (dp_ApplicationID process); csn_DeploymentProcessID := uuid_string (dp_ID process);
     csn_DeploymentProcessRevisionID := uuid_string (dr_ID revision); csn_RevisionNumber := dr_RevisionNumber revision;
     csn_Description := dr_Description revision;
     csn_Steps := canonicalizeStep <$> stable_sort canonical_step_less (dr_Steps revision) |}.

(** The payload and its checksum. *)
Definition Canonicalize `{Crypto} (process : DeploymentProcess) (revision : DeploymentProcessRevision) : string * string :=
  let payload := json_text (struct_json (snapshot_fields (canonical_snapshot process revision))) in
  (payload, "sha256:" +:+ sha256_hex payload).

(** ** Reading a payload *)

Definition no_canonical_step : canonicalStep :=
  {| cst_Key := ""; cst_Name := ""; cst_ActionType := ""; cst_StepTemplateVersionID := ""; cst_ExecutionLocation := "";
     cst_InputBindings := None; cst_Condition := ""; cst_ChannelIDs := []; cst_EnvironmentIDs := []; cst_TargetTags := [];
     cst_FailureMode := ""; cst_TimeoutSeconds := 0; cst_RetryMaxAttempts := 0; cst_RetryIntervalSeconds := 0;
     cst_RequiredPermissions := []; cst_SortOrder := 0; cst_Dependencies := [] |}.

(** The tags again, for [json.Unmarshal]. *)
Definition read_canonical_step (f : list (string * json)) : option canonicalStep :=
  key ← read_field "key" read_string "" f;
  name ← read_field "name" read_string "" f;
  action ← read_field "actionType" read_string "" f;
  template ← read_field "stepTemplateVersionId" read_string "" f;
  location ← read_field "executionLocation" read_string "" f;
  bindings ← read_field "inputBindings" read_map None f;
  condition ← read_field "condition" read_string "" f;
  channels ← read_field "channelIds" read_strings [] f;
  environments ← read_field "environmentIds" read_strings [] f;
  tags ← read_field "targetTags" read_strings [] f;
  mode ← read_field "failureMode" read_string "" f;
  timeout ← read_field "timeoutSeconds" read_int 0%Z f;
  attempts ← read_field "retryMaxAttempts" read_int 0%Z f;
  interval ← read_field "retryIntervalSeconds" read_int 0%Z f;
  permissions ← read_field "requiredPermissions" read_strings [] f;
  order ← read_field "sortOrder" read_int 0%Z f;
  dependencies ← read_field "dependencies" read_strings [] f;
  Some {| cst_Key := key; cst_Name := name; cst_ActionType := action; cst_StepTemplateVersionID := template;
          cst_ExecutionLocation := location; cst_InputBindings := bindings; cst_Condition := condition;
          cst_ChannelIDs := channels; cst_EnvironmentIDs := environments; cst_TargetTags := tags; cst_FailureMode := mode;
          cst_TimeoutSeconds := timeout; cst_RetryMaxAttempts := attempts; cst_RetryIntervalSeconds := interval;
          cst_RequiredPermissions := permissions; cst_SortOrder := order; cst_Dependencies := dependencies |}.

Definition read_canonical_snapshot (f : list (string * json)) : option canonicalSnapshot :=
  application ← read_field "applicationId" read_string "" f;
  process ← read_field "deploymentProcessId" read_string "" f;
  revision ← read_field "deploymentProcessRevisionId" read_string "" f;
  number ← read_field "revisionNumber" read_int 0%Z f;
  description ← read_field "description" read_string "" f;
  steps ← read_field "steps" (read_list (read_struct read_canonical_step) no_canonical_step) [] f;
  Some {| csn_ApplicationID := application; csn_DeploymentProcessID := process;
          csn_DeploymentProcessRevisionID := revision; csn_RevisionNumber := number; csn_Description := description;
          csn_Steps := steps |}.

Definition no_canonical_snapshot : canonicalSnapshot :=
  {| csn_ApplicationID := ""; csn_DeploymentProcessID := ""; csn_DeploymentProcessRevisionID := "";
     csn_RevisionNumber := 0; csn_Description := ""; csn_Steps := [] |}.

Section decode.
Context `{UuidParser}.

Definition mustUUID (value : string) : uuid := default Nil (uuid_Parse value).
Definition uuidsFromStrings (values : list string) : list uuid := mustUUID <$> values.
Definition uuidPtrFromString (value : string) : option uuid :=
  if bool_decide (value = "") then None else Some (mustUUID value).

Definition toDeploymentProcessStep (s : canonicalStep) : DeploymentProcessStep :=
  {| ds_ID := Nil; ds_DeploymentProcessRevisionID := Nil; ds_Key := cst_Key s; ds_Name := cst_Name s;
     ds_ActionType := cst_ActionType s; ds_StepTemplateVersionID := uuidPtrFromString (cst_StepTemplateVersionID s);
     ds_ExecutionLocation := cst_ExecutionLocation s; ds_InputBindings := cst_InputBindings s;
     ds_Condition := cst_Condition s; ds_ChannelIDs := uuidsFromStrings (cst_ChannelIDs s);
     ds_EnvironmentIDs := uuidsFromStrings (cst_EnvironmentIDs s); ds_TargetTags := cst_TargetTags s;
     ds_FailureMode := cst_FailureMode s; ds_TimeoutSeconds := cst_TimeoutSeconds s;
     ds_RetryMaxAttempts := cst_RetryMaxAttempts s; ds_RetryIntervalSeconds := cst_RetryIntervalSeconds s;
     ds_RequiredPermissions := cst_RequiredPermissions s; ds_SortOrder := cst_SortOrder s;
     ds_Dependencies := cst_Dependencies s |}.

(** [None] is the error of [json.Unmarshal]. *)
Definition DecodeRevision (payload : string) : option DeploymentProcessRevision :=
  v ← json_parse payload;
  snapshot ← read_struct read_canonical_snapshot no_canonical_snapshot v;
  Some {| dr_ID := mustUUID (csn_DeploymentProcessRevisionID snapshot); dr_OrganizationID := Nil;
          dr_DeploymentProcessID := mustUUID (csn_DeploymentProcessID snapshot);
          dr_RevisionNumber := csn_RevisionNumber snapshot; dr_Description := csn_Description snapshot;
          dr_Steps := toDeploymentProcessStep <$> csn_Steps snapshot |}.
End decode.

(** ** The round trip *)

Definition sorted_bindings (b : list (string * json)) : list (string * json) :=
  stable_sort (less_str_by fst) ((λ f, (fst f, sort_members (snd f))) <$> b).

(** A step whose JSON text shows all of it: valid texts, numbers of an [int64],
    bindings that [json.Unmarshal] can have produced and that are not too deep. *)
Definition encodable_step (d : DeploymentProcessStep) : bool :=
  forallb valid_text ([ds_Key d; ds_Name d; ds_ActionType d; ds_ExecutionLocation d; ds_Condition d; ds_FailureMode d]
    ++ ds_TargetTags d ++ ds_RequiredPermissions d ++ ds_Dependencies d)
  && forallb in_int64b [ds_TimeoutSeconds d; ds_RetryMaxAttempts d; ds_RetryIntervalSeconds d; ds_SortOrder d]
  && any_value (JObject (default [] (ds_InputBindings d)))
  && (Z.of_nat (json_depth (JObject (default [] (ds_InputBindings d)))) <=? 9997)%Z.

Definition encodable (r : DeploymentProcessRevision) : bool :=
  valid_text (dr_Description r) && in_int64b (dr_RevisionNumber r) && forallb encodable_step (dr_Steps r).

(** What the text shows of a step. *)
Definition shown_step (d : DeploymentProcessStep) : DeploymentProcessStep :=
  {| ds_ID := Nil; ds_DeploymentProcessRevisionID := Nil; ds_Key := ds_Key d; ds_Name := ds_Name d;
     ds_ActionType := ds_ActionType d; ds_StepTemplateVersionID := ds_StepTemplateVersionID d;
     ds_ExecutionLocation := ds_ExecutionLocation d;
     ds_InputBindings := Some (sorted_bindings (default [] (ds_InputBindings d)));
     ds_Condition := ds_Condition d; ds_ChannelIDs := ds_ChannelIDs d; ds_EnvironmentIDs := ds_EnvironmentIDs d;
     ds_TargetTags := ds_TargetTags d; ds_FailureMode := ds_FailureMode d; ds_TimeoutSeconds := ds_TimeoutSeconds d;
     ds_RetryMaxAttempts := ds_RetryMaxAttempts d; ds_RetryIntervalSeconds := ds_RetryIntervalSeconds d;
     ds_RequiredPermissions := ds_RequiredPermissions d; ds_SortOrder := ds_SortOrder d;
     ds_Dependencies := ds_Dependencies d |}.

Definition shown_canonical (d : DeploymentProcessStep) : canonicalStep :=
  canonicalizeStep (shown_step d).

Lemma in_int64b_true z : in_int64b z = true -> in_int64 z.
Proof. unfold in_int64b. rewrite andb_true_iff, !Z.leb_le. done. Qed.

Lemma bindings_json_sorted b : bindings_json (Some b) = JObject (sorted_bindings b).
Proof. apply sort_object. Qed.

Lemma read_bindings b : any_value (JObject b) = true -> read_map None (bindings_json (Some b)) = Some (Some (sorted_bindings b)).
Proof.
  intros Hb. apply any_value_sorted, decode_any_value in Hb. rewrite sort_object, decode_object in Hb.
  rewrite bindings_json_sorted. simpl. fold (sorted_bindings b) in Hb.
  destruct (decode_members [] (sorted_bindings b)) as [l|]; [|done]. by injection Hb as ->.
Qed.

(** Rewrite a field with the one that was printed. *)
Ltac read_printed name i :=
  erewrite (read_present name _ _ _ i); [|vm_compute; reflexivity|reflexivity]; cbn [string_json int_json].

Lemma shown_step_template d : valid_text match ds_StepTemplateVersionID d with Some id => uuid_string id | None => "" end = true.
Proof. destruct (ds_StepTemplateVersionID d); [apply uuid_string_valid|done]. Qed.

Lemma read_canonical_step_printed d : encodable_step d = true ->
  read_canonical_step (present (step_fields (canonicalizeStep d))) = Some (canonicalizeStep (shown_step d)).
Proof.
  unfold encodable_step. rewrite !andb_true_iff. intros [[[_ Hi] Hb] _]. simpl in Hi. rewrite !andb_true_iff in Hi.
  destruct Hi as (Ht & Ha & Hr & Ho & _). apply in_int64b_true in Ht, Ha, Hr, Ho.
  unfold read_canonical_step.
  read_printed "key" 0. read_printed "name" 1. read_printed "actionType" 2. read_printed "stepTemplateVersionId" 3.
  read_printed "executionLocation" 4. read_printed "inputBindings" 5. read_printed "condition" 6.
  read_printed "channelIds" 7. read_printed "environmentIds" 8. read_printed "targetTags" 9. read_printed "failureMode" 10.
  read_printed "timeoutSeconds" 11. read_printed "retryMaxAttempts" 12. read_printed "retryIntervalSeconds" 13.
  read_printed "requiredPermissions" 14. read_printed "sortOrder" 15. read_printed "dependencies" 16.
  rewrite !read_nonempty, !read_nonempty_strings, !read_nonzero by done. cbn [cst_InputBindings canonicalizeStep].
  rewrite read_bindings, read_int_json by done. reflexivity.
Qed.

Lemma uuids_valid l : forallb valid_text (uuidStrings l) = true.
Proof. apply forallb_Forall, Forall_fmap, Forall_true. intros u. apply uuid_string_valid. Qed.

Lemma step_fine d : encodable_step d = true -> fine 9998 (struct_json (step_fields (canonicalizeStep d))).
Proof.
  unfold encodable_step. rewrite !andb_true_iff. intros [[[Hs _] Hb] Hd]. apply Z.leb_le in Hd.
  rewrite !forallb_app, !andb_true_iff in Hs. destruct Hs as (Hs & Htags & Hperm & Hdeps).
  simpl in Hs. rewrite !andb_true_iff in Hs. destruct Hs as (? & ? & ? & ? & ? & ? & _).
  apply (fine_struct 9997); [done|]. repeat apply Forall_cons_2; try apply Forall_nil_2;
    try (apply fine_nonempty; [done..|]); try (by apply fine_nonzero); try (apply fine_nonempty_strings; [done..|]);
    try (apply fine_some; [done..|]; apply fine_string || apply fine_int; done); try done; try apply uuids_valid.
  - apply shown_step_template.
  - apply fine_some; [done..|]. by apply fine_any.
Qed.

(** What the text shows of a revision. *)
Definition shown_revision (process : DeploymentProcess) (r : DeploymentProcessRevision) : DeploymentProcessRevision :=
  {| dr_ID := dr_ID r; dr_OrganizationID := Nil; dr_DeploymentProcessID := dp_ID process;
     dr_RevisionNumber := dr_RevisionNumber r; dr_Description := dr_Description r;
     dr_Steps := shown_step <$> stable_sort canonical_step_less (dr_Steps r) |}.

Definition shown_snapshot (process : DeploymentProcess) (r : DeploymentProcessRevision) : canonicalSnapshot :=
  {| csn_ApplicationID := uuid_string (dp_ApplicationID process); csn_DeploymentProcessID := uuid_string (dp_ID process);
     csn_DeploymentProcessRevisionID := uuid_string (dr_ID r); csn_RevisionNumber := dr_RevisionNumber r;
     csn_Description := dr_Description r;
     csn_Steps := (λ d, canonicalizeStep (shown_step d)) <$> stable_sort canonical_step_less (dr_Steps r) |}.

Lemma encodable_steps r : encodable r = true ->
  Forall (λ d, encodable_step d = true) (stable_sort canonical_step_less (dr_Steps r)).
Proof. unfold encodable. rewrite !andb_true_iff. intros [_ Hs]. rewrite stable_sort_perm. by apply forallb_Forall. Qed.

Lemma read_canonical_steps l : Forall (λ d, encodable_step d = true) l ->
  read_list (read_struct read_canonical_step) no_canonical_step [] (JArray ((λ s, struct_json (step_fields s)) <$> (canonicalizeStep <$> l)))
  = Some ((λ d, canonicalizeStep (shown_step d)) <$> l).
Proof.
  intros Hl. cbn [read_list]. induction Hl as [|d l Hd _ IH]; [done|]. rewrite !fmap_cons. cbn [mapM].
  rewrite IH. cbn [read_struct struct_json]. by rewrite read_canonical_step_printed.
Qed.

Lemma snapshot_printed process r : encodable r = true ->
  read_canonical_snapshot (present (snapshot_fields (canonical_snapshot process r))) = Some (shown_snapshot process r).
Proof.
  intros Hr. pose proof (encodable_steps r Hr) as Hs. unfold encodable in Hr. rewrite !andb_true_iff in Hr.
  destruct Hr as [[_ Hn%in_int64b_true] _]. unfold read_canonical_snapshot.
  read_printed "applicationId" 0. read_printed "deploymentProcessId" 1. read_printed "deploymentProcessRevisionId" 2.
  read_printed "revisionNumber" 3. read_printed "description" 4. read_printed "steps" 5.
  rewrite read_int_json by done. cbn [csn_Steps canonical_snapshot]. rewrite read_canonical_steps by done. reflexivity.
Qed.

Lemma snapshot_fine process r : encodable r = true ->
  fine maxNestingDepth (struct_json (snapshot_fields (canonical_snapshot process r))).
Proof.
  intros Hr. pose proof (encodable_steps r Hr) as Hs. unfold encodable in Hr. rewrite !andb_true_iff in Hr.
  destruct Hr as [[Hd _] _].
  apply (fine_struct 9999); [done|]. repeat apply Forall_cons_2; try apply Forall_nil_2;
    try (apply fine_some; [done..|]; apply fine_string || apply fine_int; [done|apply uuid_string_valid || done]).
  - apply fine_some; [done..|]. by apply fine_int.
  - apply fine_some; [done..|]. apply (fine_array 9998); [done|]. cbn [csn_Steps canonical_snapshot].
    rewrite !Forall_fmap. eapply Forall_impl; [exact Hs|]. intros d Hd'. by apply step_fine.
Qed.

Section roundtrip.
Context `{UuidParser, Crypto}.

Lemma mustUUID_string u : mustUUID (uuid_string u) = u.
Proof. unfold mustUUID. by rewrite uuid_Parse_String. Qed.
Lemma uuids_strings l : uuidsFromStrings (uuidStrings l) = l.
Proof.
  unfold uuidsFromStrings, uuidStrings. rewrite <- list_fmap_compose.
  rewrite <- (list_fmap_id l) at 2. apply list_fmap_ext. intros i u _. apply mustUUID_string.
Qed.

Lemma toStep_canonicalize d : toDeploymentProcessStep (canonicalizeStep (shown_step d)) = shown_step d.
Proof.
  unfold toDeploymentProcessStep. simpl. rewrite !uuids_strings. unfold shown_step. f_equal.
  destruct (ds_StepTemplateVersionID d) as [u|]; [|done]. unfold uuidPtrFromString.
  rewrite bool_decide_eq_false_2 by apply uuid_string_nonempty. by rewrite mustUUID_string.
Qed.

Lemma decode_canonical process r : encodable r = true ->
  DecodeRevision (fst (Canonicalize process r)) = Some (shown_revision process r).
Proof.
  intros Hr. unfold DecodeRevision.
  change (fst (Canonicalize process r)) with (json_text (struct_json (snapshot_fields (canonical_snapshot process r)))).
  rewrite parse_fine by by apply snapshot_fine. cbn [mbind option_bind read_struct struct_json].
  rewrite snapshot_printed by done. unfold shown_revision, shown_snapshot. cbn. rewrite !mustUUID_string. do 2 f_equal.
  rewrite <- list_fmap_compose. apply list_fmap_ext. intros i d _. apply toStep_canonicalize.
Qed.
End roundtrip.

(** ** The table *)

(** The column [deployment_process_revision_id] is unique. [Revision] is not a
    column: it is the decoded payload. *)
Record ProcessSnapshot := {
  sn_ID : uuid;
  sn_OrganizationID : uuid;
  sn_ApplicationID : uuid;
  sn_DeploymentProcessID : uuid;
  sn_DeploymentProcessRevisionID : uuid;
  sn_RevisionNumber : Z;
  sn_CanonicalChecksum : string;
  sn_CanonicalPayload : string;
  sn_Revision : option DeploymentProcessRevision;
}.

Record sdb := { sd_processes : pdb; sd_snapshots : list ProcessSnapshot }.

Definition set_process_tables (p : pdb) (s : sdb) : sdb := {| sd_processes := p; sd_snapshots := sd_snapshots s |}.

Definition with_revision (r : DeploymentProcessRevision) (n : ProcessSnapshot) : ProcessSnapshot :=
  {| sn_ID := sn_ID n; sn_OrganizationID := sn_OrganizationID n; sn_ApplicationID := sn_ApplicationID n;
     sn_DeploymentProcessID := sn_DeploymentProcessID n;
     sn_DeploymentProcessRevisionID := sn_DeploymentProcessRevisionID n; sn_RevisionNumber := sn_RevisionNumber n;
     sn_CanonicalChecksum := sn_CanonicalChecksum n; sn_CanonicalPayload := sn_CanonicalPayload n;
     sn_Revision := Some r |}.

(** The new row; the foreign keys keep the process and the revision. *)
Definition add_snapshot (n : ProcessSnapshot) (s : sdb) : sdb :=
  let p := sd_processes s in
  {| sd_processes := set_references (Applications p) (Channels p) (Environments p)
       (Snapshots p ++ [sn_DeploymentProcessID n]) (GitManaged p) p;
     sd_snapshots := sd_snapshots s ++ [n] |}.

Section tables.
Context `{Crypto, UuidParser}.

Definition hydrated_revision (n : ProcessSnapshot) (r : DeploymentProcessRevision) : DeploymentProcessRevision :=
  {| dr_ID := sn_DeploymentProcessRevisionID n; dr_OrganizationID := sn_OrganizationID n;
     dr_DeploymentProcessID := sn_DeploymentProcessID n; dr_RevisionNumber := sn_RevisionNumber n;
     dr_Description := dr_Description r;
     dr_Steps := (λ d, with_keys (ds_ID d) (sn_DeploymentProcessRevisionID n) d) <$> dr_Steps r |}.

Definition hydrateProcessSnapshotRevision (n : ProcessSnapshot) : result apierror ProcessSnapshot :=
  match DecodeRevision (sn_CanonicalPayload n) with
  | Some r => Ok (with_revision (hydrated_revision n r) n)
  | None => Err (Internal "could not decode ProcessSnapshot payload")
  end.

Definition first_snapshot (cond : ProcessSnapshot -> bool) (s : sdb) : result apierror ProcessSnapshot :=
  match select_where cond (sd_snapshots s) with
  | n :: _ => hydrateProcessSnapshotRevision n
  | [] => Err NotFound
  end.

Definition getProcessSnapshot (id org : uuid) (s : sdb) : result apierror ProcessSnapshot :=
  first_snapshot (λ n, bool_decide (sn_ID n = id) && bool_decide (sn_OrganizationID n = org)) s.

Definition GetProcessSnapshot (id org : uuid) (s : sdb) : result apierror ProcessSnapshot := getProcessSnapshot id org s.

Definition getProcessSnapshotByRevision (revision org : uuid) (s : sdb) : result apierror ProcessSnapshot :=
  first_snapshot (λ n, bool_decide (sn_DeploymentProcessRevisionID n = revision) && bool_decide (sn_OrganizationID n = org)) s.

(** The join of the revision and its process. *)
Definition getDeploymentProcessRevisionForSnapshot (org application revision : uuid) (s : pdb)
    : result apierror (DeploymentProcess * DeploymentProcessRevision) :=
  let joined := r ← select_where (λ r, bool_decide (dr_ID r = revision) && bool_decide (dr_OrganizationID r = org)) (Revisions s);
                select_where (λ p, bool_decide (dp_ID p = dr_DeploymentProcessID r)
                  && bool_decide (dp_OrganizationID p = dr_OrganizationID r)
                  && bool_decide (dp_ApplicationID p = application)) (Processes s) in
  match joined with
  | [] => Err NotFound
  | p :: _ =>
      find_process (dp_ID p) org s ≫= λ process,
      getDeploymentProcessRevision (dp_ID process) revision org s ≫= λ r,
      Ok (process, r)
  end.

(** [id] is the default of the column. [DO NOTHING] when the revision has a
    snapshot; the other constraints are the primary key and the check of the
    number. *)
Definition new_snapshot (id org application : uuid) (process : DeploymentProcess) (r : DeploymentProcessRevision)
    : ProcessSnapshot :=
  let '(payload, checksum) := Canonicalize process r in
  {| sn_ID := id; sn_OrganizationID := org; sn_ApplicationID := application;
     sn_DeploymentProcessID := dp_ID process; sn_DeploymentProcessRevisionID := dr_ID r;
     sn_RevisionNumber := dr_RevisionNumber r; sn_CanonicalChecksum := checksum; sn_CanonicalPayload := payload;
     sn_Revision := None |}.

Definition insert_snapshot (row : ProcessSnapshot) (r : DeploymentProcessRevision) : stx sdb ProcessSnapshot := λ s,
  if (sn_RevisionNumber row <=? 0)%Z then Err (Internal "could not scan process snapshot ReleaseBundle") else
  if contains (sn_DeploymentProcessRevisionID <$> sd_snapshots s) (dr_ID r)
  then match getProcessSnapshotByRevision (dr_ID r) (sn_OrganizationID row) s with Ok n => Ok (n, s) | Err e => Err e end else
  if contains (sn_ID <$> sd_snapshots s) (sn_ID row)
  then Err (AlreadyExists "could not scan process snapshot ReleaseBundle") else
  Ok (with_revision r row, add_snapshot row s).

Definition ensureProcessSnapshotForRevision (id org application revision : uuid) : stx sdb ProcessSnapshot :=
  squery (λ s, getDeploymentProcessRevisionForSnapshot org application revision (sd_processes s)) ≫= λ x,
  insert_snapshot (new_snapshot id org application (fst x) (snd x)) (snd x).
End tables.

(** ** Guarantees *)

(** The row is the encoding of the process and of the revision as they are stored. *)
Record frozen `{Crypto} (s : pdb) (n : ProcessSnapshot) (p : DeploymentProcess) (r : DeploymentProcessRevision) : Prop := {
  fr_process : p ∈ Processes s;
  fr_revision : r ∈ Revisions s;
  fr_organization : sn_OrganizationID n = dp_OrganizationID p;
  fr_application : sn_ApplicationID n = dp_ApplicationID p;
  fr_process_id : sn_DeploymentProcessID n = dp_ID p /\ dr_DeploymentProcessID r = dp_ID p;
  fr_revision_id : sn_DeploymentProcessRevisionID n = dr_ID r;
  fr_number : sn_RevisionNumber n = dr_RevisionNumber r;
  fr_payload : (sn_CanonicalPayload n, sn_CanonicalChecksum n) = Canonicalize p (load_revision s r);
}.

Record sn_inv `{Crypto} (s : sdb) : Prop := {
  sn_processes_inv : p_inv (sd_processes s);
  sn_referenced : Snapshots (sd_processes s) = sn_DeploymentProcessID <$> sd_snapshots s;
  sn_ids : NoDup (sn_ID <$> sd_snapshots s);
  sn_revisions : NoDup (sn_DeploymentProcessRevisionID <$> sd_snapshots s);
  sn_frozen n : n ∈ sd_snapshots s -> exists p r, frozen (sd_processes s) n p r;
}.

(** A process that has revisions keeps its application and its organization, unless it is deleted. *)
Lemma update_keeps_application process s res s' p r :
  UpdateDeploymentProcess process s = (res, s') -> NoDup (dp_ID <$> Processes s) ->
  p ∈ Processes s -> r ∈ Revisions s -> dr_DeploymentProcessID r = dp_ID p ->
  exists p', p' ∈ Processes s' /\ dp_ID p' = dp_ID p /\ dp_OrganizationID p' = dp_OrganizationID p
    /\ dp_ApplicationID p' = dp_ApplicationID p.
Proof.
  intros E Hnd Hp Hr Erp. unfold UpdateDeploymentProcess in E.
  destruct (normalizeDeploymentProcess process) as [q|]; [|injection E as <- <-; by exists p].
  apply RunSTx_cases in E as [(u & -> & E)|(e & -> & _ & ->)]; [|by exists p].
  apply stx_bind_ok in E as (old & s1 & [Hold ->]%squery_ok & E).
  apply stx_bind_ok in E as ([] & s1 & ->%ensure_managed_ok & E).
  apply stx_bind_ok in E as ([] & s1 & ->%ensure_application_ok & E). stx_inv. unfold update_process in E.
  destruct (negb (fits_int4 _)); [done|]. destruct (name_taken _ _); [done|]. destruct (exists_where _ _); [|done].
  injection E as _ <-. simpl. unfold process_where.
  match type of Hold with find_process _ _ ?t = _ => rename t into s end.
  destruct (decide (dp_ID p = dp_ID q /\ dp_OrganizationID p = dp_OrganizationID q)) as [[Ei Eo]|Hne].
  - exists q. split_and!; [|done..|].
    + apply elem_of_update_where. exists p. split; [done|]. by rewrite !bool_decide_eq_true_2.
    + assert (old = p) as ->.
      { unfold find_process in Hold. destruct (select_where _ (Processes s)) as [|x l] eqn:Es; [done|]. injection Hold as ->.
        assert (old ∈ old :: l) as Hin by left. rewrite <- Es in Hin. apply elem_of_select_where in Hin as [Hin Hw].
        unfold process_where in Hw. to_prop. apply (NoDup_fmap_elem dp_ID (Processes s)); [done..|congruence]. }
      assert (deploymentProcessHasRevisions (dp_ID q) s = true) as Hh.
      { apply existsb_exists. exists r. split; [by apply list_elem_of_In|]. apply bool_decide_eq_true. congruence. }
      rewrite Hh in *. match goal with H : negb _ && true = false |- _ => revert H end.
      rewrite andb_true_r. by intros H%negb_false_iff%bool_decide_eq_true.
  - exists p. split; [|done]. apply elem_of_update_where. exists p. split; [done|].
    destruct (decide (dp_ID p = dp_ID q)); [|by rewrite bool_decide_eq_false_2].
    rewrite bool_decide_eq_true_2, bool_decide_eq_false_2 by naive_solver. done.
Qed.

(** The processes that have revisions, after a step: as they were, or deleted. *)
Lemma step_keeps_application `{SchemaValidator} s s' p r :
  p_inv s -> p_step s s' -> p ∈ Processes s -> r ∈ Revisions s -> dr_DeploymentProcessID r = dp_ID p ->
  (dp_ID p ∉ Snapshots s -> False) ->
  (exists p', p' ∈ Processes s' /\ dp_ID p' = dp_ID p /\ dp_OrganizationID p' = dp_OrganizationID p
    /\ dp_ApplicationID p' = dp_ApplicationID p) /\ revision_kept s s' r.
Proof.
  intros Hs Hst Hp Hr Erp Hsn.
  assert (forall id org, DeleteDeploymentProcessWithID id org s = (Ok tt, s') -> id <> dp_ID p) as Hdel.
  { intros id org E ->. apply Hsn. intros Hin. unfold DeleteDeploymentProcessWithID in E.
    apply RunSTx_cases in E as [([] & _ & E)|(e & ? & _)]; [|done].
    apply stx_bind_ok in E as ([] & s1 & ->%ensure_managed_ok & E). apply stx_bind_ok in E as ([] & s1 & Ed & E).
    unfold DeleteConfigAsCodeAuthorityForResource in Ed. stx_inv. unfold delete_process in E. simpl in E.
    by rewrite (proj2 (contains_true _ _) Hin) in E. }
  split.
  - destruct Hst as [env process res s' E|process res s' E|id org res s' E|env revision res s' Hra E|a c e sn git].
    + apply create_process_ok in E as [->|(q & Hq & ->)]; exists p; [done|]. split; [|done]. apply elem_of_app. by left.
    + by eapply update_keeps_application; [|apply Hs|..].
    + pose proof E as Edel. apply delete_process_ok in E as [->|[-> Hd]]; [by exists p|].
      exists p. split; [|done]. destruct Hd as (-> & _). apply elem_of_select_where. split; [done|].
      apply negb_true_iff. unfold process_where. rewrite bool_decide_eq_false_2; [done|]. intros E. by apply (Hdel id org).
    + exists p. split; [|done]. apply create_revision_cases in E as [[_ ->]|(x & created & Hn & _ & E)]; [done| |done|done].
      apply create_revision_ok in E as (y & number & _ & _ & _ & _ & _ & _ & -> & _). done.
    + by exists p.
  - destruct (step_keeps s s' Hs Hst) as [_ [Hk|(id & org & Ed & Hk)]]; [by apply Hk|].
    apply Hk; [done|]. rewrite Erp. intros E. by apply (Hdel id org).
Qed.

Section guarantees.
Context `{Crypto, UuidParser, SchemaValidator}.

Lemma joined_ok org application revision s p r :
  p_inv s -> getDeploymentProcessRevisionForSnapshot org application revision s = Ok (p, r) ->
  exists row, row ∈ Revisions s /\ r = load_revision s row /\ p ∈ Processes s /\ dp_OrganizationID p = org
    /\ dp_ApplicationID p = application /\ dr_ID row = revision /\ dr_DeploymentProcessID row = dp_ID p
    /\ dr_OrganizationID row = org.
Proof.
  intros Hs. unfold getDeploymentProcessRevisionForSnapshot.
  destruct (_ ≫= _) as [|q l] eqn:Ej; [done|].
  assert (q ∈ q :: l) as Hq by left. rewrite <- Ej in Hq. apply list_elem_of_bind in Hq as (row & Hq & Hrow).
  apply elem_of_select_where in Hrow as [Hrow Hrw]. apply elem_of_select_where in Hq as [Hq Hqw]. to_prop.
  intros (q' & Hq' & E)%result_bind_ok. apply result_bind_ok in E as (r' & Hr' & [= -> ->]).
  unfold find_process in Hq'. destruct (select_where (process_where _ _) _) as [|x k] eqn:Ef; [done|]. injection Hq' as ->.
  assert (p ∈ p :: k) as Hp by left. rewrite <- Ef in Hp. apply elem_of_select_where in Hp as [Hp Hpw].
  unfold process_where in Hpw. to_prop.
  assert (p = q) as -> by (apply (NoDup_fmap_elem dp_ID (Processes s)); [apply Hs|done..]).
  unfold getDeploymentProcessRevision in Hr'. destruct (select_where _ (Revisions s)) as [|y k'] eqn:Er in Hr'; [done|].
  injection Hr' as <-. assert (y ∈ y :: k') as Hy by left. rewrite <- Er in Hy. apply elem_of_select_where in Hy as [Hy Hyw].
  to_prop. exists y. split_and!; congruence.
Qed.

(** What the operation does in a consistent state. *)
Lemma ensure_cases id org application revision s n s' :
  sn_inv s -> ensureProcessSnapshotForRevision id org application revision s = Ok (n, s') ->
  exists p row, p ∈ Processes (sd_processes s) /\ row ∈ Revisions (sd_processes s) /\ dr_ID row = revision
    /\ dp_OrganizationID p = org /\ dp_ApplicationID p = application /\ dr_DeploymentProcessID row = dp_ID p
    /\ let fresh := new_snapshot id org application p (load_revision (sd_processes s) row) in
       ((s' = s /\ getProcessSnapshotByRevision revision org s = Ok n)
        \/ (s' = add_snapshot fresh s /\ n = with_revision (load_revision (sd_processes s) row) fresh
            /\ (id ∉ sn_ID <$> sd_snapshots s) /\ (revision ∉ sn_DeploymentProcessRevisionID <$> sd_snapshots s))).
Proof.
  intros Hs E. unfold ensureProcessSnapshotForRevision in E.
  apply stx_bind_ok in E as ([p r] & s1 & [Hj ->]%squery_ok & E). simpl in E.
  apply joined_ok in Hj as (row & Hrow & -> & Hp & Eo & Ea & Er & Ep & _); [|apply Hs].
  exists p, row. split_and!; [done..|]. simpl. unfold insert_snapshot in E.
  destruct (_ <=? 0)%Z; [done|]. destruct (contains _ (dr_ID _)) eqn:Ec.
  - left. replace (sn_OrganizationID _) with org in E by done. simpl in E. rewrite Er in E.
    destruct (getProcessSnapshotByRevision revision org s) as [m|]; [|done]. by injection E as <- <-.
  - right. destruct (contains (sn_ID <$> _) _) eqn:Ei; [done|]. injection E as <- <-. split_and!; [done..|by apply contains_false|].
    apply contains_false in Ec. simpl in Ec. by rewrite Er in Ec.
Qed.

Lemma frozen_same s s' n p r p' :
  frozen s n p r -> p' ∈ Processes s' -> dp_ID p' = dp_ID p -> dp_OrganizationID p' = dp_OrganizationID p ->
  dp_ApplicationID p' = dp_ApplicationID p -> revision_kept s s' r -> frozen s' n p' r.
Proof.
  intros [? ? ? ? [? ?] ? ? Hpay] ? Ei ? Ea [? El]. split; try congruence; [split; congruence|].
  rewrite El, Hpay. unfold Canonicalize, canonical_snapshot. by rewrite Ei, Ea.
Qed.

Inductive sn_step (s : sdb) : sdb -> Prop :=
| sn_ensure id org application revision res s' :
    RunSTx (ensureProcessSnapshotForRevision id org application revision) s = (res, s') -> sn_step s s'
| sn_process t : p_step (sd_processes s) t -> Snapshots t = Snapshots (sd_processes s) ->
    sn_step s (set_process_tables t s).

Definition sn_init : sdb := {| sd_processes := p_init; sd_snapshots := [] |}.
Definition sn_reachable (s : sdb) : Prop := rtc sn_step sn_init s.

Lemma sn_inv_ensure id org application revision s n s' :
  sn_inv s -> ensureProcessSnapshotForRevision id org application revision s = Ok (n, s') -> sn_inv s'.
Proof.
  intros Hs E. apply ensure_cases in E as (p & row & Hp & Hrow & Er & Eo & Ea & Ep & [[-> _]|(-> & _ & Hid & Hrev)]); [done| |done].
  split; simpl.
  - apply inv_references, Hs.
  - rewrite (sn_referenced s Hs), fmap_app. done.
  - rewrite fmap_app. apply NoDup_app. split_and!; [apply Hs| |apply NoDup_singleton].
    intros k Hk ->%list_elem_of_singleton. done.
  - rewrite fmap_app. apply NoDup_app. split_and!; [apply Hs| |apply NoDup_singleton].
    intros k Hk ->%list_elem_of_singleton. apply Hrev. simpl in Hk. by rewrite Er in Hk.
  - intros n' [Hn| ->%list_elem_of_singleton]%elem_of_app.
    + destruct (sn_frozen s Hs n' Hn) as (p' & r' & Hf). exists p', r'. eapply frozen_same; [exact Hf|..]; try done; [apply Hf|].
      split; [apply Hf|done].
    + exists p, row. split; try done.
Qed.

Lemma process_step_keeps s t n : sn_inv s -> p_step (sd_processes s) t -> n ∈ sd_snapshots s -> forall p r,
  frozen (sd_processes s) n p r ->
  exists p', frozen t n p' r /\ load_revision t r = load_revision (sd_processes s) r.
Proof.
  intros Hs Hst Hn p r Hf. destruct (fr_process_id _ _ _ _ Hf) as [En Er].
  destruct (step_keeps_application (sd_processes s) t p r) as [(p' & Hp' & Ei & Eo & Ea) Hk];
    [apply Hs|done|apply Hf|apply Hf|done| |].
  - intros Hni. apply Hni. rewrite (sn_referenced s Hs), <- En. by apply list_elem_of_fmap_2.
  - exists p'. split; [by eapply frozen_same|apply Hk].
Qed.

Lemma sn_step_inv s s' : sn_inv s -> sn_step s s' ->
  sn_inv s' /\ forall n p r, n ∈ sd_snapshots s -> frozen (sd_processes s) n p r ->
    n ∈ sd_snapshots s' /\ exists p', frozen (sd_processes s') n p' r
      /\ load_revision (sd_processes s') r = load_revision (sd_processes s) r.
Proof.
  intros Hs [id org application revision res s1 E|t Ht Esn].
  - apply RunSTx_cases in E as [(n & -> & E)|(e & _ & _ & ->)]; [|split; [done|]; intros n p r Hn Hf; split; [done|by exists p]].
    split; [by eapply sn_inv_ensure|]. intros m p r Hm Hf.
    apply ensure_cases in E as (p0 & row & _ & _ & _ & _ & _ & _ & [[-> _]|(-> & _)]); [| |done].
    + split; [done|by exists p].
    + split; [apply elem_of_app; by left|]. exists p. split; [|done].
      eapply frozen_same; [exact Hf|..]; try done; [apply Hf|split; [apply Hf|done]].
  - split.
    + split; simpl; try apply Hs.
      * by apply (step_keeps (sd_processes s) t); [apply Hs|].
      * rewrite Esn. apply Hs.
      * intros n Hn. destruct (sn_frozen s Hs n Hn) as (p & r & Hf).
        destruct (process_step_keeps s t n Hs Ht Hn p r Hf) as (p' & Hf' & _). by exists p', r.
    + intros n p r Hn Hf. split; [done|]. by eapply process_step_keeps.
Qed.

Lemma sn_steps_inv s s' : sn_inv s -> rtc sn_step s s' ->
  sn_inv s' /\ forall n p r, n ∈ sd_snapshots s -> frozen (sd_processes s) n p r ->
    n ∈ sd_snapshots s' /\ exists p', frozen (sd_processes s') n p' r
      /\ load_revision (sd_processes s') r = load_revision (sd_processes s) r.
Proof.
  intros Hs Hrt. induction Hrt as [s|s t s' Hst _ IH]; [split; [done|]; intros n p r Hn Hf; split; [done|by exists p]|].
  destruct (sn_step_inv s t Hs Hst) as [Ht Hk]. destruct (IH Ht) as [Hs' Hk']. split; [done|].
  intros n p r Hn Hf. destruct (Hk n p r Hn Hf) as (Hn' & p' & Hf' & El). destruct (Hk' n p' r Hn' Hf') as (Hn'' & p'' & Hf'' & El').
  split; [done|]. exists p''. split; [done|]. congruence.
Qed.

Lemma sn_inv_init : sn_inv sn_init.
Proof. split; try done; [apply inv_init|constructor|constructor|intros n Hn; by apply elem_of_nil in Hn]. Qed.

Lemma sn_inv_reachable s : sn_reachable s -> sn_inv s.
Proof. intros Hr. by apply (sn_steps_inv sn_init s sn_inv_init). Qed.

(** A stored snapshot as it is read. *)
Lemma get_frozen s n p r :
  sn_inv s -> n ∈ sd_snapshots s -> frozen (sd_processes s) n p r ->
  encodable (load_revision (sd_processes s) r) = true ->
  let hydrated := with_revision (hydrated_revision n (shown_revision p (load_revision (sd_processes s) r))) n in
  GetProcessSnapshot (sn_ID n) (sn_OrganizationID n) s = Ok hydrated
  /\ getProcessSnapshotByRevision (dr_ID r) (sn_OrganizationID n) s = Ok hydrated.
Proof.
  intros Hs Hn Hf He hydrated.
  assert (hydrateProcessSnapshotRevision n = Ok hydrated) as Hh.
  { unfold hydrateProcessSnapshotRevision. pose proof (fr_payload _ _ _ _ Hf) as Ep.
    replace (sn_CanonicalPayload n) with (fst (Canonicalize p (load_revision (sd_processes s) r))) by (by rewrite <- Ep).
    by rewrite decode_canonical. }
  assert (forall (c : ProcessSnapshot -> bool), c n = true -> (forall m, m ∈ sd_snapshots s -> c m = true -> m = n) ->
    first_snapshot c s = Ok hydrated) as Hfirst.
  { intros c Hc Hu. unfold first_snapshot. destruct (select_where c (sd_snapshots s)) as [|m l] eqn:E.
    - exfalso. assert (n ∈ select_where c (sd_snapshots s)) as Hin by (by apply elem_of_select_where).
      rewrite E in Hin. by apply elem_of_nil in Hin.
    - assert (m ∈ m :: l) as Hm by left. rewrite <- E in Hm. apply elem_of_select_where in Hm as [Hm Hcm].
      by rewrite (Hu m Hm Hcm). }
  split; apply Hfirst.
  - by rewrite !bool_decide_eq_true_2.
  - intros m Hm Hw. to_prop. apply (NoDup_fmap_elem sn_ID (sd_snapshots s)); [apply Hs|done..].
  - rewrite (fr_revision_id _ _ _ _ Hf). by rewrite !bool_decide_eq_true_2.
  - intros m Hm Hw. to_prop.
    apply (NoDup_fmap_elem sn_DeploymentProcessRevisionID (sd_snapshots s)); [apply Hs|done..|].
    rewrite (fr_revision_id _ _ _ _ Hf). congruence.
Qed.

(** Solve the conditions of [select_key]. *)
Ltac found :=
  first [apply sn_processes_inv|apply p_ids|apply p_revision_ids|done|by intros x _ Hx; to_prop; congruence
        |by rewrite !bool_decide_eq_true_2 by congruence]; try done.

(** The row and the process of a snapshot are found again. *)
Lemma joined_frozen s n p r : p_inv s -> frozen s n p r ->
  getDeploymentProcessRevisionForSnapshot (sn_OrganizationID n) (sn_ApplicationID n) (dr_ID r) s = Ok (p, load_revision s r).
Proof.
  intros Hs [Hp Hr Eo Ea [_ Er] _ _ _]. destruct (p_process s Hs r Hr) as (q & Hq & Eq & Eqo).
  assert (q = p) as -> by (apply (NoDup_fmap_elem dp_ID (Processes s)); [apply Hs|done|done|congruence]).
  unfold getDeploymentProcessRevisionForSnapshot. rewrite Eo, Ea.
  rewrite (select_key _ dr_ID _ r) by found. simpl. rewrite app_nil_r, (select_key _ dp_ID _ p) by found.
  unfold find_process. rewrite (select_key _ dp_ID _ p) by (unfold process_where; found).
  simpl. unfold getDeploymentProcessRevision. by rewrite (select_key _ dr_ID _ r) by found.
Qed.

Lemma positive_number s r : p_inv s -> r ∈ Revisions s -> (0 < dr_RevisionNumber r)%Z.
Proof.
  intros Hs Hr. assert (r ∈ revisions_of (dr_DeploymentProcessID r) s) as Hin.
  { apply elem_of_select_where. by rewrite bool_decide_eq_true_2. }
  apply (list_elem_of_fmap_2 dr_RevisionNumber) in Hin. rewrite (p_numbers s Hs) in Hin. apply elem_of_seqZ in Hin. lia.
Qed.

(** C15: [DecodeRevision] inverts [Canonicalize]. From the payload of a revision
    whose texts are valid and whose numbers are an [int64] it reads the revision
    back, with the steps in their order and the bindings of a step under sorted
    keys; so revisions with one payload show the same, and the checksum is that
    of the payload. *)
Theorem Decode_Canonicalize process r :
  encodable r = true ->
  DecodeRevision (fst (Canonicalize process r)) = Some (shown_revision process r)
  /\ snd (Canonicalize process r) = "sha256:" +:+ sha256_hex (fst (Canonicalize process r))
  /\ forall process' r', encodable r' = true -> fst (Canonicalize process' r') = fst (Canonicalize process r) ->
       shown_revision process' r' = shown_revision process r.
Proof.
  intros Hr. pose proof (decode_canonical process r Hr) as Hd. split_and!; [done|done|].
  intros process' r' Hr' E. pose proof (decode_canonical process' r' Hr') as Hd'. congruence.
Qed.

(** C16: a snapshot freezes its revision. In every reachable state a snapshot is
    the encoding of its process and of its revision as they are stored; however
    the processes change afterwards, the snapshot stays, its revision stays with
    the same content, and its process cannot be deleted. Reading the snapshot
    gives the revision, and a further request for the revision returns the same
    snapshot and changes nothing. *)
Theorem snapshots_frozen s s' n :
  sn_reachable s -> n ∈ sd_snapshots s -> rtc sn_step s s' ->
  n ∈ sd_snapshots s'
  /\ exists p r, frozen (sd_processes s') n p r /\ r ∈ Revisions (sd_processes s)
    /\ load_revision (sd_processes s') r = load_revision (sd_processes s) r
    /\ (forall org, fst (DeleteDeploymentProcessWithID (sn_DeploymentProcessID n) org (sd_processes s')) <> Ok tt)
    /\ (encodable (load_revision (sd_processes s') r) = true ->
        let hydrated := with_revision (hydrated_revision n (shown_revision p (load_revision (sd_processes s') r))) n in
        GetProcessSnapshot (sn_ID n) (sn_OrganizationID n) s' = Ok hydrated
        /\ forall id, ensureProcessSnapshotForRevision id (sn_OrganizationID n) (sn_ApplicationID n) (dr_ID r) s'
                      = Ok (hydrated, s')).
Proof.
  intros Hr Hn Hrt. apply sn_inv_reachable in Hr as Hs. destruct (sn_frozen s Hs n Hn) as (p0 & r & Hf0).
  destruct (sn_steps_inv s s' Hs Hrt) as [Hs' Hk]. destruct (Hk n p0 r Hn Hf0) as (Hn' & p & Hf & El).
  split; [done|]. exists p, r. split_and!; [done|apply Hf0|done|..].
  - intros org. unfold DeleteDeploymentProcessWithID. destruct (RunSTx _ _) as [res t] eqn:E. intros [= ->].
    apply RunSTx_cases in E as [([] & _ & E)|(e & ? & _)]; [|done].
    apply stx_bind_ok in E as ([] & s1 & ->%ensure_managed_ok & E). apply stx_bind_ok in E as ([] & s1 & Ed & E).
    unfold DeleteConfigAsCodeAuthorityForResource in Ed. injection Ed as <-. unfold delete_process in E. simpl in E.
    rewrite (sn_referenced s' Hs') in E.
    by rewrite (proj2 (contains_true _ _) (list_elem_of_fmap_2 sn_DeploymentProcessID _ _ Hn')) in E.
  - intros He hydrated. destruct (get_frozen s' n p r Hs' Hn' Hf He) as [Hget Hrev]. split; [done|].
    intros id. unfold ensureProcessSnapshotForRevision.
    unfold mbind, stx_bind, squery. rewrite (joined_frozen _ n p r (sn_processes_inv s' Hs') Hf). unfold insert_snapshot. simpl.
    rewrite (proj2 (Z.leb_gt _ _)) by by eapply positive_number; [apply Hs'|apply Hf].
    rewrite (proj2 (contains_true _ _)); [by rewrite Hrev|].
    rewrite <- (fr_revision_id _ _ _ _ Hf). by apply list_elem_of_fmap_2.
Qed.
End guarantees.

(** ** Concrete instances *)

Module SnapshotDemo.
Import ProcessDemo.
#[export] Existing Instance validator.
#[export] Existing Instance printed_parser.
#[export] Instance plain : Crypto := {| sha256_hex := λ s, s |}.

Definition p0 : sdb := {| sd_processes := s2; sd_snapshots := [] |}.
Definition taken := RunSTx (ensureProcessSnapshotForRevision (uid 50) (uid 1) (uid 2) (uid 7)) p0.
Definition p1 : sdb := snd taken.
(** A second revision of the process. *)
Definition p2 : sdb := set_process_tables (snd (CreateDeploymentProcessRevision (env 8) revision (sd_processes p1))) p1.

Lemma p0_reachable : sn_reachable p0.
Proof.
  unfold sn_reachable. assert (forall s, rtc p_step p_init s -> Snapshots s = [] ->
    rtc (λ a b, p_step a b /\ Snapshots b = Snapshots a) p_init s -> rtc sn_step sn_init {| sd_processes := s; sd_snapshots := [] |}) as H.
  { intros s _ _ Hr. change sn_init with {| sd_processes := p_init; sd_snapshots := [] |}.
    induction Hr as [|a b c [Hab E] _ IH]; [done|]. eapply rtc_l; [|exact IH].
    by apply (sn_process {| sd_processes := a; sd_snapshots := [] |} b). }
  apply H; [apply s2_reachable|by vm_compute|].
  eapply rtc_l; [split; [apply (p_references p_init [(uid 2, uid 1)] [(uid 4, uid 1, uid 2); (uid 5, uid 1, uid 2)] [(uid 6, uid 1)] [] [])|done]|].
  eapply rtc_l; [split; [apply (p_create _ (env 3) process (fst (CreateDeploymentProcess (env 3) process s0))), surjective_pairing|by vm_compute]|].
  apply rtc_once. split; [|by vm_compute]. eapply (p_revision _ (env 7) revision); [apply env_range|apply surjective_pairing].
Qed.

Lemma p1_reachable : sn_reachable p1.
Proof. eapply rtc_r; [apply p0_reachable|]. eapply (sn_ensure p0 (uid 50) (uid 1) (uid 2) (uid 7)), surjective_pairing. Qed.

Lemma p12 : sn_step p1 p2.
Proof.
  apply sn_process; [|by vm_compute]. eapply (p_revision _ (env 8) revision); [apply env_range|apply surjective_pairing].
Qed.

Definition snapshot : ProcessSnapshot :=
  match sd_snapshots p1 with n :: _ => n | [] => new_snapshot Nil Nil Nil process revision end.

Example snapshot_demo :
  (λ n, ds_Key <$> default [] (dr_Steps <$> sn_Revision n)) <$> fst taken = Ok ["build"; "check"; "deploy"]
  /\ fst (RunSTx (ensureProcessSnapshotForRevision (uid 51) (uid 1) (uid 9) (uid 7)) p0) = Err NotFound
  /\ fst (DeleteDeploymentProcessWithID (uid 3) (uid 1) (sd_processes p1)) = Err (Conflict "could not delete DeploymentProcess").
Proof. vm_compute. done. Qed.

Definition bound : DeploymentProcessRevision :=
  with_steps [let d := step "deploy" 1 [] in
    {| ds_ID := uid 9; ds_DeploymentProcessRevisionID := uid 7; ds_Key := ds_Key d; ds_Name := ds_Name d; ds_ActionType := ds_ActionType d;
       ds_StepTemplateVersionID := Some (uid 77); ds_ExecutionLocation := ds_ExecutionLocation d;
       ds_InputBindings := Some [("url", JString "a<b"); ("args", JObject [("n", JNumber "1.5"); ("k", JArray [JNull; JBool true])])];
       ds_Condition := ds_Condition d; ds_ChannelIDs := ds_ChannelIDs d; ds_EnvironmentIDs := ds_EnvironmentIDs d;
       ds_TargetTags := ds_TargetTags d; ds_FailureMode := ds_FailureMode d; ds_TimeoutSeconds := ds_TimeoutSeconds d;
       ds_RetryMaxAttempts := ds_RetryMaxAttempts d; ds_RetryIntervalSeconds := ds_RetryIntervalSeconds d;
       ds_RequiredPermissions := ds_RequiredPermissions d; ds_SortOrder := ds_SortOrder d; ds_Dependencies := ds_Dependencies d |}] revision.
End SnapshotDemo.

Import SnapshotDemo.

Lemma Decode_Canonicalize_witness :
  (λ r, ds_InputBindings <$> dr_Steps r) <$> DecodeRevision (fst (Canonicalize ProcessDemo.process bound))
  = Some [Some [("args", JObject [("k", JArray [JNull; JBool true]); ("n", JNumber "1.5")]); ("url", JString "a<b")]].
Proof.
  rewrite (proj1 (Decode_Canonicalize ProcessDemo.process bound ltac:(vm_compute; reflexivity))). vm_compute. reflexivity.
Defined.

Lemma snapshots_frozen_witness :
  fst (DeleteDeploymentProcessWithID (sn_DeploymentProcessID snapshot) (uid 1) (sd_processes p2)) <> Ok tt.
Proof.
  destruct (snapshots_frozen p1 p2 snapshot p1_reachable ltac:(vm_compute; left) (rtc_once _ _ p12))
    as (_ & p & r & _ & _ & _ & Hdel & _).
  apply Hdel.
Defined.
