(* ===== verification/VariableSets.v ===== *)
(** * Variable sets ([internal/db/variable_sets.go])

    A set has variables, a variable has a default and values for scopes. The
    normalization and the checks of a set, the four tables with the constraints
    of the migrations 117 and 118, the operations and the preview of a
    resolution. The columns [created_at], [updated_at] and the description of a
    variable, which no operation reads, are left out. *)
From S2P Require Import Prelude GoStrings Uuid GoRegexp GoJson GoFloat StepRedaction JsonDecode JsonStruct TaskStore Transaction VariableResolution DeploymentProcess.
Open Scope list_scope.

(** ** Data *)

Record VariableSet := {
  vst_ID : uuid;
  vst_OrganizationID : uuid;
  vst_Name : string;
  vst_Description : string;
  vst_SortOrder : Z;
  vst_ApplicationIDs : list uuid;
  vst_Variables : list types_Variable;
}.

Definition with_children (applications : list uuid) (variables : list types_Variable) (v : VariableSet) : VariableSet :=
  {| vst_ID := vst_ID v; vst_OrganizationID := vst_OrganizationID v; vst_Name := vst_Name v;
     vst_Description := vst_Description v; vst_SortOrder := vst_SortOrder v; vst_ApplicationIDs := applications;
     vst_Variables := variables |}.

Definition with_scoped_values (l : list VariableScopedValue) (v : types_Variable) : types_Variable :=
  {| v_ID := v_ID v; v_VariableSetID := v_VariableSetID v; v_Key := v_Key v; v_Type := v_Type v;
     v_IsRequired := v_IsRequired v; v_DefaultValue := v_DefaultValue v; v_ReferenceID := v_ReferenceID v;
     v_ReferenceName := v_ReferenceName v; v_ScopedValues := l |}.
Definition with_default (d : option string) (v : types_Variable) : types_Variable :=
  {| v_ID := v_ID v; v_VariableSetID := v_VariableSetID v; v_Key := v_Key v; v_Type := v_Type v;
     v_IsRequired := v_IsRequired v; v_DefaultValue := d; v_ReferenceID := v_ReferenceID v;
     v_ReferenceName := v_ReferenceName v; v_ScopedValues := v_ScopedValues v |}.
Definition with_reference_name (name : string) (v : types_Variable) : types_Variable :=
  {| v_ID := v_ID v; v_VariableSetID := v_VariableSetID v; v_Key := v_Key v; v_Type := v_Type v;
     v_IsRequired := v_IsRequired v; v_DefaultValue := v_DefaultValue v; v_ReferenceID := v_ReferenceID v;
     v_ReferenceName := name; v_ScopedValues := v_ScopedValues v |}.

(** ** JSON values *)

Definition hasVariableJSONValue (value : option string) : bool :=
  let trimmed := TrimSpace (default "" value) in
  (0 <? len trimmed)%Z && negb (bool_decide (trimmed = "null")).

(** One value and the end of the text; numbers keep their text. *)
Definition decodeVariableJSONValue (value : option string) : option json := json_parse (default "" value).

(** The switch over the type; [Float64] fails when the number is too large. *)
Definition value_of_type (t : VariableType) (value : json) : bool :=
  match t, value with
  | VariableTypeString, JString _ => true
  | VariableTypeString, _ => false
  | VariableTypeNumber, JNumber number => parses_finite number
  | VariableTypeNumber, _ => false
  | VariableTypeBoolean, JBool _ => true
  | VariableTypeBoolean, _ => false
  | VariableTypeJSON, JNull => false
  | _, _ => true
  end.

Definition invalid_value : apierror := BadRequest "could not normalize Variable value".
Definition invalid_variable : apierror := BadRequest "could not normalize Variable".
Definition invalid_scoped_value : apierror := BadRequest "could not normalize VariableScopedValue".
Definition invalid_set : apierror := BadRequest "could not normalize VariableSet".

Definition validateValueForVariableType (t : VariableType) (raw : option string) : result apierror unit :=
  match decodeVariableJSONValue raw with
  | None => Err invalid_value
  | Some value => fail_if (negb (value_of_type t value)) invalid_value
  end.

(** ** Normalization *)

Definition isKnownVariableType (t : VariableType) : bool :=
  match t with VariableTypeOther _ => false | _ => true end.

Definition normalizeValueVariable (v : types_Variable) : result apierror types_Variable :=
  fail_if (negb (bool_decide (v_ReferenceID v = "")) || negb (bool_decide (v_ReferenceName v = ""))) invalid_variable
    ≫= λ _,
  if negb (hasVariableJSONValue (v_DefaultValue v)) then
    if v_IsRequired v then Ok (with_default None v) else Err invalid_variable
  else
    match decodeVariableJSONValue (v_DefaultValue v) with
    | None => Err invalid_variable
    | Some value => fail_if (negb (value_of_type (v_Type v) value)) invalid_variable ≫= λ _, Ok v
    end.

Section normalize.
Context `{UuidParser}.

(** [uuid.Parse] fails or gives the nil identifier. *)
Definition unusable_id (text : string) : bool :=
  match uuid_Parse text with Some id => is_nil id | None => true end.

Definition normalizeReferenceVariable (v : types_Variable) : result apierror types_Variable :=
  let v := with_default None v in
  if bool_decide (v_ReferenceID v = "") then if v_IsRequired v then Ok v else Err invalid_variable else
  fail_if (unusable_id (v_ReferenceID v)) invalid_variable ≫= λ _,
  fail_if (negb (bool_decide (v_Type v = VariableTypeSecretReference)) && bool_decide (v_ReferenceName v = ""))
    invalid_variable ≫= λ _,
  Ok v.

Definition trim_scoped_value (sv : VariableScopedValue) : VariableScopedValue :=
  {| sv_Scope := trim_scope (sv_Scope sv); sv_SortOrder := sv_SortOrder sv; sv_Value := sv_Value sv;
     sv_ReferenceID := TrimSpace (sv_ReferenceID sv); sv_ReferenceName := TrimSpace (sv_ReferenceName sv) |}.

Definition without_value (sv : VariableScopedValue) : VariableScopedValue :=
  {| sv_Scope := sv_Scope sv; sv_SortOrder := sv_SortOrder sv; sv_Value := None;
     sv_ReferenceID := sv_ReferenceID sv; sv_ReferenceName := sv_ReferenceName sv |}.

Definition normalizeScopedValue (t : VariableType) (sv : VariableScopedValue) : result apierror VariableScopedValue :=
  let sv := trim_scoped_value sv in
  fail_if ((sv_SortOrder sv <? 0)%Z || negb (Supported (sv_Scope sv))) invalid_scoped_value ≫= λ _,
  if isReferenceVariableType t then
    fail_if (hasVariableJSONValue (sv_Value sv)) invalid_scoped_value ≫= λ _,
    let sv := without_value sv in
    fail_if (bool_decide (sv_ReferenceID sv = "")) invalid_scoped_value ≫= λ _,
    fail_if (unusable_id (sv_ReferenceID sv)) invalid_scoped_value ≫= λ _,
    fail_if (negb (bool_decide (t = VariableTypeSecretReference)) && bool_decide (sv_ReferenceName sv = ""))
      invalid_scoped_value ≫= λ _,
    Ok sv
  else
    fail_if (negb (bool_decide (sv_ReferenceID sv = "")) || negb (bool_decide (sv_ReferenceName sv = "")))
      invalid_scoped_value ≫= λ _,
    fail_if (negb (hasVariableJSONValue (sv_Value sv))) invalid_scoped_value ≫= λ _,
    validateValueForVariableType t (sv_Value sv) ≫= λ _,
    Ok sv.

(** The loop with the set of the keys of the scopes. *)
Fixpoint normalizeScopedValues (scopes : list string) (t : VariableType) (l : list VariableScopedValue)
    : result apierror (list VariableScopedValue) :=
  match l with
  | [] => Ok []
  | sv :: l =>
      normalizeScopedValue t sv ≫= λ sv,
      fail_if (contains scopes (Key (sv_Scope sv))) invalid_scoped_value ≫= λ _,
      normalizeScopedValues (Key (sv_Scope sv) :: scopes) t l ≫= λ l, Ok (sv :: l)
  end.

Definition trim_variable (v : types_Variable) : types_Variable :=
  {| v_ID := v_ID v; v_VariableSetID := v_VariableSetID v; v_Key := TrimSpace (v_Key v); v_Type := v_Type v;
     v_IsRequired := v_IsRequired v; v_DefaultValue := v_DefaultValue v; v_ReferenceID := TrimSpace (v_ReferenceID v);
     v_ReferenceName := TrimSpace (v_ReferenceName v); v_ScopedValues := v_ScopedValues v |}.

Definition normalizeVariable (v : types_Variable) : result apierror types_Variable :=
  let v := trim_variable v in
  fail_if (bool_decide (v_Key v = "") || negb (isKnownVariableType (v_Type v))) invalid_variable ≫= λ _,
  (if isReferenceVariableType (v_Type v) then normalizeReferenceVariable v else normalizeValueVariable v) ≫= λ v,
  normalizeScopedValues [] (v_Type v) (v_ScopedValues v) ≫= λ l,
  Ok (with_scoped_values l v).

Fixpoint normalize_variables (keys : list string) (l : list types_Variable) : result apierror (list types_Variable) :=
  match l with
  | [] => Ok []
  | v :: l =>
      normalizeVariable v ≫= λ v,
      fail_if (contains keys (v_Key v)) invalid_set ≫= λ _,
      normalize_variables (v_Key v :: keys) l ≫= λ l, Ok (v :: l)
  end.

Fixpoint check_application_ids (seen l : list uuid) : result apierror unit :=
  match l with
  | [] => Ok tt
  | id :: l => if is_nil id || contains seen id then Err invalid_set else check_application_ids (id :: seen) l
  end.

Definition normalizeVariableSet (v : VariableSet) : result apierror VariableSet :=
  let name := TrimSpace (vst_Name v) in
  fail_if (bool_decide (name = "")) invalid_set ≫= λ _,
  fail_if (vst_SortOrder v <? 0)%Z invalid_set ≫= λ _,
  check_application_ids [] (vst_ApplicationIDs v) ≫= λ _,
  normalize_variables [] (vst_Variables v) ≫= λ variables,
  Ok {| vst_ID := vst_ID v; vst_OrganizationID := vst_OrganizationID v; vst_Name := name;
        vst_Description := vst_Description v; vst_SortOrder := vst_SortOrder v;
        vst_ApplicationIDs := vst_ApplicationIDs v; vst_Variables := variables |}.
End normalize.

(** ** The tables

    [VariableSets] holds sets without their children. The tables that a scope
    can refer to are lists of keys with their organization; [GitManaged] are
    the sets whose authority is Git. *)
Record SetApplication := { sa_SetID : uuid; sa_OrganizationID : uuid; sa_ApplicationID : uuid; sa_SortOrder : Z }.

Record VariableRow := {
  vw_ID : uuid;
  vw_OrganizationID : uuid;
  vw_SetID : uuid;
  vw_Key : string;
  vw_Type : VariableType;
  vw_IsRequired : bool;
  vw_DefaultValue : option string;
  vw_SecretReferenceID : option uuid;
  vw_ReferenceID : option string;
  vw_ReferenceName : string;
}.

Record ScopedValueRow := {
  sw_ID : uuid;
  sw_OrganizationID : uuid;
  sw_SetID : uuid;
  sw_VariableID : uuid;
  sw_Scope : VariableScope;
  sw_SortOrder : Z;
  sw_Value : option string;
  sw_SecretReferenceID : option uuid;
  sw_ReferenceID : option string;
  sw_ReferenceName : string;
}.

Record Secret := {
  sec_ID : uuid; sec_OrganizationID : uuid; sec_CustomerOrganizationID : option uuid; sec_Key : string }.

Record references := {
  ref_Applications : list (uuid * uuid);
  ref_Channels : list (uuid * uuid);
  ref_Environments : list (uuid * uuid);
  ref_DeploymentTargets : list (uuid * uuid);
  ref_CustomerOrganizations : list (uuid * uuid);
  ref_Secrets : list Secret;
  ref_GitManaged : list (uuid * uuid);
}.

Record vdb := {
  VariableSets : list VariableSet;
  SetApplications : list SetApplication;
  VariableRows : list VariableRow;
  ScopedValueRows : list ScopedValueRow;
  refs : references;
}.

Abbreviation vtx := (stx vdb).

Definition set_sets (l : list VariableSet) (s : vdb) : vdb :=
  {| VariableSets := l; SetApplications := SetApplications s; VariableRows := VariableRows s;
     ScopedValueRows := ScopedValueRows s; refs := refs s |}.
Definition set_children (a : list SetApplication) (v : list VariableRow) (w : list ScopedValueRow) (s : vdb) : vdb :=
  {| VariableSets := VariableSets s; SetApplications := a; VariableRows := v; ScopedValueRows := w; refs := refs s |}.
Definition set_refs (r : references) (s : vdb) : vdb :=
  {| VariableSets := VariableSets s; SetApplications := SetApplications s; VariableRows := VariableRows s;
     ScopedValueRows := ScopedValueRows s; refs := r |}.

(** The keys that the database and [uuid.New] generate. *)
Record venv := { new_set_id : uuid; new_variable_id : nat -> uuid; new_scoped_id : nat -> uuid }.

(** ** References *)

Definition ensureVariableSetApplications (org : uuid) (ids : list uuid) : vtx unit := sforbid (λ s,
  negb (bool_decide (length (select_where (λ a, bool_decide (snd a = org) && contains ids (fst a))
    (ref_Applications (refs s))) = length ids))) NotFound.

Definition ensureScopedReference (table : references -> list (uuid * uuid)) (org : uuid) (id : option uuid)
    : vtx unit :=
  match id with
  | Some id => sforbid (λ s, negb (contains (table (refs s)) (id, org))) NotFound
  | None => mret tt
  end.

Definition ensureVariableScopeReferences (org : uuid) (scope : VariableScope) : vtx unit :=
  ensureScopedReference ref_Applications org (vs_ApplicationID scope) ≫= λ _,
  ensureScopedReference ref_Channels org (vs_ChannelID scope) ≫= λ _,
  ensureScopedReference ref_Environments org (vs_EnvironmentID scope) ≫= λ _,
  ensureScopedReference ref_DeploymentTargets org (vs_DeploymentTargetID scope) ≫= λ _,
  ensureScopedReference ref_CustomerOrganizations org (vs_CustomerOrganizationID scope).

(** Loops over the values of a slice that change them. *)
Fixpoint smap {S A B} (f : A -> stx S B) (l : list A) : stx S (list B) :=
  match l with
  | [] => mret []
  | a :: l => f a ≫= λ b, smap f l ≫= λ l, mret (b :: l)
  end.

Section references.
Context `{UuidParser}.

Definition ensureVariableSecretReference (org : uuid) (referenceID : string) : vtx string :=
  match uuid_Parse referenceID with
  | Some id =>
      if is_nil id then sthrow (BadRequest "could not validate Variable secret reference") else
      squery (λ s, match select_where (λ x, bool_decide (sec_ID x = id) && bool_decide (sec_OrganizationID x = org)
                          && bool_decide (sec_CustomerOrganizationID x = None)) (ref_Secrets (refs s)) with
                   | x :: _ => Ok (sec_Key x)
                   | [] => Err NotFound
                   end)
  | None => sthrow (BadRequest "could not validate Variable secret reference")
  end.

Definition ensureVariableReferences (org : uuid) (l : list types_Variable) : vtx (list types_Variable) :=
  smap (λ v, if negb (bool_decide (v_Type v = VariableTypeSecretReference)) || bool_decide (v_ReferenceID v = "")
             then mret v
             else ensureVariableSecretReference org (v_ReferenceID v) ≫= λ key, mret (with_reference_name key v)) l.

Definition with_scoped_name (name : string) (sv : VariableScopedValue) : VariableScopedValue :=
  {| sv_Scope := sv_Scope sv; sv_SortOrder := sv_SortOrder sv; sv_Value := sv_Value sv;
     sv_ReferenceID := sv_ReferenceID sv; sv_ReferenceName := name |}.

Definition ensure_scoped_value (org : uuid) (t : VariableType) (sv : VariableScopedValue) : vtx VariableScopedValue :=
  ensureVariableScopeReferences org (sv_Scope sv) ≫= λ _,
  if bool_decide (t = VariableTypeSecretReference)
  then ensureVariableSecretReference org (sv_ReferenceID sv) ≫= λ key, mret (with_scoped_name key sv)
  else mret sv.

Definition ensureVariableScopedValueReferences (org : uuid) (l : list types_Variable) : vtx (list types_Variable) :=
  smap (λ v, smap (ensure_scoped_value org (v_Type v)) (v_ScopedValues v) ≫= λ l, mret (with_scoped_values l v)) l.
End references.

(** ** Insertion *)

(** [mapVariableSetWriteError] *)
Inductive pg_violation := UniqueViolation | ForeignKeyViolation | CheckViolation | OtherViolation.
Definition mapVariableSetWriteError (action : string) (v : pg_violation) : apierror :=
  match v with
  | UniqueViolation => AlreadyExists ("could not " +:+ action +:+ " VariableSet")
  | ForeignKeyViolation => NotFound
  | CheckViolation => BadRequest ("could not " +:+ action +:+ " VariableSet")
  | OtherViolation => Internal ("could not " +:+ action +:+ " VariableSet")
  end.

Definition typeof_is (names : list string) (d : option string) : bool :=
  match d with
  | None => true
  | Some t => match json_parse t with Some v => contains names (jsonb_typeof v) | None => false end
  end.

(** [variable_value_type_check]; a stored value is not a JSON [null] unless its
    type is that. *)
Definition variable_value_type_check (w : VariableRow) : bool :=
  let no_reference := negb (non_nil (vw_SecretReferenceID w)) && negb (non_nil (vw_ReferenceID w)) in
  match vw_Type w with
  | VariableTypeString => no_reference && typeof_is ["string"] (vw_DefaultValue w)
  | VariableTypeNumber => no_reference && typeof_is ["number"] (vw_DefaultValue w)
  | VariableTypeBoolean => no_reference && typeof_is ["boolean"] (vw_DefaultValue w)
  | VariableTypeJSON =>
      no_reference && typeof_is ["object"; "array"; "string"; "number"; "boolean"] (vw_DefaultValue w)
  | VariableTypeSecretReference => negb (non_nil (vw_DefaultValue w)) && negb (non_nil (vw_ReferenceID w))
  | VariableTypeAccountReference | VariableTypeCertificateReference =>
      negb (non_nil (vw_DefaultValue w)) && negb (non_nil (vw_SecretReferenceID w))
  | VariableTypeOther _ => false
  end.

(** [variablescopedvalue_payload_check]: exactly one of three. *)
Definition payload_check (w : ScopedValueRow) : bool :=
  match sw_Value w, sw_SecretReferenceID w, sw_ReferenceID w with
  | Some _, None, None | None, Some _, None | None, None, Some _ => true
  | _, _, _ => false
  end.

(** [variablescopedvalue_scope_shape_check]: the components that are set. *)
Definition scope_shape_check (s : VariableScope) : bool :=
  match vs_CustomerOrganizationID s, vs_EnvironmentID s, vs_DeploymentTargetID s, vs_ChannelID s,
        bool_decide (vs_ProcessStepKey s = ""), vs_ApplicationID s, bool_decide (vs_TargetTag s = "") with
  | Some _, Some _, Some _, Some _, false, None, true => true
  | Some _, Some _, Some _, None, true, None, true => true
  | Some _, Some _, None, Some _, true, None, true => true
  | Some _, Some _, None, None, true, None, true => true
  | None, Some _, None, None, true, None, false => true
  | None, Some _, None, None, true, None, true => true
  | None, None, None, Some _, true, None, true => true
  | None, None, None, None, true, Some _, true => true
  | _, _, _, _, _, _, _ => false
  end.

Definition scope_columns (s : VariableScope)
    : option uuid * option uuid * option uuid * option uuid * option uuid * string * string :=
  (vs_CustomerOrganizationID s, vs_EnvironmentID s, vs_ChannelID s, vs_DeploymentTargetID s, vs_ApplicationID s,
   vs_TargetTag s, vs_ProcessStepKey s).

(** The row goes into the table unless it violates a constraint; the foreign
    keys were just checked. *)
Definition insert_variable_row (w : VariableRow) : vtx unit := λ s,
  let fail v := Err (mapVariableSetWriteError "insert variables" v) in
  if negb (variable_value_type_check w) then fail CheckViolation else
  if contains (vw_ID <$> VariableRows s) (vw_ID w)
     || exists_where (λ x, bool_decide (vw_SetID x = vw_SetID w) && bool_decide (vw_Key x = vw_Key w)) (VariableRows s)
  then fail UniqueViolation
  else Ok (tt, set_children (SetApplications s) (VariableRows s ++ [w]) (ScopedValueRows s) s).

Definition insert_scoped_row (w : ScopedValueRow) : vtx unit := λ s,
  let fail v := Err (mapVariableSetWriteError "insert scoped values" v) in
  if negb (fits_int4 (sw_SortOrder w)) then fail OtherViolation else
  if (sw_SortOrder w <? 0)%Z || negb (payload_check w) || negb (scope_shape_check (sw_Scope w))
  then fail CheckViolation else
  if contains (sw_ID <$> ScopedValueRows s) (sw_ID w)
     || exists_where (λ x, bool_decide (sw_VariableID x = sw_VariableID w)
          && bool_decide (scope_columns (sw_Scope x) = scope_columns (sw_Scope w))) (ScopedValueRows s)
  then fail UniqueViolation
  else Ok (tt, set_children (SetApplications s) (VariableRows s) (ScopedValueRows s ++ [w]) s).

Fixpoint insert_rows {A} (insert : A -> vtx unit) (l : list A) : vtx unit :=
  match l with [] => mret tt | a :: l => insert a ≫= λ _, insert_rows insert l end.

(** The link is new: the identifiers are distinct and the set has no links. *)
Definition insertVariableSetApplications (set org : uuid) (ids : list uuid) : vtx unit := smodify (λ s,
  set_children (SetApplications s ++ imap (λ i id, {| sa_SetID := set; sa_OrganizationID := org; sa_ApplicationID := id;
    sa_SortOrder := Z.of_nat i |}) ids) (VariableRows s) (ScopedValueRows s) s).

Section insert.
Context `{UuidParser, Jsonb}.

Definition variableReferenceColumns (v : types_Variable) : option (option uuid * option string) :=
  if bool_decide (v_ReferenceID v = "") then Some (None, None) else
  if bool_decide (v_Type v = VariableTypeSecretReference)
  then (λ id, (Some id, None)) <$> uuid_Parse (v_ReferenceID v)
  else Some (None, Some (v_ReferenceID v)).

Definition scopedValueReferenceColumns (sv : VariableScopedValue) (t : VariableType)
    : option (option uuid * option string) :=
  if bool_decide (sv_ReferenceID sv = "") then Some (None, None) else
  if non_nil (sv_Value sv) then None else
  if bool_decide (t = VariableTypeSecretReference)
  then (λ id, (Some id, None)) <$> uuid_Parse (sv_ReferenceID sv)
  else Some (None, Some (sv_ReferenceID sv)).

Definition variableDefaultValue (value : option string) : option string :=
  if negb (hasVariableJSONValue value) then None else value.

(** A [JSONB] column: [None] when the database refuses the text. *)
Definition jsonb_column (value : option string) : option (option string) :=
  match variableDefaultValue value with
  | None => Some None
  | Some text => Some <$> jsonb_text text
  end.

Definition variable_row (id set org : uuid) (v : types_Variable) : option VariableRow :=
  '(secret, reference) ← variableReferenceColumns v;
  d ← jsonb_column (v_DefaultValue v);
  Some {| vw_ID := id; vw_OrganizationID := org; vw_SetID := set; vw_Key := v_Key v; vw_Type := v_Type v;
          vw_IsRequired := v_IsRequired v; vw_DefaultValue := d; vw_SecretReferenceID := secret;
          vw_ReferenceID := reference; vw_ReferenceName := v_ReferenceName v |}.

Definition scoped_row (id variable set org : uuid) (t : VariableType) (sv : VariableScopedValue)
    : option ScopedValueRow :=
  '(secret, reference) ← scopedValueReferenceColumns sv t;
  d ← jsonb_column (sv_Value sv);
  Some {| sw_ID := id; sw_OrganizationID := org; sw_SetID := set; sw_VariableID := variable; sw_Scope := sv_Scope sv;
          sw_SortOrder := sv_SortOrder sv; sw_Value := d; sw_SecretReferenceID := secret; sw_ReferenceID := reference;
          sw_ReferenceName := sv_ReferenceName sv |}.

(** One row of a [CopyFrom]: the callback can fail, and the database. *)
Definition copy_row {A} (action : string) (row : option A) (insert : A -> vtx unit) : vtx unit :=
  match row with
  | Some w => insert w
  | None => sthrow (mapVariableSetWriteError action OtherViolation)
  end.

(** All scoped values of all variables, with the type of the variable. *)
Definition scoped_values (env : venv) (l : list types_Variable) : list (uuid * VariableType * VariableScopedValue) :=
  imap (λ i v, (new_variable_id env i, v)) l ≫= λ x, (λ sv, (fst x, v_Type (snd x), sv)) <$> v_ScopedValues (snd x).

Definition insertScopedValues (env : venv) (set org : uuid) (variables : list types_Variable) : vtx unit :=
  insert_rows (λ r, copy_row "insert scoped values" r insert_scoped_row)
    (imap (λ i x, scoped_row (new_scoped_id env i) (fst (fst x)) set org (snd (fst x)) (snd x)) (scoped_values env variables)).

Definition insertVariables (env : venv) (set org : uuid) (variables : list types_Variable) : vtx unit :=
  insert_rows (λ r, copy_row "insert variables" r insert_variable_row)
    (imap (λ i v, variable_row (new_variable_id env i) set org v) variables) ≫= λ _,
  insertScopedValues env set org variables.
End insert.

Definition replaceVariableSetChildren (set org : uuid) : vtx unit := smodify (λ s,
  let variables := select_where (λ w, negb (bool_decide (vw_SetID w = set) && bool_decide (vw_OrganizationID w = org)))
    (VariableRows s) in
  set_children
    (select_where (λ a, negb (bool_decide (sa_SetID a = set) && bool_decide (sa_OrganizationID a = org))) (SetApplications s))
    variables (select_where (λ w, contains (vw_ID <$> variables) (sw_VariableID w)) (ScopedValueRows s)) s).

(** ** Reading *)

(** [LEFT JOIN Secret] *)
Definition secret_key (s : vdb) (id : option uuid) : option string :=
  match id with
  | Some id => sec_Key <$> head (select_where (λ x, bool_decide (sec_ID x = id)) (ref_Secrets (refs s)))
  | None => None
  end.
Definition reference_id (secret : option uuid) (reference : option string) : string :=
  match secret with Some id => uuid_string id | None => default "" reference end.
Definition reference_name (s : vdb) (secret : option uuid) (name : string) : string := default name (secret_key s secret).

Definition read_value (value : option string) : option string := if hasVariableJSONValue value then value else None.

Definition read_scoped (s : vdb) (w : ScopedValueRow) : VariableScopedValue :=
  {| sv_Scope := sw_Scope w; sv_SortOrder := sw_SortOrder w; sv_Value := read_value (sw_Value w);
     sv_ReferenceID := reference_id (sw_SecretReferenceID w) (sw_ReferenceID w);
     sv_ReferenceName := reference_name s (sw_SecretReferenceID w) (sw_ReferenceName w) |}.

Definition getScopedValuesForVariable (variable : uuid) (s : vdb) : list VariableScopedValue :=
  read_scoped s <$> stable_sort (less_then sw_SortOrder (less_str_by (λ w, uuid_string (sw_ID w))))
    (select_where (λ w, bool_decide (sw_VariableID w = variable)) (ScopedValueRows s)).

Definition read_variable (s : vdb) (w : VariableRow) : types_Variable :=
  {| v_ID := vw_ID w; v_VariableSetID := vw_SetID w; v_Key := vw_Key w; v_Type := vw_Type w;
     v_IsRequired := vw_IsRequired w; v_DefaultValue := read_value (vw_DefaultValue w);
     v_ReferenceID := reference_id (vw_SecretReferenceID w) (vw_ReferenceID w);
     v_ReferenceName := reference_name s (vw_SecretReferenceID w) (vw_ReferenceName w);
     v_ScopedValues := getScopedValuesForVariable (vw_ID w) s |}.

Definition getVariableSetApplicationIDs (set : uuid) (s : vdb) : list uuid :=
  sa_ApplicationID <$> stable_sort (less_then sa_SortOrder (less_str_by (λ a, uuid_string (sa_ApplicationID a))))
    (select_where (λ a, bool_decide (sa_SetID a = set)) (SetApplications s)).

Section reading.
Context `{Collation}.

(** [ORDER BY key, id] *)
Definition variable_row_less (x y : VariableRow) : bool :=
  if bool_decide (vw_Key x = vw_Key y) then less_str_by (λ w, uuid_string (vw_ID w)) x y else name_less (vw_Key x) (vw_Key y).

Definition getVariablesForSet (set : uuid) (s : vdb) : list types_Variable :=
  read_variable s <$> stable_sort variable_row_less
    (select_where (λ w, bool_decide (vw_SetID w = set)) (VariableRows s)).

Definition hydrateVariableSet (s : vdb) (v : VariableSet) : VariableSet :=
  with_children (getVariableSetApplicationIDs (vst_ID v) s) (getVariablesForSet (vst_ID v) s) v.

Definition set_where (id org : uuid) (v : VariableSet) : bool :=
  bool_decide (vst_ID v = id) && bool_decide (vst_OrganizationID v = org).

Definition getVariableSet (id org : uuid) (s : vdb) : result apierror VariableSet :=
  match select_where (set_where id org) (VariableSets s) with
  | v :: _ => Ok (hydrateVariableSet s v)
  | [] => Err NotFound
  end.
Definition GetVariableSet (id org : uuid) (s : vdb) : result apierror VariableSet := getVariableSet id org s.

(** [ORDER BY sort_order, name, id] *)
Definition set_less (x y : VariableSet) : bool :=
  less_then vst_SortOrder (λ x y, if bool_decide (vst_Name x = vst_Name y) then less_str_by (λ v, uuid_string (vst_ID v)) x y
                                  else name_less (vst_Name x) (vst_Name y)) x y.
Definition GetVariableSetsByOrganizationID (org : uuid) (s : vdb) : list VariableSet :=
  hydrateVariableSet s <$> stable_sort set_less (select_where (λ v, bool_decide (vst_OrganizationID v = org)) (VariableSets s)).

(** ** The operations *)

Definition ensure_database_managed (org id : uuid) : vtx unit :=
  sforbid (λ s, negb (exists_where (set_where id org) (VariableSets s))) NotFound ≫= λ _,
  sforbid (λ s, contains (ref_GitManaged (refs s)) (org, id)) (Conflict "resource is managed by Git").

Definition delete_authority (org id : uuid) : vtx unit := smodify (λ s,
  let r := refs s in
  set_refs {| ref_Applications := ref_Applications r; ref_Channels := ref_Channels r;
              ref_Environments := ref_Environments r; ref_DeploymentTargets := ref_DeploymentTargets r;
              ref_CustomerOrganizations := ref_CustomerOrganizations r; ref_Secrets := ref_Secrets r;
              ref_GitManaged := select_where (λ k, negb (bool_decide (k = (org, id)))) (ref_GitManaged r) |} s).

Definition name_used (id org : uuid) (name : string) (s : vdb) : bool :=
  exists_where (λ v, negb (bool_decide (vst_ID v = id)) && bool_decide (vst_OrganizationID v = org)
    && bool_decide (vst_Name v = name)) (VariableSets s).

Definition set_row (id : uuid) (v : VariableSet) : VariableSet :=
  {| vst_ID := id; vst_OrganizationID := vst_OrganizationID v; vst_Name := vst_Name v;
     vst_Description := vst_Description v; vst_SortOrder := vst_SortOrder v; vst_ApplicationIDs := [];
     vst_Variables := [] |}.

Definition insert_set (v : VariableSet) : vtx unit := λ s,
  let fail x := Err (mapVariableSetWriteError "scan created" x) in
  if negb (fits_int4 (vst_SortOrder v)) then fail OtherViolation else
  if contains (vst_ID <$> VariableSets s) (vst_ID v) || name_used (vst_ID v) (vst_OrganizationID v) (vst_Name v) s
  then fail UniqueViolation
  else Ok (tt, set_sets (VariableSets s ++ [v]) s).

Definition update_set (v : VariableSet) : vtx unit := λ s,
  let fail x := Err (mapVariableSetWriteError "scan updated" x) in
  if negb (fits_int4 (vst_SortOrder v)) then fail OtherViolation else
  if negb (exists_where (set_where (vst_ID v) (vst_OrganizationID v)) (VariableSets s)) then Err NotFound else
  if name_used (vst_ID v) (vst_OrganizationID v) (vst_Name v) s then fail UniqueViolation else
  Ok (tt, set_sets (update_where (set_where (vst_ID v) (vst_OrganizationID v)) (λ _, v) (VariableSets s)) s).

Context `{UuidParser, Jsonb}.

(** The checks of the references, which fill in the names of the secrets. *)
Definition ensure_references (v : VariableSet) : vtx (list types_Variable) :=
  ensureVariableSetApplications (vst_OrganizationID v) (vst_ApplicationIDs v) ≫= λ _,
  ensureVariableReferences (vst_OrganizationID v) (vst_Variables v) ≫= λ variables,
  ensureVariableScopedValueReferences (vst_OrganizationID v) variables.

Definition insert_children (env : venv) (id org : uuid) (applications : list uuid) (variables : list types_Variable)
    : vtx VariableSet :=
  insertVariableSetApplications id org applications ≫= λ _,
  insertVariables env id org variables ≫= λ _,
  squery (getVariableSet id org).

Definition CreateVariableSet (env : venv) (variableSet : VariableSet) (s : vdb) : result apierror VariableSet * vdb :=
  RunSTx (
    slift (normalizeVariableSet variableSet) ≫= λ v,
    ensure_references v ≫= λ variables,
    insert_set (set_row (new_set_id env) v) ≫= λ _,
    insert_children env (new_set_id env) (vst_OrganizationID v) (vst_ApplicationIDs v) variables) s.

Definition UpdateVariableSet (env : venv) (variableSet : VariableSet) (s : vdb) : result apierror VariableSet * vdb :=
  let id := vst_ID variableSet in
  let org := vst_OrganizationID variableSet in
  RunSTx (
    squery (getVariableSet id org) ≫= λ _,
    ensure_database_managed org id ≫= λ _,
    slift (normalizeVariableSet variableSet) ≫= λ v,
    ensure_references v ≫= λ variables,
    update_set (set_row id v) ≫= λ _,
    replaceVariableSetChildren id org ≫= λ _,
    insert_children env id org (vst_ApplicationIDs v) variables) s.

(** [DELETE] with its cascades; no table keeps a set. *)
Definition delete_set (id org : uuid) : vtx unit := λ s,
  if negb (exists_where (set_where id org) (VariableSets s)) then Err NotFound else
  let variables := select_where (λ w, negb (bool_decide (vw_SetID w = id))) (VariableRows s) in
  Ok (tt, set_children (select_where (λ a, negb (bool_decide (sa_SetID a = id))) (SetApplications s)) variables
        (select_where (λ w, contains (vw_ID <$> variables) (sw_VariableID w)) (ScopedValueRows s))
        (set_sets (select_where (λ v, negb (set_where id org v)) (VariableSets s)) s)).

Definition DeleteVariableSetWithID (id org : uuid) (s : vdb) : result apierror unit * vdb :=
  RunSTx (ensure_database_managed org id ≫= λ _, delete_authority org id ≫= λ _, delete_set id org) s.

(** ** The preview of a resolution *)

Definition trim_prompted (p : VariablePromptedValue) : VariablePromptedValue :=
  {| pv_Key := TrimSpace (pv_Key p); pv_Value := pv_Value p; pv_ReferenceID := TrimSpace (pv_ReferenceID p);
     pv_ReferenceName := TrimSpace (pv_ReferenceName p) |}.
Definition with_prompted_name (name : string) (p : VariablePromptedValue) : VariablePromptedValue :=
  {| pv_Key := pv_Key p; pv_Value := pv_Value p; pv_ReferenceID := pv_ReferenceID p; pv_ReferenceName := name |}.

Definition bad_request : apierror := BadRequest "bad request".

(** [variablesByKey]: of two variables with one key the last one counts. *)
Definition variable_by_key (variables : list types_Variable) (key : string) : option types_Variable :=
  last (select_where (λ v, bool_decide (v_Key v = key)) variables).

Definition prepare_prompted_value (org : uuid) (variables : list types_Variable) (p : VariablePromptedValue)
    : vtx VariablePromptedValue :=
  let p := trim_prompted p in
  match variable_by_key variables (pv_Key p) with
  | None => sthrow bad_request
  | Some v =>
      if isReferenceVariableType (v_Type v) then
        if hasVariableJSONValue (pv_Value p) || bool_decide (pv_ReferenceID p = "") then sthrow bad_request else
        if bool_decide (v_Type v = VariableTypeSecretReference)
        then ensureVariableSecretReference org (pv_ReferenceID p) ≫= λ key, mret (with_prompted_name key p)
        else if bool_decide (pv_ReferenceName p = "") then sthrow bad_request else mret p
      else if negb (bool_decide (pv_ReferenceID p = "")) || negb (bool_decide (pv_ReferenceName p = ""))
              || negb (hasVariableJSONValue (pv_Value p)) then sthrow bad_request
      else match validateValueForVariableType (v_Type v) (pv_Value p) with
           | Ok _ => mret p
           | Err _ => sthrow bad_request
           end
  end.

Definition preparePromptedValues (org : uuid) (variables : list types_Variable) (l : list VariablePromptedValue)
    : vtx (list VariablePromptedValue) := smap (prepare_prompted_value org variables) l.

(** The loop over the sets with the set of their identifiers. *)
Fixpoint collect_variables (org : uuid) (seen ids : list uuid) : vtx (list types_Variable) :=
  match ids with
  | [] => mret []
  | id :: ids =>
      if is_nil id || contains seen id then sthrow bad_request else
      squery (GetVariableSet id org) ≫= λ v,
      collect_variables org (id :: seen) ids ≫= λ l, mret (vst_Variables v ++ l)
  end.

Definition ResolveVariablesPreview (org : uuid) (ids : list uuid) (scope : VariableResolutionScope)
    (prompted : list VariablePromptedValue) : vtx (list ResolvedVariable) :=
  scheck (bool_decide (length ids = 0)) bad_request ≫= λ _,
  collect_variables org [] ids ≫= λ variables,
  preparePromptedValues org variables prompted ≫= λ prompted,
  slift match Resolve {| rq_Variables := variables; rq_Scope := scope; rq_PromptedValues := prompted |} with
        | Ok l => Ok l
        | Err message => Err (Internal message)
        end.
End reading.
