(* ===== verification/VariableTables.v ===== *)
(** * Variable sets: the invariants of the tables and what is read back

    A normalized set passes the checks of the database, every stored variable
    is normalized, and an operation stores the set that is read afterwards. *)
From S2P Require Import Prelude GoStrings Uuid GoRegexp GoJson GoFloat StepRedaction JsonDecode JsonStruct TaskStore Transaction VariableResolution DeploymentProcess ProcessTables VariableSets.
Open Scope list_scope.

(** ** Normalized variables *)

(** A JSON text of a value of the type. *)
Definition typed_value (t : VariableType) (text : string) : Prop :=
  hasVariableJSONValue (Some text) = true
  /\ exists value, json_parse text = Some value /\ value <> JNull
     /\ match t, value with
        | VariableTypeString, JString _ | VariableTypeNumber, JNumber _ | VariableTypeBoolean, JBool _ => True
        | VariableTypeString, _ | VariableTypeNumber, _ | VariableTypeBoolean, _ => False
        | _, _ => True
        end.

Section tables.
Context `{UuidParser}.

Definition usable_id (text : string) : Prop := exists id, uuid_Parse text = Some id /\ id <> Nil.

Record scoped_ok (t : VariableType) (sv : VariableScopedValue) : Prop := {
  so_scope : trim_scope (sv_Scope sv) = sv_Scope sv /\ Supported (sv_Scope sv) = true;
  so_order : (0 <= sv_SortOrder sv)%Z;
  so_reference : isReferenceVariableType t = true ->
    sv_Value sv = None /\ usable_id (sv_ReferenceID sv) /\ sv_ReferenceID sv <> "";
  so_value : isReferenceVariableType t = false ->
    sv_ReferenceID sv = "" /\ exists text, sv_Value sv = Some text /\ typed_value t text;
}.

Record variable_ok (v : types_Variable) : Prop := {
  vo_key : v_Key v <> "" /\ TrimSpace (v_Key v) = v_Key v;
  vo_type : isKnownVariableType (v_Type v) = true;
  vo_reference : isReferenceVariableType (v_Type v) = true ->
    v_DefaultValue v = None
    /\ (v_ReferenceID v = "" -> v_IsRequired v = true) /\ (v_ReferenceID v <> "" -> usable_id (v_ReferenceID v));
  vo_value : isReferenceVariableType (v_Type v) = false ->
    v_ReferenceID v = "" /\ (v_DefaultValue v = None -> v_IsRequired v = true)
    /\ (forall text, v_DefaultValue v = Some text -> typed_value (v_Type v) text);
  vo_scoped : Forall (scoped_ok (v_Type v)) (v_ScopedValues v);
  vo_scopes : NoDup ((λ sv, Key (sv_Scope sv)) <$> v_ScopedValues v);
}.

(** What the resolution expects of a variable. *)
Lemma variable_ok_normalized v : variable_ok v -> normalized v.
Proof.
  intros Hv. split; [|apply Hv]. intros sv Hsv. by apply (proj1 (Forall_forall _ _) (vo_scoped v Hv) sv Hsv).
Qed.

Lemma value_of_type_typed t text value :
  hasVariableJSONValue (Some text) = true -> json_parse text = Some value -> value_of_type t value = true ->
  isReferenceVariableType t = false -> isKnownVariableType t = true -> typed_value t text.
Proof. intros Hh Hp Hv Hr Hk. split; [done|]. exists value. split; [done|]. destruct t, value; try done. Qed.

Lemma not_unusable text : unusable_id text = false -> usable_id text.
Proof.
  unfold unusable_id. destruct (uuid_Parse text) as [id|] eqn:E; [|done].
  intros Hnil%bool_decide_eq_false. by exists id.
Qed.

Lemma trim_scope_idem s : trim_scope (trim_scope s) = trim_scope s.
Proof. unfold trim_scope. simpl. by rewrite !TrimSpace_idem. Qed.

Lemma has_value_some value : hasVariableJSONValue value = true -> exists text, value = Some text.
Proof. destruct value as [text|]; [by exists text|done]. Qed.

Lemma normalizeScopedValue_ok t sv sv' :
  isKnownVariableType t = true -> normalizeScopedValue t sv = Ok sv' -> scoped_ok t sv'.
Proof.
  intros Hk. unfold normalizeScopedValue. rewrite !fail_if_bind. intros E. apply if_err_ok in E as [Hs E].
  apply orb_false_iff in Hs as [Ho%Z.ltb_ge Hs%negb_false_iff].
  destruct (isReferenceVariableType t) eqn:Hr.
  - rewrite ?fail_if_bind in E. apply if_err_ok in E as [_ E]. apply if_err_ok in E as [He E].
    apply if_err_ok in E as [Hu E]. apply if_err_ok in E as [_ E]. injection E as <-.
    split; simpl; [by rewrite trim_scope_idem|done| |by rewrite Hr]. intros _. split_and!; [done|by apply not_unusable|].
    by apply bool_decide_eq_false in He.
  - rewrite ?fail_if_bind in E. apply if_err_ok in E as [He E]. apply if_err_ok in E as [Hh%negb_false_iff E].
    apply result_bind_ok in E as ([] & Hv & [= <-]). split; simpl; [by rewrite trim_scope_idem|done|by rewrite Hr|].
    intros _. apply orb_false_iff in He as [He%negb_false_iff%bool_decide_eq_true _]. split; [done|].
    destruct (has_value_some _ Hh) as [text Et]. exists text. split; [done|]. rewrite Et in Hh, Hv.
    unfold validateValueForVariableType, decodeVariableJSONValue in Hv. simpl in Hv.
    destruct (json_parse text) as [value|] eqn:Ep; [|done]. apply fail_if_ok, negb_false_iff in Hv.
    by eapply value_of_type_typed.
Qed.

Lemma normalizeScopedValues_ok t l : forall scopes l', isKnownVariableType t = true ->
  normalizeScopedValues scopes t l = Ok l' ->
  Forall (scoped_ok t) l' /\ NoDup ((λ sv, Key (sv_Scope sv)) <$> l')
  /\ (forall sv, sv ∈ l' -> Key (sv_Scope sv) ∉ scopes).
Proof.
  induction l as [|sv l IH]; intros scopes l' Hk; simpl.
  { intros [= <-]. split_and!; [constructor|constructor|]. intros sv Hsv. by apply elem_of_nil in Hsv. }
  intros E. apply result_bind_ok in E as (sv' & Hsv & E). rewrite ?fail_if_bind in E. apply if_err_ok in E as [Hc E].
  apply contains_false in Hc. apply result_bind_ok in E as (l1 & Hl & [= <-]).
  apply IH in Hl as (Hok & Hn & Hs); [|done]. split_and!.
  - constructor; [by eapply normalizeScopedValue_ok|done].
  - rewrite fmap_cons. apply NoDup_cons. split; [|done]. intros (x & Ex & Hx)%list_elem_of_fmap.
    apply (Hs x Hx). rewrite <- Ex. by left.
  - intros x [->|Hx]%elem_of_cons; [done|]. intros Hin. apply (Hs x Hx). by right.
Qed.

Lemma normalizeVariable_ok v v' : normalizeVariable v = Ok v' -> variable_ok v'.
Proof.
  unfold normalizeVariable. rewrite fail_if_bind. intros E. apply if_err_ok in E as [Hk E].
  apply orb_false_iff in Hk as [Hk%bool_decide_eq_false Ht%negb_false_iff].
  apply result_bind_ok in E as (u & Hu & E). apply result_bind_ok in E as (l & Hl & [= <-]).
  assert (v_Key u = TrimSpace (v_Key v) /\ v_Type u = v_Type v /\ v_IsRequired u = v_IsRequired v
    /\ (isReferenceVariableType (v_Type v) = true -> v_DefaultValue u = None
         /\ (v_ReferenceID u = "" -> v_IsRequired u = true) /\ (v_ReferenceID u <> "" -> usable_id (v_ReferenceID u)))
    /\ (isReferenceVariableType (v_Type v) = false -> v_ReferenceID u = "" /\ (v_DefaultValue u = None -> v_IsRequired u = true)
         /\ (forall text, v_DefaultValue u = Some text -> typed_value (v_Type v) text))) as (Ek & Et & Er & Hr & Hv).
  { simpl in Hu. destruct (isReferenceVariableType (v_Type v)) eqn:Hr.
    - unfold normalizeReferenceVariable in Hu. simpl in Hu. case_bool_decide as He.
      + destruct (v_IsRequired v) eqn:Erq; [|done]. injection Hu as <-. simpl. by rewrite He.
      + rewrite ?fail_if_bind in Hu. apply if_err_ok in Hu as [Hun Hu]. apply if_err_ok in Hu as [_ [= <-]]. simpl.
        split_and!; try done. intros _. split_and!; [done|done|]. intros _. by apply not_unusable.
    - unfold normalizeValueVariable in Hu. simpl in Hu. rewrite ?fail_if_bind in Hu. apply if_err_ok in Hu as [He Hu].
      apply orb_false_iff in He as [He%negb_false_iff%bool_decide_eq_true _].
      destruct (hasVariableJSONValue (v_DefaultValue v)) eqn:Hh; simpl in Hu.
      + destruct (decodeVariableJSONValue _) as [value|] eqn:Ed in Hu; [|done]. rewrite ?fail_if_bind in Hu.
        apply if_err_ok in Hu as [Hty%negb_false_iff [= <-]]. simpl. split_and!; try done. intros _.
        destruct (has_value_some _ Hh) as [text Etx]. rewrite Etx in *. split_and!; [done|done|].
        intros text' [= <-]. eapply value_of_type_typed; done.
      + destruct (v_IsRequired v) eqn:Erq; [|done]. injection Hu as <-. simpl. by split_and!. }
  assert (isKnownVariableType (v_Type u) = true) as Hku by (by rewrite Et).
  apply normalizeScopedValues_ok in Hl as (Hok & Hn & _); [|done].
  split; simpl; rewrite ?Ek, ?Et; try done.
  - split; [done|apply TrimSpace_idem].
  - by rewrite <- Et.
Qed.

Lemma normalize_variables_ok l : forall keys l', normalize_variables keys l = Ok l' ->
  Forall variable_ok l' /\ NoDup (v_Key <$> l') /\ (forall v, v ∈ l' -> v_Key v ∉ keys).
Proof.
  induction l as [|v l IH]; intros keys l'; simpl.
  { intros [= <-]. split_and!; [constructor|constructor|]. intros v Hv. by apply elem_of_nil in Hv. }
  intros E. apply result_bind_ok in E as (v' & Hv & E). rewrite ?fail_if_bind in E. apply if_err_ok in E as [Hc E].
  apply contains_false in Hc. apply result_bind_ok in E as (l1 & Hl & [= <-]). apply IH in Hl as (Hok & Hn & Hs).
  split_and!.
  - constructor; [by eapply normalizeVariable_ok|done].
  - rewrite fmap_cons. apply NoDup_cons. split; [|done]. intros (x & Ex & Hx)%list_elem_of_fmap.
    apply (Hs x Hx). rewrite <- Ex. by left.
  - intros x [->|Hx]%elem_of_cons; [done|]. intros Hin. apply (Hs x Hx). by right.
Qed.

Lemma check_application_ids_ok l : forall seen, check_application_ids seen l = Ok tt ->
  NoDup l /\ (forall x, x ∈ l -> x ∉ seen).
Proof.
  induction l as [|x l IH]; intros seen; simpl; [split; [constructor|intros y Hy; by apply elem_of_nil in Hy]|].
  destruct (is_nil x || contains seen x) eqn:E; [done|]. apply orb_false_iff in E as [_ Hx%contains_false].
  intros [Hn Hs]%IH. split.
  - apply NoDup_cons. split; [|done]. intros Hin. apply (Hs x Hin). by left.
  - intros y [->|Hy]%elem_of_cons; [done|]. intros Hin. apply (Hs y Hy). by right.
Qed.

Lemma normalizeVariableSet_ok v v' : normalizeVariableSet v = Ok v' ->
  Forall variable_ok (vst_Variables v') /\ NoDup (v_Key <$> vst_Variables v') /\ NoDup (vst_ApplicationIDs v')
  /\ vst_Name v' <> "" /\ vst_ID v' = vst_ID v /\ vst_OrganizationID v' = vst_OrganizationID v.
Proof.
  unfold normalizeVariableSet. rewrite !fail_if_bind. intros E. apply if_err_ok in E as [Hn E].
  apply if_err_ok in E as [_ E]. apply result_bind_ok in E as ([] & Ha & E).
  apply result_bind_ok in E as (l & Hl & [= <-]). simpl. apply normalize_variables_ok in Hl as (? & ? & _).
  apply check_application_ids_ok in Ha as [? _]. apply bool_decide_eq_false in Hn. by split_and!.
Qed.

(** ** The checks of the database *)

(** The shapes that the table allows are those that the resolution supports. *)
Lemma shape_check_supported s : trim_scope s = s -> scope_shape_check s = Supported s.
Proof.
  intros Ht. assert (TrimSpace (vs_TargetTag s) = vs_TargetTag s /\ TrimSpace (vs_ProcessStepKey s) = vs_ProcessStepKey s)
    as [Et Es] by (rewrite <- Ht; simpl; by rewrite !TrimSpace_idem).
  unfold scope_shape_check, Supported, Source, Mask, trimmed_empty. rewrite Et, Es.
  destruct (vs_CustomerOrganizationID s), (vs_EnvironmentID s), (vs_DeploymentTargetID s), (vs_ChannelID s),
    (vs_ApplicationID s), (bool_decide (vs_ProcessStepKey s = "")), (bool_decide (vs_TargetTag s = ""));
    vm_compute; done.
Qed.

(** Equal keys are equal columns, so the unique constraint of the scopes never fails either. *)
Lemma key_columns a b : trim_scope a = a -> trim_scope b = b -> Supported a = true -> Supported b = true ->
  Key a = Key b <-> scope_columns a = scope_columns b.
Proof.
  intros Ha Hb Hsa Hsb. split.
  - intros E. apply Key_inj in E; [|done..]. rewrite Ha, Hb in E. by subst.
  - unfold scope_columns, Key. intros [= -> -> -> -> -> -> ->]. done.
Qed.

Context `{Jsonb, !JsonbLaws}.

Lemma jsonb_typed t text text' : typed_value t text -> jsonb_text text = Some text' -> typed_value t text'.
Proof.
  intros (Hh & value & Ep & Hnn & Hty) E. destruct (jsonb_type _ _ E) as (v & w & Ev & Ew & Ek).
  pose proof (jsonb_trimmed _ _ E) as Htr. assert (v = value) as -> by congruence.
  assert (w <> JNull) as Hw by (intros ->; by destruct value).
  split.
  - unfold hasVariableJSONValue. simpl. rewrite Htr. apply andb_true_iff. split.
    + destruct text'; [by vm_compute in Ew|]. apply Z.ltb_lt. unfold len. simpl. lia.
    + apply negb_true_iff, bool_decide_eq_false. intros ->. vm_compute in Ew. congruence.
  - exists w. split_and!; [done..|]. destruct t, value, w; done.
Qed.

Record row_ok (w : VariableRow) : Prop := {
  ro_key : vw_Key w <> "" /\ TrimSpace (vw_Key w) = vw_Key w;
  ro_type : isKnownVariableType (vw_Type w) = true;
  ro_reference : isReferenceVariableType (vw_Type w) = true ->
    vw_DefaultValue w = None
    /\ match vw_SecretReferenceID w, vw_ReferenceID w with
       | None, None => vw_IsRequired w = true
       | Some id, None => vw_Type w = VariableTypeSecretReference /\ id <> Nil
       | None, Some text => vw_Type w <> VariableTypeSecretReference /\ usable_id text /\ text <> ""
       | Some _, Some _ => False
       end;
  ro_value : isReferenceVariableType (vw_Type w) = false ->
    vw_SecretReferenceID w = None /\ vw_ReferenceID w = None
    /\ match vw_DefaultValue w with None => vw_IsRequired w = true | Some text => typed_value (vw_Type w) text end;
}.

Record scoped_row_ok (t : VariableType) (w : ScopedValueRow) : Prop := {
  sr_scope : trim_scope (sw_Scope w) = sw_Scope w /\ Supported (sw_Scope w) = true;
  sr_order : (0 <= sw_SortOrder w)%Z;
  sr_reference : isReferenceVariableType t = true ->
    sw_Value w = None
    /\ match sw_SecretReferenceID w, sw_ReferenceID w with
       | Some id, None => t = VariableTypeSecretReference /\ id <> Nil
       | None, Some text => t <> VariableTypeSecretReference /\ usable_id text /\ text <> ""
       | _, _ => False
       end;
  sr_value : isReferenceVariableType t = false ->
    sw_SecretReferenceID w = None /\ sw_ReferenceID w = None /\ exists text, sw_Value w = Some text /\ typed_value t text;
}.

Lemma jsonb_column_typed t text d : typed_value t text -> jsonb_column (Some text) = Some d ->
  exists text', d = Some text' /\ jsonb_text text = Some text' /\ typed_value t text'.
Proof.
  intros Ht. unfold jsonb_column, variableDefaultValue. rewrite (proj1 Ht). simpl.
  destruct (jsonb_text text) as [text'|] eqn:E; [|done]. intros [= <-]. exists text'. split_and!; [done..|]. by eapply jsonb_typed.
Qed.

Lemma variable_row_ok id set org v w : variable_ok v -> variable_row id set org v = Some w ->
  row_ok w /\ vw_ID w = id /\ vw_SetID w = set /\ vw_OrganizationID w = org /\ vw_Key w = v_Key v /\ vw_Type w = v_Type v
  /\ vw_IsRequired w = v_IsRequired v /\ vw_ReferenceName w = v_ReferenceName v
  /\ vw_DefaultValue w = v_DefaultValue v ≫= jsonb_text.
Proof.
  intros Hv E. unfold variable_row in E. destruct (variableReferenceColumns v) as [[secret reference]|] eqn:Er; [|done].
  simpl in E. destruct (jsonb_column (v_DefaultValue v)) as [d|] eqn:Ed; [|done]. simpl in E. injection E as <-. simpl.
  assert (d = v_DefaultValue v ≫= jsonb_text /\ match d with
    | None => v_DefaultValue v = None
    | Some text => isReferenceVariableType (v_Type v) = false /\ typed_value (v_Type v) text end) as [Ed' Hd].
  { destruct (v_DefaultValue v) as [text|] eqn:Ev; [|by injection Ed as <-].
    destruct (isReferenceVariableType (v_Type v)) eqn:Hr; [by rewrite (proj1 (vo_reference v Hv Hr)) in Ev|].
    destruct (vo_value v Hv Hr) as (_ & _ & Hty). destruct (jsonb_column_typed _ _ _ (Hty text Ev) Ed) as (text' & -> & Et & ?).
    simpl. by rewrite Et. }
  split; [|by split_and!]. split; simpl; [apply Hv|apply Hv| |].
  - intros Hr. destruct (vo_reference v Hv Hr) as (Edv & Hreq & Hid). split; [destruct d; [by destruct Hd; congruence|done]|].
    unfold variableReferenceColumns in Er. case_bool_decide as Ee; [injection Er as <- <-; by apply Hreq|].
    destruct (Hid Ee) as (id' & Ep & Hnil). case_bool_decide as Et.
    + rewrite Ep in Er. by injection Er as <- <-.
    + injection Er as <- <-. split_and!; [done|by exists id'|done].
  - intros Hr. destruct (vo_value v Hv Hr) as (Ee & Hreq & _). unfold variableReferenceColumns in Er.
    rewrite bool_decide_eq_true_2 in Er by done. injection Er as <- <-. split_and!; [done..|].
    destruct d; [apply Hd|by apply Hreq].
Qed.

Lemma scoped_row_ok_insert id variable set org t sv w : scoped_ok t sv -> scoped_row id variable set org t sv = Some w ->
  scoped_row_ok t w /\ sw_ID w = id /\ sw_VariableID w = variable /\ sw_SetID w = set /\ sw_OrganizationID w = org
  /\ sw_Scope w = sv_Scope sv /\ sw_SortOrder w = sv_SortOrder sv /\ sw_ReferenceName w = sv_ReferenceName sv
  /\ sw_Value w = sv_Value sv ≫= jsonb_text.
Proof.
  intros Hs E. unfold scoped_row in E. destruct (scopedValueReferenceColumns sv t) as [[secret reference]|] eqn:Er; [|done].
  simpl in E. destruct (jsonb_column (sv_Value sv)) as [d|] eqn:Ed; [|done]. simpl in E. injection E as <-. simpl.
  unfold scopedValueReferenceColumns in Er. destruct (isReferenceVariableType t) eqn:Hr.
  - destruct (so_reference t sv Hs Hr) as (Ev & (id' & Ep & Hnil) & Hne). rewrite Ev in Ed. injection Ed as <-.
    rewrite bool_decide_eq_false_2, Ev in Er by done. simpl in Er. rewrite Ev. split; [|done].
    split; simpl; [apply Hs|apply Hs| |by rewrite Hr]. intros _. split; [done|]. case_bool_decide as Et.
    + rewrite Ep in Er. by injection Er as <- <-.
    + injection Er as <- <-. split_and!; [done|by exists id'|done].
  - destruct (so_value t sv Hs Hr) as (Ee & text & Ev & Hty). rewrite bool_decide_eq_true_2 in Er by done. injection Er as <- <-.
    rewrite Ev in Ed. destruct (jsonb_column_typed _ _ _ Hty Ed) as (text' & -> & Et & ?). rewrite Ev. simpl. rewrite Et.
    split; [|done]. split; simpl; [apply Hs|apply Hs|by rewrite Hr|]. intros _. split_and!; [done..|]. by exists text'.
Qed.

(** The rows of a normalized set satisfy the check constraints. *)
Lemma row_ok_check w : row_ok w -> variable_value_type_check w = true.
Proof.
  intros [_ Ht Hr Hv]. unfold variable_value_type_check.
  destruct (vw_Type w) eqn:E; simpl in *; try done;
    try (destruct (Hr eq_refl) as [-> Hm]; destruct (vw_SecretReferenceID w), (vw_ReferenceID w); naive_solver);
    destruct (Hv eq_refl) as (-> & -> & Hd); simpl; destruct (vw_DefaultValue w) as [text|]; try done;
    destruct Hd as (_ & value & Ep & Hnn & Hty); simpl; rewrite Ep; destruct value; done.
Qed.

Lemma scoped_row_check t w : scoped_row_ok t w ->
  payload_check w = true /\ scope_shape_check (sw_Scope w) = true /\ (sw_SortOrder w <? 0)%Z = false.
Proof.
  intros [[Htr Hsup] Ho Hr Hv]. split_and!.
  - unfold payload_check. destruct (isReferenceVariableType t) eqn:E.
    + destruct (Hr eq_refl) as [-> Hm]. by destruct (sw_SecretReferenceID w), (sw_ReferenceID w).
    + destruct (Hv eq_refl) as (-> & -> & text & -> & _). done.
  - by rewrite shape_check_supported.
  - by apply Z.ltb_ge.
Qed.

(** ** The invariant of the tables *)

Definition scope_key (w : ScopedValueRow) := (sw_VariableID w, scope_columns (sw_Scope w)).

(** A child row and the row that it belongs to. *)
Definition in_set (s : vdb) (set org : uuid) : Prop :=
  exists v, v ∈ VariableSets s /\ vst_ID v = set /\ vst_OrganizationID v = org.
Definition of_variable (s : vdb) (w : ScopedValueRow) (v : VariableRow) : Prop :=
  v ∈ VariableRows s /\ vw_ID v = sw_VariableID w /\ vw_SetID v = sw_SetID w /\ vw_OrganizationID v = sw_OrganizationID w.

Record v_inv (s : vdb) : Prop := {
  vi_sets : NoDup (vst_ID <$> VariableSets s);
  vi_names : NoDup ((λ v, (vst_OrganizationID v, vst_Name v)) <$> VariableSets s);
  vi_variables : NoDup (vw_ID <$> VariableRows s);
  vi_keys : NoDup ((λ w, (vw_SetID w, vw_Key w)) <$> VariableRows s);
  vi_scoped : NoDup (sw_ID <$> ScopedValueRows s);
  vi_scopes : NoDup (scope_key <$> ScopedValueRows s);
  vi_links : NoDup ((λ a, (sa_SetID a, sa_ApplicationID a)) <$> SetApplications s);
  vi_link a : a ∈ SetApplications s -> in_set s (sa_SetID a) (sa_OrganizationID a);
  vi_row w : w ∈ VariableRows s -> row_ok w /\ in_set s (vw_SetID w) (vw_OrganizationID w);
  vi_scoped_row w : w ∈ ScopedValueRows s -> exists v, of_variable s w v /\ scoped_row_ok (vw_Type v) w;
  vi_secrets : NoDup (sec_ID <$> ref_Secrets (refs s));
}.

Lemma NoDup_app_one {A} (l : list A) x : NoDup l -> (x ∉ l) -> NoDup (l ++ [x]).
Proof.
  intros Hl Hx. apply NoDup_app. split_and!; [done| |apply NoDup_singleton]. by intros y Hy ->%list_elem_of_singleton.
Qed.

Lemma copy_variables_ok action (l : list (option VariableRow)) : forall s u s',
  insert_rows (λ r, copy_row action r insert_variable_row) l s = Ok (u, s') ->
  exists rows, l = Some <$> rows
    /\ s' = set_children (SetApplications s) (VariableRows s ++ rows) (ScopedValueRows s) s
    /\ (NoDup (vw_ID <$> VariableRows s) -> NoDup (vw_ID <$> (VariableRows s ++ rows)))
    /\ (NoDup ((λ w, (vw_SetID w, vw_Key w)) <$> VariableRows s) ->
        NoDup ((λ w, (vw_SetID w, vw_Key w)) <$> (VariableRows s ++ rows))).
Proof.
  induction l as [|[w|] l IH]; intros s u s' E; cbn [insert_rows] in E.
  - injection E as _ <-. exists []. rewrite app_nil_r. by destruct s.
  - apply stx_bind_ok in E as ([] & s1 & E1 & E). simpl in E1. unfold insert_variable_row in E1.
    destruct (negb _); [done|]. destruct (_ || _) eqn:Ec; [done|]. injection E1 as <-.
    apply orb_false_iff in Ec as [Hid%contains_false Hk]. rewrite exists_where_false in Hk.
    apply IH in E as (rows & -> & -> & Hn1 & Hn2). exists (w :: rows). simpl in *.
    rewrite <- !app_assoc in *. split_and!; [done..| |].
    + intros Hn. apply Hn1. rewrite fmap_app. by apply NoDup_app_one.
    + intros Hn. apply Hn2. rewrite fmap_app. apply NoDup_app_one; [done|].
      intros (x & Ex & Hx)%list_elem_of_fmap. specialize (Hk x Hx). injection Ex as E1 E2.
      rewrite !bool_decide_eq_true_2 in Hk by done. done.
  - apply stx_bind_ok in E as ([] & s1 & E1 & E). done.
Qed.

Lemma copy_scoped_ok action (l : list (option ScopedValueRow)) : forall s u s',
  insert_rows (λ r, copy_row action r insert_scoped_row) l s = Ok (u, s') ->
  exists rows, l = Some <$> rows
    /\ s' = set_children (SetApplications s) (VariableRows s) (ScopedValueRows s ++ rows) s
    /\ (NoDup (sw_ID <$> ScopedValueRows s) -> NoDup (sw_ID <$> (ScopedValueRows s ++ rows)))
    /\ (NoDup (scope_key <$> ScopedValueRows s) -> NoDup (scope_key <$> (ScopedValueRows s ++ rows))).
Proof.
  induction l as [|[w|] l IH]; intros s u s' E; cbn [insert_rows] in E.
  - injection E as _ <-. exists []. rewrite app_nil_r. by destruct s.
  - apply stx_bind_ok in E as ([] & s1 & E1 & E). simpl in E1. unfold insert_scoped_row in E1.
    destruct (negb (fits_int4 _)); [done|]. destruct (_ || negb (scope_shape_check _)); [done|].
    destruct (contains _ _ || _) eqn:Ec; [done|]. injection E1 as <-.
    apply orb_false_iff in Ec as [Hid%contains_false Hk]. rewrite exists_where_false in Hk.
    apply IH in E as (rows & -> & -> & Hn1 & Hn2). exists (w :: rows). simpl in *.
    rewrite <- !app_assoc in *. split_and!; [done..| |].
    + intros Hn. apply Hn1. rewrite fmap_app. by apply NoDup_app_one.
    + intros Hn. apply Hn2. rewrite fmap_app. apply NoDup_app_one; [done|].
      intros (x & Ex & Hx)%list_elem_of_fmap. specialize (Hk x Hx). unfold scope_key in Ex.
      rewrite !bool_decide_eq_true_2 in Hk by congruence. done.
  - apply stx_bind_ok in E as ([] & s1 & E1 & E). done.
Qed.

Lemma imap_some {A B} (f : nat -> A -> option B) l rows : imap f l = Some <$> rows ->
  Forall2 (λ x w, exists i, f i x = Some w) l rows.
Proof.
  revert f rows. induction l as [|x l IH]; intros f [|w rows] E; try done.
  rewrite imap_cons, fmap_cons in E. injection E as Ex E. constructor; [by exists 0|].
  apply (Forall2_impl (λ x w, exists i, (f ∘ S) i x = Some w)); [by apply IH|]. intros ? ? [i Hi]. by exists (S i).
Qed.

(** With the index of each row. *)
Lemma imap_some_index {A B} (f : nat -> A -> option B) l rows i x : imap f l = Some <$> rows -> l !! i = Some x ->
  exists w, rows !! i = Some w /\ f i x = Some w.
Proof.
  intros E Hi. assert ((imap f l) !! i = Some (f i x)) as Hw by (by rewrite list_lookup_imap, Hi).
  rewrite E, list_lookup_fmap in Hw. destruct (rows !! i) as [w|]; [|done]. injection Hw as Hw. by exists w.
Qed.

(** What [insertVariables] does to the tables. *)
Record inserted_rows (env : venv) (set org : uuid) (variables : list types_Variable) (s : vdb)
    (rows : list VariableRow) (srows : list ScopedValueRow) : Prop := {
  ir_rows : imap (λ i v, variable_row (new_variable_id env i) set org v) variables = Some <$> rows;
  ir_scoped : imap (λ i x, scoped_row (new_scoped_id env i) (fst (fst x)) set org (snd (fst x)) (snd x))
    (scoped_values env variables) = Some <$> srows;
  ir_ids : NoDup (vw_ID <$> (VariableRows s ++ rows));
  ir_keys : NoDup ((λ w, (vw_SetID w, vw_Key w)) <$> (VariableRows s ++ rows));
  ir_scoped_ids : NoDup (sw_ID <$> (ScopedValueRows s ++ srows));
  ir_scopes : NoDup (scope_key <$> (ScopedValueRows s ++ srows));
}.

Lemma insertVariables_ok env set org variables s u s' :
  NoDup (vw_ID <$> VariableRows s) -> NoDup ((λ w, (vw_SetID w, vw_Key w)) <$> VariableRows s) ->
  NoDup (sw_ID <$> ScopedValueRows s) -> NoDup (scope_key <$> ScopedValueRows s) ->
  insertVariables env set org variables s = Ok (u, s') ->
  exists rows srows, inserted_rows env set org variables s rows srows
    /\ s' = set_children (SetApplications s) (VariableRows s ++ rows) (ScopedValueRows s ++ srows) s.
Proof.
  intros H1' H2' H3' H4' E. unfold insertVariables in E. apply stx_bind_ok in E as ([] & s1 & E1 & E).
  apply copy_variables_ok in E1 as (rows & Er & -> & Hn1 & Hn2). unfold insertScopedValues in E.
  apply copy_scoped_ok in E as (srows & Es & -> & Hn3 & Hn4). exists rows, srows. split; [|done].
  split; [done|done|by apply Hn1|by apply Hn2|by apply Hn3|by apply Hn4].
Qed.

Lemma scoped_values_elem env l id t sv : (id, t, sv) ∈ scoped_values env l ->
  exists i v, l !! i = Some v /\ id = new_variable_id env i /\ t = v_Type v /\ sv ∈ v_ScopedValues v.
Proof.
  unfold scoped_values. intros ([id' v] & Hin & (i & x & E & Hi)%elem_of_lookup_imap)%list_elem_of_bind.
  apply list_elem_of_fmap in Hin as (sv' & E' & Hsv). simpl in *. injection E as -> ->. injection E' as -> -> ->.
  by exists i, x.
Qed.

(** The invariant after the insertion of the children of a set that has none. *)
Lemma inv_insert_children env set org applications variables s rows srows :
  v_inv s -> in_set s set org -> NoDup applications -> Forall variable_ok variables ->
  (forall a, a ∈ SetApplications s -> sa_SetID a <> set) -> inserted_rows env set org variables s rows srows ->
  v_inv (set_children (SetApplications s ++ imap (λ i id, {| sa_SetID := set; sa_OrganizationID := org;
      sa_ApplicationID := id; sa_SortOrder := Z.of_nat i |}) applications)
    (VariableRows s ++ rows) (ScopedValueRows s ++ srows) s).
Proof.
  intros Hs Hset Happ Hvar Hno Hi. split; simpl; try apply Hs; try apply Hi.
  - rewrite fmap_app. apply NoDup_app. split_and!; [apply Hs| |].
    + intros k (a & -> & Ha)%list_elem_of_fmap (b & E & (i & x & -> & _)%elem_of_lookup_imap)%list_elem_of_fmap.
      injection E as E _. by apply (Hno a Ha).
    + rewrite <- (NoDup_fmap (λ a, (set, a))) in Happ by (intros ? ? [=]; done).
      replace (_ <$> imap _ _) with ((λ a, (set, a)) <$> applications); [done|].
      rewrite fmap_imap. symmetry. apply (imap_const (λ a, (set, a))).
  - intros a [Ha|(i & x & -> & _)%elem_of_lookup_imap]%elem_of_app; [by apply Hs|done].
  - intros w [Hw|Hw]%elem_of_app; [by apply Hs|]. pose proof (imap_some _ _ _ (ir_rows _ _ _ _ _ _ _ Hi)) as Hf.
    apply list_elem_of_lookup in Hw as [i Hw]. destruct (Forall2_lookup_r _ _ _ _ _ Hf Hw) as (v & Hv & j & E).
    apply variable_row_ok in E as (? & _ & -> & -> & _); [done|]. eapply Forall_lookup_1; done.
  - intros w [Hw|Hw]%elem_of_app.
    + destruct (vi_scoped_row s Hs w Hw) as (v & (Hv & ?) & ?). exists v. split; [|done]. split; [apply elem_of_app; by left|done].
    + pose proof (imap_some _ _ _ (ir_scoped _ _ _ _ _ _ _ Hi)) as Hf.
      apply list_elem_of_lookup in Hw as [i Hw]. destruct (Forall2_lookup_r _ _ _ _ _ Hf Hw) as ([[id t] sv] & Hx & j & E).
      apply list_elem_of_lookup_2, scoped_values_elem in Hx as (k & v & Hv & -> & -> & Hsv). simpl in E.
      pose proof (Forall_lookup_1 _ _ _ _ Hvar Hv) as Hok.
      apply scoped_row_ok_insert in E as (Hrow & _ & Evar & Eset & Eorg & _); [|by apply (proj1 (Forall_forall _ _) (vo_scoped v Hok))].
      destruct (imap_some_index _ _ _ _ _ (ir_rows _ _ _ _ _ _ _ Hi) Hv) as (r & Hr & Er).
      apply variable_row_ok in Er as (_ & Eid & Es & Eo & _ & Et & _); [|done]. exists r. split.
      * split; [apply elem_of_app; right; by eapply list_elem_of_lookup_2|]. split_and!; congruence.
      * by rewrite Et.
Qed.

(** ** The operations keep the invariant *)

Lemma smap_ok {S A B} (R : S -> A -> B -> Prop) (f : A -> stx S B) l :
  (forall a b s s', a ∈ l -> f a s = Ok (b, s') -> s' = s /\ R s a b) ->
  forall k s s', smap f l s = Ok (k, s') -> s' = s /\ Forall2 (R s) l k.
Proof.
  induction l as [|a l IH]; intros Hf k s s' E; cbn [smap] in E; [injection E as <- <-; by split|].
  apply stx_bind_ok in E as (b & s1 & [-> Hb]%Hf & E); [|by left].
  apply stx_bind_ok in E as (l' & s1 & [-> Hl]%IH & E); [|intros x y s2 s3 Hx; apply Hf; by right].
  injection E as <- <-. split; [done|by constructor].
Qed.

Lemma scoped_reference_ok table org id s u s' : ensureScopedReference table org id s = Ok (u, s') -> s' = s.
Proof. destruct id; simpl; [by intros [_ ->]%sforbid_ok|by intros [= _ <-]]. Qed.

Lemma scope_references_ok org scope s u s' : ensureVariableScopeReferences org scope s = Ok (u, s') -> s' = s.
Proof.
  unfold ensureVariableScopeReferences. intros E.
  do 4 (apply stx_bind_ok in E as ([] & ? & ->%scoped_reference_ok & E)). by apply scoped_reference_ok in E.
Qed.

(** The secret that a reference names. *)
Definition names_secret (s : vdb) (text : string) (x : Secret) : Prop :=
  uuid_Parse text = Some (sec_ID x) /\ x ∈ ref_Secrets (refs s).

Lemma secret_reference_ok org text s key s' :
  ensureVariableSecretReference org text s = Ok (key, s') -> s' = s /\ exists x, names_secret s text x /\ key = sec_Key x.
Proof.
  unfold ensureVariableSecretReference, names_secret. destruct (uuid_Parse text) as [id|]; [|done]. destruct (is_nil id); [done|].
  intros [E ->]%squery_ok. split; [done|]. destruct (select_where _ _) as [|x l] eqn:El in E; [done|]. injection E as <-.
  assert (x ∈ x :: l) as Hx by left. rewrite <- El in Hx. apply elem_of_select_where in Hx as [Hx Hw]. to_prop. subst id.
  by exists x.
Qed.

Definition scoped_named (s : vdb) (t : VariableType) (sv sv' : VariableScopedValue) : Prop :=
  if bool_decide (t = VariableTypeSecretReference)
  then exists x, names_secret s (sv_ReferenceID sv) x /\ sv' = with_scoped_name (sec_Key x) sv
  else sv' = sv.

(** The names of the secrets are filled in. *)
Definition named (s : vdb) (v v' : types_Variable) : Prop :=
  exists l, Forall2 (scoped_named s (v_Type v)) (v_ScopedValues v) l
    /\ if negb (bool_decide (v_Type v = VariableTypeSecretReference)) || bool_decide (v_ReferenceID v = "")
       then v' = with_scoped_values l v
       else exists x, names_secret s (v_ReferenceID v) x /\ v' = with_scoped_values l (with_reference_name (sec_Key x) v).

Lemma named_same s v v' : named s v v' ->
  v_Key v' = v_Key v /\ v_Type v' = v_Type v /\ v_IsRequired v' = v_IsRequired v /\ v_DefaultValue v' = v_DefaultValue v
  /\ v_ReferenceID v' = v_ReferenceID v /\ Forall2 (scoped_named s (v_Type v)) (v_ScopedValues v) (v_ScopedValues v').
Proof. intros (l & Hl & Hv). destruct (_ || _); [subst; done|]. by destruct Hv as (x & _ & ->). Qed.

Lemma scoped_named_ok s t sv sv' : scoped_ok t sv -> scoped_named s t sv sv' -> scoped_ok t sv' /\ sv_Scope sv' = sv_Scope sv.
Proof.
  unfold scoped_named. intros Hs. case_bool_decide; [|by intros ->]. intros (x & _ & ->). split; [|done].
  destruct Hs. by split.
Qed.

Lemma named_ok s v v' : variable_ok v -> named s v v' -> variable_ok v'.
Proof.
  intros Hv (Ek & Et & Er & Ed & Ei & Hl)%named_same. destruct Hv as [Hk Ht Hr Hd Hs Hn].
  split; rewrite ?Ek, ?Et, ?Er, ?Ed, ?Ei; try done.
  - clear -Hs Hl. induction Hl as [|sv sv' l l' Hsv _ IH]; [constructor|]. apply Forall_cons in Hs as [Hsv' Hs].
    constructor; [by eapply scoped_named_ok|by apply IH].
  - replace ((λ sv, Key (sv_Scope sv)) <$> v_ScopedValues v') with ((λ sv, Key (sv_Scope sv)) <$> v_ScopedValues v); [done|].
    clear -Hl Hs. induction Hl as [|sv sv' l l' Hsv _ IH]; [done|]. apply Forall_cons in Hs as [Hsv' Hs].
    rewrite !fmap_cons, (IH Hs). f_equal. by rewrite (proj2 (scoped_named_ok _ _ _ _ Hsv' Hsv)).
Qed.

Lemma ensure_references_ok v s variables s' :
  ensure_references v s = Ok (variables, s') -> s' = s /\ Forall2 (named s) (vst_Variables v) variables.
Proof.
  unfold ensure_references, ensureVariableSetApplications. intros E. apply stx_bind_ok in E as ([] & s1 & [_ ->]%sforbid_ok & E).
  apply stx_bind_ok in E as (l & s1 & E1 & E).
  apply (smap_ok (λ s v v', if negb (bool_decide (v_Type v = VariableTypeSecretReference)) || bool_decide (v_ReferenceID v = "")
    then v' = v else exists x, names_secret s (v_ReferenceID v) x /\ v' = with_reference_name (sec_Key x) v)) in E1 as [-> Hl].
  2: { intros a b t t' _. destruct (_ || _); [by intros [= <- <-]|]. intros E2.
       apply stx_bind_ok in E2 as (key & t1 & [-> (x & Hx & ->)]%secret_reference_ok & [= <- <-]). split; [done|by exists x]. }
  apply (smap_ok (λ s v v', exists l, Forall2 (scoped_named s (v_Type v)) (v_ScopedValues v) l /\ v' = with_scoped_values l v))
    in E as [-> Hl'].
  2: { intros a b t t' _ E3. apply stx_bind_ok in E3 as (k & t1 & E2 & [= <- <-]).
       apply (smap_ok (λ s, scoped_named s (v_Type a))) in E2 as [-> Hk]; [split; [done|by exists k]|].
       intros sv sv' t2 t3 _ E4. unfold ensure_scoped_value in E4. apply stx_bind_ok in E4 as ([] & t4 & ->%scope_references_ok & E4).
       unfold scoped_named. destruct (bool_decide _); [|injection E4 as <- <-; done].
       apply stx_bind_ok in E4 as (key & t4 & [-> (x & Hx & ->)]%secret_reference_ok & [= <- <-]). split; [done|by exists x]. }
  split; [done|]. eapply Forall2_compose; [|exact Hl|exact Hl'].
  simpl. intros a b c Hab (k & Hk & ->). revert Hab. unfold named.
  destruct (negb (bool_decide (v_Type a = VariableTypeSecretReference)) || bool_decide (v_ReferenceID a = "")).
  - intros ->. by exists k.
  - intros (x & Hx & ->). exists k. split; [done|by exists x].
Qed.

Lemma named_list s l l' : Forall2 (named s) l l' -> Forall variable_ok l -> Forall variable_ok l'.
Proof.
  intros Hl Hok. induction Hl as [|v v' l l' Hv _ IH]; [constructor|]. apply Forall_cons in Hok as [Hv' Hok].
  constructor; [by eapply named_ok|by apply IH].
Qed.

Lemma name_used_false id org name s : name_used id org name s = false ->
  forall v, v ∈ VariableSets s -> vst_ID v <> id -> (vst_OrganizationID v, vst_Name v) <> (org, name).
Proof.
  unfold name_used. rewrite exists_where_false. intros Hf v Hv Hne [= Eo En]. specialize (Hf v Hv).
  rewrite (bool_decide_eq_false_2 _ Hne), !bool_decide_eq_true_2 in Hf; done.
Qed.

Lemma in_set_mono s s' set org : (forall v, v ∈ VariableSets s -> exists v', v' ∈ VariableSets s' /\ vst_ID v' = vst_ID v
    /\ vst_OrganizationID v' = vst_OrganizationID v) -> in_set s set org -> in_set s' set org.
Proof. intros Hm (v & (v' & ? & ? & ?)%Hm & ? & ?). exists v'. split_and!; congruence. Qed.

Lemma inv_sets s l : v_inv s -> NoDup (vst_ID <$> l) -> NoDup ((λ v, (vst_OrganizationID v, vst_Name v)) <$> l) ->
  (forall v, v ∈ VariableSets s -> exists v', v' ∈ l /\ vst_ID v' = vst_ID v /\ vst_OrganizationID v' = vst_OrganizationID v) ->
  v_inv (set_sets l s).
Proof.
  intros Hs Hids Hnames Hl. split; simpl; try done; try apply Hs.
  - intros a Ha. eapply (in_set_mono s); [done|]. by apply Hs.
  - intros w Hw. destruct (vi_row s Hs w Hw). split; [done|]. by eapply (in_set_mono s).
Qed.

Lemma inv_create s v u s' : v_inv s -> insert_set v s = Ok (u, s') ->
  v_inv s' /\ s' = set_sets (VariableSets s ++ [v]) s /\ (vst_ID v ∉ vst_ID <$> VariableSets s).
Proof.
  intros Hs. unfold insert_set. destruct (negb _); [done|]. destruct (_ || _) eqn:E; [done|]. intros [= _ <-].
  apply orb_false_iff in E as [Hid%contains_false Hn]. split_and!; [|done|done].
  apply inv_sets; [done| | |intros w Hw; exists w; split; [apply elem_of_app; by left|done]]; rewrite fmap_app.
  - apply NoDup_app_one; [apply Hs|done].
  - apply NoDup_app_one; [apply Hs|]. intros (w & Ew & Hw)%list_elem_of_fmap.
    apply (name_used_false _ _ _ _ Hn w Hw); [|done]. intros E. apply Hid. rewrite <- E. by apply list_elem_of_fmap_2.
Qed.

Lemma set_where_eq id org v : set_where id org v = true <-> vst_ID v = id /\ vst_OrganizationID v = org.
Proof. unfold set_where. by rewrite andb_true_iff, !bool_decide_eq_true. Qed.

Lemma inv_update s v u s' : v_inv s -> update_set v s = Ok (u, s') ->
  v_inv s' /\ s' = set_sets (update_where (set_where (vst_ID v) (vst_OrganizationID v)) (λ _, v) (VariableSets s)) s
  /\ in_set s (vst_ID v) (vst_OrganizationID v).
Proof.
  intros Hs. unfold update_set. destruct (negb (fits_int4 _)); [done|]. destruct (exists_where _ _) eqn:Ex; [|done]. simpl.
  destruct (name_used _ _ _ _) eqn:Hn; [done|]. intros [= _ <-]. split_and!; [|done|].
  - apply inv_sets; [done| | |].
    + rewrite fmap_update_where; [apply Hs|]. intros x _ [-> _]%set_where_eq. done.
    + pose proof (name_used_false _ _ _ _ Hn) as Hf. pose proof (vi_sets s Hs) as Hids. pose proof (vi_names s Hs) as Hnm.
      revert Hf Hids Hnm. generalize (VariableSets s). intros l. induction l as [|x l IH]; intros Hf Hids Hnm; [constructor|].
      apply NoDup_cons in Hids as [Hx Hids]. apply NoDup_cons in Hnm as [Hxn Hnm].
      apply NoDup_cons. split; [|apply IH; [intros y Hy; apply Hf; by right|done|done]].
      intros (y & Ey & (z & Hz & ->)%elem_of_update_where)%list_elem_of_fmap.
      destruct (set_where _ _ x) eqn:Ex'; destruct (set_where _ _ z) eqn:Ez.
      * apply set_where_eq in Ex' as [Ex' _]. apply set_where_eq in Ez as [Ez _]. apply Hx. rewrite Ex', <- Ez. by apply list_elem_of_fmap_2.
      * apply set_where_eq in Ex' as [Ex' Exo]. apply (Hf z); [by right| |done].
        intros E. apply Hx. rewrite Ex', <- E. by apply list_elem_of_fmap_2.
      * apply set_where_eq in Ez as [Ez Ezo]. apply (Hf x); [by left| |done].
        intros E. apply Hx. rewrite E, <- Ez. by apply list_elem_of_fmap_2.
      * apply Hxn. rewrite Ey. apply list_elem_of_fmap. by exists z.
    + intros w Hw. exists (if set_where (vst_ID v) (vst_OrganizationID v) w then v else w).
      split; [apply elem_of_update_where; by exists w|]. destruct (set_where _ _ w) eqn:E; [|done]. by apply set_where_eq in E as [-> ->].
  - apply exists_where_true in Ex as (x & Hx & [Ei Eo]%set_where_eq). by exists x.
Qed.

(** Children that a condition on their variable and set keeps. *)
Lemma inv_drop s (keep : uuid -> uuid -> bool) (sets : list VariableSet) :
  v_inv s -> NoDup (vst_ID <$> sets) -> NoDup ((λ v, (vst_OrganizationID v, vst_Name v)) <$> sets) ->
  (forall set org, keep set org = true -> in_set s set org -> in_set (set_sets sets s) set org) ->
  let variables := select_where (λ w, keep (vw_SetID w) (vw_OrganizationID w)) (VariableRows s) in
  v_inv (set_children (select_where (λ a, keep (sa_SetID a) (sa_OrganizationID a)) (SetApplications s)) variables
    (select_where (λ w, contains (vw_ID <$> variables) (sw_VariableID w)) (ScopedValueRows s)) (set_sets sets s)).
Proof.
  intros Hs Hids Hnames Hset variables. split; simpl; try done; try apply Hs; try apply fmap_select_NoDup, Hs.
  - intros a [Ha Hk]%elem_of_select_where. apply (Hset _ _ Hk). by apply Hs.
  - intros w [Hw Hk]%elem_of_select_where. destruct (vi_row s Hs w Hw). split; [done|]. by apply (Hset _ _ Hk).
  - intros w [Hw Hk%contains_true]%elem_of_select_where. destruct (vi_scoped_row s Hs w Hw) as (v & (Hv & Ei & E) & Hok).
    exists v. split; [|done]. split; [|done]. apply list_elem_of_fmap in Hk as (v' & Ei' & Hv').
    pose proof Hv' as [Hv'' _]%elem_of_select_where.
    by rewrite (NoDup_fmap_elem vw_ID (VariableRows s) v v'); [|apply Hs|done|done|congruence].
Qed.

(** ** What an operation stores *)

Context `{Collation}.

Definition canonical_reference (t : VariableType) (text : string) : string :=
  if bool_decide (t = VariableTypeSecretReference) then match uuid_Parse text with Some id => uuid_string id | None => text end
  else text.

(** A value as it is read back: the JSON text is the one that the database
    prints, a secret is named by its canonical identifier. *)
Record stored_scoped (t : VariableType) (sv u : VariableScopedValue) : Prop := {
  ss_scope : sv_Scope u = sv_Scope sv;
  ss_order : sv_SortOrder u = sv_SortOrder sv;
  ss_value : sv_Value u = sv_Value sv ≫= jsonb_text;
  ss_reference : sv_ReferenceID u = canonical_reference t (sv_ReferenceID sv);
  ss_name : sv_ReferenceName u = sv_ReferenceName sv;
}.

Record stored (set : uuid) (v u : types_Variable) : Prop := {
  st_set : v_VariableSetID u = set;
  st_key : v_Key u = v_Key v;
  st_type : v_Type u = v_Type v;
  st_required : v_IsRequired u = v_IsRequired v;
  st_default : v_DefaultValue u = v_DefaultValue v ≫= jsonb_text;
  st_reference : v_ReferenceID u = canonical_reference (v_Type v) (v_ReferenceID v);
  st_name : v_ReferenceName u = v_ReferenceName v;
  st_scoped : exists l, l ≡ₚ v_ScopedValues u /\ Forall2 (stored_scoped (v_Type v)) (v_ScopedValues v) l;
  st_sorted : StronglySorted (not_after (less_by sv_SortOrder)) (v_ScopedValues u);
}.

Lemma secret_key_named s text x : NoDup (sec_ID <$> ref_Secrets (refs s)) -> names_secret s text x ->
  secret_key s (uuid_Parse text) = Some (sec_Key x).
Proof.
  intros Hn [-> Hx]. simpl. rewrite (select_key _ sec_ID _ x); [done|done|done|by rewrite bool_decide_eq_true_2|].
  intros y _ Hy. by to_prop.
Qed.

Lemma reference_id_canonical t text secret reference :
  (if bool_decide (text = "") then Some (None, None) else
   if bool_decide (t = VariableTypeSecretReference) then (λ id, (Some id, None)) <$> uuid_Parse text
   else Some (None, Some text)) = Some (secret, reference) ->
  (text <> "" -> usable_id text) ->
  reference_id secret reference = canonical_reference t text.
Proof.
  unfold canonical_reference. intros E Hu. case_bool_decide as Ee.
  - injection E as <- <-. subst. rewrite uuid_Parse_empty. simpl. by destruct (bool_decide _).
  - case_bool_decide as Et; [|by injection E as <- <-]. destruct (Hu Ee) as (id & Ep & _). rewrite Ep in *. by injection E as <- <-.
Qed.

Lemma read_value_typed t text : typed_value t text -> read_value (Some text) = Some text.
Proof. intros [Hh _]. unfold read_value. by rewrite Hh. Qed.

Lemma default_read t d : (forall text, d = Some text -> typed_value t text) ->
  (forall text, d = Some text -> is_Some (jsonb_text text)) -> read_value (d ≫= jsonb_text) = d ≫= jsonb_text.
Proof.
  intros Ht Hd. destruct d as [text|]; [|done]. simpl. destruct (Hd text eq_refl) as [text' E]. rewrite E.
  eapply read_value_typed, jsonb_typed; [by apply Ht|done].
Qed.

Lemma column_some d : (forall text, d = Some text -> hasVariableJSONValue (Some text) = true) -> is_Some (jsonb_column d) ->
  forall text, d = Some text -> is_Some (jsonb_text text).
Proof.
  intros Hd [x Hx] text ->. unfold jsonb_column, variableDefaultValue in Hx. rewrite (Hd text eq_refl) in Hx. simpl in Hx.
  destruct (jsonb_text text) as [y|]; [by exists y|done].
Qed.

(** A row that was inserted, read in a state with the same secrets. *)
Lemma read_scoped_stored s id variable set org t sv0 sv w :
  NoDup (sec_ID <$> ref_Secrets (refs s)) -> scoped_named s t sv0 sv -> scoped_ok t sv ->
  scoped_row id variable set org t sv = Some w -> stored_scoped t sv (read_scoped s w).
Proof.
  intros Hsec Hnm Hok E. pose proof (scoped_row_ok_insert _ _ _ _ _ _ _ Hok E) as (Hrow & _ & _ & _ & _ & Esc & Eord & Ename & Eval).
  unfold scoped_row in E. destruct (scopedValueReferenceColumns sv t) as [[secret reference]|] eqn:Er; [|done]. simpl in E.
  destruct (jsonb_column (sv_Value sv)) as [d|] eqn:Ed; [|done]. simpl in E. injection E as <-. simpl in *.
  assert (isReferenceVariableType t = true -> sv_Value sv = None) as Hnv by (intros Hr; apply (so_reference t sv Hok Hr)).
  assert (forall text, sv_Value sv = Some text -> typed_value t text) as Hty.
  { intros text Et. destruct (isReferenceVariableType t) eqn:Hr; [by rewrite Hnv in Et|].
    destruct (so_value t sv Hok Hr) as (_ & text' & Et' & ?). congruence. }
  split; simpl; try done.
  - rewrite Eval. apply (default_read t); [done|]. apply column_some; [intros text Et; by apply Hty|]. by rewrite Ed.
  - unfold scopedValueReferenceColumns in Er. apply (reference_id_canonical t).
    + case_bool_decide; [done|]. by destruct (non_nil (sv_Value sv)).
    + intros Hne. destruct (isReferenceVariableType t) eqn:Hr; [apply (so_reference t sv Hok Hr)|].
      by destruct (so_value t sv Hok Hr).
  - unfold scopedValueReferenceColumns in Er. unfold reference_name. case_bool_decide as Ee; [by injection Er as <- <-|].
    destruct (non_nil (sv_Value sv)); [done|]. unfold scoped_named in Hnm.
    destruct (bool_decide (t = VariableTypeSecretReference)); [|by injection Er as <- <-].
    destruct Hnm as (x & Hx & ->). simpl in *. destruct (uuid_Parse (sv_ReferenceID sv0)) as [id'|] eqn:Ep; [|done].
    injection Er as <- <-. by rewrite <- Ep, (secret_key_named s _ x).
Qed.

Lemma Forall2_select {A B} (R : A -> B -> Prop) (p : A -> bool) (q : B -> bool) l k :
  Forall2 R l k -> (forall x y, R x y -> p x = q y) -> Forall2 R (select_where p l) (select_where q k).
Proof.
  intros Hl Hpq. induction Hl as [|x y l k Hxy _ IH]; [constructor|]. unfold select_where in *. simpl.
  rewrite (Hpq x y Hxy). destruct (q y); [by constructor|done].
Qed.

Lemma variable_row_columns id set org v w : variable_row id set org v = Some w -> vw_ID w = id /\ vw_SetID w = set.
Proof.
  unfold variable_row. destruct (variableReferenceColumns v) as [[secret reference]|]; [|done]. simpl.
  destruct (jsonb_column _); [|done]. by intros [= <-].
Qed.

Lemma scoped_row_columns id variable set org t sv w : scoped_row id variable set org t sv = Some w ->
  sw_VariableID w = variable /\ sw_SetID w = set.
Proof.
  unfold scoped_row. destruct (scopedValueReferenceColumns sv t) as [[secret reference]|]; [|done]. simpl.
  destruct (jsonb_column _); [|done]. by intros [= <-].
Qed.

Lemma imap_row_ids (ids : nat -> uuid) set org l rows :
  imap (λ i v, variable_row (ids i) set org v) l = Some <$> rows -> fst <$> imap (λ i v, (ids i, v)) l = vw_ID <$> rows.
Proof.
  revert ids rows. induction l as [|v l IH]; intros ids [|w rows] E; try done.
  rewrite imap_cons, fmap_cons in E. injection E as Ev E. rewrite imap_cons, !fmap_cons. simpl.
  apply variable_row_columns in Ev as [-> _]. f_equal. by apply IH.
Qed.

Section inserted.
Context (env : venv) (set org : uuid) (v0s variables : list types_Variable) (s : vdb) (rows : list VariableRow)
  (srows : list ScopedValueRow) (links : list SetApplication).
Context (Hs : v_inv s) (Hnamed : Forall2 (named s) v0s variables) (Hok : Forall variable_ok variables)
  (Hi : inserted_rows env set org variables s rows srows)
  (Hrows : forall w, w ∈ VariableRows s -> vw_SetID w <> set).

Let s' := set_children links (VariableRows s ++ rows) (ScopedValueRows s ++ srows) s.

Lemma new_rows_disjoint w x : w ∈ VariableRows s -> x ∈ rows -> vw_ID w <> vw_ID x.
Proof.
  intros Hw Hx E. pose proof (ir_ids _ _ _ _ _ _ _ Hi) as Hn. rewrite fmap_app in Hn. apply NoDup_app in Hn as (_ & Hd & _).
  apply (Hd (vw_ID w)); [by apply list_elem_of_fmap_2|]. rewrite E. by apply list_elem_of_fmap_2.
Qed.

(** The scoped values of a new variable. *)
Lemma new_scoped_rows i v w : variables !! i = Some v -> rows !! i = Some w ->
  Forall2 (λ sv x, exists id, scoped_row id (vw_ID w) set org (v_Type v) sv = Some x) (v_ScopedValues v)
    (select_where (λ x, bool_decide (sw_VariableID x = vw_ID w)) (ScopedValueRows s')).
Proof.
  intros Hv Hw. simpl. rewrite filter_app_bool, (select_none _ (ScopedValueRows s)).
  2: { intros x Hx. apply bool_decide_eq_false. intros E. destruct (vi_scoped_row s Hs x Hx) as (y & (Hy & Ey & _) & _).
       apply (new_rows_disjoint y w); [done|by eapply list_elem_of_lookup_2|congruence]. }
  simpl. destruct (imap_some_index _ _ _ _ _ (ir_rows _ _ _ _ _ _ _ Hi) Hv) as (w' & Hw' & Er).
  assert (w' = w) as -> by congruence. pose proof (variable_row_columns _ _ _ _ _ Er) as [Eid _].
  pose proof (imap_some _ _ _ (ir_scoped _ _ _ _ _ _ _ Hi)) as Hf.
  apply (Forall2_select _ (λ x, bool_decide (fst (fst x) = vw_ID w)) (λ x, bool_decide (sw_VariableID x = vw_ID w))) in Hf.
  2: { intros x y [j E]. apply scoped_row_columns in E as [-> _]. done. }
  assert (select_where (λ x, bool_decide (fst (fst x) = vw_ID w)) (scoped_values env variables)
    = (λ sv, (vw_ID w, v_Type v, sv)) <$> v_ScopedValues v) as Esel.
  { pose proof (select_group (λ x : uuid * VariableType * VariableScopedValue, fst (fst x)) fst
      (λ x : uuid * types_Variable, (λ sv, (fst x, v_Type (snd x), sv)) <$> v_ScopedValues (snd x))
      (imap (λ i v, (new_variable_id env i, v)) variables) (vw_ID w, v)) as Hg.
    apply Hg.
    - rewrite (imap_row_ids _ _ _ _ _ (ir_rows _ _ _ _ _ _ _ Hi)).
      pose proof (ir_ids _ _ _ _ _ _ _ Hi) as Hn. rewrite fmap_app in Hn. by apply NoDup_app in Hn as (_ & _ & Hn).
    - intros a b (sv & -> & _)%list_elem_of_fmap. done.
    - apply elem_of_lookup_imap. exists i, v. by rewrite Eid. }
  rewrite Esel in Hf. apply Forall2_fmap_l in Hf. eapply Forall2_impl; [exact Hf|]. intros sv x [j E]. by exists (new_scoped_id env j).
Qed.

Lemma not_after_order (l : list ScopedValueRow) :
  StronglySorted (not_after (less_by sv_SortOrder)) (read_scoped s' <$> stable_sort (less_then sw_SortOrder (less_str_by (λ w, uuid_string (sw_ID w)))) l).
Proof.
  pose proof (stable_sort_sorted (less_then sw_SortOrder (less_str_by (λ w, uuid_string (sw_ID w)))) l) as Hsort.
  induction Hsort as [|x k Hk IH Hx]; [constructor|]. rewrite fmap_cons. constructor; [done|].
  apply Forall_fmap. eapply Forall_impl; [exact Hx|]. intros y Hy. unfold not_after, less_then, less_by in *. simpl.
  destruct (Z.eqb_spec (sw_SortOrder y) (sw_SortOrder x)) as [->|]; [apply Z.ltb_irrefl|done].
Qed.

Lemma read_variable_stored i v0 v w : v0s !! i = Some v0 -> variables !! i = Some v -> rows !! i = Some w ->
  stored set v (read_variable s' w).
Proof.
  intros Hv0 Hv Hw. pose proof (Forall2_lookup_lr _ _ _ _ _ _ Hnamed Hv0 Hv) as Hnm.
  pose proof (Forall_lookup_1 _ _ _ _ Hok Hv) as Hvok.
  destruct (imap_some_index _ _ _ _ _ (ir_rows _ _ _ _ _ _ _ Hi) Hv) as (w' & Hw' & E).
  assert (w' = w) as -> by congruence.
  pose proof (variable_row_ok _ _ _ _ _ Hvok E) as (Hrow & _ & Eset & _ & Ek & Et & Er & En & Ed).
  pose proof (new_scoped_rows i v w Hv Hw) as Hsc.
  unfold variable_row in E. destruct (variableReferenceColumns v) as [[secret reference]|] eqn:Erc; [|done]. simpl in E.
  destruct (jsonb_column (v_DefaultValue v)) as [d|] eqn:Edc; [|done]. simpl in E. injection E as <-. simpl in *.
  split; simpl; try done.
  - rewrite Ed. apply (default_read (v_Type v)).
    + intros text Etx. destruct (isReferenceVariableType (v_Type v)) eqn:Hr; [by rewrite (proj1 (vo_reference v Hvok Hr)) in Etx|].
      by apply (vo_value v Hvok Hr).
    + apply column_some; [|by rewrite Edc]. intros text Etx.
      destruct (isReferenceVariableType (v_Type v)) eqn:Hr; [by rewrite (proj1 (vo_reference v Hvok Hr)) in Etx|].
      by apply (vo_value v Hvok Hr).
  - unfold variableReferenceColumns in Erc. apply (reference_id_canonical (v_Type v)); [done|].
    intros Hne. destruct (isReferenceVariableType (v_Type v)) eqn:Hr; [by apply (vo_reference v Hvok Hr)|].
    by destruct (vo_value v Hvok Hr).
  - unfold variableReferenceColumns in Erc. unfold reference_name. case_bool_decide as Ee; [by injection Erc as <- <-|].
    destruct (named_same _ _ _ Hnm) as (_ & Et0 & _ & _ & Ei0 & _).
    destruct Hnm as (l & _ & Hnm). rewrite <- Et0, <- Ei0, (bool_decide_eq_false_2 _ Ee), orb_false_r in Hnm.
    destruct (bool_decide (v_Type v = VariableTypeSecretReference)); simpl in Hnm; [|by injection Erc as <- <-].
    destruct Hnm as (x & Hx & ->). simpl in *. destruct (uuid_Parse (v_ReferenceID v0)) as [id'|] eqn:Ep; [|done].
    injection Erc as <- <-. pose proof (secret_key_named s _ x (vi_secrets s Hs) Hx) as Hkey.
    change (default (sec_Key x) (secret_key s (Some id')) = sec_Key x). by rewrite <- Ep, Hkey.
  - exists (read_scoped s' <$> select_where (λ x, bool_decide (sw_VariableID x = new_variable_id env i)) (ScopedValueRows s')).
    split; [unfold getScopedValuesForVariable; by rewrite stable_sort_perm|].
    apply Forall2_fmap_r. destruct (named_same _ _ _ Hnm) as (_ & Et0 & _ & _ & _ & Hnl).
    apply Forall2_same_length_lookup. split; [by apply Forall2_length in Hsc|].
    intros j sv x Hsv Hx. destruct (Forall2_lookup_r _ _ _ _ _ Hnl Hsv) as (sv0 & Hsv0 & Hn0).
    destruct (Forall2_lookup_lr _ _ _ _ _ _ Hsc Hsv Hx) as (id & Erow).
    apply (read_scoped_stored s' id (new_variable_id env i) set org (v_Type v) sv0 sv x);
      [apply Hs|by rewrite Et0|by apply (Forall_lookup_1 _ _ _ _ (vo_scoped v Hvok) Hsv)|done].
  - apply not_after_order.
Qed.
End inserted.

(** ** Reading a set *)

Lemma same_reading s t id org :
  ref_Secrets (refs t) = ref_Secrets (refs s) -> select_where (set_where id org) (VariableSets t) = select_where (set_where id org) (VariableSets s) ->
  select_where (λ a, bool_decide (sa_SetID a = id)) (SetApplications t)
    = select_where (λ a, bool_decide (sa_SetID a = id)) (SetApplications s) ->
  select_where (λ w, bool_decide (vw_SetID w = id)) (VariableRows t)
    = select_where (λ w, bool_decide (vw_SetID w = id)) (VariableRows s) ->
  (forall w, w ∈ VariableRows s -> vw_SetID w = id ->
    select_where (λ x, bool_decide (sw_VariableID x = vw_ID w)) (ScopedValueRows t)
    = select_where (λ x, bool_decide (sw_VariableID x = vw_ID w)) (ScopedValueRows s)) ->
  getVariableSet id org t = getVariableSet id org s.
Proof.
  intros Er Es Ea Ev Ew. unfold getVariableSet. rewrite Es.
  destruct (select_where (set_where id org) (VariableSets s)) as [|v l] eqn:E; [done|].
  assert (v ∈ v :: l) as Hv by left. rewrite <- E in Hv. apply elem_of_select_where in Hv as [_ [Hid _]%set_where_eq].
  unfold hydrateVariableSet, getVariableSetApplicationIDs, getVariablesForSet. rewrite Hid, Ea, Ev. do 2 f_equal.
  apply list_fmap_ext. intros i w Hw%list_elem_of_lookup_2. rewrite elem_of_stable_sort in Hw.
  apply elem_of_select_where in Hw as [Hw Hset%bool_decide_eq_true].
  unfold read_variable, getScopedValuesForVariable, reference_name, secret_key. rewrite (Ew w Hw Hset), Er. f_equal.
  apply list_fmap_ext. intros j x _. unfold read_scoped, reference_name, secret_key. by rewrite Er.
Qed.

Definition new_links (set org : uuid) (applications : list uuid) : list SetApplication :=
  imap (λ i id, {| sa_SetID := set; sa_OrganizationID := org; sa_ApplicationID := id; sa_SortOrder := Z.of_nat i |}) applications.

(** The state after the children of a set were inserted. *)
Definition with_new_children (set org : uuid) (applications : list uuid) (rows : list VariableRow)
    (srows : list ScopedValueRow) (s : vdb) : vdb :=
  set_children (SetApplications s ++ new_links set org applications) (VariableRows s ++ rows) (ScopedValueRows s ++ srows) s.

(** A set without children in a consistent state. *)
Record childless (set org : uuid) (v : VariableSet) (s : vdb) : Prop := {
  cl_inv : v_inv s;
  cl_set : v ∈ VariableSets s /\ vst_ID v = set /\ vst_OrganizationID v = org;
  cl_links a : a ∈ SetApplications s -> sa_SetID a <> set;
  cl_rows w : w ∈ VariableRows s -> vw_SetID w <> set;
}.

Lemma insert_children_ok env set org applications variables s loaded s' :
  v_inv s -> insert_children env set org applications variables s = Ok (loaded, s') ->
  exists rows srows, inserted_rows env set org variables s rows srows
    /\ s' = with_new_children set org applications rows srows s /\ getVariableSet set org s' = Ok loaded.
Proof.
  intros Hs E. unfold insert_children in E. apply stx_bind_ok in E as ([] & s1 & E1 & E). injection E1 as <-.
  apply stx_bind_ok in E as ([] & s1 & E1 & [Hl ->]%squery_ok).
  apply insertVariables_ok in E1 as (rows & srows & Hi & ->); [|apply Hs..].
  exists rows, srows. split; [|by split]. by destruct Hi.
Qed.

Lemma in_set_childless set org v s : childless set org v s -> in_set s set org.
Proof. intros Hc. exists v. apply Hc. Qed.

Lemma links_sorted set org applications :
  sa_ApplicationID <$> stable_sort (less_then sa_SortOrder (less_str_by (λ a, uuid_string (sa_ApplicationID a))))
    (new_links set org applications) = applications.
Proof.
  unfold new_links. rewrite (stable_sort_ext _ (less_by sa_SortOrder)).
  - rewrite imap_sorted by done. apply fmap_imap_snd. done.
  - intros x y (i & a & -> & Hi)%elem_of_lookup_imap (j & b & -> & Hj)%elem_of_lookup_imap.
    unfold less_then, less_by. simpl. destruct (Z.eqb_spec (Z.of_nat i) (Z.of_nat j)) as [E|]; [|done].
    assert (i = j) as -> by lia. assert (a = b) as -> by congruence. rewrite Z.ltb_irrefl. unfold less_str_by. simpl.
    destruct (string_less (uuid_string b) (uuid_string b)) eqn:Eb; [|done]. by rewrite (swo_asym _ _ Eb) in Eb.
Qed.

Definition variable_less (x y : types_Variable) : bool :=
  if bool_decide (v_Key x = v_Key y) then less_str_by (λ v, uuid_string (v_ID v)) x y else name_less (v_Key x) (v_Key y).

Section written.
Context (env : venv) (set org : uuid) (v : VariableSet) (applications : list uuid) (v0s variables : list types_Variable)
  (s : vdb) (rows : list VariableRow) (srows : list ScopedValueRow).
Context (Hc : childless set org v s) (Happ : NoDup applications) (Hnamed : Forall2 (named s) v0s variables)
  (Hok : Forall variable_ok variables) (Hi : inserted_rows env set org variables s rows srows).

Let s' := with_new_children set org applications rows srows s.

Lemma written_inv : v_inv s'.
Proof.
  eapply inv_insert_children; [apply Hc|by eapply in_set_childless|done|done|apply Hc|done].
Qed.

Lemma rows_of_set : Forall (λ w, vw_SetID w = set) rows.
Proof.
  apply Forall_lookup. intros i w Hw. pose proof (imap_some _ _ _ (ir_rows _ _ _ _ _ _ _ Hi)) as Hf.
  destruct (Forall2_lookup_r _ _ _ _ _ Hf Hw) as (x & _ & j & E). by apply variable_row_columns in E as [_ ->].
Qed.

(** The set is read back as it was written. *)
Lemma written_read : exists l, Forall2 (stored set) variables l
  /\ getVariableSet set org s' = Ok (with_children applications (stable_sort variable_less l) v).
Proof.
  exists (read_variable s' <$> rows). split.
  - apply Forall2_fmap_r, Forall2_same_length_lookup. split.
    + pose proof (f_equal length (ir_rows _ _ _ _ _ _ _ Hi)) as Hlen. rewrite length_imap, length_fmap in Hlen. done.
    + intros i x w Hx Hw. destruct (Forall2_lookup_r _ _ _ _ _ Hnamed Hx) as (x0 & Hx0 & _).
      by apply (read_variable_stored env set org v0s variables s rows srows _ (cl_inv _ _ _ _ Hc) Hnamed Hok Hi i x0).
  - destruct (cl_set _ _ _ _ Hc) as (Hv & Ei & Eo). unfold getVariableSet.
    rewrite (select_key _ vst_ID _ v); [|apply Hc|done|by apply set_where_eq|intros y _ [E _]%set_where_eq; congruence].
    unfold hydrateVariableSet. rewrite Ei. do 2 f_equal.
    + unfold getVariableSetApplicationIDs, s', with_new_children. simpl. rewrite filter_app_bool, (select_none _ (SetApplications s)).
      2: { intros a Ha. by apply bool_decide_eq_false, (cl_links _ _ _ _ Hc). }
      unfold select_where. rewrite filter_all_bool; [apply links_sorted|].
      intros a (i & x & -> & _)%elem_of_lookup_imap. by apply bool_decide_eq_true.
    + unfold getVariablesForSet. rewrite (stable_sort_fmap (read_variable s') variable_row_less variable_less) by done.
      f_equal. f_equal. unfold s', with_new_children. simpl. rewrite filter_app_bool, (select_none _ (VariableRows s)).
      2: { intros w Hw. by apply bool_decide_eq_false, (cl_rows _ _ _ _ Hc). }
      unfold select_where. apply filter_all_bool. intros w Hw. apply bool_decide_eq_true.
      by apply (proj1 (Forall_forall _ _) rows_of_set).
Qed.

(** The other sets are read as before. *)
Lemma written_frame id' org' : id' <> set -> getVariableSet id' org' s' = getVariableSet id' org' s.
Proof.
  intros Hne. apply same_reading; try done; unfold s', with_new_children; simpl; rewrite ?filter_app_bool.
  - rewrite (select_none _ (new_links _ _ _)), app_nil_r; [done|].
    intros a (i & x & -> & _)%elem_of_lookup_imap. apply bool_decide_eq_false. simpl. congruence.
  - rewrite (select_none _ rows), app_nil_r; [done|]. intros w Hw. apply bool_decide_eq_false.
    rewrite (proj1 (Forall_forall _ _) rows_of_set w Hw). congruence.
  - intros w Hw Eset. rewrite filter_app_bool, (select_none _ srows), app_nil_r; [done|].
    intros x Hx. apply bool_decide_eq_false. intros E.
    pose proof (imap_some _ _ _ (ir_scoped _ _ _ _ _ _ _ Hi)) as Hf. apply list_elem_of_lookup in Hx as [i Hx].
    destruct (Forall2_lookup_r _ _ _ _ _ Hf Hx) as ([[id t] sv] & Hy & j & Ex). simpl in Ex.
    apply scoped_row_columns in Ex as [Ex _]. apply list_elem_of_lookup_2, scoped_values_elem in Hy as (k & y & Hy & -> & _).
    destruct (imap_some_index _ _ _ _ _ (ir_rows _ _ _ _ _ _ _ Hi) Hy) as (r & Hr & Er).
    apply variable_row_columns in Er as [Er _]. apply (new_rows_disjoint env set org variables s rows srows Hi w r Hw);
      [by eapply list_elem_of_lookup_2|congruence].
Qed.
End written.

(** ** Every stored variable is normalized *)

Lemma read_scoped_ok s t x : scoped_row_ok t x -> scoped_ok t (read_scoped s x).
Proof.
  intros [Hsc Ho Hr Hv]. split; simpl; [done|done| |].
  - intros Ht. destruct (Hr Ht) as [-> Hm]. split; [done|].
    destruct (sw_SecretReferenceID x) as [id|], (sw_ReferenceID x) as [text|]; try done; simpl.
    + destruct Hm as [_ Hne]. split; [|apply uuid_string_nonempty]. exists id. by rewrite uuid_Parse_String.
    + by destruct Hm as (_ & ? & ?).
  - intros Ht. destruct (Hv Ht) as (-> & -> & text & -> & Hty). split; [done|]. exists text. split; [|done]. by eapply read_value_typed.
Qed.

Lemma stored_scoped_rows s w x : v_inv s -> w ∈ VariableRows s -> x ∈ ScopedValueRows s -> sw_VariableID x = vw_ID w ->
  scoped_row_ok (vw_Type w) x.
Proof.
  intros Hs Hw Hx E. destruct (vi_scoped_row s Hs x Hx) as (v & (Hv & Ei & _) & Hok).
  by rewrite <- (NoDup_fmap_elem vw_ID (VariableRows s) v w (vi_variables s Hs) Hv Hw ltac:(congruence)).
Qed.

Lemma read_variable_ok s w : v_inv s -> w ∈ VariableRows s -> variable_ok (read_variable s w).
Proof.
  intros Hs Hw. destruct (vi_row s Hs w Hw) as [[Hk Ht Hr Hv] _].
  assert (forall x, x ∈ select_where (λ x, bool_decide (sw_VariableID x = vw_ID w)) (ScopedValueRows s) -> scoped_row_ok (vw_Type w) x)
    as Hsc by (intros x [Hx E%bool_decide_eq_true]%elem_of_select_where; by eapply stored_scoped_rows).
  split; simpl; try done.
  - intros Hrt. destruct (Hr Hrt) as [-> Hm]. split; [done|].
    destruct (vw_SecretReferenceID w) as [id|], (vw_ReferenceID w) as [text|]; try done; simpl.
    + destruct Hm as [_ Hne]. split; [by intros E%uuid_string_nonempty|]. intros _. exists id. by rewrite uuid_Parse_String.
    + by destruct Hm as (_ & ? & ?).
  - intros Hrt. destruct (Hv Hrt) as (-> & -> & Hd). split; [done|]. destruct (vw_DefaultValue w) as [text|]; [|done].
    rewrite (read_value_typed _ _ Hd). split; [done|]. by intros text' [= <-].
  - unfold getScopedValuesForVariable. apply Forall_fmap, Forall_forall. intros x Hx. rewrite elem_of_stable_sort in Hx.
    by apply read_scoped_ok, Hsc.
  - unfold getScopedValuesForVariable. rewrite <- list_fmap_compose, stable_sort_perm.
    pose proof (fmap_select_NoDup scope_key (λ x, bool_decide (sw_VariableID x = vw_ID w)) _ (vi_scopes s Hs)) as Hn.
    revert Hn Hsc. generalize (select_where (λ x, bool_decide (sw_VariableID x = vw_ID w)) (ScopedValueRows s))
      (λ x Hx, proj2 (proj1 (elem_of_select_where (λ x, bool_decide (sw_VariableID x = vw_ID w)) (ScopedValueRows s) x) Hx)).
    intros l Hl Hn Hsc. induction l as [|x l IH]; [constructor|]. apply NoDup_cons in Hn as [Hx Hn]. rewrite fmap_cons.
    apply NoDup_cons. split; [|apply IH; [intros y Hy; apply Hl; by right|done|intros y Hy; apply Hsc; by right]].
    intros (y & Ey & Hy)%list_elem_of_fmap. apply Hx, list_elem_of_fmap. exists y. split; [|done]. simpl in Ey.
    destruct (sr_scope _ _ (Hsc x ltac:(by left))), (sr_scope _ _ (Hsc y ltac:(by right))).
    unfold scope_key. f_equal; [|by apply key_columns].
    pose proof (Hl x ltac:(by left)) as E1. pose proof (Hl y ltac:(by right)) as E2. to_prop. congruence.
Qed.

Lemma read_keys s set : v_inv s -> NoDup (v_Key <$> getVariablesForSet set s).
Proof.
  intros Hs. unfold getVariablesForSet. rewrite <- list_fmap_compose, stable_sort_perm.
  pose proof (vi_keys s Hs) as Hn. revert Hn. generalize (VariableRows s). intros l. induction l as [|w l IH]; [constructor|].
  intros Hn. apply NoDup_cons in Hn as [Hw Hn]. unfold select_where in *. simpl. case_bool_decide as E; [|by apply IH].
  rewrite fmap_cons. apply NoDup_cons. split; [|by apply IH]. intros (x & Ex & [Hx Hset]%elem_of_select_where)%list_elem_of_fmap.
  apply Hw, list_elem_of_fmap. exists x. split; [|done]. to_prop. simpl in Ex. congruence.
Qed.

(** ** The operations *)

(** The set that a successful creation or update leaves, in the state before its children were stored. *)
Definition stores (env : venv) (variableSet : VariableSet) (set : uuid) (s : vdb) (loaded : VariableSet) (s' : vdb) : Prop :=
  exists v variables t rows srows, normalizeVariableSet variableSet = Ok v /\ Forall2 (named t) (vst_Variables v) variables
    /\ refs t = refs s /\ childless set (vst_OrganizationID v) (set_row set v) t
    /\ (forall id org, id <> set -> getVariableSet id org t = getVariableSet id org s)
    /\ inserted_rows env set (vst_OrganizationID v) variables t rows srows
    /\ s' = with_new_children set (vst_OrganizationID v) (vst_ApplicationIDs v) rows srows t
    /\ getVariableSet set (vst_OrganizationID v) s' = Ok loaded.

Lemma create_stores env variableSet s res s' : v_inv s -> CreateVariableSet env variableSet s = (res, s') ->
  (exists e, res = Err e /\ s' = s) \/ exists loaded, res = Ok loaded /\ stores env variableSet (new_set_id env) s loaded s'
    /\ (new_set_id env ∉ vst_ID <$> VariableSets s).
Proof.
  intros Hs [(loaded & -> & E)|(e & -> & _ & ->)]%RunSTx_cases; [right|left; by exists e]. exists loaded.
  apply stx_bind_ok in E as (v & s1 & [Hv ->]%slift_ok & E).
  apply stx_bind_ok in E as (variables & s1 & [-> Hn]%ensure_references_ok & E).
  apply stx_bind_ok in E as ([] & t & Ht & E). apply inv_create in Ht as (Hti & -> & Hfresh); [|done]. simpl in Hfresh.
  apply insert_children_ok in E as (rows & srows & Hi & -> & Hl); [|done]. split; [done|]. split; [|done].
  assert (forall set org, in_set s set org -> set <> new_set_id env) as Hne.
  { intros set org (x & Hx & <- & _) E. apply Hfresh. rewrite <- E. by apply list_elem_of_fmap_2. }
  exists v, variables, (set_sets (VariableSets s ++ [set_row (new_set_id env) v]) s), rows, srows.
  split_and!; [done|exact Hn|done| | |done..].
  - split; [done| | |].
    + split; [apply elem_of_app; right; by left|done].
    + intros a Ha. by eapply Hne, vi_link.
    + intros w Hw. by eapply Hne, (vi_row s Hs w Hw).
  - intros id org Hid. apply same_reading; try done. simpl. rewrite filter_app_bool, (select_none _ [_]), app_nil_r; [done|].
    intros x ->%list_elem_of_singleton. apply not_true_iff_false. intros [E _]%set_where_eq. simpl in E. congruence.
Qed.

Lemma database_managed_ok org id s u s' : ensure_database_managed org id s = Ok (u, s') -> s' = s.
Proof. unfold ensure_database_managed. intros ([] & s1 & [_ ->]%sforbid_ok & [_ ->]%sforbid_ok)%stx_bind_ok. done. Qed.

Lemma drop_frame s sets id org set (keep : uuid -> uuid -> bool) :
  v_inv s -> select_where (set_where id org) sets = select_where (set_where id org) (VariableSets s) ->
  (forall o, keep id o = true) ->
  let variables := select_where (λ w, keep (vw_SetID w) (vw_OrganizationID w)) (VariableRows s) in
  id <> set ->
  getVariableSet id org (set_children (select_where (λ a, keep (sa_SetID a) (sa_OrganizationID a)) (SetApplications s)) variables
    (select_where (λ w, contains (vw_ID <$> variables) (sw_VariableID w)) (ScopedValueRows s)) (set_sets sets s))
  = getVariableSet id org s.
Proof.
  intros Hs Hsets Hkeep variables Hne. apply same_reading; try done; simpl.
  - apply select_select. intros a _ E%bool_decide_eq_true. by rewrite E, Hkeep.
  - apply select_select. intros a _ E%bool_decide_eq_true. by rewrite E, Hkeep.
  - intros w Hw Eset. apply select_select. intros x _ E%bool_decide_eq_true. apply contains_true. rewrite E.
    apply list_elem_of_fmap_2, elem_of_select_where. split; [done|]. by rewrite Eset, Hkeep.
Qed.

Lemma select_update_other {A} (p c : A -> bool) f l : (forall x, c x = true -> p x = false /\ p (f x) = false) ->
  select_where p (update_where c f l) = select_where p l.
Proof.
  intros Hc. unfold select_where, update_where. induction l as [|x l IH]; [done|]. cbn [fmap list_fmap List.filter].
  cbn [fmap list_fmap] in IH. rewrite IH. destruct (c x) eqn:E; [|done]. by destruct (Hc x E) as [-> ->].
Qed.

Lemma update_stores env variableSet s res s' : v_inv s -> UpdateVariableSet env variableSet s = (res, s') ->
  (exists e, res = Err e /\ s' = s) \/ exists loaded, res = Ok loaded /\ stores env variableSet (vst_ID variableSet) s loaded s'
    /\ in_set s (vst_ID variableSet) (vst_OrganizationID variableSet).
Proof.
  intros Hs [(loaded & -> & E)|(e & -> & _ & ->)]%RunSTx_cases; [right|left; by exists e]. exists loaded.
  apply stx_bind_ok in E as (old & s1 & [_ ->]%squery_ok & E). apply stx_bind_ok in E as ([] & s1 & ->%database_managed_ok & E).
  apply stx_bind_ok in E as (v & s1 & [Hv ->]%slift_ok & E).
  apply stx_bind_ok in E as (variables & s1 & [-> Hn]%ensure_references_ok & E).
  apply stx_bind_ok in E as ([] & t & Ht & E). apply inv_update in Ht as (Hti & -> & Hin); [|done]. simpl in Hin.
  apply stx_bind_ok in E as ([] & t & Ht & E). injection Ht as <-.
  pose proof (normalizeVariableSet_ok _ _ Hv) as (_ & _ & _ & _ & Eid & Eorg).
  set (id := vst_ID variableSet) in *. set (org := vst_OrganizationID variableSet) in *. rewrite Eorg in Hin.
  set (sets := update_where (set_where id org) (λ _, set_row id v) (VariableSets s)).
  set (keep := λ set' org', negb (bool_decide (set' = id) && bool_decide (org' = org))).
  pose proof (inv_drop (set_sets sets s) keep sets) as Hinv. simpl in Hinv, E, Hti. rewrite Eorg in *. fold sets in Hti, E.
  assert (v_inv (set_sets sets s)) as Hti' by exact Hti. specialize (Hinv Hti' (vi_sets _ Hti') (vi_names _ Hti') (λ set' org' _ Hi, Hi)).
  match type of E with insert_children _ _ _ _ _ ?x = _ => set (t := x) in E end.
  apply insert_children_ok in E as (rows & srows & Hi & -> & Hl); [|exact Hinv]. split; [done|]. split; [|done].
  exists v, variables, t, rows, srows. rewrite Eorg. split_and!; [done|exact Hn| | |  |exact Hi|reflexivity|exact Hl].
  - done.
  - assert (forall set' org', keep set' org' = true -> in_set (set_sets sets s) set' org' -> set' <> id) as Hno.
    { intros set' org' Hk (x & Hx & <- & <-) E. destruct Hin as (y & Hy & Ey & Eyo).
      unfold keep in Hk. rewrite (bool_decide_eq_true_2 _ E) in Hk. apply negb_true_iff, bool_decide_eq_false in Hk. apply Hk.
      assert (x = set_row id v) as ->; [|by rewrite <- Eorg].
      apply (NoDup_fmap_elem vst_ID sets); [apply Hti'|done| |by rewrite E].
      apply elem_of_update_where. exists y. split; [done|]. by rewrite (proj2 (set_where_eq id org y)). }
    split; [exact Hinv| | |].
    + split; [|done]. destruct Hin as (y & Hy & Ey & Eyo). apply elem_of_update_where. exists y. split; [done|].
      by rewrite (proj2 (set_where_eq id org y)).
    + intros a [Ha Hk]%elem_of_select_where. apply (Hno _ _ Hk). by apply (vi_link _ Hti').
    + intros w [Hw Hk]%elem_of_select_where. apply (Hno _ _ Hk). by apply (vi_row _ Hti').
  - intros id' org' Hne. etransitivity.
    + apply (drop_frame (set_sets sets s) sets id' org' id keep Hti'); [done| |done].
      intros o. unfold keep. by rewrite bool_decide_eq_false_2.
    + apply same_reading; try done. apply select_update_other. intros x [E _]%set_where_eq.
      unfold set_where. simpl. rewrite E, (bool_decide_eq_false_2 (id = id')) by congruence. done.
Qed.

Lemma inv_refs r s : v_inv s -> NoDup (sec_ID <$> ref_Secrets r) -> v_inv (set_refs r s).
Proof. intros Hs Hr. split; simpl; try done; apply Hs. Qed.

(** A deleted set is gone with its variables, the others are as they were. *)
Lemma set_delete_ok id org s res s' : v_inv s -> DeleteVariableSetWithID id org s = (res, s') ->
  (exists e, res = Err e /\ s' = s)
  \/ (res = Ok tt /\ v_inv s' /\ getVariableSet id org s' = Err NotFound
      /\ forall id' org', id' <> id -> getVariableSet id' org' s' = getVariableSet id' org' s).
Proof.
  intros Hs [([] & -> & E)|(e & -> & _ & ->)]%RunSTx_cases; [right|left; by exists e]. split; [done|].
  apply stx_bind_ok in E as ([] & s1 & ->%database_managed_ok & E). apply stx_bind_ok in E as ([] & s1 & Ed & E).
  injection Ed as <-. unfold delete_set in E. destruct (exists_where _ _) eqn:Ex; [|done]. injection E as <-. simpl in Ex |- *.
  match goal with |- context [set_refs ?r s] => set (t := set_refs r s) end.
  assert (v_inv t) as Ht by (apply inv_refs; [done|apply Hs]).
  set (sets := select_where (λ v, negb (set_where id org v)) (VariableSets s)).
  set (keep := λ set' (_ : uuid), negb (bool_decide (set' = id))).
  apply exists_where_true in Ex as (x & Hx & [Ei Eo]%set_where_eq). split_and!.
  - apply (inv_drop t keep sets Ht); [apply fmap_select_NoDup, Hs|apply fmap_select_NoDup, Hs|].
    intros set org' Hk%negb_true_iff%bool_decide_eq_false (y & Hy & <- & <-). exists y. split; [|done].
    apply elem_of_select_where. split; [done|]. apply negb_true_iff, not_true_iff_false. by intros [E _]%set_where_eq.
  - unfold getVariableSet. simpl. rewrite select_none; [done|]. intros y [_ Hy%negb_true_iff]%elem_of_select_where. done.
  - intros id' org' Hne. etransitivity; [apply (drop_frame t sets id' org' id keep Ht); [|intros o; by apply negb_true_iff, bool_decide_eq_false|done]|].
    + unfold sets. apply select_select. intros y _ [E1 E2]%set_where_eq. apply negb_true_iff, not_true_iff_false.
      intros [E3 _]%set_where_eq. congruence.
    + by apply same_reading.
Qed.

Lemma stores_inv env variableSet set s loaded s' : stores env variableSet set s loaded s' -> v_inv s'.
Proof.
  intros (v & variables & t & rows & srows & Hv & Hn & _ & Hc & _ & Hi & -> & _).
  apply normalizeVariableSet_ok in Hv as (Hok & _ & Ha & _). eapply written_inv; [done|done|by eapply named_list|done].
Qed.

Inductive v_step (s : vdb) : vdb -> Prop :=
| v_create env variableSet res s' : CreateVariableSet env variableSet s = (res, s') -> v_step s s'
| v_update env variableSet res s' : UpdateVariableSet env variableSet s = (res, s') -> v_step s s'
| v_delete id org res s' : DeleteVariableSetWithID id org s = (res, s') -> v_step s s'
| v_refs r : NoDup (sec_ID <$> ref_Secrets r) -> v_step s (set_refs r s).

Definition no_refs : references :=
  {| ref_Applications := []; ref_Channels := []; ref_Environments := []; ref_DeploymentTargets := [];
     ref_CustomerOrganizations := []; ref_Secrets := []; ref_GitManaged := [] |}.
Definition v_init : vdb :=
  {| VariableSets := []; SetApplications := []; VariableRows := []; ScopedValueRows := []; refs := no_refs |}.
Definition v_reachable (s : vdb) : Prop := rtc v_step v_init s.

Lemma v_inv_step s s' : v_inv s -> v_step s s' -> v_inv s'.
Proof.
  intros Hs [env variableSet res t E|env variableSet res t E|id org res t E|r Hr].
  - apply create_stores in E as [(e & _ & ->)|(loaded & _ & Hst & _)]; [done|by eapply stores_inv|done].
  - apply update_stores in E as [(e & _ & ->)|(loaded & _ & Hst & _)]; [done|by eapply stores_inv|done].
  - apply set_delete_ok in E as [(e & _ & ->)|(_ & ? & _)]; done.
  - by apply inv_refs.
Qed.

Lemma v_inv_reachable s : v_reachable s -> v_inv s.
Proof.
  intros Hr. unfold v_reachable in Hr. assert (v_inv v_init) as Hi.
  { split; simpl; try apply NoDup_nil_2; intros x Hx; by apply elem_of_nil in Hx. }
  revert Hi. induction Hr as [|a b c Hab _ IH]; [done|]. intros Ha. apply IH. by eapply v_inv_step.
Qed.

(** ** Errors *)

(** The transaction does not end with a bad request. *)
Definition no_bad_request {S A} (m : stx S A) (s : S) : Prop := forall message, m s <> Err (BadRequest message).

Lemma no_bad_ret {S A} (a : A) (s : S) : no_bad_request (mret a) s.
Proof. intros message. discriminate. Qed.

Lemma no_bad_bind {S A B} (m : stx S A) (f : A -> stx S B) s :
  no_bad_request m s -> (forall a s1, m s = Ok (a, s1) -> no_bad_request (f a) s1) -> no_bad_request (m ≫= f) s.
Proof.
  unfold no_bad_request, mbind, stx_bind. intros Hm Hf message. specialize (Hm message).
  destruct (m s) as [[a s1]|e] eqn:E; [by apply Hf|]. congruence.
Qed.

Lemma no_bad_smap {S A B} (f : A -> stx S B) l s :
  (forall a, a ∈ l -> no_bad_request (f a) s /\ forall b s', f a s = Ok (b, s') -> s' = s) -> no_bad_request (smap f l) s.
Proof.
  induction l as [|a l IH]; intros Hf; [done|]. cbn [smap]. apply no_bad_bind; [apply Hf; by left|].
  intros b s1 E. rewrite (proj2 (Hf a ltac:(by left)) b s1 E).
  apply no_bad_bind; [|done]. apply IH. intros x Hx. apply Hf. by right.
Qed.

Lemma secret_no_bad org text s : usable_id text -> no_bad_request (ensureVariableSecretReference org text) s.
Proof.
  intros (id & Ep & Hnil) message. unfold ensureVariableSecretReference. rewrite Ep. unfold is_nil.
  rewrite bool_decide_eq_false_2 by done. unfold squery. by destruct (select_where _ _).
Qed.

Lemma scope_no_bad org scope s : no_bad_request (ensureVariableScopeReferences org scope) s.
Proof.
  assert (forall table id s, no_bad_request (ensureScopedReference table org id) s) as Hr.
  { intros table [id|] t message; [|done]. simpl. unfold sforbid. by destruct (negb _). }
  unfold ensureVariableScopeReferences. do 4 (apply no_bad_bind; [apply Hr|intros [] ? _]). apply Hr.
Qed.

Lemma ensure_references_no_bad v s : Forall variable_ok (vst_Variables v) -> no_bad_request (ensure_references v) s.
Proof.
  intros Hok. unfold ensure_references. apply no_bad_bind.
  { intros message. unfold ensureVariableSetApplications, sforbid. by destruct (negb _). }
  intros [] s1 _. apply no_bad_bind.
  - apply no_bad_smap. intros x Hx. pose proof (proj1 (Forall_forall _ _) Hok x Hx) as Hxok.
    destruct (bool_decide (v_Type x = VariableTypeSecretReference)) eqn:Et; simpl; [|split; [apply no_bad_ret|by intros b s' [= _ <-]]].
    destruct (bool_decide (v_ReferenceID x = "")) eqn:Ee; [split; [apply no_bad_ret|by intros b s' [= _ <-]]|]. split.
    + apply no_bad_bind; [|intros key t _; apply no_bad_ret]. apply bool_decide_eq_true in Et. apply bool_decide_eq_false in Ee.
      apply secret_no_bad, (vo_reference x Hxok); [by rewrite Et|done].
    + intros b s' E. apply stx_bind_ok in E as (key & t & [-> _]%secret_reference_ok & [= _ <-]). done.
  - intros l t El. apply (smap_ok (λ s v v', v_Type v' = v_Type v /\ v_ScopedValues v' = v_ScopedValues v)) in El as [-> Hl].
    2: { intros a b u u' _. destruct (_ || _); [by intros [= <- <-]|]. intros E1.
         apply stx_bind_ok in E1 as (key & t1 & [-> _]%secret_reference_ok & [= <- <-]). done. }
    apply no_bad_smap. intros y Hy. apply list_elem_of_lookup in Hy as [i Hy].
    destruct (Forall2_lookup_r _ _ _ _ _ Hl Hy) as (x & Hx & Et & Es). pose proof (Forall_lookup_1 _ _ _ _ Hok Hx) as Hxok.
    assert (forall sv, sv ∈ v_ScopedValues y -> no_bad_request (ensure_scoped_value (vst_OrganizationID v) (v_Type y) sv) s1
      /\ forall b s', ensure_scoped_value (vst_OrganizationID v) (v_Type y) sv s1 = Ok (b, s') -> s' = s1) as Hsv.
    { intros sv Hsv. rewrite Es in Hsv. pose proof (proj1 (Forall_forall _ _) (vo_scoped x Hxok) sv Hsv) as Hsok. rewrite Et.
      unfold ensure_scoped_value. split.
      - apply no_bad_bind; [apply scope_no_bad|]. intros [] t ->%scope_references_ok. case_bool_decide as Ety; [|done].
        apply no_bad_bind; [|done]. apply secret_no_bad, (so_reference _ _ Hsok). by rewrite Ety.
      - intros b s' E. apply stx_bind_ok in E as ([] & t & ->%scope_references_ok & E).
        destruct (bool_decide _); [|by injection E as _ <-].
        apply stx_bind_ok in E as (key & t & [-> _]%secret_reference_ok & [= _ <-]). done. }
    split; [apply no_bad_bind; [by apply no_bad_smap|done]|]. intros b s' E.
    apply stx_bind_ok in E as (k & t & E & [= _ <-]). apply (smap_ok (λ _ _ _, True)) in E as [-> _]; [done|].
    intros sv c u u' _ E1. split; [|done]. unfold ensure_scoped_value in E1.
    apply stx_bind_ok in E1 as ([] & u1 & ->%scope_references_ok & E1). destruct (bool_decide _); [|by injection E1 as _ <-].
    apply stx_bind_ok in E1 as (key & u2 & [-> _]%secret_reference_ok & [= _ <-]). done.
Qed.

Lemma copy_no_bad {A} action (insert : A -> vtx unit) (ok : A -> Prop) (l : list (option A)) : forall s,
  (forall w s, ok w -> no_bad_request (insert w) s) -> Forall (λ r, forall w, r = Some w -> ok w) l ->
  no_bad_request (insert_rows (λ r, copy_row action r insert) l) s.
Proof.
  induction l as [|r l IH]; intros s Hi Hl; [done|]. apply Forall_cons in Hl as [Hr Hl]. cbn [insert_rows].
  apply no_bad_bind; [|intros [] t _; by apply IH]. destruct r as [w|]; [by apply Hi, Hr|done].
Qed.

Lemma insert_children_no_bad env set org applications variables s :
  Forall variable_ok variables -> no_bad_request (insert_children env set org applications variables) s.
Proof.
  intros Hok. unfold insert_children. apply no_bad_bind; [done|]. intros [] s1 _. apply no_bad_bind.
  - unfold insertVariables. apply no_bad_bind.
    + apply (copy_no_bad _ _ row_ok).
      * intros w t Hw message. unfold insert_variable_row. rewrite row_ok_check by done. simpl. by destruct (_ || _).
      * apply Forall_forall. intros r (i & v & -> & Hv)%elem_of_lookup_imap w Ew.
        by apply (variable_row_ok _ _ _ _ _ (Forall_lookup_1 _ _ _ _ Hok Hv) Ew).
    + intros [] t _. unfold insertScopedValues. apply (copy_no_bad _ _ (λ w, exists t, scoped_row_ok t w)).
      * intros w u [ty Hw] message. unfold insert_scoped_row. destruct (scoped_row_check ty w Hw) as (-> & -> & ->).
        destruct (negb (fits_int4 _)); [done|]. simpl. by destruct (contains _ _ || _).
      * apply Forall_forall. intros r (i & [[id ty] sv] & -> & Hx%list_elem_of_lookup_2)%elem_of_lookup_imap w Ew. simpl in Ew.
        apply scoped_values_elem in Hx as (k & v & Hv & -> & -> & Hsv). exists (v_Type v).
        pose proof (Forall_lookup_1 _ _ _ _ Hok Hv) as Hvok.
        by apply (scoped_row_ok_insert _ _ _ _ _ _ _ (proj1 (Forall_forall _ _) (vo_scoped v Hvok) sv Hsv) Ew).
  - intros [] t _ message. unfold squery, getVariableSet. by destruct (select_where _ _).
Qed.

(** ** The guarantees *)

(** C17: every variable that a set returns is normalized, in every reachable
    state: the keys of a set are distinct and trimmed, a value is a JSON text of
    the type of its variable, a reference variable has a usable identifier and
    no value, and the scopes of a variable are supported and distinct, which is
    what the resolution of variables relies on. *)
Theorem stored_variables_normalized s id org v :
  v_reachable s -> GetVariableSet id org s = Ok v ->
  NoDup (v_Key <$> vst_Variables v) /\ Forall (λ x, variable_ok x /\ normalized x) (vst_Variables v).
Proof.
  intros Hs%v_inv_reachable. unfold GetVariableSet, getVariableSet. destruct (select_where _ _) as [|x l]; [done|].
  intros [= <-]. simpl. split; [by apply read_keys|]. unfold getVariablesForSet. apply Forall_fmap, Forall_forall.
  intros w Hw. rewrite elem_of_stable_sort in Hw. apply elem_of_select_where in Hw as [Hw _].
  pose proof (read_variable_ok s w Hs Hw). split; [done|]. by apply variable_ok_normalized.
Qed.

(** The checks of the program and those of the database agree: a creation or
    an update that is a bad request was refused by the normalization; whatever
    passes it, no check constraint of the tables rejects. *)
Theorem variable_set_bad_request env variableSet s message :
  (fst (CreateVariableSet env variableSet s) = Err (BadRequest message) <->
     normalizeVariableSet variableSet = Err (BadRequest message))
  /\ (fst (UpdateVariableSet env variableSet s) = Err (BadRequest message) ->
     normalizeVariableSet variableSet = Err (BadRequest message)).
Proof.
  assert (forall A (m : vtx A), fst (RunSTx m s) = Err (BadRequest message) -> m s = Err (BadRequest message)) as Hrun.
  { intros A m. unfold RunSTx. destruct (m s) as [[a t]|e]; [done|]. by intros [= ->]. }
  assert (forall A (f : VariableSet -> vtx A) t, (forall v, normalizeVariableSet variableSet = Ok v -> no_bad_request (f v) t) ->
    (slift (normalizeVariableSet variableSet) ≫= f) t = Err (BadRequest message) ->
    normalizeVariableSet variableSet = Err (BadRequest message)) as Hnorm.
  { intros A f t Hf. unfold mbind, stx_bind, slift. destruct (normalizeVariableSet variableSet) as [v|e]; [|by intros [= ->]].
    intros E. by destruct (Hf v eq_refl message). }
  split; [split|].
  - intros E%Hrun. eapply Hnorm; [|exact E]. intros v Hv. apply normalizeVariableSet_ok in Hv as (Hok & _).
    apply no_bad_bind; [by apply ensure_references_no_bad|]. intros variables t [-> Hn]%ensure_references_ok.
    apply no_bad_bind; [|intros [] t _; apply insert_children_no_bad; by eapply named_list].
    intros m. unfold insert_set. destruct (negb _); [done|]. by destruct (_ || _).
  - intros E. unfold CreateVariableSet, RunSTx, mbind, stx_bind, slift. by rewrite E.
  - intros E%Hrun. unfold UpdateVariableSet in E. unfold mbind at 1, stx_bind at 1 in E.
    destruct (squery _ s) as [[old t]|e] eqn:Eq; [|exfalso; unfold squery, getVariableSet in Eq;
      destruct (select_where _ _); [by injection Eq as <-|done]].
    unfold mbind at 1, stx_bind at 1 in E.
    destruct (ensure_database_managed _ _ t) as [[[] t']|e] eqn:Ed.
    + eapply Hnorm; [|exact E]. intros v Hv. apply normalizeVariableSet_ok in Hv as (Hok & _).
      apply no_bad_bind; [by apply ensure_references_no_bad|]. intros variables u [-> Hn]%ensure_references_ok.
      apply no_bad_bind; [|intros [] u _; apply no_bad_bind; [done|intros [] u' _; apply insert_children_no_bad; by eapply named_list]].
      intros m. unfold update_set. destruct (negb _); [done|]. destruct (negb _); [done|]. by destruct (name_used _ _ _ _).
    + exfalso. unfold ensure_database_managed, mbind, stx_bind, sforbid in Ed.
      destruct (negb _); [injection Ed as <-; done|]. destruct (contains _ _); [injection Ed as <-; done|done].
Qed.

(** C18: a variable set is read back as it was written. A successful creation or
    update stores the normalized set: its applications in their order, its
    variables sorted by key, each with its default and its scoped values as JSON
    texts of the database, its references with the current names of the
    secrets, and new identifiers. It returns what a later read returns, and every
    other set is read as before. *)
Theorem variable_set_written env variableSet set s loaded s' :
  v_reachable s ->
  (CreateVariableSet env variableSet s = (Ok loaded, s') /\ set = new_set_id env)
  \/ (UpdateVariableSet env variableSet s = (Ok loaded, s') /\ set = vst_ID variableSet) ->
  GetVariableSet set (vst_OrganizationID variableSet) s' = Ok loaded
  /\ (forall id org, id <> set -> GetVariableSet id org s' = GetVariableSet id org s)
  /\ exists v variables l, normalizeVariableSet variableSet = Ok v /\ Forall2 (named s) (vst_Variables v) variables
       /\ Forall2 (stored set) variables l
       /\ loaded = with_children (vst_ApplicationIDs v) (stable_sort variable_less l) (set_row set v).
Proof.
  intros Hs%v_inv_reachable Hop.
  assert (stores env variableSet set s loaded s') as Hst.
  { destruct Hop as [[E ->]|[E ->]].
    - apply create_stores in E as [(e & ? & _)|(x & [= ->] & ? & _)]; done.
    - apply update_stores in E as [(e & ? & _)|(x & [= ->] & ? & _)]; done. }
  destruct Hst as (v & variables & t & rows & srows & Hv & Hn & Er & Hc & Hf & Hi & -> & Hl).
  pose proof (normalizeVariableSet_ok _ _ Hv) as (Hok & _ & Ha & _ & _ & Eo). rewrite Eo in *.
  assert (Forall variable_ok variables) as Hok' by (by eapply named_list). split_and!; [done| |].
  - intros id org Hne. etransitivity; [|by apply Hf].
    by eapply written_frame.
  - edestruct written_read as (l & Hst & Hread); [exact Hc|exact Hn|exact Hok'|exact Hi|].
    exists v, variables, l. split_and!; [done| |done|].
    + eapply Forall2_impl; [exact Hn|]. intros x y. unfold named, scoped_named, names_secret. by rewrite Er.
    + rewrite Hread in Hl. by injection Hl as <-.
Qed.

(** A deleted set is gone, and every other set is read as before. *)
Theorem variable_set_deleted id org s s' :
  v_reachable s -> DeleteVariableSetWithID id org s = (Ok tt, s') ->
  GetVariableSet id org s' = Err NotFound
  /\ forall id' org', id' <> id -> GetVariableSet id' org' s' = GetVariableSet id' org' s.
Proof. intros Hs%v_inv_reachable E. apply set_delete_ok in E as [(e & ? & _)|(_ & _ & ? & ?)]; done. Qed.
End tables.

(** ** Concrete instances *)

Module Demo.
#[export] Existing Instance printed_parser.
#[export] Existing Instance valid_jsonb.
#[export] Existing Instance valid_jsonb_laws.
#[export] Instance bytes : Collation := {| name_less := string_less |}.

Definition q (s : string) : string := String double_quote (s +:+ String double_quote "").

Definition demo_refs : references :=
  {| ref_Applications := [(uid 10, uid 1)]; ref_Channels := []; ref_Environments := [(uid 20, uid 1)];
     ref_DeploymentTargets := []; ref_CustomerOrganizations := [];
     ref_Secrets := [{| sec_ID := uid 30; sec_OrganizationID := uid 1; sec_CustomerOrganizationID := None; sec_Key := "TOKEN" |}];
     ref_GitManaged := [] |}.

Definition env_scope : VariableScope :=
  {| vs_CustomerOrganizationID := None; vs_EnvironmentID := Some (uid 20); vs_ChannelID := None;
     vs_DeploymentTargetID := None; vs_ApplicationID := None; vs_TargetTag := " "; vs_ProcessStepKey := "" |}.

Definition replicas : types_Variable :=
  {| v_ID := Nil; v_VariableSetID := Nil; v_Key := " replicas"; v_Type := VariableTypeNumber; v_IsRequired := false;
     v_DefaultValue := Some "2"; v_ReferenceID := ""; v_ReferenceName := "";
     v_ScopedValues := [{| sv_Scope := env_scope; sv_SortOrder := 0; sv_Value := Some "3.5e1"; sv_ReferenceID := "";
                           sv_ReferenceName := "" |}] |}.
Definition password : types_Variable :=
  {| v_ID := Nil; v_VariableSetID := Nil; v_Key := "password"; v_Type := VariableTypeSecretReference; v_IsRequired := true;
     v_DefaultValue := Some "null"; v_ReferenceID := uuid_string (uid 30); v_ReferenceName := "ignored"; v_ScopedValues := [] |}.

Definition demo_set : VariableSet :=
  {| vst_ID := Nil; vst_OrganizationID := uid 1; vst_Name := " base "; vst_Description := ""; vst_SortOrder := 1;
     vst_ApplicationIDs := [uid 10]; vst_Variables := [replicas; password] |}.

Definition demo_env (n : N) : venv :=
  {| new_set_id := uid n; new_variable_id := λ i, uid (n + 1 + N.of_nat i); new_scoped_id := λ i, uid (n + 100 + N.of_nat i) |}.

Definition s0 : vdb := set_refs demo_refs v_init.
Definition created := CreateVariableSet (demo_env 1000) demo_set s0.
Definition s1 : vdb := snd created.

Example create_demo :
  (λ v, (vst_Name v, vst_ApplicationIDs v, (λ x, (v_Key x, v_DefaultValue x, v_ReferenceName x,
      (λ sv, (sv_Value sv, vs_TargetTag (sv_Scope sv))) <$> v_ScopedValues x)) <$> vst_Variables v)) <$> fst created
  = Ok ("base", [uid 10], [("password", None, "TOKEN", []); ("replicas", Some "2", "", [(Some "3.5e1", "")])])
  /\ fst (CreateVariableSet (demo_env 2000) demo_set s1) = Err (AlreadyExists "could not scan created VariableSet")
  /\ fst (CreateVariableSet (demo_env 2000) (with_children [] [with_default (Some (q "2")) replicas] demo_set) s0)
     = Err invalid_variable
  /\ fst (DeleteVariableSetWithID (uid 1000) (uid 1) s1) = Ok tt.
Proof. vm_compute. done. Qed.

Lemma reachable0 : v_reachable s0.
Proof. apply rtc_once, v_refs. by apply (bool_decide_unpack _). Qed.
Lemma reachable1 : v_reachable s1.
Proof. eapply rtc_r; [apply reachable0|]. eapply (v_create s0 (demo_env 1000) demo_set). unfold s1, created. apply surjective_pairing. Qed.
End Demo.

Import Demo.

Lemma stored_variables_normalized_witness :
  exists v, GetVariableSet (uid 1000) (uid 1) s1 = Ok v /\ length (vst_Variables v) = 2
    /\ NoDup (v_Key <$> vst_Variables v) /\ Forall (λ x, variable_ok x /\ normalized x) (vst_Variables v).
Proof.
  eexists. split; [vm_compute; reflexivity|]. split; [reflexivity|].
  apply (stored_variables_normalized s1 (uid 1000) (uid 1)); [apply reachable1|vm_compute; reflexivity].
Defined.

Lemma variable_set_bad_request_witness :
  let bad := with_children [] [with_default (Some (q "2")) replicas] demo_set in
  normalizeVariableSet bad = Err (BadRequest "could not normalize Variable").
Proof.
  intros bad. apply (proj1 (proj1 (variable_set_bad_request (demo_env 2000) bad s0 "could not normalize Variable"))).
  vm_compute. reflexivity.
Defined.

Lemma variable_set_written_witness :
  GetVariableSet (uid 1000) (uid 1) s1 = fst created
  /\ exists v variables l, normalizeVariableSet demo_set = Ok v /\ Forall2 (named s0) (vst_Variables v) variables
       /\ Forall2 (stored (uid 1000)) variables l
       /\ fst created = Ok (with_children [uid 10] (stable_sort variable_less l) (set_row (uid 1000) v)).
Proof.
  assert (exists loaded, created = (Ok loaded, s1)) as [loaded E] by (eexists; vm_compute; reflexivity).
  destruct (variable_set_written (demo_env 1000) demo_set (uid 1000) s0 loaded s1 reachable0 (or_introl (conj E eq_refl)))
    as (Hget & _ & v & variables & l & Hv & Hn & Hst & El).
  rewrite E. split; [exact Hget|]. exists v, variables, l. split_and!; [done..|]. simpl. rewrite El. do 2 f_equal.
  vm_compute in Hv. injection Hv as <-. reflexivity.
Defined.

Lemma variable_set_deleted_witness :
  GetVariableSet (uid 1000) (uid 1) (snd (DeleteVariableSetWithID (uid 1000) (uid 1) s1)) = Err NotFound.
Proof.
  apply (variable_set_deleted (uid 1000) (uid 1) s1); [apply reachable1|vm_compute; reflexivity].
Defined.
