(* ===== verification/VariableSnapshots.v ===== *)
(** * Variable snapshots ([internal/db/variable_snapshots.go])

    The publication of a release bundle freezes the variables of its
    application: a canonical JSON text with its checksum, and the values that
    the scope of the bundle resolves. The encoding, the decoding, and the two
    tables of the migration 119. The column [created_at] and the configuration
    drift of deployments are left out. *)
From S2P Require Import Prelude GoStrings Uuid GoRegexp GoJson StepRedaction JsonDecode JsonStruct JsonRaw TaskStore Transaction VariableResolution VariableJson DeploymentProcess VariableSets.
Open Scope list_scope.

(** ** Data *)

(** What is read of a release bundle. *)
Record SnapshotOwner := {
  so_ReleaseBundleID : uuid; so_OrganizationID : uuid; so_ApplicationID : uuid; so_ChannelID : uuid }.

(** [VariableResolutionTraceEntry] as it is decoded. *)
Record TraceEntry := { tre_Source : string; tre_Scope : VariableScope; tre_Selected : bool; tre_Reason : string }.

(** A row of [VariableSnapshotValue]; the trace of [vv_Resolved] is in the
    column [vv_TraceColumn]. *)
Record VariableSnapshotValue := {
  vv_ID : uuid;
  vv_VariableSnapshotID : uuid;
  vv_OrganizationID : uuid;
  vv_Resolved : ResolvedVariable;
  vv_TraceColumn : string;
  vv_Trace : list TraceEntry;
}.

(** [vn_ResolutionMode], [vn_Variables] and [vn_Values] are no columns. *)
Record VariableSnapshot := {
  vn_ID : uuid;
  vn_OrganizationID : uuid;
  vn_ReleaseBundleID : uuid;
  vn_ApplicationID : uuid;
  vn_ChannelID : uuid;
  vn_CanonicalChecksum : string;
  vn_CanonicalPayload : string;
  vn_ResolutionMode : string;
  vn_Variables : list types_Variable;
  vn_Values : list VariableSnapshotValue;
}.

Record ndb := {
  nd_variables : vdb;
  nd_snapshots : list VariableSnapshot;
  nd_values : list VariableSnapshotValue;
}.

Definition set_variables (v : vdb) (s : ndb) : ndb :=
  {| nd_variables := v; nd_snapshots := nd_snapshots s; nd_values := nd_values s |}.
Definition set_snapshots (n : list VariableSnapshot) (v : list VariableSnapshotValue) (s : ndb) : ndb :=
  {| nd_variables := nd_variables s; nd_snapshots := n; nd_values := v |}.

Definition VariableSnapshotResolutionModeLegacy : string := "legacy".
Definition VariableSnapshotResolutionModeTarget : string := "target_resolved".

(** ** The canonical payload *)

Definition variableSnapshotCloneRawMessage (value : option string) : option string :=
  if bool_decide (default "" value = "") then None else value.

Definition variableSnapshotCandidateValue (t : VariableType) (value : option string) : option string :=
  if isReferenceVariableType t then None else variableSnapshotCloneRawMessage value.

Definition variableSnapshotCanonicalValue (v : ResolvedVariable) : option string :=
  if rv_Redacted v || negb (hasVariableJSONValue (rv_Value v)) then None else rv_Value v.

Definition with_value (value : option string) (v : ResolvedVariable) : ResolvedVariable :=
  {| rv_VariableSetID := rv_VariableSetID v; rv_VariableID := rv_VariableID v; rv_Key := rv_Key v;
     rv_Type := rv_Type v; rv_IsRequired := rv_IsRequired v; rv_Status := rv_Status v; rv_Source := rv_Source v;
     rv_Value := value; rv_ReferenceID := rv_ReferenceID v; rv_ReferenceName := rv_ReferenceName v;
     rv_Redacted := rv_Redacted v; rv_Trace := rv_Trace v |}.

(** The tags are those of a resolved variable. *)
Definition canonicalVariableSnapshotValue (v : ResolvedVariable) : option string :=
  variable_json (with_value (variableSnapshotCanonicalValue v) v).

Definition canonicalVariableSnapshotScopedValue (t : VariableType) (sv : VariableScopedValue) : option string :=
  value ← raw_field (variableSnapshotCandidateValue t (sv_Value sv));
  Some (json_struct [("scope", Some (scope_json (sv_Scope sv))); ("sortOrder", Some (json_int (sv_SortOrder sv)));
    ("value", value); ("referenceId", omitempty (sv_ReferenceID sv)); ("referenceName", omitempty (sv_ReferenceName sv))]).

(** The two comparisons of [sort.SliceStable]. *)
Definition scoped_less : VariableScopedValue -> VariableScopedValue -> bool :=
  less_then sv_SortOrder (less_str_by (λ sv, Key (sv_Scope sv))).
Definition candidate_variable_less (x y : types_Variable) : bool :=
  if negb (bool_decide (v_Key x = v_Key y)) then string_less (v_Key x) (v_Key y) else
  if negb (bool_decide (uuid_string (v_VariableSetID x) = uuid_string (v_VariableSetID y)))
  then string_less (uuid_string (v_VariableSetID x)) (uuid_string (v_VariableSetID y)) else
  string_less (uuid_string (v_ID x)) (uuid_string (v_ID y)).

Definition canonicalVariableSnapshotVariable (v : types_Variable) : option string :=
  scoped ← mapM (canonicalVariableSnapshotScopedValue (v_Type v)) (stable_sort scoped_less (v_ScopedValues v));
  value ← raw_field (variableSnapshotCandidateValue (v_Type v) (v_DefaultValue v));
  Some (json_struct [("variableSetId", text (uuid_string (v_VariableSetID v))); ("variableId", text (uuid_string (v_ID v)));
    ("key", text (v_Key v)); ("type", text (variable_type_string (v_Type v)));
    ("isRequired", Some (json_bool (v_IsRequired v))); ("defaultValue", value);
    ("referenceId", omitempty (v_ReferenceID v)); ("referenceName", omitempty (v_ReferenceName v));
    ("scopedValues", Some (json_list scoped))]).

Definition canonicalVariableSnapshotVariables (variables : list types_Variable) : list types_Variable :=
  stable_sort candidate_variable_less variables.

(** [None]: a value cannot be marshalled. *)
Definition canonical_payload (b : SnapshotOwner) (values : list ResolvedVariable) (variables : list types_Variable)
    : option string :=
  values ← mapM canonicalVariableSnapshotValue (stable_sort variable_less values);
  variables ← mapM canonicalVariableSnapshotVariable (canonicalVariableSnapshotVariables variables);
  Some (json_struct [("releaseBundleId", text (uuid_string (so_ReleaseBundleID b)));
    ("applicationId", text (uuid_string (so_ApplicationID b))); ("channelId", text (uuid_string (so_ChannelID b)));
    ("resolutionMode", omitempty VariableSnapshotResolutionModeTarget);
    ("variables", match variables with [] => None | _ => Some (json_list variables) end);
    ("values", Some (json_list values))]).

Definition canonicalizeVariableSnapshot `{Crypto} (b : SnapshotOwner) (values : list ResolvedVariable)
    (variables : list types_Variable) : option (string * string) :=
  payload ← canonical_payload b values variables; Some (payload, "sha256:" +:+ sha256_hex payload).

(** ** Reading a payload *)

Record canonicalScopedValue := {
  csv_Scope : VariableScope; csv_SortOrder : Z; csv_Value : option string; csv_ReferenceID : string;
  csv_ReferenceName : string }.
Record canonicalVariable := {
  cvr_VariableSetID : string; cvr_VariableID : string; cvr_Key : string; cvr_Type : string; cvr_IsRequired : bool;
  cvr_DefaultValue : option string; cvr_ReferenceID : string; cvr_ReferenceName : string;
  cvr_ScopedValues : list canonicalScopedValue }.

Definition no_scope : VariableScope :=
  {| vs_CustomerOrganizationID := None; vs_EnvironmentID := None; vs_ChannelID := None; vs_DeploymentTargetID := None;
     vs_ApplicationID := None; vs_TargetTag := ""; vs_ProcessStepKey := "" |}.
Definition no_scoped_value : canonicalScopedValue :=
  {| csv_Scope := no_scope; csv_SortOrder := 0; csv_Value := None; csv_ReferenceID := ""; csv_ReferenceName := "" |}.
Definition no_variable : canonicalVariable :=
  {| cvr_VariableSetID := ""; cvr_VariableID := ""; cvr_Key := ""; cvr_Type := ""; cvr_IsRequired := false;
     cvr_DefaultValue := None; cvr_ReferenceID := ""; cvr_ReferenceName := ""; cvr_ScopedValues := [] |}.
Definition no_trace : TraceEntry :=
  {| tre_Source := ""; tre_Scope := no_scope; tre_Selected := false; tre_Reason := "" |}.

Section decode.
Context `{UuidParser}.

(** A [*uuid.UUID]. *)
Definition read_uuid (_ : option uuid) (v : json) : option (option uuid) :=
  match v with JNull => Some None | JString s => Some <$> uuid_Parse s | _ => None end.

Definition read_scope (f : list (string * json)) : option VariableScope :=
  customer ← read_field "customerOrganizationId" read_uuid None f;
  environment ← read_field "environmentId" read_uuid None f;
  channel ← read_field "channelId" read_uuid None f;
  target ← read_field "deploymentTargetId" read_uuid None f;
  application ← read_field "applicationId" read_uuid None f;
  tag ← read_field "targetTag" read_string "" f;
  key ← read_field "processStepKey" read_string "" f;
  Some {| vs_CustomerOrganizationID := customer; vs_EnvironmentID := environment; vs_ChannelID := channel;
          vs_DeploymentTargetID := target; vs_ApplicationID := application; vs_TargetTag := tag;
          vs_ProcessStepKey := key |}.

Definition read_trace_entry (f : list (string * json)) : option TraceEntry :=
  source ← read_field "source" read_string "" f;
  scope ← read_field "scope" (read_struct read_scope) no_scope f;
  selected ← read_field "selected" read_bool false f;
  reason ← read_field "reason" read_string "" f;
  Some {| tre_Source := source; tre_Scope := scope; tre_Selected := selected; tre_Reason := reason |}.
Definition read_trace : list TraceEntry -> json -> option (list TraceEntry) :=
  read_list (read_struct read_trace_entry) no_trace.

Definition read_canonical_scoped_value (f : list (string * string)) : option canonicalScopedValue :=
  scope ← read_field "scope" (read_plain (read_struct read_scope)) no_scope f;
  order ← read_field "sortOrder" (read_plain read_int) 0%Z f;
  value ← read_field "value" read_raw None f;
  id ← read_field "referenceId" (read_plain read_string) "" f;
  name ← read_field "referenceName" (read_plain read_string) "" f;
  Some {| csv_Scope := scope; csv_SortOrder := order; csv_Value := value; csv_ReferenceID := id; csv_ReferenceName := name |}.

Definition read_canonical_variable (f : list (string * string)) : option canonicalVariable :=
  set ← read_field "variableSetId" (read_plain read_string) "" f;
  variable ← read_field "variableId" (read_plain read_string) "" f;
  key ← read_field "key" (read_plain read_string) "" f;
  type ← read_field "type" (read_plain read_string) "" f;
  required ← read_field "isRequired" (read_plain read_bool) false f;
  value ← read_field "defaultValue" read_raw None f;
  id ← read_field "referenceId" (read_plain read_string) "" f;
  name ← read_field "referenceName" (read_plain read_string) "" f;
  scoped ← read_field "scopedValues" (read_raw_list (read_raw_struct read_canonical_scoped_value) no_scoped_value) [] f;
  Some {| cvr_VariableSetID := set; cvr_VariableID := variable; cvr_Key := key; cvr_Type := type;
          cvr_IsRequired := required; cvr_DefaultValue := value; cvr_ReferenceID := id; cvr_ReferenceName := name;
          cvr_ScopedValues := scoped |}.

(** Of a value only the errors matter: nothing reads what is decoded. *)
Definition read_canonical_value (f : list (string * string)) : option unit :=
  _ ← read_field "variableSetId" (read_plain read_string) "" f;
  _ ← read_field "variableId" (read_plain read_string) "" f;
  _ ← read_field "key" (read_plain read_string) "" f;
  _ ← read_field "type" (read_plain read_string) "" f;
  _ ← read_field "isRequired" (read_plain read_bool) false f;
  _ ← read_field "status" (read_plain read_string) "" f;
  _ ← read_field "source" (read_plain read_string) "" f;
  _ ← read_field "value" read_raw None f;
  _ ← read_field "referenceId" (read_plain read_string) "" f;
  _ ← read_field "referenceName" (read_plain read_string) "" f;
  _ ← read_field "redacted" (read_plain read_bool) false f;
  _ ← read_field "trace" (read_plain read_trace) [] f;
  Some tt.

(** The resolution mode and the variables. *)
Definition read_canonical_snapshot (f : list (string * string)) : option (string * list canonicalVariable) :=
  _ ← read_field "releaseBundleId" (read_plain read_string) "" f;
  _ ← read_field "applicationId" (read_plain read_string) "" f;
  _ ← read_field "channelId" (read_plain read_string) "" f;
  mode ← read_field "resolutionMode" (read_plain read_string) "" f;
  variables ← read_field "variables" (read_raw_list (read_raw_struct read_canonical_variable) no_variable) [] f;
  _ ← read_field "values" (read_raw_list (read_raw_struct read_canonical_value) tt) [] f;
  Some (mode, variables).

(** [types.VariableType(text)] *)
Definition variable_type_of (s : string) : VariableType :=
  if bool_decide (s = "string") then VariableTypeString else if bool_decide (s = "number") then VariableTypeNumber else
  if bool_decide (s = "boolean") then VariableTypeBoolean else if bool_decide (s = "json") then VariableTypeJSON else
  if bool_decide (s = "secret_reference") then VariableTypeSecretReference else
  if bool_decide (s = "account_reference") then VariableTypeAccountReference else
  if bool_decide (s = "certificate_reference") then VariableTypeCertificateReference else VariableTypeOther s.

Definition hydrated_scoped_value (c : canonicalScopedValue) : VariableScopedValue :=
  {| sv_Scope := csv_Scope c; sv_SortOrder := csv_SortOrder c; sv_Value := variableSnapshotCloneRawMessage (csv_Value c);
     sv_ReferenceID := csv_ReferenceID c; sv_ReferenceName := csv_ReferenceName c |}.

Definition hydrated_variable (c : canonicalVariable) : option types_Variable :=
  set ← uuid_Parse (cvr_VariableSetID c);
  variable ← uuid_Parse (cvr_VariableID c);
  Some {| v_ID := variable; v_VariableSetID := set; v_Key := cvr_Key c; v_Type := variable_type_of (cvr_Type c);
          v_IsRequired := cvr_IsRequired c; v_DefaultValue := variableSnapshotCloneRawMessage (cvr_DefaultValue c);
          v_ReferenceID := cvr_ReferenceID c; v_ReferenceName := cvr_ReferenceName c;
          v_ScopedValues := hydrated_scoped_value <$> cvr_ScopedValues c |}.

(** The mode and the variables of a payload; [None] is an error. *)
Definition snapshot_resolution (payload : string) : option (string * list types_Variable) :=
  '(mode, variables) ← unmarshal (read_raw_struct read_canonical_snapshot) ("", []) payload;
  if bool_decide (mode = "") then Some (VariableSnapshotResolutionModeLegacy, []) else
  if negb (bool_decide (mode = VariableSnapshotResolutionModeTarget)) then None else
  variables ← mapM hydrated_variable variables; Some (mode, variables).

Definition hydrateVariableSnapshotResolution (n : VariableSnapshot) : result apierror VariableSnapshot :=
  match snapshot_resolution (vn_CanonicalPayload n) with
  | Some (mode, variables) =>
      Ok {| vn_ID := vn_ID n; vn_OrganizationID := vn_OrganizationID n; vn_ReleaseBundleID := vn_ReleaseBundleID n;
            vn_ApplicationID := vn_ApplicationID n; vn_ChannelID := vn_ChannelID n;
            vn_CanonicalChecksum := vn_CanonicalChecksum n; vn_CanonicalPayload := vn_CanonicalPayload n;
            vn_ResolutionMode := mode; vn_Variables := variables; vn_Values := vn_Values n |}
  | None => Err (Internal "could not decode VariableSnapshot resolution data")
  end.
End decode.

(** ** The tables *)

Section tables.
Context `{Collation, UuidParser, Jsonb, Crypto}.

(** [JOIN VariableSetApplication ... ORDER BY sort_order, name, id] *)
Definition getVariableSetsForApplication (org application : uuid) (s : vdb) : list VariableSet :=
  hydrateVariableSet s <$> stable_sort set_less
    (v ← select_where (λ v, bool_decide (vst_OrganizationID v = org)) (VariableSets s);
     (λ _, v) <$> select_where (λ a, bool_decide (sa_SetID a = vst_ID v) && bool_decide (sa_OrganizationID a = org)
       && bool_decide (sa_ApplicationID a = application)) (SetApplications s)).

Definition variableSnapshotJSONValue (v : ResolvedVariable) : option string :=
  if rv_Redacted v || negb (hasVariableJSONValue (rv_Value v)) then None else rv_Value v.

(** A row for [CopyFrom]; [None] where PostgreSQL refuses a [JSONB] text. *)
Definition value_row (id snapshot org : uuid) (v : ResolvedVariable) : option VariableSnapshotValue :=
  value ← match variableSnapshotJSONValue v with None => Some None | Some t => Some <$> jsonb_text t end;
  trace ← jsonb_text (trace_json (rv_Trace v));
  Some {| vv_ID := id; vv_VariableSnapshotID := snapshot; vv_OrganizationID := org;
          vv_Resolved := with_value value v; vv_TraceColumn := trace; vv_Trace := [] |}.

(** The constraints of the table. *)
Definition value_row_ok (rows : list VariableSnapshotValue) (w : VariableSnapshotValue) : bool :=
  isKnownVariableType (rv_Type (vv_Resolved w)) && negb (contains (vv_ID <$> rows) (vv_ID w))
  && negb (exists_where (λ x, bool_decide (vv_VariableSnapshotID x = vv_VariableSnapshotID w)
       && bool_decide (rv_VariableID (vv_Resolved x) = rv_VariableID (vv_Resolved w))) rows).

Definition insert_value_row (row : option VariableSnapshotValue) : stx ndb unit := λ s,
  match row with
  | Some w => if value_row_ok (nd_values s) w then Ok (tt, set_snapshots (nd_snapshots s) (nd_values s ++ [w]) s)
              else Err (Internal "could not insert VariableSnapshotValue rows")
  | None => Err (Internal "could not insert VariableSnapshotValue rows")
  end.

Definition value_where (snapshot org : uuid) (w : VariableSnapshotValue) : bool :=
  bool_decide (vv_VariableSnapshotID w = snapshot) && bool_decide (vv_OrganizationID w = org).

Fixpoint insert_value_rows (rows : list (option VariableSnapshotValue)) : stx ndb unit :=
  match rows with [] => mret tt | row :: rows => insert_value_row row ≫= λ _, insert_value_rows rows end.

Definition replaceVariableSnapshotValues (new_id : nat -> uuid) (snapshot org : uuid) (resolved : list ResolvedVariable)
    : stx ndb unit :=
  smodify (λ s, set_snapshots (nd_snapshots s) (select_where (λ w, negb (value_where snapshot org w)) (nd_values s)) s) ≫= λ _,
  insert_value_rows (imap (λ i v, value_row (new_id i) snapshot org v) resolved).

(** [ORDER BY key, variable_set_id, variable_id] *)
Definition value_less (x y : VariableSnapshotValue) : bool :=
  let a := vv_Resolved x in let b := vv_Resolved y in
  if negb (bool_decide (rv_Key a = rv_Key b)) then name_less (rv_Key a) (rv_Key b) else
  if negb (bool_decide (rv_VariableSetID a = rv_VariableSetID b))
  then string_less (uuid_string (rv_VariableSetID a)) (uuid_string (rv_VariableSetID b)) else
  string_less (uuid_string (rv_VariableID a)) (uuid_string (rv_VariableID b)).

Definition scan_value_row (w : VariableSnapshotValue) : option VariableSnapshotValue :=
  trace ← (if bool_decide (vv_TraceColumn w = "") then Some [] else json_parse (vv_TraceColumn w) ≫= read_trace []);
  Some {| vv_ID := vv_ID w; vv_VariableSnapshotID := vv_VariableSnapshotID w; vv_OrganizationID := vv_OrganizationID w;
          vv_Resolved := with_value (if hasVariableJSONValue (rv_Value (vv_Resolved w)) then rv_Value (vv_Resolved w)
                                     else None) (vv_Resolved w);
          vv_TraceColumn := vv_TraceColumn w; vv_Trace := trace |}.

Definition getVariableSnapshotValues (snapshot org : uuid) (s : ndb) : result apierror (list VariableSnapshotValue) :=
  match mapM scan_value_row (stable_sort value_less (select_where (value_where snapshot org) (nd_values s))) with
  | Some l => Ok l
  | None => Err (Internal "could not decode VariableSnapshotValue trace")
  end.

Definition with_values (l : list VariableSnapshotValue) (n : VariableSnapshot) : VariableSnapshot :=
  {| vn_ID := vn_ID n; vn_OrganizationID := vn_OrganizationID n; vn_ReleaseBundleID := vn_ReleaseBundleID n;
     vn_ApplicationID := vn_ApplicationID n; vn_ChannelID := vn_ChannelID n;
     vn_CanonicalChecksum := vn_CanonicalChecksum n; vn_CanonicalPayload := vn_CanonicalPayload n;
     vn_ResolutionMode := vn_ResolutionMode n; vn_Variables := vn_Variables n; vn_Values := l |}.

(** The values and the decoded payload of a row. *)
Definition hydrate_snapshot (n : VariableSnapshot) (s : ndb) : result apierror VariableSnapshot :=
  getVariableSnapshotValues (vn_ID n) (vn_OrganizationID n) s ≫= λ values,
  hydrateVariableSnapshotResolution (with_values values n).

Definition getVariableSnapshot (id org : uuid) (s : ndb) : result apierror VariableSnapshot :=
  match select_where (λ n, bool_decide (vn_ID n = id) && bool_decide (vn_OrganizationID n = org)) (nd_snapshots s) with
  | n :: _ => hydrate_snapshot n s
  | [] => Err NotFound
  end.
Definition GetVariableSnapshot (id org : uuid) (s : ndb) : result apierror VariableSnapshot := getVariableSnapshot id org s.

(** A bundle has one snapshot at most; the bundle and its keys exist, since it
    was read in this transaction. *)
Definition insert_snapshot_row (n : VariableSnapshot) : stx ndb unit := λ s,
  if contains (vn_ID <$> nd_snapshots s) (vn_ID n)
     || contains (vn_ReleaseBundleID <$> nd_snapshots s) (vn_ReleaseBundleID n)
  then Err (Internal "could not collect VariableSnapshot")
  else Ok (tt, set_snapshots (nd_snapshots s ++ [n]) (nd_values s) s).

(** The keys that the database generates. *)
Record nenv := { new_variable_snapshot_id : uuid; new_value_id : nat -> uuid }.

Definition bundle_scope (b : SnapshotOwner) : VariableResolutionScope :=
  {| rs_CustomerOrganizationID := None; rs_EnvironmentID := None; rs_ChannelID := Some (so_ChannelID b);
     rs_DeploymentTargetID := None; rs_ApplicationID := Some (so_ApplicationID b); rs_TargetTags := [];
     rs_ProcessStepKey := "" |}.

Definition resolve_for_bundle (b : SnapshotOwner) (sets : list VariableSet) : stx ndb (list ResolvedVariable) :=
  if bool_decide (length sets = 0) then mret [] else
  zoom nd_variables set_variables
    (ResolveVariablesPreview (so_OrganizationID b) (vst_ID <$> sets) (bundle_scope b) []).

Definition new_snapshot_row (id : uuid) (b : SnapshotOwner) (payload checksum : string) : VariableSnapshot :=
  {| vn_ID := id; vn_OrganizationID := so_OrganizationID b; vn_ReleaseBundleID := so_ReleaseBundleID b;
     vn_ApplicationID := so_ApplicationID b; vn_ChannelID := so_ChannelID b; vn_CanonicalChecksum := checksum;
     vn_CanonicalPayload := payload; vn_ResolutionMode := ""; vn_Variables := []; vn_Values := [] |}.

Definition createVariableSnapshotForReleaseBundle (env : nenv) (b : SnapshotOwner) : stx ndb VariableSnapshot :=
  sreads (λ s, getVariableSetsForApplication (so_OrganizationID b) (so_ApplicationID b) (nd_variables s)) ≫= λ sets,
  resolve_for_bundle b sets ≫= λ resolved,
  match canonicalizeVariableSnapshot b resolved (sets ≫= vst_Variables) with
  | None => sthrow (Internal "could not canonicalize VariableSnapshot")
  | Some (payload, checksum) =>
      let row := new_snapshot_row (new_variable_snapshot_id env) b payload checksum in
      insert_snapshot_row row ≫= λ _,
      replaceVariableSnapshotValues (new_value_id env) (vn_ID row) (so_OrganizationID b) resolved ≫= λ _,
      squery (hydrate_snapshot row)
  end.
End tables.
