(* ===== verification/Retention.v ===== *)
(** * Retention policies ([internal/db/retention_policies.go],
    [internal/types/retention_policy.go])

    Which releases, failed tasks and step logs a cleanup may remove: the policies,
    the preview of a cleanup and the dry-run jobs. Times are microseconds; a
    window of days is that many times 24 hours, since the clock is UTC. The
    columns [created_at] and [updated_at] of policies and jobs are left out. *)
From S2P Require Import Prelude GoStrings Uuid TaskStore Transaction Lifecycle.
Open Scope list_scope.

(** ** Data *)

Record RetentionPolicy := {
  rp_ID : uuid;
  rp_OrganizationID : uuid;
  rp_Name : string;
  rp_Description : string;
  rp_KeepLastSuccessfulReleases : Z;
  rp_FailedTaskRetentionDays : Z;
  rp_ProductionFailedTaskRetentionDays : Z;
  rp_StepLogRetentionDays : Z;
  rp_ProtectCurrentlyDeployedReleases : bool;
  rp_ProtectRetentionProtectedReleases : bool;
  rp_MinimumAuditRetentionDays : Z;
}.

(** The row of [ReleaseBundle], as far as the queries read it. *)
Record Release := {
  rel_ID : uuid;
  rel_OrganizationID : uuid;
  rel_ApplicationID : uuid;
  rel_ReleaseNumber : string;
  rel_Status : ReleaseBundleStatus;
  rel_CreatedAt : Z;
  rel_PublishedAt : option Z;
  rel_RetentionProtected : bool;
}.

Record Environment := { env_ID : uuid; env_OrganizationID : uuid; env_IsProduction : bool }.
Record StepLog := { lc_TaskID : uuid; lc_OrganizationID : uuid; lc_CreatedAt : Z }.

Record retentionReleaseCandidateRow := {
  row_releaseBundleID : uuid;
  row_applicationID : uuid;
  row_releaseNumber : string;
  row_status : ReleaseBundleStatus;
  row_publishedAt : option Z;
  row_retentionProtected : bool;
  row_lastSuccessfulAt : option Z;
  row_successfulRank : Z;
  row_currentlyDeployed : bool;
}.

Record RetentionReleaseCandidate := {
  rc_ReleaseBundleID : uuid;
  rc_ApplicationID : uuid;
  rc_ReleaseNumber : string;
  rc_Status : ReleaseBundleStatus;
  rc_PublishedAt : option Z;
  rc_LastSuccessfulAt : option Z;
  rc_SuccessfulRank : Z;
  rc_Reason : string;
}.

Record RetentionTaskCandidate := {
  tc_TaskID : uuid;
  tc_ReleaseBundleID : uuid;
  tc_ApplicationID : uuid;
  tc_EnvironmentID : uuid;
  tc_DeploymentTargetID : uuid;
  tc_Status : TaskStatus;
  tc_CompletedAt : Z;
  tc_RetentionDays : Z;
  tc_Reason : string;
}.

Record RetentionStepLogCandidate := {
  sl_TaskID : uuid; sl_ChunkCount : Z; sl_OldestAt : Z; sl_NewestAt : Z; sl_Reason : string }.

Inductive RetentionSafetyReason :=
| RetentionSafetyCurrentlyDeployed | RetentionSafetyProtectedRelease | RetentionSafetyAuditMinimum
| RetentionSafetyRecentSuccessRank.

Record RetentionSafetyBlock := {
  sb_ResourceType : string; sb_ResourceID : uuid; sb_Reason : RetentionSafetyReason; sb_Message : string }.

Record RetentionCleanupPreview := {
  pv_Policy : RetentionPolicy;
  pv_GeneratedAt : Z;
  pv_ReleaseCandidates : list RetentionReleaseCandidate;
  pv_FailedTaskCandidates : list RetentionTaskCandidate;
  pv_StepLogCandidates : list RetentionStepLogCandidate;
  pv_SafetyBlocks : list RetentionSafetyBlock;
}.

Record RetentionCleanupJob := {
  job_ID : uuid;
  job_OrganizationID : uuid;
  job_RetentionPolicyID : uuid;
  job_ActorUserAccountID : option uuid;
  job_DryRun : bool;
  job_Status : string;
  job_ReleaseCandidateCount : Z;
  job_FailedTaskCandidateCount : Z;
  job_StepLogCandidateCount : Z;
  job_SafetyBlockCount : Z;
  job_Plan : RetentionCleanupPreview;
  job_Message : string;
}.

Record CreateRetentionPolicyRequest := {
  cr_OrganizationID : uuid;
  cr_Name : string;
  cr_Description : string;
  cr_KeepLastSuccessfulReleases : Z;
  cr_FailedTaskRetentionDays : Z;
  cr_ProductionFailedTaskRetentionDays : Z;
  cr_StepLogRetentionDays : Z;
  cr_ProtectCurrentlyDeployedReleases : bool;
  cr_ProtectRetentionProtectedReleases : bool;
  cr_MinimumAuditRetentionDays : Z;
}.

(** [None] is the zero time, which stands for the clock. *)
Record RetentionCleanupRequest := {
  rq_OrganizationID : uuid; rq_PolicyID : uuid; rq_ActorUserID : uuid; rq_DryRun : bool; rq_Now : option Z }.

(** The tables; of the table [Task], the deployment tasks, which are the only
    ones that the queries read. *)
Record rdb := {
  r_Tasks : list Task;
  Releases : list Release;
  r_Environments : list Environment;
  StepLogs : list StepLog;
  Policies : list RetentionPolicy;
  Jobs : list RetentionCleanupJob;
}.

Record renv := { r_clock : Z; r_new_id : uuid }.

Notation rtx := (stx rdb).

Definition set_policies (l : list RetentionPolicy) (s : rdb) : rdb :=
  {| r_Tasks := r_Tasks s; Releases := Releases s; r_Environments := r_Environments s; StepLogs := StepLogs s;
     Policies := l; Jobs := Jobs s |}.
Definition set_jobs (l : list RetentionCleanupJob) (s : rdb) : rdb :=
  {| r_Tasks := r_Tasks s; Releases := Releases s; r_Environments := r_Environments s; StepLogs := StepLogs s;
     Policies := Policies s; Jobs := l |}.

(** ** Policies *)

Definition validateCreateRetentionPolicyRequest (r : CreateRetentionPolicyRequest)
    : result apierror CreateRetentionPolicyRequest :=
  let name := TrimSpace (cr_Name r) in
  fail_if (is_nil (cr_OrganizationID r)) (BadRequest "organizationId is required") ≫= λ _,
  fail_if (bool_decide (name = "")) (BadRequest "name is required") ≫= λ _,
  fail_if (cr_KeepLastSuccessfulReleases r <? 0)%Z
    (BadRequest "keepLastSuccessfulReleases must be greater than or equal to 0") ≫= λ _,
  fail_if (cr_FailedTaskRetentionDays r <? 0)%Z
    (BadRequest "failedTaskRetentionDays must be greater than or equal to 0") ≫= λ _,
  fail_if (cr_ProductionFailedTaskRetentionDays r <? 0)%Z
    (BadRequest "productionFailedTaskRetentionDays must be greater than or equal to 0") ≫= λ _,
  fail_if (cr_StepLogRetentionDays r <? 0)%Z
    (BadRequest "stepLogRetentionDays must be greater than or equal to 0") ≫= λ _,
  fail_if (cr_MinimumAuditRetentionDays r <? 0)%Z
    (BadRequest "minimumAuditRetentionDays must be greater than or equal to 0") ≫= λ _,
  Ok {| cr_OrganizationID := cr_OrganizationID r; cr_Name := name; cr_Description := TrimSpace (cr_Description r);
        cr_KeepLastSuccessfulReleases := cr_KeepLastSuccessfulReleases r;
        cr_FailedTaskRetentionDays := cr_FailedTaskRetentionDays r;
        cr_ProductionFailedTaskRetentionDays := cr_ProductionFailedTaskRetentionDays r;
        cr_StepLogRetentionDays := cr_StepLogRetentionDays r;
        cr_ProtectCurrentlyDeployedReleases := cr_ProtectCurrentlyDeployedReleases r;
        cr_ProtectRetentionProtectedReleases := cr_ProtectRetentionProtectedReleases r;
        cr_MinimumAuditRetentionDays := cr_MinimumAuditRetentionDays r |}.

Definition new_policy (id : uuid) (r : CreateRetentionPolicyRequest) : RetentionPolicy :=
  {| rp_ID := id; rp_OrganizationID := cr_OrganizationID r; rp_Name := cr_Name r; rp_Description := cr_Description r;
     rp_KeepLastSuccessfulReleases := cr_KeepLastSuccessfulReleases r;
     rp_FailedTaskRetentionDays := cr_FailedTaskRetentionDays r;
     rp_ProductionFailedTaskRetentionDays := cr_ProductionFailedTaskRetentionDays r;
     rp_StepLogRetentionDays := cr_StepLogRetentionDays r;
     rp_ProtectCurrentlyDeployedReleases := cr_ProtectCurrentlyDeployedReleases r;
     rp_ProtectRetentionProtectedReleases := cr_ProtectRetentionProtectedReleases r;
     rp_MinimumAuditRetentionDays := cr_MinimumAuditRetentionDays r |}.

(** The five [INTEGER] columns. *)
Definition policy_fits (p : RetentionPolicy) : bool :=
  forallb (λ z, (z <=? 2147483647)%Z) [rp_KeepLastSuccessfulReleases p; rp_FailedTaskRetentionDays p;
    rp_ProductionFailedTaskRetentionDays p; rp_StepLogRetentionDays p; rp_MinimumAuditRetentionDays p].

Definition CreateRetentionPolicy (env : renv) (request : CreateRetentionPolicyRequest) (s : rdb)
    : result apierror RetentionPolicy * rdb :=
  match validateCreateRetentionPolicyRequest request with
  | Err e => (Err e, s)
  | Ok r =>
      let p := new_policy (r_new_id env) r in
      if negb (policy_fits p) then (Err (Internal "could not insert RetentionPolicy"), s) else
      if exists_where (λ q, bool_decide (rp_ID q = rp_ID p) || bool_decide (rp_OrganizationID q = rp_OrganizationID p)
           && bool_decide (rp_Name q = rp_Name p)) (Policies s)
      then (Err (AlreadyExists "could not insert RetentionPolicy"), s)
      else (Ok p, set_policies (Policies s ++ [p]) s)
  end.

Definition GetRetentionPolicy (id org : uuid) (s : rdb) : result apierror RetentionPolicy :=
  fail_if (is_nil org) (BadRequest "organizationId is required") ≫= λ _,
  fail_if (is_nil id) (BadRequest "retentionPolicyId is required") ≫= λ _,
  match select_where (λ p, bool_decide (rp_ID p = id) && bool_decide (rp_OrganizationID p = org)) (Policies s) with
  | p :: _ => Ok p
  | [] => Err NotFound
  end.

(** ** Releases *)

(** [COALESCE(t.completed_at, t.started_at, t.queued_at)] *)
Definition finished (t : Task) : Z := default (default (task_QueuedAt t) (task_StartedAt t)) (task_CompletedAt t).

(** [ORDER BY finished DESC, queue_order DESC, id DESC]; a UUID sorts like its text. *)
Definition id_desc (x y : Task) : bool := string_less (uuid_string (task_ID y)) (uuid_string (task_ID x)).
Definition newest_first : Task -> Task -> bool :=
  less_then (λ t, - finished t)%Z (less_then (λ t, - task_QueueOrder t)%Z id_desc).

(** The first row of a [DISTINCT ON] group. *)
Definition newest (l : list Task) : option Task := head (stable_sort newest_first l).

Definition succeeded (org : uuid) (s : rdb) : list Task :=
  select_where (λ t, bool_decide (task_OrganizationID t = org) && bool_decide (task_Status t = TaskStatusSucceeded))
    (r_Tasks s).

(** [successful_release_tasks] *)
Definition last_success (org : uuid) (s : rdb) (r : Release) : option Task :=
  newest (select_where (λ t, bool_decide (task_ReleaseBundleID t = rel_ID r)) (succeeded org s)).

Definition releases_of (org : uuid) (s : rdb) : list Release :=
  select_where (λ r, bool_decide (rel_OrganizationID r = org)) (Releases s).

(** [successful_ranked]: one more than the number of distinct tasks that come
    first in the partition of the application; [COALESCE(..., 0)]. *)
Definition newer_success (org : uuid) (s : rdb) (t : Task) (r : Release) : bool :=
  match last_success org s r with Some u => newest_first u t | None => false end.
Definition task_key (t : Task) : Z * Z * uuid := (finished t, task_QueueOrder t, task_ID t).
Definition successful_rank (org : uuid) (s : rdb) (r : Release) : Z :=
  match last_success org s r with
  | None => 0
  | Some t =>
      let others := select_where (λ q, bool_decide (rel_ApplicationID q = rel_ApplicationID r) && newer_success org s t q)
                      (releases_of org s) in
      1 + Z.of_nat (length (dedup_by id [] (omap (λ q, task_key <$> last_success org s q) others)))
  end.

(** [current_deployed]: the release of the newest success of each application,
    environment and target. *)
Definition place (t : Task) : uuid * uuid * uuid :=
  (task_ApplicationID t, task_EnvironmentID t, task_DeploymentTargetID t).
Definition newest_in_place (org : uuid) (s : rdb) (p : uuid * uuid * uuid) : option Task :=
  newest (select_where (λ t, bool_decide (place t = p)) (succeeded org s)).
Definition current_deployed (org : uuid) (s : rdb) : list uuid :=
  omap (λ t, task_ReleaseBundleID <$> newest_in_place org s (place t)) (dedup_by place [] (succeeded org s)).

Definition release_row (org : uuid) (s : rdb) (r : Release) (deployed : bool) : retentionReleaseCandidateRow :=
  {| row_releaseBundleID := rel_ID r; row_applicationID := rel_ApplicationID r;
     row_releaseNumber := rel_ReleaseNumber r; row_status := rel_Status r; row_publishedAt := rel_PublishedAt r;
     row_retentionProtected := rel_RetentionProtected r;
     row_lastSuccessfulAt := finished <$> last_success org s r;
     row_successfulRank := successful_rank org s r; row_currentlyDeployed := deployed |}.

(** [LEFT JOIN current_deployed]: one row for each match, or one without. *)
Definition release_rows (org : uuid) (s : rdb) (r : Release) : list retentionReleaseCandidateRow :=
  match select_where (λ id, bool_decide (id = rel_ID r)) (current_deployed org s) with
  | [] => [release_row org s r false]
  | matches => (λ _, release_row org s r true) <$> matches
  end.

Definition retained_status (r : Release) : bool :=
  match rel_Status r with ReleaseBundleStatusOther _ => false | _ => true end.

(** [ORDER BY COALESCE(last_successful_at, published_at, created_at), id] *)
Definition release_time (org : uuid) (s : rdb) (r : Release) : Z :=
  default (default (rel_CreatedAt r) (rel_PublishedAt r)) (finished <$> last_success org s r).
Definition ordered_releases (org : uuid) (s : rdb) : list Release :=
  stable_sort (less_then (release_time org s) (less_str_by (λ r, uuid_string (rel_ID r))))
    (select_where retained_status (releases_of org s)).

Definition safety_block (id : uuid) (reason : RetentionSafetyReason) (message : string) : RetentionSafetyBlock :=
  {| sb_ResourceType := "release_bundle"; sb_ResourceID := id; sb_Reason := reason; sb_Message := message |}.

Definition release_candidate (row : retentionReleaseCandidateRow) : RetentionReleaseCandidate :=
  {| rc_ReleaseBundleID := row_releaseBundleID row; rc_ApplicationID := row_applicationID row;
     rc_ReleaseNumber := row_releaseNumber row; rc_Status := row_status row; rc_PublishedAt := row_publishedAt row;
     rc_LastSuccessfulAt := row_lastSuccessfulAt row; rc_SuccessfulRank := row_successfulRank row;
     rc_Reason := "outside successful release retention window" |}.

(** One turn of the loop over the rows. *)
Definition judge (policy : RetentionPolicy) (row : retentionReleaseCandidateRow)
    : RetentionReleaseCandidate + RetentionSafetyBlock :=
  let id := row_releaseBundleID row in
  if row_currentlyDeployed row && rp_ProtectCurrentlyDeployedReleases policy
  then inr (safety_block id RetentionSafetyCurrentlyDeployed "release is currently deployed to at least one target")
  else if row_retentionProtected row && rp_ProtectRetentionProtectedReleases policy
  then inr (safety_block id RetentionSafetyProtectedRelease "release is marked retention protected")
  else if (0 <? row_successfulRank row)%Z && (row_successfulRank row <=? rp_KeepLastSuccessfulReleases policy)%Z
  then inr (safety_block id RetentionSafetyRecentSuccessRank "release is inside the successful release retention window")
  else inl (release_candidate row).

Definition left_of {A B} (x : A + B) : option A := match x with inl a => Some a | inr _ => None end.
Definition right_of {A B} (x : A + B) : option B := match x with inl _ => None | inr b => Some b end.

Definition queryRetentionReleaseCandidates (policy : RetentionPolicy) (s : rdb)
    : list RetentionReleaseCandidate * list RetentionSafetyBlock :=
  let org := rp_OrganizationID policy in
  let judged := judge policy <$> (ordered_releases org s ≫= release_rows org s) in
  (omap left_of judged, omap right_of judged).

(** ** Failed tasks and step logs *)

(** [AddDate(0, 0, -days)] *)
Definition days_before (now days : Z) : Z := (now - days * 86400000000)%Z.

Definition task_candidate (policy : RetentionPolicy) (now : Z) (t : Task) (completed : Z) (production : bool)
    : option RetentionTaskCandidate :=
  let days := if production then rp_ProductionFailedTaskRetentionDays policy else rp_FailedTaskRetentionDays policy in
  if (days_before now days <? completed)%Z then None else
  Some {| tc_TaskID := task_ID t; tc_ReleaseBundleID := task_ReleaseBundleID t;
          tc_ApplicationID := task_ApplicationID t; tc_EnvironmentID := task_EnvironmentID t;
          tc_DeploymentTargetID := task_DeploymentTargetID t; tc_Status := task_Status t; tc_CompletedAt := completed;
          tc_RetentionDays := days; tc_Reason := "failed deployment task exceeded retention window" |}.

(** The join with the environment of the task and the two conditions on it. *)
Definition failed_tasks (org : uuid) (s : rdb) : list (Task * Z * bool) :=
  stable_sort (less_then (λ x, snd (fst x)) (less_str_by (λ x, uuid_string (task_ID (fst (fst x))))))
    (select_where (λ t, bool_decide (task_OrganizationID t = org)
       && contains [TaskStatusFailed; TaskStatusCanceled] (task_Status t)) (r_Tasks s) ≫= λ t,
     match task_CompletedAt t with
     | None => []
     | Some completed => (λ e, (t, completed, env_IsProduction e)) <$>
         select_where (λ e, bool_decide (env_ID e = task_EnvironmentID t)
           && bool_decide (env_OrganizationID e = task_OrganizationID t)) (r_Environments s)
     end).

Definition queryRetentionFailedTaskCandidates (policy : RetentionPolicy) (now : Z) (s : rdb)
    : list RetentionTaskCandidate :=
  omap (λ x, task_candidate policy now (fst (fst x)) (snd (fst x)) (snd x)) (failed_tasks (rp_OrganizationID policy) s).

Definition log_candidate (logs : list StepLog) (task : uuid) : option RetentionStepLogCandidate :=
  match lc_CreatedAt <$> select_where (λ l, bool_decide (lc_TaskID l = task)) logs with
  | [] => None
  | at_ :: more => Some {| sl_TaskID := task; sl_ChunkCount := 1 + Z.of_nat (length more);
      sl_OldestAt := foldr Z.min at_ more; sl_NewestAt := foldr Z.max at_ more;
      sl_Reason := "step logs exceeded retention window" |}
  end.

(** [GROUP BY task_id ORDER BY min(created_at), task_id] *)
Definition queryRetentionStepLogCandidates (policy : RetentionPolicy) (now : Z) (s : rdb)
    : list RetentionStepLogCandidate :=
  let org := rp_OrganizationID policy in
  let cutoff := days_before now (rp_StepLogRetentionDays policy) in
  let logs := select_where (λ l, bool_decide (lc_OrganizationID l = org) && (lc_CreatedAt l <=? cutoff)%Z
      && exists_where (λ t, bool_decide (task_ID t = lc_TaskID l)
           && bool_decide (task_OrganizationID t = lc_OrganizationID l)) (r_Tasks s)) (StepLogs s) in
  stable_sort (less_then sl_OldestAt (less_str_by (λ c, uuid_string (sl_TaskID c))))
    (omap (log_candidate logs) (dedup_by id [] (lc_TaskID <$> logs))).

(** ** The preview and the jobs *)

Definition PreviewRetentionCleanup (env : renv) (r : RetentionCleanupRequest) (s : rdb)
    : result apierror RetentionCleanupPreview :=
  fail_if (is_nil (rq_OrganizationID r)) (BadRequest "organizationId is required") ≫= λ _,
  fail_if (is_nil (rq_PolicyID r)) (BadRequest "retentionPolicyId is required") ≫= λ _,
  let now := default (r_clock env) (rq_Now r) in
  GetRetentionPolicy (rq_PolicyID r) (rq_OrganizationID r) s ≫= λ policy,
  let '(releases, blocks) := queryRetentionReleaseCandidates policy s in
  Ok {| pv_Policy := policy; pv_GeneratedAt := now; pv_ReleaseCandidates := releases;
        pv_FailedTaskCandidates := queryRetentionFailedTaskCandidates policy now s;
        pv_StepLogCandidates := queryRetentionStepLogCandidates policy now s; pv_SafetyBlocks := blocks |}.

Definition preview_message : string :=
  "Dry-run cleanup preview recorded. Apply is disabled until a preview is reviewed.".

Definition new_job (env : renv) (r : RetentionCleanupRequest) (p : RetentionCleanupPreview) : RetentionCleanupJob :=
  {| job_ID := r_new_id env; job_OrganizationID := rq_OrganizationID r; job_RetentionPolicyID := rq_PolicyID r;
     job_ActorUserAccountID := if is_nil (rq_ActorUserID r) then None else Some (rq_ActorUserID r); job_DryRun := true;
     job_Status := "PREVIEWED"; job_ReleaseCandidateCount := Z.of_nat (length (pv_ReleaseCandidates p));
     job_FailedTaskCandidateCount := Z.of_nat (length (pv_FailedTaskCandidates p));
     job_StepLogCandidateCount := Z.of_nat (length (pv_StepLogCandidates p));
     job_SafetyBlockCount := Z.of_nat (length (pv_SafetyBlocks p)); job_Plan := p; job_Message := preview_message |}.

Definition CreateRetentionCleanupJob (env : renv) (r : RetentionCleanupRequest) (s : rdb)
    : result apierror RetentionCleanupJob * rdb :=
  if is_nil (rq_OrganizationID r) then (Err (BadRequest "organizationId is required"), s) else
  if is_nil (rq_PolicyID r) then (Err (BadRequest "retentionPolicyId is required"), s) else
  if negb (rq_DryRun r)
  then (Err (BadRequest "retention cleanup apply is not enabled; run a dry-run preview first"), s) else
  RunSTx (squery (PreviewRetentionCleanup env r) ≫= λ p,
          smodify (λ s, set_jobs (Jobs s ++ [new_job env r p]) s) ≫= λ _, mret (new_job env r p)) s.
