(* ===== verification/RetentionGuarantees.v ===== *)
(** * What a cleanup may remove

    The release candidates of a preview, described without the ranking and the
    joins of the query: a release is kept while it is deployed somewhere, while
    it is marked as protected, or while it is among the last successful ones of
    its application. *)
From S2P Require Import Prelude GoStrings Uuid TaskStore Transaction Lifecycle Retention.
Open Scope list_scope.

(** ** The order of the successes *)

#[export] Instance id_desc_swo : StrictWeakOrder id_desc.
Proof.
  split; unfold id_desc; [intros x y; apply swo_asym|]. intros x y z H1 H2. exact (swo_ntrans _ _ _ H2 H1).
Qed.

#[export] Instance newest_first_swo : StrictWeakOrder newest_first.
Proof. unfold newest_first. apply _. Qed.

Lemma newest_first_irrefl t : newest_first t t = false.
Proof. destruct (newest_first t t) eqn:E; [|done]. by rewrite (swo_asym _ _ E) in E. Qed.

Lemma newest_some l t : newest l = Some t -> t ∈ l /\ forall u, u ∈ l -> newest_first u t = false.
Proof.
  unfold newest. destruct (stable_sort newest_first l) as [|x k] eqn:E; [done|]. intros [= ->].
  apply stable_sort_head in E as [Hin Hu]; [|apply _]. split; [done|]. intros u [->|H]%Hu; [|done]. apply newest_first_irrefl.
Qed.

Lemma newest_none l : newest l = None <-> l = [].
Proof.
  unfold newest. split; [|by intros ->]. destruct (stable_sort newest_first l) as [|x k] eqn:E; [|done]. intros _.
  apply length_zero_iff_nil. by rewrite <- (length_stable_sort newest_first), E.
Qed.

(** ** The releases to keep *)

Definition successes (org : uuid) (s : rdb) (r : Release) : list Task :=
  select_where (λ t, bool_decide (task_ReleaseBundleID t = rel_ID r)) (succeeded org s).

(** Some success of the release was followed by none at the same place. *)
Definition deployed (org : uuid) (s : rdb) (r : Release) : Prop :=
  exists t, t ∈ successes org s r
    /\ forall u, u ∈ succeeded org s -> place u = place t -> newest_first u t = false.

(** A release of the same application that succeeded after every success of [r]. *)
Definition overtaken_by (org : uuid) (s : rdb) (r q : Release) : bool :=
  bool_decide (rel_ApplicationID q = rel_ApplicationID r)
  && exists_where (λ u, forallb (newest_first u) (successes org s r)) (successes org s q).

Definition overtakers (org : uuid) (s : rdb) (r : Release) : Z :=
  Z.of_nat (length (select_where (overtaken_by org s r) (releases_of org s))).

Definition kept (policy : RetentionPolicy) (s : rdb) (r : Release) : Prop :=
  let org := rp_OrganizationID policy in
  (rp_ProtectCurrentlyDeployedReleases policy = true /\ deployed org s r)
  \/ (rp_ProtectRetentionProtectedReleases policy = true /\ rel_RetentionProtected r = true)
  \/ (successes org s r <> [] /\ overtakers org s r < rp_KeepLastSuccessfulReleases policy)%Z.

(** The releases a policy is about. *)
Definition governed (policy : RetentionPolicy) (s : rdb) (r : Release) : Prop :=
  r ∈ Releases s /\ rel_OrganizationID r = rp_OrganizationID policy /\ retained_status r = true.

(** The primary keys. *)
Definition r_keys (s : rdb) : Prop := NoDup (rel_ID <$> Releases s) /\ NoDup (task_ID <$> r_Tasks s).

(** ** The rank *)

Lemma dedup_by_nodup {A} `{EqDecision A} (seen l : list A) :
  NoDup l -> (forall x, x ∈ l -> x ∉ seen) -> dedup_by id seen l = l.
Proof.
  intros Hn. revert seen. induction Hn as [|x l Hx Hn IH]; intros seen Hs; [done|]. simpl.
  rewrite bool_decide_eq_false_2 by (apply Hs; by left). f_equal. apply IH. intros y Hy [->|H]%elem_of_cons; [done|].
  by eapply Hs; [right|].
Qed.

Lemma omap_injective {A B} (f : A -> option B) l :
  NoDup l -> (forall x, x ∈ l -> is_Some (f x)) ->
  (forall x y b, x ∈ l -> y ∈ l -> f x = Some b -> f y = Some b -> x = y) ->
  NoDup (omap f l) /\ length (omap f l) = length l.
Proof.
  induction 1 as [|x l Hx Hn IH]; intros Hs Hi; [split; [constructor|done]|].
  destruct IH as [H1 H2]; [by intros; apply Hs; right|by intros a b c ??; apply Hi; right|].
  destruct (Hs x) as [b Hb]; [by left|]. cbn [omap list_omap]. rewrite Hb. cbn [length].
  split; [|by rewrite H2]. constructor; [|done].
  intros (y & Hy & E)%list_elem_of_omap. apply Hx.
  rewrite (Hi x y b); [done|by left|by right|done|done].
Qed.

Lemma successes_of org s r t : t ∈ successes org s r <-> t ∈ succeeded org s /\ task_ReleaseBundleID t = rel_ID r.
Proof. unfold successes. by rewrite elem_of_select_where, bool_decide_eq_true. Qed.

Lemma succeeded_task org s t : t ∈ succeeded org s -> t ∈ r_Tasks s.
Proof. unfold succeeded. by intros [? _]%elem_of_select_where. Qed.

Lemma last_success_none org s r : last_success org s r = None <-> successes org s r = [].
Proof. apply newest_none. Qed.

Lemma newer_success_spec org s r t q :
  last_success org s r = Some t ->
  newer_success org s t q = exists_where (λ u, forallb (newest_first u) (successes org s r)) (successes org s q).
Proof.
  intros [Ht Hlast]%newest_some. fold (successes org s r) in *. unfold newer_success.
  apply eq_true_iff_eq. rewrite exists_where_true. split.
  - destruct (last_success org s q) as [u|] eqn:E; [|done]. intros Hu. apply newest_some in E as [Hin _].
    exists u. split; [done|]. apply forallb_forall. intros x Hx%list_elem_of_In%Hlast.
    destruct (newest_first u x) eqn:Eux; [done|]. by rewrite (swo_ntrans _ _ _ Hx Eux) in Hu.
  - intros (u & Hu & Ha). rewrite forallb_forall in Ha. specialize (Ha t (proj1 (list_elem_of_In _ _) Ht)).
    destruct (last_success org s q) as [v|] eqn:E.
    + apply newest_some in E as [_ Hv]. specialize (Hv u Hu). destruct (newest_first v t) eqn:Evt; [done|].
      by rewrite (swo_ntrans _ _ _ Evt Hv) in Ha.
    + apply last_success_none in E. rewrite E in Hu. by apply elem_of_nil in Hu.
Qed.

Lemma last_success_inj s org p q t u :
  r_keys s -> p ∈ Releases s -> q ∈ Releases s -> last_success org s p = Some t -> last_success org s q = Some u ->
  task_key t = task_key u -> p = q.
Proof.
  intros [Hr Ht] Hp Hq [H1 _]%newest_some [H2 _]%newest_some [= _ _ E].
  apply successes_of in H1 as [H1%succeeded_task E1], H2 as [H2%succeeded_task E2].
  assert (t = u) as -> by by apply (NoDup_fmap_elem task_ID (r_Tasks s)).
  apply (NoDup_fmap_elem rel_ID (Releases s)); [done..|congruence].
Qed.

Lemma successful_rank_spec org s r :
  r_keys s ->
  successful_rank org s r = if bool_decide (successes org s r = []) then 0%Z else (1 + overtakers org s r)%Z.
Proof.
  intros Hk. unfold successful_rank. destruct (last_success org s r) as [t|] eqn:E.
  2:{ apply last_success_none in E. by rewrite bool_decide_eq_true_2. }
  rewrite bool_decide_eq_false_2 by (intros H%last_success_none; congruence).
  unfold overtakers. do 2 f_equal.
  rewrite (select_ext _ (overtaken_by org s r)).
  2:{ intros q _. unfold overtaken_by. by rewrite <- (newer_success_spec _ _ _ t). }
  set (l := select_where _ _).
  assert (forall q, q ∈ l -> q ∈ Releases s /\ is_Some (last_success org s q)) as Hl.
  { intros q [Hq H]%elem_of_select_where. apply elem_of_select_where in Hq as [Hq _]. split; [done|].
    unfold overtaken_by in H. apply andb_true_iff in H as [_ (u & Hu & _)%exists_where_true].
    destruct (last_success org s q) eqn:En; [done|]. apply last_success_none in En. rewrite En in Hu.
    by apply elem_of_nil in Hu. }
  destruct (omap_injective (λ q, task_key <$> last_success org s q) l) as [Hn Hlen].
  - unfold l, releases_of. do 2 apply NoDup_select. eapply NoDup_fmap_1, Hk.
  - intros q [_ [u Hu]]%Hl. rewrite Hu. by eexists.
  - intros p q b Hp%Hl Hq%Hl. destruct Hp as [Hp [u Eu]], Hq as [Hq [v Ev]]. rewrite Eu, Ev. 
    change (Some (task_key u) = Some b -> Some (task_key v) = Some b -> p = q). intros H1 H2.
    apply (last_success_inj s org p q u v); congruence.
  - rewrite dedup_by_nodup; [by rewrite Hlen|done|]. intros x _. apply not_elem_of_nil.
Qed.

(** ** The rows of a release *)

(** At how many places the release is deployed. *)
Definition places_deployed (org : uuid) (s : rdb) (r : Release) : nat :=
  length (select_where (λ p, exists_where (λ t, bool_decide (task_ReleaseBundleID t = rel_ID r))
                               (option_list (newest_in_place org s p)))
    (place <$> dedup_by place [] (succeeded org s))).

Lemma select_fmap_length {A B} (f : A -> B) (p : B -> bool) l :
  length (select_where p (f <$> l)) = length (select_where (λ x, p (f x)) l).
Proof. induction l as [|x l IH]; [done|]. unfold select_where in *. cbn. destruct (p (f x)); cbn; [f_equal|]; exact IH. Qed.

Lemma select_omap_length {A B} (f : A -> option B) (p : B -> bool) l :
  length (select_where p (omap f l)) = length (select_where (λ x, exists_where p (option_list (f x))) l).
Proof.
  induction l as [|x l IH]; [done|]. unfold select_where in *. cbn [omap list_omap List.filter].
  destruct (f x) as [b|]; cbn; [|exact IH]. rewrite orb_false_r. destruct (p b); cbn; [f_equal|]; exact IH.
Qed.

Lemma current_deployed_count org s r :
  length (select_where (λ id, bool_decide (id = rel_ID r)) (current_deployed org s)) = places_deployed org s r.
Proof.
  unfold current_deployed, places_deployed. rewrite select_omap_length, select_fmap_length. f_equal.
  apply select_ext. intros t _. by destruct (newest_in_place org s (place t)).
Qed.

Lemma release_rows_spec org s r :
  release_rows org s r
  = replicate (Nat.max 1 (places_deployed org s r)) (release_row org s r (negb (places_deployed org s r =? 0)%nat)).
Proof.
  rewrite <- current_deployed_count. unfold release_rows. destruct (select_where _ _) as [|x l]; [done|].
  cbn [length Nat.max Nat.eqb negb]. change (fmap ?f (x :: l)) with (f x :: (f <$> l)). cbn [replicate]. f_equal.
  induction l as [|y l IH]; [done|]. cbn [fmap list_fmap length replicate]. by f_equal.
Qed.

(** Where something succeeded, something is newest. *)
Lemma place_newest org s t :
  t ∈ succeeded org s ->
  exists u, newest_in_place org s (place t) = Some u /\ u ∈ succeeded org s /\ place u = place t
    /\ forall v, v ∈ succeeded org s -> place v = place t -> newest_first v u = false.
Proof.
  intros Ht. unfold newest_in_place. destruct (newest _) as [u|] eqn:E.
  - exists u. apply newest_some in E as [[Hu Hp]%elem_of_select_where Hn]. apply bool_decide_eq_true in Hp.
    split_and!; [done..|]. intros v Hv Ev. apply Hn, elem_of_select_where. by rewrite bool_decide_eq_true_2.
  - apply newest_none in E. exfalso. apply (not_elem_of_nil t). rewrite <- E.
    apply elem_of_select_where. by rewrite bool_decide_eq_true_2.
Qed.

(** Two tasks that are ordered neither way have the same key. *)
Lemma newest_first_total t u : newest_first t u = false -> newest_first u t = false -> task_ID t = task_ID u.
Proof.
  unfold newest_first, less_then, id_desc. rewrite (Z.eqb_sym (- finished u)), (Z.eqb_sym (- task_QueueOrder u)).
  destruct (Z.eqb_spec (- finished t) (- finished u)); [|rewrite !Z.ltb_ge; lia].
  destruct (Z.eqb_spec (- task_QueueOrder t) (- task_QueueOrder u)); [|rewrite !Z.ltb_ge; lia].
  intros H1 H2. by apply uuid_string_total.
Qed.

Lemma deployed_spec org s r : r_keys s -> deployed org s r <-> places_deployed org s r <> 0%nat.
Proof.
  intros [_ Hk]. unfold places_deployed. rewrite length_zero_iff_nil.
  split.
  - intros (t & [Ht Er]%successes_of & Hl) E. destruct (place_newest org s t Ht) as (u & Eu & Hu & Hp & Hn).
    assert (t = u) as <-.
    { apply (NoDup_fmap_elem task_ID (r_Tasks s)); [done|by eapply succeeded_task|by eapply succeeded_task|].
      apply newest_first_total; auto. }
    apply (not_elem_of_nil (place t)). rewrite <- E. apply elem_of_select_where. split.
    + destruct (dedup_by_complete place [] _ _ Ht) as [[]%not_elem_of_nil|H]; exact H.
    + rewrite Eu. cbn. by rewrite bool_decide_eq_true_2.
  - intros Hne. destruct (select_where _ _) as [|p l] eqn:E; [done|]. clear Hne.
    assert (p ∈ p :: l) as Hp by by left. rewrite <- E in Hp. apply elem_of_select_where in Hp as [Hp Hr].
    apply list_elem_of_fmap in Hp as (t & -> & Ht%dedup_by_sub).
    destruct (place_newest org s t Ht) as (u & Eu & Hu & Hp & Hn). rewrite Eu in Hr. cbn in Hr.
    rewrite orb_false_r in Hr. apply bool_decide_eq_true in Hr. exists u. split; [by apply successes_of|].
    intros v Hv Ev. apply Hn; congruence.
Qed.

(** ** Candidates and blocks *)

Lemma judge_kept policy s r :
  r_keys s -> let org := rp_OrganizationID policy in
  match judge policy (release_row org s r (negb (places_deployed org s r =? 0)%nat)) with
  | inl c => ~ kept policy s r /\ rc_ReleaseBundleID c = rel_ID r
  | inr b => kept policy s r /\ sb_ResourceID b = rel_ID r
  end.
Proof.
  intros Hk org. assert (kept policy s r
    <-> (rp_ProtectCurrentlyDeployedReleases policy = true /\ places_deployed org s r <> 0%nat)
      \/ (rp_ProtectRetentionProtectedReleases policy = true /\ rel_RetentionProtected r = true)
      \/ (successes org s r <> [] /\ overtakers org s r < rp_KeepLastSuccessfulReleases policy)%Z) as Hkept.
  { unfold kept. fold org. by rewrite deployed_spec. }
  unfold judge. simpl. rewrite (successful_rank_spec org s r Hk). pose proof (Nat2Z.is_nonneg
    (length (select_where (overtaken_by org s r) (releases_of org s)))) as Hpos. fold (overtakers org s r) in Hpos.
  destruct (Nat.eqb_spec (places_deployed org s r) 0) as [E0|E0], (rp_ProtectCurrentlyDeployedReleases policy),
    (rel_RetentionProtected r), (rp_ProtectRetentionProtectedReleases policy); simpl;
    try (split; [apply Hkept; tauto|done]).
  all: case_bool_decide as Es; simpl;
    [split; [|done]; intros H%Hkept; destruct_or! H; destruct_and! H; congruence|].
  all: rewrite (proj2 (Z.ltb_lt 0 (1 + overtakers org s r))) by lia; simpl.
  all: destruct (Z.leb_spec (1 + overtakers org s r) (rp_KeepLastSuccessfulReleases policy)); simpl;
    (split; [|done]); rewrite Hkept.
  all: first [right; right; split; [done|lia] | intros H'; destruct_or! H'; destruct_and! H'; first [congruence|lia]].
Qed.

Lemma ordered_releases_governed policy s r :
  r ∈ ordered_releases (rp_OrganizationID policy) s <-> governed policy s r.
Proof.
  unfold ordered_releases, governed, releases_of. rewrite elem_of_stable_sort, !elem_of_select_where, bool_decide_eq_true.
  naive_solver.
Qed.

(** The judgement on each release, repeated for each of its rows. *)
Definition verdict (policy : RetentionPolicy) (s : rdb) (r : Release) : RetentionReleaseCandidate + RetentionSafetyBlock :=
  let org := rp_OrganizationID policy in
  judge policy (release_row org s r (negb (places_deployed org s r =? 0)%nat)).

Lemma judged_rows policy s :
  judge policy <$> (ordered_releases (rp_OrganizationID policy) s ≫= release_rows (rp_OrganizationID policy) s)
  = ordered_releases (rp_OrganizationID policy) s
    ≫= λ r, replicate (Nat.max 1 (places_deployed (rp_OrganizationID policy) s r)) (verdict policy s r).
Proof.
  set (org := rp_OrganizationID policy). induction (ordered_releases org s) as [|r l IH]; [done|].
  rewrite !bind_cons, fmap_app, IH. f_equal. rewrite release_rows_spec. unfold verdict. fold org. by rewrite fmap_replicate.
Qed.

Lemma verdict_elem policy s x :
  x ∈ (ordered_releases (rp_OrganizationID policy) s
       ≫= λ r, replicate (Nat.max 1 (places_deployed (rp_OrganizationID policy) s r)) (verdict policy s r))
  <-> exists r, governed policy s r /\ verdict policy s r = x.
Proof.
  rewrite list_elem_of_bind. split.
  - intros (r & Hx & Hr%ordered_releases_governed). apply elem_of_replicate in Hx as [-> _]. by exists r.
  - intros (r & Hr & <-). exists r. rewrite ordered_releases_governed. split; [|done]. apply elem_of_replicate. split; [done|lia].
Qed.

Lemma omap_sum_elem policy s :
  let '(candidates, blocks) := queryRetentionReleaseCandidates policy s in
  (forall c, c ∈ candidates <-> exists r, governed policy s r /\ verdict policy s r = inl c)
  /\ (forall b, b ∈ blocks <-> exists r, governed policy s r /\ verdict policy s r = inr b).
Proof.
  unfold queryRetentionReleaseCandidates. rewrite judged_rows. split.
  - intros c. rewrite list_elem_of_omap. split.
    + intros ([x|x] & Hx & [= <-]). by apply verdict_elem in Hx.
    + intros Hr. exists (inl c). split; [|done]. by apply verdict_elem.
  - intros b. rewrite list_elem_of_omap. split.
    + intros ([x|x] & Hx & [= <-]). by apply verdict_elem in Hx.
    + intros Hr. exists (inr b). split; [|done]. by apply verdict_elem.
Qed.

(** ** The guarantees *)

(** A failed or canceled task of the organization that is older than its window. *)
Definition expired (policy : RetentionPolicy) (now : Z) (s : rdb) (c : RetentionTaskCandidate) : Prop :=
  exists t e completed, t ∈ r_Tasks s /\ task_OrganizationID t = rp_OrganizationID policy /\ task_ID t = tc_TaskID c
    /\ task_Status t ∈ [TaskStatusFailed; TaskStatusCanceled] /\ task_CompletedAt t = Some completed
    /\ e ∈ r_Environments s /\ env_ID e = task_EnvironmentID t
    /\ let days := if env_IsProduction e then rp_ProductionFailedTaskRetentionDays policy
                   else rp_FailedTaskRetentionDays policy in
       (completed + days * 86400000000 <= now)%Z.

Lemma failed_task_expired policy now s c :
  c ∈ queryRetentionFailedTaskCandidates policy now s -> expired policy now s c.
Proof.
  unfold queryRetentionFailedTaskCandidates. intros ([[t completed] production] & Hx & Hc)%list_elem_of_omap.
  unfold failed_tasks in Hx. apply elem_of_stable_sort, list_elem_of_bind in Hx as (t' & Hx & Ht).
  destruct (task_CompletedAt t') as [completed'|] eqn:Ec; [|by apply elem_of_nil in Hx].
  apply list_elem_of_fmap in Hx as (e & [= -> -> ->] & He). apply elem_of_select_where in He as [He Hw], Ht as [Ht Hw'].
  to_prop. simpl in Hc. unfold task_candidate, days_before in Hc.
  destruct (_ <? completed')%Z eqn:El; [done|]. injection Hc as <-. apply Z.ltb_ge in El.
  exists t', e, completed'. split_and!; try done; [by apply contains_true|]. intros days. fold days in El. lia.
Qed.

(** C34: a cleanup removes nothing that has to stay. A job leaves releases, tasks
    and logs as they are and records a plan for the stored policy. A published,
    blocked or archived release of the organization is a candidate of the plan if
    and only if it need not be kept, and has a safety block otherwise: it is kept
    while protected and deployed somewhere, while marked as protected, or when
    fewer releases of its application than the policy keeps succeeded after it.
    The failed tasks of the plan are as old as their window. *)
Theorem retention_cleanup_safe env r s job s' :
  r_keys s -> CreateRetentionCleanupJob env r s = (Ok job, s') ->
  let plan := job_Plan job in let policy := pv_Policy plan in
  (r_Tasks s' = r_Tasks s /\ Releases s' = Releases s /\ StepLogs s' = StepLogs s /\ Jobs s' = Jobs s ++ [job])
  /\ (policy ∈ Policies s /\ rp_ID policy = rq_PolicyID r /\ rp_OrganizationID policy = rq_OrganizationID r)
  /\ (forall id, id ∈ rc_ReleaseBundleID <$> pv_ReleaseCandidates plan
        <-> exists x, governed policy s x /\ rel_ID x = id /\ ~ kept policy s x)
  /\ (forall id, id ∈ sb_ResourceID <$> pv_SafetyBlocks plan
        <-> exists x, governed policy s x /\ rel_ID x = id /\ kept policy s x)
  /\ (forall c, c ∈ pv_FailedTaskCandidates plan -> expired policy (pv_GeneratedAt plan) s c).
Proof.
  intros Hk. unfold CreateRetentionCleanupJob. destruct (is_nil _); [done|]. destruct (is_nil _); [done|].
  destruct (negb _); [done|]. intros [(? & [= <-] & E)|(e & [=] & _)]%RunSTx_cases. stx_inv.
  match goal with H : PreviewRetentionCleanup _ _ _ = Ok _ |- _ => rename H into Hp end. cbn zeta. simpl.
  split; [done|]. unfold PreviewRetentionCleanup in Hp. autorewrite with distr in Hp.
  destruct Hp as (_ & _ & policy & Hg & Hp). unfold GetRetentionPolicy in Hg. autorewrite with distr in Hg.
  destruct Hg as (_ & _ & Hg). destruct (select_where _ (Policies s)) as [|p l] eqn:Ep; [done|]. injection Hg as ->.
  pose proof (omap_sum_elem policy s) as Hq. destruct (queryRetentionReleaseCandidates policy s) as [cs bs].
  destruct Hq as [Hc Hb]. injection Hp as <-. simpl.
  assert (policy ∈ policy :: l) as Hin by by left. rewrite <- Ep in Hin. apply elem_of_select_where in Hin as [Hin Hw].
  to_prop. split_and!; [done..| | |by apply failed_task_expired].
  - intros id. rewrite list_elem_of_fmap. setoid_rewrite Hc. split.
    + intros (c & -> & x & Hx & Hv). pose proof (judge_kept policy s x Hk) as Hj. simpl in Hj. unfold verdict in Hv.
      rewrite Hv in Hj. exists x. by destruct Hj.
    + intros (x & Hx & <- & Hn). pose proof (judge_kept policy s x Hk) as Hj. simpl in Hj. fold (verdict policy s x) in Hj.
      destruct (verdict policy s x) as [c|b] eqn:Hv; [|by destruct Hj]. exists c. split; [by destruct Hj|by exists x].
  - intros id. rewrite list_elem_of_fmap. setoid_rewrite Hb. split.
    + intros (c & -> & x & Hx & Hv). pose proof (judge_kept policy s x Hk) as Hj. simpl in Hj. unfold verdict in Hv.
      rewrite Hv in Hj. exists x. by destruct Hj.
    + intros (x & Hx & <- & Hn). pose proof (judge_kept policy s x Hk) as Hj. simpl in Hj. fold (verdict policy s x) in Hj.
      destruct (verdict policy s x) as [c|b] eqn:Hv; [by destruct Hj|]. exists b. split; [by destruct Hj|by exists x].
Qed.

(** Candidates and blocks are the verdicts, taken apart. *)
Lemma sum_count {A B} (J : list (A + B)) (f : A -> uuid) (g : B -> uuid) id :
  (length (select_where (λ x, bool_decide (x = id)) (f <$> omap left_of J))
   + length (select_where (λ x, bool_decide (x = id)) (g <$> omap right_of J)))%nat
  = length (select_where (λ x, bool_decide (match x with inl a => f a | inr b => g b end = id)) J).
Proof.
  induction J as [|[a|b] J IH]; [done|..]; unfold select_where in *; cbn; case_bool_decide; cbn; rewrite <- IH;
    try done; lia.
Qed.

Lemma verdict_id policy s r :
  match verdict policy s r with inl c => rc_ReleaseBundleID c | inr b => sb_ResourceID b end = rel_ID r.
Proof. unfold verdict, judge. by bool_cases. Qed.

(** A release is listed once for each place where it is deployed, and once when it
    is deployed nowhere: the entries of a preview, and with them the counts of a
    job, are not those of its releases. *)
Theorem retention_counts_places policy s r candidates blocks :
  r_keys s -> governed policy s r -> queryRetentionReleaseCandidates policy s = (candidates, blocks) ->
  (length (select_where (λ id, bool_decide (id = rel_ID r)) (rc_ReleaseBundleID <$> candidates))
   + length (select_where (λ id, bool_decide (id = rel_ID r)) (sb_ResourceID <$> blocks)))%nat
  = Nat.max 1 (places_deployed (rp_OrganizationID policy) s r).
Proof.
  intros [Hk _] Hr. unfold queryRetentionReleaseCandidates. intros [= <- <-].
  rewrite (sum_count _ rc_ReleaseBundleID sb_ResourceID), judged_rows.
  rewrite (select_group _ rel_ID _ (ordered_releases (rp_OrganizationID policy) s) r), length_replicate; [done|..].
  - unfold ordered_releases, releases_of. rewrite stable_sort_perm. by do 2 apply fmap_select_NoDup.
  - intros a b [-> _]%elem_of_replicate. apply verdict_id.
  - by apply ordered_releases_governed.
Qed.

(** ** Witnesses *)

Module RetentionDemo.
Definition task (id target release at_ : N) (status : TaskStatus) : Task :=
  {| task_ID := uid id; task_QueuedAt := 0; task_StartedAt := None; task_CompletedAt := Some (Z.of_N at_);
     task_OrganizationID := uid 1; task_DeploymentPlanID := uid 2; task_DeploymentPlanTargetID := uid 3;
     task_DeploymentTargetID := uid target; task_ApplicationID := uid 4; task_ReleaseBundleID := uid release;
     task_ChannelID := uid 5; task_EnvironmentID := uid 6; task_ActorUserAccountID := None; task_Status := status;
     task_QueueOrder := Z.of_N id |}.

Definition release (id : N) (protected : bool) : Release :=
  {| rel_ID := uid id; rel_OrganizationID := uid 1; rel_ApplicationID := uid 4; rel_ReleaseNumber := "1.0";
     rel_Status := ReleaseBundleStatusPublished; rel_CreatedAt := 0; rel_PublishedAt := None;
     rel_RetentionProtected := protected |}.

Definition policy : RetentionPolicy :=
  {| rp_ID := uid 9; rp_OrganizationID := uid 1; rp_Name := "default"; rp_Description := "";
     rp_KeepLastSuccessfulReleases := 2; rp_FailedTaskRetentionDays := 30; rp_ProductionFailedTaskRetentionDays := 90;
     rp_StepLogRetentionDays := 30; rp_ProtectCurrentlyDeployedReleases := true;
     rp_ProtectRetentionProtectedReleases := true; rp_MinimumAuditRetentionDays := 0 |}.

(** Release 24 runs at targets 40 and 41, release 21 still at target 42; 23 and 24
    are the last two; 22 and 25, which never succeeded, may go; 26 is protected. *)
Definition s : rdb :=
  {| r_Tasks := [task 11 42 21 100 TaskStatusSucceeded; task 12 40 22 200 TaskStatusSucceeded;
       task 13 40 23 300 TaskStatusSucceeded; task 14 40 24 400 TaskStatusSucceeded;
       task 15 41 24 500 TaskStatusSucceeded; task 16 40 25 600 TaskStatusFailed];
     Releases := [release 21 false; release 22 false; release 23 false; release 24 false; release 25 false; release 26 true];
     r_Environments := [{| env_ID := uid 6; env_OrganizationID := uid 1; env_IsProduction := true |}];
     StepLogs := [{| lc_TaskID := uid 12; lc_OrganizationID := uid 1; lc_CreatedAt := 150 |}];
     Policies := [policy]; Jobs := [] |}.

Definition request : RetentionCleanupRequest :=
  {| rq_OrganizationID := uid 1; rq_PolicyID := uid 9; rq_ActorUserID := Nil; rq_DryRun := true;
     rq_Now := Some (8000000000000 : Z) |}.
Definition env : renv := {| r_clock := 0; r_new_id := uid 30 |}.

Lemma keys : r_keys s.
Proof. split; apply (bool_decide_unpack _); by vm_compute. Qed.

Definition job : RetentionCleanupJob :=
  match CreateRetentionCleanupJob env request s with
  | (Ok j, _) => j
  | _ => new_job env request {| pv_Policy := policy; pv_GeneratedAt := 0; pv_ReleaseCandidates := [];
           pv_FailedTaskCandidates := []; pv_StepLogCandidates := []; pv_SafetyBlocks := [] |}
  end.

Example demo_plan :
  (rc_ReleaseBundleID <$> pv_ReleaseCandidates (job_Plan job), sb_ResourceID <$> pv_SafetyBlocks (job_Plan job),
   tc_TaskID <$> pv_FailedTaskCandidates (job_Plan job), sl_TaskID <$> pv_StepLogCandidates (job_Plan job),
   job_SafetyBlockCount job)
  = ([uid 25; uid 22], [uid 26; uid 21; uid 23; uid 24; uid 24], [uid 16], [uid 12], 5%Z).
Proof. vm_compute. reflexivity. Qed.
End RetentionDemo.

Section witnesses.
Import RetentionDemo.

Lemma retention_cleanup_safe_witness : exists x, governed policy s x /\ rel_ID x = uid 22 /\ ~ kept policy s x.
Proof.
  destruct (retention_cleanup_safe env request s job (snd (CreateRetentionCleanupJob env request s)) keys)
    as (_ & _ & H & _); [by vm_compute|].
  assert (pv_Policy (job_Plan job) = policy) as E by (by vm_compute). rewrite E in H. apply H. clear H E.
  vm_compute. right. left.
Defined.

Lemma retention_counts_places_witness :
  (length (select_where (λ id, bool_decide (id = uid 24))
     (rc_ReleaseBundleID <$> fst (queryRetentionReleaseCandidates policy s)))
   + length (select_where (λ id, bool_decide (id = uid 24))
       (sb_ResourceID <$> snd (queryRetentionReleaseCandidates policy s))))%nat = 2%nat.
Proof.
  rewrite (retention_counts_places policy s (release 24 false) _ _ keys); [by vm_compute| |apply surjective_pairing].
  split; [|by split]. vm_compute. do 3 right. left.
Defined.
End witnesses.
