(* ===== verification/ChannelRules.v ===== *)
(** * Channel rules ([internal/channelrules/rules.go])

    Which versions, prereleases and sources a channel accepts. Semantic
    versions, their constraints and glob patterns are those of libraries, an
    interface here. *)
From S2P Require Import Prelude GoStrings.
Open Scope list_scope.

(** [semver.StrictNewVersion], [Version.Prerelease], [semver.NewConstraint]
    with [Check], and [glob.Compile] with [Match]; [None] is an error. *)
Class RuleLibrary := {
  Version : Type;
  StrictNewVersion : string -> option Version;
  Prerelease : Version -> string;
  NewConstraint : string -> option (Version -> bool);
  Compile : string -> option (string -> bool);
}.

(** ** Data *)

Record Rules := {
  AllowedVersionRanges : list string;
  AllowedPrereleasePatterns : list string;
  AllowedSourceBranchPatterns : list string;
  AllowedSourceTagPatterns : list string;
}.

Record Input := { in_Version : string; in_SourceBranch : string; in_SourceTag : string }.
Record Issue := { iss_Field : string; iss_Rule : string; iss_Message : string }.
Record Result := { Valid : bool; Issues : list Issue }.

(** The errors, without the text of the library. *)
Inductive rule_error :=
| EmptyValue (field : string)
| DuplicateValue (field value : string)
| InvalidRange (value : string)
| InvalidGlob (field value : string).

(** ** Normalization *)

Fixpoint normalize_values (field : string) (seen values : list string) : result rule_error (list string) :=
  match values with
  | [] => Ok []
  | value :: values =>
      let trimmed := TrimSpace value in
      if bool_decide (trimmed = "") then Err (EmptyValue field) else
      if contains seen trimmed then Err (DuplicateValue field trimmed) else
      normalize_values field (trimmed :: seen) values ≫= λ l, Ok (trimmed :: l)
  end.
Definition normalizeList (field : string) (values : list string) : result rule_error (list string) :=
  normalize_values field [] values.

Section rules.
Context `{RuleLibrary}.

Definition has_some {A} (x : option A) : bool := match x with Some _ => true | None => false end.

Definition validateGlobPatterns (field : string) (patterns : list string) : result rule_error unit :=
  for_each (λ p, fail_if (negb (has_some (Compile p))) (InvalidGlob field p)) patterns.

Definition NormalizeRules (rules : Rules) : result rule_error Rules :=
  normalizeList "allowedVersionRanges" (AllowedVersionRanges rules) ≫= λ ranges,
  normalizeList "allowedPrereleasePatterns" (AllowedPrereleasePatterns rules) ≫= λ prereleases,
  normalizeList "allowedSourceBranches" (AllowedSourceBranchPatterns rules) ≫= λ branches,
  normalizeList "allowedSourceTags" (AllowedSourceTagPatterns rules) ≫= λ tags,
  for_each (λ r, fail_if (negb (has_some (NewConstraint r))) (InvalidRange r)) ranges ≫= λ _,
  validateGlobPatterns "allowedPrereleasePatterns" prereleases ≫= λ _,
  validateGlobPatterns "allowedSourceBranches" branches ≫= λ _,
  validateGlobPatterns "allowedSourceTags" tags ≫= λ _,
  Ok {| AllowedVersionRanges := ranges; AllowedPrereleasePatterns := prereleases;
        AllowedSourceBranchPatterns := branches; AllowedSourceTagPatterns := tags |}.

(** ** Evaluation

    [glob.MustCompile] panics on an invalid pattern: [None]. *)

Definition issue (field rule message : string) : Issue :=
  {| iss_Field := field; iss_Rule := rule; iss_Message := message |}.

Fixpoint matchesAny (patterns : list string) (value : string) : option bool :=
  match patterns with
  | [] => Some false
  | pattern :: patterns =>
      match Compile pattern with
      | None => None
      | Some compiled => if compiled value then Some true else matchesAny patterns value
      end
  end.

Definition evaluateVersionRanges (ranges : list string) (version : Version) : list Issue :=
  if bool_decide (length ranges = 0) then [] else
  if existsb (λ r, match NewConstraint r with Some check => check version | None => false end) ranges then [] else
  [issue "version" (String.concat ", " ranges) "version does not match an allowed range"].

Definition evaluatePrereleasePatterns (patterns : list string) (version : Version) : option (list Issue) :=
  let prerelease := Prerelease version in
  if bool_decide (prerelease = "") || bool_decide (length patterns = 0) then Some [] else
  matchesAny patterns prerelease ≫= λ matched : bool,
  Some (if matched then []
        else [issue "prerelease" (String.concat ", " patterns) "prerelease does not match an allowed pattern"]).

(** The two halves of [evaluateSourceRules], for the branch and for the tag. *)
Definition evaluate_source (field : string) (patterns : list string) (value disallowed mismatch : string)
    : option (list Issue) :=
  if bool_decide (value = "") then Some [] else
  if bool_decide (length patterns = 0) then Some [issue field "notAllowed" disallowed] else
  matchesAny patterns value ≫= λ matched : bool,
  Some (if matched then [] else [issue field (String.concat ", " patterns) mismatch]).

Definition evaluateSourceRules (rules : Rules) (input : Input) : option (list Issue) :=
  let branches := AllowedSourceBranchPatterns rules in
  let tags := AllowedSourceTagPatterns rules in
  if bool_decide (length branches = 0) && bool_decide (length tags = 0) then Some [] else
  if bool_decide (in_SourceBranch input = "") && bool_decide (in_SourceTag input = "")
  then Some [issue "source" "required" "sourceBranch or sourceTag is required by this channel"] else
  evaluate_source "sourceBranch" branches (in_SourceBranch input) "branch sources are not allowed by this channel"
    "source branch does not match an allowed pattern" ≫= λ branch_issues : list Issue,
  evaluate_source "sourceTag" tags (in_SourceTag input) "tag sources are not allowed by this channel"
    "source tag does not match an allowed pattern" ≫= λ tag_issues : list Issue,
  Some (branch_issues ++ tag_issues).

Definition trim_input (input : Input) : Input :=
  {| in_Version := TrimSpace (in_Version input); in_SourceBranch := TrimSpace (in_SourceBranch input);
     in_SourceTag := TrimSpace (in_SourceTag input) |}.

Definition evaluate_version (rules : Rules) (version : string) : option (list Issue) :=
  match StrictNewVersion version with
  | None => Some [issue "version" "semver" "version must be a valid SemVer 2.0 version"]
  | Some v =>
      evaluatePrereleasePatterns (AllowedPrereleasePatterns rules) v ≫= λ issues : list Issue,
      Some (evaluateVersionRanges (AllowedVersionRanges rules) v ++ issues)
  end.

Definition evaluateNormalized (rules : Rules) (input : Input) (includeVersion includeSource : bool) : option Result :=
  let input := trim_input input in
  (if includeVersion then evaluate_version rules (in_Version input) else Some []) ≫= λ versions : list Issue,
  (if includeSource then evaluateSourceRules rules input else Some []) ≫= λ sources : list Issue,
  let issues := versions ++ sources in
  Some {| Valid := bool_decide (length issues = 0); Issues := issues |}.

(** [None] is a panic. *)
Definition evaluate_rules (includeVersion includeSource : bool) (rules : Rules) (input : Input)
    : option (result rule_error Result) :=
  match NormalizeRules rules with
  | Err e => Some (Err e)
  | Ok rules => Ok <$> evaluateNormalized rules input includeVersion includeSource
  end.

Definition Evaluate : Rules -> Input -> option (result rule_error Result) := evaluate_rules true true.
Definition EvaluateVersion : Rules -> Input -> option (result rule_error Result) := evaluate_rules true false.
Definition EvaluateSource : Rules -> Input -> option (result rule_error Result) := evaluate_rules false true.
End rules.

(** ** What the rules accept *)

Section guarantees.
Context `{RuleLibrary}.

Definition trim_rules (r : Rules) : Rules :=
  {| AllowedVersionRanges := TrimSpace <$> AllowedVersionRanges r;
     AllowedPrereleasePatterns := TrimSpace <$> AllowedPrereleasePatterns r;
     AllowedSourceBranchPatterns := TrimSpace <$> AllowedSourceBranchPatterns r;
     AllowedSourceTagPatterns := TrimSpace <$> AllowedSourceTagPatterns r |}.

Definition values_ok (l : list string) : Prop := ("" ∉ l) /\ NoDup l.
Definition globs_ok (l : list string) : Prop := forall p, p ∈ l -> is_Some (Compile p).

(** Rules without empty or repeated values that the library can compile. *)
Definition rules_ok (r : Rules) : Prop :=
  (values_ok (AllowedVersionRanges r) /\ values_ok (AllowedPrereleasePatterns r)
   /\ values_ok (AllowedSourceBranchPatterns r) /\ values_ok (AllowedSourceTagPatterns r))
  /\ (forall c, c ∈ AllowedVersionRanges r -> is_Some (NewConstraint c))
  /\ globs_ok (AllowedPrereleasePatterns r) /\ globs_ok (AllowedSourceBranchPatterns r)
  /\ globs_ok (AllowedSourceTagPatterns r).

Definition glob_accepts (patterns : list string) (value : string) : Prop :=
  exists p m, p ∈ patterns /\ Compile p = Some m /\ m value = true.

Definition version_accepted (r : Rules) (version : string) : Prop :=
  exists v, StrictNewVersion version = Some v
    /\ (AllowedVersionRanges r = []
        \/ exists c check, c ∈ AllowedVersionRanges r /\ NewConstraint c = Some check /\ check v = true)
    /\ (Prerelease v = "" \/ AllowedPrereleasePatterns r = [] \/ glob_accepts (AllowedPrereleasePatterns r) (Prerelease v)).

(** Without source rules every source is accepted; otherwise a branch or a tag is
    required, and each given one needs a matching pattern of its own kind. *)
Definition source_accepted (r : Rules) (branch tag : string) : Prop :=
  (AllowedSourceBranchPatterns r = [] /\ AllowedSourceTagPatterns r = [])
  \/ (branch <> "" \/ tag <> "")
     /\ (branch <> "" -> glob_accepts (AllowedSourceBranchPatterns r) branch)
     /\ (tag <> "" -> glob_accepts (AllowedSourceTagPatterns r) tag).

(** *** Normalization *)

Lemma normalize_values_ok field seen l l' :
  normalize_values field seen l = Ok l'
  <-> l' = TrimSpace <$> l /\ values_ok l' /\ forall x, x ∈ l' -> x ∉ seen.
Proof.
  unfold values_ok. revert seen l'. induction l as [|x l IH]; intros seen l'; cbn [normalize_values fmap list_fmap].
  - split; [intros [= <-]; split_and!; [done|apply not_elem_of_nil|constructor|by intros y ?%elem_of_nil]|by intros [-> _]].
  - case_bool_decide as Ex; [split; [done|]; intros (-> & [Hn _] & _); destruct Hn; rewrite Ex; by left|].
    destruct (contains seen (TrimSpace x)) eqn:Es.
    { apply contains_true in Es. split; [done|]. intros (-> & _ & Hd). by destruct (Hd (TrimSpace x)); [left|]. }
    apply contains_false in Es. rewrite result_bind_ok. split.
    + intros (k & Hk%IH & [= <-]). destruct Hk as (-> & [Hn Hd] & Hs). split_and!; [done| | |].
      * rewrite elem_of_cons. naive_solver.
      * constructor; [|done]. intros Hin. apply (Hs _ Hin). by left.
      * intros y [->|Hy]%elem_of_cons; [done|]. intros Hin. apply (Hs y Hy). by right.
    + intros (-> & [Hn Hd] & Hs). exists (TrimSpace <$> l). split; [|done]. apply IH. apply NoDup_cons in Hd as [Hx Hd].
      split_and!; [done| |done|].
      * intros Hin. apply Hn. by right.
      * intros y Hy [->|Hin]%elem_of_cons; [done|]. by apply (Hs y); [right|].
Qed.

Lemma normalizeList_ok field l l' : normalizeList field l = Ok l' <-> l' = TrimSpace <$> l /\ values_ok l'.
Proof. unfold normalizeList. rewrite normalize_values_ok. split; [tauto|]. intros [??]. split_and!; try done. intros x _. apply not_elem_of_nil. Qed.

Lemma for_each_fail {A E} (f : A -> bool) (e : A -> E) l :
  for_each (λ x, fail_if (negb (f x)) (e x)) l = Ok tt <-> forall x, x ∈ l -> f x = true.
Proof.
  rewrite for_each_ok, Forall_forall. setoid_rewrite fail_if_ok. by setoid_rewrite negb_false_iff.
Qed.

Lemma has_some_true {A} (x : option A) : has_some x = true <-> is_Some x.
Proof. destruct x; naive_solver. Qed.

Lemma validateGlobPatterns_ok field l : validateGlobPatterns field l = Ok tt <-> globs_ok l.
Proof. unfold validateGlobPatterns, globs_ok. rewrite for_each_fail. by setoid_rewrite has_some_true. Qed.

Lemma NormalizeRules_ok rules r : NormalizeRules rules = Ok r <-> r = trim_rules rules /\ rules_ok r.
Proof.
  unfold NormalizeRules, rules_ok. split.
  - intros (? & [-> H1]%normalizeList_ok & E)%result_bind_ok. apply result_bind_ok in E as (? & [-> H2]%normalizeList_ok & E).
    apply result_bind_ok in E as (? & [-> H3]%normalizeList_ok & E).
    apply result_bind_ok in E as (? & [-> H4]%normalizeList_ok & E).
    apply result_bind_ok in E as ([] & E1 & E). rewrite for_each_fail in E1. apply result_bind_ok in E as ([] & E2 & E).
    apply result_bind_ok in E as ([] & E3 & E). apply result_bind_ok in E as ([] & E4 & [= <-]).
    rewrite validateGlobPatterns_ok in E2, E3, E4.
    split; [done|]. simpl. split_and!; try done. intros c Hc. apply has_some_true, E1, Hc.
  - intros (-> & (H1 & H2 & H3 & H4) & Hc & H5 & H6 & H7). cbn in H1, H2, H3, H4, Hc, H5, H6, H7.
    rewrite (proj2 (normalizeList_ok _ _ _) (conj eq_refl H1)). cbn [mbind result_bind].
    rewrite (proj2 (normalizeList_ok _ _ _) (conj eq_refl H2)). cbn [mbind result_bind].
    rewrite (proj2 (normalizeList_ok _ _ _) (conj eq_refl H3)). cbn [mbind result_bind].
    rewrite (proj2 (normalizeList_ok _ _ _) (conj eq_refl H4)). cbn [mbind result_bind].
    rewrite (proj2 (for_each_fail (λ c, has_some (NewConstraint c)) InvalidRange (TrimSpace <$> AllowedVersionRanges rules)))
      by (intros c Hc'; apply has_some_true, Hc, Hc').
    cbn [mbind result_bind]. rewrite (proj2 (validateGlobPatterns_ok _ _) H5), (proj2 (validateGlobPatterns_ok _ _) H6).
    by rewrite (proj2 (validateGlobPatterns_ok _ _) H7).
Qed.

(** *** Evaluation *)

Lemma matchesAny_spec patterns value :
  globs_ok patterns -> exists b, matchesAny patterns value = Some b /\ (b = true <-> glob_accepts patterns value).
Proof.
  unfold glob_accepts. induction patterns as [|p l IH]; intros Hg.
  - exists false. split; [done|]. split; [done|]. by intros (p & m & Hp%elem_of_nil & _).
  - destruct (Hg p) as [m Em]; [by left|]. simpl. rewrite Em. destruct (m value) eqn:Ev.
    + exists true. split; [done|]. split; [|done]. intros _. exists p, m. by split; [left|].
    + destruct IH as (b & -> & Hb); [intros q Hq; apply Hg; by right|]. exists b. split; [done|]. rewrite Hb. split.
      * intros (q & k & Hq & Hk). exists q, k. split; [by right|done].
      * intros (q & k & [->|Hq]%elem_of_cons & Eq & Hk); [congruence|]. by exists q, k.
Qed.

Lemma evaluateVersionRanges_nil ranges v :
  evaluateVersionRanges ranges v = []
  <-> ranges = [] \/ exists c check, c ∈ ranges /\ NewConstraint c = Some check /\ check v = true.
Proof.
  unfold evaluateVersionRanges. case_bool_decide as E; [apply length_zero_iff_nil in E as ->; tauto|].
  destruct (existsb _ ranges) eqn:Ex.
  - apply existsb_exists in Ex as (c & Hc%list_elem_of_In & Hv). destruct (NewConstraint c) as [check|] eqn:Ec; [|done].
    split; [|done]. intros _. right. by exists c, check.
  - split; [done|]. intros [->|(c & check & Hc & Ec & Hv)]; [done|]. apply not_true_iff_false in Ex. destruct Ex.
    apply existsb_exists. exists c. rewrite Ec. by apply list_elem_of_In in Hc.
Qed.

Lemma evaluatePrereleasePatterns_spec patterns v :
  globs_ok patterns -> exists l, evaluatePrereleasePatterns patterns v = Some l
    /\ (l = [] <-> Prerelease v = "" \/ patterns = [] \/ glob_accepts patterns (Prerelease v)).
Proof.
  intros Hg. unfold evaluatePrereleasePatterns. case_bool_decide as E1; [exists []; tauto|].
  case_bool_decide as E2; [apply length_zero_iff_nil in E2; exists []; simpl; tauto|]. simpl.
  destruct (matchesAny_spec patterns (Prerelease v) Hg) as (b & -> & Hb). simpl. eexists. split; [done|].
  rewrite <- Hb. assert (patterns <> []) by (by intros ->). destruct b; naive_solver.
Qed.

Lemma evaluate_version_spec r version :
  rules_ok r -> exists l, evaluate_version r version = Some l /\ (l = [] <-> version_accepted r version).
Proof.
  intros (_ & _ & Hg & _). unfold evaluate_version, version_accepted. destruct (StrictNewVersion version) as [v|].
  - destruct (evaluatePrereleasePatterns_spec _ v Hg) as (l & -> & Hl). simpl. eexists. split; [done|].
    rewrite app_nil, Hl, evaluateVersionRanges_nil. naive_solver.
  - eexists. split; [done|]. naive_solver.
Qed.

Lemma evaluate_source_spec field patterns value disallowed mismatch :
  globs_ok patterns -> exists l, evaluate_source field patterns value disallowed mismatch = Some l
    /\ (l = [] <-> (value <> "" -> glob_accepts patterns value)).
Proof.
  intros Hg. unfold evaluate_source. case_bool_decide as E1; [exists []; tauto|]. case_bool_decide as E2.
  - apply length_zero_iff_nil in E2 as ->. eexists. split; [done|]. split; [done|]. intros Hv.
    destruct (Hv E1) as (p & m & Hp & _). by apply elem_of_nil in Hp.
  - destruct (matchesAny_spec patterns value Hg) as (b & -> & Hb). simpl. eexists. split; [done|]. destruct b; naive_solver.
Qed.

Lemma evaluateSourceRules_spec r i :
  rules_ok r -> exists l, evaluateSourceRules r i = Some l
    /\ (l = [] <-> source_accepted r (in_SourceBranch i) (in_SourceTag i)).
Proof.
  intros (_ & _ & _ & Hb & Ht). unfold evaluateSourceRules, source_accepted.
  destruct (bool_decide (length (AllowedSourceBranchPatterns r) = 0) && bool_decide (length (AllowedSourceTagPatterns r) = 0))
    eqn:E; [exists []; split; [done|]; split; [|done]; intros _; left; to_prop; by split; apply length_zero_iff_nil|].
  assert (~ (AllowedSourceBranchPatterns r = [] /\ AllowedSourceTagPatterns r = [])) as Hne by (by intros [E1 E2]; rewrite E1, E2 in E).
  destruct (bool_decide (in_SourceBranch i = "") && bool_decide (in_SourceTag i = "")) eqn:Ei.
  { eexists. split; [done|]. split; [done|]. to_prop. tauto. }
  assert (in_SourceBranch i <> "" \/ in_SourceTag i <> "") as Hi.
  { destruct (decide (in_SourceBranch i = "")) as [E1|]; [|tauto]. right. intros E2. by rewrite E1, E2 in Ei. }
  edestruct (evaluate_source_spec "sourceBranch" (AllowedSourceBranchPatterns r) (in_SourceBranch i)) as (k & -> & Hk); [done|].
  edestruct (evaluate_source_spec "sourceTag" (AllowedSourceTagPatterns r) (in_SourceTag i)) as (l & -> & Hl); [done|].
  simpl. eexists. split; [done|]. rewrite app_nil, Hk, Hl. tauto.
Qed.

Lemma NormalizeRules_again rules r : NormalizeRules rules = Ok r -> NormalizeRules r = Ok r.
Proof.
  rewrite !NormalizeRules_ok. intros [-> Hr].
  assert (trim_rules (trim_rules rules) = trim_rules rules) as E; [|by rewrite E].
  unfold trim_rules. simpl. f_equal; rewrite <- list_fmap_compose; apply list_fmap_ext; intros; apply TrimSpace_idem.
Qed.

(** Normalized rules can be evaluated. *)
Lemma evaluate_total r input : NormalizeRules r = Ok r -> exists result, Evaluate r input = Some (Ok result).
Proof.
  intros E. pose proof E as [_ Hr]%NormalizeRules_ok. unfold Evaluate, evaluate_rules, evaluateNormalized. rewrite E. cbn zeta.
  destruct (evaluate_version_spec _ (in_Version (trim_input input)) Hr) as (k & -> & _).
  destruct (evaluateSourceRules_spec _ (trim_input input) Hr) as (l & -> & _). by eexists.
Qed.

(** What the rules of a channel accept. Rules are normalized exactly when,
    trimmed, they have no empty and no repeated value and the library can compile
    them; an evaluation of other rules is an error, and none ever panics. A release
    is valid exactly when its version is a semantic version in one of the ranges,
    if there are ranges, with a prerelease of an allowed pattern, and its source is
    accepted; the issues of the version come first, then those of the source. *)
Theorem channel_rules_decide rules input :
  (forall r, NormalizeRules rules = Ok r <-> r = trim_rules rules /\ rules_ok r)
  /\ (~ rules_ok (trim_rules rules) -> exists e, Evaluate rules input = Some (Err e))
  /\ (rules_ok (trim_rules rules) ->
      let r := trim_rules rules in let i := trim_input input in
      exists whole version source, Evaluate rules input = Some (Ok whole)
        /\ EvaluateVersion rules input = Some (Ok version) /\ EvaluateSource rules input = Some (Ok source)
        /\ Issues whole = Issues version ++ Issues source
        /\ (Valid version = true <-> version_accepted r (in_Version i))
        /\ (Valid source = true <-> source_accepted r (in_SourceBranch i) (in_SourceTag i))
        /\ (Valid whole = true <-> Valid version = true /\ Valid source = true)).
Proof.
  split_and!; [apply NormalizeRules_ok| |].
  - intros Hn. unfold Evaluate, evaluate_rules. destruct (NormalizeRules rules) as [r|e] eqn:E; [|by exists e].
    by apply NormalizeRules_ok in E as [-> E].
  - intros Hr. assert (NormalizeRules rules = Ok (trim_rules rules)) as E by by apply NormalizeRules_ok.
    unfold Evaluate, EvaluateVersion, EvaluateSource, evaluate_rules, evaluateNormalized. rewrite E. cbn zeta.
    destruct (evaluate_version_spec _ (in_Version (trim_input input)) Hr) as (k & -> & Hk).
    destruct (evaluateSourceRules_spec _ (trim_input input) Hr) as (l & -> & Hl).
    do 3 eexists. split_and!; [reflexivity..|simpl; by rewrite app_nil_r| | |]; simpl;
      rewrite ?app_nil_r, !bool_decide_eq_true, ?length_app, !length_zero_iff_nil; try done.
    rewrite <- !length_zero_iff_nil. lia.
Qed.
End guarantees.

(** ** Witness *)

Module RulesDemo.
(** A library for two versions, with patterns that end in a star. *)
#[export] Instance library : RuleLibrary := {|
  Version := string * string;
  StrictNewVersion s := if bool_decide (s = "1.2.0") then Some (s, "") else
                        if bool_decide (s = "1.3.0-rc.1") then Some (s, "rc.1") else None;
  Prerelease := snd;
  NewConstraint s := if bool_decide (s = ">=1.3.0-0") then Some (λ v, bool_decide (fst v = "1.3.0-rc.1")) else
                     if bool_decide (s = ">=1.0.0") then Some (λ _, true) else None;
  Compile p := if bool_decide (p = "[") then None else
               if bool_decide (p = "release/*") then Some (String.prefix "release/") else
               Some (λ v, bool_decide (v = p)) |}.

Definition rules : Rules :=
  {| AllowedVersionRanges := [" >=1.3.0-0"; ">=1.0.0 "]; AllowedPrereleasePatterns := ["rc.1"];
     AllowedSourceBranchPatterns := ["main"; "release/*"]; AllowedSourceTagPatterns := [] |}.
Definition input (version branch tag : string) : Input :=
  {| in_Version := version; in_SourceBranch := branch; in_SourceTag := tag |}.

Example demo_results :
  (λ i, match Evaluate rules i with Some (Ok r) => (Valid r, iss_Field <$> Issues r) | _ => (false, []) end)
    <$> [input "1.3.0-rc.1" "release/1" ""; input "1.2.0" "" ""; input "one" "feature" "v1"]
  = [(true, []); (false, ["source"]); (false, ["version"; "sourceBranch"; "sourceTag"])].
Proof. vm_compute. reflexivity. Qed.
End RulesDemo.

Section witness.
Import RulesDemo.

Lemma channel_rules_decide_witness :
  exists whole, Evaluate RulesDemo.rules (RulesDemo.input "1.3.0-rc.1" "release/1" "") = Some (Ok whole)
    /\ Valid whole = true.
Proof.
  destruct (channel_rules_decide RulesDemo.rules (RulesDemo.input "1.3.0-rc.1" "release/1" "")) as (Hn & _ & H).
  assert (rules_ok (trim_rules RulesDemo.rules)) as Hr by (apply (Hn (trim_rules RulesDemo.rules)); by vm_compute).
  destruct (H Hr) as (whole & version & source & E & Ev & Es & _ & _ & _ & Hw). exists whole. split; [exact E|].
  apply Hw. clear Hw. vm_compute in Ev, Es. injection Ev as <-. injection Es as <-. split; reflexivity.
Defined.
End witness.
