(* ===== verification/Channels.v ===== *)
(** * Channels ([internal/db/channels.go], [internal/types/channel.go],
    [internal/handlers/channels.go], [api/channel.go])

    The channels of an application and the one among them that is the default.
    The columns [created_at] and [updated_at] are left out. *)
From S2P Require Import Prelude GoStrings Uuid TaskStore Transaction ChannelRules.
Open Scope list_scope.

(** ** Data *)

Record Channel := {
  ch_ID : uuid;
  ch_OrganizationID : uuid;
  ch_ApplicationID : uuid;
  ch_LifecycleID : uuid;
  ch_Name : string;
  ch_Description : string;
  ch_SortOrder : Z;
  ch_IsDefault : bool;
  ch_Rules : Rules;
}.

Record CreateUpdateChannelRequest := {
  cu_ApplicationID : uuid;
  cu_LifecycleID : uuid;
  cu_Name : string;
  cu_Description : string;
  cu_SortOrder : Z;
  cu_IsDefault : bool;
  cu_Rules : Rules;
}.

Record LifecycleRow := { lc_ID : uuid; lc_OrganizationID : uuid; lc_Name : string; lc_SortOrder : Z }.

(** The tables. [Applications] are the existing applications with their
    organization. [References] are the channels that release bundles and process
    steps name with their application, [ScopedValues] those that variable values
    name; both restrict a deletion, the former also a change of the application.
    [ManagedByGit] are the channels whose authority is Git. *)
Record cdb := {
  Channels : list Channel;
  Applications : list (uuid * uuid);
  Lifecycles : list LifecycleRow;
  References : list uuid;
  ScopedValues : list uuid;
  ManagedByGit : list (uuid * uuid);
}.

Definition set_channels (l : list Channel) (s : cdb) : cdb :=
  {| Channels := l; Applications := Applications s; Lifecycles := Lifecycles s; References := References s;
     ScopedValues := ScopedValues s; ManagedByGit := ManagedByGit s |}.
Definition set_git (l : list (uuid * uuid)) (s : cdb) : cdb :=
  {| Channels := Channels s; Applications := Applications s; Lifecycles := Lifecycles s; References := References s;
     ScopedValues := ScopedValues s; ManagedByGit := l |}.

(** The generated keys. *)
Record cenv := { c_new_id : uuid; c_new_ids : nat -> uuid }.

Abbreviation ctx := (stx cdb).

Definition with_default (b : bool) (c : Channel) : Channel :=
  {| ch_ID := ch_ID c; ch_OrganizationID := ch_OrganizationID c; ch_ApplicationID := ch_ApplicationID c;
     ch_LifecycleID := ch_LifecycleID c; ch_Name := ch_Name c; ch_Description := ch_Description c;
     ch_SortOrder := ch_SortOrder c; ch_IsDefault := b; ch_Rules := ch_Rules c |}.
Definition with_channel_id (id : uuid) (c : Channel) : Channel :=
  {| ch_ID := id; ch_OrganizationID := ch_OrganizationID c; ch_ApplicationID := ch_ApplicationID c;
     ch_LifecycleID := ch_LifecycleID c; ch_Name := ch_Name c; ch_Description := ch_Description c;
     ch_SortOrder := ch_SortOrder c; ch_IsDefault := ch_IsDefault c; ch_Rules := ch_Rules c |}.

(** ** Queries *)

Definition channel_where (id org : uuid) (c : Channel) : bool :=
  bool_decide (ch_ID c = id) && bool_decide (ch_OrganizationID c = org).
Definition in_application (org application : uuid) (c : Channel) : bool :=
  bool_decide (ch_OrganizationID c = org) && bool_decide (ch_ApplicationID c = application).

Definition find_channel (id org : uuid) (s : cdb) : result apierror Channel :=
  match select_where (channel_where id org) (Channels s) with c :: _ => Ok c | [] => Err NotFound end.
(** [FOR UPDATE] makes other transactions wait; the row is the same. *)
Definition getChannel (id org : uuid) : ctx Channel := squery (find_channel id org).
Definition GetChannel (id org : uuid) (s : cdb) : result apierror Channel := find_channel id org s.

Definition EnsureConfigAsCodeDatabaseManagedForUpdate (org id : uuid) : ctx unit :=
  getChannel id org ≫= λ _,
  sforbid (λ s, contains (ManagedByGit s) (org, id)) (Conflict "resource is managed by Git").
Definition DeleteConfigAsCodeAuthorityForResource (org id : uuid) : ctx unit :=
  smodify (λ s, set_git (select_where (λ k, negb (bool_decide (k = (org, id)))) (ManagedByGit s)) s).

Definition ensureChannelReferences (org application lifecycle : uuid) : ctx unit :=
  sforbid (λ s, negb (contains (Applications s) (application, org)
    && exists_where (λ l, bool_decide (lc_ID l = lifecycle) && bool_decide (lc_OrganizationID l = org)) (Lifecycles s)))
    NotFound.

Definition clearDefaultChannels (org application except : uuid) : ctx unit := smodify (λ s, set_channels
  (update_where (λ c, in_application org application c && negb (bool_decide (ch_ID c = except))) (with_default false)
    (Channels s)) s).

Definition defaultChannelExists (org application except : uuid) (s : cdb) : bool :=
  exists_where (λ c, in_application org application c && ch_IsDefault c && negb (bool_decide (ch_ID c = except)))
    (Channels s).

(** The decision about the default, common to creation and update; [except] is the
    nil id for a new channel. *)
Definition decide_default (channel : Channel) (except : uuid) : ctx Channel :=
  if ch_IsDefault channel
  then clearDefaultChannels (ch_OrganizationID channel) (ch_ApplicationID channel) except ≫= λ _, mret channel
  else sreads (defaultChannelExists (ch_OrganizationID channel) (ch_ApplicationID channel) except) ≫= λ exists_ : bool,
       mret (if exists_ then channel else with_default true channel).

(** The constraints of the table: the sort order is a non-negative [INTEGER], the
    name and the default are unique in the application. *)
Definition sort_order_ok (c : Channel) : bool := (0 <=? ch_SortOrder c)%Z && (ch_SortOrder c <=? 2147483647)%Z.
Definition channel_taken (c : Channel) (s : cdb) : bool :=
  exists_where (λ d, negb (bool_decide (ch_ID d = ch_ID c))
    && in_application (ch_OrganizationID c) (ch_ApplicationID c) d
    && (bool_decide (ch_Name d = ch_Name c) || ch_IsDefault d && ch_IsDefault c)) (Channels s).

(** ** Operations *)

Definition insert_channel (c : Channel) : ctx Channel := λ s,
  if negb (sort_order_ok c) then Err (Internal "could not insert Channel") else
  if contains (ch_ID <$> Channels s) (ch_ID c) || channel_taken c s
  then Err (AlreadyExists "could not insert Channel")
  else Ok (c, set_channels (Channels s ++ [c]) s).

Definition CreateChannel (env : cenv) (channel : Channel) (s : cdb) : result apierror Channel * cdb :=
  RunSTx (ensureChannelReferences (ch_OrganizationID channel) (ch_ApplicationID channel) (ch_LifecycleID channel) ≫= λ _,
          decide_default channel Nil ≫= λ channel,
          insert_channel (with_channel_id (c_new_id env) channel)) s.

Definition update_channel (c : Channel) : ctx Channel := λ s,
  if negb (sort_order_ok c) then Err (Internal "could not update Channel") else
  if channel_taken c s then Err (AlreadyExists "could not update Channel") else
  match select_where (channel_where (ch_ID c) (ch_OrganizationID c)) (Channels s) with
  | [] => Err NotFound
  | old :: _ =>
      if negb (bool_decide (ch_ApplicationID old = ch_ApplicationID c)) && contains (References s) (ch_ID c)
      then Err (Conflict "could not update Channel")
      else Ok (c, set_channels (update_where (channel_where (ch_ID c) (ch_OrganizationID c)) (λ _, c) (Channels s)) s)
  end.

Definition UpdateChannel (channel : Channel) (s : cdb) : result apierror Channel * cdb :=
  RunSTx (
    getChannel (ch_ID channel) (ch_OrganizationID channel) ≫= λ existing,
    EnsureConfigAsCodeDatabaseManagedForUpdate (ch_OrganizationID channel) (ch_ID channel) ≫= λ _,
    scheck (ch_IsDefault existing && negb (ch_IsDefault channel)) (Conflict "could not update Channel") ≫= λ _,
    scheck (ch_IsDefault existing && negb (bool_decide (ch_ApplicationID existing = ch_ApplicationID channel)))
      (Conflict "could not update Channel") ≫= λ _,
    ensureChannelReferences (ch_OrganizationID channel) (ch_ApplicationID channel) (ch_LifecycleID channel) ≫= λ _,
    decide_default channel (ch_ID channel) ≫= λ channel,
    update_channel channel) s.

(** The message of the conflict is that of the driver. *)
Definition delete_channel (id org : uuid) : ctx unit := λ s,
  if contains (References s) id || contains (ScopedValues s) id then Err (Conflict "") else
  if negb (exists_where (channel_where id org) (Channels s)) then Err NotFound else
  Ok (tt, set_channels (select_where (λ c, negb (channel_where id org c)) (Channels s)) s).

Definition DeleteChannelWithID (id org : uuid) (s : cdb) : result apierror unit * cdb :=
  RunSTx (
    getChannel id org ≫= λ existing,
    scheck (ch_IsDefault existing) (Conflict "could not delete Channel") ≫= λ _,
    EnsureConfigAsCodeDatabaseManagedForUpdate org id ≫= λ _,
    DeleteConfigAsCodeAuthorityForResource org id ≫= λ _,
    delete_channel id org) s.

Definition no_rules : Rules :=
  {| AllowedVersionRanges := []; AllowedPrereleasePatterns := []; AllowedSourceBranchPatterns := [];
     AllowedSourceTagPatterns := [] |}.

Section collation.
Context `{Collation}.

(** [ORDER BY sort_order, name, id LIMIT 1] *)
Definition lifecycle_less (x y : LifecycleRow) : bool :=
  less_then lc_SortOrder (λ x y, if bool_decide (lc_Name x = lc_Name y) then less_str_by (λ l, uuid_string (lc_ID l)) x y
                                 else name_less (lc_Name x) (lc_Name y)) x y.
Definition first_lifecycle (org : uuid) (s : cdb) : option LifecycleRow :=
  head (stable_sort lifecycle_less (select_where (λ l, bool_decide (lc_OrganizationID l = org)) (Lifecycles s))).

Definition default_channel (id org application lifecycle : uuid) : Channel :=
  {| ch_ID := id; ch_OrganizationID := org; ch_ApplicationID := application; ch_LifecycleID := lifecycle;
     ch_Name := "Stable"; ch_Description := "Default channel"; ch_SortOrder := 0; ch_IsDefault := true;
     ch_Rules := no_rules |}.

(** The selected rows; one that conflicts with a row is left out. *)
Definition EnsureDefaultChannels (env : cenv) (org : uuid) (s : cdb) : cdb :=
  match first_lifecycle org s with
  | None => s
  | Some l =>
      let missing := select_where (λ a, bool_decide (snd a = org)
        && negb (exists_where (in_application org (fst a)) (Channels s))) (Applications s) in
      let rows := imap (λ i a, default_channel (c_new_ids env i) org (fst a) (lc_ID l)) missing in
      foldl (λ s c, if contains (ch_ID <$> Channels s) (ch_ID c) || channel_taken c s then s
                    else set_channels (Channels s ++ [c]) s) s rows
  end.
End collation.

(** ** Requests *)

Inductive channel_error := ValidationFailed (message : string) | InvalidRules (e : rule_error) | ApiError (e : apierror).

Section requests.
Context `{RuleLibrary}.

Definition with_rules (rules : Rules) (r : CreateUpdateChannelRequest) : CreateUpdateChannelRequest :=
  {| cu_ApplicationID := cu_ApplicationID r; cu_LifecycleID := cu_LifecycleID r; cu_Name := cu_Name r;
     cu_Description := cu_Description r; cu_SortOrder := cu_SortOrder r; cu_IsDefault := cu_IsDefault r;
     cu_Rules := rules |}.

Definition Validate (r : CreateUpdateChannelRequest) : result channel_error CreateUpdateChannelRequest :=
  fail_if (trimmed_empty (cu_Name r)) (ValidationFailed "name is required") ≫= λ _,
  fail_if (is_nil (cu_ApplicationID r)) (ValidationFailed "applicationId is required") ≫= λ _,
  fail_if (is_nil (cu_LifecycleID r)) (ValidationFailed "lifecycleId is required") ≫= λ _,
  fail_if (cu_SortOrder r <? 0)%Z (ValidationFailed "sortOrder must be non-negative") ≫= λ _,
  match NormalizeRules (cu_Rules r) with
  | Err e => Err (InvalidRules e)
  | Ok rules => Ok (with_rules rules r)
  end.

Definition channelFromCreateUpdateRequest (org : uuid) (r : CreateUpdateChannelRequest) : Channel :=
  {| ch_ID := Nil; ch_OrganizationID := org; ch_ApplicationID := cu_ApplicationID r; ch_LifecycleID := cu_LifecycleID r;
     ch_Name := TrimSpace (cu_Name r); ch_Description := cu_Description r; ch_SortOrder := cu_SortOrder r;
     ch_IsDefault := cu_IsDefault r;
     ch_Rules := match NormalizeRules (cu_Rules r) with Ok rules => rules | Err _ => no_rules end |}.

Definition api_result {A} (p : result apierror A * cdb) : result channel_error A * cdb :=
  (match fst p with Ok a => Ok a | Err e => Err (ApiError e) end, snd p).

Definition createChannelHandler (env : cenv) (org : uuid) (request : CreateUpdateChannelRequest) (s : cdb)
    : result channel_error Channel * cdb :=
  match Validate request with
  | Err e => (Err e, s)
  | Ok r => api_result (CreateChannel env (channelFromCreateUpdateRequest org r) s)
  end.

Definition updateChannelHandler (id org : uuid) (request : CreateUpdateChannelRequest) (s : cdb)
    : result channel_error Channel * cdb :=
  match Validate request with
  | Err e => (Err e, s)
  | Ok r => api_result (UpdateChannel (with_channel_id id (channelFromCreateUpdateRequest org r)) s)
  end.

Definition deleteChannelHandler (id org : uuid) (s : cdb) : result channel_error unit * cdb :=
  api_result (DeleteChannelWithID id org s).
End requests.
