(* ===== verification/ChannelTables.v ===== *)
(** * The channels of an application

    Every application that has channels has exactly one default channel,
    whatever is created, changed and deleted, and the rules of every stored
    channel can be evaluated. *)
From S2P Require Import Prelude GoStrings Uuid TaskStore Transaction ChannelRules Channels.
Open Scope list_scope.

Definition app_key (c : Channel) : uuid * uuid := (ch_OrganizationID c, ch_ApplicationID c).

Lemma in_application_true org application c : in_application org application c = true <-> app_key c = (org, application).
Proof.
  unfold in_application, app_key. rewrite andb_true_iff, !bool_decide_eq_true. split; [by intros [-> ->]|by intros [= -> ->]].
Qed.

Lemma channel_where_true id org c : channel_where id org c = true <-> ch_ID c = id /\ ch_OrganizationID c = org.
Proof. unfold channel_where. by rewrite andb_true_iff, !bool_decide_eq_true. Qed.

Section channels.
Context `{RuleLibrary, Collation}.

(** ** The invariant *)

(** [d] is the only default channel of its application. *)
Definition sole_default (l : list Channel) (d : Channel) : Prop :=
  d ∈ l /\ ch_IsDefault d = true
  /\ forall e, e ∈ l -> app_key e = app_key d -> ch_IsDefault e = true -> e = d.

Record channels_ok (apps : list (uuid * uuid)) (l : list Channel) : Prop := {
  c_ids : NoDup (ch_ID <$> l);
  c_apps c : c ∈ l -> (ch_ApplicationID c, ch_OrganizationID c) ∈ apps;
  c_rules c : c ∈ l -> NormalizeRules (ch_Rules c) = Ok (ch_Rules c);
  c_names c d : c ∈ l -> d ∈ l -> app_key c = app_key d -> ch_Name c = ch_Name d -> c = d;
  c_default c : c ∈ l -> exists d, sole_default l d /\ app_key d = app_key c;
}.

(** ** Writing a channel

    After a row was written the other rows are those from before, with the default
    of its application cleared if it is to be the default. *)
Definition cleared (clear : bool) (c y : Channel) : Channel :=
  if clear && bool_decide (app_key y = app_key c) then with_default false y else y.

Record written (clear : bool) (c : Channel) (l l' : list Channel) : Prop := {
  w_ids : NoDup (ch_ID <$> l');
  w_elem x : x ∈ l' <-> x = c \/ exists y, y ∈ l /\ ch_ID y <> ch_ID c /\ x = cleared clear c y;
  w_taken x : x ∈ l' -> ch_ID x <> ch_ID c -> app_key x = app_key c ->
    ch_Name x <> ch_Name c /\ (ch_IsDefault c = true -> ch_IsDefault x = false);
  w_default : ch_IsDefault c = true
    \/ clear = false /\ exists d, d ∈ l /\ ch_ID d <> ch_ID c /\ app_key d = app_key c /\ ch_IsDefault d = true;
  w_old x : x ∈ l -> ch_ID x = ch_ID c -> ch_IsDefault x = true -> app_key x = app_key c;
}.

Lemma cleared_key clear c y : app_key (cleared clear c y) = app_key y.
Proof. unfold cleared. by destruct (_ && _). Qed.
Lemma cleared_id clear c y : ch_ID (cleared clear c y) = ch_ID y.
Proof. unfold cleared. by destruct (_ && _). Qed.
Lemma cleared_name clear c y : ch_Name (cleared clear c y) = ch_Name y.
Proof. unfold cleared. by destruct (_ && _). Qed.
Lemma cleared_other clear c y : app_key y <> app_key c -> cleared clear c y = y.
Proof. intros Hn. unfold cleared. rewrite (bool_decide_eq_false_2 _ Hn). by rewrite andb_false_r. Qed.
Lemma cleared_not c y : cleared false c y = y.
Proof. done. Qed.

Lemma written_default apps clear c l l' x :
  channels_ok apps l -> written clear c l l' -> x ∈ l' -> exists d, sole_default l' d /\ app_key d = app_key x.
Proof.
  intros Hl Hw Hx. destruct (decide (app_key x = app_key c)) as [Ek|Ek].
  - rewrite Ek. destruct (w_default _ _ _ _ Hw) as [Hd|(-> & d & Hd & Hi & Hk & Ht)].
    + exists c. split; [|done]. split_and!; [by apply (w_elem _ _ _ _ Hw); left|done|]. intros e He Hke Hde.
      pose proof He as [->|(y & Hy & Hi & ->)]%(w_elem _ _ _ _ Hw); [done|]. rewrite cleared_key in Hke.
      destruct (w_taken _ _ _ _ Hw _ He) as [_ Hf]; rewrite ?cleared_id, ?cleared_key; [done|done|].
      by rewrite (Hf Hd) in Hde.
    + destruct (c_default _ _ Hl d Hd) as (d' & (Hd' & Ht' & Hu) & Hk'). assert (d = d') as <- by by apply Hu.
      exists d. split; [|done]. split_and!; [apply (w_elem _ _ _ _ Hw); right; by exists d|done|].
      intros e He Hke Hde. apply (w_elem _ _ _ _ Hw) in He as [->|(y & Hy & Hi' & ->)]; [|rewrite cleared_not in *; by apply Hu].
      exfalso. assert (d ∈ l') as Hdl by (apply (w_elem _ _ _ _ Hw); right; by exists d).
      destruct (w_taken _ _ _ _ Hw d Hdl Hi Hk) as [_ Hf]. by rewrite (Hf Hde) in Ht.
  - apply (w_elem _ _ _ _ Hw) in Hx as [->|(y & Hy & Hi & ->)]; [done|]. rewrite cleared_key in *.
    destruct (c_default _ _ Hl y Hy) as (d & (Hd & Ht & Hu) & Hk). exists d. split; [|done].
    assert (ch_ID d <> ch_ID c) as Hid.
    { intros E. apply Ek. rewrite <- Hk. by apply (w_old _ _ _ _ Hw). }
    split_and!; [|done|].
    + apply (w_elem _ _ _ _ Hw). right. exists d. by rewrite cleared_other by congruence.
    + intros e He Hke Hde. apply (w_elem _ _ _ _ Hw) in He as [->|(z & Hz & _ & ->)]; [congruence|].
      rewrite cleared_key in Hke. rewrite cleared_other in * by congruence. by apply Hu.
Qed.

Lemma written_ok apps clear c l l' :
  channels_ok apps l -> written clear c l l' -> (ch_ApplicationID c, ch_OrganizationID c) ∈ apps ->
  NormalizeRules (ch_Rules c) = Ok (ch_Rules c) -> channels_ok apps l'.
Proof.
  intros Hl Hw Ha Hr. split.
  - apply Hw.
  - intros x [->|(y & Hy & _ & ->)]%(w_elem _ _ _ _ Hw); [done|]. apply (c_apps _ _ Hl) in Hy.
    unfold cleared. by destruct (_ && _).
  - intros x [->|(y & Hy & _ & ->)]%(w_elem _ _ _ _ Hw); [done|]. apply (c_rules _ _ Hl) in Hy.
    unfold cleared. by destruct (_ && _).
  - assert (forall x, x ∈ l' -> app_key x = app_key c -> ch_Name x = ch_Name c -> x = c) as Hc.
    { intros x Hx Hk Hn. pose proof Hx as [->|(y & Hy & Hi & ->)]%(w_elem _ _ _ _ Hw); [done|].
      destruct (w_taken _ _ _ _ Hw _ Hx) as [Hne _]; [by rewrite cleared_id|done|done]. }
    intros x z Hx Hz Hk Hn. pose proof Hx as [->|(y & Hy & _ & ->)]%(w_elem _ _ _ _ Hw); [symmetry; by apply Hc|].
    pose proof Hz as [->|(w & Hw' & _ & ->)]%(w_elem _ _ _ _ Hw); [by apply Hc|].
    rewrite !cleared_key in Hk. rewrite !cleared_name in Hn. by rewrite (c_names _ _ Hl y w).
  - intros x. by apply written_default with (apps := apps) (clear := clear) (c := c) (l := l).
Qed.

(** ** The operations write *)

Lemma with_default_false c : ch_IsDefault c = false -> with_default false c = c.
Proof. destruct c. simpl. by intros ->. Qed.

(** The rows after the decision about the default. *)
Definition decided (channel : Channel) (except : uuid) (l : list Channel) : list Channel :=
  update_where (λ y, ch_IsDefault channel && (in_application (ch_OrganizationID channel) (ch_ApplicationID channel) y
    && negb (bool_decide (ch_ID y = except)))) (with_default false) l.

Lemma decide_default_ok channel except s c s1 :
  decide_default channel except s = Ok (c, s1) ->
  c = with_default (ch_IsDefault channel
        || negb (defaultChannelExists (ch_OrganizationID channel) (ch_ApplicationID channel) except s)) channel
  /\ s1 = set_channels (decided channel except (Channels s)) s.
Proof.
  unfold decide_default, decided. destruct (ch_IsDefault channel) eqn:Ed; intros E; stx_inv.
  - match goal with H : clearDefaultChannels _ _ _ _ = _ |- _ => injection H as <- end.
    split; [|reflexivity]. destruct c. simpl in *. by rewrite Ed.
  - assert (s1 = set_channels (update_where (λ _, false) (with_default false) (Channels s1)) s1) as Es.
    { destruct s1 as [l ?????]. unfold set_channels. simpl. f_equal. unfold update_where. by rewrite list_fmap_id. }
    split; [|exact Es]. destruct (defaultChannelExists _ _ _ _); simpl; [|done]. destruct channel. simpl in *. by rewrite Ed.
Qed.

Lemma decided_elem channel except l x :
  x ∈ decided channel except l <-> exists y, y ∈ l /\
    x = if ch_IsDefault channel && bool_decide (app_key y = app_key channel) && negb (bool_decide (ch_ID y = except))
        then with_default false y else y.
Proof.
  unfold decided. rewrite elem_of_update_where.
  assert (forall y, in_application (ch_OrganizationID channel) (ch_ApplicationID channel) y
    = bool_decide (app_key y = app_key channel)) as Ha.
  { intros y. apply eq_true_iff_eq. by rewrite in_application_true, bool_decide_eq_true. }
  split; intros (y & Hy & ->); exists y; (split; [done|]); by rewrite Ha, andb_assoc.
Qed.

Lemma decided_ids channel except l : ch_ID <$> decided channel except l = ch_ID <$> l.
Proof. unfold decided. apply fmap_update_where. by intros []. Qed.

Lemma channel_taken_false c s :
  channel_taken c s = false -> forall d, d ∈ Channels s -> ch_ID d <> ch_ID c -> app_key d = app_key c ->
  ch_Name d <> ch_Name c /\ (ch_IsDefault c = true -> ch_IsDefault d = false).
Proof.
  unfold channel_taken. rewrite exists_where_false. intros Hf d Hd Hi Hk. specialize (Hf d Hd).
  rewrite (bool_decide_eq_false_2 _ Hi), (proj2 (in_application_true _ _ _)) in Hf by exact Hk. simpl in Hf.
  apply orb_false_iff in Hf as [Hn Hb]. apply bool_decide_eq_false in Hn. split; [done|]. intros E. by rewrite E, andb_true_r in Hb.
Qed.

Lemma default_exists org application except s :
  defaultChannelExists org application except s = true ->
  exists d, d ∈ Channels s /\ ch_ID d <> except /\ app_key d = (org, application) /\ ch_IsDefault d = true.
Proof.
  unfold defaultChannelExists. intros (d & Hd & Hw)%exists_where_true. rewrite !andb_true_iff in Hw.
  destruct Hw as [[Ha Ht] Hi]. apply in_application_true in Ha. apply negb_true_iff, bool_decide_eq_false in Hi. by exists d.
Qed.

Lemma ensureChannelReferences_ok org application lifecycle s u s' :
  ensureChannelReferences org application lifecycle s = Ok (u, s') -> (application, org) ∈ Applications s /\ s' = s.
Proof.
  unfold ensureChannelReferences. intros [E ->]%sforbid_ok. split; [|done]. apply negb_false_iff, andb_true_iff in E as [E _]. by apply contains_true.
Qed.

(** What a successful creation or update did. *)
Record wrote (channel : Channel) (except : uuid) (s : cdb) (c : Channel) (s' : cdb) : Prop := {
  wr_row : c = with_channel_id (ch_ID c) (with_default (ch_IsDefault channel
    || negb (defaultChannelExists (ch_OrganizationID channel) (ch_ApplicationID channel) except s)) channel);
  wr_app : (ch_ApplicationID channel, ch_OrganizationID channel) ∈ Applications s;
  wr_state : s' = set_channels (Channels s') s;
  wr_written : written (ch_IsDefault channel) c (Channels s) (Channels s');
}.

Lemma create_ok env channel s c s' :
  NoDup (ch_ID <$> Channels s) -> CreateChannel env channel s = (Ok c, s') ->
  wrote channel Nil s c s' /\ ch_ID c = c_new_id env /\ (c_new_id env ∉ ch_ID <$> Channels s)
  /\ Channels s' = decided channel Nil (Channels s) ++ [c].
Proof.
  intros Hn. unfold CreateChannel. intros [(? & [= <-] & E)|(e & [=] & _)]%RunSTx_cases. stx_inv.
  match goal with H : ensureChannelReferences _ _ _ _ = _ |- _ => apply ensureChannelReferences_ok in H as [Ha ->] end.
  match goal with H : decide_default _ _ _ = _ |- _ => apply decide_default_ok in H as [-> ->] end.
  unfold insert_channel in E. simpl in E. rewrite decided_ids in E. destruct (negb _); [done|].
  destruct (contains _ _) eqn:Ei; [done|]. apply contains_false in Ei. simpl in E.
  set (c0 := with_channel_id _ _) in *. destruct (channel_taken c0 _) eqn:Et; [done|]. injection E as <- <-.
  pose proof (channel_taken_false _ _ Et) as Htaken. cbn [Channels set_channels] in Htaken |- *.
  split; [|by split_and!]. split; [done|done|done|].
  change (written (ch_IsDefault channel) c0 (Channels s) (decided channel Nil (Channels s) ++ [c0])).
  assert (forall y, y ∈ Channels s -> ch_ID y <> ch_ID c0) as Hfresh.
  { intros y Hy E. apply Ei. change (c_new_id env) with (ch_ID c0). rewrite <- E. by apply list_elem_of_fmap_2. }
  assert (forall x, x ∈ decided channel Nil (Channels s)
    <-> exists y, y ∈ Channels s /\ x = cleared (ch_IsDefault channel) c0 y) as Helem.
  { intros x. rewrite decided_elem. enough (forall y, y ∈ Channels s ->
      (if ch_IsDefault channel && bool_decide (app_key y = app_key channel) && negb (bool_decide (ch_ID y = Nil))
       then with_default false y else y) = cleared (ch_IsDefault channel) c0 y) as He.
    { split; intros (y & Hy & ->); exists y; (split; [done|]); by rewrite He. }
    intros y Hy. unfold cleared. change (app_key c0) with (app_key channel).
    destruct (ch_IsDefault channel) eqn:Ed; [|done]. case_bool_decide as Ek; [|done]. simpl.
    case_bool_decide as Enil; [|done]. simpl. symmetry. apply with_default_false.
    apply (Htaken y); [|by apply Hfresh|done|by unfold c0; simpl; rewrite ?Ed].
    apply decided_elem. exists y. rewrite Ed, (bool_decide_eq_true_2 _ Ek), (bool_decide_eq_true_2 _ Enil). by split. }
  split.
  - rewrite fmap_app, decided_ids. apply NoDup_app. split_and!; [done| |apply NoDup_singleton].
    intros x Hx ->%list_elem_of_singleton. by apply Ei.
  - intros x. rewrite elem_of_app, list_elem_of_singleton, Helem. split.
    + intros [(y & Hy & ->)| ->]; [right; exists y; split_and!; auto|by left].
    + intros [->|(y & Hy & _ & ->)]; [by right|]. left. by exists y.
  - intros x [Hx| ->%list_elem_of_singleton]%elem_of_app Hi Hk; [|done]. by apply Htaken.
  - unfold c0 at 1 2 3. simpl. destruct (ch_IsDefault channel) eqn:Ed; [by left|]. simpl.
    destruct (defaultChannelExists _ _ _ _) eqn:Ee; [|by left]. right. split; [done|].
    apply default_exists in Ee as (d & Hd & _ & Hk & Ht). exists d. split_and!; [done|by apply Hfresh|done|done].
  - intros x Hx E. by apply Hfresh in E.
Qed.

Lemma find_channel_ok id org s c :
  find_channel id org s = Ok c -> c ∈ Channels s /\ ch_ID c = id /\ ch_OrganizationID c = org.
Proof.
  unfold find_channel. destruct (select_where _ _) as [|x l] eqn:E; [done|]. intros [= ->].
  assert (c ∈ c :: l) as Hc by by left. rewrite <- E in Hc. apply elem_of_select_where in Hc as [Hc Hw].
  split; [done|]. by apply channel_where_true.
Qed.

Lemma update_ok channel s c s' :
  NoDup (ch_ID <$> Channels s) -> UpdateChannel channel s = (Ok c, s') ->
  wrote channel (ch_ID channel) s c s' /\ ch_ID c = ch_ID channel.
Proof.
  intros Hn. unfold UpdateChannel. intros [(? & [= <-] & E)|(e & [=] & _)]%RunSTx_cases. unfold getChannel in E. stx_inv.
  match goal with H : EnsureConfigAsCodeDatabaseManagedForUpdate _ _ _ = _ |- _ =>
    unfold EnsureConfigAsCodeDatabaseManagedForUpdate, getChannel in H; stx_inv end.
  match goal with H : ensureChannelReferences _ _ _ _ = _ |- _ => apply ensureChannelReferences_ok in H as [Ha ->] end.
  match goal with H : decide_default _ _ _ = _ |- _ => apply decide_default_ok in H as [-> ->] end.
  match goal with H : find_channel _ _ _ = Ok ?x, H1 : ch_IsDefault ?x && _ = false, H2 : ch_IsDefault ?x && _ = false |- _ =>
    rename x into old; apply find_channel_ok in H as (Hold & Hid & Horg); rename H1 into Hd1; rename H2 into Hd2 end.
  unfold update_channel in E. set (c0 := with_default _ channel) in *. destruct (negb (sort_order_ok c0)); [done|].
  destruct (channel_taken c0 _) eqn:Et; [done|]. pose proof (channel_taken_false _ _ Et) as Htaken.
  destruct (select_where _ _); [done|]. match type of E with (if ?b then _ else _) = _ => destruct b; [done|] end.
  injection E as <- <-.
  split; [|done]. split; [done|done|done|].
  set (l' := update_where _ _ _). change (written (ch_IsDefault channel) c0 (Channels s) l').
  assert (forall y, y ∈ Channels s -> ch_ID y = ch_ID channel -> y = old) as Hu.
  { intros y Hy E. apply (NoDup_fmap_elem ch_ID (Channels s)); [done..|congruence]. }
  assert (forall y, y ∈ Channels s -> let y' := if ch_IsDefault channel && bool_decide (app_key y = app_key channel)
      && negb (bool_decide (ch_ID y = ch_ID channel)) then with_default false y else y in
    (ch_ID y = ch_ID channel -> channel_where (ch_ID channel) (ch_OrganizationID channel) y' = true)
    /\ (ch_ID y <> ch_ID channel -> channel_where (ch_ID channel) (ch_OrganizationID channel) y' = false
          /\ y' = cleared (ch_IsDefault channel) c0 y)) as Hrow.
  { intros y Hy. unfold cleared. change (app_key c0) with (app_key channel).
    cbv zeta. split; intros Ei.
    - rewrite (bool_decide_eq_true_2 (ch_ID y = ch_ID channel)), andb_false_r by done. apply channel_where_true.
      by rewrite (Hu y Hy Ei).
    - rewrite (bool_decide_eq_false_2 (ch_ID y = ch_ID channel)), andb_true_r by done. split; [|done].
      apply not_true_iff_false. intros [E _]%channel_where_true. apply Ei. revert E. by destruct (ch_IsDefault channel && _). }
  assert (forall x, x ∈ l' <-> x = c0 \/ exists y, y ∈ Channels s /\ ch_ID y <> ch_ID c0
    /\ x = cleared (ch_IsDefault channel) c0 y) as Helem.
  { intros x. unfold l'. rewrite elem_of_update_where. setoid_rewrite decided_elem. split.
    - intros (y' & (y & Hy & ->) & ->). destruct (Hrow y Hy) as [Hs Ho]. cbv zeta in Hs, Ho.
      destruct (decide (ch_ID y = ch_ID channel)) as [Ei|Ei].
      + left. by rewrite Hs.
      + destruct (Ho Ei) as [Hw Ey]. rewrite Hw, Ey. right. by exists y.
    - intros [->|(y & Hy & Hi & ->)].
      + destruct (Hrow old Hold) as [Hs _]. cbv zeta in Hs. eexists. split; [exists old; by split|]. by rewrite Hs.
      + destruct (Hrow y Hy) as [_ Ho]. cbv zeta in Ho. destruct (Ho Hi) as [Hw Ey].
        rewrite Ey in Hw. eexists. split; [exists y; by split|]. by rewrite Hw. }
  split; [| exact Helem | | |].
  - unfold l'. rewrite fmap_update_where; [by rewrite decided_ids|]. intros y _ Hy. symmetry.
    by apply channel_where_true in Hy as [? _].
  - intros x [->|(y & Hy & Hi & ->)]%Helem Hx Hk; [done|]. destruct (Hrow y Hy) as [_ Ho]. cbv zeta in Ho.
    destruct (Ho Hi) as [_ Ey]. apply Htaken; [|done|done]. rewrite <- Ey. apply decided_elem. by exists y.
  - unfold c0 at 1 2 3. simpl. destruct (ch_IsDefault channel) eqn:Ed; [by left|]. simpl.
    destruct (defaultChannelExists _ _ _ _) eqn:Ee; [|by left]. right. split; [done|].
    apply default_exists in Ee as (d & Hd & Hi & Hk & Ht). by exists d.
  - intros x Hx Ei Hdx. rewrite (Hu x Hx Ei) in *. rewrite Hdx in Hd1, Hd2. simpl in Hd1, Hd2.
    apply negb_false_iff, bool_decide_eq_true in Hd2. change (app_key c0) with (app_key channel).
    unfold app_key. by rewrite Hd2, Horg.
Qed.

Lemma kept_ok apps apps' (keep : Channel -> bool) l :
  channels_ok apps l ->
  (forall c, c ∈ l -> keep c = true -> (ch_ApplicationID c, ch_OrganizationID c) ∈ apps') ->
  (forall c d, c ∈ l -> d ∈ l -> keep c = true -> app_key d = app_key c -> ch_IsDefault d = true -> keep d = true) ->
  channels_ok apps' (select_where keep l).
Proof.
  intros Hl Ha Hd. split.
  - by apply fmap_select_NoDup, Hl.
  - intros c [Hc Hk]%elem_of_select_where. by apply Ha.
  - intros c [Hc Hk]%elem_of_select_where. by apply (c_rules _ _ Hl).
  - intros c d [Hc _]%elem_of_select_where [Hd' _]%elem_of_select_where. by apply (c_names _ _ Hl).
  - intros c [Hc Hk]%elem_of_select_where. destruct (c_default _ _ Hl c Hc) as (d & (Hin & Ht & Hu) & Hkey).
    exists d. split; [|done]. split_and!; [|done|].
    + apply elem_of_select_where. split; [done|]. by apply (Hd c d).
    + intros e [He _]%elem_of_select_where. by apply Hu.
Qed.

Lemma delete_ok id org s s' :
  DeleteChannelWithID id org s = (Ok tt, s') ->
  Applications s' = Applications s /\ Channels s' = select_where (λ c, negb (channel_where id org c)) (Channels s)
  /\ exists c, c ∈ Channels s /\ ch_ID c = id /\ ch_IsDefault c = false.
Proof.
  unfold DeleteChannelWithID. intros [(? & [= <-] & E)|(e & [=] & _)]%RunSTx_cases. unfold getChannel in E. stx_inv.
  match goal with H : EnsureConfigAsCodeDatabaseManagedForUpdate _ _ _ = _ |- _ =>
    unfold EnsureConfigAsCodeDatabaseManagedForUpdate, getChannel in H; stx_inv end.
  match goal with H : DeleteConfigAsCodeAuthorityForResource _ _ _ = _ |- _ => injection H as <- end.
  match goal with H : find_channel _ _ _ = Ok ?x, H1 : ch_IsDefault ?x = false |- _ =>
    apply find_channel_ok in H as (Hold & Hid & Horg); rename H1 into Hd end.
  unfold delete_channel in E. destruct (_ || _) in E; [done|]. destruct (negb _) in E; [done|]. injection E as <-.
  split_and!; [done|done|]. eauto.
Qed.

Lemma default_rows env org l s :
  channels_ok (Applications s) (Channels s) -> first_lifecycle org s = Some l ->
  let s' := EnsureDefaultChannels env org s in
  channels_ok (Applications s) (Channels s') /\ Applications s' = Applications s.
Proof.
  intros Hs El. unfold EnsureDefaultChannels. rewrite El. set (missing := select_where _ _). set (rows := imap _ missing).
  assert (forall c, c ∈ rows -> exists i a, a ∈ Applications s /\ snd a = org
    /\ c = default_channel (c_new_ids env i) org (fst a) (lc_ID l)) as Hrows.
  { intros c (i & a & -> & Ha)%elem_of_lookup_imap. apply list_elem_of_lookup_2, elem_of_select_where in Ha as [Ha Hw].
    apply andb_true_iff in Hw as [Ho _]. apply bool_decide_eq_true in Ho. by exists i, a. }
  clearbody rows. clear El missing. cbv zeta. generalize dependent s. induction rows as [|c rows IH]; intros s Hs Hrows; [done|].
  cbn [foldl]. destruct (contains _ _ || channel_taken c s) eqn:Ec.
  { apply IH; [done|]. intros x Hx. apply Hrows. by right. }
  apply orb_false_iff in Ec as [Ei Et]. apply contains_false in Ei.
  change (Applications s) with (Applications (set_channels (Channels s ++ [c]) s)). apply IH.
  2:{ intros x Hx. apply Hrows. by right. }
  destruct (Hrows c) as (i & [a o] & Ha & Ho & Ec); [by left|]. simpl in *. subst o.
  assert (forall y, y ∈ Channels s -> ch_ID y <> ch_ID c) as Hfresh.
  { intros y Hy E. apply Ei. rewrite <- E. by apply list_elem_of_fmap_2. }
  apply (written_ok _ false c (Channels s)); [done| | |].
  - split.
    + rewrite fmap_app. apply NoDup_app. split_and!; [apply Hs| |apply NoDup_singleton].
      intros x Hx ->%list_elem_of_singleton. by apply Ei.
    + intros x. rewrite elem_of_app, list_elem_of_singleton. split.
      * intros [Hx| ->]; [|by left]. right. exists x. by split_and!; [|apply Hfresh|].
      * intros [->|(y & Hy & _ & ->)]; [by right|by left].
    + intros x [Hx| ->%list_elem_of_singleton]%elem_of_app Hi Hk; [|done]. by apply (channel_taken_false _ _ Et).
    + left. by rewrite Ec.
    + intros x Hx E. by apply Hfresh in E.
  - by rewrite Ec.
  - rewrite Ec. simpl. by vm_compute.
Qed.

(** ** The steps of the system *)

(** Applications and the rows of other tables come and go; with an application go
    its channels. *)
Definition other_tables (apps : list (uuid * uuid)) (lifecycles : list LifecycleRow) (references values : list uuid)
    (git : list (uuid * uuid)) (s : cdb) : cdb :=
  {| Channels := select_where (λ c, contains apps (ch_ApplicationID c, ch_OrganizationID c)) (Channels s);
     Applications := apps; Lifecycles := lifecycles; References := references; ScopedValues := values;
     ManagedByGit := git |}.

Inductive c_step (s : cdb) : cdb -> Prop :=
| c_create env org request res s' : createChannelHandler env org request s = (res, s') -> c_step s s'
| c_update id org request res s' : updateChannelHandler id org request s = (res, s') -> c_step s s'
| c_delete id org res s' : deleteChannelHandler id org s = (res, s') -> c_step s s'
| c_ensure env org : c_step s (EnsureDefaultChannels env org s)
| c_other apps lifecycles references values git : c_step s (other_tables apps lifecycles references values git s).

Definition c_init : cdb :=
  {| Channels := []; Applications := []; Lifecycles := []; References := []; ScopedValues := []; ManagedByGit := [] |}.
Definition c_reachable (s : cdb) : Prop := rtc c_step c_init s.

Definition c_inv (s : cdb) : Prop := channels_ok (Applications s) (Channels s).

Lemma Validate_rules request r : Validate request = Ok r -> NormalizeRules (cu_Rules r) = Ok (cu_Rules r).
Proof.
  unfold Validate. autorewrite with distr. intros (_ & _ & _ & _ & E). destruct (NormalizeRules _) as [rules|] eqn:En; [|done].
  injection E as <-. simpl. by apply NormalizeRules_again in En.
Qed.

Lemma wrote_inv channel except s c s' :
  c_inv s -> wrote channel except s c s' -> NormalizeRules (ch_Rules channel) = Ok (ch_Rules channel) -> c_inv s'.
Proof.
  intros Hs Hw Hr. unfold c_inv. rewrite (wr_state _ _ _ _ _ Hw). simpl.
  apply (written_ok _ (ch_IsDefault channel) c (Channels s)); [done|apply Hw| |]; rewrite (wr_row _ _ _ _ _ Hw); [apply Hw|done].
Qed.

Lemma request_rules org request r id :
  Validate request = Ok r -> let c := with_channel_id id (channelFromCreateUpdateRequest org r) in
  NormalizeRules (ch_Rules c) = Ok (ch_Rules c).
Proof. intros E%Validate_rules. simpl. by rewrite E. Qed.

Lemma CreateChannel_cases env channel s res s' :
  CreateChannel env channel s = (res, s') -> s' = s \/ exists c, CreateChannel env channel s = (Ok c, s').
Proof. unfold CreateChannel. intros [(c & -> & E)|(e & -> & E & ->)]%RunSTx_cases; [|by left]. right. exists c. unfold RunSTx. by rewrite E. Qed.

Lemma UpdateChannel_cases channel s res s' :
  UpdateChannel channel s = (res, s') -> s' = s \/ exists c, UpdateChannel channel s = (Ok c, s').
Proof. unfold UpdateChannel. intros [(c & -> & E)|(e & -> & E & ->)]%RunSTx_cases; [|by left]. right. exists c. unfold RunSTx. by rewrite E. Qed.

Lemma DeleteChannel_cases id org s res s' :
  DeleteChannelWithID id org s = (res, s') -> s' = s \/ DeleteChannelWithID id org s = (Ok tt, s').
Proof. unfold DeleteChannelWithID. intros [([] & -> & E)|(e & -> & E & ->)]%RunSTx_cases; [|by left]. right. unfold RunSTx. by rewrite E. Qed.

Lemma c_step_inv s s' : c_inv s -> c_step s s' -> c_inv s'.
Proof.
  intros Hs [env org request res t E|id org request res t E|id org res t E|env org|apps ls rs vs git].
  - unfold createChannelHandler in E. destruct (Validate request) as [r|e] eqn:Ev; [|by injection E as _ <-].
    unfold api_result in E. injection E as _ <-. set (ch := channelFromCreateUpdateRequest org r).
    destruct (CreateChannel env ch s) as [res' t] eqn:E. simpl. apply CreateChannel_cases in E as [->|[c E]]; [done|].
    apply create_ok in E as (Hw & _); [|apply Hs]. eapply wrote_inv; [done..|]. by apply (request_rules org request r Nil).
  - unfold updateChannelHandler in E. destruct (Validate request) as [r|e] eqn:Ev; [|by injection E as _ <-].
    unfold api_result in E. injection E as _ <-. set (ch := with_channel_id id _).
    destruct (UpdateChannel ch s) as [res' t] eqn:E. simpl. apply UpdateChannel_cases in E as [->|[c E]]; [done|].
    apply update_ok in E as (Hw & _); [|apply Hs]. eapply wrote_inv; [done..|]. by apply (request_rules org request r id).
  - unfold deleteChannelHandler, api_result in E. injection E as _ <-.
    destruct (DeleteChannelWithID id org s) as [res' t] eqn:E. simpl. apply DeleteChannel_cases in E as [->|E]; [done|].
    apply delete_ok in E as (Ea & Ec & old & Hold & Hid & Hd). unfold c_inv. rewrite Ea, Ec.
    apply (kept_ok (Applications s)); [done|intros c Hc _; by apply (c_apps _ _ Hs)|].
    intros c d _ Hin _ _ Ht. apply negb_true_iff, not_true_iff_false. intros [Ei _]%channel_where_true.
    assert (d = old) as -> by (apply (NoDup_fmap_elem ch_ID (Channels s)); [apply Hs|done|done|congruence]). congruence.
  - destruct (first_lifecycle org s) as [l|] eqn:El; [|unfold EnsureDefaultChannels; by rewrite El].
    destruct (default_rows env org l s Hs El) as [Hi Ea]. unfold c_inv. by rewrite Ea.
  - unfold c_inv, other_tables. simpl. apply (kept_ok (Applications s)); [done| |].
    + intros c _ Hk. by apply contains_true.
    + intros c d _ _ Hk Hkey _. by injection Hkey as -> ->.
Qed.

Lemma c_inv_reachable s : c_reachable s -> c_inv s.
Proof.
  unfold c_reachable. intros Hr. assert (c_inv c_init) as Hi.
  { split; [by apply NoDup_nil|by intros ? []%elem_of_nil|by intros ? []%elem_of_nil| |]; [by intros ? ? []%elem_of_nil|by intros ? []%elem_of_nil]. }
  induction Hr as [|s t u Hst _ IH]; [done|]. by apply IH, (c_step_inv s).
Qed.

(** ** The guarantees *)

(** C40: every application that has channels has exactly one default channel. In
    every reachable state a channel has a sole default channel beside it, which may
    be itself, shares its name with no other channel of its application, and has
    rules that can be evaluated for every version and source. *)
Theorem channel_defaults s c :
  c_reachable s -> c ∈ Channels s ->
  (exists d, sole_default (Channels s) d /\ app_key d = app_key c)
  /\ (forall d, d ∈ Channels s -> app_key d = app_key c -> ch_Name d = ch_Name c -> d = c)
  /\ (forall input, exists result, Evaluate (ch_Rules c) input = Some (Ok result)).
Proof.
  intros Hs%c_inv_reachable Hc. split_and!; [by apply (c_default _ _ Hs)| |].
  - intros d Hd Hk Hn. by apply (c_names _ _ Hs).
  - intros input. apply evaluate_total. by apply (c_rules _ _ Hs).
Qed.

(** What a creation or an update of a channel does. The stored channel is the
    requested one; it is the default if that was requested or if no other channel of
    its application is. Every other channel stays as it is, except that a new
    default takes the place of the former one, and no channel appears or goes. *)
Theorem channel_write_effect s channel c s' :
  c_reachable s ->
  (exists env, CreateChannel env channel s = (Ok c, s')) \/ UpdateChannel channel s = (Ok c, s') ->
  (c = with_channel_id (ch_ID c) (with_default (ch_IsDefault c) channel)
   /\ (ch_IsDefault c = true <-> ch_IsDefault channel = true
       \/ forall d, d ∈ Channels s -> ch_ID d <> ch_ID c -> app_key d = app_key c -> ch_IsDefault d = false))
  /\ (forall x, x ∈ Channels s' <-> x = c \/ exists y, y ∈ Channels s /\ ch_ID y <> ch_ID c
        /\ x = if ch_IsDefault channel && bool_decide (app_key y = app_key c) then with_default false y else y)
  /\ s' = set_channels (Channels s') s.
Proof.
  intros Hs%c_inv_reachable Hop.
  assert (exists except, wrote channel except s c s'
    /\ forall d, d ∈ Channels s -> ch_ID d <> except -> ch_ID d <> ch_ID c) as (except & Hw & Hfresh).
  { destruct Hop as [[env E]|E].
    - apply create_ok in E as (Hw & Hi & Hn & _); [|apply Hs]. exists Nil. split; [done|]. intros d Hd _ Ei. apply Hn.
      rewrite <- Hi, <- Ei. by apply list_elem_of_fmap_2.
    - apply update_ok in E as [Hw Hi]; [|apply Hs]. exists (ch_ID channel). split; [done|]. intros d Hd. by rewrite Hi. }
  destruct Hw as [Hrow _ Hst Hwr]. split_and!; [| |exact (w_elem _ _ _ _ Hwr)|exact Hst].
  - rewrite Hrow at 1. by rewrite Hrow.
  - assert (app_key c = app_key channel) as Hk by by rewrite Hrow.
    assert (ch_IsDefault c = ch_IsDefault channel
      || negb (defaultChannelExists (ch_OrganizationID channel) (ch_ApplicationID channel) except s)) as Hd by by rewrite Hrow at 1.
    split.
    + intros Ht. destruct (ch_IsDefault channel) eqn:Ed; [by left|]. right. intros d Hin Hi Hkd.
      apply (w_taken _ _ _ _ Hwr d); [|done..]. apply (w_elem _ _ _ _ Hwr). right. by exists d.
    + rewrite Hd. intros [->|Hn]; [done|]. destruct (defaultChannelExists _ _ _ _) eqn:E; [|apply orb_true_r].
      apply default_exists in E as (d & Hin & Hi & Hkd & Ht). rewrite (Hn d Hin) in Ht; [done|by apply Hfresh|].
      by rewrite Hkd, Hk.
Qed.
End channels.

(** ** Witnesses *)

Module ChannelDemo.
Import RulesDemo.
#[export] Existing Instance library.
#[export] Instance bytes : Collation := {| name_less := string_less |}.

Definition request (name : string) (default : bool) : CreateUpdateChannelRequest :=
  {| cu_ApplicationID := uid 2; cu_LifecycleID := uid 3; cu_Name := name +:+ " "; cu_Description := "";
     cu_SortOrder := 1; cu_IsDefault := default; cu_Rules := rules |}.
Definition env (n : N) : cenv := {| c_new_id := uid n; c_new_ids i := uid (100 * n + N.of_nat i) |}.

Definition s0 : cdb :=
  other_tables [(uid 2, uid 1); (uid 4, uid 1)]
    [{| lc_ID := uid 3; lc_OrganizationID := uid 1; lc_Name := "default"; lc_SortOrder := 0 |}] [] [] [] c_init.
Definition s1 : cdb := snd (createChannelHandler (env 10) (uid 1) (request "Stable" false) s0).
Definition s2 : cdb := snd (createChannelHandler (env 11) (uid 1) (request "Beta" true) s1).
Definition s3 : cdb := EnsureDefaultChannels (env 12) (uid 1) s2.

Lemma demo_s1_reachable : c_reachable s1.
Proof.
  apply (rtc_l _ c_init s0); [exact (c_other c_init _ _ _ _ _)|].
  apply rtc_once. eapply (c_create _ (env 10)). apply surjective_pairing.
Qed.

Lemma demo_s3_reachable : c_reachable s3.
Proof.
  eapply rtc_r; [eapply rtc_r; [exact demo_s1_reachable|eapply (c_create _ (env 11)); apply surjective_pairing]|].
  apply c_ensure.
Qed.

Example demo_channels :
  (λ c, (ch_Name c, ch_ApplicationID c, ch_IsDefault c)) <$> Channels s3
  = [("Stable", uid 2, false); ("Beta", uid 2, true); ("Stable", uid 4, true)].
Proof. vm_compute. reflexivity. Qed.

Definition beta : Channel := channelFromCreateUpdateRequest (uid 1)
  (match Validate (request "Beta" true) with Ok r => r | Err _ => request "" true end).
End ChannelDemo.

Section witnesses.
Import ChannelDemo.

Lemma channel_defaults_witness :
  exists d, sole_default (Channels s3) d /\ app_key d = (uid 1, uid 2).
Proof.
  destruct (Channels s3) as [|c l] eqn:E; [by vm_compute in E|].
  destruct (channel_defaults s3 c demo_s3_reachable) as ((d & Hd & Hk) & _); [rewrite E; left|].
  exists d. rewrite <- E. split; [exact Hd|]. rewrite Hk. vm_compute in E. by injection E as <- _.
Defined.

Lemma channel_write_effect_witness :
  exists c s', CreateChannel (env 11) beta s1 = (Ok c, s') /\ ch_IsDefault c = true /\ c ∈ Channels s'.
Proof.
  destruct (CreateChannel (env 11) beta s1) as [[c|e] s'] eqn:E; [|by vm_compute in E].
  destruct (channel_write_effect s1 beta c s' demo_s1_reachable) as ((_ & Hd) & Hx & _); [left; by exists (env 11)|].
  exists c, s'. split; [reflexivity|]. split; [apply Hd; left; by vm_compute|]. apply Hx. by left.
Defined.
End witnesses.
