(* ===== verification/Conditions.v ===== *)
(** * Conditions of steps ([internal/conditions/conditions.go])

    The restricted expressions that decide whether a step runs: their syntax and
    the outputs of earlier steps they refer to. The program checks conditions
    when a plan is made and evaluates them nowhere; [Evaluate] is not modelled. *)
From S2P Require Import Prelude GoStrings GoRegexp GoJson GoFloat StepEvents.
From Stdlib Require Import Ascii.
Open Scope list_scope.

Record OutputReference := { StepKey : string; Name : string }.

(** [any]: a number is kept as the text it is parsed from. *)
Inductive literal := LString (s : string) | LBool (b : bool) | LNumber (text : string).

Inductive left_operand := LeftChannel | LeftVariable (key : string) | LeftOutput (ref : OutputReference).

Inductive expression :=
| ExpressionEmpty | ExpressionAlways | ExpressionSuccess | ExpressionFailure | ExpressionEnvironmentProduction
| ExpressionCompare (left : left_operand) (operator : string) (value : literal).

(** ** The patterns *)

Definition quote_mark : regex := RRune (N.eqb 34).
Definition not_quote (c : N) : bool := negb (c =? 34)%N.
Definition any_rune (c : N) : bool := negb (c =? 10)%N.

(** [^(always|success|failure)\(\)$] *)
Definition functionPattern : regex :=
  RSeqs [RBegin; RGroup 1 (RAlts [RText "always"; RText "success"; RText "failure"]); RText "()"; REnd].
Definition environmentPattern : regex := RSeqs [RBegin; RText "environment.isProduction"; REnd].

(** [\s*(==|!=)\s*(.+)$], with the number of its first group. *)
Definition comparison (i : nat) : regex :=
  RSeqs [RStar is_space; RGroup i (RAlt (RText "==") (RText "!=")); RStar is_space;
         RGroup (S i) (RPlus any_rune); REnd].

Definition channelPattern : regex := RSeqs [RBegin; RText "channel"; comparison 1].
Definition variablePattern : regex :=
  RSeqs [RBegin; RText "variable("; quote_mark; RGroup 1 (RPlus not_quote); quote_mark; RText ")"; comparison 2].
Definition outputPattern : regex :=
  RSeqs [RBegin; RText "output("; quote_mark; RGroup 1 (RPlus not_quote); quote_mark; RStar is_space; RText ",";
         RStar is_space; quote_mark; RGroup 2 (RPlus not_quote); quote_mark; RText ")"; comparison 3].

(** [[A-Za-z0-9_.:-]+] *)
Definition bare_char (c : N) : bool :=
  range "A" "Z" c || range "a" "z" c || range "0" "9" c || one_of "_.:-" c.
Definition bareLiteralPattern : regex := RSeqs [RBegin; RPlus bare_char; REnd].

(** ** Parsing *)

Definition starts_with_quote (s : string) : bool :=
  match s with String a _ => (code a =? 34)%N | EmptyString => false end.
Fixpoint ends_with_quote (s : string) : bool :=
  match s with
  | String a EmptyString => (code a =? 34)%N
  | String _ r => ends_with_quote r
  | EmptyString => false
  end.

Definition parseLiteral (value : string) : result string literal :=
  let value := TrimSpace value in
  if (2 <=? len value)%Z && starts_with_quote value && ends_with_quote value then
    match unmarshal_string value with
    | Some decoded => Ok (LString decoded)
    | None => Err "condition literal is invalid"
    end
  else if bool_decide (value = "true") then Ok (LBool true)
  else if bool_decide (value = "false") then Ok (LBool false)
  else if parses_finite value then Ok (LNumber value)
  else if MatchString bareLiteralPattern value then Ok (LString value)
  else Err "condition literal is invalid".

Definition parse_compare (left : left_operand) (operator value : string) : result string expression :=
  parseLiteral value ≫= λ v, Ok (ExpressionCompare left operator v).

Definition parse (condition : string) : result string expression :=
  let condition := TrimSpace condition in
  if bool_decide (condition = "") then Ok ExpressionEmpty else
  match (FindStringSubmatch functionPattern condition : option (nat -> string)) with
  | Some g =>
      Ok (if bool_decide (g 1 = "always") then ExpressionAlways
          else if bool_decide (g 1 = "success") then ExpressionSuccess else ExpressionFailure)
  | None =>
  if MatchString environmentPattern condition then Ok ExpressionEnvironmentProduction else
  match FindStringSubmatch channelPattern condition with
  | Some g => parse_compare LeftChannel (g 1) (g 2)
  | None =>
  match FindStringSubmatch variablePattern condition with
  | Some g =>
      let key := TrimSpace (g 1) in
      if bool_decide (key = "") then Err "variable key is required"
      else parse_compare (LeftVariable key) (g 2) (g 3)
  | None =>
  match FindStringSubmatch outputPattern condition with
  | Some g =>
      let stepKey := TrimSpace (g 1) in
      let name := TrimSpace (g 2) in
      if bool_decide (stepKey = "") || bool_decide (name = "") then Err "output step key and name are required" else
      if negb (IsValidStepRunOutputName name) then Err "output name is invalid"
      else parse_compare (LeftOutput {| StepKey := stepKey; Name := name |}) (g 3) (g 4)
  | None => Err "condition is not in the restricted expression language"
  end end end end.

Definition Validate (condition : string) : result string unit :=
  match parse condition with Ok _ => Ok tt | Err e => Err e end.

Definition OutputReferences (condition : string) : result string (list OutputReference) :=
  match parse condition with
  | Err e => Err e
  | Ok (ExpressionCompare (LeftOutput ref) _ _) => Ok [ref]
  | Ok _ => Ok []
  end.

Definition q (s : string) : string := String double_quote (s +:+ String double_quote "").

Example parse_demo :
  parse <$> [" always() "; ""; "failure()"; "environment.isProduction"; "channel== stable"; "channel != 1e+3";
             "variable(" +:+ q "a b" +:+ ") == " +:+ q "x y";
             "output(" +:+ q "build" +:+ " , " +:+ q "image" +:+ ")!= true"]
  = Ok <$> [ExpressionAlways; ExpressionEmpty; ExpressionFailure; ExpressionEnvironmentProduction;
            ExpressionCompare LeftChannel "==" (LString "stable"); ExpressionCompare LeftChannel "!=" (LNumber "1e+3");
            ExpressionCompare (LeftVariable "a b") "==" (LString "x y");
            ExpressionCompare (LeftOutput {| StepKey := "build"; Name := "image" |}) "!=" (LBool true)]
  /\ parse <$> ["never()"; "channel == a b"; "always() "  +:+ "x"; "output(" +:+ q " " +:+ "," +:+ q "n" +:+ ") == 1"]
     = Err <$> ["condition is not in the restricted expression language"; "condition literal is invalid";
                "condition is not in the restricted expression language"; "output step key and name are required"].
Proof. vm_compute. done. Qed.
