(* ===== verification/ReleaseContract.v ===== *)
(** * Release contracts ([internal/releasebundles/release_contract.go],
    [internal/types/release_contract.go])

    The contract of a release: its source, its components with their images and
    platforms, what it is compatible with and its configuration. The contract is
    normalized before it is stored or hashed, and validated against the
    components of its bundle. Semantic versions and URLs are parsed by
    libraries, which are interfaces here. *)
From S2P Require Import Prelude GoStrings Uuid GoRegexp GoJson Preflight StepRedaction TaskStore ExternalExecution.
From Stdlib Require Import Ascii.
Open Scope list_scope.

(** ** Data *)

Record ReleaseContractSource := {
  src_Repository : string; src_Branch : string; src_SourceCommit : string; src_BuiltCommit : string }.
Record ReleaseContractBuild := { bld_ExternalID : string; bld_ExternalURL : string }.
(** [None] is a nil slice. *)
Record ReleaseContractComponent := {
  cmp_Name : string; cmp_Version : string; cmp_Image : string; cmp_Platform : string;
  cmp_Contracts : option (list string) }.
Record ReleaseContractRequirement := {
  req_Component : string; req_Contract : string; req_MinimumVersion : string; req_Reason : string }.
Record ReleaseContractCompatibility := {
  cpt_Requires : option (list ReleaseContractRequirement); cpt_AffectedComponents : option (list string) }.
Record ReleaseContractOperations := { ops_MigrationRequired : bool; ops_ConfigChangeRequired : bool }.
Record ReleaseContractConfigObject := { obj_URI : string; obj_VersionID : string; obj_Checksum : string }.
Record ReleaseContractConfig := {
  cfg_RepositoryCommit : string; cfg_ComposePath : string; cfg_ServiceConfigPath : string;
  cfg_ComposeChecksum : string; cfg_ServiceConfigChecksum : string;
  cfg_ImmutableObjects : option (list ReleaseContractConfigObject) }.
Record ReleaseContractChanges := { chg_Summary : string; chg_Commits : option (list string) }.

Record ReleaseContract := {
  rc_Schema : string;
  rc_Source : ReleaseContractSource;
  rc_Build : ReleaseContractBuild;
  rc_Components : option (list ReleaseContractComponent);
  rc_Compatibility : ReleaseContractCompatibility;
  rc_Operations : ReleaseContractOperations;
  rc_Config : ReleaseContractConfig;
  rc_Changes : ReleaseContractChanges;
}.

(** ** Normalization *)

Definition normalizeStringSet (values : option (list string)) : option (list string) :=
  Some (stable_sort string_less (dedup_by id []
    (List.filter (λ v, negb (bool_decide (v = ""))) (TrimSpace <$> default [] values)))).

Definition normalize_component (c : ReleaseContractComponent) : ReleaseContractComponent :=
  {| cmp_Name := TrimSpace (cmp_Name c); cmp_Version := TrimSpace (cmp_Version c);
     cmp_Image := TrimSpace (cmp_Image c); cmp_Platform := ToLower (TrimSpace (cmp_Platform c));
     cmp_Contracts := normalizeStringSet (cmp_Contracts c) |}.
Definition normalize_requirement (r : ReleaseContractRequirement) : ReleaseContractRequirement :=
  {| req_Component := TrimSpace (req_Component r); req_Contract := TrimSpace (req_Contract r);
     req_MinimumVersion := TrimSpace (req_MinimumVersion r); req_Reason := TrimSpace (req_Reason r) |}.
Definition normalize_object (o : ReleaseContractConfigObject) : ReleaseContractConfigObject :=
  {| obj_URI := TrimSpace (obj_URI o); obj_VersionID := TrimSpace (obj_VersionID o);
     obj_Checksum := TrimSpace (obj_Checksum o) |}.

Definition nul_join (l : list string) : string := Join l (String (ascii_of_N 0) "").
Definition component_key (c : ReleaseContractComponent) : string :=
  nul_join [cmp_Name c; cmp_Version c; cmp_Platform c; cmp_Image c].
Definition requirement_key (r : ReleaseContractRequirement) : string :=
  nul_join [req_Component r; req_Contract r; req_MinimumVersion r; req_Reason r].
Definition object_key (o : ReleaseContractConfigObject) : string :=
  nul_join [obj_URI o; obj_VersionID o; obj_Checksum o].

(** The trimming of every text, and the lists sorted by their keys. Two
    components of one key differ at most in their contracts; valid contracts
    have no two components of one name. *)
Definition NormalizeReleaseContract (c : ReleaseContract) : ReleaseContract :=
  {| rc_Schema := TrimSpace (rc_Schema c);
     rc_Source := {| src_Repository := TrimSpace (src_Repository (rc_Source c));
                     src_Branch := TrimSpace (src_Branch (rc_Source c));
                     src_SourceCommit := TrimSpace (src_SourceCommit (rc_Source c));
                     src_BuiltCommit := TrimSpace (src_BuiltCommit (rc_Source c)) |};
     rc_Build := {| bld_ExternalID := TrimSpace (bld_ExternalID (rc_Build c));
                    bld_ExternalURL := TrimSpace (bld_ExternalURL (rc_Build c)) |};
     rc_Components := (λ l, stable_sort (less_str_by component_key) (normalize_component <$> l)) <$> rc_Components c;
     rc_Compatibility :=
       {| cpt_Requires := (λ l, stable_sort (less_str_by requirement_key) (normalize_requirement <$> l))
            <$> cpt_Requires (rc_Compatibility c);
          cpt_AffectedComponents := normalizeStringSet (cpt_AffectedComponents (rc_Compatibility c)) |};
     rc_Operations := rc_Operations c;
     rc_Config :=
       {| cfg_RepositoryCommit := TrimSpace (cfg_RepositoryCommit (rc_Config c));
          cfg_ComposePath := TrimSpace (cfg_ComposePath (rc_Config c));
          cfg_ServiceConfigPath := TrimSpace (cfg_ServiceConfigPath (rc_Config c));
          cfg_ComposeChecksum := TrimSpace (cfg_ComposeChecksum (rc_Config c));
          cfg_ServiceConfigChecksum := TrimSpace (cfg_ServiceConfigChecksum (rc_Config c));
          cfg_ImmutableObjects := (λ l, stable_sort (less_str_by object_key) (normalize_object <$> l))
            <$> cfg_ImmutableObjects (rc_Config c) |};
     rc_Changes := {| chg_Summary := TrimSpace (chg_Summary (rc_Changes c));
                      chg_Commits := normalizeStringSet (chg_Commits (rc_Changes c)) |} |}.

(** The clone of the slices makes the normalization leave its argument alone. *)
Definition NormalizedReleaseContract (c : option ReleaseContract) : option ReleaseContract :=
  NormalizeReleaseContract <$> c.

(** ** The JSON text *)

Definition contract_json (c : ReleaseContract) : string :=
  json_struct [("schema", text (rc_Schema c));
    ("source", Some (json_struct [("repository", text (src_Repository (rc_Source c)));
      ("branch", text (src_Branch (rc_Source c))); ("sourceCommit", text (src_SourceCommit (rc_Source c)));
      ("builtCommit", text (src_BuiltCommit (rc_Source c)))]));
    ("build", Some (json_struct [("externalId", text (bld_ExternalID (rc_Build c)));
      ("externalUrl", text (bld_ExternalURL (rc_Build c)))]));
    ("components", nil_list (λ x, json_struct [("name", text (cmp_Name x)); ("version", text (cmp_Version x));
      ("image", text (cmp_Image x)); ("platform", text (cmp_Platform x));
      ("contracts", nil_list json_string (cmp_Contracts x))]) (rc_Components c));
    ("compatibility", Some (json_struct [("requires", nil_list (λ x, json_struct [("component", text (req_Component x));
        ("contract", omitempty (req_Contract x)); ("minimumVersion", omitempty (req_MinimumVersion x));
        ("reason", omitempty (req_Reason x))]) (cpt_Requires (rc_Compatibility c)));
      ("affectedComponents", nil_list json_string (cpt_AffectedComponents (rc_Compatibility c)))]));
    ("operations", Some (json_struct [("migrationRequired", Some (json_bool (ops_MigrationRequired (rc_Operations c))));
      ("configChangeRequired", Some (json_bool (ops_ConfigChangeRequired (rc_Operations c))))]));
    ("config", Some (json_struct [("repositoryCommit", text (cfg_RepositoryCommit (rc_Config c)));
      ("composePath", text (cfg_ComposePath (rc_Config c))); ("serviceConfigPath", text (cfg_ServiceConfigPath (rc_Config c)));
      ("composeChecksum", text (cfg_ComposeChecksum (rc_Config c)));
      ("serviceConfigChecksum", text (cfg_ServiceConfigChecksum (rc_Config c)));
      ("immutableObjects", nil_list (λ x, json_struct [("uri", text (obj_URI x)); ("versionId", omitempty (obj_VersionID x));
        ("checksum", text (obj_Checksum x))]) (cfg_ImmutableObjects (rc_Config c)))]));
    ("changes", Some (json_struct [("summary", text (chg_Summary (rc_Changes c)));
      ("commits", nil_list json_string (chg_Commits (rc_Changes c)))]))].

(** ** Bundles' components *)

Inductive ReleaseBundleComponentType :=
| ComponentApplicationVersion | ComponentOCIImage | ComponentOCIArtifact | ComponentHelmChart
| ComponentChildReleaseBundle | ComponentExternalArtifact | ComponentOther (s : string).

#[export] Instance ReleaseBundleComponentType_eq_dec : EqDecision ReleaseBundleComponentType.
Proof. solve_decision. Defined.

Record ReleaseBundleComponent := {
  bc_Key : string;
  bc_Name : string;
  bc_Type : ReleaseBundleComponentType;
  bc_Version : string;
  bc_ApplicationVersionID : option uuid;
  bc_PackageRef : string;
  bc_Digest : string;
  bc_Checksum : string;
  bc_ChildReleaseBundleID : option uuid;
}.

(** ** Validation: the errors, in the order in which they are added *)

Record ValidationIssue := { vi_Field : string; vi_Rule : string; vi_Message : string }.

Definition AddError (field rule message : string) : list ValidationIssue :=
  [{| vi_Field := field; vi_Rule := rule; vi_Message := message |}].
Definition error_if (cond : bool) (field rule message : string) : list ValidationIssue :=
  if cond then AddError field rule message else [].

Definition maxReleaseContractItems : nat := 256.

Definition hex_char (c : N) : bool := range "0" "9" c || range "a" "f" c || range "A" "F" c.
Definition hex_text (s : string) : bool := forallb (λ a, hex_char (code a)) (String.list_ascii_of_string s).

(** [^[0-9a-fA-F]{7,64}$] *)
Definition commitPattern (s : string) : bool := (7 <=? len s)%Z && (len s <=? 64)%Z && hex_text s.

(** [^sha256:[A-Fa-f0-9]{64}$] *)
Definition IsSHA256Digest (digest : string) : bool :=
  match strip_prefix "sha256:" digest with Some rest => (len rest =? 64)%Z && hex_text rest | None => false end.

Definition HasPrefix (s prefix : string) : bool := bool_decide (is_Some (strip_prefix prefix s)).

Definition containsUnsafeContractValue (value : string) : bool :=
  if line_break value then true else
  existsb (Contains (ToLower value))
    ["authorization:"; "bearer "; "accesstoken "; "access_token="; "api_key="; "password="; "secret="; "token="].

Definition validateRequiredContractString (field value : string) (limit : Z) : list ValidationIssue :=
  let fullField := "releaseContract." +:+ field in
  if bool_decide (value = "") then AddError fullField "required" (field +:+ " is required") else
  if (limit <? len value)%Z then AddError fullField "limit" (field +:+ " is too long") else
  error_if (containsUnsafeContractValue value) fullField "safe"
    (field +:+ " must not contain secrets or authorization data").

Definition validateOptionalContractString (field value : string) (limit : Z) : list ValidationIssue :=
  if bool_decide (value = "") then [] else validateRequiredContractString field value limit.

Definition validateCommit (field value : string) : list ValidationIssue :=
  error_if (negb (commitPattern value)) ("releaseContract." +:+ field) "commit"
    (field +:+ " must be a 7 to 64 character hexadecimal commit").

Definition validateDigest (field value : string) : list ValidationIssue :=
  error_if (negb (IsSHA256Digest value)) ("releaseContract." +:+ field) "sha256" (field +:+ " must be a sha256 digest").

(** [path.Clean]: the elements between the slashes; [..] takes the last one back. *)
Fixpoint split_slash (s : string) : list string :=
  match s with
  | EmptyString => [""]
  | String a r =>
      if (code a =? 47)%N then "" :: split_slash r else
      match split_slash r with e :: l => String a e :: l | [] => [] end
  end.

Fixpoint clean_elements (rooted : bool) (stack elements : list string) : list string :=
  match elements with
  | [] => reverse stack
  | e :: elements =>
      if bool_decide (e = "") || bool_decide (e = ".") then clean_elements rooted stack elements else
      if bool_decide (e = "..") then
        match stack with
        | top :: below =>
            if bool_decide (top = "..") then clean_elements rooted (e :: stack) elements
            else clean_elements rooted below elements
        | [] => clean_elements rooted (if rooted then [] else [e]) elements
        end
      else clean_elements rooted (e :: stack) elements
  end.

Definition path_Clean (s : string) : string :=
  let rooted := HasPrefix s "/" in
  let cleaned := Join (clean_elements rooted [] (split_slash s)) "/" in
  if rooted then "/" +:+ cleaned else if bool_decide (cleaned = "") then "." else cleaned.

Example path_Clean_demo :
  path_Clean <$> ["a/b/../c"; ""; "/../a//b/"; "../../x"; "a/.."; "./a"; "/"]
  = ["a/c"; "."; "/a/b"; "../../x"; "."; "a"; "/"].
Proof. reflexivity. Qed.

Definition validateSafeRelativePath (field value : string) : list ValidationIssue :=
  if bool_decide (value = "") || HasPrefix value "/" || Contains value (String backslash "")
     || negb (bool_decide (path_Clean value = value)) || bool_decide (value = ".") || HasPrefix value "../"
  then AddError ("releaseContract." +:+ field) "safePath" (field +:+ " must be a normalized relative path")
  else validateRequiredContractString field value 2048.

Definition splitImmutableImage (image : string) : string * string * bool :=
  match Cut "@" (TrimSpace image) with
  | Some (packageRef, digest) =>
      (packageRef, digest,
       negb (bool_decide (packageRef = "")) && IsSHA256Digest digest && negb (Contains packageRef "@"))
  | None => (TrimSpace image, "", false)
  end.

(** [url.Parse]: the fields that are read. *)
Record ParsedURL := {
  pu_Scheme : string; pu_Opaque : string; pu_HasUser : bool; pu_Host : string; pu_Path : string;
  pu_RawQuery : string; pu_Fragment : string }.

Class UrlReferenceParser := { url_Parse : string -> option ParsedURL }.

(** [bundleByKey]: the last component of a key. *)
Definition bundle_by_key (key : string) (l : list ReleaseBundleComponent) : option ReleaseBundleComponent :=
  last (select_where (λ c, bool_decide (TrimSpace (bc_Key c) = key)) l).

Section validation.
Context `{StrictSemver, UrlReferenceParser}.

Definition strict_version (s : string) : bool := bool_decide (is_Some (StrictNewVersion s)).

Definition validateHTTPURL (field value : string) : list ValidationIssue :=
  match url_Parse value with
  | Some parsed =>
      if bool_decide (pu_Host parsed = "")
         || negb (bool_decide (pu_Scheme parsed = "https")) && negb (bool_decide (pu_Scheme parsed = "http"))
      then AddError ("releaseContract." +:+ field) "url" (field +:+ " must be an absolute HTTP(S) URL")
      else validateRequiredContractString field value 2048
  | None => AddError ("releaseContract." +:+ field) "url" (field +:+ " must be an absolute HTTP(S) URL")
  end.

(** The image of a component and the component of the bundle with its name. *)
Definition validate_image (field : string) (c : ReleaseContractComponent) (bundle : list ReleaseBundleComponent)
    : list ValidationIssue :=
  let '(packageRef, digest, ok) := splitImmutableImage (cmp_Image c) in
  if negb ok
  then AddError (field +:+ ".image") "immutable" "component image must use an immutable image digest" else
  match bundle_by_key (cmp_Name c) bundle with
  | None =>
      AddError (field +:+ ".image") "matchesBundle" "component image must match the release bundle OCI component"
  | Some b =>
      error_if (negb (bool_decide (bc_Type b = ComponentOCIImage)) && negb (bool_decide (bc_Type b = ComponentOCIArtifact))
                || negb (bool_decide (TrimSpace (bc_PackageRef b) = packageRef))
                || negb (EqualFold (TrimSpace (bc_Digest b)) digest))
        (field +:+ ".image") "matchesBundle" "component image must match the release bundle OCI component"
      ++ error_if (negb (bool_decide (TrimSpace (bc_Version b) = cmp_Version c)))
           (field +:+ ".version") "matchesBundle" "component version must match the release bundle component"
  end.

Fixpoint validate_components (seen : list string) (l : list ReleaseContractComponent)
    (bundle : list ReleaseBundleComponent) : list ValidationIssue :=
  match l with
  | [] => []
  | c :: l =>
      let field := "releaseContract.components." +:+ cmp_Name c in
      let contracts := default [] (cmp_Contracts c) in
      validateRequiredContractString "components.name" (cmp_Name c) 256
      ++ validateRequiredContractString "components.version" (cmp_Version c) 128
      ++ error_if (negb (strict_version (cmp_Version c))) (field +:+ ".version") "semver"
           "component version must be strict semantic version"
      ++ error_if (contains seen (cmp_Name c)) (field +:+ ".name") "unique" "component names must be unique"
      ++ error_if (negb (bool_decide (cmp_Platform c = "linux/amd64")) && negb (bool_decide (cmp_Platform c = "linux/arm64")))
           (field +:+ ".platform") "supported" "platform must be linux/amd64 or linux/arm64"
      ++ error_if (bool_decide (maxReleaseContractItems < length contracts)) (field +:+ ".contracts") "limit"
           "too many provided contracts"
      ++ (contracts ≫= λ p, validateRequiredContractString "components.contracts" p 512)
      ++ validate_image field c bundle
      ++ validate_components (cmp_Name c :: seen) l bundle
  end.

Definition validateReleaseContractComponents (c : ReleaseContract) (bundle : list ReleaseBundleComponent)
    : list ValidationIssue :=
  let l := default [] (rc_Components c) in
  if bool_decide (length l = 0)
  then AddError "releaseContract.components" "required" "at least one component is required" else
  error_if (bool_decide (maxReleaseContractItems < length l)) "releaseContract.components" "limit" "too many components"
  ++ validate_components [] l bundle.

Definition validate_requirement (r : ReleaseContractRequirement) : list ValidationIssue :=
  let field := "releaseContract.compatibility.requires." +:+ req_Component r in
  validateRequiredContractString "compatibility.requires.component" (req_Component r) 256
  ++ error_if (bool_decide (req_Contract r = "") && bool_decide (req_MinimumVersion r = "")) field "required"
       "a contract or minimumVersion is required"
  ++ validateOptionalContractString "compatibility.requires.contract" (req_Contract r) 512
  ++ validateOptionalContractString "compatibility.requires.minimumVersion" (req_MinimumVersion r) 128
  ++ error_if (negb (bool_decide (req_MinimumVersion r = "")) && negb (strict_version (req_MinimumVersion r)))
       (field +:+ ".minimumVersion") "semver" "minimumVersion must be strict semantic version"
  ++ validateOptionalContractString "compatibility.requires.reason" (req_Reason r) 2048.

Definition validateReleaseContractCompatibility (c : ReleaseContract) : list ValidationIssue :=
  let requires := default [] (cpt_Requires (rc_Compatibility c)) in
  let affected := default [] (cpt_AffectedComponents (rc_Compatibility c)) in
  error_if (bool_decide (maxReleaseContractItems < length requires)) "releaseContract.compatibility.requires" "limit"
    "too many compatibility requirements"
  ++ (requires ≫= validate_requirement)
  ++ error_if (bool_decide (length affected = 0)) "releaseContract.compatibility.affectedComponents" "required"
       "at least one affected component is required"
  ++ (affected ≫= λ a, error_if (negb (contains (cmp_Name <$> default [] (rc_Components c)) a))
        "releaseContract.compatibility.affectedComponents" "component"
        "affected components must reference release contract components").

Definition IsContentAddressedConfigObject (o : ReleaseContractConfigObject) : bool :=
  if negb (trimmed_empty (obj_VersionID o)) || negb (IsSHA256Digest (TrimSpace (obj_Checksum o))) then false else
  match url_Parse (TrimSpace (obj_URI o)) with
  | None => false
  | Some parsed =>
      if negb (EqualFold (pu_Scheme parsed) "s3") || bool_decide (pu_Host parsed = "") || pu_HasUser parsed
         || negb (bool_decide (pu_RawQuery parsed = "")) || negb (bool_decide (pu_Fragment parsed = ""))
         || negb (bool_decide (pu_Opaque parsed = "")) || Contains (pu_Path parsed) (String backslash "")
         || negb (bool_decide (path_Clean (pu_Path parsed) = pu_Path parsed))
      then false else
      match split_slash (default (pu_Path parsed) (strip_prefix "/" (pu_Path parsed))) with
      | s0 :: s1 :: s2 :: s3 :: rest =>
          if negb (bool_decide (s0 = "_immutable")) || negb (bool_decide (s1 = "sha256"))
             || bool_decide (List.last rest s3 = "") || negb (IsSHA256Digest ("sha256:" +:+ s2))
          then false else EqualFold ("sha256:" +:+ s2) (TrimSpace (obj_Checksum o))
      | _ => false
      end
  end.

Definition validate_object (o : ReleaseContractConfigObject) : list ValidationIssue :=
  validateRequiredContractString "config.immutableObjects.uri" (obj_URI o) 2048
  ++ validateDigest "config.immutableObjects.checksum" (obj_Checksum o)
  ++ (if negb (bool_decide (obj_VersionID o = ""))
      then validateRequiredContractString "config.immutableObjects.versionId" (obj_VersionID o) 1024
      else error_if (negb (IsContentAddressedConfigObject o)) "releaseContract.config.immutableObjects" "immutable"
             "config objects require a versionId or matching content-addressed S3 URI").

Definition validateReleaseContractConfig (config : ReleaseContractConfig) : list ValidationIssue :=
  let objects := default [] (cfg_ImmutableObjects config) in
  validateCommit "config.repositoryCommit" (cfg_RepositoryCommit config)
  ++ validateSafeRelativePath "config.composePath" (cfg_ComposePath config)
  ++ validateSafeRelativePath "config.serviceConfigPath" (cfg_ServiceConfigPath config)
  ++ validateDigest "config.composeChecksum" (cfg_ComposeChecksum config)
  ++ validateDigest "config.serviceConfigChecksum" (cfg_ServiceConfigChecksum config)
  ++ error_if (bool_decide (maxReleaseContractItems < length objects)) "releaseContract.config.immutableObjects" "limit"
       "too many immutable config objects"
  ++ (objects ≫= validate_object).

(** The first reference with a line break ends the loop. *)
Fixpoint validate_commits (l : list string) : list ValidationIssue :=
  match l with
  | [] => []
  | commit :: l =>
      validateRequiredContractString "changes.commits" commit 1024
      ++ (if line_break commit
          then AddError "releaseContract.changes.commits" "safe" "commit references must be single-line values"
          else validate_commits l)
  end.

(** The result is valid when there is no error. The source normalizes the slices
    of its argument in place; what it returns depends on the normalized contract only. *)
Definition ValidateReleaseContract (contract : ReleaseContract) (bundle : list ReleaseBundleComponent)
    : list ValidationIssue :=
  let contract := NormalizeReleaseContract contract in
  let commits := default [] (chg_Commits (rc_Changes contract)) in
  error_if (negb (bool_decide (rc_Schema contract = "distr.release-contract/v1"))) "releaseContract.schema" "supported"
    "schema must be distr.release-contract/v1"
  ++ validateRequiredContractString "source.repository" (src_Repository (rc_Source contract)) 512
  ++ validateRequiredContractString "source.branch" (src_Branch (rc_Source contract)) 512
  ++ validateCommit "source.sourceCommit" (src_SourceCommit (rc_Source contract))
  ++ validateCommit "source.builtCommit" (src_BuiltCommit (rc_Source contract))
  ++ validateRequiredContractString "build.externalId" (bld_ExternalID (rc_Build contract)) 512
  ++ validateHTTPURL "build.externalUrl" (bld_ExternalURL (rc_Build contract))
  ++ validateReleaseContractComponents contract bundle
  ++ validateReleaseContractCompatibility contract
  ++ validateReleaseContractConfig (rc_Config contract)
  ++ validateRequiredContractString "changes.summary" (chg_Summary (rc_Changes contract)) 4096
  ++ error_if (bool_decide (maxReleaseContractItems < length commits)) "releaseContract.changes.commits" "limit"
       "too many commit references"
  ++ validate_commits commits.
End validation.

(** ** What a valid contract names *)

Lemma error_if_nil c field rule message : error_if c field rule message = [] -> c = false.
Proof. by destruct c. Qed.

Section valid.
Context `{StrictSemver, UrlReferenceParser}.

(** Every valid contract affects one of its components. *)
Lemma valid_affects contract bundle :
  ValidateReleaseContract contract bundle = [] ->
  let n := NormalizeReleaseContract contract in
  exists name, name ∈ default [] (cpt_AffectedComponents (rc_Compatibility n))
    /\ name ∈ cmp_Name <$> default [] (rc_Components n).
Proof.
  unfold ValidateReleaseContract. set (n := NormalizeReleaseContract contract). cbv zeta. intros E.
  do 8 apply app_eq_nil in E as [_ E]. apply app_eq_nil in E as [E _]. unfold validateReleaseContractCompatibility in E.
  do 2 apply app_eq_nil in E as [_ E]. apply app_eq_nil in E as [E1%error_if_nil E2]. to_prop.
  destruct (default [] (cpt_AffectedComponents (rc_Compatibility n))) as [|name l]; [done|].
  exists name. split; [by left|]. rewrite bind_cons in E2. apply app_eq_nil in E2 as [E2%error_if_nil _].
  apply contains_true. by to_prop.
Qed.
End valid.

(** ** The normal form *)

(** Trimming and lowering commute, since no letter is white space. *)
Lemma lower_eqb a v :
  (v < 65 \/ 90 < v < 97 \/ 122 < v)%N -> (code (lower_ascii a) =? v)%N = (code a =? v)%N.
Proof.
  intros Hv. assert (code (lower_ascii a) = code a \/ (65 <= code a <= 90 /\ 97 <= code (lower_ascii a) <= 122)%N) as [->|Hc]; [|done|].
  - destruct a as [[] [] [] [] [] [] [] []]; vm_compute; auto; right; split; split; discriminate.
  - rewrite !(proj2 (N.eqb_neq _ _)) by lia. done.
Qed.

Lemma space1_lower a : space1 (lower_ascii a) = space1 a.
Proof. destruct a as [[] [] [] [] [] [] [] []]; reflexivity. Qed.
Lemma space2_lower a b : space2 (lower_ascii a) (lower_ascii b) = space2 a b.
Proof. unfold space2. by rewrite !lower_eqb by lia. Qed.
Lemma lower_tail a : ((128 <=? code (lower_ascii a)) && (code (lower_ascii a) <=? 138))%N = ((128 <=? code a) && (code a <=? 138))%N.
Proof. destruct a as [[] [] [] [] [] [] [] []]; reflexivity. Qed.
Lemma space3_lower a b c : space3 (lower_ascii a) (lower_ascii b) (lower_ascii c) = space3 a b c.
Proof. unfold space3. by rewrite lower_tail, !lower_eqb by lia. Qed.

Lemma ToLower_trim_left s : trim_left (ToLower s) = ToLower (trim_left s).
Proof.
  induction s as [s IH] using (well_founded_induction (well_founded_ltof string String.length)). unfold ltof in IH.
  destruct s as [|a s]; [done|]. simpl. rewrite space1_lower. destruct (space1 a); [apply IH; simpl; lia|].
  destruct s as [|b s]; [done|]. simpl. rewrite space2_lower. destruct (space2 a b); [apply IH; simpl; lia|].
  destruct s as [|c s]; [done|]. simpl. rewrite space3_lower. destruct (space3 a b c); [apply IH; simpl; lia|done].
Qed.

Lemma ToLower_empty s : ToLower s = "" <-> s = "".
Proof. by destruct s. Qed.

Lemma ToLower_trim_right s : trim_right (ToLower s) = ToLower (trim_right s).
Proof.
  induction s as [|a s IH]; [done|]. cbn [ToLower trim_right].
  assert (blank (String (lower_ascii a) (ToLower s)) = blank (String a s)) as ->.
  { unfold blank. apply bool_decide_ext. change (String (lower_ascii a) (ToLower s)) with (ToLower (String a s)).
    by rewrite ToLower_trim_left, ToLower_empty. }
  destruct (blank (String a s)); [done|]. cbn [ToLower]. by rewrite IH.
Qed.

Lemma ToLower_TrimSpace s : TrimSpace (ToLower s) = ToLower (TrimSpace s).
Proof. unfold TrimSpace. by rewrite ToLower_trim_left, ToLower_trim_right. Qed.

Lemma dedup_by_id {A K} `{EqDecision K} (key : A -> K) seen l :
  NoDup (key <$> l) -> (forall x, x ∈ l -> key x ∉ seen) -> dedup_by key seen l = l.
Proof.
  revert seen. induction l as [|x l IH]; intros seen Hn Hs; [done|]. simpl in *. apply NoDup_cons in Hn as [Hx Hn].
  rewrite bool_decide_eq_false_2 by (apply Hs; by left). f_equal. apply IH; [done|].
  intros y Hy [E|Hin]%elem_of_cons; [|by apply (Hs y); [right|]]. apply Hx. rewrite <- E. by apply list_elem_of_fmap_2.
Qed.

(** A normalized set: trimmed, not empty, sorted and without repetitions. *)
Record string_set (l : list string) : Prop := {
  ss_trimmed : forall v, v ∈ l -> TrimSpace v = v /\ v <> "";
  ss_distinct : NoDup l;
  ss_sorted : StronglySorted (not_after string_less) l;
}.

Lemma fmap_id_elem {A} (f : A -> A) (l : list A) : (forall x, x ∈ l -> f x = x) -> f <$> l = l.
Proof. induction l as [|x l IH]; intros Hf; [done|]. simpl. f_equal; [apply Hf; by left|]. apply IH. intros y Hy. apply Hf. by right. Qed.

Lemma normalizeStringSet_set l : exists k, normalizeStringSet l = Some k /\ string_set k.
Proof.
  eexists. split; [reflexivity|]. set (k := List.filter _ _). destruct (dedup_by_keys id [] k) as [Hn _].
  rewrite list_fmap_id in Hn. split.
  - intros v Hv%elem_of_stable_sort%dedup_by_sub. apply list_elem_of_In, filter_In in Hv as [Hv%list_elem_of_In Hne].
    apply list_elem_of_fmap in Hv as (u & -> & _). split; [apply TrimSpace_idem|by to_prop].
  - by rewrite stable_sort_perm.
  - apply stable_sort_sorted, _.
Qed.

Lemma normalizeStringSet_fixed k : string_set k -> normalizeStringSet (Some k) = Some k.
Proof.
  intros [Ht Hn Hs]. unfold normalizeStringSet. simpl.
  rewrite (fmap_id_elem TrimSpace k) by (intros v Hv; by apply Ht).
  rewrite filter_all_bool by (intros v Hv; apply negb_true_iff, bool_decide_eq_false; by apply Ht).
  rewrite dedup_by_id; [|by rewrite list_fmap_id|intros v _ Hv; by apply elem_of_nil in Hv]. by rewrite stable_sort_id.
Qed.

Lemma normalizeStringSet_idem l : normalizeStringSet (normalizeStringSet l) = normalizeStringSet l.
Proof. destruct (normalizeStringSet_set l) as (k & -> & Hk). by apply normalizeStringSet_fixed. Qed.

Lemma normalize_component_idem c : normalize_component (normalize_component c) = normalize_component c.
Proof.
  unfold normalize_component. cbn [cmp_Name cmp_Version cmp_Image cmp_Platform cmp_Contracts].
  by rewrite !TrimSpace_idem, normalizeStringSet_idem, ToLower_TrimSpace, TrimSpace_idem, ToLower_idem.
Qed.
Lemma normalize_requirement_idem r : normalize_requirement (normalize_requirement r) = normalize_requirement r.
Proof. unfold normalize_requirement. simpl. by rewrite !TrimSpace_idem. Qed.
Lemma normalize_object_idem o : normalize_object (normalize_object o) = normalize_object o.
Proof. unfold normalize_object. simpl. by rewrite !TrimSpace_idem. Qed.

Lemma normalized_list_idem {A} (key : A -> string) (f : A -> A) l :
  (forall x, f (f x) = f x) ->
  stable_sort (less_str_by key) (f <$> stable_sort (less_str_by key) (f <$> l)) = stable_sort (less_str_by key) (f <$> l).
Proof.
  intros Hf. rewrite fmap_id_elem; [by apply stable_sort_id, stable_sort_sorted, _|].
  intros x (y & -> & _)%elem_of_stable_sort%list_elem_of_fmap. apply Hf.
Qed.

Lemma option_fmap_idem {A} (g : A -> A) (mx : option A) : (forall x, g (g x) = g x) -> g <$> (g <$> mx) = g <$> mx.
Proof. intros Hg. destruct mx as [x|]; [|done]. simpl. by rewrite Hg. Qed.

Lemma normalize_contract_idem c : NormalizeReleaseContract (NormalizeReleaseContract c) = NormalizeReleaseContract c.
Proof.
  unfold NormalizeReleaseContract. cbn -[TrimSpace normalizeStringSet stable_sort fmap].
  rewrite !TrimSpace_idem, !normalizeStringSet_idem.
  rewrite (option_fmap_idem _ (rc_Components c)), (option_fmap_idem _ (cpt_Requires (rc_Compatibility c))),
    (option_fmap_idem _ (cfg_ImmutableObjects (rc_Config c))); [done|..]; intros l.
  - apply normalized_list_idem, normalize_object_idem.
  - apply normalized_list_idem, normalize_requirement_idem.
  - apply normalized_list_idem, normalize_component_idem.
Qed.

Lemma normalized_contract_idem c : NormalizedReleaseContract (NormalizedReleaseContract c) = NormalizedReleaseContract c.
Proof. apply option_fmap_idem, normalize_contract_idem. Qed.

(** A contract in normal form: its texts are trimmed, its sets are sorted sets,
    and its lists are sorted by their keys. *)
Record normal_form (c : ReleaseContract) : Prop := {
  nf_fixed : NormalizeReleaseContract c = c;
  nf_components : forall l, rc_Components c = Some l ->
    StronglySorted (not_after (less_str_by component_key)) l
    /\ forall x, x ∈ l -> TrimSpace (cmp_Name x) = cmp_Name x /\ ToLower (cmp_Platform x) = cmp_Platform x
         /\ exists k, cmp_Contracts x = Some k /\ string_set k;
  nf_affected : exists k, cpt_AffectedComponents (rc_Compatibility c) = Some k /\ string_set k;
}.

(** The normalization of a contract gives a normal form, whatever the
    contract: normalizing it again changes nothing, so that the plan and the
    bundle hash the same contract; its components are sorted with trimmed names
    and lower-case platforms; and the sets of affected components and provided
    contracts are sorted, without blanks, empty or repeated texts. *)
Theorem contract_normal_form c : normal_form (NormalizeReleaseContract c).
Proof.
  split.
  - apply normalize_contract_idem.
  - simpl. intros l (k & _ & ->)%fmap_Some. split; [apply stable_sort_sorted, _|].
    intros x (y & -> & _)%elem_of_stable_sort%list_elem_of_fmap. simpl.
    split_and!; [apply TrimSpace_idem|apply ToLower_idem|]. apply (normalizeStringSet_set (cmp_Contracts y)).
  - apply (normalizeStringSet_set (cpt_AffectedComponents (rc_Compatibility c))).
Qed.
