(* ===== verification/BundleContent.v ===== *)
(** * The content of release bundles ([internal/types/release_bundle.go],
    [internal/releasebundles/canonical.go], [internal/releasebundles/validation.go])

    What a bundle holds, its canonical payload with the checksum, and the
    validation of its content. The identifiers that the rows of components get
    and the columns of times are left out. *)
From S2P Require Import Prelude GoStrings Uuid GoRegexp GoJson Preflight StepRedaction TaskStore ExternalExecution ReleaseContract.
Open Scope list_scope.

(** ** Data *)

Definition ReleaseBundleStatusDraft : string := "DRAFT".
Definition ReleaseBundleStatusValidating : string := "VALIDATING".
Definition ReleaseBundleStatusPublished : string := "PUBLISHED".
Definition ReleaseBundleStatusBlocked : string := "BLOCKED".
Definition ReleaseBundleStatusArchived : string := "ARCHIVED".

Record ReleaseBundle := {
  bn_ID : uuid;
  bn_OrganizationID : uuid;
  bn_ApplicationID : uuid;
  bn_ChannelID : uuid;
  bn_ProcessSnapshotID : option uuid;
  bn_VariableSnapshotID : option uuid;
  bn_DeploymentProcessRevisionID : option uuid;
  bn_ReleaseNumber : string;
  bn_ReleaseNotes : string;
  bn_SourceRevision : string;
  bn_SourceRepository : string;
  bn_SourceBranch : string;
  bn_SourceTag : string;
  bn_CIProvider : string;
  bn_CIRunID : string;
  bn_CIRunURL : string;
  bn_ReleaseContract : option ReleaseContract;
  bn_Status : string;
  bn_PublishedByUserAccountID : option uuid;
  bn_CanonicalChecksum : string;
  bn_CanonicalPayload : string;
  bn_Components : list ReleaseBundleComponent;
}.

Definition component_type_string (t : ReleaseBundleComponentType) : string :=
  match t with
  | ComponentApplicationVersion => "application_version" | ComponentOCIImage => "oci_image"
  | ComponentOCIArtifact => "oci_artifact" | ComponentHelmChart => "helm_chart"
  | ComponentChildReleaseBundle => "child_release_bundle" | ComponentExternalArtifact => "external_artifact"
  | ComponentOther s => s
  end.
Definition component_type_valid (t : ReleaseBundleComponentType) : bool :=
  match t with ComponentOther _ => false | _ => true end.

(** ** The canonical payload *)

Definition optional_uuid (u : option uuid) : string := match u with Some u => uuid_string u | None => "" end.

Definition canonicalizeComponent (c : ReleaseBundleComponent) : string :=
  json_struct [("key", text (bc_Key c)); ("name", text (bc_Name c)); ("type", text (component_type_string (bc_Type c)));
    ("version", text (bc_Version c)); ("applicationVersionId", omitempty (optional_uuid (bc_ApplicationVersionID c)));
    ("packageRef", omitempty (bc_PackageRef c)); ("digest", omitempty (bc_Digest c));
    ("checksum", omitempty (bc_Checksum c));
    ("childReleaseBundleId", omitempty (optional_uuid (bc_ChildReleaseBundleID c)))].

Definition metadata_isZero (b : ReleaseBundle) : bool :=
  forallb (λ s, bool_decide (s = "")) [bn_SourceRepository b; bn_SourceBranch b; bn_SourceTag b; bn_CIProvider b;
    bn_CIRunID b; bn_CIRunURL b].

Definition canonicalSourceMetadata (b : ReleaseBundle) : string :=
  json_struct [("repository", text (bn_SourceRepository b)); ("branch", text (bn_SourceBranch b));
    ("tag", text (bn_SourceTag b)); ("ciProvider", text (bn_CIProvider b)); ("ciRunId", text (bn_CIRunID b));
    ("ciRunUrl", text (bn_CIRunURL b))].

(** [slices.SortFunc] by the keys; stored components have distinct keys. *)
Definition sorted_components (l : list ReleaseBundleComponent) : list ReleaseBundleComponent :=
  stable_sort (less_str_by bc_Key) l.

Definition canonicalBundle (b : ReleaseBundle) : string :=
  json_struct [("applicationId", text (uuid_string (bn_ApplicationID b))); ("channelId", text (uuid_string (bn_ChannelID b)));
    ("processSnapshotId", omitempty (optional_uuid (bn_ProcessSnapshotID b)));
    ("variableSnapshotId", omitempty (optional_uuid (bn_VariableSnapshotID b)));
    ("releaseNumber", text (bn_ReleaseNumber b)); ("releaseNotes", text (bn_ReleaseNotes b));
    ("sourceRevision", text (bn_SourceRevision b));
    ("sourceMetadata", if metadata_isZero b then None else Some (canonicalSourceMetadata b));
    ("releaseContract", contract_json <$> NormalizedReleaseContract (bn_ReleaseContract b));
    ("components", Some (json_list (canonicalizeComponent <$> sorted_components (bn_Components b))))].

(** The payload and its checksum; strings can always be marshalled. *)
Definition Canonicalize `{Crypto} (b : ReleaseBundle) : string * string :=
  let payload := canonicalBundle b in (payload, "sha256:" +:+ sha256_hex payload).

(** ** Validation: the errors in their order; the result is valid without any *)

Definition issue_on (c : bool) (prefix field rule message : string) : list ValidationIssue :=
  error_if c (prefix +:+ field) rule message.

Definition blank_text (s : string) : bool := bool_decide (TrimSpace s = "").
Definition set_id (u : option uuid) : bool := match u with Some _ => true | None => false end.

(** The switch over the type of a component. *)
Definition type_content (prefix : string) (c : ReleaseBundleComponent) : list ValidationIssue :=
  let references := set_id (bc_ApplicationVersionID c) || set_id (bc_ChildReleaseBundleID c) in
  match bc_Type c with
  | ComponentApplicationVersion =>
      issue_on (negb (set_id (bc_ApplicationVersionID c))) prefix ".applicationVersionId" "required"
        "application version component must reference an application version"
      ++ issue_on (set_id (bc_ChildReleaseBundleID c)) prefix ".childReleaseBundleId" "forbidden"
           "application version component cannot reference a child release bundle"
  | ComponentOCIImage | ComponentOCIArtifact =>
      issue_on (blank_text (bc_PackageRef c)) prefix ".packageRef" "required" "OCI component package reference is required"
      ++ issue_on (negb (IsSHA256Digest (TrimSpace (bc_Digest c)))) prefix ".digest" "sha256"
           "OCI component digest must be a sha256 digest"
      ++ issue_on references prefix ".references" "forbidden"
           "OCI component cannot reference application versions or child bundles"
  | ComponentHelmChart =>
      issue_on (blank_text (bc_PackageRef c)) prefix ".packageRef" "required" "helm chart package reference is required"
      ++ issue_on references prefix ".references" "forbidden"
           "helm chart component cannot reference application versions or child bundles"
  | ComponentChildReleaseBundle =>
      issue_on (negb (set_id (bc_ChildReleaseBundleID c))) prefix ".childReleaseBundleId" "required"
        "child release bundle component must reference a child release bundle"
      ++ issue_on (set_id (bc_ApplicationVersionID c)) prefix ".applicationVersionId" "forbidden"
           "child release bundle component cannot reference an application version"
  | ComponentExternalArtifact =>
      issue_on (blank_text (bc_PackageRef c)) prefix ".packageRef" "required"
        "external artifact package reference is required"
      ++ issue_on (blank_text (bc_Checksum c)) prefix ".checksum" "required" "external artifact checksum is required"
      ++ issue_on references prefix ".references" "forbidden"
           "external artifact component cannot reference application versions or child bundles"
  | ComponentOther _ => []
  end.

Definition validateComponentContent (key : string) (c : ReleaseBundleComponent) : list ValidationIssue :=
  let prefix := "components." +:+ key in
  issue_on (negb (component_type_valid (bc_Type c))) prefix ".type" "valid" "component type is invalid"
  ++ issue_on (blank_text (bc_Version c)) prefix ".version" "required" "component version is required"
  ++ type_content prefix c.

(** The loop with the set of the keys seen. *)
Fixpoint validate_bundle_components (seen : list string) (l : list ReleaseBundleComponent) : list ValidationIssue :=
  match l with
  | [] => []
  | c :: l =>
      let key := TrimSpace (bc_Key c) in
      if bool_decide (key = "")
      then AddError "components" "key" "component key is required" ++ validate_bundle_components seen l
      else error_if (contains seen key) ("components." +:+ key +:+ ".key") "unique" "component key must be unique"
           ++ validateComponentContent key c ++ validate_bundle_components (key :: seen) l
  end.

Section content.
Context `{Crypto, StrictSemver, UrlReferenceParser}.

(** [Merge] with an empty prefix keeps the fields. *)
Definition ValidateBundleContent (b : ReleaseBundle) : list ValidationIssue :=
  error_if (bool_decide (length (bn_Components b) = 0)) "components" "required" "at least one component is required"
  ++ error_if ((negb (bool_decide (bn_CanonicalChecksum b = "")) || negb (bool_decide (bn_CanonicalPayload b = "")))
               && negb (bool_decide (snd (Canonicalize b) = bn_CanonicalChecksum b)))
       "canonicalChecksum" "sha256" "canonical payload does not match checksum"
  ++ match bn_ReleaseContract b with
     | Some contract => ValidateReleaseContract contract (bn_Components b)
     | None => []
     end
  ++ validate_bundle_components [] (bn_Components b).
End content.
