(* ===== verification/ReleaseBundles.v ===== *)
(** * Release bundles ([internal/db/release_bundles.go])

    The tables of the migrations 112, 113, 114, 116 and 119 that hold bundles,
    their components, their audit events and the idempotency keys, with every
    operation on them. A transaction runs alone; the columns of times and the
    identifiers of components and events are left out, and the bundles are kept
    in the order of their creation, the events in the order of their insertion. *)
From S2P Require Import Prelude GoStrings Uuid GoRegexp GoJson StepRedaction JsonDecode JsonStruct JsonRaw TaskStore Transaction Preflight ExternalExecution VariableResolution VariableJson DeploymentProcess ProcessSnapshots VariableSets VariableSnapshots ChannelRules Channels ReleaseContract BundleContent.
Open Scope list_scope.

(** ** The tables *)

Record ComponentRow := { cr_ReleaseBundleID : uuid; cr_Component : ReleaseBundleComponent }.

Definition AuditEventTypePublished : string := "published".
Definition AuditEventTypeBlocked : string := "blocked".
Definition AuditEventTypeArchived : string := "archived".
Definition AuditEventTypeStateTransitionRejected : string := "state_transition_rejected".

Record ReleaseBundleAuditEvent := {
  ae_OrganizationID : uuid;
  ae_ReleaseBundleID : uuid;
  ae_ActorUserAccountID : option uuid;
  ae_EventType : string;
  ae_FromStatus : string;
  ae_ToStatus : option string;
  ae_Reason : string;
}.

Record IdempotencyRecord := {
  ik_OrganizationID : uuid; ik_KeyHash : string; ik_RequestChecksum : string; ik_ReleaseBundleID : uuid }.

Record ApplicationVersionRow := { av_ID : uuid; av_ApplicationID : uuid; av_Name : string }.

(** The rows of [Bundles] have no components. [rd_planned] are the bundles that
    deployment plans refer to, [rd_executed] those of external executions. *)
Record rdb := {
  rd_processes : sdb;
  rd_variables : ndb;
  rd_channels : list Channel;
  rd_versions : list ApplicationVersionRow;
  rd_users : list uuid;
  rd_planned : list uuid;
  rd_executed : list uuid;
  Bundles : list ReleaseBundle;
  ComponentRows : list ComponentRow;
  AuditEvents : list ReleaseBundleAuditEvent;
  IdempotencyKeys : list IdempotencyRecord;
}.

Abbreviation rtx := (stx rdb).

Definition set_snapshot_tables (p : sdb) (v : ndb) (s : rdb) : rdb :=
  {| rd_processes := p; rd_variables := v; rd_channels := rd_channels s; rd_versions := rd_versions s;
     rd_users := rd_users s; rd_planned := rd_planned s; rd_executed := rd_executed s; Bundles := Bundles s;
     ComponentRows := ComponentRows s; AuditEvents := AuditEvents s; IdempotencyKeys := IdempotencyKeys s |}.
Definition set_bundle_tables (b : list ReleaseBundle) (c : list ComponentRow) (a : list ReleaseBundleAuditEvent)
    (k : list IdempotencyRecord) (s : rdb) : rdb :=
  {| rd_processes := rd_processes s; rd_variables := rd_variables s; rd_channels := rd_channels s;
     rd_versions := rd_versions s; rd_users := rd_users s; rd_planned := rd_planned s; rd_executed := rd_executed s;
     Bundles := b; ComponentRows := c; AuditEvents := a; IdempotencyKeys := k |}.

Definition on_processes {A} (m : stx sdb A) : rtx A :=
  zoom rd_processes (λ p s, set_snapshot_tables p (rd_variables s) s) m.
Definition on_variables {A} (m : stx ndb A) : rtx A :=
  zoom rd_variables (λ v s, set_snapshot_tables (rd_processes s) v s) m.

(** The keys that the database generates. *)
Record renv := { new_bundle_id : uuid; new_process_snapshot_id : uuid; new_snapshot_keys : nenv }.

(** [mapReleaseBundleWriteError]; restrict violations are foreign key violations here. *)
Definition mapReleaseBundleWriteError (action : string) (v : pg_violation) : apierror :=
  let message := "could not " +:+ action +:+ " ReleaseBundle" in
  match v with
  | ForeignKeyViolation => Conflict message
  | UniqueViolation => AlreadyExists message
  | _ => Internal message
  end.

(** ** Changes of a bundle *)

Definition with_components (l : list ReleaseBundleComponent) (b : ReleaseBundle) : ReleaseBundle :=
  {| bn_ID := bn_ID b; bn_OrganizationID := bn_OrganizationID b; bn_ApplicationID := bn_ApplicationID b;
     bn_ChannelID := bn_ChannelID b; bn_ProcessSnapshotID := bn_ProcessSnapshotID b;
     bn_VariableSnapshotID := bn_VariableSnapshotID b; bn_DeploymentProcessRevisionID := bn_DeploymentProcessRevisionID b;
     bn_ReleaseNumber := bn_ReleaseNumber b; bn_ReleaseNotes := bn_ReleaseNotes b; bn_SourceRevision := bn_SourceRevision b;
     bn_SourceRepository := bn_SourceRepository b; bn_SourceBranch := bn_SourceBranch b; bn_SourceTag := bn_SourceTag b;
     bn_CIProvider := bn_CIProvider b; bn_CIRunID := bn_CIRunID b; bn_CIRunURL := bn_CIRunURL b;
     bn_ReleaseContract := bn_ReleaseContract b; bn_Status := bn_Status b;
     bn_PublishedByUserAccountID := bn_PublishedByUserAccountID b; bn_CanonicalChecksum := bn_CanonicalChecksum b;
     bn_CanonicalPayload := bn_CanonicalPayload b; bn_Components := l |}.

(** The snapshots, the status, the publisher and the canonical fields. *)
Definition with_state (process variable : option uuid) (status : string) (publisher : option uuid)
    (contract : option ReleaseContract) (payload checksum : string) (b : ReleaseBundle) : ReleaseBundle :=
  {| bn_ID := bn_ID b; bn_OrganizationID := bn_OrganizationID b; bn_ApplicationID := bn_ApplicationID b;
     bn_ChannelID := bn_ChannelID b; bn_ProcessSnapshotID := process; bn_VariableSnapshotID := variable;
     bn_DeploymentProcessRevisionID := bn_DeploymentProcessRevisionID b; bn_ReleaseNumber := bn_ReleaseNumber b;
     bn_ReleaseNotes := bn_ReleaseNotes b; bn_SourceRevision := bn_SourceRevision b;
     bn_SourceRepository := bn_SourceRepository b; bn_SourceBranch := bn_SourceBranch b; bn_SourceTag := bn_SourceTag b;
     bn_CIProvider := bn_CIProvider b; bn_CIRunID := bn_CIRunID b; bn_CIRunURL := bn_CIRunURL b;
     bn_ReleaseContract := contract; bn_Status := status; bn_PublishedByUserAccountID := publisher;
     bn_CanonicalChecksum := checksum; bn_CanonicalPayload := payload; bn_Components := bn_Components b |}.

Definition with_status (status : string) (b : ReleaseBundle) : ReleaseBundle :=
  with_state (bn_ProcessSnapshotID b) (bn_VariableSnapshotID b) status (bn_PublishedByUserAccountID b)
    (bn_ReleaseContract b) (bn_CanonicalPayload b) (bn_CanonicalChecksum b) b.
Definition with_process_snapshot (id : option uuid) (b : ReleaseBundle) : ReleaseBundle :=
  with_state id (bn_VariableSnapshotID b) (bn_Status b) (bn_PublishedByUserAccountID b)
    (bn_ReleaseContract b) (bn_CanonicalPayload b) (bn_CanonicalChecksum b) b.
Definition with_variable_snapshot (id : uuid) (b : ReleaseBundle) : ReleaseBundle :=
  with_state (bn_ProcessSnapshotID b) (Some id) (bn_Status b) (bn_PublishedByUserAccountID b)
    (bn_ReleaseContract b) (bn_CanonicalPayload b) (bn_CanonicalChecksum b) b.
Definition with_publisher (user : uuid) (b : ReleaseBundle) : ReleaseBundle :=
  with_state (bn_ProcessSnapshotID b) (bn_VariableSnapshotID b) (bn_Status b) (Some user)
    (bn_ReleaseContract b) (bn_CanonicalPayload b) (bn_CanonicalChecksum b) b.

(** The contract is normalized first. *)
Definition setReleaseBundleCanonicalFields `{Crypto} (b : ReleaseBundle) : ReleaseBundle :=
  let normalized := with_state (bn_ProcessSnapshotID b) (bn_VariableSnapshotID b) (bn_Status b)
    (bn_PublishedByUserAccountID b) (NormalizedReleaseContract (bn_ReleaseContract b)) (bn_CanonicalPayload b)
    (bn_CanonicalChecksum b) b in
  let '(payload, checksum) := Canonicalize normalized in
  with_state (bn_ProcessSnapshotID b) (bn_VariableSnapshotID b) (bn_Status b) (bn_PublishedByUserAccountID b)
    (bn_ReleaseContract normalized) payload checksum normalized.

(** ** Reading *)

Definition bundle_where (id org : uuid) (b : ReleaseBundle) : bool :=
  bool_decide (bn_ID b = id) && bool_decide (bn_OrganizationID b = org).

Definition find_bundle (id org : uuid) (s : rdb) : result apierror ReleaseBundle :=
  match select_where (bundle_where id org) (Bundles s) with b :: _ => Ok b | [] => Err NotFound end.

Section reading.
Context `{Collation}.

(** [ORDER BY key, id]; the keys of a bundle are distinct. *)
Definition getReleaseBundleComponents (id : uuid) (s : rdb) : list ReleaseBundleComponent :=
  stable_sort (λ x y, name_less (bc_Key x) (bc_Key y))
    (cr_Component <$> select_where (λ r, bool_decide (cr_ReleaseBundleID r = id)) (ComponentRows s)).

Definition hydrate_bundle (s : rdb) (b : ReleaseBundle) : ReleaseBundle :=
  with_components (getReleaseBundleComponents (bn_ID b) s) b.

(** [FOR UPDATE] makes other transactions wait; the row is the same. *)
Definition getReleaseBundle (id org : uuid) (s : rdb) : result apierror ReleaseBundle :=
  find_bundle id org s ≫= λ b, Ok (hydrate_bundle s b).
Definition GetReleaseBundle (id org : uuid) (s : rdb) : result apierror ReleaseBundle := getReleaseBundle id org s.

(** [ORDER BY application_id, release_number, id] *)
Definition bundle_less (x y : ReleaseBundle) : bool :=
  if negb (bool_decide (bn_ApplicationID x = bn_ApplicationID y))
  then string_less (uuid_string (bn_ApplicationID x)) (uuid_string (bn_ApplicationID y)) else
  if negb (bool_decide (bn_ReleaseNumber x = bn_ReleaseNumber y))
  then name_less (bn_ReleaseNumber x) (bn_ReleaseNumber y) else
  string_less (uuid_string (bn_ID x)) (uuid_string (bn_ID y)).
Definition GetReleaseBundlesByOrganizationID (org : uuid) (s : rdb) : list ReleaseBundle :=
  hydrate_bundle s <$> stable_sort bundle_less (select_where (λ b, bool_decide (bn_OrganizationID b = org)) (Bundles s)).

Definition GetReleaseBundleAuditEvents (bundle org : uuid) (s : rdb) : list ReleaseBundleAuditEvent :=
  select_where (λ e, bool_decide (ae_ReleaseBundleID e = bundle) && bool_decide (ae_OrganizationID e = org)) (AuditEvents s).

Context `{UuidParser}.

Definition GetProcessSnapshotForReleaseBundle (bundle org : uuid) (s : rdb) : result apierror ProcessSnapshot :=
  getReleaseBundle bundle org s ≫= λ b,
  match bn_ProcessSnapshotID b with
  | Some id => getProcessSnapshot id org (rd_processes s)
  | None => Err NotFound
  end.

Definition GetVariableSnapshotForReleaseBundle (bundle org : uuid) (s : rdb) : result apierror VariableSnapshot :=
  find_bundle bundle org s ≫= λ b,
  match bn_VariableSnapshotID b with
  | Some id => getVariableSnapshot id org (rd_variables s)
  | None => Err NotFound
  end.
End reading.

(** ** References *)

Definition applications (s : rdb) : list (uuid * uuid) := DeploymentProcess.Applications (sd_processes (rd_processes s)).

Definition channel_exists (channel org application : uuid) (s : rdb) : bool :=
  exists_where (λ c, bool_decide (ch_ID c = channel) && bool_decide (ch_OrganizationID c = org)
    && bool_decide (ch_ApplicationID c = application)) (rd_channels s).

Definition ensureReleaseBundleParentReferences (b : ReleaseBundle) : rtx unit := sforbid (λ s,
  negb (contains (applications s) (bn_ApplicationID b, bn_OrganizationID b)
        && channel_exists (bn_ChannelID b) (bn_OrganizationID b) (bn_ApplicationID b) s)) NotFound.

(** A version of the application, which is one of the organization. *)
Definition find_version (version application org : uuid) (s : rdb) : option ApplicationVersionRow :=
  head (select_where (λ v, bool_decide (av_ID v = version) && bool_decide (av_ApplicationID v = application)
    && contains (applications s) (application, org)) (rd_versions s)).

Definition ensureReleaseBundleApplicationVersionReference (b : ReleaseBundle) (c : ReleaseBundleComponent) : rtx unit :=
  match bc_ApplicationVersionID c with
  | None => sthrow NotFound
  | Some v => sforbid (λ s, negb (bool_decide (is_Some (find_version v (bn_ApplicationID b) (bn_OrganizationID b) s)))) NotFound
  end.

Definition ensureReleaseBundleChildReference (b : ReleaseBundle) (c : ReleaseBundleComponent) : rtx unit :=
  match bc_ChildReleaseBundleID c with
  | None => sthrow NotFound
  | Some child =>
      if bool_decide (child = bn_ID b) then sthrow NotFound
      else sforbid (λ s, negb (exists_where (bundle_where child (bn_OrganizationID b)) (Bundles s))) NotFound
  end.

Definition ensureReleaseBundleComponentReferences (b : ReleaseBundle) (c : ReleaseBundleComponent) : rtx unit :=
  match bc_Type c with
  | ComponentApplicationVersion => ensureReleaseBundleApplicationVersionReference b c
  | ComponentChildReleaseBundle => ensureReleaseBundleChildReference b c
  | ComponentOCIImage | ComponentOCIArtifact =>
      scheck (negb (IsSHA256Digest (bc_Digest c))) (BadRequest "component digest must be a sha256 digest")
  | _ => mret tt
  end.

Fixpoint ensure_components (b : ReleaseBundle) (l : list ReleaseBundleComponent) : rtx unit :=
  match l with
  | [] => mret tt
  | c :: l => ensureReleaseBundleComponentReferences b c ≫= λ _, ensure_components b l
  end.

Section writing.
Context `{Collation, Crypto, UuidParser}.

(** The bundle with its process snapshot. *)
Definition ensureReleaseBundleProcessSnapshotReference (env : renv) (b : ReleaseBundle) : rtx ReleaseBundle :=
  match bn_DeploymentProcessRevisionID b with
  | Some revision =>
      on_processes (ensureProcessSnapshotForRevision (new_process_snapshot_id env) (bn_OrganizationID b)
        (bn_ApplicationID b) revision) ≫= λ snapshot,
      mret (with_process_snapshot (Some (sn_ID snapshot)) b)
  | None =>
      match bn_ProcessSnapshotID b with
      | None => mret b
      | Some id =>
          squery (λ s, getProcessSnapshot id (bn_OrganizationID b) (rd_processes s)) ≫= λ snapshot,
          scheck (negb (bool_decide (sn_ApplicationID snapshot = bn_ApplicationID b))) NotFound ≫= λ _, mret b
      end
  end.

Definition ensureReleaseBundleReferences (env : renv) (b : ReleaseBundle) : rtx ReleaseBundle :=
  ensureReleaseBundleParentReferences b ≫= λ _,
  ensureReleaseBundleProcessSnapshotReference env b ≫= λ b,
  ensure_components b (bn_Components b) ≫= λ _, mret b.

(** ** Writing *)

(** A copied row violates the check of its type or repeats a key; the foreign
    keys are checked when all rows are there. *)
Fixpoint copy_components (id : uuid) (l : list ReleaseBundleComponent) (rows : list ComponentRow)
    : result apierror (list ComponentRow) :=
  match l with
  | [] => Ok rows
  | c :: l =>
      if negb (component_type_valid (bc_Type c)) then Err (mapReleaseBundleWriteError "insert components" CheckViolation) else
      if exists_where (λ r, bool_decide (cr_ReleaseBundleID r = id) && bool_decide (bc_Key (cr_Component r) = bc_Key c)) rows
      then Err (mapReleaseBundleWriteError "insert components" UniqueViolation)
      else copy_components id l (rows ++ [{| cr_ReleaseBundleID := id; cr_Component := c |}])
  end.

Definition component_references (s : rdb) (c : ReleaseBundleComponent) : bool :=
  match bc_ApplicationVersionID c with Some v => contains (av_ID <$> rd_versions s) v | None => true end
  && match bc_ChildReleaseBundleID c with Some b => contains (bn_ID <$> Bundles s) b | None => true end.

Definition insertReleaseBundleComponents (id : uuid) (l : list ReleaseBundleComponent) : rtx unit := λ s,
  match copy_components id l (ComponentRows s) with
  | Err e => Err e
  | Ok rows =>
      if negb (forallb (component_references s) l)
      then Err (mapReleaseBundleWriteError "insert components" ForeignKeyViolation)
      else Ok (tt, set_bundle_tables (Bundles s) rows (AuditEvents s) (IdempotencyKeys s) s)
  end.

Definition number_taken (b : ReleaseBundle) (s : rdb) : bool :=
  exists_where (λ x, negb (bool_decide (bn_ID x = bn_ID b)) && bool_decide (bn_OrganizationID x = bn_OrganizationID b)
    && bool_decide (bn_ApplicationID x = bn_ApplicationID b) && bool_decide (bn_ReleaseNumber x = bn_ReleaseNumber b))
    (Bundles s).

(** The columns that an insertion writes, with the generated key. *)
Definition new_row (id : uuid) (b : ReleaseBundle) : ReleaseBundle :=
  {| bn_ID := id; bn_OrganizationID := bn_OrganizationID b; bn_ApplicationID := bn_ApplicationID b;
     bn_ChannelID := bn_ChannelID b; bn_ProcessSnapshotID := bn_ProcessSnapshotID b; bn_VariableSnapshotID := None;
     bn_DeploymentProcessRevisionID := None; bn_ReleaseNumber := bn_ReleaseNumber b; bn_ReleaseNotes := bn_ReleaseNotes b;
     bn_SourceRevision := bn_SourceRevision b; bn_SourceRepository := bn_SourceRepository b;
     bn_SourceBranch := bn_SourceBranch b; bn_SourceTag := bn_SourceTag b; bn_CIProvider := bn_CIProvider b;
     bn_CIRunID := bn_CIRunID b; bn_CIRunURL := bn_CIRunURL b; bn_ReleaseContract := bn_ReleaseContract b;
     bn_Status := bn_Status b; bn_PublishedByUserAccountID := None; bn_CanonicalChecksum := bn_CanonicalChecksum b;
     bn_CanonicalPayload := bn_CanonicalPayload b; bn_Components := [] |}.

Definition insert_row (row : ReleaseBundle) : rtx unit := λ s,
  if contains (bn_ID <$> Bundles s) (bn_ID row) || number_taken row s
  then Err (mapReleaseBundleWriteError "scan created" UniqueViolation)
  else Ok (tt, set_bundle_tables (Bundles s ++ [row]) (ComponentRows s) (AuditEvents s) (IdempotencyKeys s) s).

Definition insertReleaseBundle (env : renv) (b : ReleaseBundle) : rtx ReleaseBundle :=
  insert_row (new_row (new_bundle_id env) b) ≫= λ _,
  insertReleaseBundleComponents (new_bundle_id env) (bn_Components b) ≫= λ _,
  squery (getReleaseBundle (new_bundle_id env) (bn_OrganizationID b)).

(** An unset status is that of a draft. *)
Definition draft_request (b : ReleaseBundle) : ReleaseBundle :=
  if bool_decide (bn_Status b = "") then with_status ReleaseBundleStatusDraft b else b.

Definition prepare_draft (env : renv) (b : ReleaseBundle) : rtx ReleaseBundle :=
  let b := draft_request b in
  scheck (negb (bool_decide (bn_Status b = ReleaseBundleStatusDraft))) (Conflict "could not create ReleaseBundle") ≫= λ _,
  ensureReleaseBundleReferences env b ≫= λ b,
  mret (setReleaseBundleCanonicalFields b).

Definition createReleaseBundle (env : renv) (b : ReleaseBundle) : rtx ReleaseBundle :=
  prepare_draft env b ≫= insertReleaseBundle env.

Definition CreateReleaseBundle (env : renv) (b : ReleaseBundle) (s : rdb) : result apierror ReleaseBundle * rdb :=
  RunSTx (createReleaseBundle env b) s.

Definition hashReleaseBundleIdempotencyKey (key : string) : string := "sha256:" +:+ sha256_hex key.

Definition getReleaseBundleIdempotencyRecord (org : uuid) (hash : string) (s : rdb) : option IdempotencyRecord :=
  head (select_where (λ k, bool_decide (ik_OrganizationID k = org) && bool_decide (ik_KeyHash k = hash)) (IdempotencyKeys s)).

Definition insertReleaseBundleIdempotencyRecord (k : IdempotencyRecord) : rtx unit := λ s,
  if non_nil (getReleaseBundleIdempotencyRecord (ik_OrganizationID k) (ik_KeyHash k) s)
  then Err (mapReleaseBundleWriteError "insert idempotency key" UniqueViolation)
  else Ok (tt, set_bundle_tables (Bundles s) (ComponentRows s) (AuditEvents s) (IdempotencyKeys s ++ [k]) s).

(** [ErrReleaseBundleIdempotencyConflict], which handlers answer as a conflict. *)
Definition ErrReleaseBundleIdempotencyConflict : apierror := Conflict "different canonical request checksum".

(** The advisory lock makes requests with the same key wait for each other. *)
Definition CreateReleaseBundleWithIdempotency (env : renv) (b : ReleaseBundle) (key : string) (s : rdb)
    : result apierror ReleaseBundle * rdb :=
  let key := TrimSpace key in
  if bool_decide (key = "") then CreateReleaseBundle env b s else
  RunSTx (
    prepare_draft env b ≫= λ b,
    let hash := hashReleaseBundleIdempotencyKey key in
    sreads (getReleaseBundleIdempotencyRecord (bn_OrganizationID b) hash) ≫= λ existing,
    match existing with
    | Some k =>
        scheck (negb (bool_decide (ik_RequestChecksum k = bn_CanonicalChecksum b))) ErrReleaseBundleIdempotencyConflict ≫= λ _,
        squery (getReleaseBundle (ik_ReleaseBundleID k) (bn_OrganizationID b))
    | None =>
        insertReleaseBundle env b ≫= λ created,
        insertReleaseBundleIdempotencyRecord {| ik_OrganizationID := bn_OrganizationID created; ik_KeyHash := hash;
          ik_RequestChecksum := bn_CanonicalChecksum created; ik_ReleaseBundleID := bn_ID created |} ≫= λ _,
        mret created
    end) s.

(** The columns that an update writes over the old row. *)
Definition updated_row (b old : ReleaseBundle) : ReleaseBundle :=
  {| bn_ID := bn_ID old; bn_OrganizationID := bn_OrganizationID old; bn_ApplicationID := bn_ApplicationID b;
     bn_ChannelID := bn_ChannelID b; bn_ProcessSnapshotID := bn_ProcessSnapshotID b;
     bn_VariableSnapshotID := bn_VariableSnapshotID old;
     bn_DeploymentProcessRevisionID := bn_DeploymentProcessRevisionID old; bn_ReleaseNumber := bn_ReleaseNumber b;
     bn_ReleaseNotes := bn_ReleaseNotes b; bn_SourceRevision := bn_SourceRevision b;
     bn_SourceRepository := bn_SourceRepository b; bn_SourceBranch := bn_SourceBranch b; bn_SourceTag := bn_SourceTag b;
     bn_CIProvider := bn_CIProvider b; bn_CIRunID := bn_CIRunID b; bn_CIRunURL := bn_CIRunURL b;
     bn_ReleaseContract := bn_ReleaseContract b; bn_Status := bn_Status old;
     bn_PublishedByUserAccountID := bn_PublishedByUserAccountID old; bn_CanonicalChecksum := bn_CanonicalChecksum b;
     bn_CanonicalPayload := bn_CanonicalPayload b; bn_Components := bn_Components old |}.

Definition set_bundles (l : list ReleaseBundle) (s : rdb) : rdb :=
  set_bundle_tables l (ComponentRows s) (AuditEvents s) (IdempotencyKeys s) s.

(** Plans and variable snapshots refer to the bundle with its application and its channel. *)
Definition keys_referenced (id : uuid) (s : rdb) : bool :=
  contains (rd_planned s) id || contains (vn_ReleaseBundleID <$> nd_snapshots (rd_variables s)) id.

Definition update_row (b : ReleaseBundle) : rtx unit := λ s,
  match find_bundle (bn_ID b) (bn_OrganizationID b) s with
  | Err e => Err e
  | Ok old =>
      if number_taken b s then Err (mapReleaseBundleWriteError "scan updated" UniqueViolation) else
      if negb (bool_decide (bn_ApplicationID old = bn_ApplicationID b) && bool_decide (bn_ChannelID old = bn_ChannelID b))
         && keys_referenced (bn_ID b) s
      then Err (mapReleaseBundleWriteError "scan updated" ForeignKeyViolation)
      else Ok (tt, set_bundles (update_where (bundle_where (bn_ID b) (bn_OrganizationID b)) (updated_row b) (Bundles s)) s)
  end.

Definition delete_components (id : uuid) : rtx unit := smodify (λ s,
  set_bundle_tables (Bundles s) (select_where (λ r, negb (bool_decide (cr_ReleaseBundleID r = id))) (ComponentRows s))
    (AuditEvents s) (IdempotencyKeys s) s).

Definition update_request (existing b : ReleaseBundle) : ReleaseBundle :=
  let b := with_status (bn_Status existing) b in
  match bn_DeploymentProcessRevisionID b with
  | None => with_process_snapshot (bn_ProcessSnapshotID existing) b
  | Some _ => b
  end.

Definition UpdateReleaseBundle (env : renv) (b : ReleaseBundle) (s : rdb) : result apierror ReleaseBundle * rdb :=
  RunSTx (
    squery (getReleaseBundle (bn_ID b) (bn_OrganizationID b)) ≫= λ existing,
    scheck (negb (bool_decide (bn_Status existing = ReleaseBundleStatusDraft))) (Conflict "could not update ReleaseBundle") ≫= λ _,
    ensureReleaseBundleReferences env (update_request existing b) ≫= λ b,
    let b := setReleaseBundleCanonicalFields b in
    update_row b ≫= λ _,
    delete_components (bn_ID b) ≫= λ _,
    insertReleaseBundleComponents (bn_ID b) (bn_Components b) ≫= λ _,
    squery (getReleaseBundle (bn_ID b) (bn_OrganizationID b))) s.

(** The rows that keep a bundle: components of others, idempotency keys,
    variable snapshots, plans and executions. Its own components and its audit
    events go with it. *)
Definition bundle_kept (id : uuid) (s : rdb) : bool :=
  exists_where (λ r, negb (bool_decide (cr_ReleaseBundleID r = id))
    && bool_decide (bc_ChildReleaseBundleID (cr_Component r) = Some id)) (ComponentRows s)
  || contains (ik_ReleaseBundleID <$> IdempotencyKeys s) id || keys_referenced id s || contains (rd_executed s) id.

Definition delete_row (id org : uuid) : rtx unit := λ s,
  if negb (exists_where (bundle_where id org) (Bundles s)) then Err NotFound else
  if bundle_kept id s then Err (mapReleaseBundleWriteError "delete" ForeignKeyViolation) else
  Ok (tt, set_bundle_tables (select_where (λ b, negb (bundle_where id org b)) (Bundles s))
            (select_where (λ r, negb (bool_decide (cr_ReleaseBundleID r = id))) (ComponentRows s))
            (select_where (λ e, negb (bool_decide (ae_ReleaseBundleID e = id))) (AuditEvents s)) (IdempotencyKeys s) s).

Definition DeleteReleaseBundleWithID (id org : uuid) (s : rdb) : result apierror unit * rdb :=
  RunSTx (
    squery (getReleaseBundle id org) ≫= λ b,
    scheck (negb (bool_decide (bn_Status b = ReleaseBundleStatusDraft))) (Conflict "could not delete ReleaseBundle") ≫= λ _,
    delete_row id org) s.
End writing.

(** ** Validation *)

Definition releaseBundleSourceIssueField (field : string) : string :=
  if bool_decide (field = "sourceBranch") then "sourceMetadata.branch" else
  if bool_decide (field = "sourceTag") then "sourceMetadata.tag" else
  if bool_decide (field = "source") then "sourceMetadata" else "sourceMetadata." +:+ field.

Definition issue_at (field : string) (i : Issue) : ValidationIssue :=
  {| vi_Field := field; vi_Rule := iss_Rule i; vi_Message := iss_Message i |}.

Definition channelrulesFromChannel (c : Channel) : Rules := ch_Rules c.

(** The issues of an evaluation; an invalid pattern makes [MustCompile] panic. *)
Definition evaluated (message : string) (x : option (result rule_error Result)) : result apierror (list Issue) :=
  match x with
  | Some (Ok r) => Ok (Issues r)
  | Some (Err _) => Err (Internal message)
  | None => Err (Internal "panic")
  end.

Definition channel_row (id org : uuid) (s : rdb) : option Channel :=
  head (select_where (channel_where id org) (rd_channels s)).

Section validating.
Context `{Collation, Crypto, UuidParser, Jsonb, StrictSemver, UrlReferenceParser, RuleLibrary}.

Definition validateReleaseBundleSourceRules (b : ReleaseBundle) (c : Channel) : result apierror (list ValidationIssue) :=
  evaluated "could not validate ReleaseBundle source rules"
    (EvaluateSource (channelrulesFromChannel c)
      {| in_Version := ""; in_SourceBranch := bn_SourceBranch b; in_SourceTag := bn_SourceTag b |}) ≫= λ issues : list Issue,
  Ok ((λ i, issue_at (releaseBundleSourceIssueField (iss_Field i)) i) <$> issues).

Definition validateApplicationVersionComponent (b : ReleaseBundle) (c : ReleaseBundleComponent) (channel : Channel) (s : rdb)
    : result apierror (list ValidationIssue) :=
  let prefix := "components." +:+ bc_Key c in
  match bc_ApplicationVersionID c with
  | None => Ok (AddError (prefix +:+ ".applicationVersionId") "required"
                  "application version component must reference an application version")
  | Some v =>
      match find_version v (bn_ApplicationID b) (bn_OrganizationID b) s with
      | None => Ok (AddError (prefix +:+ ".applicationVersionId") "organization"
                      "application version does not belong to this application and organization")
      | Some version =>
          evaluated "could not validate ReleaseBundle channel rules"
            (EvaluateVersion (channelrulesFromChannel channel)
              {| in_Version := bc_Version c; in_SourceBranch := ""; in_SourceTag := "" |}) ≫= λ issues : list Issue,
          Ok (error_if (negb (bool_decide (av_Name version = bc_Version c))) (prefix +:+ ".version") "applicationVersion"
                "component version must match the referenced application version"
              ++ ((λ i, issue_at (prefix +:+ "." +:+ iss_Field i) i) <$> issues))
      end
  end.

Definition validateChildReleaseBundleComponent (b : ReleaseBundle) (c : ReleaseBundleComponent) (s : rdb)
    : list ValidationIssue :=
  let field := "components." +:+ bc_Key c +:+ ".childReleaseBundleId" in
  match bc_ChildReleaseBundleID c with
  | None => AddError field "exists" "child release bundle reference is invalid"
  | Some child =>
      if bool_decide (child = bn_ID b) then AddError field "exists" "child release bundle reference is invalid" else
      match find_bundle child (bn_OrganizationID b) s with
      | Err _ => AddError field "organization" "child release bundle does not belong to this organization"
      | Ok x => error_if (negb (bool_decide (bn_Status x = ReleaseBundleStatusPublished))) field "published"
                  "child release bundle must be published"
      end
  end.

Definition validate_component (b : ReleaseBundle) (channel : Channel) (s : rdb) (c : ReleaseBundleComponent)
    : result apierror (list ValidationIssue) :=
  match bc_Type c with
  | ComponentApplicationVersion => validateApplicationVersionComponent b c channel s
  | ComponentChildReleaseBundle => Ok (validateChildReleaseBundleComponent b c s)
  | _ => Ok []
  end.

Fixpoint validate_references (b : ReleaseBundle) (channel : Channel) (s : rdb) (l : list ReleaseBundleComponent)
    : result apierror (list ValidationIssue) :=
  match l with
  | [] => Ok []
  | c :: l =>
      validate_component b channel s c ≫= λ issues,
      validate_references b channel s l ≫= λ more, Ok (issues ++ more)
  end.

Definition validateReleaseBundle (b : ReleaseBundle) (s : rdb) : result apierror (list ValidationIssue) :=
  let content := ValidateBundleContent b in
  match channel_row (bn_ChannelID b) (bn_OrganizationID b) s with
  | None => Ok (content ++ AddError "channelId" "exists" "release bundle channel does not exist in this organization")
  | Some channel =>
      validateReleaseBundleSourceRules b channel ≫= λ source,
      validate_references b channel s (bn_Components b) ≫= λ references,
      Ok (content ++ source ++ references)
  end.

Definition ValidateReleaseBundle (id org : uuid) (s : rdb) : result apierror (list ValidationIssue) :=
  GetReleaseBundle id org s ≫= λ b, validateReleaseBundle b s.

(** ** Transitions *)

Definition releaseBundleAuditEventForTransition (b : ReleaseBundle) (actor : uuid) (event to reason : string)
    : ReleaseBundleAuditEvent :=
  {| ae_OrganizationID := bn_OrganizationID b; ae_ReleaseBundleID := bn_ID b; ae_ActorUserAccountID := Some actor;
     ae_EventType := event; ae_FromStatus := bn_Status b; ae_ToStatus := Some to; ae_Reason := reason |}.

Definition releaseBundleTransitionRejectedReason (from to : string) : string :=
  "release bundle cannot transition from " +:+ from +:+ " to " +:+ to.

Definition actor_exists (e : ReleaseBundleAuditEvent) (s : rdb) : bool :=
  match ae_ActorUserAccountID e with Some u => contains (rd_users s) u | None => true end.

Definition insertReleaseBundleAuditEvent (e : ReleaseBundleAuditEvent) : rtx unit := λ s,
  if negb (actor_exists e s) then Err (mapReleaseBundleWriteError "insert audit event" ForeignKeyViolation) else
  Ok (tt, set_bundle_tables (Bundles s) (ComponentRows s) (AuditEvents s ++ [e]) (IdempotencyKeys s) s).

(** A rejected transition is recorded; its error is returned after the commit. *)
Definition reject (b : ReleaseBundle) (actor : uuid) (to reason : string) (e : apierror) : rtx (result apierror ReleaseBundle) :=
  insertReleaseBundleAuditEvent
    (releaseBundleAuditEventForTransition b actor AuditEventTypeStateTransitionRejected to reason) ≫= λ _,
  mret (Err e).

Definition updateReleaseBundleStatus (id org : uuid) (status : string) : rtx ReleaseBundle :=
  sforbid (λ s, negb (exists_where (bundle_where id org) (Bundles s))) NotFound ≫= λ _,
  smodify (λ s, set_bundles (update_where (bundle_where id org) (with_status status) (Bundles s)) s) ≫= λ _,
  squery (getReleaseBundle id org).

Definition published_row (b old : ReleaseBundle) (status : string) (user : uuid) : ReleaseBundle :=
  with_state (bn_ProcessSnapshotID old) (bn_VariableSnapshotID b) status (Some user) (bn_ReleaseContract old)
    (bn_CanonicalPayload b) (bn_CanonicalChecksum b) old.

Definition publishReleaseBundleStatus (b : ReleaseBundle) (status : string) (user : uuid) : rtx ReleaseBundle :=
  sforbid (λ s, negb (exists_where (bundle_where (bn_ID b) (bn_OrganizationID b)) (Bundles s))) NotFound ≫= λ _,
  sforbid (λ s, negb (contains (rd_users s) user)) (mapReleaseBundleWriteError "scan published" ForeignKeyViolation) ≫= λ _,
  smodify (λ s, set_bundles (update_where (bundle_where (bn_ID b) (bn_OrganizationID b))
    (λ old, published_row b old status user) (Bundles s)) s) ≫= λ _,
  squery (getReleaseBundle (bn_ID b) (bn_OrganizationID b)).

Definition snapshot_owner (b : ReleaseBundle) : SnapshotOwner :=
  {| so_ReleaseBundleID := bn_ID b; so_OrganizationID := bn_OrganizationID b; so_ApplicationID := bn_ApplicationID b;
     so_ChannelID := bn_ChannelID b |}.

(** The error of a committed transaction that rejects, or that of a failed one. *)
Definition settle {A} (x : result apierror (result apierror A) * rdb) : result apierror A * rdb :=
  (match fst x with Ok r => r | Err e => Err e end, snd x).

(** The transaction of a publication, after the bundle was validated. *)
Definition publish_draft (env : renv) (b : ReleaseBundle) (actor : uuid) : rtx (result apierror ReleaseBundle) :=
  on_variables (createVariableSnapshotForReleaseBundle (new_snapshot_keys env) (snapshot_owner b)) ≫= λ snapshot,
  let b := setReleaseBundleCanonicalFields (with_variable_snapshot (vn_ID snapshot) b) in
  publishReleaseBundleStatus b ReleaseBundleStatusPublished actor ≫= λ updated,
  insertReleaseBundleAuditEvent
    (releaseBundleAuditEventForTransition b actor AuditEventTypePublished ReleaseBundleStatusPublished "") ≫= λ _,
  mret (Ok updated).

Definition publish_tx (env : renv) (id org actor : uuid) : rtx (result apierror ReleaseBundle) :=
  squery (getReleaseBundle id org) ≫= λ b,
  if negb (bool_decide (bn_Status b = ReleaseBundleStatusDraft))
  then reject b actor ReleaseBundleStatusPublished
         (releaseBundleTransitionRejectedReason (bn_Status b) ReleaseBundleStatusPublished)
         (Conflict "could not publish ReleaseBundle")
  else
    squery (validateReleaseBundle b) ≫= λ issues,
    if negb (bool_decide (length issues = 0))
    then reject b actor ReleaseBundleStatusPublished "validation failed" (BadRequest "could not publish ReleaseBundle")
    else publish_draft env b actor.

(** The result of the validation, which is returned too, is that of [ValidateReleaseBundle]. *)
Definition PublishReleaseBundle (env : renv) (id org actor : uuid) (s : rdb) : result apierror ReleaseBundle * rdb :=
  settle (RunSTx (publish_tx env id org actor) s).

Definition transition_tx (id org actor : uuid) (to event : string) (allowedFrom : list string)
    : rtx (result apierror ReleaseBundle) :=
  squery (getReleaseBundle id org) ≫= λ b,
  if negb (contains allowedFrom (bn_Status b))
  then reject b actor to (releaseBundleTransitionRejectedReason (bn_Status b) to)
         (Conflict "could not transition ReleaseBundle")
  else
    updateReleaseBundleStatus (bn_ID b) (bn_OrganizationID b) to ≫= λ updated,
    insertReleaseBundleAuditEvent (releaseBundleAuditEventForTransition b actor event to "") ≫= λ _,
    mret (Ok updated).

Definition transitionReleaseBundle (id org actor : uuid) (to event : string) (allowedFrom : list string) (s : rdb)
    : result apierror ReleaseBundle * rdb :=
  settle (RunSTx (transition_tx id org actor to event allowedFrom) s).

Definition BlockReleaseBundle (id org actor : uuid) (s : rdb) : result apierror ReleaseBundle * rdb :=
  transitionReleaseBundle id org actor ReleaseBundleStatusBlocked AuditEventTypeBlocked [ReleaseBundleStatusPublished] s.

Definition ArchiveReleaseBundle (id org actor : uuid) (s : rdb) : result apierror ReleaseBundle * rdb :=
  transitionReleaseBundle id org actor ReleaseBundleStatusArchived AuditEventTypeArchived
    [ReleaseBundleStatusPublished; ReleaseBundleStatusBlocked] s.
End validating.

(** ** Users

    A deleted user account is forgotten: [ON DELETE SET NULL]. *)
Definition forget_publisher (user : uuid) (b : ReleaseBundle) : ReleaseBundle :=
  if bool_decide (bn_PublishedByUserAccountID b = Some user)
  then with_state (bn_ProcessSnapshotID b) (bn_VariableSnapshotID b) (bn_Status b) None (bn_ReleaseContract b)
         (bn_CanonicalPayload b) (bn_CanonicalChecksum b) b
  else b.
Definition forget_actor (user : uuid) (e : ReleaseBundleAuditEvent) : ReleaseBundleAuditEvent :=
  if bool_decide (ae_ActorUserAccountID e = Some user)
  then {| ae_OrganizationID := ae_OrganizationID e; ae_ReleaseBundleID := ae_ReleaseBundleID e;
          ae_ActorUserAccountID := None; ae_EventType := ae_EventType e; ae_FromStatus := ae_FromStatus e;
          ae_ToStatus := ae_ToStatus e; ae_Reason := ae_Reason e |}
  else e.
Definition forget_user (user : uuid) (s : rdb) : rdb :=
  set_bundle_tables (forget_publisher user <$> Bundles s) (ComponentRows s) (forget_actor user <$> AuditEvents s)
    (IdempotencyKeys s) s.
