(* ===== verification/BundleTables.v ===== *)
(** * Release bundles: the invariant of the tables

    What holds of the stored bundles, their components, audit events and
    idempotency keys in every reachable state, and that every operation keeps
    it. *)
From S2P Require Import Prelude GoStrings Uuid GoRegexp GoJson StepRedaction JsonDecode JsonStruct JsonRaw TaskStore Transaction Preflight ExternalExecution VariableResolution VariableJson DeploymentProcess ProcessSnapshots VariableSets VariableSnapshots ChannelRules Channels ReleaseContract BundleContent ReleaseBundles.
Open Scope list_scope.

(** ** The history of a bundle *)

Definition allowed_edge (from to : string) : bool :=
  contains [(ReleaseBundleStatusDraft, ReleaseBundleStatusPublished); (ReleaseBundleStatusPublished, ReleaseBundleStatusBlocked);
            (ReleaseBundleStatusPublished, ReleaseBundleStatusArchived); (ReleaseBundleStatusBlocked, ReleaseBundleStatusArchived)]
    (from, to).

(** The event of a transition to a status. *)
Definition event_type_of (to : string) : string :=
  if bool_decide (to = ReleaseBundleStatusPublished) then AuditEventTypePublished else
  if bool_decide (to = ReleaseBundleStatusBlocked) then AuditEventTypeBlocked else AuditEventTypeArchived.

(** A transition that the statuses forbid, or an invalid draft. *)
Definition rejection_ok (e : ReleaseBundleAuditEvent) : bool :=
  match ae_ToStatus e with
  | Some to => negb (allowed_edge (ae_FromStatus e) to)
      || bool_decide (ae_FromStatus e = ReleaseBundleStatusDraft /\ to = ReleaseBundleStatusPublished
           /\ ae_Reason e = "validation failed")
  | None => false
  end.

(** The status after an event, when the event can happen in this status. *)
Definition audit_step (status : string) (e : ReleaseBundleAuditEvent) : option string :=
  if negb (bool_decide (ae_FromStatus e = status)) then None else
  if bool_decide (ae_EventType e = AuditEventTypeStateTransitionRejected)
  then if rejection_ok e then Some status else None
  else match ae_ToStatus e with
       | Some to => if allowed_edge status to && bool_decide (ae_EventType e = event_type_of to) then Some to else None
       | None => None
       end.
Definition replay (status : string) (l : list ReleaseBundleAuditEvent) : option string :=
  foldl (λ acc e, acc ≫= λ st, audit_step st e) (Some status) l.

Lemma replay_snoc st l e : replay st (l ++ [e]) = replay st l ≫= λ x, audit_step x e.
Proof. unfold replay. by rewrite foldl_app. Qed.

(** ** The invariant *)

Definition components_of (id : uuid) (l : list ComponentRow) : list ReleaseBundleComponent :=
  cr_Component <$> select_where (λ r, bool_decide (cr_ReleaseBundleID r = id)) l.
Definition events_of (id org : uuid) (l : list ReleaseBundleAuditEvent) : list ReleaseBundleAuditEvent :=
  select_where (λ e, bool_decide (ae_ReleaseBundleID e = id) && bool_decide (ae_OrganizationID e = org)) l.
Definition row_key (r : ComponentRow) : uuid * string := (cr_ReleaseBundleID r, bc_Key (cr_Component r)).
Definition is_draft (b : ReleaseBundle) : Prop := bn_Status b = ReleaseBundleStatusDraft.

Record bundle_ok `{Crypto} (C : list ComponentRow) (A : list ReleaseBundleAuditEvent) (b : ReleaseBundle) : Prop := {
  bo_status : bn_Status b ∈ [ReleaseBundleStatusDraft; ReleaseBundleStatusPublished; ReleaseBundleStatusBlocked;
                             ReleaseBundleStatusArchived];
  bo_draft : is_draft b -> bn_VariableSnapshotID b = None;
  bo_contract : NormalizedReleaseContract (bn_ReleaseContract b) = bn_ReleaseContract b;
  bo_canonical l : l ≡ₚ components_of (bn_ID b) C ->
    Canonicalize (with_components l b) = (bn_CanonicalPayload b, bn_CanonicalChecksum b);
  bo_history : replay ReleaseBundleStatusDraft (events_of (bn_ID b) (bn_OrganizationID b) A) = Some (bn_Status b);
}.

(** A published bundle comes after its children. *)
Definition children_before (B : list ReleaseBundle) (C : list ComponentRow) (rank : uuid -> nat) : Prop :=
  forall r b c, r ∈ C -> b ∈ B -> cr_ReleaseBundleID r = bn_ID b -> ~ is_draft b ->
    bc_ChildReleaseBundleID (cr_Component r) = Some c ->
    exists x, x ∈ B /\ bn_ID x = c /\ ~ is_draft x /\ rank c < rank (bn_ID b).

Record tables_ok `{Crypto} (B : list ReleaseBundle) (C : list ComponentRow) (A : list ReleaseBundleAuditEvent)
    (K : list IdempotencyRecord) : Prop := {
  to_ids : NoDup (bn_ID <$> B);
  to_bundles b : b ∈ B -> bundle_ok C A b;
  to_owned r : r ∈ C -> cr_ReleaseBundleID r ∈ bn_ID <$> B;
  to_keys : NoDup (row_key <$> C);
  to_types r : r ∈ C -> component_type_valid (bc_Type (cr_Component r)) = true;
  to_children r c : r ∈ C -> bc_ChildReleaseBundleID (cr_Component r) = Some c -> c ∈ bn_ID <$> B;
  to_rank : exists rank, children_before B C rank;
  to_events e : e ∈ A -> (ae_ReleaseBundleID e, ae_OrganizationID e) ∈ (λ b, (bn_ID b, bn_OrganizationID b)) <$> B;
  to_records k : k ∈ K -> (ik_ReleaseBundleID k, ik_OrganizationID k) ∈ (λ b, (bn_ID b, bn_OrganizationID b)) <$> B;
  to_record_keys : NoDup ((λ k, (ik_OrganizationID k, ik_KeyHash k)) <$> K);
}.

Definition rb_inv `{Crypto} (s : rdb) : Prop := tables_ok (Bundles s) (ComponentRows s) (AuditEvents s) (IdempotencyKeys s).

(** ** The canonical fields *)

Section canonical.
Context `{Crypto}.

Definition same_content (x y : ReleaseBundle) : Prop :=
  bn_ApplicationID x = bn_ApplicationID y /\ bn_ChannelID x = bn_ChannelID y
  /\ bn_ProcessSnapshotID x = bn_ProcessSnapshotID y /\ bn_VariableSnapshotID x = bn_VariableSnapshotID y
  /\ bn_ReleaseNumber x = bn_ReleaseNumber y /\ bn_ReleaseNotes x = bn_ReleaseNotes y
  /\ bn_SourceRevision x = bn_SourceRevision y /\ bn_SourceRepository x = bn_SourceRepository y
  /\ bn_SourceBranch x = bn_SourceBranch y /\ bn_SourceTag x = bn_SourceTag y /\ bn_CIProvider x = bn_CIProvider y
  /\ bn_CIRunID x = bn_CIRunID y /\ bn_CIRunURL x = bn_CIRunURL y
  /\ NormalizedReleaseContract (bn_ReleaseContract x) = NormalizedReleaseContract (bn_ReleaseContract y).

Lemma sorted_components_perm k l : k ≡ₚ l -> NoDup (bc_Key <$> k) -> sorted_components k = sorted_components l.
Proof.
  intros Hp Hn. unfold sorted_components. apply stable_sort_unique; [apply _|done|].
  intros x y Hx Hy H1 H2. apply (NoDup_fmap_elem bc_Key k); [done..|]. by apply string_less_total.
Qed.

(** The order of the components does not matter. *)
Lemma Canonicalize_same x y : same_content x y -> bn_Components x ≡ₚ bn_Components y -> NoDup (bc_Key <$> bn_Components x) ->
  Canonicalize x = Canonicalize y.
Proof.
  intros (E1 & E2 & E3 & E4 & E5 & E6 & E7 & E8 & E9 & E10 & E11 & E12 & E13 & E14) Hp Hn.
  unfold Canonicalize. enough (canonicalBundle x = canonicalBundle y) as -> by done.
  unfold canonicalBundle, metadata_isZero, canonicalSourceMetadata.
  by rewrite E1, E2, E3, E4, E5, E6, E7, E8, E9, E10, E11, E12, E13, E14, (sorted_components_perm _ _ Hp Hn).
Qed.

(** The fields are those of the bundle with its normalized contract. *)
Lemma canonical_fields b : let c := setReleaseBundleCanonicalFields b in
  Canonicalize c = (bn_CanonicalPayload c, bn_CanonicalChecksum c)
  /\ bn_ReleaseContract c = NormalizedReleaseContract (bn_ReleaseContract b).
Proof. done. Qed.

(** A row written from a bundle with canonical fields. *)
Lemma canonical_row c row l :
  Canonicalize c = (bn_CanonicalPayload c, bn_CanonicalChecksum c) ->
  same_content row c -> bn_CanonicalPayload row = bn_CanonicalPayload c -> bn_CanonicalChecksum row = bn_CanonicalChecksum c ->
  NoDup (bc_Key <$> bn_Components c) -> l ≡ₚ bn_Components c ->
  Canonicalize (with_components l row) = (bn_CanonicalPayload row, bn_CanonicalChecksum row).
Proof.
  intros Hc Hs -> -> Hn Hl. rewrite <- Hc. apply Canonicalize_same; [exact Hs|done|]. simpl. by rewrite Hl.
Qed.
End canonical.

(** ** The rows of components *)

Definition rows_of (id : uuid) (l : list ReleaseBundleComponent) : list ComponentRow :=
  (λ c, {| cr_ReleaseBundleID := id; cr_Component := c |}) <$> l.

Lemma components_app id k l : components_of id (k ++ l) = components_of id k ++ components_of id l.
Proof. unfold components_of. by rewrite filter_app_bool, fmap_app. Qed.

Lemma components_rows id l : components_of id (rows_of id l) = l.
Proof.
  unfold components_of, rows_of. unfold select_where. rewrite filter_all_bool.
  - rewrite <- list_fmap_compose. apply list_fmap_id.
  - intros r (c & -> & _)%list_elem_of_fmap. by apply bool_decide_eq_true.
Qed.

Lemma components_none id (l : list ComponentRow) : (forall r, r ∈ l -> cr_ReleaseBundleID r <> id) -> components_of id l = [].
Proof. intros Hl. unfold components_of. rewrite select_none; [done|]. intros r Hr. by apply bool_decide_eq_false, Hl. Qed.

Lemma components_rows_other id id' l : id <> id' -> components_of id (rows_of id' l) = [].
Proof. intros Hne. apply components_none. intros r (c & -> & _)%list_elem_of_fmap. simpl. congruence. Qed.

Lemma components_rest id id' (l : list ComponentRow) : id <> id' ->
  components_of id (select_where (λ r, negb (bool_decide (cr_ReleaseBundleID r = id'))) l) = components_of id l.
Proof.
  intros Hne. unfold components_of. f_equal. induction l as [|r l IH]; [done|]. simpl.
  destruct (decide (cr_ReleaseBundleID r = id')) as [->|E].
  - rewrite (bool_decide_eq_true_2 (id' = id')) by done. simpl. by rewrite IH, (bool_decide_eq_false_2 (id' = id)).
  - rewrite (bool_decide_eq_false_2 _ E). simpl. by rewrite IH.
Qed.

Lemma component_of_row r C : r ∈ C -> cr_Component r ∈ components_of (cr_ReleaseBundleID r) C.
Proof.
  intros Hr. apply list_elem_of_fmap_2, elem_of_select_where. split; [done|]. by apply bool_decide_eq_true.
Qed.
Lemma row_of_component c id C : c ∈ components_of id C -> exists r, r ∈ C /\ cr_ReleaseBundleID r = id /\ cr_Component r = c.
Proof.
  intros (r & -> & [Hr E%bool_decide_eq_true]%elem_of_select_where)%list_elem_of_fmap. by exists r.
Qed.

(** The keys of the components of a bundle are distinct. *)
Lemma components_keys id C : NoDup (row_key <$> C) -> NoDup (bc_Key <$> components_of id C).
Proof.
  intros Hn%(fmap_select_NoDup _ (λ r, bool_decide (cr_ReleaseBundleID r = id))). unfold components_of.
  rewrite <- list_fmap_compose. revert Hn.
  assert (forall r, r ∈ select_where (λ r, bool_decide (cr_ReleaseBundleID r = id)) C -> cr_ReleaseBundleID r = id) as Hid
    by by intros r [_ E%bool_decide_eq_true]%elem_of_select_where.
  induction (select_where _ C) as [|r l IH]; [intros; apply NoDup_nil_2|]. rewrite !fmap_cons, !NoDup_cons. intros [Hr Hn]. split.
  - intros (x & E & Hx)%list_elem_of_fmap. apply Hr, list_elem_of_fmap. exists x. split; [|done].
    unfold row_key. rewrite (Hid r) by left. rewrite (Hid x) by by right. simpl in E. by rewrite E.
  - apply IH; [|done]. intros x Hx. apply Hid. by right.
Qed.

Lemma rows_keys id C l : (forall r, r ∈ C -> cr_ReleaseBundleID r <> id) -> NoDup (row_key <$> C) -> NoDup (bc_Key <$> l) ->
  NoDup (row_key <$> (C ++ rows_of id l)).
Proof.
  intros Hc Hn Hl. rewrite fmap_app. apply NoDup_app. split_and!; [done| |].
  - intros k (r & -> & Hr)%list_elem_of_fmap (x & E & (c & -> & _)%list_elem_of_fmap)%list_elem_of_fmap.
    apply (Hc r Hr). by injection E.
  - unfold rows_of. rewrite <- list_fmap_compose. clear Hc Hn. induction l as [|c l IH]; [apply NoDup_nil_2|].
    rewrite !fmap_cons, !NoDup_cons in *. destruct Hl as [Hc Hl]. split; [|by apply IH].
    intros (x & E & Hx)%list_elem_of_fmap. apply Hc, list_elem_of_fmap. exists x. split; [by injection E|done].
Qed.

(** A key that is there cannot be copied again. *)
Lemma copy_key_taken id l rows out r c : copy_components id l rows = Ok out -> r ∈ rows -> c ∈ l ->
  cr_ReleaseBundleID r = id -> bc_Key (cr_Component r) <> bc_Key c.
Proof.
  revert rows. induction l as [|y l IH]; intros rows E Hr Hc Er Ek; [by apply elem_of_nil in Hc|]. simpl in E.
  destruct (component_type_valid (bc_Type y)); [|done]. simpl in E. destruct (exists_where _ rows) eqn:Ey; [done|].
  apply elem_of_cons in Hc as [->|Hc]; [|by eapply IH; [exact E|apply elem_of_app; by left|..]].
  rewrite exists_where_false in Ey. specialize (Ey r Hr). simpl in Ey. by rewrite !bool_decide_eq_true_2 in Ey.
Qed.

(** A successful copy. *)
Lemma copy_components_ok id l rows out : copy_components id l rows = Ok out ->
  out = rows ++ rows_of id l /\ Forall (λ c, component_type_valid (bc_Type c) = true) l /\ NoDup (bc_Key <$> l).
Proof.
  revert rows. induction l as [|c l IH]; intros rows; simpl.
  { intros [= ->]. split_and!; [by rewrite app_nil_r|done|apply NoDup_nil_2]. }
  destruct (component_type_valid (bc_Type c)) eqn:Ht; [|done]. simpl. destruct (exists_where _ rows); [done|].
  intros E. pose proof (IH _ E) as (-> & Hv & Hn). split_and!; [by rewrite <- app_assoc|by constructor|].
  apply NoDup_cons. split; [|done]. intros (x & Ek & Hx)%list_elem_of_fmap. revert Ek.
  eapply (copy_key_taken id l _ _ {| cr_ReleaseBundleID := id; cr_Component := c |}); [exact E| |done..].
  apply elem_of_app. right. by apply list_elem_of_singleton.
Qed.

(** ** Changes of the tables *)

Lemma fmap_ids (B : list ReleaseBundle) b : b ∈ B -> bn_ID b ∈ bn_ID <$> B.
Proof. apply list_elem_of_fmap_2. Qed.

Lemma unique_bundle B (x b : ReleaseBundle) : NoDup (bn_ID <$> B) -> x ∈ B -> b ∈ B -> bn_ID x = bn_ID b -> x = b.
Proof. intros Hn Hx Hb E. by apply (NoDup_fmap_elem bn_ID B). Qed.

(** A bundle is replaced, the others stay. *)
Lemma elem_replaced B f (b x : ReleaseBundle) : NoDup (bn_ID <$> B) -> b ∈ B ->
  x ∈ update_where (bundle_where (bn_ID b) (bn_OrganizationID b)) f B <-> x = f b \/ x ∈ B /\ bn_ID x <> bn_ID b.
Proof.
  intros Hn Hb. rewrite elem_of_update_where. split.
  - intros (y & Hy & ->). unfold bundle_where. destruct (decide (bn_ID y = bn_ID b)) as [E|E].
    + left. rewrite (unique_bundle B y b) by done. by rewrite !bool_decide_eq_true_2.
    + right. by rewrite (bool_decide_eq_false_2 _ E).
  - unfold bundle_where. intros [->|[Hx Hne]].
    + exists b. by rewrite !bool_decide_eq_true_2.
    + exists x. by rewrite (bool_decide_eq_false_2 _ Hne).
Qed.

Lemma ids_replaced B f (b : ReleaseBundle) :
  (forall x, bn_ID (f x) = bn_ID x) ->
  bn_ID <$> update_where (bundle_where (bn_ID b) (bn_OrganizationID b)) f B = bn_ID <$> B.
Proof. intros Hf. apply fmap_update_where. intros x _ _. apply Hf. Qed.

Lemma event_ids_replaced B f (b : ReleaseBundle) :
  (forall x, bn_ID (f x) = bn_ID x /\ bn_OrganizationID (f x) = bn_OrganizationID x) ->
  (λ b, (bn_ID b, bn_OrganizationID b)) <$> update_where (bundle_where (bn_ID b) (bn_OrganizationID b)) f B
  = (λ b, (bn_ID b, bn_OrganizationID b)) <$> B.
Proof. intros Hf. apply fmap_update_where. intros x _ _. by destruct (Hf x) as [-> ->]. Qed.

Section changes.
Context `{Crypto}.

(** What is known of a bundle depends on its components and its events. *)
Lemma bundle_ok_same C A C' A' b : bundle_ok C A b ->
  components_of (bn_ID b) C' = components_of (bn_ID b) C ->
  events_of (bn_ID b) (bn_OrganizationID b) A' = events_of (bn_ID b) (bn_OrganizationID b) A -> bundle_ok C' A' b.
Proof. intros [] Ec Ee. split; [done..| |]; by rewrite ?Ec, ?Ee. Qed.

Lemma replace_ok B C A K C' A' f b :
  tables_ok B C A K -> b ∈ B ->
  (forall x, bn_ID (f x) = bn_ID x /\ bn_OrganizationID (f x) = bn_OrganizationID x) ->
  (forall id, id <> bn_ID b -> components_of id C' = components_of id C /\ forall org, events_of id org A' = events_of id org A) ->
  bundle_ok C' A' (f b) ->
  (forall r, r ∈ C' -> r ∈ C \/ cr_ReleaseBundleID r = bn_ID b) ->
  NoDup (row_key <$> C') ->
  (forall r, r ∈ C' -> component_type_valid (bc_Type (cr_Component r)) = true) ->
  (forall r c, r ∈ C' -> bc_ChildReleaseBundleID (cr_Component r) = Some c -> c ∈ bn_ID <$> B) ->
  (forall e, e ∈ A' -> e ∈ A \/ (ae_ReleaseBundleID e, ae_OrganizationID e) = (bn_ID b, bn_OrganizationID b)) ->
  let B' := update_where (bundle_where (bn_ID b) (bn_OrganizationID b)) f B in
  (exists rank, children_before B' C' rank) ->
  tables_ok B' C' A' K.
Proof.
  intros Hs Hb Hf Hrest Hok Hown Hk Ht Hc He B' Hr.
  assert (bn_ID <$> B' = bn_ID <$> B) as Ei by (apply ids_replaced; intros x; apply Hf).
  assert (forall b, b ∈ B -> (bn_ID b, bn_OrganizationID b) ∈ (λ b, (bn_ID b, bn_OrganizationID b)) <$> B) as Hin
    by (intros x Hx; by apply (list_elem_of_fmap_2 (λ b, (bn_ID b, bn_OrganizationID b)))).
  split; try done; rewrite ?Ei.
  - apply Hs.
  - intros x [->|[Hx Hne]]%elem_replaced; [done| |apply Hs|done]. destruct (Hrest _ Hne) as [E1 E2].
    eapply bundle_ok_same; [by apply Hs|done..].
  - intros r [Hr'|E]%Hown; [by apply (to_owned _ _ _ _ Hs)|]. rewrite E. by apply fmap_ids.
  - exact Hc.
  - intros e Hin'. unfold B'. rewrite event_ids_replaced by done. apply He in Hin' as [Hin'|E]; [by apply (to_events _ _ _ _ Hs)|].
    rewrite E. by apply Hin.
  - intros k Hk'. unfold B'. rewrite event_ids_replaced by done. by apply (to_records _ _ _ _ Hs).
  - apply Hs.
Qed.

(** Without new children: an old rank is still one when the changed bundle is
    still a draft, or was none before. *)
Lemma rank_kept B C f b rank : NoDup (bn_ID <$> B) -> b ∈ B -> (forall x, bn_ID (f x) = bn_ID x) ->
  (is_draft (f b) <-> is_draft b) -> children_before B C rank ->
  children_before (update_where (bundle_where (bn_ID b) (bn_OrganizationID b)) f B) C rank.
Proof.
  intros Hn Hb Hf Hd Hr r x c Hrc Hx Er Hnd Ec.
  assert (exists y, y ∈ B /\ bn_ID y = bn_ID x /\ ~ is_draft y) as (y & Hy & Ey & Hyd).
  { apply elem_replaced in Hx as [->|[Hx _]]; [|by exists x|done..]. exists b. rewrite Hf. split_and!; [done..|]. by rewrite <- Hd. }
  destruct (Hr r y c Hrc Hy) as (z & Hz & Ez & Hzd & Hlt); [congruence|done..|]. rewrite Ey in Hlt.
  destruct (decide (bn_ID z = bn_ID b)) as [E|E].
  - exists (f b). rewrite elem_replaced by done. split_and!; [by left|by rewrite Hf, <- E|..]; [|done].
    rewrite Hd. by rewrite <- (unique_bundle B z b).
  - exists z. rewrite elem_replaced by done. split_and!; [by right|done..].
Qed.

(** A bundle that is published after its children. *)
Lemma rank_published B C f b rank : NoDup (bn_ID <$> B) -> b ∈ B -> (forall x, bn_ID (f x) = bn_ID x) ->
  is_draft b -> ~ is_draft (f b) -> children_before B C rank ->
  (forall r c, r ∈ C -> cr_ReleaseBundleID r = bn_ID b -> bc_ChildReleaseBundleID (cr_Component r) = Some c ->
     exists x, x ∈ B /\ bn_ID x = c /\ ~ is_draft x) ->
  exists rank', children_before (update_where (bundle_where (bn_ID b) (bn_OrganizationID b)) f B) C rank'.
Proof.
  intros Hn Hb Hf Hd Hfd Hr Hch.
  set (above := S (list_max (rank ∘ bn_ID <$> B))).
  assert (forall x, x ∈ B -> rank (bn_ID x) < above) as Habove.
  { intros x Hx. unfold above. apply le_n_S. pose proof (proj1 (list_max_le (rank ∘ bn_ID <$> B) _) (le_n _)) as Hm.
    rewrite List.Forall_forall in Hm. apply (Hm (rank (bn_ID x))), list_elem_of_In. by apply (list_elem_of_fmap_2 (rank ∘ bn_ID)). }
  exists (λ id, if bool_decide (id = bn_ID b) then above else rank id).
  assert (forall z, z ∈ B -> ~ is_draft z -> bn_ID z <> bn_ID b) as Hne.
  { intros z Hz Hzd E. apply Hzd. by rewrite (unique_bundle B z b). }
  intros r x c Hrc Hx Er Hnd Ec. apply elem_replaced in Hx as [->|[Hx E]]; [| |done..].
  - destruct (Hch r c Hrc) as (z & Hz & Ez & Hzd); [by rewrite Er, Hf|done|]. exists z. rewrite elem_replaced, Hf by done.
    rewrite (bool_decide_eq_true_2 (bn_ID b = bn_ID b)) by done. rewrite bool_decide_eq_false_2 by (rewrite <- Ez; auto).
    split_and!; [by right; split; [|auto]|done..|]. rewrite <- Ez. auto.
  - destruct (Hr r x c Hrc Hx Er Hnd Ec) as (z & Hz & Ez & Hzd & Hlt). exists z. rewrite elem_replaced by done.
    rewrite (bool_decide_eq_false_2 _ E), bool_decide_eq_false_2 by (rewrite <- Ez; auto).
    split_and!; [by right; split; [|auto]|done..].
Qed.
End changes.

(** ** Every kind of change keeps the invariant *)

Lemma events_other id id' org (A : list ReleaseBundleAuditEvent) e : id <> id' -> ae_ReleaseBundleID e = id' ->
  events_of id org (A ++ [e]) = events_of id org A.
Proof.
  intros Hne E. unfold events_of. rewrite filter_app_bool. rewrite (select_none _ [e]); [by rewrite app_nil_r|].
  intros x ->%list_elem_of_singleton. rewrite E. by rewrite bool_decide_eq_false_2 by congruence.
Qed.

Lemma events_own id org (A : list ReleaseBundleAuditEvent) e : ae_ReleaseBundleID e = id -> ae_OrganizationID e = org ->
  events_of id org (A ++ [e]) = events_of id org A ++ [e].
Proof.
  intros Ei Eo. unfold events_of. rewrite filter_app_bool. f_equal. simpl. by rewrite Ei, Eo, !bool_decide_eq_true_2.
Qed.

Section kinds.
Context `{Crypto}.

(** A transition or its rejection: a changed bundle and its event. *)
Lemma transition_ok B C A K f b e :
  tables_ok B C A K -> b ∈ B ->
  (forall x, bn_ID (f x) = bn_ID x /\ bn_OrganizationID (f x) = bn_OrganizationID x) ->
  ae_ReleaseBundleID e = bn_ID b -> ae_OrganizationID e = bn_OrganizationID b ->
  audit_step (bn_Status b) e = Some (bn_Status (f b)) ->
  (bundle_ok C A b -> bn_Status (f b) ∈ [ReleaseBundleStatusDraft; ReleaseBundleStatusPublished; ReleaseBundleStatusBlocked;
                             ReleaseBundleStatusArchived]
    /\ (is_draft (f b) -> bn_VariableSnapshotID (f b) = None)
    /\ NormalizedReleaseContract (bn_ReleaseContract (f b)) = bn_ReleaseContract (f b)
    /\ forall l, l ≡ₚ components_of (bn_ID b) C ->
         Canonicalize (with_components l (f b)) = (bn_CanonicalPayload (f b), bn_CanonicalChecksum (f b))) ->
  (is_draft (f b) <-> is_draft b) \/
  (is_draft b /\ ~ is_draft (f b) /\
   forall r c, r ∈ C -> cr_ReleaseBundleID r = bn_ID b -> bc_ChildReleaseBundleID (cr_Component r) = Some c ->
     exists x, x ∈ B /\ bn_ID x = c /\ ~ is_draft x) ->
  tables_ok (update_where (bundle_where (bn_ID b) (bn_OrganizationID b)) f B) C (A ++ [e]) K.
Proof.
  intros Hs Hb Hf Ei Eo Ha Hok Hrank. pose proof (to_bundles _ _ _ _ Hs b Hb) as Hbo. destruct (Hok Hbo) as (H1 & H2 & H3 & H4).
  destruct (Hf b) as [Efi Efo]. apply (replace_ok B C A K); try done; try apply Hs.
  - intros id Hne. split; [done|]. intros org. by apply (events_other id (bn_ID b)).
  - split; [done..| |]; rewrite Efi; [done|]. rewrite Efo, (events_own _ _ A e) by done. rewrite replay_snoc, (bo_history _ _ _ Hbo). exact Ha.
  - by left.
  - intros x [Hx| ->%list_elem_of_singleton]%elem_of_app; [by left|]. right. by rewrite Ei, Eo.
  - destruct (to_rank _ _ _ _ Hs) as [rank Hr]. destruct Hrank as [Hd|(Hd & Hnd & Hch)].
    + exists rank. apply rank_kept; try done; [apply Hs|intros x; apply Hf].
    + eapply rank_published; try done; [apply Hs|intros x; apply Hf].
Qed.

Lemma update_rows_ok B C A K f b l :
  tables_ok B C A K -> b ∈ B -> is_draft b -> is_draft (f b) ->
  (forall x, bn_ID (f x) = bn_ID x /\ bn_OrganizationID (f x) = bn_OrganizationID x) ->
  bn_VariableSnapshotID (f b) = None ->
  NormalizedReleaseContract (bn_ReleaseContract (f b)) = bn_ReleaseContract (f b) ->
  (forall k, k ≡ₚ l -> Canonicalize (with_components k (f b)) = (bn_CanonicalPayload (f b), bn_CanonicalChecksum (f b))) ->
  Forall (λ c, component_type_valid (bc_Type c) = true) l -> NoDup (bc_Key <$> l) ->
  (forall c x, c ∈ l -> bc_ChildReleaseBundleID c = Some x -> x ∈ bn_ID <$> B) ->
  tables_ok (update_where (bundle_where (bn_ID b) (bn_OrganizationID b)) f B)
    (select_where (λ r, negb (bool_decide (cr_ReleaseBundleID r = bn_ID b))) C ++ rows_of (bn_ID b) l) A K.
Proof.
  intros Hs Hb Hd Hfd Hf Hv Hc Hcan Ht Hn Hch. set (rest := select_where _ C). destruct (Hf b) as [Efi Efo].
  assert (forall r, r ∈ rest -> r ∈ C /\ cr_ReleaseBundleID r <> bn_ID b) as Hrest.
  { intros r [Hr Hne]%elem_of_select_where. to_prop. done. }
  assert (components_of (bn_ID b) rest = []) as Enone by (apply components_none; intros r Hr; by apply Hrest).
  assert (forall r, r ∈ rest ++ rows_of (bn_ID b) l -> r ∈ rest \/ cr_ReleaseBundleID r = bn_ID b /\ cr_Component r ∈ l) as Hin.
  { intros r [Hr|(c & -> & Hc')%list_elem_of_fmap]%elem_of_app; [by left|by right]. }
  pose proof (to_bundles _ _ _ _ Hs b Hb) as Hbo. apply (replace_ok B C A K); try done.
  - intros id Hne. split; [|done]. rewrite components_app, components_rows_other by done. rewrite app_nil_r. by apply components_rest.
  - split; [unfold is_draft in Hfd; rewrite Hfd; by left|done|done| |].
    + rewrite Efi, components_app, Enone, components_rows. exact Hcan.
    + rewrite Efi, Efo, (bo_history _ _ _ Hbo). unfold is_draft in Hd, Hfd. congruence.
  - intros r [Hr|[E _]]%Hin; [left; by apply Hrest|by right].
  - apply rows_keys; [intros r Hr; by apply Hrest|apply fmap_select_NoDup, Hs|done].
  - intros r [Hr|[_ Hl]]%Hin; [apply (to_types _ _ _ _ Hs); by apply Hrest|]. rewrite Forall_forall in Ht. by apply Ht.
  - intros r c [Hr|[_ Hl]]%Hin Ec; [eapply (to_children _ _ _ _ Hs); [by apply Hrest|done]|by eapply Hch].
  - by left.
  - destruct (to_rank _ _ _ _ Hs) as [rank Hr]. exists rank.
    assert (children_before (update_where (bundle_where (bn_ID b) (bn_OrganizationID b)) f B) C rank) as Hr'.
    { apply rank_kept; try done; [apply Hs|intros x; apply Hf]. }
    intros r x c Hrc Hx Er Hnd Ec. apply Hin in Hrc as [Hrc|[E _]]; [by eapply Hr'; [apply Hrest|..]|].
    apply elem_replaced in Hx as [->|[_ Hne]]; [done|congruence|apply Hs|done].
Qed.

Lemma insert_rows_ok B C A K row l :
  tables_ok B C A K -> (bn_ID row ∉ bn_ID <$> B) -> is_draft row -> bn_VariableSnapshotID row = None ->
  NormalizedReleaseContract (bn_ReleaseContract row) = bn_ReleaseContract row ->
  (forall k, k ≡ₚ l -> Canonicalize (with_components k row) = (bn_CanonicalPayload row, bn_CanonicalChecksum row)) ->
  Forall (λ c, component_type_valid (bc_Type c) = true) l -> NoDup (bc_Key <$> l) ->
  (forall c x, c ∈ l -> bc_ChildReleaseBundleID c = Some x -> x ∈ bn_ID <$> (B ++ [row])) ->
  tables_ok (B ++ [row]) (C ++ rows_of (bn_ID row) l) A K.
Proof.
  intros Hs Hid Hd Hv Hc Hcan Ht Hn Hch.
  assert (forall r, r ∈ C -> cr_ReleaseBundleID r <> bn_ID row) as Hother.
  { intros r Hr E. apply Hid. rewrite <- E. by apply (to_owned _ _ _ _ Hs). }
  assert (forall r, r ∈ C ++ rows_of (bn_ID row) l -> r ∈ C \/ cr_ReleaseBundleID r = bn_ID row /\ cr_Component r ∈ l) as Hin.
  { intros r [Hr|(c & -> & Hc')%list_elem_of_fmap]%elem_of_app; [by left|by right]. }
  assert (bn_ID <$> (B ++ [row]) = (bn_ID <$> B) ++ [bn_ID row]) as Ei by by rewrite fmap_app.
  assert (forall x, x ∈ bn_ID <$> B -> x ∈ bn_ID <$> (B ++ [row])) as Hmore by (intros x Hx; rewrite Ei; apply elem_of_app; by left).
  split.
  - rewrite Ei. apply NoDup_app. split_and!; [apply Hs| |apply NoDup_singleton]. by intros x Hx ->%list_elem_of_singleton.
  - intros b [Hb| ->%list_elem_of_singleton]%elem_of_app.
    + eapply bundle_ok_same; [by apply (to_bundles _ _ _ _ Hs)| |done]. rewrite components_app, components_rows_other, app_nil_r; [done|].
      intros E. apply Hid. rewrite <- E. by apply fmap_ids.
    + split; [unfold is_draft in Hd; rewrite Hd; by left|done|done| |].
      * rewrite components_app, components_none, components_rows by done. exact Hcan.
      * unfold events_of. rewrite select_none; [by rewrite Hd|]. intros e He. apply andb_false_iff. left. apply bool_decide_eq_false.
        intros E. apply Hid. apply (to_events _ _ _ _ Hs) in He as (b & Eb & Hb)%list_elem_of_fmap. injection Eb as Eb _.
        rewrite <- E, Eb. by apply fmap_ids.
  - intros r [Hr|[-> _]]%Hin; [by apply Hmore, (to_owned _ _ _ _ Hs)|]. rewrite Ei. apply elem_of_app. right. by left.
  - apply rows_keys; [done|apply Hs|done].
  - intros r [Hr|[_ Hl]]%Hin; [by apply (to_types _ _ _ _ Hs)|]. rewrite Forall_forall in Ht. by apply Ht.
  - intros r c [Hr|[_ Hl]]%Hin Ec; [apply Hmore; by eapply (to_children _ _ _ _ Hs)|by eapply Hch].
  - destruct (to_rank _ _ _ _ Hs) as [rank Hr]. exists rank. intros r b c Hrc Hb Er Hnd Ec.
    apply elem_of_app in Hb as [Hb| ->%list_elem_of_singleton]; [|done]. apply Hin in Hrc as [Hrc|[E _]].
    + destruct (Hr r b c) as (x & Hx & ?); [done..|]. exists x. split; [apply elem_of_app; by left|done].
    + exfalso. apply Hid. rewrite <- E, Er. by apply fmap_ids.
  - intros e He. rewrite fmap_app. apply elem_of_app. left. by apply (to_events _ _ _ _ Hs).
  - intros k Hk. rewrite fmap_app. apply elem_of_app. left. by apply (to_records _ _ _ _ Hs).
  - apply Hs.
Qed.

Lemma record_ok B C A K k :
  tables_ok B C A K -> (ik_ReleaseBundleID k, ik_OrganizationID k) ∈ (λ b, (bn_ID b, bn_OrganizationID b)) <$> B ->
  ((ik_OrganizationID k, ik_KeyHash k) ∉ (λ k, (ik_OrganizationID k, ik_KeyHash k)) <$> K) ->
  tables_ok B C A (K ++ [k]).
Proof.
  intros Hs Hk Hn. split; try apply Hs.
  - intros x [Hx| ->%list_elem_of_singleton]%elem_of_app; [by apply (to_records _ _ _ _ Hs)|done].
  - rewrite fmap_app. apply NoDup_app. split_and!; [apply Hs| |apply NoDup_singleton]. intros x Hx ->%list_elem_of_singleton. by apply Hn.
Qed.

Lemma delete_rows_ok B C A K b :
  tables_ok B C A K -> b ∈ B ->
  (forall r, r ∈ C -> cr_ReleaseBundleID r <> bn_ID b -> bc_ChildReleaseBundleID (cr_Component r) <> Some (bn_ID b)) ->
  (forall k, k ∈ K -> ik_ReleaseBundleID k <> bn_ID b) ->
  tables_ok (select_where (λ x, negb (bundle_where (bn_ID b) (bn_OrganizationID b) x)) B)
    (select_where (λ r, negb (bool_decide (cr_ReleaseBundleID r = bn_ID b))) C)
    (select_where (λ e, negb (bool_decide (ae_ReleaseBundleID e = bn_ID b))) A) K.
Proof.
  intros Hs Hb Hkept Hrec. set (B' := select_where _ B). set (C' := select_where _ C). set (A' := select_where _ A).
  assert (forall x, x ∈ B' <-> x ∈ B /\ bn_ID x <> bn_ID b) as HB.
  { intros x. unfold B'. rewrite elem_of_select_where. unfold bundle_where. split; intros [Hx Hne]; (split; [done|]).
    - intros E. rewrite (unique_bundle B x b) in Hne by (try done; apply Hs). by rewrite !bool_decide_eq_true_2 in Hne.
    - by rewrite (bool_decide_eq_false_2 _ Hne). }
  assert (forall id, id ∈ bn_ID <$> B -> id <> bn_ID b -> id ∈ bn_ID <$> B') as Hids.
  { intros id (x & -> & Hx)%list_elem_of_fmap Hne. apply list_elem_of_fmap_2, HB. done. }
  assert (forall r, r ∈ C' <-> r ∈ C /\ cr_ReleaseBundleID r <> bn_ID b) as HC.
  { intros r. unfold C'. rewrite elem_of_select_where. by rewrite negb_true_iff, bool_decide_eq_false. }
  assert (forall p, p ∈ (λ b, (bn_ID b, bn_OrganizationID b)) <$> B -> p.1 <> bn_ID b -> p ∈ (λ b, (bn_ID b, bn_OrganizationID b)) <$> B') as Hpairs.
  { intros p (x & -> & Hx)%list_elem_of_fmap Hne. apply (list_elem_of_fmap_2 (λ b, (bn_ID b, bn_OrganizationID b))), HB. done. }
  split.
  - by apply fmap_select_NoDup, Hs.
  - intros x [Hx Hne]%HB. eapply bundle_ok_same; [by apply (to_bundles _ _ _ _ Hs)|by apply components_rest|].
    unfold events_of, A'. clear -Hne. induction A as [|e A IH]; [done|]. simpl.
    destruct (decide (ae_ReleaseBundleID e = bn_ID b)) as [E|E].
    + rewrite (bool_decide_eq_true_2 _ E), (bool_decide_eq_false_2 (_ = bn_ID x)) by congruence. exact IH.
    + rewrite (bool_decide_eq_false_2 _ E). simpl. by rewrite IH.
  - intros r [Hr Hne]%HC. apply Hids; [by apply (to_owned _ _ _ _ Hs)|done].
  - apply fmap_select_NoDup, Hs.
  - intros r [Hr _]%HC. by apply (to_types _ _ _ _ Hs).
  - intros r c [Hr Hne]%HC Ec. apply Hids; [by eapply (to_children _ _ _ _ Hs)|]. intros ->. by eapply Hkept.
  - destruct (to_rank _ _ _ _ Hs) as [rank Hr]. exists rank. intros r x c [Hrc Hne]%HC [Hx _]%HB Er Hnd Ec.
    destruct (Hr r x c) as (z & Hz & Ez & ?); [done..|]. exists z. rewrite HB. split; [split; [done|]|done].
    rewrite Ez. intros ->. by eapply Hkept.
  - intros e [He Hne]%elem_of_select_where. to_prop. apply Hpairs; [by apply (to_events _ _ _ _ Hs)|done].
  - intros k Hk. apply Hpairs; [by apply (to_records _ _ _ _ Hs)|]. by apply Hrec.
  - apply Hs.
Qed.
End kinds.

(** ** A forgotten user *)

Lemma forget_publisher_same user b :
  bn_ID (forget_publisher user b) = bn_ID b /\ bn_OrganizationID (forget_publisher user b) = bn_OrganizationID b
  /\ bn_Status (forget_publisher user b) = bn_Status b /\ bn_VariableSnapshotID (forget_publisher user b) = bn_VariableSnapshotID b
  /\ bn_ReleaseContract (forget_publisher user b) = bn_ReleaseContract b
  /\ bn_CanonicalPayload (forget_publisher user b) = bn_CanonicalPayload b
  /\ bn_CanonicalChecksum (forget_publisher user b) = bn_CanonicalChecksum b.
Proof. unfold forget_publisher. by case_bool_decide. Qed.

Lemma audit_step_forget user st e : audit_step st (forget_actor user e) = audit_step st e.
Proof. unfold forget_actor. by case_bool_decide. Qed.

Lemma replay_forget user st l : replay st (forget_actor user <$> l) = replay st l.
Proof.
  induction l as [|e l IH] using rev_ind; [done|]. rewrite fmap_app. simpl. rewrite !replay_snoc, IH.
  destruct (replay st l) as [x|]; [|done]. simpl. apply audit_step_forget.
Qed.

Lemma events_forget user id org l : events_of id org (forget_actor user <$> l) = forget_actor user <$> events_of id org l.
Proof.
  unfold events_of. induction l as [|e l IH]; [done|]. rewrite fmap_cons. simpl.
  assert (ae_ReleaseBundleID (forget_actor user e) = ae_ReleaseBundleID e
    /\ ae_OrganizationID (forget_actor user e) = ae_OrganizationID e) as [-> ->] by (unfold forget_actor; by case_bool_decide).
  destruct (_ && _); [|done]. rewrite fmap_cons. by rewrite IH.
Qed.

Lemma forget_ok `{Crypto} user B C A K : tables_ok B C A K -> tables_ok (forget_publisher user <$> B) C (forget_actor user <$> A) K.
Proof.
  intros Hs.
  assert (bn_ID <$> (forget_publisher user <$> B) = bn_ID <$> B) as Ei.
  { rewrite <- list_fmap_compose. apply list_fmap_ext. intros i b _. apply forget_publisher_same. }
  assert ((λ b, (bn_ID b, bn_OrganizationID b)) <$> (forget_publisher user <$> B) = (λ b, (bn_ID b, bn_OrganizationID b)) <$> B) as Ep.
  { rewrite <- list_fmap_compose. apply list_fmap_ext. intros i b _. simpl. by destruct (forget_publisher_same user b) as (-> & -> & _). }
  split; rewrite ?Ei, ?Ep; try apply Hs.
  - intros x (b & -> & Hb)%list_elem_of_fmap. destruct (to_bundles _ _ _ _ Hs b Hb).
    destruct (forget_publisher_same user b) as (E1 & E2 & E3 & E4 & E5 & E6 & E7).
    split; unfold is_draft; rewrite ?E1, ?E2, ?E3, ?E4, ?E5, ?E6, ?E7; try done.
    + intros l Hl. rewrite <- (bo_canonical0 l Hl). unfold forget_publisher. by case_bool_decide.
    + by rewrite events_forget, replay_forget.
  - destruct (to_rank _ _ _ _ Hs) as [rank Hr]. exists rank. intros r x c Hrc (b & -> & Hb)%list_elem_of_fmap.
    unfold is_draft. destruct (forget_publisher_same user b) as (-> & _ & -> & _). intros Er Hnd Ec.
    destruct (Hr r b c) as (z & Hz & Ez & Hzd & Hlt); [done..|]. exists (forget_publisher user z).
    destruct (forget_publisher_same user z) as (-> & _ & -> & _). split; [|done]. by apply list_elem_of_fmap_2.
  - intros x (e & -> & He)%list_elem_of_fmap. apply (to_events _ _ _ _ Hs) in He. unfold forget_actor. by case_bool_decide.
Qed.

(** ** The operations *)

(** The four tables are as before. *)
Definition same_tables (s t : rdb) : Prop :=
  Bundles t = Bundles s /\ ComponentRows t = ComponentRows s /\ AuditEvents t = AuditEvents s
  /\ IdempotencyKeys t = IdempotencyKeys s.

Section operations.
Context `{Collation, Crypto, UuidParser}.

Lemma ensure_component_ok b c s u s' : ensureReleaseBundleComponentReferences b c s = Ok (u, s') ->
  s' = s /\ (bc_Type c = ComponentChildReleaseBundle -> exists x, bc_ChildReleaseBundleID c = Some x /\ x <> bn_ID b
    /\ exists y, y ∈ Bundles s /\ bn_ID y = x /\ bn_OrganizationID y = bn_OrganizationID b).
Proof.
  unfold ensureReleaseBundleComponentReferences. destruct (bc_Type c) eqn:Et; intros E; stx_inv; try done.
  - unfold ensureReleaseBundleApplicationVersionReference in E. destruct (bc_ApplicationVersionID c); stx_inv. done.
  - unfold ensureReleaseBundleChildReference in E. destruct (bc_ChildReleaseBundleID c) as [x|]; [|done].
    case_bool_decide as Ex; [done|]. stx_inv. split; [done|]. intros _. exists x. split_and!; [done..|].
    to_prop. apply exists_where_true in H2 as (y & Hy & Hw). unfold bundle_where in Hw. to_prop. by exists y.
Qed.

Lemma ensure_components_ok b l s u s' : ensure_components b l s = Ok (u, s') -> s' = s.
Proof.
  induction l as [|c l IH]; simpl; intros E; [by stx_inv|]. apply stx_bind_ok in E as (v & s1 & E1 & E).
  apply ensure_component_ok in E1 as [-> _]. by apply IH.
Qed.

Lemma with_process_snapshot_same b : with_process_snapshot (bn_ProcessSnapshotID b) b = b.
Proof. by destruct b. Qed.

Lemma bundle_references_ok env b s b' s' : ensureReleaseBundleReferences env b s = Ok (b', s') ->
  same_tables s s' /\ rd_variables s' = rd_variables s /\ exists p, b' = with_process_snapshot p b.
Proof.
  unfold ensureReleaseBundleReferences, ensureReleaseBundleParentReferences. intros (u & s1 & E1 & E)%stx_bind_ok. apply sforbid_ok in E1 as [_ ->].
  apply stx_bind_ok in E as (c & s1 & E1 & E). apply stx_bind_ok in E as ([] & s2 & ->%ensure_components_ok & E). stx_inv.
  unfold ensureReleaseBundleProcessSnapshotReference in E1. destruct (bn_DeploymentProcessRevisionID b).
  - unfold on_processes in E1. stx_inv. split; [done|]. split; [done|]. by eexists.
  - destruct (bn_ProcessSnapshotID b) eqn:Ep; stx_inv; (split; [done|]; split; [done|]); exists (bn_ProcessSnapshotID b');
      by rewrite with_process_snapshot_same.
Qed.

Lemma draft_request_draft b : bn_Status (draft_request b) = ReleaseBundleStatusDraft -> 
  draft_request b = with_status ReleaseBundleStatusDraft b.
Proof. unfold draft_request. case_bool_decide as E; [done|]. intros Ed. rewrite <- Ed. by destruct b. Qed.

Lemma prepare_draft_ok env b s b' s' : prepare_draft env b s = Ok (b', s') ->
  same_tables s s' /\ rd_variables s' = rd_variables s
  /\ exists p, b' = setReleaseBundleCanonicalFields (with_process_snapshot p (with_status ReleaseBundleStatusDraft b)).
Proof.
  unfold prepare_draft. intros (u & s1 & [Hd ->]%scheck_ok & E)%stx_bind_ok. to_prop.
  apply stx_bind_ok in E as (c & s1 & (Hs & Hv & p & ->)%bundle_references_ok & E). stx_inv. split; [done|]. split; [done|].
  exists p. by rewrite <- draft_request_draft.
Qed.

Lemma insert_components_ok id l s u s' : insertReleaseBundleComponents id l s = Ok (u, s') ->
  s' = set_bundle_tables (Bundles s) (ComponentRows s ++ rows_of id l) (AuditEvents s) (IdempotencyKeys s) s
  /\ Forall (λ c, component_type_valid (bc_Type c) = true) l /\ NoDup (bc_Key <$> l)
  /\ forall c x, c ∈ l -> bc_ChildReleaseBundleID c = Some x -> x ∈ bn_ID <$> Bundles s.
Proof.
  unfold insertReleaseBundleComponents. destruct (copy_components id l (ComponentRows s)) as [rows|] eqn:E; [|done].
  apply copy_components_ok in E as (-> & Ht & Hn). destruct (forallb _ l) eqn:Er; [|done]. intros [= _ <-]. split_and!; [done..|].
  intros c x Hc Ex. apply forallb_Forall in Er. rewrite Forall_forall in Er. specialize (Er c Hc). unfold component_references in Er.
  rewrite Ex in Er. apply andb_true_iff in Er as [_ Er]. by apply contains_true.
Qed.

(** What an insertion leaves. *)
Lemma insert_bundle_ok env b s r s' : insertReleaseBundle env b s = Ok (r, s') ->
  let row := new_row (new_bundle_id env) b in
  (bn_ID row ∉ bn_ID <$> Bundles s) /\ number_taken row s = false
  /\ s' = set_bundle_tables (Bundles s ++ [row]) (ComponentRows s ++ rows_of (bn_ID row) (bn_Components b))
            (AuditEvents s) (IdempotencyKeys s) s
  /\ Forall (λ c, component_type_valid (bc_Type c) = true) (bn_Components b) /\ NoDup (bc_Key <$> bn_Components b)
  /\ (forall c x, c ∈ bn_Components b -> bc_ChildReleaseBundleID c = Some x -> x ∈ bn_ID <$> (Bundles s ++ [row]))
  /\ getReleaseBundle (bn_ID row) (bn_OrganizationID b) s' = Ok r.
Proof.
  unfold insertReleaseBundle. intros (u & s1 & E1 & E)%stx_bind_ok. unfold insert_row in E1.
  destruct (_ || _) eqn:En; [done|]. injection E1 as _ <-. apply orb_false_iff in En as [Hid%contains_false Hnum].
  apply stx_bind_ok in E as (v & s1 & (-> & Ht & Hn & Hc)%insert_components_ok & [Hg ->]%squery_ok). done.
Qed.

(** A row made from a request with canonical fields. *)
Lemma new_row_ok id p b l :
  let c := setReleaseBundleCanonicalFields (with_process_snapshot p (with_status ReleaseBundleStatusDraft b)) in
  bn_VariableSnapshotID b = None -> NoDup (bc_Key <$> bn_Components b) -> l ≡ₚ bn_Components b ->
  Canonicalize (with_components l (new_row id c)) = (bn_CanonicalPayload (new_row id c), bn_CanonicalChecksum (new_row id c)).
Proof.
  intros c Hv Hn Hl. apply (canonical_row c); [apply canonical_fields| |reflexivity|reflexivity|exact Hn|exact Hl].
  repeat split. symmetry. exact Hv.
Qed.

Lemma insert_inv env p b s r s' :
  let c := setReleaseBundleCanonicalFields (with_process_snapshot p (with_status ReleaseBundleStatusDraft b)) in
  rb_inv s -> bn_VariableSnapshotID b = None -> insertReleaseBundle env c s = Ok (r, s') -> rb_inv s'.
Proof.
  intros c Hs Hv (Hid & _ & -> & Ht & Hn & Hch & _)%insert_bundle_ok.
  apply (insert_rows_ok _ _ _ _ (new_row (new_bundle_id env) c));
    [exact Hs|exact Hid|reflexivity|reflexivity|apply normalized_contract_idem| |exact Ht|exact Hn|exact Hch].
  intros k Hk. by apply new_row_ok.
Qed.

Lemma same_tables_inv s t : same_tables s t -> rb_inv s -> rb_inv t.
Proof. unfold rb_inv. by intros (-> & -> & -> & ->). Qed.
End operations.

(** ** Reading *)

Lemma find_bundle_ok id org s b : find_bundle id org s = Ok b -> b ∈ Bundles s /\ bn_ID b = id /\ bn_OrganizationID b = org.
Proof.
  unfold find_bundle. destruct (select_where _ (Bundles s)) as [|x l] eqn:E; [done|]. intros [= <-].
  assert (x ∈ x :: l) as Hin by left. rewrite <- E in Hin. apply elem_of_select_where in Hin as [Hx Hw].
  unfold bundle_where in Hw. by to_prop.
Qed.

Lemma find_bundle_in s b : NoDup (bn_ID <$> Bundles s) -> b ∈ Bundles s -> find_bundle (bn_ID b) (bn_OrganizationID b) s = Ok b.
Proof.
  intros Hn Hb. unfold find_bundle. erewrite (select_key _ bn_ID (Bundles s) b); [done..| |].
  - unfold bundle_where. by rewrite !bool_decide_eq_true_2.
  - intros x Hx Hw. unfold bundle_where in Hw. by to_prop.
Qed.

Section reading.
Context `{Collation}.

Lemma get_bundle_ok id org s r : getReleaseBundle id org s = Ok r ->
  exists b, find_bundle id org s = Ok b /\ b ∈ Bundles s /\ bn_ID b = id /\ bn_OrganizationID b = org /\ r = hydrate_bundle s b.
Proof.
  unfold getReleaseBundle. destruct (find_bundle id org s) as [b|] eqn:E; [|done]. intros [= <-]. exists b.
  split; [done|]. by apply find_bundle_ok in E as (? & ? & ?).
Qed.

Lemma components_perm id s : getReleaseBundleComponents id s ≡ₚ components_of id (ComponentRows s).
Proof. apply stable_sort_perm. Qed.
End reading.

(** ** What a valid bundle refers to *)

Section valid.
Context `{Collation, Crypto, UuidParser, Jsonb, StrictSemver, UrlReferenceParser, RuleLibrary}.

Lemma validate_references_elem b channel s l : validate_references b channel s l = Ok [] ->
  forall c, c ∈ l -> validate_component b channel s c = Ok [].
Proof.
  induction l as [|x l IH]; intros E c Hc; [by apply elem_of_nil in Hc|]. cbn [validate_references] in E.
  destruct (validate_component b channel s x) as [i|] eqn:Ex; [|done]. cbn in E.
  destruct (validate_references b channel s l) as [more|] eqn:Em; [|done]. injection E as E. apply app_eq_nil in E as [-> ->].
  apply elem_of_cons in Hc as [->|Hc]; [done|]. by apply IH.
Qed.

Lemma bundle_components_elem seen l c : validate_bundle_components seen l = [] -> c ∈ l ->
  TrimSpace (bc_Key c) <> "" /\ validateComponentContent (TrimSpace (bc_Key c)) c = [].
Proof.
  revert seen. induction l as [|x l IH]; intros seen E Hc; [by apply elem_of_nil in Hc|]. simpl in E.
  case_bool_decide as Ek; [done|]. apply app_eq_nil in E as [_ E]. apply app_eq_nil in E as [Ev E].
  apply elem_of_cons in Hc as [->|Hc]; [done|]. by eapply IH.
Qed.

(** Only components of the type for it have a child. *)
Lemma child_type key c x : validateComponentContent key c = [] -> bc_ChildReleaseBundleID c = Some x ->
  bc_Type c = ComponentChildReleaseBundle.
Proof.
  unfold validateComponentContent, type_content, issue_on. intros E Ex. rewrite Ex in E. simpl in E.
  apply app_eq_nil in E as [Et E]. apply app_eq_nil in E as [_ E].
  destruct (bc_Type c); simpl in *; rewrite ?orb_true_r in E; repeat (apply app_eq_nil in E as [? E]); done.
Qed.

Lemma validate_ok b s : validateReleaseBundle b s = Ok [] ->
  ValidateBundleContent b = [] /\ exists channel, channel_row (bn_ChannelID b) (bn_OrganizationID b) s = Some channel
    /\ validateReleaseBundleSourceRules b channel = Ok [] /\ validate_references b channel s (bn_Components b) = Ok [].
Proof.
  unfold validateReleaseBundle. destruct (channel_row _ _ s) as [channel|].
  - destruct (validateReleaseBundleSourceRules b channel) as [i|] eqn:Ei; [|done]. cbn.
    destruct (validate_references b channel s (bn_Components b)) as [j|] eqn:Ej; [|done]. cbn. intros [= E].
    apply app_eq_nil in E as [E1 E]. apply app_eq_nil in E as [-> ->]. split; [done|]. by exists channel.
  - intros [= E]. by apply app_eq_nil in E as [_ E].
Qed.

(** The children of a valid bundle are other bundles that are published. *)
Lemma valid_children b s c x : validateReleaseBundle b s = Ok [] -> c ∈ bn_Components b -> bc_ChildReleaseBundleID c = Some x ->
  x <> bn_ID b /\ exists y, find_bundle x (bn_OrganizationID b) s = Ok y /\ bn_Status y = ReleaseBundleStatusPublished.
Proof.
  intros (Hc & channel & _ & _ & Hr)%validate_ok Hin Ex. unfold ValidateBundleContent in Hc.
  apply app_eq_nil in Hc as [_ Hc]. apply app_eq_nil in Hc as [_ Hc]. apply app_eq_nil in Hc as [_ Hc].
  destruct (bundle_components_elem _ _ _ Hc Hin) as [_ Hv]. pose proof (child_type _ _ _ Hv Ex) as Et.
  pose proof (validate_references_elem _ _ _ _ Hr c Hin) as Hvc. unfold validate_component in Hvc. rewrite Et in Hvc.
  injection Hvc as Hvc. unfold validateChildReleaseBundleComponent in Hvc. rewrite Ex in Hvc. case_bool_decide as E; [done|].
  split; [done|]. destruct (find_bundle x (bn_OrganizationID b) s) as [y|]; [|done]. exists y. split; [done|].
  destruct (bool_decide (bn_Status y = ReleaseBundleStatusPublished)) eqn:Ey; [by apply bool_decide_eq_true in Ey|done].
Qed.

(** ** What a successful transaction does *)

Lemma set_same s : set_bundle_tables (Bundles s) (ComponentRows s) (AuditEvents s) (IdempotencyKeys s) s = s.
Proof. by destruct s. Qed.

Lemma insert_event_ok e s u s' : insertReleaseBundleAuditEvent e s = Ok (u, s') ->
  actor_exists e s = true
  /\ s' = set_bundle_tables (Bundles s) (ComponentRows s) (AuditEvents s ++ [e]) (IdempotencyKeys s) s.
Proof. unfold insertReleaseBundleAuditEvent. destruct (actor_exists e s); [|done]. by intros [= _ <-]. Qed.

Lemma reject_ok b actor to reason err s r s' : reject b actor to reason err s = Ok (r, s') ->
  r = Err err
  /\ s' = set_bundle_tables (Bundles s) (ComponentRows s) (AuditEvents s ++
       [releaseBundleAuditEventForTransition b actor AuditEventTypeStateTransitionRejected to reason]) (IdempotencyKeys s) s.
Proof. unfold reject. intros (u & s1 & [_ ->]%insert_event_ok & E)%stx_bind_ok. by stx_inv. Qed.

Lemma update_row_ok b s u s' : update_row b s = Ok (u, s') ->
  exists old, old ∈ Bundles s /\ bn_ID old = bn_ID b /\ bn_OrganizationID old = bn_OrganizationID b
    /\ s' = set_bundles (update_where (bundle_where (bn_ID b) (bn_OrganizationID b)) (updated_row b) (Bundles s)) s.
Proof.
  unfold update_row. destruct (find_bundle _ _ s) as [old|] eqn:E; [|done]. destruct (number_taken b s); [done|].
  destruct (_ && _); [done|]. intros [= _ <-]. apply find_bundle_ok in E as (? & ? & ?). by exists old.
Qed.

(** The request that is written. *)
Definition draft_of (p : option uuid) (b : ReleaseBundle) : ReleaseBundle :=
  setReleaseBundleCanonicalFields (with_process_snapshot p (with_status ReleaseBundleStatusDraft b)).

Lemma update_request_draft existing b : is_draft existing -> exists p, update_request existing b = with_process_snapshot p (with_status ReleaseBundleStatusDraft b).
Proof.
  intros Hd. unfold update_request. rewrite Hd. destruct (bn_DeploymentProcessRevisionID _).
  - exists (bn_ProcessSnapshotID b). by destruct b.
  - by eexists.
Qed.

Lemma bundle_update_ok env b s r s' : UpdateReleaseBundle env b s = (Ok r, s') ->
  exists p s1 old, same_tables s s1 /\ old ∈ Bundles s /\ bn_ID old = bn_ID b /\ bn_OrganizationID old = bn_OrganizationID b
    /\ (NoDup (bn_ID <$> Bundles s) -> is_draft old)
    /\ s' = set_bundle_tables (update_where (bundle_where (bn_ID old) (bn_OrganizationID old)) (updated_row (draft_of p b)) (Bundles s))
              (select_where (λ r, negb (bool_decide (cr_ReleaseBundleID r = bn_ID old))) (ComponentRows s)
               ++ rows_of (bn_ID old) (bn_Components b)) (AuditEvents s) (IdempotencyKeys s) s1
    /\ Forall (λ c, component_type_valid (bc_Type c) = true) (bn_Components b) /\ NoDup (bc_Key <$> bn_Components b)
    /\ (forall c x, c ∈ bn_Components b -> bc_ChildReleaseBundleID c = Some x -> x ∈ bn_ID <$> Bundles s)
    /\ getReleaseBundle (bn_ID b) (bn_OrganizationID b) s' = Ok r.
Proof.
  intros E. unfold UpdateReleaseBundle in E. apply RunSTx_cases in E as [(a & Ea & E)|(e & ? & _)]; [injection Ea as <-|done].
  apply stx_bind_ok in E as (ex & s1 & [Hex ->]%squery_ok & E). apply stx_bind_ok in E as (u & s1 & [Hd ->]%scheck_ok & E).
  apply stx_bind_ok in E as (c & s1 & Ec & E). apply bundle_references_ok in Ec as (Hsame & _ & p & ->). cbn zeta in E.
  to_prop. destruct (update_request_draft ex b Hd) as [q Eq]. rewrite Eq in E.
  change (with_process_snapshot p (with_process_snapshot q (with_status ReleaseBundleStatusDraft b)))
    with (with_process_snapshot p (with_status ReleaseBundleStatusDraft b)) in E. fold (draft_of p b) in E.
  apply stx_bind_ok in E as (u1 & s2 & (old & Hold & Ei & Eo & ->)%update_row_ok & E).
  apply stx_bind_ok in E as (u2 & s3 & E3 & E). unfold delete_components, smodify in E3. injection E3 as _ <-.
  apply stx_bind_ok in E as (u4 & s4 & (-> & Ht & Hn & Hc)%insert_components_ok & [Hg ->]%squery_ok).
  destruct Hsame as (Eb & Ecs & Ea & Ek). exists p, s1, old. rewrite Eb in Hold.
  cbn -[update_where select_where draft_of] in Hc |- *. rewrite Ei, Eo.
  split; [done|]. split; [done|]. split; [done|]. split; [done|]. split.
  { intros Hnd. apply get_bundle_ok in Hex as (x & _ & Hx & Ex & _ & ->). simpl in Hd. rewrite (unique_bundle (Bundles s) old x); try done.
    by rewrite Ex, Ei. }
  split; [by rewrite Eb, Ecs, Ea, Ek|]. split; [done|]. split; [done|]. split; [|by apply Hg].
  intros k x Hk Ex. specialize (Hc k x Hk Ex). rewrite fmap_update_where in Hc; [by rewrite <- Eb|done].
Qed.
End valid.

Section transactions.
Context `{Collation, Crypto, UuidParser, Jsonb, StrictSemver, UrlReferenceParser, RuleLibrary}.

Lemma bundle_delete_ok id org s u s' : DeleteReleaseBundleWithID id org s = (Ok u, s') ->
  exists b, find_bundle id org s = Ok b /\ b ∈ Bundles s /\ bn_ID b = id /\ bn_OrganizationID b = org /\ is_draft b
    /\ bundle_kept id s = false
    /\ s' = set_bundle_tables (select_where (λ x, negb (bundle_where id org x)) (Bundles s))
              (select_where (λ r, negb (bool_decide (cr_ReleaseBundleID r = id))) (ComponentRows s))
              (select_where (λ e, negb (bool_decide (ae_ReleaseBundleID e = id))) (AuditEvents s)) (IdempotencyKeys s) s.
Proof.
  intros E. unfold DeleteReleaseBundleWithID in E. apply RunSTx_cases in E as [(a & Ea & E)|(e & ? & _)]; [|done].
  apply stx_bind_ok in E as (ex & s1 & [Hex ->]%squery_ok & E). apply stx_bind_ok in E as (v & s1 & [Hd ->]%scheck_ok & E).
  to_prop. apply get_bundle_ok in Hex as (b & Hf & Hb & Ei & Eo & ->). simpl in Hd. exists b. unfold delete_row in E.
  destruct (negb _); [done|]. destruct (bundle_kept id s); [done|]. injection E as _ <-. done.
Qed.

(** The row after a transition. *)
Definition after_event (f : ReleaseBundle -> ReleaseBundle) (b : ReleaseBundle) (e : ReleaseBundleAuditEvent) (s : rdb) : rdb :=
  set_bundle_tables (update_where (bundle_where (bn_ID b) (bn_OrganizationID b)) f (Bundles s)) (ComponentRows s)
    (AuditEvents s ++ [e]) (IdempotencyKeys s) s.

Lemma after_event_id b e s : after_event id b e s
  = set_bundle_tables (Bundles s) (ComponentRows s) (AuditEvents s ++ [e]) (IdempotencyKeys s) s.
Proof. unfold after_event. f_equal. by apply update_where_id. Qed.

Lemma transition_tx_ok id org actor to event allowed s res s' :
  transition_tx id org actor to event allowed s = Ok (res, s') ->
  exists b, find_bundle id org s = Ok b /\ b ∈ Bundles s /\ bn_ID b = id /\ bn_OrganizationID b = org
    /\ ((bn_Status b ∉ allowed) /\ res = Err (Conflict "could not transition ReleaseBundle")
          /\ s' = after_event Datatypes.id b (releaseBundleAuditEventForTransition b actor AuditEventTypeStateTransitionRejected to
                    (releaseBundleTransitionRejectedReason (bn_Status b) to)) s
        \/ bn_Status b ∈ allowed /\ s' = after_event (with_status to) b (releaseBundleAuditEventForTransition b actor event to "") s
          /\ exists r, res = Ok r /\ getReleaseBundle id org s' = Ok r).
Proof.
  unfold transition_tx. intros (h & s1 & [Hh ->]%squery_ok & E)%stx_bind_ok.
  apply get_bundle_ok in Hh as (b & Hf & Hb & Ei & Eo & ->). exists b. split_and!; [done..|].
  destruct (negb _) eqn:Ea; cbn [bn_Status hydrate_bundle with_components] in Ea, E.
  - left. apply negb_true_iff, contains_false in Ea. apply reject_ok in E as [-> ->]. split_and!; [done..|].
    by rewrite after_event_id.
  - right. apply negb_false_iff, contains_true in Ea. split; [done|].
    apply stx_bind_ok in E as (r & s1 & E1 & E). unfold updateReleaseBundleStatus in E1.
    apply stx_bind_ok in E1 as (u1 & s2 & [_ ->]%sforbid_ok & E1). apply stx_bind_ok in E1 as (u2 & s2 & E2 & [Hg ->]%squery_ok).
    unfold smodify in E2. injection E2 as _ <-.
    apply stx_bind_ok in E as (u3 & s3 & [_ ->]%insert_event_ok & E). injection E as <- <-.
    split; [done|]. exists r. split; [done|]. rewrite <- Ei, <- Eo. apply Hg.
Qed.

(** A publication: the snapshot is created first. *)
Lemma publish_tx_ok env id org actor s res s' : publish_tx env id org actor s = Ok (res, s') ->
  exists b, find_bundle id org s = Ok b /\ b ∈ Bundles s /\ bn_ID b = id /\ bn_OrganizationID b = org
    /\ let h := hydrate_bundle s b in
       let rejected reason := releaseBundleAuditEventForTransition b actor AuditEventTypeStateTransitionRejected
                                ReleaseBundleStatusPublished reason in
       (~ is_draft b /\ res = Err (Conflict "could not publish ReleaseBundle")
          /\ s' = after_event Datatypes.id b (rejected (releaseBundleTransitionRejectedReason (bn_Status b) ReleaseBundleStatusPublished)) s
        \/ is_draft b /\ (exists issues, validateReleaseBundle h s = Ok issues /\ issues <> [])
          /\ res = Err (BadRequest "could not publish ReleaseBundle")
          /\ s' = after_event Datatypes.id b (rejected "validation failed") s
        \/ is_draft b /\ validateReleaseBundle h s = Ok [] /\ actor ∈ rd_users s
          /\ exists n v, createVariableSnapshotForReleaseBundle (new_snapshot_keys env) (snapshot_owner b) (rd_variables s) = Ok (n, v)
             /\ let c := setReleaseBundleCanonicalFields (with_variable_snapshot (vn_ID n) h) in
                s' = after_event (λ old, published_row c old ReleaseBundleStatusPublished actor) b
                       (releaseBundleAuditEventForTransition b actor AuditEventTypePublished ReleaseBundleStatusPublished "")
                       (set_snapshot_tables (rd_processes s) v s)
             /\ exists r, res = Ok r /\ getReleaseBundle id org s' = Ok r).
Proof.
  unfold publish_tx. intros (h & s1 & [Hh ->]%squery_ok & E)%stx_bind_ok.
  apply get_bundle_ok in Hh as (b & Hf & Hb & Ei & Eo & ->). exists b. split_and!; [done..|]. cbv zeta.
  destruct (negb _) eqn:Ea; cbn [bn_Status hydrate_bundle with_components] in Ea; to_prop.
  { left. apply reject_ok in E as [-> ->]. split_and!; [done..|]. by rewrite after_event_id. }
  right. apply stx_bind_ok in E as (issues & s1 & [Hi ->]%squery_ok & E). destruct (negb _) eqn:Ee; to_prop.
  { left. apply reject_ok in E as [-> ->]. split; [done|]. split; [|split; [done|by rewrite after_event_id]].
    exists issues. split; [done|]. by intros ->. }
  right. apply length_zero_iff_nil in Ee. subst issues. split; [done|]. split; [done|].
  unfold publish_draft in E. apply stx_bind_ok in E as (n & s1 & E1 & E). unfold on_variables in E1.
  apply zoom_ok in E1 as (v & Hv & ->). cbv zeta in E.
  apply stx_bind_ok in E as (r & s2 & E2 & E). unfold publishReleaseBundleStatus in E2.
  apply stx_bind_ok in E2 as (u1 & s3 & [_ ->]%sforbid_ok & E2). apply stx_bind_ok in E2 as (u2 & s3 & [Hu ->]%sforbid_ok & E2).
  apply stx_bind_ok in E2 as (u3 & s3 & E3 & [Hg ->]%squery_ok). unfold smodify in E3. injection E3 as _ <-.
  apply stx_bind_ok in E as (u4 & s4 & [_ ->]%insert_event_ok & E). injection E as <- <-.
  split; [apply contains_true; by to_prop|]. exists n, v. split; [done|]. split.
  - unfold releaseBundleAuditEventForTransition. cbn -[update_where published_row]. unfold is_draft in Ea. by rewrite Ea.
  - exists r. split; [done|]. rewrite <- Ei, <- Eo. apply Hg.
Qed.

(** ** The invariant *)

Lemma create_inv env b s res s' : rb_inv s -> bn_VariableSnapshotID b = None ->
  CreateReleaseBundle env b s = (res, s') -> rb_inv s'.
Proof.
  intros Hs Hv E. unfold CreateReleaseBundle, createReleaseBundle in E.
  apply RunSTx_cases in E as [(r & -> & E)|(e & _ & _ & ->)]; [|done].
  apply stx_bind_ok in E as (c & s1 & (Hsame & _ & p & ->)%prepare_draft_ok & E).
  eapply insert_inv; [by eapply same_tables_inv|exact Hv|exact E].
Qed.

Lemma bundle_pair b (B : list ReleaseBundle) : b ∈ B -> (bn_ID b, bn_OrganizationID b) ∈ (λ b, (bn_ID b, bn_OrganizationID b)) <$> B.
Proof. apply (list_elem_of_fmap_2 (λ b, (bn_ID b, bn_OrganizationID b))). Qed.

Lemma insert_record_ok k s u s' : insertReleaseBundleIdempotencyRecord k s = Ok (u, s') ->
  getReleaseBundleIdempotencyRecord (ik_OrganizationID k) (ik_KeyHash k) s = None
  /\ s' = set_bundle_tables (Bundles s) (ComponentRows s) (AuditEvents s) (IdempotencyKeys s ++ [k]) s.
Proof.
  unfold insertReleaseBundleIdempotencyRecord. destruct (getReleaseBundleIdempotencyRecord _ _ s); [done|]. by intros [= _ <-].
Qed.

Lemma record_none org hash s : getReleaseBundleIdempotencyRecord org hash s = None ->
  (org, hash) ∉ (λ k, (ik_OrganizationID k, ik_KeyHash k)) <$> IdempotencyKeys s.
Proof.
  unfold getReleaseBundleIdempotencyRecord. intros E (k & Ek & Hk)%list_elem_of_fmap. injection Ek as -> ->.
  destruct (select_where _ _) as [|x l] eqn:Es; [|done].
  assert (k ∈ select_where (λ x, bool_decide (ik_OrganizationID x = ik_OrganizationID k) && bool_decide (ik_KeyHash x = ik_KeyHash k))
    (IdempotencyKeys s)) as Hin by (apply elem_of_select_where; by rewrite !bool_decide_eq_true_2).
  rewrite Es in Hin. by apply elem_of_nil in Hin.
Qed.

Lemma record_some org hash s k : getReleaseBundleIdempotencyRecord org hash s = Some k ->
  k ∈ IdempotencyKeys s /\ ik_OrganizationID k = org /\ ik_KeyHash k = hash.
Proof. unfold getReleaseBundleIdempotencyRecord. intros [Hk Hw]%head_elem_of%elem_of_select_where. by to_prop. Qed.

Lemma create_key_inv env b key s res s' : rb_inv s -> bn_VariableSnapshotID b = None ->
  CreateReleaseBundleWithIdempotency env b key s = (res, s') -> rb_inv s'.
Proof.
  intros Hs Hv. unfold CreateReleaseBundleWithIdempotency. cbv zeta. case_bool_decide; [by apply create_inv|]. intros E.
  apply RunSTx_cases in E as [(r & -> & E)|(e & _ & _ & ->)]; [|done].
  apply stx_bind_ok in E as (c & s1 & (Hsame & _ & p & ->)%prepare_draft_ok & E). pose proof (same_tables_inv s s1 Hsame Hs) as Hs1.
  apply stx_bind_ok in E as (o & s2 & E2 & E). unfold sreads in E2. injection E2 as <- <-.
  destruct (getReleaseBundleIdempotencyRecord _ _ s1) as [k|].
  - apply stx_bind_ok in E as (u & s2 & [_ ->]%scheck_ok & [_ ->]%squery_ok). done.
  - apply stx_bind_ok in E as (cr & s2 & E2 & E). pose proof (insert_inv _ _ _ _ _ _ Hs1 Hv E2) as Hs2.
    apply insert_bundle_ok in E2 as (_ & _ & Es2 & _ & _ & _ & Hg). apply stx_bind_ok in E as (u & s3 & E3 & E).
    apply insert_record_ok in E3 as [Hn ->]. injection E as <- <-. apply record_ok; [done| |].
    + apply get_bundle_ok in Hg as (b' & _ & Hb' & Ei & Eo & ->). simpl. by apply bundle_pair.
    + by apply record_none.
Qed.

Lemma update_inv env b s res s' : rb_inv s -> bn_VariableSnapshotID b = None ->
  UpdateReleaseBundle env b s = (res, s') -> rb_inv s'.
Proof.
  intros Hs Hv E. destruct res as [r|e].
  2: { unfold UpdateReleaseBundle in E. by apply RunSTx_cases in E as [(? & ? & _)|(? & _ & _ & ->)]. }
  apply bundle_update_ok in E as (p & s1 & old & _ & Hold & Ei & Eo & Hd & -> & Ht & Hn & Hc & _).
  specialize (Hd (to_ids _ _ _ _ Hs)). pose proof (to_bundles _ _ _ _ Hs old Hold) as Hbo.
  apply update_rows_ok; [exact Hs|exact Hold|exact Hd|exact Hd|done| | | |exact Ht|exact Hn|exact Hc].
  - apply (bo_draft _ _ _ Hbo), Hd.
  - apply normalized_contract_idem.
  - intros k Hk. apply (canonical_row (draft_of p b)); [apply canonical_fields| |reflexivity|reflexivity|exact Hn|exact Hk].
    repeat split. change (bn_VariableSnapshotID old = bn_VariableSnapshotID b). rewrite Hv. apply (bo_draft _ _ _ Hbo), Hd.
Qed.

Lemma delete_inv id org s res s' : rb_inv s -> DeleteReleaseBundleWithID id org s = (res, s') -> rb_inv s'.
Proof.
  intros Hs E. destruct res as [r|e].
  2: { unfold DeleteReleaseBundleWithID in E. by apply RunSTx_cases in E as [(? & ? & _)|(? & _ & _ & ->)]. }
  apply bundle_delete_ok in E as (b & _ & Hb & <- & <- & _ & Hk & ->). unfold bundle_kept in Hk. rewrite !orb_false_iff in Hk.
  destruct Hk as [[[Hc Hr] _] _]. apply delete_rows_ok; [exact Hs|exact Hb| |].
  - intros x Hrc Hne E. rewrite exists_where_false in Hc. specialize (Hc x Hrc). cbv beta in Hc.
    by rewrite (bool_decide_eq_false_2 _ Hne), (bool_decide_eq_true_2 _ E) in Hc.
  - intros k Hk E. apply contains_false in Hr. apply Hr. rewrite <- E. by apply list_elem_of_fmap_2.
Qed.

Lemma settle_cases {A} (m : rtx (result apierror A)) s res s' : settle (RunSTx m s) = (res, s') ->
  (exists r, m s = Ok (r, s') /\ res = r) \/ (exists e, m s = Err e /\ res = Err e /\ s' = s).
Proof.
  unfold settle. destruct (RunSTx m s) as [r t] eqn:E. intros [= <- <-].
  apply RunSTx_cases in E as [(a & -> & E)|(e & -> & E & ->)]; [left; by exists a|right; by exists e].
Qed.

(** A rejection leaves the bundle. *)
Lemma rejected_inv s b actor to reason : rb_inv s -> b ∈ Bundles s ->
  rejection_ok (releaseBundleAuditEventForTransition b actor AuditEventTypeStateTransitionRejected to reason) = true ->
  rb_inv (after_event Datatypes.id b (releaseBundleAuditEventForTransition b actor AuditEventTypeStateTransitionRejected to reason) s).
Proof.
  intros Hs Hb Hr. apply transition_ok; try done.
  - unfold audit_step. cbn [ae_FromStatus releaseBundleAuditEventForTransition ae_EventType]. rewrite bool_decide_eq_true_2 by done. simpl.
    by rewrite Hr.
  - by intros [].
  - by left.
Qed.

(** The edges of the two transitions. *)
Definition transition_edges (to event : string) (allowed : list string) : Prop :=
  to <> ReleaseBundleStatusDraft /\ to ∈ [ReleaseBundleStatusDraft; ReleaseBundleStatusPublished; ReleaseBundleStatusBlocked;
                             ReleaseBundleStatusArchived] /\ event = event_type_of to
  /\ event <> AuditEventTypeStateTransitionRejected /\ forall st, allowed_edge st to = contains allowed st.

Lemma transition_inv id org actor to event allowed s res s' : transition_edges to event allowed ->
  (ReleaseBundleStatusDraft ∉ allowed) -> rb_inv s ->
  transitionReleaseBundle id org actor to event allowed s = (res, s') -> rb_inv s'.
Proof.
  intros (Hto & Hin & Hev & Hne & Hedge) Hda Hs E.
  apply settle_cases in E as [(r & E & ->)|(e & _ & _ & ->)]; [|done].
  apply transition_tx_ok in E as (b & _ & Hb & _ & _ & [(Ha & _ & ->)|(Ha & -> & _)]).
  - apply rejected_inv; [done..|]. unfold rejection_ok. cbn [ae_ToStatus ae_FromStatus releaseBundleAuditEventForTransition].
    rewrite Hedge. by rewrite (proj2 (contains_false _ _) Ha).
  - assert (bn_Status b <> ReleaseBundleStatusDraft) as Hbd by (intros E; by rewrite E in Ha).
    apply transition_ok; try done.
    + unfold audit_step. cbn [ae_FromStatus ae_EventType ae_ToStatus releaseBundleAuditEventForTransition].
      rewrite bool_decide_eq_true_2 by done. simpl. rewrite (bool_decide_eq_false_2 _ Hne), Hedge, (proj2 (contains_true _ _) Ha).
      by rewrite bool_decide_eq_true_2.
    + intros []. by split.
    + left. done.
Qed.

Ltac status_clash := match goal with E : @eq string _ _ |- _ => discriminate E end.

Lemma edge_decides st to allowed :
  (to = ReleaseBundleStatusBlocked /\ allowed = [ReleaseBundleStatusPublished])
  \/ (to = ReleaseBundleStatusArchived /\ allowed = [ReleaseBundleStatusPublished; ReleaseBundleStatusBlocked]) ->
  (st, to) ∈ [(ReleaseBundleStatusDraft, ReleaseBundleStatusPublished); (ReleaseBundleStatusPublished, ReleaseBundleStatusBlocked);
            (ReleaseBundleStatusPublished, ReleaseBundleStatusArchived); (ReleaseBundleStatusBlocked, ReleaseBundleStatusArchived)]
  <-> st ∈ allowed.
Proof.
  rewrite !elem_of_cons, elem_of_nil, !pair_equal_spec. intros [[-> ->]|[-> ->]]; rewrite ?elem_of_cons, ?elem_of_nil.
  all: split; intros; destruct_or?; destruct_and?; try status_clash; auto 6; by destruct_or?.
Qed.

Lemma block_edges : transition_edges ReleaseBundleStatusBlocked AuditEventTypeBlocked [ReleaseBundleStatusPublished].
Proof.
  split_and!; try done; [right; right; by left|]. intros st. unfold allowed_edge, contains. apply bool_decide_ext.
  apply edge_decides; tauto.
Qed.
Lemma archive_edges : transition_edges ReleaseBundleStatusArchived AuditEventTypeArchived
  [ReleaseBundleStatusPublished; ReleaseBundleStatusBlocked].
Proof.
  split_and!; try done; [right; right; right; by left|]. intros st. unfold allowed_edge, contains. apply bool_decide_ext.
  apply edge_decides; tauto.
Qed.

Lemma publish_inv env id org actor s res s' : rb_inv s -> PublishReleaseBundle env id org actor s = (res, s') -> rb_inv s'.
Proof.
  intros Hs E. apply settle_cases in E as [(r & E & ->)|(e & _ & _ & ->)]; [|done].
  apply publish_tx_ok in E as (b & _ & Hb & _ & Eo & [(Hd & _ & ->)|[(Hd & _ & _ & ->)|(Hd & Hv & _ & n & v & _ & -> & _)]]).
  - apply rejected_inv; [done..|]. apply orb_true_iff. left. apply negb_true_iff, contains_false.
    unfold is_draft in Hd. cbn [ae_FromStatus releaseBundleAuditEventForTransition]. rewrite !elem_of_cons, elem_of_nil. naive_solver.
  - apply rejected_inv; [done..|]. apply orb_true_iff. right. by apply bool_decide_eq_true.
  - set (c := setReleaseBundleCanonicalFields _). pose proof (to_bundles _ _ _ _ Hs b Hb) as Hbo.
    assert (forall l, l ≡ₚ components_of (bn_ID b) (ComponentRows s) -> NoDup (bc_Key <$> l)) as Hkeys.
    { intros l ->. apply components_keys, Hs. }
    change (tables_ok (update_where (bundle_where (bn_ID b) (bn_OrganizationID b))
      (λ old, published_row c old ReleaseBundleStatusPublished actor) (Bundles s)) (ComponentRows s)
      (AuditEvents s ++ [releaseBundleAuditEventForTransition b actor AuditEventTypePublished ReleaseBundleStatusPublished ""])
      (IdempotencyKeys s)).
    apply transition_ok; [exact Hs|exact Hb|done|done|done| | |].
    + unfold audit_step. cbn [ae_FromStatus ae_EventType ae_ToStatus releaseBundleAuditEventForTransition].
      rewrite bool_decide_eq_true_2 by done. unfold is_draft in Hd. by rewrite Hd.
    + intros _. split; [right; by left|]. split; [done|]. split; [exact (bo_contract _ _ _ Hbo)|]. intros l Hl.
      apply (canonical_row c); [apply canonical_fields| |reflexivity|reflexivity| |].
      * repeat split. cbn -[NormalizedReleaseContract]. by rewrite !normalized_contract_idem.
      * apply Hkeys. apply (components_perm (bn_ID b) s).
      * rewrite Hl. symmetry. apply (components_perm (bn_ID b) s).
    + right. split; [done|]. split; [done|]. intros row c' Hr Er Ec.
      destruct (valid_children (hydrate_bundle s b) s (cr_Component row) c' Hv) as (_ & y & Hy & Ey); [|done|].
      { cbn [bn_Components hydrate_bundle with_components]. rewrite components_perm, <- Er. by apply component_of_row. }
      apply find_bundle_ok in Hy as (Hy & Eyi & _). exists y. split; [done|]. split; [done|]. unfold is_draft. by rewrite Ey.
Qed.
End transactions.
