(* ===== verification/BundleGuarantees.v ===== *)
(** * Release bundles: what the operations guarantee

    The steps that reachable states take, what a step does to the tables, and
    the properties of the life of a bundle: its statuses and their audit
    events, its canonical content, its children, its publication, its
    idempotency key and its deletion. *)
From S2P Require Import Prelude GoStrings Uuid GoRegexp GoJson StepRedaction JsonDecode JsonStruct JsonRaw TaskStore Transaction Preflight ExternalExecution VariableResolution VariableJson ActionRegistry DeploymentProcess ProcessTables ProcessSnapshots VariableSets VariableTables VariableSnapshots ChannelRules Channels ReleaseContract BundleContent ReleaseBundles BundleTables.
Open Scope list_scope.

Definition rb_init : rdb :=
  {| rd_processes := sn_init; rd_variables := {| nd_variables := v_init; nd_snapshots := []; nd_values := [] |};
     rd_channels := []; rd_versions := []; rd_users := []; rd_planned := []; rd_executed := []; Bundles := [];
     ComponentRows := []; AuditEvents := []; IdempotencyKeys := [] |}.

Section steps.
Context `{Collation, Crypto, UuidParser, Jsonb, StrictSemver, UrlReferenceParser, RuleLibrary}.

(** Requests name no variable snapshot. Other operations write other tables. *)
Inductive rb_step : rdb -> rdb -> Prop :=
  | rb_create s env b res s' : bn_VariableSnapshotID b = None -> CreateReleaseBundle env b s = (res, s') -> rb_step s s'
  | rb_create_key s env b key res s' : bn_VariableSnapshotID b = None ->
      CreateReleaseBundleWithIdempotency env b key s = (res, s') -> rb_step s s'
  | rb_update s env b res s' : bn_VariableSnapshotID b = None -> UpdateReleaseBundle env b s = (res, s') -> rb_step s s'
  | rb_delete s id org res s' : DeleteReleaseBundleWithID id org s = (res, s') -> rb_step s s'
  | rb_publish s env id org actor res s' : PublishReleaseBundle env id org actor s = (res, s') -> rb_step s s'
  | rb_block s id org actor res s' : BlockReleaseBundle id org actor s = (res, s') -> rb_step s s'
  | rb_archive s id org actor res s' : ArchiveReleaseBundle id org actor s = (res, s') -> rb_step s s'
  | rb_forget s user : rb_step s (forget_user user s)
  | rb_other s t : same_tables s t -> rb_step s t.

Definition rb_reachable (s : rdb) : Prop := rtc rb_step rb_init s.

Lemma rb_inv_init : rb_inv rb_init.
Proof.
  split; simpl; try (by apply NoDup_nil); try (intros ? Hx; by apply elem_of_nil in Hx); try (intros ? ? Hx; by apply elem_of_nil in Hx).
  exists (λ _, 0). intros r b c Hr. by apply elem_of_nil in Hr.
Qed.

Lemma rb_inv_step s s' : rb_step s s' -> rb_inv s -> rb_inv s'.
Proof.
  intros [] Hs.
  - by eapply create_inv.
  - by eapply create_key_inv.
  - by eapply update_inv.
  - by eapply delete_inv.
  - by eapply publish_inv.
  - eapply transition_inv; [apply block_edges| |exact Hs|done]. intros [E|E%elem_of_nil]%elem_of_cons; [discriminate E|done].
  - eapply transition_inv; [apply archive_edges| |exact Hs|done].
    intros [E|[E|E%elem_of_nil]%elem_of_cons]%elem_of_cons; [discriminate E|discriminate E|done].
  - by apply forget_ok.
  - by eapply same_tables_inv.
Qed.

Lemma rb_inv_reachable s : rb_reachable s -> rb_inv s.
Proof. intros Hs. eapply (rtc_ind_r rb_inv); [apply rb_inv_init| |exact Hs]. intros y z _ Hst Hy. by eapply rb_inv_step. Qed.

(** ** What a step does to the tables *)

(** The changed bundle is a draft, or keeps its content. *)
Definition keeps_content (b b' : ReleaseBundle) : Prop :=
  b' = with_state (bn_ProcessSnapshotID b) (bn_VariableSnapshotID b) (bn_Status b') (bn_PublishedByUserAccountID b')
         (bn_ReleaseContract b) (bn_CanonicalPayload b) (bn_CanonicalChecksum b) b.

Inductive effect (s : rdb) : rdb -> Prop :=
  | ef_same t : same_tables s t -> effect s t
  | ef_insert row l t : (bn_ID row ∉ bn_ID <$> Bundles s) -> is_draft row ->
      Bundles t = Bundles s ++ [row] -> ComponentRows t = ComponentRows s ++ rows_of (bn_ID row) l ->
      AuditEvents t = AuditEvents s -> (IdempotencyKeys t = IdempotencyKeys s \/ exists k, IdempotencyKeys t = IdempotencyKeys s ++ [k]) ->
      effect s t
  | ef_update old p b l t : old ∈ Bundles s -> is_draft old ->
      Bundles t = update_where (bundle_where (bn_ID old) (bn_OrganizationID old)) (updated_row (draft_of p b)) (Bundles s) ->
      ComponentRows t = select_where (λ r, negb (bool_decide (cr_ReleaseBundleID r = bn_ID old))) (ComponentRows s)
        ++ rows_of (bn_ID old) l ->
      AuditEvents t = AuditEvents s -> IdempotencyKeys t = IdempotencyKeys s -> effect s t
  | ef_delete b t : b ∈ Bundles s -> is_draft b -> bundle_kept (bn_ID b) s = false ->
      Bundles t = select_where (λ x, negb (bundle_where (bn_ID b) (bn_OrganizationID b) x)) (Bundles s) ->
      ComponentRows t = select_where (λ r, negb (bool_decide (cr_ReleaseBundleID r = bn_ID b))) (ComponentRows s) ->
      AuditEvents t = select_where (λ e, negb (bool_decide (ae_ReleaseBundleID e = bn_ID b))) (AuditEvents s) ->
      IdempotencyKeys t = IdempotencyKeys s -> effect s t
  | ef_event e t : Bundles t = Bundles s -> ComponentRows t = ComponentRows s -> AuditEvents t = AuditEvents s ++ [e] ->
      IdempotencyKeys t = IdempotencyKeys s -> effect s t
  | ef_transition b f e t : b ∈ Bundles s -> same_tables (after_event f b e s) t ->
      bn_ID (f b) = bn_ID b -> (is_draft b \/ keeps_content b (f b) /\ bn_PublishedByUserAccountID (f b) = bn_PublishedByUserAccountID b) ->
      allowed_edge (bn_Status b) (bn_Status (f b)) = true -> effect s t
  | ef_forget user : effect s (forget_user user s).

Lemma same_tables_refl s : same_tables s s.
Proof. done. Qed.

Lemma run_same {A} (m : rtx A) s res s' : RunSTx m s = (res, s') -> (exists a, m s = Ok (a, s')) \/ effect s s'.
Proof. intros [(a & _ & E)|(e & _ & _ & ->)]%RunSTx_cases; [left; by exists a|right; by apply ef_same]. Qed.

Lemma prepared_insert env b s c s1 r s' : prepare_draft env b s = Ok (c, s1) -> insertReleaseBundle env c s1 = Ok (r, s') ->
  effect s s'.
Proof.
  intros ((Eb & Ec & Ea & Ek) & _ & p & ->)%prepare_draft_ok (Hid & _ & -> & _)%insert_bundle_ok. rewrite Eb in Hid.
  eapply ef_insert; [exact Hid|reflexivity|..]; simpl; [by rewrite Eb|by rewrite Ec|done|by left].
Qed.

Lemma create_effect env b s res s' : CreateReleaseBundle env b s = (res, s') -> effect s s'.
Proof.
  intros [[a E]|?]%run_same; [|done]. unfold createReleaseBundle in E. apply stx_bind_ok in E as (c & s1 & E1 & E).
  by eapply prepared_insert.
Qed.

Lemma create_key_effect env b key s res s' : CreateReleaseBundleWithIdempotency env b key s = (res, s') -> effect s s'.
Proof.
  unfold CreateReleaseBundleWithIdempotency. cbv zeta. case_bool_decide; [by apply create_effect|].
  intros [[a E]|?]%run_same; [|done]. apply stx_bind_ok in E as (c & s1 & E1 & E).
  apply stx_bind_ok in E as (o & s2 & E2 & E). unfold sreads in E2. injection E2 as <- <-.
  pose proof (prepare_draft_ok _ _ _ _ _ E1) as (Hsame & _).
  destruct (getReleaseBundleIdempotencyRecord _ _ s1) as [k|].
  - apply stx_bind_ok in E as (u & s2 & [_ ->]%scheck_ok & [_ ->]%squery_ok). by apply ef_same.
  - apply stx_bind_ok in E as (cr & s2 & E2 & E). apply stx_bind_ok in E as (u & s3 & E3 & E).
    apply insert_record_ok in E3 as [_ ->]. injection E as <- <-.
    pose proof (prepare_draft_ok _ _ _ _ _ E1) as (_ & _ & p & Ec). rewrite Ec in E2. destruct Hsame as (Eb & Ecs & Ea & Ek).
    apply insert_bundle_ok in E2 as (Hid & _ & -> & _). rewrite Eb in Hid.
    eapply ef_insert; [exact Hid|reflexivity|..]; simpl; [by rewrite Eb|by rewrite Ecs|done|right; eexists; by rewrite Ek].
Qed.

Lemma update_effect env b s res s' : rb_inv s -> UpdateReleaseBundle env b s = (res, s') -> effect s s'.
Proof.
  intros Hs E. destruct res as [r|e].
  2: { unfold UpdateReleaseBundle in E. by apply RunSTx_cases in E as [(? & ? & _)|(? & _ & _ & ->)]; [|apply ef_same]. }
  apply bundle_update_ok in E as (p & s1 & old & _ & Hold & Ei & Eo & Hd & -> & _).
  eapply ef_update; [exact Hold|apply Hd, Hs|reflexivity..].
Qed.

Lemma delete_effect id org s res s' : DeleteReleaseBundleWithID id org s = (res, s') -> effect s s'.
Proof.
  intros E. destruct res as [r|e].
  2: { unfold DeleteReleaseBundleWithID in E. by apply RunSTx_cases in E as [(? & ? & _)|(? & _ & _ & ->)]; [|apply ef_same]. }
  apply bundle_delete_ok in E as (b & _ & Hb & <- & <- & Hd & Hk & ->). by eapply ef_delete.
Qed.

Lemma transition_effect id org actor to event allowed s res s' :
  (forall st, st ∈ allowed -> allowed_edge st to = true) ->
  transitionReleaseBundle id org actor to event allowed s = (res, s') -> effect s s'.
Proof.
  intros Hal [(r & E & ->)|(e & _ & _ & ->)]%settle_cases; [|by apply ef_same].
  apply transition_tx_ok in E as (b & _ & Hb & _ & _ & [(Ha & _ & ->)|(Ha & -> & _)]).
  - rewrite after_event_id. by eapply ef_event.
  - eapply (ef_transition s b (with_status to)); [exact Hb|done|reflexivity|right; split; reflexivity|by apply Hal].
Qed.

Lemma publish_effect env id org actor s res s' : PublishReleaseBundle env id org actor s = (res, s') -> effect s s'.
Proof.
  intros [(r & E & ->)|(e & _ & _ & ->)]%settle_cases; [|by apply ef_same].
  apply publish_tx_ok in E as (b & _ & Hb & _ & Eo & [(Hd & _ & ->)|[(Hd & _ & _ & ->)|(Hd & Hv & _ & n & v & _ & -> & _)]]).
  - rewrite after_event_id. by eapply ef_event.
  - rewrite after_event_id. by eapply ef_event.
  - eapply (ef_transition s b); [exact Hb|repeat split|reflexivity|by left|]. unfold is_draft in Hd. by rewrite Hd.
Qed.

Lemma step_effect s s' : rb_inv s -> rb_step s s' -> effect s s'.
Proof.
  intros Hs Hst. revert Hs. destruct Hst; intros Hs.
  - by eapply create_effect.
  - by eapply create_key_effect.
  - by eapply update_effect.
  - by eapply delete_effect.
  - by eapply publish_effect.
  - eapply transition_effect; [|done]. intros st ->%list_elem_of_singleton. done.
  - eapply transition_effect; [|done]. intros st [->| ->%list_elem_of_singleton]%elem_of_cons; done.
  - apply ef_forget.
  - by apply ef_same.
Qed.
End steps.

Section guarantees.
Context `{Collation, Crypto, UuidParser, Jsonb, StrictSemver, UrlReferenceParser, RuleLibrary}.

(** ** The life of a bundle *)

Definition status_path : string -> string -> Prop := rtc (λ x y, allowed_edge x y = true).

(** A bundle that left the draft status, as a later state has it. *)
Record lives_on (s : rdb) (b : ReleaseBundle) (s' : rdb) (b' : ReleaseBundle) : Prop := {
  lo_stored : b' ∈ Bundles s';
  lo_content : keeps_content b b';
  lo_status : status_path (bn_Status b) (bn_Status b');
  lo_publisher : bn_PublishedByUserAccountID b' = bn_PublishedByUserAccountID b \/ bn_PublishedByUserAccountID b' = None;
  lo_components : components_of (bn_ID b) (ComponentRows s') = components_of (bn_ID b) (ComponentRows s);
}.

Lemma edge_not_draft x y : allowed_edge x y = true -> y <> ReleaseBundleStatusDraft.
Proof.
  unfold allowed_edge. intros E%contains_true ->. rewrite !elem_of_cons, elem_of_nil in E.
  destruct E as [E|[E|[E|[E|[]]]]]; injection E as _ E; discriminate E.
Qed.

Lemma keeps_content_refl b : keeps_content b b.
Proof. by destruct b. Qed.
Lemma keeps_content_trans x y z : keeps_content x y -> keeps_content y z -> keeps_content x z.
Proof. unfold keeps_content. intros -> ->. done. Qed.
Lemma keeps_content_id b b' : keeps_content b b' -> bn_ID b' = bn_ID b /\ bn_OrganizationID b' = bn_OrganizationID b.
Proof. unfold keeps_content. by intros ->. Qed.

Lemma lives_unchanged s b s' : b ∈ Bundles s' -> components_of (bn_ID b) (ComponentRows s') = components_of (bn_ID b) (ComponentRows s) ->
  lives_on s b s' b.
Proof. intros Hb Hc. split; [done|apply keeps_content_refl|apply rtc_refl|by left|done]. Qed.

Lemma not_draft_id s (b x : ReleaseBundle) : rb_inv s -> b ∈ Bundles s -> x ∈ Bundles s -> ~ is_draft b -> is_draft x -> bn_ID b <> bn_ID x.
Proof. intros Hs Hb Hx Hd Hdx E. apply Hd. by rewrite (unique_bundle (Bundles s) b x) by (try done; apply Hs). Qed.

Lemma effect_lives s s' b : rb_inv s -> effect s s' -> b ∈ Bundles s -> ~ is_draft b -> exists b', lives_on s b s' b'.
Proof.
  intros Hs He Hb Hd. pose proof (to_ids _ _ _ _ Hs) as Hn. revert Hs Hb Hn. destruct He as [t (Eb & Ec & _)|row l t Hid Hrd Eb Ec _ _|
    old p r l t Hold Hod Eb Ec _ _|x t Hx Hxd _ Eb Ec _ _|e t Eb Ec _ _|x f e t Hx (Eb & Ec & _) Ei Hf Hedge|user]; intros Hs Hb Hn.
  - exists b. apply lives_unchanged; congruence.
  - exists b. apply lives_unchanged; [rewrite Eb; apply elem_of_app; by left|]. rewrite Ec, components_app, components_rows_other, app_nil_r;
      [done|]. intros E. apply Hid. rewrite <- E. by apply fmap_ids.
  - pose proof (not_draft_id s b old Hs Hb Hold Hd Hod) as Hne. exists b. apply lives_unchanged.
    + rewrite Eb. rewrite elem_replaced by done. by right.
    + rewrite Ec, components_app, components_rows_other, app_nil_r by done. by apply components_rest.
  - pose proof (not_draft_id s b x Hs Hb Hx Hd Hxd) as Hne. exists b. apply lives_unchanged.
    + rewrite Eb. apply elem_of_select_where. split; [done|]. unfold bundle_where. by rewrite bool_decide_eq_false_2.
    + rewrite Ec. by apply components_rest.
  - exists b. apply lives_unchanged; congruence.
  - cbn -[update_where] in Eb, Ec. destruct (decide (bn_ID b = bn_ID x)) as [E|E].
    + assert (b = x) as -> by (by apply (unique_bundle (Bundles s))). destruct Hf as [Hf|[Hf Hp]]; [by apply Hd in Hf|]. exists (f x).
      split; [rewrite Eb, elem_replaced by done; by left|done|by apply rtc_once|by left|by rewrite Ec].
    + exists b. apply lives_unchanged; [|by rewrite Ec]. rewrite Eb, elem_replaced by done. by right.
  - exists (forget_publisher user b). split; [by apply list_elem_of_fmap_2|..|done].
    + unfold forget_publisher. case_bool_decide; [done|apply keeps_content_refl].
    + unfold forget_publisher. case_bool_decide; apply rtc_refl.
    + unfold forget_publisher. case_bool_decide; [by right|by left].
Qed.

Lemma lives_trans s b t c u d : lives_on s b t c -> lives_on t c u d -> lives_on s b u d.
Proof.
  intros [] []. destruct (keeps_content_id b c) as [Ei _]; [done|]. split.
  - done.
  - by eapply keeps_content_trans.
  - unfold status_path in *. by etrans.
  - destruct_or?; [left|right..]; congruence.
  - congruence.
Qed.

Lemma path_not_draft x y : status_path x y -> x <> ReleaseBundleStatusDraft -> y <> ReleaseBundleStatusDraft.
Proof. intros Hp. induction Hp as [|x y z E _ IH]; [done|]. intros _. by eapply IH, edge_not_draft. Qed.

Lemma steps_live s s' : rtc rb_step s s' -> rb_inv s -> forall b, b ∈ Bundles s -> ~ is_draft b -> exists b', lives_on s b s' b'.
Proof.
  intros Hst. induction Hst as [s|s t u Hst _ IH]; intros Hs b Hb Hd.
  - exists b. by apply lives_unchanged.
  - destruct (effect_lives s t b Hs) as [c Hc]; [by apply step_effect|done|done|].
    destruct (IH (rb_inv_step _ _ Hst Hs) c) as [d Hdd]; [apply Hc|eapply path_not_draft; [apply Hc|done]|].
    exists d. by eapply lives_trans.
Qed.


(** ** The audit events *)

Definition event_facts (e : ReleaseBundleAuditEvent) : string * string * option string * string :=
  (ae_EventType e, ae_FromStatus e, ae_ToStatus e, ae_Reason e).

Lemma forget_facts user (l : list ReleaseBundleAuditEvent) : event_facts <$> (forget_actor user <$> l) = event_facts <$> l.
Proof. rewrite <- list_fmap_compose. apply list_fmap_ext. intros _ e _. unfold event_facts, forget_actor, compose. by case_bool_decide. Qed.

Lemma effect_facts s s' id org b : rb_inv s -> effect s s' -> b ∈ Bundles s -> ~ is_draft b -> bn_ID b = id ->
  (event_facts <$> GetReleaseBundleAuditEvents id org s) `prefix_of` (event_facts <$> GetReleaseBundleAuditEvents id org s').
Proof.
  intros Hs He Hb Hd <-. change GetReleaseBundleAuditEvents with (λ id org s, events_of id org (AuditEvents s)). cbv beta.
  assert (forall e A, (event_facts <$> events_of (bn_ID b) org A) `prefix_of` (event_facts <$> events_of (bn_ID b) org (A ++ [e]))) as Hadd.
  { intros e A. unfold events_of. rewrite filter_app_bool, fmap_app. apply prefix_app_r. done. }
  revert Hs Hb. destruct He as [t (_ & _ & Ea & _)|row l t _ _ _ _ Ea _|old p r l t _ _ _ _ Ea _|x t Hx Hxd _ _ _ Ea _|
    e t _ _ Ea _|x f e t _ (_ & _ & Ea & _) _ _ _|user]; intros Hs Hb.
  - by rewrite Ea.
  - by rewrite Ea.
  - by rewrite Ea.
  - rewrite Ea. unfold events_of, select_where. rewrite filter_filter; [done|]. intros e _ Hw. to_prop.
    pose proof (not_draft_id s b x Hs Hb Hx Hd Hxd) as Hne. apply negb_true_iff, bool_decide_eq_false. congruence.
  - rewrite Ea. apply Hadd.
  - rewrite Ea. apply Hadd.
  - simpl. rewrite events_forget, forget_facts. done.
Qed.

Lemma steps_facts s s' : rtc rb_step s s' -> rb_inv s -> forall b id org, b ∈ Bundles s -> ~ is_draft b -> bn_ID b = id ->
  (event_facts <$> GetReleaseBundleAuditEvents id org s) `prefix_of` (event_facts <$> GetReleaseBundleAuditEvents id org s').
Proof.
  intros Hst. induction Hst as [s|s t u Hst _ IH]; intros Hs b id org Hb Hd Ei; [done|].
  pose proof (step_effect s t Hs Hst) as He. destruct (effect_lives s t b Hs He Hb Hd) as [c Hc].
  etransitivity; [by eapply effect_facts|]. eapply (IH (rb_inv_step _ _ Hst Hs) c); [apply Hc|eapply path_not_draft; [apply Hc|done]|].
  destruct (keeps_content_id b c) as [E _]; [apply Hc|congruence].
Qed.


(** ** Children *)

(** A component of a bundle that is no draft refers to a child. *)
Definition child_of (s : rdb) (parent child : uuid) : Prop :=
  exists b r, b ∈ Bundles s /\ bn_ID b = parent /\ ~ is_draft b /\ r ∈ ComponentRows s /\ cr_ReleaseBundleID r = parent
    /\ bc_ChildReleaseBundleID (cr_Component r) = Some child.

(** C12: the children of a bundle that was published exist and were published
    too, and no bundle contains itself, through any number of children. *)
Theorem published_children_settled s : rb_reachable s ->
  (forall b c, child_of s b c -> exists x, x ∈ Bundles s /\ bn_ID x = c /\ ~ is_draft x)
  /\ forall b, ~ tc (child_of s) b b.
Proof.
  intros Hs%rb_inv_reachable. destruct (to_rank _ _ _ _ Hs) as [rank Hr].
  assert (forall b c, child_of s b c -> exists x, x ∈ Bundles s /\ bn_ID x = c /\ ~ is_draft x /\ rank c < rank b) as Hc.
  { intros b c (x & r & Hx & <- & Hd & Hrc & Er & Ec). by apply (Hr r x c). }
  split; [intros b c (x & ? & ? & ? & _)%Hc; by exists x|].
  assert (forall b c, tc (child_of s) b c -> rank c < rank b) as Hlt.
  { induction 1 as [b c (_ & _ & _ & _ & Hlt)%Hc|b c d (_ & _ & _ & _ & Hlt)%Hc _ IH]; lia. }
  intros b Hb%Hlt. lia.
Qed.

(** ** The canonical content *)

(** A bundle is read with the canonical payload and checksum of its own
    content, so validation never reports a wrong checksum, and with a
    normalized release contract. *)
Theorem stored_bundle_canonical id org s b : rb_reachable s -> GetReleaseBundle id org s = Ok b ->
  Canonicalize b = (bn_CanonicalPayload b, bn_CanonicalChecksum b)
  /\ NormalizedReleaseContract (bn_ReleaseContract b) = bn_ReleaseContract b
  /\ NoDup (bc_Key <$> bn_Components b)
  /\ ValidateBundleContent b = error_if (bool_decide (length (bn_Components b) = 0)) "components" "required"
         "at least one component is required"
       ++ match bn_ReleaseContract b with Some c => ValidateReleaseContract c (bn_Components b) | None => [] end
       ++ validate_bundle_components [] (bn_Components b).
Proof.
  intros Hs%rb_inv_reachable (x & _ & Hx & _ & _ & ->)%get_bundle_ok. pose proof (to_bundles _ _ _ _ Hs x Hx) as Hok.
  assert (Canonicalize (hydrate_bundle s x) = (bn_CanonicalPayload x, bn_CanonicalChecksum x)) as Ec
    by (apply (bo_canonical _ _ _ Hok), components_perm).
  split_and!.
  - exact Ec.
  - exact (bo_contract _ _ _ Hok).
  - cbn [bn_Components hydrate_bundle with_components]. rewrite components_perm. apply components_keys, Hs.
  - unfold ValidateBundleContent. rewrite Ec. cbn [snd bn_CanonicalChecksum hydrate_bundle with_components].
    rewrite (bool_decide_eq_true_2 (bn_CanonicalChecksum x = bn_CanonicalChecksum x)) by reflexivity. by rewrite andb_false_r.
Qed.

(** ** Publication *)

(** The bundle that a publication writes. *)
Definition publication (env : renv) (actor : uuid) (b : ReleaseBundle) (s : rdb) (n : VariableSnapshot) (v : ndb) (s' : rdb) : Prop :=
  let c := setReleaseBundleCanonicalFields (with_variable_snapshot (vn_ID n) b) in
  same_tables (after_event (λ old, published_row c old ReleaseBundleStatusPublished actor) b
     (releaseBundleAuditEventForTransition b actor AuditEventTypePublished ReleaseBundleStatusPublished "") s) s'
  /\ rd_variables s' = v.

Definition publishable (env : renv) (actor : uuid) (b : ReleaseBundle) (s : rdb) (n : VariableSnapshot) (v : ndb) : Prop :=
  is_draft b /\ validateReleaseBundle b s = Ok [] /\ actor ∈ rd_users s
  /\ createVariableSnapshotForReleaseBundle (new_snapshot_keys env) (snapshot_owner b) (rd_variables s) = Ok (n, v).

Lemma after_event_hydrated f b e s : after_event f (hydrate_bundle s b) e s = after_event f b e s.
Proof. done. Qed.

Lemma stx_bind_intro {S A B} (m : stx S A) (f : A -> stx S B) s a s1 r : m s = Ok (a, s1) -> f a s1 = r -> (m ≫= f) s = r.
Proof. unfold mbind, stx_bind. by intros -> <-. Qed.

Lemma hydrated_find id org s b : getReleaseBundle id org s = Ok b ->
  exists x, find_bundle id org s = Ok x /\ b = hydrate_bundle s x /\ x ∈ Bundles s /\ bn_ID x = id /\ bn_OrganizationID x = org.
Proof. intros (x & Hf & Hx & Ei & Eo & ->)%get_bundle_ok. by exists x. Qed.

Lemma published_find s b f t : rb_inv s -> b ∈ Bundles s -> bn_ID (f b) = bn_ID b -> bn_OrganizationID (f b) = bn_OrganizationID b ->
  (forall x, bn_ID (f x) = bn_ID x) ->
  Bundles t = update_where (bundle_where (bn_ID b) (bn_OrganizationID b)) f (Bundles s) ->
  find_bundle (bn_ID b) (bn_OrganizationID b) t = Ok (f b).
Proof.
  intros Hs Hb Ei Eo Hf Et. rewrite <- Ei, <- Eo at 1. rewrite Ei, Eo. rewrite <- Ei at 1. rewrite <- Eo. apply find_bundle_in.
  - rewrite Et, ids_replaced by done. apply Hs.
  - rewrite Et. apply elem_replaced; [apply Hs|done|by left].
Qed.

(** A draft that is valid is published when its snapshot can be made. *)
Lemma publish_runs env id org actor s b n v : rb_inv s -> getReleaseBundle id org s = Ok b -> publishable env actor b s n v ->
  exists r s', PublishReleaseBundle env id org actor s = (Ok r, s').
Proof.
  intros Hs Hg (Hd & Hv & Ha & Hn). destruct (hydrated_find _ _ _ _ Hg) as (x & Hf & -> & Hx & <- & <-).
  set (h := hydrate_bundle s x) in *. set (c := setReleaseBundleCanonicalFields (with_variable_snapshot (vn_ID n) h)).
  set (s1 := set_snapshot_tables (rd_processes s) v s).
  set (s2 := set_bundles (update_where (bundle_where (bn_ID x) (bn_OrganizationID x))
               (λ old, published_row c old ReleaseBundleStatusPublished actor) (Bundles s)) s1).
  assert (getReleaseBundle (bn_ID x) (bn_OrganizationID x) s2 = Ok (hydrate_bundle s2 (published_row c x ReleaseBundleStatusPublished actor)))
    as Hr.
  { unfold getReleaseBundle. rewrite (published_find s x (λ old, published_row c old ReleaseBundleStatusPublished actor) s2); done. }
  assert (exists r s', publish_tx env (bn_ID x) (bn_OrganizationID x) actor s = Ok (Ok r, s')) as (r & s' & E).
  2: { exists r, s'. unfold PublishReleaseBundle, settle, RunSTx. by rewrite E. }
  do 2 eexists. unfold publish_tx. eapply stx_bind_intro; [by apply squery_ok|]. cbv beta.
  rewrite (bool_decide_eq_true_2 (bn_Status h = ReleaseBundleStatusDraft)) by exact Hd. cbn [negb].
  eapply stx_bind_intro; [by apply squery_ok|]. cbn [length negb]. rewrite (bool_decide_eq_true_2 (0 = 0)) by reflexivity. cbn [negb].
  unfold publish_draft. eapply stx_bind_intro; [unfold on_variables, zoom; rewrite Hn; reflexivity|]. cbv zeta. fold c s1.
  eapply stx_bind_intro; [unfold publishReleaseBundleStatus|].
  { eapply (stx_bind_intro _ _ _ tt); [apply sforbid_ok; split; [|reflexivity]|].
    { apply negb_false_iff, exists_where_true. exists x. split; [exact Hx|]. unfold bundle_where. by rewrite !bool_decide_eq_true_2. }
    eapply (stx_bind_intro _ _ _ tt); [apply sforbid_ok; split; [|reflexivity]; by apply negb_false_iff, contains_true|].
    eapply stx_bind_intro; [reflexivity|]. apply squery_ok. split; [exact Hr|reflexivity]. }
  eapply stx_bind_intro; [|reflexivity]. unfold insertReleaseBundleAuditEvent.
  match goal with |- context [actor_exists ?e ?t] => assert (actor_exists e t = true) as -> by (by apply contains_true) end.
  reflexivity.
Qed.

(** C13: a bundle is published exactly when it is a draft of the organization
    that is valid, the actor is a user and its variable snapshot can be
    created. It then has the status published, the snapshot, the actor as
    publisher, and nothing else changes but one audit event and the snapshot. *)
Theorem publish_decides env id org actor s : rb_reachable s ->
  let published := PublishReleaseBundle env id org actor s in
  ((exists r, fst published = Ok r) <->
     exists b n v, GetReleaseBundle id org s = Ok b /\ publishable env actor b s n v)
  /\ forall r, fst published = Ok r -> GetReleaseBundle id org (snd published) = Ok r
       /\ bn_Status r = ReleaseBundleStatusPublished /\ bn_PublishedByUserAccountID r = Some actor
       /\ exists b n v, GetReleaseBundle id org s = Ok b /\ publishable env actor b s n v
            /\ publication env actor b s n v (snd published) /\ bn_VariableSnapshotID r = Some (vn_ID n).
Proof.
  intros Hs%rb_inv_reachable. cbv zeta.
  destruct (PublishReleaseBundle env id org actor s) as [res s'] eqn:E. cbn [fst snd].
  assert (forall r, res = Ok r -> GetReleaseBundle id org s' = Ok r
       /\ bn_Status r = ReleaseBundleStatusPublished /\ bn_PublishedByUserAccountID r = Some actor
       /\ exists b n v, GetReleaseBundle id org s = Ok b /\ publishable env actor b s n v
            /\ publication env actor b s n v s' /\ bn_VariableSnapshotID r = Some (vn_ID n)) as Hok.
  { intros r ->. apply settle_cases in E as [(r' & E & <-)|(e & _ & ? & _)]; [|done].
    apply publish_tx_ok in E as (b & Hf & Hb & Ei & Eo & [(_ & ? & _)|[(_ & _ & ? & _)|(Hd & Hv & Ha & n & v & Hn & Es & r' & Er & Hg)]]);
      [done..|]. injection Er as <-. split; [exact Hg|]. apply get_bundle_ok in Hg as (x & Hx & _ & _ & _ & ->).
    set (c := setReleaseBundleCanonicalFields (with_variable_snapshot (vn_ID n) (hydrate_bundle s b))) in *.
    assert (find_bundle id org s' = Ok (published_row c b ReleaseBundleStatusPublished actor)) as Hx'.
    { rewrite <- Ei, <- Eo. apply (published_find s b (λ old, published_row c old ReleaseBundleStatusPublished actor)); try done.
      by rewrite Es. }
    rewrite Hx in Hx'. injection Hx' as ->. split; [reflexivity|]. split; [reflexivity|]. exists (hydrate_bundle s b), n, v.
    split; [unfold GetReleaseBundle, getReleaseBundle; by rewrite Hf|]. split; [done|]. split; [|reflexivity].
    rewrite Es. repeat split. }
  split; [|exact Hok]. split.
  - intros [r Hr]. destruct (Hok r Hr) as (_ & _ & _ & b & n & v & Hg & Hp & _). by exists b, n, v.
  - intros (b & n & v & Hg & Hp). destruct (publish_runs env id org actor s b n v Hs Hg Hp) as (r & t & Et).
    rewrite E in Et. injection Et as -> _. by exists r.
Qed.

(** A transition that is refused: one more event, and nothing else. *)
Definition refused (b : ReleaseBundle) (actor : uuid) (to reason : string) (s s' : rdb) : Prop :=
  s' = set_bundle_tables (Bundles s) (ComponentRows s) (AuditEvents s ++
         [releaseBundleAuditEventForTransition b actor AuditEventTypeStateTransitionRejected to reason]) (IdempotencyKeys s) s.


(** ** Idempotency keys *)

(** The record of a creation with a key. *)
Record recorded (b : ReleaseBundle) (key : string) (r : ReleaseBundle) (k : IdempotencyRecord) : Prop := {
  rc_organization : ik_OrganizationID k = bn_OrganizationID b;
  rc_hash : ik_KeyHash k = hashReleaseBundleIdempotencyKey (TrimSpace key);
  rc_checksum : exists p, ik_RequestChecksum k = bn_CanonicalChecksum (draft_of p b);
  rc_bundle : ik_ReleaseBundleID k = bn_ID r;
  rc_bundle_organization : bn_OrganizationID r = bn_OrganizationID b;
}.

Lemma keyed_creation env b key s r s' : rb_inv s -> TrimSpace key <> "" -> bn_VariableSnapshotID b = None ->
  CreateReleaseBundleWithIdempotency env b key s = (Ok r, s') ->
  exists k, k ∈ IdempotencyKeys s' /\ recorded b key r k
    /\ (same_tables s s' \/ getReleaseBundleIdempotencyRecord (ik_OrganizationID k) (ik_KeyHash k) s = None).
Proof.
  intros Hs Hkey Hv E. pose proof (create_key_inv _ _ _ _ _ _ Hs Hv E) as Hs'. unfold CreateReleaseBundleWithIdempotency in E.
  cbv zeta in E. rewrite (bool_decide_eq_false_2 _ Hkey) in E.
  apply RunSTx_cases in E as [(a & [= <-] & E)|(e & ? & _)]; [|done].
  apply stx_bind_ok in E as (c & s1 & (Hsame & _ & p & ->)%prepare_draft_ok & E). fold (draft_of p b) in E.
  apply stx_bind_ok in E as (o & s2 & E2 & E). unfold sreads in E2. injection E2 as <- <-.
  change (bn_OrganizationID (draft_of p b)) with (bn_OrganizationID b) in E.
  destruct (getReleaseBundleIdempotencyRecord _ _ s1) as [k|] eqn:Ek.
  - apply stx_bind_ok in E as (u & s2 & [Hc ->]%scheck_ok & [Hg ->]%squery_ok). to_prop.
    apply record_some in Ek as (Hk & Eo & Eh). apply get_bundle_ok in Hg as (x & _ & _ & Ei & Exo & ->).
    exists k. split; [done|]. split; [|by left]. split; [done|done|by exists p|by simpl|done].
  - apply stx_bind_ok in E as (cr & s2 & E2 & E). apply insert_bundle_ok in E2 as (_ & _ & -> & _ & _ & _ & Hg).
    apply stx_bind_ok in E as (u & s3 & E3 & E). apply insert_record_ok in E3 as [Hn ->]. injection E as <- <-.
    apply get_bundle_ok in Hg as (x & Hf & Hx & Ei & Exo & ->).
    assert (x = new_row (new_bundle_id env) (draft_of p b)) as ->.
    { apply (unique_bundle (Bundles s1 ++ [new_row (new_bundle_id env) (draft_of p b)])); [apply (to_ids _ _ _ _ Hs')|exact Hx| |exact Ei].
      apply elem_of_app. right. by left. }
    eexists. split; [apply elem_of_app; right; by left|]. split.
    + split; [reflexivity|reflexivity|by exists p|reflexivity|reflexivity].
    + right. destruct Hsame as (_ & _ & _ & Eks). unfold getReleaseBundleIdempotencyRecord in *. cbn [ik_OrganizationID ik_KeyHash].
      rewrite <- Eks. exact Ek.
Qed.

Lemma effect_keys s s' k : effect s s' -> k ∈ IdempotencyKeys s -> k ∈ IdempotencyKeys s'.
Proof.
  intros He Hk. destruct He as [t (_ & _ & _ & E)|row l t _ _ _ _ _ E|old p r l t _ _ _ _ _ E|x t _ _ _ _ _ _ E|
    e t _ _ _ E|x f e t _ (_ & _ & _ & E) _ _ _|user]; simpl; rewrite ?E; try done.
  destruct E as [->|[k' ->]]; [done|]. apply elem_of_app. by left.
Qed.

Lemma steps_keys s s' k : rtc rb_step s s' -> rb_inv s -> k ∈ IdempotencyKeys s -> k ∈ IdempotencyKeys s'.
Proof.
  intros Hst. induction Hst as [|s t u Hst _ IH]; intros Hs Hk; [done|].
  apply IH; [by eapply rb_inv_step|]. eapply effect_keys; [by apply step_effect|done].
Qed.

Lemma steps_inv s s' : rtc rb_step s s' -> rb_inv s -> rb_inv s'.
Proof. intros Hst. induction Hst as [|s t u Hst _ IH]; intros Hs; [done|]. by eapply IH, rb_inv_step. Qed.

(** An idempotency key names one bundle for ever: after a creation with a
    key, every later creation with the key in the organization either returns
    that bundle, adding nothing, its request having the same canonical
    checksum, or fails and changes nothing. *)
Theorem idempotency_key_names_one_bundle env b key s r s1 s2 env' b' key' res s3 :
  rb_reachable s -> TrimSpace key <> "" -> bn_VariableSnapshotID b = None ->
  CreateReleaseBundleWithIdempotency env b key s = (Ok r, s1) ->
  rtc rb_step s1 s2 -> TrimSpace key' = TrimSpace key -> bn_OrganizationID b' = bn_OrganizationID b ->
  bn_VariableSnapshotID b' = None ->
  CreateReleaseBundleWithIdempotency env' b' key' s2 = (res, s3) ->
  match res with
  | Ok r' => bn_ID r' = bn_ID r /\ same_tables s2 s3
      /\ exists p p', bn_CanonicalChecksum (draft_of p b) = bn_CanonicalChecksum (draft_of p' b')
  | Err _ => s3 = s2
  end.
Proof.
  intros Hs%rb_inv_reachable Hkey Hv E Hst Ekey Eorg Hv' E'.
  pose proof (create_key_inv _ _ _ _ _ _ Hs Hv E) as Hs1. destruct (keyed_creation _ _ _ _ _ _ Hs Hkey Hv E) as (k & Hk & Hrec & _).
  pose proof (steps_inv _ _ Hst Hs1) as Hs2. pose proof (steps_keys _ _ k Hst Hs1 Hk) as Hk2.
  destruct res as [r'|e].
  2: { unfold CreateReleaseBundleWithIdempotency, CreateReleaseBundle in E'. cbv zeta in E'. case_bool_decide.
       all: by apply RunSTx_cases in E' as [(? & ? & _)|(? & _ & _ & ->)]. }
  pose proof (create_key_effect _ _ _ _ _ _ E') as He. pose proof (create_key_inv _ _ _ _ _ _ Hs2 Hv' E') as Hs3.
  rewrite <- Ekey in Hkey. destruct (keyed_creation _ _ _ _ _ _ Hs2 Hkey Hv' E') as (k' & Hk' & Hrec' & Hnew).
  pose proof (effect_keys _ _ k He Hk2) as Hk3. destruct Hrec as [Eo Eh [p Ec] Eb _], Hrec' as [Eo' Eh' [p' Ec'] Eb' _].
  assert (k' = k) as ->.
  { apply (NoDup_fmap_elem (λ k, (ik_OrganizationID k, ik_KeyHash k)) (IdempotencyKeys s3)); [apply Hs3|done..|].
    rewrite Eo, Eo', Eh, Eh', Ekey. by rewrite Eorg. }
  split; [congruence|]. split; [|exists p, p'; congruence]. destruct Hnew as [?|Hnone%record_none]; [done|].
  destruct Hnone. by apply (list_elem_of_fmap_2 (λ k, (ik_OrganizationID k, ik_KeyHash k))).
Qed.

(** ** Deletion *)

Lemma delete_runs s b : rb_inv s -> b ∈ Bundles s -> is_draft b -> bundle_kept (bn_ID b) s = false ->
  exists s', DeleteReleaseBundleWithID (bn_ID b) (bn_OrganizationID b) s = (Ok tt, s').
Proof.
  intros Hs Hb Hd Hk. unfold DeleteReleaseBundleWithID, RunSTx.
  match goal with |- exists _, match ?m s with _ => _ end = _ => enough (exists t, m s = Ok (tt, t)) as [t ->] end; [by exists t|].
  eexists. eapply stx_bind_intro; [apply squery_ok; split; [|reflexivity]|].
  { unfold getReleaseBundle. rewrite find_bundle_in; [reflexivity|apply Hs|exact Hb]. }
  eapply (stx_bind_intro _ _ _ tt); [apply scheck_ok; split; [|reflexivity]|].
  { apply negb_false_iff, bool_decide_eq_true. exact Hd. }
  unfold delete_row. assert (exists_where (bundle_where (bn_ID b) (bn_OrganizationID b)) (Bundles s) = true) as ->.
  { apply exists_where_true. exists b. split; [done|]. unfold bundle_where. by rewrite !bool_decide_eq_true_2. }
  rewrite Hk. reflexivity.
Qed.

Lemma deleted_reads s s' b : rb_inv s -> b ∈ Bundles s -> 
  Bundles s' = select_where (λ x, negb (bundle_where (bn_ID b) (bn_OrganizationID b) x)) (Bundles s) ->
  ComponentRows s' = select_where (λ r, negb (bool_decide (cr_ReleaseBundleID r = bn_ID b))) (ComponentRows s) ->
  (forall org, GetReleaseBundle (bn_ID b) org s' = Err NotFound)
  /\ forall id org, id <> bn_ID b -> GetReleaseBundle id org s' = GetReleaseBundle id org s.
Proof.
  intros Hs Hb Eb Ec. unfold GetReleaseBundle, getReleaseBundle, find_bundle. rewrite Eb. split.
  - intros org. rewrite select_none; [done|]. intros x [Hx Hw]%elem_of_select_where. unfold bundle_where in Hw |- *.
    destruct (decide (bn_ID x = bn_ID b)) as [E|E]; [|by rewrite bool_decide_eq_false_2].
    rewrite (unique_bundle (Bundles s) x b) in Hw by (try done; apply Hs). by rewrite !bool_decide_eq_true_2 in Hw.
  - intros id org Hne. unfold select_where at 1 2. rewrite filter_filter.
    + change (List.filter (bundle_where id org) (Bundles s)) with (select_where (bundle_where id org) (Bundles s)).
      destruct (select_where (bundle_where id org) (Bundles s)) as [|x l] eqn:Ex; [done|].
      assert (x ∈ x :: l) as Hx by left. rewrite <- Ex in Hx. apply elem_of_select_where in Hx as [_ Hw].
      unfold bundle_where in Hw. to_prop.
      assert (getReleaseBundleComponents (bn_ID x) s' = getReleaseBundleComponents (bn_ID x) s) as Ecs.
      { unfold getReleaseBundleComponents. rewrite Ec. f_equal. apply (components_rest (bn_ID x)). congruence. }
      unfold mbind, result_bind, hydrate_bundle. by rewrite Ecs.
    + intros x _ Hw. unfold bundle_where in Hw |- *. to_prop. rewrite (bool_decide_eq_false_2 (bn_ID x = bn_ID b)) by congruence. done.
Qed.

(** Exactly a draft that nothing keeps can be deleted: no component of
    another bundle, idempotency key, variable snapshot, plan or execution
    refers to it. Then it is gone with its components, and every other bundle
    is read as before; when the deletion fails, nothing changes. *)
Theorem delete_decides id org s : rb_reachable s ->
  let deleted := DeleteReleaseBundleWithID id org s in
  (fst deleted = Ok tt <-> exists b, GetReleaseBundle id org s = Ok b /\ is_draft b /\ bundle_kept id s = false)
  /\ match fst deleted with
     | Ok _ => (forall o, GetReleaseBundle id o (snd deleted) = Err NotFound)
               /\ forall id' o, id' <> id -> GetReleaseBundle id' o (snd deleted) = GetReleaseBundle id' o s
     | Err _ => snd deleted = s
     end.
Proof.
  intros Hs%rb_inv_reachable. cbv zeta. destruct (DeleteReleaseBundleWithID id org s) as [res s'] eqn:E. cbn [fst snd]. split.
  - split.
    + intros ->. apply bundle_delete_ok in E as (b & Hf & _ & _ & _ & Hd & Hk & _). exists (hydrate_bundle s b).
      split; [unfold GetReleaseBundle, getReleaseBundle; by rewrite Hf|done].
    + intros (b & (x & _ & -> & Hx & <- & <-)%hydrated_find & Hd & Hk). destruct (delete_runs s x Hs Hx Hd Hk) as [t Et].
      rewrite E in Et. by injection Et as ->.
  - destruct res as [[]|e].
    + apply bundle_delete_ok in E as (b & _ & Hb & <- & <- & _ & _ & ->). by apply (deleted_reads s _ b).
    + unfold DeleteReleaseBundleWithID in E. by apply RunSTx_cases in E as [(? & ? & _)|(? & _ & _ & ->)].
Qed.

(** A bundle that was created with an idempotency key can never be
    deleted, not even as a draft: the key keeps it in every later state. *)
Theorem keyed_bundle_never_deleted env b key s r s1 s2 org :
  rb_reachable s -> TrimSpace key <> "" -> bn_VariableSnapshotID b = None ->
  CreateReleaseBundleWithIdempotency env b key s = (Ok r, s1) -> rtc rb_step s1 s2 ->
  (exists b', GetReleaseBundle (bn_ID r) (bn_OrganizationID b) s2 = Ok b')
  /\ exists e, DeleteReleaseBundleWithID (bn_ID r) org s2 = (Err e, s2).
Proof.
  intros Hs%rb_inv_reachable Hkey Hv E Hst. pose proof (create_key_inv _ _ _ _ _ _ Hs Hv E) as Hs1.
  destruct (keyed_creation _ _ _ _ _ _ Hs Hkey Hv E) as (k & Hk & Hrec & _). pose proof (steps_inv _ _ Hst Hs1) as Hs2.
  pose proof (steps_keys _ _ k Hst Hs1 Hk) as Hk2. destruct Hrec as [Eo _ _ Eb _]. split.
  - pose proof (to_records _ _ _ _ Hs2 k Hk2) as (x & Ex & Hx)%list_elem_of_fmap. injection Ex as Exi Exo.
    exists (hydrate_bundle s2 x). unfold GetReleaseBundle, getReleaseBundle.
    replace (bn_ID r) with (bn_ID x) by congruence. replace (bn_OrganizationID b) with (bn_OrganizationID x) by congruence.
    rewrite find_bundle_in; [done|apply Hs2|done].
  - destruct (DeleteReleaseBundleWithID (bn_ID r) org s2) as [[[]|e] t] eqn:E'.
    + apply bundle_delete_ok in E' as (x & _ & _ & _ & _ & _ & Hkept & _). exfalso. unfold bundle_kept in Hkept.
      rewrite !orb_false_iff in Hkept. destruct Hkept as [[[_ Hk3%contains_false] _] _]. apply Hk3. rewrite <- Eb.
      by apply (list_elem_of_fmap_2 ik_ReleaseBundleID).
    + exists e. unfold DeleteReleaseBundleWithID in E'. by apply RunSTx_cases in E' as [(? & ? & _)|(? & _ & _ & ->)].
Qed.
End guarantees.

(** ** Concrete instances *)

Module BundleDemo.
Import RulesDemo.
#[export] Existing Instance library.
#[export] Existing Instance printed_parser.
#[export] Instance any_text : Jsonb := {| jsonb_text := Some |}.
#[export] Instance bytes : Collation := {| name_less := string_less |}.
#[export] Instance plain : Crypto := {| sha256_hex := λ s, s |}.
#[export] Instance versions : StrictSemver :=
  {| semver_version := string; Preflight.StrictNewVersion := Some; LessThan := string_less |}.
#[export] Instance https : UrlReferenceParser := {|
  url_Parse s := Some {| pu_Scheme := "https"; pu_Opaque := ""; pu_HasUser := false; pu_Host := "ci"; pu_Path := "/";
                         pu_RawQuery := ""; pu_Fragment := "" |} |}.

Definition stable : Channel :=
  {| ch_ID := uid 4; ch_OrganizationID := uid 1; ch_ApplicationID := uid 3; ch_LifecycleID := uid 5; ch_Name := "Stable";
     ch_Description := ""; ch_SortOrder := 0; ch_IsDefault := true; ch_Rules := RulesDemo.rules |}.

Definition image : ReleaseBundleComponent :=
  {| bc_Key := "api"; bc_Name := "api"; bc_Type := ComponentOCIImage; bc_Version := "1.0.0"; bc_ApplicationVersionID := None;
     bc_PackageRef := "registry/api"; bc_Digest := "sha256:" +:+ String.concat "" (replicate 64 "a"); bc_Checksum := "";
     bc_ChildReleaseBundleID := None |}.
Definition child (id : uuid) : ReleaseBundleComponent :=
  {| bc_Key := "base"; bc_Name := "base"; bc_Type := ComponentChildReleaseBundle; bc_Version := "1"; bc_ApplicationVersionID := None;
     bc_PackageRef := ""; bc_Digest := ""; bc_Checksum := ""; bc_ChildReleaseBundleID := Some id |}.

Definition request (number : string) (components : list ReleaseBundleComponent) : ReleaseBundle :=
  {| bn_ID := Nil; bn_OrganizationID := uid 1; bn_ApplicationID := uid 3; bn_ChannelID := uid 4; bn_ProcessSnapshotID := None;
     bn_VariableSnapshotID := None; bn_DeploymentProcessRevisionID := None; bn_ReleaseNumber := number; bn_ReleaseNotes := "";
     bn_SourceRevision := ""; bn_SourceRepository := ""; bn_SourceBranch := "main"; bn_SourceTag := ""; bn_CIProvider := "";
     bn_CIRunID := ""; bn_CIRunURL := ""; bn_ReleaseContract := None; bn_Status := ""; bn_PublishedByUserAccountID := None;
     bn_CanonicalChecksum := ""; bn_CanonicalPayload := ""; bn_Components := components |}.

Definition env (n : N) : renv :=
  {| new_bundle_id := uid n; new_process_snapshot_id := uid (n + 1);
     new_snapshot_keys := {| new_variable_snapshot_id := uid (n + 2); new_value_id := λ i, uid (n + 3 + N.of_nat i) |} |}.

Definition processes : pdb :=
  {| Processes := []; Revisions := []; Steps := []; StepDependencies := []; StepChannels := []; StepEnvironments := [];
     DeploymentProcess.Applications := [(uid 3, uid 1)]; DeploymentProcess.Channels := [(uid 4, uid 1, uid 3)]; Environments := [];
     Snapshots := []; GitManaged := [] |}.
Definition s0 : rdb :=
  {| rd_processes := {| sd_processes := processes; sd_snapshots := [] |};
     rd_variables := {| nd_variables := v_init; nd_snapshots := []; nd_values := [] |}; rd_channels := [stable]; rd_versions := [];
     rd_users := [uid 7]; rd_planned := []; rd_executed := []; Bundles := []; ComponentRows := []; AuditEvents := [];
     IdempotencyKeys := [] |}.

Definition created := CreateReleaseBundleWithIdempotency (env 100) (request "1" [image]) " build-7 " s0.
Definition s1 : rdb := snd created.
Definition created2 := CreateReleaseBundle (env 200) (request "2" [child (uid 100); image]) s1.
Definition s2 : rdb := snd created2.
Definition refused_publication := PublishReleaseBundle (env 300) (uid 200) (uid 1) (uid 7) s2.
Definition s3 : rdb := snd refused_publication.
Definition s4 : rdb := snd (PublishReleaseBundle (env 400) (uid 100) (uid 1) (uid 7) s3).
Definition s5 : rdb := snd (PublishReleaseBundle (env 500) (uid 200) (uid 1) (uid 7) s4).
Definition s6 : rdb := snd (ArchiveReleaseBundle (uid 100) (uid 1) (uid 7) s5).

Example demo_statuses :
  (λ s, (λ b, (bn_ID b, bn_Status b, bn_VariableSnapshotID b)) <$> Bundles s) <$> [s2; s3; s4; s5; s6]
  = [[(uid 100, "DRAFT", None); (uid 200, "DRAFT", None)]; [(uid 100, "DRAFT", None); (uid 200, "DRAFT", None)];
     [(uid 100, "PUBLISHED", Some (uid 402)); (uid 200, "DRAFT", None)];
     [(uid 100, "PUBLISHED", Some (uid 402)); (uid 200, "PUBLISHED", Some (uid 502))];
     [(uid 100, "ARCHIVED", Some (uid 402)); (uid 200, "PUBLISHED", Some (uid 502))]].
Proof. vm_compute. reflexivity. Qed.

Example demo_events :
  (λ e, (ae_EventType e, ae_FromStatus e, ae_ToStatus e, ae_Reason e)) <$> GetReleaseBundleAuditEvents (uid 200) (uid 1) s6
  = [("state_transition_rejected", "DRAFT", Some "PUBLISHED", "validation failed"); ("published", "DRAFT", Some "PUBLISHED", "")].
Proof. vm_compute. reflexivity. Qed.

Lemma reach0 : rb_reachable s0.
Proof. apply rtc_once, rb_other. done. Qed.
Lemma reach1 : rb_reachable s1.
Proof. eapply rtc_r; [apply reach0|]. exact (rb_create_key s0 (env 100) (request "1" [image]) " build-7 " _ s1 eq_refl (surjective_pairing _)). Qed.
Lemma step2 : rb_step s1 s2.
Proof. exact (rb_create s1 (env 200) (request "2" [child (uid 100); image]) _ s2 eq_refl (surjective_pairing _)). Qed.
Lemma step3 : rb_step s2 s3.
Proof. exact (rb_publish s2 (env 300) (uid 200) (uid 1) (uid 7) _ s3 (surjective_pairing _)). Qed.
Lemma step4 : rb_step s3 s4.
Proof. exact (rb_publish s3 (env 400) (uid 100) (uid 1) (uid 7) _ s4 (surjective_pairing _)). Qed.
Lemma step5 : rb_step s4 s5.
Proof. exact (rb_publish s4 (env 500) (uid 200) (uid 1) (uid 7) _ s5 (surjective_pairing _)). Qed.
Lemma step6 : rb_step s5 s6.
Proof. exact (rb_archive s5 (uid 100) (uid 1) (uid 7) _ s6 (surjective_pairing _)). Qed.
Lemma reach3 : rb_reachable s3.
Proof. eapply rtc_r; [|apply step3]. eapply rtc_r; [apply reach1|apply step2]. Qed.
Lemma reach5 : rb_reachable s5.
Proof. eapply rtc_r; [|apply step5]. eapply rtc_r; [apply reach3|apply step4]. Qed.
Lemma reach6 : rb_reachable s6.
Proof. eapply rtc_r; [apply reach5|apply step6]. Qed.
Lemma steps16 : rtc rb_step s1 s6.
Proof.
  eapply rtc_l; [apply step2|]. eapply rtc_l; [apply step3|]. eapply rtc_l; [apply step4|]. eapply rtc_l; [apply step5|].
  apply rtc_once, step6.
Qed.
End BundleDemo.

Import BundleDemo.

Ltac in_list := repeat first [left; reflexivity | right].



Lemma published_children_settled_witness :
  child_of s6 (uid 200) (uid 100) /\ (exists x, x ∈ Bundles s6 /\ bn_ID x = uid 100 /\ ~ is_draft x)
  /\ ~ tc (child_of s6) (uid 200) (uid 200).
Proof.
  destruct (published_children_settled s6 reach6) as [Hc Hn].
  assert (child_of s6 (uid 200) (uid 100)) as H.
  { destruct (Bundles s6) as [|a [|b l]] eqn:E; [by vm_compute in E|by vm_compute in E|].
    destruct (ComponentRows s6) as [|x [|r m]] eqn:Er; [by vm_compute in Er|by vm_compute in Er|].
    exists b, r. rewrite E, Er. vm_compute in E, Er. injection E as _ <- _. injection Er as _ <- _.
    split_and!; [right; left|by vm_compute|by vm_compute|right; left|by vm_compute|by vm_compute]. }
  split; [exact H|]. split; [by apply (Hc (uid 200))|apply Hn].
Defined.

Lemma stored_bundle_canonical_witness :
  exists b, GetReleaseBundle (uid 200) (uid 1) s5 = Ok b /\ Canonicalize b = (bn_CanonicalPayload b, bn_CanonicalChecksum b).
Proof.
  eexists. split; [vm_compute; reflexivity|].
  apply (stored_bundle_canonical (uid 200) (uid 1) s5); [apply reach5|vm_compute; reflexivity].
Defined.

Lemma publish_decides_witness :
  fst (PublishReleaseBundle (env 500) (uid 200) (uid 1) (uid 7) s3) = Err (BadRequest "could not publish ReleaseBundle")
  /\ exists r, fst (PublishReleaseBundle (env 400) (uid 100) (uid 1) (uid 7) s3) = Ok r
       /\ bn_Status r = ReleaseBundleStatusPublished /\ bn_PublishedByUserAccountID r = Some (uid 7).
Proof.
  split; [vm_compute; reflexivity|].
  destruct (publish_decides (env 400) (uid 100) (uid 1) (uid 7) s3 reach3) as [Hd Hr].
  assert (exists r, fst (PublishReleaseBundle (env 400) (uid 100) (uid 1) (uid 7) s3) = Ok r) as [r E].
  { apply Hd. do 3 eexists. split; [vm_compute; reflexivity|]. split; [vm_compute; reflexivity|].
    split; [vm_compute; reflexivity|]. split; [left|vm_compute; reflexivity]. }
  destruct (Hr r E) as (_ & Hs & Hp & _). exists r. split; [exact E|]. split; [exact Hs|exact Hp].
Defined.


Lemma idempotency_key_names_one_bundle_witness :
  exists r r' s, CreateReleaseBundleWithIdempotency (env 100) (request "1" [image]) " build-7 " s0 = (Ok r, s1)
    /\ CreateReleaseBundleWithIdempotency (env 600) (request "1" [image]) "build-7" s6 = (Ok r', s)
    /\ bn_ID r' = bn_ID r /\ same_tables s6 s.
Proof.
  assert (exists r, CreateReleaseBundleWithIdempotency (env 100) (request "1" [image]) " build-7 " s0 = (Ok r, s1)) as [r E] by (eexists; vm_compute; reflexivity).
  assert (exists r' s, CreateReleaseBundleWithIdempotency (env 600) (request "1" [image]) "build-7" s6 = (Ok r', s)) as (r' & s & E')
    by (do 2 eexists; vm_compute; reflexivity).
  destruct (idempotency_key_names_one_bundle (env 100) (request "1" [image]) " build-7 " s0 r s1 s6 (env 600) (request "1" [image])
    "build-7" (Ok r') s reach0) as (Hi & Hs & _); [discriminate|reflexivity|exact E|exact steps16|reflexivity|reflexivity|reflexivity|exact E'|].
  exists r, r', s. split; [exact E|]. split; [exact E'|]. split; [exact Hi|exact Hs].
Defined.

Lemma delete_decides_witness :
  fst (DeleteReleaseBundleWithID (uid 200) (uid 1) s3) = Ok tt
  /\ GetReleaseBundle (uid 200) (uid 1) (snd (DeleteReleaseBundleWithID (uid 200) (uid 1) s3)) = Err NotFound.
Proof.
  destruct (delete_decides (uid 200) (uid 1) s3 reach3) as [Hd Hf].
  assert (fst (DeleteReleaseBundleWithID (uid 200) (uid 1) s3) = Ok tt) as E.
  { apply Hd. eexists. split; [vm_compute; reflexivity|]. split; vm_compute; reflexivity. }
  rewrite E in Hf. split; [exact E|apply Hf].
Defined.

Lemma keyed_bundle_never_deleted_witness :
  exists e, DeleteReleaseBundleWithID (uid 100) (uid 1) s3 = (Err e, s3).
Proof.
  assert (exists r, CreateReleaseBundleWithIdempotency (env 100) (request "1" [image]) " build-7 " s0 = (Ok r, s1) /\ bn_ID r = uid 100) as (r & E & Ei) by (eexists; split; vm_compute; reflexivity).
  destruct (keyed_bundle_never_deleted (env 100) (request "1" [image]) " build-7 " s0 r s1 s3 (uid 1) reach0) as [_ Hd];
    [discriminate|reflexivity|exact E|eapply rtc_l; [apply step2|apply rtc_once, step3]|]. rewrite <- Ei. exact Hd.
Defined.
