(* ===== verification/DeploymentPlans.v ===== *)
(** * Deployment plans: how a plan is made ([internal/db/deployment_plans.go],
    [internal/types/deployment_plan.go])

    A plan freezes what a release would do in an environment: the targets, the
    expected state of their components, the steps of the process snapshot, the
    values of the variables and the issues found. It is ready when no issue
    blocks it. What is read from other tables is in the rows below; the decoded
    payload of a snapshot stands for the payload. *)
From S2P Require Import Prelude GoStrings Uuid GoRegexp GoJson TaskStore Transaction Lifecycle VariableResolution VariableJson StepRedaction StepEvents ActionRegistry ExternalExecution DeploymentProcess Conditions ReleaseContract.
Open Scope list_scope.

(** ** Data *)

Record CreateDeploymentPlanRequest := {
  cr_OrganizationID : uuid;
  cr_ReleaseBundleID : uuid;
  cr_EnvironmentID : uuid;
  cr_TargetIDs : list uuid;
}.

Inductive DeploymentPlanStatus :=
| DeploymentPlanStatusDraft | DeploymentPlanStatusValidating | DeploymentPlanStatusBlocked
| DeploymentPlanStatusReady | DeploymentPlanStatusExpired | DeploymentPlanStatusExecuted.

#[export] Instance DeploymentPlanStatus_eq_dec : EqDecision DeploymentPlanStatus.
Proof. solve_decision. Defined.

Inductive DeploymentPlanIssueSeverity := SeverityBlocker | SeverityWarning.

#[export] Instance DeploymentPlanIssueSeverity_eq_dec : EqDecision DeploymentPlanIssueSeverity.
Proof. solve_decision. Defined.

(** The ids of the rows of steps, variables and issues, which the database
    generates, are given when the rows are inserted. *)
Record DeploymentPlanTarget := {
  dt_ID : uuid;
  dt_DeploymentPlanID : uuid;
  dt_OrganizationID : uuid;
  dt_DeploymentTargetID : uuid;
  dt_Name : string;
  dt_Type : string;
  dt_Platform : string;
  dt_CustomerOrganizationID : option uuid;
  dt_SortOrder : Z;
}.

Record DeploymentPlanTargetComponent := {
  tc_ID : uuid;
  tc_DeploymentPlanID : uuid;
  tc_DeploymentPlanTargetID : uuid;
  tc_OrganizationID : uuid;
  tc_DeploymentTargetID : uuid;
  tc_Component : string;
  tc_Version : string;
  tc_Image : string;
  tc_Platform : string;
  tc_Contracts : option (list string);
  tc_ConfigChecksum : string;
  tc_ExpectedStateVersion : Z;
  tc_ExpectedStateChecksum : string;
  tc_ExpectedReleaseBundleID : option uuid;
  tc_SortOrder : Z;
}.

Record DeploymentPlanStep := {
  st_ID : uuid;
  st_DeploymentPlanID : uuid;
  st_OrganizationID : uuid;
  st_StepKey : string;
  st_Name : string;
  st_ActionType : string;
  st_ActionName : string;
  st_ExecutionLocation : string;
  st_InputBindings : list (string * json);
  st_Condition : string;
  st_TargetTags : list string;
  st_FailureMode : string;
  st_TimeoutSeconds : Z;
  st_RetryMaxAttempts : Z;
  st_RetryIntervalSeconds : Z;
  st_RequiredPermissions : list string;
  st_SortOrder : Z;
  st_Dependencies : list string;
  st_Included : bool;
  st_ExcludedReason : string;
}.

(** The columns that are those of a resolved variable are kept together. *)
Record DeploymentPlanVariable := {
  vr_ID : uuid;
  vr_DeploymentPlanID : uuid;
  vr_OrganizationID : uuid;
  vr_Variable : ResolvedVariable;
}.

Record DeploymentPlanIssue := {
  iss_ID : uuid;
  iss_DeploymentPlanID : uuid;
  iss_OrganizationID : uuid;
  iss_Severity : DeploymentPlanIssueSeverity;
  iss_Code : string;
  iss_Field : string;
  iss_Message : string;
  iss_SortOrder : Z;
}.

Record DeploymentPlan := {
  pl_ID : uuid;
  pl_OrganizationID : uuid;
  pl_ApplicationID : uuid;
  pl_ReleaseBundleID : uuid;
  pl_ChannelID : uuid;
  pl_EnvironmentID : uuid;
  pl_ProcessSnapshotID : option uuid;
  pl_VariableSnapshotID : option uuid;
  pl_ReleaseContract : option ReleaseContract;
  pl_Status : DeploymentPlanStatus;
  pl_CanonicalChecksum : string;
  pl_CanonicalPayload : string;
  pl_Targets : list DeploymentPlanTarget;
  pl_TargetComponents : list DeploymentPlanTargetComponent;
  pl_Steps : list DeploymentPlanStep;
  pl_Variables : list DeploymentPlanVariable;
  pl_Issues : list DeploymentPlanIssue;
}.

Definition with_header (status : DeploymentPlanStatus) (checksum payload : string) (p : DeploymentPlan) : DeploymentPlan :=
  {| pl_ID := pl_ID p; pl_OrganizationID := pl_OrganizationID p; pl_ApplicationID := pl_ApplicationID p;
     pl_ReleaseBundleID := pl_ReleaseBundleID p; pl_ChannelID := pl_ChannelID p;
     pl_EnvironmentID := pl_EnvironmentID p; pl_ProcessSnapshotID := pl_ProcessSnapshotID p;
     pl_VariableSnapshotID := pl_VariableSnapshotID p; pl_ReleaseContract := pl_ReleaseContract p;
     pl_Status := status; pl_CanonicalChecksum := checksum; pl_CanonicalPayload := payload;
     pl_Targets := pl_Targets p; pl_TargetComponents := pl_TargetComponents p; pl_Steps := pl_Steps p;
     pl_Variables := pl_Variables p; pl_Issues := pl_Issues p |}.

Definition with_lists (targets : list DeploymentPlanTarget) (components : list DeploymentPlanTargetComponent)
    (steps : list DeploymentPlanStep) (variables : list DeploymentPlanVariable) (issues : list DeploymentPlanIssue)
    (p : DeploymentPlan) : DeploymentPlan :=
  {| pl_ID := pl_ID p; pl_OrganizationID := pl_OrganizationID p; pl_ApplicationID := pl_ApplicationID p;
     pl_ReleaseBundleID := pl_ReleaseBundleID p; pl_ChannelID := pl_ChannelID p;
     pl_EnvironmentID := pl_EnvironmentID p; pl_ProcessSnapshotID := pl_ProcessSnapshotID p;
     pl_VariableSnapshotID := pl_VariableSnapshotID p; pl_ReleaseContract := pl_ReleaseContract p;
     pl_Status := pl_Status p; pl_CanonicalChecksum := pl_CanonicalChecksum p;
     pl_CanonicalPayload := pl_CanonicalPayload p;
     pl_Targets := targets; pl_TargetComponents := components; pl_Steps := steps;
     pl_Variables := variables; pl_Issues := issues |}.

(** ** The tables that are read *)

Record DeploymentTargetRow := {
  trow_ID : uuid; trow_OrganizationID : uuid; trow_Name : string; trow_Type : string; trow_Platform : string;
  trow_CustomerOrganizationID : option uuid }.
Record ReleaseBundleRow := {
  brow_ID : uuid; brow_OrganizationID : uuid; brow_ApplicationID : uuid; brow_ChannelID : uuid;
  brow_Status : ReleaseBundleStatus; brow_ProcessSnapshotID : option uuid; brow_VariableSnapshotID : option uuid;
  brow_ReleaseContract : option ReleaseContract }.
Record ChannelRow := { crow_ID : uuid; crow_OrganizationID : uuid; crow_LifecycleID : uuid }.
(** A life cycle with its phases. *)
Record LifecyclePhases := {
  lrow_ID : uuid; lrow_OrganizationID : uuid; lrow_Phases : list LifecyclePhase }.
(** [None]: the payload cannot be decoded. *)
Record ProcessSnapshot := {
  psn_ID : uuid; psn_OrganizationID : uuid; psn_ApplicationID : uuid;
  psn_Steps : option (list DeploymentProcessStep) }.
Inductive VariableSnapshotResolutionMode := ResolutionModeLegacy | ResolutionModeTarget.
Record VariableSnapshotResolution := {
  vsn_ResolutionMode : VariableSnapshotResolutionMode;
  vsn_Variables : list types_Variable;
  vsn_Values : list ResolvedVariable }.
Record VariableSnapshot := {
  vsn_ID : uuid; vsn_OrganizationID : uuid; vsn_ApplicationID : uuid; vsn_ChannelID : uuid;
  vsn_Resolution : option VariableSnapshotResolution }.
(** The actions of a report with their versions. *)
Record AgentCapabilityReport := {
  acr_OrganizationID : uuid; acr_DeploymentTargetID : uuid; acr_SupportedActions : list (string * list string) }.

(** [LiveOrganizations] are those that are not deleted. The rows of plans keep
    their parts in tables of their own. *)
Record pldb := {
  LiveOrganizations : list uuid;
  TargetRows : list DeploymentTargetRow;
  BundleRows : list ReleaseBundleRow;
  EnvironmentRows : list (uuid * uuid);
  ChannelRows : list ChannelRow;
  LifecycleRows : list LifecyclePhases;
  StateRows : list TargetComponentState;
  ProcessSnapshotRows : list ProcessSnapshot;
  VariableSnapshotRows : list VariableSnapshot;
  CapabilityReports : list AgentCapabilityReport;
  PlanRows : list DeploymentPlan;
  PlanTargetRows : list DeploymentPlanTarget;
  PlanComponentRows : list DeploymentPlanTargetComponent;
  PlanStepRows : list DeploymentPlanStep;
  PlanVariableRows : list DeploymentPlanVariable;
  PlanIssueRows : list DeploymentPlanIssue;
}.

(** The generated keys. *)
Record plenv := {
  new_plan_id : uuid;
  new_target_id : nat -> uuid;
  new_component_id : nat -> uuid;
  new_planstep_id : nat -> uuid;
  new_variable_id : nat -> uuid;
  new_issue_id : nat -> uuid;
}.

Definition find_row {A} (cond : A -> bool) (l : list A) : result apierror A :=
  match select_where cond l with x :: _ => Ok x | [] => Err NotFound end.

Definition GetReleaseBundle (id org : uuid) (s : pldb) : result apierror ReleaseBundleRow :=
  find_row (λ b, bool_decide (brow_ID b = id) && bool_decide (brow_OrganizationID b = org)) (BundleRows s).
Definition GetEnvironment (id org : uuid) (s : pldb) : result apierror (uuid * uuid) :=
  find_row (λ e, bool_decide (e = (id, org))) (EnvironmentRows s).
Definition getChannel (id org : uuid) (s : pldb) : result apierror ChannelRow :=
  find_row (λ c, bool_decide (crow_ID c = id) && bool_decide (crow_OrganizationID c = org)) (ChannelRows s).
Definition GetLifecycle (id org : uuid) (s : pldb) : result apierror LifecyclePhases :=
  find_row (λ l, bool_decide (lrow_ID l = id) && bool_decide (lrow_OrganizationID l = org)) (LifecycleRows s).

Definition GetReleaseBundleEligibility (releaseBundleID environmentID org : uuid) (s : pldb)
    : result apierror EligibilityResult :=
  GetReleaseBundle releaseBundleID org s ≫= λ bundle,
  GetEnvironment environmentID org s ≫= λ _,
  getChannel (brow_ChannelID bundle) org s ≫= λ channel,
  GetLifecycle (crow_LifecycleID channel) org s ≫= λ lifecycle,
  Ok (Explain {|
    req_ReleaseBundle := {| rb_ID := brow_ID bundle; rb_ApplicationID := brow_ApplicationID bundle;
                            rb_ChannelID := brow_ChannelID bundle; rb_Status := brow_Status bundle |};
    req_ChannelLifecycleID := crow_LifecycleID channel; req_LifecycleID := lrow_ID lifecycle;
    req_Phases := lrow_Phases lifecycle; req_EnvironmentID := environmentID |}).

Definition GetTargetComponentState (org target application : uuid) (component : string) (s : pldb)
    : result apierror TargetComponentState :=
  find_row (λ c, bool_decide (cs_OrganizationID c = org) && bool_decide (cs_DeploymentTargetID c = target)
    && bool_decide (cs_ApplicationID c = application) && bool_decide (cs_Component c = component)) (StateRows s).

Definition GetProcessSnapshot (id org : uuid) (s : pldb) : result apierror (list DeploymentProcessStep) :=
  find_row (λ p, bool_decide (psn_ID p = id) && bool_decide (psn_OrganizationID p = org)) (ProcessSnapshotRows s)
    ≫= λ p,
  match psn_Steps p with Some steps => Ok steps | None => Err (Internal "could not decode ProcessSnapshot payload") end.

Definition GetVariableSnapshot (id org : uuid) (s : pldb) : result apierror VariableSnapshotResolution :=
  find_row (λ v, bool_decide (vsn_ID v = id) && bool_decide (vsn_OrganizationID v = org)) (VariableSnapshotRows s)
    ≫= λ v,
  match vsn_Resolution v with
  | Some r => Ok r
  | None => Err (Internal "could not decode VariableSnapshot resolution data")
  end.

(** The reports by target; a query that fails is not modelled. *)
Definition getAgentCapabilityReportsForDeploymentTargets (org : uuid) (targets : list uuid) (s : pldb)
    : result apierror (uuid -> option AgentCapabilityReport) :=
  Ok (λ target, last (select_where (λ r, bool_decide (acr_OrganizationID r = org)
        && contains targets (acr_DeploymentTargetID r) && bool_decide (acr_DeploymentTargetID r = target))
      (CapabilityReports s))).

Definition agentCapabilitySupportsAction (report : AgentCapabilityReport) (actionType actionVersion : string) : bool :=
  existsb (λ '(t, versions), bool_decide (t = actionType) && contains versions actionVersion) (acr_SupportedActions report).

Definition AgentActionVersionV1 : string := "1".

(** ** The request *)

Fixpoint check_targets (seen : list uuid) (l : list uuid) : result apierror unit :=
  match l with
  | [] => Ok tt
  | targetID :: l =>
      if is_nil targetID then Err (BadRequest "targetIds must not contain empty IDs") else
      if contains seen targetID then Err (BadRequest "targetIds must be unique") else
      check_targets (targetID :: seen) l
  end.

Definition validateDeploymentPlanRequest (r : CreateDeploymentPlanRequest) : result apierror unit :=
  fail_if (is_nil (cr_OrganizationID r)) (BadRequest "organizationId is required") ≫= λ _,
  fail_if (is_nil (cr_ReleaseBundleID r)) (BadRequest "releaseBundleId is required") ≫= λ _,
  fail_if (is_nil (cr_EnvironmentID r)) (BadRequest "environmentId is required") ≫= λ _,
  fail_if (bool_decide (length (cr_TargetIDs r) = 0)) (BadRequest "at least one targetId is required") ≫= λ _,
  check_targets [] (cr_TargetIDs r).

(** ** Issues *)

Definition addDeploymentPlanIssue (severity : DeploymentPlanIssueSeverity) (code field message : string)
    (p : DeploymentPlan) : DeploymentPlan :=
  with_lists (pl_Targets p) (pl_TargetComponents p) (pl_Steps p) (pl_Variables p)
    (pl_Issues p ++
      [{| iss_ID := Nil; iss_DeploymentPlanID := Nil; iss_OrganizationID := pl_OrganizationID p;
          iss_Severity := severity; iss_Code := code; iss_Field := field; iss_Message := message;
          iss_SortOrder := (Z.of_nat (length (pl_Issues p)) + 1) * 10 |}]) p.

Definition addBlocker : string -> string -> string -> DeploymentPlan -> DeploymentPlan :=
  addDeploymentPlanIssue SeverityBlocker.

Definition deploymentPlanHasBlockers (issues : list DeploymentPlanIssue) : bool :=
  existsb (λ i, bool_decide (iss_Severity i = SeverityBlocker)) issues.

(** [if cond { addDeploymentPlanIssue(...) }] *)
Definition block_if (cond : bool) (code field message : string) (p : DeploymentPlan) : DeploymentPlan :=
  if cond then addBlocker code field message p else p.

(** ** Eligibility *)

Definition reason_code_string (c : EligibilityReasonCode) : string :=
  match c with
  | EligibilityReasonReleaseNotPublished => "release_not_published"
  | EligibilityReasonReleaseBlocked => "release_blocked"
  | EligibilityReasonReleaseArchived => "release_archived"
  | EligibilityReasonEnvironmentNotInLifecycle => "environment_not_in_lifecycle"
  | EligibilityReasonRequiredPriorPhaseIncomplete => "required_prior_phase_incomplete"
  | EligibilityReasonApprovalRequired => "approval_required"
  | EligibilityReasonChannelLifecycleMismatch => "channel_lifecycle_mismatch"
  end.

Definition addDeploymentPlanEligibilityBlockers (s : pldb) (p : DeploymentPlan) : DeploymentPlan :=
  match GetReleaseBundleEligibility (pl_ReleaseBundleID p) (pl_EnvironmentID p) (pl_OrganizationID p) s with
  | Err _ =>
      addBlocker "eligibility_unavailable" "eligibility" "lifecycle eligibility could not be resolved" p
  | Ok result =>
      foldl (λ p reason, addBlocker (reason_code_string (Lifecycle.Code reason)) (Lifecycle.Field reason)
                           (Lifecycle.Message reason) p) p (Lifecycle.Reasons result)
  end.

(** ** Steps *)

Definition step_less : DeploymentProcessStep -> DeploymentProcessStep -> bool :=
  less_then ds_SortOrder (less_str_by ds_Key).

Definition deploymentPlanStepExcludedReason (step : DeploymentProcessStep) (channelID environmentID : uuid) : string :=
  if bool_decide (0 < length (ds_ChannelIDs step)) && negb (contains (ds_ChannelIDs step) channelID)
  then "channel_scope_mismatch" else
  if bool_decide (0 < length (ds_EnvironmentIDs step)) && negb (contains (ds_EnvironmentIDs step) environmentID)
  then "environment_scope_mismatch" else "".

(** [None]: the condition is fine. *)
Definition validateDeploymentPlanStepCondition (step : DeploymentProcessStep) (stepKeys : list string) : option string :=
  match Validate (ds_Condition step) with
  | Err e => Some ("condition is invalid: " +:+ e)
  | Ok _ =>
      match OutputReferences (ds_Condition step) with
      | Err e => Some ("condition is invalid: " +:+ e)
      | Ok refs =>
          (λ ref, "condition references unknown output step " +:+ quote (StepKey ref))
            <$> head (select_where (λ ref, negb (contains stepKeys (StepKey ref))) refs)
      end
  end.

(** [err.Error()] of the errors of [apierrors]. *)
Definition error_text (e : apierror) : string :=
  match e with
  | BadRequest m => "bad request: " +:+ m
  | NotFound => "not found"
  | Conflict m => "conflict: " +:+ m
  | AlreadyExists m => m +:+ ": already exists"
  | Internal m => m
  end.

Definition plan_step (p : DeploymentPlan) (step : DeploymentProcessStep) : DeploymentPlanStep :=
  let excludedReason := deploymentPlanStepExcludedReason step (pl_ChannelID p) (pl_EnvironmentID p) in
  {| st_ID := Nil; st_DeploymentPlanID := Nil; st_OrganizationID := pl_OrganizationID p;
     st_StepKey := ds_Key step; st_Name := ds_Name step; st_ActionType := ds_ActionType step;
     st_ActionName := default "" (Get (ds_ActionType step)); st_ExecutionLocation := ds_ExecutionLocation step;
     st_InputBindings := default [] (ds_InputBindings step); st_Condition := ds_Condition step;
     st_TargetTags := ds_TargetTags step; st_FailureMode := ds_FailureMode step;
     st_TimeoutSeconds := ds_TimeoutSeconds step; st_RetryMaxAttempts := ds_RetryMaxAttempts step;
     st_RetryIntervalSeconds := ds_RetryIntervalSeconds step; st_RequiredPermissions := ds_RequiredPermissions step;
     st_SortOrder := ds_SortOrder step; st_Dependencies := ds_Dependencies step;
     st_Included := bool_decide (excludedReason = ""); st_ExcludedReason := excludedReason |}.

Definition append_step (step : DeploymentPlanStep) (p : DeploymentPlan) : DeploymentPlan :=
  with_lists (pl_Targets p) (pl_TargetComponents p) (pl_Steps p ++ [step]) (pl_Variables p) (pl_Issues p) p.

Section steps.
Context `{SchemaValidator}.

Definition check_action (step : DeploymentProcessStep) (p : DeploymentPlan) : DeploymentPlan :=
  match Get (ds_ActionType step) with
  | None =>
      addBlocker "unknown_action_type" ("steps." +:+ ds_Key step +:+ ".actionType")
        ("action type " +:+ quote (ds_ActionType step) +:+ " is not registered") p
  | Some _ =>
      match ValidateInput (ds_ActionType step) (ds_InputBindings step) with
      | Err e => addBlocker "invalid_action_input" ("steps." +:+ ds_Key step +:+ ".inputBindings") (error_text e) p
      | Ok _ => p
      end
  end.

Definition check_condition (step : DeploymentProcessStep) (stepKeys : list string) (p : DeploymentPlan) : DeploymentPlan :=
  match validateDeploymentPlanStepCondition step stepKeys with
  | Some message => addBlocker "invalid_step_condition" ("steps." +:+ ds_Key step +:+ ".condition") message p
  | None => p
  end.

(** The body of the loop, with the number of steps included so far. *)
Definition add_step (stepKeys : list string) (acc : DeploymentPlan * nat) (step : DeploymentProcessStep)
    : DeploymentPlan * nat :=
  let '(p, includedCount) := acc in
  let p := check_condition step stepKeys (check_action step p) in
  let planned := plan_step p step in
  (append_step planned p, if st_Included planned then S includedCount else includedCount).

Definition addDeploymentPlanSteps (p : DeploymentPlan) (snapshot : list DeploymentProcessStep) : DeploymentPlan :=
  let steps := stable_sort step_less snapshot in
  let '(p, includedCount) := foldl (add_step (ds_Key <$> steps)) (p, 0) steps in
  block_if (bool_decide (0 < length steps) && bool_decide (includedCount = 0)) "no_applicable_steps" "steps"
    "process snapshot has no steps applicable to the selected channel and environment" p.
End steps.

(** ** Variables *)

Definition cloneRawMessage (value : option string) : option string :=
  if bool_decide (default "" value = "") then None else value.

Definition with_value (value : option string) (v : ResolvedVariable) : ResolvedVariable :=
  {| rv_VariableSetID := rv_VariableSetID v; rv_VariableID := rv_VariableID v; rv_Key := rv_Key v;
     rv_Type := rv_Type v; rv_IsRequired := rv_IsRequired v; rv_Status := rv_Status v; rv_Source := rv_Source v;
     rv_Value := value; rv_ReferenceID := rv_ReferenceID v; rv_ReferenceName := rv_ReferenceName v;
     rv_Redacted := rv_Redacted v; rv_Trace := rv_Trace v |}.

Definition plan_variable (p : DeploymentPlan) (v : ResolvedVariable) : DeploymentPlanVariable :=
  {| vr_ID := Nil; vr_DeploymentPlanID := Nil; vr_OrganizationID := pl_OrganizationID p;
     vr_Variable := with_value (cloneRawMessage (rv_Value v)) v |}.

Definition append_variable (v : DeploymentPlanVariable) (p : DeploymentPlan) : DeploymentPlan :=
  with_lists (pl_Targets p) (pl_TargetComponents p) (pl_Steps p) (pl_Variables p ++ [v]) (pl_Issues p) p.

Definition unresolved_required (v : ResolvedVariable) : bool :=
  rv_IsRequired v && match rv_Status v with VariableResolutionStatusUnresolved => true | _ => false end.

Definition add_variable (p : DeploymentPlan) (v : ResolvedVariable) : DeploymentPlan :=
  block_if (unresolved_required v) "required_variable_unresolved" ("variables." +:+ rv_Key v)
    ("required variable " +:+ quote (rv_Key v) +:+ " is unresolved") (append_variable (plan_variable p v) p).

Definition addDeploymentPlanResolvedVariables (p : DeploymentPlan) (values : list ResolvedVariable) : DeploymentPlan :=
  foldl add_variable p (stable_sort variable_less values).

(** The same loop over the values of a snapshot. *)
Definition addDeploymentPlanVariables (p : DeploymentPlan) (snapshot : VariableSnapshotResolution) : DeploymentPlan :=
  addDeploymentPlanResolvedVariables p (vsn_Values snapshot).

(** *** Values resolved for the targets of the plan *)

Definition variables_json (l : list ResolvedVariable) : option string := json_list <$> mapM variable_json l.

Definition deploymentPlanResolvedVariablesEqual (left right : list ResolvedVariable) : bool :=
  match variables_json left, variables_json right with
  | Some l, Some r => bool_decide (l = r)
  | _, _ => false
  end.

Definition target_request (p : DeploymentPlan) (variables : list types_Variable) (t : DeploymentPlanTarget) : Request :=
  {| rq_Variables := variables;
     rq_Scope := {| rs_CustomerOrganizationID := dt_CustomerOrganizationID t; rs_EnvironmentID := Some (pl_EnvironmentID p);
                    rs_ChannelID := Some (pl_ChannelID p); rs_DeploymentTargetID := Some (dt_DeploymentTargetID t);
                    rs_ApplicationID := Some (pl_ApplicationID p); rs_TargetTags := []; rs_ProcessStepKey := "" |};
     rq_PromptedValues := [] |}.

(** The loop over the targets; [resolvedForPlan] is nil before the first. *)
Fixpoint resolve_targets (p : DeploymentPlan) (variables : list types_Variable)
    (resolvedForPlan : option (list ResolvedVariable)) (targets : list DeploymentPlanTarget) : DeploymentPlan :=
  match targets with
  | [] => addDeploymentPlanResolvedVariables p (default [] resolvedForPlan)
  | t :: targets =>
      match Resolve (target_request p variables t) with
      | Err _ =>
          addBlocker "variable_snapshot_resolution_failed" "variables"
            "immutable variable candidates could not be resolved for the selected target" p
      | Ok resolved =>
          match resolvedForPlan with
          | None => resolve_targets p variables (Some resolved) targets
          | Some first =>
              if deploymentPlanResolvedVariablesEqual first resolved
              then resolve_targets p variables (Some first) targets
              else addBlocker "target_scoped_variables_require_separate_plans" "targets"
                     "selected targets resolve different variable values; create one immutable plan per target" p
          end
      end
  end.

Definition addDeploymentPlanTargetResolvedVariables (p : DeploymentPlan) (variables : list types_Variable) : DeploymentPlan :=
  resolve_targets p variables None (pl_Targets p).

(** ** The snapshots *)

Section snapshots.
Context `{SchemaValidator}.

Definition add_process_snapshot (s : pldb) (p : DeploymentPlan) : DeploymentPlan :=
  match pl_ProcessSnapshotID p with
  | None =>
      addBlocker "missing_process_snapshot" "processSnapshotId" "release bundle has no immutable process snapshot" p
  | Some id =>
      match GetProcessSnapshot id (pl_OrganizationID p) s with
      | Err _ =>
          addBlocker "process_snapshot_unavailable" "processSnapshotId" "process snapshot could not be resolved" p
      | Ok snapshot => addDeploymentPlanSteps p snapshot
      end
  end.

Definition add_variable_snapshot (s : pldb) (p : DeploymentPlan) : DeploymentPlan :=
  match pl_VariableSnapshotID p with
  | None =>
      addBlocker "missing_variable_snapshot" "variableSnapshotId" "release bundle has no immutable variable snapshot" p
  | Some id =>
      match GetVariableSnapshot id (pl_OrganizationID p) s with
      | Err _ =>
          addBlocker "variable_snapshot_unavailable" "variableSnapshotId" "variable snapshot could not be resolved" p
      | Ok snapshot =>
          match vsn_ResolutionMode snapshot with
          | ResolutionModeTarget => addDeploymentPlanTargetResolvedVariables p (vsn_Variables snapshot)
          | ResolutionModeLegacy => addDeploymentPlanVariables p snapshot
          end
      end
  end.

Definition addDeploymentPlanSnapshotData (s : pldb) (p : DeploymentPlan) : DeploymentPlan :=
  add_variable_snapshot s (add_process_snapshot s p).
End snapshots.

(** ** The release contract, the platforms and the agents *)

Definition hub_webhook (step : DeploymentPlanStep) : bool :=
  st_Included step && EqualFold (TrimSpace (st_ExecutionLocation step)) "hub"
  && bool_decide (st_ActionType step = "distr.webhook").

Definition addDeploymentPlanReleaseContractIssues (bundle : ReleaseBundleRow) (p : DeploymentPlan) : DeploymentPlan :=
  block_if (existsb hub_webhook (pl_Steps p) && match brow_ReleaseContract bundle with None => true | _ => false end)
    "missing_release_contract" "releaseContract" "Hub webhook deployment requires an immutable release contract" p.

(** [targets[id]]; the target of a component is always found. *)
Definition target_of (p : DeploymentPlan) (id : uuid) : string * string :=
  default ("", "") ((λ t, (dt_Name t, dt_Platform t))
    <$> last (select_where (λ t, bool_decide (dt_ID t = id)) (pl_Targets p))).

Definition check_platform (p : DeploymentPlan) (c : DeploymentPlanTargetComponent) : DeploymentPlan :=
  let '(name, platform) := target_of p (tc_DeploymentPlanTargetID c) in
  block_if (negb (bool_decide (platform = tc_Platform c))) "target_platform_mismatch"
    ("targets." +:+ name +:+ ".platform")
    ("target " +:+ quote name +:+ " is " +:+ platform +:+ " but component " +:+ quote (tc_Component c)
       +:+ " requires " +:+ tc_Platform c) p.

Definition addDeploymentPlanTargetPlatformIssues (p : DeploymentPlan) : DeploymentPlan :=
  foldl check_platform p (pl_TargetComponents p).

Definition deploymentPlanStepRunsOnTarget (step : DeploymentPlanStep) : bool :=
  EqualFold (TrimSpace (st_ExecutionLocation step)) "target".

Definition check_support (t : DeploymentPlanTarget) (report : AgentCapabilityReport) (p : DeploymentPlan)
    (step : DeploymentPlanStep) : DeploymentPlan :=
  block_if (negb (agentCapabilitySupportsAction report (st_ActionType step) AgentActionVersionV1))
    "agent_action_unsupported"
    ("targets." +:+ uuid_string (dt_DeploymentTargetID t) +:+ ".steps." +:+ st_StepKey step +:+ ".actionType")
    ("deployment target " +:+ quote (dt_Name t) +:+ " does not support action " +:+ quote (st_ActionType step)
       +:+ " version " +:+ quote AgentActionVersionV1) p.

Definition addDeploymentPlanAgentCapabilityIssues (s : pldb) (p : DeploymentPlan) : DeploymentPlan :=
  let includedSteps := List.filter (λ step, st_Included step && deploymentPlanStepRunsOnTarget step) (pl_Steps p) in
  if bool_decide (length includedSteps = 0) || bool_decide (length (pl_Targets p) = 0) then p else
  match getAgentCapabilityReportsForDeploymentTargets (pl_OrganizationID p) (dt_DeploymentTargetID <$> pl_Targets p) s with
  | Err _ =>
      addBlocker "agent_capabilities_unavailable" "agentCapabilities" "agent capability reports could not be resolved" p
  | Ok reports =>
      foldl (λ p t, match reports (dt_DeploymentTargetID t) with
                    | None => p
                    | Some report => foldl (check_support t report) p includedSteps
                    end) p (pl_Targets p)
  end.

(** ** The targets and their components *)

Section collation.
Context `{Collation}.

Definition target_row_less (x y : DeploymentTargetRow) : bool :=
  if bool_decide (trow_Name x = trow_Name y) then less_str_by (λ t, uuid_string (trow_ID t)) x y
  else name_less (trow_Name x) (trow_Name y).

Definition resolveDeploymentPlanTargets (env : plenv) (org : uuid) (targetIDs : list uuid) (s : pldb)
    : result apierror (list DeploymentPlanTarget) :=
  let sources := stable_sort target_row_less (select_where (λ t, contains (LiveOrganizations s) (trow_OrganizationID t)
    && bool_decide (trow_OrganizationID t = org) && contains targetIDs (trow_ID t)) (TargetRows s)) in
  if negb (bool_decide (length sources = length targetIDs)) then Err NotFound else
  Ok (imap (λ i t, {| dt_ID := new_target_id env i; dt_DeploymentPlanID := Nil; dt_OrganizationID := org;
                      dt_DeploymentTargetID := trow_ID t; dt_Name := trow_Name t; dt_Type := trow_Type t;
                      dt_Platform := trow_Platform t; dt_CustomerOrganizationID := trow_CustomerOrganizationID t;
                      dt_SortOrder := (Z.of_nat i + 1) * 10 |}) sources).
End collation.

(** [components[name]] *)
Definition contract_component (contract : ReleaseContract) (name : string) : option ReleaseContractComponent :=
  last (select_where (λ c, bool_decide (cmp_Name c = name)) (default [] (rc_Components contract))).

(** The affected components of a target that the contract has, with their indices. *)
Definition affected_components (contract : ReleaseContract) (t : DeploymentPlanTarget)
    : list (DeploymentPlanTarget * nat * ReleaseContractComponent) :=
  omap (λ '(index, name), (λ c, (t, index, c)) <$> contract_component contract name)
    (imap pair (default [] (cpt_AffectedComponents (rc_Compatibility contract)))).

Definition target_component (env : plenv) (s : pldb) (p : DeploymentPlan) (contract : ReleaseContract) (k : nat)
    (x : DeploymentPlanTarget * nat * ReleaseContractComponent) : DeploymentPlanTargetComponent :=
  let '(t, index, c) := x in
  let state := match GetTargetComponentState (pl_OrganizationID p) (dt_DeploymentTargetID t) (pl_ApplicationID p)
                       (cmp_Name c) s with Ok state => Some state | Err _ => None end in
  {| tc_ID := new_component_id env k; tc_DeploymentPlanID := pl_ID p; tc_DeploymentPlanTargetID := dt_ID t;
     tc_OrganizationID := pl_OrganizationID p; tc_DeploymentTargetID := dt_DeploymentTargetID t;
     tc_Component := cmp_Name c; tc_Version := cmp_Version c; tc_Image := cmp_Image c; tc_Platform := cmp_Platform c;
     tc_Contracts := cmp_Contracts c; tc_ConfigChecksum := cfg_ServiceConfigChecksum (rc_Config contract);
     tc_ExpectedStateVersion := default 0%Z (cs_StateVersion <$> state);
     tc_ExpectedStateChecksum := default "" (cs_StateChecksum <$> state);
     tc_ExpectedReleaseBundleID := cs_ReleaseBundleID <$> state;
     tc_SortOrder := (Z.of_nat index + 1) * 10 |}.

Definition resolveDeploymentPlanTargetComponents (env : plenv) (s : pldb) (p : DeploymentPlan) : DeploymentPlan :=
  match pl_ReleaseContract p with
  | None => p
  | Some contract =>
      with_lists (pl_Targets p)
        (pl_TargetComponents p ++
         imap (target_component env s p contract) (pl_Targets p ≫= affected_components contract))
        (pl_Steps p) (pl_Variables p) (pl_Issues p) p
  end.

(** ** The whole plan *)

(** The status is decided last. *)
Definition initial_plan (env : plenv) (r : CreateDeploymentPlanRequest) (bundle : ReleaseBundleRow)
    (targets : list DeploymentPlanTarget) : DeploymentPlan :=
  {| pl_ID := new_plan_id env; pl_OrganizationID := cr_OrganizationID r;
     pl_ApplicationID := brow_ApplicationID bundle; pl_ReleaseBundleID := brow_ID bundle;
     pl_ChannelID := brow_ChannelID bundle; pl_EnvironmentID := cr_EnvironmentID r;
     pl_ProcessSnapshotID := brow_ProcessSnapshotID bundle; pl_VariableSnapshotID := brow_VariableSnapshotID bundle;
     pl_ReleaseContract := NormalizedReleaseContract (brow_ReleaseContract bundle);
     pl_Status := DeploymentPlanStatusDraft; pl_CanonicalChecksum := ""; pl_CanonicalPayload := "";
     pl_Targets := targets; pl_TargetComponents := []; pl_Steps := []; pl_Variables := []; pl_Issues := [] |}.

Definition set_status (p : DeploymentPlan) : DeploymentPlan :=
  with_header (if deploymentPlanHasBlockers (pl_Issues p) then DeploymentPlanStatusBlocked
               else DeploymentPlanStatusReady) (pl_CanonicalChecksum p) (pl_CanonicalPayload p) p.

Section resolution.
Context `{SchemaValidator, Collation}.

Definition complete_plan (env : plenv) (s : pldb) (bundle : ReleaseBundleRow) (p : DeploymentPlan) : DeploymentPlan :=
  let p := resolveDeploymentPlanTargetComponents env s p in
  let p := addDeploymentPlanEligibilityBlockers s p in
  let p := addDeploymentPlanSnapshotData s p in
  let p := addDeploymentPlanReleaseContractIssues bundle p in
  let p := addDeploymentPlanTargetPlatformIssues p in
  let p := addDeploymentPlanAgentCapabilityIssues s p in
  let p := addDeploymentPlanIssue SeverityWarning "dry_run_not_performed" "dryRun"
    "read-only agent dry-run checks are not available in the deployment plan foundation" p in
  set_status p.

Definition resolveDeploymentPlan (env : plenv) (r : CreateDeploymentPlanRequest) (s : pldb)
    : result apierror DeploymentPlan :=
  GetReleaseBundle (cr_ReleaseBundleID r) (cr_OrganizationID r) s ≫= λ bundle,
  GetEnvironment (cr_EnvironmentID r) (cr_OrganizationID r) s ≫= λ _,
  resolveDeploymentPlanTargets env (cr_OrganizationID r) (cr_TargetIDs r) s ≫= λ targets,
  Ok (complete_plan env s bundle (initial_plan env r bundle targets)).
End resolution.
