(* ===== verification/PlanResolution.v ===== *)
(** * What a deployment plan is made of

    When a plan is ready, which steps it has and how its issues are numbered. *)
From S2P Require Import Prelude GoStrings Uuid GoJson TaskStore Transaction Lifecycle VariableResolution VariableJson StepRedaction ActionRegistry ExternalExecution DeploymentProcess Conditions ReleaseContract DeploymentPlans.
Open Scope list_scope.

(** ** The edits of a plan *)

(** Everything but the steps, the variables and the issues. *)
Definition base (p : DeploymentPlan) : DeploymentPlan := with_lists (pl_Targets p) (pl_TargetComponents p) [] [] [] p.
(** Everything but the issues. *)
Definition frame (p : DeploymentPlan) : DeploymentPlan :=
  with_lists (pl_Targets p) (pl_TargetComponents p) (pl_Steps p) (pl_Variables p) [] p.

Definition blocked (p : DeploymentPlan) : bool := deploymentPlanHasBlockers (pl_Issues p).

Definition numbered (p : DeploymentPlan) : Prop :=
  forall i x, pl_Issues p !! i = Some x -> iss_SortOrder x = ((Z.of_nat i + 1) * 10)%Z.

(** [q] has the issues of [p] and more, one of them blocking if [cond]. *)
Record adds_issues (cond : bool) (p q : DeploymentPlan) : Prop := {
  ai_frame : frame q = frame p;
  ai_blocked : blocked q = blocked p || cond;
  ai_numbered : numbered p -> numbered q;
}.

Lemma frame_base p q : frame q = frame p -> base q = base p.
Proof. intros E. exact (f_equal base E). Qed.

Lemma adds_none p : adds_issues false p p.
Proof. split; [done| |done]. by rewrite orb_false_r. Qed.

Lemma adds_trans c d p q r : adds_issues c p q -> adds_issues d q r -> adds_issues (c || d) p r.
Proof.
  intros [F1 B1 N1] [F2 B2 N2]. split; [congruence| |auto]. by rewrite B2, B1, orb_assoc.
Qed.

Lemma adds_issue severity code field message p :
  adds_issues (bool_decide (severity = SeverityBlocker)) p (addDeploymentPlanIssue severity code field message p).
Proof.
  split; [done| |].
  - unfold blocked, deploymentPlanHasBlockers. simpl. rewrite existsb_app. simpl. by rewrite orb_false_r.
  - intros Hn i x. simpl. rewrite lookup_app. destruct (pl_Issues p !! i) as [y|] eqn:E.
    + intros [= <-]. by apply Hn.
    + apply lookup_ge_None in E. rewrite list_lookup_singleton. case_match eqn:Ei; [|done].
      intros [= <-]. simpl. assert (i = length (pl_Issues p)) as -> by lia. done.
Qed.

Lemma adds_blocker code field message p : adds_issues true p (addBlocker code field message p).
Proof. apply (adds_issue SeverityBlocker). Qed.

Lemma adds_block_if c code field message p : adds_issues c p (block_if c code field message p).
Proof. destruct c; [apply adds_blocker|apply adds_none]. Qed.

(** A loop that only adds issues; the conditions may read what stays the same. *)
Lemma adds_foldl {A} (f : DeploymentPlan -> A -> DeploymentPlan) (c : A -> bool) l p :
  (forall q x, x ∈ l -> frame q = frame p -> adds_issues (c x) q (f q x)) -> adds_issues (existsb c l) p (foldl f p l).
Proof.
  revert p. induction l as [|x l IH]; intros p H; [apply adds_none|]. simpl.
  eapply adds_trans; [apply H; [by left|done]|]. apply IH. intros q y Hy E.
  apply H; [by right|]. rewrite E. apply H; [by left|done].
Qed.

(** Two plans of one frame are read alike. *)
Lemma frame_steps p q : frame q = frame p -> pl_Steps q = pl_Steps p.
Proof. intros E. exact (f_equal pl_Steps E). Qed.
Lemma frame_targets p q : frame q = frame p -> pl_Targets q = pl_Targets p.
Proof. intros E. exact (f_equal pl_Targets E). Qed.
Lemma frame_components p q : frame q = frame p -> pl_TargetComponents q = pl_TargetComponents p.
Proof. intros E. exact (f_equal pl_TargetComponents E). Qed.
Lemma base_eq {A} (f : DeploymentPlan -> A) p q : (forall p, f (base p) = f p) -> base q = base p -> f q = f p.
Proof. intros Hf E. by rewrite <- (Hf q), E, Hf. Qed.

(** ** The steps *)

(** The scope of a step: no list of channels or environments, or one that names it. *)
Definition in_scope (channel environment : uuid) (step : DeploymentProcessStep) : bool :=
  (bool_decide (ds_ChannelIDs step = []) || contains (ds_ChannelIDs step) channel)
  && (bool_decide (ds_EnvironmentIDs step = []) || contains (ds_EnvironmentIDs step) environment).

Lemma nonempty_length {A} `{EqDecision A} (l : list A) : bool_decide (0 < length l) = negb (bool_decide (l = [])).
Proof. destruct l; [done|]. rewrite (bool_decide_eq_false_2 (_ :: _ = [])) by done. by apply bool_decide_eq_true; simpl; lia. Qed.

Lemma excluded_reason_scope step channel environment :
  bool_decide (deploymentPlanStepExcludedReason step channel environment = "") = in_scope channel environment step.
Proof.
  unfold deploymentPlanStepExcludedReason, in_scope. rewrite !nonempty_length.
  destruct (bool_decide (ds_ChannelIDs step = [])), (bool_decide (ds_EnvironmentIDs step = [])),
    (contains (ds_ChannelIDs step) channel), (contains (ds_EnvironmentIDs step) environment); reflexivity.
Qed.

Section steps.
Context `{SchemaValidator}.

Definition action_valid (step : DeploymentProcessStep) : bool :=
  match Get (ds_ActionType step), ValidateInput (ds_ActionType step) (ds_InputBindings step) with
  | Some _, Ok _ => true
  | _, _ => false
  end.

(** The condition of a step parses, and an output it refers to is one of a step of the process. *)
Definition condition_valid (keys : list string) (step : DeploymentProcessStep) : bool :=
  match parse (ds_Condition step) with
  | Err _ => false
  | Ok (ExpressionCompare (LeftOutput ref) _ _) => contains keys (StepKey ref)
  | Ok _ => true
  end.

Lemma adds_check_action step p : adds_issues (negb (action_valid step)) p (check_action step p).
Proof.
  unfold check_action, action_valid. destruct (Get (ds_ActionType step)); [|apply adds_blocker].
  destruct (ValidateInput _ _); [apply adds_none|apply adds_blocker].
Qed.

Lemma condition_message step keys :
  match validateDeploymentPlanStepCondition step keys with Some _ => true | None => false end
  = negb (condition_valid keys step).
Proof.
  unfold validateDeploymentPlanStepCondition, condition_valid, Validate, OutputReferences.
  destruct (parse (ds_Condition step)) as [[| | | | |[| |ref] o v]|]; [done..| |done].
  simpl. by destruct (contains keys (StepKey ref)).
Qed.

Lemma adds_check_condition step keys p : adds_issues (negb (condition_valid keys step)) p (check_condition step keys p).
Proof.
  rewrite <- condition_message. unfold check_condition.
  destruct (validateDeploymentPlanStepCondition step keys); [apply adds_blocker|apply adds_none].
Qed.

Definition step_valid (keys : list string) (step : DeploymentProcessStep) : bool :=
  action_valid step && condition_valid keys step.

Lemma plan_step_base p q step : base q = base p -> plan_step q step = plan_step p step.
Proof.
  intros E. unfold plan_step. rewrite (base_eq pl_OrganizationID q p), (base_eq pl_ChannelID q p),
    (base_eq pl_EnvironmentID q p); done.
Qed.

(** The plan with [steps] appended. *)
Record adds_steps (cond : bool) (steps : list DeploymentPlanStep) (p q : DeploymentPlan) : Prop := {
  as_frame : frame q = with_lists (pl_Targets p) (pl_TargetComponents p) (pl_Steps p ++ steps) (pl_Variables p) [] p;
  as_blocked : blocked q = blocked p || cond;
  as_numbered : numbered p -> numbered q;
}.

Lemma adds_loop keys l p n :
  let '(q, m) := foldl (add_step keys) (p, n) l in
  adds_steps (existsb (λ s, negb (step_valid keys s)) l) (plan_step p <$> l) p q
  /\ m = n + count (in_scope (pl_ChannelID p) (pl_EnvironmentID p)) l.
Proof.
  revert p n. induction l as [|s l IH]; intros p n; simpl.
  { split; [split; [by rewrite app_nil_r|by rewrite orb_false_r|done]|]. unfold count. simpl. lia. }
  change (list_fmap _ _ (plan_step p) l) with (plan_step p <$> l).
  set (p1 := check_condition s keys (check_action s p)).
  assert (adds_issues (negb (step_valid keys s)) p p1) as [F1 B1 N1].
  { unfold step_valid. rewrite negb_andb.
    eapply adds_trans; [apply adds_check_action|apply adds_check_condition]. }
  assert (base p1 = base p) as Eb by by apply frame_base.
  rewrite (plan_step_base p p1 s Eb).
  rewrite (base_eq pl_ChannelID p p1), (base_eq pl_EnvironmentID p p1), excluded_reason_scope by done.
  specialize (IH (append_step (plan_step p s) p1) (if in_scope (pl_ChannelID p) (pl_EnvironmentID p) s then S n else n)).
  destruct (foldl _ _ _) as [q m]. destruct IH as [[F2 B2 N2] ->].
  split; [split|].
  - rewrite F2. simpl. rewrite (frame_steps p p1 F1), (frame_targets p p1 F1), (frame_components p p1 F1), <- app_assoc.
    pose proof (f_equal pl_Variables F1) as Ev. simpl in Ev. rewrite Ev. simpl.
    assert (plan_step (append_step (plan_step p s) p1) <$> l = plan_step p <$> l) as ->.
    { apply list_fmap_ext. intros i x _. by apply plan_step_base. }
    exact (f_equal (with_lists _ _ _ _ _) F1).
  - rewrite B2. change (blocked (append_step _ p1)) with (blocked p1). by rewrite B1, orb_assoc.
  - intros Hn. by apply N2, N1.
  - rewrite count_cons. change (pl_ChannelID (append_step _ p1)) with (pl_ChannelID p1).
    change (pl_EnvironmentID (append_step _ p1)) with (pl_EnvironmentID p1).
    rewrite (base_eq pl_ChannelID p p1), (base_eq pl_EnvironmentID p p1) by done.
    destruct (in_scope _ _ s); lia.
Qed.

(** The steps of the snapshot in the order of the plan. *)
Definition ordered_steps (snapshot : list DeploymentProcessStep) : list DeploymentProcessStep :=
  stable_sort step_less snapshot.

Definition steps_fine (channel environment : uuid) (snapshot : list DeploymentProcessStep) : bool :=
  forallb (step_valid (ds_Key <$> ordered_steps snapshot)) (ordered_steps snapshot)
  && (bool_decide (length snapshot = 0) || existsb (in_scope channel environment) (ordered_steps snapshot)).

Lemma count_positive {A} (f : A -> bool) l : bool_decide (count f l = 0) = negb (existsb f l).
Proof.
  induction l as [|x l IH]; [done|]. rewrite count_cons. simpl. destruct (f x); [by apply bool_decide_eq_false|done].
Qed.

Lemma existsb_negb {A} (f : A -> bool) l : existsb (λ x, negb (f x)) l = negb (forallb f l).
Proof. induction l as [|x l IH]; [done|]. simpl. rewrite IH. by destruct (f x). Qed.

Lemma adds_snapshot_steps p snapshot :
  adds_steps (negb (steps_fine (pl_ChannelID p) (pl_EnvironmentID p) snapshot))
    (plan_step p <$> ordered_steps snapshot) p (addDeploymentPlanSteps p snapshot).
Proof.
  unfold addDeploymentPlanSteps, steps_fine, ordered_steps.
  pose proof (adds_loop (ds_Key <$> stable_sort step_less snapshot) (stable_sort step_less snapshot) p 0) as Hl.
  destruct (foldl _ _ _) as [q m]. destruct Hl as [[F B N] ->]. rewrite Nat.add_0_l, count_positive, length_stable_sort.
  set (c := bool_decide (0 < length snapshot) && negb (existsb (in_scope (pl_ChannelID p) (pl_EnvironmentID p)) (stable_sort step_less snapshot))).
  destruct (adds_block_if c "no_applicable_steps" "steps"
    "process snapshot has no steps applicable to the selected channel and environment" q) as [F' B' N'].
  split; [by rewrite F'| |auto]. rewrite B', B, existsb_negb, <- orb_assoc. f_equal. unfold c.
  rewrite negb_andb, negb_orb, <- bool_decide_not. f_equal. f_equal. apply bool_decide_ext. lia.
Qed.
End steps.

(** ** The variables *)

Record adds_variables (cond : bool) (vars : list DeploymentPlanVariable) (p q : DeploymentPlan) : Prop := {
  av_frame : frame q = with_lists (pl_Targets p) (pl_TargetComponents p) (pl_Steps p) (pl_Variables p ++ vars) [] p;
  av_blocked : blocked q = blocked p || cond;
  av_numbered : numbered p -> numbered q;
}.

Lemma adds_no_variables c p q : adds_issues c p q -> adds_variables c [] p q.
Proof. intros [F B N]. split; [by rewrite app_nil_r|done..]. Qed.

Lemma plan_variable_base p q v : base q = base p -> plan_variable q v = plan_variable p v.
Proof. intros E. unfold plan_variable. by rewrite (base_eq pl_OrganizationID p q). Qed.

Lemma adds_variable_loop l p : adds_variables (existsb unresolved_required l) (plan_variable p <$> l) p (foldl add_variable p l).
Proof.
  revert p. induction l as [|v l IH]; intros p; simpl.
  { split; [by rewrite app_nil_r|by rewrite orb_false_r|done]. }
  change (list_fmap _ _ (plan_variable p) l) with (plan_variable p <$> l).
  unfold add_variable at 2.
  set (p1 := append_variable (plan_variable p v) p). 
  destruct (adds_block_if (unresolved_required v) "required_variable_unresolved" ("variables." +:+ rv_Key v)
    ("required variable " +:+ quote (rv_Key v) +:+ " is unresolved") p1) as [F1 B1 N1].
  set (p2 := block_if _ _ _ _ p1) in *. destruct (IH p2) as [F2 B2 N2].
  assert (base p2 = base p) as Eb by exact (frame_base _ _ F1).
  split.
  - rewrite F2. rewrite (frame_steps _ _ F1), (frame_targets _ _ F1), (frame_components _ _ F1).
    pose proof (f_equal pl_Variables F1) as Ev. simpl in Ev. rewrite Ev, <- app_assoc.
    assert (plan_variable p2 <$> l = plan_variable p <$> l) as ->.
    { apply list_fmap_ext. intros i x _. by apply plan_variable_base. }
    exact (f_equal (with_lists _ _ _ _ _) F1).
  - rewrite B2, B1. change (blocked p1) with (blocked p). by rewrite orb_assoc.
  - intros Hn. by apply N2, N1.
Qed.

Lemma existsb_stable_sort {A} (less : A -> A -> bool) (f : A -> bool) l : existsb f (stable_sort less l) = existsb f l.
Proof.
  apply eq_true_iff_eq. rewrite !(exists_where_true f). by setoid_rewrite elem_of_stable_sort.
Qed.

Lemma adds_values p values :
  adds_variables (existsb unresolved_required values) (plan_variable p <$> stable_sort variable_less values) p
    (addDeploymentPlanResolvedVariables p values).
Proof. rewrite <- (existsb_stable_sort variable_less). apply adds_variable_loop. Qed.

(** The values on which all targets agree. *)
Definition target_values (p : DeploymentPlan) (variables : list types_Variable) (t : DeploymentPlanTarget)
    : list ResolvedVariable :=
  (λ v, resolveVariable v (rq_Scope (target_request p variables t)) None) <$> variables.

Definition agreed_values (p : DeploymentPlan) (variables : list types_Variable) (targets : list DeploymentPlanTarget)
    : option (list ResolvedVariable) :=
  match target_values p variables <$> targets with
  | [] => Some []
  | first :: rest => if forallb (deploymentPlanResolvedVariablesEqual first) rest then Some first else None
  end.

Lemma Resolve_target p variables t : Resolve (target_request p variables t) = Ok (target_values p variables t).
Proof. done. Qed.

Lemma resolve_rest p variables first targets :
  if forallb (deploymentPlanResolvedVariablesEqual first) (target_values p variables <$> targets)
  then resolve_targets p variables (Some first) targets = addDeploymentPlanResolvedVariables p first
  else adds_issues true p (resolve_targets p variables (Some first) targets).
Proof.
  induction targets as [|t targets IH]; [done|]. cbn [resolve_targets fmap list_fmap forallb].
  rewrite Resolve_target. destruct (deploymentPlanResolvedVariablesEqual first _); [exact IH|]. apply adds_blocker.
Qed.

Lemma adds_target_values p variables :
  exists vars, adds_variables
    (negb match agreed_values p variables (pl_Targets p) with
          | Some values => negb (existsb unresolved_required values) | None => false end)
    vars p (addDeploymentPlanTargetResolvedVariables p variables)
  /\ vars = match agreed_values p variables (pl_Targets p) with
            | Some values => plan_variable p <$> stable_sort variable_less values | None => [] end.
Proof.
  eexists. split; [|reflexivity]. unfold addDeploymentPlanTargetResolvedVariables, agreed_values.
  destruct (pl_Targets p) as [|t targets]; [apply (adds_values p [])|].
  cbn [resolve_targets fmap list_fmap]. rewrite Resolve_target.
  pose proof (resolve_rest p variables (target_values p variables t) targets) as Hr.
  change (list_fmap _ _ (target_values p variables) targets) with (target_values p variables <$> targets).
  destruct (forallb _ _).
  - rewrite Hr, negb_involutive. apply adds_values.
  - by apply adds_no_variables.
Qed.

(** ** The other checks *)

Lemma Eligible_reasons r : Lifecycle.Eligible (Explain r) = bool_decide (Lifecycle.Reasons (Explain r) = []).
Proof.
  unfold Explain. assert (forall l : list EligibilityReason, bool_decide (length l = 0) = bool_decide (l = [])) as E.
  { intros l. apply bool_decide_ext. by destruct l. }
  destruct (find_index _ _) as [i|]; [|apply E]. destruct (block_prior _ _) as [prior phases].
  destruct (phases !! i) as [t|]; [|apply E]. by repeat case_match; apply E.
Qed.

Definition eligible (s : pldb) (p : DeploymentPlan) : bool :=
  match GetReleaseBundleEligibility (pl_ReleaseBundleID p) (pl_EnvironmentID p) (pl_OrganizationID p) s with
  | Ok result => Lifecycle.Eligible result
  | Err _ => false
  end.

Lemma adds_eligibility s p : adds_issues (negb (eligible s p)) p (addDeploymentPlanEligibilityBlockers s p).
Proof.
  unfold addDeploymentPlanEligibilityBlockers, eligible.
  destruct (GetReleaseBundleEligibility _ _ _ _) as [result|] eqn:E; [|apply adds_blocker].
  assert (negb (Lifecycle.Eligible result) = existsb (λ _, true) (Lifecycle.Reasons result)) as ->.
  { unfold GetReleaseBundleEligibility in E. destruct (GetReleaseBundle _ _ _); [|done]. simpl in E.
    destruct (GetEnvironment _ _ _); [|done]. simpl in E. destruct (getChannel _ _ _); [|done]. simpl in E.
    destruct (GetLifecycle _ _ _); [|done]. injection E as <-. rewrite Eligible_reasons.
    by destruct (Lifecycle.Reasons _). }
  apply adds_foldl. intros q reason _ _. apply adds_blocker.
Qed.

Lemma target_of_frame p q id : frame q = frame p -> target_of q id = target_of p id.
Proof. intros E. unfold target_of. by rewrite (frame_targets _ _ E). Qed.

Definition platform_matches (p : DeploymentPlan) (c : DeploymentPlanTargetComponent) : bool :=
  bool_decide (snd (target_of p (tc_DeploymentPlanTargetID c)) = tc_Platform c).

Lemma adds_platforms p :
  adds_issues (negb (forallb (platform_matches p) (pl_TargetComponents p))) p (addDeploymentPlanTargetPlatformIssues p).
Proof.
  rewrite <- existsb_negb. apply adds_foldl. intros q c _ E. unfold check_platform, platform_matches.
  rewrite (target_of_frame p q _ E). destruct (target_of p _). apply adds_block_if.
Qed.

(** The steps that the agents of the targets run. *)
Definition agent_steps (p : DeploymentPlan) : list DeploymentPlanStep :=
  List.filter (λ step, st_Included step && deploymentPlanStepRunsOnTarget step) (pl_Steps p).

Definition report_of (s : pldb) (p : DeploymentPlan) (t : DeploymentPlanTarget) : option AgentCapabilityReport :=
  last (select_where (λ r, bool_decide (acr_OrganizationID r = pl_OrganizationID p)
    && contains (dt_DeploymentTargetID <$> pl_Targets p) (acr_DeploymentTargetID r)
    && bool_decide (acr_DeploymentTargetID r = dt_DeploymentTargetID t)) (CapabilityReports s)).

Definition supports (s : pldb) (p : DeploymentPlan) (t : DeploymentPlanTarget) : bool :=
  match report_of s p t with
  | None => true
  | Some report =>
      forallb (λ step, agentCapabilitySupportsAction report (st_ActionType step) AgentActionVersionV1) (agent_steps p)
  end.

Lemma adds_capabilities s p :
  adds_issues (negb (forallb (supports s p) (pl_Targets p))) p (addDeploymentPlanAgentCapabilityIssues s p).
Proof.
  unfold addDeploymentPlanAgentCapabilityIssues. change (List.filter _ (pl_Steps p)) with (agent_steps p).
  destruct (bool_decide (length (agent_steps p) = 0) || bool_decide (length (pl_Targets p) = 0)) eqn:E.
  - replace (forallb (supports s p) (pl_Targets p)) with true; [apply adds_none|]. symmetry.
    apply forallb_forall. intros t Ht%list_elem_of_In. unfold supports. destruct (report_of s p t); [|done].
    apply orb_true_iff in E as [E|E]; to_prop; [by apply length_zero_iff_nil in E as ->|].
    apply length_zero_iff_nil in E. rewrite E in Ht. by apply elem_of_nil in Ht.
  - rewrite <- existsb_negb. simpl. apply adds_foldl. intros q t Ht Eq. unfold supports.
    change (last _) with (report_of s p t). destruct (report_of s p t) as [report|]; [|apply adds_none].
    rewrite <- existsb_negb. apply adds_foldl. intros q' step _ _. apply adds_block_if.
Qed.

(** ** The whole plan *)

Section resolution.
Context `{SchemaValidator, Collation}.

Definition process_ready (s : pldb) (p : DeploymentPlan) : bool :=
  match pl_ProcessSnapshotID p with
  | Some id =>
      match GetProcessSnapshot id (pl_OrganizationID p) s with
      | Ok snapshot => steps_fine (pl_ChannelID p) (pl_EnvironmentID p) snapshot
      | Err _ => false
      end
  | None => false
  end.

(** The steps and the variables that the snapshots give to a plan. *)
Definition snapshot_steps (s : pldb) (p : DeploymentPlan) : list DeploymentPlanStep :=
  match pl_ProcessSnapshotID p with
  | Some id =>
      match GetProcessSnapshot id (pl_OrganizationID p) s with
      | Ok snapshot => plan_step p <$> ordered_steps snapshot
      | Err _ => []
      end
  | None => []
  end.

Lemma adds_process s p : adds_steps (negb (process_ready s p)) (snapshot_steps s p) p (add_process_snapshot s p).
Proof.
  unfold process_ready, snapshot_steps, add_process_snapshot.
  assert (forall c q, adds_issues c p q -> adds_steps c [] p q) as Hnone.
  { intros c q [F B N]. split; [by rewrite app_nil_r|done..]. }
  destruct (pl_ProcessSnapshotID p); [|apply Hnone, adds_blocker].
  destruct (GetProcessSnapshot _ _ _); [|apply Hnone, adds_blocker]. apply adds_snapshot_steps.
Qed.

Definition snapshot_values (s : pldb) (p : DeploymentPlan) : option (list ResolvedVariable) :=
  id ← pl_VariableSnapshotID p;
  match GetVariableSnapshot id (pl_OrganizationID p) s with
  | Err _ => None
  | Ok snapshot =>
      match vsn_ResolutionMode snapshot with
      | ResolutionModeLegacy => Some (vsn_Values snapshot)
      | ResolutionModeTarget => agreed_values p (vsn_Variables snapshot) (pl_Targets p)
      end
  end.

Definition variables_ready (s : pldb) (p : DeploymentPlan) : bool :=
  match snapshot_values s p with Some values => negb (existsb unresolved_required values) | None => false end.

Definition snapshot_variables (s : pldb) (p : DeploymentPlan) : list DeploymentPlanVariable :=
  match snapshot_values s p with Some values => plan_variable p <$> stable_sort variable_less values | None => [] end.

Lemma adds_variable_snapshot s p :
  adds_variables (negb (variables_ready s p)) (snapshot_variables s p) p (add_variable_snapshot s p).
Proof.
  unfold variables_ready, snapshot_variables, snapshot_values, add_variable_snapshot.
  destruct (pl_VariableSnapshotID p); [|apply adds_no_variables, adds_blocker]. simpl.
  destruct (GetVariableSnapshot _ _ _) as [snapshot|]; [|apply adds_no_variables, adds_blocker].
  destruct (vsn_ResolutionMode snapshot).
  - rewrite negb_involutive. apply adds_values.
  - destruct (adds_target_values p (vsn_Variables snapshot)) as (vars & Ha & ->). exact Ha.
Qed.

Definition contract_ready (bundle : ReleaseBundleRow) (steps : list DeploymentPlanStep) : bool :=
  negb (existsb hub_webhook steps) || match brow_ReleaseContract bundle with Some _ => true | None => false end.

Lemma adds_contract bundle p :
  adds_issues (negb (contract_ready bundle (pl_Steps p))) p (addDeploymentPlanReleaseContractIssues bundle p).
Proof.
  unfold addDeploymentPlanReleaseContractIssues, contract_ready. rewrite negb_orb, negb_involutive.
  destruct (brow_ReleaseContract bundle); simpl; apply adds_block_if.
Qed.

(** What the facts above read of a plan. *)
Definition core (p : DeploymentPlan) : DeploymentPlan :=
  with_lists (pl_Targets p) [] [] [] [] (with_header DeploymentPlanStatusDraft "" "" p).

Lemma core_eq {A} (f : DeploymentPlan -> A) p q : (forall p, f (core p) = f p) -> core q = core p -> f q = f p.
Proof. intros Hf E. by rewrite <- (Hf q), E, Hf. Qed.

Lemma core_components env s p : core (resolveDeploymentPlanTargetComponents env s p) = core p.
Proof. unfold resolveDeploymentPlanTargetComponents. by destruct (pl_ReleaseContract p). Qed.

Lemma frame_core p q : frame q = frame p -> core q = core p.
Proof. intros E. exact (f_equal core E). Qed.

Lemma core_snapshot_steps s p : snapshot_steps s (core p) = snapshot_steps s p.
Proof. unfold snapshot_steps. simpl. destruct (pl_ProcessSnapshotID p); [|done]. by destruct (GetProcessSnapshot _ _ _). Qed.

Lemma core_snapshot_variables s p : snapshot_variables s (core p) = snapshot_variables s p.
Proof. done. Qed.

(** The conditions under which the plan is ready. *)
Definition ready (s : pldb) (bundle : ReleaseBundleRow) (p : DeploymentPlan) : bool :=
  eligible s p && process_ready s p && variables_ready s p && contract_ready bundle (pl_Steps p)
  && forallb (platform_matches p) (pl_TargetComponents p) && forallb (supports s p) (pl_Targets p).

Record completed (env : plenv) (s : pldb) (bundle : ReleaseBundleRow) (p plan : DeploymentPlan) : Prop := {
  cp_core : core plan = core p;
  cp_components : pl_TargetComponents plan = pl_TargetComponents (resolveDeploymentPlanTargetComponents env s p);
  cp_steps : pl_Steps plan = snapshot_steps s plan;
  cp_variables : pl_Variables plan = snapshot_variables s plan;
  cp_numbered : numbered plan;
  cp_blocked : blocked plan = negb (ready s bundle plan);
  cp_status : pl_Status plan = if blocked plan then DeploymentPlanStatusBlocked else DeploymentPlanStatusReady;
}.

(** The checks after the snapshots, with the last warning. *)
Definition checked_plan (s : pldb) (bundle : ReleaseBundleRow) (p : DeploymentPlan) : DeploymentPlan :=
  addDeploymentPlanIssue SeverityWarning "dry_run_not_performed" "dryRun"
    "read-only agent dry-run checks are not available in the deployment plan foundation"
    (addDeploymentPlanAgentCapabilityIssues s (addDeploymentPlanTargetPlatformIssues
       (addDeploymentPlanReleaseContractIssues bundle p))).

Lemma platform_matches_frame p q : frame q = frame p -> forallb (platform_matches q) = forallb (platform_matches p).
Proof. intros E. unfold platform_matches, target_of. by rewrite (frame_targets p q E). Qed.

Lemma supports_frame s p q : frame q = frame p -> forallb (supports s q) = forallb (supports s p).
Proof.
  intros E. unfold supports, report_of, agent_steps.
  by rewrite (frame_targets p q E), (frame_steps p q E), (f_equal pl_OrganizationID E : pl_OrganizationID q = pl_OrganizationID p).
Qed.

Lemma adds_checks s bundle p :
  adds_issues (negb (contract_ready bundle (pl_Steps p) && forallb (platform_matches p) (pl_TargetComponents p)
                     && forallb (supports s p) (pl_Targets p))) p (checked_plan s bundle p).
Proof.
  unfold checked_plan. pose proof (adds_contract bundle p) as A5.
  set (p5 := addDeploymentPlanReleaseContractIssues bundle p) in *. pose proof (ai_frame _ _ _ A5) as F5.
  pose proof (adds_platforms p5) as A6. set (p6 := addDeploymentPlanTargetPlatformIssues p5) in *.
  assert (frame p6 = frame p) as F6 by by rewrite (ai_frame _ _ _ A6).
  rewrite (platform_matches_frame p p5 F5), (frame_components p p5 F5) in A6.
  pose proof (adds_capabilities s p6) as A7. rewrite (supports_frame s p p6 F6), (frame_targets p p6 F6) in A7.
  rewrite !negb_andb, <- (orb_false_r (_ || _ || _)).
  eapply adds_trans; [eapply adds_trans; [eapply adds_trans; [exact A5|exact A6]|exact A7]|].
  apply (adds_issue SeverityWarning).
Qed.

(** The eligibility and the snapshots, for a plan that is empty so far. *)
Lemma adds_snapshots s p :
  pl_Steps p = [] -> pl_Variables p = [] -> pl_Issues p = [] ->
  let q := addDeploymentPlanSnapshotData s (addDeploymentPlanEligibilityBlockers s p) in
  core q = core p /\ pl_TargetComponents q = pl_TargetComponents p /\ pl_Steps q = snapshot_steps s p
  /\ pl_Variables q = snapshot_variables s p /\ numbered q
  /\ blocked q = negb (eligible s p && process_ready s p && variables_ready s p).
Proof.
  intros Hs Hv Hi. unfold addDeploymentPlanSnapshotData.
  destruct (adds_eligibility s p) as [F2 B2 N2]. set (p2 := addDeploymentPlanEligibilityBlockers s p) in *.
  destruct (adds_process s p2) as [F3 B3 N3]. set (p3 := add_process_snapshot s p2) in *.
  destruct (adds_variable_snapshot s p3) as [F4 B4 N4]. set (p4 := add_variable_snapshot s p3) in *.
  assert (core p2 = core p) as C2 by exact (f_equal core F2).
  assert (core p3 = core p) as C3 by (rewrite <- C2; exact (f_equal core F3)).
  cbv zeta. split_and!.
  - rewrite <- C3. exact (f_equal core F4).
  - rewrite (f_equal pl_TargetComponents F4 : pl_TargetComponents p4 = pl_TargetComponents p3),
      (f_equal pl_TargetComponents F3 : pl_TargetComponents p3 = pl_TargetComponents p2). exact (frame_components _ _ F2).
  - rewrite (f_equal pl_Steps F4 : pl_Steps p4 = pl_Steps p3),
      (f_equal pl_Steps F3 : pl_Steps p3 = pl_Steps p2 ++ snapshot_steps s p2), (frame_steps p p2 F2), Hs.
    apply (core_eq (snapshot_steps s)); [apply core_snapshot_steps|done].
  - rewrite (f_equal pl_Variables F4 : pl_Variables p4 = pl_Variables p3 ++ snapshot_variables s p3),
      (f_equal pl_Variables F3 : pl_Variables p3 = pl_Variables p2), (f_equal pl_Variables F2 : pl_Variables p2 = pl_Variables p), Hv.
    by apply (core_eq (snapshot_variables s)).
  - apply N4, N3, N2. intros i x. by rewrite Hi, lookup_nil.
  - rewrite B4, B3, B2. unfold blocked. rewrite Hi, !negb_andb. simpl.
    by rewrite (core_eq (process_ready s) p p2), (core_eq (variables_ready s) p p3).
Qed.

Lemma complete_plan_spec env s bundle p :
  pl_Steps p = [] -> pl_Variables p = [] -> pl_Issues p = [] ->
  completed env s bundle p (complete_plan env s bundle p).
Proof.
  intros Hs Hv Hi. pose proof (core_components env s p) as C1.
  change (complete_plan env s bundle p) with (set_status (checked_plan s bundle (addDeploymentPlanSnapshotData s
    (addDeploymentPlanEligibilityBlockers s (resolveDeploymentPlanTargetComponents env s p))))).
  set (p1 := resolveDeploymentPlanTargetComponents env s p) in *.
  destruct (adds_snapshots s p1) as (C4 & T4 & S4 & V4 & N4 & B4);
    [unfold p1, resolveDeploymentPlanTargetComponents; by destruct (pl_ReleaseContract p)..|].
  set (p4 := addDeploymentPlanSnapshotData _ _) in *.
  destruct (adds_checks s bundle p4) as [F8 B8 N8]. set (p8 := checked_plan s bundle p4) in *.
  set (plan := set_status p8).
  assert (core plan = core p4) as C8 by exact (f_equal core F8).
  assert (core p1 = core plan) as C by congruence.
  split; [congruence| | | |by apply N8| |done].
  - change (pl_TargetComponents plan = pl_TargetComponents p1). rewrite <- T4. exact (frame_components p4 p8 F8).
  - rewrite <- (core_eq (snapshot_steps s) plan p1 (core_snapshot_steps s) C), <- S4. exact (frame_steps p4 p8 F8).
  - rewrite <- (core_eq (snapshot_variables s) plan p1 (core_snapshot_variables s) C), <- V4.
    exact (f_equal pl_Variables F8).
  - change (blocked plan) with (blocked p8). rewrite B8, B4, <- negb_andb. f_equal. unfold ready.
    rewrite (core_eq (eligible s) plan p1), (core_eq (process_ready s) plan p1), (core_eq (variables_ready s) plan p1) by done.
    change (forallb (platform_matches plan)) with (forallb (platform_matches p8)).
    change (forallb (supports s plan)) with (forallb (supports s p8)).
    rewrite (platform_matches_frame p4 p8 F8), (supports_frame s p4 p8 F8).
    change (pl_Steps plan) with (pl_Steps p8). change (pl_TargetComponents plan) with (pl_TargetComponents p8).
    change (pl_Targets plan) with (pl_Targets p8).
    by rewrite (frame_steps p4 p8 F8), (frame_components p4 p8 F8), (frame_targets p4 p8 F8), !andb_assoc.
Qed.

(** ** When a plan is ready *)

Lemma resolve_ok env r s plan :
  resolveDeploymentPlan env r s = Ok plan ->
  exists bundle targets, GetReleaseBundle (cr_ReleaseBundleID r) (cr_OrganizationID r) s = Ok bundle
    /\ resolveDeploymentPlanTargets env (cr_OrganizationID r) (cr_TargetIDs r) s = Ok targets
    /\ completed env s bundle (initial_plan env r bundle targets) plan.
Proof.
  unfold resolveDeploymentPlan. intros (bundle & Hb & (e & He & (targets & Ht & E)%result_bind_ok)%result_bind_ok)%result_bind_ok.
  injection E as <-. exists bundle, targets. split_and!; [done..|]. by apply complete_plan_spec.
Qed.

Lemma find_row_ok {A} (cond : A -> bool) l x : find_row cond l = Ok x -> x ∈ l /\ cond x = true.
Proof.
  unfold find_row. destruct (select_where cond l) as [|y k] eqn:E; [done|]. intros [= <-].
  assert (y ∈ select_where cond l) as H' by (rewrite E; by left).
  by apply list_elem_of_In, filter_In in H' as [?%list_elem_of_In ?].
Qed.

(** The release may advance to the environment. *)
Definition release_eligible (s : pldb) (r : CreateDeploymentPlanRequest) : Prop :=
  exists result, GetReleaseBundleEligibility (cr_ReleaseBundleID r) (cr_EnvironmentID r) (cr_OrganizationID r) s = Ok result
    /\ Lifecycle.Eligible result = true.

(** The steps of the process snapshot can be executed and one applies. *)
Definition process_executable (s : pldb) (r : CreateDeploymentPlanRequest) (bundle : ReleaseBundleRow) : Prop :=
  exists id steps, brow_ProcessSnapshotID bundle = Some id
    /\ GetProcessSnapshot id (cr_OrganizationID r) s = Ok steps
    /\ (forall step, step ∈ steps ->
          is_Some (Get (ds_ActionType step)) /\ ValidateInput (ds_ActionType step) (ds_InputBindings step) = Ok tt
          /\ condition_valid (ds_Key <$> steps) step = true)
    /\ (steps = [] \/ exists step, step ∈ steps
          /\ in_scope (brow_ChannelID bundle) (cr_EnvironmentID r) step = true).

(** The variable snapshot gives every required variable a value, the same for all targets. *)
Definition variables_resolved (s : pldb) (r : CreateDeploymentPlanRequest) (bundle : ReleaseBundleRow)
    (plan : DeploymentPlan) : Prop :=
  exists id snapshot values, brow_VariableSnapshotID bundle = Some id
    /\ GetVariableSnapshot id (cr_OrganizationID r) s = Ok snapshot
    /\ match vsn_ResolutionMode snapshot with
       | ResolutionModeLegacy => values = vsn_Values snapshot
       | ResolutionModeTarget => agreed_values plan (vsn_Variables snapshot) (pl_Targets plan) = Some values
       end
    /\ forall v, v ∈ values -> rv_IsRequired v = true -> rv_Status v = VariableResolutionStatusResolved.

(** A webhook that the hub runs is covered by a contract. *)
Definition webhooks_covered (bundle : ReleaseBundleRow) (plan : DeploymentPlan) : Prop :=
  forall step, step ∈ pl_Steps plan -> hub_webhook step = true -> is_Some (brow_ReleaseContract bundle).

Definition platforms_match (plan : DeploymentPlan) : Prop :=
  forall c t, c ∈ pl_TargetComponents plan -> t ∈ pl_Targets plan -> dt_ID t = tc_DeploymentPlanTargetID c ->
    dt_Platform t = tc_Platform c.

(** The agents that reported what they support can run the steps of their targets. *)
Definition agents_capable (s : pldb) (plan : DeploymentPlan) : Prop :=
  forall t report step, t ∈ pl_Targets plan -> report_of s plan t = Some report -> step ∈ pl_Steps plan ->
    st_Included step = true -> deploymentPlanStepRunsOnTarget step = true ->
    agentCapabilitySupportsAction report (st_ActionType step) AgentActionVersionV1 = true.

Lemma forallb_elem {A} (f : A -> bool) l : forallb f l = true <-> forall x, x ∈ l -> f x = true.
Proof. rewrite forallb_forall. by setoid_rewrite list_elem_of_In. Qed.

Lemma condition_valid_ext keys keys' step :
  (forall k, k ∈ keys <-> k ∈ keys') -> condition_valid keys step = condition_valid keys' step.
Proof.
  intros E. unfold condition_valid. destruct (parse (ds_Condition step)) as [[| | | | |[| |ref] o v]|]; try done.
  unfold contains. apply bool_decide_ext, E.
Qed.

Lemma action_valid_iff step :
  action_valid step = true <->
  is_Some (Get (ds_ActionType step)) /\ ValidateInput (ds_ActionType step) (ds_InputBindings step) = Ok tt.
Proof.
  unfold action_valid. destruct (Get _) as [name|]; [|by split; [|intros [[? ?] _]]].
  destruct (ValidateInput _ _) as [[]|]; [|by split; [|intros [_ ?]]]. split; [|done]. intros _. split; [by exists name|done].
Qed.

Lemma steps_fine_iff channel environment steps :
  steps_fine channel environment steps = true <->
  (forall step, step ∈ steps ->
     is_Some (Get (ds_ActionType step)) /\ ValidateInput (ds_ActionType step) (ds_InputBindings step) = Ok tt
     /\ condition_valid (ds_Key <$> steps) step = true)
  /\ (steps = [] \/ exists step, step ∈ steps /\ in_scope channel environment step = true).
Proof.
  unfold steps_fine, ordered_steps. rewrite andb_true_iff, orb_true_iff, forallb_elem, existsb_stable_sort,
    bool_decide_eq_true, length_zero_iff_nil, (exists_where_true (in_scope channel environment)).
  f_equiv. setoid_rewrite elem_of_stable_sort. unfold step_valid.
  setoid_rewrite andb_true_iff. setoid_rewrite action_valid_iff.
  assert (forall step, condition_valid (ds_Key <$> stable_sort step_less steps) step
            = condition_valid (ds_Key <$> steps) step) as E.
  { intros step. apply condition_valid_ext. intros k. by rewrite stable_sort_perm. }
  setoid_rewrite E. naive_solver.
Qed.

Lemma last_elem {A} (l : list A) x : last l = Some x -> x ∈ l.
Proof. intros (k & ->)%last_Some. apply elem_of_app. right. by left. Qed.

Lemma target_of_eq p t :
  NoDup (dt_ID <$> pl_Targets p) -> t ∈ pl_Targets p -> target_of p (dt_ID t) = (dt_Name t, dt_Platform t).
Proof.
  intros Hn Ht. unfold target_of. destruct (last _) as [u|] eqn:E.
  - apply last_elem, elem_of_select_where in E as [Hu E]. to_prop. simpl.
    by rewrite (NoDup_fmap_elem dt_ID _ u t Hn Hu Ht E).
  - apply last_None in E. assert (t ∈ select_where (λ x, bool_decide (dt_ID x = dt_ID t)) (pl_Targets p)) as H'.
    { apply elem_of_select_where. split; [done|]. by apply bool_decide_eq_true. }
    rewrite E in H'. by apply elem_of_nil in H'.
Qed.

(** Every component of a plan belongs to one of its targets. *)
Definition components_owned (p : DeploymentPlan) : Prop :=
  forall c, c ∈ pl_TargetComponents p -> exists t, t ∈ pl_Targets p /\ dt_ID t = tc_DeploymentPlanTargetID c.

Lemma platforms_match_iff p :
  NoDup (dt_ID <$> pl_Targets p) -> components_owned p ->
  forallb (platform_matches p) (pl_TargetComponents p) = true <-> platforms_match p.
Proof.
  intros Hn Ho. rewrite forallb_elem. split.
  - intros Hm c t Hc Ht E. specialize (Hm c Hc). unfold platform_matches in Hm.
    rewrite <- E, target_of_eq in Hm by done. by to_prop.
  - intros Hm c Hc. destruct (Ho c Hc) as (t & Ht & E). unfold platform_matches.
    rewrite <- E, target_of_eq by done. apply bool_decide_eq_true. by apply Hm.
Qed.

Lemma agents_capable_iff s p : forallb (supports s p) (pl_Targets p) = true <-> agents_capable s p.
Proof.
  rewrite forallb_elem. unfold supports, agents_capable, agent_steps. split.
  - intros Hs t report step Ht Hr Hstep Hi Hl. specialize (Hs t Ht). rewrite Hr, forallb_elem in Hs.
    apply Hs. apply list_elem_of_In, filter_In. by rewrite Hi, Hl, <- list_elem_of_In.
  - intros Hs t Ht. destruct (report_of s p t) as [report|] eqn:Hr; [|done]. apply forallb_elem.
    intros step [Hstep [Hi Hl]%andb_true_iff]%list_elem_of_In%filter_In. apply (Hs t); try done. by apply list_elem_of_In.
Qed.

Lemma webhooks_covered_iff bundle p : contract_ready bundle (pl_Steps p) = true <-> webhooks_covered bundle p.
Proof.
  unfold contract_ready, webhooks_covered. destruct (brow_ReleaseContract bundle) as [c|].
  - rewrite orb_true_r. split; [|done]. intros _ step _ _. by exists c.
  - rewrite orb_false_r, negb_true_iff, (exists_where_false hub_webhook). split.
    + intros Hf step Hs Hw. by rewrite Hf in Hw.
    + intros Hf step Hs. destruct (hub_webhook step) eqn:E; [|done]. by destruct (Hf step Hs E).
Qed.

Lemma unresolved_iff values :
  negb (existsb unresolved_required values) = true <->
  forall v, v ∈ values -> rv_IsRequired v = true -> rv_Status v = VariableResolutionStatusResolved.
Proof.
  rewrite negb_true_iff, (exists_where_false unresolved_required). unfold unresolved_required.
  split; intros Hv v Hin; specialize (Hv v Hin).
  - intros E. rewrite E in Hv. by destruct (rv_Status v).
  - destruct (rv_IsRequired v); [|done]. by rewrite Hv.
Qed.

(** The facts about the header of a completed plan. *)
Record planned (env : plenv) (r : CreateDeploymentPlanRequest) (s : pldb) (bundle : ReleaseBundleRow)
    (plan : DeploymentPlan) : Prop := {
  pd_OrganizationID : pl_OrganizationID plan = cr_OrganizationID r;
  pd_ReleaseBundleID : pl_ReleaseBundleID plan = cr_ReleaseBundleID r;
  pd_ApplicationID : pl_ApplicationID plan = brow_ApplicationID bundle;
  pd_ChannelID : pl_ChannelID plan = brow_ChannelID bundle;
  pd_EnvironmentID : pl_EnvironmentID plan = cr_EnvironmentID r;
  pd_ProcessSnapshotID : pl_ProcessSnapshotID plan = brow_ProcessSnapshotID bundle;
  pd_VariableSnapshotID : pl_VariableSnapshotID plan = brow_VariableSnapshotID bundle;
  pd_ID : pl_ID plan = new_plan_id env;
  pd_contract : pl_ReleaseContract plan = NormalizedReleaseContract (brow_ReleaseContract bundle);
}.

Lemma completed_planned env r s bundle targets plan :
  GetReleaseBundle (cr_ReleaseBundleID r) (cr_OrganizationID r) s = Ok bundle ->
  completed env s bundle (initial_plan env r bundle targets) plan -> planned env r s bundle plan.
Proof.
  intros [_ Hb]%find_row_ok Hc. to_prop. pose proof (cp_core _ _ _ _ _ Hc) as E.
  split.
  - exact (f_equal pl_OrganizationID E).
  - rewrite <- H1. exact (f_equal pl_ReleaseBundleID E).
  - exact (f_equal pl_ApplicationID E).
  - exact (f_equal pl_ChannelID E).
  - exact (f_equal pl_EnvironmentID E).
  - exact (f_equal pl_ProcessSnapshotID E).
  - exact (f_equal pl_VariableSnapshotID E).
  - exact (f_equal pl_ID E).
  - exact (f_equal pl_ReleaseContract E).
Qed.

Lemma elem_of_imap {A B} (f : nat -> A -> B) l y : y ∈ imap f l -> exists i x, x ∈ l /\ y = f i x.
Proof. intros (i & x & -> & Hx)%elem_of_lookup_imap. exists i, x. by eauto using list_elem_of_lookup_2. Qed.

Lemma affected_components_target contract t u i c : (u, i, c) ∈ affected_components contract t -> u = t.
Proof.
  unfold affected_components. intros ([j name] & _ & E)%list_elem_of_omap. simpl in E.
  destruct (contract_component contract name); [|done]. by injection E as -> _ _.
Qed.

Lemma component_from env s p c :
  pl_TargetComponents p = [] -> c ∈ pl_TargetComponents (resolveDeploymentPlanTargetComponents env s p) ->
  exists contract k t i x, pl_ReleaseContract p = Some contract /\ t ∈ pl_Targets p
    /\ (t, i, x) ∈ affected_components contract t /\ c = target_component env s p contract k (t, i, x).
Proof.
  intros Hn. unfold resolveDeploymentPlanTargetComponents. destruct (pl_ReleaseContract p) as [contract|].
  2:{ rewrite Hn. intros H'. by apply elem_of_nil in H'. }
  simpl. rewrite Hn. intros (k & [[u i] x] & Hx & ->)%elem_of_imap.
  apply list_elem_of_bind in Hx as (t & Hx & Ht). pose proof (affected_components_target _ _ _ _ _ Hx) as ->.
  by exists contract, k, t, i, x.
Qed.

Lemma completed_owned env r s bundle targets plan :
  completed env s bundle (initial_plan env r bundle targets) plan -> components_owned plan.
Proof.
  intros Hc c. rewrite (cp_components _ _ _ _ _ Hc). intros (contract & k & t & i & x & _ & Ht & _ & ->)%component_from; [|done].
  exists t. split; [|done]. by rewrite (f_equal pl_Targets (cp_core _ _ _ _ _ Hc) : pl_Targets plan = targets).
Qed.

Lemma process_ready_iff env r s bundle plan :
  planned env r s bundle plan -> process_ready s plan = true <-> process_executable s r bundle.
Proof.
  intros []. unfold process_ready, process_executable.
  rewrite pd_ProcessSnapshotID0, pd_OrganizationID0, pd_ChannelID0, pd_EnvironmentID0.
  destruct (brow_ProcessSnapshotID bundle) as [id|]; [|naive_solver].
  destruct (GetProcessSnapshot id (cr_OrganizationID r) s) as [steps|] eqn:E;
    [|split; [done|]; intros (id' & steps & [= <-] & E' & _); congruence].
  rewrite steps_fine_iff. split.
  - intros [H1 H2]. by exists id, steps.
  - intros (id' & steps' & [= <-] & E' & H1 & H2). rewrite E in E'. by injection E' as <-.
Qed.

Lemma variables_ready_iff env r s bundle plan :
  planned env r s bundle plan -> variables_ready s plan = true <-> variables_resolved s r bundle plan.
Proof.
  intros []. unfold variables_ready, snapshot_values, variables_resolved.
  rewrite pd_VariableSnapshotID0, pd_OrganizationID0.
  destruct (brow_VariableSnapshotID bundle) as [id|]; simpl; [|naive_solver].
  destruct (GetVariableSnapshot id (cr_OrganizationID r) s) as [snapshot|] eqn:E;
    [|split; [done|]; intros (id' & snapshot & values & [= <-] & E' & _); congruence].
  split.
  - intros Hv. destruct (vsn_ResolutionMode snapshot) eqn:Em.
    + exists id, snapshot, (vsn_Values snapshot). rewrite Em. by rewrite unresolved_iff in Hv.
    + destruct (agreed_values _ _ _) as [values|] eqn:Ea; [|done].
      exists id, snapshot, values. rewrite Em. by rewrite unresolved_iff in Hv.
  - intros (id' & snapshot' & values & [= <-] & E' & Hm & Hv). rewrite E in E'. injection E' as <-.
    apply unresolved_iff in Hv. destruct (vsn_ResolutionMode snapshot); [by subst|by rewrite Hm].
Qed.

(** C37: A plan is either ready or blocked, and it is ready exactly when the
    release may advance to the environment, the steps of its process snapshot
    can be executed and one of them applies, every required variable has a
    value on which the targets agree, a webhook of the hub is covered by a
    contract, the platforms of the targets are those of the components, and the
    agents that reported their actions support the steps they are to run. The
    generated ids of the targets are distinct. *)
Theorem plan_ready_iff env r s bundle plan :
  GetReleaseBundle (cr_ReleaseBundleID r) (cr_OrganizationID r) s = Ok bundle ->
  resolveDeploymentPlan env r s = Ok plan -> NoDup (dt_ID <$> pl_Targets plan) ->
  (pl_Status plan = DeploymentPlanStatusReady \/ pl_Status plan = DeploymentPlanStatusBlocked)
  /\ (pl_Status plan = DeploymentPlanStatusReady <->
       release_eligible s r /\ process_executable s r bundle /\ variables_resolved s r bundle plan
       /\ webhooks_covered bundle plan /\ platforms_match plan /\ agents_capable s plan).
Proof.
  intros Hb (bundle' & targets & Hb' & _ & Hc)%resolve_ok Hids. rewrite Hb in Hb'. injection Hb' as <-.
  pose proof (completed_planned _ _ _ _ _ _ Hb Hc) as Hp.
  rewrite (cp_status _ _ _ _ _ Hc). split; [destruct (blocked plan); auto|].
  transitivity (ready s bundle plan = true).
  { rewrite (cp_blocked _ _ _ _ _ Hc). by destruct (ready s bundle plan). }
  unfold ready. rewrite !andb_true_iff, (process_ready_iff env r), (variables_ready_iff env r), webhooks_covered_iff,
    agents_capable_iff, platforms_match_iff by first [done | by eapply completed_owned].
  assert (eligible s plan = true <-> release_eligible s r) as ->; [|tauto].
  destruct Hp. unfold eligible, release_eligible. rewrite pd_OrganizationID0, pd_ReleaseBundleID0, pd_EnvironmentID0.
  destruct (GetReleaseBundleEligibility _ _ _ _) as [result|]; [|by split; [|intros (? & ? & _)]].
  split; [by exists result|]. by intros (result' & [= <-] & E).
Qed.

(** ** What a plan holds *)

(** The state that a plan expects of a component. *)
Definition expects_state (s : pldb) (plan : DeploymentPlan) (c : DeploymentPlanTargetComponent) : Prop :=
  match GetTargetComponentState (pl_OrganizationID plan) (tc_DeploymentTargetID c) (pl_ApplicationID plan)
          (tc_Component c) s with
  | Ok state =>
      tc_ExpectedStateVersion c = cs_StateVersion state /\ tc_ExpectedStateChecksum c = cs_StateChecksum state
      /\ tc_ExpectedReleaseBundleID c = Some (cs_ReleaseBundleID state)
  | Err _ => tc_ExpectedStateVersion c = 0%Z /\ tc_ExpectedStateChecksum c = "" /\ tc_ExpectedReleaseBundleID c = None
  end.

Lemma target_component_state env s p contract k t i x :
  expects_state s p (target_component env s p contract k (t, i, x)).
Proof.
  unfold expects_state. cbn [tc_DeploymentTargetID tc_Component target_component].
  unfold target_component. by destruct (GetTargetComponentState _ _ _ _ s).
Qed.

Lemma contract_component_name contract name c : contract_component contract name = Some c -> cmp_Name c = name.
Proof. intros [_ E]%last_elem%elem_of_select_where. by to_prop. Qed.

Lemma affected_complete contract t name c :
  name ∈ default [] (cpt_AffectedComponents (rc_Compatibility contract)) -> contract_component contract name = Some c ->
  exists i, (t, i, c) ∈ affected_components contract t.
Proof.
  intros [i Hi]%list_elem_of_lookup Hc. exists i. apply list_elem_of_omap. exists (i, name). simpl. rewrite Hc.
  split; [|done]. apply elem_of_lookup_imap. by exists i, name.
Qed.

(** The components of a plan are those that the contract affects, on every target. *)
Definition covers_components (plan : DeploymentPlan) : Prop :=
  forall contract t name x, pl_ReleaseContract plan = Some contract -> t ∈ pl_Targets plan ->
    name ∈ default [] (cpt_AffectedComponents (rc_Compatibility contract)) ->
    contract_component contract name = Some x ->
    exists c, c ∈ pl_TargetComponents plan /\ tc_DeploymentPlanTargetID c = dt_ID t /\ tc_Component c = name
      /\ tc_Image c = cmp_Image x /\ tc_Platform c = cmp_Platform x.

Lemma completed_components env r s bundle targets plan :
  completed env s bundle (initial_plan env r bundle targets) plan ->
  (forall c, c ∈ pl_TargetComponents plan -> expects_state s plan c) /\ covers_components plan.
Proof.
  intros Hc. pose proof (cp_core _ _ _ _ _ Hc) as E. pose proof (cp_components _ _ _ _ _ Hc) as Ec.
  assert (pl_ReleaseContract plan = NormalizedReleaseContract (brow_ReleaseContract bundle)) as Er
    by exact (f_equal pl_ReleaseContract E).
  assert (pl_Targets plan = targets) as Et by exact (f_equal pl_Targets E). split.
  - rewrite Ec. intros c (contract & k & t & i & x & _ & _ & _ & ->)%component_from; [|done].
    unfold expects_state. rewrite (f_equal pl_OrganizationID E : pl_OrganizationID plan = cr_OrganizationID r),
      (f_equal pl_ApplicationID E : pl_ApplicationID plan = brow_ApplicationID bundle).
    exact (target_component_state env s (initial_plan env r bundle targets) contract k t i x).
  - intros contract t name x Hr Ht Hn Hx. rewrite Et in Ht. rewrite Er in Hr.
    destruct (affected_complete contract t name x Hn Hx) as [i Hi].
    assert ((t, i, x) ∈ targets ≫= affected_components contract) as [k Hk]%list_elem_of_lookup
      by (apply list_elem_of_bind; by exists t).
    exists (target_component env s (initial_plan env r bundle targets) contract k (t, i, x)).
    split; [|split_and!; [done|by apply (contract_component_name contract)|done..]].
    rewrite Ec. unfold resolveDeploymentPlanTargetComponents. simpl. rewrite Hr. simpl.
    apply elem_of_lookup_imap. by exists k, (t, i, x).
Qed.

Lemma targets_of_request env org ids s targets :
  NoDup (trow_ID <$> TargetRows s) -> resolveDeploymentPlanTargets env org ids s = Ok targets ->
  dt_DeploymentTargetID <$> targets ≡ₚ ids
  /\ forall t, t ∈ targets -> dt_OrganizationID t = org
       /\ exists row, row ∈ TargetRows s /\ trow_ID row = dt_DeploymentTargetID t /\ trow_OrganizationID row = org
          /\ trow_Platform row = dt_Platform t.
Proof.
  intros Hn. unfold resolveDeploymentPlanTargets.
  set (rows := select_where _ (TargetRows s)). rewrite length_stable_sort. case_match eqn:El; [done|]. intros [= <-].
  to_prop. split.
  - rewrite fmap_imap. rewrite (imap_const trow_ID (stable_sort target_row_less rows) : imap (λ _ t, trow_ID t) _ = _).
    rewrite stable_sort_perm. apply submseteq_length_Permutation; [|by rewrite length_fmap, El].
    apply NoDup_submseteq; [by apply fmap_select_NoDup|].
    intros id (row & -> & [_ Hr]%elem_of_select_where)%list_elem_of_fmap. to_prop. by apply contains_true.
  - intros t (i & row & Hr & ->)%elem_of_imap. split; [done|]. exists row.
    apply elem_of_stable_sort, elem_of_select_where in Hr as [Hr E]. to_prop. done.
Qed.

(** What a plan holds: the header of the bundle and the normalized
    contract; the requested targets, which belong to the organization; for each
    of them the components that the contract affects, with the state that the
    table has for them now; the steps of the process snapshot, each once, in
    the order of the plan and included exactly when their scope admits the
    channel and the environment; and its issues, numbered in order. *)
Theorem plan_contents env r s bundle plan :
  NoDup (trow_ID <$> TargetRows s) ->
  GetReleaseBundle (cr_ReleaseBundleID r) (cr_OrganizationID r) s = Ok bundle ->
  resolveDeploymentPlan env r s = Ok plan ->
  planned env r s bundle plan
  /\ dt_DeploymentTargetID <$> pl_Targets plan ≡ₚ cr_TargetIDs r
  /\ (forall t, t ∈ pl_Targets plan -> exists row, row ∈ TargetRows s /\ trow_ID row = dt_DeploymentTargetID t
        /\ trow_OrganizationID row = cr_OrganizationID r /\ trow_Platform row = dt_Platform t)
  /\ (forall c, c ∈ pl_TargetComponents plan -> expects_state s plan c)
  /\ covers_components plan
  /\ (forall id steps, brow_ProcessSnapshotID bundle = Some id -> GetProcessSnapshot id (cr_OrganizationID r) s = Ok steps ->
        exists ordered, ordered ≡ₚ steps /\ StronglySorted (not_after step_less) ordered
          /\ pl_Steps plan = plan_step plan <$> ordered
          /\ forall step, step ∈ ordered ->
               st_Included (plan_step plan step) = in_scope (brow_ChannelID bundle) (cr_EnvironmentID r) step)
  /\ numbered plan.
Proof.
  intros Hrows Hb (bundle' & targets & Hb' & Ht & Hc)%resolve_ok. rewrite Hb in Hb'. injection Hb' as <-.
  pose proof (completed_planned _ _ _ _ _ _ Hb Hc) as Hp.
  destruct (completed_components _ _ _ _ _ _ Hc) as [He Hcov].
  assert (pl_Targets plan = targets) as Et by exact (f_equal pl_Targets (cp_core _ _ _ _ _ Hc)).
  destruct (targets_of_request _ _ _ _ _ Hrows Ht) as [Hperm Hrow].
  split_and!; [done|by rewrite Et| |done|done| |exact (cp_numbered _ _ _ _ _ Hc)].
  - intros t. rewrite Et. intros Hin. by destruct (Hrow t Hin) as [_ ?].
  - intros id steps Hid Hs. exists (ordered_steps steps). destruct Hp. split_and!.
    + apply stable_sort_perm.
    + apply stable_sort_sorted, _.
    + rewrite (cp_steps _ _ _ _ _ Hc). unfold snapshot_steps. by rewrite pd_ProcessSnapshotID0, Hid, pd_OrganizationID0, Hs.
    + intros step _. cbn [st_Included plan_step]. by rewrite excluded_reason_scope, pd_ChannelID0, pd_EnvironmentID0.
Qed.
End resolution.
