(* ===== verification/PlanTables.v ===== *)
(** * Deployment plans: how a plan is stored and read ([internal/db/deployment_plans.go])

    The canonical payload of a plan and its checksum, the insertion into the six
    tables with the constraints that can fail, and the reading back. A
    transaction runs alone here; what the plan refers to was read in it. *)
From S2P Require Import Prelude GoStrings Uuid GoRegexp GoJson TaskStore Transaction Lifecycle VariableResolution VariableJson StepRedaction JsonDecode JsonStruct ActionRegistry ExternalExecution DeploymentProcess ReleaseContract DeploymentPlans.
From Stdlib Require Import Ascii.
Open Scope list_scope.

(** ** The canonical payload *)

Definition severity_string (x : DeploymentPlanIssueSeverity) : string :=
  match x with SeverityBlocker => "blocker" | SeverityWarning => "warning" end.

Definition optional_id (u : option uuid) : string := match u with Some u => uuid_string u | None => "" end.

Definition canonicalDeploymentPlanTarget (t : DeploymentPlanTarget) : string :=
  json_struct [("deploymentTargetId", text (uuid_string (dt_DeploymentTargetID t))); ("name", text (dt_Name t));
    ("type", text (dt_Type t)); ("platform", text (dt_Platform t));
    ("customerOrganizationId", omitempty (optional_id (dt_CustomerOrganizationID t)));
    ("sortOrder", Some (json_int (dt_SortOrder t)))].

Definition canonicalDeploymentPlanTargetComponent (c : DeploymentPlanTargetComponent) : string :=
  json_struct [("deploymentPlanTargetId", text (uuid_string (tc_DeploymentPlanTargetID c)));
    ("deploymentTargetId", text (uuid_string (tc_DeploymentTargetID c))); ("component", text (tc_Component c));
    ("version", text (tc_Version c)); ("image", text (tc_Image c)); ("platform", text (tc_Platform c));
    ("contracts", nil_list json_string (tc_Contracts c)); ("configChecksum", text (tc_ConfigChecksum c));
    ("expectedStateVersion", Some (json_int (tc_ExpectedStateVersion c)));
    ("expectedStateChecksum", text (tc_ExpectedStateChecksum c));
    ("expectedReleaseBundleId", omitempty (optional_id (tc_ExpectedReleaseBundleID c)));
    ("sortOrder", Some (json_int (tc_SortOrder c)))].

Definition canonicalDeploymentPlanStep (t : DeploymentPlanStep) : string :=
  json_struct [("stepKey", text (st_StepKey t)); ("name", text (st_Name t)); ("actionType", text (st_ActionType t));
    ("actionName", text (st_ActionName t)); ("executionLocation", text (st_ExecutionLocation t));
    ("inputBindings", Some (json_value (JObject (st_InputBindings t)))); ("condition", text (st_Condition t));
    ("targetTags", texts_field (st_TargetTags t)); ("failureMode", text (st_FailureMode t));
    ("timeoutSeconds", Some (json_int (st_TimeoutSeconds t)));
    ("retryMaxAttempts", Some (json_int (st_RetryMaxAttempts t)));
    ("retryIntervalSeconds", Some (json_int (st_RetryIntervalSeconds t)));
    ("requiredPermissions", texts_field (st_RequiredPermissions t)); ("sortOrder", Some (json_int (st_SortOrder t)));
    ("dependencies", texts_field (st_Dependencies t)); ("included", Some (json_bool (st_Included t)));
    ("excludedReason", omitempty (st_ExcludedReason t))].

(** The fields are those of a resolved variable. *)
Definition canonicalDeploymentPlanVariable (v : DeploymentPlanVariable) : option string :=
  variable_json (with_value (cloneRawMessage (rv_Value (vr_Variable v))) (vr_Variable v)).

Definition canonicalDeploymentPlanIssue (i : DeploymentPlanIssue) : string :=
  json_struct [("severity", text (severity_string (iss_Severity i))); ("code", text (iss_Code i));
    ("field", text (iss_Field i)); ("message", text (iss_Message i)); ("sortOrder", Some (json_int (iss_SortOrder i)))].

(** [None]: the payload cannot be marshalled. *)
Definition canonicalizeDeploymentPlan (p : DeploymentPlan) : option string :=
  variables ← mapM canonicalDeploymentPlanVariable (pl_Variables p);
  Some (json_struct [("releaseBundleId", text (uuid_string (pl_ReleaseBundleID p)));
    ("applicationId", text (uuid_string (pl_ApplicationID p))); ("channelId", text (uuid_string (pl_ChannelID p)));
    ("environmentId", text (uuid_string (pl_EnvironmentID p)));
    ("processSnapshotId", omitempty (optional_id (pl_ProcessSnapshotID p)));
    ("variableSnapshotId", omitempty (optional_id (pl_VariableSnapshotID p)));
    ("releaseContract", contract_json <$> NormalizedReleaseContract (pl_ReleaseContract p));
    ("targets", Some (json_list (canonicalDeploymentPlanTarget <$> pl_Targets p)));
    ("targetComponents", Some (json_list (canonicalDeploymentPlanTargetComponent <$> pl_TargetComponents p)));
    ("steps", Some (json_list (canonicalDeploymentPlanStep <$> pl_Steps p)));
    ("variables", Some (json_list variables));
    ("issues", Some (json_list (canonicalDeploymentPlanIssue <$> pl_Issues p)))]).

Definition setDeploymentPlanCanonicalFields `{Crypto} (p : DeploymentPlan) : result apierror DeploymentPlan :=
  match canonicalizeDeploymentPlan p with
  | None => Err (Internal "could not canonicalize DeploymentPlan")
  | Some payload => Ok (with_header (pl_Status p) ("sha256:" +:+ sha256_hex payload) payload p)
  end.

(** ** The rows *)

Definition header (p : DeploymentPlan) : DeploymentPlan := with_lists [] [] [] [] [] p.

Definition target_row (p : DeploymentPlan) (t : DeploymentPlanTarget) : DeploymentPlanTarget :=
  {| dt_ID := dt_ID t; dt_DeploymentPlanID := pl_ID p; dt_OrganizationID := pl_OrganizationID p;
     dt_DeploymentTargetID := dt_DeploymentTargetID t; dt_Name := dt_Name t; dt_Type := dt_Type t;
     dt_Platform := dt_Platform t; dt_CustomerOrganizationID := dt_CustomerOrganizationID t;
     dt_SortOrder := dt_SortOrder t |}.

Definition component_row (p : DeploymentPlan) (c : DeploymentPlanTargetComponent) : DeploymentPlanTargetComponent :=
  {| tc_ID := tc_ID c; tc_DeploymentPlanID := pl_ID p; tc_DeploymentPlanTargetID := tc_DeploymentPlanTargetID c;
     tc_OrganizationID := pl_OrganizationID p; tc_DeploymentTargetID := tc_DeploymentTargetID c;
     tc_Component := tc_Component c; tc_Version := tc_Version c; tc_Image := tc_Image c; tc_Platform := tc_Platform c;
     tc_Contracts := tc_Contracts c; tc_ConfigChecksum := tc_ConfigChecksum c;
     tc_ExpectedStateVersion := tc_ExpectedStateVersion c; tc_ExpectedStateChecksum := tc_ExpectedStateChecksum c;
     tc_ExpectedReleaseBundleID := tc_ExpectedReleaseBundleID c; tc_SortOrder := tc_SortOrder c |}.

Definition step_row (env : plenv) (p : DeploymentPlan) (i : nat) (t : DeploymentPlanStep) : DeploymentPlanStep :=
  {| st_ID := new_planstep_id env i; st_DeploymentPlanID := pl_ID p; st_OrganizationID := pl_OrganizationID p;
     st_StepKey := st_StepKey t; st_Name := st_Name t; st_ActionType := st_ActionType t; st_ActionName := st_ActionName t;
     st_ExecutionLocation := st_ExecutionLocation t; st_InputBindings := st_InputBindings t;
     st_Condition := st_Condition t; st_TargetTags := st_TargetTags t; st_FailureMode := st_FailureMode t;
     st_TimeoutSeconds := st_TimeoutSeconds t; st_RetryMaxAttempts := st_RetryMaxAttempts t;
     st_RetryIntervalSeconds := st_RetryIntervalSeconds t; st_RequiredPermissions := st_RequiredPermissions t;
     st_SortOrder := st_SortOrder t; st_Dependencies := st_Dependencies t; st_Included := st_Included t;
     st_ExcludedReason := st_ExcludedReason t |}.

Definition issue_row (env : plenv) (p : DeploymentPlan) (i : nat) (x : DeploymentPlanIssue) : DeploymentPlanIssue :=
  {| iss_ID := new_issue_id env i; iss_DeploymentPlanID := pl_ID p; iss_OrganizationID := pl_OrganizationID p;
     iss_Severity := iss_Severity x; iss_Code := iss_Code x; iss_Field := iss_Field x; iss_Message := iss_Message x;
     iss_SortOrder := iss_SortOrder x |}.

Definition deploymentPlanVariableJSONValue (v : DeploymentPlanVariable) : option string :=
  if rv_Redacted (vr_Variable v) || bool_decide (default "" (rv_Value (vr_Variable v)) = "") then None
  else rv_Value (vr_Variable v).

Definition variable_row `{Jsonb} (env : plenv) (p : DeploymentPlan) (i : nat) (v : DeploymentPlanVariable)
    : DeploymentPlanVariable :=
  {| vr_ID := new_variable_id env i; vr_DeploymentPlanID := pl_ID p; vr_OrganizationID := pl_OrganizationID p;
     vr_Variable := with_value (deploymentPlanVariableJSONValue v ≫= jsonb_text) (vr_Variable v) |}.

(** ** Insertion *)

Abbreviation plx := (stx pldb).

(** [mapDeploymentPlanWriteError]: a missing reference, a key that is taken, a
    value that violates a check, and every other error. *)
Inductive write_error := ForeignKeyViolation | UniqueViolation | CheckViolation | OtherWriteError.

Definition mapDeploymentPlanWriteError (action : string) (e : write_error) : apierror :=
  match e with
  | ForeignKeyViolation => NotFound
  | UniqueViolation => Conflict ("could not " +:+ action +:+ " DeploymentPlan")
  | CheckViolation => BadRequest ("could not " +:+ action +:+ " DeploymentPlan")
  | OtherWriteError => Internal ("could not " +:+ action +:+ " DeploymentPlan")
  end.

(** [COPY]: the values are encoded, then every row is checked and its keys are
    compared with those of the rows before it. *)
Fixpoint copy_rows {A} (check : A -> bool) (taken : A -> A -> bool) (table rows : list A)
    : result write_error (list A) :=
  match rows with
  | [] => Ok table
  | x :: rows =>
      if negb (check x) then Err CheckViolation else
      if exists_where (taken x) table then Err UniqueViolation else copy_rows check taken (table ++ [x]) rows
  end.

Definition copy_from {A} (encodes check : A -> bool) (taken : A -> A -> bool) (table rows : list A)
    : result write_error (list A) :=
  if forallb encodes rows then copy_rows check taken table rows else Err OtherWriteError.

Definition set_plan_rows (plans : list DeploymentPlan) (s : pldb) : pldb :=
  {| LiveOrganizations := LiveOrganizations s; TargetRows := TargetRows s; BundleRows := BundleRows s;
     EnvironmentRows := EnvironmentRows s; ChannelRows := ChannelRows s; LifecycleRows := LifecycleRows s;
     StateRows := StateRows s; ProcessSnapshotRows := ProcessSnapshotRows s;
     VariableSnapshotRows := VariableSnapshotRows s; CapabilityReports := CapabilityReports s; PlanRows := plans;
     PlanTargetRows := PlanTargetRows s; PlanComponentRows := PlanComponentRows s; PlanStepRows := PlanStepRows s;
     PlanVariableRows := PlanVariableRows s; PlanIssueRows := PlanIssueRows s |}.

Definition set_part_rows (targets : list DeploymentPlanTarget) (components : list DeploymentPlanTargetComponent)
    (steps : list DeploymentPlanStep) (variables : list DeploymentPlanVariable) (issues : list DeploymentPlanIssue)
    (s : pldb) : pldb :=
  {| LiveOrganizations := LiveOrganizations s; TargetRows := TargetRows s; BundleRows := BundleRows s;
     EnvironmentRows := EnvironmentRows s; ChannelRows := ChannelRows s; LifecycleRows := LifecycleRows s;
     StateRows := StateRows s; ProcessSnapshotRows := ProcessSnapshotRows s;
     VariableSnapshotRows := VariableSnapshotRows s; CapabilityReports := CapabilityReports s; PlanRows := PlanRows s;
     PlanTargetRows := targets; PlanComponentRows := components; PlanStepRows := steps;
     PlanVariableRows := variables; PlanIssueRows := issues |}.

(** The references of the header; those to the release and the environment hold
    because they were just read. *)
Definition references_exist (p : DeploymentPlan) (s : pldb) : bool :=
  match pl_ProcessSnapshotID p with
  | Some id => exists_where (λ x, bool_decide (psn_ID x = id) && bool_decide (psn_ApplicationID x = pl_ApplicationID p)
                 && bool_decide (psn_OrganizationID x = pl_OrganizationID p)) (ProcessSnapshotRows s)
  | None => true
  end
  && match pl_VariableSnapshotID p with
     | Some id => exists_where (λ x, bool_decide (vsn_ID x = id) && bool_decide (vsn_ApplicationID x = pl_ApplicationID p)
                    && bool_decide (vsn_ChannelID x = pl_ChannelID p)
                    && bool_decide (vsn_OrganizationID x = pl_OrganizationID p)) (VariableSnapshotRows s)
     | None => true
     end.

Definition insertDeploymentPlan (p : DeploymentPlan) : plx unit := λ s,
  if contains (pl_ID <$> PlanRows s) (pl_ID p) then Err (mapDeploymentPlanWriteError "insert" UniqueViolation) else
  if negb (references_exist p s) then Err (mapDeploymentPlanWriteError "insert" ForeignKeyViolation) else
  Ok (tt, set_plan_rows (PlanRows s ++ [header p]) s).

(** Write the result of a copy, or fail with its mapped error. *)
Definition copied {A} (action : string) (r : result write_error (list A)) (set : list A -> pldb -> pldb) : plx unit :=
  λ s, match r with Ok table => Ok (tt, set table s) | Err e => Err (mapDeploymentPlanWriteError action e) end.

Definition platform_known (s : string) : bool := contains ["linux/amd64"; "linux/arm64"] s.

(** [sha256:[0-9a-f]{64}] *)
Definition lower_digest (s : string) : bool := IsSHA256Digest s && bool_decide (ToLower s = s).

(** [length(trim(s)) > 0]: [trim] removes blanks only. *)
Definition not_blank (s : string) : bool :=
  existsb (λ a, negb (code a =? 32)%N) (String.list_ascii_of_string s).

Definition insertDeploymentPlanTargets (p : DeploymentPlan) : plx unit := λ s,
  copied "insert targets"
    (copy_from (λ t, fits_int4 (dt_SortOrder t)) (λ t, (0 <=? dt_SortOrder t)%Z && platform_known (dt_Platform t))
      (λ t u, bool_decide (dt_ID u = dt_ID t)
        || bool_decide (dt_DeploymentPlanID u = dt_DeploymentPlanID t)
           && bool_decide (dt_DeploymentTargetID u = dt_DeploymentTargetID t))
      (PlanTargetRows s) (target_row p <$> pl_Targets p))
    (λ l s, set_part_rows l (PlanComponentRows s) (PlanStepRows s) (PlanVariableRows s) (PlanIssueRows s) s) s.

Definition component_ok (c : DeploymentPlanTargetComponent) : bool :=
  not_blank (tc_Component c) && not_blank (tc_Version c) && not_blank (tc_Image c) && platform_known (tc_Platform c)
  && lower_digest (tc_ConfigChecksum c) && (0 <=? tc_ExpectedStateVersion c)%Z
  && (bool_decide (tc_ExpectedStateChecksum c = "") || lower_digest (tc_ExpectedStateChecksum c))
  && (0 <=? tc_SortOrder c)%Z.

Definition insertDeploymentPlanTargetComponents (p : DeploymentPlan) : plx unit := λ s,
  copied "insert target components"
    (copy_from (λ c, fits_int4 (tc_SortOrder c)) component_ok
      (λ c d, bool_decide (tc_ID d = tc_ID c)
        || bool_decide (tc_DeploymentPlanID d = tc_DeploymentPlanID c)
           && bool_decide (tc_DeploymentPlanTargetID d = tc_DeploymentPlanTargetID c)
           && bool_decide (tc_Component d = tc_Component c))
      (PlanComponentRows s) (component_row p <$> pl_TargetComponents p))
    (λ l s, set_part_rows (PlanTargetRows s) l (PlanStepRows s) (PlanVariableRows s) (PlanIssueRows s) s) s.

Definition insertDeploymentPlanSteps (env : plenv) (p : DeploymentPlan) : plx unit := λ s,
  copied "insert steps"
    (copy_from (λ t, fits_int4 (st_TimeoutSeconds t) && fits_int4 (st_RetryMaxAttempts t)
                     && fits_int4 (st_RetryIntervalSeconds t) && fits_int4 (st_SortOrder t))
      (λ t, (0 <=? st_TimeoutSeconds t)%Z && (0 <=? st_RetryMaxAttempts t)%Z && (0 <=? st_RetryIntervalSeconds t)%Z
            && (0 <=? st_SortOrder t)%Z)
      (λ t u, bool_decide (st_ID u = st_ID t)
        || bool_decide (st_DeploymentPlanID u = st_DeploymentPlanID t) && bool_decide (st_StepKey u = st_StepKey t))
      (PlanStepRows s) (imap (step_row env p) (pl_Steps p)))
    (λ l s, set_part_rows (PlanTargetRows s) (PlanComponentRows s) l (PlanVariableRows s) (PlanIssueRows s) s) s.

Definition insertDeploymentPlanIssues (env : plenv) (p : DeploymentPlan) : plx unit := λ s,
  copied "insert issues"
    (copy_from (λ i, fits_int4 (iss_SortOrder i)) (λ i, (0 <=? iss_SortOrder i)%Z)
      (λ i j, bool_decide (iss_ID j = iss_ID i)) (PlanIssueRows s) (imap (issue_row env p) (pl_Issues p)))
    (λ l s, set_part_rows (PlanTargetRows s) (PlanComponentRows s) (PlanStepRows s) (PlanVariableRows s) l s) s.

Definition known_variable_type (t : VariableType) : bool := match t with VariableTypeOther _ => false | _ => true end.

(** ** Reading *)

Section tables.
Context `{SchemaValidator, Collation, Crypto, Jsonb}.

(** A value that the database refuses ends the copy. *)
Definition value_stored (v : DeploymentPlanVariable) : bool :=
  match deploymentPlanVariableJSONValue v with Some value => bool_decide (is_Some (jsonb_text value)) | None => true end.

Definition insertDeploymentPlanVariables (env : plenv) (p : DeploymentPlan) : plx unit := λ s,
  copied "insert variables"
    (if forallb value_stored (pl_Variables p)
     then copy_from (λ _, true) (λ v, known_variable_type (rv_Type (vr_Variable v)))
            (λ v w, bool_decide (vr_ID w = vr_ID v)
              || bool_decide (vr_DeploymentPlanID w = vr_DeploymentPlanID v)
                 && bool_decide (rv_VariableID (vr_Variable w) = rv_VariableID (vr_Variable v)))
            (PlanVariableRows s) (imap (variable_row env p) (pl_Variables p))
     else Err OtherWriteError)
    (λ l s, set_part_rows (PlanTargetRows s) (PlanComponentRows s) (PlanStepRows s) l (PlanIssueRows s) s) s.

(** The order of texts in the database, with equal texts ordered by [next]. *)
Definition text_then {A} (f : A -> string) (next : A -> A -> bool) (x y : A) : bool :=
  if bool_decide (f x = f y) then next x y else name_less (f x) (f y).
Definition never {A} (_ _ : A) : bool := false.

Definition getDeploymentPlanTargets (plan org : uuid) (s : pldb) : list DeploymentPlanTarget :=
  stable_sort (less_then dt_SortOrder (less_str_by (λ t, uuid_string (dt_DeploymentTargetID t))))
    (select_where (λ t, bool_decide (dt_DeploymentPlanID t = plan) && bool_decide (dt_OrganizationID t = org))
      (PlanTargetRows s)).

Definition component_less (x y : DeploymentPlanTargetComponent) : bool :=
  if bool_decide (tc_DeploymentPlanTargetID x = tc_DeploymentPlanTargetID y)
  then less_then tc_SortOrder (text_then tc_Component never) x y
  else less_str_by (λ c, uuid_string (tc_DeploymentPlanTargetID c)) x y.

Definition getDeploymentPlanTargetComponents (plan org : uuid) (s : pldb) : list DeploymentPlanTargetComponent :=
  stable_sort component_less
    (select_where (λ c, bool_decide (tc_DeploymentPlanID c = plan) && bool_decide (tc_OrganizationID c = org))
      (PlanComponentRows s)).

Definition getDeploymentPlanSteps (plan org : uuid) (s : pldb) : list DeploymentPlanStep :=
  stable_sort (less_then st_SortOrder (text_then st_StepKey never))
    (select_where (λ t, bool_decide (st_DeploymentPlanID t = plan) && bool_decide (st_OrganizationID t = org))
      (PlanStepRows s)).

(** A JSON null is no value. *)
Definition scan_variable (v : DeploymentPlanVariable) : DeploymentPlanVariable :=
  {| vr_ID := vr_ID v; vr_DeploymentPlanID := vr_DeploymentPlanID v; vr_OrganizationID := vr_OrganizationID v;
     vr_Variable := with_value (match rv_Value (vr_Variable v) with
       | Some t => if bool_decide (t = "") || bool_decide (t = "null") then None else Some t
       | None => None
       end) (vr_Variable v) |}.

Definition variable_row_less : DeploymentPlanVariable -> DeploymentPlanVariable -> bool :=
  text_then (λ v, rv_Key (vr_Variable v))
    (λ x y, if bool_decide (rv_VariableSetID (vr_Variable x) = rv_VariableSetID (vr_Variable y))
            then less_str_by (λ v, uuid_string (rv_VariableID (vr_Variable v))) x y
            else less_str_by (λ v, uuid_string (rv_VariableSetID (vr_Variable v))) x y).

Definition getDeploymentPlanVariables (plan org : uuid) (s : pldb) : list DeploymentPlanVariable :=
  scan_variable <$> stable_sort variable_row_less
    (select_where (λ v, bool_decide (vr_DeploymentPlanID v = plan) && bool_decide (vr_OrganizationID v = org))
      (PlanVariableRows s)).

Definition getDeploymentPlanIssues (plan org : uuid) (s : pldb) : list DeploymentPlanIssue :=
  stable_sort (less_then iss_SortOrder (text_then (λ i, severity_string (iss_Severity i)) (text_then iss_Code never)))
    (select_where (λ i, bool_decide (iss_DeploymentPlanID i = plan) && bool_decide (iss_OrganizationID i = org))
      (PlanIssueRows s)).

(** The preflight runs of the plan are left out. *)
Definition hydrateDeploymentPlan (p : DeploymentPlan) (s : pldb) : DeploymentPlan :=
  with_lists (getDeploymentPlanTargets (pl_ID p) (pl_OrganizationID p) s)
    (getDeploymentPlanTargetComponents (pl_ID p) (pl_OrganizationID p) s)
    (getDeploymentPlanSteps (pl_ID p) (pl_OrganizationID p) s)
    (getDeploymentPlanVariables (pl_ID p) (pl_OrganizationID p) s)
    (getDeploymentPlanIssues (pl_ID p) (pl_OrganizationID p) s) p.

Definition getDeploymentPlan (id org : uuid) (s : pldb) : result apierror DeploymentPlan :=
  find_row (λ p, bool_decide (pl_ID p = id) && bool_decide (pl_OrganizationID p = org)) (PlanRows s) ≫= λ p,
  Ok (hydrateDeploymentPlan p s).

(** ** Creation *)

Definition create_plan (env : plenv) (r : CreateDeploymentPlanRequest) : plx DeploymentPlan :=
  squery (resolveDeploymentPlan env r) ≫= λ plan,
  slift (setDeploymentPlanCanonicalFields plan) ≫= λ plan,
  insertDeploymentPlan plan ≫= λ _,
  insertDeploymentPlanTargets plan ≫= λ _,
  insertDeploymentPlanTargetComponents plan ≫= λ _,
  insertDeploymentPlanSteps env plan ≫= λ _,
  insertDeploymentPlanVariables env plan ≫= λ _,
  insertDeploymentPlanIssues env plan ≫= λ _,
  squery (getDeploymentPlan (pl_ID plan) (pl_OrganizationID plan)).

Definition CreateDeploymentPlan (env : plenv) (r : CreateDeploymentPlanRequest) (s : pldb)
    : result apierror DeploymentPlan * pldb :=
  match validateDeploymentPlanRequest r with
  | Err e => (Err e, s)
  | Ok _ => RunSTx (create_plan env r) s
  end.
End tables.

(** ** Execution ([markDeploymentPlanExecuted] of [internal/db/task_queue.go]) *)

Definition markDeploymentPlanExecuted (plan org : uuid) : plx unit := λ s,
  let cond p := bool_decide (pl_ID p = plan) && bool_decide (pl_OrganizationID p = org)
                && bool_decide (pl_Status p = DeploymentPlanStatusReady) in
  if bool_decide (length (select_where cond (PlanRows s)) = 1)
  then Ok (tt, set_plan_rows (update_where cond
         (λ p, with_header DeploymentPlanStatusExecuted (pl_CanonicalChecksum p) (pl_CanonicalPayload p) p) (PlanRows s)) s)
  else Err (Conflict "deployment plan must be READY before tasks can be created").
