(* ===== verification/PlanGuarantees.v ===== *)
(** * Deployment plans: what is stored stays

    A created plan is read back as it was resolved, and nothing changes it
    later but the mark that it was executed. *)
From S2P Require Import Prelude GoStrings Uuid GoJson Preflight TaskStore Transaction Lifecycle VariableResolution VariableJson StepRedaction JsonDecode JsonStruct ActionRegistry ExternalExecution DeploymentProcess Conditions ReleaseContract DeploymentPlans PlanResolution PlanTables.
Open Scope list_scope.

(** ** Copies *)

Lemma copy_rows_ok {A} (check : A -> bool) taken table rows out :
  copy_rows check taken table rows = Ok out -> out = table ++ rows /\ Forall (λ x, check x = true) rows.
Proof.
  revert table. induction rows as [|x rows IH]; intros table; simpl.
  { intros [= <-]. split; [by rewrite app_nil_r|done]. }
  destruct (check x) eqn:E; [|done]. simpl. case_match; [done|]. intros [-> Hf]%IH.
  split; [by rewrite <- app_assoc|by constructor].
Qed.

Lemma copied_ok {A} action (encodes check : A -> bool) taken table rows set s u s' :
  copied action (copy_from encodes check taken table rows) set s = Ok (u, s') ->
  s' = set (table ++ rows) s /\ Forall (λ x, check x = true) rows.
Proof.
  unfold copied, copy_from. destruct (forallb encodes rows); [|done].
  destruct (copy_rows check taken table rows) as [out|] eqn:E; [|done]. intros [= _ <-].
  by apply copy_rows_ok in E as [-> ?].
Qed.

Section tables.
Context `{SchemaValidator, Collation, Crypto, Jsonb}.

(** The plan as it is written: the resolved one with its checksum and payload. *)
Definition final_plan (resolved : DeploymentPlan) (payload : string) : DeploymentPlan :=
  with_header (pl_Status resolved) ("sha256:" +:+ sha256_hex payload) payload resolved.

(** The tables after the creation of [p]. *)
Definition with_plan (env : plenv) (p : DeploymentPlan) (s : pldb) : pldb :=
  set_part_rows (PlanTargetRows s ++ (target_row p <$> pl_Targets p))
    (PlanComponentRows s ++ (component_row p <$> pl_TargetComponents p))
    (PlanStepRows s ++ imap (step_row env p) (pl_Steps p))
    (PlanVariableRows s ++ imap (variable_row env p) (pl_Variables p))
    (PlanIssueRows s ++ imap (issue_row env p) (pl_Issues p))
    (set_plan_rows (PlanRows s ++ [header p]) s).

Lemma insert_header_ok p s u s' :
  insertDeploymentPlan p s = Ok (u, s') ->
  (pl_ID p ∉ pl_ID <$> PlanRows s) /\ references_exist p s = true /\ s' = set_plan_rows (PlanRows s ++ [header p]) s.
Proof.
  unfold insertDeploymentPlan. destruct (contains _ _) eqn:E; [done|]. destruct (references_exist p s) eqn:Er; [|done].
  intros [= _ <-]. by apply contains_false in E.
Qed.

Lemma insert_variables_ok env p s u s' :
  insertDeploymentPlanVariables env p s = Ok (u, s') ->
  s' = set_part_rows (PlanTargetRows s) (PlanComponentRows s) (PlanStepRows s)
         (PlanVariableRows s ++ imap (variable_row env p) (pl_Variables p)) (PlanIssueRows s) s.
Proof. unfold insertDeploymentPlanVariables. destruct (forallb value_stored _); [|done]. by intros [-> _]%copied_ok. Qed.

(** The part rows, in the order in which they are written. *)
Definition insert_parts (env : plenv) (p : DeploymentPlan) : stx pldb unit :=
  insertDeploymentPlanTargets p ≫= λ _, insertDeploymentPlanTargetComponents p ≫= λ _,
  insertDeploymentPlanSteps env p ≫= λ _, insertDeploymentPlanVariables env p ≫= λ _, insertDeploymentPlanIssues env p.

Lemma insert_parts_ok env p s u s' :
  insert_parts env p s = Ok (u, s') ->
  Forall (λ c, component_ok c = true) (component_row p <$> pl_TargetComponents p)
  /\ s' = set_part_rows (PlanTargetRows s ++ (target_row p <$> pl_Targets p))
    (PlanComponentRows s ++ (component_row p <$> pl_TargetComponents p))
    (PlanStepRows s ++ imap (step_row env p) (pl_Steps p))
    (PlanVariableRows s ++ imap (variable_row env p) (pl_Variables p))
    (PlanIssueRows s ++ imap (issue_row env p) (pl_Issues p)) s.
Proof.
  unfold insert_parts. intros (? & s1 & [-> _]%copied_ok & E)%stx_bind_ok.
  apply stx_bind_ok in E as (? & s2 & [-> Hc]%copied_ok & E).
  apply stx_bind_ok in E as (? & s3 & [-> _]%copied_ok & E).
  apply stx_bind_ok in E as (? & s4 & ->%insert_variables_ok & E).
  apply copied_ok in E as [-> _]. done.
Qed.

Lemma create_plan_parts env r s :
  create_plan env r s =
  (squery (resolveDeploymentPlan env r) ≫= λ plan, slift (setDeploymentPlanCanonicalFields plan) ≫= λ plan,
   insertDeploymentPlan plan ≫= λ _, insert_parts env plan ≫= λ _,
   squery (getDeploymentPlan (pl_ID plan) (pl_OrganizationID plan))) s.
Proof.
  unfold create_plan, insert_parts, mbind, stx_bind. repeat (case_match; simplify_eq; try done).
Qed.

Lemma create_plan_ok env r s plan s' :
  create_plan env r s = Ok (plan, s') ->
  exists resolved payload, resolveDeploymentPlan env r s = Ok resolved
    /\ canonicalizeDeploymentPlan resolved = Some payload
    /\ let p := final_plan resolved payload in
       (pl_ID p ∉ pl_ID <$> PlanRows s) /\ references_exist p s = true
       /\ Forall (λ c, component_ok c = true) (component_row p <$> pl_TargetComponents p)
       /\ s' = with_plan env p s /\ getDeploymentPlan (pl_ID p) (pl_OrganizationID p) s' = Ok plan.
Proof.
  rewrite create_plan_parts. intros (resolved & ? & [Hr ->]%squery_ok & E)%stx_bind_ok.
  apply stx_bind_ok in E as (p & ? & [Hc ->]%slift_ok & E). unfold setDeploymentPlanCanonicalFields in Hc.
  destruct (canonicalizeDeploymentPlan resolved) as [payload|] eqn:Ep; [|done]. injection Hc as <-.
  apply stx_bind_ok in E as (? & s1 & (Hf & Hx & ->)%insert_header_ok & E).
  apply stx_bind_ok in E as (? & s2 & [Hc ->]%insert_parts_ok & [Hg ->]%squery_ok).
  by exists resolved, payload.
Qed.

(** ** Reading *)

Definition of_plan {A} (owner org : A -> uuid) (id o : uuid) (x : A) : bool :=
  bool_decide (owner x = id) && bool_decide (org x = o).

Lemma select_appended {A} (owner org : A -> uuid) id o old new :
  (forall x, x ∈ old -> owner x <> id) -> (forall x, x ∈ new -> owner x = id /\ org x = o) ->
  select_where (of_plan owner org id o) (old ++ new) = new.
Proof.
  intros Ho Hn. rewrite filter_app_bool, select_none; simpl.
  - apply filter_all_bool. intros x Hx. unfold of_plan. destruct (Hn x Hx) as [-> ->]. by rewrite !bool_decide_eq_true_2.
  - intros x Hx. unfold of_plan. by rewrite (bool_decide_eq_false_2 _ (Ho x Hx)).
Qed.

Lemma select_before {A} (owner org : A -> uuid) id o old new :
  (forall x, x ∈ new -> owner x <> id) ->
  select_where (of_plan owner org id o) (old ++ new) = select_where (of_plan owner org id o) old.
Proof.
  intros Hn. rewrite filter_app_bool, (select_none _ new), app_nil_r; [done|].
  intros x Hx. unfold of_plan. by rewrite (bool_decide_eq_false_2 _ (Hn x Hx)).
Qed.

(** Plans have distinct ids, and every part belongs to a plan. *)
Record plans_inv (s : pldb) : Prop := {
  pi_ids : NoDup (pl_ID <$> PlanRows s);
  pi_targets : forall x, x ∈ PlanTargetRows s -> dt_DeploymentPlanID x ∈ pl_ID <$> PlanRows s;
  pi_components : forall x, x ∈ PlanComponentRows s -> tc_DeploymentPlanID x ∈ pl_ID <$> PlanRows s;
  pi_steps : forall x, x ∈ PlanStepRows s -> st_DeploymentPlanID x ∈ pl_ID <$> PlanRows s;
  pi_variables : forall x, x ∈ PlanVariableRows s -> vr_DeploymentPlanID x ∈ pl_ID <$> PlanRows s;
  pi_issues : forall x, x ∈ PlanIssueRows s -> iss_DeploymentPlanID x ∈ pl_ID <$> PlanRows s;
}.

(** The rows that the creation of [p] writes belong to [p]. *)
Lemma fmap_owned {A B} (f : A -> B) (owner org : B -> uuid) id o (l : list A) :
  (forall x, owner (f x) = id /\ org (f x) = o) -> forall y, y ∈ f <$> l -> owner y = id /\ org y = o.
Proof. intros Hf y (x & -> & _)%list_elem_of_fmap. apply Hf. Qed.

Lemma imap_owned {A B} (f : nat -> A -> B) (owner org : B -> uuid) id o (l : list A) :
  (forall i x, owner (f i x) = id /\ org (f i x) = o) -> forall y, y ∈ imap f l -> owner y = id /\ org y = o.
Proof. intros Hf y (i & x & _ & ->)%elem_of_imap. apply Hf. Qed.

Lemma with_plan_inv env p s : plans_inv s -> (pl_ID p ∉ pl_ID <$> PlanRows s) -> plans_inv (with_plan env p s).
Proof.
  intros [Hn H1' H2' H3 H4 H5] Hf.
  assert (pl_ID <$> PlanRows (with_plan env p s) = (pl_ID <$> PlanRows s) ++ [pl_ID p]) as E by by rewrite <- (fmap_app pl_ID _ [header p]).
  split; rewrite E; cbn [with_plan set_part_rows PlanTargetRows PlanComponentRows PlanStepRows PlanVariableRows PlanIssueRows];
    [by rewrite (Permutation_app_comm _ [_]); apply NoDup_cons|..]; intros x [Hx|Hx]%elem_of_app; apply elem_of_app; try (left; by auto); right;
    apply list_elem_of_singleton.
  - apply list_elem_of_fmap in Hx as (y & -> & _). done.
  - apply list_elem_of_fmap in Hx as (y & -> & _). done.
  - apply elem_of_imap in Hx as (i & y & _ & ->). done.
  - apply elem_of_imap in Hx as (i & y & _ & ->). done.
  - apply elem_of_imap in Hx as (i & y & _ & ->). done.
Qed.

(** The parts of a new plan. *)
Lemma read_new env p s :
  plans_inv s -> (pl_ID p ∉ pl_ID <$> PlanRows s) ->
  let q := hydrateDeploymentPlan (header p) (with_plan env p s) in
  header q = header p
  /\ pl_Targets q = stable_sort (less_then dt_SortOrder (less_str_by (λ t, uuid_string (dt_DeploymentTargetID t))))
       (target_row p <$> pl_Targets p)
  /\ pl_TargetComponents q = stable_sort component_less (component_row p <$> pl_TargetComponents p)
  /\ pl_Steps q = stable_sort (less_then st_SortOrder (text_then st_StepKey never)) (imap (step_row env p) (pl_Steps p))
  /\ pl_Variables q = scan_variable <$> stable_sort variable_row_less (imap (variable_row env p) (pl_Variables p))
  /\ pl_Issues q = stable_sort (less_then iss_SortOrder (text_then (λ i, severity_string (iss_Severity i)) (text_then iss_Code never)))
       (imap (issue_row env p) (pl_Issues p)).
Proof.
  intros [Hn H1' H2' H3 H4 H5] Hf. cbv zeta. split; [done|]. unfold hydrateDeploymentPlan.
  cbn [pl_Targets pl_TargetComponents pl_Steps pl_Variables pl_Issues with_lists header pl_ID pl_OrganizationID].
  split_and!.
  - apply (f_equal (stable_sort _)). apply (select_appended dt_DeploymentPlanID dt_OrganizationID).
    + intros x Hx E. apply Hf. rewrite <- E. by apply H1'.
    + by apply fmap_owned.
  - apply (f_equal (stable_sort _)). apply (select_appended tc_DeploymentPlanID tc_OrganizationID).
    + intros x Hx E. apply Hf. rewrite <- E. by apply H2'.
    + by apply fmap_owned.
  - apply (f_equal (stable_sort _)). apply (select_appended st_DeploymentPlanID st_OrganizationID).
    + intros x Hx E. apply Hf. rewrite <- E. by apply H3.
    + by apply imap_owned.
  - apply (f_equal (λ l, scan_variable <$> stable_sort variable_row_less l)).
    apply (select_appended vr_DeploymentPlanID vr_OrganizationID).
    + intros x Hx E. apply Hf. rewrite <- E. by apply H4.
    + by apply imap_owned.
  - apply (f_equal (stable_sort _)). apply (select_appended iss_DeploymentPlanID iss_OrganizationID).
    + intros x Hx E. apply Hf. rewrite <- E. by apply H5.
    + by apply imap_owned.
Qed.

(** The parts of the other plans stay. *)
Lemma read_old env p q s :
  pl_ID q <> pl_ID p -> hydrateDeploymentPlan q (with_plan env p s) = hydrateDeploymentPlan q s.
Proof.
  intros Hne. unfold hydrateDeploymentPlan. f_equal.
  - apply (f_equal (stable_sort _)), (select_before dt_DeploymentPlanID dt_OrganizationID).
    by intros x (y & -> & _)%list_elem_of_fmap E.
  - apply (f_equal (stable_sort _)), (select_before tc_DeploymentPlanID tc_OrganizationID).
    by intros x (y & -> & _)%list_elem_of_fmap E.
  - apply (f_equal (stable_sort _)), (select_before st_DeploymentPlanID st_OrganizationID).
    by intros x (i & y & _ & ->)%elem_of_imap E.
  - apply (f_equal (λ l, scan_variable <$> stable_sort variable_row_less l)).
    apply (select_before vr_DeploymentPlanID vr_OrganizationID). by intros x (i & y & _ & ->)%elem_of_imap E.
  - apply (f_equal (stable_sort _)), (select_before iss_DeploymentPlanID iss_OrganizationID).
    by intros x (i & y & _ & ->)%elem_of_imap E.
Qed.

(** ** A created plan is read back *)

Lemma StronglySorted_by_index {A} (R : A -> A -> Prop) l :
  (forall i j x y, i < j -> l !! i = Some x -> l !! j = Some y -> R x y) -> StronglySorted R l.
Proof.
  induction l as [|x l IH]; intros Hl; constructor.
  - apply IH. intros i j y z Hij. apply (Hl (S i) (S j)). lia.
  - apply Forall_forall. intros y [j Hj]%list_elem_of_lookup. apply (Hl 0 (S j)); [lia|done..].
Qed.

Lemma smaller_not_after {A} (f : A -> Z) next x y : (f x < f y)%Z -> not_after (less_then f next) x y.
Proof. intros Hlt. unfold not_after, less_then. destruct (Z.eqb_spec (f y) (f x)); [lia|]. apply Z.ltb_ge. lia. Qed.

Lemma numbered_sort {A} (f : A -> Z) next l :
  (forall i x, l !! i = Some x -> f x = ((Z.of_nat i + 1) * 10)%Z) -> stable_sort (less_then f next) l = l.
Proof.
  intros Hl. apply stable_sort_id, StronglySorted_by_index. intros i j x y Hij Hx Hy. apply smaller_not_after.
  rewrite (Hl i x Hx), (Hl j y Hy). lia.
Qed.

Lemma resolved_numbering env r s p :
  resolveDeploymentPlan env r s = Ok p ->
  numbered p /\ forall i t, pl_Targets p !! i = Some t -> dt_SortOrder t = ((Z.of_nat i + 1) * 10)%Z.
Proof.
  intros (bundle & targets & _ & Ht & Hc)%resolve_ok. split; [exact (cp_numbered _ _ _ _ _ Hc)|].
  rewrite (f_equal pl_Targets (cp_core _ _ _ _ _ Hc) : pl_Targets p = targets).
  unfold resolveDeploymentPlanTargets in Ht. case_match; [done|]. injection Ht as <-. intros i t.
  rewrite list_lookup_imap. by intros (row & _ & ->)%fmap_Some.
Qed.


(** ** Nothing else happens to plans *)

(** The creation of a plan, the mark that it was executed, and whatever leaves
    the tables of plans alone. The removal of an organization with all its rows
    is left out. *)
Definition same_plans (s s' : pldb) : Prop :=
  PlanRows s' = PlanRows s /\ PlanTargetRows s' = PlanTargetRows s /\ PlanComponentRows s' = PlanComponentRows s
  /\ PlanStepRows s' = PlanStepRows s /\ PlanVariableRows s' = PlanVariableRows s /\ PlanIssueRows s' = PlanIssueRows s.

Inductive plans_step (s : pldb) : pldb -> Prop :=
| step_create env r res s' : CreateDeploymentPlan env r s = (res, s') -> plans_step s s'
| step_execute id org res s' : RunSTx (markDeploymentPlanExecuted id org) s = (res, s') -> plans_step s s'
| step_other s' : same_plans s s' -> plans_step s s'.

(** The same plan, or the same but executed where it was ready. *)
Definition evolves (p q : DeploymentPlan) : Prop :=
  q = p \/ pl_Status p = DeploymentPlanStatusReady
            /\ q = with_header DeploymentPlanStatusExecuted (pl_CanonicalChecksum p) (pl_CanonicalPayload p) p.

Lemma evolves_trans p q t : evolves p q -> evolves q t -> evolves p t.
Proof. unfold evolves. intros [->|[E ->]] [->|[E' ->]]; [by left|by right|by right|]. by simpl in E'. Qed.

Definition keeps_plans (s s' : pldb) : Prop :=
  forall id org p, getDeploymentPlan id org s = Ok p -> exists q, getDeploymentPlan id org s' = Ok q /\ evolves p q.

Lemma getDeploymentPlan_ok id org s p :
  NoDup (pl_ID <$> PlanRows s) ->
  getDeploymentPlan id org s = Ok p <->
  exists h, h ∈ PlanRows s /\ pl_ID h = id /\ pl_OrganizationID h = org /\ p = hydrateDeploymentPlan h s.
Proof.
  intros Hn. unfold getDeploymentPlan. rewrite result_bind_ok. split.
  - intros (h & [Hh E]%find_row_ok & [= <-]). to_prop. by exists h.
  - intros (h & Hh & <- & <- & ->). exists h. split; [|done]. unfold find_row.
    destruct (select_where _ (PlanRows s)) as [|x l] eqn:E.
    + assert (h ∈ @nil DeploymentPlan) as []%elem_of_nil. rewrite <- E. apply elem_of_select_where. split; [done|].
      by rewrite !bool_decide_eq_true_2.
    + f_equal. assert (x ∈ x :: l) as Hx by by left. rewrite <- E in Hx. apply elem_of_select_where in Hx as [Hx Ec].
      to_prop. by apply (NoDup_fmap_elem pl_ID (PlanRows s)).
Qed.

(** What holds of every stored plan. *)
Record consistent (p : DeploymentPlan) : Prop := {
  cs_checksum : pl_CanonicalChecksum p = "sha256:" +:+ sha256_hex (pl_CanonicalPayload p);
  cs_status : pl_Status p = DeploymentPlanStatusBlocked /\ blocked p = true
    \/ (pl_Status p = DeploymentPlanStatusReady \/ pl_Status p = DeploymentPlanStatusExecuted) /\ blocked p = false;
  cs_issues : numbered p;
  cs_components : components_owned p;
}.

Lemma consistent_evolves p q : consistent p -> evolves p q -> consistent q.
Proof.
  intros Hc [->|[E ->]]; [done|]. destruct Hc as [H1' Hs H3 H4]. split; try done. right. split; [by right|].
  destruct Hs as [[E' _]|[_ Hb]]; [congruence|exact Hb].
Qed.

Lemma blocked_ext p q : iss_Severity <$> pl_Issues p = iss_Severity <$> pl_Issues q -> blocked p = blocked q.
Proof.
  unfold blocked, deploymentPlanHasBlockers. intros E.
  assert (forall l, existsb (λ i, bool_decide (iss_Severity i = SeverityBlocker)) l
    = existsb (λ x, bool_decide (x = SeverityBlocker)) (iss_Severity <$> l)) as Hm.
  { induction l as [|x l IH]; [done|]. simpl. by rewrite IH. }
  by rewrite !Hm, E.
Qed.

Lemma created_consistent env r s p payload :
  resolveDeploymentPlan env r s = Ok p ->
  let q := final_plan p payload in
  plans_inv s -> (pl_ID q ∉ pl_ID <$> PlanRows s) -> consistent (hydrateDeploymentPlan (header q) (with_plan env q s)).
Proof.
  intros Hr q Hinv Hfresh. destruct (resolved_numbering _ _ _ _ Hr) as [Hnum Htargets].
  apply resolve_ok in Hr as (bundle & targets & Hb & _ & Hc). pose proof (completed_owned _ _ _ _ _ _ Hc) as Ho.
  destruct (read_new env q s Hinv Hfresh) as (Q1 & Q2 & Q3 & _ & _ & Q6).
  assert (pl_Issues (hydrateDeploymentPlan (header q) (with_plan env q s)) = imap (issue_row env q) (pl_Issues q)) as Ei.
  { rewrite Q6. apply numbered_sort. intros i x. rewrite list_lookup_imap. intros (y & Hy & ->)%fmap_Some.
    exact (Hnum i y Hy). }
  assert (blocked (hydrateDeploymentPlan (header q) (with_plan env q s)) = blocked p) as Eb.
  { apply blocked_ext. rewrite Ei, fmap_imap. apply (imap_const iss_Severity). }
  split.
  - done.
  - change (pl_Status _) with (pl_Status p). rewrite Eb, (cp_status _ _ _ _ _ Hc). destruct (blocked p); [by left|].
    right. split; [by left|done].
  - intros i x. rewrite Ei, list_lookup_imap. intros (y & Hy & ->)%fmap_Some. exact (Hnum i y Hy).
  - intros c. rewrite Q3. intros (d & -> & Hd)%elem_of_stable_sort%list_elem_of_fmap.
    destruct (Ho d Hd) as (t & Ht & E). exists (target_row q t). split; [|exact E].
    rewrite Q2. apply elem_of_stable_sort. by apply list_elem_of_fmap_2.
Qed.

(** All stored plans are consistent. *)
Definition stored_consistent (s : pldb) : Prop := forall h, h ∈ PlanRows s -> consistent (hydrateDeploymentPlan h s).

Definition preserves (s s' : pldb) : Prop := plans_inv s' /\ stored_consistent s' /\ keeps_plans s s'.

Lemma preserves_refl s : plans_inv s -> stored_consistent s -> preserves s s.
Proof. intros Hi Hs. split_and!; [done..|]. intros id org p Hp. exists p. split; [done|by left]. Qed.

Lemma create_preserves env r s res s' :
  plans_inv s -> stored_consistent s -> CreateDeploymentPlan env r s = (res, s') -> preserves s s'.
Proof.
  intros Hinv Hcons. unfold CreateDeploymentPlan. destruct (validateDeploymentPlanRequest r);
    [|intros [= _ <-]; by apply preserves_refl].
  intros [(plan & _ & E)|(e & _ & _ & ->)]%RunSTx_cases; [|by apply preserves_refl].
  apply create_plan_ok in E as (p & payload & Hr & _ & Hfresh & _ & _ & -> & _).
  set (q := final_plan p payload) in *. pose proof (with_plan_inv env q s Hinv Hfresh) as Hinv'.
  assert (forall h, h ∈ PlanRows s -> hydrateDeploymentPlan h (with_plan env q s) = hydrateDeploymentPlan h s) as Hold.
  { intros h Hh. apply read_old. intros E. apply Hfresh. rewrite <- E. by apply list_elem_of_fmap_2. }
  split_and!; [done| |].
  - intros h [Hh| ->%list_elem_of_singleton]%elem_of_app; [rewrite Hold by done; by apply Hcons|].
    by apply (created_consistent env r s p payload).
  - intros id org x (h & Hh & E1 & E2 & ->)%getDeploymentPlan_ok; [|apply Hinv].
    exists (hydrateDeploymentPlan h s). split; [|by left]. apply getDeploymentPlan_ok; [apply Hinv'|]. exists h.
    split_and!; [|done..|by rewrite Hold]. apply elem_of_app. by left.
Qed.

Definition executed (p : DeploymentPlan) : DeploymentPlan :=
  with_header DeploymentPlanStatusExecuted (pl_CanonicalChecksum p) (pl_CanonicalPayload p) p.

Lemma hydrate_evolves (cond : DeploymentPlan -> bool) h s plans :
  (cond h = true -> pl_Status h = DeploymentPlanStatusReady) ->
  evolves (hydrateDeploymentPlan h s) (hydrateDeploymentPlan (if cond h then executed h else h) (set_plan_rows plans s)).
Proof. intros Hc. destruct (cond h); [|by left]. right. split; [by apply Hc|done]. Qed.

Lemma execute_preserves id org s res s' :
  plans_inv s -> stored_consistent s -> RunSTx (markDeploymentPlanExecuted id org) s = (res, s') -> preserves s s'.
Proof.
  intros Hinv Hcons [(u & _ & E)|(e & _ & _ & ->)]%RunSTx_cases; [|by apply preserves_refl].
  unfold markDeploymentPlanExecuted in E.
  set (cond := λ p, bool_decide (pl_ID p = id) && bool_decide (pl_OrganizationID p = org)
                    && bool_decide (pl_Status p = DeploymentPlanStatusReady)) in E.
  assert (forall h, cond h = true -> pl_Status h = DeploymentPlanStatusReady) as Hcond
    by (unfold cond; intros h Hh; by to_prop).
  case_match; [|done]. injection E as _ <-. change (update_where cond _) with (update_where cond executed).
  assert (pl_ID <$> update_where cond executed (PlanRows s) = pl_ID <$> PlanRows s) as Eids by by apply fmap_update_where.
  assert (plans_inv (set_plan_rows (update_where cond executed (PlanRows s)) s)) as Hinv'.
  { destruct Hinv. split; cbn [PlanRows set_plan_rows]; by rewrite Eids. }
  split_and!; [done| |].
  - intros h (g & -> & Hg)%list_elem_of_fmap. eapply consistent_evolves; [by apply (Hcons g)|].
    apply hydrate_evolves. apply Hcond.
  - intros i o x (h & Hh & E1 & E2 & ->)%getDeploymentPlan_ok; [|apply Hinv].
    eexists. split; [|apply (hydrate_evolves cond); apply Hcond]. apply getDeploymentPlan_ok; [apply Hinv'|].
    exists (if cond h then executed h else h). split_and!; [|by destruct (cond h)..|done].
    by apply (list_elem_of_fmap_2 (λ x, if cond x then executed x else x)).
Qed.

Lemma same_plans_preserves s s' : plans_inv s -> stored_consistent s -> same_plans s s' -> preserves s s'.
Proof.
  intros Hinv Hcons (E1 & E2 & E3 & E4 & E5 & E6).
  assert (forall h, hydrateDeploymentPlan h s' = hydrateDeploymentPlan h s) as Eh.
  { intros h. unfold hydrateDeploymentPlan, getDeploymentPlanTargets, getDeploymentPlanTargetComponents,
      getDeploymentPlanSteps, getDeploymentPlanVariables, getDeploymentPlanIssues. by rewrite E2, E3, E4, E5, E6. }
  split_and!.
  - destruct Hinv. split; by rewrite E1, ?E2, ?E3, ?E4, ?E5, ?E6.
  - intros h. rewrite E1, Eh. apply Hcons.
  - intros id org p Hp. exists p. split; [|by left]. revert Hp. unfold getDeploymentPlan. rewrite E1.
    destruct (find_row _ _); [|done]. simpl. by rewrite Eh.
Qed.

Lemma steps_preserve s s' : plans_inv s -> stored_consistent s -> rtc plans_step s s' -> preserves s s'.
Proof.
  intros Hinv Hcons Hs. induction Hs as [s|s s1 s' Hstep _ IH]; [by apply preserves_refl|].
  assert (preserves s s1) as (Hinv1 & Hcons1 & Hk1).
  { destruct Hstep; [by eapply create_preserves|by eapply execute_preserves|by apply same_plans_preserves]. }
  destruct (IH Hinv1 Hcons1) as (Hinv' & Hcons' & Hk'). split_and!; [done..|].
  intros id org p Hp. destruct (Hk1 id org p Hp) as (q & Hq & Eq). destruct (Hk' id org q Hq) as (t & Ht & Et).
  exists t. split; [done|]. by eapply evolves_trans.
Qed.

Definition no_plans (s : pldb) : Prop := same_plans s (set_plan_rows [] (set_part_rows [] [] [] [] [] s)).


(** ** A valid contract that no plan can carry *)

Lemma target_count env org ids s targets :
  resolveDeploymentPlanTargets env org ids s = Ok targets -> length targets = length ids.
Proof.
  unfold resolveDeploymentPlanTargets. case_match eqn:E; [done|]. intros [= <-]. to_prop. by rewrite length_imap.
Qed.

Lemma request_targets r : validateDeploymentPlanRequest r = Ok tt -> length (cr_TargetIDs r) <> 0.
Proof.
  unfold validateDeploymentPlanRequest. rewrite !fail_if_bind, !if_err_ok. intros (_ & _ & _ & Hn & _). by to_prop.
Qed.

Lemma contract_component_some contract name :
  name ∈ cmp_Name <$> default [] (rc_Components contract) -> exists x, contract_component contract name = Some x.
Proof.
  intros (c & -> & Hc)%list_elem_of_fmap. unfold contract_component. destruct (last _) as [x|] eqn:E; [by exists x|].
  apply last_None in E. assert (c ∈ @nil ReleaseContractComponent) as []%elem_of_nil. rewrite <- E.
  apply elem_of_select_where. split; [done|]. by apply bool_decide_eq_true.
Qed.

Context `{StrictSemver, UrlReferenceParser}.

(** A contract can be valid and yet make every plan of its release fail. The
    validation admits upper-case digits in the checksum of the service
    configuration and the normalization keeps them; the table of the components
    of a plan admits lower-case digits only, so the creation fails and leaves
    no trace. *)
Theorem uppercase_checksum_unplannable env r s bundle contract components res s' :
  GetReleaseBundle (cr_ReleaseBundleID r) (cr_OrganizationID r) s = Ok bundle ->
  brow_ReleaseContract bundle = Some contract ->
  ValidateReleaseContract contract components = [] ->
  lower_digest (cfg_ServiceConfigChecksum (rc_Config (NormalizeReleaseContract contract))) = false ->
  CreateDeploymentPlan env r s = (res, s') ->
  (exists e, res = Err e) /\ s' = s.
Proof.
  intros Hb Hcontract Hvalid Hlower Hcreate. unfold CreateDeploymentPlan in Hcreate.
  destruct (validateDeploymentPlanRequest r) as [[]|e] eqn:Hv; [|injection Hcreate as <- <-; split; [by exists e|done]].
  apply RunSTx_cases in Hcreate as [(plan & _ & E)|(e & -> & _ & ->)]; [|split; [by exists e|done]]. exfalso.
  apply create_plan_ok in E as (p & payload & Hr & _ & _ & _ & Hok & _).
  apply resolve_ok in Hr as (bundle' & targets & Hb' & Ht & Hc). rewrite Hb in Hb'. injection Hb' as <-.
  destruct (completed_components _ _ _ _ _ _ Hc) as [_ Hcov].
  destruct (valid_affects _ _ Hvalid) as (name & Haff & [x Hx]%contract_component_some).
  assert (pl_ReleaseContract p = Some (NormalizeReleaseContract contract)) as Ep.
  { rewrite (f_equal pl_ReleaseContract (cp_core _ _ _ _ _ Hc) : pl_ReleaseContract p = NormalizedReleaseContract (brow_ReleaseContract bundle)).
    by rewrite Hcontract. }
  assert (pl_Targets p = targets) as Et by exact (f_equal pl_Targets (cp_core _ _ _ _ _ Hc)).
  destruct targets as [|t targets].
  { apply target_count in Ht. by apply request_targets in Hv. }
  destruct (Hcov _ t name x Ep) as (c & Hcin & _); [rewrite Et; by left|done..|].
  rewrite Forall_forall in Hok. specialize (Hok (component_row (final_plan p payload) c)).
  assert (tc_ConfigChecksum c = cfg_ServiceConfigChecksum (rc_Config (NormalizeReleaseContract contract))) as Ecs.
  { rewrite (cp_components _ _ _ _ _ Hc) in Hcin.
    apply component_from in Hcin as (contract' & k & u & i & y & Ec & _ & _ & ->); [|done].
    simpl in Ec. rewrite Hcontract in Ec. by injection Ec as <-. }
  unfold component_ok in Hok. cbn [tc_ConfigChecksum component_row] in Hok. rewrite Ecs, Hlower in Hok.
  rewrite andb_false_r in Hok. by discriminate Hok; apply list_elem_of_fmap_2.
Qed.
End tables.

(** ** Witnesses *)

Module PlanDemo.
#[export] Instance validator : SchemaValidator := {| schema_error := λ _ _, None |}.
#[export] Instance bytes : Collation := {| name_less := string_less |}.
#[export] Instance identity : Crypto := {| sha256_hex := λ s, s |}.
#[export] Instance same_text : Jsonb := {| jsonb_text := Some |}.
#[export] Instance versions : StrictSemver :=
  {| semver_version := string; StrictNewVersion := Some; LessThan := string_less |}.
#[export] Instance https : UrlReferenceParser := {|
  url_Parse s := Some {| pu_Scheme := "https"; pu_Opaque := ""; pu_HasUser := false; pu_Host := "ci"; pu_Path := "/";
                         pu_RawQuery := ""; pu_Fragment := "" |} |}.

Definition digest (digit : string) : string := "sha256:" +:+ String.concat "" (replicate 64 digit).

Definition contract (digit : string) : ReleaseContract := {|
  rc_Schema := "distr.release-contract/v1";
  rc_Source := {| src_Repository := "git"; src_Branch := "main"; src_SourceCommit := "abcdef1"; src_BuiltCommit := "abcdef1" |};
  rc_Build := {| bld_ExternalID := "7"; bld_ExternalURL := "https://ci/7" |};
  rc_Components := Some [{| cmp_Name := " api"; cmp_Version := "1.0.0"; cmp_Image := "api@" +:+ digest "a";
                            cmp_Platform := "Linux/amd64"; cmp_Contracts := None |}];
  rc_Compatibility := {| cpt_Requires := None; cpt_AffectedComponents := Some ["api"; "api "] |};
  rc_Operations := {| ops_MigrationRequired := false; ops_ConfigChangeRequired := false |};
  rc_Config := {| cfg_RepositoryCommit := "abcdef1"; cfg_ComposePath := "compose.yaml"; cfg_ServiceConfigPath := "service.yaml";
                  cfg_ComposeChecksum := digest "b"; cfg_ServiceConfigChecksum := digest digit; cfg_ImmutableObjects := None |};
  rc_Changes := {| chg_Summary := "first"; chg_Commits := None |} |}.

Definition components : list ReleaseBundleComponent :=
  [{| bc_Key := "api"; bc_Name := "api"; bc_Type := ComponentOCIImage; bc_Version := "1.0.0";
      bc_ApplicationVersionID := None; bc_PackageRef := "api"; bc_Digest := digest "a"; bc_Checksum := "";
      bc_ChildReleaseBundleID := None |}].

Definition bundle (digit : string) : ReleaseBundleRow := {|
  brow_ID := uid 2; brow_OrganizationID := uid 1; brow_ApplicationID := uid 3; brow_ChannelID := uid 4;
  brow_Status := ReleaseBundleStatusPublished; brow_ProcessSnapshotID := Some (uid 8);
  brow_VariableSnapshotID := Some (uid 9); brow_ReleaseContract := Some (contract digit) |}.

Definition step (key : string) (order : Z) (channels : list uuid) (condition : string) : DeploymentProcessStep := {|
  ds_ID := Nil; ds_DeploymentProcessRevisionID := Nil; ds_Key := key; ds_Name := key; ds_ActionType := "distr.wait";
  ds_StepTemplateVersionID := None; ds_ExecutionLocation := "target"; ds_InputBindings := None;
  ds_Condition := condition; ds_ChannelIDs := channels; ds_EnvironmentIDs := []; ds_TargetTags := [];
  ds_FailureMode := ""; ds_TimeoutSeconds := 60; ds_RetryMaxAttempts := 0; ds_RetryIntervalSeconds := 0;
  ds_RequiredPermissions := []; ds_SortOrder := order; ds_Dependencies := [] |}.

Definition variable (key : string) (default_ : option string) : types_Variable := {|
  v_ID := uid 20; v_VariableSetID := uid 21; v_Key := key; v_Type := VariableTypeString; v_IsRequired := true;
  v_DefaultValue := default_; v_ReferenceID := ""; v_ReferenceName := ""; v_ScopedValues := [] |}.

Definition state : TargetComponentState := {|
  cs_OrganizationID := uid 1; cs_DeploymentTargetID := uid 6; cs_ApplicationID := uid 3; cs_Component := "api";
  cs_StateVersion := 4; cs_StateChecksum := digest "c"; cs_ReleaseBundleID := uid 30; cs_Version := "0.9.0";
  cs_Image := "api"; cs_Platform := "linux/amd64"; cs_Contracts := []; cs_ConfigReference := ""; cs_ConfigChecksum := "";
  cs_Health := "HEALTHY"; cs_ObservedAt := 0 |}.

(** The tables; [value] is the default of the variable. *)
Definition tables (digit : string) (value : option string) : pldb := {|
  LiveOrganizations := [uid 1];
  TargetRows := [{| trow_ID := uid 7; trow_OrganizationID := uid 1; trow_Name := "two"; trow_Type := "docker";
                    trow_Platform := "linux/amd64"; trow_CustomerOrganizationID := None |};
                 {| trow_ID := uid 6; trow_OrganizationID := uid 1; trow_Name := "one"; trow_Type := "docker";
                    trow_Platform := "linux/amd64"; trow_CustomerOrganizationID := None |}];
  BundleRows := [bundle digit]; EnvironmentRows := [(uid 5, uid 1)];
  ChannelRows := [{| crow_ID := uid 4; crow_OrganizationID := uid 1; crow_LifecycleID := uid 10 |}];
  LifecycleRows := [{| lrow_ID := uid 10; lrow_OrganizationID := uid 1; lrow_Phases :=
    [{| ph_ID := uid 11; ph_Name := "prod"; ph_SortOrder := 0; ph_EnvironmentIDs := [uid 5]; ph_Optional := false;
        ph_AutomaticPromotion := false; ph_MinimumSuccessfulDeployments := 0; ph_ApprovalPolicyID := None;
        ph_RetentionPolicyID := None |}] |}];
  StateRows := [state];
  ProcessSnapshotRows := [{| psn_ID := uid 8; psn_OrganizationID := uid 1; psn_ApplicationID := uid 3; psn_Steps :=
    Some [step "deploy" 2 [] ("output(" +:+ q "check" +:+ ", " +:+ q "ok" +:+ ") == true"); step "check" 1 [uid 4] "";
          step "other" 1 [uid 44] "always()"] |}];
  VariableSnapshotRows := [{| vsn_ID := uid 9; vsn_OrganizationID := uid 1; vsn_ApplicationID := uid 3;
    vsn_ChannelID := uid 4; vsn_Resolution := Some {| vsn_ResolutionMode := ResolutionModeTarget;
      vsn_Variables := [variable "url" value]; vsn_Values := [] |} |}];
  CapabilityReports := [{| acr_OrganizationID := uid 1; acr_DeploymentTargetID := uid 6;
                           acr_SupportedActions := [("distr.wait", ["1"])] |}];
  PlanRows := []; PlanTargetRows := []; PlanComponentRows := []; PlanStepRows := []; PlanVariableRows := [];
  PlanIssueRows := [] |}.

Definition env (n : N) : plenv := {|
  new_plan_id := uid n; new_target_id i := uid (n + 100 + N.of_nat i); new_component_id i := uid (n + 200 + N.of_nat i);
  new_planstep_id i := uid (n + 300 + N.of_nat i); new_variable_id i := uid (n + 400 + N.of_nat i);
  new_issue_id i := uid (n + 500 + N.of_nat i) |}.

Definition request : CreateDeploymentPlanRequest :=
  {| cr_OrganizationID := uid 1; cr_ReleaseBundleID := uid 2; cr_EnvironmentID := uid 5; cr_TargetIDs := [uid 7; uid 6] |}.

Definition summary (r : result apierror DeploymentPlan) :=
  match r with
  | Ok p => Some (pl_Status p, (λ t, dt_Name t) <$> pl_Targets p,
      (λ c, (tc_Component c, tc_ExpectedStateVersion c)) <$> pl_TargetComponents p,
      (λ t, (st_StepKey t, st_ExcludedReason t)) <$> pl_Steps p, iss_Code <$> pl_Issues p)
  | Err _ => None
  end.

Example demo_ready :
  summary (fst (CreateDeploymentPlan (env 1000) request (tables "c" (Some (q "x")))))
  = Some (DeploymentPlanStatusReady, ["one"; "two"], [("api", 4%Z); ("api", 0%Z)],
          [("check", ""); ("other", "channel_scope_mismatch"); ("deploy", "")], ["dry_run_not_performed"]).
Proof. vm_compute. reflexivity. Qed.
End PlanDemo.

Section witnesses.
Import PlanDemo.

Definition blank_plan : DeploymentPlan := initial_plan (env 1000) request (bundle "c") [].
Definition resolved (digit : string) (value : option string) : DeploymentPlan :=
  ok_or blank_plan (resolveDeploymentPlan (env 1000) request (tables digit value)).
Definition created (digit : string) (value : option string) : DeploymentPlan :=
  ok_or blank_plan (fst (CreateDeploymentPlan (env 1000) request (tables digit value))).
Definition after (digit : string) (value : option string) : pldb :=
  snd (CreateDeploymentPlan (env 1000) request (tables digit value)).

(** Without a value for the required variable the plan is not ready, because of the variables. *)
Lemma plan_ready_iff_witness :
  pl_Status (resolved "c" (Some (q "x"))) = DeploymentPlanStatusReady
  /\ pl_Status (resolved "c" None) = DeploymentPlanStatusBlocked
  /\ variables_resolved (tables "c" (Some (q "x"))) request (bundle "c") (resolved "c" (Some (q "x"))).
Proof.
  destruct (plan_ready_iff (env 1000) request (tables "c" (Some (q "x"))) (bundle "c") (resolved "c" (Some (q "x"))))
    as [_ Hr]; [by vm_compute..| |].
  - apply (bool_decide_unpack _). vm_compute. exact I.
  - assert (pl_Status (resolved "c" (Some (q "x"))) = DeploymentPlanStatusReady) as E by by vm_compute.
    split_and!; [exact E|by vm_compute|]. apply Hr in E as (_ & _ & Hv & _). exact Hv.
Defined.

Lemma plan_contents_witness :
  dt_DeploymentTargetID <$> pl_Targets (resolved "c" None) ≡ₚ [uid 7; uid 6] /\ numbered (resolved "c" None).
Proof.
  destruct (plan_contents (env 1000) request (tables "c" None) (bundle "c") (resolved "c" None))
    as (_ & Ht & _ & _ & _ & _ & Hn); [|by vm_compute..|done].
  apply (bool_decide_unpack _). vm_compute. exact I.
Defined.

Lemma demo_inv digit value : plans_inv (tables digit value).
Proof. split; [constructor|..]; by intros x Hx%elem_of_nil. Qed.



Lemma uppercase_checksum_unplannable_witness :
  ValidateReleaseContract (contract "C") components = []
  /\ snd (CreateDeploymentPlan (env 1000) request (tables "C" None)) = tables "C" None
  /\ fst (CreateDeploymentPlan (env 1000) request (tables "C" None))
     = Err (BadRequest "could not insert target components DeploymentPlan").
Proof.
  assert (ValidateReleaseContract (contract "C") components = []) as Hv by by vm_compute.
  destruct (uppercase_checksum_unplannable (env 1000) request (tables "C" None) (bundle "C") (contract "C") components
    (fst (CreateDeploymentPlan (env 1000) request (tables "C" None))) (snd (CreateDeploymentPlan (env 1000) request (tables "C" None))))
    as [_ Hs]; [by vm_compute|done|exact Hv|by vm_compute|apply surjective_pairing|].
  split_and!; [exact Hv|exact Hs|by vm_compute].
Defined.
End witnesses.
